(* ===== verification/_CoqProject ===== *)
-Q . S2P
Prelude.v
NgxNumber.v
Crc32.v
NgxParse.v
NgxSprintf.v
NgxTime.v
HttpTime.v
NgxTimes.v
NgxRbtree.v
NgxRbtreeShape.v
NgxRbtreeRotate.v
NgxRbtreeBalance.v
NgxRbtreeInsert.v
NgxRbtreeSpec.v
NgxRbtreeDelete.v
NgxRbtreeRemove.v
NgxRbtreeRefine.v
NgxTimer.v
NgxTimerRun.v
NgxBase64.v
NgxUtf8.v
NgxEscape.v
NgxCompare.v
NgxQueue.v
NgxMem.v
NgxHash.v
NgxHashSpec.v
NgxHashTable.v
NgxHashWild.v
NgxHashLabels.v
NgxHashWildSpec.v
NgxHashWildFind.v
NgxHashKeys.v
NgxHashKeysOk.v
NgxHashKeysSpec.v
NgxHashCollect.v
NgxHashKept.v
HttpHost.v
NgxVariables.v
HttpRequest.v
HttpRequestSafe.v
HttpRequestRead.v
HttpUri.v
HttpUriSafe.v
HttpUriResolve.v
HttpChunked.v
HttpBody.v
HttpBodySpec.v
HttpBodyRead.v
HttpHeader.v
HttpHeaderSpec.v
HttpHandlers.v
HttpHandlersSpec.v
HttpServerNames.v
HttpServerNamesSpec.v
HttpLocation.v
HttpLocationSpec.v
HttpLocationFind.v
HttpLocationRule.v
HttpParse.v
HttpArgs.v
NewLogFormat.v
NewLogClock.v
RdMsg.v
RdProto.v
RdTopic.v
RdProducer.v
RdRequest.v
RdBroker.v
RdBrokerSound.v
RdBrokerSpec.v
KafkaApi.v
NewLogHandler.v
NewLogConf.v
NewLogBlocks.v
ConfToken.v
ConfTokenRead.v
ConfParse.v
ConfTree.v
NewLogText.v
