(* ===== verification/Prelude.v ===== *)
(** * xpod: log collection with nginx and Kafka

    ** The program

    xpod collects the access logs of web servers.  An nginx server (1.4.2, in
    [src/nginx_collect_log]) is built with a log module of the project,
    [new_access_log/ngx_new_log_module.c], which formats a line for every
    request and sends it to a Kafka topic, and optionally to a file.  The
    messages go through librdkafka (in [src/nginx_kafka/librdkafka-master/src]).
    Java and Scala programs read the topics on the other side.

    The parts and how they work together:
    - the server reads a request: its line, from which the path is decoded,
      its headers, whose handlers are looked up by name, and its body, of a
      given length or in chunks; the host of the request chooses among the
      servers of its address by their names, and its path among the locations
      of the server, which decides whether and how it is logged;
    - the configuration reader cuts the text of the configuration into words,
      follows included files and calls the directive handlers of the log module,
      which compile formats into arrays of operations, register files and
      remember the brokers;
    - the event loop keeps a cached clock, with the dates of responses and log
      lines printed once a second, and fires the timers of its red-black tree;
    - in a worker process the log phase of a request calls
      [ngx_new_log_handler], which runs the operations of each log, reading
      variables of the request by index, into a buffer or a line of its own;
    - [ngx_new_log_write] makes the Kafka instance and the topic on first use,
      produces the bytes, polling and retrying while the producer queue is
      full, and writes them to the file, plain, compressed or through a
      scripted path;
    - librdkafka gives a message to a partition queue, or to the unassigned
      partition until metadata of the topic arrives; metadata replies change
      the number of partitions and their leaders and redistribute messages;
      a periodic scan fails messages that waited too long; the application
      collects delivery reports by polling;
    - the thread of a broker takes the messages of its partitions into produce
      requests, sends them, matches replies to requests, and reports, retries
      or requeues their messages.

    ** The files

    - [Prelude]: bytes, literals, machine integers, allocation outcomes,
      tactics and shared lemmas.
    - [NgxNumber], [NgxSprintf], [NgxBase64], [NgxUtf8], [NgxEscape], [NgxCompare]:
      [core/ngx_string.c], by theme: numbers, [ngx_vslprintf], base64, UTF-8, URI
      and HTML escaping, comparison, search and [ngx_sort].
    - [NgxQueue]: [core/ngx_queue.h] and [ngx_queue.c] on a memory of links.
    - [NgxParse]: [core/ngx_parse.c], sizes and times.
    - [NgxTime], [HttpTime], [NgxTimes]: the calendar of [ngx_gmtime], the dates
      of HTTP ([ngx_http_time], [ngx_http_cookie_time], [ngx_http_parse_time]) and
      the time cache of [core/ngx_times.c] with its 64 slots, under any sequence
      of updates by the event loop and by signals.
    - [NgxRbtree]: [core/ngx_rbtree.c] on a memory of linked nodes;
      [NgxRbtreeShape], [NgxRbtreeRotate]: when a memory holds a tree, and what a
      rotation does to it; [NgxRbtreeBalance], [NgxRbtreeInsert],
      [NgxRbtreeDelete], [NgxRbtreeRemove]: insertion and deletion keep the
      colours and links; [NgxRbtreeSpec], [NgxRbtreeRefine]: the list of keys and
      nodes that the memory implements.
    - [NgxTimer], [NgxTimerRun]: [event/ngx_event_timer.c], on the tree; the
      class [TimerHandler] states what a handler may do to the timers.
    - [Crc32]: the checksums of [rdcrc32.c] and [core/ngx_crc32.c].
    - [HttpRequest], [HttpRequestSafe], [HttpRequestRead]: the parser of request
      lines in [http/ngx_http_parse.c]; what its pointers delimit for any input;
      reading back a line that was written.
    - [HttpUri], [HttpUriSafe], [HttpUriResolve]: [ngx_http_parse_complex_uri]
      and [ngx_http_process_request_uri]; the safety of every path; equality
      with decoding followed by resolution with a stack.
    - [HttpChunked]: [ngx_http_parse_chunked] and the grammar of chunked bodies.
    - [HttpBody], [HttpBodySpec], [HttpBodyRead]:
      [http/ngx_http_request_body.c]: filters, buffers and the temporary file;
      the class [FilterLaws] of what the reader relies on in a filter, with both
      filters as instances; the reader, against the class.
    - [HttpHeader], [HttpHeaderSpec]: [ngx_http_parse_header_line] and the loop
      of [ngx_http_process_request_headers].
    - [NgxMem]: blocks of memory, bytewise; [NgxHash], [NgxHashSpec],
      [NgxHashTable]: the tables of [core/ngx_hash.c] in such blocks, and what
      they find; [NgxHashWild], [NgxHashLabels], [NgxHashWildSpec],
      [NgxHashWildFind]: tables with wildcards, label by label, and the longest
      match in them; [NgxHashKeys], [NgxHashKeysOk], [NgxHashKeysSpec],
      [NgxHashCollect], [NgxHashKept]: collecting the keys of tables, the shape
      of its arrays, and which names are kept.
    - [HttpHost]: [ngx_http_validate_host].
    - [HttpHandlers], [HttpHandlersSpec]: the table [ngx_http_headers_in] with the
      handlers of known headers and [ngx_http_process_request_header].
    - [HttpServerNames], [HttpServerNamesSpec]: the directive [server_name],
      [ngx_http_server_names] and [ngx_http_find_virtual_server].
    - [HttpLocation]: the directive [location], the queues and trees of locations
      in [http/ngx_http.c] and the search in [http/ngx_http_core_module.c];
      [HttpLocationSpec]: what a tree finds that is made of a sorted queue;
      [HttpLocationFind]: sorting and joining; [HttpLocationRule]: the rule for
      the location of a request.
    - [HttpParse]: [ngx_http_parse_uri], [ngx_http_parse_unsafe_uri],
      [ngx_http_split_args] and the status lines of backends.
    - [HttpArgs]: [ngx_http_arg], [ngx_http_parse_multi_header_lines] and the
      variables [arg_] and [cookie_].
    - [NgxVariables]: the indexed variables of [http/ngx_http_variables.c] and
      the flushing of [http/ngx_http_script.c].
    - [NewLogFormat]: formats of the log module: operations, their lengths and
      runs, the compiler, the escaping.
    - [NewLogClock]: the time operations of the log module on the time cache.
    - [RdMsg]: [rdkafka_msg.c], [rdkafka_msg.h]: message queues, production,
      batches, partitioners, timeouts, reports.
    - [RdTopic]: [rdkafka_topic.c]: partitions, leaders, metadata, the scan.
    - [RdProducer]: one instance under any sequence of calls and events.
    - [RdProto]: the wire format: strings, messages, message sets, buffers of
      requests, reassembly of responses ([rdkafka_proto.h], [rdkafka_broker.c]).
    - [RdRequest]: making a produce request from a partition's queue.
    - [RdBroker], [RdBrokerSound], [RdBrokerSpec]: the producer side of a
      broker's thread ([rdkafka_broker.c]) as events in any order: its state and
      steps, its invariant, and what it guarantees.
    - [KafkaApi]: what the log module uses of the library, as the class
      [KafkaApi] with the laws [KafkaLaws]; the producer is an instance.
    - [NewLogHandler]: the run time of the log module, against [KafkaApi].
    - [NewLogConf]: its directives, with [ngx_conf_open_file] of
      [core/ngx_conf_file.c], merging a location with the enclosing one, and what
      makes the logs of a location ready for a worker.
    - [NewLogBlocks]: the configuration of a whole server: the blocks [http],
      [server] and [location] with their directives, merged as
      [ngx_http_merge_servers] and [ngx_http_merge_locations] do, up to a worker.
    - [ConfToken], [ConfTokenRead]: [ngx_conf_read_token] with its buffer of 4096
      bytes; equality with reading the whole text at once; reading back
      statements that were written.
    - [ConfParse], [ConfTree]: [ngx_conf_parse], [ngx_conf_handler],
      [ngx_conf_include], [ngx_conf_param] and the checks of a directive, for any
      modules; the tree of directives that a text means.
    - [NewLogText]: [ngx_new_log_commands] in this reader, from the text of a
      configuration to the state of the log module.

    Definitions have the names of the C functions they translate; a loop of a
    C function is a function of its own, named in its comment.

    ** How C is modelled

    A byte is a [Z] below 256, a string or a buffer a list of bytes.  Integers
    are [Z], wrapped to their width where the code could exceed it.  Pointers
    to structures in an array are indices.  Undefined behaviour (a read or
    write out of bounds, a null pointer, freed or uninitialised memory) and
    failed assertions of the library are values: [None], [Fault] or [FmtUB]
    according to the file, so that safety theorems exclude them.  What the
    environment decides is an argument of a run: which allocations and core
    calls succeed ([allocs], [call]), what system calls answer
    ([write_result]), what the library's threads do while the caller polls
    ([k_bg]).  An empty list of outcomes stands for success, so finite lists
    describe every run.  Functions behind a pointer or in other libraries
    (variable handlers, partitioners, zlib) are parameters, with what the code
    relies on as named hypotheses.  Locks have no state: an operation runs as
    one step, and interleavings are sequences of steps.

    ** What the theorems show

    - The producer ([RdMsg], [RdProducer]): a produce call queues the message
      on the partition that its topic and key determine, or refuses it with the
      error that the state determines and changes nothing.  Under every sequence of events no assertion fails, the
      count of messages is exact and within its limit, and every accepted
      message is held or was reported, once.
    - The broker's thread ([RdBrokerSpec], [RdProto], [Crc32]): under any
      interleaving of events no message is lost or reported twice; a request
      carries the first messages of its queue and is read back as these; a pass
      sends everything that is due; bytes leave in order however the socket
      cuts them; a reply decides about exactly its request; responses are
      reassembled whole; the table-driven checksums equal the bitwise one.
    - Requests ([Http*]): request lines, headers, status lines and chunked
      bodies are read back as they were written, whatever pieces they arrive
      in (a refused piece leaves the position and the state of the parser as they
      were); for any input the pointers of request and header lines delimit parts
      of the line, the loop over the headers ends, and an accepted path without
      spaces has no segment that leads elsewhere and fits its memory; the
      one-pass decoder of URIs equals decoding followed by resolution; a body
      is received exactly, and as soon as its last byte has arrived; a variable
      of an argument is the first field of the query string with its name, and
      looking for it reads no byte outside of the string.
    - Headers and servers ([HttpHandlers], [HttpHost], [HttpServerNames]): known
      headers are kept as the code of the server expects them, the length of a
      body is that of the one header that delimits it, host names are safe as
      parts of paths, and a host gets the server with its exact name, else with
      the longest matching wildcard, else with the first matching expression.
    - Locations ([HttpLocation*], [NgxQueue]): from the directives to the request,
      the location is the exact one, else the longest prefix unless an
      expression matches, with the redirects that are possible; sorting a queue
      on its links is the stable sort and leaves other nodes alone.
    - Hash tables ([NgxHash*]): building is defined and fails only for want of
      room or memory; a table finds exactly what it was made of; collecting keys
      keeps the shape of its arrays for any input, until a call runs out of
      memory: such a call can leave a name without text behind, and a later
      comparison with it is undefined.
    - Logging ([NewLogHandler], [NewLogConf], [NewLogBlocks]): a location that,
      after merging, has one log is logged by a fresh
      worker without faults, request after request, and one without any log
      directive, which gets the default log, never returns from its first
      request.  Each line is in the stream of its file once, written or
      buffered, and on the way to its topic behind the lines before it; a
      flush by the timer gives the buffered lines to the file only, so these
      do not reach the topic.  The theorems on two topics, on the default log
      and on the end of Kafka logging after an error show where the module
      does not do what it should.
    - Configuration text ([Conf*], [NewLogText]): words do not depend on how the
      buffer of the reader cuts the file; a printed statement is read back; a text
      runs exactly the directives of the tree it writes, or stops at the first
      that is refused; the directives of the log module configure it as calling
      their handlers does.
    - Time ([NgxTime], [HttpTime], [NgxTimes], [NewLogClock]): the calendar
      arithmetic equals counting the days one by one; dates are parsed back
      as they were printed; an update shows its second in every text, and a text
      taken by a reader stays as it was through the updates that the slots allow
      for; the time operations of a log fit the space they declare.
    - Trees and timers ([NgxRbtree*], [NgxTimer*]): insertion and deletion keep
      a red-black tree of logarithmic depth and implement insertion into and
      deletion from a sorted list; exactly the timers
      that are due fire, also where the clock wraps around, and with handlers that
      set and delete timers.
    - Formats ([NewLogFormat]): compilation ends in well-formed operations that
      denote the format; the line written fits the space measured for it.
    - The string library: exact or bounded output sizes, round trips of
      numbers, base64 and escaping, stability of the sort, first match of the
      search, the meaning of times; and the places where overflow tests fail.

    ** Fuel

    Loops that are not structural take fuel equal to the length of what they
    consume ([time_loop], [compile_arg], the loops of [NgxSprintf] and
    [NgxEscape]); each step consumes at least one element, and the theorems
    state results, not only partial correctness.  [gzip_window] has fuel 15
    for at most six steps.  [produce_loop] takes one poll outcome per retry:
    the C loop has no bound, and [Blocked] says that the given polls did not
    suffice.  [chunked_turns] takes one turn per byte and one more, and so does
    [read_headers]; a turn that goes on takes at least a byte
    ([headers_terminate] states the latter for every input).  A receive of a
    body is an event of the run, so the reader needs no fuel.  Walks in a
    red-black tree have the number of nodes and one more ([tree_fuel]), the
    expiry of timers the number of events and one more, each turn removing one
    unless its handler sets it again for later.  Reading a word has the number
    of unread bytes and one more, the configuration loop any fuel above the
    length of the text; [conf_text_means] states the result for all of these.
    A search in a bucket has the bytes of its block and one more, one in tables
    with wildcards the length of the name and one more; their building has the
    length of the longest name and one more, since the names of a next table are
    shorter; [server_found] states the results.  Loops over a queue have the size
    of the memory; nesting a queue of locations has its length, its tree the
    number of elements and one more, and the functions that go from a location
    to those inside of it the depth of nesting and one more, two in
    [location_found].

    ** What is not modelled

    Of librdkafka the connecting and metadata side of the broker threads, the
    decompressors, its consumer, reference counts and the destruction of
    topics; of nginx the process and event machinery but the timers, the slot
    setters of directives, [ngx_next_time], the code for threads, the phases and
    modules around the log phase, further buffers for long request lines and
    headers, discarding a body, the memory pools and arrays as such, the mail
    proxy and the stock modules; floating-point conversion in [ngx_string.c];
    log messages; the Java and Scala programs.  The rest is code that the log module does not
    reach, or calls of the operating system.  [HttpLocation] has locations
    inside of others, but [location_found] is about a server without them. *)

From stdpp Require Export prelude list.
From Stdlib Require Export ZArith Lia Ascii.
From stdpp Require Export strings.

#[global] Open Scope Z_scope.

(** ** Characters and literals

    A byte ([u_char]) is a [Z] in [0 .. 255]; a counted string ([ngx_str_t])
    or a buffer is a list of bytes.  [chr "a"] is the code of a character and
    [lit "abc"] the bytes of a literal; both elaborate to plain numerals, so
    [lia] and [vm_compute] see through them. *)

Definition byte_of_ascii (a : Ascii.ascii) : Z := Z.of_N (Ascii.N_of_ascii a).

Definition bytes_of_string (s : String.string) : list Z :=
  map byte_of_ascii (String.list_ascii_of_string s).

Notation "'chr' x" :=
  (ltac:(let y := eval vm_compute in (byte_of_ascii x%char) in exact y))
  (at level 1, x at level 0, only parsing).

Notation "'lit' x" :=
  (ltac:(let y := eval vm_compute in (bytes_of_string x%string) in exact y))
  (at level 1, x at level 0, only parsing).

Abbreviation LF := 10 (only parsing).
Abbreviation CR := 13 (only parsing).

Definition is_byte (b : Z) : Prop := 0 <= b < 256.

Definition is_byteb (b : Z) : bool := (0 <=? b) && (b <? 256).

Abbreviation bytes l := (Forall is_byte l).

(** ** Machine integers

    The build is for a 64-bit Unix ([NGX_PTR_SIZE] 8): [ngx_int_t],
    [ssize_t], [off_t] and [time_t] are signed and [ngx_uint_t], [size_t] and
    [uintptr_t] unsigned 64-bit integers. Signed arithmetic wraps around in
    two's complement, which is what the overflow tests of the sources
    ([value < 0]) rely on. *)

Definition u8 (z : Z) : Z := z mod 2 ^ 8.
Definition u16 (z : Z) : Z := z mod 2 ^ 16.
Definition u32 (z : Z) : Z := z mod 2 ^ 32.
Definition u64 (z : Z) : Z := z mod 2 ^ 64.
Definition s32 (z : Z) : Z := (z + 2 ^ 31) mod 2 ^ 32 - 2 ^ 31.
Definition s64 (z : Z) : Z := (z + 2 ^ 63) mod 2 ^ 64 - 2 ^ 63.

(** Return codes of [ngx_core.h] and the widths of [ngx_auto_config.h]. *)

Abbreviation NGX_OK := 0 (only parsing).
Abbreviation NGX_ERROR := (-1) (only parsing).
Abbreviation NGX_AGAIN := (-2) (only parsing).
Abbreviation NGX_DONE := (-4) (only parsing).
Abbreviation NGX_DECLINED := (-5) (only parsing).
Abbreviation NGX_INT64_LEN := 20 (only parsing).

(** ** Tactics *)

(** Case analysis on the first boolean comparison of integers in sight. *)
Ltac zcase :=
  match goal with
  | |- context [ ?a =? ?b ] => destruct (Z.eqb_spec a b)
  | |- context [ ?a <=? ?b ] => destruct (Z.leb_spec a b)
  | |- context [ ?a <? ?b ] => destruct (Z.ltb_spec a b)
  | H : context [ ?a =? ?b ] |- _ => destruct (Z.eqb_spec a b)
  | H : context [ ?a <=? ?b ] |- _ => destruct (Z.leb_spec a b)
  | H : context [ ?a <? ?b ] |- _ => destruct (Z.ltb_spec a b)
  end.

Ltac zcases := repeat (zcase; cbn [andb orb negb] in *; try lia).

(** [lia] with the equations of division and remainder. *)
Ltac divlia := Z.div_mod_to_equations; lia.

(** Reduce [0 <= z < 256] to the 256 closed instances and compute. *)
Ltac byte_enum z :=
  let rec go n :=
    match n with
    | O => exfalso; lia
    | S ?m =>
        let v := eval vm_compute in (255 - Z.of_nat m) in
        destruct (Z.eq_dec z v) as [-> | ?]; [ | go m ]
    end
  in go 256%nat.

Create HintDb ngx.
Create Rewrite HintDb ngx.

(** ** Facts on integers *)

Lemma u64_small z : 0 <= z < 2 ^ 64 -> u64 z = z.
Proof. apply Z.mod_small. Qed.

Lemma u32_small z : 0 <= z < 2 ^ 32 -> u32 z = z.
Proof. apply Z.mod_small. Qed.

Lemma u8_small z : 0 <= z < 256 -> u8 z = z.
Proof. apply Z.mod_small. Qed.

Lemma s64_small z : - 2 ^ 63 <= z < 2 ^ 63 -> s64 z = z.
Proof. intros H. unfold s64. rewrite Z.mod_small; lia. Qed.

Lemma s32_small z : - 2 ^ 31 <= z < 2 ^ 31 -> s32 z = z.
Proof. intros H. unfold s32. rewrite Z.mod_small; lia. Qed.

Lemma u64_range z : 0 <= u64 z < 2 ^ 64.
Proof. apply Z.mod_pos_bound. lia. Qed.

Lemma u32_range z : 0 <= u32 z < 2 ^ 32.
Proof. apply Z.mod_pos_bound. lia. Qed.

Lemma u8_range z : is_byte (u8 z).
Proof. apply Z.mod_pos_bound. lia. Qed.

Lemma s64_range z : - 2 ^ 63 <= s64 z < 2 ^ 63.
Proof.
  unfold s64. pose proof (Z.mod_pos_bound (z + 2 ^ 63) (2 ^ 64)). lia.
Qed.

(** Two integers congruent modulo [2^64] have the same wrapped value. *)
Lemma s64_congr a b : a mod 2 ^ 64 = b mod 2 ^ 64 -> s64 a = s64 b.
Proof.
  intros H. unfold s64. f_equal.
  rewrite (Zplus_mod a), (Zplus_mod b), H. done.
Qed.

Lemma s64_mod z : s64 z mod 2 ^ 64 = z mod 2 ^ 64.
Proof.
  unfold s64. rewrite Zminus_mod_idemp_l. f_equal. lia.
Qed.

(** A wrapped accumulator may be unwrapped under a further linear step. *)
Lemma s64_step a k c : s64 (s64 a * k + c) = s64 (a * k + c).
Proof.
  apply s64_congr.
  rewrite Zplus_mod, Zmult_mod, s64_mod, <- Zmult_mod, <- Zplus_mod. done.
Qed.

(** Counters kept modulo their width: a wrapped operand may be unwrapped. *)
Lemma s32_add_l a b : s32 (s32 a + b) = s32 (a + b).
Proof.
  unfold s32. f_equal.
  replace ((a + 2 ^ 31) mod 2 ^ 32 - 2 ^ 31 + b + 2 ^ 31)
    with ((a + 2 ^ 31) mod 2 ^ 32 + b) by lia.
  rewrite Zplus_mod_idemp_l. f_equal. lia.
Qed.

Lemma s32_add_r a b : s32 (a + s32 b) = s32 (a + b).
Proof. rewrite Z.add_comm, s32_add_l. f_equal. lia. Qed.

Lemma s32_sub_l a b : s32 (s32 a - b) = s32 (a - b).
Proof. apply (s32_add_l a (- b)). Qed.

Lemma u64_add_l a b : u64 (u64 a + b) = u64 (a + b).
Proof. apply Zplus_mod_idemp_l. Qed.

Lemma u64_add_r a b : u64 (a + u64 b) = u64 (a + b).
Proof. apply Zplus_mod_idemp_r. Qed.

Lemma u64_sub_l a b : u64 (u64 a - b) = u64 (a - b).
Proof. apply (u64_add_l a (- b)). Qed.

#[export] Hint Resolve u64_range u32_range u8_range s64_range : ngx.
#[export] Hint Rewrite s32_add_l s32_add_r s32_sub_l u64_add_l u64_add_r u64_sub_l : ngx.
#[export] Hint Rewrite s64_step : ngx.

Lemma is_byteb_spec b : is_byteb b = true <-> is_byte b.
Proof. unfold is_byteb, is_byte. rewrite andb_true_iff. lia. Qed.

#[export] Instance is_byte_dec b : Decision (is_byte b).
Proof. unfold is_byte. apply _. Defined.

Lemma land_ones_u8 z : Z.land z 255 = u8 z.
Proof. apply (Z.land_ones z 8). lia. Qed.

(** ** Facts on lists *)

Lemma Forall_bytes_app l k : bytes (l ++ k) <-> bytes l /\ bytes k.
Proof. apply Forall_app. Qed.

Definition zlen {A} (l : list A) : Z := Z.of_nat (length l).

Lemma zlen_nonneg {A} (l : list A) : 0 <= zlen l.
Proof. unfold zlen. lia. Qed.

Lemma zlen_nil {A} : zlen (@nil A) = 0.
Proof. done. Qed.

Lemma zlen_cons {A} (x : A) l : zlen (x :: l) = 1 + zlen l.
Proof. unfold zlen. cbn [length]. lia. Qed.

Lemma zlen_app {A} (l k : list A) : zlen (l ++ k) = zlen l + zlen k.
Proof. unfold zlen. rewrite length_app. lia. Qed.

Lemma zlen_replicate {A} n (x : A) : zlen (replicate n x) = Z.of_nat n.
Proof. unfold zlen. by rewrite length_replicate. Qed.

Lemma zlen_take {A} n (l : list A) : zlen (take n l) = Z.min (Z.of_nat n) (zlen l).
Proof. unfold zlen. rewrite length_take. lia. Qed.

Lemma zlen_0_nil {A} (l : list A) : zlen l = 0 -> l = [].
Proof. destruct l; [done|]. rewrite zlen_cons. pose proof (zlen_nonneg l). lia. Qed.

#[export] Hint Resolve zlen_nonneg : ngx.
#[export] Hint Rewrite @zlen_nil @zlen_cons @zlen_app @zlen_replicate @zlen_take : ngx.

(** Changing one element of a list. *)
Lemma alter_middle {A} (f : A -> A) i l x : l !! i = Some x ->
  exists l1 l2, l = l1 ++ x :: l2 /\ length l1 = i /\ alter f i l = l1 ++ f x :: l2.
Proof.
  intros H. destruct (list_elem_of_split_length _ _ _ H) as (l1 & l2 & -> & ->).
  exists l1, l2. split_and!; [done|done|].
  rewrite <- (Nat.add_0_r (length l1)), alter_app_r. done.
Qed.

(** The comparison [ngx_strncmp] and [ngx_memcmp] reduce to when only equality is
    tested. *)
Fixpoint beq (a b : list Z) : bool :=
  match a, b with
  | [], [] => true
  | x :: a', y :: b' => (x =? y) && beq a' b'
  | _, _ => false
  end.

Lemma beq_eq a b : beq a b = true <-> a = b.
Proof.
  revert b; induction a as [|x a IH]; intros [|y b]; cbn; try done.
  rewrite andb_true_iff, IH, Z.eqb_eq. split; [by intros [-> ->]|by intros [= -> ->]].
Qed.

Lemma beq_refl a : beq a a = true.
Proof. by apply beq_eq. Qed.

(** ** Finite enumeration

    A boolean fact about small integers is checked by computation on all of
    them. *)

Definition zrange (n : nat) : list Z := map Z.of_nat (seq 0 n).

Lemma zrange_forall (n : nat) (P : Z -> bool) :
  forallb P (zrange n) = true -> forall z, 0 <= z < Z.of_nat n -> P z = true.
Proof.
  rewrite forallb_forall. intros H z Hz. apply H. unfold zrange.
  apply in_map_iff. exists (Z.to_nat z). rewrite in_seq. lia.
Qed.

Lemma zrange_forall2 (n m : nat) (P : Z -> Z -> bool) :
  forallb (fun x => forallb (P x) (zrange m)) (zrange n) = true ->
  forall x y, 0 <= x < Z.of_nat n -> 0 <= y < Z.of_nat m -> P x y = true.
Proof.
  intros H x y Hx Hy. apply (zrange_forall m); [|done].
  by apply (zrange_forall n (fun x => forallb (P x) (zrange m))).
Qed.

Lemma zrange_forall3 (n m k : nat) (P : Z -> Z -> Z -> bool) :
  forallb (fun x => forallb (fun y => forallb (P x y) (zrange k)) (zrange m))
    (zrange n) = true ->
  forall x y z, 0 <= x < Z.of_nat n -> 0 <= y < Z.of_nat m ->
    0 <= z < Z.of_nat k -> P x y z = true.
Proof.
  intros H x y z Hx Hy Hz. apply (zrange_forall k); [|done].
  by apply (zrange_forall2 n m (fun x y => forallb (P x y) (zrange k))).
Qed.

Lemma byte_forall (P : Z -> bool) :
  forallb P (zrange 256) = true -> forall b, is_byte b -> P b = true.
Proof. intros H b Hb. by apply (zrange_forall 256). Qed.

(** [by_bytes] proves a decidable goal about one byte [b] by trying all. *)
Ltac by_byte b H :=
  let P := lazymatch goal with |- ?G => G end in
  lazymatch P with
  | ?l = ?r =>
      let f := eval pattern b in l in
      lazymatch f with
      | ?f' _ => apply (byte_forall f'); [vm_compute; reflexivity | exact H]
      end
  end.

(** ** Allocation

    Pool and array allocations may fail.  A run is given the outcomes of its
    successive allocations; when the list is used up, allocations succeed. *)

Definition allocs : Type := list bool.

Definition alloc (a : allocs) : bool * allocs :=
  match a with
  | [] => (true, [])
  | b :: a' => (b, a')
  end.

(** Every allocation of the run succeeds. *)
Definition no_oom (a : allocs) : Prop := Forall (eq true) a.

Lemma no_oom_alloc a : no_oom a -> exists a', alloc a = (true, a') /\ no_oom a'.
Proof. intros [|b a' <- H]; eexists; split; try done. constructor. Qed.

Lemma alloc_oom a : (alloc a).1 = false -> ~ no_oom a.
Proof. intros H Ha. apply no_oom_alloc in Ha as (a' & E & _). by rewrite E in H. Qed.

Lemma no_oom_next a : no_oom a -> no_oom (alloc a).2.
Proof. intros Ha. apply no_oom_alloc in Ha as (a' & E & H). by rewrite E. Qed.

Lemma alloc_went a ok a' : alloc a = (ok, a') -> (no_oom a -> no_oom a') /\ (ok = false -> ~ no_oom a).
Proof. intros E. split; [intros H; apply no_oom_next in H; by rewrite E in H|intros ->; apply alloc_oom; by rewrite E]. Qed.

(** There is memory after a step if there was before. *)
Definition went (a a' : allocs) : Prop := no_oom a -> no_oom a'.

Lemma went_oom a a' : went a a' -> ~ no_oom a' -> ~ no_oom a.
Proof. unfold went. tauto. Qed.

Lemma went_trans a b c : went a b -> went b c -> went a c.
Proof. unfold went. tauto. Qed.

(** ** Bit fields *)

Lemma lor_shiftl_add x y n : 0 <= n -> 0 <= y < 2 ^ n ->
  Z.lor (Z.shiftl x n) y = x * 2 ^ n + y.
Proof.
  intros Hn Hy. rewrite <- Z.shiftl_mul_pow2 by done.
  rewrite <- Z.lxor_lor, <- Z.add_nocarry_lxor; [done| |];
    apply Z.bits_inj'; intros i Hi; rewrite Z.land_spec, Z.bits_0.
  all: destruct (Z.ltb_spec i n); [rewrite Z.shiftl_spec_low by done; done|].
  all: rewrite andb_false_iff; right; rewrite <- (Z.mod_small y (2 ^ n)) by done;
       by apply Z.mod_pow2_bits_high.
Qed.
