(* ===== verification/NgxNumber.v ===== *)
(** * Numbers as text (nginx core, [ngx_string.c])

    The decimal and hexadecimal readers ([ngx_atoi], [ngx_atofp],
    [ngx_atosz], [ngx_atoof], [ngx_atotm], [ngx_hextoi]) and the number
    printer [ngx_sprintf_num], with the digits they agree on.  A reader takes
    the bytes of the field ([line], [n]) and returns the value or
    [NGX_ERROR]. *)

From S2P Require Import Prelude.

Definition is_digit (c : Z) : bool := (chr "0" <=? c) && (c <=? chr "9").

(** ** Readers *)

(** The loop shared by the decimal readers: [value = value * 10 + digit]
    at 64 bits, leaving with [NGX_ERROR] at the first byte that is no digit. *)
Fixpoint dec_loop (value : Z) (line : list Z) : option Z :=
  match line with
  | [] => Some value
  | c :: line' =>
      if (c <? chr "0") || (chr "9" <? c) then None
      else dec_loop (s64 (value * 10 + (c - chr "0"))) line'
  end.

Definition dec_read (line : list Z) : Z :=
  match line with
  | [] => NGX_ERROR
  | _ => match dec_loop 0 line with
         | None => NGX_ERROR
         | Some value => if value <? 0 then NGX_ERROR else value
         end
  end.

Definition ngx_atoi (line : list Z) : Z := dec_read line.
Definition ngx_atosz (line : list Z) : Z := dec_read line.
Definition ngx_atoof (line : list Z) : Z := dec_read line.
Definition ngx_atotm (line : list Z) : Z := dec_read line.

(** [ngx_atofp]: the loop also counts the digits after the dot down from
    [point]; [point] is a [size_t], so [point -= dot] never goes below zero
    because the loop tests [point == 0] first. *)
Fixpoint atofp_loop (value point dot : Z) (line : list Z) : option (Z * Z) :=
  match line with
  | [] => Some (value, point)
  | c :: line' =>
      if point =? 0 then None
      else if c =? chr "." then
        if negb (dot =? 0) then None else atofp_loop value point 1 line'
      else if (c <? chr "0") || (chr "9" <? c) then None
      else atofp_loop (s64 (value * 10 + (c - chr "0"))) (point - dot) dot line'
  end.

Fixpoint atofp_scale (point : nat) (value : Z) : Z :=
  match point with
  | O => value
  | S p => atofp_scale p (s64 (value * 10))
  end.

Definition ngx_atofp (line : list Z) (point : nat) : Z :=
  match line with
  | [] => NGX_ERROR
  | _ =>
      match atofp_loop 0 (Z.of_nat point) 0 line with
      | None => NGX_ERROR
      | Some (value, point') =>
          let value := atofp_scale (Z.to_nat point') value in
          if value <? 0 then NGX_ERROR else value
      end
  end.

(** The value of a hexadecimal digit as the readers compute it: a decimal
    digit, or a letter after [ch | 0x20]. *)
Definition hex_val (ch : Z) : option Z :=
  if (chr "0" <=? ch) && (ch <=? chr "9") then Some (ch - chr "0")
  else
    let c := u8 (Z.lor ch 0x20) in
    if (chr "a" <=? c) && (c <=? chr "f") then Some (c - chr "a" + 10)
    else None.

Fixpoint hex_loop (value : Z) (line : list Z) : option Z :=
  match line with
  | [] => Some value
  | ch :: line' =>
      match hex_val ch with
      | Some d => hex_loop (s64 (value * 16 + d)) line'
      | None => None
      end
  end.

Definition ngx_hextoi (line : list Z) : Z :=
  match line with
  | [] => NGX_ERROR
  | _ => match hex_loop 0 line with
         | None => NGX_ERROR
         | Some value => if value <? 0 then NGX_ERROR else value
         end
  end.

(** ** The printer *)

Definition hex_lower : list Z := lit "0123456789abcdef".
Definition hex_upper : list Z := lit "0123456789ABCDEF".

Definition hex_digit (tab : list Z) (d : Z) : Z := nth (Z.to_nat d) tab 0.

(** [ngx_hex_dump]: two lower-case digits for each byte. *)
Fixpoint ngx_hex_dump (src : list Z) : list Z :=
  match src with
  | [] => []
  | c :: src' =>
      hex_digit hex_lower (Z.shiftr c 4)
      :: hex_digit hex_lower (Z.land c 0xf)
      :: ngx_hex_dump src'
  end.

(** The [do ... while] loops of [ngx_sprintf_num] fill [temp] from its end.
    [room] is the number of bytes of [temp] left before [p]; a write below
    [temp] is [None]. *)
Fixpoint dec_digits (room : nat) (ui64 : Z) (p : list Z) : option (list Z) :=
  match room with
  | O => None
  | S room' =>
      let p := u8 (ui64 mod 10 + chr "0") :: p in
      let ui64 := ui64 / 10 in
      if ui64 =? 0 then Some p else dec_digits room' ui64 p
  end.

Fixpoint hex_digits (tab : list Z) (room : nat) (ui64 : Z) (p : list Z)
  : option (list Z) :=
  match room with
  | O => None
  | S room' =>
      let p := hex_digit tab (Z.land ui64 0xf) :: p in
      let ui64 := Z.shiftr ui64 4 in
      if ui64 =? 0 then Some p else hex_digits tab room' ui64 p
  end.

(** [ngx_sprintf_num]: the digits, padded to [width] with [zero], cut to the
    [room] bytes between [buf] and [last].  The 32-bit branch runs the same
    loop on [(uint32_t) ui64]. *)
Definition num_digits (ui64 hexadecimal : Z) : option (list Z) :=
  if hexadecimal =? 0 then
    if ui64 <=? 0xffffffff then dec_digits 20 (u32 ui64) []
    else dec_digits 20 ui64 []
  else if hexadecimal =? 1 then hex_digits hex_lower 20 ui64 []
  else hex_digits hex_upper 20 ui64 [].

Definition ngx_sprintf_num (room ui64 zero hexadecimal width : Z)
  : option (list Z) :=
  match num_digits ui64 hexadecimal with
  | None => None
  | Some p =>
      let len := zlen p in
      let npad := Z.min (Z.max 0 (width - len)) (Z.max 0 room) in
      let room := room - npad in
      let len := if room <? len then room else len in
      Some (replicate (Z.to_nat npad) zero ++ take (Z.to_nat len) p)
  end.

(** ** The value of a digit string *)

Fixpoint dec_value (value : Z) (line : list Z) : Z :=
  match line with
  | [] => value
  | c :: line' => dec_value (value * 10 + (c - chr "0")) line'
  end.

Lemma dec_value_app v a b : dec_value v (a ++ b) = dec_value (dec_value v a) b.
Proof. revert v; induction a as [|c a IH]; intros v; cbn; auto. Qed.

Lemma dec_loop_spec line value :
  dec_loop (s64 value) line =
  if forallb is_digit line then Some (s64 (dec_value value line)) else None.
Proof.
  revert value; induction line as [|c line IH]; intros value; cbn; [done|].
  autorewrite with ngx. rewrite IH. unfold is_digit.
  zcases; cbn; done.
Qed.

Lemma dec_value_nonneg line value :
  0 <= value -> forallb is_digit line = true -> 0 <= dec_value value line.
Proof.
  revert value; induction line as [|c line IH]; intros value Hv; cbn; [done|].
  rewrite andb_true_iff. unfold is_digit at 1. rewrite andb_true_iff.
  intros [[? ?] ?]. apply IH; [lia | done].
Qed.

(** The readers, in closed form: a non-empty digit string is read as its value
    wrapped to 64 bits, rejected when the wrapped value is negative. *)
Lemma dec_read_spec line :
  dec_read line =
  if (negb (beq line []) && forallb is_digit line) then
    let v := s64 (dec_value 0 line) in if v <? 0 then NGX_ERROR else v
  else NGX_ERROR.
Proof.
  destruct line as [|c line]; [done|]. unfold dec_read.
  change 0 with (s64 0) at 1. rewrite dec_loop_spec. cbn [beq negb andb].
  by destruct (forallb is_digit (c :: line)).
Qed.

(** ** Printed digits *)

Lemma dec_digits_spec room u p :
  0 <= u < 10 ^ Z.of_nat room -> (0 < room)%nat ->
  exists l, dec_digits room u p = Some (l ++ p) /\
    (0 < length l <= room)%nat /\ forallb is_digit l = true /\
    forall v, dec_value v l = v * 10 ^ zlen l + u.
Proof.
  revert u p; induction room as [|room IH]; intros u p Hu Hr; [lia|].
  cbn [dec_digits].
  assert (Hd : u8 (u mod 10 + 48) = u mod 10 + 48)
    by (apply u8_small; pose proof (Z.mod_pos_bound u 10); lia).
  rewrite Hd. set (d := u mod 10).
  assert (0 <= d < 10) by (apply Z.mod_pos_bound; lia).
  assert (Hq : u = 10 * (u / 10) + d) by (apply Z.div_mod; lia).
  assert (Hdig : is_digit (d + 48) = true) by (unfold is_digit; zcases; done).
  destruct (Z.eqb_spec (u / 10) 0) as [Hz|Hz].
  - exists [d + 48]. cbn [length forallb app]. rewrite Hdig.
    repeat split; try lia. intros v. change (zlen [d + 48]) with 1.
    cbn [dec_value]. lia.
  - rewrite Nat2Z.inj_succ, Z.pow_succ_r in Hu by lia.
    assert (0 <= u / 10) by (apply Z.div_pos; lia).
    assert (Hpos : (0 < room)%nat).
    { destruct room; [|lia]. change (10 ^ Z.of_nat 0) with 1 in Hu. lia. }
    destruct (IH (u / 10) ((d + 48) :: p)) as (l & -> & Hl & Hf & Hv); [lia..|].
    exists (l ++ [d + 48]). rewrite <- app_assoc.
    rewrite forallb_app, length_app, Hf. cbn [length forallb app]. rewrite Hdig.
    repeat split; try lia. intros v. rewrite dec_value_app, Hv. cbn [dec_value].
    autorewrite with ngx. rewrite Z.pow_add_r by (pose proof (zlen_nonneg l); lia).
    change (10 ^ (1 + 0)) with 10. nia.
Qed.

(** More room in [temp] does not change what is written. *)
Lemma dec_digits_mono room room' u p l :
  dec_digits room u p = Some l -> (room <= room')%nat -> dec_digits room' u p = Some l.
Proof.
  revert room' u p; induction room as [|room IH]; intros room' u p; [done|].
  destruct room' as [|room']; [lia|]. cbn [dec_digits].
  destruct (_ =? 0); [done|]. intros H Hle. apply IH; [done|lia].
Qed.

Lemma hex_digits_total tab room u p :
  0 <= u < 16 ^ Z.of_nat room -> (0 < room)%nat ->
  exists l, hex_digits tab room u p = Some (l ++ p) /\ (0 < length l <= room)%nat.
Proof.
  revert u p; induction room as [|room IH]; intros u p Hu Hr; [lia|].
  cbn [hex_digits]. rewrite Z.shiftr_div_pow2 by lia. change (2 ^ 4) with 16.
  set (x := hex_digit _ _).
  destruct (Z.eqb_spec (u / 16) 0) as [Hz|Hz].
  - exists [x]. cbn. split; [done|lia].
  - rewrite Nat2Z.inj_succ, Z.pow_succ_r in Hu by lia.
    assert (Hq : u = 16 * (u / 16) + u mod 16) by (apply Z.div_mod; lia).
    pose proof (Z.mod_pos_bound u 16).
    assert (0 <= u / 16) by (apply Z.div_pos; lia).
    assert (Hpos : (0 < room)%nat).
    { destruct room; [|lia]. change (16 ^ Z.of_nat 0) with 1 in Hu. lia. }
    destruct (IH (u / 16) (x :: p)) as (l & -> & Hl); [lia..|].
    exists (l ++ [x]). rewrite <- app_assoc, length_app. cbn. split; [done|lia].
Qed.

(** The 20 bytes of [temp] hold every 64-bit number in either base. *)
Lemma num_digits_total u hex :
  0 <= u < 2 ^ 64 ->
  exists l, num_digits u hex = Some l /\ (0 < length l <= 20)%nat.
Proof.
  intros Hu. unfold num_digits.
  assert (Hdec : forall x, 0 <= x < 2 ^ 64 ->
            exists l, dec_digits 20 x [] = Some l /\ (0 < length l <= 20)%nat).
  { intros x Hx. destruct (dec_digits_spec 20 x []) as (l & -> & Hl & _); [|lia|].
    - assert (2 ^ 64 < 10 ^ Z.of_nat 20) by (vm_compute; done). lia.
    - exists l. rewrite app_nil_r. done. }
  assert (Hhex : forall tab, exists l,
            hex_digits tab 20 u [] = Some l /\ (0 < length l <= 20)%nat).
  { intros tab. destruct (hex_digits_total tab 20 u []) as (l & -> & Hl); [|lia|].
    - assert (2 ^ 64 < 16 ^ Z.of_nat 20) by (vm_compute; done). lia.
    - exists l. rewrite app_nil_r. done. }
  repeat case_match; auto. apply Hdec. pose proof (u32_range u). lia.
Qed.

(** A number below [10^k] is printed with at most [k] digits. *)
Lemma num_digits_dec_upto k u :
  0 <= u < 10 ^ Z.of_nat k -> (0 < k <= 20)%nat -> u < 2 ^ 64 ->
  exists l, num_digits u 0 = Some l /\ (0 < length l <= k)%nat /\
    forallb is_digit l = true /\ dec_value 0 l = u.
Proof.
  intros Hu Hk Hlt. unfold num_digits.
  destruct (dec_digits_spec k u []) as (l & E & Hl & Hf & Hv); [lia..|].
  exists l. rewrite Hv. rewrite app_nil_r in E. change (0 =? 0) with true.
  split; [|split; [exact Hl | split; [exact Hf | lia]]].
  assert (E' : dec_digits 20 u [] = Some l)
    by (eapply dec_digits_mono; [exact E | lia]).
  destruct (Z.leb_spec u 0xffffffff); [rewrite u32_small by lia|]; exact E'.
Qed.

Lemma num_digits_dec u :
  0 <= u < 2 ^ 64 ->
  exists l, num_digits u 0 = Some l /\ (0 < length l <= 20)%nat /\
    forallb is_digit l = true /\ dec_value 0 l = u.
Proof.
  intros Hu. apply (num_digits_dec_upto 20); [|lia..].
  assert (2 ^ 64 < 10 ^ Z.of_nat 20) by (vm_compute; done). lia.
Qed.

Lemma dec_value_zeros n v l :
  dec_value v (replicate n (chr "0") ++ l) = dec_value (v * 10 ^ Z.of_nat n) l.
Proof.
  revert v; induction n as [|n IH]; intros v; cbn [replicate app dec_value].
  - f_equal. lia.
  - rewrite IH, Nat2Z.inj_succ, Z.pow_succ_r by lia. f_equal. lia.
Qed.

Lemma forallb_digit_zeros n : forallb is_digit (replicate n (chr "0")) = true.
Proof. induction n; cbn; auto. Qed.

(** The printer writes between one byte and [room] bytes. *)
Lemma sprintf_num_length room u zero hex width :
  0 <= room -> 0 <= u < 2 ^ 64 ->
  exists out, ngx_sprintf_num room u zero hex width = Some out /\ zlen out <= room /\ zlen out <= Z.max width 20.
Proof.
  intros Hr Hu. unfold ngx_sprintf_num.
  destruct (num_digits_total u hex Hu) as (l & -> & Hl).
  eexists. split; [done|]. autorewrite with ngx.
  unfold zlen in *. zcases; split; lia.
Qed.

(** With enough room a decimal number is printed in full: padding, then
    digits that spell the number. *)
Lemma sprintf_num_dec room u zero width :
  0 <= u < 2 ^ 64 -> Z.max width 20 <= room ->
  exists n l, ngx_sprintf_num room u zero 0 width
              = Some (replicate n zero ++ l) /\ (0 < length l <= 20)%nat /\ (n = 0%nat \/ Z.of_nat n + zlen l = width) /\ forallb is_digit l = true /\ dec_value 0 l = u.
Proof.
  intros Hu Hr. unfold ngx_sprintf_num.
  destruct (num_digits_dec u Hu) as (l & -> & Hl & Hf & Hv).
  unfold zlen. set (npad := Z.min _ _).
  exists (Z.to_nat npad), l.
  replace (_ <? _) with false by (symmetry; apply Z.ltb_ge; lia).
  rewrite Nat2Z.id, take_ge by lia. repeat split; (done || lia).
Qed.

(** The length of a decimal number below [10^k]. *)
Lemma sprintf_num_upto k room u zero width :
  0 <= u < 10 ^ Z.of_nat k -> (0 < k <= 20)%nat -> u < 2 ^ 64 -> 0 <= room ->
  exists out, ngx_sprintf_num room u zero 0 width = Some out /\
    zlen out <= Z.max width (Z.of_nat k).
Proof.
  intros Hu Hk Hlt Hr. unfold ngx_sprintf_num.
  destruct (num_digits_dec_upto k u Hu Hk Hlt) as (l & -> & Hl & _).
  eexists. split; [done|]. autorewrite with ngx. unfold zlen. zcases; lia.
Qed.

(** ** Properties *)

(** [ngx_atoi] (and its copies [ngx_atosz], [ngx_atoof], [ngx_atotm])
    returns the value of a non-empty decimal field that fits a signed 64-bit
    integer, and [NGX_ERROR] for an empty field or one with any other byte. *)
Theorem ngx_atoi_correct line :
  ngx_atoi line = ngx_atotm line /\ ngx_atosz line = ngx_atoof line /\ (line <> [] -> forallb is_digit line = true -> dec_value 0 line < 2 ^ 63 ->
     ngx_atoi line = dec_value 0 line) /\
    (line = [] \/ forallb is_digit line = false -> ngx_atoi line = NGX_ERROR).
Proof.
  unfold ngx_atoi, ngx_atosz, ngx_atoof, ngx_atotm.
  repeat split; rewrite !dec_read_spec.
  - intros Hne Hd Hlt. rewrite Hd.
    destruct (beq line []) eqn:E; [by apply beq_eq in E|].
    pose proof (dec_value_nonneg line 0 ltac:(lia) Hd).
    cbn [negb andb]. rewrite s64_small by lia. zcases; done.
  - intros [-> | Hd]; [done|]. rewrite Hd, andb_false_r. done.
Qed.

(** The overflow test of [ngx_atoi] looks only at the sign of the wrapped
    value, so some fields whose value does not fit are accepted with another
    value: twenty nines are read as 7766279631452241919. *)
Theorem ngx_atoi_overflow_accepted :
  dec_value 0 (replicate 20 (chr "9")) >= 2 ^ 63 /\
    ngx_atoi (replicate 20 (chr "9")) = 7766279631452241919.
Proof. split; [vm_compute; done | vm_compute; done]. Qed.

(** What the number printer writes, the reader reads back: a value below
    [2^63] printed in decimal with any width and zero padding, in a buffer
    with room for it, is read by [ngx_atoi] as itself. *)
Theorem sprintf_atoi_roundtrip v width room :
  0 <= v < 2 ^ 63 -> Z.max width 20 <= room ->
  exists out, ngx_sprintf_num room v (chr "0") 0 width = Some out /\ ngx_atoi out = v.
Proof.
  intros Hv Hr.
  destruct (sprintf_num_dec room v (chr "0") width) as (n & l & -> & Hl & _ & Hd & Hval);
    [lia..|].
  eexists. split; [done|]. unfold ngx_atoi. rewrite dec_read_spec.
  rewrite forallb_app, forallb_digit_zeros, Hd, dec_value_zeros.
  rewrite Z.mul_0_l, Hval, s64_small by lia.
  destruct (beq _ []) eqn:E.
  - apply beq_eq, app_eq_nil in E as [_ ->]. cbn in Hl. lia.
  - cbn [negb andb]. zcases; done.
Qed.

Lemma ngx_atoi_correct_witness :
  ngx_atoi (lit "1234") = 1234 /\ ngx_atoi (lit "12x") = NGX_ERROR.
Proof.
  split.
  - apply (ngx_atoi_correct (lit "1234")); [done | reflexivity | vm_compute; done].
  - apply (ngx_atoi_correct (lit "12x")). right. reflexivity.
Defined.

Lemma sprintf_atoi_roundtrip_witness :
  exists out, ngx_sprintf_num 20 404 (chr "0") 0 6 = Some out /\ ngx_atoi out = 404.
Proof. apply (sprintf_atoi_roundtrip 404 6 20); [lia | reflexivity]. Defined.
