(* ===== verification/Crc32.v ===== *)
(** * Checksums ([rdcrc32.c] of librdkafka, [ngx_crc32.c] of nginx)

    Both programs have the 32-bit CRC of PNG and Ethernet, computed by tables:
    librdkafka by one of 256 entries, with a running value; nginx by one of 256
    and, for short data, one of 16 entries. *)

From S2P Require Import Prelude.

(** ** librdkafka *)

Definition crc_table : list Z :=
  [0x00000000; 0x77073096; 0xee0e612c; 0x990951ba; 0x076dc419; 0x706af48f;
   0xe963a535; 0x9e6495a3; 0x0edb8832; 0x79dcb8a4; 0xe0d5e91e; 0x97d2d988;
   0x09b64c2b; 0x7eb17cbd; 0xe7b82d07; 0x90bf1d91; 0x1db71064; 0x6ab020f2;
   0xf3b97148; 0x84be41de; 0x1adad47d; 0x6ddde4eb; 0xf4d4b551; 0x83d385c7;
   0x136c9856; 0x646ba8c0; 0xfd62f97a; 0x8a65c9ec; 0x14015c4f; 0x63066cd9;
   0xfa0f3d63; 0x8d080df5; 0x3b6e20c8; 0x4c69105e; 0xd56041e4; 0xa2677172;
   0x3c03e4d1; 0x4b04d447; 0xd20d85fd; 0xa50ab56b; 0x35b5a8fa; 0x42b2986c;
   0xdbbbc9d6; 0xacbcf940; 0x32d86ce3; 0x45df5c75; 0xdcd60dcf; 0xabd13d59;
   0x26d930ac; 0x51de003a; 0xc8d75180; 0xbfd06116; 0x21b4f4b5; 0x56b3c423;
   0xcfba9599; 0xb8bda50f; 0x2802b89e; 0x5f058808; 0xc60cd9b2; 0xb10be924;
   0x2f6f7c87; 0x58684c11; 0xc1611dab; 0xb6662d3d; 0x76dc4190; 0x01db7106;
   0x98d220bc; 0xefd5102a; 0x71b18589; 0x06b6b51f; 0x9fbfe4a5; 0xe8b8d433;
   0x7807c9a2; 0x0f00f934; 0x9609a88e; 0xe10e9818; 0x7f6a0dbb; 0x086d3d2d;
   0x91646c97; 0xe6635c01; 0x6b6b51f4; 0x1c6c6162; 0x856530d8; 0xf262004e;
   0x6c0695ed; 0x1b01a57b; 0x8208f4c1; 0xf50fc457; 0x65b0d9c6; 0x12b7e950;
   0x8bbeb8ea; 0xfcb9887c; 0x62dd1ddf; 0x15da2d49; 0x8cd37cf3; 0xfbd44c65;
   0x4db26158; 0x3ab551ce; 0xa3bc0074; 0xd4bb30e2; 0x4adfa541; 0x3dd895d7;
   0xa4d1c46d; 0xd3d6f4fb; 0x4369e96a; 0x346ed9fc; 0xad678846; 0xda60b8d0;
   0x44042d73; 0x33031de5; 0xaa0a4c5f; 0xdd0d7cc9; 0x5005713c; 0x270241aa;
   0xbe0b1010; 0xc90c2086; 0x5768b525; 0x206f85b3; 0xb966d409; 0xce61e49f;
   0x5edef90e; 0x29d9c998; 0xb0d09822; 0xc7d7a8b4; 0x59b33d17; 0x2eb40d81;
   0xb7bd5c3b; 0xc0ba6cad; 0xedb88320; 0x9abfb3b6; 0x03b6e20c; 0x74b1d29a;
   0xead54739; 0x9dd277af; 0x04db2615; 0x73dc1683; 0xe3630b12; 0x94643b84;
   0x0d6d6a3e; 0x7a6a5aa8; 0xe40ecf0b; 0x9309ff9d; 0x0a00ae27; 0x7d079eb1;
   0xf00f9344; 0x8708a3d2; 0x1e01f268; 0x6906c2fe; 0xf762575d; 0x806567cb;
   0x196c3671; 0x6e6b06e7; 0xfed41b76; 0x89d32be0; 0x10da7a5a; 0x67dd4acc;
   0xf9b9df6f; 0x8ebeeff9; 0x17b7be43; 0x60b08ed5; 0xd6d6a3e8; 0xa1d1937e;
   0x38d8c2c4; 0x4fdff252; 0xd1bb67f1; 0xa6bc5767; 0x3fb506dd; 0x48b2364b;
   0xd80d2bda; 0xaf0a1b4c; 0x36034af6; 0x41047a60; 0xdf60efc3; 0xa867df55;
   0x316e8eef; 0x4669be79; 0xcb61b38c; 0xbc66831a; 0x256fd2a0; 0x5268e236;
   0xcc0c7795; 0xbb0b4703; 0x220216b9; 0x5505262f; 0xc5ba3bbe; 0xb2bd0b28;
   0x2bb45a92; 0x5cb36a04; 0xc2d7ffa7; 0xb5d0cf31; 0x2cd99e8b; 0x5bdeae1d;
   0x9b64c2b0; 0xec63f226; 0x756aa39c; 0x026d930a; 0x9c0906a9; 0xeb0e363f;
   0x72076785; 0x05005713; 0x95bf4a82; 0xe2b87a14; 0x7bb12bae; 0x0cb61b38;
   0x92d28e9b; 0xe5d5be0d; 0x7cdcefb7; 0x0bdbdf21; 0x86d3d2d4; 0xf1d4e242;
   0x68ddb3f8; 0x1fda836e; 0x81be16cd; 0xf6b9265b; 0x6fb077e1; 0x18b74777;
   0x88085ae6; 0xff0f6a70; 0x66063bca; 0x11010b5c; 0x8f659eff; 0xf862ae69;
   0x616bffd3; 0x166ccf45; 0xa00ae278; 0xd70dd2ee; 0x4e048354; 0x3903b3c2;
   0xa7672661; 0xd06016f7; 0x4969474d; 0x3e6e77db; 0xaed16a4a; 0xd9d65adc;
   0x40df0b66; 0x37d83bf0; 0xa9bcae53; 0xdebb9ec5; 0x47b2cf7f; 0x30b5ffe9;
   0xbdbdf21c; 0xcabac28a; 0x53b39330; 0x24b4a3a6; 0xbad03605; 0xcdd70693;
   0x54de5729; 0x23d967bf; 0xb3667a2e; 0xc4614ab8; 0x5d681b02; 0x2a6f2b94;
   0xb40bbe37; 0xc30c8ea1; 0x5a05df1b; 0x2d02ef8d].

(** The loop of [rd_crc32_reflect]: [n] bits still to move from [data] to
    [ret]. *)
Fixpoint reflect_loop (n : nat) (data ret : Z) : Z :=
  match n with
  | O => ret
  | S n' =>
      let data := Z.shiftr data 1 in
      reflect_loop n' data (Z.lor (u32 (Z.shiftl ret 1)) (Z.land data 1))
  end.

Definition rd_crc32_reflect (data : Z) (data_len : nat) : Z :=
  reflect_loop (data_len - 1) data (Z.land data 1).

Definition rd_crc32_init : Z := 0xffffffff.

Fixpoint crc32_loop (crc : Z) (data : list Z) : Z :=
  match data with
  | [] => crc
  | c :: data' =>
      let tbl_idx := Z.land (Z.lxor crc c) 0xff in
      crc32_loop (Z.land (Z.lxor (nth (Z.to_nat tbl_idx) crc_table 0) (Z.shiftr crc 8)) 0xffffffff)
        data'
  end.

Definition rd_crc32_update (crc : Z) (data : list Z) : Z :=
  Z.land (crc32_loop crc data) 0xffffffff.

Definition rd_crc32_finalize (crc : Z) : Z := Z.lxor crc 0xffffffff.

Definition rd_crc32 (data : list Z) : Z :=
  rd_crc32_finalize (rd_crc32_update rd_crc32_init data).

(** ** nginx *)

Definition ngx_crc32_table16 : list Z :=
  [0x00000000; 0x1db71064; 0x3b6e20c8; 0x26d930ac; 0x76dc4190; 0x6b6b51f4;
   0x4db26158; 0x5005713c; 0xedb88320; 0xf00f9344; 0xd6d6a3e8; 0xcb61b38c;
   0x9b64c2b0; 0x86d3d2d4; 0xa00ae278; 0xbdbdf21c].

Definition ngx_crc32_table256 : list Z :=
  [0x00000000; 0x77073096; 0xee0e612c; 0x990951ba; 0x076dc419; 0x706af48f;
   0xe963a535; 0x9e6495a3; 0x0edb8832; 0x79dcb8a4; 0xe0d5e91e; 0x97d2d988;
   0x09b64c2b; 0x7eb17cbd; 0xe7b82d07; 0x90bf1d91; 0x1db71064; 0x6ab020f2;
   0xf3b97148; 0x84be41de; 0x1adad47d; 0x6ddde4eb; 0xf4d4b551; 0x83d385c7;
   0x136c9856; 0x646ba8c0; 0xfd62f97a; 0x8a65c9ec; 0x14015c4f; 0x63066cd9;
   0xfa0f3d63; 0x8d080df5; 0x3b6e20c8; 0x4c69105e; 0xd56041e4; 0xa2677172;
   0x3c03e4d1; 0x4b04d447; 0xd20d85fd; 0xa50ab56b; 0x35b5a8fa; 0x42b2986c;
   0xdbbbc9d6; 0xacbcf940; 0x32d86ce3; 0x45df5c75; 0xdcd60dcf; 0xabd13d59;
   0x26d930ac; 0x51de003a; 0xc8d75180; 0xbfd06116; 0x21b4f4b5; 0x56b3c423;
   0xcfba9599; 0xb8bda50f; 0x2802b89e; 0x5f058808; 0xc60cd9b2; 0xb10be924;
   0x2f6f7c87; 0x58684c11; 0xc1611dab; 0xb6662d3d; 0x76dc4190; 0x01db7106;
   0x98d220bc; 0xefd5102a; 0x71b18589; 0x06b6b51f; 0x9fbfe4a5; 0xe8b8d433;
   0x7807c9a2; 0x0f00f934; 0x9609a88e; 0xe10e9818; 0x7f6a0dbb; 0x086d3d2d;
   0x91646c97; 0xe6635c01; 0x6b6b51f4; 0x1c6c6162; 0x856530d8; 0xf262004e;
   0x6c0695ed; 0x1b01a57b; 0x8208f4c1; 0xf50fc457; 0x65b0d9c6; 0x12b7e950;
   0x8bbeb8ea; 0xfcb9887c; 0x62dd1ddf; 0x15da2d49; 0x8cd37cf3; 0xfbd44c65;
   0x4db26158; 0x3ab551ce; 0xa3bc0074; 0xd4bb30e2; 0x4adfa541; 0x3dd895d7;
   0xa4d1c46d; 0xd3d6f4fb; 0x4369e96a; 0x346ed9fc; 0xad678846; 0xda60b8d0;
   0x44042d73; 0x33031de5; 0xaa0a4c5f; 0xdd0d7cc9; 0x5005713c; 0x270241aa;
   0xbe0b1010; 0xc90c2086; 0x5768b525; 0x206f85b3; 0xb966d409; 0xce61e49f;
   0x5edef90e; 0x29d9c998; 0xb0d09822; 0xc7d7a8b4; 0x59b33d17; 0x2eb40d81;
   0xb7bd5c3b; 0xc0ba6cad; 0xedb88320; 0x9abfb3b6; 0x03b6e20c; 0x74b1d29a;
   0xead54739; 0x9dd277af; 0x04db2615; 0x73dc1683; 0xe3630b12; 0x94643b84;
   0x0d6d6a3e; 0x7a6a5aa8; 0xe40ecf0b; 0x9309ff9d; 0x0a00ae27; 0x7d079eb1;
   0xf00f9344; 0x8708a3d2; 0x1e01f268; 0x6906c2fe; 0xf762575d; 0x806567cb;
   0x196c3671; 0x6e6b06e7; 0xfed41b76; 0x89d32be0; 0x10da7a5a; 0x67dd4acc;
   0xf9b9df6f; 0x8ebeeff9; 0x17b7be43; 0x60b08ed5; 0xd6d6a3e8; 0xa1d1937e;
   0x38d8c2c4; 0x4fdff252; 0xd1bb67f1; 0xa6bc5767; 0x3fb506dd; 0x48b2364b;
   0xd80d2bda; 0xaf0a1b4c; 0x36034af6; 0x41047a60; 0xdf60efc3; 0xa867df55;
   0x316e8eef; 0x4669be79; 0xcb61b38c; 0xbc66831a; 0x256fd2a0; 0x5268e236;
   0xcc0c7795; 0xbb0b4703; 0x220216b9; 0x5505262f; 0xc5ba3bbe; 0xb2bd0b28;
   0x2bb45a92; 0x5cb36a04; 0xc2d7ffa7; 0xb5d0cf31; 0x2cd99e8b; 0x5bdeae1d;
   0x9b64c2b0; 0xec63f226; 0x756aa39c; 0x026d930a; 0x9c0906a9; 0xeb0e363f;
   0x72076785; 0x05005713; 0x95bf4a82; 0xe2b87a14; 0x7bb12bae; 0x0cb61b38;
   0x92d28e9b; 0xe5d5be0d; 0x7cdcefb7; 0x0bdbdf21; 0x86d3d2d4; 0xf1d4e242;
   0x68ddb3f8; 0x1fda836e; 0x81be16cd; 0xf6b9265b; 0x6fb077e1; 0x18b74777;
   0x88085ae6; 0xff0f6a70; 0x66063bca; 0x11010b5c; 0x8f659eff; 0xf862ae69;
   0x616bffd3; 0x166ccf45; 0xa00ae278; 0xd70dd2ee; 0x4e048354; 0x3903b3c2;
   0xa7672661; 0xd06016f7; 0x4969474d; 0x3e6e77db; 0xaed16a4a; 0xd9d65adc;
   0x40df0b66; 0x37d83bf0; 0xa9bcae53; 0xdebb9ec5; 0x47b2cf7f; 0x30b5ffe9;
   0xbdbdf21c; 0xcabac28a; 0x53b39330; 0x24b4a3a6; 0xbad03605; 0xcdd70693;
   0x54de5729; 0x23d967bf; 0xb3667a2e; 0xc4614ab8; 0x5d681b02; 0x2a6f2b94;
   0xb40bbe37; 0xc30c8ea1; 0x5a05df1b; 0x2d02ef8d].

(** The loop of [ngx_crc32_short]: a byte in two steps of four bits. *)
Fixpoint crc32_short_loop (crc : Z) (data : list Z) : Z :=
  match data with
  | [] => crc
  | c :: data' =>
      let crc := Z.lxor (nth (Z.to_nat (Z.land (Z.lxor crc (Z.land c 0xf)) 0xf)) ngx_crc32_table16 0)
                   (Z.shiftr crc 4) in
      let crc := Z.lxor (nth (Z.to_nat (Z.land (Z.lxor crc (Z.shiftr c 4)) 0xf)) ngx_crc32_table16 0)
                   (Z.shiftr crc 4) in
      crc32_short_loop crc data'
  end.

Definition ngx_crc32_short (data : list Z) : Z :=
  Z.lxor (crc32_short_loop 0xffffffff data) 0xffffffff.

Fixpoint ngx_crc32_update (crc : Z) (data : list Z) : Z :=
  match data with
  | [] => crc
  | c :: data' =>
      ngx_crc32_update
        (Z.lxor (nth (Z.to_nat (Z.land (Z.lxor crc c) 0xff)) ngx_crc32_table256 0) (Z.shiftr crc 8))
        data'
  end.

Definition ngx_crc32_long (data : list Z) : Z :=
  Z.lxor (ngx_crc32_update 0xffffffff data) 0xffffffff.

(** The check value of this CRC. *)
Example crc32_check : rd_crc32 (lit "123456789") = 0xcbf43926.
Proof. reflexivity. Qed.

(** ** The reference

    The remainder modulo the polynomial of the header of [rdcrc32.c], one bit
    at a time, with the least significant bit first. *)

Definition crc_poly : Z := Eval vm_compute in rd_crc32_reflect 0x04c11db7 32.

Definition crc_bit (c : Z) : Z := Z.lxor (Z.shiftr c 1) (if Z.testbit c 0 then crc_poly else 0).

Fixpoint crc_bits (k : nat) (c : Z) : Z :=
  match k with
  | O => c
  | S k' => crc_bits k' (crc_bit c)
  end.

Definition crc_ref (crc : Z) (data : list Z) : Z :=
  fold_left (fun c b => crc_bits 8 (Z.lxor c b)) data crc.

(** ** Correctness *)

Lemma lxor_range n a b : 0 <= n -> 0 <= a < 2 ^ n -> 0 <= b < 2 ^ n -> 0 <= Z.lxor a b < 2 ^ n.
Proof.
  intros Hn Ha Hb. split; [apply Z.lxor_nonneg; lia|].
  destruct (Z.eq_dec (Z.lxor a b) 0) as [->|Hne]; [lia|].
  assert (0 <= Z.lxor a b) by (apply Z.lxor_nonneg; lia).
  apply Z.log2_lt_pow2; [lia|].
  pose proof (Z.log2_lxor a b (proj1 Ha) (proj1 Hb)).
  destruct (Z.eq_dec a 0) as [->|], (Z.eq_dec b 0) as [->|]; try done.
  - rewrite Z.lxor_0_l. apply Z.log2_lt_pow2; lia.
  - rewrite Z.lxor_0_r. apply Z.log2_lt_pow2; lia.
  - assert (Z.log2 a < n) by (apply Z.log2_lt_pow2; lia).
    assert (Z.log2 b < n) by (apply Z.log2_lt_pow2; lia). lia.
Qed.

Lemma crc_bit_lxor a b : crc_bit (Z.lxor a b) = Z.lxor (crc_bit a) (crc_bit b).
Proof.
  unfold crc_bit. rewrite Z.lxor_spec, Z.shiftr_lxor.
  set (x := Z.shiftr a 1). set (y := Z.shiftr b 1). set (p := crc_poly).
  apply Z.bits_inj'. intros n _. rewrite !Z.lxor_spec.
  destruct (Z.testbit a 0), (Z.testbit b 0); cbn; rewrite ?Z.bits_0;
    destruct (Z.testbit x n), (Z.testbit y n), (Z.testbit p n); done.
Qed.

Lemma crc_bits_lxor k a b : crc_bits k (Z.lxor a b) = Z.lxor (crc_bits k a) (crc_bits k b).
Proof.
  revert a b. induction k as [|k IH]; intros a b; cbn; [done|]. by rewrite crc_bit_lxor, IH.
Qed.

(** The bits above the first [k] are only shifted. *)
Lemma crc_bits_shiftl k y : crc_bits k (Z.shiftl y (Z.of_nat k)) = y.
Proof.
  revert y. induction k as [|k IH]; intros y; [apply Z.shiftl_0_r|]. cbn [crc_bits].
  assert (E : crc_bit (Z.shiftl y (Z.of_nat (S k))) = Z.shiftl y (Z.of_nat k)).
  { unfold crc_bit. rewrite Z.shiftl_spec_low by lia. rewrite Z.lxor_0_r.
    rewrite Z.shiftr_shiftl_l by lia. f_equal. lia. }
  by rewrite E.
Qed.

Lemma low_high k x :
  0 <= k -> x = Z.lxor (Z.land x (Z.ones k)) (Z.shiftl (Z.shiftr x k) k).
Proof.
  intros Hk. apply Z.bits_inj'. intros n Hn. rewrite Z.lxor_spec, Z.land_spec, Z.shiftl_spec by lia.
  destruct (Z_lt_ge_dec n k).
  - rewrite Z.ones_spec_low by lia. rewrite (Z.testbit_neg_r _ (n - k)) by lia.
    by rewrite andb_true_r, xorb_false_r.
  - rewrite Z.ones_spec_high, Z.shiftr_spec by lia. rewrite andb_false_r, xorb_false_l. f_equal. lia.
Qed.

(** A table that has the remainders of the first [2 ^ k] numbers does [k] steps
    at once. *)
Lemma table_step k mask w table x :
  mask = Z.ones (Z.of_nat k) -> w = Z.of_nat k ->
  (forall i, 0 <= i < 2 ^ Z.of_nat k -> nth (Z.to_nat i) table 0 = crc_bits k i) ->
  Z.lxor (nth (Z.to_nat (Z.land x mask)) table 0) (Z.shiftr x w) = crc_bits k x.
Proof.
  intros -> -> H. rewrite H.
  - rewrite (low_high (Z.of_nat k) x) at 3 by lia. by rewrite crc_bits_lxor, crc_bits_shiftl.
  - rewrite Z.land_ones by lia. apply Z.mod_pos_bound. apply Z.pow_pos_nonneg; lia.
Qed.

Lemma crc_table_ok i : 0 <= i < 2 ^ Z.of_nat 8 -> nth (Z.to_nat i) crc_table 0 = crc_bits 8 i.
Proof.
  intros Hi. apply Z.eqb_eq.
  apply (zrange_forall 256 (fun i => nth (Z.to_nat i) crc_table 0 =? crc_bits 8 i));
    [vm_compute; reflexivity|exact Hi].
Qed.

Lemma table256_ok i :
  0 <= i < 2 ^ Z.of_nat 8 -> nth (Z.to_nat i) ngx_crc32_table256 0 = crc_bits 8 i.
Proof. change ngx_crc32_table256 with crc_table. apply crc_table_ok. Qed.

Lemma table16_ok i :
  0 <= i < 2 ^ Z.of_nat 4 -> nth (Z.to_nat i) ngx_crc32_table16 0 = crc_bits 4 i.
Proof.
  intros Hi. apply Z.eqb_eq.
  apply (zrange_forall 16 (fun i => nth (Z.to_nat i) ngx_crc32_table16 0 =? crc_bits 4 i));
    [vm_compute; reflexivity|exact Hi].
Qed.

(** A byte of data only changes the low bits. *)
Lemma shiftr_byte crc c : is_byte c -> Z.shiftr (Z.lxor crc c) 8 = Z.shiftr crc 8.
Proof.
  intros Hc. rewrite Z.shiftr_lxor. replace (Z.shiftr c 8) with 0; [apply Z.lxor_0_r|].
  rewrite Z.shiftr_div_pow2 by lia. unfold is_byte in Hc. symmetry. apply Z.div_small. lia.
Qed.

Lemma crc_bit_range c : 0 <= c < 2 ^ 32 -> 0 <= crc_bit c < 2 ^ 32.
Proof.
  intros Hc. apply lxor_range; [lia| |].
  - rewrite Z.shiftr_div_pow2 by lia. split; [apply Z.div_pos; lia|].
    apply Z.div_lt_upper_bound; lia.
  - unfold crc_poly. destruct (Z.testbit c 0); lia.
Qed.

Lemma crc_bits_range k c : 0 <= c < 2 ^ 32 -> 0 <= crc_bits k c < 2 ^ 32.
Proof.
  revert c. induction k as [|k IH]; intros c Hc; [done|]. by apply IH, crc_bit_range.
Qed.

Lemma crc_byte_range crc c : 0 <= crc < 2 ^ 32 -> is_byte c -> 0 <= crc_bits 8 (Z.lxor crc c) < 2 ^ 32.
Proof.
  intros H Hc. apply crc_bits_range, lxor_range; [lia|done|]. unfold is_byte in Hc. lia.
Qed.

Lemma land_u32 z : 0 <= z < 2 ^ 32 -> Z.land z 0xffffffff = z.
Proof.
  intros H. change 0xffffffff with (Z.ones 32). rewrite Z.land_ones by lia. by apply Z.mod_small.
Qed.

(** The equations of the loops, so that rewriting need not compute with tables. *)
Lemma crc_ref_cons crc c data : crc_ref crc (c :: data) = crc_ref (crc_bits 8 (Z.lxor crc c)) data.
Proof. reflexivity. Qed.

Lemma crc32_loop_cons crc c data :
  crc32_loop crc (c :: data) =
    crc32_loop (Z.land (Z.lxor (nth (Z.to_nat (Z.land (Z.lxor crc c) 0xff)) crc_table 0) (Z.shiftr crc 8)) 0xffffffff) data.
Proof. reflexivity. Qed.

Lemma ngx_update_cons crc c data :
  ngx_crc32_update crc (c :: data) =
    ngx_crc32_update (Z.lxor (nth (Z.to_nat (Z.land (Z.lxor crc c) 0xff)) ngx_crc32_table256 0) (Z.shiftr crc 8)) data.
Proof. reflexivity. Qed.

Definition short_step (crc d : Z) : Z :=
  Z.lxor (nth (Z.to_nat (Z.land (Z.lxor crc d) 0xf)) ngx_crc32_table16 0) (Z.shiftr crc 4).

Lemma short_loop_cons crc c data :
  crc32_short_loop crc (c :: data) = crc32_short_loop (short_step (short_step crc (Z.land c 0xf)) (Z.shiftr c 4)) data.
Proof. reflexivity. Qed.

Lemma crc32_loop_ref crc data :
  0 <= crc < 2 ^ 32 -> bytes data ->
  crc32_loop crc data = crc_ref crc data /\ 0 <= crc_ref crc data < 2 ^ 32.
Proof.
  intros Hc Hd. revert crc Hc. induction Hd as [|c data Hb Hd IH]; intros crc Hc; [done|].
  rewrite crc32_loop_cons, crc_ref_cons.
  rewrite <- (shiftr_byte crc c Hb).
  rewrite (table_step 8 0xff 8 crc_table _ eq_refl eq_refl crc_table_ok).
  rewrite land_u32 by (by apply crc_byte_range). apply IH. by apply crc_byte_range.
Qed.

Lemma ngx_update_ref crc data : bytes data -> ngx_crc32_update crc data = crc_ref crc data.
Proof.
  intros Hd. revert crc. induction Hd as [|c data Hb Hd IH]; intros crc; [done|].
  rewrite ngx_update_cons, IH, crc_ref_cons. f_equal.
  rewrite <- (shiftr_byte crc c Hb). apply (table_step 8 0xff 8 ngx_crc32_table256 _ eq_refl eq_refl table256_ok).
Qed.

(** Four bits of data. *)
Lemma nibble_step crc d :
  0 <= d < 16 ->
  short_step crc d = crc_bits 4 (Z.lxor crc d).
Proof.
  intros Hd. unfold short_step. rewrite <- (table_step 4 0xf 4 ngx_crc32_table16 _ eq_refl eq_refl table16_ok). f_equal.
  rewrite Z.shiftr_lxor. replace (Z.shiftr d 4) with 0; [by rewrite Z.lxor_0_r|].
  rewrite Z.shiftr_div_pow2 by lia. symmetry. apply Z.div_small. lia.
Qed.

Lemma crc_bits_add a b c : crc_bits (a + b) c = crc_bits b (crc_bits a c).
Proof. revert c. induction a as [|a IH]; intros c; [done|]. cbn [Nat.add crc_bits]. apply IH. Qed.

Lemma short_loop_ref crc data : bytes data -> crc32_short_loop crc data = crc_ref crc data.
Proof.
  intros Hd. revert crc. induction Hd as [|c data Hb Hd IH]; intros crc; [done|].
  rewrite short_loop_cons, IH, crc_ref_cons. f_equal.
  unfold is_byte in Hb.
  assert (Hlo : 0 <= Z.land c 0xf < 16)
    by (change 0xf with (Z.ones 4); rewrite Z.land_ones by lia; apply Z.mod_pos_bound; lia).
  assert (Hhi : 0 <= Z.shiftr c 4 < 16).
  { rewrite Z.shiftr_div_pow2 by lia. split; [apply Z.div_pos; lia|].
    apply Z.div_lt_upper_bound; lia. }
  rewrite !nibble_step by done. rewrite (low_high 4 c) at 3 by lia.
  change (Z.ones 4) with 0xf. change 8%nat with (4 + 4)%nat. rewrite crc_bits_add.
  rewrite <- Z.lxor_assoc, (crc_bits_lxor 4 (Z.lxor crc _)).
  by rewrite (crc_bits_shiftl 4).
Qed.

(** The table-driven checksums are the CRC they are meant to be: on any
    data, the value of librdkafka, with its table of 256 entries, and both of
    nginx, with 256 and with 16 entries, are the remainder computed bit by bit
    with the reflected polynomial 0x04c11db7; and a value updated piece by
    piece is that of the whole. *)
Theorem crc32_tables_correct data data2 :
  bytes data -> bytes data2 ->
  rd_crc32 data = rd_crc32_finalize (crc_ref rd_crc32_init data) /\
  ngx_crc32_long data = rd_crc32 data /\ ngx_crc32_short data = rd_crc32 data /\
  rd_crc32_finalize (rd_crc32_update (rd_crc32_update rd_crc32_init data) data2)
    = rd_crc32 (data ++ data2).
Proof.
  intros Hd Hd2.
  assert (Hup : forall crc l, 0 <= crc < 2 ^ 32 -> bytes l ->
    rd_crc32_update crc l = crc_ref crc l /\ 0 <= crc_ref crc l < 2 ^ 32).
  { intros crc l Hc Hl. destruct (crc32_loop_ref crc l Hc Hl) as [E H]. split; [|done].
    unfold rd_crc32_update. by rewrite E, land_u32. }
  assert (Hi : 0 <= rd_crc32_init < 2 ^ 32) by (unfold rd_crc32_init; lia).
  destruct (Hup _ _ Hi Hd) as [E1 H1]. unfold rd_crc32, ngx_crc32_long, ngx_crc32_short.
  rewrite ngx_update_ref, short_loop_ref by done. rewrite E1. split_and!; [done..|].
  rewrite (proj1 (Hup _ _ H1 Hd2)), (proj1 (Hup _ _ Hi (proj2 (Forall_app _ _ _) (conj Hd Hd2)))).
  unfold crc_ref. by rewrite fold_left_app.
Qed.

Lemma crc32_tables_correct_witness :
  rd_crc32 (lit "1234") = rd_crc32_finalize (crc_ref rd_crc32_init (lit "1234")) /\
  ngx_crc32_long (lit "1234") = rd_crc32 (lit "1234") /\
  ngx_crc32_short (lit "1234") = rd_crc32 (lit "1234") /\
  rd_crc32_finalize (rd_crc32_update (rd_crc32_update rd_crc32_init (lit "1234")) (lit "56789"))
    = 0xcbf43926.
Proof.
  change 0xcbf43926 with (rd_crc32 (lit "1234" ++ lit "56789")).
  apply (crc32_tables_correct (lit "1234") (lit "56789")); repeat constructor; discriminate.
Defined.
