(* ===== verification/NgxParse.v ===== *)
(** * Sizes and times in the configuration ([ngx_parse.c]) *)

From S2P Require Import Prelude NgxNumber.

(** ** Sizes *)

(** The unit at the end of a size: what is left of the line, and the scale. *)
Definition size_unit (with_giga : bool) (line : list Z) (unit : Z) : list Z * Z :=
  if (unit =? chr "K") || (unit =? chr "k") then (removelast line, 1024)
  else if (unit =? chr "M") || (unit =? chr "m") then (removelast line, 1024 * 1024)
  else if with_giga && ((unit =? chr "G") || (unit =? chr "g"))
  then (removelast line, 1024 * 1024 * 1024)
  else (line, 1).

(** [ngx_parse_size] and [ngx_parse_offset]; an empty line is read before its
    start: [None]. *)
Definition ngx_parse_size (line : list Z) : option Z :=
  match list.last line with
  | None => None
  | Some unit =>
      let (digits, scale) := size_unit false line unit in
      let size := ngx_atosz digits in
      Some (if size =? NGX_ERROR then NGX_ERROR else s64 (size * scale))
  end.

Definition ngx_parse_offset (line : list Z) : option Z :=
  match list.last line with
  | None => None
  | Some unit =>
      let (digits, scale) := size_unit true line unit in
      let offset := ngx_atoof digits in
      Some (if offset =? NGX_ERROR then NGX_ERROR else s64 (offset * scale))
  end.

(** ** Times *)

Inductive time_step :=
  | st_start | st_year | st_month | st_week | st_day | st_hour | st_min | st_sec
  | st_msec | st_last.

Definition step_rank (s : time_step) : Z :=
  match s with
  | st_start => 0 | st_year => 1 | st_month => 2 | st_week => 3 | st_day => 4
  | st_hour => 5 | st_min => 6 | st_sec => 7 | st_msec => 8 | st_last => 9
  end.

Abbreviation NGX_MAX_INT32_VALUE := 0x7fffffff (only parsing).

(** The switch on a unit: the next step, its [max] and [scale]; [None] is
    [NGX_ERROR]. [ms] is whether an [s] follows. *)
Definition time_unit (is_sec : bool) (step : time_step) (c : Z) (ms : bool)
  : option (time_step * Z * Z) :=
  let unit (limit : bool) (next : time_step) (secs : Z) :=
    if limit then None else Some (next, NGX_MAX_INT32_VALUE / secs, secs) in
  let from s := step_rank s <=? step_rank step in
  if c =? chr "y" then
    unit (step_rank st_start <? step_rank step) st_year (60 * 60 * 24 * 365)
  else if c =? chr "M" then unit (from st_month) st_month (60 * 60 * 24 * 30)
  else if c =? chr "w" then unit (from st_week) st_week (60 * 60 * 24 * 7)
  else if c =? chr "d" then unit (from st_day) st_day (60 * 60 * 24)
  else if c =? chr "h" then unit (from st_hour) st_hour (60 * 60)
  else if c =? chr "m" then
    if ms then unit (is_sec || from st_msec) st_msec 1
    else unit (from st_min) st_min 60
  else if c =? chr "s" then unit (from st_sec) st_sec 1
  else if c =? chr " " then unit (from st_sec) st_last 1
  else None.

Fixpoint skip_spaces (l : list Z) : list Z :=
  match l with
  | c :: l' => if c =? chr " " then skip_spaces l' else l
  | [] => []
  end.

(** What the loop carries. *)
Record time_state := TimeState {
  t_value : Z;
  t_total : Z;
  t_step : time_step;
  t_valid : bool;
}.

(** A unit read: the checks, and the total; [None] is [NGX_ERROR]. *)
Definition time_add (is_sec : bool) (s : time_state) (c : Z) (ms : bool) : option time_state :=
  match time_unit is_sec s.(t_step) c ms with
  | None => None
  | Some (step, max, scale) =>
      let milli := negb (step_rank step =? step_rank st_msec) && negb is_sec in
      let scale := if milli then scale * 1000 else scale in
      let max := if milli then max / 1000 else max in
      if max <? u64 s.(t_value) then None
      else
        let total := s64 (s.(t_total) + s.(t_value) * scale) in
        if NGX_MAX_INT32_VALUE <? u64 total then None
        else Some (TimeState 0 total step s.(t_valid))
  end.

(** The loop of [ngx_parse_time]. [after] is the byte after the line, which the
    [m] unit looks at; every step consumes a byte, so [fuel] the length of the
    line is enough. *)
Fixpoint time_loop (fuel : nat) (is_sec : bool) (after : Z) (s : time_state) (line : list Z)
  : option time_state :=
  match fuel, line with
  | S fuel', c :: rest =>
      if is_digit c then
        time_loop fuel' is_sec after
          (TimeState (s64 (s.(t_value) * 10 + (c - chr "0"))) s.(t_total) s.(t_step) true) rest
      else
        let ms := default after (head rest) =? chr "s" in
        match time_add is_sec s c ms with
        | None => None
        | Some s' =>
            let rest := if (c =? chr "m") && ms then tail rest else rest in
            time_loop fuel' is_sec after s' (skip_spaces rest)
        end
  | _, _ => Some s
  end.

Definition ngx_parse_time (line : list Z) (is_sec : bool) (after : Z) : Z :=
  let start := TimeState 0 0 (if is_sec then st_start else st_month) false in
  match time_loop (length line) is_sec after start line with
  | None => NGX_ERROR
  | Some s =>
      if s.(t_valid)
      then s64 (s.(t_total) + s.(t_value) * (if is_sec then 1 else 1000))
      else NGX_ERROR
  end.

(** ** Examples *)

Example parse_time_units : ngx_parse_time (lit "1h 30m") true 0 = 5400.
Proof. reflexivity. Qed.

Example parse_time_ms : ngx_parse_time (lit "1s500ms") false 0 = 1500.
Proof. reflexivity. Qed.

Example parse_size_kilo : ngx_parse_size (lit "64k") = Some 65536.
Proof. reflexivity. Qed.

(** ** The grammar of times *)

Inductive tunit := Year | Month | Week | Day | Hour | Min | Sec.

Definition unit_letter (u : tunit) : Z :=
  match u with
  | Year => chr "y" | Month => chr "M" | Week => chr "w" | Day => chr "d"
  | Hour => chr "h" | Min => chr "m" | Sec => chr "s"
  end.

Definition unit_secs (u : tunit) : Z :=
  match u with
  | Year => 31536000 | Month => 2592000 | Week => 604800 | Day => 86400
  | Hour => 3600 | Min => 60 | Sec => 1
  end.

Definition unit_step (u : tunit) : time_step :=
  match u with
  | Year => st_year | Month => st_month | Week => st_week | Day => st_day
  | Hour => st_hour | Min => st_min | Sec => st_sec
  end.

(** A component: a number, its unit, and the spaces after it. *)
Record tcomp := TComp {
  tc_digits : list Z;
  tc_unit : tunit;
  tc_spaces : nat;
}.

Definition tcomp_print (c : tcomp) : list Z :=
  c.(tc_digits) ++ [unit_letter c.(tc_unit)] ++ replicate c.(tc_spaces) (chr " ").

Definition time_print (l : list tcomp) : list Z := concat (map tcomp_print l).

Definition tcomp_secs (c : tcomp) : Z := dec_value 0 c.(tc_digits) * unit_secs c.(tc_unit).

Fixpoint time_secs (l : list tcomp) : Z :=
  match l with
  | [] => 0
  | c :: l' => tcomp_secs c + time_secs l'
  end.

(** Components from larger to smaller units, each with a number. *)
Fixpoint tcomps_ok (rank : Z) (l : list tcomp) : Prop :=
  match l with
  | [] => True
  | c :: l' =>
      c.(tc_digits) <> [] /\ forallb is_digit c.(tc_digits) = true /\
      rank < step_rank (unit_step c.(tc_unit)) /\
      tcomps_ok (step_rank (unit_step c.(tc_unit))) l'
  end.

Lemma time_digits fuel after v tot st b ds rest :
  forallb is_digit ds = true ->
  time_loop (length ds + fuel) true after (TimeState (s64 v) tot st b) (ds ++ rest) =
  time_loop fuel true after
    (TimeState (s64 (dec_value v ds)) tot st (b || negb (beq ds []))) rest.
Proof.
  revert v b. induction ds as [|c ds IH]; intros v b Hd; cbn [length app Nat.add].
  { by rewrite orb_false_r. }
  cbn in Hd. apply andb_true_iff in Hd as [Hc Hd]. cbn [time_loop]. rewrite Hc.
  cbn [t_value t_total t_step]. autorewrite with ngx. rewrite IH by done. cbn. by rewrite orb_true_r.
Qed.

Lemma time_digits_ge fuel after v tot st b ds rest :
  (length ds <= fuel)%nat -> forallb is_digit ds = true ->
  time_loop fuel true after (TimeState (s64 v) tot st b) (ds ++ rest) =
  time_loop (fuel - length ds) true after
    (TimeState (s64 (dec_value v ds)) tot st (b || negb (beq ds []))) rest.
Proof.
  intros Hf Hd. rewrite <- (time_digits (fuel - length ds)) by done. f_equal. lia.
Qed.

Lemma skip_spaces_app n l : skip_spaces (replicate n (chr " ") ++ l) = skip_spaces l.
Proof. induction n as [|n IH]; cbn; auto. Qed.

(** A time starts with a digit, or there is none. *)
Lemma time_print_head rank l after :
  tcomps_ok rank l -> after <> chr "s" ->
  skip_spaces (time_print l) = time_print l /\ (default after (head (time_print l)) =? chr "s") = false.
Proof.
  destruct l as [|[ds u n] l]; cbn; intros H Ha.
  { split; [done|]. by apply Z.eqb_neq. }
  destruct H as (Hne & Hd & _). destruct ds as [|c ds]; [done|]. cbn in *.
  apply andb_true_iff in Hd as [Hc _]. unfold is_digit in Hc.
  apply andb_true_iff in Hc as [Hc1 Hc2]. apply Z.leb_le in Hc1, Hc2.
  rewrite (proj2 (Z.eqb_neq c 32)) by lia. split; [done|]. apply Z.eqb_neq. lia.
Qed.

Lemma time_unit_ok step u :
  step_rank step < step_rank (unit_step u) ->
  time_unit true step (unit_letter u) false =
  Some (unit_step u, NGX_MAX_INT32_VALUE / unit_secs u, unit_secs u).
Proof. destruct u, step; cbn; intros H; (reflexivity || lia). Qed.

Lemma time_add_ok u step v tot b :
  step_rank step < step_rank (unit_step u) ->
  0 <= v -> 0 <= tot -> tot + v * unit_secs u <= NGX_MAX_INT32_VALUE ->
  time_add true (TimeState v tot step b) (unit_letter u) false =
  Some (TimeState 0 (tot + v * unit_secs u) (unit_step u) b).
Proof.
  intros Hs Hv Ht Hm. unfold time_add. cbn [t_value t_total t_step t_valid].
  rewrite time_unit_ok by done. cbn [negb]. rewrite andb_false_r.
  assert (0 < unit_secs u) by (by destruct u).
  assert (v <= NGX_MAX_INT32_VALUE / unit_secs u).
  { apply Z.div_le_lower_bound; lia. }
  assert (0 <= v * unit_secs u) by nia. assert (v <= v * unit_secs u) by nia.
  rewrite (u64_small v) by lia. rewrite (proj2 (Z.ltb_ge _ _)) by lia.
  rewrite (s64_small (tot + _)), u64_small by lia.
  rewrite (proj2 (Z.ltb_ge _ _)) by lia. done.
Qed.

Lemma unit_not_digit u : is_digit (unit_letter u) = false.
Proof. by destruct u. Qed.

Lemma time_secs_nonneg rank l : tcomps_ok rank l -> 0 <= time_secs l.
Proof.
  revert rank. induction l as [|c l IH]; cbn; intros rank; [lia|].
  intros (_ & Hd & _ & Hl). apply IH in Hl. unfold tcomp_secs.
  pose proof (dec_value_nonneg c.(tc_digits) 0 ltac:(lia) Hd).
  assert (0 < unit_secs (tc_unit c)) by (by destruct (tc_unit c)). nia.
Qed.

Lemma time_loop_print l : forall fuel after tot step b,
  (length (time_print l) <= fuel)%nat -> after <> chr "s" ->
  tcomps_ok (step_rank step) l -> 0 <= tot -> tot + time_secs l <= NGX_MAX_INT32_VALUE ->
  exists step', time_loop fuel true after (TimeState 0 tot step b) (time_print l) =
    Some (TimeState 0 (tot + time_secs l) step' (b || negb (beq (time_print l) []))).
Proof.
  induction l as [|[ds u n] l IH]; intros fuel after tot step b Hf Ha Hok Ht Hm.
  { exists step. destruct fuel; cbn; by rewrite Z.add_0_r, orb_false_r. }
  cbn in Hok. destruct Hok as (Hne & Hd & Hr & Hok).
  unfold time_print in *. cbn [map concat] in *. unfold tcomp_print at 1 in Hf.
  unfold tcomp_print at 1 3. cbn [tc_digits tc_unit tc_spaces] in *.
  rewrite <- !app_assoc in *. cbn [app] in *.
  rewrite !length_app in Hf. cbn [length] in Hf. rewrite length_app, length_replicate in Hf.
  cbn [time_secs] in Hm |- *. unfold tcomp_secs in *.
  cbn [tc_digits tc_unit] in *.
  pose proof (dec_value_nonneg ds 0 ltac:(lia) Hd) as Hv.
  pose proof (time_secs_nonneg _ _ Hok) as Hl.
  assert (Hs : 0 < unit_secs u) by (by destruct u).
  change 0 with (s64 0) at 1. rewrite time_digits_ge by (done || lia).
  rewrite s64_small by nia.
  destruct (fuel - length ds)%nat as [|fuel'] eqn:Ef; [lia|]. cbn [time_loop].
  rewrite unit_not_digit.
  destruct (time_print_head _ _ after Hok Ha) as [Hsk Hhd]. unfold time_print in Hsk, Hhd.
  assert (Hms : (default after (head (replicate n 32 ++ concat (map tcomp_print l))) =? chr "s") = false)
    by (destruct n; [exact Hhd|done]).
  rewrite Hms, andb_false_r. rewrite time_add_ok by (done || lia || nia).
  rewrite skip_spaces_app, Hsk.
  destruct (IH fuel' after (tot + dec_value 0 ds * unit_secs u) (unit_step u)
    (b || negb (beq ds []))) as (step' & E); [|done|done|nia|lia|].
  { unfold time_print. lia. }
  exists step'. unfold time_print in E. rewrite E. do 2 f_equal; [lia|].
  destruct ds as [|c ds]; [done|]. cbn. by rewrite !orb_true_r.
Qed.

(** Times in the configuration mean what they say: a sequence of numbers
    with units, from larger to smaller units, with or without spaces between
    them, is read as the sum of its components in seconds, provided the sum
    fits a signed 32-bit integer. *)
Theorem parse_time_sum l after :
  l <> [] -> tcomps_ok 0 l -> after <> chr "s" -> time_secs l <= NGX_MAX_INT32_VALUE ->
  ngx_parse_time (time_print l) true after = time_secs l.
Proof.
  intros Hne Hok Ha Hm. pose proof (time_secs_nonneg _ _ Hok) as Hnn.
  destruct (time_loop_print l (length (time_print l)) after 0 st_start false) as (step' & E);
    [lia|done|done|lia|lia|].
  unfold ngx_parse_time. rewrite E. cbn [t_valid t_total t_value orb].
  destruct l as [|[ds u n] l]; [done|]. cbn in Hok. destruct Hok as (Hds & _).
  destruct ds as [|c ds]; [done|]. cbn [time_print map concat tcomp_print tc_digits app beq negb].
  rewrite Z.add_0_l, Z.add_0_r, s64_small by lia. done.
Qed.

Lemma parse_time_sum_witness :
  ngx_parse_time (lit "1d  12h30m") true 0 = 131400.
Proof.
  apply (parse_time_sum [TComp (lit "1") Day 2; TComp (lit "12") Hour 0; TComp (lit "30") Min 0] 0).
  - discriminate.
  - vm_compute. repeat split; discriminate.
  - discriminate.
  - vm_compute. discriminate.
Defined.

(** The limit of 2147483647 seconds on a time holds only for numbers with a
    unit: a number at the end of the line is added without a check, so it may
    exceed the limit and even wrap around to a negative time. Sizes are scaled
    without any check. *)
Theorem parse_limits_unchecked :
  ngx_parse_time (lit "99999999999s") true 0 = NGX_ERROR /\
  ngx_parse_time (lit "99999999999") true 0 = 99999999999 /\
  ngx_parse_time (lit "9223372036854775808") true 0 = - 2 ^ 63 /\
  ngx_parse_size (lit "9007199254740992k") = Some (- 2 ^ 63).
Proof. vm_compute. done. Qed.
