(* ===== verification/NgxSprintf.v ===== *)
(** * Formatted output (nginx core, [ngx_string.c])

    [ngx_vslprintf] interprets a format with its arguments into the bytes
    between [buf] and [last].  The model returns the bytes written: [room] is
    [last - buf] at the call, and [buf < last] is [zlen out < room].  A read of
    an argument that is missing or of another kind, and a read behind the end
    of the format, are undefined behaviour in C and [FmtUB] here.  ["%f"] works on
    a [double]; it is the one conversion left out ([FmtFloat]). *)

From S2P Require Import Prelude NgxNumber.

(** ** Arguments and results *)

(** An argument as [va_arg] reads it: an integer register, an [ngx_str_t] or
    [ngx_variable_value_t] by address, or a pointer to bytes (those readable
    there; a terminating zero is taken to follow them). *)
Inductive varg :=
  | VInt (z : Z)
  | VStr (s : list Z)
  | VPtr (p : list Z).

Inductive fmt_result :=
  | FmtOk (out : list Z)
  | FmtUB
  | FmtFloat
  | FmtFuel.

(** The state of one conversion between ["%"] and its final letter. *)
Record fmt_spec := FmtSpec {
  fs_zero : Z;
  fs_width : Z;
  fs_sign : Z;
  fs_hex : Z;
  fs_max_width : Z;
  fs_frac_width : Z;
  fs_slen : option Z;       (* None is (size_t) -1 *)
}.

(** ** Scanning a conversion *)

Fixpoint scan_width (w : Z) (fmt : list Z) : Z * list Z :=
  match fmt with
  | c :: fmt' =>
      if is_digit c then scan_width (u64 (w * 10 + c - chr "0")) fmt'
      else (w, fmt)
  | [] => (w, [])
  end.

(** The [for ( ;; ) switch] loop over the flags; ["."] reads the fraction
    width and leaves the loop. *)
Fixpoint scan_flags (s : fmt_spec) (fmt : list Z) (args : list varg)
  : option (fmt_spec * list Z * list varg) :=
  match fmt with
  | c :: fmt' =>
      if c =? chr "u" then
        scan_flags (FmtSpec s.(fs_zero) s.(fs_width) 0 s.(fs_hex) s.(fs_max_width)
                      s.(fs_frac_width) s.(fs_slen)) fmt' args
      else if c =? chr "m" then
        scan_flags (FmtSpec s.(fs_zero) s.(fs_width) s.(fs_sign) s.(fs_hex) 1
                      s.(fs_frac_width) s.(fs_slen)) fmt' args
      else if c =? chr "X" then
        scan_flags (FmtSpec s.(fs_zero) s.(fs_width) 0 2 s.(fs_max_width)
                      s.(fs_frac_width) s.(fs_slen)) fmt' args
      else if c =? chr "x" then
        scan_flags (FmtSpec s.(fs_zero) s.(fs_width) 0 1 s.(fs_max_width)
                      s.(fs_frac_width) s.(fs_slen)) fmt' args
      else if c =? chr "." then
        let (fw, rest) := scan_width s.(fs_frac_width) fmt' in
        Some (FmtSpec s.(fs_zero) s.(fs_width) s.(fs_sign) s.(fs_hex) s.(fs_max_width)
                fw s.(fs_slen), rest, args)
      else if c =? chr "*" then
        match args with
        | VInt n :: args' =>
            let n := u64 n in
            scan_flags (FmtSpec s.(fs_zero) s.(fs_width) s.(fs_sign) s.(fs_hex)
                          s.(fs_max_width) s.(fs_frac_width)
                          (if n =? 2 ^ 64 - 1 then None else Some n))
              fmt' args'
        | _ => None
        end
      else Some (s, fmt, args)
  | [] => Some (s, [], args)
  end.

(** ** Conversions *)

(** The bytes of a C string: those before the first zero. *)
Fixpoint cstr (p : list Z) : list Z :=
  match p with
  | [] => []
  | c :: p' => if c =? 0 then [] else c :: cstr p'
  end.

(** What the final letter asks for: bytes copied as they are, an integer
    ([sign] and [width] may be changed by the letter), one plain byte, or
    nothing the model covers. *)
Inductive conv :=
  | CCopy (bs : list Z)
  | CCopyN (p : list Z) (n : Z)
  | CNum (neg : bool) (ui64 : Z) (zero hex width : Z)
  | CByte (b : Z)
  | CFloat
  | CUndef.

(** [if (sign) ...]: the sign of [i64] and the magnitude in [ui64]. *)
Definition cnum (s : fmt_spec) (sgn i64 ui64 width : Z) : conv :=
  if sgn =? 0 then CNum false ui64 s.(fs_zero) s.(fs_hex) width
  else if i64 <? 0 then CNum true (u64 (- i64)) s.(fs_zero) s.(fs_hex) width
  else CNum false (u64 i64) s.(fs_zero) s.(fs_hex) width.

(** The letters whose argument is signed or unsigned as [sign] says. *)
Definition cint (s : fmt_spec) (sgn uns : Z -> Z) (width : Z)
    (args : list varg) : conv * list varg :=
  match args with
  | VInt z :: args' => (cnum s s.(fs_sign) (sgn z) (uns z) width, args')
  | _ => (CUndef, args)
  end.

Definition csigned (s : fmt_spec) (conv_ : Z -> Z) (args : list varg)
  : conv * list varg :=
  match args with
  | VInt z :: args' => (cnum s 1 (conv_ z) 0 s.(fs_width), args')
  | _ => (CUndef, args)
  end.

Definition convert (c : Z) (s : fmt_spec) (args : list varg)
  : conv * list varg :=
  if (c =? chr "V") || (c =? chr "v") then
    match args with
    | VStr v :: args' => (CCopy v, args')
    | _ => (CUndef, args)
    end
  else if c =? chr "s" then
    match args, s.(fs_slen) with
    | VPtr p :: args', None => (CCopy (cstr p), args')
    | VPtr p :: args', Some n => (CCopyN p n, args')
    | _, _ => (CUndef, args)
    end
  else if (c =? chr "O") || (c =? chr "T") || (c =? chr "r") then
    csigned s s64 args
  else if c =? chr "P" then csigned s s32 args
  else if c =? chr "M" then
    match args with
    | VInt z :: args' =>
        let ms := u64 z in
        (if s64 ms =? -1 then cnum s 1 (-1) 0 s.(fs_width)
         else cnum s 0 0 ms s.(fs_width), args')
    | _ => (CUndef, args)
    end
  else if (c =? chr "z") || (c =? chr "l") || (c =? chr "L") then
    cint s s64 u64 s.(fs_width) args
  else if (c =? chr "i") || (c =? chr "A") then
    cint s s64 u64
      (if s.(fs_max_width) =? 0 then s.(fs_width) else NGX_INT64_LEN) args
  else if (c =? chr "d") || (c =? chr "D") then
    cint s s32 u32 s.(fs_width) args
  else if c =? chr "f" then (CFloat, args)
  else if c =? chr "p" then
    match args with
    | VInt z :: args' => (CNum false (u64 z) (chr "0") 2 16, args')
    | _ => (CUndef, args)
    end
  else if c =? chr "c" then
    match args with
    | VInt z :: args' => (CByte (Z.land z 0xff), args')
    | _ => (CUndef, args)
    end
  else if c =? chr "Z" then (CByte 0, args)
  else if c =? chr "N" then (CByte LF, args)
  else if c =? chr "%" then (CByte (chr "%"), args)
  else (CByte c, args).

(** The bytes a conversion writes with [room] bytes left, [0 < room].  The
    minus sign is written without a test, like every single byte. *)
Definition emit (room : Z) (c : conv) : option (list Z) :=
  match c with
  | CCopy bs => Some (take (Z.to_nat (Z.min room (zlen bs))) bs)
  | CCopyN p n =>
      let len := Z.min room n in
      if len <=? zlen p then Some (take (Z.to_nat len) p) else None
  | CByte b => Some [b]
  | CNum neg ui64 z h w =>
      let sgn := if neg then [chr "-"] else [] in
      match ngx_sprintf_num (room - zlen sgn) ui64 z h w with
      | Some num => Some (sgn ++ num)
      | None => None
      end
  | CFloat | CUndef => None
  end.

(** ** The interpreter

    [fmt] holds the bytes before the terminating zero.  Every turn of the
    [while] loop consumes at least one of them, so [length fmt] turns of fuel
    are enough (lemma [vslprintf_no_fuel]). *)
Fixpoint vslprintf_loop (fuel : nat) (room : Z) (fmt : list Z)
    (args : list varg) (out : list Z) : fmt_result :=
  match fmt with
  | [] => FmtOk out
  | c :: fmt' =>
      if zlen out <? room then
        match fuel with
        | O => FmtFuel
        | S fuel' =>
            if c =? chr "%" then
              let z := match fmt' with
                       | d :: _ => if d =? chr "0" then chr "0" else chr " "
                       | [] => chr " "
                       end in
              let (w, rest) := scan_width 0 fmt' in
              match scan_flags (FmtSpec z w 1 0 0 0 None) rest args with
              | None => FmtUB
              | Some (s, [], args') => FmtUB
              | Some (s, d :: rest', args') =>
                  let (cv, args'') := convert d s args' in
                  match emit (room - zlen out) cv with
                  | Some bs => vslprintf_loop fuel' room rest' args'' (out ++ bs)
                  | None => match cv with CFloat => FmtFloat | _ => FmtUB end
                  end
              end
            else vslprintf_loop fuel' room fmt' args (out ++ [c])
        end
      else FmtOk out
  end.

Definition ngx_vslprintf (room : Z) (fmt : list Z) (args : list varg)
  : fmt_result := vslprintf_loop (length fmt) room fmt args [].

(** [ngx_sprintf] passes [last = (void * ) -1]: the room is what the address
    space leaves above [buf], at least [2^63] bytes for a user-space buffer. *)
Definition sprintf_room : Z := 2 ^ 63.

Definition ngx_sprintf (fmt : list Z) (args : list varg) : fmt_result :=
  ngx_vslprintf sprintf_room fmt args.

Definition ngx_snprintf (max : Z) (fmt : list Z) (args : list varg)
  : fmt_result := ngx_vslprintf max fmt args.

Definition ngx_slprintf (buf last : Z) (fmt : list Z) (args : list varg)
  : fmt_result := ngx_vslprintf (last - buf) fmt args.

(** ** Lemmas *)

Lemma scan_width_length w fmt : (length (scan_width w fmt).2 <= length fmt)%nat.
Proof.
  revert w; induction fmt as [|c fmt IH]; intros w; cbn; [lia|].
  case_match; cbn; [|lia]. etrans; [apply IH|]. lia.
Qed.

Lemma scan_flags_length s fmt args s' rest args' :
  scan_flags s fmt args = Some (s', rest, args') ->
  (length rest <= length fmt)%nat.
Proof.
  revert s args; induction fmt as [|c fmt IH]; intros s args; cbn [scan_flags].
  { intros [= <- <- <-]. done. }
  repeat case_match; intros; simplify_eq; cbn;
    try (match goal with H : scan_flags _ _ _ = Some _ |- _ => apply IH in H; lia end);
    try lia.
  match goal with H : scan_width ?w ?f = _ |- _ =>
    pose proof (scan_width_length w f) as HL; rewrite H in HL; cbn in HL; lia end.
Qed.

(** A conversion yields a magnitude that fits 64 bits. *)
Definition conv_ok (c : conv) : Prop :=
  match c with CNum _ u _ _ _ => 0 <= u < 2 ^ 64 | _ => True end.

Lemma cnum_ok s sgn i64 ui64 w : 0 <= ui64 < 2 ^ 64 -> conv_ok (cnum s sgn i64 ui64 w).
Proof. intros. unfold cnum. repeat case_match; cbn; auto with ngx. Qed.

Lemma convert_ok c s args : conv_ok (convert c s args).1.
Proof.
  unfold convert, cint, csigned.
  assert (Hu32 : forall z, 0 <= u32 z < 2 ^ 64).
  { intros z. pose proof (u32_range z). lia. }
  repeat case_match; cbn [fst conv_ok]; auto with ngx;
    try apply cnum_ok; auto with ngx; lia.
Qed.

Lemma emit_length room c bs :
  0 < room -> conv_ok c -> emit room c = Some bs -> zlen bs <= room.
Proof.
  intros Hr Hc. destruct c as [l|p n|neg u z h w|b| |]; cbn [emit]; try done.
  - intros [= <-]. autorewrite with ngx. lia.
  - case_match; intros; simplify_eq. autorewrite with ngx. lia.
  - set (sgn := if neg then _ else _).
    assert (zlen sgn <= 1) by (unfold sgn; destruct neg; vm_compute; done).
    destruct (sprintf_num_length (room - zlen sgn) u z h w) as (out & -> & Ho & _);
      [lia | done |].
    intros [= <-]. autorewrite with ngx. lia.
  - intros [= <-]. autorewrite with ngx. lia.
Qed.

Lemma vslprintf_loop_bound fuel room fmt args out res :
  zlen out <= Z.max 0 room ->
  vslprintf_loop fuel room fmt args out = FmtOk res -> zlen res <= Z.max 0 room.
Proof.
  revert fmt args out; induction fuel as [|fuel IH]; intros fmt args out Ho;
    destruct fmt as [|c fmt]; cbn [vslprintf_loop].
  1, 3: by intros [= <-].
  all: destruct (Z.ltb_spec (zlen out) room); [|by intros [= <-]].
  { done. }
  destruct (c =? 37).
  - destruct (scan_width 0 fmt) as [w rest].
    destruct (scan_flags _ _ _) as [[[s [|d rest']] args']|]; try done.
    pose proof (convert_ok d s args') as Hok.
    destruct (convert d s args') as [cv args'']. cbn [fst] in Hok.
    destruct (emit _ cv) as [bs|] eqn:E; [|by destruct cv].
    apply IH. apply emit_length in E; [|lia|done]. autorewrite with ngx. lia.
  - apply IH. autorewrite with ngx. lia.
Qed.

Lemma vslprintf_no_fuel fuel room fmt args out :
  (length fmt <= fuel)%nat -> vslprintf_loop fuel room fmt args out <> FmtFuel.
Proof.
  revert fmt args out; induction fuel as [|fuel IH]; intros fmt args out Hl;
    destruct fmt as [|c fmt]; cbn [length] in Hl; cbn [vslprintf_loop]; try done.
  { lia. }
  destruct (zlen out <? room); [|done].
  destruct (c =? 37); [|apply IH; lia].
  pose proof (scan_width_length 0 fmt) as Hw.
  destruct (scan_width 0 fmt) as [w rest]. cbn [snd] in Hw.
  destruct (scan_flags _ _ _) as [[[s [|d rest']] args']|] eqn:E; try done.
  apply scan_flags_length in E. cbn [length] in E.
  destruct (convert d s args') as [cv args''].
  destruct (emit _ cv); [|by destruct cv]. apply IH. lia.
Qed.

(** ** What a format prints

    [prints fmt args bs]: with room enough, [fmt] with [args] appends [bs]. *)

Definition prints (fmt : list Z) (args : list varg) (bs : list Z) : Prop :=
  forall fuel room out, (length fmt <= fuel)%nat -> zlen out + zlen bs + 32 <= room ->
  vslprintf_loop fuel room fmt args out = FmtOk (out ++ bs).

Lemma prints_sprintf fmt args bs : prints fmt args bs -> zlen bs < 2 ^ 62 -> ngx_sprintf fmt args = FmtOk bs.
Proof.
  intros H Hb. unfold ngx_sprintf, ngx_vslprintf. rewrite H; [done|lia|].
  change (zlen (@nil Z)) with 0. unfold sprintf_room. lia.
Qed.

Lemma prints_nil args : prints [] args [].
Proof. intros fuel room out _ _. destruct fuel; cbn [vslprintf_loop]; by rewrite app_nil_r. Qed.

Lemma prints_lit c fmt args bs : (c =? chr "%") = false -> prints fmt args bs -> prints (c :: fmt) args (c :: bs).
Proof.
  intros Hc H fuel room out Hf Hr. destruct fuel as [|fuel]; cbn [length] in Hf; [lia|]. cbn [vslprintf_loop].
  autorewrite with ngx in Hr. pose proof (zlen_nonneg bs). rewrite (proj2 (Z.ltb_lt _ _)) by lia. rewrite Hc.
  rewrite H; [by rewrite <- app_assoc|lia|]. autorewrite with ngx. lia.
Qed.

(** A conversion: its flags are scanned, its argument taken, its bytes emitted. *)
Lemma prints_conv fmt w rest s d fmt' args args1 cv args' num bs :
  scan_width 0 fmt = (w, rest) ->
  scan_flags (FmtSpec (match fmt with c :: _ => if c =? chr "0" then chr "0" else chr " " | [] => chr " " end) w 1 0 0 0 None)
    rest args = Some (s, d :: fmt', args1) ->
  convert d s args1 = (cv, args') -> (length fmt' <= length fmt)%nat ->
  (forall room, zlen num + 32 <= room -> emit room cv = Some num) ->
  prints fmt' args' bs -> prints (chr "%" :: fmt) args (num ++ bs).
Proof.
  intros Hw Hs Hc Hl Hn H fuel room out Hf Hr. destruct fuel as [|fuel]; cbn [length] in Hf; [lia|]. cbn [vslprintf_loop].
  autorewrite with ngx in Hr. pose proof (zlen_nonneg bs). pose proof (zlen_nonneg num).
  rewrite (proj2 (Z.ltb_lt _ _)) by lia. cbn [Z.eqb Pos.eqb]. rewrite Hw, Hs, Hc, Hn by lia.
  rewrite H; [by rewrite <- app_assoc|lia|]. autorewrite with ngx. lia.
Qed.

(** ["%s"], and an [int] that is not negative, with its padding and width. *)
Lemma prints_str p fmt args bs : cstr p = p -> prints fmt args bs -> prints (lit "%s" ++ fmt) (VPtr p :: args) (p ++ bs).
Proof.
  intros Hp H. eapply prints_conv; [reflexivity|reflexivity|reflexivity|cbn; lia| |exact H].
  intros room Hr. cbn [emit]. rewrite Hp, take_ge; [done|unfold zlen in *; lia].
Qed.

Lemma prints_int zero w flags z fmt args num bs :
  scan_width 0 (flags ++ chr "d" :: fmt) = (w, chr "d" :: fmt) ->
  match flags ++ chr "d" :: fmt with c :: _ => if c =? chr "0" then chr "0" else chr " " | [] => chr " " end = zero ->
  0 <= z < 2 ^ 31 -> (forall room, zlen num + 32 <= room -> ngx_sprintf_num room z zero 0 w = Some num) ->
  prints fmt args bs -> prints (chr "%" :: flags ++ chr "d" :: fmt) (VInt z :: args) (num ++ bs).
Proof.
  intros Hw Hz Hr Hn H. eapply prints_conv; [exact Hw|reflexivity|reflexivity| |  |exact H].
  - rewrite length_app. cbn. lia.
  - intros room Hroom. rewrite Hz. cbn. rewrite s32_small by lia. unfold cnum. cbn.
    rewrite (proj2 (Z.ltb_ge _ _)) by lia. cbn [emit]. rewrite u64_small, Z.sub_0_r by lia. by rewrite Hn.
Qed.

Lemma prints_char c fmt args bs : is_byte c -> prints fmt args bs -> prints (lit "%c" ++ fmt) (VInt c :: args) (c :: bs).
Proof.
  intros Hc H. change (c :: bs) with ([c] ++ bs).
  eapply prints_conv; [reflexivity|reflexivity|reflexivity|cbn; lia| |exact H].
  intros room Hr. cbn [emit]. change 0xff with (Z.ones 8). rewrite Z.land_ones by lia. by rewrite Z.mod_small.
Qed.

(** Two digits, and four. *)
Definition digits2 (z : Z) : list Z := [chr "0" + z / 10; chr "0" + z mod 10].
Definition digits4 (z : Z) : list Z :=
  [chr "0" + z / 1000; chr "0" + z / 100 mod 10; chr "0" + z / 10 mod 10; chr "0" + z mod 10].

Lemma num_two z room : 0 <= z < 100 -> zlen (digits2 z) + 32 <= room -> ngx_sprintf_num room z (chr "0") 0 2 = Some (digits2 z).
Proof.
  intros Hz Hr. unfold ngx_sprintf_num, num_digits. cbn [Z.eqb]. rewrite (proj2 (Z.leb_le _ _)), u32_small by lia.
  unfold digits2 in *. cbn [dec_digits]. assert (E : z / 10 / 10 = 0) by divlia. rewrite E. cbn [Z.eqb].
  rewrite !u8_small by divlia. change (zlen [_; _]) with 2 in Hr.
  destruct (Z.eqb_spec (z / 10) 0) as [Hq|Hq].
  - change (zlen [_]) with 1. cbn -[replicate]. rewrite (Z.min_l 1) by lia. rewrite (proj2 (Z.ltb_ge _ _)) by lia.
    change (Z.to_nat 1) with 1%nat. cbn. rewrite Hq. by rewrite (Z.add_comm 48 (z mod 10)).
  - change (zlen [_; _]) with 2. cbn -[replicate]. rewrite (Z.min_l 0) by lia. rewrite (proj2 (Z.ltb_ge _ _)) by lia.
    change (Z.to_nat 0) with 0%nat. change (Z.to_nat 2) with 2%nat. cbn.
    assert (z / 10 mod 10 = z / 10) as -> by divlia. by rewrite !(Z.add_comm 48).
Qed.

Lemma num_four z zero width room :
  1000 <= z < 10000 -> width <= 4 -> zlen (digits4 z) + 32 <= room -> ngx_sprintf_num room z zero 0 width = Some (digits4 z).
Proof.
  intros Hz Hw Hr. unfold ngx_sprintf_num, num_digits. cbn [Z.eqb]. rewrite (proj2 (Z.leb_le _ _)), u32_small by lia.
  unfold digits4 in *. cbn [dec_digits]. assert (E : z / 10 / 10 / 10 / 10 = 0) by divlia. rewrite E. cbn [Z.eqb].
  rewrite !(proj2 (Z.eqb_neq _ _)) by divlia. rewrite !u8_small by divlia. change (zlen [_; _; _; _]) with 4 in *.
  rewrite (Z.max_l 0 (width - 4)), (Z.min_l 0) by lia. rewrite (proj2 (Z.ltb_ge _ _)) by lia.
  change (Z.to_nat 0) with 0%nat. change (Z.to_nat 4) with 4%nat. cbn.
  assert (z / 10 / 10 / 10 mod 10 = z / 1000) as -> by divlia. assert (z / 10 / 10 = z / 100) as -> by divlia.
  by rewrite !(Z.add_comm 48).
Qed.

(** ** Properties *)

(** C40: formatted output never writes past [last] and its format loop always
    ends: for any format and arguments the result is not out of fuel, and
    when bytes are returned there are at most [room] of them (none when
    [buf >= last] at the call). The conversion [%f] of a [double] is not modelled: a
    format that comes to it ends in an outcome of its own, without bytes. *)
Theorem ngx_vslprintf_in_bounds room fmt args :
  ngx_vslprintf room fmt args <> FmtFuel /\
  forall out, ngx_vslprintf room fmt args = FmtOk out -> zlen out <= Z.max 0 room.
Proof.
  split.
  - by apply vslprintf_no_fuel.
  - intros out. apply vslprintf_loop_bound. rewrite zlen_nil. lia.
Qed.

Lemma ngx_vslprintf_in_bounds_witness :
  ngx_vslprintf 5 (lit "%03ui-%s") [VInt 7; VPtr (lit "abc")]
    = FmtOk (lit "007-a") /\ zlen (lit "007-a") <= Z.max 0 5.
Proof.
  split; [vm_compute; done|].
  apply (proj2 (ngx_vslprintf_in_bounds 5 (lit "%03ui-%s") [VInt 7; VPtr (lit "abc")])).
  vm_compute. done.
Defined.
