(* ===== verification/NgxTime.v ===== *)
(** * Calendar time ([core/ngx_times.c])

    [ngx_gmtime], which turns seconds since the epoch into a date by Gauss'
    formula, the texts of dates it is used for, and the calendar itself: the
    date of a day is the first of January 1970 with the day after it taken that
    many times. *)

From S2P Require Import Prelude NgxNumber NgxSprintf.

(** ** Breaking down a time *)

(** [ngx_tm_t], the fields in use; months count from one and years in full. *)
Record tm := Tm {
  tm_sec : Z;
  tm_min : Z;
  tm_hour : Z;
  tm_mday : Z;
  tm_mon : Z;
  tm_year : Z;
  tm_wday : Z;
}.

(** [ngx_uint_t] is a 64-bit unsigned integer, [ngx_int_t] (of [yday]) a signed
    one, and the fields are [int]s. *)
Definition ngx_gmtime (t : Z) : tm :=
  let n := u64 t in
  let days := n / 86400 in
  let wday := u64 (4 + days) mod 7 in
  let n := n mod 86400 in
  let hour := n / 3600 in
  let n := n mod 3600 in
  let min := n / 60 in
  let sec := n mod 60 in
  let days := u64 (days - (31 + 28) + 719527) in
  let year := u64 ((days + 2) * 400) / (365 * 400 + 100 - 4 + 1) in
  let yday := s64 (days - (365 * year + year / 4 - year / 100 + year / 400)) in
  let '(yday, year) :=
    if yday <? 0 then
      let leap := Z.b2z ((year mod 4 =? 0) && (negb (year mod 100 =? 0) || (year mod 400 =? 0))) in
      (s64 (365 + leap + yday), u64 (year - 1))
    else (yday, year) in
  let mon := u64 (Z.quot ((yday + 31) * 10) 306) in
  let mday := u64 (yday - (u64 (367 * mon) / 12 - 30) + 1) in
  let '(year, mon) :=
    if 306 <=? yday then (u64 (year + 1), u64 (mon - 10)) else (year, u64 (mon + 2)) in
  Tm (s32 sec) (s32 min) (s32 hour) (s32 mday) (s32 mon) (s32 year) (s32 wday).

Definition week : list (list Z) :=
  [lit "Sun"; lit "Mon"; lit "Tue"; lit "Wed"; lit "Thu"; lit "Fri"; lit "Sat"].

Definition months : list (list Z) :=
  [lit "Jan"; lit "Feb"; lit "Mar"; lit "Apr"; lit "May"; lit "Jun";
   lit "Jul"; lit "Aug"; lit "Sep"; lit "Oct"; lit "Nov"; lit "Dec"].

(** The name at an index of a table; [None] out of range. *)
Definition name_at (table : list (list Z)) (i : Z) : option (list Z) :=
  if i <? 0 then None else table !! Z.to_nat i.

(** ** Texts of times *)

Definition http_time_text (tm : tm) : fmt_result :=
  match name_at week tm.(tm_wday), name_at months (tm.(tm_mon) - 1) with
  | Some wday, Some month =>
      ngx_sprintf (lit "%s, %02d %s %4d %02d:%02d:%02d GMT")
        [VPtr wday; VInt tm.(tm_mday); VPtr month; VInt tm.(tm_year);
         VInt tm.(tm_hour); VInt tm.(tm_min); VInt tm.(tm_sec)]
  | _, _ => FmtUB
  end.

Definition ngx_http_time (t : Z) : fmt_result := http_time_text (ngx_gmtime t).

Definition ngx_http_cookie_time (t : Z) : fmt_result :=
  let tm := ngx_gmtime t in
  match name_at week tm.(tm_wday), name_at months (tm.(tm_mon) - 1) with
  | Some wday, Some month =>
      ngx_sprintf (if 2037 <? tm.(tm_year) then lit "%s, %02d-%s-%d %02d:%02d:%02d GMT"
                   else lit "%s, %02d-%s-%02d %02d:%02d:%02d GMT")
        [VPtr wday; VInt tm.(tm_mday); VPtr month;
         VInt (if 2037 <? tm.(tm_year) then tm.(tm_year) else Z.rem tm.(tm_year) 100);
         VInt tm.(tm_hour); VInt tm.(tm_min); VInt tm.(tm_sec)]
  | _, _ => FmtUB
  end.

(** ** The calendar *)

Definition leap_year (y : Z) : bool := (y mod 4 =? 0) && (negb (y mod 100 =? 0) || (y mod 400 =? 0)).

Definition month_days (y m : Z) : Z :=
  if m =? 2 then if leap_year y then 29 else 28
  else if (m =? 4) || (m =? 6) || (m =? 9) || (m =? 11) then 30
  else 31.

Record date := Date { d_year : Z; d_month : Z; d_day : Z }.

Definition next_day (x : date) : date :=
  let 'Date y m d := x in
  if d <? month_days y m then Date y m (d + 1)
  else if m <? 12 then Date y (m + 1) 1
  else Date (y + 1) 1 1.

(** The date [n] days after the epoch. *)
Definition date_of (n : nat) : date := Nat.iter n next_day (Date 1970 1 1).

Definition date_ok (x : date) : Prop :=
  1 <= x.(d_month) <= 12 /\ 1 <= x.(d_day) <= month_days x.(d_year) x.(d_month).

(** ** Gauss' formula *)

(** Days of the years before the March of [y]. *)
Definition gauss_years (y : Z) : Z := 365 * y + y / 4 - y / 100 + y / 400.

(** The year and month that count from March. *)
Definition gauss_month (y m : Z) : Z * Z := if m - 2 <=? 0 then (y - 1, m - 2 + 12) else (y, m - 2).

Lemma gauss_month_eq y m :
  gauss_month y m = (if m - 2 <=? 0 then y - 1 else y, if m - 2 <=? 0 then m - 2 + 12 else m - 2).
Proof. unfold gauss_month. by destruct (m - 2 <=? 0). Qed.

Definition gauss (x : date) : Z :=
  let '(y, m) := gauss_month x.(d_year) x.(d_month) in
  gauss_years y + 367 * m / 12 - 30 + x.(d_day) - 1 - 719527 + 31 + 28.

Lemma gauss_years_next y : gauss_years (y + 1) = gauss_years y + 365 + Z.b2z (leap_year (y + 1)).
Proof.
  unfold gauss_years, leap_year.
  destruct (Z.eqb_spec ((y + 1) mod 4) 0), (Z.eqb_spec ((y + 1) mod 100) 0), (Z.eqb_spec ((y + 1) mod 400) 0);
    cbn; Z.to_euclidean_division_equations; lia.
Qed.

(** Cases on the month. *)
Lemma month_cases (m : Z) : 1 <= m <= 12 -> m ∈ [1; 2; 3; 4; 5; 6; 7; 8; 9; 10; 11; 12].
Proof. intros H. rewrite !elem_of_cons. lia. Qed.

Ltac by_month m H :=
  let E := fresh in
  pose proof (month_cases m H) as E; rewrite !elem_of_cons in E;
  repeat (destruct E as [E | E]; [rewrite E in *; clear E | ]); [.. | by apply not_elem_of_nil in E].

Lemma month_days_range y m : 28 <= month_days y m <= 31.
Proof. unfold month_days. repeat case_match; lia. Qed.

Lemma next_day_ok x : date_ok x -> date_ok (next_day x).
Proof.
  destruct x as [y m d]. unfold date_ok, next_day. cbn [d_year d_month d_day]. intros [Hm Hd].
  zcase; [cbn; lia|]. zcase; cbn.
  - pose proof (month_days_range y (m + 1)). lia.
  - pose proof (month_days_range (y + 1) 1). lia.
Qed.

Lemma gauss_next x : date_ok x -> gauss (next_day x) = gauss x + 1.
Proof.
  destruct x as [y m d]. unfold date_ok, next_day, gauss. cbn [d_year d_month d_day]. intros [Hm Hd].
  zcase; [cbn [d_year d_month d_day]; destruct (gauss_month y m); lia|].
  assert (d = month_days y m) as -> by lia.
  revert Hm. assert (Hy : gauss_years y = gauss_years (y - 1) + 365 + Z.b2z (leap_year y)).
  { pose proof (gauss_years_next (y - 1)) as Hy. by rewrite Z.sub_add in Hy. }
  revert Hy. clear. intros Hy Hm. unfold month_days. by_month m Hm; rewrite !gauss_month_eq; cbn; repeat (zcase; try lia); try divlia.
  - destruct (leap_year y); cbn in *; divlia.
  - replace (y + 1 - 1) with y by lia. divlia.
Qed.

Lemma date_of_ok n : date_ok (date_of n) /\ gauss (date_of n) = Z.of_nat n.
Proof.
  induction n as [|n [IH1 IH2]]; [split; [split; cbn; lia|done]|].
  change (date_of (S n)) with (next_day (date_of n)). split; [by apply next_day_ok|].
  rewrite gauss_next by done. lia.
Qed.

(** ** Back from days to dates *)

Lemma leap_range y : 0 <= Z.b2z (leap_year y) <= 1.
Proof. destruct (leap_year y); cbn; lia. Qed.

Lemma gauss_years_mono y y' : y <= y' -> gauss_years y + 365 * (y' - y) <= gauss_years y'.
Proof. intros H. unfold gauss_years. divlia. Qed.

Lemma gauss_year_bounds days :
  let year := (days + 2) * 400 / 146097 in gauss_years year - 2 <= days <= gauss_years year + 364.
Proof. cbv zeta. unfold gauss_years. divlia. Qed.

(** The year the code finds, with the correction for the days it puts into the
    year after theirs. *)
Lemma year_found y yday :
  0 <= yday <= 364 + Z.b2z (leap_year (y + 1)) ->
  let year := (gauss_years y + yday + 2) * 400 / 146097 in
  year = y \/ (year = y + 1 /\ gauss_years y + yday - gauss_years year < 0).
Proof.
  intros Hy year. pose proof (gauss_year_bounds (gauss_years y + yday)) as Hb. cbv zeta in Hb. fold year in Hb.
  pose proof (gauss_years_next y) as Hn.
  pose proof (leap_range (y + 1)) as Hl.
  destruct (Z.lt_trichotomy year y) as [H|[H|H]]; [|by left|].
  - pose proof (gauss_years_mono year y ltac:(lia)). lia.
  - destruct (Z.eq_dec year (y + 1)) as [E|Hne]; [right; rewrite E; split; [done|lia]|].
    pose proof (gauss_years_mono y year ltac:(lia)). lia.
Qed.

(** The day of the year that begins in March. *)
Definition march_day (m d : Z) : Z := 367 * m / 12 - 30 + d - 1.

Lemma march_day_range x : date_ok x ->
  let '(y, m) := gauss_month x.(d_year) x.(d_month) in
  0 <= march_day m x.(d_day) <= 364 + Z.b2z (leap_year (y + 1)) /\
  (march_day m x.(d_day) + 31) * 10 / 306 = m /\ (306 <= march_day m x.(d_day) <-> x.(d_month) <= 2) /\
  gauss x + 719468 = gauss_years y + march_day m x.(d_day).
Proof.
  destruct x as [y m d]. intros [Hm Hd]. unfold march_day, gauss. cbn [d_year d_month d_day] in *.
  rewrite gauss_month_eq. unfold month_days in Hd. pose proof (leap_range y). pose proof (leap_range (y + 1)).
  by_month m Hm; cbn in Hd; repeat (zcase; try lia); rewrite ?Z.sub_add; repeat case_match; cbn in *; split_and!; divlia.
Qed.

(** The part of [ngx_gmtime] that finds the date, without the wrap-around. *)
Definition civil (days : Z) : date :=
  let year := (days + 2) * 400 / 146097 in
  let yday := days - gauss_years year in
  let '(yday, year) := if yday <? 0 then (365 + Z.b2z (leap_year year) + yday, year - 1) else (yday, year) in
  let mon := (yday + 31) * 10 / 306 in
  let mday := yday - (367 * mon / 12 - 30) + 1 in
  if 306 <=? yday then Date (year + 1) (mon - 10) mday else Date year (mon + 2) mday.

Lemma civil_gauss x : date_ok x -> civil (gauss x + 719468) = x.
Proof.
  intros Hx. pose proof (march_day_range x Hx) as H. destruct x as [y m d]. cbn [d_year d_month d_day] in *.
  rewrite gauss_month_eq in H. set (y' := if m - 2 <=? 0 then y - 1 else y) in *.
  set (m' := if m - 2 <=? 0 then m - 2 + 12 else m - 2) in *. destruct H as (Hr & Hmon & H306 & E).
  unfold civil. rewrite E. pose proof (year_found y' (march_day m' d) Hr) as Hy. pose proof (gauss_years_next y') as Hn.
  set (year := (gauss_years y' + march_day m' d + 2) * 400 / 146097) in *. cbv zeta in Hy.
  assert (Hfound : (if gauss_years y' + march_day m' d - gauss_years year <? 0
      then (365 + Z.b2z (leap_year year) + (gauss_years y' + march_day m' d - gauss_years year), year - 1)
      else (gauss_years y' + march_day m' d - gauss_years year, year)) = (march_day m' d, y')).
  { destruct Hy as [->|[-> Hneg]].
    - zcase; [lia|]. f_equal. lia.
    - rewrite (proj2 (Z.ltb_lt _ _)) by lia. f_equal; lia. }
  rewrite Hfound, Hmon. unfold march_day at 2 3. destruct Hx as [Hm _]. cbn in Hm.
  destruct (Z.leb_spec 306 (march_day m' d)) as [H|H]; unfold y', m'; destruct (Z.leb_spec (m - 2) 0); try lia; f_equal; lia.
Qed.

Lemma gmtime_civil t :
  0 <= t < 2 ^ 55 ->
  let 'Date y m d := civil (t / 86400 + 719468) in
  ngx_gmtime t = Tm (t mod 60) (t / 60 mod 60) (t / 3600 mod 24) d m y ((4 + t / 86400) mod 7).
Proof.
  intros Ht. unfold ngx_gmtime. rewrite (u64_small t) by lia.
  set (n := t / 86400). assert (Hn : 0 <= n < 2 ^ 39) by (unfold n; divlia).
  replace (n - (31 + 28) + 719527) with (n + 719468) by lia. set (days := n + 719468).
  rewrite (u64_small days), (u64_small (4 + n)), (u64_small ((days + 2) * 400)) by (unfold days; lia).
  change (365 * 400 + 100 - 4 + 1) with 146097. unfold civil. fold days.
  pose proof (gauss_year_bounds days) as Hb. cbv zeta in Hb.
  set (year := (days + 2) * 400 / 146097) in *. assert (Hyear : 1969 <= year < 2 ^ 31 - 1) by (unfold year, days; divlia).
  fold (gauss_years year). fold (leap_year year). pose proof (leap_range year).
  rewrite (s64_small (days - _)) by lia. set (yday := days - gauss_years year) in *.
  rewrite (s64_small (365 + _ + _)) by lia. rewrite (u64_small (year - 1)) by lia.
  assert (Hfound : exists yd y, (if yday <? 0 then (365 + Z.b2z (leap_year year) + yday, year - 1) else (yday, year)) = (yd, y) /\
    0 <= yd <= 366 /\ 1968 <= y < 2 ^ 31 - 1).
  { zcase; do 2 eexists; split; [done|lia|done|lia]. }
  destruct Hfound as (yd & y & -> & Hyd & Hy).
  rewrite Z.quot_div_nonneg by lia. assert (Hmon : 1 <= (yd + 31) * 10 / 306 <= 12) by divlia.
  set (mon := (yd + 31) * 10 / 306) in *. rewrite (u64_small mon), (u64_small (367 * mon)) by lia.
  assert (Hmday : 1 <= yd - (367 * mon / 12 - 30) + 1 <= 32) by (unfold mon; divlia).
  rewrite (u64_small (yd - _ + 1)), (u64_small (y + 1)), (u64_small (mon + 2)) by lia.
  destruct (Z.leb_spec 306 yd).
  - assert (11 <= mon) by (unfold mon; divlia). rewrite (u64_small (mon - 10)) by lia. f_equal; rewrite s32_small; try lia; divlia.
  - f_equal; rewrite s32_small; try lia; divlia.
Qed.

(** The date of a time. *)
Definition tm_date (x : tm) : date := Date x.(tm_year) x.(tm_mon) x.(tm_mday).

Lemma gmtime_parts t :
  0 <= t < 2 ^ 55 ->
  let x := date_of (Z.to_nat (t / 86400)) in
  ngx_gmtime t = Tm (t mod 60) (t / 60 mod 60) (t / 3600 mod 24) x.(d_day) x.(d_month) x.(d_year) ((4 + t / 86400) mod 7) /\
  date_ok x /\ gauss x = t / 86400.
Proof.
  intros Ht x. pose proof (gmtime_civil t Ht) as H.
  destruct (date_of_ok (Z.to_nat (t / 86400))) as [Hok Hg]. fold x in Hok, Hg.
  rewrite Z2Nat.id in Hg by (apply Z.div_pos; lia).
  replace (civil (t / 86400 + 719468)) with x in H by (by rewrite <- Hg, civil_gauss).
  split; [|done]. clearbody x. by destruct x.
Qed.

(** C24: breaking down a time gives its date in the calendar. For any time of more
    than a thousand million years from the epoch on, the date is the one reached
    from the first of January 1970 by going on day by day, with the usual lengths
    of months and leap years; the weekdays follow each other from Thursday; hour,
    minute and second are within their ranges and make up the rest of the time. *)
Theorem gmtime_calendar t :
  0 <= t < 2 ^ 55 ->
  let x := ngx_gmtime t in
  tm_date x = date_of (Z.to_nat (t / 86400)) /\ date_ok (tm_date x) /\
  x.(tm_wday) = (4 + t / 86400) mod 7 /\
  t mod 86400 = x.(tm_hour) * 3600 + x.(tm_min) * 60 + x.(tm_sec) /\
  0 <= x.(tm_hour) < 24 /\ 0 <= x.(tm_min) < 60 /\ 0 <= x.(tm_sec) < 60.
Proof.
  intros Ht. destruct (gmtime_parts t Ht) as (E & Hok & _). cbv zeta in *. rewrite E. unfold tm_date. cbn.
  destruct (date_of _) as [y m d]. split; [done|]. split; [done|]. split; [done|]. divlia.
Qed.

Lemma gmtime_calendar_witness :
  tm_date (ngx_gmtime 951827696) = Date 2000 2 29 /\ tm_wday (ngx_gmtime 951827696) = 2 /\
  tm_date (ngx_gmtime 951827696) = date_of (Z.to_nat (951827696 / 86400)).
Proof.
  split; [reflexivity|]. split; [reflexivity|].
  destruct (gmtime_calendar 951827696) as [H _]; [lia|]. exact H.
Defined.

(** ** The texts of dates *)

(** Ranges of the fields; the year has four digits. *)
Definition tm_ok (x : tm) : Prop :=
  0 <= x.(tm_sec) < 100 /\ 0 <= x.(tm_min) < 100 /\ 0 <= x.(tm_hour) < 100 /\ 0 <= x.(tm_mday) < 100 /\
  1 <= x.(tm_mon) <= 12 /\ 1000 <= x.(tm_year) < 10000 /\ 0 <= x.(tm_wday) <= 6.

Definition clock_text (x : tm) : list Z :=
  digits2 x.(tm_hour) ++ lit ":" ++ digits2 x.(tm_min) ++ lit ":" ++ digits2 x.(tm_sec).

(** Prove that a format prints its pieces; the hints know which characters are
    bytes. *)
Create HintDb printed.

Ltac prints_step :=
  lazymatch goal with
  | |- prints [] _ _ => apply prints_nil
  | |- prints (37 :: 115 :: ?fmt) _ _ => apply (prints_str _ fmt); [assumption|]
  | |- prints (37 :: 48 :: 50 :: 100 :: ?fmt) _ _ =>
      eapply (prints_int 48 2 [48; 50] _ fmt); [reflexivity|reflexivity|lia|intros ? ?; apply num_two; [lia|done]|]
  | |- prints (37 :: 52 :: 100 :: ?fmt) _ _ =>
      eapply (prints_int 32 4 [52] _ fmt); [reflexivity|reflexivity|lia|intros ? ?; apply num_four; [lia|lia|done]|]
  | |- prints (37 :: 100 :: ?fmt) _ _ =>
      eapply (prints_int 32 0 [] _ fmt); [reflexivity|reflexivity|lia|intros ? ?; apply num_four; [lia|lia|done]|]
  | |- prints (37 :: 99 :: ?fmt) _ _ => apply (prints_char _ fmt); [eauto with printed|]
  | |- prints _ _ _ => apply prints_lit; [reflexivity|]
  end.

Lemma name_at_lookup table i : 0 <= i < zlen table -> exists name, name_at table i = Some name /\ name ∈ table.
Proof.
  intros Hi. unfold name_at. rewrite (proj2 (Z.ltb_ge _ _)) by lia.
  destruct (lookup_lt_is_Some_2 table (Z.to_nat i)) as [name E]; [unfold zlen in Hi; lia|].
  exists name. split; [done|]. by eapply list_elem_of_lookup_2.
Qed.

Lemma names_plain name : name ∈ week \/ name ∈ months -> cstr name = name /\ zlen name = 3.
Proof.
  intros H. assert (Hb : forallb (fun n => beq (cstr n) n && (zlen n =? 3)) (week ++ months) = true) by (vm_compute; done).
  rewrite List.forallb_forall in Hb. specialize (Hb name). rewrite <- list_elem_of_In, elem_of_app in Hb.
  apply Hb, andb_prop in H as [H1%beq_eq H2%Z.eqb_eq]. done.
Qed.

Lemma http_time_printed x :
  tm_ok x ->
  exists wday month, name_at week x.(tm_wday) = Some wday /\ name_at months (x.(tm_mon) - 1) = Some month /\
    zlen wday = 3 /\ zlen month = 3 /\
    http_time_text x = FmtOk (wday ++ lit ", " ++ digits2 x.(tm_mday) ++ lit " " ++ month ++ lit " " ++
      digits4 x.(tm_year) ++ lit " " ++ clock_text x ++ lit " GMT").
Proof.
  intros (H1 & H2 & H3 & H4 & H5 & H6 & H7).
  destruct (name_at_lookup week x.(tm_wday)) as (wday & Ew & Hw); [change (zlen week) with 7; lia|].
  destruct (name_at_lookup months (x.(tm_mon) - 1)) as (month & Em & Hm); [change (zlen months) with 12; lia|].
  destruct (names_plain wday (or_introl Hw)) as [Cw Lw]. destruct (names_plain month (or_intror Hm)) as [Cm Lm].
  exists wday, month. unfold http_time_text. rewrite Ew, Em. split; [done|]. split; [done|]. split; [done|]. split; [done|].
  apply prints_sprintf.
  - unfold clock_text. rewrite <- !app_assoc. repeat prints_step.
  - unfold clock_text. rewrite !zlen_app, Lw, Lm. reflexivity.
Qed.
