(* ===== verification/HttpTime.v ===== *)
(** * Dates in headers ([http/ngx_http_parse_time.c])

    The parser of the three formats of dates, with every read of the text
    checked against its end, and its agreement with the calendar and with the
    texts the server writes. *)

From S2P Require Import Prelude NgxNumber NgxSprintf NgxTime.

(** ** Reading

    [None] is a read behind the end of the value, [Some None] the return of
    [NGX_ERROR]. *)

Definition parse (A : Type) : Type := option (option A).

Definition ret {A} (a : A) : parse A := Some (Some a).
Definition fail_ {A} : parse A := Some None.

Definition pbind {A B} (m : parse A) (f : A -> parse B) : parse B :=
  match m with
  | None => None
  | Some None => Some None
  | Some (Some a) => f a
  end.

Notation "'let?' x := m 'in' k" := (pbind m (fun x => k)) (at level 10, x pattern, m at level 100, k at level 200).

(** [*(p + k)]; [l] is the text from [p] on. *)
Definition rd (l : list Z) (k : nat) : parse Z := match l !! k with Some c => ret c | None => None end.

Definition guard_ (b : bool) : parse unit := if b then ret tt else fail_.

(** A character that has to be [c]. *)
Definition expect_at (l : list Z) (c : Z) : parse unit := let? x := rd l 0 in guard_ (x =? c).

(** Numbers of two and four digits; the digits are tested from the left, and the
    first that is none ends the test. *)
Definition digit_at (l : list Z) (k : nat) : parse Z := let? c := rd l k in let? _ := guard_ (is_digit c) in ret (c - chr "0").

Definition two_digits (l : list Z) : parse Z :=
  let? a := digit_at l 0 in let? b := digit_at l 1 in ret (a * 10 + b).

Definition four_digits (l : list Z) : parse Z :=
  let? a := digit_at l 0 in let? b := digit_at l 1 in let? c := digit_at l 2 in let? d := digit_at l 3 in
  ret (a * 1000 + b * 100 + c * 10 + d).

Inductive time_fmt := rfc822 | rfc850 | isoc.

(** The first loop: up to a comma or a space; a space means [isoc]. *)
Fixpoint skip_weekday (l : list Z) : bool * list Z :=
  match l with
  | [] => (false, [])
  | c :: l' =>
      if c =? chr "," then (false, l)
      else if c =? chr " " then (true, l)
      else skip_weekday l'
  end.

Fixpoint skip_spaces (l : list Z) : list Z :=
  match l with
  | [] => []
  | c :: l' => if c =? chr " " then skip_spaces l' else l
  end.

(** The day before the month, and with it the format. *)
Definition parse_day (l : list Z) : parse (time_fmt * Z * list Z) :=
  let? day := two_digits l in
  let l := drop 2 l in
  let? c := rd l 0 in
  if c =? chr " " then if zlen l <? 18 then fail_ else ret (rfc822, day, drop 1 l)
  else if c =? chr "-" then ret (rfc850, day, drop 1 l)
  else fail_.

Definition parse_month (l : list Z) : parse Z :=
  let? c := rd l 0 in
  if c =? chr "J" then
    let? c := rd l 1 in
    if c =? chr "a" then ret 0 else let? c := rd l 2 in ret (if c =? chr "n" then 5 else 6)
  else if c =? chr "F" then ret 1
  else if c =? chr "M" then let? c := rd l 2 in ret (if c =? chr "r" then 2 else 4)
  else if c =? chr "A" then let? c := rd l 1 in ret (if c =? chr "p" then 3 else 7)
  else if c =? chr "S" then ret 8
  else if c =? chr "O" then ret 9
  else if c =? chr "N" then ret 10
  else if c =? chr "D" then ret 11
  else fail_.

(** What is between the month and the time of day: the year, or, for [isoc], the
    day. *)
Definition parse_year (fmt : time_fmt) (day : Z) (l : list Z) : parse (Z * Z * list Z) :=
  match fmt with
  | rfc822 => let? year := four_digits l in ret (day, year, drop 4 l)
  | rfc850 => let? year := two_digits l in ret (day, year + (if year <? 70 then 2000 else 1900), drop 2 l)
  | isoc =>
      let? c := rd l 0 in
      let l := if c =? chr " " then drop 1 l else l in
      let? day := digit_at l 0 in
      let l := drop 1 l in
      let? c := rd l 0 in
      let? (day, l) := (if c =? chr " " then ret (day, l)
                        else let? d := digit_at l 0 in ret (day * 10 + d, drop 1 l)) in
      if zlen l <? 14 then fail_ else ret (day, 0, l)
  end.

Definition mday : list Z := [31; 28; 31; 30; 31; 30; 31; 31; 30; 31; 30; 31].

(** The tests of the fields and Gauss' formula; [ngx_uint_t] and [uint64_t] are
    64-bit unsigned integers, [time_t] a signed one. *)
Definition time_of (day month year hour min sec : Z) : parse Z :=
  let? _ := guard_ (negb ((23 <? hour) || (59 <? min) || (59 <? sec))) in
  let? _ := guard_
    (if (day =? 29) && (month =? 1)
     then negb (negb (Z.land year 3 =? 0) || ((year mod 100 =? 0) && negb (year mod 400 =? 0)))
     else negb (nth (Z.to_nat month) mday 0 <? day)) in
  let '(month, year) := if month - 1 <=? 0 then (month - 1 + 12, u64 (year - 1)) else (month - 1, year) in
  let days := u64 (365 * year + year / 4 - year / 100 + year / 400 + 367 * month / 12 - 30 + day - 1 - 719527 + 31 + 28) in
  ret (s64 (u64 (days * 86400 + hour * 3600 + min * 60 + sec))).

(** The space and the time of day. *)
Definition parse_clock (l : list Z) : parse (Z * Z * Z * list Z) :=
  let? _ := expect_at l (chr " ") in
  let l := drop 1 l in
  let? hour := two_digits l in
  let l := drop 2 l in
  let? _ := expect_at l (chr ":") in
  let l := drop 1 l in
  let? min := two_digits l in
  let l := drop 2 l in
  let? _ := expect_at l (chr ":") in
  let l := drop 1 l in
  let? sec := two_digits l in
  ret (hour, min, sec, drop 2 l).

Definition parse_time (value : list Z) : parse Z :=
  let (is_isoc, l) := skip_weekday value in
  let l := skip_spaces (drop 1 l) in
  if zlen l <? 18 then fail_
  else
    let? (fmt, day, l) := (if is_isoc then ret (isoc, 0, l) else parse_day l) in
    let? month := parse_month l in
    let l := drop 3 l in
    let? _ := match fmt with rfc822 => expect_at l (chr " ") | rfc850 => expect_at l (chr "-") | isoc => ret tt end in
    let l := drop 1 l in
    let? (day, year, l) := parse_year fmt day l in
    let? (hour, min, sec, l) := parse_clock l in
    let? year := match fmt with
                 | isoc => let? _ := expect_at l (chr " ") in four_digits (drop 1 l)
                 | _ => ret year
                 end in
    time_of day month year hour min sec.

Definition ngx_http_parse_time (value : list Z) : option Z :=
  match parse_time value with
  | None => None
  | Some None => Some NGX_ERROR
  | Some (Some t) => Some t
  end.

(** ** No read behind the end *)

(** A step that reads within the text and, if it goes on, gives [P]. *)
Definition reads {A} (m : parse A) (P : A -> Prop) : Prop :=
  match m with
  | None => False
  | Some None => True
  | Some (Some a) => P a
  end.

Lemma reads_bind {A B} (m : parse A) (f : A -> parse B) P Q :
  reads m P -> (forall a, P a -> reads (f a) Q) -> reads (pbind m f) Q.
Proof. destruct m as [[a|]|]; cbn; auto. Qed.

Lemma reads_ret {A} (a : A) (P : A -> Prop) : P a -> reads (ret a) P.
Proof. done. Qed.

Lemma reads_guard b : reads (guard_ b) (fun _ => True).
Proof. by destruct b. Qed.

Lemma reads_rd l k : (k < length l)%nat -> reads (rd l k) (fun _ => True).
Proof. intros H. unfold rd. by destruct (lookup_lt_is_Some_2 l k H) as [c ->]. Qed.

Lemma reads_expect l c : (0 < length l)%nat -> reads (expect_at l c) (fun _ => True).
Proof. intros H. eapply reads_bind; [by apply reads_rd|]. intros. apply reads_guard. Qed.

Lemma reads_digit l k : (k < length l)%nat -> reads (digit_at l k) (fun _ => True).
Proof.
  intros H. eapply reads_bind; [by apply reads_rd|]. intros. eapply reads_bind; [apply reads_guard|]. done.
Qed.

Lemma reads_two l : (2 <= length l)%nat -> reads (two_digits l) (fun _ => True).
Proof. intros H. repeat (eapply reads_bind; [apply reads_digit; lia|intros ? _]). done. Qed.

Lemma reads_four l : (4 <= length l)%nat -> reads (four_digits l) (fun _ => True).
Proof. intros H. repeat (eapply reads_bind; [apply reads_digit; lia|intros ? _]). done. Qed.

(** Take a step, with the length of what is left. *)
Ltac reads_step :=
  eapply reads_bind;
  [first [apply reads_guard | apply reads_rd | apply reads_expect | apply reads_digit | apply reads_two | apply reads_four];
   rewrite ?length_drop; lia
  | intros ? _].

(** What follows the day and the month in each format. *)
Definition room_for (fmt : time_fmt) : nat := match fmt with rfc822 => 17 | rfc850 => 15 | isoc => 18 end.

Lemma reads_day l : (18 <= length l)%nat ->
  reads (parse_day l) (fun '(fmt, _, l) => fmt <> isoc /\ (room_for fmt <= length l)%nat).
Proof.
  intros H. unfold parse_day. reads_step. reads_step.
  destruct (_ =? _).
  - destruct (Z.ltb_spec (zlen (drop 2 l)) 18) as [?|Hl]; [done|].
    split; [done|]. unfold zlen in Hl. rewrite !length_drop in *. cbn. lia.
  - destruct (_ =? _); [|done]. split; [done|]. rewrite !length_drop. cbn. lia.
Qed.

Lemma reads_month l : (3 <= length l)%nat -> reads (parse_month l) (fun m => 0 <= m <= 11).
Proof.
  intros H. unfold parse_month. reads_step.
  repeat first [apply reads_ret; first [lia | case_match; lia] | reads_step | case_match | done].
Qed.

(** Room for the time of day and, for [isoc], the year. *)
Definition room_after (fmt : time_fmt) : nat := match fmt with isoc => 14 | _ => 9 end.

Lemma reads_year fmt day l : (room_for fmt <= length l + 4)%nat ->
  reads (parse_year fmt day l) (fun '(_, _, l) => (room_after fmt <= length l)%nat).
Proof.
  intros H. destruct fmt; cbn [parse_year room_for room_after] in *.
  - reads_step. apply reads_ret. rewrite length_drop. lia.
  - reads_step. apply reads_ret. rewrite length_drop. lia.
  - reads_step. set (l1 := if _ =? _ then drop 1 l else l).
    assert (13 <= length l1)%nat by (unfold l1; case_match; rewrite ?length_drop; lia).
    reads_step. reads_step.
    eapply (reads_bind _ _ (fun '(_, l2) => True)).
    + case_match; [done|]. reads_step. done.
    + intros [d l2] _. destruct (Z.ltb_spec (zlen l2) 14) as [?|Hl]; [done|]. apply reads_ret. unfold zlen in Hl. lia.
Qed.

Lemma reads_clock l : (9 <= length l)%nat -> reads (parse_clock l) (fun '(_, _, _, l') => length l = (9 + length l')%nat).
Proof.
  intros H. unfold parse_clock. do 6 reads_step. apply reads_ret. rewrite !length_drop. lia.
Qed.

Lemma reads_time_of day month year hour min sec : reads (time_of day month year hour min sec) (fun _ => True).
Proof. unfold time_of. reads_step. reads_step. by case_match. Qed.

Lemma parse_time_reads value : reads (parse_time value) (fun _ => True).
Proof.
  unfold parse_time. destruct (skip_weekday value) as [is_isoc l0]. set (l := skip_spaces (drop 1 l0)).
  destruct (Z.ltb_spec (zlen l) 18) as [?|Hl]; [done|]. unfold zlen in Hl.
  eapply (reads_bind _ _ (fun '(fmt, _, l) => (room_for fmt <= length l)%nat)).
  { destruct is_isoc; [apply reads_ret; cbn; lia|]. pose proof (reads_day l ltac:(lia)) as H.
    destruct (parse_day l) as [[[[fmt d] l']|]|]; try done. by destruct H. }
  intros [[fmt day] l1] H1. assert (15 <= length l1)%nat by (destruct fmt; cbn in H1; lia).
  eapply reads_bind; [apply reads_month; lia|intros month _].
  eapply (reads_bind _ _ (fun _ => True)); [destruct fmt; [apply reads_expect..|done]; rewrite length_drop; lia|intros _ _].
  eapply reads_bind; [apply reads_year; rewrite !length_drop; lia|].
  intros [[day' year] l2] H2. assert (9 <= length l2)%nat by (destruct fmt; cbn in H2; lia).
  eapply reads_bind; [by apply reads_clock|]. intros [[[hour min] sec] l3] H3.
  eapply (reads_bind _ _ (fun _ => True)); [|intros; apply reads_time_of].
  destruct fmt; [done|done|]. cbn in H2. reads_step. apply reads_four. rewrite length_drop. lia.
Qed.

(** The parser of dates never reads behind the end of the text, whatever it
    is given: it answers a time or [NGX_ERROR]. *)
Theorem parse_time_in_bounds value : exists t, ngx_http_parse_time value = Some t.
Proof.
  pose proof (parse_time_reads value) as H. unfold ngx_http_parse_time.
  destruct (parse_time value) as [[t|]|]; [by eexists..|done].
Qed.

(** ** Dates that were written *)

Lemma digit_of d : 0 <= d < 10 -> is_digit (chr "0" + d) = true.
Proof. intros H. unfold is_digit. zcases; done. Qed.

Lemma digit_at_digit l k d : l !! k = Some (chr "0" + d) -> 0 <= d < 10 -> digit_at l k = ret d.
Proof.
  intros E H. unfold digit_at, rd. rewrite E. cbn [pbind ret]. rewrite digit_of by done. cbn.
  unfold ret. do 2 f_equal. lia.
Qed.

Lemma two_digits_read z l : 0 <= z < 100 -> two_digits (digits2 z ++ l) = ret z.
Proof.
  intros H. unfold two_digits.
  rewrite (digit_at_digit _ 0 (z / 10)), (digit_at_digit _ 1 (z mod 10)) by (done || divlia). cbn. unfold ret. do 2 f_equal. divlia.
Qed.

Lemma four_digits_read z l : 0 <= z < 10000 -> four_digits (digits4 z ++ l) = ret z.
Proof.
  intros H. unfold four_digits.
  rewrite (digit_at_digit _ 0 (z / 1000)), (digit_at_digit _ 1 (z / 100 mod 10)), (digit_at_digit _ 2 (z / 10 mod 10)),
    (digit_at_digit _ 3 (z mod 10)) by (done || divlia). cbn. unfold ret. do 2 f_equal. divlia.
Qed.

Lemma parse_month_name m name l : 1 <= m <= 12 -> name_at months (m - 1) = Some name -> parse_month (name ++ l) = ret (m - 1).
Proof. intros Hm. by_month m Hm; cbn; intros [= <-]; reflexivity. Qed.

Definition weekday (wday : list Z) : Prop := Forall (fun c => c <> chr "," /\ c <> chr " ") wday.

Lemma skip_weekday_comma wday l : weekday wday -> skip_weekday (wday ++ chr "," :: l) = (false, chr "," :: l).
Proof.
  induction 1 as [|c wday [H1 H2] _ IH]; [done|]. cbn.
  by rewrite (proj2 (Z.eqb_neq _ _)), (proj2 (Z.eqb_neq _ _)) by done.
Qed.

Lemma skip_weekday_space wday l : weekday wday -> skip_weekday (wday ++ chr " " :: l) = (true, chr " " :: l).
Proof.
  induction 1 as [|c wday [H1 H2] _ IH]; [done|]. cbn.
  by rewrite (proj2 (Z.eqb_neq _ _)), (proj2 (Z.eqb_neq _ _)) by done.
Qed.

Lemma land_3 y : 0 <= y -> Z.land y 3 = y mod 4.
Proof. intros H. change 3 with (Z.ones 2). by rewrite Z.land_ones. Qed.

(** Compute the differences of numerals and the lengths of months. *)
Ltac norm_sub :=
  repeat match goal with
  | |- context [Z.sub (Zpos ?a) (Zpos ?b)] =>
      let v := eval vm_compute in (Z.sub (Zpos a) (Zpos b)) in change (Z.sub (Zpos a) (Zpos b)) with v
  | |- context [nth (Z.to_nat ?k) mday 0] =>
      let v := eval vm_compute in (nth (Z.to_nat k) mday 0) in change (nth (Z.to_nat k) mday 0) with v
  end.

(** The test of the day lets every date of the calendar pass. *)
Lemma day_passes x :
  date_ok x -> 0 <= x.(d_year) ->
  (if (x.(d_day) =? 29) && (x.(d_month) - 1 =? 1)
   then negb (negb (Z.land x.(d_year) 3 =? 0) || ((x.(d_year) mod 100 =? 0) && negb (x.(d_year) mod 400 =? 0)))
   else negb (nth (Z.to_nat (x.(d_month) - 1)) mday 0 <? x.(d_day))) = true.
Proof.
  destruct x as [y m d]. intros [Hm Hd] Hy. cbn [d_year d_month d_day] in *. rewrite land_3 by lia.
  unfold month_days, leap_year in Hd. by_month m Hm; norm_sub; cbn in Hd |- *; zcases; done.
Qed.

(** The formula of the parser is the calendar's. *)
Lemma time_of_date x hour min sec :
  date_ok x -> 1970 <= x.(d_year) < 10000 -> 0 <= hour < 24 -> 0 <= min < 60 -> 0 <= sec < 60 -> 0 <= gauss x ->
  time_of x.(d_day) (x.(d_month) - 1) x.(d_year) hour min sec = ret (gauss x * 86400 + hour * 3600 + min * 60 + sec).
Proof.
  intros Hok Hy Hh Hmi Hs Hg. unfold time_of. rewrite (day_passes x Hok) by lia.
  rewrite (proj2 (Z.ltb_ge 23 hour)), (proj2 (Z.ltb_ge 59 min)), (proj2 (Z.ltb_ge 59 sec)) by lia. cbn [orb negb guard_ pbind ret].
  destruct x as [y m d]. destruct Hok as [Hm Hd]. unfold gauss in *. cbn [d_year d_month d_day] in *.
  pose proof (month_days_range y m). unfold gauss_month in *. replace (m - 1 - 1) with (m - 2) by lia.
  rewrite (u64_small (y - 1)) by lia.
  destruct (Z.leb_spec (m - 2) 0); fold (gauss_years (y - 1)) in *; fold (gauss_years y) in *;
  [set (g := gauss_years (y - 1)) in * | set (g := gauss_years y) in *];
  (assert (0 <= g < 2 ^ 22) by (unfold g, gauss_years; divlia));
  [set (q := 367 * (m - 2 + 12) / 12) in *; assert (0 <= q <= 400) by (unfold q; divlia)
  |set (q := 367 * (m - 2) / 12) in *; assert (0 <= q <= 400) by (unfold q; divlia)];
  rewrite (u64_small (_ + 28)), u64_small, s64_small by lia; done.
Qed.

Definition clock (hour min sec : Z) : list Z := digits2 hour ++ lit ":" ++ digits2 min ++ lit ":" ++ digits2 sec.

Lemma expect_there c l : expect_at (c :: l) c = ret tt.
Proof. unfold expect_at, rd. cbn. by rewrite Z.eqb_refl. Qed.

Lemma drop_digits2 z l : drop 2 (digits2 z ++ l) = l.
Proof. reflexivity. Qed.

Lemma drop_digits4 z l : drop 4 (digits4 z ++ l) = l.
Proof. reflexivity. Qed.

(** Go on after a step of the parser. *)
Ltac tidy := repeat (progress (cbn [pbind ret app drop]; rewrite ?drop_0, ?drop_digits2, ?drop_digits4)).
Ltac date_step :=
  first [rewrite expect_there | rewrite two_digits_read by lia | rewrite four_digits_read by lia]; tidy.

Lemma clock_read hour min sec l :
  0 <= hour < 24 -> 0 <= min < 60 -> 0 <= sec < 60 ->
  parse_clock (chr " " :: clock hour min sec ++ l) = ret (hour, min, sec, l).
Proof. intros Hh Hm Hs. unfold parse_clock, clock. rewrite <- !app_assoc. repeat date_step. done. Qed.

(** A day of one digit after a space. *)
Definition isoc_day (d : Z) : list Z := if d <? 10 then [chr " "; chr "0" + d] else digits2 d.

(** A date in each of the formats, with any name for the weekday and anything
    behind it. *)
Definition date_text (fmt : time_fmt) (wday month : list Z) (x : date) (hour min sec : Z) (rest : list Z) : list Z :=
  match fmt with
  | rfc822 => wday ++ lit ", " ++ digits2 x.(d_day) ++ lit " " ++ month ++ lit " " ++ digits4 x.(d_year) ++ lit " " ++
      clock hour min sec ++ rest
  | rfc850 => wday ++ lit ", " ++ digits2 x.(d_day) ++ lit "-" ++ month ++ lit "-" ++ digits2 (x.(d_year) mod 100) ++ lit " " ++
      clock hour min sec ++ rest
  | isoc => wday ++ lit " " ++ month ++ lit " " ++
      isoc_day x.(d_day) ++ lit " " ++
      clock hour min sec ++ lit " " ++ digits4 x.(d_year) ++ rest
  end.

(** Years of two digits are those from 1970 to 2069. *)
Definition fmt_years (fmt : time_fmt) (y : Z) : Prop := 1970 <= y < match fmt with rfc850 => 2070 | _ => 10000 end.

Lemma year_two_digits y : 1970 <= y < 2070 -> y mod 100 + (if y mod 100 <? 70 then 2000 else 1900) = y.
Proof. intros H. zcase; divlia. Qed.

Lemma month_name_length m name : name_at months (m - 1) = Some name -> exists a b c, name = [a; b; c].
Proof.
  unfold name_at. destruct (m - 1 <? 0); [done|]. intros H%list_elem_of_lookup_2.
  destruct (names_plain name (or_intror H)) as [_ Hl]. unfold zlen in Hl.
  destruct name as [|a [|b [|c []]]]; cbn in Hl; try lia. by exists a, b, c.
Qed.

Lemma skip_spaces_digits z l : 0 <= z < 100 -> skip_spaces (digits2 z ++ l) = digits2 z ++ l.
Proof. intros H. cbn. rewrite (proj2 (Z.eqb_neq _ _)) by divlia. done. Qed.

Lemma parse_day_822 d l : 0 <= d < 100 -> 17 <= zlen l -> parse_day (digits2 d ++ chr " " :: l) = ret (rfc822, d, l).
Proof.
  intros Hd Hl. unfold parse_day. date_step. unfold rd. cbn [lookup list_lookup pbind ret Z.eqb Pos.eqb].
  rewrite (proj2 (Z.ltb_ge _ _)); [done|]. rewrite zlen_cons. lia.
Qed.

Lemma parse_day_850 d l : 0 <= d < 100 -> parse_day (digits2 d ++ chr "-" :: l) = ret (rfc850, d, l).
Proof. intros Hd. unfold parse_day. by date_step. Qed.

Lemma parse_day_isoc d l :
  1 <= d < 100 -> 13 <= zlen l ->
  parse_year isoc 0 (isoc_day d ++ chr " " :: l) = ret (d, 0, chr " " :: l).
Proof.
  intros Hd Hl. assert (Hlong : (zlen (chr " " :: l) <? 14) = false) by (rewrite zlen_cons; apply Z.ltb_ge; lia).
  unfold isoc_day. cbn [parse_year]. destruct (Z.ltb_spec d 10).
  - unfold rd at 1. cbn [app lookup list_lookup pbind ret Z.eqb Pos.eqb drop]. rewrite ?drop_0.
    rewrite (digit_at_digit _ 0 d) by (done || lia). unfold rd. cbn [pbind ret drop lookup list_lookup Z.eqb Pos.eqb]. by rewrite ?drop_0, Hlong.
  - unfold rd at 1. unfold digits2. cbn [app lookup list_lookup pbind ret]. rewrite (proj2 (Z.eqb_neq _ _)) by divlia.
    rewrite (digit_at_digit _ 0 (d / 10)) by (done || divlia). unfold rd. cbn [pbind ret drop lookup list_lookup]. rewrite ?drop_0.
    cbn [lookup list_lookup]. rewrite (proj2 (Z.eqb_neq _ _)) by divlia.
    rewrite (digit_at_digit _ 0 (d mod 10)) by (done || divlia). cbn [pbind ret drop]. rewrite ?drop_0, Hlong.
    unfold ret. do 4 f_equal. divlia.
Qed.

Lemma clock_length hour min sec l : zlen (clock hour min sec ++ l) = 8 + zlen l.
Proof. rewrite zlen_app. reflexivity. Qed.

Lemma digits2_length z : zlen (digits2 z) = 2.
Proof. reflexivity. Qed.

Lemma isoc_day_length d : zlen (isoc_day d) = 2.
Proof. unfold isoc_day. by destruct (d <? 10). Qed.

Lemma digits4_length z : zlen (digits4 z) = 4.
Proof. reflexivity. Qed.

(** The lengths the parser tests. *)
Ltac long_tail := repeat first [rewrite clock_length | rewrite zlen_app | rewrite zlen_cons]; rewrite ?isoc_day_length, ?digits2_length, ?digits4_length; lia.
Ltac long_enough := rewrite (proj2 (Z.ltb_ge _ 18)) by long_tail.

Lemma month_first m a b c : name_at months (m - 1) = Some [a; b; c] -> (a =? chr " ") = false.
Proof.
  unfold name_at. destruct (m - 1 <? 0); [done|]. intros H%list_elem_of_lookup_2. unfold months in H.
  rewrite !elem_of_cons in H. repeat destruct H as [[= -> _]|H]; try reflexivity. by apply not_elem_of_nil in H.
Qed.

(** The parser on a date that was written: all its fields are found. *)
Lemma parse_date_text fmt wday month x hour min sec rest :
  date_ok x -> fmt_years fmt x.(d_year) -> name_at months (x.(d_month) - 1) = Some month -> weekday wday ->
  0 <= hour < 24 -> 0 <= min < 60 -> 0 <= sec < 60 ->
  parse_time (date_text fmt wday month x hour min sec rest) = time_of x.(d_day) (x.(d_month) - 1) x.(d_year) hour min sec.
Proof.
  intros [Hm Hd] Hy Hmonth Hw Hh Hmi Hs. pose proof (month_days_range x.(d_year) x.(d_month)) as Hr.
  destruct (month_name_length _ _ Hmonth) as (a & b & c & ->).
  assert (Hpm : forall l, parse_month (a :: b :: c :: l) = ret (x.(d_month) - 1))
    by (intros l; apply (parse_month_name _ [a; b; c] l Hm Hmonth)).
  pose proof (zlen_nonneg rest) as Hrest.
  unfold parse_time, date_text, fmt_years in *. destruct fmt.
  - cbn [app]. rewrite skip_weekday_comma by done. cbn [drop]. rewrite ?drop_0. cbn [skip_spaces Z.eqb Pos.eqb].
    rewrite skip_spaces_digits by lia. long_enough. rewrite parse_day_822 by (lia || long_tail). tidy.
    rewrite Hpm. tidy. date_step. cbn [parse_year]. date_step. by rewrite clock_read by done.
  - cbn [app]. rewrite skip_weekday_comma by done. cbn [drop]. rewrite ?drop_0. cbn [skip_spaces Z.eqb Pos.eqb].
    rewrite skip_spaces_digits by lia. long_enough. rewrite parse_day_850 by lia. tidy.
    rewrite Hpm. tidy. date_step. cbn [parse_year].
    assert (0 <= x.(d_year) mod 100 < 100) by (apply Z.mod_pos_bound; lia). date_step.
    rewrite clock_read by done. tidy. by rewrite year_two_digits.
  - cbn [app]. rewrite skip_weekday_space by done. cbn [drop]. rewrite ?drop_0. unfold skip_spaces.
    replace (a =? chr " ") with false by (by destruct (month_first _ _ _ _ Hmonth)).
    long_enough. tidy. rewrite Hpm. tidy. rewrite parse_day_isoc by (lia || long_tail). tidy.
    rewrite clock_read by done. tidy. date_step. by date_step.
Qed.

Lemma http_date_text_read fmt n wday month hour min sec rest :
  let x := date_of n in
  fmt_years fmt x.(d_year) -> name_at months (x.(d_month) - 1) = Some month -> weekday wday ->
  0 <= hour < 24 -> 0 <= min < 60 -> 0 <= sec < 60 ->
  ngx_http_parse_time (date_text fmt wday month x hour min sec rest) =
    Some (Z.of_nat n * 86400 + hour * 3600 + min * 60 + sec).
Proof.
  intros x Hy Hmonth Hw Hh Hmi Hs. destruct (date_of_ok n) as [Hok Hg]. fold x in Hok, Hg.
  unfold ngx_http_parse_time. rewrite (parse_date_text fmt wday month x); try done.
  by rewrite time_of_date, Hg; [|done|unfold fmt_years in Hy; destruct fmt; lia|done..|lia].
Qed.

(** A date is read as the time it denotes, in each of the three formats. For
    the date reached from the first of January 1970 by going on [n] days in the
    calendar, with a time of day, and for the format with two digits a year
    before 2070, the parser answers the seconds since the epoch. *)
Theorem http_date_parsed fmt n wday month hour min sec rest :
  let x := date_of n in
  fmt_years fmt x.(d_year) -> name_at months (x.(d_month) - 1) = Some month -> weekday wday ->
  0 <= hour < 24 -> 0 <= min < 60 -> 0 <= sec < 60 ->
  ngx_http_parse_time (date_text fmt wday month x hour min sec rest) =
    Some (Z.of_nat n * 86400 + hour * 3600 + min * 60 + sec).
Proof. apply http_date_text_read. Qed.

Lemma http_date_parsed_witness :
  ngx_http_parse_time (lit "Tuesday, 29-Feb-72 12:34:56 GMT") = Some 68214896.
Proof.
  assert (E : date_of 789 = Date 1972 2 29) by (vm_compute; reflexivity).
  pose proof (http_date_parsed rfc850 789 (lit "Tuesday") (lit "Feb") 12 34 56 (lit " GMT")) as H.
  rewrite E in H. apply H; [unfold fmt_years; cbn; lia|reflexivity| |lia..].
  by repeat constructor.
Defined.

(** ** What the server writes, it reads *)

Lemma date_of_year n : 1970 <= (date_of n).(d_year).
Proof.
  induction n as [|n IH]; [done|]. change (date_of (S n)) with (next_day (date_of n)).
  destruct (date_of n) as [y m d]. unfold next_day. cbn in *. repeat case_match; cbn; lia.
Qed.

(** Days before the year 10000. *)
Lemma year_below x : date_ok x -> gauss x < 2932897 -> x.(d_year) < 10000.
Proof.
  intros Hx Hg. pose proof (march_day_range x Hx) as H. destruct (Z.lt_ge_cases x.(d_year) 10000) as [|Hge]; [done|].
  rewrite gauss_month_eq in H. set (m' := if _ <=? 0 then _ + 12 else _) in H. destruct H as (Hr & _ & H306 & E).
  destruct (Z.leb_spec (d_month x - 2) 0).
  - pose proof (gauss_years_mono 9999 (d_year x - 1) ltac:(lia)) as Hy. change (gauss_years 9999) with 3652059 in Hy. lia.
  - pose proof (gauss_years_mono 10000 (d_year x) ltac:(lia)) as Hy. change (gauss_years 10000) with 3652425 in Hy. lia.
Qed.

Lemma week_plain name : name ∈ week -> weekday name.
Proof.
  intros H. unfold week in H. rewrite !elem_of_cons in H.
  repeat destruct H as [->|H]; [by repeat constructor..|]. by apply not_elem_of_nil in H.
Qed.

Lemma http_time_reads t :
  0 <= t < 253402300800 ->
  exists text, ngx_http_time t = FmtOk text /\ zlen text = 29 /\ ngx_http_parse_time text = Some t.
Proof.
  intros Ht. destruct (gmtime_parts t ltac:(lia)) as (E & Hok & Hg). cbv zeta in *.
  set (n := Z.to_nat (t / 86400)) in *. set (x := date_of n) in *.
  assert (Hn : Z.of_nat n = t / 86400) by (unfold n; rewrite Z2Nat.id; [done|divlia]).
  pose proof (date_of_year n) as Hlo. fold x in Hlo. pose proof (year_below x Hok ltac:(rewrite Hg; divlia)) as Hhi.
  pose proof (month_days_range x.(d_year) x.(d_month)) as Hr. pose proof Hok as [Hm Hd].
  destruct (http_time_printed (ngx_gmtime t)) as (wday & month & Ew & Em & Lw & Lm & Etext).
  { rewrite E. unfold tm_ok. cbn. pose proof (Z.mod_pos_bound (4 + t / 86400) 7 ltac:(lia)). split_and!; divlia || lia. }
  unfold ngx_http_time. rewrite Etext. rewrite E in *. cbn [tm_mday tm_mon tm_year tm_wday] in *.
  eexists. split; [done|]. split; [rewrite !zlen_app, Lw, Lm; reflexivity|].
  assert (Et : Some t = Some (Z.of_nat n * 86400 + t / 3600 mod 24 * 3600 + t / 60 mod 60 * 60 + t mod 60)).
  { f_equal. rewrite Hn. divlia. }
  rewrite Et. apply (http_date_text_read rfc822 n wday month (t / 3600 mod 24) (t / 60 mod 60) (t mod 60) (lit " GMT"));
    [split; [exact Hlo|exact Hhi]|exact Em| |apply Z.mod_pos_bound; lia..].
  unfold name_at in Ew. destruct (_ <? 0); [done|]. by eapply week_plain, list_elem_of_lookup_2.
Qed.

(** The server reads back the dates it writes. Any time before the year 10000,
    written as the date of a header by [ngx_http_time] and read by
    [ngx_http_parse_time], is the same time. *)
Theorem http_time_roundtrip t :
  0 <= t < 253402300800 ->
  exists text, ngx_http_time t = FmtOk text /\ zlen text = 29 /\ ngx_http_parse_time text = Some t.
Proof. apply http_time_reads. Qed.

Lemma http_time_roundtrip_witness :
  exists text, ngx_http_time 951827696 = FmtOk text /\ ngx_http_parse_time text = Some 951827696.
Proof. destruct (http_time_roundtrip 951827696 ltac:(lia)) as (text & H1 & _ & H2). exists text. exact (conj H1 H2). Defined.

(** The day zero of a month passes the test of the day, and the time before the
    epoch that it denotes is answered. *)
Theorem day_zero_accepted : ngx_http_parse_time (lit "Thu, 00 Jan 1970 00:00:00 GMT") = Some (-86400).
Proof. vm_compute. reflexivity. Qed.
