(* ===== verification/NgxTimes.v ===== *)
(** * The cached time ([core/ngx_times.c])

    The server asks for the time once per turn of its event loop and keeps it,
    with its texts, in one of 64 slots; readers use the current slot without a
    lock, and a signal handler may write a slot of its own.  Arrays keep their
    sizes, so that a text that does not fit would be seen. *)

From S2P Require Import Prelude NgxNumber NgxSprintf NgxTime HttpTime.

Abbreviation NGX_TIME_SLOTS := 64 (only parsing).

(** [ngx_time_t]. *)
Record ngx_time := NgxTime { sec : Z; msec : Z; gmtoff : Z }.

(** One element of each of the static arrays. *)
Record time_slot := TimeSlot {
  cached_time : ngx_time;
  cached_err_log : list Z;
  cached_http : list Z;
  cached_http_log : list Z;
  cached_iso8601 : list Z;
}.

(** The static variables; pointers to texts are slots, or null. *)
Record times := Times {
  slot : Z;
  slots : list time_slot;
  ngx_current_msec : Z;
  ngx_cached_time : Z;
  ngx_cached_err_log_time : option Z;
  ngx_cached_http_time : option Z;
  ngx_cached_http_log_time : option Z;
  ngx_cached_http_log_iso8601 : option Z;
  cached_gmtoff : Z;
}.

Definition empty_slot : time_slot :=
  TimeSlot (NgxTime 0 0 0) (replicate 20 0) (replicate 30 0) (replicate 27 0) (replicate 26 0).

(** After the assignments of [ngx_time_init], before its first update. *)
Definition times_init : times := Times 0 (replicate 64 empty_slot) 0 0 None None None None 0.

Definition slot_at (st : times) (i : Z) : option time_slot := st.(slots) !! Z.to_nat i.

Definition next_slot (i : Z) : Z := if i =? NGX_TIME_SLOTS - 1 then 0 else i + 1.

(** [ngx_sprintf] into an array: [None] when it does not fit. *)
Definition put (buf : list Z) (res : fmt_result) : option (list Z) :=
  match res with
  | FmtOk text => if zlen text <=? zlen buf then Some (text ++ drop (length text) buf) else None
  | _ => None
  end.

Definition err_log_text (tm : tm) : fmt_result :=
  ngx_sprintf (lit "%4d/%02d/%02d %02d:%02d:%02d")
    [VInt tm.(tm_year); VInt tm.(tm_mon); VInt tm.(tm_mday); VInt tm.(tm_hour); VInt tm.(tm_min); VInt tm.(tm_sec)].

Definition off_sign (off : Z) : Z := if off <? 0 then chr "-" else chr "+".

Definition http_log_text (tm : tm) (off : Z) : fmt_result :=
  match name_at months (tm.(tm_mon) - 1) with
  | Some month =>
      ngx_sprintf (lit "%02d/%s/%d:%02d:%02d:%02d %c%02d%02d")
        [VInt tm.(tm_mday); VPtr month; VInt tm.(tm_year); VInt tm.(tm_hour); VInt tm.(tm_min); VInt tm.(tm_sec);
         VInt (off_sign off); VInt (Z.abs (Z.quot off 60)); VInt (Z.abs (Z.rem off 60))]
  | None => FmtUB
  end.

Definition iso8601_text (tm : tm) (off : Z) : fmt_result :=
  ngx_sprintf (lit "%4d-%02d-%02dT%02d:%02d:%02d%c%02d:%02d")
    [VInt tm.(tm_year); VInt tm.(tm_mon); VInt tm.(tm_mday); VInt tm.(tm_hour); VInt tm.(tm_min); VInt tm.(tm_sec);
     VInt (off_sign off); VInt (Z.abs (Z.quot off 60)); VInt (Z.abs (Z.rem off 60))].

Section times.
(** [localtime_r] of the C library: months from zero and years since 1900, and
    the offset to Greenwich in seconds. *)
Context (localtime_r : Z -> tm * Z).

Definition ngx_localtime (s : Z) : tm * Z :=
  let '(t, off) := localtime_r s in
  (Tm t.(tm_sec) t.(tm_min) t.(tm_hour) t.(tm_mday) (t.(tm_mon) + 1) (t.(tm_year) + 1900) t.(tm_wday), off).

(** The texts of a second in a slot. *)
Definition fill_slot (sl : time_slot) (s ms : Z) : option time_slot :=
  let '(tm, off) := ngx_localtime s in
  let off := Z.quot off 60 in
  match put sl.(cached_http) (http_time_text (ngx_gmtime s)), put sl.(cached_err_log) (err_log_text tm),
        put sl.(cached_http_log) (http_log_text tm off), put sl.(cached_iso8601) (iso8601_text tm off) with
  | Some http, Some err, Some log, Some iso => Some (TimeSlot (NgxTime s ms off) err http log iso)
  | _, _, _, _ => None
  end.

(** [ngx_time_update]; [locked] says that [ngx_trylock] fails, [tv_sec] and
    [tv_usec] are the answer of [ngx_gettimeofday]. *)
Definition ngx_time_update (locked : bool) (tv_sec tv_usec : Z) (st : times) : option times :=
  if locked then Some st
  else
    let ms := tv_usec / 1000 in
    let now := u64 (tv_sec * 1000 + ms) in
    match slot_at st st.(slot) with
    | None => None
    | Some sl =>
        if sl.(cached_time).(sec) =? tv_sec then
          let sl := TimeSlot (NgxTime tv_sec ms sl.(cached_time).(gmtoff)) sl.(cached_err_log) sl.(cached_http)
                      sl.(cached_http_log) sl.(cached_iso8601) in
          Some (Times st.(slot) (<[Z.to_nat st.(slot) := sl]> st.(slots)) now st.(ngx_cached_time)
                  st.(ngx_cached_err_log_time) st.(ngx_cached_http_time) st.(ngx_cached_http_log_time)
                  st.(ngx_cached_http_log_iso8601) st.(cached_gmtoff))
        else
          let i := next_slot st.(slot) in
          match slot_at st i with
          | None => None
          | Some sl =>
              match fill_slot sl tv_sec ms with
              | None => None
              | Some sl =>
                  Some (Times i (<[Z.to_nat i := sl]> st.(slots)) now i (Some i) (Some i) (Some i) (Some i)
                          sl.(cached_time).(gmtoff))
              end
          end
    end.

(** [ngx_time_sigsafe_update]: only the text for the error log, with the offset
    kept from the last update. *)
Definition ngx_time_sigsafe_update (locked : bool) (tv_sec : Z) (st : times) : option times :=
  if locked then Some st
  else
    match slot_at st st.(slot) with
    | None => None
    | Some sl =>
        if sl.(cached_time).(sec) =? tv_sec then Some st
        else
          let i := next_slot st.(slot) in
          match slot_at st i with
          | None => None
          | Some sl =>
              match put sl.(cached_err_log) (err_log_text (ngx_gmtime (tv_sec + st.(cached_gmtoff) * 60))) with
              | None => None
              | Some err =>
                  let sl := TimeSlot (NgxTime 0 sl.(cached_time).(msec) sl.(cached_time).(gmtoff)) err sl.(cached_http)
                              sl.(cached_http_log) sl.(cached_iso8601) in
                  Some (Times i (<[Z.to_nat i := sl]> st.(slots)) st.(ngx_current_msec) st.(ngx_cached_time) (Some i)
                          st.(ngx_cached_http_time) st.(ngx_cached_http_log_time) st.(ngx_cached_http_log_iso8601)
                          st.(cached_gmtoff))
              end
          end
    end.

(** What happens to the cache: the event loop, or a signal. *)
Inductive time_event :=
  | Update (locked : bool) (tv_sec tv_usec : Z)
  | SigUpdate (locked : bool) (tv_sec : Z).

Definition times_step (st : times) (e : time_event) : option times :=
  match e with
  | Update locked s us => ngx_time_update locked s us st
  | SigUpdate locked s => ngx_time_sigsafe_update locked s st
  end.

Fixpoint times_run (st : times) (es : list time_event) : option times :=
  match es with
  | [] => Some st
  | e :: es => match times_step st e with Some st => times_run st es | None => None end
  end.
End times.

(** ** Printing into the slots *)

Definition sign_digits (off : Z) : list Z := off_sign off :: digits2 (Z.abs (Z.quot off 60)).
Definition rest_digits (off : Z) : list Z := digits2 (Z.abs (Z.rem off 60)).

Lemma off_parts off : -1440 < off < 1440 -> 0 <= Z.abs (Z.quot off 60) < 100 /\ 0 <= Z.abs (Z.rem off 60) < 100.
Proof. intros H. Z.to_euclidean_division_equations; lia. Qed.

Lemma off_sign_byte off : is_byte (off_sign off).
Proof. unfold off_sign. by destruct (off <? 0). Qed.
#[export] Hint Resolve off_sign_byte : printed.

Lemma err_log_printed x : tm_ok x -> err_log_text x = FmtOk (digits4 x.(tm_year) ++ lit "/" ++ digits2 x.(tm_mon) ++ lit "/" ++
  digits2 x.(tm_mday) ++ lit " " ++ clock_text x).
Proof.
  intros (H1 & H2 & H3 & H4 & H5 & H6 & H7). apply prints_sprintf; [|reflexivity].
  unfold clock_text. rewrite <- (app_nil_r (digits2 x.(tm_sec))). rewrite <- ?app_assoc. repeat prints_step.
Qed.

Lemma http_log_printed x off : tm_ok x -> -1440 < off < 1440 ->
  exists month, name_at months (x.(tm_mon) - 1) = Some month /\ zlen month = 3 /\
    http_log_text x off = FmtOk (digits2 x.(tm_mday) ++ lit "/" ++ month ++ lit "/" ++ digits4 x.(tm_year) ++ lit ":" ++
      clock_text x ++ lit " " ++ sign_digits off ++ rest_digits off).
Proof.
  intros (H1 & H2 & H3 & H4 & H5 & H6 & H7) Hoff. destruct (off_parts off Hoff) as [O1 O2].
  destruct (name_at_lookup months (x.(tm_mon) - 1)) as (month & Em & Hm); [change (zlen months) with 12; lia|].
  destruct (names_plain month (or_intror Hm)) as [Cm Lm]. exists month. split; [done|]. split; [done|].
  unfold http_log_text. rewrite Em. apply prints_sprintf.
  - unfold clock_text, sign_digits, rest_digits. rewrite <- (app_nil_r (digits2 (Z.abs (Z.rem off 60)))).
    change (off_sign off :: ?l) with ([off_sign off] ++ l). rewrite <- ?app_assoc. repeat prints_step.
  - rewrite !zlen_app, Lm. reflexivity.
Qed.

Lemma iso8601_printed x off : tm_ok x -> -1440 < off < 1440 ->
  iso8601_text x off = FmtOk (digits4 x.(tm_year) ++ lit "-" ++ digits2 x.(tm_mon) ++ lit "-" ++ digits2 x.(tm_mday) ++ lit "T" ++
    clock_text x ++ sign_digits off ++ lit ":" ++ rest_digits off).
Proof.
  intros (H1 & H2 & H3 & H4 & H5 & H6 & H7) Hoff. destruct (off_parts off Hoff) as [O1 O2]. apply prints_sprintf; [|reflexivity].
  unfold clock_text, sign_digits, rest_digits. rewrite <- (app_nil_r (digits2 (Z.abs (Z.rem off 60)))).
  change (off_sign off :: ?l) with ([off_sign off] ++ l). rewrite <- ?app_assoc. repeat prints_step.
Qed.

(** ** The invariant *)

(** The last second for which all texts have their length, whatever the time zone:
    the one before the last day of the year 9999. *)
Definition time_ok (s : Z) : Prop := 86400 <= s < 253402214400.

(** What the C library promises of local time. *)
Definition local_ok (localtime_r : Z -> tm * Z) : Prop :=
  forall s, time_ok s -> tm_ok (ngx_localtime localtime_r s).1 /\ -86400 < (ngx_localtime localtime_r s).2 < 86400.

Lemma gmtime_ok s : 0 <= s < 253402300800 -> tm_ok (ngx_gmtime s).
Proof.
  intros Hs. destruct (gmtime_parts s ltac:(lia)) as (E & Hok & Hg). cbv zeta in *. rewrite E. clear E.
  set (n := Z.to_nat (s / 86400)) in *. pose proof (date_of_year n). pose proof (year_below (date_of n) Hok ltac:(rewrite Hg; divlia)).
  pose proof (month_days_range (date_of n).(d_year) (date_of n).(d_month)). destruct Hok as [Hm Hd].
  pose proof (Z.mod_pos_bound (4 + s / 86400) 7 ltac:(lia)). unfold tm_ok. cbn. split_and!; divlia || lia.
Qed.

Section invariant.
Context (localtime_r : Z -> tm * Z) (Hlocal : local_ok localtime_r).

(** The sizes of the arrays. *)
Definition slot_sized (sl : time_slot) : Prop :=
  zlen sl.(cached_err_log) = 20 /\ zlen sl.(cached_http) = 30 /\ zlen sl.(cached_http_log) = 27 /\
  zlen sl.(cached_iso8601) = 26 /\ 0 <= sl.(cached_time).(msec) < 1000.

(** A slot holds the texts of a second, without the byte behind them. *)
Definition slot_shows (sl : time_slot) (s : Z) : Prop :=
  let '(x, off) := ngx_localtime localtime_r s in
  sl.(cached_time).(sec) = s /\ sl.(cached_time).(gmtoff) = Z.quot off 60 /\
  FmtOk (take 29 sl.(cached_http)) = ngx_http_time s /\
  FmtOk (take 19 sl.(cached_err_log)) = err_log_text x /\
  FmtOk (take 26 sl.(cached_http_log)) = http_log_text x (Z.quot off 60) /\
  FmtOk (take 25 sl.(cached_iso8601)) = iso8601_text x (Z.quot off 60).

Lemma put_text buf text n :
  zlen text = Z.of_nat n -> Z.of_nat n <= zlen buf ->
  put buf (FmtOk text) = Some (text ++ drop n buf) /\ zlen (text ++ drop n buf) = zlen buf /\ take n (text ++ drop n buf) = text.
Proof.
  intros Ht Hb. assert (En : length text = n) by (unfold zlen in Ht; lia). unfold put.
  rewrite (proj2 (Z.leb_le _ _)) by lia. rewrite En. split; [done|]. split.
  - rewrite zlen_app. unfold zlen in *. rewrite length_drop. lia.
  - rewrite take_app_le by lia. apply take_ge. lia.
Qed.

Lemma fill_slot_shows sl s ms :
  time_ok s -> slot_sized sl -> 0 <= ms < 1000 ->
  exists sl', fill_slot localtime_r sl s ms = Some sl' /\ slot_sized sl' /\ slot_shows sl' s /\
    sl'.(cached_time).(msec) = ms /\ -1440 < sl'.(cached_time).(gmtoff) < 1440.
Proof.
  intros Hs (S1 & S2 & S3 & S4 & _) Hms. destruct (Hlocal s Hs) as [Hx Hoff]. unfold fill_slot, slot_shows, time_ok in *.
  destruct (ngx_localtime localtime_r s) as [x off]. cbn [fst snd] in *.
  assert (Ho : -1440 < Z.quot off 60 < 1440) by (Z.to_euclidean_division_equations; lia).
  destruct (http_time_printed (ngx_gmtime s)) as (wday & month & _ & _ & Lw & Lm & E1); [apply gmtime_ok; lia|].
  destruct (http_log_printed x _ Hx Ho) as (month' & _ & Lm' & E3). unfold ngx_http_time.
  rewrite E1, (err_log_printed x Hx), E3, (iso8601_printed x _ Hx Ho). unfold clock_text.
  set (http := wday ++ _). set (err := digits4 _ ++ lit "/" ++ _). set (log := digits2 _ ++ _). set (iso := digits4 _ ++ lit "-" ++ _).
  destruct (put_text sl.(cached_http) http 29) as (-> & P1 & P1'); [unfold http; rewrite !zlen_app, Lw, Lm; reflexivity|lia|].
  destruct (put_text sl.(cached_err_log) err 19) as (-> & P2 & P2'); [reflexivity|lia|].
  destruct (put_text sl.(cached_http_log) log 26) as (-> & P3 & P3'); [unfold log; rewrite !zlen_app, Lm'; reflexivity|lia|].
  destruct (put_text sl.(cached_iso8601) iso 25) as (-> & P4 & P4'); [reflexivity|lia|].
  eexists. split; [done|]. unfold slot_sized. cbn [cached_time cached_err_log cached_http cached_http_log cached_iso8601 sec msec gmtoff].
  rewrite P1, P2, P3, P4, P1', P2', P3', P4'. split_and!; done || lia.
Qed.

Definition points_at (st : times) (i : Z) : Prop :=
  st.(ngx_cached_time) = i /\ st.(ngx_cached_err_log_time) = Some i /\ st.(ngx_cached_http_time) = Some i /\
  st.(ngx_cached_http_log_time) = Some i /\ st.(ngx_cached_http_log_iso8601) = Some i.

Record times_ok (st : times) : Prop := {
  ok_slot : 0 <= st.(slot) < 64;
  ok_slots : length st.(slots) = 64%nat;
  ok_sized : Forall slot_sized st.(slots);
  ok_gmtoff : -1440 < st.(cached_gmtoff) < 1440;
  ok_cached : 0 <= st.(ngx_cached_time) < 64;
  ok_current : forall sl, slot_at st st.(slot) = Some sl ->
    sl.(cached_time).(sec) = 0 \/ (slot_shows sl sl.(cached_time).(sec) /\ points_at st st.(slot));
}.

Definition event_in_range (e : time_event) : Prop :=
  match e with
  | Update _ s us => time_ok s /\ 0 <= us < 1000000
  | SigUpdate _ s => time_ok s
  end.

(** The texts of a slot. *)
Definition texts (sl : time_slot) : list Z * list Z * list Z * list Z :=
  (sl.(cached_err_log), sl.(cached_http), sl.(cached_http_log), sl.(cached_iso8601)).

Definition texts_at (st : times) (i : Z) : option (list Z * list Z * list Z * list Z) := texts <$> slot_at st i.

(** A step stays in its slot, or goes on to the next and writes that. *)
Definition moves (st st' : times) : Prop :=
  (st'.(slot) = st.(slot) \/ st'.(slot) = next_slot st.(slot)) /\
  forall i, 0 <= i < 64 -> i <> st'.(slot) \/ st'.(slot) = st.(slot) -> texts_at st' i = texts_at st i.

Lemma next_slot_mod i : 0 <= i < 64 -> next_slot i = (i + 1) mod 64.
Proof. intros H. unfold next_slot. zcase; [subst; done|]. rewrite Z.mod_small; lia. Qed.

Lemma slot_at_ok st i : times_ok st -> 0 <= i < 64 -> exists sl, slot_at st i = Some sl /\ slot_sized sl.
Proof.
  intros [] Hi. unfold slot_at. destruct (lookup_lt_is_Some_2 st.(slots) (Z.to_nat i)) as [sl E]; [lia|].
  exists sl. split; [done|]. by eapply Forall_lookup_1.
Qed.

Lemma slot_at_insert st st' i j sl :
  st'.(slots) = <[Z.to_nat i := sl]> st.(slots) -> length st.(slots) = 64%nat -> 0 <= i < 64 -> 0 <= j < 64 ->
  slot_at st' j = if j =? i then Some sl else slot_at st j.
Proof.
  intros E Hl Hi Hj. unfold slot_at. rewrite E. zcase; [subst; apply list_lookup_insert_eq; lia|].
  apply list_lookup_insert_ne. lia.
Qed.

(** Writing the next slot. *)
Lemma moves_next st st' sl :
  times_ok st -> st'.(slots) = <[Z.to_nat (next_slot st.(slot)) := sl]> st.(slots) -> st'.(slot) = next_slot st.(slot) ->
  moves st st'.
Proof.
  intros Hok E Es. split; [by right|]. intros i Hi Hne. destruct Hok. unfold texts_at.
  rewrite (slot_at_insert st st' (next_slot (slot st)) i sl E) by (done || (rewrite next_slot_mod by done; apply Z.mod_pos_bound; lia)).
  rewrite Es in Hne. assert (next_slot (slot st) <> slot st) by (rewrite next_slot_mod by done; divlia).
  zcase; [|done]. destruct Hne; congruence.
Qed.

Lemma next_slot_range i : 0 <= i < 64 -> 0 <= next_slot i < 64.
Proof. intros H. rewrite next_slot_mod by done. apply Z.mod_pos_bound. lia. Qed.

(** Replacing a slot keeps the sizes. *)
Lemma insert_sized st i sl : Forall slot_sized st.(slots) -> slot_sized sl -> Forall slot_sized (<[i := sl]> st.(slots)).
Proof. intros H1 H2. by apply Forall_insert. Qed.

(** An update, in the second of the slot or in another. *)
Lemma update_ok st s us :
  times_ok st -> time_ok s -> 0 <= us < 1000000 ->
  exists st' sl, ngx_time_update localtime_r false s us st = Some st' /\ times_ok st' /\ moves st st' /\
    points_at st' st'.(slot) /\ slot_at st' st'.(slot) = Some sl /\ slot_shows sl s /\ sl.(cached_time).(msec) = us / 1000.
Proof.
  intros Hok Hs Hus. pose proof Hok as [I1 I2 I3 I4 I5 I6]. pose proof (next_slot_range _ I1) as Hnext.
  assert (Hms : 0 <= us / 1000 < 1000) by divlia.
  destruct (slot_at_ok st (slot st) Hok I1) as (sl & Esl & Hsl). unfold ngx_time_update. rewrite Esl.
  destruct (Z.eqb_spec sl.(cached_time).(sec) s) as [E|Hne].
  - set (sl' := TimeSlot _ _ _ _ _). destruct (I6 sl Esl) as [H0|[Hshow Hp]]; [unfold time_ok in Hs; lia|].
    assert (Hshow' : slot_shows sl' s) by (rewrite E in Hshow; unfold slot_shows, sl' in *; destruct (ngx_localtime _ _); cbn; intuition).
    set (st' := Times _ _ _ _ _ _ _ _ _). assert (Hat : forall j, 0 <= j < 64 -> slot_at st' j = if j =? slot st then Some sl' else slot_at st j)
      by (intros j Hj; by apply (slot_at_insert st)).
    assert (Ecur : slot_at st' st'.(slot) = Some sl') by (change (slot st') with (slot st); rewrite Hat by done; by rewrite Z.eqb_refl).
    exists st', sl'. split; [done|]. split; [|split; [|split; [exact Hp|done]]].
    + constructor; [done|cbn; by rewrite length_insert| |done|done|].
      * apply insert_sized; [done|]. destruct Hsl as (? & ? & ? & ? & _). done.
      * intros x Hx. rewrite Ecur in Hx. injection Hx as <-. right. split; [done|exact Hp].
    + split; [by left|]. intros i Hi _. unfold texts_at. rewrite Hat by done. zcase; [|done]. subst i. by rewrite Esl.
  - destruct (slot_at_ok st (next_slot (slot st)) Hok Hnext) as (sn & Esn & Hsn). rewrite Esn.
    destruct (fill_slot_shows sn s (us / 1000) Hs Hsn Hms) as (sl' & -> & Hsz & Hshow & Em & Hoff).
    set (st' := Times _ _ _ _ _ _ _ _ _).
    assert (Ecur : slot_at st' st'.(slot) = Some sl').
    { rewrite (slot_at_insert st st' (next_slot (slot st)) _ sl') by done. cbn. by rewrite Z.eqb_refl. }
    exists st', sl'. split; [done|]. split; [|split; [by eapply moves_next|split; [done|done]]].
    constructor; [done|cbn; by rewrite length_insert|by apply insert_sized|done|done|].
    intros x Hx. rewrite Ecur in Hx. injection Hx as <-. right. split; [|done].
    unfold slot_shows in Hshow at 1. replace (sec (cached_time sl')) with s; [done|].
    unfold slot_shows in Hshow. destruct (ngx_localtime localtime_r s). by destruct Hshow as [-> _].
Qed.

Lemma sigsafe_ok st s :
  times_ok st -> time_ok s ->
  exists st', ngx_time_sigsafe_update false s st = Some st' /\ times_ok st' /\ moves st st'.
Proof.
  intros Hok Hs. pose proof Hok as [I1 I2 I3 I4 I5 I6]. pose proof (next_slot_range _ I1) as Hnext.
  destruct (slot_at_ok st (slot st) Hok I1) as (sl & Esl & Hsl). unfold ngx_time_sigsafe_update. rewrite Esl.
  destruct (_ =? s); [exists st; split; [done|]; split; [done|]; split; [by left|done]|].
  destruct (slot_at_ok st (next_slot (slot st)) Hok Hnext) as (sn & Esn & Hsn). rewrite Esn.
  rewrite err_log_printed by (apply gmtime_ok; unfold time_ok in Hs; lia). set (text := digits4 _ ++ _).
  destruct Hsn as (S1 & S2 & S3 & S4 & S5). destruct (put_text sn.(cached_err_log) text 19) as (-> & P & _); [reflexivity|lia|].
  set (sl' := TimeSlot _ _ _ _ _). set (st' := Times _ _ _ _ _ _ _ _ _). exists st'. split; [done|]. split; [|by eapply moves_next].
  constructor; [done|cbn; by rewrite length_insert| |done|done|].
  - apply insert_sized; [done|]. unfold slot_sized. change (cached_err_log sl') with (text ++ drop 19 (cached_err_log sn)). by rewrite P, S1.
  - intros x Hx. rewrite (slot_at_insert st st' (next_slot (slot st)) _ sl') in Hx by done.
    cbn in Hx. rewrite Z.eqb_refl in Hx. injection Hx as <-. by left.
Qed.

Lemma times_step_ok st e :
  times_ok st -> event_in_range e -> exists st', times_step localtime_r st e = Some st' /\ times_ok st' /\ moves st st'.
Proof.
  intros Hok He. destruct e as [[] s us|[] s]; cbn [times_step event_in_range] in *.
  1, 3: exists st; split; [done|]; split; [done|]; split; [by left|done].
  - destruct He as [Hs Hus]. destruct (update_ok st s us Hok Hs Hus) as (st' & sl & E & Hok' & Hm & _). by exists st'.
  - by apply sigsafe_ok.
Qed.

Lemma times_init_ok : times_ok times_init.
Proof.
  constructor; try done; try (cbn; lia).
  - apply Forall_replicate. repeat split; done.
  - intros sl [= <-]. by left.
Qed.

Lemma times_run_ok es : forall st, times_ok st -> Forall event_in_range es ->
  exists st', times_run localtime_r st es = Some st' /\ times_ok st'.
Proof.
  induction es as [|e es IH]; intros st Hok He; [by exists st|]. apply Forall_cons in He as [He Hes].
  destruct (times_step_ok st e Hok He) as (st' & E & Hok' & _). cbn [times_run]. rewrite E. by apply IH.
Qed.
End invariant.

(** ** What readers see *)

(** A text through its pointer, and [ngx_timeofday]. *)
Definition text_of (st : times) (p : option Z) (field : time_slot -> list Z) (len : nat) : option (list Z) :=
  match p with
  | Some i => (fun sl => take len (field sl)) <$> slot_at st i
  | None => None
  end.

Definition ngx_timeofday (st : times) : option ngx_time := cached_time <$> slot_at st st.(ngx_cached_time).

Definition http_time_seen (st : times) : option (list Z) := text_of st st.(ngx_cached_http_time) cached_http 29.
Definition err_log_time_seen (st : times) : option (list Z) := text_of st st.(ngx_cached_err_log_time) cached_err_log 19.
Definition http_log_time_seen (st : times) : option (list Z) := text_of st st.(ngx_cached_http_log_time) cached_http_log 26.
Definition iso8601_seen (st : times) : option (list Z) := text_of st st.(ngx_cached_http_log_iso8601) cached_iso8601 25.

(** The cache of times is safe. From the start of the process on, through any
    sequence of updates by the event loop and by signals, at any times before the
    last day of the year 9999, no text is written over the end of its array and
    the state keeps its invariant: the slot is one of the 64, every array has its
    size, and the current slot, if its second is set, holds the texts of that
    second and is the one the pointers name. *)
Theorem times_safe localtime_r es :
  local_ok localtime_r -> Forall event_in_range es ->
  exists st, times_run localtime_r times_init es = Some st /\ times_ok localtime_r st.
Proof. intros Hl He. apply times_run_ok; [done|apply times_init_ok|done]. Qed.

(** Greenwich as local time. *)
Definition gmt_localtime (s : Z) : tm * Z :=
  let x := ngx_gmtime s in
  (Tm x.(tm_sec) x.(tm_min) x.(tm_hour) x.(tm_mday) (x.(tm_mon) - 1) (x.(tm_year) - 1900) x.(tm_wday), 0).

Lemma gmt_localtime_ok : local_ok gmt_localtime.
Proof.
  intros s Hs. unfold time_ok in Hs. split; [|cbn; lia]. unfold ngx_localtime, gmt_localtime.
  cbn [fst tm_sec tm_min tm_hour tm_mday tm_mon tm_year tm_wday].
  rewrite !Z.sub_add. pose proof (gmtime_ok s ltac:(lia)) as H. by destruct (ngx_gmtime s).
Qed.

Lemma times_safe_witness :
  exists st, times_run gmt_localtime times_init [Update false 951827696 0; SigUpdate false 951827697; Update true 951827698 0] = Some st /\
    times_ok gmt_localtime st.
Proof.
  apply (times_safe gmt_localtime); [apply gmt_localtime_ok|].
  repeat (apply Forall_cons; split); try (unfold event_in_range, time_ok; lia). constructor.
Defined.

Lemma times_run_app localtime_r a b : forall st,
  times_run localtime_r st (a ++ b) = match times_run localtime_r st a with Some st => times_run localtime_r st b | None => None end.
Proof. induction a as [|e a IH]; intros st; [done|]. cbn. destruct (times_step localtime_r st e); [apply IH|done]. Qed.

(** After an update readers see its time. Whatever happened before, an update
    that gets the lock leaves second and millisecond, the date for headers, the
    time for the error log and both texts for access logs as those of the time it
    was given, and the date read back is that time. *)
Theorem time_update_shows localtime_r es s us :
  local_ok localtime_r -> Forall event_in_range es -> time_ok s -> 0 <= us < 1000000 ->
  let '(x, off) := ngx_localtime localtime_r s in
  exists st http err log iso, times_run localtime_r times_init (es ++ [Update false s us]) = Some st /\
    ngx_timeofday st = Some (NgxTime s (us / 1000) (Z.quot off 60)) /\
    http_time_seen st = Some http /\ ngx_http_time s = FmtOk http /\ ngx_http_parse_time http = Some s /\
    err_log_time_seen st = Some err /\ err_log_text x = FmtOk err /\
    http_log_time_seen st = Some log /\ http_log_text x (Z.quot off 60) = FmtOk log /\
    iso8601_seen st = Some iso /\ iso8601_text x (Z.quot off 60) = FmtOk iso.
Proof.
  intros Hl He Hs Hus. destruct (times_run_ok localtime_r Hl es times_init (times_init_ok _) He) as (st0 & E0 & Hok).
  destruct (update_ok localtime_r Hl st0 s us Hok Hs Hus) as (st & sl & E & _ & _ & (P1 & P2 & P3 & P4 & P5) & Esl & Hshow & Hms).
  unfold slot_shows in Hshow. destruct (ngx_localtime localtime_r s) as [x off]. destruct Hshow as (S1 & S2 & S3 & S4 & S5 & S6).
  unfold time_ok in Hs. destruct (http_time_reads s ltac:(lia)) as (http & Eh & _ & Hread).
  exists st, http, (take 19 (cached_err_log sl)), (take 26 (cached_http_log sl)), (take 25 (cached_iso8601 sl)).
  rewrite times_run_app, E0. cbn [times_run times_step]. rewrite E.
  unfold ngx_timeofday, http_time_seen, err_log_time_seen, http_log_time_seen, iso8601_seen, text_of.
  rewrite P1, P2, P3, P4, P5, Esl. cbn [fmap option_fmap option_map]. rewrite Eh in *. injection S3 as <-.
  split_and!; try done. f_equal. destruct (cached_time sl). cbn in *. by subst.
Qed.

Lemma time_update_shows_witness :
  exists st http, times_run gmt_localtime times_init [SigUpdate false 951827690; Update false 951827696 500000] = Some st /\
    http_time_seen st = Some http /\ ngx_http_parse_time http = Some 951827696.
Proof.
  pose proof (time_update_shows gmt_localtime [SigUpdate false 951827690] 951827696 500000 gmt_localtime_ok) as H.
  cbn [ngx_localtime gmt_localtime] in H. destruct H as (st & http & _ & _ & _ & E & _ & Eh & _ & Er & _).
  - repeat constructor; unfold time_ok; lia.
  - unfold time_ok. lia.
  - lia.
  - exists st, http. exact (conj E (conj Eh Er)).
Defined.

(** ** How long a text stays *)

Lemma texts_stay localtime_r (Hl : local_ok localtime_r) i es : forall st,
  times_ok localtime_r st -> Forall event_in_range es -> 0 <= i < 64 -> (st.(slot) - i) mod 64 + zlen es < 64 ->
  exists st', times_run localtime_r st es = Some st' /\ texts_at st' i = texts_at st i.
Proof.
  induction es as [|e es IH]; intros st Hok He Hi Hlen; [by exists st|]. apply Forall_cons in He as [He Hes].
  destruct (times_step_ok localtime_r Hl st e Hok He) as (st1 & E & Hok1 & Hslot & Htexts). cbn [times_run]. rewrite E.
  pose proof (zlen_nonneg es). rewrite zlen_cons in Hlen. pose proof (ok_slot _ _ Hok) as Hr.
  destruct (IH st1 Hok1 Hes Hi) as (st' & E' & Et).
  { destruct Hslot as [->| ->]; [lia|]. rewrite next_slot_mod by done. divlia. }
  exists st'. split; [done|]. rewrite Et. apply Htexts; [done|].
  destruct Hslot as [->|Hn]; [by right|]. left. rewrite Hn, next_slot_mod by done. divlia.
Qed.

(** A text stays as it was read for the next 63 updates. A reader that took
    the pointers before them finds the same texts in its slot after any sequence
    of up to 63 updates by the event loop or by signals. *)
Theorem time_texts_stay localtime_r es es' :
  local_ok localtime_r -> Forall event_in_range es -> Forall event_in_range es' -> zlen es' < 64 ->
  exists st st', times_run localtime_r times_init es = Some st /\ times_run localtime_r st es' = Some st' /\
    texts_at st' st.(slot) = texts_at st st.(slot).
Proof.
  intros Hl He He' Hlen. destruct (times_run_ok localtime_r Hl es times_init (times_init_ok _) He) as (st & E & Hok).
  destruct (texts_stay localtime_r Hl st.(slot) es' st Hok He' (ok_slot _ _ Hok)) as (st' & E' & Ht);
    [rewrite Z.sub_diag; change (0 mod 64) with 0; lia|].
  by exists st, st'.
Qed.

(** Signals at [n] successive seconds. *)
Definition signals (s : Z) (n : nat) : list time_event := map (fun k => SigUpdate false (s + Z.of_nat k)) (seq 0 n).

Lemma signals_in_range s n : 86400 <= s -> s + Z.of_nat n < 253402214400 -> Forall event_in_range (signals s n).
Proof.
  intros H1 H2. apply List.Forall_forall. intros e He. apply List.in_map_iff in He as (k & <- & Hk%List.in_seq).
  unfold event_in_range, time_ok. lia.
Qed.

Lemma time_texts_stay_witness :
  exists st st', times_run gmt_localtime times_init [Update false 951827696 0] = Some st /\
    times_run gmt_localtime st (signals 951827697 63) = Some st' /\ texts_at st' st.(slot) = texts_at st st.(slot).
Proof.
  apply (time_texts_stay gmt_localtime); [apply gmt_localtime_ok| |apply signals_in_range; lia|reflexivity].
  repeat constructor; unfold time_ok; lia.
Defined.

(** Every signal takes a slot, also within one second, since it clears the
    second of its slot: after 64 signals without an update by the event loop the
    time of day itself is cleared. *)
Theorem signals_clear_time :
  (fun st => sec <$> ngx_timeofday st) <$>
    times_run gmt_localtime times_init (Update false 951827696 0 :: replicate 64 (SigUpdate false 951827697)) = Some (Some 0).
Proof. vm_compute. reflexivity. Qed.

(** ** Reading at any moment *)

(** The pointers to the texts of access logs name slots. *)
Definition log_pointers (st : times) : Prop :=
  exists i j, st.(ngx_cached_http_log_time) = Some i /\ st.(ngx_cached_http_log_iso8601) = Some j /\ 0 <= i < 64 /\ 0 <= j < 64.

Lemma log_pointers_step localtime_r (Hl : local_ok localtime_r) st e st' :
  times_ok localtime_r st -> event_in_range e -> log_pointers st -> times_step localtime_r st e = Some st' -> log_pointers st'.
Proof.
  intros Hok He Hp E. destruct e as [[] s us|[] s]; cbn [times_step event_in_range] in *.
  1, 3: by injection E as <-.
  - destruct He as [Hs Hus]. destruct (update_ok localtime_r Hl st s us Hok Hs Hus) as (st1 & sl & E1 & Hok1 & _ & (_ & _ & _ & P4 & P5) & _).
    rewrite E in E1. injection E1 as <-. pose proof (ok_slot _ _ Hok1). by exists (slot st'), (slot st').
  - unfold ngx_time_sigsafe_update in E. destruct (slot_at st (slot st)); [|done]. destruct (_ =? _); [by injection E as <-|].
   
    destruct (slot_at st _); [|done]. destruct (put _ _); [|done]. injection E as <-. exact Hp.
Qed.

Lemma log_pointers_run localtime_r (Hl : local_ok localtime_r) es : forall st,
  times_ok localtime_r st -> Forall event_in_range es -> log_pointers st ->
  exists st', times_run localtime_r st es = Some st' /\ times_ok localtime_r st' /\ log_pointers st'.
Proof.
  induction es as [|e es IH]; intros st Hok He Hp; [by exists st|]. apply Forall_cons in He as [He Hes].
  destruct (times_step_ok localtime_r Hl st e Hok He) as (st1 & E & Hok1 & _). cbn [times_run]. rewrite E.
  apply IH; [done|done|]. by apply (log_pointers_step localtime_r Hl st e).
Qed.

(** From the first update on, the texts of access logs can be read and have the
    lengths [ngx_time_init] gives them. *)
Lemma times_readable localtime_r s us es :
  local_ok localtime_r -> time_ok s -> 0 <= us < 1000000 -> Forall event_in_range es ->
  exists st tp log iso, times_run localtime_r times_init (Update false s us :: es) = Some st /\
    ngx_timeofday st = Some tp /\ 0 <= tp.(msec) < 1000 /\
    http_log_time_seen st = Some log /\ zlen log = 26 /\ iso8601_seen st = Some iso /\ zlen iso = 25.
Proof.
  intros Hl Hs Hus He. cbn [times_run times_step].
  destruct (update_ok localtime_r Hl times_init s us (times_init_ok _) Hs Hus) as (st0 & sl & -> & Hok0 & _ & (_ & _ & _ & P4 & P5) & _).
  destruct (log_pointers_run localtime_r Hl es st0 Hok0 He) as (st & -> & Hok & (i & j & Ei & Ej & Hi & Hj)).
  { pose proof (ok_slot _ _ Hok0). by exists (slot st0), (slot st0). }
  destruct (slot_at_ok _ st _ Hok (ok_cached _ _ Hok)) as (sc & Ec & (_ & _ & _ & _ & Hms)).
  destruct (slot_at_ok _ st i Hok Hi) as (si & Esi & (_ & _ & S3 & _)).
  destruct (slot_at_ok _ st j Hok Hj) as (sj & Esj & (_ & _ & _ & S4 & _)).
  exists st, (cached_time sc), (take 26 (cached_http_log si)), (take 25 (cached_iso8601 sj)).
  unfold ngx_timeofday, http_log_time_seen, iso8601_seen, text_of. rewrite Ec, Ei, Ej, Esi, Esj.
  rewrite !zlen_take. split_and!; done || lia.
Qed.
