(* ===== verification/NgxRbtree.v ===== *)
(** * Red-black trees ([core/ngx_rbtree.c], [core/ngx_rbtree.h])

    The operations on linked nodes: a memory of nodes by address, and every
    access through a pointer checked.  Functions that are mirror images of each
    other are given once, with the side as an argument: [Left] is the text of
    the code, [Right] the one with left and right exchanged. *)

From stdpp Require Import gmap.
From S2P Require Import Prelude.

(** ** Nodes *)

Inductive color := Black | Red.

(** [ngx_rbtree_node_t]; pointers are addresses, [NULL] is zero. *)
Record rbnode := RbNode {
  key : Z;
  left : Z;
  right : Z;
  parent : Z;
  col : color;
}.

Abbreviation NULL := 0 (only parsing).

(** [ngx_rbtree_t] with the memory: root and sentinel; the function [insert] is
    given to the operations by its comparison of keys. *)
Record rbtree := RbTree {
  mem : gmap Z rbnode;
  root : Z;
  sentinel : Z;
}.

Inductive side := Left | Right.

Definition other (d : side) : side := match d with Left => Right | Right => Left end.

(** ** Access

    [None] is an access through a pointer to no node. *)

Definition get (t : rbtree) (p : Z) : option rbnode := t.(mem) !! p.

Definition upd (p : Z) (f : rbnode -> rbnode) (t : rbtree) : option rbtree :=
  match get t p with
  | Some n => Some (RbTree (<[p := f n]> t.(mem)) t.(root) t.(sentinel))
  | None => None
  end.

Definition set_root (p : Z) (t : rbtree) : rbtree := RbTree t.(mem) p t.(sentinel).

Definition child (d : side) (n : rbnode) : Z := match d with Left => n.(left) | Right => n.(right) end.

Definition with_child (d : side) (c : Z) (n : rbnode) : rbnode :=
  match d with
  | Left => RbNode n.(key) c n.(right) n.(parent) n.(col)
  | Right => RbNode n.(key) n.(left) c n.(parent) n.(col)
  end.

Definition with_parent (p : Z) (n : rbnode) : rbnode := RbNode n.(key) n.(left) n.(right) p n.(col).
Definition with_col (c : color) (n : rbnode) : rbnode := RbNode n.(key) n.(left) n.(right) n.(parent) c.

Definition get_child (d : side) (t : rbtree) (p : Z) : option Z := child d <$> get t p.
Definition get_parent (t : rbtree) (p : Z) : option Z := parent <$> get t p.
Definition get_col (t : rbtree) (p : Z) : option color := col <$> get t p.
Definition set_child (d : side) (p c : Z) : rbtree -> option rbtree := upd p (with_child d c).
Definition set_parent (p q : Z) : rbtree -> option rbtree := upd p (with_parent q).
Definition set_col (p : Z) (c : color) : rbtree -> option rbtree := upd p (with_col c).

(** [ngx_rbt_is_red]. *)
Definition is_red (t : rbtree) (p : Z) : option bool :=
  (fun c => match c with Red => true | Black => false end) <$> get_col t p.

(** ** Rotation *)

(** The child [temp] takes the place of [node] under its parent. The tests go
    from the side [d] of the rotation. *)
Definition replace_child (d : side) (node temp : Z) (t : rbtree) : option rbtree :=
  if node =? t.(root) then Some (set_root temp t)
  else
    p ← get_parent t node;
    c ← get_child d t p;
    if node =? c then set_child d p temp t else set_child (other d) p temp t.

(** [ngx_rbtree_left_rotate] for [Left], [ngx_rbtree_right_rotate] for [Right]. *)
Definition rotate (d : side) (node : Z) (t : rbtree) : option rbtree :=
  temp ← get_child (other d) t node;
  inner ← get_child d t temp;
  t ← set_child (other d) node inner t;
  t ← (if inner =? t.(sentinel) then Some t else set_parent inner node t);
  p ← get_parent t node;
  t ← set_parent temp p t;
  t ← replace_child d node temp t;
  t ← set_child d temp node t;
  set_parent node temp t.

Definition ngx_rbtree_left_rotate : Z -> rbtree -> option rbtree := rotate Left.
Definition ngx_rbtree_right_rotate : Z -> rbtree -> option rbtree := rotate Right.

(** ** Insertion *)

(** The assignments to the new node. *)
Definition link_leaf (node p : Z) (c : color) (t : rbtree) : option rbtree :=
  t ← set_parent node p t;
  t ← set_child Left node t.(sentinel) t;
  t ← set_child Right node t.(sentinel) t;
  set_col node c t.

(** [ngx_rbtree_insert_value] and [ngx_rbtree_insert_timer_value], which differ
    in the comparison [lt]. *)
Fixpoint insert_below (fuel : nat) (lt : Z -> Z -> bool) (temp node : Z) (t : rbtree) : option rbtree :=
  match fuel with
  | O => None
  | S fuel =>
      n ← get t node;
      m ← get t temp;
      let d := if lt n.(key) m.(key) then Left else Right in
      let p := child d m in
      if p =? t.(sentinel) then
        t ← set_child d temp node t;
        link_leaf node temp Red t
      else insert_below fuel lt p node t
  end.

(** [ngx_rbtree_key_t] is a 64-bit unsigned integer. *)
Definition key_lt (a b : Z) : bool := a <? b.
Definition timer_lt (a b : Z) : bool := s64 (a - b) <? 0.

(** The last case: the grandparent is rotated to the other side. *)
Definition insert_turn (d : side) (node : Z) (t : rbtree) : option (Z * rbtree) :=
  p ← get_parent t node;
  t ← set_col p Black t;
  p ← get_parent t node;
  g ← get_parent t p;
  t ← set_col g Red t;
  p ← get_parent t node;
  g ← get_parent t p;
  t ← rotate (other d) g t;
  Some (node, t).

(** The body of the loop that balances after an insertion, for a parent that is
    the child [d] of its parent: the next [node], or the last. *)
Definition insert_side (d : side) (node parent_ grand : Z) (t : rbtree) : option (Z * rbtree) :=
  temp ← get_child (other d) t grand;
  red ← is_red t temp;
  if (red : bool) then
    t ← set_col parent_ Black t;
    t ← set_col temp Black t;
    t ← set_col grand Red t;
    Some (grand, t)
  else
    c ← get_child (other d) t parent_;
    if node =? c then
      t ← rotate d parent_ t;
      insert_turn d parent_ t
    else insert_turn d node t.

Fixpoint insert_fixup (fuel : nat) (node : Z) (t : rbtree) : option rbtree :=
  match fuel with
  | O => None
  | S fuel =>
      if node =? t.(root) then set_col t.(root) Black t
      else
        p ← get_parent t node;
        red ← is_red t p;
        if (red : bool) then
          g ← get_parent t p;
          l ← get_child Left t g;
          '(node, t) ← insert_side (if p =? l then Left else Right) node p g t;
          insert_fixup fuel node t
        else set_col t.(root) Black t
  end.

(** Turns enough for any loop that goes up or down the tree. *)
Definition tree_fuel (t : rbtree) : nat := S (size t.(mem)).

Definition ngx_rbtree_insert (lt : Z -> Z -> bool) (node : Z) (t : rbtree) : option rbtree :=
  if t.(root) =? t.(sentinel) then
    t ← link_leaf node NULL Black t;
    Some (set_root node t)
  else
    t ← insert_below (tree_fuel t) lt t.(root) node t;
    insert_fixup (tree_fuel t) node t.

(** ** Removal *)

Fixpoint rbtree_min (fuel : nat) (node : Z) (t : rbtree) : option Z :=
  match fuel with
  | O => None
  | S fuel =>
      l ← get_child Left t node;
      if l =? t.(sentinel) then Some node else rbtree_min fuel l t
  end.

Definition ngx_rbtree_min (node : Z) (t : rbtree) : option Z := rbtree_min (tree_fuel t) node t.

(** [ngx_rbt_is_black(w->left) && ngx_rbt_is_black(w->right)]. *)
Definition both_black (t : rbtree) (w : Z) : option bool :=
  l ← get_child Left t w;
  red ← is_red t l;
  if (red : bool) then Some false
  else
    r ← get_child Right t w;
    negb <$> is_red t r.

(** The parts of the loop that balances after a removal, for [temp] the child [d]
    of its parent.  A red sibling [w]: the next sibling. *)
Definition delete_red_sibling (d : side) (temp w p : Z) (t : rbtree) : option (Z * rbtree) :=
  t ← set_col w Black t;
  t ← set_col p Red t;
  t ← rotate d p t;
  p ← get_parent t temp;
  w ← get_child (other d) t p;
  Some (w, t).

(** The sibling's far child is black: the next sibling. *)
Definition delete_near_red (d : side) (temp w : Z) (t : rbtree) : option (Z * rbtree) :=
  near ← get_child d t w;
  t ← set_col near Black t;
  t ← set_col w Red t;
  t ← rotate (other d) w t;
  p ← get_parent t temp;
  w ← get_child (other d) t p;
  Some (w, t).

(** The last rotation; the next [temp] is the root. *)
Definition delete_turn (d : side) (temp w : Z) (t : rbtree) : option (Z * rbtree) :=
  p ← get_parent t temp;
  c ← get_col t p;
  t ← set_col w c t;
  p ← get_parent t temp;
  t ← set_col p Black t;
  far ← get_child (other d) t w;
  t ← set_col far Black t;
  p ← get_parent t temp;
  t ← rotate d p t;
  Some (t.(root), t).

(** A black sibling: the next [temp]. *)
Definition delete_black_sibling (d : side) (temp w : Z) (t : rbtree) : option (Z * rbtree) :=
  black ← both_black t w;
  if (black : bool) then
    t ← set_col w Red t;
    p ← get_parent t temp;
    Some (p, t)
  else
    far ← get_child (other d) t w;
    red_far ← is_red t far;
    '(w, t) ← (if (red_far : bool) then Some (w, t) else delete_near_red d temp w t);
    delete_turn d temp w t.

Definition delete_side (d : side) (temp p : Z) (t : rbtree) : option (Z * rbtree) :=
  w ← get_child (other d) t p;
  red ← is_red t w;
  '(w, t) ← (if (red : bool) then delete_red_sibling d temp w p t else Some (w, t));
  delete_black_sibling d temp w t.

Fixpoint delete_fixup (fuel : nat) (temp : Z) (t : rbtree) : option rbtree :=
  match fuel with
  | O => None
  | S fuel =>
      if temp =? t.(root) then set_col temp Black t
      else
        red ← is_red t temp;
        if (red : bool) then set_col temp Black t
        else
          p ← get_parent t temp;
          l ← get_child Left t p;
          '(temp, t) ← delete_side (if temp =? l then Left else Right) temp p t;
          delete_fixup fuel temp t
  end.

(** The assignments marked as debug stuff. *)
Definition clear_node (node : Z) : rbtree -> option rbtree := upd node (fun n => RbNode 0 NULL NULL NULL n.(col)).

(** [subst] is taken out of its place, [temp] is put there. *)
Definition unlink (subst temp : Z) (t : rbtree) : option rbtree :=
  p ← get_parent t subst;
  l ← get_child Left t p;
  if subst =? l then set_child Left p temp t else set_child Right p temp t.

(** The links and the color of [node] are copied to [subst]. *)
Definition copy_links (subst node : Z) (t : rbtree) : option rbtree :=
  l ← get_child Left t node;
  t ← set_child Left subst l t;
  r ← get_child Right t node;
  t ← set_child Right subst r t;
  q ← get_parent t node;
  t ← set_parent subst q t;
  c ← get_col t node;
  set_col subst c t.

(** [subst] takes the place of [node]. *)
Definition take_place (subst node : Z) (t : rbtree) : option rbtree :=
  t ← copy_links subst node t;
  t ← replace_child Left node subst t;
  l ← get_child Left t subst;
  t ← (if l =? t.(sentinel) then Some t else set_parent l subst t);
  r ← get_child Right t subst;
  if r =? t.(sentinel) then Some t else set_parent r subst t.

(** The new parent of [temp], and [subst] in the place of [node]. *)
Definition put_in_place (subst node temp : Z) (t : rbtree) : option rbtree :=
  p ← get_parent t subst;
  t ← set_parent temp (if p =? node then subst else p) t;
  take_place subst node t.

(** [subst], the node whose place in the tree becomes free, and [temp], which
    goes there. *)
Definition find_subst (node : Z) (t : rbtree) : option (Z * Z) :=
  l ← get_child Left t node;
  r ← get_child Right t node;
  if l =? t.(sentinel) then Some (node, r)
  else if r =? t.(sentinel) then Some (node, l)
  else
    subst ← ngx_rbtree_min r t;
    l ← get_child Left t subst;
    r ← get_child Right t subst;
    Some (subst, if negb (l =? t.(sentinel)) then l else r).

Definition delete_subst (subst temp node : Z) (t : rbtree) : option rbtree :=
  if subst =? t.(root) then
    t ← set_col temp Black (set_root temp t);
    clear_node node t
  else
    red ← is_red t subst;
    t ← unlink subst temp t;
    t ← (if subst =? node then p ← get_parent t subst; set_parent temp p t
         else put_in_place subst node temp t);
    t ← clear_node node t;
    if (red : bool) then Some t else delete_fixup (tree_fuel t) temp t.

Definition ngx_rbtree_delete (node : Z) (t : rbtree) : option rbtree :=
  '(subst, temp) ← find_subst node t;
  delete_subst subst temp node t.
