(* ===== verification/NgxRbtreeShape.v ===== *)
(** * Linked nodes as trees

    Which tree a memory of linked nodes holds.  A position in the tree is a
    subtree with its context, the path to the root; moving the position costs
    nothing, and the primitive operations change the tree at the position. *)

From stdpp Require Import gmap.
From S2P Require Import Prelude NgxRbtree.

(** ** Trees and contexts *)

Inductive tree :=
  | E
  | T (c : color) (l : tree) (x k : Z) (r : tree).

#[export] Instance color_eq_dec : EqDecision color.
Proof. solve_decision. Defined.

#[export] Instance tree_eq_dec : EqDecision tree.
Proof. solve_decision. Defined.

(** A node with the child [a] on the side [d] and [b] on the other. *)
Definition bin (d : side) (c : color) (a : tree) (x k : Z) (b : tree) : tree :=
  match d with Left => T c a x k b | Right => T c b x k a end.

(** One step of a path: the rest of a node whose child [d] is missing. *)
Record frame := Frame { f_side : side; f_col : color; f_node : Z; f_key : Z; f_sib : tree }.

Definition fill (f : frame) (t : tree) : tree := bin f.(f_side) f.(f_col) t f.(f_node) f.(f_key) f.(f_sib).

Fixpoint plug (ctx : list frame) (t : tree) : tree :=
  match ctx with
  | [] => t
  | f :: ctx => plug ctx (fill f t)
  end.

(** Nodes with their keys, in order. *)
Fixpoint inorder (t : tree) : list (Z * Z) :=
  match t with
  | E => []
  | T _ l x k r => inorder l ++ (x, k) :: inorder r
  end.

Fixpoint ids (t : tree) : list Z :=
  match t with
  | E => []
  | T _ l x _ r => ids l ++ x :: ids r
  end.

Fixpoint ids_ctx (ctx : list frame) : list Z :=
  match ctx with
  | [] => []
  | f :: ctx => f.(f_node) :: ids f.(f_sib) ++ ids_ctx ctx
  end.

Definition color_of (t : tree) : color := match t with E => Black | T c _ _ _ _ => c end.

(** ** The tree in memory *)

Section memory.
Context (s : Z).

Definition ptr_of (t : tree) : Z := match t with E => s | T _ _ x _ _ => x end.

Definition node_of (d : side) (c : color) (k a b q : Z) : rbnode :=
  match d with Left => RbNode k a b q c | Right => RbNode k b a q c end.

(** [q] is the parent of the subtree. *)
Fixpoint holds (m : gmap Z rbnode) (t : tree) (q : Z) : Prop :=
  match t with
  | E => True
  | T c l x k r => m !! x = Some (RbNode k (ptr_of l) (ptr_of r) q c) /\ holds m l x /\ holds m r x
  end.

(** The parent of the root is never looked at: [q] may be anything. *)
Definition parent_of (q : Z) (ctx : list frame) : Z := match ctx with [] => q | f :: _ => f.(f_node) end.

Fixpoint holds_ctx (m : gmap Z rbnode) (q : Z) (ctx : list frame) (hole : Z) : Prop :=
  match ctx with
  | [] => True
  | Frame d c x k b :: ctx =>
      m !! x = Some (node_of d c k hole (ptr_of b) (parent_of q ctx)) /\ holds m b x /\ holds_ctx m q ctx x
  end.

Fixpoint root_of (ctx : list frame) (hole : Z) : Z :=
  match ctx with
  | [] => hole
  | f :: ctx => root_of ctx f.(f_node)
  end.

Lemma holds_bin m d c a x k b q :
  holds m (bin d c a x k b) q <-> m !! x = Some (node_of d c k (ptr_of a) (ptr_of b) q) /\ holds m a x /\ holds m b x.
Proof. destruct d; cbn; tauto. Qed.

Lemma ptr_bin d c a x k b : ptr_of (bin d c a x k b) = x.
Proof. by destruct d. Qed.

Lemma bin_not_empty d c a x k b : bin d c a x k b <> E.
Proof. by destruct d. Qed.

Lemma ids_bin d c a x k b : ids (bin d c a x k b) ≡ₚ x :: ids a ++ ids b.
Proof. destruct d; cbn; solve_Permutation. Qed.

Lemma ptr_in t : ptr_of t = s \/ ptr_of t ∈ ids t.
Proof. destruct t; cbn; [by left|right]. apply elem_of_app. right. by left. Qed.

Lemma holds_ext m m' t q : (forall x, x ∈ ids t -> m' !! x = m !! x) -> holds m t q -> holds m' t q.
Proof.
  revert q. induction t as [|c l IHl x k r IHr]; intros q H; [done|]. cbn. intros (H1 & H2 & H3).
  split; [rewrite H; [done|set_solver]|]. split; [apply IHl|apply IHr]; try done; intros; apply H; set_solver.
Qed.

Lemma holds_ctx_ext m m' q ctx hole : (forall x, x ∈ ids_ctx ctx -> m' !! x = m !! x) -> holds_ctx m q ctx hole -> holds_ctx m' q ctx hole.
Proof.
  revert hole. induction ctx as [|[d c x k b] ctx IH]; intros hole H; [done|]. cbn. intros (H1 & H2 & H3).
  split; [rewrite H; [done|set_solver]|]. split.
  - eapply holds_ext; [|done]. intros; apply H; set_solver.
  - apply IH; [|done]. intros; apply H; set_solver.
Qed.

Lemma root_of_in ctx hole : ctx <> [] -> root_of ctx hole ∈ ids_ctx ctx.
Proof.
  revert hole. induction ctx as [|f ctx IH]; intros hole Hne; [done|]. cbn. destruct ctx as [|g ctx]; [cbn; set_solver|].
  specialize (IH (f_node f) ltac:(done)). set_solver.
Qed.

(** The position [t] in the context [ctx] of the tree a memory holds, whose
    nodes are [N]. *)
Record at_pos (q : Z) (N : list Z) (tr : rbtree) (t : tree) (ctx : list frame) : Prop := AtPos {
  at_sentinel : tr.(sentinel) = s;
  at_root : tr.(root) = root_of ctx (ptr_of t);
  at_tree : holds tr.(mem) t (parent_of q ctx);
  at_ctx : holds_ctx tr.(mem) q ctx (ptr_of t);
  at_ids : ids t ++ ids_ctx ctx ≡ₚ N;
  at_nodup : NoDup (s :: N);
  at_black : get_col tr s = Some Black;
}.

Lemma at_move q N tr d c a x k b ctx : at_pos q N tr (bin d c a x k b) ctx <-> at_pos q N tr a (Frame d c x k b :: ctx).
Proof.
  assert (Hp : ids (bin d c a x k b) ++ ids_ctx ctx ≡ₚ ids a ++ x :: ids b ++ ids_ctx ctx)
    by (rewrite ids_bin; solve_Permutation).
  split; intros []; (constructor; [done| | | | |done|done]); cbn in *; rewrite ?ptr_bin, ?holds_bin in *; try tauto.
  - by rewrite <- Hp.
  - by rewrite Hp.
Qed.

(** Down to a child, and up to the parent. *)
Lemma at_down q N tr d c a x k b ctx : at_pos q N tr (bin d c a x k b) ctx -> at_pos q N tr a (Frame d c x k b :: ctx).
Proof. apply at_move. Qed.

Lemma at_up q N tr d c a x k b ctx : at_pos q N tr a (Frame d c x k b :: ctx) -> at_pos q N tr (bin d c a x k b) ctx.
Proof. apply at_move. Qed.

Lemma at_plug q N tr t ctx : at_pos q N tr t ctx <-> at_pos q N tr (plug ctx t) [].
Proof.
  revert t. induction ctx as [|[d c x k b] ctx IH]; intros t; [done|]. cbn [plug]. rewrite <- IH. unfold fill. cbn.
  symmetry. apply at_move.
Qed.
End memory.

(** ** Reading at a position *)

Lemma other_other d : other (other d) = d.
Proof. by destruct d. Qed.

Lemma child_near d c k a b q : child d (node_of d c k a b q) = a.
Proof. by destruct d. Qed.

Lemma child_far d c k a b q : child (other d) (node_of d c k a b q) = b.
Proof. by destruct d. Qed.

Lemma parent_node d c k a b q : parent (node_of d c k a b q) = q.
Proof. by destruct d. Qed.

Lemma col_node d c k a b q : col (node_of d c k a b q) = c.
Proof. by destruct d. Qed.

Lemma with_near d c k a b q a' : with_child d a' (node_of d c k a b q) = node_of d c k a' b q.
Proof. by destruct d. Qed.

Lemma with_far d c k a b q b' : with_child (other d) b' (node_of d c k a b q) = node_of d c k a b' q.
Proof. by destruct d. Qed.

Lemma with_parent_node d c k a b q q' : with_parent q' (node_of d c k a b q) = node_of d c k a b q'.
Proof. by destruct d. Qed.

Lemma with_col_node d c k a b q c' : with_col c' (node_of d c k a b q) = node_of d c' k a b q.
Proof. by destruct d. Qed.

Lemma node_other d c k a b q : node_of (other d) c k a b q = node_of d c k b a q.
Proof. by destruct d. Qed.

Lemma bin_other d c a x k b : bin (other d) c a x k b = bin d c b x k a.
Proof. by destruct d. Qed.

#[export] Instance side_eq_dec : EqDecision side.
Proof. solve_decision. Defined.

Create Rewrite HintDb rb.
#[export] Hint Rewrite other_other child_near child_far parent_node col_node with_near with_far with_parent_node with_col_node ptr_bin : rb.

Lemma lookup_upd tr p f n : get tr p = Some n -> upd p f tr = Some (RbTree (<[p := f n]> tr.(mem)) tr.(root) tr.(sentinel)).
Proof. unfold upd. by intros ->. Qed.

(** Only the nodes [N] differ. *)
Definition keeps (N : list Z) (tr tr' : rbtree) : Prop := forall z, z ∉ N -> get tr' z = get tr z.

#[export] Instance keeps_preorder N : PreOrder (keeps N).
Proof. split; [done|]. intros a b c Hab Hbc z Hz. by rewrite Hbc, Hab. Qed.

Ltac keeps := solve [repeat first [eassumption | reflexivity | etransitivity; [eassumption|]]].

Section positions.
Context (s q : Z) (N : list Z).
Implicit Types (tr : rbtree) (t a b e : tree) (ctx : list frame).

Abbreviation at_pos := (at_pos s q N).
Abbreviation ptr_of := (ptr_of s).

Lemma at_get tr d c a x k b ctx :
  at_pos tr (bin d c a x k b) ctx -> get tr x = Some (node_of d c k (ptr_of a) (ptr_of b) (parent_of q ctx)).
Proof. intros []. by apply holds_bin in at_tree0 as [? _]. Qed.

Lemma at_get_parent tr t d c x k b ctx :
  at_pos tr t (Frame d c x k b :: ctx) -> get tr x = Some (node_of d c k (ptr_of t) (ptr_of b) (parent_of q ctx)).
Proof. rewrite <- at_move. apply at_get. Qed.

Definition is_red_tree t : bool := match color_of t with Red => true | Black => false end.

Lemma at_is_red tr t ctx : at_pos tr t ctx -> is_red tr (ptr_of t) = Some (is_red_tree t).
Proof.
  intros H. unfold is_red, is_red_tree. destruct t as [|c l x k r].
  - change (ptr_of E) with s. by rewrite (at_black _ _ _ _ _ _ H).
  - unfold get_col. change (ptr_of _) with x. by rewrite (at_get tr Left c l x k r ctx H).
Qed.

(** The subtrees and the frames of a position have different nodes, none the
    sentinel. *)
Lemma at_disjoint tr d c a x k b ctx :
  at_pos tr (bin d c a x k b) ctx ->
  x <> s /\ (x ∉ ids a) /\ (x ∉ ids b) /\ (x ∉ ids_ctx ctx) /\ NoDup (ids a) /\ NoDup (ids b) /\
  (forall z, z ∈ ids a -> (z ∉ ids b) /\ (z ∉ ids_ctx ctx) /\ z <> s) /\ (forall z, z ∈ ids b -> (z ∉ ids_ctx ctx) /\ z <> s) /\
  (forall z, z ∈ ids_ctx ctx -> z <> s) /\ NoDup (ids_ctx ctx).
Proof.
  intros H. pose proof (at_nodup _ _ _ _ _ _ H) as Hd. rewrite <- (at_ids _ _ _ _ _ _ H), ids_bin in Hd.
  change ((x :: ids a ++ ids b) ++ ids_ctx ctx) with (x :: (ids a ++ ids b) ++ ids_ctx ctx) in Hd.
  rewrite <- app_assoc in Hd. rewrite !NoDup_cons, !NoDup_app in Hd. destruct Hd as (Hs & Hx & Ha & Hab & Hb & Hbc & Hc).
  split_and!; try done; try set_solver.
Qed.

Lemma at_node tr d c a x k b ctx : at_pos tr (bin d c a x k b) ctx -> x ∈ N.
Proof. intros H. rewrite <- (at_ids _ _ _ _ _ _ H), ids_bin. by left. Qed.

(** Changing only the colors, at the node of the position. *)
Lemma at_set_col tr d c c' a x k b ctx :
  at_pos tr (bin d c a x k b) ctx ->
  exists tr', set_col x c' tr = Some tr' /\ at_pos tr' (bin d c' a x k b) ctx /\ keeps N tr tr'.
Proof.
  intros H. pose proof (at_get _ _ _ _ _ _ _ _ H) as G. destruct (at_disjoint _ _ _ _ _ _ _ _ H) as (D1 & D2 & D3 & D4 & _).
  pose proof (at_node _ _ _ _ _ _ _ _ H) as HN. unfold set_col. rewrite (lookup_upd _ _ _ _ G), with_col_node. set (m := <[x := _]> (mem tr)). eexists. split; [done|].
  assert (Hne : forall z, z <> x -> m !! z = mem tr !! z) by (intros; by apply lookup_insert_ne).
  destruct H as [H1 H2 H3 H4 H5 H6 H7]. apply holds_bin in H3 as (_ & H3a & H3b). rewrite ptr_bin in *.
  split; [|intros z Hz; unfold get; cbn; apply Hne; congruence]. constructor; cbn; try done.
  - by rewrite ptr_bin.
  - apply holds_bin. split; [apply lookup_insert_eq|].
    split; (eapply holds_ext; [|done]); intros z Hz; apply Hne; set_solver.
  - rewrite ptr_bin. eapply holds_ctx_ext; [|done]. intros z Hz; apply Hne; set_solver.
  - by rewrite ids_bin in *.
  - unfold get_col, get. cbn. rewrite Hne by congruence. exact H7.
Qed.

Definition paint (c : color) t : tree := match t with E => E | T _ l x k r => T c l x k r end.

(** Painting the root of the subtree; the sentinel is only painted black. *)
Lemma at_paint tr t c ctx :
  at_pos tr t ctx -> (t = E -> c = Black) ->
  exists tr', set_col (ptr_of t) c tr = Some tr' /\ at_pos tr' (paint c t) ctx /\ keeps N tr tr'.
Proof.
  intros H Hc. destruct t as [|c0 l x k r].
  - rewrite Hc by done. pose proof (at_black _ _ _ _ _ _ H) as Hb. unfold get_col in Hb. cbn.
    destruct (get tr s) as [n|] eqn:G; [|done]. cbn in Hb. injection Hb as Hb.
    exists tr. unfold set_col, upd. rewrite G. replace (with_col Black n) with n by (destruct n; cbn in *; by subst).
    split; [|done]. unfold get in G. rewrite insert_id by done. by destruct tr.
  - apply (at_set_col tr Left c0 c l x k r ctx H).
Qed.

(** ** Changing links *)

(** The same but for the nodes of a list. *)
Definition same_but (l : list Z) tr tr' : Prop :=
  tr'.(sentinel) = tr.(sentinel) /\ forall z, z ∉ l -> get tr' z = get tr z.

Lemma same_holds l tr tr' t p :
  same_but l tr tr' -> (forall z, z ∈ ids t -> z ∉ l) -> holds s (mem tr) t p -> holds s (mem tr') t p.
Proof. intros [_ H] Hd. apply holds_ext. intros z Hz. apply H. auto. Qed.

Lemma same_holds_ctx l tr tr' ctx hole :
  same_but l tr tr' -> (forall z, z ∈ ids_ctx ctx -> z ∉ l) -> holds_ctx s (mem tr) q ctx hole -> holds_ctx s (mem tr') q ctx hole.
Proof. intros [_ H] Hd. apply holds_ctx_ext. intros z Hz. apply H. auto. Qed.

Lemma upd_same tr p f n : get tr p = Some n ->
  exists tr', upd p f tr = Some tr' /\ get tr' p = Some (f n) /\ tr'.(root) = tr.(root) /\ same_but [p] tr tr'.
Proof.
  intros G. rewrite (lookup_upd _ _ _ _ G). eexists. split; [done|]. unfold get. cbn. split; [apply lookup_insert_eq|].
  split; [done|]. split; [done|]. intros z Hz. apply lookup_insert_ne. set_solver.
Qed.

Lemma set_child_same tr d p c n : get tr p = Some n ->
  exists tr', set_child d p c tr = Some tr' /\ get tr' p = Some (with_child d c n) /\ tr'.(root) = tr.(root) /\ same_but [p] tr tr'.
Proof. apply upd_same. Qed.

Lemma set_parent_same tr p p' n : get tr p = Some n ->
  exists tr', set_parent p p' tr = Some tr' /\ get tr' p = Some (with_parent p' n) /\ tr'.(root) = tr.(root) /\ same_but [p] tr tr'.
Proof. apply upd_same. Qed.

Lemma set_col_same tr p c n : get tr p = Some n ->
  exists tr', set_col p c tr = Some tr' /\ get tr' p = Some (with_col c n) /\ tr'.(root) = tr.(root) /\ same_but [p] tr tr'.
Proof. apply upd_same. Qed.

(** A subtree gets another parent, unless it is the sentinel. *)
Lemma reparent tr t p p' :
  tr.(sentinel) = s -> holds s (mem tr) t p -> NoDup (ids t) -> s ∉ ids t ->
  exists tr', (if ptr_of t =? tr.(sentinel) then Some tr else set_parent (ptr_of t) p' tr) = Some tr' /\
    holds s (mem tr') t p' /\ tr'.(root) = tr.(root) /\ same_but (ids t) tr tr'.
Proof.
  intros Hs Ht Hd Hn. rewrite Hs. destruct t as [|c l x k r].
  - exists tr. cbn. by rewrite Z.eqb_refl.
  - cbn in *. destruct Ht as (Hx & Hl & Hr). rewrite (proj2 (Z.eqb_neq x s)) by set_solver.
    apply NoDup_app in Hd as (_ & Hlr & [Hxr _]%NoDup_cons).
    destruct (upd_same tr x (with_parent p') _ Hx) as (tr' & E & G & Er & Hsame). exists tr'. split; [exact E|].
    split; [|split; [done|]].
    + split; [exact G|]. split; (eapply same_holds; [exact Hsame| |done]); set_solver.
    + destruct Hsame as [? H]. split; [done|]. intros z Hz. apply H. set_solver.
Qed.

(** The child [x] of the parent at the end of the path is replaced by [y]. *)
Lemma relink tr d c p k b ctx x y :
  holds_ctx s (mem tr) q (Frame d c p k b :: ctx) x -> (p ∉ ids b) -> (p ∉ ids_ctx ctx) ->
  exists tr', set_child d p y tr = Some tr' /\ holds_ctx s (mem tr') q (Frame d c p k b :: ctx) y /\
    tr'.(root) = tr.(root) /\ same_but [p] tr tr'.
Proof.
  intros (Hp & Hb & Hc) H1 H2. destruct (upd_same tr p (with_child d y) _ Hp) as (tr' & E & G & Er & Hsame).
  exists tr'. split; [exact E|]. split; [|done]. cbn. rewrite with_near in G. split; [exact G|].
  split; [eapply same_holds|eapply same_holds_ctx]; try done; set_solver.
Qed.

(** Which child of its parent is a node. *)
Lemma which_child tr d d' c p k b ctx x :
  holds_ctx s (mem tr) q (Frame d c p k b :: ctx) x -> (x ∉ ids b) -> x <> s ->
  exists cp, get_child d' tr p = Some cp /\ (x =? cp) = bool_decide (d' = d).
Proof.
  intros (Hp & _) Hx Hs. unfold get_child, get. rewrite Hp. eexists. split; [done|].
  assert (x <> ptr_of b) by (destruct (ptr_in s b) as [->|H]; set_solver).
  destruct d, d'; cbn; rewrite ?Z.eqb_refl; try done; by apply Z.eqb_neq.
Qed.

(** [replace_child] at the end of a path. *)
Lemma replace_hole tr d ctx x y :
  tr.(root) = root_of ctx x -> holds_ctx s (mem tr) q ctx x -> NoDup (x :: ids_ctx ctx) -> x <> s ->
  get_parent tr x = Some (parent_of q ctx) ->
  exists tr', replace_child d x y tr = Some tr' /\ tr'.(root) = root_of ctx y /\ holds_ctx s (mem tr') q ctx y /\
    same_but (ids_ctx ctx) tr tr'.
Proof.
  intros Hr Hc Hd Hxs Hp. apply NoDup_cons in Hd as [Hx Hd]. unfold replace_child. rewrite Hr.
  destruct ctx as [|[d0 c p k b] ctx].
  { cbn. rewrite Z.eqb_refl. eexists. split; [done|]. done. }
  pose proof (root_of_in (Frame d0 c p k b :: ctx) x ltac:(done)) as Hin.
  rewrite (proj2 (Z.eqb_neq _ _)) by (intros Eq; rewrite <- Eq in Hin; done). rewrite Hp. cbn [mbind option_bind parent_of f_node].
  cbn [ids_ctx f_node f_sib] in Hx, Hd. apply NoDup_cons in Hd as [Hpn Hd].
  destruct (which_child tr d0 d c p k b ctx x Hc) as (cp & E1 & E2); [set_solver|done|].
  rewrite E1. cbn [mbind option_bind]. rewrite E2.
  destruct (relink tr d0 c p k b ctx x y Hc) as (tr' & E & Hc' & Er & Hsame); [set_solver|set_solver|].
  exists tr'. split; [|split; [by rewrite Er, Hr|split; [done|]]].
  - case_bool_decide; [by subst|]. replace (other d) with d0 by (by destruct d, d0). done.
  - destruct Hsame as [? H]. split; [done|]. intros z Hz. apply H. cbn in Hz. set_solver.
Qed.
End positions.
