(* ===== verification/NgxRbtreeRotate.v ===== *)
(** * Rotation

    A rotation at a position turns the two nodes there, keeps everything else
    and does not touch the sentinel. *)

From stdpp Require Import gmap.
From S2P Require Import Prelude NgxRbtree NgxRbtreeShape.

Section rotation.
Context (s q : Z) (N : list Z).
Abbreviation at_pos := (at_pos s q N).
Abbreviation ptr_of := (ptr_of s).

Lemma same_trans l l' tr tr' tr'' : same_but l tr tr' -> same_but l' tr' tr'' -> same_but (l ++ l') tr tr''.
Proof.
  intros [A1 A2] [B1 B2]. split; [congruence|]. intros z Hz. rewrite B2, A2 by set_solver. done.
Qed.

Lemma same_get l tr tr' z n : same_but l tr tr' -> z ∉ l -> get tr z = Some n -> get tr' z = Some n.
Proof. intros [_ H] Hz <-. by apply H. Qed.

(** The two nodes of a rotation, their subtrees and the path are apart. *)
Lemma rotate_apart tr d c a x k c' b y k' e ctx :
  at_pos tr (bin d c a x k (bin d c' b y k' e)) ctx ->
  NoDup (x :: ids_ctx ctx) /\ NoDup (ids b) /\ x <> s /\ x <> y /\ (x ∉ ids a) /\ (x ∉ ids b) /\ (x ∉ ids e) /\ (y ∉ ids b) /\ (y ∉ ids e) /\
  (forall z, z = y \/ z ∈ ids b \/ z ∈ ids e -> (z ∉ ids_ctx ctx) /\ z <> s /\ (z ∉ ids a)) /\
  (forall z, z ∈ ids a -> z ∉ ids_ctx ctx) /\ (forall z, z ∈ ids b -> z ∉ ids e).
Proof.
  intros H. pose proof (at_nodup _ _ _ _ _ _ H) as Hd. rewrite <- (at_ids _ _ _ _ _ _ H), !ids_bin in Hd. clear H.
  cbn in Hd. rewrite <- !app_assoc in Hd. cbn in Hd. rewrite <- !app_assoc in Hd.
  apply NoDup_cons in Hd as [H1 [H2 (_ & H3 & [H4 (H5 & H6 & (_ & H7 & H8)%NoDup_app)%NoDup_app]%NoDup_cons)%NoDup_app]%NoDup_cons].
  split; [constructor; [set_solver|done]|]. split_and!; try done; try (clear -H2; set_solver); try (clear -H4; set_solver).
  - clear -H1. set_solver.
  - intros z Hz. clear -H1 H3 H4 H6 H7 Hz. set_solver.
  - intros z Hz. clear -H3 Hz. set_solver.
  - intros z Hz. clear -H6 Hz. set_solver.
Qed.

(** The first assignments: the inner subtree [b] moves from [y] to [x]. *)
Lemma rotate_inner tr d c a x k c' b y k' e ctx :
  at_pos tr (bin d c a x k (bin d c' b y k' e)) ctx ->
  exists tr', rotate d x tr = (t ← replace_child d x y tr'; t ← set_child d y x t; set_parent x y t) /\
    get tr' x = Some (node_of d c k (ptr_of a) (ptr_of b) (parent_of q ctx)) /\
    get tr' y = Some (node_of d c' k' (ptr_of b) (ptr_of e) (parent_of q ctx)) /\
    holds s (mem tr') b x /\ root tr' = root tr /\ same_but ([x] ++ ids b ++ [y]) tr tr'.
Proof.
  intros H. pose proof (at_get s q N _ _ _ _ _ _ _ _ H) as Gx. rewrite ptr_bin in Gx.
  destruct (rotate_apart _ _ _ _ _ _ _ _ _ _ _ _ H) as (_ & Db & _ & Dxy & _ & Dxb & _ & Dyb & _ & Hbin & _ & _).
  destruct H as [H1 H2 H3 _ _ _ _]. apply holds_bin in H3 as (_ & _ & (Gy & Hb & _)%holds_bin).
  unfold rotate, get_child at 1 2. rewrite Gx. cbn [fmap option_fmap option_map mbind option_bind]. rewrite child_far.
  change (get tr y) with (mem tr !! y). rewrite Gy. cbn [fmap option_fmap option_map mbind option_bind]. rewrite child_near.
  destruct (set_child_same tr (other d) x (ptr_of b) _ Gx) as (t1 & E1 & G1 & R1 & S1).
  rewrite E1. cbn [mbind option_bind]. rewrite with_far in G1.
  destruct (reparent s t1 b y x) as (t2 & E2 & Hb2 & R2 & S2);
    [by rewrite (proj1 S1)|eapply same_holds; [exact S1|set_solver|done]|done|intros Hs; by destruct (Hbin s ltac:(auto)) as (_ & ? & _)|].
  rewrite E2. cbn [mbind option_bind].
  assert (G2 : get t2 x = Some (node_of d c k (ptr_of a) (ptr_of b) (parent_of q ctx))) by (eapply same_get; [exact S2|done|done]).
  assert (G2y : get t2 y = Some (node_of d c' k' (ptr_of b) (ptr_of e) x)).
  { eapply same_get; [exact S2|done|]. eapply same_get; [exact S1|set_solver|done]. }
  unfold get_parent at 1. rewrite G2. cbn [fmap option_fmap option_map mbind option_bind]. rewrite parent_node.
  destruct (set_parent_same t2 y (parent_of q ctx) _ G2y) as (t3 & E3 & G3 & R3 & S3).
  rewrite E3. cbn [mbind option_bind]. rewrite with_parent_node in G3. exists t3. split; [done|].
  split; [eapply same_get; [exact S3|set_solver|done]|]. split; [done|].
  split; [eapply same_holds; [exact S3|set_solver|done]|]. split; [congruence|].
  eapply same_trans; [exact S1|]; by eapply same_trans.
Qed.

Lemma at_rotate tr d c a x k c' b y k' e ctx :
  at_pos tr (bin d c a x k (bin d c' b y k' e)) ctx ->
  exists tr', rotate d x tr = Some tr' /\ at_pos tr' (bin d c' (bin d c a x k b) y k' e) ctx /\ keeps N tr tr'.
Proof.
  intros H. destruct (rotate_inner _ _ _ _ _ _ _ _ _ _ _ _ H) as (t3 & -> & G3x & G3 & Hb3 & R3 & S13).
  destruct (rotate_apart _ _ _ _ _ _ _ _ _ _ _ _ H) as (Dctx & Db & Dxs & Dxy & Dxa & Dxb & Dxe & Dyb & Dye & Hbin & Dac & Dbe).
  assert (Dy := Hbin y ltac:(auto)). assert (Dxc : x ∉ ids_ctx ctx) by (apply NoDup_cons in Dctx; tauto).
  destruct H as [H1 H2 H3 H4 H5 H6 H7]. apply holds_bin in H3 as (_ & Ha & (_ & _ & He)%holds_bin). rewrite ptr_bin in *.
  destruct (replace_hole s q t3 d ctx x y) as (t4 & E4 & R4 & Hc4 & S4); [congruence| |done|done| |].
  { eapply same_holds_ctx; [exact S13| |done]. intros z Hz Hin. specialize (Hbin z). clear -Hin Hbin Hz Dxc. set_solver. }
  { unfold get_parent. rewrite G3x. cbn. by rewrite parent_node. }
  rewrite E4. cbn [mbind option_bind].
  assert (G4 := same_get _ _ _ _ _ S4 (proj1 Dy) G3).
  destruct (set_child_same t4 d y x _ G4) as (t5 & E5 & G5 & R5 & S5).
  rewrite E5. cbn [mbind option_bind]. rewrite with_near in G5.
  assert (Dx : x ∉ [y]) by (clear -Dxy; set_solver). assert (Dyx : y ∉ [x]) by (clear -Dxy; set_solver).
  assert (G5x := same_get _ _ _ _ _ S5 Dx (same_get _ _ _ _ _ S4 Dxc G3x)).
  destruct (set_parent_same t5 x y _ G5x) as (t6 & E6 & G6 & R6 & S6). rewrite with_parent_node in G6.
  exists t6. rewrite E6. split; [done|].
  assert (S46 := same_trans _ _ _ _ _ S5 S6). assert (S36 := same_trans _ _ _ _ _ S4 S46).
  assert (S16 := same_trans _ _ _ _ _ S13 S36).
  assert (G6y := same_get _ _ _ _ _ S6 Dyx G5).
  rewrite !ids_bin in H5.
  assert (HN : keeps N tr t6) by (intros z; rewrite <- H5; intros Hz; apply S16; clear -Hz; set_solver).
  split; [|done]. constructor.
  - by rewrite (proj1 S16).
  - rewrite ptr_bin. congruence.
  - apply holds_bin. rewrite ptr_bin. split; [exact G6y|]. split; [apply holds_bin; split; [exact G6|split]|].
    + eapply same_holds; [exact S16| |done]. intros z Hz. specialize (Hbin z). specialize (Dac z Hz). clear -Hz Hbin Dac Dxa. set_solver.
    + eapply same_holds; [exact S36| |done]. intros z Hz. specialize (Hbin z). clear -Hz Hbin Dxb Dyb. set_solver.
    + eapply same_holds; [exact S16| |done]. intros z Hz. specialize (Hbin z). specialize (Dbe z). clear -Hz Hbin Dbe Dxe Dye. set_solver.
  - rewrite ptr_bin. eapply same_holds_ctx; [exact S46| |done]. intros z Hz. clear -Hz Dy Dxc. set_solver.
  - rewrite !ids_bin. rewrite <- H5. solve_Permutation.
  - done.
  - unfold get_col. rewrite HN; [done|]. apply NoDup_cons in H6; tauto.
Qed.
End rotation.
