(* ===== verification/NgxRbtreeBalance.v ===== *)
(** * Balance

    The invariant of red-black trees, for trees and for contexts, the bound on
    the depth it gives, and the order of the nodes. *)

From S2P Require Import Prelude NgxRbtree NgxRbtreeShape.

(** ** Colors *)

(** [rb t n]: no red node has a red child, and every path down has [n] black
    nodes. *)
Fixpoint rb (t : tree) (n : nat) : Prop :=
  match t with
  | E => n = O
  | T Red l _ _ r => color_of l = Black /\ color_of r = Black /\ rb l n /\ rb r n
  | T Black l _ _ r => exists n', n = S n' /\ rb l n' /\ rb r n'
  end.

(** The path begins under a black node. *)
Definition black_top (ctx : list frame) : Prop :=
  match ctx with Frame _ Black _ _ _ :: _ => True | _ => False end.

(** [rb_ctx ctx n]: what is missing is a tree with [n] black nodes on its paths. *)
Fixpoint rb_ctx (ctx : list frame) (n : nat) : Prop :=
  match ctx with
  | [] => True
  | Frame _ Red _ _ b :: ctx => rb b n /\ color_of b = Black /\ black_top ctx /\ rb_ctx ctx n
  | Frame _ Black _ _ b :: ctx => rb b n /\ rb_ctx ctx (S n)
  end.

(** A whole tree: its root is black. *)
Definition rb_root (t : tree) : Prop := color_of t = Black /\ exists n, rb t n.

Lemma rb_bin_red d a x k b n :
  rb (bin d Red a x k b) n <-> color_of a = Black /\ color_of b = Black /\ rb a n /\ rb b n.
Proof. destruct d; cbn; tauto. Qed.

Lemma rb_bin_black d a x k b n : rb (bin d Black a x k b) (S n) <-> rb a n /\ rb b n.
Proof.
  destruct d; cbn; (split; [intros (n' & [= <-] & H); tauto|intros; exists n; tauto]).
Qed.

Lemma color_bin d c a x k b : color_of (bin d c a x k b) = c.
Proof. by destruct d. Qed.

(** A tree in a context is a tree. *)
Lemma rb_plug ctx : forall t n,
  rb t n -> rb_ctx ctx n -> (color_of t = Red -> black_top ctx) -> (ctx = [] -> color_of t = Black) -> rb_root (plug ctx t).
Proof.
  induction ctx as [|[d c x k b] ctx IH]; intros t n Ht Hc Hred Hroot; cbn [plug fill f_side f_col f_node f_key f_sib].
  - split; [by apply Hroot|by exists n].
  - unfold fill. cbn. destruct c; cbn in Hc.
    + destruct Hc as (Hb & Hc). apply (IH _ (S n)); [by apply rb_bin_black|done|by rewrite color_bin|by rewrite color_bin].
    + destruct Hc as (Hb & Hbb & Htop & Hc). assert (color_of t = Black) by (destruct (color_of t); [done|by destruct Hred]).
      apply (IH _ n); [by apply rb_bin_red|done|done|]. intros ->. done.
Qed.

(** And every position of a tree has a tree in a context. *)
Lemma rb_unplug ctx : forall t,
  rb_root (plug ctx t) -> exists n, rb t n /\ rb_ctx ctx n /\ (color_of t = Red -> black_top ctx) /\ (ctx = [] -> color_of t = Black).
Proof.
  induction ctx as [|[d c x k b] ctx IH]; intros t H; cbn [plug] in H.
  - destruct H as [H1 [n H2]]. exists n. split; [done|]. split; [done|]. split; [congruence|done].
  - destruct (IH _ H) as (n & H1 & H2 & H3 & H4). unfold fill in *. cbn in *. rewrite color_bin in *. destruct c.
    + destruct n as [|n]; [by destruct d; cbn in H1; destruct H1 as (? & ? & _)|]. apply rb_bin_black in H1 as [Ha Hb].
      exists n. done.
    + apply rb_bin_red in H1 as (Ha & Hb & Hra & Hrb). exists n. split; [done|].
      destruct ctx as [|f ctx]; [by specialize (H4 eq_refl)|]. split; [|split; [congruence|done]]. tauto.
Qed.

(** ** Depth *)

Fixpoint nodes (t : tree) : nat := match t with E => O | T _ l _ _ r => S (nodes l + nodes r) end.
Fixpoint depth (t : tree) : nat := match t with E => O | T _ l _ _ r => S (Nat.max (depth l) (depth r)) end.

Lemma rb_depth t : forall n, rb t n -> (depth t <= 2 * n + (if is_red_tree t then 1 else 0))%nat.
Proof.
  induction t as [|c l IHl x k r IHr]; intros n H; [cbn; lia|]. destruct c; cbn in *.
  - destruct H as (n' & -> & Hl & Hr). specialize (IHl _ Hl). specialize (IHr _ Hr).
    destruct (is_red_tree l), (is_red_tree r); lia.
  - destruct H as (Cl & Cr & Hl & Hr). specialize (IHl _ Hl). specialize (IHr _ Hr).
    unfold is_red_tree in *. rewrite Cl in IHl. rewrite Cr in IHr. lia.
Qed.

Lemma rb_nodes t : forall n, rb t n -> (2 ^ n <= S (nodes t))%nat.
Proof.
  induction t as [|c l IHl x k r IHr]; intros n H; [cbn in H; subst; done|]. destruct c; cbn in *.
  - destruct H as (n' & -> & Hl & Hr). specialize (IHl _ Hl). specialize (IHr _ Hr). cbn. lia.
  - destruct H as (_ & _ & Hl & Hr). specialize (IHl _ Hl). lia.
Qed.

(** The depth of a balanced tree. *)
Lemma balanced_depth t : rb_root t -> Z.of_nat (depth t) <= 2 * Z.log2 (Z.of_nat (nodes t) + 1).
Proof.
  intros [Hc [n H]]. pose proof (rb_depth t n H) as Hd. pose proof (rb_nodes t n H) as Hn.
  unfold is_red_tree in Hd. rewrite Hc in Hd.
  assert (Z.of_nat n <= Z.log2 (Z.of_nat (nodes t) + 1)); [|lia].
  apply Z.log2_le_pow2; [lia|]. apply inj_le in Hn. rewrite Nat2Z.inj_pow in Hn. lia.
Qed.

(** ** Order *)

Definition in_side_order (d : side) (a : list (Z * Z)) (x : Z * Z) (b : list (Z * Z)) : list (Z * Z) :=
  match d with Left => a ++ x :: b | Right => b ++ x :: a end.

Lemma inorder_bin d c a x k b : inorder (bin d c a x k b) = in_side_order d (inorder a) (x, k) (inorder b).
Proof. by destruct d. Qed.

Lemma inorder_plug ctx : forall t t', inorder t = inorder t' -> inorder (plug ctx t) = inorder (plug ctx t').
Proof.
  induction ctx as [|[d c x k b] ctx IH]; intros t t' H; [done|]. cbn [plug]. apply IH. unfold fill. cbn.
  by rewrite !inorder_bin, H.
Qed.

(** Colors do not matter, and a rotation keeps the order. *)
Lemma inorder_rotated d c a x k c' b y k' e c1 c2 :
  inorder (bin d c a x k (bin d c' b y k' e)) = inorder (bin d c1 (bin d c2 a x k b) y k' e).
Proof. destruct d; cbn; by rewrite <- ?app_assoc. Qed.

Lemma inorder_paint c t : inorder (paint c t) = inorder t.
Proof. by destruct t. Qed.

(** What is before and after a position. *)
Fixpoint before (ctx : list frame) : list (Z * Z) :=
  match ctx with
  | [] => []
  | Frame Left _ _ _ _ :: ctx => before ctx
  | Frame Right _ x k b :: ctx => before ctx ++ inorder b ++ [(x, k)]
  end.

Fixpoint after (ctx : list frame) : list (Z * Z) :=
  match ctx with
  | [] => []
  | Frame Left _ x k b :: ctx => (x, k) :: inorder b ++ after ctx
  | Frame Right _ _ _ _ :: ctx => after ctx
  end.

Lemma inorder_split ctx : forall t, inorder (plug ctx t) = before ctx ++ inorder t ++ after ctx.
Proof.
  induction ctx as [|[[] c x k b] ctx IH]; intros t; cbn [plug before after]; [by rewrite app_nil_r| |];
    rewrite IH; unfold fill; cbn; rewrite <- ?app_assoc; cbn; by rewrite <- ?app_assoc.
Qed.

Lemma ids_inorder t : ids t = map fst (inorder t).
Proof. induction t as [|c l IHl x k r IHr]; [done|]. cbn. by rewrite map_app, IHl, IHr. Qed.

Lemma nodes_inorder t : nodes t = length (inorder t).
Proof. induction t as [|c l IHl x k r IHr]; [done|]. cbn. rewrite length_app. cbn. lia. Qed.
