(* ===== verification/NgxRbtreeInsert.v ===== *)
(** * Insertion into a red-black tree

    The loop that balances after an insertion, at a position of the tree: its
    two cases, and the loop by induction on the path. *)

From stdpp Require Import gmap.
From S2P Require Import Prelude NgxRbtree NgxRbtreeShape NgxRbtreeRotate NgxRbtreeBalance.

Section insertion.
Context (s q : Z) (N : list Z).
Abbreviation at_pos := (at_pos s q N).
Abbreviation ptr_of := (ptr_of s).

(** Reading at and above the position. *)
Lemma get_at tr d c a x k b ctx :
  at_pos tr (bin d c a x k b) ctx ->
  get_parent tr x = Some (parent_of q ctx) /\ get_col tr x = Some c /\
  get_child d tr x = Some (ptr_of a) /\ get_child (other d) tr x = Some (ptr_of b).
Proof.
  intros H. pose proof (at_get s q N _ _ _ _ _ _ _ _ H) as G. unfold get_parent, get_col, get_child. rewrite G. cbn.
  by autorewrite with rb.
Qed.

Lemma get_parent_at tr t f ctx : at_pos tr t (f :: ctx) -> t <> E -> get_parent tr (ptr_of t) = Some f.(f_node).
Proof.
  intros H Ht. destruct t as [|c l x k r]; [done|]. by destruct (get_at tr Left c l x k r _ H) as [G _].
Qed.

Lemma is_red_at tr d c a x k b ctx :
  at_pos tr (bin d c a x k b) ctx -> is_red tr x = Some (match c with Red => true | Black => false end).
Proof. intros H. destruct (get_at _ _ _ _ _ _ _ _ H) as (_ & G & _). unfold is_red. by rewrite G. Qed.

(** On which side of its parent a subtree hangs. *)
Lemma side_of tr t d c p k b ctx d' :
  at_pos tr t (Frame d c p k b :: ctx) -> ptr_of b <> ptr_of t ->
  exists cp, get_child d' tr p = Some cp /\ (ptr_of t =? cp) = bool_decide (d' = d).
Proof.
  intros H Hne. rewrite <- at_move in H. destruct (get_at _ _ _ _ _ _ _ _ H) as (_ & _ & G1 & G2).
  destruct (decide (d' = d)) as [->|Hd].
  - exists (ptr_of t). split; [done|]. by rewrite Z.eqb_refl, bool_decide_true.
  - exists (ptr_of b). replace d' with (other d) by (by destruct d, d'). split; [done|].
    rewrite bool_decide_false by (by destruct d). by apply Z.eqb_neq.
Qed.

(** Nodes of different subtrees are different. *)
Lemma ptr_differs tr t d c p k b ctx : at_pos tr t (Frame d c p k b :: ctx) -> t <> E \/ b <> E -> ptr_of b <> ptr_of t.
Proof.
  intros H Ht. rewrite <- at_move in H. destruct (at_disjoint s q N _ _ _ _ _ _ _ _ H) as (_ & _ & _ & _ & _ & _ & Hab & Hb & _).
  intros Eq. destruct t as [|ct l x kt r].
  - destruct b as [|cb bl y kb br]; [by destruct Ht|]. cbn in Eq. destruct (Hb y) as [_ Hy]; [cbn; set_solver|done].
  - cbn in Eq. destruct (Hab x) as (Hx & _ & Hs); [cbn; set_solver|]. destruct b; cbn in Eq; [congruence|]. subst. apply Hx. cbn. set_solver.
Qed.

Lemma ptr_sentinel tr t ctx : at_pos tr t ctx -> (ptr_of t =? s) = match t with E => true | _ => false end.
Proof.
  intros H. destruct t as [|c l x k r]; cbn; [apply Z.eqb_refl|]. apply Z.eqb_neq.
  by destruct (at_disjoint s q N tr Left c l x k r ctx H).
Qed.

(** A position below the root is not the root. *)
Lemma not_root tr t f ctx : at_pos tr t (f :: ctx) -> (ptr_of t =? tr.(root)) = false.
Proof.
  intros H. apply Z.eqb_neq. rewrite (at_root _ _ _ _ _ _ H). intros Eq.
  pose proof (root_of_in (f :: ctx) (ptr_of t) ltac:(done)) as Hin. rewrite <- Eq in Hin.
  pose proof (at_nodup _ _ _ _ _ _ H) as Hd. rewrite <- (at_ids _ _ _ _ _ _ H) in Hd. apply NoDup_cons in Hd as [Hs [_ [Hd _]]%NoDup_app].
  destruct (ptr_in s t) as [Es|Ht]; [rewrite Es in Hin; set_solver|]. by apply (Hd _ Ht).
Qed.

(** Painting the root black. *)
Lemma blacken_root tr t ctx : at_pos tr t ctx ->
  exists tr', set_col tr.(root) Black tr = Some tr' /\ at_pos tr' (paint Black (plug ctx t)) [] /\ keeps N tr tr'.
Proof.
  intros H. apply at_plug in H. rewrite (at_root _ _ _ _ _ _ H). apply at_paint; [done|done].
Qed.

Lemma paint_black t : color_of t = Black -> paint Black t = t.
Proof. destruct t; cbn; [done|]. by intros ->. Qed.

(** A red child under a black parent: the loop ends. *)
Lemma fixup_black fuel tr t d x k b ctx n :
  at_pos tr t (Frame d Black x k b :: ctx) -> t <> E -> rb t n -> rb_ctx (Frame d Black x k b :: ctx) n ->
  exists tr', insert_fixup (S fuel) (ptr_of t) tr = Some tr' /\ at_pos tr' (plug (Frame d Black x k b :: ctx) t) [] /\
    rb_root (plug (Frame d Black x k b :: ctx) t) /\ keeps N tr tr'.
Proof.
  intros H Ht Hrb Hctx. cbn [insert_fixup]. rewrite (not_root _ _ _ _ H), (get_parent_at _ _ _ _ H Ht). cbn [mbind option_bind f_node].
  rewrite (is_red_at tr d Black t x k b ctx) by (by apply at_move). cbn [mbind option_bind].
  destruct (blacken_root _ _ _ H) as (tr' & Eq & Hpos & Hs). exists tr'. split; [done|].
  assert (Hroot : rb_root (plug (Frame d Black x k b :: ctx) t)) by (by apply (rb_plug _ t n)).
  rewrite paint_black in Hpos by apply Hroot. done.
Qed.

Lemma at_sibling tr a d c x k b ctx :
  at_pos tr a (Frame d c x k b :: ctx) <-> at_pos tr b (Frame (other d) c x k a :: ctx).
Proof. rewrite <- !at_move. by rewrite bin_other. Qed.

(** A red uncle: the colors move up by two. *)
Lemma side_red_uncle tr t d p kp b d2 g kg u ctx :
  at_pos tr t (Frame d Red p kp b :: Frame d2 Black g kg u :: ctx) -> color_of u = Red ->
  exists tr', insert_side d2 (ptr_of t) p g tr = Some (g, tr') /\
    at_pos tr' (bin d2 Red (bin d Black t p kp b) g kg (paint Black u)) ctx /\ keeps N tr tr'.
Proof.
  intros H Hu. apply at_up in H. unfold insert_side.
  destruct (get_at tr d2 Black (bin d Red t p kp b) g kg u ctx) as (_ & _ & _ & G); [by apply at_move|].
  rewrite G. cbn [mbind option_bind].
  rewrite (at_is_red s q N tr u (Frame (other d2) Black g kg (bin d Red t p kp b) :: ctx)) by exact (proj1 (at_sibling _ _ _ _ _ _ _ _) H).
  unfold is_red_tree. rewrite Hu. cbn [mbind option_bind].
  destruct (at_set_col s q N tr d Red Black t p kp b _ H) as (t1 & -> & H1 & S1). cbn [mbind option_bind].
  apply at_sibling in H1. destruct (at_paint s q N t1 u Black _ H1) as (t2 & -> & H2 & S2); [done|]. cbn [mbind option_bind].
  apply at_sibling in H2. rewrite ?other_other in H2. apply at_up in H2.
  destruct (at_set_col s q N t2 d2 Black Red _ g kg _ ctx H2) as (t3 & -> & H3 & S3). cbn [mbind option_bind].
  exists t3. split; [done|]. split; [done|]. keeps.
Qed.

(** The rotation of the grandparent. *)
Lemma turn_ok tr t d p kp b g kg u ctx :
  at_pos tr t (Frame d Red p kp b :: Frame d Black g kg u :: ctx) -> t <> E ->
  exists tr', insert_turn d (ptr_of t) tr = Some (ptr_of t, tr') /\
    at_pos tr' t (Frame d Black p kp (bin (other d) Red u g kg b) :: ctx) /\ keeps N tr tr'.
Proof.
  intros H Ht. unfold insert_turn. rewrite (get_parent_at _ _ _ _ H Ht). cbn [mbind option_bind f_node].
  apply at_up in H. destruct (at_set_col s q N tr d Red Black t p kp b _ H) as (t1 & -> & H1 & S1). cbn [mbind option_bind].
  assert (H1' := H1). apply at_down in H1'. rewrite (get_parent_at _ _ _ _ H1' Ht). cbn [mbind option_bind f_node].
  destruct (get_at _ _ _ _ _ _ _ _ H1) as (G1 & _). rewrite G1. cbn [mbind option_bind parent_of f_node].
  apply at_up in H1. destruct (at_set_col s q N t1 d Black Red _ g kg u ctx H1) as (t2 & -> & H2 & S2). cbn [mbind option_bind].
  apply at_down in H2. assert (H2' := H2). apply at_down in H2'. rewrite (get_parent_at _ _ _ _ H2' Ht). cbn [mbind option_bind f_node].
  destruct (get_at _ _ _ _ _ _ _ _ H2) as (G2 & _). rewrite G2. cbn [mbind option_bind parent_of f_node].
  apply at_up in H2. rewrite <- (bin_other d Red), <- (bin_other d Black) in H2.
  destruct (at_rotate s q N t2 (other d) Red u g kg Black b p kp t ctx H2) as (t3 & -> & H3 & S3). cbn [mbind option_bind].
  exists t3. split; [done|]. rewrite bin_other in H3. apply at_down in H3. split; [done|]. keeps.
Qed.

(** A black uncle: one or two rotations, and the parent is black. *)
Lemma side_black_uncle tr l x k r d p kp b d2 g kg u ctx n :
  let t := T Red l x k r in
  at_pos tr t (Frame d Red p kp b :: Frame d2 Black g kg u :: ctx) ->
  rb t n -> rb b n -> rb u n -> color_of b = Black -> color_of u = Black ->
  exists tr' t' p' kp' b', insert_side d2 x p g tr = Some (ptr_of t', tr') /\ t' <> E /\ keeps N tr tr' /\
    at_pos tr' t' (Frame d2 Black p' kp' b' :: ctx) /\ rb t' n /\ rb b' n /\
    inorder (bin d2 Black t' p' kp' b') = inorder (bin d2 Black (bin d Red t p kp b) g kg u).
Proof.
  intros t H Ht Hb Hu Cb Cu. assert (H' := H). apply at_up in H'. unfold insert_side.
  destruct (get_at tr d2 Black (bin d Red t p kp b) g kg u ctx) as (_ & _ & _ & G); [by apply at_move|].
  rewrite G. cbn [mbind option_bind].
  rewrite (at_is_red s q N tr u (Frame (other d2) Black g kg (bin d Red t p kp b) :: ctx)) by exact (proj1 (at_sibling _ _ _ _ _ _ _ _) H').
  unfold is_red_tree. rewrite Cu. cbn [mbind option_bind].
  destruct (side_of tr t d Red p kp b _ (other d2) H) as (cp & G' & Ecp); [apply (ptr_differs _ _ _ _ _ _ _ _ H); by left|].
  rewrite G'. cbn [mbind option_bind]. change (ptr_of t) with x in Ecp. rewrite Ecp.
  destruct (decide (other d2 = d)) as [Ed|Ed].
  - rewrite bool_decide_true by done. assert (d2 = other d) as -> by (by destruct d, d2).
    rewrite other_other in *. rewrite <- bin_other in H'.
    destruct (at_rotate s q N tr (other d) Red b p kp Red (match d with Left => r | Right => l end) x k
      (match d with Left => l | Right => r end) (Frame (other d) Black g kg u :: ctx)) as (t1 & E1 & H1 & S1); [by destruct d|].
    rewrite E1. cbn [mbind option_bind]. apply at_down in H1.
    destruct (turn_ok _ _ _ _ _ _ _ _ _ _ H1) as (t2 & E2 & H2 & S2); [apply bin_not_empty|]. rewrite ptr_bin in E2. rewrite E2.
    do 5 eexists. split; [by rewrite ptr_bin|]. split; [apply bin_not_empty|]. split; [keeps|]. split; [exact H2|].
    cbn in Ht. destruct Ht as (Cl & Cr & Hl & Hr).
    split; [destruct d; by apply rb_bin_red|]. split; [destruct d; by apply rb_bin_red|].
    destruct d; cbn; rewrite <- ?app_assoc; cbn; by rewrite <- ?app_assoc.
  - rewrite bool_decide_false by done. assert (d2 = d) as -> by (by destruct d, d2).
    destruct (turn_ok _ _ _ _ _ _ _ _ _ _ H) as (t2 & E2 & H2 & S2); [done|]. change (ptr_of t) with x in E2. rewrite E2.
    exists t2, t, p, kp, (bin (other d) Red u g kg b). split; [done|]. split; [done|]. split; [keeps|]. split; [exact H2|]. split; [done|].
    split; [by apply rb_bin_red|]. destruct d; cbn; rewrite <- ?app_assoc; cbn; by rewrite <- ?app_assoc.
Qed.

(** The whole loop. *)
Lemma fixup_ok fuel : forall tr l x k r ctx n,
  let t := T Red l x k r in
  at_pos tr t ctx -> rb t n -> rb_ctx ctx n -> (length ctx < fuel)%nat ->
  exists tr' t', insert_fixup fuel x tr = Some tr' /\ at_pos tr' t' [] /\ inorder t' = inorder (plug ctx t) /\
    rb_root t' /\ keeps N tr tr'.
Proof.
  induction fuel as [|fuel IH]; intros tr l x k r ctx n t H Ht Hc Hf; [lia|].
  destruct ctx as [|[d [] p kp b] ctx].
  - cbn [insert_fixup]. rewrite (at_root _ _ _ _ _ _ H). cbn [root_of ptr_of t]. rewrite Z.eqb_refl.
    destruct (blacken_root _ _ _ H) as (tr' & Eq & Hpos & Hs). rewrite (at_root _ _ _ _ _ _ H) in Eq. cbn in Eq. rewrite Eq.
    exists tr', (paint Black t). split; [done|]. split; [done|]. split; [done|]. split; [|done].
    split; [done|]. destruct Ht as (_ & _ & Hl & Hr). exists (S n). cbn. by exists n.
  - destruct (fixup_black fuel tr t d p kp b ctx n H) as (tr' & Eq & Hpos & Hroot & Hs); [done..|].
    exists tr', (plug (Frame d Black p kp b :: ctx) t). done.
  - destruct Hc as (Hb & Cb & Htop & Hc). destruct ctx as [|[d2 [] g kg u] ctx]; [done| |done].
    destruct Hc as (Hu & Hc). cbn [insert_fixup]. change x with (ptr_of t). rewrite (not_root _ _ _ _ H).
    rewrite (get_parent_at _ _ _ _ H) by done. cbn [mbind option_bind f_node]. assert (H' := H). apply at_up in H'.
    rewrite (is_red_at _ _ _ _ _ _ _ _ H'). cbn [mbind option_bind].
    destruct (get_at _ _ _ _ _ _ _ _ H') as (G & _). rewrite G. cbn [mbind option_bind parent_of f_node].
    destruct (side_of tr (bin d Red t p kp b) d2 Black g kg u ctx Left H') as (cp & G' & Ecp).
    { apply (ptr_differs _ _ _ _ _ _ _ _ H'). left. by destruct d. }
    rewrite G'. cbn [mbind option_bind]. rewrite ptr_bin in Ecp. rewrite Ecp.
    replace (if bool_decide (Left = d2) then Left else Right) with d2 by (destruct d2; cbn; by case_bool_decide).
    destruct (color_of u) eqn:Cu.
    + destruct (side_black_uncle tr l x k r d p kp b d2 g kg u ctx n H) as (t1 & t' & p' & kp' & b' & E1 & Hne & S1 & H1 & R1 & R2 & Hin);
        [done..|]. change (ptr_of t) with x. rewrite E1. cbn [mbind option_bind]. destruct fuel as [|fuel]; [cbn in Hf; lia|].
      destruct (fixup_black fuel t1 t' d2 p' kp' b' ctx n H1) as (tr' & Eq & Hpos & Hroot & Hs); [done..|]. rewrite Eq.
      eexists _, _. split; [done|]. split; [exact Hpos|]. split; [|split; [done|keeps]].
      cbn [plug]. apply inorder_plug. exact Hin.
    + destruct (side_red_uncle tr t d p kp b d2 g kg u ctx H Cu) as (t1 & E1 & H1 & S1). rewrite E1. cbn [mbind option_bind].
      assert (H1' : at_pos t1 (T Red (match d2 with Left => bin d Black t p kp b | Right => paint Black u end) g kg
        (match d2 with Left => paint Black u | Right => bin d Black t p kp b end)) ctx) by (by destruct d2).
      destruct u as [|[] ul ux uk ur]; try done. destruct Hu as (_ & _ & Hul & Hur).
      destruct (IH _ _ _ _ _ ctx (S n) H1') as (tr' & t' & Eq & Hpos & Hin & Hroot & Hs); [|done|cbn in Hf; lia|].
      { assert (rb (bin d Black t p kp b) (S n)) by (by apply rb_bin_black). assert (rb (T Black ul ux uk ur) (S n)) by (cbn; by exists n).
        destruct d2; cbn [rb paint]; rewrite ?color_bin; done. }
      rewrite Eq. exists tr', t'. split; [done|]. split; [done|]. split; [|split; [done|keeps]].
      rewrite Hin. cbn [plug]. apply inorder_plug. unfold fill. cbn. by destruct d2, d.
Qed.
(** ** The new node *)

Lemma link_leaf_same tr node n p c :
  tr.(sentinel) = s -> get tr node = Some n ->
  exists tr', link_leaf node p c tr = Some tr' /\
    get tr' node = Some (RbNode n.(key) s s p c) /\ tr'.(root) = tr.(root) /\ same_but [node] tr tr'.
Proof.
  intros Hs G. unfold link_leaf. destruct (set_parent_same tr node p n G) as (t1 & -> & G1 & R1 & S1). cbn [mbind option_bind].
  destruct (set_child_same t1 Left node (sentinel t1) _ G1) as (t2 & -> & G2 & R2 & S2). cbn [mbind option_bind].
  destruct (set_child_same t2 Right node (sentinel t2) _ G2) as (t3 & -> & G3 & R3 & S3). cbn [mbind option_bind].
  destruct (set_col_same t3 node c _ G3) as (t4 & -> & G4 & R4 & S4). exists t4. split; [done|].
  assert (E1 := proj1 S1). assert (E2 := proj1 S2). unfold with_col, with_child, with_parent in G4. cbn in G4. split; [rewrite G4; congruence|]. split; [congruence|].
  destruct (same_trans _ _ _ _ _ S1 (same_trans _ _ _ _ _ S2 (same_trans _ _ _ _ _ S3 S4))) as [E4 H4].
  split; [done|]. intros z Hz. apply H4. set_solver.
Qed.

(** It is linked below an end of the tree. *)
Lemma at_leaf tr d c p k b ctx node n :
  at_pos tr E (Frame d c p k b :: ctx) -> get tr node = Some n -> (node ∉ s :: N) ->
  exists tr', (t ← set_child d p node tr; link_leaf node p Red t) = Some tr' /\
    NgxRbtreeShape.at_pos s q (node :: N) tr' (T Red E node n.(key) E) (Frame d c p k b :: ctx) /\ keeps (node :: N) tr tr'.
Proof.
  intros H G Hn. destruct (at_disjoint s q N _ _ _ _ _ _ _ _ (at_up _ _ _ _ _ _ _ _ _ _ _ H)) as (_ & _ & Dpb & Dpc & _).
  destruct H as [H1 H2 H3 H4 H5 H6 H7]. set (f := Frame d c p k b) in *.
  assert (Hf : forall z, z ∈ ids_ctx (f :: ctx) -> z ∈ N) by (intros z; by rewrite <- H5).
  destruct (relink s q tr d c p k b ctx s node H4 Dpb Dpc) as (t1 & E1 & Hc1 & R1 & S1). rewrite E1. cbn [mbind option_bind].
  assert (Hp : p ∈ N) by (apply Hf; by left).
  assert (G1 : get t1 node = Some n) by (eapply same_get; [exact S1|set_solver|done]).
  destruct (link_leaf_same t1 node n p Red) as (t2 & E2 & G2 & R2 & S2); [by rewrite (proj1 S1)|done|]. rewrite E2.
  exists t2. split; [done|]. assert (S12 := same_trans _ _ _ _ _ S1 S2).
  assert (HN : keeps (node :: N) tr t2) by (intros z Hz; apply S12; set_solver). split; [|done]. constructor.
  - by rewrite (proj1 S12).
  - rewrite R2, R1, H2. done.
  - done.
  - eapply same_holds_ctx; [exact S2| |done]. set_solver.
  - cbn. by rewrite <- H5.
  - apply NoDup_cons in H6 as [H6 H6']. constructor; [set_solver|]. constructor; [set_solver|done].
  - unfold get_col. rewrite HN; [done|]. apply NoDup_cons in H6 as [H6 _]. set_solver.
Qed.

(** ** Where it goes *)

(** The path was chosen by comparing the key [k]. *)
Definition chosen (lt : Z -> Z -> bool) (k : Z) (ctx : list frame) : Prop :=
  Forall (fun f => lt k f.(f_key) = bool_decide (f.(f_side) = Left)) ctx.

Lemma below_ok fuel : forall lt tr t ctx node n,
  at_pos tr t ctx -> t <> E -> get tr node = Some n -> (node ∉ s :: N) -> (nodes t <= fuel)%nat -> chosen lt n.(key) ctx ->
  exists tr' ctx', insert_below fuel lt (ptr_of t) node tr = Some tr' /\
    NgxRbtreeShape.at_pos s q (node :: N) tr' (T Red E node n.(key) E) ctx' /\ ctx' <> [] /\
    plug ctx' E = plug ctx t /\ chosen lt n.(key) ctx' /\ keeps (node :: N) tr tr'.
Proof.
  induction fuel as [|fuel IH]; intros lt tr t ctx node n H Ht G Hn Hf Hc; (destruct t as [|c l x k r]; [done|]); cbn in Hf; [lia|].
  cbn [insert_below ptr_of NgxRbtreeShape.ptr_of]. rewrite G. cbn [mbind option_bind].
  set (d := if lt (key n) k then Left else Right).
  set (a := match d with Left => l | Right => r end). set (b := match d with Left => r | Right => l end).
  assert (Hbin : T c l x k r = bin d c a x k b) by (unfold a, b; by destruct d).
  rewrite Hbin in H. rewrite (at_get s q N _ _ _ _ _ _ _ _ H). cbn [mbind option_bind].
  replace (key (node_of d c k (ptr_of a) (ptr_of b) (parent_of q ctx))) with k by (by destruct d). fold d. rewrite child_near.
  apply at_down in H. assert (Hc' : chosen lt (key n) (Frame d c x k b :: ctx)).
  { constructor; [|done]. cbn. unfold d. destruct (lt (key n) k); by case_bool_decide. }
  rewrite (at_sentinel _ _ _ _ _ _ H), (ptr_sentinel _ _ _ H). destruct a as [|ca al ax ak ar] eqn:Ea.
  - destruct (at_leaf _ _ _ _ _ _ _ _ _ H G Hn) as (tr' & E' & H' & K').
    exists tr', (Frame d c x k b :: ctx). rewrite E'.
    split; [done|]. split; [done|]. split; [done|]. split; [|done]. cbn [plug]. by rewrite Hbin.
  - rewrite <- Ea in *. assert (Hne : a <> E) by congruence.
    destruct (IH lt tr a (Frame d c x k b :: ctx) node n) as (tr' & ctx' & E' & H' & H1 & H2 & H3); try done.
    { unfold a. destruct d; lia. }
    exists tr', ctx'. split; [done|]. split; [done|]. split; [done|]. split; [|done]. rewrite H2. cbn [plug]. by rewrite Hbin.
Qed.
End insertion.
