(* ===== verification/NgxRbtreeSpec.v ===== *)
(** * What the red-black trees promise

    The contract of the trees, with no pointers in it: a tree is a list of nodes
    with their keys, and an insertion puts a node behind those that are not
    greater. *)

From stdpp Require Import gmap sorting.
From S2P Require Import Prelude NgxRbtree NgxRbtreeShape NgxRbtreeRotate NgxRbtreeBalance NgxRbtreeInsert.

(** ** Sizes *)

Section sizes.
Context (s q : Z) (N : list Z).
Abbreviation at_pos := (at_pos s q N).

Lemma holds_dom m t p : holds s m t p -> Forall (fun x => is_Some (m !! x)) (ids t).
Proof.
  revert p. induction t as [|c l IHl x k r IHr]; intros p; cbn; [constructor|]. intros (H1 & H2 & H3).
  apply Forall_app. split; [by eapply IHl|]. constructor; [by eexists|]. by eapply IHr.
Qed.

Lemma nodes_ids t : nodes t = length (ids t).
Proof. by rewrite nodes_inorder, ids_inorder, length_map. Qed.

Lemma length_ctx ctx : (length ctx <= length (ids_ctx ctx))%nat.
Proof. induction ctx as [|f ctx IH]; cbn; [lia|]. rewrite length_app. lia. Qed.

(** The nodes of the tree and the sentinel are in memory. *)
Lemma at_whole tr t ctx : at_pos tr t ctx -> Forall (fun x => is_Some (tr.(mem) !! x)) (s :: N).
Proof.
  intros H. assert (H' := H). apply at_plug in H'. constructor.
  - pose proof (at_black _ _ _ _ _ _ H) as Hb. unfold get_col, get in Hb. by destruct (mem tr !! s).
  - rewrite <- (at_ids _ _ _ _ _ _ H'). cbn. rewrite app_nil_r. eapply holds_dom. by apply at_tree in H'.
Qed.

Lemma at_sizes tr t ctx : at_pos tr t ctx -> (length N < size tr.(mem))%nat.
Proof.
  intros H. pose proof (at_whole _ _ _ H) as HF. pose proof (at_nodup _ _ _ _ _ _ H) as Hd.
  rewrite <- size_dom. change (S (length N) <= size (dom (mem tr)))%nat.
  change (S (length N)) with (length (s :: N)). rewrite <- (size_list_to_set (C := gset Z) (s :: N)) by done.
  apply subseteq_size. intros z Hz%elem_of_list_to_set. apply elem_of_dom. rewrite Forall_forall in HF. by apply HF.
Qed.

Lemma at_size tr t ctx : at_pos tr t ctx -> (nodes t + length ctx < size tr.(mem))%nat.
Proof.
  intros H. assert (Hs := at_sizes _ _ _ H). pose proof (Permutation_length (at_ids _ _ _ _ _ _ H)) as HL.
  rewrite length_app, <- nodes_ids in HL. pose proof (length_ctx ctx). lia.
Qed.
End sizes.

(** ** Keys in order *)

(** The comparison [lt] is that of a rank, on the keys in [P]. *)
Class KeyOrder (lt : Z -> Z -> bool) (P : Z -> Prop) (rank : Z -> Z) : Prop :=
  key_order : forall a b, P a -> P b -> lt a b = (rank a <? rank b).

#[export] Instance key_lt_order : KeyOrder key_lt (fun _ => True) id.
Proof. done. Qed.

(** Times compare within half the range of the counter after any time [t0]. *)
Definition near_time (t0 k : Z) : Prop := (k - t0) mod 2 ^ 64 < 2 ^ 63.

#[export] Instance timer_lt_order t0 : KeyOrder timer_lt (near_time t0) (fun k => (k - t0) mod 2 ^ 64).
Proof.
  intros a b Ha Hb. unfold timer_lt, near_time in *. cbv beta.
  pose proof (Z.mod_pos_bound (a - t0) (2 ^ 64)). pose proof (Z.mod_pos_bound (b - t0) (2 ^ 64)).
  rewrite (s64_congr (a - b) ((a - t0) mod 2 ^ 64 - (b - t0) mod 2 ^ 64)).
  2: { rewrite <- Zminus_mod. f_equal. lia. }
  rewrite s64_small by lia. lia.
Qed.

(** [ranked rank l]: the keys are in order, equal ones included. *)
Definition ranked (rank : Z -> Z) : list (Z * Z) -> Prop := StronglySorted (fun e f => rank e.2 <= rank f.2).

(** An element goes behind all that are not greater. *)
Fixpoint list_insert (lt : Z -> Z -> bool) (e : Z * Z) (l : list (Z * Z)) : list (Z * Z) :=
  match l with
  | [] => [e]
  | f :: l' => if lt e.2 f.2 then e :: l else f :: list_insert lt e l'
  end.

Lemma list_insert_split lt e l1 l2 :
  (forall f, f ∈ l1 -> lt e.2 f.2 = false) -> (forall f, f ∈ l2 -> lt e.2 f.2 = true) ->
  list_insert lt e (l1 ++ l2) = l1 ++ e :: l2.
Proof.
  intros H1 H2. induction l1 as [|f l1 IH]; cbn.
  - destruct l2 as [|f l2]; [done|]. cbn. by rewrite H2 by set_solver.
  - rewrite H1, IH by set_solver. done.
Qed.

Lemma list_insert_elem lt e l f : f ∈ list_insert lt e l <-> f = e \/ f ∈ l.
Proof. induction l as [|g l IH]; cbn; [set_solver|]. case_match; set_solver. Qed.

Section order.
Context {lt : Z -> Z -> bool} {P : Z -> Prop} {rank : Z -> Z} `{Hlt : !KeyOrder lt P rank}.

(** The order is kept. *)
Lemma list_insert_ranked e l :
  ranked rank l -> P e.2 -> Forall (fun f => P f.2) l -> ranked rank (list_insert lt e l).
Proof.
  intros Hs He. induction Hs as [|f l Hs IH HF]; intros HP; [repeat constructor|]. apply Forall_cons in HP as [Hf HP].
  cbn. rewrite (key_order e.2 f.2) by done. specialize (IH HP). destruct (Z.ltb_spec (rank e.2) (rank f.2)).
  - constructor; [by constructor|]. constructor; [lia|]. rewrite Forall_forall in HF |- *. intros g Hg. specialize (HF g Hg). lia.
  - constructor; [done|]. rewrite Forall_forall in HF |- *. intros g [->|Hg]%list_insert_elem; [lia|]. by apply HF.
Qed.

(** A path chosen by a key has the greater keys after it. *)
Lemma chosen_split k ctx : forall t,
  ranked rank (inorder (plug ctx t)) -> Forall (fun f => P f.2) (inorder (plug ctx t)) -> P k -> chosen lt k ctx ->
  (forall f, f ∈ before ctx -> lt k f.2 = false) /\ (forall f, f ∈ after ctx -> lt k f.2 = true).
Proof.
  induction ctx as [|[d c x kx b] ctx IH]; intros t Hs HP Hk Hc; [set_solver|]. cbn [plug] in *.
  apply Forall_cons in Hc as [Hx Hc]. destruct (IH _ Hs HP Hk Hc) as [IH1 IH2]. rewrite inorder_split in Hs, HP.
  unfold fill in Hs, HP. cbn in *. rewrite inorder_bin in Hs, HP. apply Forall_app in HP as [_ [HP _]%Forall_app].
  apply StronglySorted_app_1_r, StronglySorted_app_1_l in Hs.
  destruct d; cbn in *; apply Forall_app in HP as [HP1 HP2]; apply Forall_cons in HP2 as [Px HP2]; rewrite Forall_forall in HP1, HP2.
  - split; [done|]. intros f [->|[Hf|Hf]%elem_of_app]%elem_of_cons; [done| |by apply IH2].
    apply StronglySorted_app_1_r in Hs. apply StronglySorted_inv in Hs as [_ Hs]. rewrite Forall_forall in Hs. specialize (Hs f Hf). cbn in Hs.
    specialize (HP2 f Hf). rewrite (key_order k kx) in Hx by done. rewrite (key_order k f.2), Z.ltb_lt by done. apply Z.ltb_lt in Hx. lia.
  - split; [|done]. intros f [Hf|[Hf| ->%list_elem_of_singleton]%elem_of_app]%elem_of_app; [by apply IH1| |done].
    pose proof (StronglySorted_app_1_elem_of _ _ _ f (x, kx) Hs Hf ltac:(by left)) as Hle. cbn in Hle.
    specialize (HP1 f Hf). rewrite (key_order k kx) in Hx by done. rewrite (key_order k f.2), Z.ltb_ge by done. apply Z.ltb_ge in Hx. lia.
Qed.
End order.

(** ** The tree as a list *)

(** The tree of the linked nodes is balanced and lists as [l]. *)
Definition rb_list (tr : rbtree) (l : list (Z * Z)) : Prop :=
  exists q t, at_pos tr.(sentinel) q (ids t) tr t [] /\ rb_root t /\ inorder t = l.

Lemma at_perm s q N N' tr t ctx : N ≡ₚ N' -> at_pos s q N tr t ctx -> at_pos s q N' tr t ctx.
Proof. intros HN []. constructor; try done; by rewrite <- HN. Qed.

(** A balanced tree at a position is one as a list. *)
Lemma rb_list_intro s q N tr t : at_pos s q N tr t [] -> rb_root t -> rb_list tr (inorder t).
Proof.
  intros H Hr. exists q, t. split; [|done]. rewrite (at_sentinel _ _ _ _ _ _ H).
  eapply at_perm; [|exact H]. rewrite <- (at_ids _ _ _ _ _ _ H). cbn. by rewrite app_nil_r.
Qed.

(** ** Insertion *)

Section insertion.
Context {lt : Z -> Z -> bool} {P : Z -> Prop} {rank : Z -> Z} `{Hlt : !KeyOrder lt P rank}.

(** The first node. *)
Lemma insert_first tr q node n :
  at_pos tr.(sentinel) q [] tr E [] -> get tr node = Some n -> node <> tr.(sentinel) ->
  exists tr', ngx_rbtree_insert lt node tr = Some tr' /\ rb_list tr' [(node, n.(key))] /\ sentinel tr' = sentinel tr /\ keeps [node] tr tr'.
Proof.
  intros H G Hn. unfold ngx_rbtree_insert. rewrite (at_root _ _ _ _ _ _ H). cbn [root_of ptr_of]. rewrite Z.eqb_refl.
  destruct (link_leaf_same tr.(sentinel) tr node n NULL Black eq_refl G) as (t1 & -> & G1 & R1 & [Es S1]). cbn [mbind option_bind].
  eexists. split; [done|]. split; [|split; [done|exact S1]].
  apply (rb_list_intro (sentinel tr) NULL [node] _ (T Black E node (key n) E)); [|split; [done|by exists 1%nat, O]].
  constructor; try done; [repeat constructor; set_solver|]. unfold get_col. change (get (set_root node t1)) with (get t1).
  rewrite S1 by set_solver. exact (at_black _ _ _ _ _ _ H).
Qed.

Lemma insert_more tr q t node n :
  at_pos tr.(sentinel) q (ids t) tr t [] -> rb_root t -> t <> E -> ranked rank (inorder t) -> Forall (fun e => P e.2) (inorder t) -> P n.(key) ->
  get tr node = Some n -> (node ∉ tr.(sentinel) :: ids t) ->
  exists tr', ngx_rbtree_insert lt node tr = Some tr' /\ rb_list tr' (list_insert lt (node, n.(key)) (inorder t)) /\
    sentinel tr' = sentinel tr /\ keeps (node :: ids t) tr tr'.
Proof.
  intros H Hr Ht Hs HP Hk G Hn. unfold ngx_rbtree_insert. rewrite (at_root _ _ _ _ _ _ H). cbn [root_of].
  rewrite (ptr_sentinel _ _ _ _ _ _ H). destruct t as [|c l x k r] eqn:Et; [done|]. rewrite <- Et in *.
  destruct (below_ok (sentinel tr) q (ids t) (tree_fuel tr) lt tr t [] node n H Ht G Hn) as (t1 & ctx & E1 & H1 & Hne & Hp & Hc & K1).
  { pose proof (at_size _ _ _ _ _ _ H). unfold tree_fuel. cbn in *. lia. } { constructor. }
  rewrite E1. cbn [mbind option_bind]. cbn [plug] in Hp. rewrite <- Hp in Hr.
  destruct (rb_unplug _ _ Hr) as (m & Hm & Hctx & _). cbn in Hm. subst m.
  destruct (fixup_ok (sentinel tr) q (node :: ids t) (tree_fuel t1) t1 E node (key n) E ctx O H1) as (t2 & t' & E2 & H2 & Hin & Hr2 & K2);
    [done|done| |].
  { pose proof (at_size _ _ _ _ _ _ H1). unfold tree_fuel. lia. }
  exists t2. split; [done|]. assert (Ei : inorder t' = list_insert lt (node, key n) (inorder t)).
  { rewrite Hin, <- Hp in *. rewrite !inorder_split. cbn. destruct (chosen_split (key n) ctx E Hs HP Hk Hc) as [Hb Ha].
    symmetry. by apply list_insert_split. }
  rewrite <- Ei. split; [by eapply rb_list_intro|]. rewrite (at_sentinel _ _ _ _ _ _ H2). split; [done|]. keeps.
Qed.

(** The refinement: on linked nodes, the code does what [list_insert] does. *)
Lemma insert_refines tr l node n :
  rb_list tr l -> ranked rank l -> Forall (fun e => P e.2) l -> P n.(key) -> get tr node = Some n -> (node ∉ tr.(sentinel) :: map fst l) ->
  exists tr', ngx_rbtree_insert lt node tr = Some tr' /\ rb_list tr' (list_insert lt (node, n.(key)) l) /\
    sentinel tr' = sentinel tr /\ keeps (node :: map fst l) tr tr'.
Proof.
  intros (q & t & H & Hr & <-) Hs HP Hk G Hn. rewrite <- ids_inorder in *. destruct (decide (t = E)) as [->|Ht].
  - apply (insert_first tr q node n H G). set_solver.
  - by apply (insert_more tr q t node n).
Qed.
End insertion.
