(* ===== verification/NgxRbtreeDelete.v ===== *)
(** * Removal from a red-black tree: balancing

    The loop that balances after a black node was taken out, at a position whose
    paths lack one black node: its cases, and the loop by induction on the path. *)

From stdpp Require Import gmap.
From S2P Require Import Prelude NgxRbtree NgxRbtreeShape NgxRbtreeRotate NgxRbtreeBalance NgxRbtreeInsert.

Section fixup.
Context (s q : Z) (N : list Z).
Abbreviation at_pos := (at_pos s q N).
Abbreviation ptr_of := (ptr_of s).

(** The parent of the position can be read, at the sentinel too. *)
Definition linked tr t ctx : Prop := get_parent tr (ptr_of t) = Some (parent_of q ctx).

Lemma linked_node tr t ctx : at_pos tr t ctx -> t <> E -> linked tr t ctx.
Proof.
  intros H Ht. destruct t as [|c l x k r]; [done|]. by destruct (get_at _ _ _ tr Left c l x k r ctx H) as [G _].
Qed.

(** It stays when the paths begin alike. *)
Lemma linked_keeps tr tr' t ctx ctx' :
  linked tr t ctx -> at_pos tr' t ctx' -> keeps N tr tr' -> parent_of q ctx' = parent_of q ctx -> linked tr' t ctx'.
Proof.
  intros HL H HK Hp. destruct (decide (t = E)) as [->|Ht]; [|by apply linked_node].
  unfold linked in *. rewrite Hp, <- HL. unfold get_parent. change (ptr_of E) with s. rewrite HK; [done|].
  by pose proof (at_nodup _ _ _ _ _ _ H) as [? _]%NoDup_cons.
Qed.

Lemma sibling_at tr t d c p k w ctx : at_pos tr t (Frame d c p k w :: ctx) -> get_child (other d) tr p = Some (ptr_of w).
Proof. intros H%at_up. by destruct (get_at _ _ _ _ _ _ _ _ _ _ _ H) as (_ & _ & _ & ?). Qed.

(** A red sibling: a rotation gives a black one. *)
Lemma red_sibling_ok tr t d p k a w kw b ctx :
  at_pos tr t (Frame d Black p k (bin d Red a w kw b) :: ctx) -> linked tr t (Frame d Black p k (bin d Red a w kw b) :: ctx) ->
  exists tr', delete_red_sibling d (ptr_of t) w p tr = Some (ptr_of a, tr') /\
    at_pos tr' t (Frame d Red p k a :: Frame d Black w kw b :: ctx) /\ keeps N tr tr'.
Proof.
  intros H HL. unfold delete_red_sibling. apply at_sibling in H.
  destruct (at_set_col s q N tr d Red Black a w kw b _ H) as (t1 & -> & H1 & K1). cbn [mbind option_bind].
  apply at_sibling in H1. rewrite ?other_other in H1. apply at_up in H1.
  destruct (at_set_col s q N t1 d Black Red t p k _ ctx H1) as (t2 & -> & H2 & K2). cbn [mbind option_bind].
  destruct (at_rotate s q N t2 d Red t p k Black a w kw b ctx H2) as (t3 & -> & H3 & K3). cbn [mbind option_bind].
  do 2 apply at_down in H3. assert (K : keeps N tr t3) by keeps.
  assert (HL3 : linked t3 t (Frame d Red p k a :: Frame d Black w kw b :: ctx)) by (eapply linked_keeps; [exact HL|done..]).
  unfold linked in HL3. rewrite HL3. cbn [mbind option_bind parent_of f_node]. rewrite (sibling_at _ _ _ _ _ _ _ _ H3).
  exists t3. done.
Qed.

Lemma both_black_ok tr d c a w kw b ctx : at_pos tr (bin d c a w kw b) ctx ->
  both_black tr w = Some (negb (is_red_tree a) && negb (is_red_tree b)).
Proof.
  intros H. assert (forall l r, bin d c a w kw b = T c l w kw r ->
    both_black tr w = Some (negb (is_red_tree l) && negb (is_red_tree r))) as Hlr.
  { intros l r Eq. rewrite Eq in H. change (T c l w kw r) with (bin Left c l w kw r) in H.
    destruct (get_at _ _ _ _ _ _ _ _ _ _ _ H) as (_ & _ & G1 & G2). unfold both_black. cbn [other] in G2. rewrite G1. cbn [mbind option_bind].
    assert (Hl := at_down _ _ _ _ _ _ _ _ _ _ _ H). rewrite (at_is_red s q N _ _ _ Hl). cbn [mbind option_bind].
    destruct (is_red_tree l); [done|]. rewrite G2. cbn [mbind option_bind]. apply at_sibling in Hl.
    by rewrite (at_is_red s q N _ _ _ Hl). }
  destruct d; [by apply Hlr|]. rewrite (Hlr b a eq_refl). by rewrite andb_comm.
Qed.
(** The position keeps its parent. *)
Lemma parent_kept tr tr' t f ctx f' ctx' :
  linked tr t (f :: ctx) -> at_pos tr' t (f' :: ctx') -> keeps N tr tr' -> f_node f' = f_node f ->
  get_parent tr' (ptr_of t) = Some (f_node f).
Proof. intros HL H HK Hf. rewrite <- Hf. by apply (linked_keeps tr tr' t (f :: ctx) (f' :: ctx')). Qed.

(** The sibling's near child is red: a rotation puts the red one on the far side. *)
Lemma near_red_ok tr t d c p k a1 x kx a2 w kw b ctx :
  at_pos tr t (Frame d c p k (bin d Black (bin d Red a1 x kx a2) w kw b) :: ctx) ->
  linked tr t (Frame d c p k (bin d Black (bin d Red a1 x kx a2) w kw b) :: ctx) ->
  exists tr', delete_near_red d (ptr_of t) w tr = Some (x, tr') /\
    at_pos tr' t (Frame d c p k (bin d Black a1 x kx (bin d Red a2 w kw b)) :: ctx) /\ keeps N tr tr'.
Proof.
  intros H HL. unfold delete_near_red. apply at_sibling in H.
  destruct (get_at _ _ _ _ _ _ _ _ _ _ _ H) as (_ & _ & G & _). rewrite G, ptr_bin. cbn [mbind option_bind]. apply at_down in H.
  destruct (at_set_col s q N tr d Red Black a1 x kx a2 _ H) as (t1 & -> & H1 & K1). cbn [mbind option_bind]. apply at_up in H1.
  destruct (at_set_col s q N t1 d Black Red _ w kw b _ H1) as (t2 & -> & H2 & K2). cbn [mbind option_bind].
  rewrite <- (bin_other d Red), <- (bin_other d Black) in H2.
  destruct (at_rotate s q N t2 (other d) Red b w kw Black a2 x kx a1 _ H2) as (t3 & -> & H3 & K3). cbn [mbind option_bind].
  rewrite !bin_other in H3. apply at_sibling in H3. rewrite ?other_other in H3.
  rewrite (parent_kept _ _ _ _ _ _ _ HL H3) by (done || keeps). cbn [mbind option_bind f_node].
  rewrite (sibling_at _ _ _ _ _ _ _ _ H3), ptr_bin. exists t3. split; [done|]. split; [done|]. keeps.
Qed.

(** The sibling's far child is red: the last rotation. *)
Lemma last_turn_ok tr t d c p k a w kw b ctx :
  at_pos tr t (Frame d c p k (bin d Black a w kw b) :: ctx) -> linked tr t (Frame d c p k (bin d Black a w kw b) :: ctx) ->
  exists tr', delete_turn d (ptr_of t) w tr = Some (root tr', tr') /\
    at_pos tr' (bin d c (bin d Black t p k a) w kw (paint Black b)) ctx /\ keeps N tr tr'.
Proof.
  intros H HL. unfold delete_turn. unfold linked in HL. rewrite HL. cbn [mbind option_bind parent_of f_node].
  assert (Hp := at_up _ _ _ _ _ _ _ _ _ _ _ H). destruct (get_at _ _ _ _ _ _ _ _ _ _ _ Hp) as (_ & G & _). rewrite G. cbn [mbind option_bind].
  apply at_sibling in H. destruct (at_set_col s q N tr d Black c a w kw b _ H) as (t1 & -> & H1 & K1). cbn [mbind option_bind].
  apply at_sibling in H1. rewrite ?other_other in H1. rewrite (parent_kept tr t1 t _ _ _ _ HL H1 K1 eq_refl). cbn [mbind option_bind f_node].
  apply at_up in H1. destruct (at_set_col s q N t1 d c Black t p k _ ctx H1) as (t2 & -> & H2 & K2). cbn [mbind option_bind].
  apply at_down, at_sibling in H2. destruct (get_at _ _ _ _ _ _ _ _ _ _ _ H2) as (_ & _ & _ & G2). rewrite G2. cbn [mbind option_bind].
  apply at_down, at_sibling in H2. destruct (at_paint s q N t2 b Black _ H2) as (t3 & -> & H3 & K3); [done|]. cbn [mbind option_bind].
  apply at_sibling in H3. rewrite ?other_other in H3. apply at_up, at_sibling in H3. rewrite ?other_other in H3.
  rewrite (parent_kept tr t3 t _ _ _ _ HL H3) by (done || keeps). cbn [mbind option_bind f_node]. apply at_up in H3.
  destruct (at_rotate s q N t3 d Black t p k c a w kw (paint Black b) ctx H3) as (t4 & -> & H4 & K4). cbn [mbind option_bind].
  exists t4. split; [done|]. split; [done|]. keeps.
Qed.
(** The paths through [t] have [n] black nodes, or [S n] once it is painted
    black; the context wants [S n]. *)
Definition lacking t n : Prop := match color_of t with Red => rb (paint Black t) (S n) | Black => rb t n end.

Definition height c n : nat := match c with Black => S n | Red => n end.

Lemma rb_bin d c a x k b n :
  rb a n -> rb b n -> (c = Red -> color_of a = Black /\ color_of b = Black) -> rb (bin d c a x k b) (height c n).
Proof. destruct c; cbn; intros; [by apply rb_bin_black|]. apply rb_bin_red. tauto. Qed.

Lemma is_red_color t : is_red_tree t = true <-> color_of t = Red.
Proof. unfold is_red_tree. by destruct (color_of t). Qed.

Lemma is_black_color t : is_red_tree t = false <-> color_of t = Black.
Proof. unfold is_red_tree. by destruct (color_of t). Qed.

Lemma red_bin d t n : color_of t = Red -> rb t n ->
  exists a x k b, t = bin d Red a x k b /\ color_of a = Black /\ color_of b = Black /\ rb a n /\ rb b n.
Proof.
  destruct t as [|[] l x k r]; try done. intros _ (? & ? & ? & ?).
  destruct d; [by exists l, x, k, r|by exists r, x, k, l].
Qed.

Lemma black_bin d t n : color_of t = Black -> rb t (S n) -> exists a x k b, t = bin d Black a x k b /\ rb a n /\ rb b n.
Proof.
  destruct t as [|[] l x k r]; try done. intros _ (? & [= <-] & ? & ?).
  destruct d; [by exists l, x, k, r|by exists r, x, k, l].
Qed.

Lemma rb_paint_black t n : color_of t = Red -> rb t n -> rb (paint Black t) (S n).
Proof. destruct t as [|[] l x k r]; try done. intros _ (_ & _ & ? & ?). cbn. by exists n. Qed.

(** What the body of the loop does: [temp] goes up, or the loop ends. *)
Definition turned tr' z t' c n ctx : Prop :=
  color_of t' = c /\
  ((z = ptr_of t' /\ t' <> E /\ exists m, lacking t' m /\ rb_ctx ctx (S m)) \/ (z = root tr' /\ rb t' (height c n))).

(** The last rotation balances. *)
Lemma last_turn_balanced tr t d c p k a w kw b ctx n :
  at_pos tr t (Frame d c p k (bin d Black a w kw b) :: ctx) -> linked tr t (Frame d c p k (bin d Black a w kw b) :: ctx) ->
  rb t n -> rb a n -> color_of b = Red -> rb b n ->
  exists z tr' t', delete_turn d (ptr_of t) w tr = Some (z, tr') /\ at_pos tr' t' ctx /\ keeps N tr tr' /\
    inorder t' = inorder (bin d c t p k (bin d Black a w kw b)) /\ turned tr' z t' c (S n) ctx.
Proof.
  intros H HL Ht Ha Cb Hb. destruct (last_turn_ok _ _ _ _ _ _ _ _ _ _ _ H HL) as (tr' & E1 & H1 & K1).
  do 3 eexists. split; [exact E1|]. split; [exact H1|]. split; [done|]. split.
  - rewrite (inorder_rotated d c t p k Black a w kw b c Black), !inorder_bin. by rewrite inorder_paint.
  - split; [apply color_bin|]. right. split; [done|]. apply rb_bin; [by apply rb_bin_black|by apply rb_paint_black|].
    intros _. rewrite color_bin. by destruct b.
Qed.

Lemma black_sibling_ok tr t d c p k a w kw b ctx n :
  at_pos tr t (Frame d c p k (bin d Black a w kw b) :: ctx) -> linked tr t (Frame d c p k (bin d Black a w kw b) :: ctx) ->
  color_of t = Black -> rb t n -> rb a n -> rb b n -> rb_ctx ctx (height c (S n)) ->
  exists z tr' t', delete_black_sibling d (ptr_of t) w tr = Some (z, tr') /\ at_pos tr' t' ctx /\ keeps N tr tr' /\
    inorder t' = inorder (bin d c t p k (bin d Black a w kw b)) /\ turned tr' z t' c (S n) ctx.
Proof.
  intros H HL Ct Ht Ha Hb Hc. unfold delete_black_sibling. assert (Hw := H). apply at_sibling in Hw.
  rewrite (both_black_ok _ _ _ _ _ _ _ _ Hw). cbn [mbind option_bind].
  destruct (is_red_tree b) eqn:Cb; [|destruct (is_red_tree a) eqn:Ca]; rewrite ?andb_false_r; cbn [negb andb].
  - destruct (get_at _ _ _ _ _ _ _ _ _ _ _ Hw) as (_ & _ & _ & G). rewrite G. cbn [mbind option_bind].
    apply at_down, at_sibling in Hw. rewrite (at_is_red s q N _ _ _ Hw), Cb. cbn [mbind option_bind].
    apply is_red_color in Cb. by apply last_turn_balanced.
  - destruct (get_at _ _ _ _ _ _ _ _ _ _ _ Hw) as (_ & _ & _ & G). rewrite G. cbn [mbind option_bind].
    apply at_down, at_sibling in Hw. rewrite (at_is_red s q N _ _ _ Hw), Cb. cbn [mbind option_bind]. clear Hw G.
    apply is_red_color in Ca. apply is_black_color in Cb. destruct (red_bin d a n Ca Ha) as (a1 & x & kx & a2 & -> & C1 & C2 & R1 & R2).
    destruct (near_red_ok _ _ _ _ _ _ _ _ _ _ _ _ _ _ H HL) as (t1 & E1 & H1 & K1). rewrite E1. cbn [mbind option_bind].
    destruct (last_turn_balanced t1 t d c p k a1 x kx (bin d Red a2 w kw b) ctx n H1) as (z & tr' & t' & E2 & H2 & K2 & Hi & Ht');
      [by eapply linked_keeps|done|done|apply color_bin|by apply rb_bin_red|].
    exists z, tr', t'. split; [done|]. split; [done|]. split; [keeps|]. split; [|done].
    rewrite Hi. destruct d; cbn; rewrite <- ?app_assoc; cbn; by rewrite <- ?app_assoc.
  - destruct (at_set_col s q N tr d Black Red a w kw b _ Hw) as (t1 & -> & H1 & K1). cbn [mbind option_bind].
    apply at_sibling in H1. rewrite ?other_other in H1. rewrite (parent_kept tr t1 t _ _ _ _ HL H1 K1 eq_refl). cbn [mbind option_bind f_node].
    apply at_up in H1. do 3 eexists. split; [done|]. split; [exact H1|]. split; [done|]. split; [by rewrite !inorder_bin|].
    split; [apply color_bin|]. left. rewrite ptr_bin. split; [done|]. split; [apply bin_not_empty|]. apply is_black_color in Ca, Cb.
    assert (Hw' : rb (bin d Red a w kw b) n) by (by apply rb_bin_red). unfold lacking. destruct c; cbn in Hc.
    + exists (S n). rewrite color_bin. split; [by apply rb_bin_black|done].
    + exists n. rewrite color_bin. split; [|done].
      replace (paint Black (bin d Red t p k _)) with (bin d Black t p k (bin d Red a w kw b)) by (by destruct d). by apply rb_bin_black.
Qed.
(** One turn of the loop, from the position [t] to [t']. *)
Definition stepped tr' z t' ctx' (m0 : nat) : Prop :=
  (z = ptr_of t' /\ t' <> E /\ (exists m, lacking t' m /\ rb_ctx ctx' (S m)) /\ (color_of t' = Black -> (length ctx' <= m0)%nat)) \/
  (z = root tr' /\ rb_root (plug ctx' t')).

Lemma turned_stepped tr' z t' c n ctx' :
  turned tr' z t' c n ctx' -> rb_ctx ctx' (height c n) -> (c = Red -> black_top ctx') -> stepped tr' z t' ctx' (length ctx').
Proof.
  intros [Hc [(-> & Ht & Hm)|(-> & Hr)]] Hctx Htop; [left; done|right]. split; [done|].
  apply (rb_plug _ _ (height c n)); try done; rewrite Hc; [done|].
  intros ->. by destruct c; [|destruct (Htop eq_refl)].
Qed.

Lemma side_ok tr t d c p k w ctx n :
  at_pos tr t (Frame d c p k w :: ctx) -> linked tr t (Frame d c p k w :: ctx) ->
  color_of t = Black -> rb t n -> rb_ctx (Frame d c p k w :: ctx) (S n) ->
  exists z tr' t' ctx', delete_side d (ptr_of t) p tr = Some (z, tr') /\ at_pos tr' t' ctx' /\ keeps N tr tr' /\
    inorder (plug ctx' t') = inorder (plug (Frame d c p k w :: ctx) t) /\ stepped tr' z t' ctx' (length ctx).
Proof.
  intros H HL Ct Ht Hc. unfold delete_side. rewrite (sibling_at _ _ _ _ _ _ _ _ H). cbn [mbind option_bind].
  assert (Hw := H). apply at_sibling in Hw. rewrite (at_is_red s q N _ _ _ Hw). cbn [mbind option_bind]. clear Hw.
  assert (Rw : rb w (S n)) by (destruct c; apply Hc).
  assert (Hh : rb_ctx ctx (height c (S n)) /\ (c = Red -> black_top ctx)) by (destruct c; cbn in *; naive_solver).
  destruct (is_red_tree w) eqn:Cw.
  - apply is_red_color in Cw. destruct (red_bin d w _ Cw Rw) as (a & x & kx & b & -> & Ca & Cb & Ra & Rb).
    destruct c; [|destruct Hc as (_ & Hb & _); congruence]. destruct Hh as [Hh _]. cbn in Hh. rewrite ptr_bin.
    destruct (red_sibling_ok _ _ _ _ _ _ _ _ _ _ H HL) as (t1 & E1 & H1 & K1). rewrite E1. cbn [mbind option_bind].
    assert (HL1 : linked t1 t (Frame d Red p k a :: Frame d Black x kx b :: ctx)) by (by eapply linked_keeps).
    destruct (black_bin d a n Ca Ra) as (a1 & y & ky & a2 & -> & R1 & R2). rewrite ptr_bin.
    destruct (black_sibling_ok t1 t d Red p k a1 y ky a2 (Frame d Black x kx b :: ctx) n) as (z & tr' & t' & E2 & H2 & K2 & Hi & [Cr Hs]); try done.
    exists z, tr', t', (Frame d Black x kx b :: ctx). split; [done|]. split; [done|]. split; [keeps|]. split.
    + cbn [plug]. apply inorder_plug. unfold fill. cbn. rewrite inorder_bin, Hi, <- inorder_bin with (c := Black). symmetry. apply inorder_rotated.
    + destruct Hs as [(-> & Hne & Hm)|(-> & Hr)]; [left; rewrite Cr; done|right]. split; [done|].
      apply (rb_plug _ _ (S n)); try done.
  - apply is_black_color in Cw. destruct (black_bin d w n Cw Rw) as (a & x & kx & b & -> & Ra & Rb). rewrite ptr_bin.
    destruct (black_sibling_ok tr t d c p k a x kx b ctx n) as (z & tr' & t' & E2 & H2 & K2 & Hi & Hs); try done; [apply Hh|].
    exists z, tr', t', ctx. split; [done|]. split; [done|]. split; [done|]. split; [|by eapply turned_stepped; [exact Hs|apply Hh..]].
    cbn [plug]. by apply inorder_plug.
Qed.

(** The whole loop. *)
Lemma delete_fixup_ok fuel : forall tr t ctx n,
  at_pos tr t ctx -> linked tr t ctx -> lacking t n -> rb_ctx ctx (S n) -> (0 < fuel)%nat -> (color_of t = Black -> length ctx < fuel)%nat ->
  exists tr' t', delete_fixup fuel (ptr_of t) tr = Some tr' /\ at_pos tr' t' [] /\ inorder t' = inorder (plug ctx t) /\
    rb_root t' /\ keeps N tr tr'.
Proof.
  induction fuel as [|fuel IH]; intros tr t ctx n H HL Ht Hc Hf0 Hf; [lia|]. cbn [delete_fixup].
  destruct (color_of t) eqn:Ct; unfold lacking in Ht; rewrite Ct in Ht.
  2: { destruct (at_paint s q N tr t Black ctx H) as (tr' & E1 & H1 & K1); [done|].
       exists tr', (plug ctx (paint Black t)). split; [|split; [exact (proj1 (at_plug _ _ _ _ _ _) H1)|]].
       - rewrite (at_is_red s q N _ _ _ H). cbn [mbind option_bind]. unfold is_red_tree. rewrite Ct. by case_match.
       - split; [apply inorder_plug, inorder_paint|]. split; [|done].
         apply (rb_plug _ _ (S n)); try done; by destruct t. }
  destruct ctx as [|[d c p k w] ctx].
  - rewrite (at_root _ _ _ _ _ _ H). cbn [root_of]. rewrite Z.eqb_refl.
    destruct (at_paint s q N tr t Black [] H) as (tr' & E1 & H1 & K1); [done|]. rewrite paint_black in H1 by done.
    exists tr', t. split; [done|]. split; [done|]. split; [done|]. split; [|done]. split; [done|by exists n].
  - rewrite (not_root _ _ _ _ _ _ _ H), (at_is_red s q N _ _ _ H). cbn [mbind option_bind]. unfold is_red_tree. rewrite Ct.
    unfold linked in HL. rewrite HL. cbn [mbind option_bind parent_of f_node].
    destruct (side_of s q N tr t d c p k w ctx Left H) as (cp & G & Ecp).
    { apply (ptr_differs _ _ _ _ _ _ _ _ _ _ _ H). right. intros ->. destruct c; by destruct Hc as (? & _). }
    rewrite G. cbn [mbind option_bind]. rewrite Ecp.
    replace (if bool_decide (Left = d) then Left else Right) with d by (destruct d; cbn; by case_bool_decide).
    destruct (side_ok tr t d c p k w ctx n H HL Ct Ht Hc) as (z & t1 & t' & ctx' & E1 & H1 & K1 & Hi & Hs). rewrite E1. cbn [mbind option_bind].
    cbn [length] in Hf. specialize (Hf eq_refl). destruct Hs as [(-> & Hne & (m & Hm & Hcm) & Hlen)|(-> & Hr)].
    + destruct (IH t1 t' ctx' m H1) as (tr' & t2 & E2 & H2 & Hi2 & Hr2 & K2); [by apply linked_node|done|done|lia| |].
      { intros C'. specialize (Hlen C'). lia. }
      exists tr', t2. split; [done|]. split; [done|]. split; [congruence|]. split; [done|keeps].
    + destruct fuel as [|fuel]; [lia|]. cbn [delete_fixup]. rewrite Z.eqb_refl.
      destruct (blacken_root _ _ _ _ _ _ H1) as (t2 & E2 & H2 & K2). rewrite paint_black in H2 by apply Hr.
      exists t2, (plug ctx' t'). split; [done|]. split; [done|]. split; [done|]. split; [done|keeps].
Qed.
End fixup.
