(* ===== verification/NgxRbtreeRemove.v ===== *)
(** * Removal from a red-black tree: the links

    A node with at most one child is unlinked; a node with two children has its
    place taken by the least node after it.  Then the tree is balanced. *)

From stdpp Require Import gmap sorting.
From S2P Require Import Prelude NgxRbtree NgxRbtreeShape NgxRbtreeRotate NgxRbtreeBalance NgxRbtreeInsert NgxRbtreeSpec NgxRbtreeDelete.

(** ** Paths in two parts *)

Lemma parent_of_app q path ctx : parent_of q (path ++ ctx) = parent_of (parent_of q ctx) path.
Proof. by destruct path. Qed.

Lemma root_of_app path ctx hole : root_of (path ++ ctx) hole = root_of ctx (root_of path hole).
Proof. revert hole. induction path as [|f path IH]; intros hole; [done|]. apply IH. Qed.

Lemma ids_ctx_app path ctx : ids_ctx (path ++ ctx) = ids_ctx path ++ ids_ctx ctx.
Proof. induction path as [|f path IH]; [done|]. cbn. by rewrite IH, app_assoc. Qed.

Lemma plug_app path ctx t : plug (path ++ ctx) t = plug ctx (plug path t).
Proof. revert t. induction path as [|f path IH]; intros t; [done|]. apply IH. Qed.

Lemma ids_plug ctx : forall t, ids (plug ctx t) ≡ₚ ids t ++ ids_ctx ctx.
Proof.
  induction ctx as [|[d c x k b] ctx IH]; intros t; cbn [plug ids_ctx]; [by rewrite app_nil_r|].
  rewrite IH. unfold fill. cbn. rewrite ids_bin. solve_Permutation.
Qed.

Section parts.
Context (s : Z).
Abbreviation ptr_of := (ptr_of s).

Lemma holds_ctx_app m q path ctx : forall hole,
  holds_ctx s m q (path ++ ctx) hole <-> holds_ctx s m (parent_of q ctx) path hole /\ holds_ctx s m q ctx (root_of path hole).
Proof.
  induction path as [|[d c x k b] path IH]; intros hole; cbn; [tauto|]. rewrite IH, parent_of_app. tauto.
Qed.

Lemma ptr_plug ctx : forall t, ptr_of (plug ctx t) = root_of ctx (ptr_of t).
Proof.
  induction ctx as [|[d c x k b] ctx IH]; intros t; [done|]. cbn [plug root_of]. rewrite IH. unfold fill. cbn. by rewrite ptr_bin.
Qed.

Lemma holds_plug m p ctx : forall t, holds s m (plug ctx t) p <-> holds s m t (parent_of p ctx) /\ holds_ctx s m p ctx (ptr_of t).
Proof.
  induction ctx as [|[d c x k b] ctx IH]; intros t; cbn [plug]; [cbn; tauto|].
  rewrite IH. unfold fill. cbn. rewrite holds_bin, ptr_bin. tauto.
Qed.

Lemma at_app q N tr path ctx t : at_pos s q N tr t (path ++ ctx) <-> at_pos s q N tr (plug path t) ctx.
Proof. rewrite at_plug, plug_app, <- at_plug. done. Qed.
End parts.

(** ** The least node *)

Section least.
Context (s q : Z) (N : list Z).
Abbreviation at_pos := (at_pos s q N).
Abbreviation ptr_of := (ptr_of s).

Lemma depth_nodes t : (depth t <= nodes t)%nat.
Proof. induction t; cbn; lia. Qed.

Lemma min_ok fuel : forall tr t ctx,
  at_pos tr t ctx -> t <> E -> (depth t <= fuel)%nat ->
  exists path c y k b, rbtree_min fuel (ptr_of t) tr = Some y /\ t = plug path (T c E y k b) /\ before path = [].
Proof.
  induction fuel as [|fuel IH]; intros tr t ctx H Ht Hf; (destruct t as [|c l x k r]; [done|]); cbn in Hf; [lia|].
  cbn [rbtree_min NgxRbtreeShape.ptr_of]. change (T c l x k r) with (bin Left c l x k r) in H.
  destruct (get_at _ _ _ _ _ _ _ _ _ _ _ H) as (_ & _ & G & _). rewrite G. cbn [mbind option_bind].
  apply at_down in H. rewrite (at_sentinel _ _ _ _ _ _ H), (ptr_sentinel _ _ _ _ _ _ H).
  destruct l as [|lc ll lx lk lr] eqn:El; [by exists [], c, x, k, r|]. rewrite <- El in *.
  destruct (IH tr l _ H) as (path & c' & y & ky & b & E1 & Ep & Hb); [congruence|lia|].
  exists (path ++ [Frame Left c x k r]), c', y, ky, b. rewrite E1. split; [done|]. split.
  - by rewrite plug_app, <- Ep.
  - clear -Hb. induction path as [|[[] ? ? ? sib] path IH]; cbn in *; [done|by apply IH|]. by destruct (before path), (inorder sib).
Qed.

(** What the path of a least node lists. *)
Lemma inorder_least path c y k b : before path = [] -> inorder (plug path (T c E y k b)) = (y, k) :: inorder (plug path b).
Proof. intros Hb. rewrite !inorder_split, Hb. done. Qed.
End least.

(** ** Links *)

Section links.
Context (s q : Z).
Abbreviation ptr_of := (ptr_of s).

(** Under the root, [unlink] puts a subtree in the place of a node. *)
Lemma unlink_replace y z tr : y <> tr.(root) -> unlink y z tr = replace_child Left y z tr.
Proof. intros H%Z.eqb_neq. unfold unlink, replace_child. by rewrite H. Qed.

(** The parent of a subtree is set, at the sentinel too. *)
Lemma set_parent_any tr b p0 p :
  holds s (mem tr) b p0 -> NoDup (s :: ids b) -> get_col tr s = Some Black ->
  exists tr', set_parent (ptr_of b) p tr = Some tr' /\ holds s (mem tr') b p /\ get_parent tr' (ptr_of b) = Some p /\
    root tr' = root tr /\ get_col tr' s = Some Black /\ same_but (s :: ids b) tr tr'.
Proof.
  intros Hb [Hs Hd]%NoDup_cons Hc. destruct b as [|c l x k r]; cbn [NgxRbtreeShape.ptr_of].
  - unfold get_col in Hc. destruct (get tr s) as [n|] eqn:G; [|done]. destruct (set_parent_same tr s p n G) as (t1 & E1 & G1 & R1 & S1).
    exists t1. split; [done|]. split; [done|]. unfold get_parent, get_col. by rewrite G1.
  - cbn in Hb. destruct Hb as (Hx & Hl & Hr). destruct (set_parent_same tr x p _ Hx) as (t1 & E1 & G1 & R1 & S1).
    cbn in Hs, Hd. apply NoDup_app in Hd as (_ & Hlr & [Hxr _]%NoDup_cons).
    exists t1. split; [done|]. split; [|split; [by unfold get_parent; rewrite G1|]].
    + split; [exact G1|]. split; (eapply same_holds; [exact S1| |done]); set_solver.
    + split; [done|]. split; [|destruct S1 as [? S1]; split; [done|]; intros z Hz; apply S1; set_solver].
      unfold get_col. rewrite (proj2 S1) by set_solver. exact Hc.
Qed.
Lemma copy_links_ok tr x nx y ny :
  get tr x = Some nx -> get tr y = Some ny -> x <> y ->
  exists tr', copy_links y x tr = Some tr' /\
    get tr' y = Some (RbNode ny.(key) nx.(left) nx.(right) nx.(parent) nx.(col)) /\ root tr' = root tr /\ same_but [y] tr tr'.
Proof.
  intros Gx Gy Hxy. unfold copy_links, get_child, get_parent, get_col. assert (Hx : x ∉ [y]) by set_solver. rewrite Gx. cbn.
  destruct (set_child_same tr Left y (left nx) _ Gy) as (t1 & -> & G1 & R1 & S1). cbn [mbind option_bind].
  rewrite (same_get _ _ _ _ _ S1 Hx Gx). cbn. destruct (set_child_same t1 Right y (right nx) _ G1) as (t2 & -> & G2 & R2 & S2). cbn [mbind option_bind].
  assert (S12 := same_trans _ _ _ _ _ S1 S2). rewrite (same_get _ _ _ x _ S12 ltac:(set_solver) Gx). cbn.
  destruct (set_parent_same t2 y (parent nx) _ G2) as (t3 & -> & G3 & R3 & S3). cbn [mbind option_bind].
  assert (S13 := same_trans _ _ _ _ _ S12 S3). rewrite (same_get _ _ _ x _ S13 ltac:(set_solver) Gx). cbn.
  destruct (set_col_same t3 y (col nx) _ G3) as (t4 & -> & G4 & R4 & S4). assert (S14 := same_trans _ _ _ _ _ S13 S4).
  exists t4. split; [done|]. split; [exact G4|]. split; [congruence|]. destruct S14 as [? S14]. split; [done|]. intros z Hz. apply S14. set_solver.
Qed.

(** [y], which is in no tree, takes the place of [x]. *)
Lemma take_place_ok tr c l r x k y ny pl pr ctx :
  sentinel tr = s -> get_col tr s = Some Black -> root tr = root_of ctx x ->
  get tr x = Some (RbNode k (ptr_of l) (ptr_of r) (parent_of q ctx) c) -> get tr y = Some ny ->
  holds s (mem tr) l pl -> holds s (mem tr) r pr -> holds_ctx s (mem tr) q ctx x ->
  NoDup (s :: x :: y :: ids l ++ ids r ++ ids_ctx ctx) ->
  let N := y :: ids l ++ ids r ++ ids_ctx ctx in
  exists tr', take_place y x tr = Some tr' /\ at_pos s q N tr' (T c l y ny.(key) r) ctx /\ keeps N tr tr'.
Proof.
  intros Hs Hblack Hroot Gx Gy Hl Hr Hctx [D1 [D2 [D3 (D4 & D5 & (D6 & D7 & D8)%NoDup_app)%NoDup_app]%NoDup_cons]%NoDup_cons]%NoDup_cons N.
  unfold take_place. destruct (copy_links_ok tr x _ y _ Gx Gy) as (t1 & -> & G1 & R1 & S1); [clear -D2; set_solver|]. cbn [mbind option_bind]. cbn in G1.
  destruct (replace_hole s q t1 Left ctx x y) as (t2 & E2 & R2 & Hc2 & S2).
  { congruence. } { eapply same_holds_ctx; [exact S1| |done]. clear -D3. set_solver. }
  { constructor; [clear -D2; set_solver|done]. } { clear -D1. set_solver. }
  { unfold get_parent. rewrite (same_get _ _ _ x _ S1 ltac:(clear -D2; set_solver) Gx). done. }
  rewrite E2. cbn [mbind option_bind]. assert (S12 := same_trans _ _ _ _ _ S1 S2).
  assert (G2 := same_get _ _ _ y _ S2 ltac:(clear -D3; set_solver) G1). replace (get_child Left t2 y) with (Some (ptr_of l)) by (unfold get_child; by rewrite G2). cbn [mbind option_bind].
  destruct (reparent s t2 l pl y) as (t3 & E3 & Hl3 & R3 & S3); [by rewrite (proj1 S12)| |done|clear -D1; set_solver|].
  { eapply same_holds; [exact S12| |done]. clear -D3 D5. set_solver. }
  rewrite E3. cbn [mbind option_bind]. assert (G3 := same_get _ _ _ y _ S3 ltac:(clear -D3; set_solver) G2).
  assert (S13 := same_trans _ _ _ _ _ S12 S3). replace (get_child Right t3 y) with (Some (ptr_of r)) by (unfold get_child; by rewrite G3). cbn [mbind option_bind].
  destruct (reparent s t3 r pr y) as (t4 & E4 & Hr4 & R4 & S4); [by rewrite (proj1 S13)| |done|clear -D1; set_solver|].
  { eapply same_holds; [exact S13| |done]. clear -D3 D5 D7. set_solver. }
  assert (S24 := same_trans _ _ _ _ _ S3 S4). assert (S14 := same_trans _ _ _ _ _ S13 S4).
  assert (HN : keeps N tr t4) by (intros z Hz; apply S14; clear -Hz; subst N; set_solver).
  exists t4. split; [done|]. split; [|done]. constructor.
  - by rewrite (proj1 S14).
  - cbn. congruence.
  - split; [exact (same_get _ _ _ y _ S4 ltac:(clear -D3; set_solver) G3)|]. split; [|exact Hr4].
    eapply same_holds; [exact S4| |done]. clear -D5. set_solver.
  - cbn. eapply same_holds_ctx; [exact S24| |done]. clear -D5 D7. set_solver.
  - cbn. subst N. solve_Permutation.
  - constructor; [clear -D1; subst N; set_solver|]. subst N. constructor; [clear -D3; set_solver|].
    apply NoDup_app. split; [done|]. split; [done|]. apply NoDup_app. done.
  - unfold get_col. rewrite HN; [done|]. clear -D1. subst N. set_solver.
Qed.
End links.

(** ** The cases of a removal *)

(** Nothing outside the tree is part of it. *)
Lemma at_same s q N tr tr' t ctx l : at_pos s q N tr t ctx -> same_but l tr tr' -> (forall z, z ∈ l -> z ∉ s :: N) -> root tr' = root tr -> at_pos s q N tr' t ctx.
Proof.
  intros [H1 H2 H3 H4 H5 H6 H7] S Hl R. assert (HN : forall z, z ∈ ids t ++ ids_ctx ctx -> z ∉ l) by (intros z; rewrite H5; set_solver). constructor; try done.
  - by rewrite (proj1 S).
  - congruence.
  - eapply same_holds; [exact S| |done]. set_solver.
  - eapply same_holds_ctx; [exact S| |done]. set_solver.
  - unfold get_col. rewrite (proj2 S); [done|]. intros Hs. destruct (Hl s Hs). by left.
Qed.


(** [x] is out of the tree, which now lists as [l]. *)
Definition removed (s : Z) (N : list Z) (tr : rbtree) (x : Z) (l : list (Z * Z)) (tr' : rbtree) : Prop :=
  rb_list tr' l /\ sentinel tr' = s /\ keeps (s :: N) tr tr' /\ exists c, get tr' x = Some (RbNode 0 NULL NULL NULL c).

Section removal.
Context (s q : Z).
Abbreviation ptr_of := (ptr_of s).

Lemma clear_node_same tr x n : get tr x = Some n ->
  exists tr', clear_node x tr = Some tr' /\ get tr' x = Some (RbNode 0 NULL NULL NULL n.(col)) /\ root tr' = root tr /\ same_but [x] tr tr'.
Proof. apply upd_same. Qed.

(** After the links: the loop, if the node taken out was black. *)
Lemma balance_ok N tr d c b x k P n :
  at_pos s q N tr b P -> linked s q tr b P -> P <> [] -> rb (bin d c E x k b) n -> rb_ctx P n ->
  exists tr' t', (if (match c with Red => true | Black => false end : bool) then Some tr else delete_fixup (tree_fuel tr) (ptr_of b) tr) = Some tr' /\
    at_pos s q N tr' t' [] /\ inorder t' = inorder (plug P b) /\ rb_root t' /\ keeps N tr tr'.
Proof.
  intros H HL HP Hb HPn. destruct c.
  - destruct n as [|n]; [by destruct d, Hb as (? & ? & _)|]. apply rb_bin_black in Hb as [_ Hb].
    apply (delete_fixup_ok s q N (tree_fuel tr) tr b P n H HL); [|done|unfold tree_fuel; lia|].
    + unfold lacking. destruct (color_of b) eqn:Cb; [done|]. by apply rb_paint_black.
    + intros _. pose proof (at_size _ _ _ _ _ _ H). unfold tree_fuel. lia.
  - apply rb_bin_red in Hb as (_ & Cb & _ & Hb). exists tr, (plug P b). split; [done|]. split; [exact (proj1 (at_plug _ _ _ _ _ _) H)|].
    split; [done|]. split; [|done]. apply (rb_plug _ _ n); try done. congruence.
Qed.

(** The root, with at most one child. *)
Lemma delete_root_ok N tr d c b x k :
  at_pos s q N tr (bin d c E x k b) [] -> rb_root (bin d c E x k b) ->
  exists tr', delete_subst x (ptr_of b) x tr = Some tr' /\ removed s N tr x (inorder b) tr'.
Proof.
  intros H [Cr [n Hn]]. unfold delete_subst. rewrite (at_root _ _ _ _ _ _ H). cbn [root_of]. rewrite ptr_bin, Z.eqb_refl.
  rewrite color_bin in Cr. subst c. destruct n as [|n]; [by destruct d, Hn as (? & ? & _)|]. apply rb_bin_black in Hn as [_ Hn].
  pose proof (at_get s q N _ _ _ _ _ _ _ _ H) as Gx. pose proof (at_disjoint s q N _ _ _ _ _ _ _ _ H) as (Dx & _ & Dxb & _ & _ & Db & _ & Dbs & _).
  assert (Hb : at_pos s x (ids b) (set_root (ptr_of b) tr) b []).
  { destruct H as [H1 H2 H3 H4 H5 H6 H7]. apply holds_bin in H3 as (_ & _ & H3). constructor; try done; [cbn; by rewrite app_nil_r|].
    constructor; [set_solver|done]. }
  destruct (at_paint s x (ids b) _ b Black [] Hb) as (t1 & -> & H1 & K1); [done|]. cbn [mbind option_bind].
  destruct (clear_node_same t1 x _ (eq_trans (K1 x Dxb) Gx)) as (t2 & -> & G2 & R2 & S2). exists t2. split; [done|].
  assert (H2 : at_pos s x (ids b) t2 (paint Black b) []).
  { apply (at_same s x _ _ _ _ _ _ H1 S2); [|done]. intros z ->%list_elem_of_singleton. set_solver. }
  split; [|split; [exact (at_sentinel _ _ _ _ _ _ H2)|split; [|by eexists]]].
  - rewrite <- (inorder_paint Black). eapply rb_list_intro; [exact H2|]. split; [by destruct b|].
    destruct (color_of b) eqn:Cb; [exists n; by rewrite paint_black|exists (S n); by apply rb_paint_black].
  - intros z Hz. rewrite (proj2 S2), K1; [done| |]; rewrite <- (at_ids _ _ _ _ _ _ H), ids_bin in Hz; set_solver.
Qed.

(** Under the root, with at most one child. *)
Lemma delete_one_ok N tr d c b x k f ctx :
  at_pos s q N tr (bin d c E x k b) (f :: ctx) -> rb_root (plug (f :: ctx) (bin d c E x k b)) ->
  exists tr', delete_subst x (ptr_of b) x tr = Some tr' /\ removed s N tr x (inorder (plug (f :: ctx) b)) tr'.
Proof.
  intros H Hr. destruct (rb_unplug _ _ Hr) as (n & Hn & Hctx & _). unfold delete_subst.
  pose proof (not_root _ _ _ _ _ _ _ H) as Hnr. rewrite ptr_bin in Hnr. rewrite Hnr, (is_red_at _ _ _ _ _ _ _ _ _ _ _ H). cbn [mbind option_bind].
  pose proof (at_get s q N _ _ _ _ _ _ _ _ H) as Gx. pose proof (at_disjoint s q N _ _ _ _ _ _ _ _ H) as (Dx & _ & Dxb & Dxc & _ & Db & _ & Dbs & Dcs & Dc).
  destruct H as [H1 H2 H3 H4 H5 H6 H7]. rewrite ptr_bin in *. apply holds_bin in H3 as (_ & _ & H3). rewrite ids_bin in H5.
  rewrite unlink_replace by (by apply Z.eqb_neq).
  destruct (replace_hole s q tr Left (f :: ctx) x (ptr_of b)) as (t1 & E1 & R1 & Hc1 & S1); try done.
  { by constructor. } { unfold get_parent. rewrite Gx. cbn. by rewrite parent_node. }
  rewrite E1, Z.eqb_refl. cbn [mbind option_bind]. assert (G1 := same_get _ _ _ _ _ S1 Dxc Gx).
  unfold get_parent at 1. rewrite G1. cbn [fmap option_fmap option_map mbind option_bind]. rewrite parent_node.
  assert (Hb1 : holds s (mem t1) b x) by (eapply same_holds; [exact S1| |done]; intros z Hz; by apply Dbs).
  destruct (set_parent_any s t1 b x (parent_of q (f :: ctx)) Hb1) as (t2 & E2 & Hb2 & P2 & R2 & C2 & S2).
  { constructor; [|done]. intros Hs. by destruct (Dbs s Hs). } { unfold get_col. rewrite (proj2 S1); [done|]. intros Hs. by apply (Dcs s). }
  rewrite E2. cbn [mbind option_bind]. assert (Hx2 : x ∉ s :: ids b) by set_solver.
  destruct (clear_node_same t2 x _ (same_get _ _ _ _ _ S2 Hx2 G1)) as (t3 & -> & G3 & R3 & S3). cbn [mbind option_bind].
  assert (Hpos : at_pos s q (ids b ++ ids_ctx (f :: ctx)) t3 b (f :: ctx)).
  { apply (at_same s q _ t2 t3 _ _ [x]); [|exact S3|set_solver|done]. constructor; try done.
    - by rewrite (proj1 S2), (proj1 S1).
    - congruence.
    - eapply same_holds_ctx; [exact S2| |done]. intros z Hz. specialize (Dbs z). specialize (Dcs z). set_solver.
    - constructor; [specialize (Dbs s); specialize (Dcs s); set_solver|]. apply NoDup_app. split; [done|]. split; [|done]. intros z Hz. by apply Dbs. }
  assert (HL : linked s q t3 b (f :: ctx)).
  { unfold linked, get_parent. rewrite (proj2 S3); [exact P2|]. destruct (ptr_in s b) as [->|Hp]; set_solver. }
  destruct (balance_ok _ t3 d c b x k (f :: ctx) n Hpos HL) as (t4 & t' & E4 & H4' & Hi & Hr4 & K4); try done. rewrite E4.
  exists t4. split; [done|]. rewrite <- Hi. split; [by eapply rb_list_intro|]. split; [exact (at_sentinel _ _ _ _ _ _ H4')|]. split.
  - intros z Hz. rewrite <- H5 in Hz. rewrite K4 by set_solver. rewrite (proj2 S3), (proj2 S2), (proj2 S1); set_solver.
  - eexists. rewrite K4 by set_solver. exact G3.
Qed.
(** The path to the least node, through [x], becomes one through [y]. *)
Lemma rb_ctx_rename path d c x k y ky l ctx : forall n, rb_ctx (path ++ Frame d c x k l :: ctx) n -> rb_ctx (path ++ Frame d c y ky l :: ctx) n.
Proof.
  assert (Hb : black_top (path ++ Frame d c x k l :: ctx) -> black_top (path ++ Frame d c y ky l :: ctx)) by (by destruct path).
  induction path as [|[d0 [] x0 k0 b0] path IH]; intros n; [done|..]; cbn.
  - intros [? ?]. split; [done|]. apply IH; [by destruct path|done].
  - intros (? & ? & Ht & ?). split; [done|]. split; [done|]. split; [by destruct path|]. apply IH; [by destruct path|done].
Qed.

(** The least node [y] of the right subtree is unlinked, its child gets its parent. *)
Lemma unlink_least N tr path cs y ky b c l x k ctx :
  let P := path ++ Frame Right c x k l :: ctx in
  at_pos s q N tr (T cs E y ky b) P ->
  exists t2 pr,
    (t ← unlink y (ptr_of b) tr; p ← get_parent t y; set_parent (ptr_of b) (if p =? x then y else p) t) = Some t2 /\
    get_parent t2 (ptr_of b) = Some (parent_of y path) /\ get_col t2 s = Some Black /\ root t2 = root_of ctx x /\
    get t2 x = Some (RbNode k (ptr_of l) (ptr_of (plug path b)) (parent_of q ctx) c) /\
    (exists ny, get t2 y = Some ny /\ key ny = ky) /\
    holds s (mem t2) l x /\ holds s (mem t2) (plug path b) pr /\ holds_ctx s (mem t2) q ctx x /\ same_but (s :: ids b ++ ids_ctx P) tr t2.
Proof.
  intros P H. change (T cs E y ky b) with (bin Left cs E y ky b) in H. pose proof (at_get s q N _ _ _ _ _ _ _ _ H) as Gy.
  destruct (at_disjoint s q N _ _ _ _ _ _ _ _ H) as (Dy & _ & Dyb & Dyc & _ & Db & _ & Dbs & Dcs & Dc).
  assert (Hnr : y <> root tr).
  { destruct P as [|f P'] eqn:EP; [by destruct path|]. pose proof (not_root _ _ _ _ _ _ _ H) as Hnr. rewrite ptr_bin in Hnr. by apply Z.eqb_neq. }
  destruct H as [H1 H2 H3 H4 H5 H6 H7]. rewrite ptr_bin in *. apply holds_bin in H3 as (_ & _ & H3).
  rewrite unlink_replace by done. destruct (replace_hole s q tr Left P y (ptr_of b)) as (t1 & E1 & R1 & Hc1 & S1); try done.
  { by constructor. } { unfold get_parent. by rewrite Gy. }
  rewrite E1. cbn [mbind option_bind]. assert (G1 := same_get _ _ _ _ _ S1 Dyc Gy).
  replace (get_parent t1 y) with (Some (parent_of q P)) by (unfold get_parent; by rewrite G1). cbn [mbind option_bind].
  assert (HP : ids_ctx P = ids_ctx path ++ x :: ids l ++ ids_ctx ctx) by (unfold P; by rewrite ids_ctx_app).
  assert (Dpath : x ∉ ids_ctx path) by (rewrite HP in Dc; apply NoDup_app in Dc as (_ & Dc & _); intros Hx; apply (Dc x Hx); by left).
  replace (if parent_of q P =? x then y else parent_of q P) with (parent_of y path).
  2: { unfold P. rewrite parent_of_app. destruct path as [|f path']; cbn; [by rewrite Z.eqb_refl|].
       rewrite (proj2 (Z.eqb_neq _ _)); [done|]. intros <-. apply Dpath. by left. }
  assert (Hb1 : holds s (mem t1) b y) by (eapply same_holds; [exact S1| |done]; intros z Hz; by apply Dbs).
  destruct (set_parent_any s t1 b y (parent_of y path) Hb1) as (t2 & E2 & Hb2 & P2 & R2 & C2 & S2).
  { constructor; [|done]. intros Hs. by destruct (Dbs s Hs). } { unfold get_col. rewrite (proj2 S1); [done|]. intros Hs. by apply (Dcs s). }
  assert (Hc2 : holds_ctx s (mem t2) q P (ptr_of b)).
  { eapply same_holds_ctx; [exact S2| |done]. intros z Hz. specialize (Dbs z). specialize (Dcs z). set_solver. }
  apply holds_ctx_app in Hc2 as [Hpath (Hx & Hl & Hctx)]. cbn [parent_of f_node] in Hpath.
  exists t2, (match path with [] => y | _ => x end). split; [done|]. split; [done|]. split; [done|]. split; [|split; [|split]].
  - rewrite R2, R1. unfold P. rewrite root_of_app. done.
  - rewrite ptr_plug. exact Hx.
  - eexists. split; [eapply same_get; [exact S2|set_solver|exact G1]|done].
  - split; [done|]. split; [|split; [done|]].
    + apply holds_plug. destruct path; [done|]. split; done.
    + destruct S1 as [A1 A2], S2 as [B1 B2]. split; [congruence|]. intros z Hz. rewrite B2, A2; set_solver.
Qed.

(** A node with two children. *)
Lemma delete_two_ok N tr path cs y ky b c l x k ctx :
  at_pos s q N tr (T c l x k (plug path (T cs E y ky b))) ctx -> rb_root (plug ctx (T c l x k (plug path (T cs E y ky b)))) ->
  exists tr', delete_subst y (ptr_of b) x tr = Some tr' /\ removed s N tr x (inorder (plug ctx (T c l y ky (plug path b)))) tr'.
Proof.
  intros H Hr. change (T c l x k (plug path (T cs E y ky b))) with (bin Right c (plug path (T cs E y ky b)) x k l) in H, Hr.
  change (plug ctx (bin Right c (plug path (T cs E y ky b)) x k l)) with (plug (Frame Right c x k l :: ctx) (plug path (T cs E y ky b))) in Hr.
  apply at_down, at_app in H. rewrite <- plug_app in Hr.
  destruct (unlink_least _ _ _ _ _ _ _ _ _ _ _ _ H) as (t2 & pr & E2 & P2 & C2 & R2 & Gx2 & (ny & Gy2 & <-) & Hl2 & Hr2 & Hc2 & S2).
  destruct (rb_unplug _ _ Hr) as (n & Hn & Hctx & _). set (P := path ++ Frame Right c x k l :: ctx) in *. set (ky := key ny) in *.
  assert (Hnr : (y =? root tr) = false) by (destruct P as [|f P'] eqn:EP; [by destruct path|apply (not_root _ _ _ _ _ _ _ H)]).
  change (T cs E y ky b) with (bin Left cs E y ky b) in H, Hn. unfold delete_subst. rewrite Hnr, (is_red_at _ _ _ _ _ _ _ _ _ _ _ H). cbn [mbind option_bind].
  pose proof (at_ids _ _ _ _ _ _ H) as HN. pose proof (at_nodup _ _ _ _ _ _ H) as Hd. pose proof (at_sentinel _ _ _ _ _ _ H) as Hs.
  rewrite ids_bin in HN. unfold P in HN. rewrite ids_ctx_app in HN. cbn in HN. fold P in HN.
  assert (HN' : x :: y :: ids l ++ ids (plug path b) ++ ids_ctx ctx ≡ₚ N) by (rewrite <- HN, ids_plug; solve_Permutation).
  assert (Hd' := Hd). rewrite <- HN' in Hd'.
  assert (Hxy : (y =? x) = false) by (apply Z.eqb_neq; apply NoDup_cons in Hd' as [_ [Hd' _]%NoDup_cons]; set_solver).
  unfold put_in_place. destruct (unlink y (ptr_of b) tr) as [t1|]; [|done]. cbn [mbind option_bind] in *. rewrite Hxy.
  destruct (get_parent t1 y) as [p|]; [|done]. cbn [mbind option_bind] in *. rewrite E2. cbn [mbind option_bind]. clear E2.
  destruct (take_place_ok s q t2 c l (plug path b) x k y ny x pr ctx) as (t3 & E3 & H3 & K3); try done; [by rewrite (proj1 S2)|].
  rewrite E3. cbn [mbind option_bind]. set (N' := y :: ids l ++ ids (plug path b) ++ ids_ctx ctx) in *. fold ky in H3.
  apply NoDup_cons in Hd' as [Hs' [Hx' _]%NoDup_cons].
  assert (Gx3 : get t3 x = get t2 x) by (by apply K3).
  destruct (clear_node_same t3 x _ (eq_trans Gx3 Gx2)) as (t4 & -> & G4 & R4 & S4). cbn [mbind option_bind].
  assert (H4 : at_pos s q N' t4 (plug path b) (Frame Right c y ky l :: ctx)).
  { apply at_down. apply (at_same s q N' t3 t4 _ _ [x] H3 S4); [|done]. intros z ->%list_elem_of_singleton. set_solver. }
  apply at_app in H4. assert (HL : linked s q t4 b (path ++ Frame Right c y ky l :: ctx)).
  { destruct (decide (b = E)) as [->|Hb]; [|by eapply linked_node]. unfold linked. rewrite parent_of_app. cbn [parent_of f_node]. rewrite <- P2.
    unfold get_parent. change (ptr_of E) with s. rewrite (proj2 S4), K3; [done| |]; set_solver. }
  destruct (balance_ok _ t4 Left cs b y ky _ n H4 HL) as (t5 & t' & E5 & H5 & Hi & Hr5 & K5); [by destruct path|done|by eapply rb_ctx_rename|].
  rewrite E5. exists t5. split; [done|]. rewrite plug_app in Hi. cbn in Hi. split; [|split; [exact (at_sentinel _ _ _ _ _ _ H5)|split]].
  - rewrite <- Hi. by eapply rb_list_intro.
  - intros z Hz. rewrite K5, (proj2 S4), K3; [|rewrite <- HN' in Hz; set_solver..].
    apply (proj2 S2). rewrite <- HN in Hz. unfold P. rewrite ids_ctx_app. cbn. set_solver.
  - eexists. rewrite K5 by done. exact G4.
Qed.
End removal.

(** ** The contract *)

(** Every node of a tree is at a position. *)
Lemma find_position t : forall x, x ∈ ids t -> exists ctx c l k r, plug ctx (T c l x k r) = t.
Proof.
  induction t as [|c l IHl y k r IHr]; intros x; cbn; [set_solver|]. intros [Hl|[->|Hr]%elem_of_cons]%elem_of_app.
  - destruct (IHl x Hl) as (ctx & c' & l' & k' & r' & Eq). exists (ctx ++ [Frame Left c y k r]), c', l', k', r'. by rewrite plug_app, Eq.
  - by exists [], c, l, k, r.
  - destruct (IHr x Hr) as (ctx & c' & l' & k' & r' & Eq). exists (ctx ++ [Frame Right c y k l]), c', l', k', r'. by rewrite plug_app, Eq.
Qed.

(** The list without the node. *)
Definition list_delete (x : Z) (l : list (Z * Z)) : list (Z * Z) := filter (fun e => e.1 <> x) l.

Lemma list_delete_fresh x l : (x ∉ map fst l) -> list_delete x l = l.
Proof.
  induction l as [|e l IH]; [done|]. intros Hx. cbn in Hx. unfold list_delete in *. rewrite filter_cons_True by set_solver. rewrite IH by set_solver. done.
Qed.

Lemma list_delete_split x k l1 l2 : NoDup (map fst (l1 ++ (x, k) :: l2)) -> list_delete x (l1 ++ (x, k) :: l2) = l1 ++ l2.
Proof.
  rewrite map_app. intros (_ & H1 & [H2 _]%NoDup_cons)%NoDup_app. unfold list_delete. rewrite filter_app, filter_cons_False by (cbn; tauto).
  f_equal; apply list_delete_fresh; set_solver.
Qed.

(** Which node leaves its place, and what the tree lists then. *)
Lemma find_subst_ok s q N tr c l x k r ctx :
  at_pos s q N tr (T c l x k r) ctx -> rb_root (plug ctx (T c l x k r)) ->
  exists y b tr', find_subst x tr = Some (y, ptr_of s b) /\ delete_subst y (ptr_of s b) x tr = Some tr' /\
    removed s N tr x (before ctx ++ inorder l ++ inorder r ++ after ctx) tr'.
Proof.
  intros H Hr. unfold find_subst. destruct (get_at _ _ _ tr Left c l x k r ctx H) as (_ & _ & G1 & G2). cbn [other] in G2.
  rewrite G1, G2. cbn [mbind option_bind]. rewrite (at_sentinel _ _ _ _ _ _ H).
  pose proof (at_down _ _ _ _ Left _ _ _ _ _ _ H) as Hl. pose proof (at_down _ _ _ _ Right _ _ _ _ _ _ H) as Hr'.
  rewrite (ptr_sentinel _ _ _ _ _ _ Hl), (ptr_sentinel _ _ _ _ _ _ Hr').
  assert (one : forall d b, T c l x k r = bin d c E x k b ->
    exists tr', delete_subst x (ptr_of s b) x tr = Some tr' /\ removed s N tr x (before ctx ++ inorder b ++ after ctx) tr').
  { intros d b Eq. rewrite Eq in H, Hr. rewrite <- inorder_split. destruct ctx; [by eapply delete_root_ok|by eapply delete_one_ok]. }
  destruct l as [|lc ll lx lk lr] eqn:El; [|rewrite <- El in *; destruct r as [|rc rl rx rk rr] eqn:Er; [|rewrite <- Er in *]].
  - destruct (one Left r eq_refl) as (tr' & E1 & E2). by exists x, r, tr'.
  - destruct (one Right l eq_refl) as (tr' & E1 & E2). by exists x, l, tr'.
  - destruct (min_ok s q N (tree_fuel tr) tr r _ Hr') as (path & cs & y & ky & b & E1 & Ep & Hb); [congruence| |].
    { pose proof (at_size _ _ _ _ _ _ Hr'). pose proof (depth_nodes r). unfold tree_fuel. lia. }
    unfold ngx_rbtree_min. rewrite E1. cbn [mbind option_bind].
    assert (Hy := Hr'). rewrite Ep in Hy. apply at_app in Hy. change (T cs E y ky b) with (bin Left cs E y ky b) in Hy.
    destruct (get_at _ _ _ _ _ _ _ _ _ _ _ Hy) as (_ & _ & G3 & G4). cbn [other] in G4. rewrite G3, G4. cbn [mbind option_bind]. rewrite Z.eqb_refl.
    rewrite Ep in H, Hr. destruct (delete_two_ok s q N tr path cs y ky b c l x k ctx H Hr) as (tr' & E2 & Hrem).
    exists y, b, tr'. split; [done|]. split; [done|]. rewrite Ep, (inorder_least path cs y ky b Hb). rewrite inorder_split in Hrem. cbn in Hrem.
    rewrite <- app_assoc in Hrem. exact Hrem.
Qed.

(** The refinement: the code does what [list_delete] does. *)
Lemma delete_refines tr l x :
  rb_list tr l -> x ∈ map fst l ->
  exists tr', ngx_rbtree_delete x tr = Some tr' /\ rb_list tr' (list_delete x l) /\ sentinel tr' = sentinel tr /\
    keeps (sentinel tr :: map fst l) tr tr' /\ exists c, get tr' x = Some (RbNode 0 NULL NULL NULL c).
Proof.
  intros (q & t & H & Hr & <-) Hx. rewrite <- ids_inorder in *. destruct (find_position t x Hx) as (ctx & c & l & k & r & <-).
  assert (Hd : NoDup (map fst (inorder (plug ctx (T c l x k r))))).
  { rewrite <- ids_inorder. by pose proof (at_nodup _ _ _ _ _ _ H) as [_ ?]%NoDup_cons. }
  assert (H' := proj2 (at_plug _ _ _ _ _ _) H). destruct (find_subst_ok _ _ _ _ _ _ _ _ _ _ H' Hr) as (y & b & tr' & E1 & E2 & H1 & H2 & H3 & H4).
  exists tr'. unfold ngx_rbtree_delete. rewrite E1. cbn [mbind option_bind]. split; [done|]. split; [|done].
  replace (list_delete _ _) with (before ctx ++ inorder l ++ inorder r ++ after ctx); [done|].
  assert (Ei : inorder (plug ctx (T c l x k r)) = (before ctx ++ inorder l) ++ (x, k) :: inorder r ++ after ctx)
    by (rewrite inorder_split; cbn; by rewrite <- !app_assoc).
  rewrite Ei in *. rewrite list_delete_split by done. by rewrite <- !app_assoc.
Qed.

(** ** Reading a tree *)

Lemma rb_list_nodup tr l : rb_list tr l -> NoDup (sentinel tr :: map fst l).
Proof. intros (q & t & H & _ & <-). rewrite <- ids_inorder. exact (at_nodup _ _ _ _ _ _ H). Qed.

Lemma rb_list_get tr l x k : rb_list tr l -> (x, k) ∈ l -> exists n, get tr x = Some n /\ n.(key) = k.
Proof.
  intros (q & t & H & _ & <-) Hx. apply at_tree in H. revert Hx H. generalize (parent_of q []). induction t as [|c a IHa y ky b IHb]; cbn; [set_solver|].
  intros p [Hx|[[= -> ->]|Hx]%elem_of_cons]%elem_of_app (Hy & Ha & Hb); [by eapply IHa| |by eapply IHb]. eexists. split; [exact Hy|done].
Qed.

Lemma rb_list_root tr l : rb_list tr l -> (root tr =? sentinel tr) = match l with [] => true | _ => false end.
Proof.
  intros (q & t & H & _ & <-). rewrite (at_root _ _ _ _ _ _ H). cbn [root_of]. rewrite (ptr_sentinel _ _ _ _ _ _ H).
  destruct t as [|c a x k b]; [done|]. cbn. by destruct (inorder a).
Qed.

(** The least node is the first, and is reached in as many steps as the tree is
    deep. *)
Lemma min_at s q N tr t x k l fuel :
  at_pos s q N tr t [] -> inorder t = (x, k) :: l -> (depth t <= fuel)%nat -> rbtree_min fuel (root tr) tr = Some x.
Proof.
  intros H Hi Hf. rewrite (at_root _ _ _ _ _ _ H). cbn [root_of].
  destruct (min_ok _ _ _ fuel tr t _ H) as (path & c & y & ky & b & E1 & -> & Hb); [by intros ->|done|].
  rewrite (inorder_least path c y ky b Hb) in Hi. injection Hi as -> -> _. exact E1.
Qed.

Lemma min_first tr x k l : rb_list tr ((x, k) :: l) -> ngx_rbtree_min (root tr) tr = Some x.
Proof.
  intros (q & t & H & _ & Hi). apply (min_at _ _ _ _ _ _ _ _ _ H Hi).
  pose proof (at_size _ _ _ _ _ _ H). pose proof (depth_nodes t). unfold tree_fuel. lia.
Qed.

Lemma min_steps tr x k l fuel :
  rb_list tr ((x, k) :: l) -> 2 * Z.log2 (Z.of_nat (length l) + 2) <= Z.of_nat fuel -> rbtree_min fuel (root tr) tr = Some x.
Proof.
  intros (q & t & H & Hr & Hi) Hf. apply (min_at _ _ _ _ _ _ _ _ _ H Hi). pose proof (balanced_depth t Hr) as Hd.
  rewrite nodes_inorder, Hi in Hd. cbn [length] in Hd.
  replace (Z.of_nat (S (length l)) + 1) with (Z.of_nat (length l) + 2) in Hd by lia. lia.
Qed.

(** Nodes outside the tree do not matter. *)
Lemma rb_list_same tr tr' l l' : rb_list tr l -> same_but l' tr tr' -> root tr' = root tr -> (forall z, z ∈ l' -> z ∉ sentinel tr :: map fst l) -> rb_list tr' l.
Proof.
  intros (q & t & H & Hr & <-) S R Hd. exists q, t. rewrite (proj1 S). split; [|done].
  eapply at_same; [exact H|exact S| |exact R]. by rewrite ids_inorder.
Qed.

Lemma rb_list_sentinel tr l : rb_list tr l -> is_Some (get tr (sentinel tr)).
Proof. intros (q & t & H & _). apply at_black in H. unfold get_col in H. by destruct (get tr (sentinel tr)). Qed.

Lemma rb_list_node tr l x : rb_list tr l -> x ∈ sentinel tr :: map fst l -> is_Some (get tr x).
Proof.
  intros H [->|Hx]%elem_of_cons; [by eapply rb_list_sentinel|]. apply list_elem_of_fmap in Hx as ([x' k] & -> & Hx).
  destruct (rb_list_get _ _ _ _ H Hx) as (n & Gn & _). by exists n.
Qed.

(** ** Lists without a node *)

Lemma list_delete_elem x e l : e ∈ list_delete x l <-> e ∈ l /\ e.1 <> x.
Proof. unfold list_delete. rewrite list_elem_of_filter. tauto. Qed.

Lemma list_delete_ids x z l : z ∈ map fst (list_delete x l) <-> z ∈ map fst l /\ z <> x.
Proof.
  rewrite !list_elem_of_fmap. split.
  - intros (e & -> & [He Hx]%list_delete_elem). split; [by exists e|done].
  - intros [(e & -> & He) Hx]. exists e. split; [done|]. by apply list_delete_elem.
Qed.

Lemma filter_ranked rank (Q : Z * Z -> Prop) `{!forall e, Decision (Q e)} l : ranked rank l -> ranked rank (filter Q l).
Proof.
  induction 1 as [|e l Hs IH HF]; [constructor|]. rewrite filter_cons. case_decide; [|done].
  constructor; [done|]. rewrite Forall_forall in HF |- *. intros f [_ Hf]%list_elem_of_filter. by apply HF.
Qed.

Lemma list_insert_ids lt x k z l : z ∈ map fst (list_insert lt (x, k) l) <-> z = x \/ z ∈ map fst l.
Proof.
  rewrite !list_elem_of_fmap. split.
  - intros (e & -> & [->|He]%list_insert_elem); [by left|right; by exists e].
  - intros [->|(e & -> & He)]; [exists (x, k)|exists e]; (split; [done|]); apply list_insert_elem; auto.
Qed.
