(* ===== verification/NgxRbtreeRefine.v ===== *)
(** * The red-black trees implement their contract

    The operations on linked nodes against the lists they stand for, on a tree
    of three nodes too. *)

From stdpp Require Import gmap sorting.
From S2P Require Import Prelude NgxRbtree NgxRbtreeShape NgxRbtreeRotate NgxRbtreeBalance NgxRbtreeInsert NgxRbtreeSpec NgxRbtreeDelete NgxRbtreeRemove.

(** An empty tree. *)
Lemma rb_list_empty tr : root tr = sentinel tr -> get_col tr (sentinel tr) = Some Black -> rb_list tr [].
Proof.
  intros Hr Hc. exists NULL, E. split; [|split; [split; [done|by exists O]|done]]. constructor; try done. repeat constructor. set_solver.
Qed.

(** ** An example *)

(** A sentinel at 100, and nodes 1 to 4, the first three in the tree. *)
Definition sample : rbtree :=
  RbTree (list_to_map [(100, RbNode 0 0 0 0 Black); (1, RbNode 10 100 100 2 Red); (2, RbNode 20 1 3 0 Black); (3, RbNode 30 100 100 2 Red);
                       (4, RbNode 25 0 0 0 Black)]) 2 100.

Definition sample_list : list (Z * Z) := [(1, 10); (2, 20); (3, 30)].

Lemma sample_ok : rb_list sample sample_list.
Proof.
  exists 0, (T Black (T Red E 1 10 E) 2 20 (T Red E 3 30 E)). split; [|split; [|reflexivity]].
  - constructor; try reflexivity; [cbn; repeat split|]. apply (bool_decide_unpack _). vm_compute. exact I.
  - split; [reflexivity|]. exists 1%nat. cbn. exists O. repeat split.
Qed.

Lemma sample_ranked : ranked id sample_list.
Proof. unfold ranked, sample_list. repeat (constructor; [|repeat constructor; cbn; lia]). constructor. Qed.

(** ** Theorems *)

(** C8: for a comparison that is that of a rank on the keys present, inserting a
    node that is in memory and not in a balanced tree succeeds (no access through a
    pointer to no node, every loop ends), and the tree is then a balanced one that
    lists as before with the node behind all keys that are not greater; the
    nodes outside the tree and the sentinel are not touched. *)
Theorem rbtree_insert_refines (lt : Z -> Z -> bool) (P : Z -> Prop) (rank : Z -> Z) (tr : rbtree) (l : list (Z * Z)) (node : Z) (n : rbnode) :
  KeyOrder lt P rank -> rb_list tr l -> ranked rank l -> Forall (fun e => P e.2) l -> P n.(key) ->
  get tr node = Some n -> (node ∉ tr.(sentinel) :: map fst l) ->
  exists tr', ngx_rbtree_insert lt node tr = Some tr' /\ rb_list tr' (list_insert lt (node, n.(key)) l) /\
    ranked rank (list_insert lt (node, n.(key)) l) /\ sentinel tr' = sentinel tr /\ keeps (node :: map fst l) tr tr'.
Proof.
  intros Ho H Hs HP Hk G Hn. destruct (insert_refines tr l node n H Hs HP Hk G Hn) as (tr' & E1 & H1 & H2 & H3).
  exists tr'. split; [done|]. split; [done|]. split; [|done]. by apply (list_insert_ranked (P := P)).
Qed.

Lemma rbtree_insert_refines_witness :
  exists tr', ngx_rbtree_insert key_lt 4 sample = Some tr' /\ rb_list tr' [(1, 10); (2, 20); (4, 25); (3, 30)] /\
    ranked id [(1, 10); (2, 20); (4, 25); (3, 30)] /\ sentinel tr' = 100 /\ keeps [4; 1; 2; 3] sample tr'.
Proof.
  apply (rbtree_insert_refines key_lt (fun _ => True) id sample sample_list 4 (RbNode 25 0 0 0 Black) key_lt_order sample_ok sample_ranked);
    [repeat constructor|exact I|reflexivity|]. apply (bool_decide_unpack _). vm_compute. exact I.
Defined.

(** C9: removing a node of a balanced tree succeeds, and the tree is then a balanced
    one that lists as before without the node; only nodes of the tree and the
    sentinel are touched, and the links and the key of the node are cleared. *)
Theorem rbtree_delete_refines (tr : rbtree) (l : list (Z * Z)) (x : Z) :
  rb_list tr l -> x ∈ map fst l ->
  exists tr', ngx_rbtree_delete x tr = Some tr' /\ rb_list tr' (list_delete x l) /\ sentinel tr' = sentinel tr /\
    keeps (sentinel tr :: map fst l) tr tr' /\ exists c, get tr' x = Some (RbNode 0 NULL NULL NULL c).
Proof. apply delete_refines. Qed.

Lemma rbtree_delete_refines_witness :
  exists tr', ngx_rbtree_delete 2 sample = Some tr' /\ rb_list tr' [(1, 10); (3, 30)] /\ sentinel tr' = 100 /\
    keeps [100; 1; 2; 3] sample tr' /\ exists c, get tr' 2 = Some (RbNode 0 0 0 0 c).
Proof. apply (rbtree_delete_refines sample sample_list 2 sample_ok). right. left. Defined.

(** The least node of a balanced tree of [n] nodes is found in at most
    [2 * log2 (n + 1)] steps, and it is the first of the list. *)
Theorem rbtree_min_steps (tr : rbtree) (x k : Z) (l : list (Z * Z)) (fuel : nat) :
  rb_list tr ((x, k) :: l) -> 2 * Z.log2 (Z.of_nat (length ((x, k) :: l)) + 1) <= Z.of_nat fuel ->
  rbtree_min fuel (root tr) tr = Some x.
Proof.
  intros H Hf. apply (min_steps tr x k l fuel H). replace (Z.of_nat (length l) + 2) with (Z.of_nat (length ((x, k) :: l)) + 1) by (cbn [length]; lia). done.
Qed.

Lemma rbtree_min_steps_witness : rbtree_min 4 2 sample = Some 1.
Proof. apply (rbtree_min_steps sample 1 10 [(2, 20); (3, 30)] 4 sample_ok). vm_compute. discriminate. Defined.
