(* ===== verification/NgxTimer.v ===== *)
(** * Event timers ([event/ngx_event_timer.c], [event/ngx_event_timer.h])

    The timers of the events are nodes of a red-black tree, with the time of
    expiry in milliseconds as the key; the loop that fires the expired ones calls
    the events' handlers, which may set and delete timers. *)

From stdpp Require Import gmap sorting.
From S2P Require Import Prelude NgxRbtree NgxRbtreeShape NgxRbtreeRotate NgxRbtreeBalance NgxRbtreeInsert NgxRbtreeSpec NgxRbtreeRemove.

(** ** Events *)

(** The flags of an [ngx_event_t] the timers use. *)
Record event := Event { timer_set : bool; timedout : bool }.

(** [ngx_event_timer_rbtree], the events by the address of their [timer], and
    [ngx_current_msec]. *)
Record timers := Timers {
  timer_rbtree : rbtree;
  events : gmap Z event;
  current_msec : Z;
}.

Definition NGX_TIMER_INFINITE : Z := u64 (-1).
Definition NGX_TIMER_LAZY_DELAY : Z := 300.

Definition ngx_abs (value : Z) : Z := if 0 <=? value then value else s64 (- value).

(** [ngx_rbtree_init]. *)
Definition ngx_rbtree_init (s : Z) (m : gmap Z rbnode) : option rbtree :=
  set_col s Black (RbTree m s s).

Definition ngx_event_timer_init (s : Z) (st : timers) : option timers :=
  t ← ngx_rbtree_init s (mem (timer_rbtree st));
  Some (Timers t st.(events) st.(current_msec)).

(** ** Operations *)

Definition ngx_event_find_timer (st : timers) : option Z :=
  let t := st.(timer_rbtree) in
  if t.(root) =? t.(sentinel) then Some NGX_TIMER_INFINITE
  else
    node ← ngx_rbtree_min t.(root) t;
    n ← get t node;
    let timer := s64 (n.(key) - st.(current_msec)) in
    Some (u64 (if 0 <? timer then timer else 0)).

Definition set_event (ev : Z) (f : event -> event) (st : timers) : option timers :=
  e ← st.(events) !! ev;
  Some (Timers st.(timer_rbtree) (<[ev := f e]> st.(events)) st.(current_msec)).

Definition ngx_event_del_timer (ev : Z) (st : timers) : option timers :=
  t ← ngx_rbtree_delete ev st.(timer_rbtree);
  set_event ev (fun e => Event false e.(timedout)) (Timers t st.(events) st.(current_msec)).

(** The end of [ngx_event_add_timer]: the timer is inserted. *)
Definition insert_timer (ev key_ : Z) (st : timers) : option timers :=
  t ← upd ev (fun n => RbNode key_ n.(left) n.(right) n.(parent) n.(col)) st.(timer_rbtree);
  t ← ngx_rbtree_insert timer_lt ev t;
  set_event ev (fun e => Event true e.(timedout)) (Timers t st.(events) st.(current_msec)).

Definition ngx_event_add_timer (ev timer : Z) (st : timers) : option timers :=
  let key_ := u64 (st.(current_msec) + timer) in
  e ← st.(events) !! ev;
  if e.(timer_set) then
    n ← get st.(timer_rbtree) ev;
    let diff := s64 (key_ - n.(key)) in
    if ngx_abs diff <? NGX_TIMER_LAZY_DELAY then Some st
    else
      st ← ngx_event_del_timer ev st;
      insert_timer ev key_ st
  else insert_timer ev key_ st.

Section expire.
(** [ev->handler]. *)
Context (handler : Z -> timers -> option timers).

(** The events whose handlers were called, in order, and the state. *)
Fixpoint expire (fuel : nat) (st : timers) : option (list Z * timers) :=
  match fuel with
  | O => None
  | S fuel =>
      let t := st.(timer_rbtree) in
      if t.(root) =? t.(sentinel) then Some ([], st)
      else
        node ← ngx_rbtree_min t.(root) t;
        n ← get t node;
        if s64 (n.(key) - st.(current_msec)) <=? 0 then
          t ← ngx_rbtree_delete node t;
          st ← set_event node (fun e => Event false true) (Timers t st.(events) st.(current_msec));
          st ← handler node st;
          '(evs, st) ← expire fuel st;
          Some (node :: evs, st)
        else Some ([], st)
  end.
End expire.

Definition ngx_event_expire_timers := expire.

(** ** The contract *)

(** A timer is due at [now]. *)
Definition due (now : Z) (e : Z * Z) : Prop := s64 (e.2 - now) <= 0.

Instance due_dec now e : Decision (due now e) := decide (s64 (e.2 - now) <= 0).

Definition rank_of (t0 k : Z) : Z := (k - t0) mod 2 ^ 64.

(** The timers set are the list [l], by time of expiry.  Times are within half
    the range of the counter after [t0]. *)
Record timers_ok (t0 : Z) (st : timers) (l : list (Z * Z)) : Prop := TimersOk {
  ok_tree : rb_list st.(timer_rbtree) l;
  ok_order : ranked (rank_of t0) l;
  ok_near : Forall (fun e => near_time t0 e.2) l;
  ok_now : near_time t0 st.(current_msec);
  ok_set : forall ev e, st.(events) !! ev = Some e -> e.(timer_set) = bool_decide (ev ∈ map fst l);
  ok_events : forall ev, ev ∈ map fst l -> is_Some (st.(events) !! ev);
  ok_nodes : forall ev, is_Some (st.(events) !! ev) -> is_Some (get st.(timer_rbtree) ev) /\ ev <> sentinel st.(timer_rbtree);
}.

Section contract.
Context (t0 : Z).

(** Within the range, the distance of two times is the difference of ranks. *)
Lemma near_diff a b : near_time t0 a -> near_time t0 b -> s64 (a - b) = rank_of t0 a - rank_of t0 b.
Proof.
  intros Ha Hb. unfold near_time, rank_of in *.
  pose proof (Z.mod_pos_bound (a - t0) (2 ^ 64)). pose proof (Z.mod_pos_bound (b - t0) (2 ^ 64)).
  rewrite (s64_congr (a - b) ((a - t0) mod 2 ^ 64 - (b - t0) mod 2 ^ 64)); [apply s64_small; lia|].
  rewrite <- Zminus_mod. f_equal. lia.
Qed.

(** The flag of one event, with the tree changed to match. *)
Lemma set_event_ok st t' l l' ev e f :
  timers_ok t0 st l -> events st !! ev = Some e -> rb_list t' l' -> ranked (rank_of t0) l' -> Forall (fun e => near_time t0 e.2) l' ->
  sentinel t' = sentinel (timer_rbtree st) -> (forall z, is_Some (get (timer_rbtree st) z) -> is_Some (get t' z)) ->
  timer_set (f e) = bool_decide (ev ∈ map fst l') -> (forall z, z <> ev -> z ∈ map fst l' <-> z ∈ map fst l) ->
  exists st', set_event ev f (Timers t' (events st) (current_msec st)) = Some st' /\ timers_ok t0 st' l' /\
    events st' = <[ev := f e]> (events st) /\ current_msec st' = current_msec st /\ timer_rbtree st' = t'.
Proof.
  intros H He Ht Ho Hn Hs Hd Hf Hl. unfold set_event. cbn. rewrite He. cbn. eexists. split; [done|]. split; [|done].
  destruct H as [H1 H2 H3 H4 H5 H6 H7]. constructor; cbn; try done.
  - intros ev' e'. destruct (decide (ev' = ev)) as [->|Hne]; [rewrite lookup_insert_eq; by intros [= <-]|].
    rewrite lookup_insert_ne by done. intros He'. rewrite (H5 _ _ He'). apply bool_decide_ext. by rewrite Hl.
  - intros z Hz. destruct (decide (z = ev)) as [->|Hne]; [by rewrite lookup_insert_eq|]. rewrite lookup_insert_ne by done. apply H6. by apply Hl.
  - intros z Hz. rewrite Hs. assert (is_Some (events st !! z)) as [??]%H7; [|by auto].
    destruct (decide (z = ev)) as [->|Hne]; [by eexists|]. by rewrite lookup_insert_ne in Hz.
Qed.
(** ** Each operation *)

Lemma tree_delete_ok st l ev :
  timers_ok t0 st l -> ev ∈ map fst l ->
  exists t', ngx_rbtree_delete ev st.(timer_rbtree) = Some t' /\ rb_list t' (list_delete ev l) /\
    sentinel t' = sentinel (timer_rbtree st) /\ (forall z, is_Some (get (timer_rbtree st) z) -> is_Some (get t' z)).
Proof.
  intros H Hev. destruct (delete_refines _ _ _ (ok_tree _ _ _ H) Hev) as (t' & E1 & Ht & Hs & K & c & Gc).
  exists t'. split; [done|]. split; [done|]. split; [done|]. intros z Hz.
  destruct (decide (z = ev)) as [->|Hne]; [by rewrite Gc|]. destruct (decide (z ∈ sentinel (timer_rbtree st) :: map fst l)) as [Hin|Hout].
  - apply (rb_list_node _ _ _ Ht). rewrite Hs. apply elem_of_cons in Hin as [->|Hin]; [by left|right]. by apply list_delete_ids.
  - by rewrite K.
Qed.

Lemma delete_near ev l : Forall (fun e => near_time t0 e.2) l -> Forall (fun e => near_time t0 e.2) (list_delete ev l).
Proof. rewrite !Forall_forall. intros H e [He _]%list_delete_elem. by apply H. Qed.

(** A timer is deleted, whatever the flags get. *)
Lemma delete_timer_ok st l ev e f :
  timers_ok t0 st l -> events st !! ev = Some e -> ev ∈ map fst l -> timer_set (f e) = false ->
  exists st', (t ← ngx_rbtree_delete ev st.(timer_rbtree); set_event ev f (Timers t st.(events) st.(current_msec))) = Some st' /\
    timers_ok t0 st' (list_delete ev l) /\ events st' = <[ev := f e]> (events st) /\ current_msec st' = current_msec st.
Proof.
  intros H He Hev Hf. destruct (tree_delete_ok st l ev H Hev) as (t' & -> & Ht & Hs & Hd). cbn [mbind option_bind].
  assert (Hl : forall z, z ∈ map fst (list_delete ev l) <-> z ∈ map fst l /\ z <> ev) by (intros; apply list_delete_ids).
  destruct (set_event_ok st t' l (list_delete ev l) ev e f) as (st' & E1 & H1 & H2 & H3 & _); try done.
  - apply filter_ranked, (ok_order _ _ _ H).
  - apply delete_near, (ok_near _ _ _ H).
  - rewrite Hf. symmetry. apply bool_decide_eq_false. rewrite Hl. tauto.
  - intros z Hz. rewrite Hl. tauto.
  - exists st'. done.
Qed.

Lemma del_timer_ok st l ev e :
  timers_ok t0 st l -> events st !! ev = Some e -> e.(timer_set) = true ->
  exists st', ngx_event_del_timer ev st = Some st' /\ timers_ok t0 st' (list_delete ev l) /\
    events st' = <[ev := Event false e.(timedout)]> (events st) /\ current_msec st' = current_msec st.
Proof.
  intros H He Hset. rewrite (ok_set _ _ _ H _ _ He) in Hset. apply bool_decide_eq_true in Hset.
  exact (delete_timer_ok st l ev e (fun e => Event false (timedout e)) H He Hset eq_refl).
Qed.

Lemma insert_timer_ok st l ev e k :
  timers_ok t0 st l -> events st !! ev = Some e -> (ev ∉ map fst l) -> near_time t0 k ->
  exists st', insert_timer ev k st = Some st' /\ timers_ok t0 st' (list_insert timer_lt (ev, k) l) /\
    events st' = <[ev := Event true e.(timedout)]> (events st) /\ current_msec st' = current_msec st.
Proof.
  intros H He Hev Hk. destruct (ok_nodes _ _ _ H ev ltac:(by eexists)) as [[n Gn] Hs]. unfold insert_timer.
  destruct (upd_same _ ev (fun n => RbNode k (left n) (right n) (parent n) (col n)) n Gn) as (t1 & -> & G1 & R1 & S1). cbn [mbind option_bind].
  assert (H1 : rb_list t1 l).
  { eapply rb_list_same; [exact (ok_tree _ _ _ H)|exact S1|done|]. intros z ->%list_elem_of_singleton. set_solver. }
  destruct (insert_refines (lt := timer_lt) (P := near_time t0) (rank := rank_of t0) t1 l ev (RbNode k (left n) (right n) (parent n) (col n)) H1 (ok_order _ _ _ H) (ok_near _ _ _ H) Hk G1) as (t2 & E2 & H2 & Hs2 & K2).
  { rewrite (proj1 S1). set_solver. }
  rewrite E2. cbn [mbind option_bind]. cbn in H2.
  assert (Hl : forall z, z ∈ map fst (list_insert timer_lt (ev, k) l) <-> z = ev \/ z ∈ map fst l) by (intros; apply list_insert_ids).
  destruct (set_event_ok st t2 l (list_insert timer_lt (ev, k) l) ev e (fun e => Event true (timedout e))) as (st' & E3 & H3 & H4 & H5 & _); try done.
  - apply (list_insert_ranked (P := near_time t0)); [exact (ok_order _ _ _ H)|done|exact (ok_near _ _ _ H)].
  - rewrite Forall_forall. intros f [->|Hf]%list_insert_elem; [done|]. pose proof (ok_near _ _ _ H) as HF. rewrite Forall_forall in HF. by apply HF.
  - by rewrite Hs2, (proj1 S1).
  - intros z Hz. destruct (decide (z ∈ ev :: map fst l)) as [Hin|Hout].
    + apply (rb_list_node _ _ _ H2). right. apply Hl. by apply elem_of_cons in Hin.
    + rewrite K2 by done. rewrite (proj2 S1); [done|]. set_solver.
  - cbn. symmetry. apply bool_decide_eq_true, Hl. by left.
  - intros z Hz. rewrite Hl. tauto.
  - by exists st'.
Qed.
Lemma abs_diff a b : near_time t0 a -> near_time t0 b -> ngx_abs (s64 (a - b)) = Z.abs (rank_of t0 a - rank_of t0 b).
Proof.
  intros Ha Hb. rewrite near_diff by done. unfold near_time, rank_of, ngx_abs in *.
  pose proof (Z.mod_pos_bound (a - t0) (2 ^ 64)). pose proof (Z.mod_pos_bound (b - t0) (2 ^ 64)).
  destruct (Z.leb_spec 0 ((a - t0) mod 2 ^ 64 - (b - t0) mod 2 ^ 64)); [lia|]. rewrite s64_small; lia.
Qed.

Lemma delete_insert ev k l : list_delete ev (list_insert timer_lt (ev, k) l) = list_delete ev l.
Proof.
  induction l as [|f l IH]; cbn [list_insert snd]; unfold list_delete in *; [by rewrite filter_cons_False by (cbn; tauto)|].
  destruct (timer_lt k f.2); [by rewrite filter_cons_False by (cbn; tauto)|]. rewrite !filter_cons. by rewrite IH.
Qed.

(** A timer is set, unless one is set already within the delay. *)
Lemma add_timer_ok st l ev e timer :
  let k := u64 (current_msec st + timer) in
  timers_ok t0 st l -> events st !! ev = Some e -> near_time t0 k ->
  exists st' l' k', ngx_event_add_timer ev timer st = Some st' /\ timers_ok t0 st' l' /\ current_msec st' = current_msec st /\
    events st' = <[ev := Event true e.(timedout)]> (events st) /\ list_delete ev l' = list_delete ev l /\ (ev, k') ∈ l' /\
    (k' = k /\ l' = list_insert timer_lt (ev, k) (list_delete ev l) \/
     e.(timer_set) = true /\ l' = l /\ st' = st /\ Z.abs (rank_of t0 k - rank_of t0 k') < NGX_TIMER_LAZY_DELAY).
Proof.
  intros k H He Hk. unfold ngx_event_add_timer. rewrite He. cbn [mbind option_bind]. fold k. pose proof (ok_set _ _ _ H _ _ He) as Hset.
  assert (Hins : forall k l0, (ev, k) ∈ list_insert timer_lt (ev, k) l0) by (intros; apply list_insert_elem; by left).
  destruct (timer_set e) eqn:Es; symmetry in Hset; [apply bool_decide_eq_true in Hset|apply bool_decide_eq_false in Hset].
  - assert (Hset' := Hset). apply list_elem_of_fmap in Hset' as ([ev' k0] & Eev & Hin). cbn in Eev. subst ev'.
    destruct (rb_list_get _ _ _ _ (ok_tree _ _ _ H) Hin) as (n & -> & <-). cbn [mbind option_bind].
    pose proof (ok_near _ _ _ H) as HF. rewrite Forall_forall in HF. pose proof (HF _ Hin) as Hn. cbn in Hn. rewrite abs_diff by done.
    destruct (Z.ltb_spec (Z.abs (rank_of t0 k - rank_of t0 (key n))) NGX_TIMER_LAZY_DELAY).
    + exists st, l, (key n). split; [done|]. split; [done|]. split; [done|]. split; [|split; [done|split; [done|by right]]].
      rewrite insert_id; [done|]. rewrite He. destruct e; cbn in *. by subst.
    + destruct (del_timer_ok st l ev e H He Es) as (st1 & -> & H1 & V1 & N1). cbn [mbind option_bind].
      destruct (insert_timer_ok st1 (list_delete ev l) ev (Event false (timedout e)) k H1) as (st2 & E2 & H2 & V2 & N2);
        [by rewrite V1, lookup_insert_eq|rewrite list_delete_ids; tauto|done|]. rewrite E2.
      exists st2, (list_insert timer_lt (ev, k) (list_delete ev l)), k. split; [done|]. split; [done|]. split; [congruence|].
      split; [rewrite V2, V1; by rewrite insert_insert_eq|]. split; [|split; [done|by left]].
      rewrite delete_insert. apply list_delete_fresh. rewrite list_delete_ids. tauto.
  - destruct (insert_timer_ok st l ev e k H He Hset Hk) as (st2 & E2 & H2 & V2 & N2). rewrite E2.
    exists st2, (list_insert timer_lt (ev, k) l), k. rewrite (list_delete_fresh ev l) by done. split; [done|]. split; [done|]. split; [done|].
    split; [done|]. split; [rewrite delete_insert; by apply list_delete_fresh|]. split; [done|by left].
Qed.

Lemma find_timer_ok st l :
  timers_ok t0 st l ->
  ngx_event_find_timer st = Some (match l with [] => NGX_TIMER_INFINITE | e :: _ => Z.max 0 (s64 (e.2 - current_msec st)) end).
Proof.
  intros H. unfold ngx_event_find_timer. pose proof (ok_tree _ _ _ H) as Ht. rewrite (rb_list_root _ _ Ht). destruct l as [|[x k] l]; [done|].
  rewrite (min_first _ _ _ _ Ht). cbn [mbind option_bind]. destruct (rb_list_get _ _ x k Ht) as (n & -> & Hk); [by left|]. cbn [mbind option_bind snd].
  rewrite Hk. pose proof (s64_range (k - current_msec st)) as Hr. f_equal. unfold u64. rewrite Z.mod_small; destruct (Z.ltb_spec 0 (s64 (k - current_msec st))); lia.
Qed.

Lemma filter_none {A} (Q : A -> Prop) `{!forall x, Decision (Q x)} (l : list A) : Forall (fun x => ~ Q x) l -> filter Q l = [].
Proof. induction 1 as [|x l Hx HF IH]; [done|]. by rewrite filter_cons_False. Qed.

(** The first of the list is due, or none is. *)
Lemma due_first now k l x : near_time t0 now -> ranked (rank_of t0) ((x, k) :: l) -> Forall (fun e => near_time t0 e.2) ((x, k) :: l) ->
  0 < s64 (k - now) -> filter (due now) ((x, k) :: l) = [].
Proof.
  intros Hnow [Hs HF]%StronglySorted_inv HN Hk. apply Forall_cons in HN as [Hk0 HN]. cbn in Hk0. rewrite near_diff in Hk by done.
  apply filter_none. constructor; [unfold due; cbn; rewrite near_diff by done; lia|].
  rewrite Forall_forall in HF, HN |- *. intros e He. specialize (HF e He). specialize (HN e He). cbn in HF, HN. unfold due. rewrite near_diff by done. lia.
Qed.
End contract.

(** ** Handlers *)

(** What a handler does at the time [now]: it may set and delete timers; those
    that are due relate by [Rel] to those that were. *)
Class TimerHandler (t0 now : Z) (Rel : relation (list (Z * Z))) (handler : Z -> timers -> option timers) : Prop :=
  handler_ok : forall st l ev, timers_ok t0 st l -> current_msec st = now -> events st !! ev = Some (Event false true) ->
    exists st' l', handler ev st = Some st' /\ timers_ok t0 st' l' /\ current_msec st' = now /\ Rel (filter (due now) l') (filter (due now) l).

(** Relations that handlers may keep: the same timers are due, or some of them. *)
Class DueRel (Rel : relation (list (Z * Z))) : Prop := {
  due_pre :: PreOrder Rel;
  due_cons : forall e a b, Rel a b -> Rel (e :: a) (e :: b);
  due_length : forall a b, Rel a b -> (length a <= length b)%nat;
}.

#[export] Instance due_same : DueRel eq.
Proof. split; [apply _|congruence|]. by intros ? ? ->. Qed.

#[export] Instance due_fewer : DueRel sublist.
Proof. split; [apply _|intros; by constructor|apply sublist_length]. Qed.

Section firing.
Context (t0 now : Z) (Rel : relation (list (Z * Z))) (handler : Z -> timers -> option timers).
Context `{!DueRel Rel, !TimerHandler t0 now Rel handler}.

(** The first event is fired. *)
Lemma fire_ok st x k l :
  timers_ok t0 st ((x, k) :: l) ->
  exists st', (t ← ngx_rbtree_delete x st.(timer_rbtree); set_event x (fun e => Event false true) (Timers t st.(events) st.(current_msec))) = Some st' /\
    timers_ok t0 st' l /\ events st' !! x = Some (Event false true) /\ current_msec st' = current_msec st.
Proof.
  intros H. destruct (ok_events _ _ _ H x) as [e He]; [by left|].
  destruct (delete_timer_ok t0 st _ x e (fun e => Event false true) H He) as (st' & E1 & H1 & H2 & H3); [by left|done|].
  exists st'. split; [exact E1|]. split; [|split; [by rewrite H2, lookup_insert_eq|done]].
  pose proof (rb_list_nodup _ _ (ok_tree _ _ _ H)) as [_ Hd]%NoDup_cons.
  change ((x, k) :: l) with ([] ++ (x, k) :: l) in H1, Hd. by rewrite list_delete_split in H1.
Qed.

(** The loop fires timers that were due, in order, and leaves none that is. *)
Lemma expire_ok fuel : forall st l,
  timers_ok t0 st l -> current_msec st = now -> (length (filter (due now) l) < fuel)%nat ->
  exists fired st' l', expire handler fuel st = Some (map fst fired, st') /\ Rel fired (filter (due now) l) /\ timers_ok t0 st' l' /\
    current_msec st' = now /\ filter (due now) l' = [].
Proof.
  induction fuel as [|fuel IH]; intros st l H Hnow Hf; [lia|]. cbn [expire]. pose proof (ok_tree _ _ _ H) as Ht.
  rewrite (rb_list_root _ _ Ht). destruct l as [|[x k] l]; [by exists [], st, []|].
  rewrite (min_first _ _ _ _ Ht). cbn [mbind option_bind]. destruct (rb_list_get _ _ x k Ht) as (n & -> & Hk); [by left|]. cbn [mbind option_bind].
  rewrite Hk, Hnow. destruct (Z.leb_spec (s64 (k - now)) 0) as [Hdue|Hlate].
  - rewrite filter_cons_True in Hf |- * by exact Hdue. cbn in Hf.
    destruct (fire_ok _ _ _ _ H) as (st1 & E1 & H1 & G1 & N1). rewrite Hnow in E1, N1.
    destruct (ngx_rbtree_delete x (timer_rbtree st)) as [t1|]; [|done]. cbn [mbind option_bind] in *. rewrite E1. cbn [mbind option_bind].
    destruct (handler_ok st1 l x H1 N1 G1) as (st2 & l2 & E2 & H2 & N2 & R2). rewrite E2. cbn [mbind option_bind].
    destruct (IH st2 l2 H2 N2) as (fired & st3 & l3 & E3 & R3 & H3 & N3 & D3); [apply due_length in R2; lia|].
    rewrite E3. cbn [mbind option_bind]. exists ((x, k) :: fired), st3, l3. split; [done|]. split; [|done].
    apply due_cons. by etransitivity.
  - exists [], st, ((x, k) :: l). pose proof (due_first t0 now k l x) as Hd. rewrite <- Hnow in Hd at 1.
    specialize (Hd (ok_now _ _ _ H) (ok_order _ _ _ H) (ok_near _ _ _ H) Hlate). rewrite Hd. done.
Qed.
End firing.
