(* ===== verification/NgxTimerRun.v ===== *)
(** * The event timers at work

    The operations in any order from the start of a worker: what the timers
    promise to the event loop and to the handlers. *)

From stdpp Require Import gmap sorting.
From S2P Require Import Prelude NgxRbtree NgxRbtreeShape NgxRbtreeSpec NgxRbtreeRemove NgxRbtreeRefine NgxTimer.

(** ** Operations in sequence *)

Inductive timer_op :=
  | TAdd (ev timer : Z)    (* [ngx_add_timer] *)
  | TDel (ev : Z)          (* [if (ev->timer_set) ngx_del_timer(ev)] *)
  | TClock (msec : Z)      (* [ngx_time_update] sets [ngx_current_msec] *)
  | TExpire.               (* [ngx_event_expire_timers] *)

Section run.
Context (handler : Z -> timers -> option timers).

(** Turns enough to fire each event once. *)
Definition expire_fuel (st : timers) : nat := S (size st.(events)).

Definition timer_step (op : timer_op) (st : timers) : option (list Z * timers) :=
  match op with
  | TAdd ev timer => st ← ngx_event_add_timer ev timer st; Some ([], st)
  | TDel ev =>
      e ← st.(events) !! ev;
      if e.(timer_set) then st ← ngx_event_del_timer ev st; Some ([], st) else Some ([], st)
  | TClock msec => Some ([], Timers st.(timer_rbtree) st.(events) msec)
  | TExpire => ngx_event_expire_timers handler (expire_fuel st) st
  end.

(** The events fired by a sequence of operations, and the state. *)
Fixpoint timer_run (ops : list timer_op) (st : timers) : option (list Z * timers) :=
  match ops with
  | [] => Some ([], st)
  | op :: ops =>
      '(evs, st) ← timer_step op st;
      '(evs', st) ← timer_run ops st;
      Some (evs ++ evs', st)
  end.
End run.

(** ** The start *)

(** Before [ngx_event_timer_init]: the nodes are in memory, no timer is set. *)
Definition fresh (t0 s : Z) (st : timers) : Prop :=
  is_Some (mem (timer_rbtree st) !! s) /\ near_time t0 st.(current_msec) /\
  (forall ev e, st.(events) !! ev = Some e -> e.(timer_set) = false /\ is_Some (mem (timer_rbtree st) !! ev) /\ ev <> s).

Lemma timer_init_ok t0 s st : fresh t0 s st ->
  exists st', ngx_event_timer_init s st = Some st' /\ timers_ok t0 st' [] /\ events st' = events st /\ current_msec st' = current_msec st.
Proof.
  intros ([n Gn] & Hnow & Hev). unfold ngx_event_timer_init, ngx_rbtree_init, set_col.
  destruct (upd_same (RbTree (mem (timer_rbtree st)) s s) s (with_col Black) n Gn) as (t1 & -> & G1 & R1 & S1). cbn [mbind option_bind].
  assert (Hs : sentinel t1 = s) by apply (proj1 S1). eexists. split; [done|]. split; [|done]. constructor; cbn; try done.
  - apply rb_list_empty; [by rewrite Hs|]. rewrite Hs. unfold get_col. by rewrite G1.
  - constructor.
  - intros ev e He. rewrite (proj1 (Hev ev e He)). symmetry. apply bool_decide_eq_false. set_solver.
  - set_solver.
  - intros ev [e He]. destruct (Hev ev e He) as (_ & Hm & Hne). rewrite Hs. split; [|done]. rewrite (proj2 S1); [done|]. set_solver.
Qed.

(** ** Handlers *)

(** A handler that sets its timer again after [d] milliseconds. *)
Definition rearm (d : Z) (ev : Z) (st : timers) : option timers := ngx_event_add_timer ev d st.

Lemma insert_late now ev k l : 0 < s64 (k - now) -> filter (due now) (list_insert timer_lt (ev, k) l) = filter (due now) l.
Proof.
  intros Hk. assert (Hn : ~ due now (ev, k)) by (unfold due; cbn; lia). induction l as [|f l IH]; cbn [list_insert snd]; [by rewrite filter_cons_False|].
  destruct (timer_lt k f.2); [by rewrite filter_cons_False|]. rewrite !filter_cons. by rewrite IH.
Qed.

Lemma rank_add t0 now d : 0 <= d -> rank_of t0 now + d < 2 ^ 63 -> rank_of t0 (u64 (now + d)) = rank_of t0 now + d.
Proof.
  intros Hd Hr. unfold rank_of, u64 in *. rewrite Zminus_mod_idemp_l. replace (now + d - t0) with ((now - t0) + d) by lia.
  rewrite <- Zplus_mod_idemp_l. apply Z.mod_small. pose proof (Z.mod_pos_bound (now - t0) (2 ^ 64)). lia.
Qed.

#[export] Instance rearm_handler t0 now d : 0 < d -> rank_of t0 now + d < 2 ^ 63 -> TimerHandler t0 now eq (rearm d).
Proof.
  intros Hd Hr st l ev H Hnow He. pose proof (rank_add t0 now d ltac:(lia) Hr) as Hk. pose proof (ok_now _ _ _ H) as Hn. rewrite Hnow in Hn.
  assert (Hk' : near_time t0 (u64 (now + d))) by (unfold near_time; change ((u64 (now + d) - t0) mod 2 ^ 64) with (rank_of t0 (u64 (now + d))); lia).
  unfold rearm. destruct (add_timer_ok t0 st l ev _ d H He) as (st' & l' & k' & E1 & H1 & N1 & _ & _ & _ & Hc); [by rewrite Hnow|].
  exists st', l'. split; [done|]. split; [done|]. split; [congruence|]. destruct Hc as [(_ & ->)|(Hs & _)]; [|done]. rewrite Hnow.
  rewrite insert_late by (rewrite (near_diff t0) by done; lia). rewrite list_delete_fresh; [done|].
  pose proof (ok_set _ _ _ H _ _ He) as Hset. symmetry in Hset. by apply bool_decide_eq_false in Hset.
Qed.

(** A handler that leaves the timers due makes no more of them due. *)
Lemma handler_fewer t0 now handler : TimerHandler t0 now eq handler -> TimerHandler t0 now sublist handler.
Proof.
  intros H st l ev H1 H2 H3. destruct (H st l ev H1 H2 H3) as (st' & l' & E1 & H4 & H5 & H6). exists st', l'. by rewrite H6.
Qed.

(** ** Runs *)

Section runs.
Context (t0 : Z) (handler : Z -> timers -> option timers).

(** What the callers keep to: events that exist, times within half the range. *)
Definition op_ok (op : timer_op) (st : timers) : Prop :=
  match op with
  | TAdd ev timer => is_Some (st.(events) !! ev) /\ near_time t0 (u64 (st.(current_msec) + timer))
  | TDel ev => is_Some (st.(events) !! ev)
  | TClock msec => near_time t0 msec
  | TExpire => TimerHandler t0 st.(current_msec) sublist handler
  end.

Fixpoint ops_ok (ops : list timer_op) (st : timers) : Prop :=
  match ops with
  | [] => True
  | op :: ops => op_ok op st /\ forall evs st', timer_step handler op st = Some (evs, st') -> ops_ok ops st'
  end.

(** The list of timers is no longer than the events are many. *)
Lemma timers_length st l : timers_ok t0 st l -> (length l <= size (events st))%nat.
Proof.
  intros H. pose proof (rb_list_nodup _ _ (ok_tree _ _ _ H)) as [_ Hd]%NoDup_cons.
  rewrite <- (length_map fst l), <- size_dom, <- (size_list_to_set (C := gset Z)) by done.
  apply subseteq_size. intros z Hz%elem_of_list_to_set. apply elem_of_dom. by apply (ok_events _ _ _ H).
Qed.

Lemma due_fuel st l now : timers_ok t0 st l -> (length (filter (due now) l) < expire_fuel st)%nat.
Proof.
  intros H. pose proof (timers_length _ _ H). unfold expire_fuel. pose proof (sublist_length _ _ (sublist_filter (due now) l)). lia.
Qed.

Lemma step_keeps op st l : timers_ok t0 st l -> op_ok op st ->
  exists evs st' l', timer_step handler op st = Some (evs, st') /\ timers_ok t0 st' l'.
Proof.
  intros H Hop. destruct op as [ev timer|ev|msec|]; cbn [op_ok timer_step] in *.
  - destruct Hop as [[e He] Hk]. destruct (add_timer_ok t0 st l ev e timer H He Hk) as (st' & l' & k' & -> & H' & _). by eexists _, _, _.
  - destruct Hop as [e He]. rewrite He. cbn [mbind option_bind]. destruct (timer_set e) eqn:Es; [|by eexists _, _, _].
    destruct (del_timer_ok t0 st l ev e H He Es) as (st' & -> & H' & _). by eexists _, _, _.
  - eexists _, _, l. split; [done|]. by destruct H.
  - destruct (expire_ok t0 (current_msec st) sublist handler _ st l H eq_refl (due_fuel _ _ _ H)) as (fired & st' & l' & E1 & _ & H' & _).
    by eexists _, _, _.
Qed.

Lemma run_keeps ops : forall st l, timers_ok t0 st l -> ops_ok ops st ->
  exists evs st' l', timer_run handler ops st = Some (evs, st') /\ timers_ok t0 st' l'.
Proof.
  induction ops as [|op ops IH]; intros st l H Hops; [by exists [], st, l|]. destruct Hops as [Hop Hops]. cbn [timer_run].
  destruct (step_keeps op st l H Hop) as (evs & st1 & l1 & E1 & H1). rewrite E1. cbn [mbind option_bind].
  destruct (IH st1 l1 H1 (Hops _ _ E1)) as (evs' & st2 & l2 & E2 & H2). rewrite E2. cbn [mbind option_bind]. by eexists _, _, _.
Qed.
End runs.

(** ** An example *)

(** A worker just before the counter of milliseconds wraps around: a sentinel at
    100 and three events. *)
Definition worker0 : timers :=
  Timers (RbTree (list_to_map [(100, RbNode 0 0 0 0 Red); (1, RbNode 0 0 0 0 Black); (2, RbNode 0 0 0 0 Black); (3, RbNode 0 0 0 0 Black)]) 0 0)
    (list_to_map [(1, Event false false); (2, Event false false); (3, Event false false)]) (2 ^ 64 - 100).

(** Three timers were set there, and 250 milliseconds have passed. *)
Definition worker1 : timers :=
  Timers (RbTree (list_to_map [(100, RbNode 0 0 0 0 Black); (1, RbNode 100 2 3 0 Black); (2, RbNode (2 ^ 64 - 50) 100 100 1 Red); (3, RbNode 4900 100 100 1 Red)]) 1 100)
    (list_to_map [(1, Event true false); (2, Event true false); (3, Event true false)]) 150.

Definition worker1_list : list (Z * Z) := [(2, 2 ^ 64 - 50); (1, 100); (3, 4900)].

Definition worker_t0 : Z := 2 ^ 64 - 500.

Definition worker_start : timers := default worker0 (ngx_event_timer_init 100 worker0).

Definition worker_ops : list timer_op := [TAdd 1 200; TAdd 2 50; TAdd 3 5000; TDel 3; TAdd 3 5000; TClock 150; TExpire].

Example worker_fires : fst <$> timer_run (rearm 1000) worker_ops worker_start = Some [2; 1].
Proof. vm_compute. reflexivity. Qed.

Lemma worker_started : ngx_event_timer_init 100 worker0 = Some worker_start.
Proof. vm_compute. reflexivity. Qed.

Lemma worker0_fresh : fresh worker_t0 100 worker0.
Proof.
  split; [by eexists|]. split; [reflexivity|]. intros ev e He. unfold worker0, events in He.
  apply elem_of_list_to_map_2 in He. repeat (apply elem_of_cons in He as [[= -> ->]|He]; [split; [done|split; [by eexists|done]]|]). set_solver.
Qed.

Lemma worker1_ok : timers_ok worker_t0 worker1 worker1_list.
Proof.
  constructor.
  - exists 0, (T Black (T Red E 2 (2 ^ 64 - 50) E) 1 100 (T Red E 3 4900 E)). split; [|split; [|reflexivity]].
    + constructor; try reflexivity; [cbn; repeat split|]. apply (bool_decide_unpack _). vm_compute. exact I.
    + split; [reflexivity|]. exists 1%nat. cbn. exists O. repeat split.
  - unfold ranked, worker1_list. repeat (constructor; [|repeat constructor; vm_compute; discriminate]). constructor.
  - repeat constructor.
  - reflexivity.
  - intros ev e He. unfold worker1, events in He. apply elem_of_list_to_map_2 in He.
    repeat (apply elem_of_cons in He as [[= -> ->]|He]; [reflexivity|]). set_solver.
  - intros ev Hev. unfold worker1_list in Hev. cbn in Hev. repeat (apply elem_of_cons in Hev as [->|Hev]; [by eexists|]). set_solver.
  - intros ev [e He]. unfold worker1, events in He. apply elem_of_list_to_map_2 in He.
    repeat (apply elem_of_cons in He as [[= -> ->]|He]; [split; [by eexists|done]|]). set_solver.
Qed.

(** ** Theorems *)

(** C7: from the start of a worker, any sequence of timers set, timers deleted,
    updates of the clock and loops over the expired timers, with handlers that set
    and delete timers too, succeeds: no operation on the tree follows a pointer to no
    node, every loop ends, and the tree always lists the timers that are set, by
    time of expiry, also when the counter of milliseconds wraps around. *)
Theorem timers_run_safe (t0 s : Z) (st st0 : timers) (handler : Z -> timers -> option timers) (ops : list timer_op) :
  fresh t0 s st -> ngx_event_timer_init s st = Some st0 -> ops_ok t0 handler ops st0 ->
  exists evs st' l, timer_run handler ops st0 = Some (evs, st') /\ timers_ok t0 st' l.
Proof.
  intros Hf E0 Hops. destruct (timer_init_ok t0 s st Hf) as (st1 & E1 & H1 & _). rewrite E0 in E1. injection E1 as <-.
  exact (run_keeps t0 handler ops st0 [] H1 Hops).
Qed.

Lemma timers_run_safe_witness :
  exists evs st' l, timer_run (rearm 1000) worker_ops worker_start = Some (evs, st') /\ timers_ok worker_t0 st' l.
Proof.
  apply (timers_run_safe worker_t0 100 worker0 worker_start (rearm 1000) worker_ops worker0_fresh worker_started).
  unfold worker_ops. repeat (split; [|intros evs st' Hst; vm_compute in Hst; injection Hst as <- <-]); cbn [op_ok];
    try (split; [by eexists|reflexivity]); try (by eexists); try reflexivity.
  apply (handler_fewer worker_t0 150), rearm_handler; [lia|reflexivity].
Defined.

(** The time the event loop waits: for ever if no timer is set, otherwise the
    time until the earliest expiry, and no time at all if one is due. *)
Theorem find_timer_least (t0 : Z) (st : timers) (l : list (Z * Z)) :
  timers_ok t0 st l ->
  exists w, ngx_event_find_timer st = Some w /\ (l = [] -> w = NGX_TIMER_INFINITE) /\
    (forall e, e ∈ l -> w <= Z.max 0 (rank_of t0 e.2 - rank_of t0 (current_msec st))) /\
    (l <> [] -> exists e, e ∈ l /\ w = Z.max 0 (rank_of t0 e.2 - rank_of t0 (current_msec st))).
Proof.
  intros H. eexists. split; [exact (find_timer_ok t0 st l H)|]. destruct l as [|e l]; [set_solver|].
  pose proof (ok_order _ _ _ H) as Hs. pose proof (ok_near _ _ _ H) as [He HF]%Forall_cons.
  rewrite (near_diff t0 _ _ He (ok_now _ _ _ H)). split; [done|]. split; [|intros _; exists e; split; [by left|done]].
  apply StronglySorted_inv in Hs as [_ Hs]. rewrite Forall_forall in Hs. intros f [->|Hf]%elem_of_cons; [lia|]. specialize (Hs f Hf). cbn in Hs. lia.
Qed.

Lemma find_timer_least_witness :
  exists w, ngx_event_find_timer worker1 = Some w /\ (worker1_list = [] -> w = NGX_TIMER_INFINITE) /\
    (forall e, e ∈ worker1_list -> w <= Z.max 0 (rank_of worker_t0 e.2 - rank_of worker_t0 150)) /\
    (worker1_list <> [] -> exists e, e ∈ worker1_list /\ w = Z.max 0 (rank_of worker_t0 e.2 - rank_of worker_t0 150)).
Proof. exact (find_timer_least worker_t0 worker1 worker1_list worker1_ok). Defined.

(** C10: the loop over the expired timers, with handlers that do not touch timers that
    are due: it calls the handler of every event whose timer is due, exactly
    once and in the order of the times of expiry, of no other event, and
    ends with no timer due. *)
Theorem expire_fires_due (t0 now : Z) (st : timers) (l : list (Z * Z)) (handler : Z -> timers -> option timers) :
  TimerHandler t0 now eq handler -> timers_ok t0 st l -> current_msec st = now ->
  exists st' l', ngx_event_expire_timers handler (expire_fuel st) st = Some (map fst (filter (due now) l), st') /\
    NoDup (map fst (filter (due now) l)) /\ timers_ok t0 st' l' /\ current_msec st' = now /\ filter (due now) l' = [].
Proof.
  intros Hh H Hnow. destruct (expire_ok t0 now eq handler _ st l H Hnow (due_fuel t0 st l now H)) as (fired & st' & l' & E1 & -> & H1).
  exists st', l'. split; [done|]. split; [|done]. pose proof (rb_list_nodup _ _ (ok_tree _ _ _ H)) as [_ Hd]%NoDup_cons.
  eapply sublist_NoDup; [exact Hd|]. apply fmap_sublist, sublist_filter.
Qed.

Lemma expire_fires_due_witness :
  exists st' l', ngx_event_expire_timers (rearm 1000) 4 worker1 = Some ([2; 1], st') /\
    NoDup [2; 1] /\ timers_ok worker_t0 st' l' /\ current_msec st' = 150 /\ filter (due 150) l' = [].
Proof.
  apply (expire_fires_due worker_t0 150 worker1 worker1_list (rearm 1000)); [|exact worker1_ok|reflexivity].
  apply rearm_handler; [lia|reflexivity].
Defined.

(** Setting a timer: afterwards the event has one timer, for the time asked or,
    when it was set already, possibly within 300 milliseconds of that time, and the
    timers of the other events are as before. *)
Theorem add_timer_sets (t0 : Z) (st : timers) (l : list (Z * Z)) (ev timer : Z) (e : event) :
  timers_ok t0 st l -> events st !! ev = Some e -> near_time t0 (u64 (current_msec st + timer)) ->
  exists st' l' k, ngx_event_add_timer ev timer st = Some st' /\ timers_ok t0 st' l' /\ (ev, k) ∈ l' /\
    list_delete ev l' = list_delete ev l /\ events st' = <[ev := Event true e.(timedout)]> (events st) /\
    Z.abs (rank_of t0 (u64 (current_msec st + timer)) - rank_of t0 k) < NGX_TIMER_LAZY_DELAY /\
    (e.(timer_set) = false -> k = u64 (current_msec st + timer)).
Proof.
  intros H He Hk. destruct (add_timer_ok t0 st l ev e timer H He Hk) as (st' & l' & k & E1 & H1 & _ & V1 & D1 & I1 & Hc).
  exists st', l', k. split; [done|]. split; [done|]. split; [done|]. split; [done|]. split; [done|].
  destruct Hc as [(-> & _)|(Es & _ & _ & Hd)]; [|split; [done|congruence]].
  split; [|done]. rewrite Z.sub_diag. reflexivity.
Qed.

Lemma add_timer_sets_witness :
  exists st' l' k, ngx_event_add_timer 1 200 worker1 = Some st' /\ timers_ok worker_t0 st' l' /\ (1, k) ∈ l' /\
    list_delete 1 l' = [(2, 2 ^ 64 - 50); (3, 4900)] /\ events st' = <[1 := Event true false]> (events worker1) /\
    Z.abs (rank_of worker_t0 350 - rank_of worker_t0 k) < 300 /\ (true = false -> k = 350).
Proof. apply (add_timer_sets worker_t0 worker1 worker1_list 1 200 (Event true false) worker1_ok); reflexivity. Defined.
