(* ===== verification/NgxBase64.v ===== *)
(** * Base64 (nginx core, [ngx_string.c], [ngx_string.h])

    [ngx_encode_base64], [ngx_decode_base64] and [ngx_decode_base64url].  The
    destination is returned as the list of bytes written; the decoder's
    [NGX_ERROR] is [None]. *)

From S2P Require Import Prelude.

(** ** Encoder *)

Definition basis64_enc : list Z :=
  lit "ABCDEFGHIJKLMNOPQRSTUVWXYZabcdefghijklmnopqrstuvwxyz0123456789+/".

Definition b64c (i : Z) : Z := nth (Z.to_nat i) basis64_enc 0.

Fixpoint ngx_encode_base64 (s : list Z) : list Z :=
  match s with
  | s0 :: s1 :: s2 :: s' =>
      b64c (Z.land (Z.shiftr s0 2) 0x3f)
      :: b64c (Z.lor (Z.shiftl (Z.land s0 3) 4) (Z.shiftr s1 4))
      :: b64c (Z.lor (Z.shiftl (Z.land s1 0x0f) 2) (Z.shiftr s2 6))
      :: b64c (Z.land s2 0x3f)
      :: ngx_encode_base64 s'
  | [s0; s1] =>
      [ b64c (Z.land (Z.shiftr s0 2) 0x3f);
        b64c (Z.lor (Z.shiftl (Z.land s0 3) 4) (Z.shiftr s1 4));
        b64c (Z.shiftl (Z.land s1 0x0f) 2);
        chr "=" ]
  | [s0] =>
      [ b64c (Z.land (Z.shiftr s0 2) 0x3f);
        b64c (Z.shiftl (Z.land s0 3) 4);
        chr "="; chr "=" ]
  | [] => []
  end.

(** [ngx_base64_encoded_length] and [ngx_base64_decoded_length]. *)
Definition ngx_base64_encoded_length (len : Z) : Z := (len + 2) / 3 * 4.
Definition ngx_base64_decoded_length (len : Z) : Z := (len + 3) / 4 * 3.

(** ** Decoder *)

Definition row77 : list Z := replicate 16 77.

Definition basis64_std : list Z :=
  row77 ++ row77 ++
  [77; 77; 77; 77; 77; 77; 77; 77; 77; 77; 77; 62; 77; 77; 77; 63;
   52; 53; 54; 55; 56; 57; 58; 59; 60; 61; 77; 77; 77; 77; 77; 77;
   77;  0;  1;  2;  3;  4;  5;  6;  7;  8;  9; 10; 11; 12; 13; 14;
   15; 16; 17; 18; 19; 20; 21; 22; 23; 24; 25; 77; 77; 77; 77; 77;
   77; 26; 27; 28; 29; 30; 31; 32; 33; 34; 35; 36; 37; 38; 39; 40;
   41; 42; 43; 44; 45; 46; 47; 48; 49; 50; 51; 77; 77; 77; 77; 77] ++
  row77 ++ row77 ++ row77 ++ row77 ++ row77 ++ row77 ++ row77 ++ row77.

Definition basis64_url : list Z :=
  row77 ++ row77 ++
  [77; 77; 77; 77; 77; 77; 77; 77; 77; 77; 77; 77; 77; 62; 77; 77;
   52; 53; 54; 55; 56; 57; 58; 59; 60; 61; 77; 77; 77; 77; 77; 77;
   77;  0;  1;  2;  3;  4;  5;  6;  7;  8;  9; 10; 11; 12; 13; 14;
   15; 16; 17; 18; 19; 20; 21; 22; 23; 24; 25; 77; 77; 77; 77; 63;
   77; 26; 27; 28; 29; 30; 31; 32; 33; 34; 35; 36; 37; 38; 39; 40;
   41; 42; 43; 44; 45; 46; 47; 48; 49; 50; 51; 77; 77; 77; 77; 77] ++
  row77 ++ row77 ++ row77 ++ row77 ++ row77 ++ row77 ++ row77 ++ row77.

Section decoder.
Context (basis : list Z).

Definition b64v (c : Z) : Z := nth (Z.to_nat c) basis 77.

(** The first loop: the bytes before the first ["="], or an error at a byte
    outside the alphabet. *)
Fixpoint b64_scan (src : list Z) : option (list Z) :=
  match src with
  | [] => Some []
  | c :: src' =>
      if c =? chr "=" then Some []
      else if b64v c =? 77 then None
      else match b64_scan src' with
           | Some l => Some (c :: l)
           | None => None
           end
  end.

(** The second loop, on the [len] bytes the first one accepted. *)
Fixpoint b64_groups (s : list Z) : list Z :=
  match s with
  | s0 :: s1 :: s2 :: s3 :: s' =>
      u8 (Z.lor (Z.shiftl (b64v s0) 2) (Z.shiftr (b64v s1) 4))
      :: u8 (Z.lor (Z.shiftl (b64v s1) 4) (Z.shiftr (b64v s2) 2))
      :: u8 (Z.lor (Z.shiftl (b64v s2) 6) (b64v s3))
      :: b64_groups s'
  | [s0; s1; s2] =>
      [ u8 (Z.lor (Z.shiftl (b64v s0) 2) (Z.shiftr (b64v s1) 4));
        u8 (Z.lor (Z.shiftl (b64v s1) 4) (Z.shiftr (b64v s2) 2)) ]
  | [s0; s1] =>
      [ u8 (Z.lor (Z.shiftl (b64v s0) 2) (Z.shiftr (b64v s1) 4)) ]
  | _ => []
  end.

Definition ngx_decode_base64_internal (src : list Z) : option (list Z) :=
  match b64_scan src with
  | None => None
  | Some s => if zlen s mod 4 =? 1 then None else Some (b64_groups s)
  end.
End decoder.

Definition ngx_decode_base64 (src : list Z) : option (list Z) :=
  ngx_decode_base64_internal basis64_std src.

Definition ngx_decode_base64url (src : list Z) : option (list Z) :=
  ngx_decode_base64_internal basis64_url src.

(** ** Lemmas *)

(** Induction three bytes at a time, as the encoder goes. *)
Lemma triple_ind (P : list Z -> Prop) :
  P [] -> (forall a, P [a]) -> (forall a b, P [a; b]) ->
  (forall a b c l, P l -> P (a :: b :: c :: l)) -> forall l, P l.
Proof.
  intros H0 H1 H2 H3.
  assert (H : forall l, P l /\ (forall a, P (a :: l)) /\ (forall a b, P (a :: b :: l))).
  { induction l as [|x l (IH0 & IH1 & IH2)]; auto. }
  intros l. apply H.
Qed.

Lemma quad_ind (P : list Z -> Prop) :
  P [] -> (forall a, P [a]) -> (forall a b, P [a; b]) ->
  (forall a b c, P [a; b; c]) ->
  (forall a b c d l, P l -> P (a :: b :: c :: d :: l)) -> forall l, P l.
Proof.
  intros H0 H1 H2 H3 H4.
  assert (H : forall l, P l /\ (forall a, P (a :: l)) /\ (forall a b, P (a :: b :: l))
              /\ (forall a b c, P (a :: b :: c :: l))).
  { induction l as [|x l (IH0 & IH1 & IH2 & IH3)]; auto 6. }
  intros l. apply H.
Qed.

(** The decoding table inverts the encoding alphabet, which avoids ["="]. *)
Lemma b64v_b64c i :
  0 <= i < 64 -> b64v basis64_std (b64c i) = i /\ b64c i <> chr "=".
Proof.
  intros Hi.
  pose proof (zrange_forall 64
    (fun i => (b64v basis64_std (b64c i) =? i) && negb (b64c i =? chr "="))
    ltac:(vm_compute; reflexivity) i Hi) as H.
  rewrite andb_true_iff, negb_true_iff in H. lia.
Qed.

(** The four six-bit indices of a group of three bytes. *)
Definition sx0 (a : Z) : Z := Z.land (Z.shiftr a 2) 0x3f.
Definition sx1 (a b : Z) : Z := Z.lor (Z.shiftl (Z.land a 3) 4) (Z.shiftr b 4).
Definition sx2 (b c : Z) : Z := Z.lor (Z.shiftl (Z.land b 0x0f) 2) (Z.shiftr c 6).
Definition sx3 (c : Z) : Z := Z.land c 0x3f.

Definition below64 (i : Z) : bool := (0 <=? i) && (i <? 64).

Lemma below64_spec i : below64 i = true -> 0 <= i < 64.
Proof. unfold below64. rewrite andb_true_iff. lia. Qed.

Lemma sx_bound a b :
  is_byte a -> is_byte b ->
  0 <= sx0 a < 64 /\ 0 <= sx1 a b < 64 /\ 0 <= sx2 a b < 64 /\ 0 <= sx3 a < 64.
Proof.
  intros Ha Hb.
  pose proof (zrange_forall2 256 256
    (fun a b => below64 (sx0 a) && below64 (sx1 a b) && below64 (sx2 a b)
                && below64 (sx3 a))
    ltac:(vm_compute; reflexivity) a b Ha Hb) as H.
  rewrite !andb_true_iff in H. destruct H as [[[? ?] ?] ?].
  auto using below64_spec.
Qed.

Lemma sx_first a b :
  is_byte a -> is_byte b -> u8 (Z.lor (Z.shiftl (sx0 a) 2) (Z.shiftr (sx1 a b) 4)) = a.
Proof.
  intros Ha Hb. apply Z.eqb_eq.
  exact (zrange_forall2 256 256
    (fun a b => u8 (Z.lor (Z.shiftl (sx0 a) 2) (Z.shiftr (sx1 a b) 4)) =? a)
    ltac:(vm_compute; reflexivity) a b Ha Hb).
Qed.

Lemma sx_second a b c :
  is_byte a -> is_byte b -> is_byte c ->
  u8 (Z.lor (Z.shiftl (sx1 a b) 4) (Z.shiftr (sx2 b c) 2)) = b.
Proof.
  intros Ha Hb Hc. unfold sx1, sx2.
  assert (Hl : 0 <= Z.land a 3 < 4)
    by (change 3 with (Z.ones 2); rewrite Z.land_ones by lia; apply Z.mod_pos_bound; lia).
  assert (Hh : 0 <= Z.shiftr c 6 < 4)
    by (rewrite Z.shiftr_div_pow2 by lia; unfold is_byte in Hc; change (2 ^ 6) with 64; divlia).
  apply Z.eqb_eq. generalize dependent (Z.land a 3). generalize dependent (Z.shiftr c 6).
  intros x Hx y Hy.
  exact (zrange_forall3 4 4 256
    (fun x y b => u8 (Z.lor (Z.shiftl (Z.lor (Z.shiftl y 4) (Z.shiftr b 4)) 4)
                        (Z.shiftr (Z.lor (Z.shiftl (Z.land b 0x0f) 2) x) 2)) =? b)
    ltac:(vm_compute; reflexivity) x y b Hx Hy Hb).
Qed.

Lemma sx_third b c :
  is_byte b -> is_byte c -> u8 (Z.lor (Z.shiftl (sx2 b c) 6) (sx3 c)) = c.
Proof.
  intros Hb Hc. apply Z.eqb_eq.
  exact (zrange_forall2 256 256
    (fun b c => u8 (Z.lor (Z.shiftl (sx2 b c) 6) (sx3 c)) =? c)
    ltac:(vm_compute; reflexivity) b c Hb Hc).
Qed.

Lemma b64_scan_cons i l :
  0 <= i < 64 ->
  b64_scan basis64_std (b64c i :: l) =
  match b64_scan basis64_std l with Some l' => Some (b64c i :: l') | None => None end.
Proof.
  intros Hi. destruct (b64v_b64c i Hi) as [Hv He]. cbn [b64_scan].
  rewrite Hv. destruct (Z.eqb_spec (b64c i) 61); [done|]. zcases. done.
Qed.

(** A group of four encoded bytes decodes to the three bytes it came from. *)
Lemma b64_group4 a b c t :
  is_byte a -> is_byte b -> is_byte c ->
  b64_groups basis64_std
    (b64c (sx0 a) :: b64c (sx1 a b) :: b64c (sx2 b c) :: b64c (sx3 c) :: t)
  = a :: b :: c :: b64_groups basis64_std t.
Proof.
  intros Ha Hb Hc. cbn [b64_groups].
  destruct (sx_bound a b Ha Hb) as (B0 & B1 & _ & _).
  destruct (sx_bound b c Hb Hc) as (_ & _ & B2 & _).
  destruct (sx_bound c c Hc Hc) as (_ & _ & _ & B3).
  rewrite !(proj1 (b64v_b64c _ B0)), !(proj1 (b64v_b64c _ B1)),
    !(proj1 (b64v_b64c _ B2)), !(proj1 (b64v_b64c _ B3)).
  rewrite sx_first, sx_second, sx_third by done. done.
Qed.

Lemma sx1_0 a : Z.shiftl (Z.land a 3) 4 = sx1 a 0.
Proof. unfold sx1. rewrite Z.shiftr_0_l, Z.lor_0_r. done. Qed.

Lemma sx2_0 b : Z.shiftl (Z.land b 0x0f) 2 = sx2 b 0.
Proof. unfold sx2. rewrite Z.shiftr_0_l, Z.lor_0_r. done. Qed.

Lemma encode_scan s :
  bytes s ->
  exists t, b64_scan basis64_std (ngx_encode_base64 s) = Some t /\
    zlen t mod 4 <> 1 /\ b64_groups basis64_std t = s.
Proof.
  assert (is_byte 0) as Z0 by (unfold is_byte; lia).
  induction s as [|a|a b|a b c s IH] using triple_ind; intros Hs;
    rewrite ?Forall_cons in Hs; cbn [ngx_encode_base64];
    repeat change (Z.land (Z.shiftr ?x 2) 0x3f) with (sx0 x);
    repeat change (Z.lor (Z.shiftl (Z.land ?x 3) 4) (Z.shiftr ?y 4)) with (sx1 x y);
    repeat change (Z.lor (Z.shiftl (Z.land ?x 0x0f) 2) (Z.shiftr ?y 6)) with (sx2 x y);
    repeat change (Z.land ?x 0x3f) with (sx3 x);
    rewrite ?sx1_0, ?sx2_0.
  - exists []. split; [done|]. split; [vm_compute; done | done].
  - destruct Hs as [Ha _]. destruct (sx_bound a 0 Ha Z0) as (B0 & B1 & _).
    exists [b64c (sx0 a); b64c (sx1 a 0)]. rewrite !b64_scan_cons by done.
    split; [done|]. split; [vm_compute; done|]. cbn [b64_groups].
    rewrite (proj1 (b64v_b64c _ B0)), (proj1 (b64v_b64c _ B1)), sx_first by done. done.
  - destruct Hs as (Ha & Hb & _). destruct (sx_bound a b Ha Hb) as (B0 & B1 & _).
    destruct (sx_bound b 0 Hb Z0) as (_ & _ & B2 & _).
    exists [b64c (sx0 a); b64c (sx1 a b); b64c (sx2 b 0)].
    rewrite !b64_scan_cons by done.
    split; [done|]. split; [vm_compute; done|]. cbn [b64_groups].
    rewrite (proj1 (b64v_b64c _ B0)), !(proj1 (b64v_b64c _ B1)), (proj1 (b64v_b64c _ B2)).
    rewrite sx_first, sx_second by done. done.
  - destruct Hs as (Ha & Hb & Hc & Hs). destruct (IH Hs) as (t & Ht & Hm & Hg).
    destruct (sx_bound a b Ha Hb) as (B0 & B1 & _ & _).
    destruct (sx_bound b c Hb Hc) as (_ & _ & B2 & _).
    destruct (sx_bound c c Hc Hc) as (_ & _ & _ & B3).
    rewrite !b64_scan_cons, Ht by done. eexists. split; [done|].
    rewrite b64_group4, Hg by done. split; [|done].
    autorewrite with ngx. replace (1 + _) with (zlen t + 1 * 4) by lia.
    rewrite Z_mod_plus_full. done.
Qed.

Lemma b64_groups_length basis s :
  zlen (b64_groups basis s) = zlen s * 3 / 4.
Proof.
  induction s as [|a|a b|a b c|a b c d s IH] using quad_ind; try done.
  cbn [b64_groups]. autorewrite with ngx. rewrite IH. divlia.
Qed.

Lemma b64_scan_length basis src t : b64_scan basis src = Some t -> zlen t <= zlen src.
Proof.
  revert t; induction src as [|c src IH]; intros t; cbn [b64_scan].
  { by intros [= <-]. }
  repeat case_match; intros; simplify_eq; autorewrite with ngx;
    pose proof (zlen_nonneg src); try lia.
  specialize (IH _ eq_refl). lia.
Qed.

(** ** Properties *)

(** Base64 round trip: decoding what the encoder wrote gives the encoded
    bytes back, for every byte string. *)
Theorem base64_roundtrip s :
  bytes s -> ngx_decode_base64 (ngx_encode_base64 s) = Some s.
Proof.
  intros Hs. destruct (encode_scan s Hs) as (t & Ht & Hm & Hg).
  unfold ngx_decode_base64, ngx_decode_base64_internal.
  rewrite Ht, Hg. by apply Z.eqb_neq in Hm as ->.
Qed.

Lemma base64_roundtrip_witness :
  bytes (lit "user:pass") /\
  ngx_decode_base64 (ngx_encode_base64 (lit "user:pass")) = Some (lit "user:pass").
Proof.
  assert (H : bytes (lit "user:pass"))
    by (repeat constructor; unfold is_byte; lia).
  split; [exact H | exact (base64_roundtrip _ H)].
Defined.

(** The sizes callers reserve are right: the encoder writes exactly
    [ngx_base64_encoded_length] bytes, and either decoder writes at most
    [ngx_base64_decoded_length] bytes. *)
Theorem base64_lengths s src :
  zlen (ngx_encode_base64 s) = ngx_base64_encoded_length (zlen s) /\
  (forall d, ngx_decode_base64 src = Some d \/ ngx_decode_base64url src = Some d ->
     zlen d <= ngx_base64_decoded_length (zlen src)).
Proof.
  split.
  - unfold ngx_base64_encoded_length.
    induction s as [|a|a b|a b c s IH] using triple_ind; try done.
    cbn [ngx_encode_base64]. autorewrite with ngx. rewrite IH. divlia.
  - intros d. unfold ngx_decode_base64, ngx_decode_base64url, ngx_decode_base64_internal.
    unfold ngx_base64_decoded_length.
    intros [H|H]; repeat case_match; simplify_eq; rewrite b64_groups_length;
      match goal with E : b64_scan _ _ = Some _ |- _ => apply b64_scan_length in E end;
      pose proof (zlen_nonneg src); divlia.
Qed.

Lemma base64_lengths_witness :
  zlen (lit "ab") <= ngx_base64_decoded_length (zlen (lit "YWI=")).
Proof.
  apply (proj2 (base64_lengths [] (lit "YWI=")) (lit "ab")). left. vm_compute. done.
Defined.
