(* ===== verification/NgxUtf8.v ===== *)
(** * UTF-8 (nginx core, [ngx_string.c])

    Decoding, counting and copying of texts in UTF-8.  A string is given with all
    bytes that may be read behind it; a read behind these is undefined ([None]). *)

From S2P Require Import Prelude.

(** ** The functions *)

(** The loop of [ngx_utf8_decode] over [len] further bytes: the character, or
    none, with the number of bytes taken. *)
Fixpoint decode_loop (len : nat) (p : list Z) (u : Z) (taken : nat) : option (option Z * nat) :=
  match len with
  | O => Some (Some u, taken)
  | S len =>
      match p with
      | [] => None
      | i :: p => if i <? 0x80 then Some (None, S taken) else decode_loop len p (Z.lor (u32 (Z.shiftl u 6)) (Z.land i 0x3f)) (S taken)
      end
  end.

(** The value and how far the pointer moved. *)
Definition ngx_utf8_decode (p : list Z) (n : Z) : option (Z * nat) :=
  match p with
  | [] => None
  | u :: p =>
      let multi u valid len :=
        if u64 (n - 1) <? Z.of_nat len then Some (0xfffffffe, O)
        else
          match decode_loop len p u 1 with
          | None => None
          | Some (Some u, taken) => Some (if u >? valid then u else 0xffffffff, taken)
          | Some (None, taken) => Some (0xffffffff, taken)
          end in
      if u >=? 0xf0 then multi (Z.land u 0x07) 0xffff 3%nat
      else if u >=? 0xe0 then multi (Z.land u 0x0f) 0x7ff 2%nat
      else if u >=? 0xc2 then multi (Z.land u 0x1f) 0x7f 1%nat
      else Some (0xffffffff, 1%nat)
  end.

(** The loop of [ngx_utf8_length], [left] bytes before the end of the string of
    [n]; the decoder is given [n] every time. *)
Fixpoint utf8_length_loop (fuel : nat) (p : list Z) (left : Z) (n len : Z) : option Z :=
  match fuel with
  | O => None
  | S fuel =>
      if left <=? 0 then Some len
      else
        match p with
        | [] => None
        | c :: p' =>
            if c <? 0x80 then utf8_length_loop fuel p' (left - 1) n (len + 1)
            else
              match ngx_utf8_decode p n with
              | None => None
              | Some (u, k) => if u >? 0x10ffff then Some n else utf8_length_loop fuel (drop k p) (left - Z.of_nat k) n (len + 1)
              end
        end
  end.

Definition ngx_utf8_length (p : list Z) (n : Z) : option Z := utf8_length_loop (S (Z.to_nat n)) p n n 0.

(** What [ngx_utf8_cpystrn] leaves at [dst], with the zero byte. *)
Fixpoint ngx_utf8_cpystrn (src : list Z) (n : nat) (len : Z) : option (list Z) :=
  match n with
  | O => Some []
  | S n =>
      match n with
      | O => Some [0]
      | S _ =>
          match src with
          | [] => None
          | c :: src' =>
              if c <? 0x80 then if c =? 0 then Some [0] else cons c <$> ngx_utf8_cpystrn src' n (u64 (len - 1))
              else
                match ngx_utf8_decode src len with
                | None => None
                | Some (u, k) => if u >? 0x10ffff then Some [0] else app (take k src) <$> ngx_utf8_cpystrn (drop k src) n (u64 (len - Z.of_nat k))
                end
          end
      end
  end.

(** ** Texts *)

(** The encoding of a character. *)
Definition utf8_char (u : Z) : list Z :=
  if u <? 0x80 then [u]
  else if u <? 0x800 then [0xc0 + u / 64; 0x80 + u mod 64]
  else if u <? 0x10000 then [0xe0 + u / 4096; 0x80 + u / 64 mod 64; 0x80 + u mod 64]
  else [0xf0 + u / 262144; 0x80 + u / 4096 mod 64; 0x80 + u / 64 mod 64; 0x80 + u mod 64].

Definition utf8_text (us : list Z) : list Z := concat (map utf8_char us).
Definition character (u : Z) : Prop := 0 < u <= 0x10ffff.

Lemma decode_more len x p v t : 0 <= x < 64 -> 0 <= v < 2 ^ 26 -> decode_loop (S len) (0x80 + x :: p) v t = decode_loop len p (v * 64 + x) (S t).
Proof.
  intros Hx Hv. cbn [decode_loop]. rewrite (proj2 (Z.ltb_ge (0x80 + x) 0x80)) by lia. f_equal.
  change 0x3f with (Z.ones 6). rewrite Z.land_ones by done.
  assert (E : (0x80 + x) mod 2 ^ 6 = x) by (symmetry; apply (Z.mod_unique _ _ 2); lia). rewrite E.
  rewrite u32_small by (rewrite Z.shiftl_mul_pow2 by done; lia). by apply (lor_shiftl_add v x 6).
Qed.

Lemma utf8_char_length u : (1 <= length (utf8_char u) <= 4)%nat.
Proof. unfold utf8_char. repeat case_match; cbn; lia. Qed.

(** A character is decoded as it was encoded. *)
Theorem utf8_roundtrip u rest n : 0x80 <= u <= 0x10ffff -> zlen (utf8_char u) <= n < 2 ^ 64 ->
  ngx_utf8_decode (utf8_char u ++ rest) n = Some (u, length (utf8_char u)).
Proof.
  intros Hu Hn. unfold utf8_char in *. rewrite (proj2 (Z.ltb_ge u 0x80)) in * by lia.
  assert (Hm : forall a, 0 <= a mod 64 < 64) by (intros a; apply Z.mod_pos_bound; done).
  assert (Hl : forall b k, 0 <= k -> b mod 2 ^ k = 0 -> forall x, 0 <= x < 2 ^ k -> Z.land (b + x) (Z.ones k) = x).
  { intros b k Hk Hb x Hx. rewrite Z.land_ones by done. rewrite <- Zplus_mod_idemp_l, Hb. by apply Z.mod_small. }
  pose proof (Z.div_mod u 64 ltac:(done)). pose proof (Z.div_mod (u / 64) 64 ltac:(done)). pose proof (Z.div_mod (u / 4096) 64 ltac:(done)).
  assert (E1 : u / 4096 = u / 64 / 64) by (rewrite Z.div_div by done; done). assert (E2 : u / 262144 = u / 4096 / 64) by (rewrite Z.div_div by done; done).
  pose proof (Hm u). pose proof (Hm (u / 64)). pose proof (Hm (u / 4096)).
  destruct (Z.ltb_spec u 0x800) as [U2|U2]; [|destruct (Z.ltb_spec u 0x10000) as [U3|U3]]; unfold zlen in Hn; cbn [length app] in Hn |- *; unfold ngx_utf8_decode; rewrite (u64_small (n - 1)) by lia; rewrite !Z.geb_leb.
  - rewrite (Hl 0xc0 5) by (done || lia). zcases. rewrite decode_more by lia. cbn [decode_loop]. rewrite Z.gtb_ltb. zcases. f_equal; f_equal; lia.
  - rewrite (Hl 0xe0 4) by (done || lia). zcases. rewrite !decode_more by lia. cbn [decode_loop]. rewrite Z.gtb_ltb. zcases. f_equal; f_equal; lia.
  - rewrite (Hl 0xf0 3) by (done || lia). zcases. rewrite !decode_more by lia. cbn [decode_loop]. rewrite Z.gtb_ltb. zcases. f_equal; f_equal; lia.
Qed.

Lemma utf8_text_cons u us : utf8_text (u :: us) = utf8_char u ++ utf8_text us.
Proof. done. Qed.

Lemma utf8_small u : u < 0x80 -> utf8_char u = [u].
Proof. intros H. unfold utf8_char. by rewrite (proj2 (Z.ltb_lt _ _) H). Qed.

(** The first byte tells whether the character has more. *)
Lemma utf8_first u : 0x80 <= u <= 0x10ffff -> exists c l, utf8_char u = c :: l /\ 0x80 <= c.
Proof.
  intros H. unfold utf8_char. rewrite (proj2 (Z.ltb_ge u 0x80)) by lia. assert (0 <= u / 64 /\ 0 <= u / 4096 /\ 0 <= u / 262144) by (split_and!; apply Z.div_pos; lia).
  destruct (u <? 0x800), (u <? 0x10000); eexists _, _; (split; [done|lia]).
Qed.

Lemma utf8_text_length us : zlen us <= zlen (utf8_text us).
Proof. induction us as [|u us IH]; [done|]. rewrite utf8_text_cons. unfold zlen in *. rewrite length_app. pose proof (utf8_char_length u). cbn [length]. lia. Qed.

Lemma length_loop_text us n : forall fuel rest len, Forall character us -> (length us < fuel)%nat -> zlen (utf8_text us) <= n < 2 ^ 64 ->
  utf8_length_loop fuel (utf8_text us ++ rest) (zlen (utf8_text us)) n len = Some (len + zlen us).
Proof.
  induction us as [|u us IH]; intros fuel rest len Hu Hf Hn; (destruct fuel as [|fuel]; [cbn in Hf; lia|]); cbn [utf8_length_loop]; [unfold zlen; cbn; by rewrite Z.add_0_r|].
  inversion_clear Hu as [|? ? Hc Hu']. unfold character in Hc. rewrite utf8_text_cons in *. rewrite <- app_assoc. pose proof (utf8_char_length u) as Hl. cbn [length] in Hf.
  unfold zlen in *. rewrite length_app in *. rewrite (proj2 (Z.leb_gt _ 0)) by lia. destruct (Z.lt_ge_cases u 0x80) as [Hs|Hs].
  - rewrite utf8_small in * by done. cbn [app length] in *. rewrite (proj2 (Z.ltb_lt u 0x80)) by done.
    replace (Z.of_nat (1 + length (utf8_text us)) - 1) with (Z.of_nat (length (utf8_text us))) by lia. rewrite IH by (done || lia). f_equal. lia.
  - pose proof (utf8_roundtrip u (utf8_text us ++ rest) n ltac:(lia) ltac:(unfold zlen; lia)) as Hd. destruct (utf8_first u ltac:(lia)) as (c & l & E & Hc80). rewrite E in Hd |- *. cbn [app] in Hd |- *.
    rewrite (proj2 (Z.ltb_ge c 0x80)) by done. rewrite Hd. rewrite Z.gtb_ltb, (proj2 (Z.ltb_ge _ u)) by lia. cbn [length drop]. rewrite drop_app_length.
    replace (Z.of_nat (S (length l) + length (utf8_text us)) - Z.of_nat (S (length l))) with (Z.of_nat (length (utf8_text us))) by lia. rewrite IH by (done || lia). f_equal. cbn [length]. lia.
Qed.

(** The length of a text is the number of its characters. *)
Theorem utf8_length_counts us rest : Forall character us -> zlen (utf8_text us) < 2 ^ 64 ->
  ngx_utf8_length (utf8_text us ++ rest) (zlen (utf8_text us)) = Some (zlen us).
Proof.
  intros Hu Hl. unfold ngx_utf8_length. pose proof (utf8_text_length us). rewrite length_loop_text; [done|done|unfold zlen in *; lia|lia].
Qed.

(** At most [n - 1] characters are copied, and all of each. *)
Theorem utf8_copies_characters us rest : forall n len, Forall character us -> zlen (utf8_text us) <= len < 2 ^ 64 ->
  ngx_utf8_cpystrn (utf8_text us ++ 0 :: rest) (S n) len = Some (utf8_text (take n us) ++ [0]).
Proof.
  induction us as [|u us IH]; intros n len Hu Hl; (destruct n as [|n]; [done|]); [done|].
  inversion_clear Hu as [|? ? Hc Hu']. unfold character in Hc. rewrite utf8_text_cons in *. rewrite <- app_assoc. cbn [take]. rewrite utf8_text_cons.
  unfold zlen in *. rewrite length_app in Hl. destruct (Z.lt_ge_cases u 0x80) as [Hs|Hs].
  - rewrite (utf8_small u Hs) in *. cbn [app length] in *. remember (S n) as m eqn:Em. cbn [ngx_utf8_cpystrn]. rewrite Em at 1. rewrite (proj2 (Z.ltb_lt u 0x80)) by done. rewrite (proj2 (Z.eqb_neq u 0)) by lia.
    subst m. rewrite u64_small by lia. rewrite IH by (done || lia). done.
  - pose proof (utf8_roundtrip u (utf8_text us ++ 0 :: rest) len ltac:(lia) ltac:(unfold zlen; lia)) as Hd. destruct (utf8_first u ltac:(lia)) as (c & l & E & Hc80). rewrite E in Hd, Hl |- *. cbn [app length] in Hd, Hl |- *.
    remember (S n) as m eqn:Em. cbn [ngx_utf8_cpystrn]. rewrite Em at 1. rewrite (proj2 (Z.ltb_ge c 0x80)) by done. rewrite Hd. rewrite Z.gtb_ltb, (proj2 (Z.ltb_ge _ u)) by lia.
    cbn [drop take]. rewrite drop_app_length, take_app_length. subst m. rewrite u64_small by lia. rewrite IH by (done || lia). cbn. by rewrite <- app_assoc.
Qed.

(** The decoder is told the length of the whole string and not of what is left:
    a character that is cut at the end is read beyond it. *)
Lemma utf8_length_reads_on : ngx_utf8_length [97; 97; 97; 0xe2; 0x82] 5 = None /\ ngx_utf8_length [0xe2; 0x82] 2 = Some 2.
Proof. done. Qed.
