(* ===== verification/NgxEscape.v ===== *)
(** * Escaping (nginx core, [ngx_string.c])

    [ngx_escape_uri], [ngx_unescape_uri] and [ngx_escape_html].  The escaping
    functions are called twice: with [dst == NULL] to count, then to write
    into a buffer of the counted size; the two modes are two definitions here
    ([..._count] and the writer). *)

From S2P Require Import Prelude NgxNumber.

(** ** Escape bitmaps *)

(** [escape[c >> 5] & (1 << (c & 0x1f))], on a table of eight 32-bit words. *)
Definition esc_bit (tab : list Z) (c : Z) : bool :=
  negb (Z.land (nth (Z.to_nat (Z.shiftr c 5)) tab 0)
          (u32 (Z.shiftl 1 (Z.land c 0x1f))) =? 0).

Definition esc_high : list Z := [0xffffffff; 0xffffffff; 0xffffffff; 0xffffffff].

Definition esc_uri : list Z :=
  [0xffffffff; 0x80000029; 0x00000000; 0x80000000] ++ esc_high.
Definition esc_args : list Z :=
  [0xffffffff; 0x88000869; 0x00000000; 0x80000000] ++ esc_high.
Definition esc_uri_component : list Z :=
  [0xffffffff; 0xfc009fff; 0x78000001; 0xb8000001] ++ esc_high.
Definition esc_html : list Z :=
  [0xffffffff; 0x000000ad; 0x00000000; 0x80000000] ++ esc_high.
Definition esc_refresh : list Z :=
  [0xffffffff; 0x00000085; 0x00000000; 0x80000000] ++ esc_high.
Definition esc_memcached : list Z :=
  [0xffffffff; 0x00000021; 0x00000000; 0x00000000;
   0x00000000; 0x00000000; 0x00000000; 0x00000000].

Inductive escape_type :=
  | NGX_ESCAPE_URI
  | NGX_ESCAPE_ARGS
  | NGX_ESCAPE_URI_COMPONENT
  | NGX_ESCAPE_HTML
  | NGX_ESCAPE_REFRESH
  | NGX_ESCAPE_MEMCACHED
  | NGX_ESCAPE_MAIL_AUTH.

Definition escape_map (type : escape_type) : list Z :=
  match type with
  | NGX_ESCAPE_URI => esc_uri
  | NGX_ESCAPE_ARGS => esc_args
  | NGX_ESCAPE_URI_COMPONENT => esc_uri_component
  | NGX_ESCAPE_HTML => esc_html
  | NGX_ESCAPE_REFRESH => esc_refresh
  | NGX_ESCAPE_MEMCACHED => esc_memcached
  | NGX_ESCAPE_MAIL_AUTH => esc_memcached
  end.

(** ** Escaping *)

(** The counting loop, shared by every bitmap. *)
Fixpoint esc_count (tab : list Z) (src : list Z) : Z :=
  match src with
  | [] => 0
  | c :: src' => (if esc_bit tab c then 1 else 0) + esc_count tab src'
  end.

(** The writing loop with what an escaped byte starts with and its digits. *)
Fixpoint esc_write (tab pre hex : list Z) (src : list Z) : list Z :=
  match src with
  | [] => []
  | c :: src' =>
      if esc_bit tab c then
        pre ++ hex_digit hex (Z.shiftr c 4) :: hex_digit hex (Z.land c 0xf)
        :: esc_write tab pre hex src'
      else c :: esc_write tab pre hex src'
  end.

Definition ngx_escape_uri_count (type : escape_type) (src : list Z) : Z :=
  esc_count (escape_map type) src.

Definition ngx_escape_uri (type : escape_type) (src : list Z) : list Z :=
  esc_write (escape_map type) (lit "%") hex_lower src.

(** ** Unescaping *)

(** [decoded] is the value of the first digit, [first] the digit itself
    (read again as [s[-2]]). *)
Inductive unescape_state :=
  | sw_usual
  | sw_quoted
  | sw_quoted_second (decoded first : Z).

(** One turn of the loop: the bytes written, and the next state, or [None]
    for [goto done]. [uri] and [redirect] are the bits of [type]. *)
Definition unescape_step (uri redirect : bool) (st : unescape_state) (ch : Z)
  : list Z * option unescape_state :=
  match st with
  | sw_usual =>
      if (ch =? chr "?") && (uri || redirect) then ([ch], None)
      else if ch =? chr "%" then ([], Some sw_quoted)
      else ([ch], Some sw_usual)
  | sw_quoted =>
      match hex_val ch with
      | Some d => ([], Some (sw_quoted_second d ch))
      | None => ([ch], Some sw_usual)
      end
  | sw_quoted_second decoded first =>
      if is_digit ch then
        let ch' := u8 (Z.shiftl decoded 4 + ch - chr "0") in
        if redirect then
          if (chr "%" <? ch') && (ch' <? 0x7f) then ([ch'], Some sw_usual)
          else ([chr "%"; first; ch], Some sw_usual)
        else ([ch'], Some sw_usual)
      else
        let c := u8 (Z.lor ch 0x20) in
        if (chr "a" <=? c) && (c <=? chr "f") then
          let ch' := u8 (Z.shiftl decoded 4 + c - chr "a" + 10) in
          if uri then
            if ch' =? chr "?" then ([ch'], None) else ([ch'], Some sw_usual)
          else if redirect then
            if ch' =? chr "?" then ([ch'], None)
            else if (chr "%" <? ch') && (ch' <? 0x7f) then ([ch'], Some sw_usual)
            else ([chr "%"; first; ch], Some sw_usual)
          else ([ch'], Some sw_usual)
        else ([], Some sw_usual)
  end.

(** The bytes written to [*dst] and what is left of [*src]. *)
Fixpoint unescape_loop (uri redirect : bool) (st : unescape_state)
    (src : list Z) : list Z * list Z :=
  match src with
  | [] => ([], [])
  | ch :: src' =>
      let (out, next) := unescape_step uri redirect st ch in
      match next with
      | None => (out, src')
      | Some st' =>
          let (out', rest) := unescape_loop uri redirect st' src' in
          (out ++ out', rest)
      end
  end.

(** [NGX_UNESCAPE_URI] is bit 1 and [NGX_UNESCAPE_REDIRECT] bit 2 of [type]. *)
Definition ngx_unescape_uri (type : Z) (src : list Z) : list Z * list Z :=
  unescape_loop (Z.testbit type 0) (Z.testbit type 1) sw_usual src.

(** ** HTML *)

Definition html_extra (c : Z) : Z :=
  if c =? chr "<" then 3
  else if c =? chr ">" then 3
  else if c =? chr "&" then 4
  else if c =? 34 then 5
  else 0.

Definition html_entity (c : Z) : list Z :=
  if c =? chr "<" then lit "&lt;"
  else if c =? chr ">" then lit "&gt;"
  else if c =? chr "&" then lit "&amp;"
  else if c =? 34 then lit "&quot;"
  else [c].

Fixpoint ngx_escape_html_len (src : list Z) : Z :=
  match src with
  | [] => 0
  | c :: src' => html_extra c + ngx_escape_html_len src'
  end.

Fixpoint ngx_escape_html (src : list Z) : list Z :=
  match src with
  | [] => []
  | c :: src' => html_entity c ++ ngx_escape_html src'
  end.

(** ** Lemmas *)

Lemma esc_write_length tab pre hex src :
  zlen (esc_write tab pre hex src) =
  zlen src + (zlen pre + 1) * esc_count tab src.
Proof.
  induction src as [|c src IH]; cbn [esc_write esc_count]; [rewrite zlen_nil; lia|].
  destruct (esc_bit tab c); autorewrite with ngx; rewrite IH; lia.
Qed.

(** The two digits written for a byte read back as the byte. *)
Lemma hex_digit_pair c :
  is_byte c ->
  exists h l, hex_val (hex_digit hex_lower (Z.shiftr c 4)) = Some h /\
    hex_val (hex_digit hex_lower (Z.land c 0xf)) = Some l /\
    c = h * 16 + l /\ 0 <= h < 16 /\ 0 <= l < 16.
Proof.
  intros Hc.
  pose proof (byte_forall
    (fun c => match hex_val (hex_digit hex_lower (Z.shiftr c 4)),
                    hex_val (hex_digit hex_lower (Z.land c 0xf)) with
              | Some h, Some l => (c =? h * 16 + l) && (0 <=? h) && (h <? 16)
                                  && (0 <=? l) && (l <? 16)
              | _, _ => false
              end) ltac:(vm_compute; reflexivity) c Hc) as H. cbn beta in H.
  destruct (hex_val _) as [h|] eqn:Eh; [|done].
  destruct (hex_val (hex_digit _ (Z.land _ _))) as [l|] eqn:El; [|done].
  exists h, l. rewrite !andb_true_iff in H. repeat split; (done || lia).
Qed.

(** In the second quoted state a hexadecimal digit completes the byte. *)
Lemma unescape_second h f ch l :
  hex_val ch = Some l -> 0 <= h < 16 -> 0 <= l < 16 ->
  unescape_step false false (sw_quoted_second h f) ch = ([h * 16 + l], Some sw_usual).
Proof.
  unfold hex_val, unescape_step, is_digit. intros Hv Hh Hl.
  rewrite Z.shiftl_mul_pow2 by lia. change (2 ^ 4) with 16.
  destruct ((48 <=? ch) && (ch <=? 57)); simplify_eq.
  - rewrite u8_small by lia.
    match goal with |- ([?a], _) = ([?b], _) => replace a with b by lia end. done.
  - set (c := u8 (Z.lor ch 0x20)) in *.
    destruct ((97 <=? c) && (c <=? 102)); [|done]. simplify_eq.
    rewrite u8_small by lia.
    match goal with |- ([?a], _) = ([?b], _) => replace a with b by lia end. done.
Qed.

Lemma unescape_escaped c rest :
  is_byte c ->
  unescape_loop false false sw_usual
    (chr "%" :: hex_digit hex_lower (Z.shiftr c 4)
         :: hex_digit hex_lower (Z.land c 0xf) :: rest)
  = let (o, r) := unescape_loop false false sw_usual rest in (c :: o, r).
Proof.
  intros Hc. destruct (hex_digit_pair c Hc) as (h & l & Hh & Hl & Heq & Rh & Rl).
  cbn [unescape_loop unescape_step]. change (37 =? 37) with true. cbn [andb orb].
  rewrite andb_false_r. cbn [unescape_loop unescape_step]. rewrite Hh.
  cbn [unescape_loop].
  rewrite (unescape_second h _ _ l Hl Rh Rl). rewrite <- Heq.
  by destruct (unescape_loop _ _ _ rest).
Qed.

(** Bytes the decoder has read but not yet accounted for. *)
Definition pending (st : unescape_state) : Z :=
  match st with sw_usual => 0 | sw_quoted => 1 | sw_quoted_second _ _ => 2 end.

Lemma unescape_step_len uri redirect st ch :
  let (out, next) := unescape_step uri redirect st ch in
  zlen out + match next with Some st' => pending st' | None => 0 end <= pending st + 1.
Proof.
  destruct st; unfold unescape_step; repeat case_match; simplify_eq; cbn [pending]; autorewrite with ngx; lia.
Qed.

(** ** Properties *)

(** The counting pass of [ngx_escape_uri] sizes the writing pass exactly:
    the escaped text is longer than the source by two bytes for each counted
    byte, and [ngx_escape_html] by the counted number of bytes. *)
Theorem escape_lengths type src :
  zlen (ngx_escape_uri type src) = zlen src + 2 * ngx_escape_uri_count type src /\
  zlen (ngx_escape_html src) = zlen src + ngx_escape_html_len src.
Proof.
  split.
  - unfold ngx_escape_uri, ngx_escape_uri_count. rewrite esc_write_length. change (zlen (lit "%")) with 1. lia.
  - induction src as [|c src IH]; [done|].
    cbn [ngx_escape_html ngx_escape_html_len]. autorewrite with ngx. rewrite IH.
    unfold html_entity, html_extra. repeat case_match; autorewrite with ngx; lia.
Qed.

(** Unescaping inverts escaping, for every escape type but
    [NGX_ESCAPE_REFRESH] (which leaves the percent sign alone): the plain
    decoder applied to the escaped text returns the source and consumes all of
    it. *)
Theorem unescape_escape_uri type src :
  type <> NGX_ESCAPE_REFRESH -> bytes src ->
  ngx_unescape_uri 0 (ngx_escape_uri type src) = (src, []).
Proof.
  intros Ht Hs. unfold ngx_unescape_uri, ngx_escape_uri.
  change (Z.testbit 0 0) with false. change (Z.testbit 0 1) with false.
  assert (Hp : esc_bit (escape_map type) (chr "%") = true) by (destruct type; done).
  induction Hs as [|c src Hc Hs IH]; [done|]. cbn [esc_write].
  destruct (esc_bit _ c) eqn:E.
  - cbn [app]. rewrite unescape_escaped, IH by done. done.
  - cbn [unescape_loop unescape_step]. rewrite andb_false_r.
    destruct (Z.eqb_spec c 37); [subst; by rewrite Hp in E|]. rewrite IH. done.
Qed.

Lemma unescape_escape_uri_witness :
  ngx_unescape_uri 0 (ngx_escape_uri NGX_ESCAPE_ARGS (lit "a b&100%")) = (lit "a b&100%", []).
Proof.
  apply (unescape_escape_uri NGX_ESCAPE_ARGS); [done|].
  repeat constructor; unfold is_byte; lia.
Defined.

(** Unescaping in place is safe: whatever the type and the source, it
    never writes more bytes than it has read. *)
Theorem unescape_uri_in_place type src :
  let (out, rest) := ngx_unescape_uri type src in
  zlen out <= zlen src - zlen rest.
Proof.
  unfold ngx_unescape_uri.
  assert (H : forall st,
    let (out, rest) := unescape_loop (Z.testbit type 0) (Z.testbit type 1) st src in
    zlen out <= pending st + zlen src - zlen rest).
  { induction src as [|c src IH]; intros st; [destruct st; cbn [unescape_loop pending]; rewrite zlen_nil; lia|].
    cbn [unescape_loop].
    pose proof (unescape_step_len (Z.testbit type 0) (Z.testbit type 1) st c) as HS.
    destruct (unescape_step _ _ st c) as [out [st'|]].
    - specialize (IH st'). destruct (unescape_loop _ _ st' src) as [out' rest].
      autorewrite with ngx. lia.
    - autorewrite with ngx. lia. }
  specialize (H sw_usual). destruct (unescape_loop _ _ _ _). cbn [pending] in H. lia.
Qed.

(** The [refresh] bitmap does not escape the percent sign its comment
    lists, so the escaped text of [%41] is not unescaped to itself. *)
Theorem escape_refresh_keeps_percent :
  ngx_escape_uri NGX_ESCAPE_REFRESH (lit "%41") = lit "%41" /\
  (ngx_unescape_uri 0 (ngx_escape_uri NGX_ESCAPE_REFRESH (lit "%41"))).1 = lit "A".
Proof. split; vm_compute; done. Qed.
