(* ===== verification/NgxCompare.v ===== *)
(** * Comparing, searching and sorting strings (nginx core, [ngx_string.c])

    A C string is the list of its bytes; a read at the end of the list is the
    terminating zero ([hd 0]).  A pointer result is the offset from the
    argument, [None] for [NULL]. *)

From S2P Require Import Prelude.
From Stdlib Require Import Sorting.Permutation Sorting.Sorted.

(** ** Case *)

(** The macro [ngx_tolower] and the expression the comparisons inline. *)
Definition ngx_tolower (c : Z) : Z :=
  if (chr "A" <=? c) && (c <=? chr "Z") then Z.lor c 0x20 else c.

Definition ngx_toupper (c : Z) : Z :=
  if (chr "a" <=? c) && (c <=? chr "z") then c - 32 else c.

Fixpoint ngx_strlow (src : list Z) (n : nat) : list Z :=
  match n with
  | O => []
  | S n' => ngx_tolower (hd 0 src) :: ngx_strlow (tl src) n'
  end.

(** [ngx_cpystrn]: what is written at [dst] (with its terminator) for a
    destination of [n] bytes. *)
Fixpoint cpystrn_loop (src : list Z) (n : nat) : list Z :=
  match n with
  | O => [0]
  | S n' =>
      let c := hd 0 src in
      if c =? 0 then [0] else c :: cpystrn_loop (tl src) n'
  end.

Definition ngx_cpystrn (src : list Z) (n : nat) : list Z :=
  match n with
  | O => []
  | S n' => cpystrn_loop src n'
  end.

(** ** Comparison *)

Fixpoint ngx_strcasecmp (s1 s2 : list Z) : Z :=
  let c1 := ngx_tolower (hd 0 s1) in
  let c2 := ngx_tolower (hd 0 s2) in
  if c1 =? c2 then
    if c1 =? 0 then 0
    else match s1 with
         | _ :: s1' => ngx_strcasecmp s1' (tl s2)
         | [] => 0
         end
  else c1 - c2.

Fixpoint ngx_strncasecmp (s1 s2 : list Z) (n : nat) : Z :=
  match n with
  | O => 0
  | S n' =>
      let c1 := ngx_tolower (hd 0 s1) in
      let c2 := ngx_tolower (hd 0 s2) in
      if c1 =? c2 then
        if c1 =? 0 then 0 else ngx_strncasecmp (tl s1) (tl s2) n'
      else c1 - c2
  end.

(** libc's [strncmp], of which the sources use the sign and [== 0]. *)
Fixpoint ngx_strncmp (s1 s2 : list Z) (n : nat) : Z :=
  match n with
  | O => 0
  | S n' =>
      let c1 := hd 0 s1 in
      let c2 := hd 0 s2 in
      if c1 =? c2 then
        if c1 =? 0 then 0 else ngx_strncmp (tl s1) (tl s2) n'
      else c1 - c2
  end.

(** [strcmp] of two C strings. *)
Definition ngx_strcmp (s1 s2 : list Z) : Z :=
  ngx_strncmp s1 s2 (S (Nat.max (length s1) (length s2))).

(** [ngx_rstrncmp] and [ngx_rstrncasecmp] compare [n] bytes from the last to
    the first. *)
Fixpoint ngx_rstrncmp (s1 s2 : list Z) (n : nat) : Z :=
  match n with
  | O => 0
  | S n' =>
      if negb (nth n' s1 0 =? nth n' s2 0) then nth n' s1 0 - nth n' s2 0
      else ngx_rstrncmp s1 s2 n'
  end.

Fixpoint ngx_rstrncasecmp (s1 s2 : list Z) (n : nat) : Z :=
  match n with
  | O => 0
  | S n' =>
      let c1 := ngx_toupper (nth n' s1 0) in
      let c2 := ngx_toupper (nth n' s2 0) in
      if negb (c1 =? c2) then c1 - c2 else ngx_rstrncasecmp s1 s2 n'
  end.

(** [memcmp] on [n] bytes, with the difference of the first distinct pair as
    its value. *)
Fixpoint ngx_memcmp (s1 s2 : list Z) (n : nat) : Z :=
  match n with
  | O => 0
  | S n' =>
      if hd 0 s1 =? hd 0 s2 then ngx_memcmp (tl s1) (tl s2) n'
      else hd 0 s1 - hd 0 s2
  end.

Definition ngx_memn2cmp (s1 s2 : list Z) : Z :=
  let n1 := length s1 in
  let n2 := length s2 in
  let '(n, z) := if (n1 <=? n2)%nat then (n1, -1) else (n2, 1) in
  let m := ngx_memcmp s1 s2 n in
  if negb (m =? 0) || (n1 =? n2)%nat then m else z.

(** [ngx_dns_strcmp]: like [ngx_strcasecmp], with the dot below every other
    character. *)
Fixpoint ngx_dns_strcmp (s1 s2 : list Z) : Z :=
  let c1 := ngx_tolower (hd 0 s1) in
  let c2 := ngx_tolower (hd 0 s2) in
  if c1 =? c2 then
    if c1 =? 0 then 0
    else match s1 with
         | _ :: s1' => ngx_dns_strcmp s1' (tl s2)
         | [] => 0
         end
  else
    let c1 := if c1 =? chr "." then chr " " else c1 in
    let c2 := if c2 =? chr "." then chr " " else c2 in
    c1 - c2.

(** ** Searching *)

(** [ngx_strnstr]: [s2] is [c2 :: s2'] and [n] is [strlen (s2')]. *)
Fixpoint strnstr_loop (s1 : list Z) (len : nat) (c2 : Z) (s2' : list Z)
    (off : nat) : option nat :=
  match len with
  | O => None
  | S len' =>
      let c1 := hd 0 s1 in
      let s1 := tl s1 in
      if c1 =? 0 then None
      else if c1 =? c2 then
        if (len' <? length s2')%nat then None
        else if ngx_strncmp s1 s2' (length s2') =? 0 then Some off
        else strnstr_loop s1 len' c2 s2' (S off)
      else strnstr_loop s1 len' c2 s2' (S off)
  end.

Definition ngx_strnstr (s1 s2 : list Z) (len : nat) : option nat :=
  strnstr_loop s1 len (hd 0 s2) (tl s2) 0.

(** [ngx_strstrn] and [ngx_strcasestrn]: a search up to the terminating zero of
    [s1]; [n] is the length of the needle minus one. *)
Fixpoint strstrn_loop (cmp : list Z -> list Z -> nat -> Z) (low : Z -> Z)
    (s1 : list Z) (c2 : Z) (s2' : list Z) (n off : nat) : option nat :=
  match s1 with
  | [] => None
  | c1 :: s1' =>
      if c1 =? 0 then None
      else if low c1 =? c2 then
        if cmp s1' s2' n =? 0 then Some off
        else strstrn_loop cmp low s1' c2 s2' n (S off)
      else strstrn_loop cmp low s1' c2 s2' n (S off)
  end.

Definition ngx_strstrn (s1 s2 : list Z) (n : nat) : option nat :=
  strstrn_loop ngx_strncmp (fun c => c) s1 (hd 0 s2) (tl s2) n 0.

Definition ngx_strcasestrn (s1 s2 : list Z) (n : nat) : option nat :=
  strstrn_loop ngx_strncasecmp ngx_tolower s1 (ngx_tolower (hd 0 s2)) (tl s2) n 0.

(** [ngx_strlcasestrn]: the search stops [n] bytes before [last], so the
    comparison stays inside. [room] is [last - s1] after [last -= n]. *)
Fixpoint strlcasestrn_loop (s1 : list Z) (room : nat) (c2 : Z) (s2' : list Z)
    (n off : nat) : option nat :=
  match room with
  | O => None
  | S room' =>
      let c1 := ngx_tolower (hd 0 s1) in
      if (c1 =? c2) && (ngx_strncasecmp (tl s1) s2' n =? 0) then Some off
      else strlcasestrn_loop (tl s1) room' c2 s2' n (S off)
  end.

Definition ngx_strlcasestrn (s1 s2 : list Z) (n : nat) : option nat :=
  strlcasestrn_loop s1 (length s1 - n) (ngx_tolower (hd 0 s2)) (tl s2) n 0.

(** ** Sorting *)

Section sort.
Context {A : Type} (cmp : A -> A -> Z).

(** The inner loop moves the elements above [p] one place up; [rp] is the
    sorted prefix, last element first. *)
Fixpoint sort_insert (p : A) (rp : list A) : list A :=
  match rp with
  | [] => [p]
  | x :: rp' => if 0 <? cmp x p then x :: sort_insert p rp' else p :: rp
  end.

Fixpoint sort_loop (rp l : list A) : list A :=
  match l with
  | [] => rp
  | p :: l' => sort_loop (sort_insert p rp) l'
  end.

(** [ngx_sort]; [alloc] is whether the temporary element could be
    allocated. *)
Definition ngx_sort (alloc : bool) (base : list A) : list A :=
  if alloc then
    match base with
    | [] => []
    | x :: l => rev (sort_loop [x] l)
    end
  else base.

Lemma sort_insert_perm p rp : sort_insert p rp ≡ₚ p :: rp.
Proof.
  induction rp as [|x rp IH]; cbn; [done|]. case_match; [|done].
  rewrite IH. constructor.
Qed.

Lemma sort_loop_perm rp l : sort_loop rp l ≡ₚ rp ++ l.
Proof.
  revert rp; induction l as [|p l IH]; intros rp; cbn.
  - by rewrite app_nil_r.
  - rewrite IH, sort_insert_perm. cbn. apply Permutation_middle.
Qed.

(** Elements that compare equal to a pivot keep their order. *)
Lemma sort_insert_filter (k : A -> bool) p rp :
  (forall x y, k x = true -> k y = true -> cmp x y <= 0) ->
  List.filter k (sort_insert p rp) = List.filter k (p :: rp).
Proof.
  intros Hk. induction rp as [|x rp IH]; cbn [sort_insert]; [done|].
  destruct (Z.ltb_spec 0 (cmp x p)); [|done]. cbn [List.filter].
  rewrite IH. cbn [List.filter].
  destruct (k x) eqn:Ex, (k p) eqn:Ep; try done. specialize (Hk x p Ex Ep). lia.
Qed.

Lemma sort_loop_filter (k : A -> bool) rp l :
  (forall x y, k x = true -> k y = true -> cmp x y <= 0) ->
  List.filter k (sort_loop rp l) = rev (List.filter k l) ++ List.filter k rp.
Proof.
  intros Hk. revert rp; induction l as [|p l IH]; intros rp; [done|].
  cbn [sort_loop]. rewrite IH, (sort_insert_filter k p rp Hk). cbn [List.filter].
  destruct (k p); cbn [rev]; [|done]. by rewrite <- app_assoc.
Qed.

Context (cmp_total : forall x y, 0 < cmp x y -> cmp y x <= 0).
Context (cmp_trans : forall x y z, cmp x y <= 0 -> cmp y z <= 0 -> cmp x z <= 0).

Definition desc (x y : A) : Prop := cmp y x <= 0.

Lemma sort_insert_sorted p rp :
  StronglySorted desc rp -> StronglySorted desc (sort_insert p rp).
Proof.
  induction 1 as [|x rp Hs IH Hx]; cbn [sort_insert].
  { repeat constructor. }
  destruct (Z.ltb_spec 0 (cmp x p)) as [Hgt|Hle].
  - constructor; [done|]. rewrite Forall_forall. intros y Hy.
    rewrite (sort_insert_perm p rp) in Hy.
    apply elem_of_cons in Hy as [->|Hy]; [by apply cmp_total|].
    rewrite Forall_forall in Hx. by apply Hx.
  - constructor; [by constructor|]. constructor; [done|].
    rewrite Forall_forall in *. intros y Hy. unfold desc in *.
    apply (cmp_trans _ x); [by apply Hx | done].
Qed.

Lemma sort_loop_sorted rp l :
  StronglySorted desc rp -> StronglySorted desc (sort_loop rp l).
Proof.
  revert rp; induction l as [|p l IH]; intros rp Hs; cbn; [done|].
  by apply IH, sort_insert_sorted.
Qed.

Lemma rev_sorted l :
  StronglySorted desc l -> StronglySorted (fun x y => cmp x y <= 0) (rev l).
Proof.
  induction 1 as [|x l Hs IH Hx]; cbn; [constructor|].
  assert (Hall : forall y, y ∈ rev l -> cmp y x <= 0).
  { intros y Hy. rewrite <- Permutation_rev in Hy.
    rewrite Forall_forall in Hx. by apply Hx. }
  clear Hx Hs. induction (rev l) as [|y l' IHl]; cbn.
  { repeat constructor. }
  apply StronglySorted_inv in IH as [Hs' Hy].
  constructor.
  - apply IHl; [done|]. intros z Hz. apply Hall. by right.
  - apply Forall_app. split; [done|]. constructor; [|constructor].
    apply Hall. by left.
Qed.
End sort.

(** ** Lemmas on comparison *)

Definition nonzero (l : list Z) : Prop := Forall (fun c => c <> 0) l.

Lemma ngx_tolower_nonzero c : c <> 0 -> ngx_tolower c <> 0.
Proof.
  intros Hc. unfold ngx_tolower. destruct (_ && _); [|done].
  rewrite Z.lor_eq_0_iff. lia.
Qed.

(** On strings of [n] bytes without zeros, a zero result is equality of the
    lower-cased strings. *)
Lemma strncasecmp_eq s1 s2 n :
  nonzero s1 -> nonzero s2 -> length s1 = n -> length s2 = n ->
  ngx_strncasecmp s1 s2 n = 0 <-> map ngx_tolower s1 = map ngx_tolower s2.
Proof.
  intros H1; revert s2 n; induction H1 as [|c1 s1 Hc1 H1 IH];
    intros s2 n H2 L1 L2; cbn in L1; subst n.
  { by destruct s2. }
  destruct s2 as [|c2 s2]; [done|]. cbn in L2. injection L2 as L2.
  inversion H2 as [|? ? Hc2 H2']; subst. cbn [ngx_strncasecmp hd tl map].
  destruct (Z.eqb_spec (ngx_tolower c1) (ngx_tolower c2)) as [E|E].
  - destruct (Z.eqb_spec (ngx_tolower c1) 0) as [Z0|_].
    + by apply ngx_tolower_nonzero in Hc1.
    + rewrite IH by done. split; [intros ->; by rewrite E | by intros [= _ ?]].
  - split; [lia | by intros [= ? _]].
Qed.

Lemma strncmp_take s1 : forall s2 n, nonzero s1 -> nonzero s2 -> (n <= length s1)%nat ->
  ngx_strncmp s1 s2 n = 0 <-> take n s1 = take n s2.
Proof.
  induction s1 as [|c1 s1 IH]; intros s2 [|n] H1 H2 Hn; cbn [length] in Hn; try lia; [done|done|].
  inversion_clear H1 as [|? ? Hc1 H1']. destruct s2 as [|c2 s2]; cbn [ngx_strncmp hd tl take].
  - destruct (Z.eqb_spec c1 0); [done|]. split; [lia|done].
  - inversion_clear H2 as [|? ? Hc2 H2']. destruct (Z.eqb_spec c1 c2) as [->|E].
    + rewrite (proj2 (Z.eqb_neq c2 0)) by done. rewrite IH by (done || lia). split; [by intros ->|by intros [= ?]].
    + split; [lia|by intros [= ? _]].
Qed.

Lemma strncmp_prefix s1 s2 :
  nonzero s2 ->
  ngx_strncmp s1 s2 (length s2) = 0 <-> take (length s2) s1 = s2.
Proof.
  intros H2; revert s1; induction H2 as [|c2 s2 Hc2 H2 IH]; intros s1; [done|].
  cbn [length ngx_strncmp hd tl].
  destruct s1 as [|c1 s1]; cbn [hd tl take].
  - destruct (Z.eqb_spec 0 c2); [lia|]. split; [lia | done].
  - destruct (Z.eqb_spec c1 c2) as [->|E].
    + destruct (Z.eqb_spec c2 0); [done|]. rewrite IH. split; [by intros -> | by intros [= ?]].
    + split; [lia | by intros [= ? _]].
Qed.

(** The needle [c2 :: s2'] occurs at offset [k] of the window [w]. *)
Definition occurs (needle w : list Z) (k : nat) : Prop :=
  take (length needle) (drop k w) = needle.

Lemma strnstr_loop_spec c2 s2' : nonzero (c2 :: s2') -> forall w rest off,
  nonzero w ->
  match strnstr_loop (w ++ rest) (length w) c2 s2' off with
  | Some k => exists j, k = (off + j)%nat /\ occurs (c2 :: s2') w j /\
                forall i, (i < j)%nat -> ~ occurs (c2 :: s2') w i
  | None => forall i, ~ occurs (c2 :: s2') w i
  end.
Proof.
  intros H2. inversion H2 as [|? ? Hc2 Hs2]; subst.
  induction w as [|c1 w IH]; intros rest off Hw; unfold occurs in *.
  { intros i. rewrite drop_nil, take_nil. done. }
  inversion Hw as [|? ? Hc1 Hw']; subst.
  cbn [length app strnstr_loop hd tl]. destruct (Z.eqb_spec c1 0); [done|].
  (* the common continuation: no occurrence at offset 0 *)
  assert (Hnext : take (length (c2 :: s2')) (c1 :: w) <> c2 :: s2' ->
    match strnstr_loop (w ++ rest) (length w) c2 s2' (S off) with
    | Some k => exists j, k = (off + j)%nat /\
        take (length (c2 :: s2')) (drop j (c1 :: w)) = c2 :: s2' /\
        forall i, (i < j)%nat -> take (length (c2 :: s2')) (drop i (c1 :: w)) <> c2 :: s2'
    | None => forall i, take (length (c2 :: s2')) (drop i (c1 :: w)) <> c2 :: s2'
    end).
  { intros Hno. specialize (IH rest (S off) Hw').
    destruct (strnstr_loop _ _ _ _ _) as [k|].
    - destruct IH as (j & -> & Hj & Hlt). exists (S j).
      split; [lia|]. split; [done|]. intros [|i] Hi; [done|]. apply Hlt. lia.
    - intros [|i]; [done|]. apply IH. }
  destruct (Z.eqb_spec c1 c2) as [->|Hne]; [|apply Hnext; cbn; congruence].
  destruct (Nat.ltb_spec (length w) (length s2')) as [Hl|Hl].
  - intros i Hi. apply (f_equal length) in Hi.
    rewrite length_take, length_drop in Hi. cbn [length] in Hi. lia.
  - destruct (Z.eqb_spec (ngx_strncmp (w ++ rest) s2' (length s2')) 0) as [E|E];
      rewrite strncmp_prefix, take_app_le in E by done.
    + exists 0%nat. cbn. rewrite E. split; [lia|]. split; [done|]. intros i Hi. lia.
    + apply Hnext. cbn. congruence.
Qed.

(** ** Properties *)

(** [ngx_sort] is a stable sort: for a total preorder given by [cmp] the
    result is a sorted permutation of the array in which the elements of any
    class of equals keep their order. *)
Theorem ngx_sort_stable {A} (cmp : A -> A -> Z) (base : list A) :
  (forall x y, 0 < cmp x y -> cmp y x <= 0) ->
  (forall x y z, cmp x y <= 0 -> cmp y z <= 0 -> cmp x z <= 0) ->
  ngx_sort cmp true base ≡ₚ base /\
  StronglySorted (fun x y => cmp x y <= 0) (ngx_sort cmp true base) /\
  forall k : A -> bool,
    (forall x y, k x = true -> k y = true -> cmp x y <= 0) ->
    List.filter k (ngx_sort cmp true base) = List.filter k base.
Proof.
  intros Htot Htr. destruct base as [|x l]; cbn [ngx_sort].
  { repeat split; constructor. }
  split; [|split].
  - rewrite <- Permutation_rev, sort_loop_perm. done.
  - apply rev_sorted, sort_loop_sorted; auto. repeat constructor.
  - intros k Hk. rewrite List.filter_rev, (sort_loop_filter cmp k) by done.
    rewrite rev_app_distr, rev_involutive. cbn [List.filter].
    by destruct (k x).
Qed.

Lemma ngx_sort_stable_witness :
  ngx_sort (fun x y : Z => x / 10 - y / 10) true [25; 13; 21; 11]
    ≡ₚ [25; 13; 21; 11] /\
  ngx_sort (fun x y : Z => x / 10 - y / 10) true [25; 13; 21; 11] = [13; 11; 25; 21].
Proof.
  split; [|reflexivity].
  apply (ngx_sort_stable (fun x y : Z => x / 10 - y / 10)); intros; lia.
Defined.

(** [ngx_strnstr] finds the first occurrence of a needle in a window of
    [len] bytes, or reports that there is none; it reads the window only. *)
Theorem ngx_strnstr_first (needle w rest : list Z) :
  nonzero needle -> needle <> [] -> nonzero w ->
  match ngx_strnstr (w ++ rest) needle (length w) with
  | Some k => occurs needle w k /\ forall i, (i < k)%nat -> ~ occurs needle w i
  | None => forall i, ~ occurs needle w i
  end.
Proof.
  intros Hn Hne Hw. destruct needle as [|c2 s2']; [done|].
  pose proof (strnstr_loop_spec c2 s2' Hn w rest 0 Hw) as H.
  unfold ngx_strnstr. cbn [hd tl]. destruct (strnstr_loop _ _ _ _ _); [|done].
  by destruct H as (j & -> & H).
Qed.

Lemma ngx_strnstr_first_witness :
  ngx_strnstr (lit "keep-alive, close" ++ lit "x") (lit "close") 17 = Some 12%nat /\
  occurs (lit "close") (lit "keep-alive, close") 12.
Proof.
  split; [reflexivity|].
  assert (H1 : nonzero (lit "close")) by (repeat constructor; done).
  assert (H2 : nonzero (lit "keep-alive, close")) by (repeat constructor; done).
  exact (proj1 (ngx_strnstr_first (lit "close") (lit "keep-alive, close") (lit "x") H1
           ltac:(done) H2)).
Defined.
