(* ===== verification/NgxQueue.v ===== *)
(** * Queues (nginx core, [ngx_queue.h] and [ngx_queue.c])

    Circular doubly linked lists on a memory of links.  The macros and functions
    are translated with their assignments; following or setting a link of a node
    that is not there is undefined ([None]).  [queue m h l] says that the memory
    holds at [h] the queue of the nodes [l]; every operation is shown to be the
    one on lists. *)

From stdpp Require Import gmap.
From S2P Require Import Prelude NgxCompare.

(** ** Memory *)

(** [ngx_queue_t]. *)
Record qnode := QNode {
  q_prev : Z;
  q_next : Z;
}.

Abbreviation qmem := (gmap Z qnode).

Definition get_next (q : Z) (m : qmem) : option Z := q_next <$> m !! q.
Definition get_prev (q : Z) (m : qmem) : option Z := q_prev <$> m !! q.

Definition set_next (q v : Z) (m : qmem) : option qmem :=
  match m !! q with Some n => Some (<[q := QNode n.(q_prev) v]> m) | None => None end.
Definition set_prev (q v : Z) (m : qmem) : option qmem :=
  match m !! q with Some n => Some (<[q := QNode v n.(q_next)]> m) | None => None end.

(** ** The macros *)

Definition ngx_queue_init (q : Z) (m : qmem) : option qmem :=
  m ← set_prev q q m;
  set_next q q m.

Definition ngx_queue_empty (h : Z) (m : qmem) : option bool :=
  p ← get_prev h m;
  Some (h =? p).

Definition ngx_queue_insert_head (h x : Z) (m : qmem) : option qmem :=
  n ← get_next h m;
  m ← set_next x n m;
  xn ← get_next x m;
  m ← set_prev xn x m;
  m ← set_prev x h m;
  set_next h x m.

Definition ngx_queue_insert_after := ngx_queue_insert_head.

Definition ngx_queue_insert_tail (h x : Z) (m : qmem) : option qmem :=
  p ← get_prev h m;
  m ← set_prev x p m;
  xp ← get_prev x m;
  m ← set_next xp x m;
  m ← set_next x h m;
  set_prev h x m.

Definition ngx_queue_head := get_next.
Definition ngx_queue_last := get_prev.

(** Without the assignments of a debug build. *)
Definition ngx_queue_remove (x : Z) (m : qmem) : option qmem :=
  n ← get_next x m;
  p ← get_prev x m;
  m ← set_prev n p m;
  p ← get_prev x m;
  n ← get_next x m;
  set_next p n m.

Definition ngx_queue_split (h q n : Z) (m : qmem) : option qmem :=
  p ← get_prev h m;
  m ← set_prev n p m;
  np ← get_prev n m;
  m ← set_next np n m;
  m ← set_next n q m;
  p ← get_prev q m;
  m ← set_prev h p m;
  hp ← get_prev h m;
  m ← set_next hp h m;
  set_prev q n m.

Definition ngx_queue_add (h n : Z) (m : qmem) : option qmem :=
  hp ← get_prev h m;
  nn ← get_next n m;
  m ← set_next hp nn m;
  nn ← get_next n m;
  hp ← get_prev h m;
  m ← set_prev nn hp m;
  np ← get_prev n m;
  m ← set_prev h np m;
  hp ← get_prev h m;
  set_next hp h m.

(** ** The functions *)

Fixpoint middle_loop (fuel : nat) (queue middle next : Z) (m : qmem) : option Z :=
  match fuel with
  | O => None
  | S fuel =>
      middle ← get_next middle m;
      next ← get_next next m;
      last ← ngx_queue_last queue m;
      if next =? last then Some middle
      else
        next ← get_next next m;
        if next =? last then Some middle else middle_loop fuel queue middle next m
  end.

Definition ngx_queue_middle (queue : Z) (m : qmem) : option Z :=
  middle ← ngx_queue_head queue m;
  last ← ngx_queue_last queue m;
  if middle =? last then Some middle
  else
    next ← ngx_queue_head queue m;
    middle_loop (size m) queue middle next m.

Section sort.
Context (cmp : Z -> Z -> Z).

(** The inner loop, back from [prev] to where [q] goes. *)
Fixpoint place_loop (fuel : nat) (queue prev q : Z) (m : qmem) : option Z :=
  match fuel with
  | O => None
  | S fuel =>
      if cmp prev q <=? 0 then Some prev
      else
        prev ← get_prev prev m;
        if prev =? queue then Some prev else place_loop fuel queue prev q m
  end.

Fixpoint queue_sort_loop (fuel : nat) (queue q : Z) (m : qmem) : option qmem :=
  match fuel with
  | O => None
  | S fuel =>
      if q =? queue then Some m
      else
        prev ← get_prev q m;
        next ← get_next q m;
        m ← ngx_queue_remove q m;
        prev ← place_loop (size m) queue prev q m;
        m ← ngx_queue_insert_after prev q m;
        queue_sort_loop fuel queue next m
  end.

Definition ngx_queue_sort (queue : Z) (m : qmem) : option qmem :=
  q ← ngx_queue_head queue m;
  last ← ngx_queue_last queue m;
  if q =? last then Some m
  else
    q ← get_next q m;
    queue_sort_loop (S (size m)) queue q m.
End sort.

(** ** What the memory holds *)

(** From [a] through [l] to [b]. *)
Fixpoint chain (m : qmem) (a : Z) (l : list Z) (b : Z) : Prop :=
  match l with
  | [] => get_next a m = Some b /\ get_prev b m = Some a
  | x :: l => get_next a m = Some x /\ get_prev x m = Some a /\ chain m x l b
  end.

Definition queue (m : qmem) (h : Z) (l : list Z) : Prop := NoDup (h :: l) /\ chain m h l h.

Lemma get_prev_dom q m p : get_prev q m = Some p -> q ∈ dom m.
Proof. unfold get_prev. intros H. apply elem_of_dom. destruct (m !! q); [by eexists|done]. Qed.

Lemma get_next_dom q m p : get_next q m = Some p -> q ∈ dom m.
Proof. unfold get_next. intros H. apply elem_of_dom. destruct (m !! q); [by eexists|done]. Qed.

Lemma set_next_spec q v m : q ∈ dom m -> exists m', set_next q v m = Some m' /\
  (forall x, get_next x m' = if x =? q then Some v else get_next x m) /\ (forall x, get_prev x m' = get_prev x m) /\ dom m' = dom m.
Proof.
  rewrite elem_of_dom. intros [n Hn]. unfold set_next. rewrite Hn. eexists. split; [done|]. split; [|split].
  - intros x. unfold get_next. destruct (Z.eqb_spec x q) as [->|Hx]; [by rewrite lookup_insert_eq|by rewrite lookup_insert_ne].
  - intros x. unfold get_prev. destruct (decide (q = x)) as [->|Hx]; [by rewrite lookup_insert_eq, Hn|by rewrite lookup_insert_ne].
  - rewrite dom_insert_L. apply elem_of_dom_2 in Hn. set_solver.
Qed.

Lemma set_prev_spec q v m : q ∈ dom m -> exists m', set_prev q v m = Some m' /\
  (forall x, get_prev x m' = if x =? q then Some v else get_prev x m) /\ (forall x, get_next x m' = get_next x m) /\ dom m' = dom m.
Proof.
  rewrite elem_of_dom. intros [n Hn]. unfold set_prev. rewrite Hn. eexists. split; [done|]. split; [|split].
  - intros x. unfold get_prev. destruct (Z.eqb_spec x q) as [->|Hx]; [by rewrite lookup_insert_eq|by rewrite lookup_insert_ne].
  - intros x. unfold get_next. destruct (decide (q = x)) as [->|Hx]; [by rewrite lookup_insert_eq, Hn|by rewrite lookup_insert_ne].
  - rewrite dom_insert_L. apply elem_of_dom_2 in Hn. set_solver.
Qed.

(** Assignments one by one; what was read before is found by the equations. *)
Ltac qset :=
  match goal with
  | |- context [set_next ?q ?v ?m] =>
      let m' := fresh "m" in let H1 := fresh "N" in let H2 := fresh "P" in let H3 := fresh "D" in
      destruct (set_next_spec q v m) as (m' & -> & H1 & H2 & H3); [try congruence|cbn [mbind option_bind]]
  | |- context [set_prev ?q ?v ?m] =>
      let m' := fresh "m" in let H1 := fresh "P" in let H2 := fresh "N" in let H3 := fresh "D" in
      destruct (set_prev_spec q v m) as (m' & -> & H1 & H2 & H3); [try congruence|cbn [mbind option_bind]]
  end.

(** Two memories are the same outside the nodes [l]. *)
Definition same_outside (l : list Z) (m m' : qmem) : Prop := forall a, a ∉ l -> m' !! a = m !! a.

Lemma same_links m m' a : get_next a m' = get_next a m -> get_prev a m' = get_prev a m -> m' !! a = m !! a.
Proof. unfold get_next, get_prev. destruct (m !! a) as [[]|], (m' !! a) as [[]|]; cbn; congruence. Qed.

(** A node between two neighbours. *)
Lemma insert_head_links h x y m : get_next h m = Some y -> x ∈ dom m -> y ∈ dom m -> x <> h -> x <> y ->
  exists m', ngx_queue_insert_head h x m = Some m' /\
    (forall z, get_next z m' = if z =? h then Some x else if z =? x then Some y else get_next z m) /\
    (forall z, get_prev z m' = if z =? x then Some h else if z =? y then Some x else get_prev z m) /\ dom m' = dom m.
Proof.
  intros Hn Hx Hy Hxh Hxy. pose proof (get_next_dom _ _ _ Hn) as Hh. unfold ngx_queue_insert_head. rewrite Hn. cbn [mbind option_bind].
  qset. rewrite N, Z.eqb_refl. cbn [mbind option_bind]. qset. qset. qset. eexists. split; [done|]. split; [|split; [|congruence]].
  - intros z. rewrite N2, N1, N0, N. done.
  - intros z. rewrite P2, P1, P0, P. done.
Qed.

Lemma insert_tail_links h x p m : get_prev h m = Some p -> x ∈ dom m -> p ∈ dom m -> x <> h -> x <> p ->
  exists m', ngx_queue_insert_tail h x m = Some m' /\
    (forall z, get_next z m' = if z =? x then Some h else if z =? p then Some x else get_next z m) /\
    (forall z, get_prev z m' = if z =? h then Some x else if z =? x then Some p else get_prev z m) /\ dom m' = dom m.
Proof.
  intros Hn Hx Hy Hxh Hxy. pose proof (get_prev_dom _ _ _ Hn) as Hh. unfold ngx_queue_insert_tail. rewrite Hn. cbn [mbind option_bind].
  qset. rewrite P, Z.eqb_refl. cbn [mbind option_bind]. qset. qset. qset. eexists. split; [done|]. split; [|split; [|congruence]].
  - intros z. rewrite N2, N1, N0, N. done.
  - intros z. rewrite P2, P1, P0, P. done.
Qed.

Lemma remove_links x p y m : get_prev x m = Some p -> get_next x m = Some y -> p ∈ dom m -> y ∈ dom m -> x <> p -> x <> y ->
  exists m', ngx_queue_remove x m = Some m' /\
    (forall z, get_next z m' = if z =? p then Some y else get_next z m) /\
    (forall z, get_prev z m' = if z =? y then Some p else get_prev z m) /\ dom m' = dom m.
Proof.
  intros Hp Hn Hpd Hnd H1 H2. unfold ngx_queue_remove. rewrite Hp, Hn. cbn [mbind option_bind]. qset.
  rewrite P, N, Hn, (proj2 (Z.eqb_neq x y)), Hp by done. cbn [mbind option_bind]. qset. eexists. split; [done|]. split; [|split; [|congruence]].
  - intros z. by rewrite N0, N.
  - intros z. by rewrite P0, P.
Qed.

(** ** Chains *)

Lemma qchain_app m a l1 x l2 b : chain m a (l1 ++ x :: l2) b <-> chain m a l1 x /\ chain m x l2 b.
Proof. revert a. induction l1 as [|y l1 IH]; intros a; cbn; [tauto|]. rewrite IH. tauto. Qed.

Lemma chain_frame m m' a l b : (forall z, z ∈ a :: l -> get_next z m' = get_next z m) -> (forall z, z ∈ l ++ [b] -> get_prev z m' = get_prev z m) ->
  chain m a l b -> chain m' a l b.
Proof.
  revert a. induction l as [|x l IH]; intros a Hn Hp; cbn [chain].
  - rewrite Hn, Hp by set_solver. done.
  - rewrite Hn, Hp by set_solver. intros (? & ? & Hc). split; [done|]. split; [done|]. apply IH; set_solver.
Qed.

Lemma chain_first m a l b : chain m a l b -> get_next a m = Some (hd b l).
Proof. destruct l; cbn; tauto. Qed.

Lemma last_default {A} (a b : A) y l : List.last (y :: l) a = List.last (y :: l) b.
Proof. revert y. induction l as [|z l IH]; intros y; [done|]. exact (IH z). Qed.

Lemma chain_last m a l b : chain m a l b -> get_prev b m = Some (List.last l a).
Proof.
  revert a. induction l as [|x l IH]; intros a; cbn [chain]; [tauto|]. intros (_ & _ & H). apply IH in H. rewrite H.
  destruct l as [|y l]; [done|]. f_equal. apply (last_default x a y l).
Qed.

Lemma chain_dom m a l b : chain m a l b -> forall z, z ∈ a :: l ++ [b] -> z ∈ dom m.
Proof.
  revert a. induction l as [|x l IH]; intros a; cbn [chain]; intros H z Hz.
  - destruct H as [H1 H2]. apply get_next_dom in H1. apply get_prev_dom in H2. set_solver.
  - destruct H as (H1 & _ & H). apply get_next_dom in H1. apply elem_of_cons in Hz as [->|Hz]; [done|]. by eapply IH.
Qed.

Lemma hd_in {A} (b : A) l : hd b l ∈ l ++ [b].
Proof. destruct l; cbn; [by constructor|by constructor]. Qed.

Lemma last_in {A} (a : A) l : List.last l a ∈ a :: l.
Proof. induction l as [|x [|y l] IH]; [by constructor|by do 2 constructor|]. change (List.last (x :: y :: l) a) with (List.last (y :: l) a). set_solver. Qed.

(** A node behind the first one of a chain. *)
Lemma chain_insert m m' p l b x : chain m p l b -> NoDup (p :: l) -> b ∉ l -> x ∉ p :: l ++ [b] ->
  (forall z, get_next z m' = if z =? p then Some x else if z =? x then Some (hd b l) else get_next z m) ->
  (forall z, get_prev z m' = if z =? x then Some p else if z =? hd b l then Some x else get_prev z m) ->
  chain m' p (x :: l) b.
Proof.
  intros Hc Hnd Hb Hx Hn Hp. assert (Hxp : x <> p) by set_solver. apply NoDup_cons in Hnd as [Hpl Hnd]. cbn [chain].
  rewrite Hn, Z.eqb_refl, Hp, Z.eqb_refl. split; [done|]. split; [done|]. destruct l as [|y l]; cbn [hd chain] in *.
  - rewrite Hn, (proj2 (Z.eqb_neq x p)), Z.eqb_refl by done. rewrite Hp, (proj2 (Z.eqb_neq b x)), Z.eqb_refl by set_solver. done.
  - rewrite Hn, (proj2 (Z.eqb_neq x p)), Z.eqb_refl by done. rewrite Hp, (proj2 (Z.eqb_neq y x)), Z.eqb_refl by set_solver.
    split; [done|]. split; [done|]. destruct Hc as (_ & _ & Hc). apply NoDup_cons in Hnd as [Hyl _]. apply (chain_frame m); [| |done].
    + intros z Hz. rewrite Hn, !(proj2 (Z.eqb_neq z _)) by set_solver. done.
    + intros z Hz. rewrite Hp, !(proj2 (Z.eqb_neq z _)) by set_solver. done.
Qed.

(** ** The operations on what is held *)

Lemma queue_init h m : h ∈ dom m -> exists m', ngx_queue_init h m = Some m' /\ queue m' h [] /\ dom m' = dom m.
Proof.
  intros Hh. unfold ngx_queue_init. qset. qset. eexists. split; [done|]. split; [|congruence]. split; [by repeat constructor; set_solver|].
  cbn. by rewrite N0, Z.eqb_refl, P0, P, Z.eqb_refl.
Qed.

Lemma queue_empty h l m : queue m h l -> ngx_queue_empty h m = Some (bool_decide (l = [])).
Proof.
  intros [Hnd Hc]. apply chain_last in Hc as Hl. unfold ngx_queue_empty. rewrite Hl. cbn. f_equal. apply NoDup_cons in Hnd as [Hh _].
  destruct (Z.eqb_spec h (List.last l h)) as [E|E]; [rewrite bool_decide_eq_true_2; [done|]|rewrite bool_decide_eq_false_2; [done|by intros ->]].
  destruct l as [|x l]; [done|]. exfalso. apply Hh. rewrite E. destruct (exists_last (l := x :: l)) as (l' & y & ->); [done|]. rewrite List.last_last. set_solver.
Qed.

(** Behind the node [p] of the queue, which may be its head. *)
Lemma queue_insert_after m h l pre p l2 x : queue m h l -> h :: l = pre ++ p :: l2 -> x ∉ h :: l -> x ∈ dom m ->
  exists m' l', ngx_queue_insert_after p x m = Some m' /\ queue m' h l' /\ h :: l' = pre ++ p :: x :: l2 /\ dom m' = dom m /\ same_outside (x :: h :: l) m m'.
Proof.
  intros [Hnd Hc] E Hx Hd.
  assert (Hc' : chain m p l2 h /\ match pre with [] => p = h | _ :: pre' => chain m h pre' p end).
  { destruct pre as [|z pre]; injection E as -> ->; [done|]. apply qchain_app in Hc. tauto. }
  destruct Hc' as [Hc2 Hc1]. assert (Hnd2 : NoDup (p :: l2) /\ h ∉ l2 /\ x ∉ p :: l2 ++ [h]).
  { rewrite E in Hnd, Hx. apply NoDup_app in Hnd as (_ & Hd2 & Hnd2). split; [done|]. destruct pre as [|z pre]; [subst p; inversion_clear Hnd2|injection E as <- _]; set_solver. }
  destruct Hnd2 as (Hnd2 & Hh2 & Hx2). pose proof (chain_first _ _ _ _ Hc2) as Hf. pose proof (chain_dom _ _ _ _ Hc2) as Hdom.
  assert (Hhd : hd h l2 ∈ l2 ++ [h]) by apply hd_in.
  unfold ngx_queue_insert_after. destruct (insert_head_links p x (hd h l2) m Hf Hd) as (m' & -> & Hn & Hp & Hm'); [by apply Hdom; right|set_solver|set_solver|].
  pose proof (chain_insert _ _ _ _ _ _ Hc2 Hnd2 Hh2 Hx2 Hn Hp) as Hc3. exists m'.
  assert (Hnew : NoDup (pre ++ p :: x :: l2)).
  { rewrite E in Hnd, Hx. apply NoDup_app in Hnd as (N1 & N2 & N3). apply NoDup_app. split; [done|]. inversion_clear N3 as [|? ? N4 N5].
    split; [set_solver|]. constructor; [set_solver|]. constructor; [set_solver|done]. }
  assert (Hout : same_outside (x :: h :: l) m m').
  { assert (Hp_in : p ∈ h :: l) by (rewrite E; apply elem_of_app; right; by left).
    assert (Hhd_in : hd h l2 ∈ h :: l).
    { apply elem_of_app in Hhd as [Hhd|Hhd]; [rewrite E; apply elem_of_app; right; by right|].
      apply list_elem_of_singleton in Hhd as ->. by left. }
    intros a Ha. apply same_links; [rewrite Hn|rewrite Hp]; rewrite !(proj2 (Z.eqb_neq a _)); try done;
      intros ->; apply Ha; first [by left|by right]. }
  destruct pre as [|z pre].
  - subst p. exists (x :: l2). split; [done|]. split; [by split|]. done.
  - injection E as <- El. exists (pre ++ p :: x :: l2). split; [done|]. split; [|done]. split; [done|]. apply qchain_app. split; [|done].
    rewrite El in Hnd, Hx. inversion_clear Hnd as [|? ? Hh Hnd']. apply NoDup_app in Hnd' as (N1 & N2 & N3). inversion_clear N3 as [|? ? N4 N5].
    apply (chain_frame m); [| |done].
    + intros u Hu. rewrite Hn, !(proj2 (Z.eqb_neq u _)) by set_solver. done.
    + intros u Hu. rewrite Hp, !(proj2 (Z.eqb_neq u _)); [done| |set_solver]. intros ->. destruct l2 as [|y l2]; cbn [hd] in *; set_solver.
Qed.

Lemma queue_insert_tail m h l x : queue m h l -> x ∉ h :: l -> x ∈ dom m ->
  exists m', ngx_queue_insert_tail h x m = Some m' /\ queue m' h (l ++ [x]) /\ dom m' = dom m.
Proof.
  intros [Hnd Hc] Hx Hd. pose proof (chain_last _ _ _ _ Hc) as Hl. pose proof (chain_dom _ _ _ _ Hc) as Hdom. pose proof (last_in h l) as Hli.
  destruct (insert_tail_links h x (List.last l h) m Hl Hd) as (m' & -> & Hn & Hp & Hm'); [apply Hdom; set_solver|set_solver|set_solver|].
  exists m'. split; [done|]. split; [|done]. inversion_clear Hnd as [|? ? Hh Hnd'].
  split; [constructor; [set_solver|]; apply NoDup_app; split; [done|]; split; [set_solver|by repeat constructor; set_solver]|].
  destruct l as [|x0 l0 _] using rev_ind.
  - cbn in *. rewrite !Hn, !Hp, !Z.eqb_refl, (proj2 (Z.eqb_neq h x)), (proj2 (Z.eqb_neq x h)) by set_solver. done.
  - rewrite List.last_last in *. rewrite <- app_assoc. apply qchain_app. apply qchain_app in Hc as [Hc _]. split.
    + apply NoDup_app in Hnd' as (N1 & N2 & N3). apply (chain_frame m); [| |done].
      * intros u Hu. rewrite Hn, !(proj2 (Z.eqb_neq u _)) by set_solver. done.
      * intros u Hu. rewrite Hp, !(proj2 (Z.eqb_neq u _)) by set_solver. done.
    + cbn. rewrite !Hn, !Hp, !Z.eqb_refl, (proj2 (Z.eqb_neq x0 x)), (proj2 (Z.eqb_neq x h)) by set_solver. done.
Qed.

(** The head of the rest, and the node before it. *)
Lemma chain_remove m m' a l1 x l2 b : chain m a (l1 ++ x :: l2) b -> NoDup (a :: l1 ++ x :: l2) -> b ∉ l1 ++ x :: l2 ->
  (forall z, get_next z m' = if z =? List.last l1 a then Some (hd b l2) else get_next z m) ->
  (forall z, get_prev z m' = if z =? hd b l2 then Some (List.last l1 a) else get_prev z m) ->
  chain m' a (l1 ++ l2) b.
Proof.
  intros Hc Hnd Hb Hn Hp. apply qchain_app in Hc as [Hc1 Hc2]. apply NoDup_cons in Hnd as [Ha Hnd]. apply NoDup_app in Hnd as (N1 & N2 & N3). apply NoDup_cons in N3 as [N4 N5].
  assert (Hla : List.last l1 a ∉ x :: l2).
  { intros Hin. pose proof (last_in a l1) as Hli. apply elem_of_cons in Hli as [E|E]; [rewrite E in Hin; apply Ha, elem_of_app; by right|by apply (N2 _ E)]. }
  assert (Hhd : hd b l2 ∉ l1).
  { intros Hin. destruct l2 as [|y l2]; cbn [hd] in Hin; [apply Hb, elem_of_app; by left|]. apply (N2 _ Hin). by do 2 constructor. }
  assert (H2 : chain m' (List.last l1 a) l2 b).
  { destruct l2 as [|y l2]; cbn [hd chain] in *.
    - rewrite Hn, Hp, !Z.eqb_refl. done.
    - rewrite Hn, Hp, !Z.eqb_refl. split; [done|]. split; [done|]. destruct Hc2 as (_ & _ & Hc2). apply NoDup_cons in N5 as [N6 N7]. apply (chain_frame m); [| |done].
      + intros u Hu. rewrite Hn. destruct (Z.eqb_spec u (List.last l1 a)) as [->|]; [|done]. exfalso. apply Hla. by right.
      + intros u Hu. rewrite Hp. destruct (Z.eqb_spec u y) as [->|]; [|done]. exfalso. apply elem_of_app in Hu as [Hu|Hu]; [done|]. apply list_elem_of_singleton in Hu as ->. apply Hb, elem_of_app. right. by do 2 constructor. }
  destruct l1 as [|x0 l0 _] using rev_ind; [done|]. rewrite List.last_last in *. rewrite <- app_assoc. cbn [app]. apply qchain_app. split; [|done].
  apply qchain_app in Hc1 as [Hc1 _]. apply NoDup_app in N1 as (M1 & M2 & M3). apply (chain_frame m); [| |done].
  - intros u Hu. rewrite Hn. destruct (Z.eqb_spec u x0) as [->|]; [|done]. exfalso. apply elem_of_cons in Hu as [->|Hu]; [apply Ha; clear; set_solver|]. apply (M2 _ Hu). by constructor.
  - intros u Hu. rewrite Hp. destruct (Z.eqb_spec u (hd b l2)) as [->|]; [|done]. done.
Qed.

Lemma queue_remove m h l1 x l2 : queue m h (l1 ++ x :: l2) -> exists m', ngx_queue_remove x m = Some m' /\ queue m' h (l1 ++ l2) /\ dom m' = dom m /\ same_outside (h :: l1 ++ x :: l2) m m'.
Proof.
  intros [Hnd Hc]. pose proof Hc as Hc0. apply qchain_app in Hc0 as [Hc1 Hc2]. pose proof (chain_last _ _ _ _ Hc1) as Hl. pose proof (chain_first _ _ _ _ Hc2) as Hf.
  pose proof (chain_dom _ _ _ _ Hc1) as D1. pose proof (chain_dom _ _ _ _ Hc2) as D2. pose proof (last_in h l1) as Hli. pose proof (hd_in h l2) as Hhi.
  pose proof Hnd as Hnd0. apply NoDup_cons in Hnd0 as [Hh Hnd']. apply NoDup_app in Hnd' as (N1 & N2 & N3). apply NoDup_cons in N3 as [N4 N5].
  destruct (remove_links x (List.last l1 h) (hd h l2) m Hl Hf) as (m' & -> & Hn & Hp & Hm'); [apply D1; revert Hli; clear; set_solver|apply D2; by right|intros E; rewrite <- E in Hli; revert Hli Hh N2; clear; set_solver|intros E; rewrite <- E in Hhi; revert Hhi Hh N4; clear; set_solver|].
  exists m'. split; [done|]. split; [|split; [done|]].
  2: { intros a Ha. apply same_links; [rewrite Hn|rewrite Hp]; rewrite (proj2 (Z.eqb_neq a _)); try done; intros ->; apply Ha.
    - rewrite app_comm_cons. apply elem_of_app. by left.
    - apply elem_of_app in Hhi as [Hhi|Hhi]; [right; apply elem_of_app; right; by right|].
      apply list_elem_of_singleton in Hhi as ->. by left. }
  split; [constructor; [revert Hh; clear; set_solver|]; apply NoDup_app; split; [done|]; split; [revert N2; clear; set_solver|done]|].
  by apply (chain_remove m m' h l1 x l2 h).
Qed.

(** The end of a chain moved to another node. *)
Lemma qchain_end m m' a l b c : chain m a l b -> NoDup (a :: l) ->
  (forall z, z ∈ a :: l -> z <> List.last l a -> get_next z m' = get_next z m) -> get_next (List.last l a) m' = Some c ->
  (forall z, z ∈ l -> get_prev z m' = get_prev z m) -> get_prev c m' = Some (List.last l a) -> chain m' a l c.
Proof.
  intros Hc Hnd Hn Hl Hp Hc'. destruct l as [|x l _] using rev_ind; [done|]. rewrite List.last_last in *. apply qchain_app in Hc as [Hc _]. apply qchain_app.
  split; [|done]. change (a :: l ++ [x]) with ((a :: l) ++ [x]) in *. apply NoDup_app in Hnd as (_ & N2 & _). apply (chain_frame m); [| |done].
  - intros z Hz. apply Hn; [apply elem_of_app; by left|]. intros ->. apply (N2 x Hz). by constructor.
  - intros z Hz. by apply Hp.
Qed.

Lemma split_links h q n z p m : get_prev h m = Some z -> get_prev q m = Some p -> n ∈ dom m -> z ∈ dom m -> p ∈ dom m -> n <> q -> n <> h -> q <> h -> n <> z -> n <> p -> z <> p ->
  exists m', ngx_queue_split h q n m = Some m' /\
    (forall x, get_next x m' = if x =? p then Some h else if x =? n then Some q else if x =? z then Some n else get_next x m) /\
    (forall x, get_prev x m' = if x =? q then Some n else if x =? h then Some p else if x =? n then Some z else get_prev x m) /\ dom m' = dom m.
Proof.
  intros Hz Hp Hn Hzd Hpd E1 E2 E3 E4 E5 E6. pose proof (get_prev_dom _ _ _ Hz) as Hh. pose proof (get_prev_dom _ _ _ Hp) as Hq. unfold ngx_queue_split. rewrite Hz. cbn [mbind option_bind].
  qset. rewrite P, Z.eqb_refl. cbn [mbind option_bind]. qset. qset. rewrite P1, P0, P, (proj2 (Z.eqb_neq q n)), Hp by done. cbn [mbind option_bind]. qset.
  rewrite P2, Z.eqb_refl. cbn [mbind option_bind]. qset. qset. eexists. split; [done|]. split; [|split; [|congruence]].
  - intros x. by rewrite N4, N3, N2, N1, N0, N.
  - intros x. by rewrite P4, P3, P2, P1, P0, P.
Qed.

(** A queue is cut before the node [q]; the rest goes to [n]. *)
Lemma queue_split m h l1 q l2 n : queue m h (l1 ++ q :: l2) -> n ∉ h :: l1 ++ q :: l2 -> n ∈ dom m ->
  exists m', ngx_queue_split h q n m = Some m' /\ queue m' h l1 /\ queue m' n (q :: l2) /\ dom m' = dom m.
Proof.
  intros [Hnd Hc] Hn Hd. pose proof (chain_dom _ _ _ _ Hc) as Hdom. pose proof (chain_last _ _ _ _ Hc) as Hz. apply qchain_app in Hc as [Hc1 Hc2].
  pose proof (chain_last _ _ _ _ Hc1) as Hp. assert (El : List.last (l1 ++ q :: l2) h = List.last l2 q).
  { destruct l2 as [|y l2 _] using rev_ind; [apply List.last_last|]. rewrite !app_comm_cons, app_assoc. by rewrite !List.last_last. }
  rewrite El in Hz. pose proof (last_in h l1) as Lp. pose proof (last_in q l2) as Lz. change (h :: l1 ++ q :: l2) with ((h :: l1) ++ q :: l2) in Hnd, Hn.
  pose proof Hnd as Hnd0. apply NoDup_app in Hnd0 as (N1 & N2 & N3). rewrite not_elem_of_app in Hn. destruct Hn as [Hn1 Hn2].
  assert (Hqh : q <> h) by (intros ->; apply (N2 h); by constructor). set (p := List.last l1 h) in *. set (z := List.last l2 q) in *.
  assert (Hzp : z <> p) by (intros E; rewrite E in Lz; by apply (N2 p)).
  destruct (split_links h q n z p m Hz Hp Hd) as (m' & -> & Hnx & Hpv & Hm'); try done; try (by intros ->).
  { apply Hdom. rewrite app_comm_cons. apply elem_of_app. left. rewrite app_comm_cons. apply elem_of_app. by right. }
  { apply Hdom. rewrite app_comm_cons. apply elem_of_app. left. rewrite app_comm_cons. apply elem_of_app. by left. }
  { intros ->. apply Hn2. by left. }
  { intros ->. apply Hn1. by left. }
  exists m'. split; [done|]. split; [|split; [|done]].
  - split; [done|]. apply (qchain_end m m' h l1 q h); [done|done| | | |].
    + intros u Hu Hup. rewrite Hnx. rewrite (proj2 (Z.eqb_neq u p)) by done. rewrite (proj2 (Z.eqb_neq u n)) by (by intros ->).
      rewrite (proj2 (Z.eqb_neq u z)); [done|]. intros ->. by apply (N2 z).
    + by rewrite Hnx, Z.eqb_refl.
    + intros u Hu. rewrite Hpv. rewrite (proj2 (Z.eqb_neq u q)) by (intros ->; apply (N2 q); [by right|by left]).
      rewrite (proj2 (Z.eqb_neq u h)) by (intros ->; by inversion_clear N1). rewrite (proj2 (Z.eqb_neq u n)); [done|]. intros ->. apply Hn1. by right.
    + rewrite Hpv, Z.eqb_refl, (proj2 (Z.eqb_neq h q)) by done. done.
  - split; [by constructor|]. cbn [chain]. rewrite Hnx, Hpv, !Z.eqb_refl. rewrite (proj2 (Z.eqb_neq n p)) by (by intros ->). split; [done|]. split; [done|].
    apply (qchain_end m m' q l2 h n); [done|done| | | |].
    + intros u Hu Hup. rewrite Hnx. rewrite (proj2 (Z.eqb_neq u p)) by (intros ->; by apply (N2 p)). rewrite (proj2 (Z.eqb_neq u n)) by (by intros ->).
      rewrite (proj2 (Z.eqb_neq u z)); done.
    + rewrite Hnx, Z.eqb_refl. rewrite (proj2 (Z.eqb_neq _ p)) by done. rewrite (proj2 (Z.eqb_neq _ n)) by (by intros <-). done.
    + intros u Hu. rewrite Hpv. rewrite (proj2 (Z.eqb_neq u q)) by (intros ->; by inversion_clear N3).
      rewrite (proj2 (Z.eqb_neq u h)) by (intros ->; apply (N2 h); [by left|by right]). rewrite (proj2 (Z.eqb_neq u n)); [done|]. intros ->. apply Hn2. by right.
    + rewrite Hpv. rewrite (proj2 (Z.eqb_neq n q)) by (intros ->; apply Hn2; by left). rewrite (proj2 (Z.eqb_neq n h)) by (intros ->; apply Hn1; by left). by rewrite Z.eqb_refl.
Qed.

Lemma add_links h n p y z m : get_prev h m = Some p -> get_next n m = Some y -> get_prev n m = Some z -> p ∈ dom m -> y ∈ dom m -> z ∈ dom m ->
  n <> p -> h <> y -> n <> y -> n <> h -> p <> z ->
  exists m', ngx_queue_add h n m = Some m' /\
    (forall x, get_next x m' = if x =? z then Some h else if x =? p then Some y else get_next x m) /\
    (forall x, get_prev x m' = if x =? h then Some z else if x =? y then Some p else get_prev x m) /\ dom m' = dom m.
Proof.
  intros Hp Hy Hz Hpd Hyd Hzd E1 E2 E3 E4 E5. pose proof (get_prev_dom _ _ _ Hp) as Hh. unfold ngx_queue_add. rewrite Hp, Hy. cbn [mbind option_bind].
  qset. rewrite N, (proj2 (Z.eqb_neq n p)), Hy, P, Hp by done. cbn [mbind option_bind]. qset. rewrite P0, P, (proj2 (Z.eqb_neq n y)), Hz by done. cbn [mbind option_bind].
  qset. rewrite P1, Z.eqb_refl. cbn [mbind option_bind]. qset. eexists. split; [done|]. split; [|split; [|congruence]].
  - intros x. by rewrite N2, N1, N0, N.
  - intros x. by rewrite P2, P1, P0, P.
Qed.

(** The nodes of [n], which is not empty, behind those of [h]. *)
Lemma queue_add m h l1 n y l2 : queue m h l1 -> queue m n (y :: l2) -> (forall x, x ∈ h :: l1 -> x ∉ n :: y :: l2) ->
  exists m', ngx_queue_add h n m = Some m' /\ queue m' h (l1 ++ y :: l2) /\ dom m' = dom m.
Proof.
  intros [Nd1 Hc1] [Nd2 Hc2] Hdis. pose proof (chain_dom _ _ _ _ Hc1) as D1. pose proof (chain_dom _ _ _ _ Hc2) as D2.
  pose proof (chain_last _ _ _ _ Hc1) as Hp. pose proof (chain_last _ _ _ _ Hc2) as Hz. destruct Hc2 as (Hy & _ & Hc2).
  assert (El : List.last (y :: l2) n = List.last l2 y) by (destruct l2 as [|u l2]; [done|exact (last_default n y u l2)]). rewrite El in Hz.
  pose proof (last_in h l1) as Lp. pose proof (last_in y l2) as Lz. set (p := List.last l1 h) in *. set (z := List.last l2 y) in *.
  inversion_clear Nd2 as [|? ? Nn Nd2']. assert (Hyin : y ∈ n :: y :: l2) by (right; by left). assert (Hzin : z ∈ n :: y :: l2) by by right.
  assert (Hhin : h ∈ h :: l1) by by left.
  destruct (add_links h n p y z m Hp Hy Hz) as (m' & -> & Hnx & Hpv & Hm').
  { apply D1. rewrite app_comm_cons. apply elem_of_app. by left. }
  { apply D2. rewrite app_comm_cons. apply elem_of_app. by left. }
  { apply D2. rewrite app_comm_cons. apply elem_of_app. by left. }
  { intros E. apply (Hdis p Lp). rewrite <- E. by left. }
  { intros E. apply (Hdis h Hhin). by rewrite E. }
  { intros E. apply Nn. rewrite E. by left. }
  { intros E. apply (Hdis h Hhin). rewrite <- E. by left. }
  { intros E. apply (Hdis p Lp). by rewrite E. }
  exists m'. split; [done|]. split; [|done]. split.
  - rewrite app_comm_cons. apply NoDup_app. split; [done|]. split; [|done]. intros x Hx Hx2. apply (Hdis x Hx). by right.
  - apply qchain_app. split; [apply (qchain_end m m' h l1 h y)|apply (qchain_end m m' y l2 n h)]; try done.
    + intros u Hu Hup. rewrite Hnx. rewrite (proj2 (Z.eqb_neq u z)) by (intros ->; by apply (Hdis z)). by rewrite (proj2 (Z.eqb_neq u p)).
    + rewrite Hnx. rewrite (proj2 (Z.eqb_neq _ z)), Z.eqb_refl; [done|]. intros E. apply (Hdis p Lp). fold p in E. by rewrite E.
    + intros u Hu. rewrite Hpv. rewrite (proj2 (Z.eqb_neq u h)) by (intros ->; by inversion_clear Nd1). rewrite (proj2 (Z.eqb_neq u y)); [done|]. intros ->. apply (Hdis y); [by right|done].
    + rewrite Hpv. rewrite (proj2 (Z.eqb_neq y h)), Z.eqb_refl; [done|]. intros ->. by apply (Hdis h).
    + intros u Hu Hup. rewrite Hnx. rewrite (proj2 (Z.eqb_neq u z)) by done. rewrite (proj2 (Z.eqb_neq u p)); [done|]. intros ->. apply (Hdis p Lp). by right.
    + rewrite Hnx. by rewrite Z.eqb_refl.
    + intros u Hu. rewrite Hpv. rewrite (proj2 (Z.eqb_neq u h)) by (intros ->; apply (Hdis h Hhin); by do 2 right). rewrite (proj2 (Z.eqb_neq u y)); [done|]. intros ->. by inversion_clear Nd2'.
    + by rewrite Hpv, Z.eqb_refl.
Qed.

(** *** The middle *)

Lemma chain_lookup m a l b i x y : chain m a l b -> l !! i = Some x -> l !! S i = Some y -> get_next x m = Some y.
Proof.
  revert a i. induction l as [|u l IH]; intros a i Hc Hx Hy; [done|]. destruct Hc as (_ & _ & Hc). destruct i as [|i].
  - injection Hx as ->. destruct l as [|v l]; [done|]. injection Hy as ->. by destruct Hc.
  - by apply (IH u i).
Qed.

Lemma queue_size m h l : queue m h l -> (length l < size m)%nat.
Proof.
  intros [Hnd Hc]. pose proof (chain_dom _ _ _ _ Hc) as Hd. rewrite <- (size_dom m). assert (Hs : list_to_set (C := gset Z) (h :: l) ⊆ dom m).
  { intros z Hz. apply elem_of_list_to_set in Hz. apply Hd. rewrite app_comm_cons. apply elem_of_app. by left. }
  apply subseteq_size in Hs. rewrite size_list_to_set in Hs by done. cbn in Hs. lia.
Qed.

Lemma queue_last_lookup m h l x : queue m h l -> l <> [] -> get_prev h m = Some x -> l !! (length l - 1)%nat = Some x.
Proof.
  intros [_ Hc] Hne H. apply chain_last in Hc. rewrite Hc in H. injection H as <-. destruct l as [|y l _] using rev_ind; [done|]. rewrite List.last_last.
  apply list_lookup_middle. rewrite length_app. cbn. lia.
Qed.

Lemma middle_loop_spec m h l : queue m h l -> forall fuel i mid nx, (length l < i + fuel)%nat -> l !! i = Some mid -> l !! (2 * i)%nat = Some nx -> (2 * i + 1 < length l)%nat ->
  middle_loop fuel h mid nx m = l !! (length l / 2)%nat.
Proof.
  intros Hq. pose proof Hq as [Hnd Hc]. apply NoDup_cons in Hnd as [_ Hnd]. pose proof (chain_last _ _ _ _ Hc) as Hl. induction fuel as [|fuel IH]; intros i mid nx Hf Hi Hn Hlt; [lia|].
  assert (Hne : l <> []) by by destruct l. pose proof (queue_last_lookup _ _ _ _ Hq Hne Hl) as Hlast. set (last := List.last l h) in *.
  destruct (lookup_lt_is_Some_2 l (S i) ltac:(lia)) as [mid' Hi']. destruct (lookup_lt_is_Some_2 l (S (2 * i)) ltac:(lia)) as [nx' Hn'].
  cbn [middle_loop]. rewrite (chain_lookup _ _ _ _ _ _ _ Hc Hi Hi'), (chain_lookup _ _ _ _ _ _ _ Hc Hn Hn'). cbn [mbind option_bind]. unfold ngx_queue_last. rewrite Hl. cbn [mbind option_bind].
  assert (Heq : forall j x, l !! j = Some x -> (x =? last) = bool_decide (j = length l - 1)%nat).
  { intros j x Hj. destruct (Z.eqb_spec x last) as [->|Hx].
    - rewrite bool_decide_eq_true_2; [done|]. by apply (NoDup_lookup l j (length l - 1) last).
    - rewrite bool_decide_eq_false_2; [done|]. intros ->. congruence. }
  fold last. rewrite (Heq _ _ Hn'). case_bool_decide as E.
  { replace (length l / 2)%nat with (S i); [done|]. replace (length l) with (S i * 2)%nat by lia. by rewrite Nat.div_mul. }
  destruct (lookup_lt_is_Some_2 l (S (S (2 * i))) ltac:(lia)) as [nx2 Hn2]. rewrite (chain_lookup _ _ _ _ _ _ _ Hc Hn' Hn2). cbn [mbind option_bind].
  rewrite (Heq _ _ Hn2). case_bool_decide as E2.
  { replace (length l / 2)%nat with (S i); [done|]. replace (length l) with (S i * 2 + 1)%nat by lia. rewrite Nat.div_add_l by lia. cbn. lia. }
  apply (IH (S i)); [lia|done| |lia]. by replace (2 * S i)%nat with (S (S (2 * i))) by lia.
Qed.

Lemma queue_middle m h l : queue m h l -> l <> [] -> ngx_queue_middle h m = l !! (length l / 2)%nat.
Proof.
  intros Hq Hne. pose proof Hq as [Hnd Hc]. pose proof (chain_first _ _ _ _ Hc) as Hf. pose proof (chain_last _ _ _ _ Hc) as Hl. unfold ngx_queue_middle, ngx_queue_head, ngx_queue_last.
  rewrite Hf, Hl. cbn [mbind option_bind]. pose proof (queue_last_lookup _ _ _ _ Hq Hne Hl) as Hlast. destruct l as [|x l]; [done|]. cbn [hd]. apply NoDup_cons in Hnd as [_ Hnd].
  destruct (Z.eqb_spec x (List.last (x :: l) h)) as [E|E].
  - rewrite <- E in Hlast. assert (E0 : (0 = length (x :: l) - 1)%nat) by (by apply (NoDup_lookup (x :: l) 0 (length (x :: l) - 1) x)). destruct l; [done|cbn in E0; lia].
  - rewrite <- (middle_loop_spec m h (x :: l) Hq (size m) 0 x x); [done| |done|done|].
    + pose proof (queue_size _ _ _ Hq). lia.
    + destruct l; [done|cbn; lia].
Qed.

(** *** The sort *)

Section sort_spec.
Context (cmp : Z -> Z -> Z).

(** Where the inner loop stops is where the element goes in the sorted part,
    which is [rp] from its end. *)
Lemma place_loop_spec m h q rp : forall fuel tail x, queue m h (rev (x :: rp) ++ tail) -> (length rp < fuel)%nat ->
  exists pre p post, h :: rev (x :: rp) = pre ++ p :: post /\ place_loop cmp fuel h x q m = Some p /\
    h :: rev (sort_insert cmp q (x :: rp)) = pre ++ p :: q :: post.
Proof.
  induction rp as [|y rp IH]; intros fuel tail x Hq Hf; (destruct fuel as [|fuel]; [lia|]); cbn [place_loop sort_insert].
  - destruct (Z.leb_spec (cmp x q) 0) as [H|H].
    + exists [h], x, []. rewrite (proj2 (Z.ltb_ge 0 (cmp x q))) by lia. done.
    + destruct Hq as [_ Hc]. apply (qchain_app m h []) in Hc as [Hc _]. apply chain_last in Hc. rewrite Hc. cbn [mbind option_bind List.last]. rewrite Z.eqb_refl.
      exists [], h, [x]. rewrite (proj2 (Z.ltb_lt 0 (cmp x q))) by lia. done.
  - destruct (Z.leb_spec (cmp x q) 0) as [H|H].
    + exists (h :: rev (y :: rp)), x, []. rewrite (proj2 (Z.ltb_ge 0 (cmp x q))) by lia. split; [done|]. split; [done|]. cbn. by rewrite <- !app_assoc.
    + rewrite (proj2 (Z.ltb_lt 0 (cmp x q))) by lia. pose proof Hq as [Hnd Hc]. change (rev (x :: y :: rp)) with (rev (y :: rp) ++ [x]) in *. rewrite <- app_assoc in Hc, Hq, Hnd.
      apply qchain_app in Hc as [Hc _]. apply chain_last in Hc. cbn [rev] in Hc. rewrite List.last_last in Hc. rewrite Hc. cbn [mbind option_bind].
      rewrite (proj2 (Z.eqb_neq y h)). 2: { intros ->. apply NoDup_cons in Hnd as [Hh _]. apply Hh. cbn [rev]. rewrite !elem_of_app. left. right. by constructor. }
      destruct (IH fuel ([x] ++ tail) y Hq ltac:(cbn in Hf; lia)) as (pre & p & post & E1 & E2 & E3). exists pre, p, (post ++ [x]). split; [|split; [done|]].
      * change (h :: rev (y :: rp) ++ [x]) with ((h :: rev (y :: rp)) ++ [x]). rewrite E1. by rewrite <- app_assoc.
      * transitivity ((h :: rev (sort_insert cmp q (y :: rp))) ++ [x]); [reflexivity|]. rewrite E3. by rewrite <- app_assoc.
Qed.

Lemma sort_loop_queue h fuel : forall m x rp l2, queue m h (rev (x :: rp) ++ l2) -> (length l2 < fuel)%nat ->
  exists m', queue_sort_loop cmp fuel h (hd h l2) m = Some m' /\ queue m' h (rev (sort_loop cmp (x :: rp) l2)) /\ dom m' = dom m /\
    same_outside (h :: rev (x :: rp) ++ l2) m m'.
Proof.
  induction fuel as [|fuel IH]; intros m x rp l2 Hq Hf; [lia|]. destruct l2 as [|q l2]; cbn [hd queue_sort_loop sort_loop].
  { rewrite Z.eqb_refl. rewrite app_nil_r in Hq. by exists m. }
  pose proof Hq as [Hnd Hc]. assert (Hqh : q <> h). { intros ->. apply NoDup_cons in Hnd as [Hh _]. apply Hh, elem_of_app. right. by constructor. }
  rewrite (proj2 (Z.eqb_neq q h)) by done. apply qchain_app in Hc as [Hc1 Hc2]. apply chain_last in Hc1. apply chain_first in Hc2. cbn [rev] in Hc1. rewrite List.last_last in Hc1.
  rewrite Hc1, Hc2. cbn [mbind option_bind]. destruct (queue_remove _ _ _ _ _ Hq) as (m1 & -> & Hq1 & D1 & O1). cbn [mbind option_bind].
  pose proof (queue_size _ _ _ Hq1) as Hsz. destruct (place_loop_spec m1 h q rp (size m1) l2 x Hq1) as (pre & p & post & E1 & -> & E3).
  { rewrite length_app, length_rev in Hsz. cbn in Hsz. lia. }
  cbn [mbind option_bind]. assert (Hqd : q ∈ dom m) by (by apply get_next_dom in Hc2).
  destruct (queue_insert_after m1 h (rev (x :: rp) ++ l2) pre p (post ++ l2) q Hq1) as (m2 & l' & -> & Hq2 & El & D2 & O2).
  { rewrite app_comm_cons, E1. by rewrite <- app_assoc. }
  { intros Hin. apply NoDup_cons in Hnd as [Hh Hnd']. apply NoDup_app in Hnd' as (_ & N2 & N3). apply elem_of_cons in Hin as [->|Hin]; [done|].
    apply elem_of_app in Hin as [Hin|Hin]; [apply (N2 q Hin); by constructor|by inversion_clear N3]. }
  { congruence. }
  cbn [mbind option_bind]. assert (El' : l' = rev (sort_insert cmp q (x :: rp)) ++ l2).
  { assert (E : h :: l' = (h :: rev (sort_insert cmp q (x :: rp))) ++ l2) by (rewrite El, E3; by rewrite <- app_assoc). by injection E. }
  subst l'. destruct (sort_insert cmp q (x :: rp)) as [|x' rp'] eqn:Ei.
  { exfalso. pose proof (sort_insert_perm cmp q (x :: rp)) as Hp. rewrite Ei in Hp. by apply Permutation_nil_l in Hp. }
  destruct (IH m2 x' rp' l2 Hq2 ltac:(cbn in Hf; lia)) as (m3 & E & Hq3 & D3 & O3). exists m3. split; [done|]. split; [done|]. split; [congruence|].
  assert (Hp : h :: rev (x' :: rp') ++ l2 ≡ₚ h :: rev (x :: rp) ++ q :: l2).
  { rewrite <- Ei, <- !Permutation_rev, sort_insert_perm. solve_Permutation. }
  assert (Hp2 : q :: h :: rev (x :: rp) ++ l2 ≡ₚ h :: rev (x :: rp) ++ q :: l2) by solve_Permutation.
  intros a Ha. rewrite (O3 a), (O2 a), (O1 a); [done|done|by rewrite Hp2|by rewrite Hp].
Qed.

(** C19: sorting a queue.  On a memory that holds a queue, [ngx_queue_sort] ends,
    follows no link of a node that is not there, leaves the same nodes in the
    order of a stable insertion sort by the comparison function, and changes no
    node outside the queue: head and elements apart, the memory is as before. *)
Theorem queue_sort_refines h m l : queue m h l ->
  exists m', ngx_queue_sort cmp h m = Some m' /\ queue m' h (ngx_sort cmp true l) /\ dom m' = dom m /\
    (forall a, a ∉ h :: l -> m' !! a = m !! a).
Proof.
  intros Hq. pose proof Hq as [Hnd Hc]. pose proof (chain_first _ _ _ _ Hc) as Hf. pose proof (chain_last _ _ _ _ Hc) as Hl.
  unfold ngx_queue_sort, ngx_queue_head, ngx_queue_last. rewrite Hf, Hl. cbn [mbind option_bind]. destruct l as [|x l]; cbn [hd].
  { cbn. rewrite Z.eqb_refl. by exists m. }
  pose proof (queue_last_lookup _ _ _ _ Hq ltac:(done) Hl) as Hlast. destruct (Z.eqb_spec x (List.last (x :: l) h)) as [E|E].
  - rewrite <- E in Hlast. apply NoDup_cons in Hnd as [_ Hnd]. assert (E0 : (0 = length (x :: l) - 1)%nat) by (by apply (NoDup_lookup (x :: l) 0 (length (x :: l) - 1) x)).
    destruct l; [by exists m|cbn in E0; lia].
  - destruct Hc as (_ & _ & Hc). rewrite (chain_first _ _ _ _ Hc). cbn [mbind option_bind]. apply (sort_loop_queue h (S (size m)) m x [] l); [done|].
    pose proof (queue_size _ _ _ Hq) as Hs. cbn in Hs. lia.
Qed.
End sort_spec.

(** A queue of three nodes, with a node beside it that stays as it is. *)
Definition sample_queue : qmem :=
  list_to_map [(1, QNode 9 30); (30, QNode 1 7); (7, QNode 30 9); (9, QNode 7 1); (50, QNode 7 9)].

Lemma queue_sort_refines_witness : exists m',
  ngx_queue_sort (fun x y => x - y) 1 sample_queue = Some m' /\ queue m' 1 [7; 9; 30] /\
  m' !! 50 = Some (QNode 7 9).
Proof.
  destruct (queue_sort_refines (fun x y => x - y) 1 sample_queue [30; 7; 9]) as (m' & E & Hq & _ & Ho).
  - split; [by apply (bool_decide_unpack _); vm_compute|]. by vm_compute.
  - exists m'. split; [exact E|]. split; [exact Hq|]. rewrite Ho; [done|].
    by apply (bool_decide_unpack _); vm_compute.
Defined.
