(* ===== verification/NgxMem.v ===== *)
(** * Blocks of memory, bytewise

    A block that was allocated: its address and its bytes.  A read or a write
    that is not inside of the block is undefined ([None]).  Words are stored
    with their low byte first.  With the macro [ngx_align] and the lemmas on
    reading what was written there and elsewhere. *)

From S2P Require Import Prelude.

(** ** Definitions *)

(** The macros [ngx_align] and [ngx_align_ptr] of [ngx_config.h]. *)
Definition ngx_align (d a : Z) : Z := Z.land (d + (a - 1)) (Z.lnot (a - 1)).

Record block := Block {
  b_addr : Z;
  b_data : list Z;
}.

Definition b_end (m : block) : Z := m.(b_addr) + zlen m.(b_data).

Definition inside (m : block) (p n : Z) : bool := (m.(b_addr) <=? p) && (p + n <=? b_end m).

(** The [n] bytes at [p]. *)
Definition load (m : block) (p : Z) (n : nat) : option (list Z) :=
  if inside m p (Z.of_nat n) then Some (take n (drop (Z.to_nat (p - m.(b_addr))) m.(b_data))) else None.

Definition store (m : block) (p : Z) (bs : list Z) : option block :=
  if inside m p (zlen bs) then
    let i := Z.to_nat (p - m.(b_addr)) in
    Some (Block m.(b_addr) (take i m.(b_data) ++ bs ++ drop (i + length bs) m.(b_data)))
  else None.

Definition load8 (m : block) (p : Z) : option Z :=
  match load m p 1 with Some [b] => Some b | _ => None end.

Fixpoint le_bytes (n : nat) (v : Z) : list Z :=
  match n with
  | O => []
  | S n => u8 v :: le_bytes n (v / 256)
  end.

Fixpoint le_value (bs : list Z) : Z :=
  match bs with
  | [] => 0
  | b :: bs => b + 256 * le_value bs
  end.

Definition load_word (m : block) (p : Z) (n : nat) : option Z := le_value <$> load m p n.
Definition store_word (m : block) (p : Z) (n : nat) (v : Z) : option block := store m p (le_bytes n v).

(** ** Alignment *)

Lemma ngx_align_pow d k : 0 <= k -> ngx_align d (2 ^ k) = (d + 2 ^ k - 1) / 2 ^ k * 2 ^ k.
Proof.
  intros Hk. unfold ngx_align.
  replace (2 ^ k - 1) with (Z.ones k) by (rewrite Z.ones_equiv; lia).
  rewrite <- Z.ldiff_land, Z.ldiff_ones_r, Z.shiftl_mul_pow2, Z.shiftr_div_pow2 by done.
  rewrite Z.ones_equiv. do 2 f_equal. lia.
Qed.

Lemma ngx_align_up d k : 0 <= k -> d <= ngx_align d (2 ^ k) < d + 2 ^ k /\ (2 ^ k | ngx_align d (2 ^ k)).
Proof.
  intros Hk. rewrite ngx_align_pow by done.
  assert (0 < 2 ^ k) by (apply Z.pow_pos_nonneg; lia).
  split; [|apply Z.divide_factor_r].
  pose proof (Z.div_mod (d + 2 ^ k - 1) (2 ^ k)). pose proof (Z.mod_pos_bound (d + 2 ^ k - 1) (2 ^ k)). lia.
Qed.

Lemma ngx_align_add p d k : 0 <= k -> (2 ^ k | p) -> ngx_align (p + d) (2 ^ k) = p + ngx_align d (2 ^ k).
Proof.
  intros Hk [q ->]. rewrite !ngx_align_pow by done.
  assert (0 < 2 ^ k) by (apply Z.pow_pos_nonneg; lia).
  replace (q * 2 ^ k + d + 2 ^ k - 1) with (q * 2 ^ k + (d + 2 ^ k - 1)) by lia.
  rewrite Z.div_add_l by lia. lia.
Qed.

Lemma ngx_align_mono d e k : 0 <= k -> d <= e -> ngx_align d (2 ^ k) <= ngx_align e (2 ^ k).
Proof.
  intros Hk Hd. rewrite !ngx_align_pow by done.
  assert (0 < 2 ^ k) by (apply Z.pow_pos_nonneg; lia).
  apply Z.mul_le_mono_nonneg_r; [lia|]. apply Z.div_le_mono; lia.
Qed.

(** ** Words *)

Lemma le_bytes_length n : forall v, length (le_bytes n v) = n.
Proof. induction n as [|n IH]; intros v; cbn [le_bytes length]; [done|by rewrite IH]. Qed.

Lemma le_value_bytes n : forall v, 0 <= v < 256 ^ Z.of_nat n -> le_value (le_bytes n v) = v.
Proof.
  induction n as [|n IH]; intros v Hv; cbn [le_bytes le_value]; [cbn in Hv; lia|].
  rewrite Nat2Z.inj_succ, Z.pow_succ_r in Hv by lia.
  rewrite IH; [unfold u8; change (2 ^ 8) with 256; divlia|].
  split; [apply Z.div_pos; lia|]. apply Z.div_lt_upper_bound; lia.
Qed.

(** ** Reading and writing *)

Lemma inside_iff m p n : inside m p n = true <-> m.(b_addr) <= p /\ p + n <= b_end m.
Proof. unfold inside. rewrite andb_true_iff, !Z.leb_le. done. Qed.

Lemma store_ok m p bs : inside m p (zlen bs) = true ->
  exists m', store m p bs = Some m' /\ m'.(b_addr) = m.(b_addr) /\ zlen m'.(b_data) = zlen m.(b_data).
Proof.
  intros H. unfold store. rewrite H. eexists; split; [done|]. split; [done|]. cbn [b_data].
  apply inside_iff in H. unfold b_end in H. unfold zlen in *.
  rewrite !length_app, length_take, length_drop. lia.
Qed.

Lemma inside_same m m' p n : m'.(b_addr) = m.(b_addr) -> zlen m'.(b_data) = zlen m.(b_data) -> inside m' p n = inside m p n.
Proof. intros Ha Hl. unfold inside, b_end. by rewrite Ha, Hl. Qed.

Lemma store_same m m' p bs : store m p bs = Some m' -> m'.(b_addr) = m.(b_addr) /\ zlen m'.(b_data) = zlen m.(b_data).
Proof.
  intros H. destruct (inside m p (zlen bs)) eqn:E; [|by unfold store in H; rewrite E in H].
  destruct (store_ok _ _ _ E) as (m'' & H' & ?). congruence.
Qed.

Lemma load_length m p n bs : load m p n = Some bs -> length bs = n.
Proof.
  unfold load. destruct (inside m p (Z.of_nat n)) eqn:E; intros [= <-].
  apply inside_iff in E. unfold b_end, zlen in E. rewrite length_take, length_drop. lia.
Qed.

Lemma load_store m m' p bs : store m p bs = Some m' -> load m' p (length bs) = Some bs.
Proof.
  intros H. pose proof (store_same _ _ _ _ H) as (Ha & Hl).
  unfold store in H. destruct (inside m p (zlen bs)) eqn:E; [|done].
  unfold load. rewrite (inside_same _ _ _ _ Ha Hl). fold (zlen bs). rewrite E, Ha. f_equal.
  injection H as <-. cbn [b_data]. apply inside_iff in E. unfold b_end, zlen in E.
  rewrite drop_app_le, drop_ge by (rewrite length_take; lia). cbn [app].
  by rewrite take_app_length.
Qed.

Lemma load_store_other m m' p bs q n : store m p bs = Some m' -> p + zlen bs <= q \/ q + Z.of_nat n <= p ->
  load m' q n = load m q n.
Proof.
  intros H Hd. pose proof (store_same _ _ _ _ H) as (Ha & Hl).
  unfold store in H. destruct (inside m p (zlen bs)) eqn:E; [|done].
  unfold load. rewrite (inside_same _ _ _ _ Ha Hl). destruct (inside m q (Z.of_nat n)) eqn:Q; [|done].
  f_equal. rewrite Ha. injection H as <-. cbn [b_data].
  apply inside_iff in E, Q. unfold b_end, zlen in *.
  apply list_eq. intros k. destruct (decide (k < n)%nat) as [Hk|Hk];
    [|by rewrite !lookup_take_ge by lia].
  rewrite !lookup_take_lt by lia. rewrite !lookup_drop.
  destruct Hd.
  - rewrite lookup_app_r by (rewrite length_take; lia). rewrite length_take.
    rewrite lookup_app_r by lia. rewrite lookup_drop. f_equal. lia.
  - rewrite lookup_app_l by (rewrite length_take; lia). by rewrite lookup_take_lt by lia.
Qed.

Lemma load_word_store m m' p n v : store_word m p n v = Some m' -> 0 <= v < 256 ^ Z.of_nat n -> load_word m' p n = Some v.
Proof.
  intros H Hv. unfold load_word. apply load_store in H. rewrite le_bytes_length in H. rewrite H. cbn.
  by rewrite le_value_bytes.
Qed.
