(* ===== verification/NgxHash.v ===== *)
(** * Hash tables (nginx core, [ngx_hash.c])

    A table is built once from an array of names and then only read.  The
    elements of a bucket lie one behind the other in memory, each with its
    value, its length and its name, and a null value ends the bucket.  Here the
    elements are bytes of a block, as [ngx_hash_init] lays them out and
    [ngx_hash_find] walks through them; pointers are addresses, zero for
    [NULL].  [ngx_hash_init] takes the addresses its allocations return, zero
    for a failed one, and an allocated block starts with any bytes.  A read or
    write out of bounds and a division by zero are [None]. *)

From S2P Require Import Prelude NgxMem NgxCompare.

(** ** Keys *)

(** [ngx_hash], [ngx_hash_key], [ngx_hash_key_lc], and [ngx_hash_strlow] with
    the text it writes. *)
Definition ngx_hash (key c : Z) : Z := u64 (key * 31 + c).

Definition ngx_hash_key (data : list Z) : Z := foldl ngx_hash 0 data.

Definition ngx_hash_key_lc (data : list Z) : Z := foldl (fun key c => ngx_hash key (ngx_tolower c)) 0 data.

Definition ngx_hash_strlow (src : list Z) : Z * list Z :=
  foldl (fun '(key, dst) c => (ngx_hash key (ngx_tolower c), dst ++ [ngx_tolower c])) (0, []) src.

(** ** Tables *)

(** [ngx_hash_t], with the block of its elements. *)
Record hash_t := Hash {
  buckets : list Z;
  h_size : Z;
  h_elts : block;
}.

(** [ngx_hash_key_t]; a key whose data was set to [NULL] keeps its length. *)
Record hash_key := HashKey {
  k_key : list Z;
  k_null : bool;
  k_hash : Z;
  k_value : Z;
}.

(** [ngx_hash_init_t]: the address of the table, zero to have one allocated,
    and the limits. *)
Record hash_init := HashInit {
  i_hash : Z;
  i_max_size : Z;
  i_bucket_size : Z;
}.

Abbreviation PTR := 8 (only parsing).

(** The macro [NGX_HASH_ELT_SIZE]. *)
Definition elt_size (len : Z) : Z := PTR + ngx_align (len + 2) PTR.

(** *** [ngx_hash_find] *)

(** The comparison with the name of an element. *)
Fixpoint same_name_at (m : block) (p : Z) (name : list Z) : option bool :=
  match name with
  | [] => Some true
  | c :: name =>
      match load8 m p with
      | None => None
      | Some b => if c =? b then same_name_at m (p + 1) name else Some false
      end
  end.

(** The loop over a bucket, at most one turn per byte of the block. *)
Fixpoint find_loop (fuel : nat) (m : block) (elt : Z) (name : list Z) : option Z :=
  match fuel with
  | O => None
  | S fuel =>
      match load_word m elt 8 with
      | None => None
      | Some value =>
          if value =? 0 then Some 0
          else
            match load_word m (elt + 8) 2 with
            | None => None
            | Some len =>
                let next := ngx_align (elt + 10 + len) PTR in
                if zlen name =? len then
                  match same_name_at m (elt + 10) name with
                  | None => None
                  | Some true => Some value
                  | Some false => find_loop fuel m next name
                  end
                else find_loop fuel m next name
            end
      end
  end.

Definition ngx_hash_find (h : hash_t) (key : Z) (name : list Z) : option Z :=
  if h.(h_size) =? 0 then None
  else
    match h.(buckets) !! Z.to_nat (key mod h.(h_size)) with
    | None => None
    | Some elt => if elt =? 0 then Some 0 else find_loop (S (length h.(h_elts).(b_data))) h.(h_elts) elt name
    end.

(** *** [ngx_hash_init] *)

(** [test[key] = (u_short) (test[key] + n)], with the new value. *)
Definition add_test (test : list Z) (key n : Z) : option (Z * list Z) :=
  match test !! Z.to_nat key with
  | None => None
  | Some t => Some (u16 (t + n), <[Z.to_nat key := u16 (t + n)]> test)
  end.

(** The first [size] numbers set to [v]. *)
Definition fill_test (test : list Z) (size v : Z) : option (list Z) :=
  if size <=? zlen test then Some (replicate (Z.to_nat size) v ++ drop (Z.to_nat size) test) else None.

(** A size tried: the loop over the names, whether no bucket is too large. *)
Fixpoint try_size (size bucket_size : Z) (names : list hash_key) (test : list Z) : option (bool * list Z) :=
  match names with
  | [] => Some (true, test)
  | nm :: names =>
      if nm.(k_null) then try_size size bucket_size names test
      else
        match add_test test (nm.(k_hash) mod size) (elt_size (zlen nm.(k_key))) with
        | None => None
        | Some (t, test) => if t >? u16 bucket_size then Some (false, test) else try_size size bucket_size names test
        end
  end.

(** The loop over the sizes below [max_size]; [n] of them are left. *)
Fixpoint size_loop (n : nat) (size bucket_size : Z) (names : list hash_key) (test : list Z) : option (option Z * list Z) :=
  match n with
  | O => Some (None, test)
  | S n =>
      match fill_test test size 0 with
      | None => None
      | Some test =>
          match try_size size bucket_size names test with
          | None => None
          | Some (true, test) => Some (Some size, test)
          | Some (false, test) => size_loop n (size + 1) bucket_size names test
          end
      end
  end.

(** The lengths of the buckets, without the end marker they start with. *)
Fixpoint count_names (size : Z) (names : list hash_key) (test : list Z) : option (list Z) :=
  match names with
  | [] => Some test
  | nm :: names =>
      if nm.(k_null) then count_names size names test
      else
        match add_test test (nm.(k_hash) mod size) (elt_size (zlen nm.(k_key))) with
        | None => None
        | Some (_, test) => count_names size names test
        end
  end.

(** The loop that aligns the lengths and adds them up. *)
Fixpoint align_tests (cacheline : Z) (test : list Z) : list Z * Z :=
  match test with
  | [] => ([], 0)
  | t :: test =>
      let '(test', len) := align_tests cacheline test in
      if t =? PTR then (t :: test', len) else (u16 (ngx_align t cacheline) :: test', u16 (ngx_align t cacheline) + len)
  end.

(** The loop that gives each bucket its place; an empty one has none. *)
Fixpoint place (elts : Z) (test : list Z) : list Z :=
  match test with
  | [] => []
  | t :: test => if t =? PTR then 0 :: place elts test else elts :: place (elts + t) test
  end.

(** An element written at [elt]. *)
Definition write_elt (m : block) (elt : Z) (nm : hash_key) : option block :=
  match store_word m elt 8 nm.(k_value) with
  | None => None
  | Some m =>
      match store_word m (elt + 8) 2 (u16 (zlen nm.(k_key))) with
      | None => None
      | Some m => store m (elt + 10) (ngx_strlow nm.(k_key) (length nm.(k_key)))
      end
  end.

(** The loop that writes the elements behind each other. *)
Fixpoint write_elts (size : Z) (bs : list Z) (names : list hash_key) (test : list Z) (m : block) : option (list Z * block) :=
  match names with
  | [] => Some (test, m)
  | nm :: names =>
      if nm.(k_null) then write_elts size bs names test m
      else
        let key := nm.(k_hash) mod size in
        match bs !! Z.to_nat key, test !! Z.to_nat key with
        | Some b, Some t =>
            match write_elt m (b + t) nm with
            | None => None
            | Some m =>
                match add_test test key (elt_size (zlen nm.(k_key))) with
                | None => None
                | Some (_, test) => write_elts size bs names test m
                end
            end
        | _, _ => None
        end
  end.

(** The loop that ends the buckets. *)
Fixpoint end_buckets (bs test : list Z) (m : block) : option block :=
  match bs, test with
  | [], _ => Some m
  | b :: bs, t :: test =>
      if b =? 0 then end_buckets bs test m
      else
        match store_word m (b + t) 8 0 with
        | None => None
        | Some m => end_buckets bs test m
        end
  | _, [] => None
  end.

(** The next address an allocation returns. *)
Definition pop (addrs : list Z) : Z * list Z :=
  match addrs with
  | [] => (0, [])
  | a :: addrs => (a, addrs)
  end.

Inductive init_result :=
  | InitError
  | InitOk (hash : Z) (h : hash_t).

Section init.
(** [ngx_cacheline_size], and the bytes that memory holds when it is
    allocated. *)
Context (cacheline : Z) (dirt : Z -> Z).

Definition dirty (a n : Z) : block := Block a (map dirt (seqZ a n)).

(** The part behind [found:]. *)
Definition build (hi : hash_init) (size : Z) (names : list hash_key) (test : list Z) (addrs : list Z) :
    option (init_result * list Z) :=
  match fill_test test size PTR with
  | None => None
  | Some test =>
      match count_names size names test with
      | None => None
      | Some test =>
          let '(test, len) := align_tests cacheline (take (Z.to_nat size) test) in
          let '(hash, addrs) := pop addrs in
          if hash =? 0 then Some (InitError, addrs)
          else
            let '(elts, addrs) := pop addrs in
            if elts =? 0 then Some (InitError, addrs)
            else
              let bs := place (ngx_align elts cacheline) test in
              match write_elts size bs names (replicate (Z.to_nat size) 0) (dirty elts (len + cacheline)) with
              | None => None
              | Some (test, m) =>
                  match end_buckets bs test m with
                  | None => None
                  | Some m => Some (InitOk (if hi.(i_hash) =? 0 then hash else hi.(i_hash)) (Hash bs size m), addrs)
                  end
              end
      end
  end.

(** The first size to try. *)
Definition first_size (hi : hash_init) (nelts : Z) : option Z :=
  let per_bucket := u64 (hi.(i_bucket_size) - PTR) / (2 * PTR) in
  if per_bucket =? 0 then None
  else
    let start := nelts / per_bucket in
    let start := if start =? 0 then 1 else start in
    Some (if (hi.(i_max_size) >? 10000) && negb (nelts =? 0) && (hi.(i_max_size) / nelts <? 100)
          then hi.(i_max_size) - 1000 else start).

Definition ngx_hash_init (hi : hash_init) (names : list hash_key) (addrs : list Z) : option (init_result * list Z) :=
  if existsb (fun nm => hi.(i_bucket_size) <? elt_size (zlen nm.(k_key)) + PTR) names then Some (InitError, addrs)
  else
    let '(tst, addrs) := pop addrs in
    if tst =? 0 then Some (InitError, addrs)
    else
      let test := map (fun i => u16 (dirt (tst + 2 * i))) (seqZ 0 hi.(i_max_size)) in
      let bucket_size := u64 (hi.(i_bucket_size) - PTR) in
      match first_size hi (zlen names) with
      | None => None
      | Some start =>
          match size_loop (Z.to_nat (hi.(i_max_size) - start)) start bucket_size names test with
          | None => None
          | Some (None, _) => Some (InitError, addrs)
          | Some (Some size, test) => build hi size names test addrs
          end
      end.
End init.
