(* ===== verification/NgxHashSpec.v ===== *)
(** * Hash tables: what building and finding do

    The bytes that [ngx_hash_init] leaves for a bucket are the chain of the
    bucket's names, in the order of the array, with an end; [ngx_hash_find]
    reads such a chain as a lookup in the list.  Counting the lengths of the
    buckets, placing them and writing them do not interfere and stay in the
    memory that was counted. *)

From S2P Require Import Prelude NgxMem NgxCompare NgxHash.

(** ** The specification *)

Definition in_bucket (size i : Z) (nm : hash_key) : bool := negb nm.(k_null) && (nm.(k_hash) mod size =? i).

Definition low_key (nm : hash_key) : list Z := ngx_strlow nm.(k_key) (length nm.(k_key)).

(** What a bucket is to hold, and its length in bytes. *)
Definition entries (size i : Z) (names : list hash_key) : list (list Z * Z) :=
  map (fun nm => (low_key nm, nm.(k_value))) (List.filter (in_bucket size i) names).

Definition elts_len (l : list (list Z * Z)) : Z := foldr (fun x n => elt_size (zlen x.1) + n) 0 l.

Definition bucket_len (size i : Z) (names : list hash_key) : Z := elts_len (entries size i names).

Fixpoint assoc (l : list (list Z * Z)) (name : list Z) : Z :=
  match l with
  | [] => 0
  | (nm, v) :: l => if beq nm name then v else assoc l name
  end.

Definition buckets_fit (bucket_size size : Z) (names : list hash_key) : Prop :=
  forall i, 0 <= i < size -> bucket_len size i names <= bucket_size.

(** A name with a value and a hash; a value is not null and is a word. *)
Definition key_ok (nm : hash_key) : Prop := 0 <= nm.(k_hash) /\ 0 < nm.(k_value) < 2 ^ 64.

(** ** The size of an element *)

Lemma elt_size_bounds len : len + 10 <= elt_size len < len + 18.
Proof. unfold elt_size. pose proof (ngx_align_up (len + 2) 3 ltac:(lia)) as H. change (2 ^ 3) with 8 in H. lia. Qed.

Lemma elt_size_aligned len : (8 | elt_size len).
Proof.
  unfold elt_size. apply Z.divide_add_r; [done|]. exact (proj2 (ngx_align_up (len + 2) 3 ltac:(lia))).
Qed.

Lemma elt_size_next p len : (8 | p) -> ngx_align (p + 10 + len) 8 = p + elt_size len.
Proof.
  intros H. unfold elt_size. replace (p + 10 + len) with ((p + 8) + (len + 2)) by lia.
  pose proof (ngx_align_add (p + 8) (len + 2) 3 ltac:(lia)) as E. change (2 ^ 3) with 8 in E.
  rewrite E; [lia|]. apply Z.divide_add_r; [done|]. by exists 1.
Qed.

Lemma strlow_length n : forall src, length (ngx_strlow src n) = n.
Proof. induction n as [|n IH]; intros src; cbn; [done|by rewrite IH]. Qed.

Lemma low_key_len nm : zlen (low_key nm) = zlen nm.(k_key).
Proof. unfold low_key, zlen. by rewrite strlow_length. Qed.

Lemma elts_len_app l k : elts_len (l ++ k) = elts_len l + elts_len k.
Proof. induction l as [|x l IH]; cbn [elts_len foldr app]; [done|]. fold (elts_len (l ++ k)) (elts_len l). lia. Qed.

Lemma elts_len_count l : 10 * zlen l <= elts_len l.
Proof.
  induction l as [|x l IH]; [done|]. cbn [elts_len foldr]. fold (elts_len l). rewrite zlen_cons.
  pose proof (elt_size_bounds (zlen x.1)). pose proof (zlen_nonneg x.1). lia.
Qed.

Lemma elts_len_aligned l : (8 | elts_len l).
Proof.
  induction l as [|x l IH]; cbn [elts_len foldr]; [by exists 0|]. apply Z.divide_add_r; [apply elt_size_aligned|done].
Qed.

(** ** Names of a bucket *)

Lemma entries_app size i a b : entries size i (a ++ b) = entries size i a ++ entries size i b.
Proof. unfold entries. by rewrite List.filter_app, map_app. Qed.

Lemma bucket_len_app size i a b : bucket_len size i (a ++ b) = bucket_len size i a + bucket_len size i b.
Proof. unfold bucket_len. by rewrite entries_app, elts_len_app. Qed.

Lemma bucket_len_nonneg size i names : 0 <= bucket_len size i names.
Proof. unfold bucket_len. pose proof (elts_len_count (entries size i names)). pose proof (zlen_nonneg (entries size i names)). lia. Qed.

Lemma bucket_len_null size i nm : nm.(k_null) = true -> entries size i [nm] = [].
Proof. intros H. unfold entries, in_bucket. cbn. by rewrite H. Qed.

Lemma entries_here size nm : nm.(k_null) = false ->
  entries size (nm.(k_hash) mod size) [nm] = [(low_key nm, nm.(k_value))].
Proof. intros H. unfold entries, in_bucket. cbn. by rewrite H, Z.eqb_refl. Qed.

Lemma entries_other size i nm : nm.(k_hash) mod size <> i -> entries size i [nm] = [].
Proof. intros H. unfold entries, in_bucket. cbn. apply Z.eqb_neq in H. by rewrite H, andb_false_r. Qed.

Lemma bucket_len_here size nm : nm.(k_null) = false ->
  bucket_len size (nm.(k_hash) mod size) [nm] = elt_size (zlen nm.(k_key)).
Proof. intros H. unfold bucket_len. rewrite entries_here by done. cbn [elts_len foldr fst]. rewrite low_key_len. lia. Qed.

Lemma bucket_len_snoc size i nm :
  bucket_len size i [nm] = if in_bucket size i nm then elt_size (zlen nm.(k_key)) else 0.
Proof.
  destruct (in_bucket size i nm) eqn:E; unfold bucket_len, entries; cbn [List.filter]; rewrite E; [|done].
  cbn [map elts_len foldr fst]. rewrite low_key_len. lia.
Qed.

(** ** Counting *)

(** The numbers of the array are these, for the buckets of the table. *)
Definition counts (size : Z) (test : list Z) (s : Z -> Z) : Prop :=
  size <= zlen test /\ forall i, 0 <= i < size -> test !! Z.to_nat i = Some (s i).

Lemma add_counts size test s key n : counts size test s -> 0 <= key < size -> 0 <= s key + n < 2 ^ 16 ->
  exists test', add_test test key n = Some (s key + n, test') /\ zlen test' = zlen test /\
    counts size test' (fun i => s i + (if key =? i then n else 0)).
Proof.
  intros [Hl Hs] Hk Hn. unfold add_test. rewrite Hs by done.
  assert (Hu : u16 (s key + n) = s key + n) by (unfold u16; apply Z.mod_small; lia). rewrite Hu.
  eexists. split; [done|]. split; [unfold zlen; by rewrite length_insert|].
  split; [unfold zlen in *; rewrite length_insert; lia|]. intros i Hi.
  destruct (Z.eqb_spec key i) as [->|E].
  - rewrite list_lookup_insert_eq; [done|]. apply lookup_lt_is_Some. by rewrite Hs.
  - rewrite list_lookup_insert_ne by lia. rewrite Hs by done. f_equal. lia.
Qed.

Lemma counts_ext size test s s' : counts size test s -> (forall i, 0 <= i < size -> s i = s' i) -> counts size test s'.
Proof. intros [Hl Hs] H. split; [done|]. intros i Hi. rewrite Hs, H by done. done. Qed.

Lemma fill_counts size test v : 0 <= size <= zlen test ->
  exists test', fill_test test size v = Some test' /\ zlen test' = zlen test /\ counts size test' (fun _ => v).
Proof.
  intros H. unfold fill_test. rewrite (proj2 (Z.leb_le _ _)) by lia. eexists. split; [done|].
  assert (L : zlen (replicate (Z.to_nat size) v ++ drop (Z.to_nat size) test) = zlen test).
  { unfold zlen in *. rewrite length_app, length_replicate, length_drop. lia. }
  split; [done|]. split; [lia|]. intros i Hi.
  rewrite lookup_app_l by (rewrite length_replicate; lia). apply lookup_replicate. split; [done|lia].
Qed.

Lemma hash_mod_range nm size : 0 < size -> key_ok nm -> 0 <= nm.(k_hash) mod size < size.
Proof. intros H _. by apply Z.mod_pos_bound. Qed.

Section count.
Context (size bucket_size : Z) (Hsize : 0 < size) (Hb : 0 <= bucket_size < 2 ^ 15).

(** An element of every name fits into a bucket. *)
Definition small_keys (names : list hash_key) : Prop := Forall (fun nm => elt_size (zlen nm.(k_key)) <= bucket_size) names.

Lemma try_size_counts names : forall test s,
  small_keys names -> counts size test s -> (forall i, 0 <= i < size -> 0 <= s i <= bucket_size) ->
  exists test', zlen test' = zlen test /\
    ((try_size size bucket_size names test = Some (true, test') /\
        forall i, 0 <= i < size -> s i + bucket_len size i names <= bucket_size) \/
     (try_size size bucket_size names test = Some (false, test') /\
        ~ forall i, 0 <= i < size -> s i + bucket_len size i names <= bucket_size)).
Proof.
  induction names as [|nm names IH]; intros test s Hk Hc Hs; inversion_clear Hk; cbn [try_size].
  { exists test. split; [done|]. left. split; [done|]. intros i Hi. specialize (Hs i Hi). unfold bucket_len. cbn. lia. }
  assert (Hcons : forall i, bucket_len size i (nm :: names) = bucket_len size i [nm] + bucket_len size i names)
    by (intros i; apply (bucket_len_app size i [nm] names)).
  destruct (k_null nm) eqn:Hnull.
  { destruct (IH test s) as (test' & Hl & H'); [done..|]. exists test'. split; [done|].
    assert (Hz : forall i, bucket_len size i [nm] = 0) by (intros i; unfold bucket_len; by rewrite bucket_len_null).
    destruct H' as [[E F]|[E F]]; [left|right]; (split; [done|]); [|intros G; apply F];
      intros i Hi; [rewrite Hcons, Hz; by apply F|].
    specialize (G i Hi). rewrite Hcons, Hz in G. done. }
  set (key := nm.(k_hash) mod size). assert (Hkey : 0 <= key < size) by (by apply Z.mod_pos_bound).
  pose proof (elt_size_bounds (zlen nm.(k_key))). pose proof (zlen_nonneg nm.(k_key)).
  destruct (add_counts size test s key (elt_size (zlen nm.(k_key)))) as (test1 & -> & Hl1 & Hc1); [done..| |].
  { specialize (Hs key Hkey). lia. }
  assert (Hu : u16 bucket_size = bucket_size) by (unfold u16; apply Z.mod_small; lia). rewrite Hu, Z.gtb_ltb.
  assert (Hone : forall i, bucket_len size i [nm] = if key =? i then elt_size (zlen nm.(k_key)) else 0).
  { intros i. rewrite bucket_len_snoc. unfold in_bucket. by rewrite Hnull. }
  destruct (Z.ltb_spec bucket_size (s key + elt_size (zlen nm.(k_key)))) as [Hlt|Hle].
  { exists test1. split; [done|]. right. split; [done|]. intros G. specialize (G key Hkey).
    rewrite Hcons, Hone, Z.eqb_refl in G. pose proof (bucket_len_nonneg size key names). lia. }
  destruct (IH test1 _ ltac:(done) Hc1) as (test' & Hl & H').
  { intros i Hi. specialize (Hs i Hi). destruct (Z.eqb_spec key i) as [<-|]; lia. }
  exists test'. split; [congruence|].
  destruct H' as [[E F]|[E F]]; [left|right]; (split; [done|]); [|intros G; apply F];
    intros i Hi; [specialize (F i Hi)|specialize (G i Hi)]; rewrite Hcons, Hone in *; lia.
Qed.

Lemma count_names_counts names : forall test s,
  counts size test s -> (forall i, 0 <= i < size -> 0 <= s i /\ s i + bucket_len size i names < 2 ^ 16) ->
  exists test', count_names size names test = Some test' /\ zlen test' = zlen test /\
    counts size test' (fun i => s i + bucket_len size i names).
Proof.
  induction names as [|nm names IH]; intros test s Hc Hs; cbn [count_names].
  { exists test. split; [done|]. split; [done|]. eapply counts_ext; [done|]. intros i _. unfold bucket_len. cbn. lia. }
  assert (Hcons : forall i, bucket_len size i (nm :: names) = bucket_len size i [nm] + bucket_len size i names)
    by (intros i; apply (bucket_len_app size i [nm] names)).
  destruct (k_null nm) eqn:Hnull.
  { assert (Hz : forall i, bucket_len size i [nm] = 0) by (intros i; unfold bucket_len; by rewrite bucket_len_null).
    destruct (IH test s) as (test' & E & Hl & H'); [done| |].
    { intros i Hi. specialize (Hs i Hi). rewrite Hcons, Hz in Hs. lia. }
    exists test'. split; [done|]. split; [done|]. eapply counts_ext; [done|]. intros i _. cbv beta. rewrite Hcons, Hz. lia. }
  set (key := nm.(k_hash) mod size). assert (Hkey : 0 <= key < size) by (by apply Z.mod_pos_bound).
  assert (Hone : forall i, bucket_len size i [nm] = if key =? i then elt_size (zlen nm.(k_key)) else 0).
  { intros i. rewrite bucket_len_snoc. unfold in_bucket. by rewrite Hnull. }
  pose proof (elt_size_bounds (zlen nm.(k_key))). pose proof (zlen_nonneg nm.(k_key)).
  destruct (add_counts size test s key (elt_size (zlen nm.(k_key)))) as (test1 & -> & Hl1 & Hc1); [done..| |].
  { pose proof (Hs key Hkey) as Hk. rewrite Hcons, Hone, Z.eqb_refl in Hk.
    pose proof (bucket_len_nonneg size key names). lia. }
  destruct (IH test1 _ Hc1) as (test' & E & Hl & H').
  { intros i Hi. specialize (Hs i Hi). rewrite Hcons, Hone in Hs. destruct (Z.eqb_spec key i); lia. }
  exists test'. split; [done|]. split; [congruence|]. eapply counts_ext; [done|]. intros i _. cbv beta. rewrite Hcons, Hone. lia.
Qed.
End count.

(** ** Chains of elements *)

(** The elements [l] one behind the other from [p] to [q]. *)
Fixpoint chain (m : block) (p : Z) (l : list (list Z * Z)) (q : Z) : Prop :=
  match l with
  | [] => p = q
  | (nm, v) :: l =>
      load_word m p 8 = Some v /\ load_word m (p + 8) 2 = Some (zlen nm) /\ load m (p + 10) (length nm) = Some nm /\
      chain m (p + elt_size (zlen nm)) l q
  end.

(** Nothing between [p] and [q] changed. *)
Definition agree (m m' : block) (p q : Z) : Prop :=
  forall a n, p <= a -> a + Z.of_nat n <= q -> load m' a n = load m a n.

Lemma agree_refl m p q : agree m m p q.
Proof. by intros a n _ _. Qed.

Lemma agree_trans m1 m2 m3 p q : agree m1 m2 p q -> agree m2 m3 p q -> agree m1 m3 p q.
Proof. intros H1 H2 a n Ha Hn. rewrite H2, H1 by done. done. Qed.

Lemma agree_sub m m' p q p' q' : agree m m' p q -> p <= p' -> q' <= q -> agree m m' p' q'.
Proof. intros H Hp Hq a n Ha Hn. apply H; lia. Qed.

Lemma agree_store m m' a bs p q : store m a bs = Some m' -> a + zlen bs <= p \/ q <= a -> agree m m' p q.
Proof. intros H Hd b n Hb Hn. eapply load_store_other; [done|]. lia. Qed.

Lemma agree_word m m' p q a n : agree m m' p q -> p <= a -> a + Z.of_nat n <= q -> load_word m' a n = load_word m a n.
Proof. intros H Ha Hn. unfold load_word. by rewrite H. Qed.

Lemma chain_end m l : forall p q, chain m p l q -> q = p + elts_len l.
Proof.
  induction l as [|[nm v] l IH]; intros p q; cbn [chain elts_len foldr fst]; [lia|].
  intros (_ & _ & _ & H). apply IH in H. fold (elts_len l). lia.
Qed.

Lemma chain_agree m m' l : forall p q, chain m p l q -> agree m m' p q -> chain m' p l q.
Proof.
  induction l as [|[nm v] l IH]; intros p q; [done|]. intros Hc Ha. pose proof (chain_end _ _ _ _ Hc) as Hq. revert Hc.
  cbn [chain elts_len foldr fst] in *. fold (elts_len l) in Hq. intros (Hv & Hlen & Hn & Hc).
  pose proof (elt_size_bounds (zlen nm)). pose proof (zlen_nonneg nm). pose proof (elts_len_count l). pose proof (zlen_nonneg l).
  rewrite !(agree_word m m' p q) by (done || lia). rewrite Ha by (unfold zlen in *; lia).
  split; [done|]. split; [done|]. split; [done|]. apply IH; [done|]. eapply agree_sub; [done|lia..].
Qed.

Lemma chain_app m l k : forall p q r, chain m p l q -> chain m q k r -> chain m p (l ++ k) r.
Proof.
  induction l as [|[nm v] l IH]; intros p q r; cbn [chain app]; [by intros ->|].
  intros (Hv & Hlen & Hn & Hc) Hk. eauto.
Qed.

(** Writing an element adds it to the chain before it. *)
Lemma write_elt_chain m p nm :
  inside m p (elt_size (zlen nm.(k_key))) = true -> key_ok nm -> zlen nm.(k_key) < 2 ^ 16 ->
  exists m', write_elt m p nm = Some m' /\ m'.(b_addr) = m.(b_addr) /\ zlen m'.(b_data) = zlen m.(b_data) /\
    chain m' p [(low_key nm, nm.(k_value))] (p + elt_size (zlen nm.(k_key))) /\
    (forall a b, b <= p \/ p + elt_size (zlen nm.(k_key)) <= a -> agree m m' a b).
Proof.
  intros Hin [_ Hv] Hlen. apply inside_iff in Hin.
  pose proof (elt_size_bounds (zlen nm.(k_key))) as Hsz. pose proof (zlen_nonneg nm.(k_key)).
  assert (Hl8 : zlen (le_bytes 8 nm.(k_value)) = 8) by (unfold zlen; by rewrite le_bytes_length).
  assert (Hl2 : zlen (le_bytes 2 (u16 (zlen nm.(k_key)))) = 2) by (unfold zlen; by rewrite le_bytes_length).
  pose proof (low_key_len nm) as Hln.
  unfold write_elt, store_word.
  destruct (store_ok m p (le_bytes 8 nm.(k_value))) as (m1 & S1 & A1 & D1); [apply inside_iff; lia|]. rewrite S1.
  destruct (store_ok m1 (p + 8) (le_bytes 2 (u16 (zlen nm.(k_key))))) as (m2 & S2 & A2 & D2).
  { apply inside_iff. unfold b_end in *. lia. }
  rewrite S2. fold (low_key nm).
  destruct (store_ok m2 (p + 10) (low_key nm)) as (m3 & S3 & A3 & D3).
  { apply inside_iff. unfold b_end in *. lia. }
  rewrite S3. exists m3. split; [done|]. split; [congruence|]. split; [lia|]. split.
  - cbn [chain]. rewrite Hln. split; [|split; [|split; [|done]]].
    + rewrite (agree_word m2 m3 p (p + 8)), (agree_word m1 m2 p (p + 8))
        by first [lia | eapply agree_store; [eassumption|lia]].
      apply (load_word_store _ _ _ _ _ S1). change (256 ^ Z.of_nat 8) with (2 ^ 64). lia.
    + rewrite (agree_word m2 m3 (p + 8) (p + 10)) by first [lia | eapply agree_store; [eassumption|lia]].
      assert (Hu : u16 (zlen nm.(k_key)) = zlen nm.(k_key)) by (unfold u16; apply Z.mod_small; lia).
      rewrite <- Hu. apply (load_word_store _ _ _ _ _ S2). rewrite Hu. change (256 ^ Z.of_nat 2) with (2 ^ 16). lia.
    + by apply load_store in S3.
  - intros a b Hab. eapply agree_trans; [|eapply agree_trans]; eapply agree_store; try eassumption; lia.
Qed.

(** ** Finding in a chain *)

Lemma load_cons m p b l : load m p (S (length l)) = Some (b :: l) -> load8 m p = Some b /\ load m (p + 1) (length l) = Some l.
Proof.
  unfold load8, load. destruct (inside m p (Z.of_nat (S (length l)))) eqn:E; [|done].
  apply inside_iff in E. intros [= H].
  rewrite (proj2 (inside_iff m p (Z.of_nat 1))), (proj2 (inside_iff m (p + 1) (Z.of_nat (length l)))) by lia.
  replace (Z.to_nat (p + 1 - b_addr m)) with (S (Z.to_nat (p - b_addr m))) by lia.
  destruct (drop (Z.to_nat (p - b_addr m)) (b_data m)) as [|c k] eqn:D; [done|]. cbn [take] in H.
  injection H as -> H. split; [by destruct k|]. f_equal.
  rewrite <- Nat.add_1_r, <- drop_drop, D. cbn [drop]. done.
Qed.

Lemma same_name_at_load m nm : forall p name, load m p (length nm) = Some nm -> length name = length nm ->
  same_name_at m p name = Some (beq nm name).
Proof.
  induction nm as [|b nm IH]; intros p [|c name] Hl Hn; cbn [length] in *; try discriminate; [done|].
  apply load_cons in Hl as [Hb Hl]. cbn [same_name_at]. rewrite Hb.
  cbn [beq]. rewrite Z.eqb_sym. destruct (b =? c); cbn [andb]; [|done]. apply IH; [done|lia].
Qed.

Lemma beq_length a b : beq a b = true -> length a = length b.
Proof. intros H. apply beq_eq in H. by subst. Qed.

Lemma find_loop_chain m name l : forall fuel p q,
  chain m p l q -> (8 | p) -> load_word m q 8 = Some 0 -> Forall (fun x => x.2 <> 0) l -> (length l < fuel)%nat ->
  find_loop fuel m p name = Some (assoc l name).
Proof.
  induction l as [|[nm v] l IH]; intros fuel p q Hc Hp Hq Hv Hf; (destruct fuel as [|fuel]; [cbn in Hf; lia|]);
    cbn [chain find_loop assoc] in *.
  { subst q. by rewrite Hq. }
  destruct Hc as (Hv1 & Hlen & Hn & Hc). inversion_clear Hv as [|? ? Hz Hvl]. cbn [snd] in Hz.
  rewrite Hv1, (proj2 (Z.eqb_neq _ _) Hz), Hlen, elt_size_next by done.
  assert (Hnext : find_loop fuel m (p + elt_size (zlen nm)) name = Some (assoc l name)).
  { eapply IH; [done| |done..|cbn [length] in Hf; lia]. apply Z.divide_add_r; [done|apply elt_size_aligned]. }
  destruct (Z.eqb_spec (zlen name) (zlen nm)) as [E|E].
  - rewrite (same_name_at_load m nm) by (done || unfold zlen in E; lia). destruct (beq nm name); done.
  - destruct (beq nm name) eqn:B; [|done]. apply beq_length in B. unfold zlen in E. lia.
Qed.

(** ** Placing the buckets *)

(** The bytes of the buckets that have any. *)
Definition used (test : list Z) : Z := foldr (fun a n => if a =? 8 then n else a + n) 0 test.

Lemma used_nonneg test : Forall (Z.le 0) test -> 0 <= used test.
Proof. induction 1 as [|a test Ha _ IH]; cbn [used foldr]; [done|]. fold (used test). destruct (a =? 8); lia. Qed.

Lemma used_mono test : Forall (Z.le 0) test -> forall i j, (i <= j)%nat -> used (take i test) <= used (take j test).
Proof.
  induction 1 as [|a test Ha Ht IH]; intros i j Hij; [by rewrite !take_nil|].
  destruct i as [|i]; [apply used_nonneg, Forall_take; by constructor|]. destruct j as [|j]; [lia|].
  cbn [take used foldr]. fold (used (take i test)) (used (take j test)). specialize (IH i j ltac:(lia)).
  destruct (a =? 8); lia.
Qed.

Lemma used_next test i a : test !! i = Some a -> a <> 8 -> used (take (S i) test) = used (take i test) + a.
Proof.
  revert i. induction test as [|c test IH]; intros [|i] H Ha; try discriminate; cbn [lookup list_lookup] in H.
  - injection H as ->. cbn [take used foldr]. rewrite take_0. cbn. rewrite (proj2 (Z.eqb_neq _ _) Ha). lia.
  - cbn [take used foldr]. fold (used (take i test)) (used (take (S i) test)).
    rewrite IH by done. destruct (c =? 8); lia.
Qed.

Lemma place_lookup test : forall elts i a, test !! i = Some a ->
  place elts test !! i = Some (if a =? 8 then 0 else elts + used (take i test)).
Proof.
  induction test as [|c test IH]; intros elts [|i] a H; try discriminate; cbn [lookup list_lookup place] in *.
  - injection H as ->. destruct (a =? 8); cbn; [done|f_equal; lia].
  - cbn [take used foldr]. fold (used (take i test)). destruct (c =? 8); cbn [lookup list_lookup]; rewrite (IH _ _ a H);
      destruct (a =? 8); f_equal; lia.
Qed.

Lemma place_length test : forall elts, length (place elts test) = length test.
Proof. induction test as [|c test IH]; intros elts; cbn; [done|]. destruct (c =? 8); cbn; by rewrite IH. Qed.

(** Every bucket with [tot i] bytes of elements has a place for them and for
    its end, in the block and apart from the others. *)
Definition layout (m : block) (bs : list Z) (size : Z) (tot : Z -> Z) : Prop :=
  zlen bs = size /\
  (forall i, 0 <= i < size -> exists b, bs !! Z.to_nat i = Some b /\
     if tot i =? 0 then b = 0 else 0 < b /\ (8 | b) /\ m.(b_addr) <= b /\ b + tot i + 8 <= b_end m) /\
  (forall i j b c, 0 <= i < j -> j < size -> bs !! Z.to_nat i = Some b -> bs !! Z.to_nat j = Some c ->
     tot i <> 0 -> tot j <> 0 -> b + tot i + 8 <= c).

Lemma layout_same m m' bs size tot : layout m bs size tot ->
  m'.(b_addr) = m.(b_addr) -> zlen m'.(b_data) = zlen m.(b_data) -> layout m' bs size tot.
Proof.
  intros (H1 & H2 & H3) Ha Hl. split; [done|]. split; [|done]. intros i Hi. destruct (H2 i Hi) as (b & Hb & H).
  exists b. split; [done|]. unfold b_end in *. by rewrite Ha, Hl.
Qed.

Lemma layout_at m bs size tot i b : layout m bs size tot -> 0 <= i < size -> bs !! Z.to_nat i = Some b ->
  (b = 0 /\ tot i = 0) \/ (0 < b /\ tot i <> 0 /\ (8 | b) /\ m.(b_addr) <= b /\ b + tot i + 8 <= b_end m).
Proof.
  intros (_ & H & _) Hi Hb. destruct (H i Hi) as (b' & Hb' & H'). rewrite Hb in Hb'. injection Hb' as <-.
  destruct (Z.eqb_spec (tot i) 0); [by left|right]. tauto.
Qed.

Lemma layout_apart m bs size tot i j b c : layout m bs size tot -> 0 <= i < size -> 0 <= j < size -> i <> j ->
  bs !! Z.to_nat i = Some b -> bs !! Z.to_nat j = Some c -> b <> 0 -> c <> 0 ->
  b + tot i + 8 <= c \/ c + tot j + 8 <= b.
Proof.
  intros H Hi Hj Hij Hb Hc Hb0 Hc0. pose proof (layout_at _ _ _ _ _ _ H Hi Hb). pose proof (layout_at _ _ _ _ _ _ H Hj Hc).
  destruct H as (_ & _ & H). destruct (Z.lt_total i j) as [?|[?|?]]; [left; apply (H i j)|lia|right; apply (H j i)];
    (done || lia).
Qed.

Section place.
Context (k : Z) (Hk : 3 <= k <= 15).

Lemma aligned_divide a : (8 | ngx_align a (2 ^ k)).
Proof.
  apply Z.divide_trans with (2 ^ k); [|apply ngx_align_up; lia].
  exists (2 ^ (k - 3)). change 8 with (2 ^ 3). rewrite <- Z.pow_add_r by lia. f_equal. lia.
Qed.

Lemma align_tests_eq test : Forall (fun t => 8 <= t < 2 ^ 15) test ->
  exists test' len, align_tests (2 ^ k) test = (test', len) /\ len = used test' /\ Forall (Z.le 0) test' /\
    Forall2 (fun t a => if t =? 8 then a = 8 else t <= a /\ a <> 8 /\ (8 | a)) test test'.
Proof.
  assert (Hp : 0 < 2 ^ k <= 2 ^ 15) by (split; [apply Z.pow_pos_nonneg|apply Z.pow_le_mono_r]; lia).
  induction 1 as [|t test Ht _ (test' & len & IH & Hlen & H0 & H2)]; cbn [align_tests].
  { exists [], 0. split; [done|]. split; [done|]. by split. }
  rewrite IH. destruct (Z.eqb_spec t 8) as [->|Hne].
  - exists (8 :: test'), len. split; [done|]. split; [done|]. split; [constructor; [lia|done]|]. by constructor.
  - pose proof (ngx_align_up t k ltac:(lia)) as [Hup _]. pose proof (aligned_divide t).
    assert (Hu : u16 (ngx_align t (2 ^ k)) = ngx_align t (2 ^ k)) by (unfold u16; apply Z.mod_small; lia).
    rewrite Hu. exists (ngx_align t (2 ^ k) :: test'), (ngx_align t (2 ^ k) + len). split; [done|].
    split; [|split; [constructor; [lia|done]|]].
    + cbn [used foldr]. fold (used test'). rewrite (proj2 (Z.eqb_neq _ _)) by lia. lia.
    + constructor; [|done]. rewrite (proj2 (Z.eqb_neq _ _)) by lia. split; [lia|]. split; [lia|done].
Qed.

Lemma place_layout m size tot test test' elts :
  0 <= size -> zlen test = size -> counts size test (fun i => 8 + tot i) -> (forall i, 0 <= i < size -> 0 <= tot i) ->
  Forall2 (fun t a => if t =? 8 then a = 8 else t <= a /\ a <> 8 /\ (8 | a)) test test' -> Forall (Z.le 0) test' ->
  (8 | elts) -> 0 < elts -> m.(b_addr) <= elts -> elts + used test' <= b_end m ->
  layout m (place elts test') size tot.
Proof.
  intros Hsz Hl [_ Hc] Ht H2 H0 He He0 Ha Hend.
  assert (Hat : forall i, 0 <= i < size -> exists a, test' !! Z.to_nat i = Some a /\
     place elts test' !! Z.to_nat i = Some (if tot i =? 0 then 0 else elts + used (take (Z.to_nat i) test')) /\
     (tot i <> 0 -> 8 + tot i <= a /\ used (take (S (Z.to_nat i)) test') = used (take (Z.to_nat i) test') + a)).
  { intros i Hi. specialize (Hc i Hi). destruct (Forall2_lookup_l _ _ _ _ _ H2 Hc) as (a & Ha' & Hra).
    exists a. split; [done|]. specialize (Ht i Hi). rewrite (place_lookup _ _ _ _ Ha').
    destruct (Z.eqb_spec (8 + tot i) 8) as [E|E].
    - subst a. rewrite (proj2 (Z.eqb_eq (tot i) 0)) by lia. split; [done|lia].
    - destruct Hra as (? & ? & ?). rewrite (proj2 (Z.eqb_neq (tot i) 0)), (proj2 (Z.eqb_neq a 8)) by lia.
      split; [done|]. intros _. split; [lia|]. by apply used_next. }
  assert (Hdiv : forall i, (8 | used (take i test'))).
  { intros i. apply (Forall2_take _ _ _ i) in H2. revert H2. generalize (take i test) (take i test'). intros l l'.
    induction 1 as [|t a l l' Hta _ IH]; cbn [used foldr]; [by exists 0|]. fold (used l').
    destruct (Z.eqb_spec a 8); [done|]. apply Z.divide_add_r; [|done]. destruct (t =? 8); [done|tauto]. }
  assert (Hnn : forall i, 0 <= used (take i test')) by (intros i; by apply used_nonneg, Forall_take).
  assert (Hall : forall i, used (take i test') <= used test').
  { intros i. rewrite <- (take_ge test' (i + length test')) at 2 by lia. apply used_mono; [done|lia]. }
  split; [|split].
  - unfold zlen in *. rewrite place_length. apply Forall2_length in H2. lia.
  - intros i Hi. destruct (Hat i Hi) as (a & _ & Hb & Hu). eexists. split; [done|].
    destruct (Z.eqb_spec (tot i) 0) as [|E]; [done|]. destruct (Hu E) as [Hta Hnext].
    pose proof (Hnn (Z.to_nat i)). pose proof (Hall (S (Z.to_nat i))). repeat split; try lia.
    by apply Z.divide_add_r.
  - intros i j b c Hij Hj Hb Hcj Hti Htj.
    destruct (Hat i ltac:(lia)) as (a & _ & Hb' & Hu). destruct (Hat j ltac:(lia)) as (a' & _ & Hc' & _).
    rewrite Hb in Hb'. rewrite Hcj in Hc'. injection Hb' as ->. injection Hc' as ->.
    rewrite !(proj2 (Z.eqb_neq _ 0)) by done. destruct (Hu Hti) as [Hta Hnext].
    pose proof (used_mono test' H0 (S (Z.to_nat i)) (Z.to_nat j)). lia.
Qed.
End place.

(** ** Writing the buckets *)

(** The names [done] are written, each behind the others of its bucket. *)
Definition written (m : block) (bs : list Z) (size : Z) (test : list Z) (done : list hash_key) : Prop :=
  zlen test = size /\ counts size test (fun i => bucket_len size i done) /\
  forall i b, 0 <= i < size -> bs !! Z.to_nat i = Some b -> b <> 0 ->
    chain m b (entries size i done) (b + bucket_len size i done).

Section write.
Context (size : Z) (Hsize : 0 < size) (bs : list Z) (all : list hash_key).
Let tot i := bucket_len size i all.
Context (Htot : forall i, 0 <= i < size -> tot i < 2 ^ 15).

Lemma prefix_room done nm names : all = done ++ nm :: names -> nm.(k_null) = false ->
  bucket_len size (nm.(k_hash) mod size) done + elt_size (zlen nm.(k_key)) <= tot (nm.(k_hash) mod size).
Proof.
  intros E Hn. unfold tot. rewrite E, bucket_len_app, <- (bucket_len_here size nm Hn).
  rewrite (bucket_len_app size _ [nm] names). pose proof (bucket_len_nonneg size (nm.(k_hash) mod size) names). lia.
Qed.

(** One element. *)
Lemma write_one m test done nm names :
  all = done ++ nm :: names -> nm.(k_null) = false -> key_ok nm -> layout m bs size tot -> written m bs size test done ->
  let key := nm.(k_hash) mod size in
  exists b t m' test', bs !! Z.to_nat key = Some b /\ test !! Z.to_nat key = Some t /\
    write_elt m (b + t) nm = Some m' /\
    add_test test key (elt_size (zlen nm.(k_key))) = Some (t + elt_size (zlen nm.(k_key)), test') /\
    layout m' bs size tot /\ written m' bs size test' (done ++ [nm]).
Proof.
  intros E Hn Hok HL (Hlt & Hc & Hch) key. assert (Hkey : 0 <= key < size) by (by apply Z.mod_pos_bound).
  pose proof (prefix_room _ _ _ E Hn) as Hroom. fold key in Hroom.
  pose proof (bucket_len_nonneg size key done). pose proof (elt_size_bounds (zlen nm.(k_key))).
  pose proof (zlen_nonneg nm.(k_key)). pose proof (Htot key Hkey).
  destruct HL as (HL1 & HL2 & HL3). destruct (HL2 key Hkey) as (b & Hb & _).
  assert (HL : layout m bs size tot) by done.
  destruct (layout_at _ _ _ _ _ _ HL Hkey Hb) as [[_ ?]|(Hb0 & _ & Hb8 & Hba & Hbe)]; [lia|].
  destruct (add_counts size test _ key (elt_size (zlen nm.(k_key))) Hc Hkey) as (test' & Hadd & Hlt' & Hc'); [lia|].
  destruct (write_elt_chain m (b + bucket_len size key done) nm) as (m' & Hw & Ha' & Hd' & Hchain & Hagree);
    [apply inside_iff; lia|done|lia|].
  exists b, (bucket_len size key done), m', test'. split; [done|]. split; [by apply Hc|]. split; [done|]. split; [done|].
  split; [by eapply layout_same|]. split; [congruence|]. split.
  { eapply counts_ext; [done|]. intros i _. cbv beta. rewrite bucket_len_app, bucket_len_snoc. unfold in_bucket. by rewrite Hn. }
  intros i b' Hi Hb' Hb0'. rewrite entries_app, bucket_len_app. specialize (Hch i b' Hi Hb' Hb0').
  destruct (decide (key = i)) as [<-|Hne].
  - rewrite Hb in Hb'. injection Hb' as <-. unfold key at 2 4. rewrite entries_here, bucket_len_here by done.
    eapply chain_app; [|replace (b + _) with (b + bucket_len size key done + elt_size (zlen nm.(k_key))) by lia; done].
    eapply chain_agree; [done|]. apply Hagree. lia.
  - assert (Hz : entries size i [nm] = []) by (by apply entries_other). unfold bucket_len at 2. rewrite Hz, app_nil_r.
    cbn [elts_len foldr]. rewrite Z.add_0_r. eapply chain_agree; [done|]. apply Hagree.
    pose proof (layout_apart _ _ _ _ _ _ _ _ HL Hkey Hi Hne Hb Hb' ltac:(lia) Hb0').
    assert (bucket_len size i done <= tot i).
    { unfold tot. rewrite E, bucket_len_app. pose proof (bucket_len_nonneg size i (nm :: names)). lia. }
    lia.
Qed.

Lemma write_elts_written names : forall done test m,
  all = done ++ names -> Forall key_ok names -> layout m bs size tot -> written m bs size test done ->
  exists test' m', write_elts size bs names test m = Some (test', m') /\ layout m' bs size tot /\ written m' bs size test' all.
Proof.
  induction names as [|nm names IH]; intros done test m E Hok HL HW; cbn [write_elts].
  { rewrite app_nil_r in E. subst done. eauto. }
  inversion_clear Hok as [|? ? Hnm Hok']. destruct (k_null nm) eqn:Hn.
  { apply (IH (done ++ [nm])); [by rewrite <- app_assoc|done..|].
    destruct HW as (H1 & H2 & H3). split; [done|].
    assert (Hz : forall i, entries size i [nm] = []) by (intros i; by apply bucket_len_null).
    split; [eapply counts_ext; [done|]|]; intros i.
    - intros _. cbv beta. rewrite bucket_len_app. unfold bucket_len at 3. rewrite Hz. cbn. lia.
    - intros b Hi Hb Hb0. rewrite bucket_len_app, entries_app. unfold bucket_len at 2. rewrite Hz, app_nil_r. cbn [elts_len foldr].
      rewrite Z.add_0_r. by apply H3. }
  destruct (write_one m test done nm names E Hn Hnm HL HW) as (b & t & m' & test' & -> & -> & -> & -> & HL' & HW').
  apply (IH (done ++ [nm])); [by rewrite <- app_assoc|done..].
Qed.

(** The ends. *)
Lemma end_buckets_ends test n : forall i m,
  zlen test = size -> counts size test tot -> layout m bs size tot -> Z.of_nat i + Z.of_nat n = size ->
  exists m', end_buckets (drop i bs) (drop i test) m = Some m' /\
    m'.(b_addr) = m.(b_addr) /\ zlen m'.(b_data) = zlen m.(b_data) /\
    (forall j b, 0 <= j < size -> bs !! Z.to_nat j = Some b -> b <> 0 ->
       agree m m' b (b + tot j) /\ (j < Z.of_nat i -> agree m m' b (b + tot j + 8)) /\
       (Z.of_nat i <= j -> load_word m' (b + tot j) 8 = Some 0)).
Proof.
  induction n as [|n IH]; intros i m Hlt Hc HL Hin.
  { destruct HL as (HL1 & _). rewrite drop_ge by (unfold zlen in *; lia). cbn [end_buckets]. exists m.
    split; [done|]. split; [done|]. split; [done|]. intros j b Hj _ _.
    split; [apply agree_refl|]. split; [intros _; apply agree_refl|lia]. }
  assert (Hi : 0 <= Z.of_nat i < size) by lia. pose proof Hc as [_ Hc1]. specialize (Hc1 _ Hi).
  pose proof HL as (HL1 & HL2 & HL3). destruct (HL2 _ Hi) as (b & Hb & _). rewrite Nat2Z.id in Hc1, Hb.
  rewrite (drop_S _ _ _ Hb), (drop_S _ _ _ Hc1). cbn [end_buckets].
  pose proof (layout_at _ _ _ _ _ b HL Hi ltac:(by rewrite Nat2Z.id)) as Hat.
  destruct (Z.eqb_spec b 0) as [->|Hb0].
  { destruct (IH (S i) m) as (m' & Hm & Ha & Hd & Hj); [done..|lia|]. exists m'. split; [done|]. split; [done|]. split; [done|].
    intros j b' Hjr Hb' Hb0'. destruct (Hj j b' Hjr Hb' Hb0') as (A1 & A2 & A3). split; [done|].
    split; [intros; apply A2; lia|]. intros Hij. apply A3.
    destruct (decide (j = Z.of_nat i)) as [->|]; [|lia]. rewrite Nat2Z.id, Hb in Hb'. congruence. }
  destruct Hat as [[? _]|(Hb1 & _ & Hb8 & Hba & Hbe)]; [done|].
  assert (Hl8 : zlen (le_bytes 8 0) = 8) by done. unfold store_word. pose proof (bucket_len_nonneg size (Z.of_nat i) all) as Ht0.
  fold (tot (Z.of_nat i)) in Ht0.
  destruct (store_ok m (b + tot (Z.of_nat i)) (le_bytes 8 0)) as (m1 & S1 & A1 & D1); [apply inside_iff; lia|]. rewrite S1.
  destruct (IH (S i) m1) as (m' & Hm & Ha & Hd & Hj); [done..|by eapply layout_same|lia|].
  exists m'. split; [done|]. split; [congruence|]. split; [congruence|].
  intros j b' Hjr Hb' Hb0'. destruct (Hj j b' Hjr Hb' Hb0') as (B1 & B2 & B3).
  destruct (decide (j = Z.of_nat i)) as [->|Hne].
  - rewrite Nat2Z.id, Hb in Hb'. injection Hb' as <-. split; [|split; [lia|intros _]].
    + eapply agree_trans; [|done]. eapply agree_store; [done|lia].
    + rewrite (agree_word m1 m' b (b + tot (Z.of_nat i) + 8)) by (try lia; apply B2; lia).
      apply (load_word_store _ _ _ _ _ S1). lia.
  - pose proof (layout_apart _ _ _ _ _ _ _ _ HL Hi Hjr (not_eq_sym Hne) ltac:(by rewrite Nat2Z.id) Hb' Hb0 Hb0').
    pose proof (bucket_len_nonneg size j all) as Htj. fold (tot j) in Htj.
    split; [eapply agree_trans; [|done]; eapply agree_store; [done|lia]|].
    split; [intros Hji|intros Hij; apply B3; lia].
    eapply agree_trans; [|apply B2; lia]. eapply agree_store; [done|lia].
Qed.
End write.
