(* ===== verification/NgxHashTable.v ===== *)
(** * Hash tables: [ngx_hash_init] as a whole

    With an element of every name in a bucket of less than 2^15 bytes,
    [ngx_hash_init] takes the first size at which every bucket has room for its
    names, and the table it builds finds exactly the names; it fails only when
    there is no such size or no memory.  In a bucket of 2^16 bytes the counts of
    bytes, which are [u_short]s, can wrap around. *)

From S2P Require Import Prelude NgxMem NgxCompare NgxHash NgxHashSpec.

(** The table holds the names: in the bucket of every hash those that have it. *)
Definition table_holds (h : hash_t) (names : list hash_key) : Prop :=
  0 < h.(h_size) /\
  forall key name, ngx_hash_find h key name = Some (assoc (entries h.(h_size) (key mod h.(h_size)) names) name).

(** The value of the first of the names that is this one in lower case. *)
Definition value_of (names : list hash_key) (name : list Z) : Z :=
  assoc (map (fun nm => (low_key nm, nm.(k_value))) (List.filter (fun nm => negb nm.(k_null)) names)) name.

(** The first size from [start] below [max_size] with room for all names. *)
Definition first_fit (bucket_size start max_size : Z) (names : list hash_key) (r : option Z) : Prop :=
  match r with
  | Some size => start <= size < max_size /\ buckets_fit bucket_size size names /\
      forall s, start <= s < size -> ~ buckets_fit bucket_size s names
  | None => forall s, start <= s < max_size -> ~ buckets_fit bucket_size s names
  end.

(** ** The size *)

Lemma size_loop_first bucket_size names n : forall size test,
  0 <= bucket_size < 2 ^ 15 -> small_keys bucket_size names -> 0 < size -> size + Z.of_nat n <= zlen test ->
  exists r test', size_loop n size bucket_size names test = Some (r, test') /\ zlen test' = zlen test /\
    first_fit bucket_size size (size + Z.of_nat n) names r.
Proof.
  induction n as [|n IH]; intros size test Hb Hk Hs Hl; cbn [size_loop].
  { exists None, test. split; [done|]. split; [done|]. intros s ?. lia. }
  destruct (fill_counts size test 0) as (test1 & -> & Hl1 & Hc1); [lia|].
  destruct (try_size_counts size bucket_size Hs Hb names test1 (fun _ => 0) Hk Hc1) as (test2 & Hl2 & Hres); [lia|].
  destruct Hres as [[-> Hfit]|[-> Hfit]].
  - exists (Some size), test2. split; [done|]. split; [congruence|]. split; [lia|].
    split; [intros i Hi; specialize (Hfit i Hi); lia|]. intros s ?. lia.
  - destruct (IH (size + 1) test2) as (r & test' & -> & Hl' & Hr); [done..|lia|rewrite Hl2, Hl1; lia|].
    exists r, test'. split; [done|]. split; [congruence|].
    assert (Hno : ~ buckets_fit bucket_size size names).
    { intros G. apply Hfit. intros i Hi. specialize (G i Hi). lia. }
    replace (size + Z.of_nat (S n)) with (size + 1 + Z.of_nat n) by lia.
    destruct r as [s|]; cbn [first_fit] in *.
    + destruct Hr as (H1 & H2 & H3). split; [lia|]. split; [done|]. intros s' ?.
      destruct (decide (s' = size)) as [->|]; [done|apply H3; lia].
    + intros s ?. destruct (decide (s = size)) as [->|]; [done|apply Hr; lia].
Qed.

Section table.
Context (k : Z) (Hk : 3 <= k <= 15) (dirt : Z -> Z).

(** ** The bytes *)

Lemma find_in_table size names bs test m :
  0 < size -> Forall key_ok names -> zlen test = size ->
  layout m bs size (fun i => bucket_len size i names) -> written m bs size test names ->
  exists m', end_buckets bs test m = Some m' /\ table_holds (Hash bs size m') names.
Proof.
  intros Hs Hok Hlt HL (_ & Hc & Hw).
  destruct (end_buckets_ends size bs names test (Z.to_nat size) 0 m Hlt Hc HL) as (m' & Hm & Ha & Hd & Hend); [lia|].
  rewrite !drop_0 in Hm. exists m'. split; [done|]. split; [done|]. intros key name. unfold ngx_hash_find. cbn [h_size buckets h_elts].
  rewrite (proj2 (Z.eqb_neq size 0)) by lia.
  assert (Hi : 0 <= key mod size < size) by (by apply Z.mod_pos_bound). set (i := key mod size) in *.
  pose proof HL as (_ & HL2 & _). destruct (HL2 i Hi) as (b & Hb & _). rewrite Hb.
  destruct (layout_at _ _ _ _ _ _ HL Hi Hb) as [[-> Ht]|(Hb0 & _ & Hb8 & Hba & Hbe)].
  { cbn. pose proof (elts_len_count (entries size i names)). unfold bucket_len in Ht.
    assert (zlen (entries size i names) = 0) by (pose proof (zlen_nonneg (entries size i names)); lia).
    by rewrite (zlen_0_nil (entries size i names)). }
  rewrite (proj2 (Z.eqb_neq b 0)) by lia. destruct (Hend i b Hi Hb ltac:(lia)) as (Hag & _ & Hz).
  eapply find_loop_chain.
  - eapply chain_agree; [apply (Hw i b Hi Hb); lia|done].
  - done.
  - apply Hz. lia.
  - unfold entries. apply Forall_map, Forall_forall. intros nm Hin. apply list_elem_of_In, List.filter_In in Hin as [Hin _].
    rewrite Forall_forall in Hok. destruct (Hok nm) as [_ ?]; [by apply list_elem_of_In|]. cbn. lia.
  - pose proof (elts_len_count (entries size i names)). unfold bucket_len, b_end, zlen in *. lia.
Qed.

Lemma dirty_end a n : 0 <= n -> b_end (dirty dirt a n) = a + n.
Proof. intros Hn. unfold b_end, dirty, zlen. cbn [b_addr b_data]. rewrite length_map, length_seqZ. lia. Qed.

Lemma build_table hi bucket_size size names test addrs :
  0 <= bucket_size -> bucket_size + 8 < 2 ^ 15 -> Forall key_ok names -> 0 < size <= zlen test ->
  buckets_fit bucket_size size names -> Forall (Z.le 0) addrs ->
  exists r addrs', build (2 ^ k) dirt hi size names test addrs = Some (r, addrs') /\
    match r with
    | InitError => 0 ∈ take 2 addrs \/ (length addrs < 2)%nat
    | InitOk hash h => h.(h_size) = size /\ table_holds h names /\ hash = (if hi.(i_hash) =? 0 then hd 0 addrs else hi.(i_hash)) /\
        addrs' = drop 2 addrs /\ (2 <= length addrs)%nat
    end.
Proof.
  intros Hb0 Hb Hok Hs Hfit Haddr. unfold build.
  assert (Htot : forall i, 0 <= i < size -> 0 <= bucket_len size i names <= bucket_size)
    by (intros i Hi; split; [apply bucket_len_nonneg|by apply Hfit]).
  destruct (fill_counts size test 8) as (test1 & -> & Hl1 & Hc1); [lia|].
  destruct (count_names_counts size ltac:(lia) names test1 _ Hc1) as (test2 & -> & Hl2 & Hc2).
  { intros i Hi. specialize (Htot i Hi). lia. }
  set (test3 := take (Z.to_nat size) test2). assert (Hl3 : zlen test3 = size) by (unfold test3; rewrite zlen_take; lia).
  assert (Hc3 : counts size test3 (fun i => 8 + bucket_len size i names)).
  { split; [lia|]. intros i Hi. unfold test3. rewrite lookup_take_lt by lia. by apply Hc2. }
  destruct (align_tests_eq k Hk test3) as (test4 & len & -> & Hlen & H0 & H2).
  { apply Forall_lookup. intros i t Ht. assert (Hi : 0 <= Z.of_nat i < size)
      by (apply lookup_lt_Some in Ht; unfold zlen in Hl3; lia).
    destruct Hc3 as [_ Hc3]. specialize (Hc3 _ Hi). rewrite Nat2Z.id, Ht in Hc3. injection Hc3 as ->. specialize (Htot _ Hi). lia. }
  destruct addrs as [|hash addrs]; cbn [pop]; [eexists _, _; split; [done|]; right; cbn; lia|].
  destruct (Z.eqb_spec hash 0) as [->|Hh]; [eexists _, _; split; [done|]; left; cbn; constructor|].
  destruct addrs as [|elts addrs]; cbn [pop]; [eexists _, _; split; [done|]; right; cbn; lia|].
  destruct (Z.eqb_spec elts 0) as [->|He]; [eexists _, _; split; [done|]; left; cbn; do 2 constructor|].
  inversion_clear Haddr as [|? ? _ Ha2]. inversion_clear Ha2 as [|? ? He0 _].
  assert (Hp : 0 < 2 ^ k) by (apply Z.pow_pos_nonneg; lia).
  pose proof (used_nonneg test4 H0) as Hu. pose proof (ngx_align_up elts k ltac:(lia)) as [Hal _].
  set (m := dirty dirt elts (len + 2 ^ k)).
  assert (HL : layout m (place (ngx_align elts (2 ^ k)) test4) size (fun i => bucket_len size i names)).
  { apply (place_layout k Hk) with (test := test3); try done; try lia.
    - intros i Hi. apply Htot, Hi.
    - by apply aligned_divide.
    - cbn. lia.
    - unfold m. rewrite dirty_end by lia. lia. }
  assert (HW : written m (place (ngx_align elts (2 ^ k)) test4) size (replicate (Z.to_nat size) 0) []).
  { split; [rewrite zlen_replicate; lia|]. split.
    - split; [rewrite zlen_replicate; lia|]. intros i Hi. apply lookup_replicate. split; [done|lia].
    - intros i b _ _ _. cbn. unfold bucket_len. cbn. lia. }
  destruct (write_elts_written size ltac:(lia) _ names ltac:(intros i Hi; specialize (Htot i Hi); lia) names []
    (replicate (Z.to_nat size) 0) m eq_refl Hok HL HW) as (test5 & m5 & -> & HL5 & HW5).
  destruct (find_in_table size names _ test5 m5 ltac:(lia) Hok (proj1 HW5) HL5 HW5) as (m6 & -> & Hholds).
  eexists _, _. split; [done|]. cbn [h_size hd drop length]. do 4 (split; [done|]). lia.
Qed.
End table.

(** ** Names by their hash *)

Lemma entries_value size H names name :
  Forall (fun nm => nm.(k_hash) = H (low_key nm)) names ->
  assoc (entries size (H name mod size) names) name = value_of names name.
Proof.
  unfold entries, value_of, in_bucket. induction 1 as [|nm names Hh _ IH]; [done|]. cbn [List.filter].
  destruct (k_null nm) eqn:Hn; cbn [negb andb]; [done|]. cbn [map assoc].
  destruct (beq (low_key nm) name) eqn:B.
  - apply beq_eq in B as B'. rewrite Hh, B', Z.eqb_refl. cbn [map assoc]. by rewrite B.
  - destruct (k_hash nm mod size =? H name mod size); cbn [map assoc]; [rewrite B|]; apply IH.
Qed.

Lemma key_lc name : ngx_hash_key_lc name = ngx_hash_key (map ngx_tolower name).
Proof.
  unfold ngx_hash_key_lc, ngx_hash_key. generalize 0. induction name as [|c name IH]; intros h; cbn; [done|apply IH].
Qed.

(** ** Initialisation *)

Lemma first_size_pos hi nelts : 24 <= hi.(i_bucket_size) < 2 ^ 15 -> 0 <= nelts ->
  exists start, first_size hi nelts = Some start /\ 0 < start.
Proof.
  intros Hb Hn. unfold first_size. rewrite u64_small by lia.
  assert (1 <= (hi.(i_bucket_size) - 8) / (2 * 8)) by (apply Z.div_le_lower_bound; lia).
  rewrite (proj2 (Z.eqb_neq _ 0)) by lia. eexists. split; [done|].
  assert (0 <= nelts / ((hi.(i_bucket_size) - 8) / (2 * 8))) by (apply Z.div_pos; lia).
  destruct (Z.gtb_spec hi.(i_max_size) 10000); cbn [andb]; [destruct (_ && _); [lia|]|]; zcases.
Qed.

(** The errors of [ngx_hash_init]: a name that no bucket can hold, no size
    that suffices, no memory. *)
Definition init_fails (hi : hash_init) (start : Z) (names : list hash_key) (addrs : list Z) : Prop :=
  Exists (fun nm => hi.(i_bucket_size) < elt_size (zlen nm.(k_key)) + 8) names \/
  first_fit (hi.(i_bucket_size) - 8) start hi.(i_max_size) names None \/
  0 ∈ take 3 addrs \/ (length addrs < 3)%nat.

Lemma hash_init_holds k dirt hi names addrs :
  3 <= k <= 15 -> 24 <= hi.(i_bucket_size) < 2 ^ 15 -> Forall key_ok names -> Forall (Z.le 0) addrs ->
  exists start r addrs', first_size hi (zlen names) = Some start /\
    ngx_hash_init (2 ^ k) dirt hi names addrs = Some (r, addrs') /\
    match r with
    | InitError => init_fails hi start names addrs
    | InitOk hash h => first_fit (hi.(i_bucket_size) - 8) start hi.(i_max_size) names (Some h.(h_size)) /\
        table_holds h names /\ hash = (if hi.(i_hash) =? 0 then hd 0 (tl addrs) else hi.(i_hash)) /\ addrs' = drop 3 addrs /\ (3 <= length addrs)%nat
    end.
Proof.
  intros Hk Hb Hok Haddr. destruct (first_size_pos hi (zlen names) Hb (zlen_nonneg _)) as (start & Hstart & Hpos).
  exists start. unfold ngx_hash_init. rewrite Hstart, u64_small by lia.
  destruct (existsb _ names) eqn:Hbig.
  { eexists _, _. split; [done|]. split; [done|]. left. apply existsb_exists in Hbig as (nm & Hin & Hlt).
    apply Exists_exists. exists nm. split; [by apply list_elem_of_In|]. by apply Z.ltb_lt. }
  assert (Hsmall : small_keys (hi.(i_bucket_size) - 8) names).
  { apply Forall_forall. intros nm Hin. apply list_elem_of_In in Hin. apply not_true_iff_false in Hbig.
    destruct (Z.ltb_spec hi.(i_bucket_size) (elt_size (zlen nm.(k_key)) + 8)) as [Hlt|]; [|lia].
    destruct Hbig. apply existsb_exists. exists nm. split; [done|]. by apply Z.ltb_lt. }
  destruct addrs as [|tst addrs]; cbn [pop];
    [eexists _, _; split; [done|]; split; [done|]; do 3 right; cbn; lia|].
  destruct (Z.eqb_spec tst 0) as [->|Ht];
    [eexists _, _; split; [done|]; split; [done|]; do 2 right; left; cbn; constructor|].
  inversion_clear Haddr as [|? ? _ Haddr']. set (test := map _ _).
  destruct (Z_lt_le_dec hi.(i_max_size) start) as [Hlt|Hle].
  { replace (Z.to_nat (i_max_size hi - start)) with O by lia. cbn [size_loop]. eexists _, _.
    split; [done|]. split; [done|]. right. left. intros s ?. lia. }
  assert (Hl : zlen test = hi.(i_max_size)) by (unfold test, zlen; rewrite length_map, length_seqZ; lia).
  destruct (size_loop_first (hi.(i_bucket_size) - 8) names (Z.to_nat (i_max_size hi - start)) start test)
    as (r & test' & -> & Hl' & Hfit); [lia|done|done|lia|].
  rewrite Z2Nat.id in Hfit by lia. replace (start + _) with hi.(i_max_size) in Hfit by lia.
  destruct r as [size|]; [|eexists _, _; split; [done|]; split; [done|]; right; by left].
  pose proof Hfit as (Hs & Hf & _).
  destruct (build_table k Hk dirt hi (hi.(i_bucket_size) - 8) size names test' addrs) as (r & addrs' & -> & Hr);
    [lia|lia|done|lia|done|done|].
  eexists _, _. split; [done|]. split; [done|]. destruct r as [|hash h].
  - do 2 right. cbn [take length]. destruct Hr as [Hr|Hr]; [left; by constructor|right; lia].
  - destruct Hr as (Hsz & Hh & Ha & Hd & Hn). rewrite Hsz. cbn [tl drop length]. do 4 (split; [done|]). lia.
Qed.

(** C21: Hash tables.  Building a table from names, with buckets of at least 24
    and less than 2^15 bytes, is defined; it fails only if a name is too long
    for a bucket, if at no size in the range all buckets have room for their
    names, or if memory is wanting; else the table has the first such size and
    finds, for the hash of any name and that name, the value of the first
    name in the array that equals it in lower case, or nothing. *)
Theorem hash_init_finds (H : list Z -> Z) k dirt hi names addrs :
  3 <= k <= 15 -> 24 <= hi.(i_bucket_size) < 2 ^ 15 -> Forall key_ok names ->
  Forall (fun nm => nm.(k_hash) = H (low_key nm)) names -> Forall (Z.le 0) addrs ->
  exists start r addrs', first_size hi (zlen names) = Some start /\
    ngx_hash_init (2 ^ k) dirt hi names addrs = Some (r, addrs') /\
    match r with
    | InitError => init_fails hi start names addrs
    | InitOk _ h => first_fit (hi.(i_bucket_size) - 8) start hi.(i_max_size) names (Some h.(h_size)) /\
        forall name, ngx_hash_find h (H name) name = Some (value_of names name)
    end.
Proof.
  intros Hk Hb Hok HH Haddr.
  destruct (hash_init_holds k dirt hi names addrs Hk Hb Hok Haddr) as (start & r & addrs' & Hs & Hi & Hr).
  exists start, r, addrs'. split; [done|]. split; [done|]. destruct r as [|hash h]; [done|].
  destruct Hr as (Hfit & (_ & Hfind) & _). split; [done|]. intros name. by rewrite Hfind, entries_value.
Qed.

Definition sample_keys : list hash_key :=
  map (fun '(s, v) => HashKey s false (ngx_hash_key_lc s) v)
    [(lit "Host", 16); (lit "Connection", 32); (lit "User-Agent", 48); (lit "Cookie", 64)].

Lemma hash_init_finds_witness :
  exists h addrs', ngx_hash_init (2 ^ 6) (fun _ => 170) (HashInit 0 512 64) sample_keys [1024; 4096; 8200] = Some (InitOk 4096 h, addrs') /\
    ngx_hash_find h (ngx_hash_key (lit "cookie")) (lit "cookie") = Some 64.
Proof.
  destruct (hash_init_finds ngx_hash_key 6 (fun _ => 170) (HashInit 0 512 64) sample_keys [1024; 4096; 8200])
    as (start & r & addrs' & _ & Hi & Hr); [lia|cbn; lia|..].
  - unfold sample_keys, key_ok. cbn [map k_hash k_value].
    repeat (apply Forall_cons; split; [vm_compute; intuition discriminate|]). by apply Forall_nil.
  - repeat (apply Forall_cons; split; [vm_compute; reflexivity|]). by apply Forall_nil.
  - repeat (apply Forall_cons; split; [lia|]). by apply Forall_nil.
  - assert (E : exists h, r = InitOk 4096 h) by (vm_compute in Hi; injection Hi as <- _; eauto).
    destruct E as (h & ->). exists h, addrs'. split; [done|]. rewrite (proj2 Hr (lit "cookie")). reflexivity.
Defined.

(** With buckets of 65536 bytes and names of 4090 bytes, sixteen names are
    counted as 256 bytes in one bucket, so that a size of one is taken and the
    elements are written behind the memory that was counted. *)
Theorem bucket_count_wraps :
  ngx_hash_init 64 (fun _ => 0) (HashInit 0 512 65536)
    (map (fun i => HashKey (replicate 4090 (97 + i)) false (31 * i) 16) (seqZ 0 16))
    [1024; 4096; 8192] = None.
Proof. vm_compute. reflexivity. Qed.
