(* ===== verification/NgxHashWild.v ===== *)
(** * Hash tables with wildcards (nginx core, [ngx_hash.c])

    Names with a wildcard are kept label by label: a table finds the value of a
    first label, or another table for the labels after it.  The two low bits of
    a value tell them apart.  Tables lie in a memory of [ngx_hash_wildcard_t] by
    their addresses; a pointer to nothing is undefined ([None]). *)

From stdpp Require Import gmap.
From S2P Require Import Prelude NgxMem NgxCompare NgxHash.

(** ** Data *)

(** [ngx_hash_wildcard_t]. *)
Record wildcard := Wildcard {
  w_hash : hash_t;
  w_value : Z;
}.

Abbreviation heap := (gmap Z wildcard).

(** [ngx_hash_combined_t]: tables that were not made are missing. *)
Record combined := Combined {
  c_hash : option hash_t;
  c_head : option Z;
  c_tail : option Z;
}.

Definition has_bit (v b : Z) : bool := negb (Z.land v b =? 0).
Definition pointer (v : Z) : Z := Z.land v (Z.lnot 3).

(** ** Finding *)

(** The number of bytes up to the last dot and with it; zero if there is none. *)
Fixpoint last_label (name : list Z) : nat :=
  match name with
  | [] => 0
  | c :: rest =>
      match last_label rest with
      | O => if c =? chr "." then 1 else 0
      | S n => S (S n)
      end
  end.

(** [ngx_hash_find_wc_head]; every call is on a shorter name. *)
Fixpoint find_wc_head (fuel : nat) (hp : heap) (hwc : Z) (name : list Z) : option Z :=
  match fuel with
  | O => None
  | S fuel =>
      match hp !! hwc with
      | None => None
      | Some w =>
          let n := last_label name in
          let label := drop n name in
          match ngx_hash_find w.(w_hash) (foldl ngx_hash 0 label) label with
          | None => None
          | Some value =>
              if value =? 0 then Some w.(w_value)
              else if has_bit value 2 then
                if (n =? 0)%nat then
                  if has_bit value 1 then Some 0
                  else w_value <$> hp !! pointer value
                else
                  match find_wc_head fuel hp (pointer value) (take (n - 1) name), hp !! pointer value with
                  | Some v, Some w => Some (if v =? 0 then w.(w_value) else v)
                  | _, _ => None
                  end
              else if has_bit value 1 then Some (if (n =? 0)%nat then 0 else pointer value)
              else Some value
          end
      end
  end.

Definition ngx_hash_find_wc_head (hp : heap) (hwc : Z) (name : list Z) : option Z :=
  find_wc_head (S (length name)) hp hwc name.

(** The bytes before the first dot; [None] if there is none. *)
Fixpoint first_label (name : list Z) : option nat :=
  match name with
  | [] => None
  | c :: rest => if c =? chr "." then Some O else S <$> first_label rest
  end.

Fixpoint find_wc_tail (fuel : nat) (hp : heap) (hwc : Z) (name : list Z) : option Z :=
  match fuel with
  | O => None
  | S fuel =>
      match first_label name with
      | None => Some 0
      | Some i =>
          match hp !! hwc with
          | None => None
          | Some w =>
              let label := take i name in
              match ngx_hash_find w.(w_hash) (foldl ngx_hash 0 label) label with
              | None => None
              | Some value =>
                  if value =? 0 then Some w.(w_value)
                  else if has_bit value 2 then
                    match find_wc_tail fuel hp (pointer value) (drop (S i) name), hp !! pointer value with
                    | Some v, Some w => Some (if v =? 0 then w.(w_value) else v)
                    | _, _ => None
                    end
                  else Some value
              end
          end
      end
  end.

Definition ngx_hash_find_wc_tail (hp : heap) (hwc : Z) (name : list Z) : option Z :=
  find_wc_tail (S (length name)) hp hwc name.

(** [ngx_hash_find_combined]. *)
Definition ngx_hash_find_combined (hp : heap) (c : combined) (key : Z) (name : list Z) : option Z :=
  let exact := match c.(c_hash) with Some h => ngx_hash_find h key name | None => Some 0 end in
  match exact with
  | None => None
  | Some v =>
      if negb (v =? 0) then Some v
      else if (length name =? 0)%nat then Some 0
      else
        match match c.(c_head) with Some a => ngx_hash_find_wc_head hp a name | None => Some 0 end with
        | None => None
        | Some v =>
            if negb (v =? 0) then Some v
            else match c.(c_tail) with Some a => ngx_hash_find_wc_tail hp a name | None => Some 0 end
        end
  end.

(** ** Building *)

(** The state of a build: outcomes of allocating the temporary arrays, addresses
    of the other allocations, and the tables made. *)
Record wstate := WState {
  ws_allocs : allocs;
  ws_addrs : list Z;
  ws_heap : heap;
}.

(** The names behind [first] that go into the same group: [len] bytes are
    equal, and a name that is longer than a label without a dot goes on with a
    dot. *)
Definition in_group (first : list Z) (len : nat) (dot : bool) (x : hash_key) : bool :=
  (ngx_strncmp first x.(k_key) len =? 0) &&
  negb (negb dot && (len <? length x.(k_key))%nat && negb (nth len x.(k_key) 0 =? chr ".")).

Fixpoint take_group (first : list Z) (len : nat) (dot : bool) (names : list hash_key) : list hash_key * list hash_key :=
  match names with
  | [] => ([], [])
  | x :: names' =>
      if in_group first len dot x then
        let '(group, rest) := take_group first len dot names' in (x :: group, rest)
      else ([], names)
  end.

(** A name of the next table; a negative length is undefined. *)
Definition next_name (n : nat) (x : hash_key) : option hash_key :=
  if (n <=? length x.(k_key))%nat then Some (HashKey (drop n x.(k_key)) false 0 x.(k_value)) else None.

Section wildcard_init.
Context (cacheline : Z) (dirt : Z -> Z) (hash_of : list Z -> Z).

(** One turn of the loop: the name of the current table for the first label of
    [nm] with its value, by [sub], which makes the next table. *)
Definition wc_entry (sub : list hash_key -> wstate -> option (option Z * wstate)) (nm : hash_key) (group : list hash_key)
    (st : wstate) : option (option hash_key * wstate) :=
  let key := nm.(k_key) in
  let dot := match first_label key with Some _ => true | None => false end in
  let len0 := match first_label key with Some i => i | None => length key end in
  let len := if dot then S len0 else len0 in
  let label := take len0 key in
  let next0 := if (length key =? len)%nat then [] else [HashKey (drop len key) false 0 nm.(k_value)] in
  match mapM (next_name (S len0)) group with
  | None => None
  | Some next =>
      let named v := HashKey label false (hash_of label) v in
      match next0 ++ next with
      | [] => Some (Some (named (if dot then Z.lor nm.(k_value) 1 else nm.(k_value))), st)
      | next_names =>
          match sub next_names st with
          | None => None
          | Some (None, st) => Some (None, st)
          | Some (Some wdc, st) =>
              match st.(ws_heap) !! wdc with
              | None => None
              | Some w =>
                  let hp := if (length key =? len)%nat then <[wdc := Wildcard w.(w_hash) nm.(k_value)]> st.(ws_heap) else st.(ws_heap) in
                  Some (Some (named (Z.lor wdc (if dot then 3 else 2))), WState st.(ws_allocs) st.(ws_addrs) hp)
              end
          end
      end
  end.

(** The loop over the names, by groups; at most one group per name. *)
Fixpoint wc_loop (sub : list hash_key -> wstate -> option (option Z * wstate)) (n : nat) (names : list hash_key)
    (curr : list hash_key) (st : wstate) : option (option (list hash_key) * wstate) :=
  match names with
  | [] => Some (Some curr, st)
  | nm :: names =>
      match n with
      | O => None
      | S n =>
          let dot := match first_label nm.(k_key) with Some _ => true | None => false end in
          let len := match first_label nm.(k_key) with Some i => S i | None => length nm.(k_key) end in
          let '(group, rest) := take_group nm.(k_key) len dot names in
          match wc_entry sub nm group st with
          | None => None
          | Some (None, st) => Some (None, st)
          | Some (Some name, st) => wc_loop sub n rest (curr ++ [name]) st
          end
      end
  end.

(** [ngx_hash_wildcard_init]; the names of a next table are shorter. *)
Fixpoint ngx_hash_wildcard_init (fuel : nat) (hi : hash_init) (names : list hash_key) (st : wstate) : option (option Z * wstate) :=
  match fuel with
  | O => None
  | S fuel =>
      let '(ok1, a) := alloc st.(ws_allocs) in
      if negb ok1 then Some (None, WState a st.(ws_addrs) st.(ws_heap))
      else
        let '(ok2, a) := alloc a in
        let st := WState a st.(ws_addrs) st.(ws_heap) in
        if negb ok2 then Some (None, st)
        else
          match wc_loop (ngx_hash_wildcard_init fuel (HashInit 0 hi.(i_max_size) hi.(i_bucket_size))) (length names) names [] st with
          | None => None
          | Some (None, st) => Some (None, st)
          | Some (Some curr, st) =>
              match ngx_hash_init cacheline dirt hi curr st.(ws_addrs) with
              | None => None
              | Some (InitError, addrs) => Some (None, WState st.(ws_allocs) addrs st.(ws_heap))
              | Some (InitOk hash h, addrs) =>
                  let value := if hi.(i_hash) =? 0 then 0 else match st.(ws_heap) !! hash with Some w => w.(w_value) | None => 0 end in
                  Some (Some hash, WState st.(ws_allocs) addrs (<[hash := Wildcard h value]> st.(ws_heap)))
              end
          end
  end.
End wildcard_init.
