(* ===== verification/NgxHashLabels.v ===== *)
(** * Names as labels: the order and the groups of [ngx_hash_wildcard_init]

    Names with wildcards are texts of labels with dots between them.  In the
    order of [ngx_dns_strcmp], in which the dot is the lowest character, the
    names with the same first label are neighbours, the label alone or with a
    dot first; so the loop of [ngx_hash_wildcard_init] finds all of them. *)

From stdpp Require Import gmap sorting.
From S2P Require Import Prelude NgxMem NgxCompare NgxHash NgxHashSpec NgxHashTable NgxHashWild.

(** ** Labels *)

(** The first label of a text and what is behind its dot. *)
Definition cut (t : list Z) : list Z * option (list Z) :=
  match first_label t with
  | Some i => (take i t, Some (drop (S i) t))
  | None => (t, None)
  end.

Definition label_of (t : list Z) : list Z := fst (cut t).

(** Characters of names in lower case; all of them but the dot are above it in
    the order. *)
Definition name_char_ok (c : Z) : Prop := 33 <= c < 256 /\ ngx_tolower c = c.

Definition text_ok (t : list Z) : Prop := t <> [] /\ Forall name_char_ok t.

(** ** The order *)

Definition rank (c : Z) : Z := if c =? chr "." then chr " " else c.

Fixpoint dns_lt (a b : list Z) : Prop :=
  match a, b with
  | [], _ :: _ => True
  | c :: a, d :: b => if c =? d then dns_lt a b else rank c < rank d
  | _, [] => False
  end.

Lemma dns_strcmp_lt a : forall b, Forall name_char_ok a -> Forall name_char_ok b -> ngx_dns_strcmp a b < 0 <-> dns_lt a b.
Proof.
  induction a as [|c a IH]; intros [|d b] Ha Hb.
  - done.
  - inversion_clear Hb as [|? ? [Hd Hl] _]. cbn [ngx_dns_strcmp hd tl dns_lt]. rewrite Hl. change (ngx_tolower 0) with 0.
    zcases; done || lia.
  - inversion_clear Ha as [|? ? [Hd Hl] _]. cbn [ngx_dns_strcmp hd tl dns_lt]. rewrite Hl. change (ngx_tolower 0) with 0.
    split; [|done]. zcases.
  - inversion_clear Ha as [|? ? [Hc Hlc] Ha']. inversion_clear Hb as [|? ? [Hd Hld] Hb'].
    cbn [ngx_dns_strcmp hd tl dns_lt]. rewrite Hlc, Hld. unfold rank. destruct (Z.eqb_spec c d) as [->|Hne].
    + rewrite (proj2 (Z.eqb_neq d 0)) by lia. by apply IH.
    + zcases; lia.
Qed.

Lemma dns_lt_irrefl a : ~ dns_lt a a.
Proof. induction a as [|c a IH]; cbn; [tauto|]. by rewrite Z.eqb_refl. Qed.

Lemma dns_lt_app p a b : dns_lt (p ++ a) (p ++ b) <-> dns_lt a b.
Proof. induction p as [|c p IH]; cbn; [done|]. by rewrite Z.eqb_refl. Qed.

(** Between two texts with a prefix are only texts with it. *)
Lemma dns_between p a b : forall x, dns_lt (p ++ a) x -> dns_lt x (p ++ b) -> exists y, x = p ++ y.
Proof.
  induction p as [|c p IH]; intros x H1 H2; [by exists x|]. destruct x as [|d x]; [done|]. cbn in *.
  rewrite (Z.eqb_sym d c) in H2. destruct (Z.eqb_spec c d) as [->|]; [|lia].
  destruct (IH x H1 H2) as [y ->]. by exists y.
Qed.

(** ** Texts by their first label *)

Lemma first_label_app l r : first_label l = None -> first_label (l ++ chr "." :: r) = Some (length l).
Proof.
  induction l as [|c l IH]; cbn; [done|]. destruct (c =? chr "."); [done|]. destruct (first_label l); [done|]. intros _. by rewrite IH.
Qed.

Lemma first_label_spec t :
  match first_label t with
  | None => True
  | Some i => first_label (take i t) = None /\ t = take i t ++ chr "." :: drop (S i) t /\ length (take i t) = i
  end.
Proof.
  induction t as [|c t IH]; [done|]. cbn [first_label]. destruct (Z.eqb_spec c (chr ".")) as [->|Hc]; [done|].
  destruct (first_label t) as [i|]; [|done]. cbn. destruct IH as (H1 & H2 & H3).
  rewrite (proj2 (Z.eqb_neq c _) Hc), H1. split; [done|]. split; [by rewrite <- H2|by rewrite H3].
Qed.

Lemma cut_app l r : first_label l = None -> cut (l ++ chr "." :: r) = (l, Some r).
Proof.
  intros H. unfold cut. rewrite first_label_app by done. rewrite take_app_length. f_equal. f_equal.
  rewrite <- Nat.add_1_r, <- drop_drop, drop_app_length. done.
Qed.

Lemma cut_alone l : first_label l = None -> cut l = (l, None).
Proof. intros H. unfold cut. by rewrite H. Qed.

Lemma cut_spec t l o : cut t = (l, o) -> first_label l = None /\ t = match o with Some r => l ++ chr "." :: r | None => l end.
Proof.
  unfold cut. pose proof (first_label_spec t) as H. destruct (first_label t) as [i|] eqn:E; intros [= <- <-]; [tauto|done].
Qed.

Lemma label_cut t l : label_of t = l <-> exists o, cut t = (l, o).
Proof. unfold label_of. destruct (cut t) as [l' o]. cbn. split; [intros ->; by exists o|by intros (? & [= -> _])]. Qed.

(** Between two texts with the same first label are only texts with it. *)
Lemma label_between a x b : Forall name_char_ok x ->
  dns_lt a x -> dns_lt x b -> label_of a = label_of b -> label_of x = label_of a.
Proof.
  intros Hx Hax Hxb E. destruct (cut a) as [l oa] eqn:Ca. destruct (cut b) as [l' ob] eqn:Cb.
  unfold label_of in E. rewrite Ca, Cb in E. cbn in E. subst l'. unfold label_of at 2. rewrite Ca. cbn [fst].
  apply cut_spec in Ca as [Hl Ha]. apply cut_spec in Cb as [_ Hb].
  assert (Hlx : exists y, x = l ++ y).
  { assert (Hpre : forall o, exists ta, match o with Some r => l ++ chr "." :: r | None => l end = l ++ ta)
      by (intros [r|]; [by eexists|exists []; by rewrite app_nil_r]).
    destruct (Hpre oa) as [ta Ea]. destruct (Hpre ob) as [tb Eb]. rewrite Ea in Ha. rewrite Eb in Hb. subst a b.
    by eapply dns_between. }
  destruct Hlx as [y ->].
  assert (Hy : exists r, y = chr "." :: r).
  { assert (Hb' : exists rb, ob = Some rb).
    { destruct ob as [rb|]; [by exists rb|]. subst b. exfalso. rewrite <- (app_nil_r l) in Hxb at 2. rewrite dns_lt_app in Hxb. by destruct y. }
    destruct Hb' as [rb ->]. subst b. rewrite dns_lt_app in Hxb.
    destruct y as [|c y]; [exfalso|].
    { rewrite app_nil_r in Hax. destruct oa as [ra|]; subst a; [|by apply dns_lt_irrefl in Hax].
      rewrite <- (app_nil_r l) in Hax at 2. by rewrite dns_lt_app in Hax. }
    exists y. f_equal. apply Forall_app in Hx as [_ Hy]. inversion_clear Hy as [|? ? [Hc _] _].
    cbn in Hxb. destruct (Z.eqb_spec c 46) as [|Hne]; [done|]. unfold rank in Hxb. rewrite (proj2 (Z.eqb_neq c 46) Hne) in Hxb. cbn in Hxb. lia. }
  destruct Hy as [r ->]. unfold label_of. by rewrite cut_app.
Qed.

(** Of the texts with a first label, the label alone comes first, and then the
    label with a dot. *)
Lemma label_later a x l : cut a = (l, None) -> dns_lt a x -> label_of x = l -> exists r, cut x = (l, Some r).
Proof.
  intros Ca Hlt Hl. apply label_cut in Hl as [o Hx]. destruct o as [r|]; [by exists r|].
  apply cut_spec in Ca as [_ ->]. apply cut_spec in Hx as [_ ->]. by apply dns_lt_irrefl in Hlt.
Qed.

Lemma label_later_dot a x l r : cut a = (l, Some r) -> dns_lt a x -> label_of x = l -> exists r', cut x = (l, Some r') /\ dns_lt r r'.
Proof.
  intros Ca Hlt Hl. apply label_cut in Hl as [o Hx]. apply cut_spec in Ca as [Hd Ha]. subst a.
  pose proof (cut_spec _ _ _ Hx) as [_ Ex]. destruct o as [r'|]; subst x.
  - exists r'. split; [done|]. rewrite dns_lt_app in Hlt. done.
  - rewrite <- (app_nil_r l) in Hlt at 2. rewrite dns_lt_app in Hlt. done.
Qed.

(** ** Groups *)

Lemma ok_nonzero t : Forall name_char_ok t -> nonzero t.
Proof. intros H. eapply Forall_impl; [exact H|]. intros c [Hc _]. lia. Qed.

Lemma take_label l r : take (S (length l)) (l ++ chr "." :: r) = l ++ [chr "."].
Proof. induction l as [|c l IH]; cbn; [done|]. f_equal. apply IH. Qed.

Definition has_dot (t : list Z) : bool := match first_label t with Some _ => true | None => false end.
Definition group_len (t : list Z) : nat := match first_label t with Some i => S i | None => length t end.

Lemma in_group_label t x : Forall name_char_ok t -> Forall name_char_ok x.(k_key) -> dns_lt t x.(k_key) ->
  in_group t (group_len t) (has_dot t) x = true <-> label_of x.(k_key) = label_of t.
Proof.
  intros Ht Hx Hlt. unfold in_group, group_len, has_dot. pose proof (first_label_spec t) as Hs.
  destruct (cut t) as [l o] eqn:Ct. unfold label_of at 2. rewrite Ct. cbn [fst]. pose proof (cut_spec _ _ _ Ct) as [Hl Et].
  unfold cut in Ct. apply ok_nonzero in Ht as Hnt. apply ok_nonzero in Hx as Hnx.
  destruct (first_label t) as [i|] eqn:E; injection Ct as El Eo; subst o.
  - destruct Hs as (_ & _ & Hi). rewrite El in Hi. cbn [negb andb]. rewrite andb_true_r, Z.eqb_eq, strncmp_take; [|done..|].
    2:{ rewrite Et, length_app. cbn. lia. }
    assert (Htk : take (S i) t = l ++ [chr "."]).
    { rewrite Et at 1. rewrite <- Hi. apply take_label. }
    rewrite Htk. split.
    + intros H. rewrite <- (take_drop (S i) (k_key x)), <- H, <- app_assoc. unfold label_of. cbn [app]. by rewrite cut_app.
    + intros H. destruct (label_later_dot t (k_key x) l (drop (S i) t)) as (r' & Hc & _); [unfold cut; rewrite E; by rewrite El|done|done|].
      apply cut_spec in Hc as [_ ->]. rewrite <- Hi. symmetry. apply take_label.
  - subst l. clear Hs. rewrite andb_true_iff, Z.eqb_eq, strncmp_take by done. rewrite (take_ge t) by done. cbn [negb andb].
    rewrite negb_andb, orb_true_iff, !negb_true_iff, negb_false_iff, Nat.ltb_ge, Z.eqb_eq. split.
    + intros [H1 H2]. destruct H2 as [H2|H2].
      * rewrite take_ge in H1 by done. rewrite <- H1. unfold label_of. by rewrite cut_alone.
      * rewrite <- (take_drop (length t) (k_key x)), <- H1. rewrite <- (take_drop (length t) (k_key x)), <- H1, app_nth2, Nat.sub_diag in H2 by lia.
        destruct (drop (length t) (k_key x)) as [|c r]; [by cbn in H2|]. cbn in H2. subst c. unfold label_of. by rewrite cut_app.
    + intros H. destruct (label_later t (k_key x) t) as [r Hc]; [by rewrite cut_alone|done|done|].
      apply cut_spec in Hc as [_ ->]. rewrite take_app_length. split; [done|right].
      rewrite app_nth2, Nat.sub_diag by lia. done.
Qed.

(** The names before and behind the end of a group are those with and without
    its label. *)
Definition same_label (t : list Z) (x : hash_key) : bool := beq (label_of x.(k_key)) (label_of t).

Lemma same_label_eq t x : same_label t x = true <-> label_of x.(k_key) = label_of t.
Proof. apply beq_eq. Qed.

Lemma take_group_filter t names :
  Forall name_char_ok t -> Forall (fun x => Forall name_char_ok x.(k_key)) names ->
  StronglySorted dns_lt (t :: map k_key names) ->
  take_group t (group_len t) (has_dot t) names =
    (List.filter (same_label t) names, List.filter (fun x => negb (same_label t x)) names).
Proof.
  intros Ht. induction names as [|x names IH]; intros Hok Hs; [done|]. cbn [take_group List.filter].
  inversion_clear Hok as [|? ? Hx Hok']. cbn [map] in Hs.
  inversion_clear Hs as [|? ? Hs' Hlt]. inversion_clear Hlt as [|? ? Htx Hlt'].
  assert (Hsub : StronglySorted dns_lt (t :: map k_key names)) by (constructor; [by inversion_clear Hs'|done]).
  destruct (in_group t (group_len t) (has_dot t) x) eqn:E.
  - apply in_group_label in E; [|done..]. apply same_label_eq in E. rewrite E, (IH Hok' Hsub). done.
  - assert (Hno : same_label t x = false).
    { apply not_true_iff_false. rewrite same_label_eq. rewrite <- in_group_label by done. congruence. }
    rewrite Hno. cbn [negb].
    assert (Hall : Forall (fun y => same_label t y = false) names).
    { inversion_clear Hs' as [|? ? _ Hxy]. apply Forall_forall. intros y Hy. apply not_true_iff_false. rewrite same_label_eq. intros Hl.
      apply not_true_iff_false in Hno. apply Hno. apply same_label_eq. apply (label_between t (k_key x) (k_key y)); [done|done| |done].
      rewrite Forall_map, Forall_forall in Hxy. by apply Hxy. }
    clear -Hall. f_equal; [induction Hall as [|y names Hy _ IH]; cbn; [done|by rewrite Hy]|].
    f_equal. induction Hall as [|y names Hy _ IH]; cbn; [done|]. rewrite Hy. cbn. by rewrite <- IH.
Qed.
