(* ===== verification/NgxHashWildSpec.v ===== *)
(** * Hash tables with wildcards: what is found

    The tables that [ngx_hash_wildcard_init] makes of sorted names represent them
    label by label, and [ngx_hash_find_wc_head] and [ngx_hash_find_wc_tail] find
    the value of the longest name that matches. *)

From stdpp Require Import gmap sorting.
From S2P Require Import Prelude NgxMem NgxCompare NgxHash NgxHashSpec NgxHashTable NgxHashWild NgxHashLabels.

(** ** Names and their labels *)

Definition entry_of (x : hash_key) : list Z * Z := (x.(k_key), x.(k_value)).

(** The name that is a label alone, or, with [true], a label and a dot. *)
Definition own_part (l : list Z) (e : list Z * Z) : option (bool * Z) :=
  match cut e.1 with
  | (l', None) => if beq l' l then Some (false, e.2) else None
  | (l', Some []) => if beq l' l then Some (true, e.2) else None
  | _ => None
  end.

Definition own (ts : list (list Z * Z)) (l : list Z) : option (bool * Z) := head (omap (own_part l) ts).

(** What is behind a label and its dot. *)
Definition tail_part (l : list Z) (e : list Z * Z) : option (list Z * Z) :=
  match cut e.1 with
  | (l', Some (c :: r)) => if beq l' l then Some (c :: r, e.2) else None
  | _ => None
  end.

Definition tails (ts : list (list Z * Z)) (l : list Z) : list (list Z * Z) := omap (tail_part l) ts.

(** A pointer to words, whose two low bits are free. *)
Definition ptr_ok (a : Z) : Prop := 0 < a < 2 ^ 64 - 3 /\ Z.land a 3 = 0.

(** Names a table can be made of: sorted and not empty, no name both with and
    without a dot at its end, values that are pointers to words. *)
Record names_ok (ts : list (list Z * Z)) : Prop := {
  no_sorted : StronglySorted dns_lt (map fst ts);
  no_texts : Forall (fun e => text_ok e.1) ts;
  no_values : Forall (fun e => ptr_ok e.2) ts;
  no_both : forall t, t ∈ map fst ts -> t ++ [chr "."] ∉ map fst ts;
}.

(** ** Bits of pointers *)

Lemma land_low a t : Z.land a 3 = 0 -> 0 <= t < 4 -> Z.land a t = 0.
Proof.
  intros Ha Ht. assert (Ht3 : Z.land 3 t = t) by (assert (t = 0 \/ t = 1 \/ t = 2 \/ t = 3) as [->|[->|[->| ->]]] by lia; reflexivity).
  rewrite <- Ht3, Z.land_assoc, Ha. apply Z.land_0_l.
Qed.

Lemma tagged a t : Z.land a 3 = 0 -> 0 <= t < 4 ->
  Z.lor a t = a + t /\ pointer (Z.lor a t) = a /\ (forall b, 0 <= b < 4 -> has_bit (Z.lor a t) b = has_bit t b).
Proof.
  intros Ha Ht. split; [|split].
  - by rewrite Z.add_nocarry_lxor, Z.lxor_lor by (by apply land_low).
  - unfold pointer. rewrite Z.land_lor_distr_l.
    assert (E : Z.land t (Z.lnot 3) = 0) by (assert (t = 0 \/ t = 1 \/ t = 2 \/ t = 3) as [->|[->|[->| ->]]] by lia; reflexivity).
    rewrite E, Z.lor_0_r, <- Z.ldiff_land. rewrite <- (Z.lor_0_r (Z.ldiff a 3)), <- Ha, Z.lor_comm.
    apply Z.bits_inj'. intros n Hn. rewrite Z.lor_spec, Z.land_spec, Z.ldiff_spec. by destruct (Z.testbit a n), (Z.testbit 3 n).
  - intros b Hb. unfold has_bit. by rewrite Z.land_lor_distr_l, (land_low a b), Z.lor_0_l.
Qed.

(** ** Names with one first label *)

Lemma own_cons e ts l : own (e :: ts) l = match own_part l e with Some x => Some x | None => own ts l end.
Proof. unfold own. cbn. by destruct (own_part l e). Qed.

Lemma tails_cons e ts l : tails (e :: ts) l = match tail_part l e with Some x => x :: tails ts l | None => tails ts l end.
Proof. unfold tails. cbn. by destruct (tail_part l e). Qed.

Lemma part_other l e : label_of e.1 <> l -> own_part l e = None /\ tail_part l e = None.
Proof.
  unfold label_of, own_part, tail_part. destruct (cut e.1) as [l' o]. cbn [fst]. intros Hne.
  assert (B : beq l' l = false) by (apply not_true_iff_false; by rewrite beq_eq). rewrite B. by destruct o as [[|]|].
Qed.

(** Names with other first labels do not matter. *)
Lemma parts_filter l (P : hash_key -> bool) names : (forall x, x ∈ names -> label_of x.(k_key) = l -> P x = true) ->
  own (map entry_of (List.filter P names)) l = own (map entry_of names) l /\
  tails (map entry_of (List.filter P names)) l = tails (map entry_of names) l.
Proof.
  induction names as [|x names IH]; intros HP; [done|]. destruct IH as [IH1 IH2]; [intros; apply HP; [by constructor|done]|].
  cbn [List.filter map]. destruct (P x) eqn:Px; cbn [map]; rewrite ?own_cons, ?tails_cons; [by rewrite IH1, IH2|].
  destruct (part_other l (entry_of x)) as [-> ->]; [|done]. intros E. rewrite HP in Px; [done|by constructor|done].
Qed.

Lemma names_ok_filter (P : hash_key -> bool) names :
  names_ok (map entry_of names) -> names_ok (map entry_of (List.filter P names)).
Proof.
  intros [H1 H2 H3 H4]. rewrite map_map in *. cbn in *. rewrite Forall_map in H2, H3.
  assert (Hin : forall x, x ∈ List.filter P names -> x ∈ names) by (intros x; rewrite !list_elem_of_In, filter_In; tauto).
  rewrite Forall_forall in H2, H3. split; rewrite ?map_map; cbn.
  - clear -H1. induction names as [|x names IH]; [constructor|]. cbn [map List.filter] in *. inversion_clear H1 as [|? ? H1' Hlt].
    destruct (P x); [|by apply IH]. cbn [map]. constructor; [by apply IH|]. rewrite Forall_map, Forall_forall in *.
    intros y Hy. apply Hlt. revert Hy. rewrite !list_elem_of_In, filter_In. tauto.
  - apply Forall_map, Forall_forall. auto.
  - apply Forall_map, Forall_forall. auto.
  - intros t Ht Hd. apply list_elem_of_fmap in Ht as (x & -> & Hx). apply list_elem_of_fmap in Hd as (y & Ey & Hy).
    apply (H4 (k_key x)); [by apply list_elem_of_fmap_2, Hin|]. rewrite Ey. by apply list_elem_of_fmap_2, Hin.
Qed.

Lemma tail_part_text l e x : tail_part l e = Some x -> e.1 = l ++ chr "." :: x.1 /\ e.2 = x.2 /\ x.1 <> [].
Proof.
  unfold tail_part. destruct (cut e.1) as [l' [[|c r]|]] eqn:C; try done. destruct (beq l' l) eqn:B; [|done].
  apply beq_eq in B. subst l'. intros [= <-]. by apply cut_spec in C as [_ C].
Qed.

Lemma tails_in ts l x : x ∈ tails ts l -> exists e, e ∈ ts /\ e.1 = l ++ chr "." :: x.1 /\ e.2 = x.2 /\ x.1 <> [].
Proof. intros H. apply list_elem_of_omap in H as (e & He & Hp). exists e. split; [done|]. by apply tail_part_text. Qed.

Lemma tails_sorted ts l : StronglySorted dns_lt (map fst ts) -> StronglySorted dns_lt (map fst (tails ts l)).
Proof.
  induction ts as [|e ts IH]; intros H; [constructor|]. cbn [map] in H. inversion_clear H as [|? ? H' Hlt]. rewrite tails_cons.
  destruct (tail_part l e) as [x|] eqn:P; [|by apply IH]. cbn [map]. constructor; [by apply IH|].
  apply tail_part_text in P as (Ee & _ & _). apply Forall_map, Forall_forall. intros y Hy.
  apply tails_in in Hy as (e' & He' & Ee' & _ & _). rewrite Forall_map, Forall_forall in Hlt. specialize (Hlt e' He').
  cbn in Hlt. rewrite Ee, Ee', dns_lt_app in Hlt. exact Hlt.
Qed.

Lemma tails_ok ts l : names_ok ts -> names_ok (tails ts l).
Proof.
  intros [H1 H2 H3 H4]. rewrite Forall_forall in H2, H3. split.
  - by apply tails_sorted.
  - apply Forall_forall. intros x Hx. apply tails_in in Hx as (e & He & E & _ & Hne). split; [done|].
    destruct (H2 e He) as [_ Hc]. rewrite E in Hc. apply Forall_app in Hc as [_ Hc]. by inversion_clear Hc.
  - apply Forall_forall. intros x Hx. apply tails_in in Hx as (e & He & _ & <- & _). by apply H3.
  - intros t Ht Hd. apply list_elem_of_fmap in Ht as (x & -> & Hx). apply list_elem_of_fmap in Hd as (y & Ey & Hy).
    apply tails_in in Hx as (e & He & Ee & _ & _). apply tails_in in Hy as (e' & He' & Ee' & _ & _).
    apply (H4 e.1); [by apply list_elem_of_fmap_2|]. rewrite Ee, <- app_assoc. cbn [app]. rewrite Ey, <- Ee'. by apply list_elem_of_fmap_2.
Qed.

(** ** A group of names *)

Section group.
Context (nm : hash_key) (names : list hash_key).
Let t := nm.(k_key).
Let l := label_of t.
Let group := List.filter (same_label t) names.
Context (Hok : names_ok (map entry_of (nm :: names))).

Lemma names_chars : Forall (fun x => Forall name_char_ok x.(k_key)) (nm :: names).
Proof.
  pose proof (no_texts _ Hok) as H. rewrite Forall_map in H. eapply Forall_impl; [exact H|]. by intros x [_ ?].
Qed.

Lemma names_sorted : StronglySorted dns_lt (t :: map k_key names).
Proof. pose proof (no_sorted _ Hok) as H. rewrite map_map in H. exact H. Qed.

(** The others of a group go on behind the dot. *)
Lemma group_cut x : x ∈ group -> exists c r, cut x.(k_key) = (l, Some (c :: r)).
Proof.
  intros Hx. unfold group in Hx. apply list_elem_of_In, filter_In in Hx as [Hin Hl]. apply same_label_eq in Hl.
  apply list_elem_of_In in Hin. pose proof names_sorted as Hs. inversion_clear Hs as [|? ? _ Hlt].
  rewrite Forall_map, Forall_forall in Hlt. specialize (Hlt x Hin). cbn in Hlt.
  destruct (cut t) as [l' o] eqn:Ct. assert (l' = l) as -> by (unfold l, label_of; by rewrite Ct).
  destruct o as [r0|].
  - destruct (label_later_dot t (k_key x) l r0 Ct Hlt Hl) as (r & Hc & Hr). destruct r as [|c r]; [by destruct r0|eauto].
  - destruct (label_later t (k_key x) l Ct Hlt Hl) as (r & Hc). destruct r as [|c r]; [|eauto]. exfalso.
    apply cut_spec in Ct as [_ Ct]. apply cut_spec in Hc as [_ Hc].
    apply (no_both _ Hok t); rewrite map_map; [by constructor|]. rewrite Ct, <- Hc. constructor. by apply (list_elem_of_fmap_2 k_key).
Qed.

Lemma group_parts :
  own (map entry_of (nm :: names)) l = own_part l (entry_of nm) /\
  tails (map entry_of (nm :: names)) l = match tail_part l (entry_of nm) with Some x => [x] | None => [] end ++ tails (map entry_of group) l.
Proof.
  destruct (parts_filter l (same_label t) names) as [H1 H2]; [by intros x _ H; apply same_label_eq|]. fold group in H1, H2.
  cbn [map]. rewrite own_cons, tails_cons, <- H1, <- H2. split.
  - destruct (own_part l (entry_of nm)); [done|]. assert (Hg : forall x, x ∈ group -> own_part l (entry_of x) = None).
    { intros x Hx. destruct (group_cut x Hx) as (c & r & Hc). unfold own_part. cbn [entry_of fst]. by rewrite Hc. }
    clear -Hg. induction group as [|x g IH]; [done|]. cbn [map]. rewrite own_cons, (Hg x) by constructor. apply IH.
    intros y Hy. apply Hg. by constructor.
  - by destruct (tail_part l (entry_of nm)).
Qed.

(** The names of the next table. *)
Definition next_key (n : nat) (x : hash_key) : hash_key := HashKey (drop n x.(k_key)) false 0 x.(k_value).

Lemma group_next : mapM (next_name (S (length l))) group = Some (map (next_key (S (length l))) group) /\
  map entry_of (map (next_key (S (length l))) group) = tails (map entry_of group) l.
Proof.
  assert (Hg : forall x, x ∈ group -> exists c r, cut x.(k_key) = (l, Some (c :: r))) by (intros; by apply group_cut).
  clear -Hg. induction group as [|x g IH]; [done|]. destruct IH as [IH1 IH2]; [intros y Hy; apply Hg; by constructor|].
  destruct (Hg x) as (c & r & Hc); [constructor|]. pose proof (cut_spec _ _ _ Hc) as [Hl Ex].
  assert (Hd : drop (S (length l)) (k_key x) = c :: r) by (rewrite Ex, <- Nat.add_1_r, <- drop_drop, drop_app_length; done).
  split.
  - change (mapM (next_name (S (length l))) (x :: g)) with
      (y ← next_name (S (length l)) x; k ← mapM (next_name (S (length l))) g; mret (y :: k) : option (list hash_key)).
    rewrite IH1. unfold next_name. rewrite (proj2 (Nat.leb_le _ _)) by (rewrite Ex, length_app; cbn; lia). done.
  - cbn [map]. rewrite tails_cons, IH2.
    assert (Hp : tail_part l (entry_of x) = Some (c :: r, k_value x)) by (unfold tail_part; cbn; by rewrite Hc, beq_refl).
    rewrite Hp. unfold entry_of at 1, next_key at 1. cbn [k_key k_value]. by rewrite Hd.
Qed.
End group.

(** ** Tables that represent names *)

(** The value of a label: of the name itself, with the lowest bit if it has a
    dot, or a pointer to the table for the rest, which holds the value of the
    name. *)
Definition tag_with (sub : hash_t -> list (list Z * Z) -> Prop) (hp : heap) (ts : list (list Z * Z)) (l : list Z) (v : Z) : Prop :=
  match tails ts l with
  | [] => v = match own ts l with None => 0 | Some (false, x) => x | Some (true, x) => Z.lor x 1 end
  | ts' => exists a w, v = Z.lor a (match own ts l with Some (false, _) => 2 | _ => 3 end) /\ ptr_ok a /\ hp !! a = Some w /\
      w.(w_value) = match own ts l with Some (_, x) => x | None => 0 end /\ sub w.(w_hash) ts'
  end.

(** A table, with those it points to up to a depth. *)
Fixpoint rep (n : nat) (hp : heap) (h : hash_t) (ts : list (list Z * Z)) : Prop :=
  match n with
  | O => False
  | S n => forall l, first_label l = None ->
      exists v, ngx_hash_find h (ngx_hash_key l) l = Some v /\ tag_with (rep n hp) hp ts l v
  end.

Lemma tag_mono (sub sub' : hash_t -> list (list Z * Z) -> Prop) (hp hp' : heap) ts l v : (forall h ts, sub h ts -> sub' h ts) -> hp ⊆ hp' ->
  tag_with sub hp ts l v -> tag_with sub' hp' ts l v.
Proof.
  intros Hs Hh. unfold tag_with. destruct (tails ts l) as [|e ts']; [done|]. intros (a & w & H1 & H2 & H3 & H4 & H5).
  exists a, w. repeat (split; [done|]). split; [by eapply lookup_weaken|]. split; [done|]. by apply Hs.
Qed.

Lemma rep_mono n : forall (hp hp' : heap) h ts, hp ⊆ hp' -> rep n hp h ts -> rep n hp' h ts.
Proof.
  induction n as [|n IH]; intros hp hp' h ts Hh; [done|]. intros H l Hl. destruct (H l Hl) as (v & Hv & Ht). exists v. split; [done|].
  eapply tag_mono; [|done..]. intros. by apply (IH hp).
Qed.

(** Addresses of further allocations: pointers, different and not in use. *)
Record fresh_state (st : wstate) : Prop := {
  fs_nodup : NoDup st.(ws_addrs);
  fs_ptrs : Forall ptr_ok st.(ws_addrs);
  fs_free : forall a, a ∈ st.(ws_addrs) -> st.(ws_heap) !! a = None;
}.

(** A table for [ts] was made at [a]. *)
Definition made (n : nat) (st st' : wstate) (a : Z) (ts : list (list Z * Z)) : Prop :=
  fresh_state st' /\ ptr_ok a /\ exists h hp1, st'.(ws_heap) = <[a := Wildcard h 0]> hp1 /\ st.(ws_heap) ⊆ hp1 /\
    hp1 !! a = None /\ rep n hp1 h ts.

Definition makes (n m : nat) (sub : list hash_key -> wstate -> option (option Z * wstate)) : Prop :=
  forall names st, names <> [] -> names_ok (map entry_of names) -> Forall (fun x => length x.(k_key) < m)%nat names -> fresh_state st ->
    exists r st', sub names st = Some (r, st') /\ match r with None => True | Some a => made n st st' a (map entry_of names) end.

Section build.
Context (hash_of : list Z -> Z).

(** One turn of the loop. *)
Lemma wc_entry_ok n m sub nm names st :
  makes n m sub -> names_ok (map entry_of (nm :: names)) -> Forall (fun x => length x.(k_key) <= m)%nat (nm :: names) -> fresh_state st ->
  let l := label_of nm.(k_key) in
  exists r st', wc_entry hash_of sub nm (List.filter (same_label nm.(k_key)) names) st = Some (r, st') /\
    match r with
    | None => True
    | Some key => fresh_state st' /\ st.(ws_heap) ⊆ st'.(ws_heap) /\ exists v, key = HashKey l false (hash_of l) v /\ 0 < v < 2 ^ 64 /\
        tag_with (rep n st'.(ws_heap)) st'.(ws_heap) (map entry_of (nm :: names)) l v
    end.
Proof.
  intros Hsub Hok Hlen Hst l. destruct (group_parts nm names Hok) as [Hown Htails]. destruct (group_next nm names Hok) as [Hmap Hnext].
  fold l in Hown, Htails, Hmap, Hnext. set (group := List.filter (same_label (k_key nm)) names) in *.
  destruct (cut (k_key nm)) as [l' o] eqn:Ct. assert (l' = l) as -> by (unfold l, label_of; by rewrite Ct).
  pose proof (cut_spec _ _ _ Ct) as [Hl Et]. unfold wc_entry.
  pose proof (no_values _ Hok) as Hv. cbn [map] in Hv. inversion_clear Hv as [|? ? [Hv0 Hv3] _]. cbn in Hv0, Hv3.
  assert (Hlen0 : match first_label (k_key nm) with Some i => i | None => length (k_key nm) end = length l).
  { pose proof (first_label_spec (k_key nm)) as Hs. unfold cut in Ct. destruct (first_label (k_key nm)); injection Ct as <- _; [lia|done]. }
  rewrite Hlen0, Hmap.
  assert (Hlab : take (length l) (k_key nm) = l) by (rewrite Et; destruct o; [by rewrite take_app_length|by rewrite take_ge]). rewrite Hlab.
  assert (Hdot : (match first_label (k_key nm) with Some _ => true | None => false end) = match o with Some _ => true | None => false end)
    by (unfold cut in Ct; by destruct (first_label (k_key nm)); injection Ct as _ <-).
  rewrite Hdot.
  set (next0 := if (length (k_key nm) =? (if match o with Some _ => true | None => false end then S (length l) else length l))%nat then [] else _).
  assert (Hend : (length (k_key nm) =? (if match o with Some _ => true | None => false end then S (length l) else length l))%nat =
    match o with Some (_ :: _) => false | _ => true end).
  { rewrite Et. destruct o as [[|c r]|]; [apply Nat.eqb_eq; rewrite length_app; cbn; lia|apply Nat.eqb_neq; rewrite length_app; cbn; lia|apply Nat.eqb_refl]. }
  assert (Htp : tail_part l (entry_of nm) = match o with Some (c :: r) => Some (c :: r, k_value nm) | _ => None end).
  { unfold tail_part. cbn [entry_of fst snd]. rewrite Ct. destruct o as [[|c r]|]; rewrite ?beq_refl; done. }
  assert (Hn0 : map entry_of next0 = match tail_part l (entry_of nm) with Some x => [x] | None => [] end).
  { rewrite Htp. unfold next0. rewrite Hend. destruct o as [[|c r]|]; [done| |done]. unfold entry_of. cbn. rewrite Et, <- Nat.add_1_r, <- drop_drop, drop_app_length. done. }
  assert (Hown' : own (map entry_of (nm :: names)) l = match o with None => Some (false, k_value nm) | Some [] => Some (true, k_value nm) | _ => None end).
  { rewrite Hown. unfold own_part. cbn [entry_of fst snd]. rewrite Ct, beq_refl. by destruct o as [[|]|]. }
  assert (Hall : map entry_of (next0 ++ map (next_key (S (length l))) group) = tails (map entry_of (nm :: names)) l)
    by (rewrite map_app, Hn0, Hnext; by rewrite Htails).
  rewrite Hend. clearbody next0. unfold tag_with. rewrite <- Hall, Hown'.
  pose proof (tails_ok _ l Hok) as Htok. rewrite <- Hall in Htok.
  assert (Hshort : Forall (fun x => (length x.(k_key) < m)%nat) (next0 ++ map (next_key (S (length l))) group)).
  { assert (Hx : Forall (fun e => (length e.1 < m)%nat) (map entry_of (next0 ++ map (next_key (S (length l))) group))).
    { rewrite Hall. apply Forall_forall. intros x Hx. apply tails_in in Hx as (e & He & Ee & _ & _).
      apply list_elem_of_fmap in He as (y & -> & Hy). rewrite Forall_forall in Hlen. specialize (Hlen y Hy). cbn in Ee. rewrite Ee, length_app in Hlen. cbn in Hlen. lia. }
    by rewrite Forall_map in Hx. }
  destruct (next0 ++ map (next_key (S (length l))) group) as [|y ys] eqn:Ey.
  { eexists _, st. split; [done|]. split; [done|]. split; [done|]. eexists. split; [done|].
    destruct (tagged (k_value nm) 1 Hv3 ltac:(lia)) as [T _]. apply app_eq_nil in Ey as [-> _]. rewrite Htp in Hn0.
    destruct o as [[|c r]|]; [|done|]; (split; [lia|done]). }
  destruct (Hsub (y :: ys) st ltac:(done) Htok Hshort Hst) as (r & st' & -> & Hr). destruct r as [a|]; [|eexists _, _; by split].
  destruct Hr as ([F1 F2 F3] & Hp & h & hp1 & Hh & Hsubs & Hfree & Hrep). rewrite Hh, lookup_insert_eq.
  eexists _, _. split; [done|]. cbn [ws_heap ws_addrs].
  set (hp2 := if match o with Some (_ :: _) => false | _ => true end then _ else _).
  assert (Hhp2 : hp2 = <[a := Wildcard h (match o with Some (_ :: _) => 0 | _ => k_value nm end)]> hp1)
    by (unfold hp2; destruct o as [[|]|]; cbn [w_hash]; rewrite ?insert_insert_eq; done).
  clearbody hp2. subst hp2.
  assert (H12 : hp1 ⊆ <[a := Wildcard h (match o with Some (_ :: _) => 0 | _ => k_value nm end)]> hp1) by (by apply insert_subseteq).
  split; [|split; [by etrans|]].
  - split; cbn; [done|done|]. intros b Hb. specialize (F3 b Hb). rewrite Hh in F3. destruct (decide (b = a)) as [->|Hne]; [by rewrite lookup_insert_eq in F3|].
    rewrite lookup_insert_ne in F3 |- * by done. done.
  - eexists. split; [done|]. destruct Hp as [Hp0 Hp3].
    destruct (tagged a 2 Hp3 ltac:(lia)) as [T2 _]. destruct (tagged a 3 Hp3 ltac:(lia)) as [T3 _].
    split; [destruct o as [[|]|]; lia|]. cbn [map]. exists a, (Wildcard h (match o with Some (_ :: _) => 0 | _ => k_value nm end)).
    split; [by destruct o as [[|]|]|]. split; [done|]. split; [by rewrite lookup_insert_eq|]. split; [by destruct o as [[|]|]|].
    cbn [w_hash]. by eapply rep_mono.
Qed.

(** Names of the current table. *)
Definition level_key (x : hash_key) : Prop :=
  x.(k_null) = false /\ x.(k_hash) = hash_of x.(k_key) /\ 0 < x.(k_value) < 2 ^ 64 /\ low_key x = x.(k_key).

Lemma value_of_cons x new l : x.(k_null) = false ->
  value_of (x :: new) l = if beq (low_key x) l then x.(k_value) else value_of new l.
Proof. intros H. unfold value_of. cbn [List.filter]. by rewrite H. Qed.

Lemma lower_chars l : Forall name_char_ok l -> map ngx_tolower l = l.
Proof. induction 1 as [|c l [_ Hc] _ IH]; cbn; [done|]. by rewrite Hc, IH. Qed.

Lemma strlow_lower l : ngx_strlow l (length l) = map ngx_tolower l.
Proof. induction l as [|c l IH]; [done|]. cbn. by rewrite IH. Qed.

Lemma tag_rest (sub : hash_t -> list (list Z * Z) -> Prop) (hp : heap) nm names l v : label_of nm.(k_key) <> l ->
  tag_with sub hp (map entry_of (List.filter (fun x => negb (same_label nm.(k_key) x)) names)) l v ->
  tag_with sub hp (map entry_of (nm :: names)) l v.
Proof.
  intros Hne. destruct (parts_filter l (fun x => negb (same_label nm.(k_key) x)) names) as [H1 H2].
  { intros x _ Hx. apply negb_true_iff, not_true_iff_false. rewrite same_label_eq. congruence. }
  destruct (part_other l (entry_of nm)) as [H3 H4]; [done|].
  unfold tag_with. cbn [map]. rewrite own_cons, tails_cons, H1, H2, H3, H4. done.
Qed.

Lemma label_chars t : Forall name_char_ok t -> Forall name_char_ok (label_of t).
Proof. intros H. unfold label_of, cut. destruct (first_label t); [by apply Forall_take|done]. Qed.

Lemma wc_loop_ok n m sub : makes n m sub -> forall k names curr st,
  (length names <= k)%nat -> names_ok (map entry_of names) -> Forall (fun x => length x.(k_key) <= m)%nat names -> fresh_state st ->
  exists r st', wc_loop hash_of sub k names curr st = Some (r, st') /\
    match r with
    | None => True
    | Some curr' => fresh_state st' /\ st.(ws_heap) ⊆ st'.(ws_heap) /\ exists new, curr' = curr ++ new /\ Forall level_key new /\
        forall l, first_label l = None -> tag_with (rep n st'.(ws_heap)) st'.(ws_heap) (map entry_of names) l (value_of new l)
    end.
Proof.
  intros Hsub. induction k as [|k IH]; intros names curr st Hk Hok Hlen Hst.
  { destruct names; [|cbn in Hk; lia]. eexists _, _. split; [done|]. split; [done|]. split; [done|]. exists []. by rewrite app_nil_r. }
  destruct names as [|nm names]; [eexists _, _; split; [done|]; split; [done|]; split; [done|]; exists []; by rewrite app_nil_r|].
  cbn [wc_loop]. fold (group_len nm.(k_key)) (has_dot nm.(k_key)).
  pose proof (names_chars nm names Hok) as Hch. inversion_clear Hch as [|? ? Hc0 Hc].
  rewrite take_group_filter by (done || by apply names_sorted).
  destruct (wc_entry_ok n m sub nm names st Hsub Hok Hlen Hst) as (r & st1 & -> & Hr). destruct r as [key|]; [|eexists _, _; by split].
  destruct Hr as (Hst1 & Hsub1 & v & -> & Hv & Htag). set (l := label_of (k_key nm)) in *.
  set (rest := List.filter (fun x => negb (same_label (k_key nm) x)) names).
  destruct (IH rest (curr ++ [HashKey l false (hash_of l) v]) st1) as (r & st2 & -> & Hr).
  - cbn in Hk. unfold rest. pose proof (List.filter_length_le (fun x => negb (same_label (k_key nm) x)) names). lia.
  - apply names_ok_filter. destruct Hok as [H1 H2 H3 H4]. cbn [map] in *. inversion_clear H1. inversion_clear H2. inversion_clear H3.
    split; [done..|]. intros t Ht Hd. by apply (H4 t); constructor.
  - inversion_clear Hlen as [|? ? _ Hlen']. apply Forall_forall. intros x Hx. rewrite Forall_forall in Hlen'. apply Hlen'.
    apply list_elem_of_In in Hx. apply list_elem_of_In. by apply filter_In in Hx as [? _].
  - done.
  - eexists _, st2. split; [done|]. destruct r as [curr'|]; [|done]. destruct Hr as (Hst2 & Hsub2 & new & -> & Hnew & Htags).
    split; [done|]. split; [by etrans|]. exists (HashKey l false (hash_of l) v :: new). split; [by rewrite <- app_assoc|].
    assert (Hlow : low_key (HashKey l false (hash_of l) v) = l).
    { unfold low_key. cbn [k_key]. rewrite strlow_lower. by apply lower_chars, label_chars. }
    split; [constructor; [|done]; split; [done|]; split; [done|]; split; [done|]; done|].
    intros l' Hl'. rewrite value_of_cons, Hlow by done. cbn [k_value]. destruct (beq l l') eqn:B.
    + apply beq_eq in B as <-. eapply tag_mono; [|exact Hsub2|exact Htag]. intros h ts. by apply rep_mono.
    + apply tag_rest; [|by apply Htags]. intros E. change (l = l') in E. subst l'. by rewrite beq_refl in B.
Qed.
End build.

(** ** The tables *)

Section init.
Context (k : Z) (Hk : 3 <= k <= 15) (dirt : Z -> Z) (hash_of : list Z -> Z).
Context (Hhash : forall l, hash_of l = ngx_hash_key (map ngx_tolower l)).

Lemma hash_key_nonneg l : 0 <= ngx_hash_key l.
Proof.
  unfold ngx_hash_key. assert (H : forall h, 0 <= h -> 0 <= foldl ngx_hash h l); [|by apply H].
  induction l as [|c l IH]; intros h Hh; cbn; [done|]. apply IH. unfold ngx_hash. apply u64_range.
Qed.

Lemma wildcard_init_makes n : forall hi, hi.(i_hash) = 0 -> 24 <= hi.(i_bucket_size) < 2 ^ 15 ->
  makes n n (ngx_hash_wildcard_init (2 ^ k) dirt hash_of n hi).
Proof.
  induction n as [|n IH]; intros hi Hi Hb names st Hne Hok Hlen Hst.
  { destruct names as [|x names]; [done|]. inversion_clear Hlen. lia. }
  cbn [ngx_hash_wildcard_init]. destruct (alloc (ws_allocs st)) as [ok1 a1]. destruct ok1; cbn [negb]; [|eexists _, _; by split].
  destruct (alloc a1) as [ok2 a2]. destruct ok2; cbn [negb]; [|eexists _, _; by split].
  set (st0 := WState a2 (ws_addrs st) (ws_heap st)). assert (Hst0 : fresh_state st0) by (destruct Hst; by split).
  destruct (wc_loop_ok hash_of n n _ (IH (HashInit 0 (i_max_size hi) (i_bucket_size hi)) eq_refl Hb) (length names) names [] st0)
    as (r & st1 & -> & Hr); [done|done| |done|].
  { eapply Forall_impl; [exact Hlen|]. cbn. lia. }
  destruct r as [curr|]; [|eexists _, _; by split]. destruct Hr as ([F1 F2 F3] & Hsub & new & -> & Hnew & Htags). cbn [app].
  destruct (hash_init_holds k dirt hi new (ws_addrs st1)) as (start & r & addrs' & _ & -> & Hr); [done|done| | |].
  { eapply Forall_impl; [exact Hnew|]. intros x (_ & Hh & Hv & _). split; [rewrite Hh, Hhash; apply hash_key_nonneg|done]. }
  { eapply Forall_impl; [exact F2|]. intros x [Hx _]. lia. }
  destruct r as [|hash h]; [eexists _, _; by split|]. destruct Hr as (_ & [_ Hfind] & Hhash' & -> & H3).
  rewrite Hi in *. cbn [Z.eqb] in *. eexists _, _. split; [done|]. cbn [ws_heap ws_addrs].
  destruct (ws_addrs st1) as [|x1 [|x2 [|x3 addrs]]]; cbn [length] in H3; try lia. cbn [hd tl drop] in *. subst hash.
  assert (Hx2 : x2 ∉ x3 :: addrs) by (inversion_clear F1 as [|? ? _ F1']; by inversion_clear F1').
  inversion_clear F2 as [|? ? _ F2']. inversion_clear F2' as [|? ? Hp2 F2].
  split; [split; cbn|split; [done|]].
  - inversion_clear F1 as [|? ? _ F1']. inversion_clear F1' as [|? ? _ F1]. by inversion_clear F1.
  - by inversion_clear F2.
  - intros b Hb2. rewrite lookup_insert_ne; [apply F3; by do 3 constructor|]. intros ->. apply Hx2. by constructor.
  - exists h, (ws_heap st1). split; [done|]. split; [exact Hsub|]. split; [apply F3; by do 2 constructor|].
    intros l Hl. exists (value_of new l). split; [|by apply Htags].
    rewrite Hfind, (entries_value _ ngx_hash_key); [done|]. eapply Forall_impl; [exact Hnew|]. intros x (_ & Hh & _ & Hlow).
    rewrite Hh, Hhash. f_equal. unfold low_key in *. by rewrite strlow_lower in *.
Qed.
End init.
