(* ===== verification/NgxHashWildFind.v ===== *)
(** * Hash tables with wildcards: the longest match

    Finding in the tables that represent names gives, for a name with its labels
    from the last one on ([ngx_hash_find_wc_head]) or from the first one on
    ([ngx_hash_find_wc_tail]), the value of the name in the table that matches
    most of them. *)

From stdpp Require Import gmap sorting.
From S2P Require Import Prelude NgxMem NgxCompare NgxHash NgxHashSpec NgxHashTable NgxHashWild NgxHashLabels NgxHashWildSpec.

(** ** The labels of a name *)

Fixpoint split (name : list Z) : list (list Z) :=
  match name with
  | [] => [[]]
  | c :: rest =>
      if c =? chr "." then [] :: split rest
      else match split rest with
           | l :: ls => (c :: l) :: ls
           | [] => [[c]]
           end
  end.

Lemma split_nonempty name : split name <> [].
Proof. destruct name as [|c name]; cbn; [done|]. destruct (c =? chr "."); [done|]. by destruct (split name). Qed.

Lemma split_label l : first_label l = None -> split l = [l].
Proof.
  induction l as [|c l IH]; [done|]. cbn. destruct (c =? chr "."); [done|]. destruct (first_label l); [done|]. intros _. by rewrite IH.
Qed.

Lemma split_app a b : split (a ++ chr "." :: b) = split a ++ split b.
Proof.
  induction a as [|c a IH]; [done|]. cbn [split app]. destruct (c =? chr "."); [by rewrite IH|]. rewrite IH.
  pose proof (split_nonempty a). by destruct (split a).
Qed.

Lemma last_label_spec name :
  match last_label name with
  | O => first_label name = None
  | S n => first_label (drop (S n) name) = None /\ name = take n name ++ chr "." :: drop (S n) name /\ (n < length name)%nat
  end.
Proof.
  induction name as [|c name IH]; [done|]. cbn [last_label]. destruct (last_label name) as [|n].
  - cbn [first_label]. destruct (Z.eqb_spec c (chr ".")) as [->|Hc]; [cbn; repeat split; [done|lia]|]. by rewrite IH.
  - destruct IH as (H1 & H2 & H3). cbn [drop take length app]. split; [done|]. split; [by rewrite <- H2|lia].
Qed.

(** ** What matches *)

Definition is_nil {A} (l : list A) : bool := match l with [] => true | _ => false end.

(** The value for labels from the last one on: a name matches if it is the
    labels, or some of them from the first on; with a dot at its end, only if
    there are more. *)
Fixpoint best_head (ts : list (list Z * Z)) (ls : list (list Z)) : Z :=
  match ls with
  | [] => 0
  | l :: ls =>
      let d := if is_nil ls then 0 else best_head (tails ts l) ls in
      if d =? 0 then
        match own ts l with
        | None => 0
        | Some (strict, v) => if strict && is_nil ls then 0 else v
        end
      else d
  end.

(** The value for labels from the first one on: a name matches if there are
    more labels than it has. *)
Fixpoint best_tail (ts : list (list Z * Z)) (ls : list (list Z)) : Z :=
  match ls with
  | [] => 0
  | l :: ls =>
      if is_nil ls then 0
      else
        let d := best_tail (tails ts l) ls in
        if d =? 0 then match own ts l with None => 0 | Some (_, v) => v end else d
  end.

Lemma best_head_nil ls : best_head [] ls = 0.
Proof. induction ls as [|l ls IH]; cbn; [done|]. rewrite IH. by destruct (is_nil ls). Qed.

Lemma best_tail_nil ls : best_tail [] ls = 0.
Proof. induction ls as [|l ls IH]; cbn; [done|]. rewrite IH. by destruct (is_nil ls). Qed.

Lemma own_value ts l b v : names_ok ts -> own ts l = Some (b, v) -> ptr_ok v.
Proof.
  intros Hok H. unfold own in H. assert (Hin : (b, v) ∈ omap (own_part l) ts) by (destruct (omap (own_part l) ts); [done|injection H as ->; constructor]).
  apply list_elem_of_omap in Hin as (e & He & Hp). pose proof (no_values _ Hok) as Hv. rewrite Forall_forall in Hv. specialize (Hv e He).
  unfold own_part in Hp. destruct (cut e.1) as [l' [[|]|]]; try done; (destruct (beq l' l); [|done]); by injection Hp as _ <-.
Qed.

Lemma ptr_ok_ne a : ptr_ok a -> a <> 0.
Proof. intros [H _]. lia. Qed.

(** ** Finding *)

Lemma find_head_best fuel : forall n hp a h v0 ts name,
  names_ok ts -> rep n hp h ts -> hp !! a = Some (Wildcard h v0) -> (length name < fuel)%nat ->
  exists r, find_wc_head fuel hp a name = Some r /\
    let b := best_head ts (rev (split name)) in (b <> 0 -> r = b) /\ (b = 0 -> r = 0 \/ r = v0).
Proof.
  induction fuel as [|fuel IH]; intros n hp a h v0 ts name Hok Hrep Ha Hf; [lia|]. destruct n as [|n]; [done|].
  cbn [find_wc_head]. rewrite Ha. cbn [w_hash w_value].
  pose proof (last_label_spec name) as Hlast. set (l := drop (last_label name) name).
  assert (Hl : first_label l = None /\ rev (split name) = l :: match last_label name with O => [] | S k => rev (split (take k name)) end).
  { unfold l. destruct (last_label name) as [|k]; [rewrite drop_0; split; [done|by rewrite split_label]|].
    destruct Hlast as (H1 & H2 & _). split; [done|]. rewrite H2 at 1. rewrite split_app, rev_app_distr, (split_label _ H1). done. }
  destruct Hl as [Hl Hsp]. rewrite Hsp. destruct (Hrep l Hl) as (v & Hfind & Htag). fold (ngx_hash_key l). rewrite Hfind.
  set (ls := match last_label name with O => [] | S k => _ end).
  assert (Hnil : is_nil ls = (last_label name =? 0)%nat).
  { unfold ls. destruct (last_label name) as [|k]; [done|]. pose proof (split_nonempty (take k name)) as Hne.
    destruct (split (take k name)) as [|x xs]; [done|]. cbn. by destruct (rev xs). }
  cbn [best_head]. rewrite Hnil. unfold tag_with in Htag.
  destruct (tails ts l) as [|e ts'] eqn:Ht.
  - rewrite best_head_nil. assert (E0 : (if (last_label name =? 0)%nat then 0 else 0) = 0) by (by destruct (_ =? _)%nat). rewrite E0. cbn [Z.eqb].
    destruct (own ts l) as [[strict x]|] eqn:Ho; subst v; [|eexists; split; [done|]; cbn; lia].
    pose proof (own_value _ _ _ _ Hok Ho) as [Hx0 Hx3]. destruct strict; cbn [andb].
    + destruct (tagged x 1 Hx3 ltac:(lia)) as (T & Tp & Tb). rewrite (Tb 2), (Tb 1), Tp by lia. rewrite (proj2 (Z.eqb_neq _ 0)) by lia.
      cbn [has_bit Z.land Z.eqb negb]. eexists. split; [done|]. destruct (last_label name =? 0)%nat; lia.
    + destruct (tagged x 0 Hx3 ltac:(lia)) as (T & Tp & Tb). rewrite Z.lor_0_r in *. rewrite (Tb 2), (Tb 1) by lia.
      rewrite (proj2 (Z.eqb_neq x 0)) by lia. cbn [has_bit Z.land Z.eqb negb]. eexists. split; [done|]. lia.
  - destruct Htag as (a' & w & -> & [Hp0 Hp3] & Hw & Hwv & Hsub). set (t := match own ts l with Some (false, _) => 2 | _ => 3 end) in *.
    assert (Ht4 : 0 <= t < 4 /\ has_bit t 2 = true /\ has_bit t 1 = match own ts l with Some (false, _) => false | _ => true end)
      by (unfold t; destruct (own ts l) as [[[] ?]|]; done).
    destruct Ht4 as (Ht4 & Hb2 & Hb1). destruct (tagged a' t Hp3 Ht4) as (T & Tp & Tb). rewrite Tp, (Tb 2), (Tb 1), Hb2, Hb1 by lia.
    rewrite (proj2 (Z.eqb_neq _ 0)) by lia. destruct (last_label name) as [|m] eqn:Em; cbn [Nat.eqb].
    + destruct (own ts l) as [[[] x]|] eqn:Ho; cbn [andb]; [eexists; split; [done|]; cbn; lia| |eexists; split; [done|]; cbn; lia].
      rewrite Hw. cbn. rewrite Hwv. eexists. split; [done|]. pose proof (ptr_ok_ne _ (own_value _ _ _ _ Hok Ho)). cbn. lia.
    + rewrite Hw. destruct w as [h' wv]. cbn [w_hash w_value] in *. rewrite Nat.sub_succ, Nat.sub_0_r.
      destruct Hlast as (_ & _ & Hm). pose proof (tails_ok ts l Hok) as Htok. rewrite Ht in Htok.
      destruct (IH n hp a' h' wv (e :: ts') (take m name) Htok Hsub Hw) as (r & -> & Hr); [rewrite length_take; lia|].
      eexists. split; [done|]. fold ls in Hr. cbv zeta in *. unfold ls in *. cbn [is_nil] in *.
      destruct (Z.eqb_spec (best_head (e :: ts') (rev (split (take m name)))) 0) as [E|E].
      * assert (Hrv : (if r =? 0 then wv else r) = wv) by (destruct Hr as [_ Hr]; destruct (Hr E) as [->| ->]; [done|by destruct (Z.eqb_spec wv 0)]).
        rewrite Hrv, Hwv. destruct (own ts l) as [[strict x]|]; [|lia]. rewrite andb_false_r. lia.
      * destruct Hr as [Hr _]. rewrite (Hr E). by rewrite (proj2 (Z.eqb_neq _ 0) E).
Qed.

(** Names without a dot at their end, as those with a wildcard there are kept. *)
Definition plain_ends (ts : list (list Z * Z)) : Prop := Forall (fun e => last e.1 <> Some (chr ".")) ts.

Lemma own_plain ts l b v : plain_ends ts -> own ts l = Some (b, v) -> b = false.
Proof.
  intros Hp H. unfold own in H. assert (Hin : (b, v) ∈ omap (own_part l) ts) by (destruct (omap (own_part l) ts); [done|injection H as ->; constructor]).
  apply list_elem_of_omap in Hin as (e & He & Hpt). unfold plain_ends in Hp. rewrite Forall_forall in Hp. specialize (Hp e He).
  unfold own_part in Hpt. destruct (cut e.1) as [l' [[|]|]] eqn:C; try done; (destruct (beq l' l); [|done]); injection Hpt as <- <-; [|done].
  apply cut_spec in C as [_ C]. rewrite C, last_snoc in Hp. done.
Qed.

Lemma tails_plain ts l : plain_ends ts -> plain_ends (tails ts l).
Proof.
  unfold plain_ends. rewrite !Forall_forall. intros H x Hx. apply tails_in in Hx as (e & He & Ee & _ & Hne). specialize (H e He). rewrite Ee in H.
  rewrite last_app in H. destruct x.1 as [|c r]; [done|]. change (last (46 :: c :: r)) with (last (c :: r)) in H.
  destruct (last (c :: r)) eqn:El; [done|]. by apply last_None in El.
Qed.

Lemma find_tail_best fuel : forall n hp a h v0 ts name,
  names_ok ts -> plain_ends ts -> rep n hp h ts -> hp !! a = Some (Wildcard h v0) -> (length name < fuel)%nat ->
  exists r, find_wc_tail fuel hp a name = Some r /\
    let b := best_tail ts (split name) in (b <> 0 -> r = b) /\ (b = 0 -> r = 0 \/ r = v0).
Proof.
  induction fuel as [|fuel IH]; intros n hp a h v0 ts name Hok Hpl Hrep Ha Hf; [lia|]. destruct n as [|n]; [done|].
  cbn [find_wc_tail]. pose proof (first_label_spec name) as Hs. destruct (first_label name) as [i|] eqn:E.
  2:{ rewrite split_label by done. eexists. split; [done|]. cbn. lia. }
  destruct Hs as (Hl & En & Hi). rewrite Ha. cbn [w_hash w_value]. set (l := take i name) in *. set (rest := drop (S i) name) in *.
  assert (Hsp : split name = l :: split rest) by (rewrite En, split_app, split_label; done). rewrite Hsp.
  destruct (Hrep l Hl) as (v & Hfind & Htag). fold (ngx_hash_key l). rewrite Hfind. cbn [best_tail].
  assert (Hnil : is_nil (split rest) = false) by (pose proof (split_nonempty rest); by destruct (split rest)). rewrite Hnil.
  unfold tag_with in Htag. destruct (tails ts l) as [|e ts'] eqn:Ht.
  - rewrite best_tail_nil. cbn [Z.eqb]. destruct (own ts l) as [[strict x]|] eqn:Ho; subst v; [|eexists; split; [done|]; cbn; lia].
    rewrite (own_plain _ _ _ _ Hpl Ho). pose proof (own_value _ _ _ _ Hok Ho) as [Hx0 Hx3].
    destruct (tagged x 0 Hx3 ltac:(lia)) as (T & Tp & Tb). rewrite Z.lor_0_r in *. rewrite (Tb 2) by lia.
    rewrite (proj2 (Z.eqb_neq x 0)) by lia. cbn [has_bit Z.land Z.eqb negb]. eexists. split; [done|]. cbn. lia.
  - destruct Htag as (a' & w & -> & [Hp0 Hp3] & Hw & Hwv & Hsub). set (t := match own ts l with Some (false, _) => 2 | _ => 3 end) in *.
    assert (Ht4 : 0 <= t < 4 /\ has_bit t 2 = true) by (unfold t; destruct (own ts l) as [[[] ?]|]; done).
    destruct Ht4 as (Ht4 & Hb2). destruct (tagged a' t Hp3 Ht4) as (T & Tp & Tb). rewrite Tp, (Tb 2), Hb2 by lia.
    rewrite (proj2 (Z.eqb_neq _ 0)) by lia. rewrite Hw. destruct w as [h' wv]. cbn [w_hash w_value] in *.
    pose proof (tails_ok ts l Hok) as Htok. pose proof (tails_plain ts l Hpl) as Htpl. rewrite Ht in Htok, Htpl.
    destruct (IH n hp a' h' wv (e :: ts') rest Htok Htpl Hsub Hw) as (r & -> & Hr).
    { unfold rest. rewrite length_drop. assert (0 < length name)%nat by (rewrite En, length_app; cbn; lia). lia. }
    eexists. split; [done|]. cbv zeta in *. destruct (Z.eqb_spec (best_tail (e :: ts') (split rest)) 0) as [E0|E0].
    + assert (Hrv : (if r =? 0 then wv else r) = wv) by (destruct Hr as [_ Hr]; destruct (Hr E0) as [->| ->]; [done|by destruct (Z.eqb_spec wv 0)]).
      rewrite Hrv, Hwv. destruct (own ts l) as [[strict x]|]; lia.
    + destruct Hr as [Hr _]. rewrite (Hr E0). by rewrite (proj2 (Z.eqb_neq _ 0) E0).
Qed.

(** ** The longest match *)

(** How many labels a name matches. *)
Fixpoint match_head (t : list Z) (ls : list (list Z)) : option nat :=
  match ls with
  | [] => None
  | l :: ls =>
      match cut t with
      | (l', None) => if beq l' l then Some 1%nat else None
      | (l', Some []) => if beq l' l && negb (is_nil ls) then Some 1%nat else None
      | (l', Some r) => if beq l' l then S <$> match_head r ls else None
      end
  end.

Fixpoint match_tail (t : list Z) (ls : list (list Z)) : option nat :=
  match ls with
  | [] => None
  | l :: ls =>
      if is_nil ls then None
      else
        match cut t with
        | (l', None) => if beq l' l then Some 1%nat else None
        | (l', Some r) => if beq l' l then S <$> match_tail r ls else None
        end
  end.

(** [b] is the value of the name that matches most, zero if none does. *)
Definition longest (m : list Z -> option nat) (ts : list (list Z * Z)) (b : Z) : Prop :=
  (b = 0 /\ forall e, e ∈ ts -> m e.1 = None) \/
  (b <> 0 /\ exists e k, e ∈ ts /\ m e.1 = Some k /\ e.2 = b /\ forall e' k', e' ∈ ts -> m e'.1 = Some k' -> (k' <= k)%nat).

(** The names that begin with a label. *)
Lemma tails_intro ts l t c r v : (t, v) ∈ ts -> cut t = (l, Some (c :: r)) -> (c :: r, v) ∈ tails ts l.
Proof.
  intros Hin Hc. apply list_elem_of_omap. exists (t, v). split; [done|]. unfold tail_part. cbn. by rewrite Hc, beq_refl.
Qed.

Lemma tails_elim ts l x : x ∈ tails ts l -> exists t, (t, x.2) ∈ ts /\ exists c r, x.1 = c :: r /\ cut t = (l, Some (c :: r)).
Proof.
  intros H. apply list_elem_of_omap in H as ([t v] & He & Hp). unfold tail_part in Hp. cbn in Hp.
  destruct (cut t) as [l' [[|c r]|]] eqn:C; try done. destruct (beq l' l) eqn:B; [|done]. apply beq_eq in B. subst l'.
  injection Hp as <-. exists t. cbn. split; [done|]. by exists c, r.
Qed.

Lemma own_elim ts l b v : own ts l = Some (b, v) -> exists t, (t, v) ∈ ts /\ cut t = (l, if b then Some [] else None).
Proof.
  intros H. unfold own in H. assert (Hin : (b, v) ∈ omap (own_part l) ts) by (destruct (omap (own_part l) ts); [done|injection H as ->; constructor]).
  apply list_elem_of_omap in Hin as ([t x] & He & Hp). unfold own_part in Hp. cbn in Hp.
  destruct (cut t) as [l' [[|c r]|]] eqn:C; try done; (destruct (beq l' l) eqn:B; [|done]); apply beq_eq in B; subst l'; injection Hp as <- <-; by exists t.
Qed.

Lemma own_none ts l t v o : own ts l = None -> (t, v) ∈ ts -> cut t = (l, o) -> exists c r, o = Some (c :: r).
Proof.
  intros H Hin Hc. assert (Hn : omap (own_part l) ts = []) by (unfold own in H; by destruct (omap (own_part l) ts)).
  assert (Hx : forall x, own_part l (t, v) = Some x -> False).
  { intros x Hx. assert (Hel : x ∈ omap (own_part l) ts) by (apply list_elem_of_omap; by exists (t, v)). rewrite Hn in Hel. inversion Hel. }
  unfold own_part in Hx. cbn in Hx. rewrite Hc in Hx. destruct o as [[|c r]|]; [exfalso|by exists c, r|exfalso]; rewrite beq_refl in Hx; by eapply Hx.
Qed.

Lemma not_both ts l v v' t t' : names_ok ts -> (t, v) ∈ ts -> (t', v') ∈ ts -> cut t = (l, Some []) -> cut t' = (l, None) -> False.
Proof.
  intros Hok H1 H2 C1 C2. apply cut_spec in C1 as [_ ->]. apply cut_spec in C2 as [_ ->].
  apply (no_both _ Hok l); [exact (list_elem_of_fmap_2 fst _ _ H2)|exact (list_elem_of_fmap_2 fst _ _ H1)].
Qed.

(** The names with a first label, by what is behind it. *)
Lemma match_head_cons t l ls k : match_head t (l :: ls) = Some k ->
  exists o, cut t = (l, o) /\ match o with
    | None => k = 1%nat
    | Some [] => k = 1%nat /\ is_nil ls = false
    | Some r => exists k', match_head r ls = Some k' /\ k = S k'
    end.
Proof.
  cbn [match_head]. destruct (cut t) as [l' o]. destruct (beq l' l) eqn:B; [apply beq_eq in B; subst l'|by destruct o as [[|]|]].
  destruct o as [[|c r]|]; cbn [andb].
  - destruct (is_nil ls) eqn:N; [done|]. intros [= <-]. exists (Some []). done.
  - destruct (match_head (c :: r) ls) as [k'|] eqn:M; [|done]. intros [= <-]. exists (Some (c :: r)). split; [done|]. by exists k'.
  - intros [= <-]. by exists None.
Qed.

Lemma best_head_longest ls : forall ts, names_ok ts -> longest (fun t => match_head t ls) ts (best_head ts ls).
Proof.
  induction ls as [|l ls IH]; intros ts Hok; [by left|].
  cbn [best_head]. set (d := if is_nil ls then 0 else best_head (tails ts l) ls).
  assert (Hd : longest (fun t => match_head t ls) (tails ts l) d).
  { unfold d. destruct (is_nil ls) eqn:N; [|by apply IH, tails_ok]. destruct ls; [|done]. by left. }
  destruct Hd as [[-> Hnone]|(Hd & e & k & He & Hk & Ev & Hmax)].
  - cbn [Z.eqb].
    assert (Hno : forall t v c r, (t, v) ∈ ts -> cut t = (l, Some (c :: r)) -> match_head (c :: r) ls = None).
    { intros t v c r Hin Hc. apply (Hnone (c :: r, v)). by eapply tails_intro. }
    assert (Hone : forall t v k, (t, v) ∈ ts -> match_head t (l :: ls) = Some k -> k = 1%nat /\
      exists o, cut t = (l, o) /\ (o = None \/ (o = Some [] /\ is_nil ls = false))).
    { intros t v k Hin Hm. apply match_head_cons in Hm as (o & Hc & Hm). destruct o as [[|c r]|]; [destruct Hm; eauto 10| |eauto 10].
      destruct Hm as (k' & Hm & _). by rewrite (Hno t v c r Hin Hc) in Hm. }
    destruct (own ts l) as [[strict v]|] eqn:Ho.
    + destruct (own_elim _ _ _ _ Ho) as (t & Hin & Hc). pose proof (ptr_ok_ne _ (own_value _ _ _ _ Hok Ho)) as Hv0.
      destruct (strict && is_nil ls) eqn:Es.
      * apply andb_prop in Es as [-> Hn]. left. split; [done|]. intros [t' v'] Hin'. cbn [fst].
        destruct (match_head t' (l :: ls)) as [k|] eqn:Hm; [|done]. destruct (Hone _ _ _ Hin' Hm) as (_ & o & Hc' & [->|[_ Hn']]); [|congruence].
        exfalso. exact (not_both ts l v v' t t' Hok Hin Hin' Hc Hc').
      * right. split; [done|]. exists (t, v), 1%nat. split; [done|]. split; [|split; [done|]].
        -- cbn [fst match_head]. rewrite Hc. destruct strict; cbn [andb] in Es; rewrite beq_refl; [by rewrite Es|done].
        -- intros [t' v'] k' Hin' Hm. destruct (Hone _ _ _ Hin' Hm) as [-> _]. done.
    + left. split; [done|]. intros [t' v'] Hin'. cbn [fst]. destruct (match_head t' (l :: ls)) as [k|] eqn:Hm; [|done].
      destruct (Hone _ _ _ Hin' Hm) as (_ & o & Hc' & Hoo). destruct (own_none _ _ _ _ _ Ho Hin' Hc') as (c & r & ->). destruct Hoo as [?|[? _]]; done.
  - rewrite (proj2 (Z.eqb_neq d 0) Hd). right. split; [done|]. destruct (tails_elim _ _ _ He) as (t & Hin & c & r & Er & Hc).
    exists (t, e.2), (S k). split; [done|]. split; [|split; [done|]].
    + cbn [fst match_head]. rewrite Hc, beq_refl. rewrite Er in Hk. by rewrite Hk.
    + intros [t' v'] k' Hin' Hm. cbn [fst] in Hm. apply match_head_cons in Hm as (o & Hc' & Hm). destruct o as [[|c' r']|]; [lia| |lia].
      destruct Hm as (k2 & Hm & ->). pose proof (Hmax (c' :: r', v') k2 ltac:(by eapply tails_intro) Hm). lia.
Qed.

Lemma match_tail_cons t l ls k : match_tail t (l :: ls) = Some k ->
  is_nil ls = false /\ exists o, cut t = (l, o) /\ match o with
    | None => k = 1%nat
    | Some r => exists k', match_tail r ls = Some k' /\ k = S k'
    end.
Proof.
  cbn [match_tail]. destruct (is_nil ls); [done|]. intros H. split; [done|]. revert H.
  destruct (cut t) as [l' o]. destruct (beq l' l) eqn:B; [apply beq_eq in B; subst l'|by destruct o].
  destruct o as [r|]; [|intros [= <-]; by exists None].
  destruct (match_tail r ls) as [k'|] eqn:M; [|done]. intros [= <-]. exists (Some r). split; [done|]. by exists k'.
Qed.

Lemma plain_cut ts t v l : plain_ends ts -> (t, v) ∈ ts -> cut t <> (l, Some []).
Proof.
  intros Hp Hin Hc. unfold plain_ends in Hp. rewrite Forall_forall in Hp. specialize (Hp _ Hin). cbn in Hp.
  apply cut_spec in Hc as [_ ->]. by rewrite last_snoc in Hp.
Qed.

Lemma best_tail_longest ls : forall ts, names_ok ts -> plain_ends ts -> longest (fun t => match_tail t ls) ts (best_tail ts ls).
Proof.
  induction ls as [|l ls IH]; intros ts Hok Hpl; [by left|].
  cbn [best_tail]. destruct (is_nil ls) eqn:N.
  { left. split; [done|]. intros e _. cbn [match_tail]. by rewrite N. }
  destruct (IH (tails ts l) (tails_ok _ l Hok) (tails_plain _ l Hpl)) as [[-> Hnone]|(Hd & e & k & He & Hk & Ev & Hmax)].
  - cbn [Z.eqb].
    assert (Hone : forall t v k, (t, v) ∈ ts -> match_tail t (l :: ls) = Some k -> k = 1%nat /\ cut t = (l, None)).
    { intros t v k Hin Hm. apply match_tail_cons in Hm as (_ & o & Hc & Hm). destruct o as [r|]; [|done].
      destruct r as [|c r]; [by destruct (plain_cut _ _ _ _ Hpl Hin Hc)|]. destruct Hm as (k' & Hm & _).
      pose proof (Hnone (c :: r, v) ltac:(by eapply tails_intro)) as Hn. cbn in Hn, Hm. congruence. }
    destruct (own ts l) as [[strict v]|] eqn:Ho.
    + destruct (own_elim _ _ _ _ Ho) as (t & Hin & Hc). rewrite (own_plain _ _ _ _ Hpl Ho) in Hc.
      right. split; [exact (ptr_ok_ne _ (own_value _ _ _ _ Hok Ho))|]. exists (t, v), 1%nat. split; [done|]. split; [|split; [done|]].
      * cbn [fst match_tail]. by rewrite N, Hc, beq_refl.
      * intros [t' v'] k' Hin' Hm. by destruct (Hone _ _ _ Hin' Hm) as [-> _].
    + left. split; [done|]. intros [t' v'] Hin'. cbn [fst]. destruct (match_tail t' (l :: ls)) as [k|] eqn:Hm; [|done].
      destruct (Hone _ _ _ Hin' Hm) as [_ Hc']. by destruct (own_none _ _ _ _ _ Ho Hin' Hc') as (c & r & ?).
  - rewrite (proj2 (Z.eqb_neq _ 0) Hd). right. split; [done|]. destruct (tails_elim _ _ _ He) as (t & Hin & c & r & Er & Hc).
    exists (t, e.2), (S k). split; [done|]. split; [|split; [done|]].
    + cbn [fst match_tail]. rewrite N, Hc, beq_refl. rewrite Er in Hk. by rewrite Hk.
    + intros [t' v'] k' Hin' Hm. cbn [fst] in Hm. apply match_tail_cons in Hm as (_ & o & Hc' & Hm). destruct o as [[|c' r']|]; [| |lia].
      * by destruct (plain_cut _ _ _ _ Hpl Hin' Hc').
      * destruct Hm as (k2 & Hm & ->). pose proof (Hmax (c' :: r', v') k2 ltac:(by eapply tails_intro) Hm). lia.
Qed.
