(* ===== verification/NgxHashKeys.v ===== *)
(** * Collecting the keys of hash tables (nginx core, [ngx_hash.c])

    [ngx_hash_keys_array_init] and [ngx_hash_add_key]: names are told apart by
    their wildcard, put in lower case, checked for conflicts with earlier ones
    by small hash tables of arrays, and collected for [ngx_hash_init] and
    [ngx_hash_wildcard_init]; names with a wildcard in front are turned round,
    label by label. *)

From stdpp Require Import gmap.
From S2P Require Import Prelude NgxCompare NgxHash NgxHashWild.

(** A name of an array: its bytes; or only its length, when the copy of the bytes
    could not be made and the pointer is null. *)
Inductive name_slot :=
  | Name (x : list Z)
  | NullName (len : nat).

#[export] Instance name_slot_eq_dec : EqDecision name_slot.
Proof. solve_decision. Defined.

(** [ngx_hash_keys_arrays_t]; an array of names that was not made yet is
    missing. *)
Record keys_arrays := KeysArrays {
  ha_hsize : Z;
  ha_keys : list hash_key;
  ha_keys_hash : gmap Z (list name_slot);
  ha_head : list hash_key;
  ha_head_hash : gmap Z (list name_slot);
  ha_tail : list hash_key;
  ha_tail_hash : gmap Z (list name_slot);
}.

Abbreviation NGX_BUSY := (-3) (only parsing).

(** [ngx_hash_keys_array_init], with the outcomes of its six allocations. *)
Definition ngx_hash_keys_array_init (small : bool) (a : allocs) : option keys_arrays * allocs :=
  let ha := KeysArrays (if small then 107 else 10007) [] ∅ [] ∅ [] ∅ in
  let fix go (n : nat) (a : allocs) :=
    match n with
    | O => (Some ha, a)
    | S n => let '(ok, a) := alloc a in if ok then go n a else (None, a)
    end in
  go 6%nat a.

(** ** Wildcards *)

(** The loop over the characters: [None] refuses the name, else the number of
    stars.  Behind the name is the end of the string. *)
Fixpoint scan_stars (key : list Z) (n : Z) : option Z :=
  match key with
  | [] => Some n
  | c :: rest =>
      let n := if c =? chr "*" then n + 1 else n in
      if n >? 1 then None
      else if (c =? chr ".") && (hd 0 rest =? chr ".") then None
      else scan_stars rest n
  end.

(** The kind of a name: exact; with so many characters of a wildcard in front;
    or with a wildcard at the end. *)
Inductive key_kind := KExact | KHead (skip : nat) | KTail.

Definition classify (key : list Z) : option key_kind :=
  match scan_stars key 0 with
  | None => None
  | Some n =>
      let len := length key in
      if (1 <? len)%nat && (nth 0 key 0 =? chr ".") then Some (KHead 1)
      else if (2 <? len)%nat && (nth 0 key 0 =? chr "*") && (nth 1 key 0 =? chr ".") then Some (KHead 2)
      else if (2 <? len)%nat && (nth (len - 2) key 0 =? chr ".") && (nth (len - 1) key 0 =? chr "*") then Some KTail
      else if negb (n =? 0) then None
      else Some KExact
  end.

(** ** Conflicts *)

(** A name among those of an array; [None] reads through a null pointer. *)
Fixpoint has_name (names : list name_slot) (name : list Z) : option bool :=
  match names with
  | [] => Some false
  | Name x :: names =>
      if (length name =? length x)%nat && (ngx_strncmp name x (length name) =? 0) then Some true
      else has_name names name
  | NullName len :: names => if (length name =? len)%nat then None else has_name names name
  end.

(** The check in a hash of arrays, and the new name there: the code and the
    arrays.  An array is made with its first name; [copy] says that the name is
    copied, when it has its place already. *)
Definition add_name (copy : bool) (names : gmap Z (list name_slot)) (k : Z) (name : list Z) (a : allocs) :
    option (Z * gmap Z (list name_slot) * allocs) :=
  let array := default [] (names !! k) in
  match has_name array name with
  | None => None
  | Some true => Some (NGX_BUSY, names, a)
  | Some false =>
      let '(ok, a) := match names !! k with None => alloc a | Some _ => (true, a) end in
      if negb ok then Some (NGX_ERROR, names, a)
      else
        let '(ok, a) := alloc a in
        if negb ok then Some (NGX_ERROR, <[k := array]> names, a)
        else
          let '(ok, a) := if copy then alloc a else (true, a) in
          if negb ok then Some (NGX_ERROR, <[k := array ++ [NullName (length name)]]> names, a)
          else Some (NGX_OK, <[k := array ++ [Name name]]> names, a)
  end.

(** ** Turning a name round *)

(** The loop from the end of the name [data] down to its second character: the
    labels behind the current one, each with a dot, and the length of the
    current one. *)
Fixpoint turn_loop (i : nat) (data : list Z) (len : nat) (p : list Z) : list Z * nat :=
  match i with
  | O => (p, len)
  | S i' =>
      if nth i data 0 =? chr "." then turn_loop i' data 0 (p ++ take len (drop (S i) data) ++ [chr "."])
      else turn_loop i' data (S len) p
  end.

Definition turn_round (data : list Z) : list Z :=
  let '(p, len) := turn_loop (length data - 1) data 0 [] in
  if (len =? 0)%nat then p else p ++ take len (drop 1 data).

(** ** [ngx_hash_add_key] *)

Definition set_exact (ha : keys_arrays) (hash : gmap Z (list name_slot)) : keys_arrays :=
  KeysArrays ha.(ha_hsize) ha.(ha_keys) hash ha.(ha_head) ha.(ha_head_hash) ha.(ha_tail) ha.(ha_tail_hash).
Definition set_head (ha : keys_arrays) (hash : gmap Z (list name_slot)) : keys_arrays :=
  KeysArrays ha.(ha_hsize) ha.(ha_keys) ha.(ha_keys_hash) ha.(ha_head) hash ha.(ha_tail) ha.(ha_tail_hash).
Definition set_tail (ha : keys_arrays) (hash : gmap Z (list name_slot)) : keys_arrays :=
  KeysArrays ha.(ha_hsize) ha.(ha_keys) ha.(ha_keys_hash) ha.(ha_head) ha.(ha_head_hash) ha.(ha_tail) hash.

(** The code, the arrays and the outcomes to come; [None] is undefined. *)
Definition add_exact (ha : keys_arrays) (key : list Z) (value : Z) (a : allocs) : option (Z * keys_arrays * allocs) :=
  match add_name false ha.(ha_keys_hash) (ngx_hash_key key mod ha.(ha_hsize)) key a with
  | None => None
  | Some (rc, hash, a) =>
      let ha := set_exact ha hash in
      if negb (rc =? NGX_OK) then Some (rc, ha, a)
      else
        let '(ok, a) := alloc a in
        if negb ok then Some (NGX_ERROR, ha, a)
        else Some (NGX_OK, KeysArrays ha.(ha_hsize) (ha.(ha_keys) ++ [HashKey key false (ngx_hash_key key) value]) hash ha.(ha_head)
                ha.(ha_head_hash) ha.(ha_tail) ha.(ha_tail_hash), a)
  end.

(** A wildcard in front, [skip] characters of it; [name] is what is behind, in
    lower case, and [data] the whole. *)
Definition add_head (ha : keys_arrays) (skip : nat) (name data : list Z) (value : Z) (a : allocs) :
    option (Z * keys_arrays * allocs) :=
  let k := ngx_hash_key name mod ha.(ha_hsize) in
  match (if (skip =? 1)%nat then add_name true ha.(ha_keys_hash) k name a else Some (NGX_OK, ha.(ha_keys_hash), a)) with
  | None => None
  | Some (rc, exact, a) =>
      let ha := set_exact ha exact in
      if negb (rc =? NGX_OK) then Some (rc, ha, a)
      else
        let '(ok, a) := alloc a in
        if negb ok then Some (NGX_ERROR, ha, a)
        else
          let p := turn_round data in
          match add_name true ha.(ha_head_hash) k name a with
          | None => None
          | Some (rc, hash, a) =>
              let ha := set_head ha hash in
              if negb (rc =? NGX_OK) then Some (rc, ha, a)
              else
                let '(ok, a) := alloc a in
                if negb ok then Some (NGX_ERROR, ha, a)
                else Some (NGX_OK, KeysArrays ha.(ha_hsize) ha.(ha_keys) exact
                        (ha.(ha_head) ++ [HashKey (take (length data - 1) (p ++ [0])) false 0 value]) hash ha.(ha_tail) ha.(ha_tail_hash), a)
          end
  end.

(** A wildcard at the end; [name] is what is before its dot, in lower case.  The
    name is compared with its dot. *)
Definition add_tail (ha : keys_arrays) (name : list Z) (value : Z) (a : allocs) : option (Z * keys_arrays * allocs) :=
  let k := ngx_hash_key name mod ha.(ha_hsize) in
  let '(ok, a) := alloc a in
  if negb ok then Some (NGX_ERROR, ha, a)
  else
    let p := ngx_cpystrn (name ++ [chr "."; chr "*"]) (S (length name)) in
    match add_name true ha.(ha_tail_hash) k (name ++ [chr "."]) a with
    | None => None
    | Some (rc, hash, a) =>
        let ha := set_tail ha hash in
        if negb (rc =? NGX_OK) then Some (rc, ha, a)
        else
          let '(ok, a) := alloc a in
          if negb ok then Some (NGX_ERROR, ha, a)
          else Some (NGX_OK, KeysArrays ha.(ha_hsize) ha.(ha_keys) ha.(ha_keys_hash) ha.(ha_head) ha.(ha_head_hash)
                  (ha.(ha_tail) ++ [HashKey (take (length name) p) false 0 value]) hash, a)
    end.

(** [ngx_hash_add_key] with the flags for wildcards and for keys that are not to
    be changed. *)
Definition ngx_hash_add_key (ha : keys_arrays) (key : list Z) (value : Z) (wildcard readonly : bool) (a : allocs) :
    option (Z * keys_arrays * allocs) :=
  match if wildcard then classify key else Some KExact with
  | None => Some (NGX_DECLINED, ha, a)
  | Some KExact => add_exact ha (if readonly then key else map ngx_tolower key) value a
  | Some (KHead skip) =>
      let name := map ngx_tolower (drop skip key) in
      add_head ha skip name (take skip key ++ name) value a
  | Some KTail => add_tail ha (map ngx_tolower (take (length key - 2) key)) value a
  end.
