(* ===== verification/NgxHashKeysOk.v ===== *)
(** * Collecting keys: the shape of the arrays

    Whatever names are added, with whatever flags and failing allocations, names
    are checked in the array of their hash, below the size of the table of arrays,
    and every collected exact name is there with its hash.  A call that runs out of
    memory may leave an array without names, or a name without bytes; callers stop
    there, and until then there are none. *)

From stdpp Require Import gmap.
From S2P Require Import Prelude NgxCompare NgxHash NgxHashWild NgxHashKeys.

(** A table of arrays: every array has an index below the size and holds names of
    that hash, each with [sfx] behind it. *)
Definition slot_ok (hsize : Z) (sfx : list Z) (k : Z) (x : name_slot) : Prop :=
  match x with Name x => exists n, x = n ++ sfx /\ ngx_hash_key n mod hsize = k | NullName _ => True end.

Definition names_shape (hsize : Z) (sfx : list Z) (tbl : gmap Z (list name_slot)) : Prop :=
  forall k array, tbl !! k = Some array -> 0 <= k < hsize /\ Forall (slot_ok hsize sfx k) array.

(** No array without names, and no name without bytes. *)
Definition is_name (x : name_slot) : Prop := match x with Name _ => True | NullName _ => False end.

Definition names_full (tbl : gmap Z (list name_slot)) : Prop :=
  forall k array, tbl !! k = Some array -> array <> [] /\ Forall is_name array.

(** Every exact name is in its array. *)
Definition keys_in (hsize : Z) (tbl : gmap Z (list name_slot)) (x : hash_key) : Prop :=
  x.(k_null) = false /\ x.(k_hash) = ngx_hash_key x.(k_key) /\
  exists array, tbl !! (x.(k_hash) mod hsize) = Some array /\ Name x.(k_key) ∈ array.

Record arrays_ok (ha : keys_arrays) : Prop := {
  ao_size : 0 < ha.(ha_hsize);
  ao_exact : names_shape ha.(ha_hsize) [] ha.(ha_keys_hash);
  ao_head : names_shape ha.(ha_hsize) [] ha.(ha_head_hash);
  ao_tail : names_shape ha.(ha_hsize) [chr "."] ha.(ha_tail_hash);
  ao_keys : Forall (keys_in ha.(ha_hsize) ha.(ha_keys_hash)) ha.(ha_keys);
  ao_heads : Forall (fun x => x.(k_null) = false /\ x.(k_hash) = 0 /\ x.(k_key) <> []) ha.(ha_head);
  ao_tails : Forall (fun x => x.(k_null) = false /\ x.(k_hash) = 0) ha.(ha_tail);
}.

Record arrays_full (ha : keys_arrays) : Prop := {
  af_exact : names_full ha.(ha_keys_hash);
  af_head : names_full ha.(ha_head_hash);
  af_tail : names_full ha.(ha_tail_hash);
}.

Lemma has_name_full names name : Forall is_name names -> is_Some (has_name names name).
Proof.
  induction 1 as [|[x|len] names Hx _ IH]; cbn [has_name]; [by eexists| |done]. destruct (_ && _); [by eexists|done].
Qed.

(** An array changed at the index of a name: the table keeps its shape. *)
Lemma shape_insert hsize sfx tbl n array : 0 < hsize -> names_shape hsize sfx tbl ->
  Forall (slot_ok hsize sfx (ngx_hash_key n mod hsize)) array -> names_shape hsize sfx (<[ngx_hash_key n mod hsize := array]> tbl).
Proof.
  intros Hs Hsh Ha k' array'. rewrite lookup_insert_Some. intros [[<- <-]|[_ H]]; [|by apply Hsh].
  split; [by apply Z.mod_pos_bound|done].
Qed.

(** A larger table. *)
Definition sub_names (tbl tbl' : gmap Z (list name_slot)) : Prop :=
  forall k array x, tbl !! k = Some array -> x ∈ array -> exists array', tbl' !! k = Some array' /\ x ∈ array'.

Lemma sub_insert tbl k more : sub_names tbl (<[k := default [] (tbl !! k) ++ more]> tbl).
Proof.
  intros k' array x E Hx. destruct (decide (k = k')) as [<-|Hne].
  - rewrite lookup_insert_eq, E. eexists. split; [done|]. cbn. apply elem_of_app. by left.
  - rewrite lookup_insert_ne by done. by exists array.
Qed.

(** A name more: the table keeps its shape and what it had; when it has the name
    it is full if it was, and so it is when the name was there. *)
Lemma add_name_shape copy hsize sfx tbl n a : 0 < hsize -> names_shape hsize sfx tbl -> names_full tbl ->
  exists rc tbl' a', add_name copy tbl (ngx_hash_key n mod hsize) (n ++ sfx) a = Some (rc, tbl', a') /\
    names_shape hsize sfx tbl' /\ sub_names tbl tbl' /\ (rc <> NGX_ERROR -> names_full tbl') /\
    (rc = NGX_OK -> exists array', tbl' !! (ngx_hash_key n mod hsize) = Some array' /\ Name (n ++ sfx) ∈ array').
Proof.
  intros Hs Hsh Hfu. unfold add_name. set (k := ngx_hash_key n mod hsize). set (array := default [] (tbl !! k)).
  assert (Hself : sub_names tbl tbl) by (intros k' array' x E Hx; by exists array').
  assert (Ha : Forall (slot_ok hsize sfx k) array /\ Forall is_name array).
  { unfold array. destruct (tbl !! k) as [array'|] eqn:E; [|done]. split; [by apply (Hsh _ _ E)|by apply (Hfu _ _ E)]. }
  destruct Ha as [Ha Hn]. destruct (has_name_full array (n ++ sfx) Hn) as [b ->]. destruct b.
  { eexists _, _, _. split; [done|]. by split_and!. }
  assert (Hmore : forall more, Forall (slot_ok hsize sfx k) more ->
    names_shape hsize sfx (<[k := array ++ more]> tbl) /\ sub_names tbl (<[k := array ++ more]> tbl)).
  { intros more Hm. split; [apply shape_insert; [done|done|by apply Forall_app]|apply sub_insert]. }
  destruct (match tbl !! k with Some _ => _ | None => _ end) as [[|] a1]; cbn [negb]; [|eexists _, _, _; split; [done|]; by split_and!].
  destruct (alloc a1) as [[|] a2]; cbn [negb].
  2: { eexists _, _, _. split; [done|]. destruct (Hmore []) as [H1 H2]; [done|]. rewrite app_nil_r in H1, H2. by split_and!. }
  destruct (if copy then _ else _) as [[|] a3]; cbn [negb].
  2: { eexists _, _, _. split; [done|]. destruct (Hmore [NullName (length (n ++ sfx))]) as [H1 H2]; [by repeat constructor|]. by split_and!. }
  eexists _, _, _. split; [done|]. destruct (Hmore [Name (n ++ sfx)]) as [H1 H2]; [repeat constructor; by exists n|]. split_and!; [done|done| |].
  - intros _ k' array'. rewrite lookup_insert_Some. intros [[<- <-]|[_ H]]; [|exact (Hfu _ _ H)]. split; [by destruct array|].
    apply Forall_app. by repeat constructor.
  - intros _. rewrite lookup_insert_eq. eexists. split; [done|]. apply elem_of_app. right. by constructor.
Qed.

(** The collected names stay in a larger table. *)
Lemma keys_kept hsize tbl tbl' keys : sub_names tbl tbl' -> Forall (keys_in hsize tbl) keys -> Forall (keys_in hsize tbl') keys.
Proof. intros Hsub H. eapply Forall_impl; [exact H|]. intros x (? & ? & array & E & Hx). split; [done|]. split; [done|]. by eapply Hsub. Qed.

(** What a call leaves: sound arrays, and full ones unless memory ran out. *)
Definition call_ok (r : option (Z * keys_arrays * allocs)) : Prop :=
  exists rc ha a, r = Some (rc, ha, a) /\ arrays_ok ha /\ (rc <> NGX_ERROR -> arrays_full ha).

Lemma call_some rc ha a : arrays_ok ha -> (rc <> NGX_ERROR -> arrays_full ha) -> call_ok (Some (rc, ha, a)).
Proof. intros H1 H2. by exists rc, ha, a. Qed.

Lemma add_exact_ok ha n v a : arrays_ok ha -> arrays_full ha -> call_ok (add_exact ha n v a).
Proof.
  intros [H1 H2 H3 H4 H5 H6 H7] [F1 F2 F3]. unfold add_exact.
  destruct (add_name_shape false _ [] _ n a H1 H2 F1) as (rc & tbl & a1 & E & Hsh & Hsub & Hfull & Hin). rewrite app_nil_r in E, Hin. rewrite E.
  apply (keys_kept _ _ tbl) in H5; [|done]. destruct (Z.eqb_spec rc NGX_OK) as [->|Hrc]; cbn [negb].
  2: { apply call_some; [by split|]. intros Hr. split; cbn; auto. }
  destruct (alloc a1) as [[|] a2]; cbn [negb]; apply call_some; try done; try (by split); [|intros _; split; cbn; auto].
  split; cbn; try done. apply Forall_app. split; [done|]. constructor; [|done]. by split_and!; [..|apply Hin].
Qed.

Lemma add_tail_ok ha n v a : arrays_ok ha -> arrays_full ha -> call_ok (add_tail ha n v a).
Proof.
  intros [H1 H2 H3 H4 H5 H6 H7] [F1 F2 F3]. unfold add_tail. destruct (alloc a) as [[|] a0]; cbn [negb]; [|by apply call_some].
  destruct (add_name_shape true _ [chr "."] _ n a0 H1 H4 F3) as (rc & tbl & a1 & -> & Hsh & _ & Hfull & _).
  destruct (Z.eqb_spec rc NGX_OK) as [->|Hrc]; cbn [negb].
  2: { apply call_some; [by split|]. intros Hr. split; cbn; auto. }
  destruct (alloc a1) as [[|] a2]; cbn [negb]; apply call_some; try done; try (by split); [|intros _; split; cbn; auto].
  split; cbn; try done. apply Forall_app. split; [done|]. by repeat constructor.
Qed.

Lemma add_head_ok ha skip n data v a : (1 < length data)%nat -> arrays_ok ha -> arrays_full ha -> call_ok (add_head ha skip n data v a).
Proof.
  intros Hd [H1 H2 H3 H4 H5 H6 H7] [F1 F2 F3]. unfold add_head.
  assert (He : exists rc tbl a1, (if (skip =? 1)%nat then add_name true (ha_keys_hash ha) (ngx_hash_key n mod ha_hsize ha) n a
      else Some (NGX_OK, ha_keys_hash ha, a)) = Some (rc, tbl, a1) /\
    names_shape (ha_hsize ha) [] tbl /\ sub_names (ha_keys_hash ha) tbl /\ (rc <> NGX_ERROR -> names_full tbl)).
  { destruct (skip =? 1)%nat.
    - destruct (add_name_shape true _ [] _ n a H1 H2 F1) as (rc & tbl & a1 & E & Hsh & Hsub & Hfull & _). rewrite app_nil_r in E.
      by exists rc, tbl, a1.
    - eexists _, _, _. split; [done|]. split_and!; try done. intros k array x E Hx. by exists array. }
  destruct He as (rc & tbl & a1 & -> & Hsh & Hsub & Hfull). apply (keys_kept _ _ tbl) in H5; [|done].
  destruct (Z.eqb_spec rc NGX_OK) as [->|Hrc]; cbn [negb].
  2: { apply call_some; [by split|]. intros Hr. split; cbn; auto. }
  destruct (alloc a1) as [[|] a2]; cbn [negb]; [|by apply call_some; [split|]]. cbn [ha_head_hash ha_hsize set_exact].
  destruct (add_name_shape true _ [] _ n a2 H1 H3 F2) as (rc & tbl2 & a3 & E & Hsh2 & _ & Hfull2 & _). rewrite app_nil_r in E. rewrite E.
  assert (Hfull' : names_full tbl) by by apply Hfull.
  destruct (Z.eqb_spec rc NGX_OK) as [->|Hrc]; cbn [negb].
  2: { apply call_some; [by split|]. intros Hr. split; cbn; auto. }
  destruct (alloc a3) as [[|] a4]; cbn [negb]; apply call_some; try done; try (by split); [|intros _; split; cbn; auto].
  split; cbn; try done. apply Forall_app. split; [done|]. constructor; [|done].
  cbn. split; [done|]. split; [done|]. destruct (length data - 1)%nat eqn:El; [lia|]. by destruct (turn_round data).
Qed.

Lemma classify_length key s : classify key = Some (KHead s) -> (1 < length key)%nat /\ (s < length key)%nat.
Proof.
  unfold classify. destruct (scan_stars key 0); [|done]. destruct (1 <? length key)%nat eqn:E1; cbn [andb].
  - apply Nat.ltb_lt in E1. destruct (nth 0 key 0 =? chr "."); [intros [= <-]; lia|].
    destruct (2 <? length key)%nat eqn:E2; cbn [andb]; [apply Nat.ltb_lt in E2|by case_match].
    destruct (_ && _); [intros [= <-]; lia|]. by repeat case_match.
  - apply Nat.ltb_ge in E1. destruct (2 <? length key)%nat eqn:E2; [apply Nat.ltb_lt in E2; lia|]. cbn [andb]. by case_match.
Qed.

(** A call for a name, with its flags and the outcomes of its allocations. *)
Record add_call := AddCall {
  ac_key : list Z;
  ac_value : Z;
  ac_wildcard : bool;
  ac_readonly : bool;
  ac_allocs : allocs;
}.

(** The calls one after the other, up to the first that runs out of memory: all
    callers stop there. *)
Fixpoint add_calls (ha : keys_arrays) (l : list add_call) : option (Z * keys_arrays) :=
  match l with
  | [] => Some (NGX_OK, ha)
  | c :: l =>
      match ngx_hash_add_key ha c.(ac_key) c.(ac_value) c.(ac_wildcard) c.(ac_readonly) c.(ac_allocs) with
      | None => None
      | Some (rc, ha, _) => if rc =? NGX_ERROR then Some (rc, ha) else add_calls ha l
      end
  end.

Lemma add_key_ok ha key v wc ro a : arrays_ok ha -> arrays_full ha -> call_ok (ngx_hash_add_key ha key v wc ro a).
Proof.
  intros H F. unfold ngx_hash_add_key. destruct (if wc then _ else _) as [[|s|]|] eqn:C; [by apply add_exact_ok| |by apply add_tail_ok|by apply call_some].
  destruct wc; [|done]. apply classify_length in C as [C1 C2]. apply add_head_ok; [|done|done]. rewrite length_app, length_map, length_take, length_drop. lia.
Qed.

(** C23: the shape of collected keys.  From an initialised
    [ngx_hash_keys_arrays_t], any calls of [ngx_hash_add_key], for any bytes as
    names, with any flags and wherever memory fails, up to the first that returns
    [NGX_ERROR], are defined: no null name is compared.  The names that have bytes
    are in the array of their own hash, below the size of the table, and every
    collected exact name is among them, with its own hash as the one to put it in a
    table by.  Unless memory ran out, no array is empty and every name has its
    bytes; a call that ran out of memory can leave an empty array, or a name with a
    length and a null pointer. *)
Theorem keys_arrays_typed small a ha a' calls :
  ngx_hash_keys_array_init small a = (Some ha, a') ->
  exists rc ha', add_calls ha calls = Some (rc, ha') /\ arrays_ok ha' /\ (rc <> NGX_ERROR -> arrays_full ha').
Proof.
  intros Hi. assert (H : arrays_ok ha /\ arrays_full ha).
  { assert (E : ha = KeysArrays (if small then 107 else 10007) [] ∅ [] ∅ [] ∅).
    { unfold ngx_hash_keys_array_init in Hi. repeat (destruct (alloc _) as [[|] ?]; [|done]). by injection Hi as <-. }
    subst ha. split; split; cbn; try done; by destruct small. }
  clear Hi. destruct H as [H F]. revert ha H F. induction calls as [|c calls IH]; intros ha H F; cbn [add_calls]; [by exists NGX_OK, ha|].
  destruct (add_key_ok ha c.(ac_key) c.(ac_value) c.(ac_wildcard) c.(ac_readonly) c.(ac_allocs) H F) as (rc & ha1 & a1 & -> & H1 & F1).
  destruct (Z.eqb_spec rc NGX_ERROR) as [->|Hrc]; [by eexists _, _|]. by apply IH; [|apply F1].
Qed.

(** Three calls, and the same with the copy of the last name's bytes failing. *)
Definition sample_calls (a : allocs) : list add_call :=
  [AddCall (lit "a.b") 16 true false []; AddCall (lit "*.c") 32 true false []; AddCall (lit ".d") 48 true false a].

Lemma keys_arrays_typed_witness : exists ha rc1 ha1 rc2 ha2,
  ngx_hash_keys_array_init true [] = (Some ha, []) /\
  add_calls ha (sample_calls []) = Some (rc1, ha1) /\ arrays_ok ha1 /\ arrays_full ha1 /\ length ha1.(ha_head) = 2%nat /\
  add_calls ha (sample_calls [true; true; false]) = Some (rc2, ha2) /\ rc2 = NGX_ERROR /\ arrays_ok ha2 /\
  ha2.(ha_keys_hash) !! (100 mod 107) = Some [NullName 1].
Proof.
  destruct (keys_arrays_typed true [] (KeysArrays 107 [] ∅ [] ∅ [] ∅) [] (sample_calls []) eq_refl) as (rc1 & ha1 & E1 & H1 & F1).
  destruct (keys_arrays_typed true [] (KeysArrays 107 [] ∅ [] ∅ [] ∅) [] (sample_calls [true; true; false]) eq_refl) as (rc2 & ha2 & E2 & H2 & _).
  exists (KeysArrays 107 [] ∅ [] ∅ [] ∅), rc1, ha1, rc2, ha2. pose proof E1 as E1'. pose proof E2 as E2'.
  vm_compute in E1', E2'. injection E1' as <- Ea1. injection E2' as <- Ea2.
  split; [reflexivity|]. split; [exact E1|]. split; [exact H1|]. split; [by apply F1|]. split; [rewrite <- Ea1; reflexivity|].
  split; [exact E2|]. split; [done|]. split; [exact H2|]. rewrite <- Ea2. vm_compute. reflexivity.
Defined.
