(* ===== verification/NgxHashKeysSpec.v ===== *)
(** * Collecting keys: what the tables are made of

    The names that [ngx_hash_add_key] accepts: a name with a wildcard in front is
    kept with its labels in the other order, with a dot at the end for a star;
    no name is accepted twice for the same table. *)

From stdpp Require Import gmap sorting.
From S2P Require Import Prelude NgxMem NgxCompare NgxHash NgxHashSpec NgxHashTable NgxHashWild NgxHashLabels NgxHashWildSpec NgxHashWildFind NgxHashKeys.

(** ** Labels with dots between them *)

Fixpoint join (ls : list (list Z)) : list Z :=
  match ls with
  | [] => []
  | [l] => l
  | l :: ls => l ++ chr "." :: join ls
  end.

(** Every label with a dot behind it. *)
Definition dotted (ls : list (list Z)) : list Z := concat (map (fun l => l ++ [chr "."]) ls).

Lemma join_cons l ls : ls <> [] -> join (l :: ls) = l ++ chr "." :: join ls.
Proof. by destruct ls. Qed.

Lemma dotted_app a b : dotted (a ++ b) = dotted a ++ dotted b.
Proof. unfold dotted. by rewrite map_app, concat_app. Qed.

Lemma join_snoc ls l : join (ls ++ [l]) = dotted ls ++ l.
Proof.
  induction ls as [|x ls IH]; [done|]. cbn [app]. rewrite join_cons by (by destruct ls). rewrite IH. unfold dotted. cbn. by rewrite <- !app_assoc.
Qed.

Lemma join_dot ls : ls <> [] -> join ls ++ [chr "."] = dotted ls.
Proof.
  destruct ls as [|l ls _] using rev_ind; [done|]. intros _. rewrite join_snoc, dotted_app, <- app_assoc. unfold dotted at 3. cbn. by rewrite app_nil_r.
Qed.

(** ** Turning a name round *)

(** The part of the name that was gone through. *)
Lemma turn_loop_spec data i : forall len p cur others,
  (i < length data)%nat -> drop (S i) data = cur ++ match others with [] => [] | _ => chr "." :: join others end ->
  split (drop (S i) data) = cur :: others -> len = length cur -> p = dotted (rev others) ->
  exists cur' others', split (drop 1 data) = cur' :: others' /\ turn_loop i data len p = (dotted (rev others'), length cur') /\
    take (length cur') (drop 1 data) = cur'.
Proof.
  induction i as [|i IH]; intros len p cur others Hi Hd Hs -> ->; cbn [turn_loop].
  { exists cur, others. split; [done|]. split; [done|]. rewrite Hd. by rewrite take_app_length. }
  destruct (lookup_lt_is_Some_2 data (S i) Hi) as [c Hc].
  rewrite (nth_lookup_Some _ _ _ _ Hc). pose proof (drop_S data c (S i) Hc) as Hds.
  destruct (Z.eqb_spec c (chr ".")) as [->|Hne].
  - apply (IH 0%nat _ [] (cur :: others)); [lia| | |done|].
    + rewrite Hds. destruct others; [by rewrite Hd, app_nil_r|]. rewrite Hd, (join_cons cur) by done. done.
    + rewrite Hds. cbn [split]. by rewrite Hs.
    + cbn [rev]. rewrite dotted_app, Hd, take_app_length. unfold dotted at 3. cbn. by rewrite app_nil_r.
  - apply (IH (S (length cur)) _ (c :: cur) others); [lia| | |done|done].
    + rewrite Hds, Hd. done.
    + rewrite Hds. cbn [split]. by rewrite (proj2 (Z.eqb_neq c _) Hne), Hs.
Qed.

Lemma turn_round_spec c name : name <> [] -> turn_round (c :: name) = join (rev (split name)).
Proof.
  intros Hne. unfold turn_round. cbn [length]. rewrite Nat.sub_succ, Nat.sub_0_r.
  destruct (turn_loop_spec (c :: name) (length name) 0 [] [] []) as (cur & others & Hs & -> & Ht).
  { cbn. lia. }
  { cbn. by rewrite drop_all. }
  { cbn. by rewrite drop_all. }
  { done. }
  { done. }
  cbn [drop] in *. rewrite drop_0 in *. rewrite Hs. cbn [rev]. rewrite join_snoc.
  destruct cur as [|x cur]; cbn [length Nat.eqb]; [by rewrite app_nil_r|]. cbn [length] in Ht. by rewrite Ht.
Qed.

Lemma turn_head1 name : name <> [] -> turn_round (chr "." :: name) = join (rev (split name)).
Proof. apply turn_round_spec. Qed.

Lemma turn_head2 name : turn_round (chr "*" :: chr "." :: name) = join (rev (split name)) ++ [chr "."].
Proof.
  rewrite turn_round_spec by done. change (split (chr "." :: name)) with ([] :: split name). cbn [rev]. rewrite join_snoc, app_nil_r, join_dot; [done|].
  intros E. apply (f_equal (@rev _)) in E. rewrite rev_involutive in E. by apply (split_nonempty name).
Qed.

(** ** Names with wildcards *)

(** [n], [.n], [*.n] and [n.*]. *)
Inductive pattern := PExact (n : list Z) | PDot (n : list Z) | PStar (n : list Z) | PTail (n : list Z).

(** A name in lower case, of labels that are not empty, without a star. *)
Definition good_name (n : list Z) : Prop :=
  Forall (fun c => name_char_ok c /\ c <> chr "*") n /\ Forall (fun l => l <> []) (split n).

Definition pattern_name (p : pattern) : list Z := match p with PExact n | PDot n | PStar n | PTail n => n end.

(** Which hosts a pattern is for. *)
Definition matches (p : pattern) (host : list Z) : Prop :=
  match p with
  | PExact n => host = n
  | PDot n => host = n \/ exists q, host = q ++ chr "." :: n
  | PStar n => exists q, host = q ++ chr "." :: n
  | PTail n => exists q, host = n ++ chr "." :: q
  end.

Definition is_head (p : pattern) : bool := match p with PDot _ | PStar _ => true | _ => false end.
Definition is_tail (p : pattern) : bool := match p with PTail _ => true | _ => false end.

(** The text a pattern is kept as. *)
Definition head_text (p : pattern) : list Z :=
  match p with
  | PStar n => join (rev (split n)) ++ [chr "."]
  | p => join (rev (split (pattern_name p)))
  end.

(** *** Splitting and joining *)

Lemma split_dotfree n : Forall (fun l => first_label l = None) (split n).
Proof.
  induction n as [|c n IH]; cbn; [by repeat constructor|]. destruct (c =? chr ".") eqn:E; [by constructor|].
  destruct (split n) as [|l ls]; [by repeat constructor; cbn; rewrite E|]. inversion_clear IH as [|? ? Hl Hls].
  constructor; [|done]. cbn. by rewrite E, Hl.
Qed.

Lemma join_split n : join (split n) = n.
Proof.
  induction n as [|c n IH]; [done|]. cbn [split]. pose proof (split_nonempty n) as Hne.
  destruct (Z.eqb_spec c (chr ".")) as [->|]; [rewrite join_cons by done; by rewrite IH|].
  destruct (split n) as [|l ls]; [done|]. destruct ls as [|l' ls]; cbn [join] in *; [by rewrite IH|]. rewrite <- IH. done.
Qed.

Lemma join_app a b : a <> [] -> b <> [] -> join (a ++ b) = join a ++ chr "." :: join b.
Proof.
  intros Ha Hb. induction a as [|x a IH]; [done|]. destruct a as [|y a]; [by rewrite <- join_cons|].
  cbn [app]. rewrite join_cons by done. change (y :: a ++ b) with ((y :: a) ++ b). rewrite IH by done. rewrite (join_cons x) by done. by rewrite <- app_assoc.
Qed.

Lemma split_suffix host n :
  split n `suffix_of` split host <-> host = n \/ exists q, host = q ++ chr "." :: n.
Proof.
  split.
  - intros [xs E]. destruct xs as [|x xs].
    + left. rewrite <- (join_split host), <- (join_split n). by f_equal.
    + right. exists (join (x :: xs)). rewrite <- (join_split host), E, join_app, join_split; [done|done|apply split_nonempty].
  - intros [->|[q ->]]; [done|]. rewrite split_app. by exists (split q).
Qed.

Lemma split_suffix_more host n :
  split n `suffix_of` split host /\ (length (split n) < length (split host))%nat <-> exists q, host = q ++ chr "." :: n.
Proof.
  split.
  - intros [H Hl]. apply split_suffix in H as [->|H]; [lia|done].
  - intros [q ->]. rewrite split_app, length_app. split; [by exists (split q)|].
    pose proof (split_nonempty q). destruct (split q); [done|]. cbn. lia.
Qed.

Lemma split_prefix_more host n :
  split n `prefix_of` split host /\ (length (split n) < length (split host))%nat <-> exists q, host = n ++ chr "." :: q.
Proof.
  split.
  - intros [[ys E] Hl]. destruct ys as [|y ys]; [rewrite E, app_nil_r in Hl; lia|]. exists (join (y :: ys)).
    rewrite <- (join_split host), E, join_app, join_split; [done|apply split_nonempty|done].
  - intros [q ->]. rewrite split_app, length_app. split; [by exists (split q)|].
    pose proof (split_nonempty q). destruct (split q); [done|]. cbn. lia.
Qed.

(** *** Matching *)

Lemma join_nonempty ls : ls <> [] -> Forall (fun l => l <> []) ls -> join ls <> [].
Proof. destruct ls as [|l [|l' ls]]; intros Hn H; [done|by inversion_clear H|]. inversion_clear H as [|? ? Hl _]. by destruct l. Qed.

Lemma match_head_more l t h hs : first_label l = None -> t <> [] ->
  match_head (l ++ chr "." :: t) (h :: hs) = if beq l h then S <$> match_head t hs else None.
Proof. intros Hl Ht. cbn [match_head]. rewrite cut_app by done. by destruct t. Qed.

Lemma match_tail_more l t h hs : first_label l = None -> hs <> [] ->
  match_tail (l ++ chr "." :: t) (h :: hs) = if beq l h then S <$> match_tail t hs else None.
Proof. intros Hl Hh. cbn [match_tail]. rewrite cut_app by done. by destruct hs. Qed.

(** A first label, and the others by induction. *)
Lemma prefix_step (l h : list Z) ls hs (m : option nat) (P : Prop) k :
  (forall k, m = Some k <-> ls `prefix_of` hs /\ P /\ k = length ls) ->
  (if beq l h then S <$> m else None) = Some k <-> (l :: ls) `prefix_of` (h :: hs) /\ P /\ k = S (length ls).
Proof.
  intros IH. destruct (beq l h) eqn:B.
  - apply beq_eq in B as ->. split.
    + intros Hm. apply fmap_Some in Hm as (k' & Hm & ->). apply IH in Hm as (Hp & HP & ->). split; [by apply prefix_cons|done].
    + intros (Hp & HP & ->). apply prefix_cons_inv_2 in Hp. by rewrite (proj2 (IH _) (conj Hp (conj HP eq_refl))).
  - split; [done|]. intros (Hp & _). apply prefix_cons_inv_1 in Hp as ->. by rewrite beq_refl in B.
Qed.

Definition labels_ok (ls : list (list Z)) : Prop := ls <> [] /\ Forall (fun l => first_label l = None /\ l <> []) ls.

Lemma labels_cons l l' ls : labels_ok (l :: l' :: ls) -> first_label l = None /\ labels_ok (l' :: ls) /\ join (l' :: ls) <> [].
Proof.
  intros [_ H]. inversion_clear H as [|? ? [Hl _] H']. split; [done|]. split; [by split|]. apply join_nonempty; [done|].
  eapply Forall_impl; [exact H'|]. by intros ? [_ ?].
Qed.

Lemma labels_one l : labels_ok [l] -> first_label l = None.
Proof. intros [_ H]. by inversion_clear H as [|? ? [Hl _] _]. Qed.

Lemma match_head_join ls : forall hs k, labels_ok ls ->
  match_head (join ls) hs = Some k <-> ls `prefix_of` hs /\ True /\ k = length ls.
Proof.
  induction ls as [|l ls IH]; intros hs k Hok; [by destruct Hok|].
  destruct hs as [|h hs]; [split; [done|]; intros [[? ?] _]; discriminate|]. destruct ls as [|l' ls].
  - apply labels_one in Hok. cbn [match_head join]. rewrite cut_alone by done.
    apply (prefix_step l h [] hs (Some 0%nat) True). intros k'. split; [intros [= <-]; split; [apply prefix_nil|done]|by intros (_ & _ & ->)].
  - apply labels_cons in Hok as (Hl & Hok & Hne). rewrite join_cons, match_head_more by done. apply prefix_step. intros k'. by apply IH.
Qed.

Lemma match_head_dotted ls : forall hs k, labels_ok ls ->
  match_head (join ls ++ [chr "."]) hs = Some k <-> ls `prefix_of` hs /\ (length ls < length hs)%nat /\ k = length ls.
Proof.
  induction ls as [|l ls IH]; intros hs k Hok; [by destruct Hok|].
  destruct hs as [|h hs]; [split; [done|]; intros [[? ?] _]; discriminate|]. cbn [length]. destruct ls as [|l' ls].
  - apply labels_one in Hok. cbn [match_head join]. rewrite cut_app by done.
    replace (if beq l h && negb (is_nil hs) then Some 1%nat else None) with (if beq l h then S <$> (if is_nil hs then None else Some 0%nat) else None)
      by (by destruct (beq l h), hs).
    apply prefix_step. intros k'. destruct hs; cbn; [split; [done|]; lia|].
    split; [intros [= <-]; split; [apply prefix_nil|lia]|by intros (_ & _ & ->)].
  - apply labels_cons in Hok as (Hl & Hok & Hne). rewrite join_cons, <- app_assoc by done. cbn [app]. rewrite match_head_more by (done || by destruct (join (l' :: ls))).
    apply prefix_step. intros k'. rewrite (IH hs k' Hok). cbn [length]. split; intros (? & ? & ?); (split; [done|lia]).
Qed.

Lemma match_tail_join ls : forall hs k, labels_ok ls ->
  match_tail (join ls) hs = Some k <-> ls `prefix_of` hs /\ (length ls < length hs)%nat /\ k = length ls.
Proof.
  induction ls as [|l ls IH]; intros hs k Hok; [by destruct Hok|].
  destruct hs as [|h hs]; [split; [done|]; intros [[? ?] _]; discriminate|]. destruct hs as [|h' hs]; [split; [done|]; cbn [length]; lia|].
  set (hs' := h' :: hs) in *. cbn [length]. destruct ls as [|l' ls].
  - apply labels_one in Hok. cbn [match_tail join]. cbn [is_nil]. rewrite cut_alone by done.
    apply (prefix_step l h [] hs' (Some 0%nat)). intros k'. split; [intros [= <-]; split; [apply prefix_nil|cbn; lia]|by intros (_ & _ & ->)].
  - apply labels_cons in Hok as (Hl & Hok & Hne). rewrite join_cons, match_tail_more by done.
    apply prefix_step. intros k'. rewrite (IH hs' k' Hok). cbn [length]. split; intros (? & ? & ?); (split; [done|lia]).
Qed.

Lemma good_labels n : good_name n -> labels_ok (split n) /\ labels_ok (rev (split n)).
Proof.
  intros [_ Hne]. assert (H : Forall (fun l => first_label l = None /\ l <> []) (split n)) by (apply Forall_and; split; [apply split_dotfree|done]).
  pose proof (split_nonempty n) as Hs. split; (split; [|]); [done|done| |by apply Forall_rev].
  intros E. apply (f_equal (@rev _)) in E. by rewrite rev_involutive in E.
Qed.

Lemma rev_prefix_suffix {A} (a b : list A) : rev a `prefix_of` rev b <-> a `suffix_of` b.
Proof.
  split; intros [x E].
  - exists (rev x). by rewrite <- (rev_involutive b), E, rev_app_distr, rev_involutive.
  - exists (rev x). by rewrite E, rev_app_distr.
Qed.

Definition pattern_depth (p : pattern) : nat := length (split (pattern_name p)).

(** A kept name matches the labels of a host, from the last one on, as its
    pattern does. *)
Lemma head_match p host k : is_head p = true -> good_name (pattern_name p) ->
  match_head (head_text p) (rev (split host)) = Some k <-> matches p host /\ k = pattern_depth p.
Proof.
  intros Hp Hg. apply good_labels in Hg as [_ Hg]. destruct p as [n|n|n|n]; cbn [is_head pattern_name head_text matches pattern_depth] in *; [done| | |done].
  - rewrite match_head_join, rev_prefix_suffix, split_suffix, length_rev by done. naive_solver.
  - rewrite match_head_dotted, rev_prefix_suffix, !length_rev by done. rewrite <- split_suffix_more. naive_solver.
Qed.

Lemma tail_match n host k : good_name n -> match_tail n (split host) = Some k <-> matches (PTail n) host /\ k = length (split n).
Proof.
  intros Hg. apply good_labels in Hg as [Hg _]. rewrite <- (join_split n) at 1. rewrite match_tail_join by done. cbn [matches]. rewrite <- split_prefix_more. naive_solver.
Qed.
