(* ===== verification/NgxHashCollect.v ===== *)
(** * Collecting keys: which names are kept

    An abstract account of [ngx_hash_add_key]: names that are taken, for the
    exact table and for those with a wildcard in front and at the end, and the
    patterns that were kept, with their values.  [add_key_collects] says that
    the arrays of the code follow it. *)

From stdpp Require Import gmap.
From S2P Require Import Prelude NgxMem NgxCompare NgxHash NgxHashSpec NgxHashTable NgxHashWild NgxHashLabels NgxHashWildSpec NgxHashWildFind NgxHashKeys NgxHashKeysSpec.

(** ** The account *)

(** What a configured name stands for. *)
Definition pattern_of (key : list Z) : option pattern :=
  match classify key with
  | None => None
  | Some KExact => Some (PExact (map ngx_tolower key))
  | Some (KHead 1) => Some (PDot (map ngx_tolower (drop 1 key)))
  | Some (KHead _) => Some (PStar (map ngx_tolower (drop 2 key)))
  | Some KTail => Some (PTail (map ngx_tolower (take (length key - 2) key)))
  end.

Definition good_pattern (p : pattern) : Prop :=
  match p with
  | PExact n => nonzero n /\ map ngx_tolower n = n
  | p => good_name (pattern_name p)
  end.

Record taken := Taken {
  t_exact : list (list Z);
  t_head : list (list Z);
  t_tail : list (list Z);
}.

(** Whether a pattern is kept, and the names taken after it.  A name with a dot
    in front takes the exact one before its own conflict is seen. *)
Definition takes (t : taken) (p : pattern) : bool * taken :=
  let '(Taken e h l) := t in
  match p with
  | PExact n => if bool_decide (n ∈ e) then (false, t) else (true, Taken (n :: e) h l)
  | PDot n =>
      if bool_decide (n ∈ e) then (false, t)
      else if bool_decide (n ∈ h) then (false, Taken (n :: e) h l)
      else (true, Taken (n :: e) (n :: h) l)
  | PStar n => if bool_decide (n ∈ h) then (false, t) else (true, Taken e (n :: h) l)
  | PTail n => if bool_decide (n ∈ l) then (false, t) else (true, Taken e h (n :: l))
  end.

(** All of them in order. *)
Fixpoint collect_names (t : taken) (ps : list (pattern * Z)) : list (pattern * Z) :=
  match ps with
  | [] => []
  | (p, v) :: ps => let '(keep, t) := takes t p in if keep then (p, v) :: collect_names t ps else collect_names t ps
  end.

(** ** Names in the arrays *)

Section arrays.
Context (hsize : Z).

(** A name with its bytes, none of them zero. *)
Definition slot_nonzero (x : name_slot) : Prop := match x with Name x => nonzero x | NullName _ => False end.

Record holds (sfx : list Z) (tbl : gmap Z (list name_slot)) (set : list (list Z)) : Prop := {
  hold_in : forall n, Name (n ++ sfx) ∈ default [] (tbl !! (ngx_hash_key n mod hsize)) <-> n ∈ set;
  hold_nz : forall k array, tbl !! k = Some array -> Forall slot_nonzero array;
}.

Lemma holds_none sfx : holds sfx ∅ [].
Proof. split; [intros n; rewrite lookup_empty; cbn; split; intros H; inversion H|intros k array; by rewrite lookup_empty]. Qed.

Lemma has_name_in names name : nonzero name -> Forall slot_nonzero names ->
  has_name names name = Some (bool_decide (Name name ∈ names)).
Proof.
  intros Hn. induction 1 as [|x names Hx _ IH]; [done|]. destruct x as [x|]; [|done]. cbn [has_name slot_nonzero] in *. rewrite IH.
  assert (E : (length name =? length x)%nat && (ngx_strncmp name x (length name) =? 0) = bool_decide (Name name = Name x)).
  { apply Bool.eq_true_iff_eq. rewrite andb_true_iff, Nat.eqb_eq, Z.eqb_eq, bool_decide_eq_true. split; [|intros [= ->]; split; [done|by apply strncmp_prefix, take_ge]].
    intros [El E]. rewrite El in E. apply strncmp_prefix in E; [|done]. rewrite <- El, take_ge in E by done. by rewrite E. }
  rewrite E. transitivity (Some (bool_decide (Name name = Name x) || bool_decide (Name name ∈ names))); [by destruct (bool_decide (Name name = Name x))|].
  f_equal. apply Bool.eq_true_iff_eq. rewrite orb_true_iff, !bool_decide_eq_true, elem_of_cons. done.
Qed.

Lemma add_name_spec sfx tbl set copy n a : holds sfx tbl set -> nonzero (n ++ sfx) ->
  exists rc tbl' a', add_name copy tbl (ngx_hash_key n mod hsize) (n ++ sfx) a = Some (rc, tbl', a') /\ went a a' /\
    (rc = NGX_BUSY /\ n ∈ set /\ tbl' = tbl \/ rc = NGX_ERROR /\ ~ no_oom a \/
     rc = NGX_OK /\ n ∉ set /\ holds sfx tbl' (n :: set)).
Proof.
  intros [Hin Hnz] Hn. unfold add_name. set (array := default [] (tbl !! _)).
  assert (Hz : Forall slot_nonzero array) by (unfold array; destruct (tbl !! _) eqn:E; [by eapply Hnz|constructor]).
  rewrite has_name_in by done. destruct (bool_decide_reflect (Name (n ++ sfx) ∈ array)) as [H|H].
  { eexists _, _, _. split; [done|]. split; [by intros ?|]. left. split; [done|]. split; [by apply Hin|done]. }
  set (q1 := match tbl !! _ with Some _ => _ | None => _ end). destruct q1 as [ok1 a1] eqn:E1.
  assert (W1 : went a a1 /\ (ok1 = false -> ~ no_oom a)).
  { unfold q1 in E1. destruct (tbl !! _); [injection E1 as <- <-; by split; [intros ?|]|by apply alloc_went]. }
  clearbody q1. clear E1 q1. destruct W1 as [W1 O1]. destruct ok1; cbn [negb]; [|eexists _, _, _; split; [done|]; split; [done|]; right; left; auto].
  destruct (alloc a1) as [ok2 a2] eqn:E2. apply alloc_went in E2 as [E2 O2]. assert (W2 : went a a2) by (intros Ha; by apply E2, W1).
  destruct ok2; cbn [negb]; [|eexists _, _, _; split; [done|]; split; [done|]; right; left; split; [done|]; intros Ha; by apply O2, W1].
  set (q3 := if copy then _ else _). destruct q3 as [ok3 a3] eqn:E3.
  assert (W3 : went a a3 /\ (ok3 = false -> ~ no_oom a)).
  { unfold q3 in E3. destruct copy; [|injection E3 as <- <-; by split]. apply alloc_went in E3 as [E3 E3']. split; [intros Ha; by apply E3, W2|].
    intros Ha Hb. by apply (E3' Ha), W2. }
  clearbody q3. clear E3 q3. destruct W3 as [W3 O3]. destruct ok3; cbn [negb]; [|eexists _, _, _; split; [done|]; split; [done|]; right; left; auto].
  eexists _, _, _. split; [done|]. split; [done|]. right. right. split; [done|]. split; [by rewrite <- Hin|]. split.
  - intros m. rewrite elem_of_cons, <- Hin. destruct (decide (ngx_hash_key n mod hsize = ngx_hash_key m mod hsize)) as [E|E].
    + rewrite E, lookup_insert_eq. cbn [from_option id]. unfold id. rewrite elem_of_app, list_elem_of_singleton. unfold array. rewrite E.
      split; [intros [?|[= Em]]; [by right|left; by apply app_inv_tail in Em]|].
      intros [->|?]; [by right|by left].
    + rewrite lookup_insert_ne by done. split; [by right|]. intros [->|?]; done.
  - intros k arr. rewrite lookup_insert_Some. intros [[_ <-]|[_ ?]]; [|by eapply Hnz]. apply Forall_app. by repeat constructor.
Qed.

(** ** One name *)

Definition exact_key (e : pattern * Z) : option hash_key :=
  match e.1 with PExact n => Some (HashKey n false (ngx_hash_key n) e.2) | _ => None end.
Definition head_key (e : pattern * Z) : option hash_key :=
  if is_head e.1 then Some (HashKey (head_text e.1) false 0 e.2) else None.
Definition tail_key (e : pattern * Z) : option hash_key :=
  match e.1 with PTail n => Some (HashKey n false 0 e.2) | _ => None end.

(** The arrays follow the account. *)
Record collected (ha : keys_arrays) (t : taken) (kept : list (pattern * Z)) : Prop := {
  co_hsize : ha.(ha_hsize) = hsize;
  co_exact : holds [] ha.(ha_keys_hash) t.(t_exact);
  co_head : holds [] ha.(ha_head_hash) t.(t_head);
  co_tail : holds [chr "."] ha.(ha_tail_hash) t.(t_tail);
  co_keys : ha.(ha_keys) = omap exact_key kept;
  co_heads : ha.(ha_head) = omap head_key kept;
  co_tails : ha.(ha_tail) = omap tail_key kept;
}.

Lemma classify_head key s : classify key = Some (KHead s) ->
  (s = 1%nat /\ key = chr "." :: drop 1 key) \/ (s = 2%nat /\ key = chr "*" :: chr "." :: drop 2 key).
Proof.
  unfold classify. destruct (scan_stars key 0); [|done].
  destruct key as [|c0 key]; [cbn; by destruct (negb _)|]. destruct ((1 <? _)%nat && _) eqn:E1.
  { intros [= <-]. left. apply andb_true_iff in E1 as [_ E1]. apply Z.eqb_eq in E1. cbn in E1. by rewrite E1. }
  destruct ((2 <? _)%nat && _ && _) eqn:E2.
  { intros [= <-]. right. rewrite !andb_true_iff, !Z.eqb_eq in E2. destruct E2 as [[E2 E0] E3]. cbn in E0, E3. subst c0.
    destruct key as [|c1 key]; [done|]. cbn in E3. by rewrite E3. }
  by repeat case_match.
Qed.

Lemma good_nonzero n : good_name n -> nonzero n.
Proof. intros [H _]. eapply Forall_impl; [exact H|]. intros c [[Hc _] _]. lia. Qed.

Lemma good_nonempty n : good_name n -> n <> [].
Proof. intros [_ H] ->. cbn in H. by inversion_clear H. Qed.

Lemma cpystrn_name n r : nonzero n -> take (length n) (ngx_cpystrn (n ++ r) (S (length n))) = n.
Proof.
  intros H. cbn [ngx_cpystrn]. induction H as [|c n Hc _ IH]; [done|]. cbn. rewrite (proj2 (Z.eqb_neq c 0)) by done. cbn. by rewrite IH.
Qed.

(** What one call does to the account. *)
Definition follows (ha : keys_arrays) (t : taken) (kept : list (pattern * Z)) (p : pattern) (v : Z) (a : allocs)
    (r : option (Z * keys_arrays * allocs)) : Prop :=
  exists rc ha' a', r = Some (rc, ha', a') /\
  went a a' /\
  (rc = NGX_ERROR /\ ~ no_oom a \/
   let '(keep, t') := takes t p in
   rc = (if keep then NGX_OK else NGX_BUSY) /\ collected ha' t' (if keep then kept ++ [(p, v)] else kept)).

Lemma add_exact_follows ha t kept n v a : collected ha t kept -> nonzero n -> follows ha t kept (PExact n) v a (add_exact ha n v a).
Proof.
  intros [H1 He Hh Ht Hk Hd Hl] Hn. unfold add_exact, follows. rewrite H1. destruct t as [e h l]. cbn [t_exact t_head t_tail takes] in *.
  destruct (add_name_spec _ _ _ false n a He) as (rc & tbl & a1 & E & W & Hr); [by rewrite app_nil_r|]. rewrite app_nil_r in E. rewrite E.
  destruct Hr as [(-> & Hin & ->)|[[-> Ho]|(-> & Hni & Ht')]]; cbn [Z.eqb Pos.eqb negb].
  - do 3 eexists. split; [done|]. split; [done|]. right. rewrite bool_decide_eq_true_2 by done. split; [done|]. by split.
  - do 3 eexists. split; [done|]. split; [done|]. by left.
  - rewrite bool_decide_eq_false_2 by done. destruct (alloc a1) as [ok a2] eqn:E2. apply alloc_went in E2 as [W2 O2].
    destruct ok; cbn [negb]; (do 3 eexists; split; [done|]; split; [by eapply went_trans|]).
    + right. split; [done|]. split; cbn; rewrite ?omap_app; cbn; rewrite ?app_nil_r; try done. by rewrite Hk.
    + left. split; [done|]. eapply went_oom; [exact W|by apply O2].
Qed.

Lemma add_tail_follows ha t kept n v a : collected ha t kept -> good_name n -> follows ha t kept (PTail n) v a (add_tail ha n v a).
Proof.
  intros [H1 He Hh Ht Hk Hd Hl] Hg. apply good_nonzero in Hg. unfold add_tail, follows. rewrite H1. destruct t as [e h l]. cbn [t_exact t_head t_tail takes] in *.
  destruct (alloc a) as [ok a0] eqn:E0. apply alloc_went in E0 as [W0 O0].
  destruct ok; cbn [negb]; [|do 3 eexists; split; [done|]; split; [done|left; split; [done|by apply O0]]].
  destruct (add_name_spec _ _ _ true n a0 Ht) as (rc & tbl & a1 & -> & W & Hr); [apply Forall_app; by repeat constructor|].
  assert (W01 : went a a1) by by eapply went_trans.
  destruct Hr as [(-> & Hin & ->)|[[-> Ho]|(-> & Hni & Ht')]]; cbn [Z.eqb Pos.eqb negb].
  - do 3 eexists. split; [done|]. split; [done|]. right. rewrite bool_decide_eq_true_2 by done. split; [done|]. by split.
  - do 3 eexists. split; [done|]. split; [done|]. left. split; [done|exact (went_oom _ _ W0 Ho)].
  - rewrite bool_decide_eq_false_2 by done. destruct (alloc a1) as [ok a2] eqn:E2. apply alloc_went in E2 as [W2 O2].
    destruct ok; cbn [negb]; (do 3 eexists; split; [done|]; split; [by eapply went_trans|]).
    + right. split; [done|]. split; cbn; rewrite ?omap_app; cbn; rewrite ?app_nil_r; try done. rewrite Hl. do 3 f_equal. by apply cpystrn_name.
    + left. split; [done|]. eapply went_oom; [exact W01|by apply O2].
Qed.

(** The second part for a wildcard in front. *)
Definition head_part (ha : keys_arrays) (name data : list Z) (value : Z) (a : allocs) : option (Z * keys_arrays * allocs) :=
  let '(ok, a) := alloc a in
  if negb ok then Some (NGX_ERROR, ha, a)
  else
    match add_name true ha.(ha_head_hash) (ngx_hash_key name mod ha.(ha_hsize)) name a with
    | None => None
    | Some (rc, hash, a) =>
        if negb (rc =? NGX_OK) then Some (rc, set_head ha hash, a)
        else
          let '(ok, a) := alloc a in
          let ha' key := KeysArrays ha.(ha_hsize) ha.(ha_keys) ha.(ha_keys_hash) (ha.(ha_head) ++ key) hash ha.(ha_tail) ha.(ha_tail_hash) in
          if negb ok then Some (NGX_ERROR, ha' [], a)
          else Some (NGX_OK, ha' [HashKey (take (length data - 1) (turn_round data ++ [0])) false 0 value], a)
    end.

Lemma add_head_parts ha skip name data v a : add_head ha skip name data v a =
  let k := ngx_hash_key name mod ha.(ha_hsize) in
  match (if (skip =? 1)%nat then add_name true ha.(ha_keys_hash) k name a else Some (NGX_OK, ha.(ha_keys_hash), a)) with
  | None => None
  | Some (rc, exact, a) =>
      if negb (rc =? NGX_OK) then Some (rc, set_exact ha exact, a) else head_part (set_exact ha exact) name data v a
  end.
Proof.
  unfold add_head, head_part, set_exact, set_head. cbn [ha_hsize ha_head_hash ha_keys ha_keys_hash ha_head ha_tail ha_tail_hash].
  cbv zeta. destruct (if (_ =? _)%nat then _ else _) as [[[rc exact] a1]|]; [|done]. destruct (negb _); [done|].
  destruct (alloc a1) as [[|] a2]; cbn [negb]; [|done]. destruct (add_name _ _ _ _ a2) as [[[rc2 hash] a3]|]; [|done]. destruct (negb _); [done|].
  destruct (alloc a3) as [[|] a4]; cbn [negb]; [done|]. by rewrite app_nil_r.
Qed.

Lemma head_part_follows ha t kept p data v a :
  collected ha t kept -> is_head p = true -> good_name (pattern_name p) -> turn_round data = head_text p -> length data = S (length (head_text p)) ->
  exists rc ha' a', head_part ha (pattern_name p) data v a = Some (rc, ha', a') /\
  went a a' /\
  (rc = NGX_ERROR /\ ~ no_oom a \/
   if bool_decide (pattern_name p ∈ t.(t_head)) then rc = NGX_BUSY /\ collected ha' t kept
   else rc = NGX_OK /\ collected ha' (Taken t.(t_exact) (pattern_name p :: t.(t_head)) t.(t_tail)) (kept ++ [(p, v)])).
Proof.
  intros [H1 He Hh Ht Hk Hd Hl] Hp Hg Htr Hlen. apply good_nonzero in Hg. unfold head_part. rewrite H1.
  destruct (alloc a) as [ok a0] eqn:E0. apply alloc_went in E0 as [W0 O0].
  destruct ok; cbn [negb]; [|do 3 eexists; split; [done|]; split; [done|left; split; [done|by apply O0]]].
  destruct (add_name_spec _ _ _ true (pattern_name p) a0 Hh) as (rc & tbl & a1 & E & W & Hr); [by rewrite app_nil_r|]. rewrite app_nil_r in E. rewrite E.
  assert (W01 : went a a1) by by eapply went_trans.
  destruct Hr as [(-> & Hin & ->)|[[-> Ho]|(-> & Hni & Ht')]]; cbn [Z.eqb Pos.eqb negb].
  - do 3 eexists. split; [done|]. split; [done|]. right. rewrite bool_decide_eq_true_2 by done. split; [done|]. by split.
  - do 3 eexists. split; [done|]. split; [done|]. left. split; [done|exact (went_oom _ _ W0 Ho)].
  - rewrite bool_decide_eq_false_2 by done. destruct (alloc a1) as [ok a2] eqn:E2. apply alloc_went in E2 as [W2 O2].
    destruct ok; cbn [negb]; (do 3 eexists; split; [done|]; split; [by eapply went_trans|]).
    + right. split; [done|]. assert (Hxk : exact_key (p, v) = None /\ tail_key (p, v) = None) by (by destruct p). destruct Hxk as [X1 X2].
      split; cbn; rewrite ?omap_app; cbn; rewrite ?X1, ?X2, ?app_nil_r; try done.
      rewrite Hd. unfold head_key at 3. cbn [fst snd]. rewrite Hp, Htr. do 3 f_equal. rewrite take_app_le by lia. apply take_ge. lia.
    + left. split; [done|]. eapply went_oom; [exact W01|by apply O2].
Qed.

Lemma dotted_rev_length ls : length (dotted (rev ls)) = length (dotted ls).
Proof.
  induction ls as [|l ls IH]; [done|]. cbn [rev]. rewrite dotted_app, length_app, IH. change (l :: ls) with ([l] ++ ls). rewrite dotted_app, length_app. lia.
Qed.

Lemma join_length ls : ls <> [] -> S (length (join ls)) = length (dotted ls).
Proof. intros H. rewrite <- join_dot by done. rewrite length_app. cbn. lia. Qed.

Lemma turned_length n : length (join (rev (split n))) = length n.
Proof.
  pose proof (split_nonempty n) as Hs. assert (Hr : rev (split n) <> []) by (intros E; apply (f_equal (@rev _)) in E; by rewrite rev_involutive in E).
  apply join_length in Hr as Hl. apply join_length in Hs as Hl'. rewrite dotted_rev_length in Hl. rewrite join_split in Hl'. lia.
Qed.

Lemma add_dot_follows ha t kept n v a : collected ha t kept -> good_name n -> follows ha t kept (PDot n) v a (add_head ha 1 n (chr "." :: n) v a).
Proof.
  intros Hc Hg. pose proof Hc as [H1 He Hh Ht Hk Hd Hl]. rewrite add_head_parts, H1. cbn [Nat.eqb]. cbv zeta.
  destruct (add_name_spec _ _ _ true n a He) as (rc & tbl & a1 & E & W & Hr); [rewrite app_nil_r; by apply good_nonzero|]. rewrite app_nil_r in E. rewrite E.
  destruct t as [e h l]. unfold follows. cbn [takes t_exact] in *.
  destruct Hr as [(-> & Hin & ->)|[[-> Ho]|(-> & Hni & Ht')]]; cbn [Z.eqb Pos.eqb negb].
  - do 3 eexists. split; [done|]. split; [done|]. right. rewrite bool_decide_eq_true_2 by done. by split.
  - do 3 eexists. split; [done|]. split; [done|]. by left.
  - rewrite bool_decide_eq_false_2 by done.
    destruct (head_part_follows (set_exact ha tbl) (Taken (n :: e) h l) kept (PDot n) (chr "." :: n) v a1) as (rc & ha' & a' & E' & W' & HP);
      [by split|done|done|by apply turn_head1, good_nonempty|cbn [length head_text]; by rewrite turned_length|].
    cbn [pattern_name] in E'. rewrite E'. do 3 eexists. split; [done|].
    split; [by eapply went_trans|]. destruct HP as [[-> Ho]|HP]; [left; split; [done|by eapply went_oom]|right].
    cbn [t_head pattern_name] in HP. by destruct (bool_decide (n ∈ h)).
Qed.

Lemma add_star_follows ha t kept n v a : collected ha t kept -> good_name n ->
  follows ha t kept (PStar n) v a (add_head ha 2 n (chr "*" :: chr "." :: n) v a).
Proof.
  intros Hc Hg. rewrite add_head_parts. cbn [Nat.eqb Z.eqb negb]. cbv zeta.
  assert (Eh : set_exact ha (ha_keys_hash ha) = ha) by by destruct ha. rewrite Eh.
  destruct (head_part_follows ha t kept (PStar n) (chr "*" :: chr "." :: n) v a) as (rc & ha' & a' & E' & W' & HP);
    [done|done|done|by apply turn_head2|cbn [length head_text]; rewrite length_app, turned_length; cbn; lia|].
  cbn [pattern_name] in E'. rewrite E'. do 3 eexists. split; [done|].
  split; [done|]. destruct HP as [?|HP]; [by left|right]. destruct t as [e h l]. cbn [takes t_head pattern_name] in *. by destruct (bool_decide (n ∈ h)).
Qed.

(** The arrays of the code follow the account, for every name. *)
Lemma add_key_collects ha t kept key p v a :
  collected ha t kept -> pattern_of key = Some p -> good_pattern p -> follows ha t kept p v a (ngx_hash_add_key ha key v true false a).
Proof.
  intros Hc Hp Hg. unfold ngx_hash_add_key, pattern_of in *. destruct (classify key) as [[|s|]|] eqn:C; [..|done].
  - injection Hp as <-. by apply add_exact_follows; [|apply Hg].
  - apply classify_head in C as [[-> Ek]|[-> Ek]]; injection Hp as <-; rewrite Ek; cbn [take app drop]; [by apply add_dot_follows|by apply add_star_follows].
  - injection Hp as <-. by apply add_tail_follows.
Qed.

Lemma add_key_declined ha key v a : pattern_of key = None -> ngx_hash_add_key ha key v true false a = Some (NGX_DECLINED, ha, a).
Proof. unfold ngx_hash_add_key, pattern_of. destruct (classify key) as [[|[|[|s]]|]|]; try done. Qed.
End arrays.
