(* ===== verification/NgxHashKept.v ===== *)
(** * Collecting keys: kept names make tables

    The names that are kept, sorted, satisfy what the tables with wildcards need
    ([names_ok]): they are sorted without equals, and no name is there with and
    without a dot at its end. *)

From stdpp Require Import gmap sorting.
From S2P Require Import Prelude NgxMem NgxCompare NgxHash NgxHashSpec NgxHashTable NgxHashWild NgxHashLabels NgxHashWildSpec NgxHashWildFind NgxHashKeys NgxHashKeysSpec NgxHashCollect.

(** ** The order of names *)

Lemma dns_strcmp_zero a : forall b, Forall name_char_ok a -> Forall name_char_ok b -> ngx_dns_strcmp a b = 0 <-> a = b.
Proof.
  induction a as [|c a IH]; intros [|d b] Ha Hb; [done| | |].
  - inversion_clear Hb as [|? ? [Hd Hl] _]. cbn [ngx_dns_strcmp hd tl]. rewrite Hl. change (ngx_tolower 0) with 0. zcases; split; try done; lia.
  - inversion_clear Ha as [|? ? [Hd Hl] _]. cbn [ngx_dns_strcmp hd tl]. rewrite Hl. change (ngx_tolower 0) with 0. zcases; split; try done; lia.
  - inversion_clear Ha as [|? ? [Hc Hlc] Ha']. inversion_clear Hb as [|? ? [Hd Hld] Hb'].
    cbn [ngx_dns_strcmp hd tl]. rewrite Hlc, Hld. destruct (Z.eqb_spec c d) as [->|Hne].
    + rewrite (proj2 (Z.eqb_neq d 0)) by lia. rewrite IH by done. split; [by intros ->|by intros [= ->]].
    + split; [|by intros [= ? _]]. zcases; lia.
Qed.

Lemma dns_trans a : forall b c, Forall name_char_ok a -> Forall name_char_ok b -> Forall name_char_ok c -> dns_lt a b -> dns_lt b c -> dns_lt a c.
Proof.
  induction a as [|x a IH]; intros [|y b] [|z c] Ha Hb Hc; cbn [dns_lt]; try done.
  inversion_clear Ha as [|? ? [Hx _] Ha']. inversion_clear Hb as [|? ? [Hy _] Hb']. inversion_clear Hc as [|? ? [Hz _] Hc'].
  unfold rank. destruct (Z.eqb_spec x y) as [->|]; destruct (Z.eqb_spec y z) as [->|]; try destruct (Z.eqb_spec x z) as [->|]; try done; try lia.
  by apply IH.
Qed.

Lemma dns_total a : forall b, Forall name_char_ok a -> Forall name_char_ok b -> dns_lt a b \/ a = b \/ dns_lt b a.
Proof.
  induction a as [|x a IH]; intros [|y b] Ha Hb; cbn [dns_lt]; [by right; left|by left|by right; right|].
  inversion_clear Ha as [|? ? [Hx _] Ha']. inversion_clear Hb as [|? ? [Hy _] Hb']. unfold rank. rewrite (Z.eqb_sym y x).
  destruct (Z.eqb_spec x y) as [->|Hne].
  - destruct (IH b) as [?|[->|?]]; auto.
  - zcases; lia.
Qed.

Lemma dns_strcmp_le a b : Forall name_char_ok a -> Forall name_char_ok b -> ngx_dns_strcmp a b <= 0 <-> dns_lt a b \/ a = b.
Proof. intros Ha Hb. rewrite <- dns_strcmp_lt, <- dns_strcmp_zero by done. lia. Qed.

(** ** Kept names *)

Inductive table_kind := TExact | THead | TTail.

Definition name_in (k : table_kind) (p : pattern) : option (list Z) :=
  match k, p with
  | TExact, PExact n | THead, PDot n | THead, PStar n | TTail, PTail n => Some n
  | _, _ => None
  end.

Definition taken_in (k : table_kind) (t : taken) : list (list Z) :=
  match k with TExact => t.(t_exact) | THead => t.(t_head) | TTail => t.(t_tail) end.

Lemma takes_in k t p keep t' : takes t p = (keep, t') ->
  taken_in k t ⊆ taken_in k t' /\ (keep = true -> forall n, name_in k p = Some n -> n ∉ taken_in k t /\ n ∈ taken_in k t').
Proof.
  destruct t as [e h l]. destruct p as [n|n|n|n]; cbn [takes]; repeat case_bool_decide; intros [= <- <-]; destruct k; cbn [taken_in name_in t_exact t_head t_tail];
    (split; [set_solver|]); try done; intros _ m [= <-]; set_solver.
Qed.

Lemma collect_in ps : forall t e, e ∈ collect_names t ps -> e ∈ ps.
Proof.
  induction ps as [|[p v] ps IH]; intros t e; [done|]. cbn [collect_names]. destruct (takes t p) as [[|] t']; rewrite ?elem_of_cons; [|by right; eapply IH].
  intros [->|H]; [by left|right; by eapply IH].
Qed.

Definition kept_name (k : table_kind) (e : pattern * Z) : option (list Z) := name_in k e.1.

Lemma collect_nodup k ps : forall t, NoDup (omap (kept_name k) (collect_names t ps)) /\ forall n, n ∈ omap (kept_name k) (collect_names t ps) -> n ∉ taken_in k t.
Proof.
  induction ps as [|[p v] ps IH]; intros t; [split; [constructor|by intros n H; inversion H]|]. cbn [collect_names].
  destruct (takes t p) as [keep t'] eqn:E. destruct (takes_in k _ _ _ _ E) as [Hs Hn]. destruct (IH t') as [IH1 IH2].
  destruct keep; [|split; [done|]; intros n H Ht; by apply (IH2 n H), Hs].
  cbn [omap list_omap]. change (kept_name k (p, v)) with (name_in k p). destruct (name_in k p) as [n|] eqn:N.
  - destruct (Hn eq_refl n eq_refl) as [Hni Hin]. split.
    + constructor; [|done]. intros H. by apply (IH2 n).
    + intros m. rewrite elem_of_cons. intros [->|H]; [done|]. intros Ht. by apply (IH2 m H), Hs.
  - split; [done|]. intros m H Ht. by apply (IH2 m H), Hs.
Qed.

(** ** Texts *)

Lemma split_join ls : ls <> [] -> Forall (fun l => first_label l = None) ls -> split (join ls) = ls.
Proof.
  induction ls as [|l ls IH]; intros Hn Hf; [done|]. inversion_clear Hf as [|? ? Hl Hf']. destruct ls as [|l' ls]; [by apply split_label|].
  rewrite join_cons, split_app by done. rewrite IH by done. by rewrite split_label.
Qed.

Lemma rev_nonempty {A} (l : list A) : l <> [] -> rev l <> [].
Proof. destruct l; [done|]. cbn. by destruct (rev l). Qed.

Lemma turned_inj n m : join (rev (split n)) = join (rev (split m)) -> n = m.
Proof.
  intros E. apply (f_equal split) in E. rewrite !split_join in E by (apply rev_nonempty, split_nonempty || apply Forall_rev, split_dotfree).
  apply (f_equal (@rev _)) in E. rewrite !rev_involutive in E. rewrite <- (join_split n), <- (join_split m). by f_equal.
Qed.

Lemma split_chars (P : Z -> Prop) n : Forall P n -> Forall (Forall P) (split n).
Proof.
  induction 1 as [|c n Hc _ IH]; cbn [split]; [by repeat constructor|]. destruct (c =? chr "."); [by constructor|].
  destruct (split n) as [|l ls]; [by repeat constructor|]. inversion_clear IH. by repeat constructor.
Qed.

Lemma join_chars (P : Z -> Prop) ls : P (chr ".") -> Forall (Forall P) ls -> Forall P (join ls).
Proof.
  intros Hd. induction 1 as [|l ls Hl _ IH]; [constructor|]. destruct ls; [done|]. rewrite join_cons by done. apply Forall_app. split; [done|by constructor].
Qed.

Lemma dot_ok : name_char_ok (chr ".").
Proof. by split. Qed.

Lemma name_chars n : good_name n -> Forall name_char_ok n.
Proof. intros [H _]. eapply Forall_impl; [exact H|]. by intros c [? _]. Qed.

Lemma turned_chars n : good_name n -> Forall name_char_ok (join (rev (split n))).
Proof. intros H. apply join_chars; [apply dot_ok|]. by apply Forall_rev, split_chars, name_chars. Qed.

Lemma head_text_ok p : is_head p = true -> good_name (pattern_name p) -> text_ok (head_text p).
Proof.
  intros Hp Hg. pose proof (good_nonempty _ Hg) as Hne. pose proof (turned_chars _ Hg) as Hc. pose proof (turned_length (pattern_name p)) as Hl.
  assert (Hn : join (rev (split (pattern_name p))) <> []) by (intros E; rewrite E in Hl; by destruct (pattern_name p)).
  destruct p; cbn [head_text pattern_name is_head] in *; try done. split; [by destruct (join _)|]. apply Forall_app. split; [done|]. constructor; [apply dot_ok|constructor].
Qed.

Lemma dotfree_in l : first_label l = None -> chr "." ∉ l.
Proof.
  induction l as [|c l IH]; cbn [first_label]; intros H; [by intros E; inversion E|]. rewrite elem_of_cons. destruct (Z.eqb_spec c (chr ".")); [done|].
  destruct (first_label l); [done|]. intros [E|E]; [by subst|by apply IH].
Qed.

(** A text of labels that are not empty does not end with a dot. *)
Lemma join_last ls : labels_ok ls -> last (join ls) <> Some (chr ".").
Proof.
  intros [Hne H]. destruct ls as [|l ls _] using rev_ind; [done|]. apply Forall_app in H as [_ H]. inversion_clear H as [|? ? [Hl Hl0] _].
  rewrite join_snoc, last_app. destruct (last l) eqn:E; [|by apply last_None in E]. intros [= ->].
  apply last_Some in E as [l' ->]. apply dotfree_in in Hl. apply Hl, elem_of_app. right. by constructor.
Qed.

Lemma turned_last n : good_name n -> last (join (rev (split n))) <> Some (chr ".").
Proof. intros H. apply join_last. by apply good_labels. Qed.

Lemma name_last n : good_name n -> last n <> Some (chr ".").
Proof. intros H. rewrite <- (join_split n). apply join_last. by apply good_labels. Qed.

(** Two kept names with the same text, or with a dot between them, have the
    same name. *)
Lemma head_text_name p q : is_head p = true -> is_head q = true -> good_name (pattern_name p) -> good_name (pattern_name q) ->
  head_text p = head_text q \/ head_text p ++ [chr "."] = head_text q -> pattern_name p = pattern_name q.
Proof.
  intros Hp Hq Gp Gq. pose proof (turned_last _ Gp) as Lp. pose proof (turned_last _ Gq) as Lq.
  destruct p as [|n|n|]; [done| | |done]; (destruct q as [|m|m|]; [done| | |done]); cbn [head_text pattern_name] in *; intros [E|E];
    try (by apply turned_inj in E); try (apply app_inv_tail in E; by apply turned_inj in E);
    exfalso; first [rewrite E, last_snoc in Lp; done|rewrite <- E, last_snoc in Lq; done|apply app_inv_tail in E; rewrite <- E, last_snoc in Lq; done].
Qed.

Lemma head_text_both p q : is_head p = true -> is_head q = true -> good_name (pattern_name p) -> good_name (pattern_name q) ->
  head_text p ++ [chr "."] = head_text q -> p <> q.
Proof. intros Hp Hq Gp Gq E ->. apply (f_equal length) in E. rewrite length_app in E. cbn in E. lia. Qed.

(** ** Tables of kept names *)

Lemma sorted_names l : Forall (fun x => Forall name_char_ok x.(k_key)) l -> NoDup (map k_key l) ->
  StronglySorted (fun a b => ngx_dns_strcmp a.(k_key) b.(k_key) <= 0) l -> StronglySorted dns_lt (map k_key l).
Proof.
  intros Hc Hn Hs. induction Hs as [|x l Hs IH Hx]; cbn [map]; [constructor|]. inversion_clear Hc as [|? ? Hcx Hcl]. inversion_clear Hn as [|? ? Hnx Hnl].
  constructor; [by apply IH|]. apply Forall_fmap. rewrite Forall_forall in *. intros y Hy. cbn. specialize (Hx y Hy).
  apply dns_strcmp_le in Hx as [?|E]; [done| |done|by apply Hcl]. exfalso. apply Hnx. rewrite E. by apply (list_elem_of_fmap_2 k_key).
Qed.

Lemma omap_same {A B} (f : A -> option B) l x x' y : NoDup (omap f l) -> x ∈ l -> x' ∈ l -> f x = Some y -> f x' = Some y -> x = x'.
Proof.
  induction l as [|z l IH]; intros Hn Hx Hx' E E'; [inversion Hx|]. cbn [omap list_omap] in Hn. rewrite elem_of_cons in Hx, Hx'.
  assert (Hin : forall w, w ∈ l -> f w = Some y -> y ∈ omap f l) by (intros w Hw Ew; apply list_elem_of_omap; by exists w).
  destruct Hx as [->|Hx], Hx' as [->|Hx']; [done| | |].
  - exfalso. rewrite E in Hn. inversion_clear Hn as [|? ? Hni _]. by apply Hni, (Hin x').
  - exfalso. rewrite E' in Hn. inversion_clear Hn as [|? ? Hni _]. by apply Hni, (Hin x).
  - apply IH; try done. destruct (f z); [by inversion_clear Hn|done].
Qed.

(** Names of a table are as different as what they come from. *)
Lemma omap_keys_nodup {A} (f : A -> option hash_key) (g : A -> option (list Z)) l :
  (forall x x' h h', x ∈ l -> x' ∈ l -> f x = Some h -> f x' = Some h' -> k_key h = k_key h' -> exists y, g x = Some y /\ g x' = Some y) ->
  NoDup (omap g l) -> NoDup (map k_key (omap f l)).
Proof.
  induction l as [|z l IH]; intros Hsame Hn; [constructor|]. cbn [omap list_omap] in *.
  assert (Hl : NoDup (map k_key (omap f l))).
  { apply IH; [intros x x' h h' Hx Hx'; by apply Hsame; right|]. destruct (g z); [by inversion_clear Hn|done]. }
  destruct (f z) as [h|] eqn:F; [|done]. cbn [map]. constructor; [|done]. intros Hin. apply list_elem_of_fmap in Hin as (h' & Ek & Hh').
  apply list_elem_of_omap in Hh' as (x & Hx & Fx). destruct (Hsame z x h h') as (y & Gz & Gx); [by left|by right|done..|].
  rewrite Gz in Hn. inversion_clear Hn as [|? ? Hni _]. apply Hni, list_elem_of_omap. by exists x.
Qed.

Section tables.
Context (kept : list (pattern * Z)).
Context (Hgood : Forall (fun e => good_pattern e.1) kept) (Hval : Forall (fun e => ptr_ok e.2) kept).
Context (Hnodup : forall k, NoDup (omap (kept_name k) kept)).

Lemma kept_head x h : x ∈ kept -> head_key x = Some h ->
  is_head x.1 = true /\ h = HashKey (head_text x.1) false 0 x.2 /\ good_name (pattern_name x.1) /\ kept_name THead x = Some (pattern_name x.1).
Proof.
  intros Hx. rewrite Forall_forall in Hgood. specialize (Hgood x Hx). unfold head_key, kept_name. destruct x as [[n|n|n|n] v]; cbn in *; try done; by intros [= <-].
Qed.

Lemma kept_tail x h : x ∈ kept -> tail_key x = Some h ->
  exists n, x.1 = PTail n /\ h = HashKey n false 0 x.2 /\ good_name n /\ kept_name TTail x = Some n.
Proof.
  intros Hx. rewrite Forall_forall in Hgood. specialize (Hgood x Hx). unfold tail_key, kept_name. destruct x as [[n|n|n|n] v]; cbn in *; try done. intros [= <-]. by exists n.
Qed.

Lemma heads_ok l : l ≡ₚ omap head_key kept -> StronglySorted (fun a b => ngx_dns_strcmp a.(k_key) b.(k_key) <= 0) l -> names_ok (map entry_of l).
Proof.
  intros Hp Hs. assert (Hel : forall h, h ∈ l -> exists x, x ∈ kept /\ head_key x = Some h) by (intros h Hh; rewrite Hp in Hh; by apply list_elem_of_omap in Hh).
  assert (Hk : map fst (map entry_of l) = map k_key l) by (by rewrite map_map).
  assert (Hn : NoDup (map k_key l)).
  { rewrite Hp. apply (omap_keys_nodup head_key (kept_name THead)); [|done]. intros x x' h h' Hx Hx' Ex Ex' Ek.
    apply kept_head in Ex as (P & -> & G & ->); [|done]. apply kept_head in Ex' as (P' & -> & G' & ->); [|done]. eexists. split; [done|].
    f_equal. symmetry. apply head_text_name; auto. }
  split.
  - rewrite Hk. apply sorted_names; [|done|done]. apply Forall_forall. intros h Hh. apply Hel in Hh as (x & Hx & Ex).
    apply kept_head in Ex as (P & -> & G & _); [|done]. by apply head_text_ok.
  - apply Forall_fmap, Forall_forall. intros h Hh. apply Hel in Hh as (x & Hx & Ex). apply kept_head in Ex as (P & -> & G & _); [|done]. by apply head_text_ok.
  - apply Forall_fmap, Forall_forall. intros h Hh. apply Hel in Hh as (x & Hx & Ex). apply kept_head in Ex as (_ & -> & _ & _); [|done].
    rewrite Forall_forall in Hval. by apply Hval.
  - rewrite Hk. intros t Ht Ht'. apply list_elem_of_fmap in Ht as (h & -> & Hh). apply list_elem_of_fmap in Ht' as (h' & E & Hh').
    apply Hel in Hh as (x & Hx & Ex). apply Hel in Hh' as (x' & Hx' & Ex').
    apply kept_head in Ex as (P & -> & G & N); [|done]. apply kept_head in Ex' as (P' & -> & G' & N'); [|done]. cbn [k_key] in E.
    pose proof (head_text_name _ _ P P' G G' (or_intror E)) as En. rewrite <- En in N'.
    apply (head_text_both _ _ P P' G G' E). f_equal. by apply (omap_same (kept_name THead) kept x x' (pattern_name x.1)).
Qed.

Lemma tails_table_ok l : l ≡ₚ omap tail_key kept -> StronglySorted (fun a b => ngx_dns_strcmp a.(k_key) b.(k_key) <= 0) l ->
  names_ok (map entry_of l) /\ plain_ends (map entry_of l).
Proof.
  intros Hp Hs. assert (Hel : forall h, h ∈ l -> exists x, x ∈ kept /\ tail_key x = Some h) by (intros h Hh; rewrite Hp in Hh; by apply list_elem_of_omap in Hh).
  assert (Hk : map fst (map entry_of l) = map k_key l) by (by rewrite map_map).
  assert (Hn : NoDup (map k_key l)).
  { rewrite Hp. apply (omap_keys_nodup tail_key (kept_name TTail)); [|done]. intros x x' h h' Hx Hx' Ex Ex' Ek.
    apply kept_tail in Ex as (n & _ & -> & G & ->); [|done]. apply kept_tail in Ex' as (n' & _ & -> & G' & ->); [|done]. eexists. split; [done|].
    cbn in Ek. by rewrite Ek. }
  assert (Hg : forall h, h ∈ l -> good_name h.(k_key) /\ ptr_ok h.(k_value)).
  { intros h Hh. apply Hel in Hh as (x & Hx & Ex). apply kept_tail in Ex as (n & _ & -> & G & _); [|done]. split; [done|].
    rewrite Forall_forall in Hval. by apply Hval. }
  split; [split|].
  - rewrite Hk. apply sorted_names; [|done|done]. apply Forall_forall. intros h Hh. by apply name_chars, Hg.
  - apply Forall_fmap, Forall_forall. intros h Hh. apply Hg in Hh as [Hh _]. split; [by apply good_nonempty|by apply name_chars].
  - apply Forall_fmap, Forall_forall. intros h Hh. by apply Hg.
  - rewrite Hk. intros t _ Ht'. apply list_elem_of_fmap in Ht' as (h' & E & Hh'). apply Hg in Hh' as [Hh' _]. apply name_last in Hh'. by rewrite <- E, last_snoc in Hh'.
  - apply Forall_fmap, Forall_forall. intros h Hh. apply Hg in Hh as [Hh _]. by apply name_last.
Qed.
End tables.
