(* ===== verification/HttpHost.v ===== *)
(** * Host names ([ngx_http_validate_host] of [ngx_http_request.c])

    The name in a request line or in a [Host] header is cut before its port and
    its last dot and put in lower case.  A name that is accepted is safe to use
    as a part of a path. *)

From S2P Require Import Prelude NgxCompare.

(** ** The function *)

Inductive host_state := sw_usual | sw_literal | sw_rest.

(** The variables of the loop: [state], [dot_pos], [host_len], [alloc]. *)
Record host_scan := HostScan {
  v_state : host_state;
  v_dot_pos : Z;
  v_host_len : Z;
  v_alloc : bool;
}.

(** A character; [None] refuses the name. *)
Definition host_char (i ch : Z) (v : host_scan) : option host_scan :=
  if ch =? chr "." then
    if v.(v_dot_pos) =? u64 (i - 1) then None
    else Some (HostScan v.(v_state) i v.(v_host_len) v.(v_alloc))
  else if ch =? chr ":" then
    match v.(v_state) with
    | sw_usual => Some (HostScan sw_rest v.(v_dot_pos) i v.(v_alloc))
    | _ => Some v
    end
  else if ch =? chr "[" then
    if i =? 0 then Some (HostScan sw_literal v.(v_dot_pos) v.(v_host_len) v.(v_alloc)) else Some v
  else if ch =? chr "]" then
    match v.(v_state) with
    | sw_literal => Some (HostScan sw_rest v.(v_dot_pos) (i + 1) v.(v_alloc))
    | _ => Some v
    end
  else if ch =? 0 then None
  else if ch =? chr "/" then None
  else if (chr "A" <=? ch) && (ch <=? chr "Z") then
    Some (HostScan v.(v_state) v.(v_dot_pos) v.(v_host_len) true)
  else Some v.

Fixpoint host_loop (i : Z) (h : list Z) (v : host_scan) : option host_scan :=
  match h with
  | [] => Some v
  | ch :: h =>
      match host_char i ch v with
      | None => None
      | Some v => host_loop (i + 1) h v
      end
  end.

Inductive host_result :=
  | HostOk (host : list Z)
  | HostDeclined
  | HostError.

Definition ngx_http_validate_host (host : list Z) (copy : bool) (a : allocs) : host_result * allocs :=
  match host_loop 0 host (HostScan sw_usual (zlen host) (zlen host) copy) with
  | None => (HostDeclined, a)
  | Some v =>
      let host_len := if v.(v_dot_pos) =? u64 (v.(v_host_len) - 1) then v.(v_host_len) - 1 else v.(v_host_len) in
      if host_len =? 0 then (HostDeclined, a)
      else if v.(v_alloc) then
        let '(ok, a) := alloc a in
        if ok then (HostOk (ngx_strlow host (Z.to_nat host_len)), a) else (HostError, a)
      else (HostOk (take (Z.to_nat host_len) host), a)
  end.

(** ** What is accepted *)

Definition is_upper (c : Z) : bool := (chr "A" <=? c) && (c <=? chr "Z").
Definition bad_char (c : Z) : bool := (c =? 0) || (c =? chr "/").
Definition is_dot (c : Z) : bool := c =? chr ".".

(** Two dots in a row, the first of them possibly before the text. *)
Fixpoint dots_after (prev : bool) (l : list Z) : bool :=
  match l with
  | [] => false
  | c :: l => prev && is_dot c || dots_after (is_dot c) l
  end.

Definition double_dot (l : list Z) : bool := dots_after false l.

(** The text before a character, and through it; all of it if there is none. *)
Fixpoint before_char (c : Z) (l : list Z) : list Z :=
  match l with
  | [] => []
  | d :: l => if d =? c then [] else d :: before_char c l
  end.

Fixpoint through_char (c : Z) (l : list Z) : list Z :=
  match l with
  | [] => []
  | d :: l => if d =? c then [d] else d :: through_char c l
  end.

(** The name without the port: an address in brackets, or what is before a
    colon. *)
Definition host_part (host : list Z) : list Z :=
  match host with
  | c :: _ => if c =? chr "[" then through_char (chr "]") host else before_char (chr ":") host
  | [] => []
  end.

(** The name without a dot at its end, unless a dot comes after it. *)
Definition host_name (host : list Z) : list Z :=
  let part := host_part host in
  let rest := drop (length part) host in
  if bool_decide (last part = Some (chr ".")) && negb (existsb is_dot rest) then take (length part - 1) part else part.

(** ** Proofs *)

Lemma before_char_prefix c l : exists k, l = before_char c l ++ k.
Proof.
  induction l as [|d l [k IH]]; cbn; [by exists []|]. destruct (d =? c); [by eexists|]. exists k. cbn. by rewrite <- IH.
Qed.

Lemma through_char_prefix c l : exists k, l = through_char c l ++ k.
Proof.
  induction l as [|d l [k IH]]; cbn; [by exists []|]. destruct (d =? c); [by exists l|]. exists k. cbn. by rewrite <- IH.
Qed.

Lemma host_part_prefix host : exists k, host = host_part host ++ k.
Proof.
  unfold host_part. destruct host as [|c host]; [by exists []|]. destruct (c =? chr "[");
    [apply through_char_prefix|apply before_char_prefix].
Qed.

(** What the loop leaves in [host_len], by its state. *)
Definition len_from (st : host_state) (i : Z) (h : list Z) (len : Z) : Z :=
  match st with
  | sw_usual => i + zlen (before_char (chr ":") h)
  | sw_literal => i + zlen (through_char (chr "]") h)
  | sw_rest => len
  end.

(** The place of the last dot, if there is one. *)
Fixpoint dot_from (i : Z) (h : list Z) (pos : Z) : Z :=
  match h with
  | [] => pos
  | c :: h => dot_from (i + 1) h (if is_dot c then i else pos)
  end.

(** The variables at position [i], before the rest [h] of the name. *)
Record scan_ok (i : Z) (h : list Z) (prev : bool) (v : host_scan) : Prop := {
  so_i : 0 <= i < 2 ^ 63;
  so_start : i = 0 -> hd 0 h <> chr "[";
  so_total : v.(v_state) <> sw_rest -> v.(v_host_len) = i + zlen h;
  so_prev : prev = (v.(v_dot_pos) =? i - 1);
  so_dot : 0 <= v.(v_dot_pos) /\ (v.(v_dot_pos) < i \/ i + zlen h <= v.(v_dot_pos));
}.

Lemma dot_test i v : 0 <= i < 2 ^ 63 -> 0 <= v.(v_dot_pos) < 2 ^ 63 ->
  (v.(v_dot_pos) =? u64 (i - 1)) = (v.(v_dot_pos) =? i - 1).
Proof.
  intros Hi Hd. destruct (decide (i = 0)) as [->|]; [|by rewrite u64_small by lia].
  change (u64 (0 - 1)) with (2 ^ 64 - 1). rewrite !(proj2 (Z.eqb_neq _ _)) by lia. done.
Qed.

Lemma host_char_cases i c h prev v :
  scan_ok i (c :: h) prev v -> i + 1 + zlen h < 2 ^ 63 -> v.(v_dot_pos) < 2 ^ 63 ->
  if bad_char c || prev && is_dot c then host_char i c v = None
  else exists v', host_char i c v = Some v' /\ scan_ok (i + 1) h (is_dot c) v' /\ v'.(v_dot_pos) < 2 ^ 63 /\
    v'.(v_dot_pos) = (if is_dot c then i else v.(v_dot_pos)) /\ v'.(v_alloc) = (v.(v_alloc) || is_upper c) /\
    len_from v'.(v_state) (i + 1) h v'.(v_host_len) = len_from v.(v_state) i (c :: h) v.(v_host_len).
Proof.
  intros [Hi Hst Htot Hprev [Hd0 Hd1]] Hlen Hd. unfold host_char, bad_char, is_dot, is_upper. rewrite dot_test by lia.
  cbn [hd] in Hst. rewrite zlen_cons in Htot, Hd1. pose proof (zlen_nonneg h).
  destruct v as [st d l b]; cbn [v_state v_dot_pos v_host_len v_alloc] in *.
  assert (Hnext : forall d' l' b' st', (st' <> sw_rest -> l' = i + 1 + zlen h) -> 0 <= d' /\ (d' <= i \/ i + 1 + zlen h <= d') ->
      (d' =? i) = (c =? 46) -> scan_ok (i + 1) h (c =? 46) (HostScan st' d' l' b')).
  { intros d' l' b' st' H1 [H2 H3] H4. split; cbn; [lia|lia|done|rewrite <- H4; f_equal; lia|lia]. }
  assert (Hdi : (d =? i) = false) by (apply Z.eqb_neq; lia). subst prev.
  destruct (Z.eqb_spec c 46) as [->|Hdot]; cbn [Z.eqb Z.leb andb orb Pos.eqb].
  { change (46 =? 0) with false. change (46 =? 47) with false. cbn [orb]. rewrite andb_true_r. destruct (d =? i - 1); [done|].
    eexists. split; [done|]. split; [apply Hnext; [intros H'; rewrite Htot by done; lia|lia|apply Z.eqb_refl]|].
    cbn. rewrite orb_false_r. split; [lia|]. do 2 (split; [done|]). destruct st; cbn; rewrite ?zlen_cons; lia. }
  rewrite andb_false_r, orb_false_r.
  assert (Hkeep : forall st' l' b', (st' <> sw_rest -> l' = i + 1 + zlen h) -> scan_ok (i + 1) h false (HostScan st' d l' b'))
    by (intros; apply Hnext; [done|lia|done]).
  destruct (Z.eqb_spec c 58) as [->|Hcolon].
  { cbn [Z.eqb orb Pos.eqb]. destruct st; (eexists; split; [done|]; split; [apply Hkeep; try (intros; rewrite Htot by done; lia); done|]);
      cbn; rewrite orb_false_r; repeat (split; [done||lia|]); rewrite ?zlen_cons, ?zlen_nil; lia. }
  destruct (Z.eqb_spec c 91) as [->|Hopen].
  { cbn [Z.eqb orb Pos.eqb]. rewrite (proj2 (Z.eqb_neq i 0)) by (intros ->; by apply Hst).
    eexists; split; [done|]. split; [apply Hkeep; intros; rewrite Htot by done; lia|].
    cbn. rewrite orb_false_r. repeat (split; [done||lia|]). destruct st; cbn; rewrite ?zlen_cons; lia. }
  destruct (Z.eqb_spec c 93) as [->|Hclose].
  { cbn [Z.eqb orb Pos.eqb]. destruct st; (eexists; split; [done|]; split; [apply Hkeep; try (intros; rewrite Htot by done; lia); done|]);
      cbn; rewrite orb_false_r; repeat (split; [done||lia|]); rewrite ?zlen_cons, ?zlen_nil; lia. }
  destruct (Z.eqb_spec c 0) as [->|Hnul]; [done|]. destruct (Z.eqb_spec c 47) as [->|Hslash]; [done|]. cbn [orb].
  assert (Hl : len_from st (i + 1) h l = len_from st i (c :: h) l).
  { destruct st; cbn; rewrite ?(proj2 (Z.eqb_neq c _)) by done; rewrite ?zlen_cons; lia. }
  destruct (_ && _); (eexists; split; [done|]; split; [apply Hkeep; intros; rewrite Htot by done; lia|]);
    cbn; rewrite ?orb_true_r, ?orb_false_r; repeat (split; [done||lia|]); done.
Qed.

Lemma host_loop_spec h : forall i prev v,
  scan_ok i h prev v -> i + zlen h < 2 ^ 63 -> v.(v_dot_pos) < 2 ^ 63 ->
  exists st, host_loop i h v =
    if existsb bad_char h || dots_after prev h then None
    else Some (HostScan st (dot_from i h v.(v_dot_pos)) (len_from v.(v_state) i h v.(v_host_len)) (v.(v_alloc) || existsb is_upper h)).
Proof.
  induction h as [|c h IH]; intros i prev v Hok Hlen Hdot; cbn [host_loop existsb dots_after].
  { exists v.(v_state). cbn [orb dot_from]. rewrite orb_false_r. destruct v as [st d l b]; cbn in *. do 2 f_equal.
    destruct Hok as [_ _ Ht _ _]. cbn in Ht. destruct st; cbn; [rewrite Ht by done..|]; done. }
  rewrite zlen_cons in Hlen. pose proof (host_char_cases i c h prev v Hok ltac:(lia) Hdot) as Hc.
  destruct (bad_char c) eqn:Hb; cbn [orb] in *; [exists sw_rest; by rewrite Hc|].
  destruct (prev && is_dot c) eqn:Hp; cbn [orb] in *; [exists sw_rest; rewrite Hc; by rewrite orb_true_r|].
  destruct Hc as (v' & -> & Hok' & Hd' & Ed & Ea & El). destruct (IH (i + 1) (is_dot c) v' Hok' ltac:(lia) Hd') as (st & ->).
  exists st. destruct (existsb bad_char h || dots_after (is_dot c) h); [done|]. rewrite El, Ea, Ed. cbn [dot_from].
  by rewrite orb_assoc.
Qed.

Lemma dot_from_app a : forall b i pos, dot_from i (a ++ b) pos = dot_from (i + zlen a) b (dot_from i a pos).
Proof.
  induction a as [|c a IH]; intros b i pos; cbn [app dot_from]; [by rewrite zlen_nil, Z.add_0_r|].
  rewrite IH, zlen_cons. f_equal. lia.
Qed.

Lemma dot_from_range h : forall i pos,
  if existsb is_dot h then i <= dot_from i h pos < i + zlen h else dot_from i h pos = pos.
Proof.
  induction h as [|c h IH]; intros i pos; [done|]. cbn [existsb dot_from]. rewrite zlen_cons.
  specialize (IH (i + 1) (if is_dot c then i else pos)). destruct (existsb is_dot h); [rewrite orb_true_r; lia|].
  rewrite IH, orb_false_r. destruct (is_dot c); [pose proof (zlen_nonneg h)|]; lia.
Qed.

(** The test for a dot at the end. *)
Lemma end_dot part rest : part <> [] -> zlen (part ++ rest) < 2 ^ 63 ->
  (dot_from 0 (part ++ rest) (zlen (part ++ rest)) =? u64 (zlen part - 1)) =
  (bool_decide (last part = Some (chr ".")) && negb (existsb is_dot rest)).
Proof.
  intros Hne Hlen. destruct part as [|x part _] using rev_ind; [done|]. clear Hne. rewrite last_snoc.
  pose proof (zlen_nonneg part). pose proof (zlen_nonneg rest).
  assert (Hp1 : zlen (part ++ [x]) = zlen part + 1) by (by rewrite zlen_app).
  rewrite (zlen_app (part ++ [x])), Hp1 in *. set (len := zlen part + 1 + zlen rest) in *. rewrite u64_small by lia.
  rewrite dot_from_app, Hp1. pose proof (dot_from_range rest (0 + (zlen part + 1)) (dot_from 0 (part ++ [x]) len)) as Hr.
  destruct (existsb is_dot rest); [rewrite andb_false_r; apply Z.eqb_neq; lia|]. rewrite Hr, andb_true_r, dot_from_app. cbn [dot_from].
  unfold is_dot. destruct (Z.eqb_spec x 46) as [->|Hx]; [rewrite bool_decide_eq_true_2 by done; apply Z.eqb_eq; lia|].
  rewrite bool_decide_eq_false_2 by congruence. apply Z.eqb_neq.
  pose proof (dot_from_range part 0 len) as Hp. destruct (existsb is_dot part); lia.
Qed.

Lemma strlow_take host : forall n, (n <= length host)%nat -> ngx_strlow host n = map ngx_tolower (take n host).
Proof.
  induction host as [|c host IH]; intros [|n] Hn; cbn in *; try done; [lia|]. by rewrite IH by lia.
Qed.

Lemma tolower_lower l : existsb is_upper l = false -> map ngx_tolower l = l.
Proof.
  induction l as [|c l IH]; [done|]. cbn [existsb map]. intros H. apply orb_false_iff in H as [Hc Hl].
  rewrite IH by done. f_equal. unfold ngx_tolower, is_upper in *. by rewrite Hc.
Qed.

Lemma existsb_take {A} (f : A -> bool) l n : existsb f l = false -> existsb f (take n l) = false.
Proof.
  revert n. induction l as [|x l IH]; intros [|n] H; cbn in *; try done. apply orb_false_iff in H as [-> Hl]. by apply IH.
Qed.

Lemma host_name_take host : exists n, (n <= length host)%nat /\ host_name host = take n host.
Proof.
  destruct (host_part_prefix host) as [k Hk]. assert (Hp : host_part host = take (length (host_part host)) host).
  { rewrite Hk at 3. by rewrite take_app_length. }
  assert ((length (host_part host) <= length host)%nat) by (rewrite Hk at 2; rewrite length_app; lia).
  unfold host_name. destruct (_ && _); [|eauto]. exists (length (host_part host) - 1)%nat. split; [lia|].
  rewrite Hp at 2. rewrite take_take. f_equal. lia.
Qed.

(** The loop on a whole name. *)
Lemma host_loop_whole host copy : zlen host < 2 ^ 63 ->
  exists st, host_loop 0 host (HostScan sw_usual (zlen host) (zlen host) copy) =
    if existsb bad_char host || double_dot host then None
    else Some (HostScan st (dot_from 0 host (zlen host)) (zlen (host_part host)) (copy || existsb is_upper host)).
Proof.
  intros Hlen. unfold double_dot. destruct (decide (hd 0 host = chr "[")) as [E|E].
  - destruct host as [|c host]; [discriminate|]. cbn in E. subst c. rewrite zlen_cons in *. pose proof (zlen_nonneg host).
    cbn [host_loop]. unfold host_char. cbn [Z.eqb Pos.eqb v_dot_pos v_host_len v_alloc].
    destruct (host_loop_spec host (0 + 1) false (HostScan sw_literal (1 + zlen host) (1 + zlen host) copy)) as (st & ->); [|lia|cbn; lia|].
    { split; cbn; [lia|lia|lia|symmetry; apply Z.eqb_neq; lia|lia]. }
    exists st. cbn -[zlen existsb]. change (existsb bad_char (91 :: host)) with (existsb bad_char host).
    change (existsb is_upper (91 :: host)) with (existsb is_upper host). rewrite zlen_cons. done.
  - destruct (host_loop_spec host 0 false (HostScan sw_usual (zlen host) (zlen host) copy)) as (st & ->); [|lia|cbn; lia|].
    { pose proof (zlen_nonneg host). split; cbn; [lia|done|lia|symmetry; apply Z.eqb_neq; lia|lia]. }
    exists st. cbn [v_dot_pos v_alloc v_state v_host_len len_from]. unfold host_part. destruct host as [|c host]; [done|].
    cbn [hd] in E. by rewrite (proj2 (Z.eqb_neq c _) E).
Qed.

Lemma validate_host_eq host copy a : zlen host < 2 ^ 63 ->
  fst (ngx_http_validate_host host copy a) =
    if existsb bad_char host || double_dot host then HostDeclined
    else if bool_decide (host_name host = []) then HostDeclined
    else if (copy || existsb is_upper host) && negb (fst (alloc a)) then HostError
    else HostOk (map ngx_tolower (host_name host)).
Proof.
  intros Hlen. unfold ngx_http_validate_host. destruct (host_loop_whole host copy Hlen) as (st & ->).
  destruct (existsb bad_char host || double_dot host); [done|]. cbn [v_dot_pos v_host_len v_alloc].
  destruct (host_part_prefix host) as [k Hk].
  assert (Hlk : (length (host_part host) <= length host)%nat) by (rewrite Hk at 2; rewrite length_app; lia).
  set (n := if dot_from 0 host (zlen host) =? u64 (zlen (host_part host) - 1) then zlen (host_part host) - 1 else zlen (host_part host)).
  assert (Hn : n = zlen (host_name host) /\ host_name host = take (Z.to_nat n) host).
  { assert (Hp : host_part host = take (length (host_part host)) host) by (rewrite Hk at 3; by rewrite take_app_length).
    unfold n, host_name. destruct (decide (host_part host = [])) as [E|E].
    - rewrite !E. change (zlen (@nil Z)) with 0. pose proof (dot_from_range host 0 (zlen host)) as Hr.
      change (u64 (0 - 1)) with (2 ^ 64 - 1). rewrite (proj2 (Z.eqb_neq _ _)) by (destruct (existsb is_dot host); lia). done.
    - pose proof (end_dot (host_part host) k E ltac:(by rewrite <- Hk)) as Hd. rewrite <- Hk in Hd. rewrite Hd.
      replace (drop (length (host_part host)) host) with k by (rewrite Hk at 2; by rewrite drop_app_length).
      destruct (_ && _).
      + rewrite zlen_take. unfold zlen. destruct (host_part host) eqn:Ep; [done|]. rewrite <- Ep in *. cbn [length] in *.
        assert (Hl1 : length (host_part host) = S (length l)) by (by rewrite Ep). split; [lia|].
        transitivity (take (length (host_part host) - 1) (take (length (host_part host)) host)); [by rewrite <- Hp|].
        rewrite take_take. f_equal. lia.
      + split; [done|]. unfold zlen. rewrite Nat2Z.id. done. }
  destruct Hn as [Hn Ht]. destruct (decide (host_name host = [])) as [E|E].
  { rewrite bool_decide_eq_true_2 by done. rewrite Hn, E. done. }
  rewrite bool_decide_eq_false_2 by done. rewrite (proj2 (Z.eqb_neq n 0)).
  2:{ intros ->. symmetry in Hn. by apply zlen_0_nil in Hn. }
  assert (Hle : (Z.to_nat n <= length host)%nat).
  { destruct (host_name_take host) as (n' & Hn' & E'). rewrite Hn, E'. unfold zlen. rewrite length_take. lia. }
  destruct (copy || existsb is_upper host) eqn:Hup; cbn [andb].
  - destruct (alloc a) as [[] a']; cbn [fst negb]; [|done]. by rewrite strlow_take, <- Ht.
  - cbn [fst]. apply orb_false_iff in Hup as [_ Hup]. rewrite <- Ht, tolower_lower; [done|]. rewrite Ht. by apply existsb_take.
Qed.

(** ** The name *)

(** A name the server goes on with: not empty, without a character that ends a
    string or a directory's name, in lower case, without two dots in a row. *)
Definition safe_host (host : list Z) : Prop :=
  host <> [] /\ existsb bad_char host = false /\ existsb is_upper host = false /\ double_dot host = false.

Lemma dots_after_take l : forall prev n, dots_after prev l = false -> dots_after prev (take n l) = false.
Proof.
  induction l as [|c l IH]; intros prev [|n] H; cbn [take dots_after] in *; try done.
  apply orb_false_iff in H as [-> H]. cbn [orb]. by apply IH.
Qed.

Lemma lower_add c : is_upper c = true -> ngx_tolower c = c + 32.
Proof.
  unfold ngx_tolower, is_upper. intros E. rewrite E. apply andb_prop in E as [E1%Z.leb_le E2%Z.leb_le].
  assert (H : forallb (fun c => Z.lor c 32 =? c + 32) (seqZ 65 26) = true) by (vm_compute; reflexivity).
  apply Z.eqb_eq. apply (proj1 (forallb_forall _ _) H), list_elem_of_In, elem_of_seqZ. lia.
Qed.

Lemma tolower_range c : ngx_tolower c = c \/ (is_upper c = true /\ chr "a" <= ngx_tolower c <= chr "z").
Proof.
  destruct (is_upper c) eqn:E; [right|left; unfold ngx_tolower; unfold is_upper in E; by rewrite E].
  split; [done|]. rewrite lower_add by done. unfold is_upper in E. zcases.
Qed.

Lemma lower_is_dot c : is_dot (ngx_tolower c) = is_dot c.
Proof. unfold is_dot. destruct (tolower_range c) as [->|[Hu Hr]]; [done|]. unfold is_upper in Hu. zcases. Qed.

Lemma lower_bad c : bad_char (ngx_tolower c) = bad_char c.
Proof. unfold bad_char. destruct (tolower_range c) as [->|[Hu Hr]]; [done|]. unfold is_upper in Hu. zcases. Qed.

Lemma lower_upper c : is_upper (ngx_tolower c) = false.
Proof.
  destruct (is_upper c) eqn:E; [rewrite lower_add by done|unfold ngx_tolower; fold (is_upper c); by rewrite E].
  unfold is_upper in *. zcases.
Qed.

Lemma lower_dots l : forall prev, dots_after prev (map ngx_tolower l) = dots_after prev l.
Proof. induction l as [|c l IH]; intros prev; cbn [map dots_after]; [done|]. by rewrite IH, lower_is_dot. Qed.

Lemma existsb_map_eq (f g : Z -> bool) h l : (forall c, f (h c) = g c) -> existsb f (map h l) = existsb g l.
Proof. intros H. induction l as [|c l IH]; cbn; [done|]. by rewrite H, IH. Qed.

Lemma lower_safe n host : existsb bad_char host = false -> double_dot host = false -> take n host <> [] ->
  safe_host (map ngx_tolower (take n host)).
Proof.
  intros Hb Hd Hn. split; [by destruct (take n host)|]. split; [|split].
  - rewrite (existsb_map_eq _ bad_char) by apply lower_bad. by apply existsb_take.
  - rewrite (existsb_map_eq _ (fun _ => false)) by apply lower_upper. apply not_true_iff_false. rewrite existsb_exists. by intros (? & _ & ?).
  - unfold double_dot. rewrite lower_dots. by apply dots_after_take.
Qed.

(** C22: Host names.  A name with a null byte, a slash or two dots in a row is
    refused, and so is one with nothing before its port; any other, memory given,
    is cut before its port and the dot at its end and put in lower case, and the
    result is then safe as a part of a file name: not empty, without slashes,
    nulls, upper-case letters and double dots. *)
Theorem host_validated host copy a : zlen host < 2 ^ 63 ->
  fst (ngx_http_validate_host host copy a) =
    (if existsb bad_char host || double_dot host then HostDeclined
     else if bool_decide (host_name host = []) then HostDeclined
     else if (copy || existsb is_upper host) && negb (fst (alloc a)) then HostError
     else HostOk (map ngx_tolower (host_name host))) /\
  forall name, fst (ngx_http_validate_host host copy a) = HostOk name -> safe_host name.
Proof.
  intros Hlen. rewrite validate_host_eq by done. split; [done|]. intros name.
  destruct (existsb bad_char host || double_dot host) eqn:E; [done|]. apply orb_false_iff in E as [Hb Hd].
  destruct (bool_decide_reflect (host_name host = [])) as [|Hn]; [done|].
  destruct (_ && _); [done|]. intros [= <-]. destruct (host_name_take host) as (n & _ & Ht). rewrite Ht in *. by apply lower_safe.
Qed.

Lemma host_validated_witness :
  fst (ngx_http_validate_host (lit "WWW.Example.com.:8080") false []) = HostOk (lit "www.example.com") /\
  safe_host (lit "www.example.com").
Proof.
  destruct (host_validated (lit "WWW.Example.com.:8080") false []) as [H1 H2]; [vm_compute; reflexivity|]. split.
  - rewrite H1. vm_compute. reflexivity.
  - apply H2. rewrite H1. vm_compute. reflexivity.
Defined.

(** A dot in the port hides the dot at the end of the name, which is then kept. *)
Theorem port_dot_keeps_dot :
  fst (ngx_http_validate_host (lit "example.com.:8.0") false []) = HostOk (lit "example.com.").
Proof. vm_compute. reflexivity. Qed.
