(* ===== verification/NgxVariables.v ===== *)
(** * Indexed request variables (nginx HTTP, [ngx_http_variables.c])

    The configuration-time table of indexed variables and the per-request
    cache of their values: [ngx_http_get_variable_index],
    [ngx_http_get_indexed_variable], [ngx_http_get_flushed_variable] and
    [ngx_http_script_flush_no_cacheable_variables].  The value of a variable
    comes from its [get_handler], a function pointer set by the module that
    defines it: a parameter here. *)

From S2P Require Import Prelude NgxCompare.

(** ** Data *)

(** [ngx_http_variable_t]: the name and the [NGX_HTTP_VAR_NOCACHEABLE] bit of
    its flags. *)
Record http_variable := HttpVariable {
  v_name : list Z;
  v_nocacheable : bool;
}.

(** [ngx_variable_value_t]; [len] is the length of [vv_data]. *)
Record variable_value := VariableValue {
  vv_data : list Z;
  vv_valid : bool;
  vv_no_cacheable : bool;
  vv_not_found : bool;
}.

Definition set_flags (v : variable_value) (valid not_found : bool) : variable_value :=
  VariableValue v.(vv_data) valid v.(vv_no_cacheable) not_found.

(** ** Configuration time *)

Fixpoint find_variable (name : list Z) (v : list http_variable) (i : nat) : option nat :=
  match v with
  | [] => None
  | x :: v' =>
      if negb (length name =? length x.(v_name))%nat
         || negb (ngx_strncasecmp name x.(v_name) (length name) =? 0)
      then find_variable name v' (S i)
      else Some i
  end.

(** [variables.elts] is [None] before the first index is given out.  When the
    copy of the name cannot be allocated the new slot stays in the array
    without a name; the slot is not shown, as the error ends the
    configuration. *)
Definition ngx_http_get_variable_index (name : list Z)
    (variables : option (list http_variable)) (a : allocs)
  : Z * option (list http_variable) * allocs :=
  match name with
  | [] => (NGX_ERROR, variables, a)
  | _ =>
      let push (elts : list http_variable) (a : allocs) :=
        let (ok, a) := alloc a in
        if ok then
          let (ok, a) := alloc a in
          if ok then
            (Z.of_nat (length elts),
             Some (elts ++ [HttpVariable (ngx_strlow name (length name)) false]), a)
          else (NGX_ERROR, Some elts, a)
        else (NGX_ERROR, Some elts, a) in
      match variables with
      | None =>
          let (ok, a) := alloc a in
          if ok then push [] a else (NGX_ERROR, None, a)
      | Some elts =>
          match find_variable name elts 0 with
          | Some i => (Z.of_nat i, variables, a)
          | None => push elts a
          end
      end
  end.

(** ** What an index stands for *)

(** Two names the table does not tell apart. *)
Definition same_name (a b : list Z) : Prop :=
  length a = length b /\ ngx_strncasecmp a b (length a) = 0.

Lemma ngx_tolower_idem c : is_byte c -> ngx_tolower (ngx_tolower c) = ngx_tolower c.
Proof.
  intros Hc. apply Z.eqb_eq.
  exact (byte_forall (fun c => ngx_tolower (ngx_tolower c) =? ngx_tolower c)
           ltac:(vm_compute; reflexivity) c Hc).
Qed.

Lemma same_name_strlow name : bytes name -> same_name name (ngx_strlow name (length name)).
Proof.
  unfold same_name. induction 1 as [|c name Hc Hn [IHl IH]]; [done|].
  cbn [length ngx_strlow hd tl ngx_strncasecmp]. split; [congruence|].
  rewrite ngx_tolower_idem, Z.eqb_refl, IH by done. by case_match.
Qed.

Lemma find_variable_spec name v i0 i :
  find_variable name v i0 = Some i ->
  exists k x, i = (i0 + k)%nat /\ v !! k = Some x /\ same_name name x.(v_name).
Proof.
  revert i0; induction v as [|x v IH]; intros i0; cbn [find_variable]; [done|].
  case_match eqn:E.
  - intros (k & y & -> & Hk & Hs)%IH. exists (S k), y. split; [lia|done].
  - intros [= <-]. exists 0%nat, x. split; [lia|]. split; [done|].
    rewrite orb_false_iff, !negb_false_iff, Nat.eqb_eq, Z.eqb_eq in E. done.
Qed.

(** A successful call returns the place of a variable of that name in the
    table, which has only grown at its end. *)
Lemma get_variable_index_spec name vars a idx vars' a' :
  bytes name ->
  ngx_http_get_variable_index name vars a = (idx, vars', a') ->
  (exists ext, default [] vars' = default [] vars ++ ext) /\
  (idx <> NGX_ERROR ->
     exists i x, idx = Z.of_nat i /\ default [] vars' !! i = Some x /\
       same_name name x.(v_name)).
Proof.
  intros Hb. pose proof (same_name_strlow name Hb) as Hlow.
  unfold ngx_http_get_variable_index. destruct name as [|c name].
  { intros [= <- <- <-]. split; [exists []; by rewrite app_nil_r | done]. }
  set (nm := c :: name) in *.
  assert (Hpush : forall elts b, (let (ok, b) := alloc b in
     if ok then let (ok, b) := alloc b in
       if ok then (Z.of_nat (length elts),
                   Some (elts ++ [HttpVariable (ngx_strlow nm (length nm)) false]), b)
       else (NGX_ERROR, Some elts, b)
     else (NGX_ERROR, Some elts, b)) = (idx, vars', a') ->
     (exists ext, default [] vars' = elts ++ ext) /\
     (idx <> NGX_ERROR -> exists i x, idx = Z.of_nat i /\ default [] vars' !! i = Some x /\
       same_name nm x.(v_name))).
  { intros elts b. destruct (alloc b) as [[] b1]; [destruct (alloc b1) as [[] b2]|];
      intros [= <- <- <-]; cbn [default from_option].
    - split; [by eexists|]. intros _. eexists (length elts), _.
      split; [done|]. split; [by apply list_lookup_middle | exact Hlow].
    - split; [exists []; by rewrite app_nil_r | done].
    - split; [exists []; by rewrite app_nil_r | done]. }
  destruct vars as [elts|].
  - destruct (find_variable nm elts 0) as [i|] eqn:Ef; [|by apply Hpush].
    intros [= <- <- <-]. split; [exists []; by rewrite app_nil_r|]. intros _.
    destruct (find_variable_spec nm elts 0 i Ef) as (k & x & -> & Hk & Hs).
    by exists k, x.
  - destruct (alloc a) as [[] a1]; [by apply Hpush|].
    intros [= <- <- <-]. split; [by exists []|done].
Qed.

Lemma get_variable_index_total name vars a :
  name <> [] -> no_oom a ->
  exists i vars' a', ngx_http_get_variable_index name vars a = (Z.of_nat i, vars', a') /\
    no_oom a'.
Proof.
  intros Hn Ha. unfold ngx_http_get_variable_index. destruct name as [|c name]; [done|].
  destruct (no_oom_alloc a Ha) as (a1 & E1 & H1).
  destruct (no_oom_alloc a1 H1) as (a2 & E2 & H2).
  destruct (no_oom_alloc a2 H2) as (a3 & E3 & H3).
  destruct vars as [elts|]; [destruct (find_variable _ elts 0)|];
    rewrite ?E1, ?E2, ?E3; eauto 10.
Qed.

(** ** Request time *)

Section request.
(** The value a variable's [get_handler] computes: its return code and what it
    stores in the cache slot. *)
Context (get_handler : nat -> variable_value -> Z * variable_value).
Context (vars : list http_variable).

(** [ngx_http_get_indexed_variable]: the returned pointer is [None] for
    [NULL] or the cached value, with the cache after the call. *)
Definition ngx_http_get_indexed_variable (r : list variable_value) (index : nat)
  : option variable_value * list variable_value :=
  match vars !! index, r !! index with
  | Some v, Some slot =>
      if slot.(vv_not_found) || slot.(vv_valid) then (Some slot, r)
      else
        let (rc, slot') := get_handler index slot in
        if rc =? NGX_OK then
          let slot' :=
            if v.(v_nocacheable)
            then VariableValue slot'.(vv_data) slot'.(vv_valid) true slot'.(vv_not_found)
            else slot' in
          (Some slot', <[index := slot']> r)
        else (None, <[index := set_flags slot' false true]> r)
  | _, _ => (None, r)
  end.

Definition ngx_http_get_flushed_variable (r : list variable_value) (index : nat)
  : option variable_value * list variable_value :=
  match r !! index with
  | Some v =>
      if v.(vv_valid) || v.(vv_not_found) then
        if negb v.(vv_no_cacheable) then (Some v, r)
        else ngx_http_get_indexed_variable (<[index := set_flags v false false]> r) index
      else ngx_http_get_indexed_variable r index
  | None => (None, r)
  end.

(** [ngx_http_script_flush_no_cacheable_variables]; [indices] is [None] for a
    null array. *)
Definition flush_one (r : list variable_value) (index : Z) : list variable_value :=
  match r !! Z.to_nat index with
  | Some v =>
      if v.(vv_no_cacheable) then <[Z.to_nat index := set_flags v false false]> r else r
  | None => r
  end.

Definition ngx_http_script_flush_no_cacheable_variables
    (r : list variable_value) (indices : option (list Z)) : list variable_value :=
  match indices with
  | None => r
  | Some index => foldl flush_one r index
  end.

(** ** What a reader of a variable sees *)

(** [NULL] and a slot marked not found are one case for every reader. *)
Definition seen (v : option variable_value) : option (list Z) :=
  match v with
  | Some v => if v.(vv_not_found) then None else Some v.(vv_data)
  | None => None
  end.

(** A slot is filled when the next read returns it as it is. *)
Definition filled (r : list variable_value) (i : nat) : Prop :=
  exists v, r !! i = Some v /\ v.(vv_valid) || v.(vv_not_found) = true.

Lemma get_filled r i :
  (i < length vars)%nat -> filled r i ->
  exists v, r !! i = Some v /\ ngx_http_get_indexed_variable r i = (Some v, r).
Proof.
  intros [x Hx]%lookup_lt_is_Some (v & Hv & Hf). exists v. split; [done|].
  unfold ngx_http_get_indexed_variable. rewrite Hx, Hv, orb_comm, Hf. done.
Qed.

(** The documented contract of a handler: on success it leaves the slot valid
    or marked not found. *)
Definition handler_fills : Prop :=
  forall i s s', get_handler i s = (NGX_OK, s') ->
    s'.(vv_valid) || s'.(vv_not_found) = true.

Context (Hfills : handler_fills).

Lemma get_fills r i v r' :
  (i < length vars)%nat -> (i < length r)%nat ->
  ngx_http_get_indexed_variable r i = (v, r') ->
  filled r' i /\ (forall j, j <> i -> r' !! j = r !! j) /\ length r' = length r /\
  exists w, r' !! i = Some w /\ seen (Some w) = seen v.
Proof.
  intros [x Hx]%lookup_lt_is_Some Hr. pose proof Hr as [s Hs]%lookup_lt_is_Some.
  unfold ngx_http_get_indexed_variable, filled. rewrite Hx, Hs.
  destruct (vv_not_found s || vv_valid s) eqn:Ef.
  { intros [= <- <-]. rewrite orb_comm in Ef. repeat split; eauto. }
  destruct (get_handler i s) as [rc s'] eqn:Eh.
  destruct (Z.eqb_spec rc 0) as [->|Hne].
  - apply Hfills in Eh. intros [= <- <-].
    repeat split.
    + eexists. rewrite list_lookup_insert_eq by done. split; [done|].
      by destruct (v_nocacheable x).
    + intros j Hj. by rewrite list_lookup_insert_ne.
    + apply length_insert.
    + eexists. by rewrite list_lookup_insert_eq by done.
  - intros [= <- <-]. repeat split.
    + eexists. rewrite list_lookup_insert_eq by done. by split.
    + intros j Hj. by rewrite list_lookup_insert_ne.
    + apply length_insert.
    + eexists. by rewrite list_lookup_insert_eq by done.
Qed.

(** A read keeps what is already cached. *)
Lemma get_keeps r i j v r' :
  ngx_http_get_indexed_variable r i = (v, r') -> filled r j ->
  r' !! j = r !! j.
Proof.
  unfold ngx_http_get_indexed_variable. intros E (w & Hw & Hf).
  destruct (vars !! i), (r !! i) as [s|] eqn:Hs; try (by simplify_eq).
  destruct (decide (i = j)) as [->|Hne].
  - rewrite Hw in Hs. simplify_eq. rewrite orb_comm, Hf in E. by simplify_eq.
  - repeat case_match; simplify_eq; rewrite ?list_lookup_insert_ne by done; done.
Qed.

Lemma get_length r i v r' :
  ngx_http_get_indexed_variable r i = (v, r') -> length r' = length r.
Proof.
  unfold ngx_http_get_indexed_variable. intros E.
  repeat case_match; simplify_eq; rewrite ?length_insert; done.
Qed.
End request.

(** ** Properties *)

(** The variable cache is stable: once a read of an indexed variable has
    returned, every later read of it, after any reads of other variables,
    sees the same bytes (or the same absence) and leaves the cache as it is. *)
Theorem indexed_variable_stable get_handler vars r i v r1 (between : list nat) :
  handler_fills get_handler ->
  (i < length vars)%nat -> (i < length r)%nat ->
  ngx_http_get_indexed_variable get_handler vars r i = (v, r1) ->
  let r2 := foldl (fun r j => (ngx_http_get_indexed_variable get_handler vars r j).2)
              r1 between in
  exists w, ngx_http_get_indexed_variable get_handler vars r2 i = (Some w, r2) /\
    seen (Some w) = seen v.
Proof.
  intros Hh Hv Hr E. cbv zeta.
  destruct (get_fills get_handler vars Hh r i v r1 Hv Hr E) as (Hf & _ & _ & w & Hw & Hs).
  assert (Hk : forall r2, r2 = foldl (fun r j =>
            (ngx_http_get_indexed_variable get_handler vars r j).2) r1 between ->
            r2 !! i = Some w).
  { intros r2 ->. clear E Hs. revert r1 Hf Hw.
    induction between as [|j l IH]; intros r1 Hf Hw; cbn; [done|].
    destruct (ngx_http_get_indexed_variable get_handler vars r1 j) as [o r1'] eqn:Ej.
    cbn. pose proof (get_keeps get_handler vars r1 j i o r1' Ej Hf) as Hsame.
    apply IH; [|congruence].
    destruct Hf as (x & Hx & Hxf). exists x. split; congruence. }
  specialize (Hk _ eq_refl). exists w. split; [|done].
  destruct Hf as (x & Hx & Hxf).
  destruct (get_filled get_handler vars
    (foldl (fun r j => (ngx_http_get_indexed_variable get_handler vars r j).2) r1 between)
    i Hv) as (y & Hy & ->).
  - exists w. split; congruence.
  - congruence.
Qed.

Lemma indexed_variable_stable_witness :
  let h (i : nat) (s : variable_value) :=
    (NGX_OK, VariableValue (lit "Mozilla") true false false) in
  let vars := [HttpVariable (lit "http_user_agent") false] in
  let r := [VariableValue [] false false false] in
  exists w, ngx_http_get_indexed_variable h vars
      [VariableValue (lit "Mozilla") true false false] 0
    = (Some w, [VariableValue (lit "Mozilla") true false false]) /\
    seen (Some w) = Some (lit "Mozilla").
Proof.
  intros h vars r.
  apply (indexed_variable_stable h vars r 0
           (Some (VariableValue (lit "Mozilla") true false false))
           [VariableValue (lit "Mozilla") true false false] [0%nat]).
  - intros i s s' [= <-]. reflexivity.
  - cbn. lia.
  - cbn. lia.
  - reflexivity.
Defined.
