(* ===== verification/HttpRequest.v ===== *)
(** * The request line ([ngx_http_parse.c])

    [ngx_http_parse_request_line], the state machine that cuts a request line
    into the parts nginx works with.  Pointers into the
    request buffer are offsets from its start; [None] is the null pointer. *)

From S2P Require Import Prelude.

(** ** Characters *)

Abbreviation NUL := 0 (only parsing).
Abbreviation LF := 10 (only parsing).
Abbreviation CR := 13 (only parsing).
Abbreviation SP := 32 (only parsing).
Abbreviation HASH := 35 (only parsing).
Abbreviation PERCENT := 37 (only parsing).
Abbreviation PLUS := 43 (only parsing).
Abbreviation DOT := 46 (only parsing).
Abbreviation SLASH := 47 (only parsing).
Abbreviation COLON := 58 (only parsing).
Abbreviation QUESTION := 63 (only parsing).

(** Return codes of [ngx_http_request.h]. *)
Abbreviation NGX_HTTP_PARSE_HEADER_DONE := 1 (only parsing).
Abbreviation NGX_HTTP_PARSE_INVALID_METHOD := 10 (only parsing).
Abbreviation NGX_HTTP_PARSE_INVALID_REQUEST := 11 (only parsing).
Abbreviation NGX_HTTP_PARSE_INVALID_09_METHOD := 12 (only parsing).
Abbreviation NGX_HTTP_PARSE_INVALID_HEADER := 13 (only parsing).

(** The bitmap of the characters that need no attention in a URI. *)
Definition usual : list Z :=
  [0xffffdbfe; 0x7fff37d6; 0xffffffff; 0xffffffff;
   0xffffffff; 0xffffffff; 0xffffffff; 0xffffffff].

Definition is_usual (ch : Z) : bool :=
  Z.testbit (nth (Z.to_nat (Z.shiftr ch 5)) usual 0) (Z.land ch 0x1f).

(** [c = ch | 0x20; c >= 'a' && c <= 'z'], and ['0' <= ch <= '9']. *)
Definition is_letter (ch : Z) : bool :=
  let c := Z.lor ch 0x20 in (97 <=? c) && (c <=? 122).

Definition is_decimal (ch : Z) : bool := (48 <=? ch) && (ch <=? 57).

(** The value of a hexadecimal digit, tested as the escape sequences and the chunk
    sizes are. *)
Definition xdigit (ch : Z) : option Z :=
  if is_decimal ch then Some (ch - 48)
  else
    let c := Z.lor ch 0x20 in
    if (97 <=? c) && (c <=? 102) then Some (c - 97 + 10) else None.

(** ** The request *)

(** The fields of [ngx_http_request_t] the parser sets; the version numbers are
    16-bit fields. *)
Record http_request := HttpRequest {
  method : Z;
  request_start : option Z;
  method_end : option Z;
  schema_start : option Z;
  schema_end : option Z;
  host_start : option Z;
  host_end : option Z;
  port_end : option Z;
  uri_start : option Z;
  uri_end : option Z;
  uri_ext : option Z;
  args_start : option Z;
  http_protocol : option Z;
  request_end : option Z;
  http_major : Z;
  http_minor : Z;
  http_version : Z;
  complex_uri : bool;
  quoted_uri : bool;
  plus_in_uri : bool;
  space_in_uri : bool;
}.

Definition set_method (v : Z) (r : http_request) : http_request :=
  HttpRequest v r.(request_start) r.(method_end) r.(schema_start) r.(schema_end)
    r.(host_start) r.(host_end) r.(port_end) r.(uri_start) r.(uri_end) r.(uri_ext)
    r.(args_start) r.(http_protocol) r.(request_end) r.(http_major) r.(http_minor)
    r.(http_version) r.(complex_uri) r.(quoted_uri) r.(plus_in_uri) r.(space_in_uri).

Definition set_request_start (v : option Z) (r : http_request) : http_request :=
  HttpRequest r.(method) v r.(method_end) r.(schema_start) r.(schema_end) r.(host_start)
    r.(host_end) r.(port_end) r.(uri_start) r.(uri_end) r.(uri_ext) r.(args_start)
    r.(http_protocol) r.(request_end) r.(http_major) r.(http_minor) r.(http_version)
    r.(complex_uri) r.(quoted_uri) r.(plus_in_uri) r.(space_in_uri).

Definition set_method_end (v : option Z) (r : http_request) : http_request :=
  HttpRequest r.(method) r.(request_start) v r.(schema_start) r.(schema_end) r.(host_start)
    r.(host_end) r.(port_end) r.(uri_start) r.(uri_end) r.(uri_ext) r.(args_start)
    r.(http_protocol) r.(request_end) r.(http_major) r.(http_minor) r.(http_version)
    r.(complex_uri) r.(quoted_uri) r.(plus_in_uri) r.(space_in_uri).

Definition set_schema_start (v : option Z) (r : http_request) : http_request :=
  HttpRequest r.(method) r.(request_start) r.(method_end) v r.(schema_end) r.(host_start)
    r.(host_end) r.(port_end) r.(uri_start) r.(uri_end) r.(uri_ext) r.(args_start)
    r.(http_protocol) r.(request_end) r.(http_major) r.(http_minor) r.(http_version)
    r.(complex_uri) r.(quoted_uri) r.(plus_in_uri) r.(space_in_uri).

Definition set_schema_end (v : option Z) (r : http_request) : http_request :=
  HttpRequest r.(method) r.(request_start) r.(method_end) r.(schema_start) v r.(host_start)
    r.(host_end) r.(port_end) r.(uri_start) r.(uri_end) r.(uri_ext) r.(args_start)
    r.(http_protocol) r.(request_end) r.(http_major) r.(http_minor) r.(http_version)
    r.(complex_uri) r.(quoted_uri) r.(plus_in_uri) r.(space_in_uri).

Definition set_host_start (v : option Z) (r : http_request) : http_request :=
  HttpRequest r.(method) r.(request_start) r.(method_end) r.(schema_start) r.(schema_end) v
    r.(host_end) r.(port_end) r.(uri_start) r.(uri_end) r.(uri_ext) r.(args_start)
    r.(http_protocol) r.(request_end) r.(http_major) r.(http_minor) r.(http_version)
    r.(complex_uri) r.(quoted_uri) r.(plus_in_uri) r.(space_in_uri).

Definition set_host_end (v : option Z) (r : http_request) : http_request :=
  HttpRequest r.(method) r.(request_start) r.(method_end) r.(schema_start) r.(schema_end)
    r.(host_start) v r.(port_end) r.(uri_start) r.(uri_end) r.(uri_ext) r.(args_start)
    r.(http_protocol) r.(request_end) r.(http_major) r.(http_minor) r.(http_version)
    r.(complex_uri) r.(quoted_uri) r.(plus_in_uri) r.(space_in_uri).

Definition set_port_end (v : option Z) (r : http_request) : http_request :=
  HttpRequest r.(method) r.(request_start) r.(method_end) r.(schema_start) r.(schema_end)
    r.(host_start) r.(host_end) v r.(uri_start) r.(uri_end) r.(uri_ext) r.(args_start)
    r.(http_protocol) r.(request_end) r.(http_major) r.(http_minor) r.(http_version)
    r.(complex_uri) r.(quoted_uri) r.(plus_in_uri) r.(space_in_uri).

Definition set_uri_start (v : option Z) (r : http_request) : http_request :=
  HttpRequest r.(method) r.(request_start) r.(method_end) r.(schema_start) r.(schema_end)
    r.(host_start) r.(host_end) r.(port_end) v r.(uri_end) r.(uri_ext) r.(args_start)
    r.(http_protocol) r.(request_end) r.(http_major) r.(http_minor) r.(http_version)
    r.(complex_uri) r.(quoted_uri) r.(plus_in_uri) r.(space_in_uri).

Definition set_uri_end (v : option Z) (r : http_request) : http_request :=
  HttpRequest r.(method) r.(request_start) r.(method_end) r.(schema_start) r.(schema_end)
    r.(host_start) r.(host_end) r.(port_end) r.(uri_start) v r.(uri_ext) r.(args_start)
    r.(http_protocol) r.(request_end) r.(http_major) r.(http_minor) r.(http_version)
    r.(complex_uri) r.(quoted_uri) r.(plus_in_uri) r.(space_in_uri).

Definition set_uri_ext (v : option Z) (r : http_request) : http_request :=
  HttpRequest r.(method) r.(request_start) r.(method_end) r.(schema_start) r.(schema_end)
    r.(host_start) r.(host_end) r.(port_end) r.(uri_start) r.(uri_end) v r.(args_start)
    r.(http_protocol) r.(request_end) r.(http_major) r.(http_minor) r.(http_version)
    r.(complex_uri) r.(quoted_uri) r.(plus_in_uri) r.(space_in_uri).

Definition set_args_start (v : option Z) (r : http_request) : http_request :=
  HttpRequest r.(method) r.(request_start) r.(method_end) r.(schema_start) r.(schema_end)
    r.(host_start) r.(host_end) r.(port_end) r.(uri_start) r.(uri_end) r.(uri_ext) v
    r.(http_protocol) r.(request_end) r.(http_major) r.(http_minor) r.(http_version)
    r.(complex_uri) r.(quoted_uri) r.(plus_in_uri) r.(space_in_uri).

Definition set_http_protocol (v : option Z) (r : http_request) : http_request :=
  HttpRequest r.(method) r.(request_start) r.(method_end) r.(schema_start) r.(schema_end)
    r.(host_start) r.(host_end) r.(port_end) r.(uri_start) r.(uri_end) r.(uri_ext)
    r.(args_start) v r.(request_end) r.(http_major) r.(http_minor) r.(http_version)
    r.(complex_uri) r.(quoted_uri) r.(plus_in_uri) r.(space_in_uri).

Definition set_request_end (v : option Z) (r : http_request) : http_request :=
  HttpRequest r.(method) r.(request_start) r.(method_end) r.(schema_start) r.(schema_end)
    r.(host_start) r.(host_end) r.(port_end) r.(uri_start) r.(uri_end) r.(uri_ext)
    r.(args_start) r.(http_protocol) v r.(http_major) r.(http_minor) r.(http_version)
    r.(complex_uri) r.(quoted_uri) r.(plus_in_uri) r.(space_in_uri).

Definition set_http_major (v : Z) (r : http_request) : http_request :=
  HttpRequest r.(method) r.(request_start) r.(method_end) r.(schema_start) r.(schema_end)
    r.(host_start) r.(host_end) r.(port_end) r.(uri_start) r.(uri_end) r.(uri_ext)
    r.(args_start) r.(http_protocol) r.(request_end) v r.(http_minor) r.(http_version)
    r.(complex_uri) r.(quoted_uri) r.(plus_in_uri) r.(space_in_uri).

Definition set_http_minor (v : Z) (r : http_request) : http_request :=
  HttpRequest r.(method) r.(request_start) r.(method_end) r.(schema_start) r.(schema_end)
    r.(host_start) r.(host_end) r.(port_end) r.(uri_start) r.(uri_end) r.(uri_ext)
    r.(args_start) r.(http_protocol) r.(request_end) r.(http_major) v r.(http_version)
    r.(complex_uri) r.(quoted_uri) r.(plus_in_uri) r.(space_in_uri).

Definition set_http_version (v : Z) (r : http_request) : http_request :=
  HttpRequest r.(method) r.(request_start) r.(method_end) r.(schema_start) r.(schema_end)
    r.(host_start) r.(host_end) r.(port_end) r.(uri_start) r.(uri_end) r.(uri_ext)
    r.(args_start) r.(http_protocol) r.(request_end) r.(http_major) r.(http_minor) v
    r.(complex_uri) r.(quoted_uri) r.(plus_in_uri) r.(space_in_uri).

Definition set_complex_uri (v : bool) (r : http_request) : http_request :=
  HttpRequest r.(method) r.(request_start) r.(method_end) r.(schema_start) r.(schema_end)
    r.(host_start) r.(host_end) r.(port_end) r.(uri_start) r.(uri_end) r.(uri_ext)
    r.(args_start) r.(http_protocol) r.(request_end) r.(http_major) r.(http_minor)
    r.(http_version) v r.(quoted_uri) r.(plus_in_uri) r.(space_in_uri).

Definition set_quoted_uri (v : bool) (r : http_request) : http_request :=
  HttpRequest r.(method) r.(request_start) r.(method_end) r.(schema_start) r.(schema_end)
    r.(host_start) r.(host_end) r.(port_end) r.(uri_start) r.(uri_end) r.(uri_ext)
    r.(args_start) r.(http_protocol) r.(request_end) r.(http_major) r.(http_minor)
    r.(http_version) r.(complex_uri) v r.(plus_in_uri) r.(space_in_uri).

Definition set_plus_in_uri (v : bool) (r : http_request) : http_request :=
  HttpRequest r.(method) r.(request_start) r.(method_end) r.(schema_start) r.(schema_end)
    r.(host_start) r.(host_end) r.(port_end) r.(uri_start) r.(uri_end) r.(uri_ext)
    r.(args_start) r.(http_protocol) r.(request_end) r.(http_major) r.(http_minor)
    r.(http_version) r.(complex_uri) r.(quoted_uri) v r.(space_in_uri).

Definition set_space_in_uri (v : bool) (r : http_request) : http_request :=
  HttpRequest r.(method) r.(request_start) r.(method_end) r.(schema_start) r.(schema_end)
    r.(host_start) r.(host_end) r.(port_end) r.(uri_start) r.(uri_end) r.(uri_ext)
    r.(args_start) r.(http_protocol) r.(request_end) r.(http_major) r.(http_minor)
    r.(http_version) r.(complex_uri) r.(quoted_uri) r.(plus_in_uri) v.


(** ** The state machine *)

Inductive rl_state :=
  | sw_start | sw_method | sw_spaces_before_uri | sw_schema | sw_schema_slash
  | sw_schema_slash_slash | sw_host_start | sw_host | sw_host_end | sw_host_ip_literal
  | sw_port | sw_host_http_09 | sw_after_slash_in_uri | sw_check_uri | sw_check_uri_http_09
  | sw_uri | sw_http_09 | sw_http_H | sw_http_HT | sw_http_HTT | sw_http_HTTP
  | sw_first_major_digit | sw_major_digit | sw_first_minor_digit | sw_minor_digit
  | sw_spaces_after_digit | sw_almost_done.

(** A character read: the next state, the jump to [done], or a return; with
    what is stored so far. *)
Inductive pstep (S R : Type) :=
  | Next (st : S) (r : R)
  | Done (r : R)
  | Fail (code : Z) (r : R).

Arguments Next {S R} st r.
Arguments Done {S R} r.
Arguments Fail {S R} code r.

(** The methods by name; their order is that of the comparisons. *)
Definition http_methods : list (list Z * Z) :=
  [(lit "GET", 0x0002); (lit "PUT", 0x0010); (lit "POST", 0x0008); (lit "COPY", 0x0080);
   (lit "MOVE", 0x0100); (lit "LOCK", 0x1000); (lit "HEAD", 0x0004); (lit "MKCOL", 0x0040);
   (lit "PATCH", 0x4000); (lit "TRACE", 0x8000); (lit "DELETE", 0x0020); (lit "UNLOCK", 0x2000);
   (lit "OPTIONS", 0x0200); (lit "PROPFIND", 0x0400); (lit "PROPPATCH", 0x0800)].

(** The comparisons of words with [m], [p - m] characters long: the method, or
    the one there was. *)
Fixpoint find_method (methods : list (list Z * Z)) (name : list Z) (default : Z) : Z :=
  match methods with
  | [] => default
  | (s, code) :: methods' => if beq name s then code else find_method methods' name default
  end.

(** The characters of [mem] from [i] up to [j]. *)
Definition sub (mem : list Z) (i j : Z) : list Z :=
  take (Z.to_nat (j - i)) (drop (Z.to_nat i) mem).

#[global] Arguments sub : simpl never.

(** [sw_host_end], entered on its own or from [sw_host]. *)
Definition step_host_end (p ch : Z) (r : http_request) : pstep rl_state http_request :=
  let r := set_host_end (Some p) r in
  if ch =? COLON then Next sw_port r
  else if ch =? SLASH then Next sw_after_slash_in_uri (set_uri_start (Some p) r)
  else if ch =? SP then
    Next sw_host_http_09
      (set_uri_end ((fun e => e + 2) <$> r.(schema_end))
         (set_uri_start ((fun e => e + 1) <$> r.(schema_end)) r))
  else Fail NGX_HTTP_PARSE_INVALID_REQUEST r.

Definition step_host (p ch : Z) (r : http_request) : pstep rl_state http_request :=
  if is_letter ch || is_decimal ch || (ch =? DOT) || (ch =? 45) then Next sw_host r
  else step_host_end p ch r.

(** The characters of an address in brackets. *)
Definition ip_literal_char (ch : Z) : bool :=
  is_decimal ch || is_letter ch ||
  existsb (Z.eqb ch) [58; 45; 46; 95; 126; 33; 36; 38; 39; 40; 41; 42; 43; 44; 59; 61].

(** The end of the URI and, without a version, of the line. *)
Definition uri_ends (p ch : Z) (after : rl_state) (r : http_request)
  : option (pstep rl_state http_request) :=
  let e := set_uri_end (Some p) r in
  if ch =? SP then Some (Next after e)
  else if ch =? CR then Some (Next sw_almost_done (set_http_minor 9 e))
  else if ch =? LF then Some (Done (set_http_minor 9 e))
  else None.

Definition step_after_slash (p ch : Z) (r : http_request) : pstep rl_state http_request :=
  if is_usual ch then Next sw_check_uri r
  else
    match uri_ends p ch sw_check_uri_http_09 r with
    | Some res => res
    | None =>
        if ch =? DOT then Next sw_uri (set_complex_uri true r)
        else if ch =? PERCENT then Next sw_uri (set_quoted_uri true r)
        else if ch =? SLASH then Next sw_uri (set_complex_uri true r)
        else if ch =? QUESTION then Next sw_uri (set_args_start (Some (p + 1)) r)
        else if ch =? HASH then Next sw_uri (set_complex_uri true r)
        else if ch =? PLUS then Next sw_after_slash_in_uri (set_plus_in_uri true r)
        else if ch =? NUL then Fail NGX_HTTP_PARSE_INVALID_REQUEST r
        else Next sw_check_uri r
    end.

Definition step_check_uri (p ch : Z) (r : http_request) : pstep rl_state http_request :=
  if is_usual ch then Next sw_check_uri r
  else if ch =? SLASH then Next sw_after_slash_in_uri (set_uri_ext None r)
  else if ch =? DOT then Next sw_check_uri (set_uri_ext (Some (p + 1)) r)
  else
    match uri_ends p ch sw_check_uri_http_09 r with
    | Some res => res
    | None =>
        if ch =? PERCENT then Next sw_uri (set_quoted_uri true r)
        else if ch =? QUESTION then Next sw_uri (set_args_start (Some (p + 1)) r)
        else if ch =? HASH then Next sw_uri (set_complex_uri true r)
        else if ch =? PLUS then Next sw_check_uri (set_plus_in_uri true r)
        else if ch =? NUL then Fail NGX_HTTP_PARSE_INVALID_REQUEST r
        else Next sw_check_uri r
    end.

Definition step_uri (p ch : Z) (r : http_request) : pstep rl_state http_request :=
  if is_usual ch then Next sw_uri r
  else
    match uri_ends p ch sw_http_09 r with
    | Some res => res
    | None =>
        if ch =? HASH then Next sw_uri (set_complex_uri true r)
        else if ch =? NUL then Fail NGX_HTTP_PARSE_INVALID_REQUEST r
        else Next sw_uri r
    end.

(** Spaces after the URI: [other] is what any other character comes to. *)
Definition step_http_09 (p ch : Z) (st : rl_state) (other : pstep rl_state http_request)
    (r : http_request) : pstep rl_state http_request :=
  if ch =? SP then Next st r
  else if ch =? CR then Next sw_almost_done (set_http_minor 9 r)
  else if ch =? LF then Done (set_http_minor 9 r)
  else if ch =? 72 then Next sw_http_H (set_http_protocol (Some p) r)
  else other.

Definition expect (c : Z) (st : rl_state) (ch : Z) (r : http_request) : pstep rl_state http_request :=
  if ch =? c then Next st r else Fail NGX_HTTP_PARSE_INVALID_REQUEST r.

(** One turn of the loop: the character [ch] at [p]. *)
Definition rl_step (mem : list Z) (p ch : Z) (st : rl_state) (r : http_request)
  : pstep rl_state http_request :=
  match st with
  | sw_start =>
      let r := set_request_start (Some p) r in
      if (ch =? CR) || (ch =? LF) then Next sw_start r
      else if ((ch <? 65) || (90 <? ch)) && negb (ch =? 95)
      then Fail NGX_HTTP_PARSE_INVALID_METHOD r
      else Next sw_method r
  | sw_method =>
      if ch =? SP then
        let r := set_method_end (Some (p - 1)) r in
        let name := match r.(request_start) with Some m => sub mem m p | None => [] end in
        Next sw_spaces_before_uri (set_method (find_method http_methods name r.(method)) r)
      else if ((ch <? 65) || (90 <? ch)) && negb (ch =? 95)
      then Fail NGX_HTTP_PARSE_INVALID_METHOD r
      else Next sw_method r
  | sw_spaces_before_uri =>
      if ch =? SLASH then Next sw_after_slash_in_uri (set_uri_start (Some p) r)
      else if is_letter ch then Next sw_schema (set_schema_start (Some p) r)
      else if ch =? SP then Next sw_spaces_before_uri r
      else Fail NGX_HTTP_PARSE_INVALID_REQUEST r
  | sw_schema =>
      if is_letter ch then Next sw_schema r
      else if ch =? COLON then Next sw_schema_slash (set_schema_end (Some p) r)
      else Fail NGX_HTTP_PARSE_INVALID_REQUEST r
  | sw_schema_slash => expect SLASH sw_schema_slash_slash ch r
  | sw_schema_slash_slash => expect SLASH sw_host_start ch r
  | sw_host_start =>
      let r := set_host_start (Some p) r in
      if ch =? 91 then Next sw_host_ip_literal r else step_host p ch r
  | sw_host => step_host p ch r
  | sw_host_end => step_host_end p ch r
  | sw_host_ip_literal =>
      if ip_literal_char ch then Next sw_host_ip_literal r
      else if ch =? 93 then Next sw_host_end r
      else Fail NGX_HTTP_PARSE_INVALID_REQUEST r
  | sw_port =>
      if is_decimal ch then Next sw_port r
      else if ch =? SLASH
      then Next sw_after_slash_in_uri (set_uri_start (Some p) (set_port_end (Some p) r))
      else if ch =? SP then
        let r := set_port_end (Some p) r in
        Next sw_host_http_09
          (set_uri_end ((fun e => e + 2) <$> r.(schema_end))
             (set_uri_start ((fun e => e + 1) <$> r.(schema_end)) r))
      else Fail NGX_HTTP_PARSE_INVALID_REQUEST r
  | sw_host_http_09 =>
      step_http_09 p ch sw_host_http_09 (Fail NGX_HTTP_PARSE_INVALID_REQUEST r) r
  | sw_after_slash_in_uri => step_after_slash p ch r
  | sw_check_uri => step_check_uri p ch r
  | sw_check_uri_http_09 =>
      step_http_09 p ch sw_check_uri_http_09 (Next sw_check_uri (set_space_in_uri true r)) r
  | sw_uri => step_uri p ch r
  | sw_http_09 => step_http_09 p ch sw_http_09 (Next sw_uri (set_space_in_uri true r)) r
  | sw_http_H => expect 84 sw_http_HT ch r
  | sw_http_HT => expect 84 sw_http_HTT ch r
  | sw_http_HTT => expect 80 sw_http_HTTP ch r
  | sw_http_HTTP => expect SLASH sw_first_major_digit ch r
  | sw_first_major_digit =>
      if (ch <? 49) || (57 <? ch) then Fail NGX_HTTP_PARSE_INVALID_REQUEST r
      else Next sw_major_digit (set_http_major (ch - 48) r)
  | sw_major_digit =>
      if ch =? DOT then Next sw_first_minor_digit r
      else if negb (is_decimal ch) then Fail NGX_HTTP_PARSE_INVALID_REQUEST r
      else Next sw_major_digit (set_http_major (u16 (r.(http_major) * 10 + ch - 48)) r)
  | sw_first_minor_digit =>
      if negb (is_decimal ch) then Fail NGX_HTTP_PARSE_INVALID_REQUEST r
      else Next sw_minor_digit (set_http_minor (ch - 48) r)
  | sw_minor_digit =>
      if ch =? CR then Next sw_almost_done r
      else if ch =? LF then Done r
      else if ch =? SP then Next sw_spaces_after_digit r
      else if negb (is_decimal ch) then Fail NGX_HTTP_PARSE_INVALID_REQUEST r
      else Next sw_minor_digit (set_http_minor (u16 (r.(http_minor) * 10 + ch - 48)) r)
  | sw_spaces_after_digit =>
      if ch =? SP then Next sw_spaces_after_digit r
      else if ch =? CR then Next sw_almost_done r
      else if ch =? LF then Done r
      else Fail NGX_HTTP_PARSE_INVALID_REQUEST r
  | sw_almost_done =>
      let r := set_request_end (Some (p - 1)) r in
      if ch =? LF then Done r else Fail NGX_HTTP_PARSE_INVALID_REQUEST r
  end.

(** The end of the parsing, at the line feed at [p]. *)
Definition rl_done (p : Z) (r : http_request) : Z * http_request :=
  let r := match r.(request_end) with None => set_request_end (Some p) r | Some _ => r end in
  let r := set_http_version (r.(http_major) * 1000 + r.(http_minor)) r in
  (if (r.(http_version) =? 9) && negb (r.(method) =? 0x0002)
   then NGX_HTTP_PARSE_INVALID_09_METHOD else NGX_OK, r).

(** What a call leaves: the code, the request, [r->state] and [b->pos]. *)
Record rl_result := RlResult {
  rl_code : Z;
  rl_request : http_request;
  rl_st : rl_state;
  rl_pos : Z;
}.

(** [input] is what is in the buffer from [p] to [b->last]; the state and position
    are the local variables [state] and [p] where the loop is left. *)
Fixpoint rl_loop (mem : list Z) (input : list Z) (p : Z) (st : rl_state) (r : http_request)
  : rl_result :=
  match input with
  | [] => RlResult NGX_AGAIN r st p
  | ch :: input' =>
      match rl_step mem p ch st r with
      | Next st r => rl_loop mem input' (p + 1) st r
      | Done r => let (code, r) := rl_done p r in RlResult code r sw_start (p + 1)
      | Fail code r => RlResult code r st p
      end
  end.

(** The codes with which the parser refuses a line. *)
Definition refused (code : Z) : bool :=
  (code =? NGX_HTTP_PARSE_INVALID_METHOD) || (code =? NGX_HTTP_PARSE_INVALID_REQUEST).

(** A refused line returns from inside the loop: [b->pos] and [r->state] are what
    they were at the call. The other returns store them. *)
Definition stored (pos : Z) (st : rl_state) (res : rl_result) : rl_result :=
  if refused res.(rl_code) then RlResult res.(rl_code) res.(rl_request) st pos else res.

Definition ngx_http_parse_request_line (mem : list Z) (pos last : Z) (st : rl_state)
    (r : http_request) : rl_result :=
  stored pos st (rl_loop mem (sub mem pos last) pos st r).

(** ** Resuming *)

Lemma step_fail_codes mem p ch st r code r' :
  rl_step mem p ch st r = Fail code r' ->
  code = NGX_HTTP_PARSE_INVALID_METHOD \/ code = NGX_HTTP_PARSE_INVALID_REQUEST.
Proof.
  intros H. destruct st; cbn in H;
    unfold expect, step_host, step_host_end, step_after_slash, step_check_uri, step_uri,
      step_http_09, uri_ends in H;
    repeat case_match; simplify_eq; auto.
Qed.

Lemma rl_done_code p r : fst (rl_done p r) <> NGX_AGAIN.
Proof. unfold rl_done. cbn. by destruct (_ && _). Qed.

Lemma stored_code pos st res : (stored pos st res).(rl_code) = res.(rl_code).
Proof. unfold stored. by destruct (refused _). Qed.

Lemma stored_request pos st res : (stored pos st res).(rl_request) = res.(rl_request).
Proof. unfold stored. by destruct (refused _). Qed.

Lemma stored_same pos st res : refused res.(rl_code) = false -> stored pos st res = res.
Proof. unfold stored. by intros ->. Qed.

(** What was read up to [p] does not depend on what comes after. *)
Lemma sub_app_l a b i j : 0 <= i -> j <= zlen a -> sub (a ++ b) i j = sub a i j.
Proof.
  intros Hi Hj. unfold sub. destruct (Z.le_gt_cases i j).
  - rewrite drop_app_le by (unfold zlen in Hj; lia).
    apply take_app_le. rewrite length_drop. unfold zlen in Hj. lia.
  - replace (Z.to_nat (j - i)) with O by lia. done.
Qed.

Definition start_nonneg (r : http_request) : Prop :=
  match r.(request_start) with Some m => 0 <= m | None => True end.

Lemma step_start_nonneg mem p ch st r st' r' :
  0 <= p -> start_nonneg r -> rl_step mem p ch st r = Next st' r' -> start_nonneg r'.
Proof.
  intros Hp Hr H. destruct st; cbn in H;
    unfold expect, step_host, step_host_end, step_after_slash, step_check_uri, step_uri,
      step_http_09, uri_ends in H;
    repeat case_match; simplify_eq; done.
Qed.

Lemma step_mem mem more p ch st r :
  start_nonneg r -> p <= zlen mem -> rl_step (mem ++ more) p ch st r = rl_step mem p ch st r.
Proof.
  intros Hr Hp. destruct st; try reflexivity. cbn. destruct (ch =? SP); [|done].
  unfold start_nonneg in Hr. destruct (request_start r); [|done]. by rewrite sub_app_l.
Qed.

(** The loop on the first part of the input, and on the rest if that was not the
    end. *)
Lemma loop_app mem a b more : forall p st r,
  0 <= p -> start_nonneg r -> p + zlen a <= zlen mem ->
  rl_loop (mem ++ more) (a ++ b) p st r =
    let res := rl_loop mem a p st r in
    if res.(rl_code) =? NGX_AGAIN
    then rl_loop (mem ++ more) b (p + zlen a) res.(rl_st) res.(rl_request)
    else res.
Proof.
  induction a as [|ch a IH]; intros p st r Hp Hr Hm; cbn [app rl_loop].
  { rewrite zlen_nil, Z.add_0_r. done. }
  rewrite zlen_cons in Hm. pose proof (zlen_nonneg a). rewrite step_mem by first [done | lia].
  destruct (rl_step mem p ch st r) as [st' r'|r'|code r'] eqn:E.
  - rewrite IH by first [lia | exact (step_start_nonneg _ _ _ _ _ _ _ Hp Hr E)]. cbn zeta. rewrite zlen_cons.
    by replace (p + 1 + zlen a) with (p + (1 + zlen a)) by lia.
  - pose proof (rl_done_code p r') as Hc. destruct (rl_done p r') as [code r2]. cbn in *.
    by rewrite (proj2 (Z.eqb_neq _ _) Hc).
  - apply step_fail_codes in E as [-> | ->]; done.
Qed.

Lemma sub_all l : sub l 0 (zlen l) = l.
Proof. unfold sub. rewrite drop_0. apply take_ge. unfold zlen. lia. Qed.

(** A whole line that is accepted is read by the loop alone. *)
Lemma parse_all mem st r :
  (ngx_http_parse_request_line mem 0 (zlen mem) st r).(rl_code) = NGX_OK ->
  ngx_http_parse_request_line mem 0 (zlen mem) st r = rl_loop mem mem 0 st r.
Proof.
  unfold ngx_http_parse_request_line. rewrite sub_all, stored_code. intros E. apply stored_same. by rewrite E.
Qed.

Lemma sub_tail a b : sub (a ++ b) (zlen a) (zlen (a ++ b)) = b.
Proof.
  unfold sub. rewrite zlen_app. unfold zlen. rewrite drop_app_length' by lia.
  apply take_ge. lia.
Qed.

Lemma sub_middle a b c : sub (a ++ b ++ c) (zlen a) (zlen a + zlen b) = b.
Proof.
  unfold sub. replace (Z.to_nat (zlen a + zlen b - zlen a)) with (length b) by (unfold zlen; lia).
  unfold zlen. rewrite Nat2Z.id, drop_app_length' by done. by apply take_app_length'.
Qed.

Lemma sub_snoc mem i p c :
  0 <= i <= p -> mem !! Z.to_nat p = Some c -> sub mem i (p + 1) = sub mem i p ++ [c].
Proof.
  intros Hi Hc. unfold sub. replace (Z.to_nat (p + 1 - i)) with (S (Z.to_nat (p - i))) by lia.
  apply take_S_r. rewrite lookup_drop. rewrite <- Hc. f_equal. lia.
Qed.

(** The calls of the parser while a request line arrives in pieces. *)
Fixpoint rl_feed (mem : list Z) (pieces : list (list Z)) (st : rl_state) (r : http_request)
  : rl_result :=
  match pieces with
  | [] => RlResult NGX_AGAIN r st (zlen mem)
  | a :: pieces' =>
      let res := ngx_http_parse_request_line (mem ++ a) (zlen mem) (zlen (mem ++ a)) st r in
      if res.(rl_code) =? NGX_AGAIN
      then rl_feed (mem ++ a) pieces' res.(rl_st) res.(rl_request) else res
  end.

Lemma loop_again mem a : forall p st r,
  0 <= p -> start_nonneg r -> (rl_loop mem a p st r).(rl_code) = NGX_AGAIN ->
  (rl_loop mem a p st r).(rl_pos) = p + zlen a /\ start_nonneg (rl_loop mem a p st r).(rl_request).
Proof.
  induction a as [|ch a IH]; intros p st r Hp Hr; cbn [rl_loop].
  { rewrite zlen_nil. split; [cbn; lia|done]. }
  destruct (rl_step mem p ch st r) as [st' r'|r'|code r'] eqn:E.
  - intros H. rewrite zlen_cons. replace (p + (1 + zlen a)) with (p + 1 + zlen a) by lia.
    apply IH; [lia|exact (step_start_nonneg _ _ _ _ _ _ _ Hp Hr E)|done].
  - pose proof (rl_done_code p r') as Hc. destruct (rl_done p r') as [code r2]. cbn in *. congruence.
  - cbn. apply step_fail_codes in E as [-> | ->]; done.
Qed.

(** The parser stopped at a refused line, in the piece behind [before]: the
    position and the state are those before that piece. *)
Definition refused_in (pieces before : list (list Z)) (mem : list Z) (st : rl_state)
    (r : http_request) (res : rl_result) : Prop :=
  exists piece after, pieces = before ++ piece :: after /\
    (rl_feed mem before st r).(rl_code) = NGX_AGAIN /\
    res.(rl_pos) = zlen (mem ++ concat before) /\ res.(rl_st) = (rl_feed mem before st r).(rl_st).

Lemma feed_loop pieces : forall mem st r, start_nonneg r ->
  let res := rl_feed mem pieces st r in
  let whole := rl_loop (mem ++ concat pieces) (concat pieces) (zlen mem) st r in
  res.(rl_code) = whole.(rl_code) /\ res.(rl_request) = whole.(rl_request) /\
  (if refused whole.(rl_code) then exists before, refused_in pieces before mem st r res
   else res = whole).
Proof.
  induction pieces as [|a pieces IH]; intros mem st r Hr; cbn [rl_feed concat]; [cbn; by split|].
  pose proof (zlen_nonneg mem). unfold ngx_http_parse_request_line. rewrite sub_tail, app_assoc.
  rewrite (loop_app (mem ++ a)) by (try done; rewrite zlen_app; lia). cbv zeta. rewrite stored_code.
  set (res := rl_loop (mem ++ a) a (zlen mem) st r).
  destruct (Z.eqb_spec res.(rl_code) NGX_AGAIN) as [E|E].
  - destruct (loop_again (mem ++ a) a (zlen mem) st r) as [_ Hn]; [lia|done|done|]. fold res in Hn.
    rewrite stored_same by (by rewrite E). rewrite <- zlen_app.
    destruct (IH (mem ++ a) res.(rl_st) res.(rl_request) Hn) as (H1 & H2 & H3). cbv zeta in H1, H2, H3.
    split; [done|]. split; [done|]. destruct (refused _); [|done].
    destruct H3 as (before & piece & after & -> & Hc & Hp & Hs). exists (a :: before), piece, after.
    cbn [rl_feed concat]. unfold ngx_http_parse_request_line. rewrite sub_tail. fold res.
    rewrite stored_same by (by rewrite E). rewrite E. cbn [Z.eqb]. by rewrite app_assoc.
  - rewrite stored_code, stored_request. split; [done|]. split; [done|]. destruct (refused _) eqn:Er; [|by apply stored_same].
    exists [], a, pieces. unfold stored. rewrite Er. cbn. by rewrite app_nil_r.
Qed.

(** C35: a request line is parsed alike however it arrives. Cut into any pieces,
    each parsed as it is received with the state kept in the request, it gives
    the same return code and the same pointers and flags as the whole line at
    once. Unless the line is refused, the position and the state are the same
    too. Of a refused line they are not stored: the whole line leaves them as
    they were at the call, and the pieces as they were when the piece that is
    refused arrived, the pieces before it being read. *)
Theorem request_line_resumes pieces st r :
  r.(request_start) = None ->
  let res := rl_feed [] pieces st r in
  let whole := ngx_http_parse_request_line (concat pieces) 0 (zlen (concat pieces)) st r in
  res.(rl_code) = whole.(rl_code) /\ res.(rl_request) = whole.(rl_request) /\
  if refused whole.(rl_code)
  then whole.(rl_pos) = 0 /\ whole.(rl_st) = st /\ exists before, refused_in pieces before [] st r res
  else res = whole.
Proof.
  intros Hr0. assert (Hr : start_nonneg r) by (unfold start_nonneg; by rewrite Hr0).
  destruct (feed_loop pieces [] st r Hr) as (H1 & H2 & H3). cbn [app] in *. cbv zeta in *.
  unfold ngx_http_parse_request_line. rewrite sub_all, stored_code, stored_request. split; [done|]. split; [done|].
  unfold stored. change (zlen (@nil Z)) with 0 in *. by destruct (refused _).
Qed.

(** A line in five pieces, and one that is refused in the second of its pieces. *)
Lemma request_line_resumes_witness :
  let r := HttpRequest 1 None None None None None None None None None None None None None 0 0 1000 false false false false in
  rl_feed [] [lit "GE"; []; lit "T /a?b HT"; lit "TP/1.1" ++ [CR]; [LF]] sw_start r =
    ngx_http_parse_request_line (lit "GET /a?b HTTP/1.1" ++ [CR; LF]) 0 19 sw_start r /\
  (rl_feed [] [lit "GE"; []; lit "T /a?b HT"; lit "TP/1.1" ++ [CR]; [LF]] sw_start r).(rl_code) = NGX_OK /\
  (rl_feed [] [lit "GET /a"; lit "b HTTX"; lit "/1.0"] sw_start r).(rl_request)
    = (ngx_http_parse_request_line (lit "GET /ab HTTX/1.0") 0 16 sw_start r).(rl_request) /\
  (rl_feed [] [lit "GET /a"; lit "b HTTX"; lit "/1.0"] sw_start r).(rl_pos) = 6 /\
  (ngx_http_parse_request_line (lit "GET /ab HTTX/1.0") 0 16 sw_start r).(rl_pos) = 0.
Proof.
  intros r. split; [|split; [vm_compute; reflexivity|]].
  - exact (proj2 (proj2 (request_line_resumes [lit "GE"; []; lit "T /a?b HT"; lit "TP/1.1" ++ [CR]; [LF]] sw_start r eq_refl))).
  - destruct (request_line_resumes [lit "GET /a"; lit "b HTTX"; lit "/1.0"] sw_start r eq_refl) as (_ & H & Hp & _).
    split; [exact H|]. split; [vm_compute; reflexivity|exact Hp].
Defined.
