(* ===== verification/HttpRequestSafe.v ===== *)
(** * The request line: pointers and contents

    The pointers [ngx_http_parse_request_line] leaves delimit proper parts of
    the line, in order; a line of the usual form is read as it was written; and
    a URI not marked as complex, quoted or with a space needs no normalisation. *)

From S2P Require Import Prelude HttpRequest.

(** ** Pointers *)

Definition has (o : option Z) (P : Z -> Prop) : Prop :=
  match o with Some v => P v | None => False end.

Definition within (o : option Z) (lo hi : Z) : Prop :=
  match o with Some v => lo < v <= hi | None => True end.

(** The method ends before [q]. *)
Definition method_ok (r : http_request) (q : Z) : Prop :=
  has r.(request_start) (fun m => has r.(method_end) (fun e => 0 <= m <= e /\ e + 1 < q)).

Definition no_host (r : http_request) : Prop :=
  r.(schema_start) = None /\ r.(schema_end) = None /\ r.(host_start) = None /\
  r.(host_end) = None /\ r.(port_end) = None.

Definition no_uri (r : http_request) : Prop :=
  r.(uri_start) = None /\ r.(uri_end) = None /\ r.(uri_ext) = None /\ r.(args_start) = None.

(** Schema, host and port, if any, follow each other up to [q]. *)
Definition host_ok (r : http_request) (q : Z) : Prop :=
  no_host r \/
  has r.(method_end) (fun e => has r.(schema_start) (fun s => has r.(schema_end) (fun se =>
    has r.(host_start) (fun hs => has r.(host_end) (fun he =>
      e + 1 < s < se /\ se + 2 < hs <= he /\ he <= q /\ within r.(port_end) he q))))).

(** The extension lies in the path, before the arguments. *)
Definition ext_ok (r : http_request) : Prop :=
  match r.(uri_ext), r.(args_start) with Some x, Some a => x < a | _, _ => True end.

(** The URI, of which the characters up to [q] are known, and which began before
    [q]. *)
Definition uri_ok (r : http_request) (q : Z) : Prop :=
  has r.(method_end) (fun e => has r.(uri_start) (fun us =>
    e + 1 < us < q /\ within r.(args_start) us q /\ within r.(uri_ext) us q /\ ext_ok r)).

(** The URI ended before [q]. *)
Definition uri_ended (r : http_request) (q : Z) : Prop :=
  has r.(uri_end) (fun ue => uri_ok r ue /\ ue < q).

(** The protocol began after the URI and [n] or more characters before [p]. *)
Definition protocol_ok (r : http_request) (n p : Z) : Prop :=
  has r.(uri_end) (fun ue => has r.(http_protocol) (fun h => ue <= h /\ h + n <= p)).

Definition protocol_or_none (r : http_request) (p : Z) : Prop :=
  r.(http_protocol) = None \/ protocol_ok r 8 p.

(** What holds of a request before the character at [p] is read. *)
Definition rl_inv (st : rl_state) (r : http_request) (p : Z) : Prop :=
  0 <= p /\ r.(request_end) = None /\
  match st with
  | sw_start => no_host r /\ no_uri r /\ r.(http_protocol) = None
  | sw_method =>
      has r.(request_start) (fun m => 0 <= m < p) /\ no_host r /\ no_uri r /\ r.(http_protocol) = None
  | sw_spaces_before_uri => method_ok r p /\ no_host r /\ no_uri r /\ r.(http_protocol) = None
  | sw_schema =>
      method_ok r p /\ no_uri r /\ r.(http_protocol) = None /\ r.(port_end) = None /\
      has r.(method_end) (fun e => has r.(schema_start) (fun s => e + 1 < s < p))
  | sw_schema_slash | sw_schema_slash_slash | sw_host_start | sw_host | sw_host_end
  | sw_host_ip_literal | sw_port =>
      method_ok r p /\ no_uri r /\ r.(http_protocol) = None /\ r.(port_end) = None /\
      has r.(method_end) (fun e => has r.(schema_start) (fun s => has r.(schema_end) (fun se =>
        e + 1 < s < se /\
        match st with
        | sw_schema_slash => se + 1 = p
        | sw_schema_slash_slash => se + 1 < p
        | sw_host_start => se + 2 < p
        | sw_port => has r.(host_start) (fun hs => has r.(host_end) (fun he => se + 2 < hs <= he /\ he < p))
        | _ => has r.(host_start) (fun hs => se + 2 < hs < p)
        end)))
  | sw_after_slash_in_uri | sw_check_uri =>
      method_ok r p /\ host_ok r (p - 1) /\ r.(http_protocol) = None /\ uri_ok r p /\
      r.(args_start) = None
  | sw_uri => method_ok r p /\ host_ok r (p - 1) /\ r.(http_protocol) = None /\ uri_ok r p
  | sw_host_http_09 | sw_http_09 =>
      method_ok r p /\ host_ok r (p - 1) /\ r.(http_protocol) = None /\ uri_ended r p
  | sw_check_uri_http_09 =>
      method_ok r p /\ host_ok r (p - 1) /\ r.(http_protocol) = None /\ uri_ended r p /\
      r.(args_start) = None
  | sw_almost_done =>
      method_ok r p /\ host_ok r (p - 1) /\ uri_ended r p /\ protocol_or_none r (p - 1)
  | sw_http_H => method_ok r p /\ host_ok r (p - 1) /\ uri_ended r p /\ protocol_ok r 1 p
  | sw_http_HT => method_ok r p /\ host_ok r (p - 1) /\ uri_ended r p /\ protocol_ok r 2 p
  | sw_http_HTT => method_ok r p /\ host_ok r (p - 1) /\ uri_ended r p /\ protocol_ok r 3 p
  | sw_http_HTTP => method_ok r p /\ host_ok r (p - 1) /\ uri_ended r p /\ protocol_ok r 4 p
  | sw_first_major_digit => method_ok r p /\ host_ok r (p - 1) /\ uri_ended r p /\ protocol_ok r 5 p
  | sw_major_digit => method_ok r p /\ host_ok r (p - 1) /\ uri_ended r p /\ protocol_ok r 6 p
  | sw_first_minor_digit => method_ok r p /\ host_ok r (p - 1) /\ uri_ended r p /\ protocol_ok r 7 p
  | sw_minor_digit | sw_spaces_after_digit =>
      method_ok r p /\ host_ok r (p - 1) /\ uri_ended r p /\ protocol_ok r 8 p
  end.

(** A line whose line feed is at [p]: method, then schema, host and port, then
    URI with extension and arguments, then protocol, each within the one line
    and in this order. *)
Definition line_ok (r : http_request) (p : Z) : Prop :=
  has r.(request_end) (fun re =>
    0 <= re <= p /\ method_ok r re /\ host_ok r re /\
    has r.(uri_end) (fun ue => uri_ok r ue /\ ue <= re) /\
    (r.(http_protocol) = None \/ protocol_ok r 8 re)).

Lemma within_mono o lo hi hi' : hi <= hi' -> within o lo hi -> within o lo hi'.
Proof. destruct o; cbn; [lia|done]. Qed.

Lemma has_mono o (P Q : Z -> Prop) : (forall v, P v -> Q v) -> has o P -> has o Q.
Proof. destruct o; cbn; auto. Qed.

Lemma method_ok_mono r q q' : q <= q' -> method_ok r q -> method_ok r q'.
Proof. intros Hq. apply has_mono. intros m. apply has_mono. intros e. lia. Qed.

Lemma host_ok_mono r q q' : q <= q' -> host_ok r q -> host_ok r q'.
Proof.
  intros Hq [H|H]; [by left|right]. revert H. do 5 (apply has_mono; intros ?).
  intros (H1 & H2 & H3 & H4). split_and!; try lia. by eapply within_mono.
Qed.

Lemma uri_ok_mono r q q' : q <= q' -> uri_ok r q -> uri_ok r q'.
Proof.
  intros Hq. do 2 (apply has_mono; intros ?). intros (H1 & H2 & H3 & H4).
  split_and!; try lia; try done; by eapply within_mono.
Qed.

Lemma uri_ended_mono r q q' : q <= q' -> uri_ended r q -> uri_ended r q'.
Proof. intros Hq. apply has_mono. intros ue [H1 H2]. split; [done|lia]. Qed.

Lemma protocol_ok_mono r n p n' p' : n' - n <= p' - p -> protocol_ok r n p -> protocol_ok r n' p'.
Proof. intros Hq. do 2 (apply has_mono; intros ?). lia. Qed.

(** The URI that ends where it was read to. *)
Lemma uri_ended_here r p : uri_ok r p -> uri_ended (set_uri_end (Some p) r) (p + 1).
Proof. intros H. split; [exact H|lia]. Qed.

Lemma uri_starts_here r p : method_ok r p -> no_uri r -> uri_ok (set_uri_start (Some p) r) (p + 1).
Proof.
  unfold method_ok, uri_ok, ext_ok. cbn. intros H (_ & _ & -> & ->). destruct (request_start r), (method_end r); try done.
  cbn in *. lia.
Qed.

(** A single slash of the schema stands for the URI of a request without one. *)
Lemma uri_from_schema r p se :
  has r.(method_end) (fun e => e + 1 < se) -> r.(schema_end) = Some se -> se + 2 < p + 1 ->
  r.(uri_ext) = None -> r.(args_start) = None ->
  uri_ended (set_uri_end ((fun e => e + 2) <$> r.(schema_end))
               (set_uri_start ((fun e => e + 1) <$> r.(schema_end)) r)) (p + 1).
Proof.
  unfold uri_ended, uri_ok, ext_ok. cbn. intros H -> Hp -> ->. cbn. destruct (method_end r); [|done]. cbn in *. lia.
Qed.

Lemma args_start_here r p :
  uri_ok r p -> r.(args_start) = None -> uri_ok (set_args_start (Some (p + 1)) r) (p + 1).
Proof.
  unfold uri_ok, ext_ok. cbn. intros H1 H2. revert H1. do 2 (apply has_mono; intros ?).
  intros (A & B & C & _). destruct (uri_ext r); cbn in *; lia.
Qed.

Lemma ext_here r p :
  uri_ok r p -> r.(args_start) = None -> uri_ok (set_uri_ext (Some (p + 1)) r) (p + 1).
Proof.
  unfold uri_ok, ext_ok. cbn. intros H1 H2. revert H1. do 2 (apply has_mono; intros ?).
  intros (A & B & C & _). rewrite H2. cbn. lia.
Qed.

Lemma ext_none r p : uri_ok r p -> uri_ok (set_uri_ext None r) (p + 1).
Proof.
  unfold uri_ok, ext_ok. cbn. do 2 (apply has_mono; intros ?).
  intros (A & B & C & _). split_and!; try done; try lia. apply (within_mono _ _ p); [lia|done].
Qed.

(** Facts that a character leaves alone, or that only move on with [p]. *)
Ltac keep :=
  first
    [ match goal with
      | H : method_ok ?r ?q |- method_ok _ _ => refine (method_ok_mono r q _ _ H); lia
      | H : host_ok ?r ?q |- host_ok _ _ => refine (host_ok_mono r q _ _ H); lia
      | H : uri_ok ?r ?q |- uri_ok _ _ => refine (uri_ok_mono r q _ _ H); lia
      | H : uri_ended ?r ?q |- uri_ended _ _ => refine (uri_ended_mono r q _ _ H); lia
      | H : protocol_ok ?r ?n ?q |- protocol_ok _ _ _ => refine (protocol_ok_mono r n q _ _ _ H); lia
      end
    | lia
    | match goal with H : ?P |- _ => exact H end
    | match goal with
      | H : uri_ok ?r ?q |- uri_ended _ _ => exact (uri_ended_here r q H)
      | H : http_protocol _ = None |- protocol_or_none _ _ => left; exact H
      | H : protocol_ok ?r ?n ?q |- protocol_or_none _ _ =>
          right; refine (protocol_ok_mono r n q _ _ _ H); lia
      | H : protocol_or_none ?r ?q |- _ \/ _ => exact H
      end
    | by apply uri_starts_here | by apply args_start_here | by apply ext_here | by apply ext_none ].

Definition next_ok (p : Z) (res : pstep rl_state http_request) : Prop :=
  match res with
  | Next st r => rl_inv st r (p + 1)
  | Done r => line_ok (snd (rl_done p r)) p
  | Fail _ _ => True
  end.

(** The line ends at [re], before which everything ended. *)
Lemma line_ended r re p :
  r.(request_end) = Some re -> 0 <= re <= p -> method_ok r p -> host_ok r re ->
  has r.(uri_end) (fun ue => uri_ok r ue /\ ue <= re) ->
  (r.(http_protocol) = None \/ protocol_ok r 8 re) -> line_ok r p.
Proof.
  intros Hre Hp Hm Hh Hu Hpr. unfold line_ok. rewrite Hre. cbn [has].
  split_and!; try done; try lia.
  unfold method_ok in *. destruct (uri_end r) as [ue|]; [|done]. destruct Hu as [Hu Hle].
  unfold uri_ok in Hu. destruct (request_start r), (method_end r), (uri_start r); try done. cbn in *. lia.
Qed.

Lemma done_here r p :
  0 <= p -> r.(request_end) = None -> method_ok r p -> host_ok r p ->
  has r.(uri_end) (fun ue => uri_ok r ue /\ ue <= p) ->
  (r.(http_protocol) = None \/ protocol_ok r 8 p) -> line_ok (snd (rl_done p r)) p.
Proof.
  intros Hp He Hm Hh Hu Hpr. unfold rl_done. rewrite He. apply (line_ended _ p); [done|lia|done..].
Qed.

Lemma ended_before r p : uri_ended r p -> has r.(uri_end) (fun ue => uri_ok r ue /\ ue <= p).
Proof. apply has_mono. intros ue [H1 H2]. split; [done|lia]. Qed.

Lemma uri_now r p : uri_ok r p -> has (Some p) (fun ue => uri_ok r ue /\ ue <= p).
Proof. intros H. split; [done|lia]. Qed.

(** Every part of the invariant after a character, or of the line at its end. *)
Ltac inv_step :=
  unfold next_ok;
  lazymatch goal with
  | |- rl_inv _ _ _ => unfold rl_inv; cbv beta iota; split_and!; keep
  | |- line_ok _ _ =>
      apply done_here;
        first [ keep | by apply ended_before | by apply uri_now | by left | by right; keep ]
  | |- True => done
  end.

Lemma path_inv p ch r :
  rl_inv sw_check_uri r p -> next_ok p (step_check_uri p ch r) /\ next_ok p (step_after_slash p ch r).
Proof.
  intros (Hp & He & Hm & Hh & Hpr & Hu & Ha).
  unfold step_check_uri, step_after_slash, uri_ends. split; repeat case_match; simplify_eq; inv_step.
Qed.

Lemma uri_inv p ch r : rl_inv sw_uri r p -> next_ok p (step_uri p ch r).
Proof.
  intros (Hp & He & Hm & Hh & Hpr & Hu).
  unfold step_uri, uri_ends. repeat case_match; simplify_eq; inv_step.
Qed.

(** Spaces after the URI. *)
Lemma http_09_inv p ch st other r :
  0 <= p -> r.(request_end) = None -> method_ok r p -> host_ok r (p - 1) -> r.(http_protocol) = None ->
  uri_ended r p -> rl_inv st r (p + 1) -> next_ok p other -> next_ok p (step_http_09 p ch st other r).
Proof.
  intros Hp He Hm Hh Hpr Hu Hst Ho. unfold step_http_09. repeat case_match; simplify_eq; try done; try inv_step.
  unfold next_ok, rl_inv. split_and!; try keep. unfold protocol_ok. cbn.
  eapply has_mono; [|exact Hu]. cbn. lia.
Qed.

(** The parts of a URI with a host. *)
Definition host_inv (r : http_request) (p : Z) : Prop :=
  0 <= p /\ r.(request_end) = None /\ method_ok r p /\ no_uri r /\ r.(http_protocol) = None /\
  r.(port_end) = None /\
  has r.(method_end) (fun e => has r.(schema_start) (fun s => has r.(schema_end) (fun se =>
    e + 1 < s < se /\ has r.(host_start) (fun hs => se + 2 < hs <= p)))).

Lemma host_end_inv p ch r : host_inv r p -> next_ok p (step_host_end p ch r).
Proof.
  intros (Hp & He & Hm & Hu & Hpr & Hpo & H). unfold step_host_end. cbn zeta.
  assert (Hh : host_ok (set_host_end (Some p) r) p).
  { right. unfold host_ok. cbn. revert H. do 3 (apply has_mono; intros ?). intros [H1 H2]. revert H2.
    apply has_mono. intros hs H2. rewrite Hpo. cbn. lia. }
  destruct (ch =? COLON).
  { unfold next_ok, rl_inv. split_and!; try keep. revert H. cbn. do 3 (apply has_mono; intros ?).
    intros [H1 H2]. split; [done|]. revert H2. apply has_mono. intros hs H2. lia. }
  destruct (ch =? SLASH).
  { unfold next_ok, rl_inv. split_and!; try keep. apply Hu. }
  destruct (ch =? SP); [|done]. unfold next_ok, rl_inv. split_and!; try keep.
  destruct (schema_end r) as [se|] eqn:Ese.
  2: { destruct (method_end r), (schema_start r); done. }
  replace (Some se) with ((set_host_end (Some p) r).(schema_end)) by done.
  apply (uri_from_schema (set_host_end (Some p) r) p se); cbn; try done; try apply Hu.
  - revert H. apply has_mono. intros e H. destruct (schema_start r); [|done]. cbn in H. lia.
  - destruct (method_end r), (schema_start r), (host_start r); cbn in H; try done; lia.
Qed.

Lemma host_char_inv p ch r : host_inv r p -> next_ok p (step_host p ch r).
Proof.
  intros H. unfold step_host. destruct (_ || _); [|by apply host_end_inv].
  destruct H as (Hp & He & Hm & Hu & Hpr & Hpo & H). unfold next_ok, rl_inv. split_and!; try keep.
  revert H. do 3 (apply has_mono; intros ?). intros [H1 H2]. split; [done|]. revert H2.
  apply has_mono. intros hs H2. lia.
Qed.

Lemma uri_ended_ok r p : uri_ended r p -> uri_ok r p.
Proof.
  unfold uri_ended. destruct (uri_end r); [|done]. intros [H1 H2]. apply (uri_ok_mono r z); [lia|done].
Qed.

Lemma method_inv mem p ch r : rl_inv sw_method r p -> next_ok p (rl_step mem p ch sw_method r).
Proof.
  intros (Hp & He & Hm & Hh & Hu & Hpr). cbn [rl_step]. destruct (ch =? SP).
  - unfold next_ok, rl_inv. split_and!; try keep. unfold method_ok. cbn. revert Hm. apply has_mono. lia.
  - destruct (_ && _); [done|]. unfold next_ok, rl_inv. split_and!; try keep.
    revert Hm. apply has_mono. lia.
Qed.

Lemma spaces_inv mem p ch r :
  rl_inv sw_spaces_before_uri r p -> next_ok p (rl_step mem p ch sw_spaces_before_uri r).
Proof.
  intros (Hp & He & Hm & Hh & Hu & Hpr). cbn [rl_step]. repeat case_match; try done.
  - unfold next_ok, rl_inv. split_and!; try keep; [by left|apply Hu].
  - unfold next_ok, rl_inv. split_and!; try keep; [apply Hh|]. cbn. unfold method_ok in Hm.
    destruct (request_start r), (method_end r); try done. cbn in *. lia.
  - unfold next_ok, rl_inv. split_and!; keep.
Qed.

(** The states between schema and host. *)
Lemma schema_inv mem p ch r : rl_inv sw_schema r p -> next_ok p (rl_step mem p ch sw_schema r).
Proof.
  intros (Hp & He & Hm & Hu & Hpr & Hpo & H). cbn [rl_step]. repeat case_match; try done;
    unfold next_ok, rl_inv; split_and!; try keep; revert H; do 2 (apply has_mono; intros ?); cbn; lia.
Qed.

Lemma port_inv mem p ch r : rl_inv sw_port r p -> next_ok p (rl_step mem p ch sw_port r).
Proof.
  intros (Hp & He & Hm & Hu & Hpr & Hpo & H). cbn [rl_step]. destruct (is_decimal ch).
  { unfold next_ok, rl_inv. split_and!; try keep. revert H. do 3 (apply has_mono; intros ?).
    intros [H1 H2]. split; [done|]. revert H2. do 2 (apply has_mono; intros ?). lia. }
  assert (Hh : host_ok (set_port_end (Some p) r) p).
  { right. cbn. revert H. do 3 (apply has_mono; intros ?). intros [H1 H2]. revert H2.
    do 2 (apply has_mono; intros ?). lia. }
  destruct (ch =? SLASH).
  { unfold next_ok, rl_inv. split_and!; try keep. apply Hu. }
  destruct (ch =? SP); [|done]. cbn zeta. unfold next_ok, rl_inv. split_and!; try keep.
  destruct (schema_end r) as [se|] eqn:Ese.
  2: { destruct (method_end r), (schema_start r); done. }
  apply (uri_from_schema (set_port_end (Some p) r) p se); cbn; try done; try apply Hu.
  - revert H. apply has_mono. intros e H. destruct (schema_start r); [|done]. cbn in H. lia.
  - destruct (method_end r), (schema_start r), (host_start r), (host_end r); cbn in H; try done; lia.
Qed.

Lemma step_inv mem p ch st r : rl_inv st r p -> next_ok p (rl_step mem p ch st r).
Proof.
  intros Hinv. destruct st;
    try (destruct Hinv as (Hp & He & Hm & Hh & Hu & Hpr); cbn [rl_step]; unfold expect;
         repeat case_match; simplify_eq; try done; inv_step).
  - destruct Hinv as (Hp & He & Hh & Hu & Hpr). cbn [rl_step]. repeat case_match; try done.
    all: unfold next_ok, rl_inv; split_and!; try keep. cbn. lia.
  - by apply method_inv.
  - by apply spaces_inv.
  - by apply schema_inv.
  - destruct Hinv as (Hp & He & Hm & Hu & Hpr & Hpo & H). cbn [rl_step]. unfold expect. case_match; [|done].
    unfold next_ok, rl_inv. split_and!; try keep. revert H. do 3 (apply has_mono; intros ?). lia.
  - destruct Hinv as (Hp & He & Hm & Hu & Hpr & Hpo & H). cbn [rl_step]. unfold expect. case_match; [|done].
    unfold next_ok, rl_inv. split_and!; try keep. revert H. do 3 (apply has_mono; intros ?). lia.
  - destruct Hinv as (Hp & He & Hm & Hu & Hpr & Hpo & H). cbn [rl_step]. cbn zeta. case_match.
    + unfold next_ok, rl_inv. split_and!; try keep. revert H. do 3 (apply has_mono; intros ?). cbn. lia.
    + apply host_char_inv. split_and!; try keep. revert H. do 3 (apply has_mono; intros ?). cbn. lia.
  - destruct Hinv as (Hp & He & Hm & Hu & Hpr & Hpo & H). apply host_char_inv. split_and!; try keep.
    revert H. do 3 (apply has_mono; intros ?). intros [H1 H2]. split; [done|]. revert H2. apply has_mono. lia.
  - destruct Hinv as (Hp & He & Hm & Hu & Hpr & Hpo & H). apply host_end_inv. split_and!; try keep.
    revert H. do 3 (apply has_mono; intros ?). intros [H1 H2]. split; [done|]. revert H2. apply has_mono. lia.
  - destruct Hinv as (Hp & He & Hm & Hu & Hpr & Hpo & H). cbn [rl_step]. repeat case_match; try done;
      unfold next_ok, rl_inv; split_and!; try keep; revert H; do 3 (apply has_mono; intros ?);
      (intros [? Hs]; split; [done|]; revert Hs; apply has_mono; lia).
  - by apply port_inv.
  - pose proof Hinv as (Hp & He & Hm & Hh & Hpr & Hu). apply http_09_inv; try done.
    unfold rl_inv. split_and!; keep.
  - by apply path_inv.
  - by apply path_inv.
  - pose proof Hinv as (Hp & He & Hm & Hh & Hpr & Hu & Ha). apply http_09_inv; try done.
    + unfold rl_inv. split_and!; keep.
    + pose proof (uri_ended_ok _ _ Hu). unfold next_ok, rl_inv. split_and!; keep.
  - by apply uri_inv.
  - pose proof Hinv as (Hp & He & Hm & Hh & Hpr & Hu). apply http_09_inv; try done.
    + unfold rl_inv. split_and!; keep.
    + pose proof (uri_ended_ok _ _ Hu). unfold next_ok, rl_inv. split_and!; keep.
  - destruct Hinv as (Hp & He & Hm & Hh & Hu & Hpr). cbn [rl_step]. case_match; [|done]. unfold next_ok, rl_done. cbn [request_end set_request_end snd].
    assert (Hue : has r.(uri_end) (fun ue => uri_ok r ue /\ ue <= p - 1)).
    { revert Hu. apply has_mono. intros ue [H1 H2]. split; [done|lia]. }
    apply (line_ended _ (p - 1)); try done.
    destruct (uri_end r) as [ue|]; [|done]. destruct Hue as [Hue ?]. unfold uri_ok in Hue.
    unfold method_ok in Hm. destruct (request_start r), (method_end r), (uri_start r); try done. cbn in *. lia.
Qed.

(** A request before its line is parsed: what [ngx_http_create_request] leaves. *)
Definition new_request_line : http_request :=
  HttpRequest 1 None None None None None None None None None None None None None 0 0 1000
    false false false false.

Lemma loop_inv mem input : forall p st r,
  rl_inv st r p ->
  let res := rl_loop mem input p st r in
  (res.(rl_code) = NGX_AGAIN -> rl_inv res.(rl_st) res.(rl_request) res.(rl_pos) /\ res.(rl_pos) = p + zlen input) /\
  (res.(rl_code) = NGX_OK \/ res.(rl_code) = NGX_HTTP_PARSE_INVALID_09_METHOD ->
   line_ok res.(rl_request) (res.(rl_pos) - 1) /\ p < res.(rl_pos) <= p + zlen input).
Proof.
  induction input as [|ch input IH]; intros p st r Hinv; cbn [rl_loop].
  { rewrite zlen_nil. split; cbn; [intros _; split; [done|lia]|by intros [?|?]]. }
  pose proof (zlen_nonneg input). pose proof (step_inv mem p ch st r Hinv) as Hstep. rewrite zlen_cons.
  destruct (rl_step mem p ch st r) as [st' r'|r'|code r'] eqn:E; cbn [next_ok] in Hstep.
  - destruct (IH (p + 1) st' r' Hstep) as [H1 H2]. split; intros Hc.
    + destruct (H1 Hc). split; [done|lia].
    + destruct (H2 Hc). split; [done|lia].
  - pose proof (rl_done_code p r') as Hc. destruct (rl_done p r') as [code r2]. cbn in *.
    split; [done|]. intros _. replace (p + 1 - 1) with p by lia. split; [done|lia].
  - apply step_fail_codes in E as [-> | ->]; (split; [done|by intros [?|?]]).
Qed.

(** The pointers of a parsed request line delimit proper parts of it. When
    the parser says it is done, whatever the input, the line feed is the last
    character it took, and the method, schema, host, port, URI, extension,
    arguments and protocol lie in the line, in this order, with lengths that are
    not negative: the method has at least one character, the URI too, the
    extension ends before the arguments begin, and the protocol is at least as
    long as HTTP/1.1. *)
Theorem request_line_pointers mem :
  let res := ngx_http_parse_request_line mem 0 (zlen mem) sw_start new_request_line in
  res.(rl_code) = NGX_OK -> line_ok res.(rl_request) (res.(rl_pos) - 1) /\ 0 < res.(rl_pos) <= zlen mem.
Proof.
  intros res Hc. pose proof (parse_all _ _ _ Hc) as E. unfold res in *. clear res. rewrite E in *. clear E.
  destruct (loop_inv mem mem 0 sw_start new_request_line) as [_ H]; [done|].
  apply H. by left.
Qed.

Definition sample_line : list Z := lit "GET http://ex.org:80/a.b?c=d HTTP/1.1" ++ [CR; LF].

Lemma request_line_pointers_witness :
  let res := ngx_http_parse_request_line sample_line 0 (zlen sample_line) sw_start new_request_line in
  res.(rl_code) = NGX_OK /\ line_ok res.(rl_request) (res.(rl_pos) - 1).
Proof.
  split; [vm_compute; reflexivity|]. apply (request_line_pointers sample_line). vm_compute. reflexivity.
Defined.

(** ** What a URI without marks looks like *)

(** A path in which no slash is followed by a slash or a dot and no character
    needs decoding or ends the path; [prev] is the character before. *)
Definition path_char_ok (prev c : Z) : bool :=
  negb ((prev =? SLASH) && ((c =? SLASH) || (c =? DOT))) &&
  negb (existsb (Z.eqb c) [NUL; PERCENT; HASH; QUESTION]).

Fixpoint clean_path (prev : Z) (l : list Z) : bool :=
  match l with
  | [] => true
  | c :: l' => path_char_ok prev c && clean_path c l'
  end.

Lemma last_cons (x prev : Z) l : List.last (x :: l) prev = List.last l x.
Proof. revert x. induction l as [|y l IH]; intros x; [done|]. cbn. destruct l; [done|]. apply (IH x). Qed.

Lemma clean_path_snoc prev l c :
  clean_path prev (l ++ [c]) = clean_path prev l && path_char_ok (List.last l prev) c.
Proof.
  revert prev. induction l as [|x l IH]; intros prev; cbn [app clean_path].
  { cbn. by rewrite andb_true_r. }
  by rewrite IH, andb_assoc, last_cons.
Qed.

(** Where the path ends when the URI ends at [ue]. *)
Definition path_end (r : http_request) (ue : Z) : Z :=
  match r.(args_start) with Some a => a - 1 | None => ue end.

(** The text of the path up to [e], which begins with a slash; after a character
    other than the slash that began the segment, [mid]. *)
Definition text_ok (mem : list Z) (r : http_request) (e : Z) (mid : bool) : Prop :=
  has r.(uri_start) (fun us =>
    mem !! Z.to_nat us = Some SLASH /\ clean_path NUL (sub mem us e) = true /\
    (mid = true -> List.last (sub mem us e) NUL <> SLASH)).

Definition unmarked (r : http_request) : Prop :=
  r.(complex_uri) = false /\ r.(quoted_uri) = false /\ r.(space_in_uri) = false.

Definition text_inv (mem : list Z) (st : rl_state) (r : http_request) (p : Z) : Prop :=
  unmarked r ->
  match st with
  | sw_schema_slash_slash | sw_host_start | sw_host | sw_host_end | sw_host_ip_literal | sw_port =>
      has r.(schema_end) (fun se => mem !! Z.to_nat (se + 1) = Some SLASH)
  | sw_after_slash_in_uri => text_ok mem r p false
  | sw_check_uri => text_ok mem r p true
  | sw_uri => has r.(args_start) (fun a => text_ok mem r (a - 1) false)
  | sw_start | sw_method | sw_spaces_before_uri | sw_schema | sw_schema_slash => True
  | _ => has r.(uri_end) (fun ue => text_ok mem r (path_end r ue) false)
  end.

Definition next_text (mem : list Z) (p : Z) (res : pstep rl_state http_request) : Prop :=
  match res with
  | Next st r => text_inv mem st r (p + 1)
  | Done r => unmarked r -> has r.(uri_end) (fun ue => text_ok mem r (path_end r ue) false)
  | Fail _ _ => True
  end.

(** A further character of the path. *)
Lemma text_grows mem r p c mid mid' :
  uri_ok r p -> method_ok r p -> mem !! Z.to_nat p = Some c -> text_ok mem r p mid ->
  (mid = false -> c <> SLASH /\ c <> DOT) -> existsb (Z.eqb c) [NUL; PERCENT; HASH; QUESTION] = false ->
  (mid' = true -> c <> SLASH) -> text_ok mem r (p + 1) mid'.
Proof.
  intros Hu Hm Hc Ht Hsd Hbad Hmid'. unfold text_ok, uri_ok, method_ok in *.
  destruct (uri_start r) as [us|]; [|done]. destruct (method_end r), (request_start r); try done. cbn [has] in *.
  destruct Ht as (H1 & H2 & H3). rewrite (sub_snoc _ _ _ c) by (done || lia).
  split_and!; [done| |by rewrite List.last_last].
  rewrite clean_path_snoc, H2. unfold path_char_ok. rewrite Hbad. cbn [andb negb]. rewrite andb_true_r.
  destruct mid.
  - rewrite (proj2 (Z.eqb_neq _ _) (H3 eq_refl)). done.
  - destruct (Hsd eq_refl) as [Hs Hd]. rewrite (proj2 (Z.eqb_neq _ _) Hs), (proj2 (Z.eqb_neq _ _) Hd).
    by rewrite andb_false_r.
Qed.

(** The path at its first character. *)
Lemma text_starts mem r p :
  0 <= p -> mem !! Z.to_nat p = Some SLASH -> text_ok mem (set_uri_start (Some p) r) (p + 1) false.
Proof.
  intros Hp Hc. unfold text_ok. cbn [has uri_start set_uri_start]. split; [done|].
  rewrite (sub_snoc _ _ _ SLASH) by (done || lia).
  unfold sub. rewrite Z.sub_diag. done.
Qed.

(** The slash of the schema. *)
Lemma text_from_schema mem r :
  has r.(schema_end) (fun se => 0 <= se /\ mem !! Z.to_nat (se + 1) = Some SLASH) -> r.(args_start) = None ->
  let r' := set_uri_end ((fun e => e + 2) <$> r.(schema_end))
              (set_uri_start ((fun e => e + 1) <$> r.(schema_end)) r) in
  has r'.(uri_end) (fun ue => text_ok mem r' (path_end r' ue) false).
Proof.
  intros H Ha. destruct (schema_end r) as [se|]; [|done]. destruct H as [H1 H2]. cbn. unfold path_end. cbn.
  rewrite Ha. replace (se + 2) with (se + 1 + 1) by lia.
  apply (text_starts mem (set_uri_end (Some (se + 2)) r)); [lia|done].
Qed.

Lemma usual_ne ch c : is_usual ch = true -> is_usual c = false -> ch <> c.
Proof. congruence. Qed.

(** A character is none of those that were tested for. *)
Ltac not_special :=
  repeat match goal with
  | H : is_usual ?ch = true |- _ => progress (
      pose proof (usual_ne ch NUL H eq_refl); pose proof (usual_ne ch SLASH H eq_refl);
      pose proof (usual_ne ch DOT H eq_refl); pose proof (usual_ne ch PERCENT H eq_refl);
      pose proof (usual_ne ch HASH H eq_refl); pose proof (usual_ne ch QUESTION H eq_refl)); clear H
  | H : (_ =? _) = false |- _ => apply Z.eqb_neq in H
  | H : (_ =? _) = true |- _ => apply Z.eqb_eq in H; subst
  end.

Ltac marked := let H := fresh in intros H; exfalso; destruct H as (? & ? & ?); done.

Lemma existsb_none c l : Forall (fun x => c <> x) l -> existsb (Z.eqb c) l = false.
Proof.
  induction 1 as [|x l Hx _ IH]; [done|]. cbn. by rewrite (proj2 (Z.eqb_neq _ _) Hx).
Qed.

Lemma text_weaken mem r e mid : text_ok mem r e mid -> text_ok mem r e false.
Proof. apply has_mono. intros us (H1 & H2 & _). by split_and!. Qed.

(** The URI ends at [p], or the arguments begin after it. *)
Lemma text_ends mem r p mid :
  text_ok mem r p mid -> r.(args_start) = None -> text_ok mem r (path_end r p) false.
Proof. intros H Ha. unfold path_end. rewrite Ha. by eapply text_weaken. Qed.

Lemma text_args mem r p :
  has r.(args_start) (fun a => text_ok mem r (a - 1) false) -> text_ok mem r (path_end r p) false.
Proof. unfold path_end. by destruct (args_start r). Qed.

Lemma text_before_args mem r p mid : text_ok mem r p mid -> text_ok mem r (p + 1 - 1) false.
Proof. intros H. replace (p + 1 - 1) with p by lia. by eapply text_weaken. Qed.

Ltac text_step :=
  unfold next_text, text_inv; not_special; try done;
  first
    [ marked
    | intros ?;
      match goal with
      | Ht : text_inv _ _ _ _, Hu : unmarked _ |- _ => specialize (Ht Hu); cbv beta iota in Ht
      end;
      first
        [ match goal with H : ?P |- _ => exact H end
        | match goal with
          | Ht : text_ok ?mem ?r ?p ?mid, Ha : args_start ?r = None |- has _ _ =>
              first [ exact (text_ends mem r p mid Ht Ha) | exact (text_before_args mem r p mid Ht) ]
          | Ht : has (args_start ?r) _ |- has _ _ =>
              match goal with mem : list Z, p : Z |- _ => exact (text_args mem r p Ht) end
          | Ht : text_ok ?mem ?r ?p ?mid |- text_ok _ _ _ ?mid' =>
              refine (text_grows mem r p _ mid mid' _ _ _ Ht _ _ _); try eassumption; try done;
                try (apply existsb_none; repeat (constructor; [done|]); constructor)
          end ] ].

Lemma check_text mem p ch r :
  rl_inv sw_check_uri r p -> text_inv mem sw_check_uri r p -> mem !! Z.to_nat p = Some ch ->
  next_text mem p (step_check_uri p ch r).
Proof.
  intros (Hp & He & Hm & Hh & Hpr & Hu & Ha) Ht Hc.
  unfold step_check_uri, uri_ends. repeat case_match; simplify_eq; text_step.
Qed.

Lemma slash_text mem p ch r :
  rl_inv sw_after_slash_in_uri r p -> text_inv mem sw_after_slash_in_uri r p -> mem !! Z.to_nat p = Some ch ->
  next_text mem p (step_after_slash p ch r).
Proof.
  intros (Hp & He & Hm & Hh & Hpr & Hu & Ha) Ht Hc.
  unfold step_after_slash, uri_ends. repeat case_match; simplify_eq; text_step.
Qed.

Lemma uri_text mem p ch r :
  text_inv mem sw_uri r p -> next_text mem p (step_uri p ch r).
Proof.
  intros Ht. unfold step_uri, uri_ends. repeat case_match; simplify_eq; text_step.
Qed.

Lemma host_text mem p ch r :
  has r.(schema_end) (fun se => 0 <= se) -> 0 <= p -> r.(args_start) = None ->
  (unmarked r -> has r.(schema_end) (fun se => mem !! Z.to_nat (se + 1) = Some SLASH)) ->
  mem !! Z.to_nat p = Some ch -> next_text mem p (step_host_end p ch r) /\ next_text mem p (step_host p ch r).
Proof.
  intros Hse Hp Ha Ht Hc.
  assert (H : next_text mem p (step_host_end p ch r)).
  { unfold step_host_end. cbn zeta. repeat case_match; try done; unfold next_text, text_inv; intros Hun; not_special.
    - by apply text_starts.
    - apply (text_from_schema mem (set_host_end (Some p) r)); [|done]. specialize (Ht Hun).
      cbn. by destruct (schema_end r). }
  split; [done|]. unfold step_host. by destruct (_ || _).
Qed.

Lemma schema_end_nonneg st r p :
  match st with
  | sw_schema_slash | sw_schema_slash_slash | sw_host_start | sw_host | sw_host_end | sw_host_ip_literal
  | sw_port => True
  | _ => False
  end -> rl_inv st r p -> has r.(schema_end) (fun se => 0 <= se) /\ r.(args_start) = None.
Proof.
  intros Hst Hinv. destruct st; try done; destruct Hinv as (_ & _ & Hm & Hu & _ & _ & H); (split; [|apply Hu]);
    unfold method_ok in Hm; destruct (request_start r), (method_end r), (schema_start r), (schema_end r); try done;
    cbn in *; lia.
Qed.

Lemma step_text mem p ch st r :
  rl_inv st r p -> text_inv mem st r p -> mem !! Z.to_nat p = Some ch ->
  next_text mem p (rl_step mem p ch st r).
Proof.
  intros Hinv Ht Hc. pose proof (proj1 Hinv) as Hp.
  pose proof (fun H => schema_end_nonneg st r p H Hinv) as Hse.
  destruct st; cbn [rl_step]; try destruct (Hse I) as [Hs Ha]; clear Hse.
  all: try (by apply check_text); try (by apply slash_text); try (by apply uri_text).
  all: try (apply host_text; done).
  all: try (unfold step_http_09, expect; repeat case_match; simplify_eq; try done; text_step).
  - repeat case_match; try done. not_special. intros _. by apply text_starts.
  - unfold expect. case_match; [|done]. not_special. intros Hun. unfold text_inv.
    destruct Hinv as (_ & _ & _ & _ & _ & _ & H).
    destruct (method_end r), (schema_start r), (schema_end r); try done. cbn in *.
    replace (z1 + 1) with p by lia. done.
  - case_match; [exact Ht|]. apply host_text; done.
  - repeat case_match; try done; not_special.
    + intros _. by apply text_starts.
    + cbn zeta. intros Hun. apply (text_from_schema mem (set_port_end (Some p) r)); [|done]. specialize (Ht Hun).
      cbv beta iota in Ht. cbn. by destruct (schema_end r).
Qed.

Lemma loop_text mem input : forall pre post st r,
  mem = pre ++ input ++ post -> rl_inv st r (zlen pre) -> text_inv mem st r (zlen pre) ->
  let res := rl_loop mem input (zlen pre) st r in
  res.(rl_code) = NGX_OK -> unmarked res.(rl_request) ->
  has res.(rl_request).(uri_end) (fun ue =>
    text_ok mem res.(rl_request) (path_end res.(rl_request) ue) false).
Proof.
  induction input as [|ch input IH]; intros pre post st r Em Hinv Ht; cbn [rl_loop]; [done|].
  assert (Hc : mem !! Z.to_nat (zlen pre) = Some ch).
  { rewrite Em. unfold zlen. rewrite Nat2Z.id, lookup_app_r, Nat.sub_diag by lia. done. }
  pose proof (step_inv mem _ ch st r Hinv) as H1. pose proof (step_text mem _ ch st r Hinv Ht Hc) as H2.
  destruct (rl_step mem (zlen pre) ch st r) as [st' r'|r'|code r'] eqn:E; cbn [next_ok next_text] in *.
  - replace (zlen pre + 1) with (zlen (pre ++ [ch])) in * by (by autorewrite with ngx).
    apply (IH _ post); [by rewrite <- app_assoc|done|done].
  - intros _. unfold rl_done. destruct (request_end r'); cbn; intros Hun; exact (H2 Hun).
  - apply step_fail_codes in E as [-> | ->]; done.
Qed.

(** A URI without marks needs no normalisation. When a request line is
    accepted and its URI is marked neither as complex nor as quoted nor as
    holding a space, its path begins with a slash, and in it no slash is
    followed by a slash or a dot and there is no NUL, percent sign, hash or
    question mark: it is its own normal form, and nothing in it leads out of the
    document root. *)
Theorem unmarked_uri_clean mem :
  let res := ngx_http_parse_request_line mem 0 (zlen mem) sw_start new_request_line in
  res.(rl_code) = NGX_OK -> unmarked res.(rl_request) ->
  has res.(rl_request).(uri_start) (fun us => has res.(rl_request).(uri_end) (fun ue =>
    let path := sub mem us (path_end res.(rl_request) ue) in
    mem !! Z.to_nat us = Some SLASH /\ clean_path NUL path = true)).
Proof.
  intros res Hc Hun. pose proof (parse_all _ _ _ Hc) as E. unfold res in *. clear res. rewrite E in *. clear E.
  pose proof (loop_text mem mem [] [] sw_start new_request_line) as H. change (zlen []) with 0 in H.
  specialize (H ltac:(by rewrite app_nil_r) ltac:(done) ltac:(done) Hc Hun).
  destruct (uri_end _); [|done]. unfold text_ok in H. destruct (uri_start _); [|done]. cbn in *. tauto.
Qed.

Lemma unmarked_uri_clean_witness :
  let mem := lit "GET /a/b+c.txt?x=../ HTTP/1.0" ++ [CR; LF] in
  let res := ngx_http_parse_request_line mem 0 (zlen mem) sw_start new_request_line in
  unmarked res.(rl_request) /\
  has res.(rl_request).(uri_start) (fun us => has res.(rl_request).(uri_end) (fun ue =>
    sub mem us (path_end res.(rl_request) ue) = lit "/a/b+c.txt" /\
    clean_path NUL (sub mem us (path_end res.(rl_request) ue)) = true)).
Proof.
  pose proof (unmarked_uri_clean (lit "GET /a/b+c.txt?x=../ HTTP/1.0" ++ [CR; LF])) as H.
  cbv zeta in *. split; [vm_compute; done|].
  specialize (H ltac:(vm_compute; reflexivity) ltac:(vm_compute; done)). vm_compute. vm_compute in H. done.
Defined.

(** The character after a space in a URI is not looked at. The request lines
    with the paths [/x /../y] and [/x NUL .y] are accepted, marked only as
    holding a space, although a slash followed by dots and a NUL are caught
    everywhere else. *)
Theorem space_hides_character :
  let parse mem := ngx_http_parse_request_line mem 0 (zlen mem) sw_start new_request_line in
  let marks mem := let r := (parse mem).(rl_request) in
                   (r.(complex_uri), r.(quoted_uri), r.(space_in_uri)) in
  let dots := lit "GET /x /../y HTTP/1.0" ++ [CR; LF] in
  let nul := lit "GET /x " ++ [NUL] ++ lit ".y HTTP/1.0" ++ [CR; LF] in
  (parse dots).(rl_code) = NGX_OK /\ marks dots = (false, false, true) /\
  (parse nul).(rl_code) = NGX_OK /\ marks nul = (false, false, true) /\
  (parse (lit "GET /x" ++ [NUL] ++ lit ".y HTTP/1.0" ++ [CR; LF])).(rl_code)
    = NGX_HTTP_PARSE_INVALID_REQUEST.
Proof. vm_compute. done. Qed.
