(* ===== verification/HttpRequestRead.v ===== *)
(** * Reading back a request line

    A line of the usual form, written as a method, a URI and a version, is read
    by [ngx_http_parse_request_line] as exactly these. *)

From S2P Require Import Prelude HttpRequest HttpRequestSafe.

(** ** Parts of a line *)

Definition method_char (c : Z) : Prop := 65 <= c <= 90 \/ c = 95.

(** Any character of a URI but those that end it or are refused. *)
Definition uri_char (c : Z) : Prop := c <> NUL /\ c <> LF /\ c <> CR /\ c <> SP.

Definition digits (l : list Z) : Prop := Forall (fun c => 48 <= c <= 57) l.

Definition value (l : list Z) : Z := fold_left (fun a c => a * 10 + c - 48) l 0.

Definition request_text (name uri major minor : list Z) : list Z :=
  name ++ [SP] ++ uri ++ lit " HTTP/" ++ major ++ [DOT] ++ minor ++ [CR; LF].

(** The loop passes over [a] without coming to an end. *)
Definition runs (mem : list Z) (p : Z) (st : rl_state) (r : http_request) (a : list Z)
    (st' : rl_state) (r' : http_request) : Prop :=
  forall b, rl_loop mem (a ++ b) p st r = rl_loop mem b (p + zlen a) st' r'.

Lemma runs_app mem p st r a st1 r1 b st2 r2 :
  runs mem p st r a st1 r1 -> runs mem (p + zlen a) st1 r1 b st2 r2 ->
  runs mem p st r (a ++ b) st2 r2.
Proof.
  intros H1 H2 rest. rewrite <- app_assoc, H1, H2, zlen_app. f_equal. lia.
Qed.

Lemma runs_one mem p ch st r st' r' :
  rl_step mem p ch st r = Next st' r' -> runs mem p st r [ch] st' r'.
Proof. intros E b. cbn [app rl_loop]. by rewrite E. Qed.

Lemma runs_nil mem p st r : runs mem p st r [] st r.
Proof. intros b. cbn. rewrite zlen_nil. f_equal. lia. Qed.

Lemma runs_cons mem p ch a st r st1 r1 st2 r2 :
  rl_step mem p ch st r = Next st1 r1 -> runs mem (p + 1) st1 r1 a st2 r2 ->
  runs mem p st r (ch :: a) st2 r2.
Proof. intros E H. apply (runs_app mem p st r [ch] st1 r1 a); [by apply runs_one|done]. Qed.

Lemma method_char_test c : method_char c -> (((c <? 65) || (90 <? c)) && negb (c =? 95)) = false /\ (c =? SP) = false
  /\ (c =? CR) = false /\ (c =? LF) = false.
Proof. unfold method_char. intros H. zcases; done. Qed.

Lemma runs_method mem p r l : Forall method_char l -> runs mem p sw_method r l sw_method r.
Proof.
  intros Hl. revert p. induction Hl as [|c l Hc Hl IH]; intros p; [apply runs_nil|].
  destruct (method_char_test c Hc) as (E1 & E2 & _ & _).
  eapply runs_cons; [cbn; by rewrite E2, E1|apply IH].
Qed.

(** ** The URI *)

Definition in_uri (st : rl_state) : Prop :=
  st = sw_after_slash_in_uri \/ st = sw_check_uri \/ st = sw_uri.

(** What reading the URI leaves alone. *)
Definition same_outside (r r' : http_request) : Prop :=
  r'.(method) = r.(method) /\ r'.(request_start) = r.(request_start) /\ r'.(method_end) = r.(method_end) /\
  r'.(uri_start) = r.(uri_start) /\ r'.(http_protocol) = r.(http_protocol) /\
  r'.(request_end) = r.(request_end) /\ r'.(http_major) = r.(http_major) /\ r'.(http_minor) = r.(http_minor).

Lemma uri_step mem p c st r :
  uri_char c -> in_uri st ->
  exists st' r', rl_step mem p c st r = Next st' r' /\ in_uri st' /\ same_outside r r'.
Proof.
  intros (H1 & H2 & H3 & H4) Hst. apply Z.eqb_neq in H1, H2, H3, H4. unfold in_uri in *.
  destruct Hst as [-> | [-> | ->]]; cbn;
    unfold step_after_slash, step_check_uri, step_uri, uri_ends; rewrite ?H1, ?H2, ?H3, ?H4;
    repeat case_match; simplify_eq; do 2 eexists; (split; [done|]); (split; [tauto|done]).
Qed.

Lemma runs_uri mem l : forall p st r,
  Forall uri_char l -> in_uri st ->
  exists st' r', runs mem p st r l st' r' /\ in_uri st' /\ same_outside r r'.
Proof.
  induction l as [|c l IH]; intros p st r Hl Hst.
  { exists st, r. split; [apply runs_nil|]. split; [done|]. by split_and!. }
  apply Forall_cons in Hl as [Hc Hl]. destruct (uri_step mem p c st r Hc Hst) as (st1 & r1 & E & Hst1 & S1).
  destruct (IH (p + 1) st1 r1 Hl Hst1) as (st2 & r2 & Hr & Hst2 & S2).
  exists st2, r2. split; [by eapply runs_cons|]. split; [done|].
  unfold same_outside in *. destruct S1 as (? & ? & ? & ? & ? & ? & ? & ?), S2 as (? & ? & ? & ? & ? & ? & ? & ?).
  split_and!; congruence.
Qed.

(** The space after the URI and the name of the protocol. *)
Lemma runs_protocol mem p st r :
  in_uri st ->
  runs mem p st r (lit " HTTP/") sw_first_major_digit
    (set_http_protocol (Some (p + 1)) (set_uri_end (Some p) r)).
Proof.
  intros Hst. destruct Hst as [-> | [-> | ->]];
    do 5 (eapply runs_cons; [reflexivity|]); apply runs_one; reflexivity.
Qed.

(** ** Versions *)

Lemma is_decimal_digit c : 48 <= c <= 57 -> is_decimal c = true /\ (c =? DOT) = false /\
  (c =? CR) = false /\ (c =? LF) = false /\ (c =? SP) = false.
Proof. unfold is_decimal. intros H. zcases; done. Qed.

Lemma u16_step a c : u16 (u16 a * 10 + c - 48) = u16 (a * 10 + c - 48).
Proof.
  unfold u16. rewrite <- (Z.add_sub_assoc (a * 10)), <- (Z.add_sub_assoc (a mod 2 ^ 16 * 10)).
  rewrite Zplus_mod, Zmult_mod_idemp_l, <- Zplus_mod. done.
Qed.

Lemma runs_major mem l : forall p r a,
  digits l -> r.(http_major) = u16 a ->
  runs mem p sw_major_digit r l sw_major_digit
    (set_http_major (u16 (fold_left (fun a c => a * 10 + c - 48) l a)) r).
Proof.
  induction l as [|c l IH]; intros p r a Hl Ea.
  { cbn. rewrite <- Ea. destruct r. apply runs_nil. }
  apply Forall_cons in Hl as [Hc Hl]. destruct (is_decimal_digit c Hc) as (E1 & E2 & _).
  eapply runs_cons; [cbn; by rewrite E2, E1|]. rewrite Ea, u16_step. cbn [fold_left].
  apply (IH _ (set_http_major (u16 (a * 10 + c - 48)) r)); done.
Qed.

Lemma runs_minor mem l : forall p r a,
  digits l -> r.(http_minor) = u16 a ->
  runs mem p sw_minor_digit r l sw_minor_digit
    (set_http_minor (u16 (fold_left (fun a c => a * 10 + c - 48) l a)) r).
Proof.
  induction l as [|c l IH]; intros p r a Hl Ea.
  { cbn. rewrite <- Ea. destruct r. apply runs_nil. }
  apply Forall_cons in Hl as [Hc Hl]. destruct (is_decimal_digit c Hc) as (E1 & _ & E3 & E4 & E5).
  eapply runs_cons; [cbn; by rewrite E3, E4, E5, E1|]. rewrite Ea, u16_step. cbn [fold_left].
  apply (IH _ (set_http_minor (u16 (a * 10 + c - 48)) r)); done.
Qed.

(** ** The whole line *)

(** What is read of the line [name uri HTTP/major.minor]. *)
Record line_read (mem : list Z) (res : rl_result) (name uri major minor : list Z) : Prop := LineRead {
  lr_method : res.(rl_request).(method) = find_method http_methods name 1;
  lr_name : has res.(rl_request).(request_start) (fun m => has res.(rl_request).(method_end) (fun e =>
              sub mem m (e + 1) = name));
  lr_uri : has res.(rl_request).(uri_start) (fun us => has res.(rl_request).(uri_end) (fun ue =>
             sub mem us ue = uri));
  lr_protocol : has res.(rl_request).(http_protocol) (fun h => has res.(rl_request).(request_end) (fun re =>
             sub mem h re = lit "HTTP/" ++ major ++ [DOT] ++ minor));
  lr_version : res.(rl_request).(http_version) = u16 (value major) * 1000 + u16 (value minor);
  lr_pos : res.(rl_pos) = zlen mem;
  lr_code : res.(rl_code) =
    if (res.(rl_request).(http_version) =? 9) && negb (res.(rl_request).(method) =? 0x0002)
    then NGX_HTTP_PARSE_INVALID_09_METHOD else NGX_OK;
}.

Lemma runs_start mem m name r :
  method_char m -> Forall method_char name ->
  runs mem 0 sw_start r (m :: name) sw_method (set_request_start (Some 0) r).
Proof.
  intros Hm Hn. destruct (method_char_test m Hm) as (E1 & _ & E3 & E4).
  eapply runs_cons; [cbn; by rewrite E3, E4, E1|]. by apply runs_method.
Qed.

(** C34: a request line is read as it was written. For a method of capital
    letters and underscores, a URI that begins with a slash and holds no space,
    line end or NUL, and a version of decimal numbers, the first not starting
    with a zero, the parser takes the whole line, recognises the method by its
    name, and delimits method, URI and protocol exactly; the two numbers of the
    version are kept modulo 2^16, so that a version like 65537.0 is taken for
    1.0. *)
Theorem request_line_reads m name path d major minor :
  Forall method_char (m :: name) -> Forall uri_char path -> 49 <= d <= 57 -> digits major ->
  digits minor -> minor <> [] ->
  let mem := request_text (m :: name) (SLASH :: path) (d :: major) minor in
  line_read mem (ngx_http_parse_request_line mem 0 (zlen mem) sw_start new_request_line)
    (m :: name) (SLASH :: path) (d :: major) minor.
Proof.
  intros Hm Hp Hd Hmaj Hmin Hne mem. apply Forall_cons in Hm as [Hm Hname].
  unfold ngx_http_parse_request_line. rewrite sub_all.
  destruct minor as [|d2 minor]; [done|]. apply Forall_cons in Hmin as [Hd2 Hmin].
  set (n := zlen (m :: name)). set (u := zlen (SLASH :: path)).
  set (r1 := set_method (find_method http_methods (m :: name) 1)
               (set_method_end (Some (n - 1)) (set_request_start (Some 0) new_request_line))).
  set (r2 := set_uri_start (Some (n + 1)) r1).
  destruct (runs_uri mem path (n + 1 + 1) sw_after_slash_in_uri r2 Hp) as (st3 & r3 & R3 & Hst3 & S3); [by left|].
  set (r4 := set_http_protocol (Some (n + 1 + u + 1)) (set_uri_end (Some (n + 1 + u)) r3)).
  set (r5 := set_http_minor (u16 (value (d2 :: minor))) (set_http_major (u16 (value (d :: major))) r4)).
  assert (Hn : 0 <= n /\ 1 <= u).
  { subst n u. rewrite !zlen_cons. pose proof (zlen_nonneg name). pose proof (zlen_nonneg path). lia. }
  set (proto := lit "HTTP/" ++ (d :: major) ++ [DOT] ++ d2 :: minor).
  set (head := (m :: name) ++ [SP] ++ (SLASH :: path) ++ lit " HTTP/" ++ (d :: major) ++ [DOT] ++ d2 :: minor).
  assert (Emem : mem = head ++ [CR; LF]) by (unfold mem, head, request_text; by rewrite <- !app_assoc).
  assert (Lhead : zlen head = n + 1 + u + 1 + zlen proto).
  { unfold head, proto, n, u. autorewrite with ngx. lia. }
  assert (Ename : sub mem 0 n = m :: name) by (apply (sub_middle [] (m :: name))).
  assert (Euri : sub mem (n + 1) (n + 1 + u) = SLASH :: path).
  { unfold mem, request_text. rewrite (app_assoc (m :: name)). unfold n, u.
    replace (zlen (m :: name) + 1) with (zlen ((m :: name) ++ [SP])) by (autorewrite with ngx; lia).
    apply (sub_middle ((m :: name) ++ [SP]) (SLASH :: path)). }
  assert (Eproto : sub mem (n + 1 + u + 1) (zlen head) = proto).
  { rewrite Lhead, Emem.
    replace (n + 1 + u + 1) with (zlen ((m :: name) ++ [SP] ++ (SLASH :: path) ++ [SP]))
      by (unfold n, u; autorewrite with ngx; lia).
    rewrite <- (sub_middle ((m :: name) ++ [SP] ++ (SLASH :: path) ++ [SP]) proto [CR; LF]) at 2. f_equal.
    unfold head, proto. rewrite <- !app_assoc. done. }
  clearbody mem.
  assert (R : runs mem 0 sw_start new_request_line head sw_minor_digit r5).
  { eapply runs_app; [by apply runs_start|]. fold n. rewrite Z.add_0_l.
    eapply runs_app; [apply runs_one; cbn [rl_step]; rewrite Z.eqb_refl; cbn [request_start set_method_end set_request_start];
      rewrite Ename; reflexivity|]. change (zlen [SP]) with 1. fold r1.
    eapply runs_app; [eapply runs_cons; [reflexivity|]; exact R3|]. fold u.
    eapply runs_app; [by apply runs_protocol|]. fold r4. change (zlen (lit " HTTP/")) with 6.
    eapply runs_app.
    { eapply runs_cons; [cbn; rewrite (proj2 (Z.ltb_ge d 49)), (proj2 (Z.ltb_ge 57 d)) by lia; reflexivity|].
      apply (runs_major mem major _ _ (d - 48)); [done|]. cbn. unfold u16. rewrite Z.mod_small; lia. }
    eapply runs_app; [by apply runs_one|].
    eapply runs_cons; [cbn; rewrite (proj1 (is_decimal_digit d2 Hd2)); reflexivity|].
    match goal with |- runs _ ?p _ ?r _ _ _ =>
      refine (runs_minor mem minor p r (d2 - 48) _ _) end; [done|]. cbn. unfold u16. rewrite Z.mod_small; lia. }
  assert (E : rl_loop mem mem 0 sw_start new_request_line = rl_loop mem [CR; LF] (zlen head) sw_minor_digit r5).
  { transitivity (rl_loop mem (head ++ [CR; LF]) 0 sw_start new_request_line); [by rewrite <- Emem|]. apply R. }
  rewrite stored_same; rewrite E; [|by cbn; unfold rl_done; cbn; destruct (_ && _)].
  destruct S3 as (M1 & M2 & M3 & M4 & M5 & M6 & M7 & M8). cbn in M1, M2, M3, M4, M6.
  cbn [rl_loop rl_step Z.eqb Pos.eqb]. unfold rl_done. cbn [request_end set_request_end].
  constructor; cbn; rewrite ?M1, ?M2, ?M3, ?M4; cbn; try done.
  - by replace (n - 1 + 1) with n by lia.
  - change (sub mem (n + 1 + u + 1) (zlen head + 1 - 1) = proto).
    by replace (zlen head + 1 - 1) with (zlen head) by lia.
  - change (zlen head + 1 + 1 = zlen mem). rewrite Emem. autorewrite with ngx. lia.
Qed.

Lemma request_line_reads_witness :
  let mem := request_text (lit "GET") (lit "/a?b") (lit "65537") (lit "0") in
  line_read mem (ngx_http_parse_request_line mem 0 (zlen mem) sw_start new_request_line)
    (lit "GET") (lit "/a?b") (lit "65537") (lit "0") /\
  (ngx_http_parse_request_line mem 0 (zlen mem) sw_start new_request_line).(rl_request).(http_version) = 1000.
Proof.
  split; [|vm_compute; reflexivity].
  apply (request_line_reads 71 (lit "ET") (lit "a?b") 54 (lit "5537") (lit "0")).
  - rewrite !Forall_cons. unfold method_char. split_and!; try lia. done.
  - rewrite !Forall_cons. unfold uri_char. split_and!; done.
  - lia.
  - unfold digits. rewrite !Forall_cons. split_and!; try lia. done.
  - unfold digits. rewrite !Forall_cons. split_and!; try lia. done.
  - done.
Defined.
