(* ===== verification/HttpUri.v ===== *)
(** * URIs ([ngx_http_parse.c], [ngx_http_request.c])

    [ngx_http_parse_complex_uri], which decodes a URI and resolves its dot
    segments, and [ngx_http_process_request_uri], which decides whether that is
    needed.  The URI is written to a buffer of its own; what is written there is
    [cu_out]. *)

From S2P Require Import Prelude HttpRequest HttpRequestSafe.

(** ** Decoding and resolving *)

(** [sw_usual], [sw_slash], [sw_dot] and [sw_dot_dot]; an escape sequence
    remembers the state it came in ([quoted_state]) and its first digit
    ([decoded]). *)
Inductive path_state := sw_usual | sw_slash | sw_dot | sw_dot_dot.

Inductive cu_state :=
  | InPath (st : path_state)
  | Quoted (quoted_state : path_state)
  | QuotedSecond (quoted_state : path_state) (decoded : Z).

(** [u - r->uri.data] is the length of [cu_out]; [cu_ext] is [r->uri_ext], from
    there too. *)
Record cu := Cu {
  cu_out : list Z;
  cu_ext : option Z;
  cu_plus : bool;
  cu_quoted : bool;
}.

Definition cu_push (c : cu) (ch : Z) : cu := Cu (c.(cu_out) ++ [ch]) c.(cu_ext) c.(cu_plus) c.(cu_quoted).
Definition cu_set_ext (c : cu) (e : option Z) : cu := Cu c.(cu_out) e c.(cu_plus) c.(cu_quoted).
Definition cu_set_out (c : cu) (out : list Z) : cu := Cu out c.(cu_ext) c.(cu_plus) c.(cu_quoted).
Definition cu_set_plus (c : cu) : cu := Cu c.(cu_out) c.(cu_ext) true c.(cu_quoted).
Definition cu_set_quoted (c : cu) : cu := Cu c.(cu_out) c.(cu_ext) c.(cu_plus) true.

Inductive cu_step :=
  | CuNext (st : cu_state) (c : cu)
  | CuArgs (c : cu)
  | CuDone (c : cu)
  | CuInvalid.

(** The search for the slash before the segment to remove, from [u] down: the
    position after it, [None] when [u] falls below the buffer. *)
Fixpoint back_to_slash (out : list Z) (u : nat) : option nat :=
  if bool_decide (out !! u = Some SLASH) then Some (S u)
  else match u with
       | O => None
       | S u' => back_to_slash out u'
       end.

(** [/../]: [u -= 5] and the loop. *)
Definition remove_segment (out : list Z) : option (list Z) :=
  if (length out <? 5)%nat then None
  else match back_to_slash out (length out - 5) with
       | Some u => Some (take u out)
       | None => None
       end.

(** The characters that are treated alike in all four states; [st] is where
    any other leads. *)
Definition common_step (st : path_state) (ch : Z) (c : cu) : cu_step :=
  if ch =? PERCENT then CuNext (Quoted st) c
  else if ch =? QUESTION then CuArgs c
  else if ch =? HASH then CuDone c
  else if ch =? PLUS then CuNext (InPath sw_usual) (cu_push (cu_set_plus c) ch)
  else CuNext (InPath sw_usual) (cu_push c ch).

Definition path_step (merge_slashes : bool) (st : path_state) (ch : Z) (c : cu) : cu_step :=
  if is_usual ch then CuNext (InPath sw_usual) (cu_push c ch)
  else
    match st with
    | sw_usual =>
        if ch =? SLASH then CuNext (InPath sw_slash) (cu_push (cu_set_ext c None) ch)
        else if ch =? DOT
        then CuNext (InPath sw_usual) (cu_push (cu_set_ext c (Some (zlen c.(cu_out) + 1))) ch)
        else common_step st ch c
    | sw_slash =>
        if ch =? SLASH then CuNext (InPath sw_slash) (if merge_slashes then c else cu_push c ch)
        else if ch =? DOT then CuNext (InPath sw_dot) (cu_push c ch)
        else common_step st ch c
    | sw_dot =>
        if ch =? SLASH
        then CuNext (InPath sw_slash) (cu_set_out c (take (length c.(cu_out) - 1) c.(cu_out)))
        else if ch =? DOT then CuNext (InPath sw_dot_dot) (cu_push c ch)
        else common_step st ch c
    | sw_dot_dot =>
        if ch =? SLASH then
          match remove_segment c.(cu_out) with
          | Some out => CuNext (InPath sw_slash) (cu_set_out c out)
          | None => CuInvalid
          end
        else common_step st ch c
    end.

(** One turn of the loop. A decoded character goes through the state the escape
    sequence began in, except for those that would be taken for delimiters. *)
Definition complex_step (merge_slashes : bool) (st : cu_state) (ch : Z) (c : cu) : cu_step :=
  match st with
  | InPath st => path_step merge_slashes st ch c
  | Quoted q =>
      let c := cu_set_quoted c in
      match xdigit ch with
      | Some d => CuNext (QuotedSecond q d) c
      | None => CuInvalid
      end
  | QuotedSecond q decoded =>
      if is_decimal ch then
        let ch := u8 (Z.shiftl decoded 4 + ch - 48) in
        if (ch =? PERCENT) || (ch =? HASH) then CuNext (InPath sw_usual) (cu_push c ch)
        else if ch =? NUL then CuInvalid
        else path_step merge_slashes q ch c
      else
        match xdigit ch with
        | None => CuInvalid
        | Some d =>
            let ch := u8 (Z.shiftl decoded 4 + d) in
            if ch =? QUESTION then CuNext (InPath sw_usual) (cu_push c ch)
            else path_step merge_slashes q ch (if ch =? PLUS then cu_set_plus c else c)
        end
  end.

(** The result: the path and the marks, what is after a question mark
    ([r->args_start]), and the arguments when a hash ends them ([r->args]). *)
Record complex_result := ComplexResult {
  cr_cu : cu;
  cr_args_start : option (list Z);
  cr_args : option (list Z);
}.

(** [args]: the search for a hash. *)
Fixpoint until_hash (l : list Z) : option (list Z) :=
  match l with
  | [] => None
  | ch :: l' => if ch =? HASH then Some [] else cons ch <$> until_hash l'
  end.

Definition complex_args (c : cu) (rest : list Z) : complex_result :=
  match until_hash rest with
  | Some args => ComplexResult c None (Some args)
  | None => ComplexResult c (Some rest) None
  end.

Fixpoint complex_loop (merge_slashes : bool) (st : cu_state) (c : cu) (uri : list Z)
  : option complex_result :=
  match uri with
  | [] => Some (ComplexResult c None None)
  | ch :: uri' =>
      match complex_step merge_slashes st ch c with
      | CuNext st c => complex_loop merge_slashes st c uri'
      | CuArgs c => Some (complex_args c uri')
      | CuDone c => Some (ComplexResult c None None)
      | CuInvalid => None
      end
  end.

Definition ngx_http_parse_complex_uri (merge_slashes : bool) (plus quoted : bool) (uri : list Z)
  : option complex_result :=
  complex_loop merge_slashes (InPath sw_usual) (Cu [] None plus quoted) uri.

(** The extension the parser leaves in [r->exten]. *)
Definition complex_exten (c : cu) : option (list Z) :=
  (fun e => drop (Z.to_nat e) c.(cu_out)) <$> c.(cu_ext).

(** ** The URI of a request *)

Record request_uri := RequestUri {
  ru_uri : list Z;
  ru_exten : option (list Z);
  ru_args : option (list Z);
  ru_unparsed : list Z;
  ru_valid_unparsed : bool;
}.

(** [ngx_http_process_request_uri]: [None] for a bad request. The room allocated
    for the decoded URI is [uri_room]. *)
Definition uri_room (r : http_request) : Z :=
  match r.(uri_start), r.(uri_end) with
  | Some us, Some ue => path_end r ue - us + 1
  | _, _ => 1
  end.

Definition ngx_http_process_request_uri (mem : list Z) (merge_slashes : bool) (r : http_request)
  : option request_uri :=
  match r.(uri_start), r.(uri_end) with
  | Some us, Some ue =>
      let unparsed := sub mem us ue in
      let args r := match r with Some a => if a <? ue then Some (sub mem a ue) else None | None => None end in
      if r.(complex_uri) || r.(quoted_uri) then
        match ngx_http_parse_complex_uri merge_slashes r.(plus_in_uri) r.(quoted_uri) unparsed with
        | None => None
        | Some res =>
            let arguments := match res.(cr_args_start) with
                             | Some (ch :: l) => Some (ch :: l)
                             | _ => res.(cr_args)
                             end in
            Some (RequestUri res.(cr_cu).(cu_out) (complex_exten res.(cr_cu)) arguments unparsed
                    (negb r.(space_in_uri)))
        end
      else
        Some (RequestUri (sub mem us (path_end r ue))
                ((fun x => sub mem x (path_end r ue)) <$> r.(uri_ext)) (args r.(args_start)) unparsed
                (negb r.(space_in_uri)))
  | _, _ => None
  end.

(** ** No dot segments *)

Definition occurs_in (s l : list Z) : Prop := exists a b, l = a ++ s ++ b.
Definition ends_in (s l : list Z) : Prop := exists a, l = a ++ s.

(** No segment but the last is [.] or [..]. *)
Definition no_dot_segments (l : list Z) : Prop :=
  ~ occurs_in [SLASH; DOT; SLASH] l /\ ~ occurs_in [SLASH; DOT; DOT; SLASH] l.

Lemma occurs_snoc s c l x : occurs_in (s ++ [c]) (l ++ [x]) -> occurs_in (s ++ [c]) l \/ (x = c /\ ends_in s l).
Proof.
  intros (a & b & E). destruct b as [|y b' _] using rev_ind.
  - right. rewrite app_nil_r, app_assoc in E. apply app_inj_tail in E as [-> ->].
    split; [done|]. by exists a.
  - left. rewrite !app_assoc in E. apply app_inj_tail in E as [-> _]. exists a, b'. by rewrite !app_assoc.
Qed.

Lemma occurs_take s l n : occurs_in s (take n l) -> occurs_in s l.
Proof.
  intros (a & b & E). exists a, (b ++ drop n l). rewrite <- (take_drop n l) at 1. rewrite E.
  by rewrite <- !app_assoc.
Qed.

Lemma ends_in_snoc s c l x : ends_in (s ++ [c]) (l ++ [x]) <-> x = c /\ ends_in s l.
Proof.
  split.
  - intros [a E]. rewrite app_assoc in E. apply app_inj_tail in E as [-> ->]. split; [done|]. by exists a.
  - intros [-> [a ->]]. exists a. by rewrite app_assoc.
Qed.

Lemma ends_in_both s c t d l :
  ends_in (s ++ [c]) l -> ends_in (t ++ [d]) l -> c = d /\ exists l', ends_in s l' /\ ends_in t l'.
Proof.
  intros [a ->] H. rewrite app_assoc in H. apply ends_in_snoc in H as [-> H]. split; [done|].
  exists (a ++ s). split; [by exists a|done].
Qed.

(** The four states are told apart by the end of what is written. *)
Lemma dots_disjoint l :
  ~ (ends_in [SLASH] l /\ ends_in [SLASH; DOT] l) /\ ~ (ends_in [SLASH] l /\ ends_in [SLASH; DOT; DOT] l) /\
  ~ (ends_in [SLASH; DOT] l /\ ends_in [SLASH; DOT; DOT] l).
Proof.
  split_and!; intros [H1 H2].
  - by destruct (ends_in_both [] SLASH [SLASH] DOT l H1 H2).
  - by destruct (ends_in_both [] SLASH [SLASH; DOT] DOT l H1 H2).
  - destruct (ends_in_both [SLASH] DOT [SLASH; DOT] DOT l H1 H2) as (_ & l' & H3 & H4).
    by destruct (ends_in_both [] SLASH [SLASH] DOT l' H3 H4).
Qed.

(** What has been written when the parser is in a state. *)
Definition path_ends (st : path_state) (out : list Z) : Prop :=
  match st with
  | sw_usual => ~ ends_in [SLASH] out /\ ~ ends_in [SLASH; DOT] out /\ ~ ends_in [SLASH; DOT; DOT] out
  | sw_slash => ends_in [SLASH] out
  | sw_dot => ends_in [SLASH; DOT] out
  | sw_dot_dot => ends_in [SLASH; DOT; DOT] out
  end.

Definition base_state (st : cu_state) : path_state :=
  match st with InPath q | Quoted q | QuotedSecond q _ => q end.

(** The extension begins within what is written, and only in [sw_usual]. *)
Definition ext_inv (st : path_state) (c : cu) : Prop :=
  match c.(cu_ext) with
  | Some e => st = sw_usual /\ 0 <= e <= zlen c.(cu_out)
  | None => True
  end.

Definition cu_inv (merge : bool) (st : cu_state) (c : cu) : Prop :=
  no_dot_segments c.(cu_out) /\ path_ends (base_state st) c.(cu_out) /\ ext_inv (base_state st) c /\
  (c.(cu_out) = [] \/ head c.(cu_out) = Some SLASH) /\
  (merge = true -> ~ occurs_in [SLASH; SLASH] c.(cu_out)).

Lemma no_dots_snoc l x :
  no_dot_segments l -> (x = SLASH -> ~ ends_in [SLASH; DOT] l /\ ~ ends_in [SLASH; DOT; DOT] l) ->
  no_dot_segments (l ++ [x]).
Proof.
  intros [H1 H2] Hx. split; intros H.
  - apply (occurs_snoc [SLASH; DOT]) in H as [H|[-> H]]; [done|]. by apply Hx in H.
  - apply (occurs_snoc [SLASH; DOT; DOT]) in H as [H|[-> H]]; [done|]. by apply Hx in H.
Qed.

Lemma head_snoc l (x : Z) : l <> [] -> head (l ++ [x]) = head l.
Proof. by destruct l. Qed.

Lemma slashes_snoc (merge : bool) l x :
  (merge = true -> ~ occurs_in [SLASH; SLASH] l) -> (x = SLASH -> merge = true -> ~ ends_in [SLASH] l) ->
  merge = true -> ~ occurs_in [SLASH; SLASH] (l ++ [x]).
Proof.
  intros H1 H2 Hm H. apply (occurs_snoc [SLASH]) in H as [H|[-> H]]; [by apply H1|]. by apply H2 in H.
Qed.

(** A character that is not a slash, in a segment that is not all dots. *)
Lemma push_usual merge st c ch :
  cu_inv merge (InPath st) c -> ch <> SLASH -> (ch = DOT -> st = sw_usual \/ st = sw_dot_dot) ->
  c.(cu_out) <> [] -> cu_inv merge (InPath sw_usual) (cu_push c ch).
Proof.
  intros (H1 & H2 & H3 & H4 & H5) Hs Hd Hf. cbn [base_state] in *.
  split; [by apply no_dots_snoc|]. split; [cbn; split_and!|].
  - by intros [-> _]%(ends_in_snoc []).
  - intros [-> He]%(ends_in_snoc [SLASH]). destruct (Hd eq_refl) as [-> | ->]; cbn in H2; [tauto|].
    destruct (dots_disjoint (cu_out c)) as (D1 & D2 & D3). tauto.
  - intros [-> He]%(ends_in_snoc [SLASH; DOT]). destruct (Hd eq_refl) as [-> | ->]; cbn in H2; [tauto|].
    destruct (dots_disjoint (cu_out c)) as (D1 & D2 & D3). tauto.
  - split_and!; cbn.
    + unfold ext_inv in *. cbn. destruct (cu_ext c) as [e|]; [|done]. destruct H3 as [_ ?].
      split; [done|]. rewrite zlen_app. change (zlen [ch]) with 1. lia.
    + right. rewrite head_snoc by done. by destruct H4.
    + by apply slashes_snoc.
Qed.

(** A dot after a slash or after one dot. *)
Lemma push_dot merge st st' c :
  cu_inv merge (InPath st) c -> (st = sw_slash /\ st' = sw_dot) \/ (st = sw_dot /\ st' = sw_dot_dot) ->
  cu_inv merge (InPath st') (cu_push c DOT).
Proof.
  intros (H1 & H2 & H3 & H4 & H5) Hst. cbn [base_state] in *.
  assert (Hne : c.(cu_out) <> []).
  { intros E. rewrite E in H2. destruct Hst as [[-> _]|[-> _]]; destruct H2 as [[|y a] ?]; done. }
  split; [by apply no_dots_snoc|]. split.
  - destruct Hst as [[-> ->]|[-> ->]]; cbn in *; [by apply (ends_in_snoc [SLASH])|by apply (ends_in_snoc [SLASH; DOT])].
  - split_and!; cbn.
    + unfold ext_inv in *. cbn. destruct (cu_ext c); [|done]. destruct H3 as [-> _], Hst as [[? _]|[? _]]; done.
    + right. rewrite head_snoc by done. by destruct H4.
    + by apply slashes_snoc.
Qed.

(** A slash after the end of an ordinary segment. *)
Lemma push_slash merge c :
  cu_inv merge (InPath sw_usual) c -> cu_inv merge (InPath sw_slash) (cu_push (cu_set_ext c None) SLASH).
Proof.
  intros (H1 & (H2 & H2' & H2'') & H3 & H4 & H5). split; [by apply no_dots_snoc|]. split; [|split_and!; cbn].
  - cbn. by exists c.(cu_out).
  - done.
  - right. destruct (cu_out c) as [|y l]; [done|]. destruct H4 as [?|?]; done.
  - by apply slashes_snoc.
Qed.

Lemma no_ext merge st c : cu_inv merge (InPath st) c -> st <> sw_usual -> c.(cu_ext) = None.
Proof.
  intros (_ & _ & H & _) Hst. unfold ext_inv in H. destruct (cu_ext c); [|done]. by destruct H.
Qed.

(** What is written is cut back to a slash. *)
Lemma cut_back merge st c n :
  cu_inv merge (InPath st) c -> st <> sw_usual -> (n < length c.(cu_out))%nat ->
  c.(cu_out) !! n = Some SLASH -> cu_inv merge (InPath sw_slash) (cu_set_out c (take (S n) c.(cu_out))).
Proof.
  intros Hinv Hst Hn Hl. pose proof (no_ext _ _ _ Hinv Hst) as He. destruct Hinv as ((H1 & H1') & _ & _ & H4 & H5).
  split; [split; cbn; by intros H%occurs_take|]. split; [|split_and!; cbn].
  - cbn. exists (take n c.(cu_out)). by apply take_S_r.
  - unfold ext_inv. cbn. by rewrite He.
  - right. destruct (cu_out c) as [|y l]; [done|]. destruct H4; done.
  - intros Hm H%occurs_take. by apply H5 in H.
Qed.

Lemma back_to_slash_ok out u n :
  back_to_slash out u = Some n -> exists k, n = S k /\ (k <= u)%nat /\ out !! k = Some SLASH.
Proof.
  revert n. induction u as [|u IH]; intros n; cbn [back_to_slash]; case_bool_decide as E.
  - intros [= <-]. by exists O.
  - done.
  - intros [= <-]. by exists (S u).
  - intros (k & -> & Hk & Hl)%IH. exists k. split_and!; [done|lia|done].
Qed.

Lemma common_inv merge st ch c st' c' :
  cu_inv merge (InPath st) c -> c.(cu_out) <> [] -> is_usual ch = false -> ch <> SLASH ->
  (ch = DOT -> st = sw_usual \/ st = sw_dot_dot) -> common_step st ch c = CuNext st' c' ->
  cu_inv merge st' c'.
Proof.
  intros Hinv Hne Hus Hs Hd E. unfold common_step in E.
  destruct (ch =? PERCENT); [injection E as <- <-; exact Hinv|].
  destruct (ch =? QUESTION); [done|]. destruct (ch =? HASH); [done|].
  destruct (ch =? PLUS); injection E as <- <-; by apply (push_usual merge st).
Qed.

(** What a step promises: the invariant, and at most one character more. *)
Definition grown (merge : bool) (c : cu) (st' : cu_state) (c' : cu) : Prop :=
  cu_inv merge st' c' /\ c'.(cu_out) <> [] /\ (length c'.(cu_out) <= S (length c.(cu_out)))%nat.

Lemma common_grows st ch c st' c' :
  c.(cu_out) <> [] -> common_step st ch c = CuNext st' c' ->
  c'.(cu_out) <> [] /\ (length c'.(cu_out) <= S (length c.(cu_out)))%nat.
Proof.
  intros Hne E. unfold common_step in E. repeat case_match; simplify_eq; cbn; rewrite ?length_app; cbn;
    (split; [first [done | by destruct (cu_out c)]|lia]).
Qed.

Lemma take_ne n (l : list Z) : l <> [] -> take (S n) l <> [].
Proof. by destruct l. Qed.

Lemma path_grows merge st ch c st' c' :
  c.(cu_out) <> [] -> path_ends st c.(cu_out) -> path_step merge st ch c = CuNext st' c' ->
  c'.(cu_out) <> [] /\ (length c'.(cu_out) <= S (length c.(cu_out)))%nat.
Proof.
  intros Hne He E. unfold path_step in E.
  assert (Hp : forall x, c.(cu_out) ++ [x] <> []) by (intros x; by destruct (cu_out c)).
  destruct (is_usual ch); [simplify_eq; cbn; rewrite length_app; cbn; split; [done|lia]|].
  destruct st; (destruct (ch =? SLASH); [|destruct (ch =? DOT)]);
    try (by apply (common_grows _ _ _ _ _ Hne E));
    repeat case_match; simplify_eq; cbn; rewrite ?length_app, ?length_take; cbn; try (split; [done|lia]).
  - split; [|lia]. destruct He as [[|y a] E]; rewrite E; [done|]. cbn. rewrite length_app. cbn.
    by rewrite Nat.add_comm.
  - unfold remove_segment in *. repeat case_match; simplify_eq.
    destruct (back_to_slash_ok _ _ _ H1) as (k & -> & _). rewrite length_take. split; [by apply take_ne|lia].
Qed.

Lemma set_ext_inv merge c e :
  cu_inv merge (InPath sw_usual) c -> 0 <= e <= zlen c.(cu_out) ->
  cu_inv merge (InPath sw_usual) (cu_set_ext c (Some e)).
Proof. intros (H1 & H2 & _ & H4 & H5) He. split; [done|]. split; [done|]. split; [by split|]. by split. Qed.

(** A slash after a slash that is kept. *)
Lemma push_slashes c : cu_inv false (InPath sw_slash) c -> cu_inv false (InPath sw_slash) (cu_push c SLASH).
Proof.
  intros Hinv. pose proof (no_ext _ _ _ Hinv ltac:(done)) as He. destruct Hinv as (H1 & H2 & _ & H4 & _).
  cbn in H2. destruct (dots_disjoint (cu_out c)) as (D1 & D2 & D3).
  split; [apply no_dots_snoc; [done|]; intros _; split; tauto|]. split; [cbn; by exists c.(cu_out)|].
  split; [unfold ext_inv; cbn; by rewrite He|]. split; [|done]. right. cbn.
  destruct (cu_out c); [by destruct H2 as [[|? ?] ?]|]. by destruct H4.
Qed.

Lemma path_step_inv merge st ch c st' c' :
  cu_inv merge (InPath st) c -> c.(cu_out) <> [] -> path_step merge st ch c = CuNext st' c' ->
  cu_inv merge st' c'.
Proof.
  intros Hinv Hne E. unfold path_step in E. destruct (is_usual ch) eqn:Hus.
  { injection E as <- <-. apply (push_usual merge st); try done; intros ->; done. }
  pose proof Hinv as (_ & He & Hx & _). cbn in He, Hx.
  destruct st; (destruct (Z.eqb_spec ch SLASH) as [-> | Hs]; [|destruct (Z.eqb_spec ch DOT) as [-> | Hd]]).
  all: try (by apply (common_inv merge _ _ _ _ _ Hinv Hne Hus Hs) in E; [|auto]).
  - injection E as <- <-. by apply push_slash.
  - injection E as <- <-. apply (set_ext_inv merge (cu_push c DOT)).
    + apply (push_usual merge sw_usual); try done. by left.
    + cbn. rewrite zlen_app. change (zlen [DOT]) with 1. pose proof (zlen_nonneg (cu_out c)). lia.
  - injection E as <- <-. destruct merge; [done|]. by apply push_slashes.
  - injection E as <- <-. apply (push_dot merge sw_slash); [done|by left].
  - injection E as <- <-. destruct He as [a Ea].
    replace (length (cu_out c) - 1)%nat with (S (length a)) by (rewrite Ea, length_app; cbn; lia).
    apply (cut_back merge sw_dot); try done.
    + rewrite Ea, length_app. cbn. lia.
    + rewrite Ea, lookup_app_r, Nat.sub_diag by lia. done.
  - injection E as <- <-. apply (push_dot merge sw_dot); [done|by right].
  - unfold remove_segment in E. destruct (Nat.ltb_spec (length (cu_out c)) 5) as [|Hl]; [done|].
    destruct (back_to_slash _ _) as [n|] eqn:Eb; [|done]. injection E as <- <-.
    destruct (back_to_slash_ok _ _ _ Eb) as (k & -> & Hk & Hsl). apply (cut_back merge sw_dot_dot); try done. lia.
Qed.

(** The part of a URI before its first question mark. *)
Fixpoint before_question (l : list Z) : list Z :=
  match l with
  | [] => []
  | ch :: l' => if ch =? QUESTION then [] else ch :: before_question l'
  end.

(** The last character of an escape sequence, or one in the path. *)
Lemma complex_step_inv merge st ch c st' c' :
  cu_inv merge st c -> c.(cu_out) <> [] -> complex_step merge st ch c = CuNext st' c' ->
  grown merge c st' c' /\ ch <> QUESTION.
Proof.
  intros Hinv Hne E.
  assert (Hpath : forall q ch' c1, cu_inv merge (InPath q) c1 -> c1.(cu_out) = c.(cu_out) ->
    path_step merge q ch' c1 = CuNext st' c' -> grown merge c st' c').
  { intros q ch' c1 H1 H2 H3. split; [|rewrite <- H2; apply (path_grows merge q ch' c1 st')].
    - apply (path_step_inv merge q ch' c1); [done|by rewrite H2|done].
    - by rewrite H2.
    - apply H1.
    - done. }
  assert (Hpush : forall q x, base_state st = q -> x <> SLASH -> x <> DOT -> CuNext (InPath sw_usual) (cu_push c x) = CuNext st' c' ->
    grown merge c st' c').
  { intros q x Hq Hs Hd [= <- <-]. split; [|split].
    - apply (push_usual merge q); try done. by subst q; destruct st.
    - cbn. by destruct (cu_out c).
    - cbn. rewrite length_app. cbn. lia. }
  destruct st as [q|q|q d]; cbn [complex_step] in E.
  - split; [by eapply Hpath|]. intros ->. by destruct q.
  - destruct (xdigit ch) eqn:Eh; [|done]. injection E as <- <-. split; [|by intros ->].
    split; [exact Hinv|]. split; [done|cbn; lia].
  - destruct (is_decimal ch) eqn:Ed.
    + split; [|by intros ->]. cbn zeta in E. set (x := u8 _) in E.
      destruct (Z.eqb_spec x PERCENT) as [Ex|_]; cbn [orb] in E; [apply (Hpush q x); try done; by rewrite Ex|].
      destruct (Z.eqb_spec x HASH) as [Ex|_]; cbn [orb] in E; [apply (Hpush q x); try done; by rewrite Ex|].
      destruct (x =? NUL); [done|]. by apply (Hpath q x c).
    + destruct (xdigit ch) eqn:Eh; [|done]. split; [|by intros ->]. cbn zeta in E. set (x := u8 _) in E.
      destruct (Z.eqb_spec x QUESTION) as [Ex|_]; [apply (Hpush q x); try done; by rewrite Ex|].
      apply (Hpath q x (if x =? PLUS then cu_set_plus c else c)); [by destruct (_ =? _)..|done].
Qed.

Lemma complex_stops_out merge st ch c c' :
  complex_step merge st ch c = CuArgs c' \/ complex_step merge st ch c = CuDone c' ->
  c'.(cu_out) = c.(cu_out) /\ c'.(cu_ext) = c.(cu_ext).
Proof.
  intros H. destruct st as [q|q|q d]; cbn in H;
    unfold path_step, common_step in H; repeat case_match; destruct H; simplify_eq; done.
Qed.

(** What holds of a path the parser returns. *)
Definition path_safe (merge : bool) (c : cu) : Prop :=
  head c.(cu_out) = Some SLASH /\ no_dot_segments c.(cu_out) /\
  (merge = true -> ~ occurs_in [SLASH; SLASH] c.(cu_out)) /\
  match c.(cu_ext) with Some e => 0 <= e <= zlen c.(cu_out) | None => True end.

Lemma inv_safe merge st c : cu_inv merge st c -> c.(cu_out) <> [] -> path_safe merge c.
Proof.
  intros (H1 & _ & H3 & H4 & H5) Hne. split; [by destruct H4|]. split; [done|]. split; [done|].
  unfold ext_inv in H3. destruct (cu_ext c); [by destruct H3|done].
Qed.

Lemma path_safe_ext merge c c' :
  c'.(cu_out) = c.(cu_out) -> c'.(cu_ext) = c.(cu_ext) -> path_safe merge c -> path_safe merge c'.
Proof. unfold path_safe. intros -> ->. done. Qed.

Lemma complex_loop_safe merge uri : forall st c res,
  cu_inv merge st c -> c.(cu_out) <> [] -> complex_loop merge st c uri = Some res ->
  path_safe merge res.(cr_cu) /\ zlen res.(cr_cu).(cu_out) <= zlen c.(cu_out) + zlen (before_question uri).
Proof.
  induction uri as [|ch uri IH]; intros st c res Hinv Hne; cbn [complex_loop before_question].
  { intros [= <-]. cbn. split; [by eapply inv_safe|]. rewrite zlen_nil. lia. }
  pose proof (inv_safe _ _ _ Hinv Hne) as Hsafe. pose proof (zlen_nonneg (before_question (ch :: uri))) as Hz.
  cbn [before_question] in Hz.
  destruct (complex_step merge st ch c) as [st' c'|c'|c'|] eqn:E; [|..|done].
  - destruct (complex_step_inv _ _ _ _ _ _ Hinv Hne E) as [(H1 & H2 & H3) Hq]. intros Hl.
    destruct (IH st' c' res H1 H2 Hl) as [H4 H5]. split; [done|].
    rewrite (proj2 (Z.eqb_neq _ _) Hq), zlen_cons. unfold zlen in *. lia.
  - destruct (complex_stops_out merge st ch c c' (or_introl E)) as [E1 E2]. intros [= <-].
    unfold complex_args. destruct (until_hash uri); cbn; rewrite E1; (split; [by eapply path_safe_ext|lia]).
  - destruct (complex_stops_out merge st ch c c' (or_intror E)) as [E1 E2]. intros [= <-]. cbn. rewrite E1.
    split; [by eapply path_safe_ext|lia].
Qed.

Lemma complex_start merge plus quoted rest :
  ngx_http_parse_complex_uri merge plus quoted (SLASH :: rest) =
    complex_loop merge (InPath sw_slash) (Cu [SLASH] None plus quoted) rest /\
  cu_inv merge (InPath sw_slash) (Cu [SLASH] None plus quoted).
Proof.
  split; [done|]. split; [split; intros ([|x [|y a]] & b & E); done|].
  split; [by exists []|]. split; [done|]. split; [by right|].
  intros _ ([|x [|y a]] & b & E); done.
Qed.

Lemma complex_safe merge plus quoted rest res :
  ngx_http_parse_complex_uri merge plus quoted (SLASH :: rest) = Some res ->
  path_safe merge res.(cr_cu) /\
  zlen res.(cr_cu).(cu_out) <= zlen (before_question (SLASH :: rest)).
Proof.
  destruct (complex_start merge plus quoted rest) as [-> Hinv]. intros H.
  destruct (complex_loop_safe merge rest _ _ res Hinv) as [H1 H2]; [done|done|].
  split; [done|]. change (before_question (SLASH :: rest)) with (SLASH :: before_question rest).
  rewrite zlen_cons. cbn in H2. change (zlen [SLASH]) with 1 in H2. lia.
Qed.

(** A decoded URI cannot lead out of the document root. For a URI that begins
    with a slash, whatever is escaped in it, the path that is returned begins
    with a slash, none of its segments but possibly the last is [.] or [..],
    with [merge_slashes] no slash follows another, the extension begins within
    it, and it is no longer than the part of the URI before its first question
    mark, which is what the buffer was allocated for. *)
Theorem complex_uri_safe merge plus quoted rest res :
  ngx_http_parse_complex_uri merge plus quoted (SLASH :: rest) = Some res ->
  path_safe merge res.(cr_cu) /\
  zlen res.(cr_cu).(cu_out) <= zlen (before_question (SLASH :: rest)).
Proof. apply complex_safe. Qed.

Lemma complex_uri_safe_witness :
  exists res, ngx_http_parse_complex_uri true false true (lit "/a/%2e%2E/b//c/./d.txt?x#y") = Some res /\
    path_safe true res.(cr_cu) /\ res.(cr_cu).(cu_out) = lit "/b/c/d.txt" /\
    complex_exten res.(cr_cu) = Some (lit "txt") /\ res.(cr_args) = Some (lit "x").
Proof.
  eexists. split; [vm_compute; reflexivity|].
  split; [|vm_compute; done].
  apply (complex_uri_safe true false true (lit "a/%2e%2E/b//c/./d.txt?x#y")). vm_compute. reflexivity.
Defined.

(** Dot segments and escape sequences at the very end are left as they are. A
    last segment [..] is not resolved, and an escape sequence cut off by the end
    of the URI is dropped without an error. *)
Theorem uri_end_unresolved :
  let out uri := (fun res => res.(cr_cu).(cu_out)) <$> ngx_http_parse_complex_uri true false false uri in
  out (lit "/a/b/..") = Some (lit "/a/b/..") /\ out (lit "/a/b/../") = Some (lit "/a/") /\
  out (lit "/a%4") = Some (lit "/a") /\ out (lit "/a%") = Some (lit "/a").
Proof. vm_compute. done. Qed.
