(* ===== verification/HttpUriSafe.v ===== *)
(** * From a request line to a path

    [ngx_http_parse_request_line] and [ngx_http_process_request_uri] together:
    whatever a client sends, the path of a request whose line was accepted is
    safe, except for a URI with a space in it, and fits the room allocated for
    it. *)

From S2P Require Import Prelude HttpRequest HttpRequestSafe HttpUri.

(** ** Where a URI begins *)

Definition points_to (mem : list Z) (o : option Z) (c : Z) : Prop :=
  match o with Some p => mem !! Z.to_nat p = Some c | None => True end.

(** The URI begins with a slash, and a question mark comes before the arguments;
    for a URI that is a slash of the schema, that slash was read. *)
Definition slash_inv (mem : list Z) (st : rl_state) (r : http_request) (p : Z) : Prop :=
  points_to mem r.(uri_start) SLASH /\ points_to mem ((fun a => a - 1) <$> r.(args_start)) QUESTION /\
  match st with
  | sw_schema_slash => has r.(schema_end) (fun se => se + 1 = p)
  | sw_schema_slash_slash | sw_host_start | sw_host | sw_host_end | sw_host_ip_literal | sw_port =>
      points_to mem ((fun e => e + 1) <$> r.(schema_end)) SLASH
  | _ => True
  end.

Definition next_slash (mem : list Z) (p : Z) (o : pstep rl_state http_request) : Prop :=
  match o with
  | Next st r => slash_inv mem st r (p + 1)
  | Done r => points_to mem r.(uri_start) SLASH /\ points_to mem ((fun a => a - 1) <$> r.(args_start)) QUESTION
  | Fail _ _ => True
  end.

Ltac slash_cases :=
  repeat match goal with
  | H : (?a =? ?b) = true |- _ => apply Z.eqb_eq in H; subst a
  | |- context [if ?b then _ else _] => destruct b eqn:?
  end.

Lemma host_end_slash mem p ch r :
  mem !! Z.to_nat p = Some ch -> points_to mem ((fun e => e + 1) <$> r.(schema_end)) SLASH ->
  points_to mem ((fun a => a - 1) <$> r.(args_start)) QUESTION -> points_to mem r.(uri_start) SLASH ->
  next_slash mem p (step_host_end p ch r) /\ next_slash mem p (step_host p ch r).
Proof.
  intros Hch Hs Ha Hu. assert (H : next_slash mem p (step_host_end p ch r)).
  { unfold step_host_end. cbn zeta. by slash_cases. }
  split; [done|]. unfold step_host. by destruct (_ || _).
Qed.

Lemma step_slash mem p ch st r :
  mem !! Z.to_nat p = Some ch -> slash_inv mem st r p -> next_slash mem p (rl_step mem p ch st r).
Proof.
  intros Hch (Hu & Ha & Hst). destruct st; cbn [rl_step].
  all: try (apply host_end_slash; done).
  all: unfold step_after_slash, step_check_uri, step_uri, step_http_09, uri_ends, expect; cbn zeta.
  all: try (by slash_cases).
  - destruct (Z.eqb_spec ch SLASH) as [->|]; [|done]. split; [done|]. split; [done|]. cbn in *.
    destruct (schema_end r) as [se|]; [|done]. cbn in *. by rewrite Hst.
  - destruct (ch =? 91); [done|]. apply host_end_slash; done.
  - slash_cases; (try done); (split; [done|]); (split; [|done]); cbn; by replace (p + 1 - 1) with p by lia.
  - slash_cases; (try done); (split; [done|]); (split; [|done]); cbn; by replace (p + 1 - 1) with p by lia.
Qed.

Lemma loop_slash mem input : forall pre post st r,
  mem = pre ++ input ++ post -> slash_inv mem st r (zlen pre) ->
  let res := rl_loop mem input (zlen pre) st r in
  res.(rl_code) = NGX_OK ->
  points_to mem res.(rl_request).(uri_start) SLASH /\
  points_to mem ((fun a => a - 1) <$> res.(rl_request).(args_start)) QUESTION.
Proof.
  induction input as [|ch input IH]; intros pre post st r Em Hinv; cbn [rl_loop]; [done|].
  assert (Hc : mem !! Z.to_nat (zlen pre) = Some ch).
  { rewrite Em. unfold zlen. rewrite Nat2Z.id, lookup_app_r, Nat.sub_diag by lia. done. }
  pose proof (step_slash mem _ ch st r Hc Hinv) as H.
  destruct (rl_step mem (zlen pre) ch st r) as [st' r'|r'|code r'] eqn:E; cbn [next_slash] in H.
  - replace (zlen pre + 1) with (zlen (pre ++ [ch])) in * by (by autorewrite with ngx).
    apply (IH _ post); [by rewrite <- app_assoc|done].
  - intros _. unfold rl_done. by destruct (request_end r').
  - apply step_fail_codes in E as [-> | ->]; done.
Qed.

(** ** Paths *)

Lemma before_question_at l k : l !! k = Some QUESTION -> zlen (before_question l) <= Z.of_nat k.
Proof.
  revert k. induction l as [|c l IH]; intros k; [done|]. cbn. destruct (Z.eqb_spec c QUESTION) as [->|Hc].
  - intros _. change (zlen (@nil Z)) with 0. lia.
  - destruct k as [|k]; cbn; [by intros [= ->]|]. intros H%IH. rewrite zlen_cons. lia.
Qed.

Lemma before_question_length l : zlen (before_question l) <= zlen l.
Proof. induction l as [|c l IH]; [done|]. cbn. destruct (_ =? _); rewrite ?zlen_cons; change (zlen (@nil Z)) with 0; pose proof (zlen_nonneg l); lia. Qed.

Lemma lookup_sub mem i j k :
  0 <= i -> 0 <= k < j - i -> sub mem i j !! Z.to_nat k = mem !! Z.to_nat (i + k).
Proof.
  intros Hi Hk. unfold sub. rewrite lookup_take_lt by lia. rewrite lookup_drop. f_equal. lia.
Qed.

(** What a path may be used for: it begins with a slash, none of its segments but
    the last is [.] or [..], and with [merge_slashes] no slash follows another. *)
Definition uri_safe (merge : bool) (path : list Z) : Prop :=
  head path = Some SLASH /\ no_dot_segments path /\ (merge = true -> ~ occurs_in [SLASH; SLASH] path).

Lemma clean_path_pair l : forall prev a b x y,
  clean_path prev l = true -> l = a ++ x :: y :: b -> path_char_ok x y = true.
Proof.
  induction l as [|c l IH]; intros prev a b x y Hc E; [by destruct a|].
  cbn in Hc. apply andb_prop in Hc as [_ Hc]. destruct a as [|c' a]; cbn in E.
  - injection E as -> ->. cbn in Hc. by apply andb_prop in Hc as [? _].
  - injection E as _ E. by apply (IH c a b).
Qed.

Lemma clean_safe merge path :
  head path = Some SLASH -> clean_path NUL path = true -> uri_safe merge path.
Proof.
  intros Hh Hc. split; [done|]. split; [split|intros _]; intros (a & b & E);
    pose proof (fun b' y => clean_path_pair path NUL a b' SLASH y Hc) as H.
  - by specialize (H (SLASH :: b) DOT E).
  - by specialize (H (DOT :: SLASH :: b) DOT E).
  - by specialize (H b SLASH E).
Qed.

(** What is known of the request when its line was accepted. *)
Record accepted (mem : list Z) (r : http_request) (us ue : Z) : Prop := {
  ac_start : r.(uri_start) = Some us;
  ac_end : r.(uri_end) = Some ue;
  ac_bounds : 0 <= us < ue /\ ue <= zlen mem;
  ac_slash : mem !! Z.to_nat us = Some SLASH;
  ac_args : match r.(args_start) with
            | Some a => us < a - 1 /\ a - 1 < ue /\ mem !! Z.to_nat (a - 1) = Some QUESTION
            | None => True
            end;
  ac_clean : unmarked r -> clean_path NUL (sub mem us (path_end r ue)) = true;
}.

Lemma line_accepted mem :
  let res := ngx_http_parse_request_line mem 0 (zlen mem) sw_start new_request_line in
  res.(rl_code) = NGX_OK -> exists us ue, accepted mem res.(rl_request) us ue.
Proof.
  cbv zeta. intros Hc. pose proof (parse_all _ _ _ Hc) as E. rewrite E in *. clear E.
  destruct (loop_inv mem mem 0 sw_start new_request_line) as [_ Hl]; [done|].
  destruct (Hl (or_introl Hc)) as [Hline Hpos]. clear Hl.
  pose proof (loop_slash mem mem [] [] sw_start new_request_line ltac:(by rewrite app_nil_r) ltac:(done) Hc) as [Hu Ha].
  pose proof (loop_text mem mem [] [] sw_start new_request_line ltac:(by rewrite app_nil_r) ltac:(done) ltac:(done) Hc) as Ht.
  change (zlen (@nil Z)) with 0 in *. revert Hline Hpos Hu Ha Ht. clear Hc.
  generalize (rl_loop mem mem 0 sw_start new_request_line) as res. intros res Hline Hpos Hu Ha Ht.
  unfold line_ok, method_ok, uri_ok in Hline. set (r := rl_request res) in *.
  destruct (request_end r) as [re|]; [|done]. destruct Hline as (Hre & Hm & _ & Hue & _).
  destruct (uri_end r) as [ue|] eqn:Eue; [|done]. destruct (uri_start r) as [us|] eqn:Eus.
  2: { by destruct (method_end r), Hue. }
  destruct (request_start r) as [m|], (method_end r) as [e|]; try done. cbn in *.
  destruct Hue as [(H1 & H2 & _ & _) H3]. exists us, ue. constructor; try done; try lia.
  - destruct (args_start r) as [a|]; [|done]. cbn in *. split; [|split; [lia|done]].
    destruct (decide (a - 1 = us)) as [E|]; [|lia]. rewrite E in Ha. rewrite Ha in Hu. done.
  - intros Hun. specialize (Ht Hun). unfold text_ok in Ht. rewrite Eus in Ht. cbn in Ht. tauto.
Qed.

Lemma accepted_uri mem r us ue merge u :
  accepted mem r us ue -> r.(space_in_uri) = false -> ngx_http_process_request_uri mem merge r = Some u ->
  uri_safe merge u.(ru_uri) /\ zlen u.(ru_uri) < uri_room r.
Proof.
  intros [] Hsp. unfold ngx_http_process_request_uri, uri_room. rewrite ac_start0, ac_end0.
  assert (Epath : path_end r ue <= ue /\ us < path_end r ue).
  { unfold path_end. destruct (args_start r); lia. }
  assert (Esub : exists l, sub mem us ue = SLASH :: l).
  { pose proof (lookup_sub mem us ue 0 ltac:(lia) ltac:(lia)) as H. rewrite Z.add_0_r, ac_slash0 in H.
    destruct (sub mem us ue) as [|c l]; [done|]. injection H as ->. by exists l. }
  destruct (complex_uri r || quoted_uri r) eqn:Em.
  - destruct Esub as [l El]. rewrite El. destruct (ngx_http_parse_complex_uri _ _ _ _) as [res|] eqn:E; [|done].
    intros [= <-]. cbn [ru_uri]. destruct (complex_safe _ _ _ _ _ E) as [(H1 & H2 & H3 & _) H4]. split; [done|].
    rewrite <- El in H4. enough (zlen (before_question (sub mem us ue)) <= path_end r ue - us) by lia.
    unfold path_end in *. destruct (args_start r) as [a|].
    + destruct ac_args0 as (A1 & A2 & A3). pose proof (before_question_at (sub mem us ue) (Z.to_nat (a - 1 - us))) as H.
      rewrite lookup_sub in H by lia. replace (us + (a - 1 - us)) with (a - 1) in H by lia. specialize (H A3). lia.
    + pose proof (before_question_length (sub mem us ue)) as H. unfold zlen, sub in *. rewrite length_take in H. lia.
  - intros [= <-]. cbn [ru_uri]. apply orb_false_iff in Em as [E1 E2]. split.
    + apply clean_safe; [|by apply ac_clean0].
      pose proof (lookup_sub mem us (path_end r ue) 0 ltac:(lia) ltac:(lia)) as H. rewrite Z.add_0_r, ac_slash0 in H.
      by destruct (sub mem us (path_end r ue)).
    + unfold zlen, sub. rewrite length_take. lia.
Qed.

(** C12: the path of a request is safe. Whatever bytes a client sends, when the
    request line is accepted, its URI holds no space and is not refused, the path
    begins with a slash, none of its segments but possibly the last is [.] or
    [..], with [merge_slashes] it has no empty segments, whether it had to be
    decoded or not; and it is shorter than the room allocated for it. *)
Theorem request_uri_safe mem merge u :
  let r := (ngx_http_parse_request_line mem 0 (zlen mem) sw_start new_request_line).(rl_request) in
  (ngx_http_parse_request_line mem 0 (zlen mem) sw_start new_request_line).(rl_code) = NGX_OK ->
  r.(space_in_uri) = false -> ngx_http_process_request_uri mem merge r = Some u ->
  uri_safe merge u.(ru_uri) /\ zlen u.(ru_uri) < uri_room r.
Proof.
  intros r Hc. destruct (line_accepted mem Hc) as (us & ue & H). by apply (accepted_uri mem r us ue).
Qed.

Lemma request_uri_safe_witness :
  let mem := lit "GET http://ex.org/a/%2e%2E/b//c.txt?x HTTP/1.0" ++ [CR; LF] in
  let r := (ngx_http_parse_request_line mem 0 (zlen mem) sw_start new_request_line).(rl_request) in
  exists u, ngx_http_process_request_uri mem true r = Some u /\ u.(ru_uri) = lit "/b/c.txt" /\ u.(ru_args) = Some (lit "x") /\
    uri_safe true u.(ru_uri) /\ zlen u.(ru_uri) < uri_room r.
Proof.
  cbv zeta. eexists. split; [vm_compute; reflexivity|]. split; [reflexivity|]. split; [reflexivity|].
  apply (request_uri_safe (lit "GET http://ex.org/a/%2e%2E/b//c.txt?x HTTP/1.0" ++ [CR; LF]) true); vm_compute; reflexivity.
Defined.
