(* ===== verification/HttpUriResolve.v ===== *)
(** * Decoding and resolving a path

    [ngx_http_parse_complex_uri] against a reference: decode the escape
    sequences, cut the result at the slashes, and resolve the segments with a
    stack. *)

From S2P Require Import Prelude HttpRequest HttpUri.

(** ** The reference *)

(** A character of a URI, as it is or as an escape sequence. *)
Inductive token :=
  | Plain (c : Z)
  | Escaped (h1 h2 : Z).

Definition tok_bytes (t : token) : list Z :=
  match t with Plain c => [c] | Escaped h1 h2 => [PERCENT; h1; h2] end.

Definition tok_char (t : token) : Z :=
  match t with
  | Plain c => c
  | Escaped h1 h2 =>
      match xdigit h1, xdigit h2 with Some d1, Some d2 => d1 * 16 + d2 | _, _ => 0 end
  end.

(** Percent sign, question mark and hash only as escape sequences, and no escaped
    NUL. *)
Definition tok_wf (t : token) : Prop :=
  match t with
  | Plain c => c <> PERCENT /\ c <> QUESTION /\ c <> HASH
  | Escaped h1 h2 => is_Some (xdigit h1) /\ is_Some (xdigit h2) /\ tok_char t <> NUL
  end.

(** Segments that end in a slash, the last one given first: empty ones and single
    dots are dropped, two dots remove the segment before; [None] when there is
    none. *)
Fixpoint resolve (stack segs : list (list Z)) : option (list (list Z)) :=
  match segs with
  | [] => Some stack
  | s :: segs =>
      if bool_decide (s = []) || bool_decide (s = [DOT]) then resolve stack segs
      else if bool_decide (s = [DOT; DOT]) then
        match stack with [] => None | _ :: stack => resolve stack segs end
      else resolve (s :: stack) segs
  end.

(** The path of a stack. *)
Fixpoint path_text (stack : list (list Z)) : list Z :=
  match stack with
  | [] => [SLASH]
  | s :: stack => path_text stack ++ s ++ [SLASH]
  end.

Definition plain_segment (s : list Z) : Prop := Forall (fun c => c <> SLASH) s.

(** ** Steps *)

(** What a character of the path does; escaped delimiters are ordinary. *)
Definition char_step (st : path_state) (ch : Z) (out : list Z) : option (path_state * list Z) :=
  if ch =? SLASH then
    match st with
    | sw_usual => Some (sw_slash, out ++ [SLASH])
    | sw_slash => Some (sw_slash, out)
    | sw_dot => Some (sw_slash, take (length out - 1) out)
    | sw_dot_dot => (fun out => (sw_slash, out)) <$> remove_segment out
    end
  else if ch =? DOT then
    Some (match st with sw_slash => sw_dot | sw_dot => sw_dot_dot | _ => sw_usual end, out ++ [DOT])
  else Some (sw_usual, out ++ [ch]).

Lemma path_step_char st ch c :
  ch <> PERCENT -> ch <> QUESTION -> ch <> HASH ->
  match char_step st ch c.(cu_out) with
  | Some (st', out') => exists c', path_step true st ch c = CuNext (InPath st') c' /\ c'.(cu_out) = out'
  | None => path_step true st ch c = CuInvalid
  end.
Proof.
  intros H1 H2 H3. unfold path_step, char_step, common_step.
  rewrite (proj2 (Z.eqb_neq ch PERCENT)), (proj2 (Z.eqb_neq ch QUESTION)), (proj2 (Z.eqb_neq ch HASH)) by done.
  destruct (is_usual ch) eqn:Eu.
  { destruct (Z.eqb_spec ch SLASH) as [->|]; [done|]. destruct (Z.eqb_spec ch DOT) as [->|]; [done|]. by eexists. }
  destruct st; (destruct (ch =? SLASH) eqn:Es; [|destruct (ch =? DOT) eqn:Ed; [|destruct (ch =? PLUS) eqn:Ep]]);
    try (apply Z.eqb_eq in Es as ->); try (apply Z.eqb_eq in Ed as ->); try (by eexists).
  cbn. destruct (remove_segment _); [by eexists|done].
Qed.

Lemma char_step_push st ch out : ch <> SLASH -> ch <> DOT -> char_step st ch out = Some (sw_usual, out ++ [ch]).
Proof. intros H1 H2. unfold char_step. by rewrite (proj2 (Z.eqb_neq ch SLASH)), (proj2 (Z.eqb_neq ch DOT)). Qed.

(** The second digit of an escape sequence. *)
Lemma escaped_step st d1 h2 d2 c :
  0 <= d1 < 16 -> xdigit h2 = Some d2 -> d1 * 16 + d2 <> NUL ->
  match char_step st (d1 * 16 + d2) c.(cu_out) with
  | Some (st', out') => exists c', complex_step true (QuotedSecond st d1) h2 c = CuNext (InPath st') c' /\ c'.(cu_out) = out'
  | None => complex_step true (QuotedSecond st d1) h2 c = CuInvalid
  end.
Proof.
  intros Hd1 E2 Hn. cbn [complex_step].
  assert (Hd2 : if is_decimal h2 then 0 <= d2 < 10 /\ d2 = h2 - 48 else 10 <= d2 < 16).
  { unfold xdigit, is_decimal in *. cbn zeta in E2. repeat case_match; simplify_eq; lia. }
  destruct (is_decimal h2).
  - cbv zeta. destruct Hd2 as [Hd2 ->]. replace (u8 (Z.shiftl d1 4 + h2 - 48)) with (d1 * 16 + (h2 - 48))
      by (rewrite Z.shiftl_mul_pow2, u8_small by lia; lia).
    set (ch := d1 * 16 + (h2 - 48)) in *.
    destruct (Z.eqb_spec ch PERCENT) as [E|]; cbn [orb]; [rewrite char_step_push by (rewrite E; done); by eexists|].
    destruct (Z.eqb_spec ch HASH) as [E|]; cbn [orb]; [rewrite char_step_push by (rewrite E; done); by eexists|].
    rewrite (proj2 (Z.eqb_neq ch NUL)) by done. apply path_step_char; lia.
  - rewrite E2. cbv zeta. replace (u8 (Z.shiftl d1 4 + d2)) with (d1 * 16 + d2)
      by (rewrite Z.shiftl_mul_pow2, u8_small by lia; lia).
    set (ch := d1 * 16 + d2) in *.
    destruct (Z.eqb_spec ch QUESTION) as [E|]; [rewrite char_step_push by (rewrite E; done); by eexists|].
    pose proof (path_step_char st ch (if ch =? PLUS then cu_set_plus c else c) ltac:(lia) ltac:(lia) ltac:(lia)) as H.
    by destruct (ch =? PLUS).
Qed.

(** An escape sequence is the character it stands for. *)
Lemma token_step t st c rest :
  tok_wf t ->
  match char_step st (tok_char t) c.(cu_out) with
  | Some (st', out') => exists c', complex_loop true (InPath st) c (tok_bytes t ++ rest) = complex_loop true (InPath st') c' rest /\
      c'.(cu_out) = out'
  | None => complex_loop true (InPath st) c (tok_bytes t ++ rest) = None
  end.
Proof.
  destruct t as [ch|h1 h2]; cbn [tok_wf tok_bytes app complex_loop].
  - intros (H1 & H2 & H3). pose proof (path_step_char st ch c H1 H2 H3) as H. cbn [tok_char complex_step].
    destruct (char_step st ch (cu_out c)) as [[st' out']|]; [|by rewrite H]. destruct H as (c' & -> & ?). by exists c'.
  - intros ([d1 E1] & [d2 E2] & Hn). unfold tok_char in *. rewrite E1, E2 in *.
    replace (complex_step true (InPath st) PERCENT c) with (CuNext (Quoted st) c) by (by destruct st).
    cbn [complex_step]. rewrite E1.
    assert (Hd1 : 0 <= d1 < 16) by (unfold xdigit, is_decimal in E1; cbn zeta in E1; repeat case_match; simplify_eq; lia).
    pose proof (escaped_step st d1 h2 d2 (cu_set_quoted c) Hd1 E2 Hn) as H.
    change (cu_out (cu_set_quoted c)) with (cu_out c) in H.
    destruct (char_step st (d1 * 16 + d2) (cu_out c)) as [[st' out']|]; [|by rewrite H]. destruct H as (c' & -> & ?). by exists c'.
Qed.

(** ** The whole path *)

(** The parser on decoded characters. *)
Fixpoint chars_run (st : path_state) (out : list Z) (l : list Z) : option (path_state * list Z) :=
  match l with
  | [] => Some (st, out)
  | ch :: l => match char_step st ch out with Some (st, out) => chars_run st out l | None => None end
  end.

Lemma tokens_run toks : forall st c,
  Forall tok_wf toks ->
  (fun res => res.(cr_cu).(cu_out)) <$> complex_loop true (InPath st) c (concat (map tok_bytes toks)) =
    snd <$> chars_run st c.(cu_out) (map tok_char toks).
Proof.
  induction toks as [|t toks IH]; intros st c Hwf; [done|]. apply Forall_cons in Hwf as [Ht Hwf].
  cbn [map concat chars_run]. pose proof (token_step t st c (concat (map tok_bytes toks)) Ht) as H.
  destruct (char_step st (tok_char t) (cu_out c)) as [[st' out']|]; [|by rewrite H].
  destruct H as (c' & -> & <-). by apply IH.
Qed.

Lemma chars_run_app a : forall st out b,
  chars_run st out (a ++ b) = match chars_run st out a with Some (st', out') => chars_run st' out' b | None => None end.
Proof.
  induction a as [|ch a IH]; intros st out b; [done|]. cbn [app chars_run].
  destruct (char_step st ch out) as [[st' out']|]; [apply IH|done].
Qed.

(** A segment leads to the state of its dots, or to [sw_usual]. *)
Definition segment_state (s : list Z) : path_state :=
  if bool_decide (s = []) then sw_slash
  else if bool_decide (s = [DOT]) then sw_dot
  else if bool_decide (s = [DOT; DOT]) then sw_dot_dot
  else sw_usual.

Lemma char_not_slash st ch out :
  ch <> SLASH -> char_step st ch out =
    Some (if ch =? DOT then match st with sw_slash => sw_dot | sw_dot => sw_dot_dot | _ => sw_usual end else sw_usual, out ++ [ch]).
Proof.
  intros H. unfold char_step. rewrite (proj2 (Z.eqb_neq ch SLASH)) by done. by destruct (Z.eqb_spec ch DOT) as [->|].
Qed.

Lemma usual_run s : forall out, plain_segment s -> chars_run sw_usual out s = Some (sw_usual, out ++ s).
Proof.
  induction s as [|ch s IH]; intros out Hs; cbn [chars_run]; [by rewrite app_nil_r|].
  apply Forall_cons in Hs as [Hch Hs]. rewrite char_not_slash by done.
  replace (if ch =? DOT then sw_usual else sw_usual) with sw_usual by (by destruct (_ =? _)).
  rewrite IH by done. by rewrite <- app_assoc.
Qed.

Lemma segment_run s out : plain_segment s -> chars_run sw_slash out s = Some (segment_state s, out ++ s).
Proof.
  unfold segment_state. intros Hs. destruct s as [|c1 s]; [cbn; by rewrite app_nil_r|].
  apply Forall_cons in Hs as [H1 Hs]. cbn [chars_run]. rewrite char_not_slash by done.
  rewrite (bool_decide_eq_false_2 (c1 :: s = [])) by done.
  destruct (Z.eqb_spec c1 DOT) as [->|N1].
  2: { rewrite usual_run, <- app_assoc by done. rewrite !bool_decide_eq_false_2 by congruence. done. }
  destruct s as [|c2 s]; [cbn; rewrite bool_decide_eq_true_2 by done; done|].
  apply Forall_cons in Hs as [H2 Hs]. cbn [chars_run]. rewrite char_not_slash by done.
  rewrite (bool_decide_eq_false_2 (DOT :: c2 :: s = [DOT])) by done.
  destruct (Z.eqb_spec c2 DOT) as [->|N2].
  2: { rewrite usual_run, <- !app_assoc by done. rewrite bool_decide_eq_false_2 by congruence. done. }
  destruct s as [|c3 s]; [cbn; rewrite bool_decide_eq_true_2, <- app_assoc by done; done|].
  apply Forall_cons in Hs as [H3 Hs]. cbn [chars_run]. rewrite char_not_slash by done.
  rewrite (bool_decide_eq_false_2 (DOT :: DOT :: c3 :: s = [DOT; DOT])) by done.
  replace (if c3 =? DOT then sw_usual else sw_usual) with sw_usual by (by destruct (_ =? _)).
  rewrite usual_run, <- !app_assoc by done. done.
Qed.

(** ** Removing a segment *)

Lemma path_text_ends stack : exists l, path_text stack = l ++ [SLASH].
Proof. destruct stack as [|s stack]; [by exists []|]. exists (path_text stack ++ s). cbn. by rewrite app_assoc. Qed.

(** The search stops at the slash before a stretch without slashes. *)
Lemma back_to_slash_at pre s tail n :
  plain_segment s -> (n <= length s)%nat ->
  back_to_slash ((pre ++ [SLASH]) ++ s ++ tail) (length pre + n) = Some (S (length pre)).
Proof.
  intros Hs. induction n as [|n IH]; intros Hn.
  - rewrite Nat.add_0_r.
    assert (E : ((pre ++ [SLASH]) ++ s ++ tail) !! length pre = Some SLASH).
    { rewrite <- app_assoc. rewrite lookup_app_r, Nat.sub_diag by lia. done. }
    destruct (length pre) as [|k]; cbn [back_to_slash]; by rewrite bool_decide_eq_true_2.
  - replace (length pre + S n)%nat with (S (length pre + n)) by lia. cbn [back_to_slash].
    rewrite bool_decide_eq_false_2; [apply IH; lia|].
    rewrite lookup_app_r by (rewrite length_app; cbn; lia). rewrite length_app. cbn [length].
    replace (S (length pre + n) - (length pre + 1))%nat with n by lia. rewrite lookup_app_l by lia.
    intros E. apply (proj1 (Forall_lookup _ _) Hs) in E. done.
Qed.

Lemma remove_top stack s : plain_segment s -> s <> [] -> remove_segment (path_text (s :: stack) ++ [DOT; DOT]) = Some (path_text stack).
Proof.
  intros Hs Hne. unfold remove_segment. cbn [path_text]. destruct (path_text_ends stack) as [pre ->].
  assert (0 < length s)%nat by (destruct s; [done|cbn; lia]).
  rewrite !length_app. cbn [length]. rewrite (proj2 (Nat.ltb_ge _ _)) by lia.
  replace (length pre + 1 + (length s + 1) + 2 - 5)%nat with (length pre + (length s - 1))%nat by lia.
  rewrite <- !app_assoc, (app_assoc pre). rewrite back_to_slash_at by (try done; lia).
  rewrite take_app_length' by (rewrite length_app; cbn; lia). done.
Qed.

(** A segment and the slash after it. *)
Lemma segment_slash stack s :
  plain_segment s -> Forall (fun s => plain_segment s /\ s <> []) stack ->
  chars_run sw_slash (path_text stack) (s ++ [SLASH]) = (fun stack => (sw_slash, path_text stack)) <$> resolve stack [s].
Proof.
  intros Hs Hst. rewrite chars_run_app, segment_run by done. cbn [chars_run resolve]. unfold segment_state.
  destruct (decide (s = [])) as [->|H0].
  { rewrite !bool_decide_eq_true_2 by done. cbn. by rewrite app_nil_r. }
  destruct (decide (s = [DOT])) as [->|H1].
  { rewrite bool_decide_eq_false_2, !bool_decide_eq_true_2 by done. cbn [orb char_step fmap option_fmap option_map].
    unfold char_step. cbn. rewrite length_app. cbn. rewrite Nat.add_sub, take_app_length. done. }
  destruct (decide (s = [DOT; DOT])) as [->|H2].
  { rewrite !bool_decide_eq_false_2, bool_decide_eq_true_2 by done. cbn [orb]. unfold char_step. cbn [Z.eqb Pos.eqb].
    destruct stack as [|top stack]; [done|]. apply Forall_cons in Hst as [[Ht Hne] _].
    rewrite remove_top by done. done. }
  rewrite !bool_decide_eq_false_2 by done. cbn [orb]. unfold char_step. cbn. by rewrite <- !app_assoc.
Qed.

Lemma resolve_app a : forall stack b,
  resolve stack (a ++ b) = match resolve stack a with Some stack' => resolve stack' b | None => None end.
Proof.
  induction a as [|s a IH]; intros stack b; [done|]. cbn [app resolve].
  destruct (_ || _); [apply IH|]. destruct (bool_decide (s = [DOT; DOT])); [|apply IH]. destruct stack; [done|apply IH].
Qed.

Lemma resolve_ok segs : forall stack stack',
  Forall plain_segment segs -> Forall (fun s => plain_segment s /\ s <> []) stack -> resolve stack segs = Some stack' ->
  Forall (fun s => plain_segment s /\ s <> []) stack'.
Proof.
  induction segs as [|s segs IH]; intros stack stack' Hs Hst; cbn [resolve].
  { by intros [= <-]. }
  apply Forall_cons in Hs as [Hs1 Hs]. destruct (bool_decide (s = [])) eqn:E0; cbn [orb]; [by apply IH|].
  destruct (bool_decide (s = [DOT])); [by apply IH|]. destruct (bool_decide (s = [DOT; DOT])).
  - destruct stack as [|top stack]; [done|]. apply Forall_cons in Hst as [_ Hst]. by apply IH.
  - apply IH; [done|]. constructor; [|done]. split; [done|]. by apply bool_decide_eq_false_1 in E0.
Qed.

Lemma segments_run segs : forall stack,
  Forall plain_segment segs -> Forall (fun s => plain_segment s /\ s <> []) stack ->
  chars_run sw_slash (path_text stack) (concat (map (fun s => s ++ [SLASH]) segs)) =
    (fun stack => (sw_slash, path_text stack)) <$> resolve stack segs.
Proof.
  induction segs as [|s segs IH]; intros stack Hs Hst; [done|]. apply Forall_cons in Hs as [Hs1 Hs].
  cbn [map concat]. rewrite chars_run_app, segment_slash by done.
  change (s :: segs) with ([s] ++ segs). rewrite resolve_app.
  destruct (resolve stack [s]) as [stack'|] eqn:E; [|done]. cbn [fmap option_fmap option_map].
  apply IH; [done|]. by apply (resolve_ok [s] stack); [constructor|..].
Qed.

(** C13: with [merge_slashes] on, a URI is decoded and its path resolved, exactly,
    up to the last slash.  For a path of plain characters and escape sequences
    whose decoded text is a slash, segments that each end in a slash and a last
    segment, the result is the text of the stack that resolves the segments,
    followed by the last segment as it is, also when that is [.] or [..]; the
    request is refused exactly when two dots in a segment before the last slash
    would lead above the root.  So [/..] is accepted and kept.  Without
    [merge_slashes] nothing is claimed: two dots then take an empty segment away. *)
Theorem complex_uri_resolves toks segs lastseg plus quoted :
  Forall tok_wf toks ->
  map tok_char toks = SLASH :: concat (map (fun s => s ++ [SLASH]) segs) ++ lastseg ->
  Forall plain_segment segs -> plain_segment lastseg ->
  (fun res => res.(cr_cu).(cu_out)) <$> ngx_http_parse_complex_uri true plus quoted (concat (map tok_bytes toks)) =
    (fun stack => path_text stack ++ lastseg) <$> resolve [] segs.
Proof.
  intros Hwf E Hs Hl. unfold ngx_http_parse_complex_uri. rewrite tokens_run by done. rewrite E. cbn [cu_out chars_run].
  change (char_step sw_usual SLASH []) with (Some (sw_slash, path_text [])). cbv iota beta.
  rewrite chars_run_app, segments_run by done. destruct (resolve [] segs) as [stack|]; [|done].
  cbn [fmap option_fmap option_map]. rewrite segment_run by done. done.
Qed.

Lemma complex_uri_resolves_witness :
  let run toks := (fun res => res.(cr_cu).(cu_out)) <$> ngx_http_parse_complex_uri true false true (concat (map tok_bytes toks)) in
  run (map Plain (lit "/a/") ++ [Escaped 50 69; Plain DOT; Escaped 50 102] ++ map Plain (lit "/b..")) = Some (lit "/b..") /\
  run (map Plain (lit "/../x")) = None.
Proof.
  split.
  - apply (complex_uri_resolves (map Plain (lit "/a/") ++ [Escaped 50 69; Plain DOT; Escaped 50 102] ++ map Plain (lit "/b.."))
      [lit "a"; lit ".."; []] (lit "b..") false true); try reflexivity;
      repeat (apply Forall_cons; split); try apply Forall_nil; try done; (split; [by eexists|split; [by eexists|done]]).
  - apply (complex_uri_resolves (map Plain (lit "/../x")) [lit ".."] (lit "x") false true); try reflexivity;
      repeat (apply Forall_cons; split); try apply Forall_nil; done.
Defined.
