(* ===== verification/HttpChunked.v ===== *)
(** * Chunked bodies ([ngx_http_parse.c])

    [ngx_http_parse_chunked], the state machine for the chunked transfer coding.
    What is in the buffer from [b->pos] to [b->last] is a list; a call gives the
    list from the new [b->pos].  A machine that reads the data of the chunks
    character by character too, with unbounded sizes, is the reference for the
    calls of the parser together with their callers; the grammar of chunked
    bodies is the reference for that machine. *)

From S2P Require Import Prelude HttpRequest.

(** ** The parser *)

Inductive chunk_state :=
  | sw_chunk_start | sw_chunk_size | sw_chunk_extension | sw_chunk_extension_almost_done
  | sw_chunk_data | sw_after_data | sw_after_data_almost_done | sw_last_chunk_extension
  | sw_last_chunk_extension_almost_done | sw_trailer | sw_trailer_almost_done
  | sw_trailer_header | sw_trailer_header_almost_done.

#[export] Instance chunk_state_eq : EqDecision chunk_state.
Proof. solve_decision. Defined.

(** [ngx_http_chunked_t]; [off_t] is a signed 64-bit integer. *)
Record chunked := Chunked {
  ck_state : chunk_state;
  ck_size : Z;
  ck_length : Z;
}.

(** What [ngx_pcalloc] makes. *)
Definition new_chunked : chunked := Chunked sw_chunk_start 0 0.

(** A character: the next state and size, [goto data], [goto done] or
    [goto invalid]. *)
Inductive chunk_step :=
  | CkNext (st : chunk_state) (size : Z)
  | CkData
  | CkDone
  | CkInvalid.

(** The end of a size line, for the last chunk and for another. *)
Definition size_ends (size ch : Z) (almost done ext : chunk_state) : chunk_step :=
  if ch =? CR then CkNext almost size
  else if ch =? LF then CkNext done size
  else if (ch =? 59) || (ch =? 32) || (ch =? 9) then CkNext ext size
  else CkInvalid.

(** Whatever comes up to the end of a line. *)
Definition skip_line (size ch : Z) (almost done stay : chunk_state) : chunk_step :=
  if ch =? CR then CkNext almost size
  else if ch =? LF then CkNext done size
  else CkNext stay size.

Definition expect_lf (size ch : Z) (st : chunk_state) : chunk_step :=
  if ch =? LF then CkNext st size else CkInvalid.

Definition chunk_char (st : chunk_state) (size ch : Z) : chunk_step :=
  match st with
  | sw_chunk_start =>
      match xdigit ch with
      | Some d => CkNext sw_chunk_size d
      | None => CkInvalid
      end
  | sw_chunk_size =>
      match xdigit ch with
      | Some d => CkNext sw_chunk_size (s64 (size * 16 + d))
      | None =>
          if size =? 0
          then size_ends size ch sw_last_chunk_extension_almost_done sw_trailer sw_last_chunk_extension
          else size_ends size ch sw_chunk_extension_almost_done sw_chunk_data sw_chunk_extension
      end
  | sw_chunk_extension =>
      skip_line size ch sw_chunk_extension_almost_done sw_chunk_data sw_chunk_extension
  | sw_chunk_extension_almost_done => expect_lf size ch sw_chunk_data
  | sw_chunk_data => CkData
  | sw_after_data => skip_line size ch sw_after_data_almost_done sw_chunk_start sw_after_data
  | sw_after_data_almost_done => expect_lf size ch sw_chunk_start
  | sw_last_chunk_extension =>
      skip_line size ch sw_last_chunk_extension_almost_done sw_trailer sw_last_chunk_extension
  | sw_last_chunk_extension_almost_done => expect_lf size ch sw_trailer
  | sw_trailer =>
      if ch =? CR then CkNext sw_trailer_almost_done size
      else if ch =? LF then CkDone
      else CkNext sw_trailer_header size
  | sw_trailer_almost_done => if ch =? LF then CkDone else CkInvalid
  | sw_trailer_header => skip_line size ch sw_trailer_header_almost_done sw_trailer sw_trailer_header
  | sw_trailer_header_almost_done => expect_lf size ch sw_trailer
  end.

(** How the loop is left: at the label [data] with [rc], or at [done], with what
    is left in the buffer, or at [invalid]. *)
Inductive chunk_exit :=
  | ToData (rc : Z) (st : chunk_state) (size : Z) (rest : list Z)
  | ToDone (size : Z) (rest : list Z)
  | ToInvalid (size : Z).

Fixpoint chunk_loop (st : chunk_state) (size : Z) (input : list Z) : chunk_exit :=
  match input with
  | [] => ToData NGX_AGAIN st size []
  | ch :: input' =>
      match chunk_char st size ch with
      | CkNext st size => chunk_loop st size input'
      | CkData => ToData NGX_OK st size input
      | CkDone => ToDone size input'
      | CkInvalid => ToInvalid size
      end
  end.

(** [ctx->length], the number of bytes to read next. *)
Definition chunk_length (st : chunk_state) (size : Z) : Z :=
  match st with
  | sw_chunk_start => 3
  | sw_chunk_size => s64 (2 + (if size =? 0 then 0 else s64 (size + 4)))
  | sw_chunk_extension | sw_chunk_extension_almost_done => s64 (s64 (1 + size) + 4)
  | sw_chunk_data => s64 (size + 4)
  | sw_after_data | sw_after_data_almost_done => 4
  | sw_last_chunk_extension | sw_last_chunk_extension_almost_done => 2
  | sw_trailer | sw_trailer_almost_done => 1
  | sw_trailer_header | sw_trailer_header_almost_done => 2
  end.

(** All of the data of a chunk was taken. *)
Definition after_chunk (st : chunk_state) (size : Z) : chunk_state :=
  if bool_decide (st = sw_chunk_data) && (size =? 0) then sw_after_data else st.

Definition ngx_http_parse_chunked (ctx : chunked) (input : list Z) : Z * chunked * list Z :=
  match chunk_loop (after_chunk ctx.(ck_state) ctx.(ck_size)) ctx.(ck_size) input with
  | ToData rc st size rest =>
      let length := chunk_length st size in
      (if (size <? 0) || (length <? 0) then NGX_ERROR else rc, Chunked st size length, rest)
  | ToDone size rest => (NGX_DONE, Chunked sw_chunk_start size ctx.(ck_length), rest)
  | ToInvalid size => (NGX_ERROR, Chunked ctx.(ck_state) size ctx.(ck_length), input)
  end.

(** ** Character by character *)

(** Sizes from which the arithmetic of [off_t] is not exact any more. *)
Abbreviation SIZE_LIMIT := (2 ^ 63 - 6) (only parsing).

Inductive body_step :=
  | BNext (st : chunk_state) (size : Z) (out : list Z)
  | BDone
  | BBad
  | BTooBig.

(** A digit that makes the size too big. *)
Definition too_big (st : chunk_state) (size ch : Z) : bool :=
  match st, xdigit ch with
  | sw_chunk_size, Some d => SIZE_LIMIT <=? size * 16 + d
  | _, _ => false
  end.

(** In the data of a chunk every character belongs to the body; elsewhere the
    parser decides. *)
Definition body_char (st : chunk_state) (size ch : Z) : body_step :=
  if bool_decide (st = sw_chunk_data) && (0 <? size) then BNext sw_chunk_data (size - 1) [ch]
  else if too_big st size ch then BTooBig
  else
    match chunk_char (after_chunk st size) size ch with
    | CkNext st' size' => BNext st' size' []
    | CkDone => BDone
    | CkData | CkInvalid => BBad
    end.

Inductive body_run :=
  | RAgain (st : chunk_state) (size : Z) (out : list Z)
  | RDone (out rest : list Z)
  | RBad
  | RTooBig.

Definition add_out (out : list Z) (res : body_run) : body_run :=
  match res with
  | RAgain st size out' => RAgain st size (out ++ out')
  | RDone out' rest => RDone (out ++ out') rest
  | RBad => RBad
  | RTooBig => RTooBig
  end.

Fixpoint read_body (st : chunk_state) (size : Z) (input : list Z) : body_run :=
  match input with
  | [] => RAgain (after_chunk st size) size []
  | ch :: input' =>
      match body_char st size ch with
      | BNext st size out => add_out out (read_body st size input')
      | BDone => RDone [] input'
      | BBad => RBad
      | BTooBig => RTooBig
      end
  end.

(** What holds between calls. *)
Definition chunk_ok (st : chunk_state) (size : Z) : Prop :=
  0 <= size < SIZE_LIMIT /\
  match st with
  | sw_chunk_extension | sw_chunk_extension_almost_done => 0 < size
  | _ => True
  end.

Lemma add_out_nil res : add_out [] res = res.
Proof. by destruct res. Qed.

Lemma add_out_app a b res : add_out a (add_out b res) = add_out (a ++ b) res.
Proof. destruct res; cbn; by rewrite <- ?app_assoc. Qed.

Lemma after_chunk_idem st size : after_chunk (after_chunk st size) size = after_chunk st size.
Proof. unfold after_chunk. repeat case_bool_decide; destruct (_ =? _); done. Qed.

Lemma after_chunk_same st size : (st = sw_chunk_data -> 0 < size) -> after_chunk st size = st.
Proof.
  intros H. unfold after_chunk. case_bool_decide as E; [|done]. specialize (H E).
  by rewrite (proj2 (Z.eqb_neq size 0)) by lia.
Qed.

Lemma read_after_chunk st size input : read_body (after_chunk st size) size input = read_body st size input.
Proof.
  destruct input as [|ch input]; cbn [read_body]; [by rewrite after_chunk_idem|].
  unfold body_char, after_chunk. destruct (decide (st = sw_chunk_data)) as [->|].
  - destruct (Z.eqb_spec size 0) as [->|]; reflexivity.
  - rewrite (bool_decide_eq_false_2 (st = sw_chunk_data)) by done. cbn [andb].
    by rewrite (bool_decide_eq_false_2 (st = sw_chunk_data)) by done.
Qed.

Lemma hex_digit_range ch d : xdigit ch = Some d -> 0 <= d < 16.
Proof. unfold xdigit, is_decimal. cbn zeta. intros H. repeat case_match; simplify_eq; lia. Qed.

(** A step of the parser, unless the size grows too big. *)
Lemma chunk_char_ok st size ch st' size' :
  chunk_ok st size -> too_big st size ch = false -> chunk_char st size ch = CkNext st' size' ->
  chunk_ok st' size' /\ (st' = sw_chunk_data -> 0 < size').
Proof.
  intros [Hs Hst] Hb E. destruct st; cbn in E; unfold size_ends, skip_line, expect_lf in E; cbn in Hst.
  1: { destruct (xdigit ch) as [d|] eqn:Ed; [|done]. simplify_eq. apply hex_digit_range in Ed.
       split; [|done]. split; [lia|done]. }
  1: { unfold too_big in Hb. destruct (xdigit ch) as [d|] eqn:Ed.
       - simplify_eq. apply Z.leb_gt in Hb. apply hex_digit_range in Ed.
         rewrite s64_small by lia. split; [|done]. split; [lia|done].
       - destruct (Z.eqb_spec size 0); repeat case_match; simplify_eq; (split; [split|]); try done; lia. }
  all: repeat case_match; simplify_eq; (split; [split|]); try done; try lia.
Qed.

(** Outside the data the reference does what the parser does. *)
Lemma body_char_outside st size ch :
  (st = sw_chunk_data -> size = 0) ->
  body_char st size ch =
    if too_big st size ch then BTooBig
    else match chunk_char (after_chunk st size) size ch with
         | CkNext st' size' => BNext st' size' []
         | CkDone => BDone
         | CkData | CkInvalid => BBad
         end.
Proof.
  intros H. unfold body_char. case_bool_decide as E; [|done]. by rewrite (H E).
Qed.

Lemma too_big_after_chunk st size ch : too_big (after_chunk st size) size ch = too_big st size ch.
Proof. unfold after_chunk. case_bool_decide as E; [|done]. subst st. by destruct (_ =? _). Qed.

Lemma read_step st size ch l st' size' :
  (st = sw_chunk_data -> size = 0) -> too_big st size ch = false ->
  chunk_char (after_chunk st size) size ch = CkNext st' size' -> read_body st size (ch :: l) = read_body st' size' l.
Proof. intros H1 H2 H3. cbn [read_body]. rewrite body_char_outside, H2, H3 by done. apply add_out_nil. Qed.

(** What a call of the parser does, on the reference. *)
Lemma chunk_loop_reads input : forall st size,
  chunk_ok st size -> (st = sw_chunk_data -> 0 < size) -> read_body st size input <> RTooBig ->
  match chunk_loop st size input with
  | ToData rc st' size' rest =>
      chunk_ok st' size' /\ (st' = sw_chunk_data -> 0 < size') /\ read_body st size input = read_body st' size' rest /\
      ((rc = NGX_AGAIN /\ rest = []) \/
       (rc = NGX_OK /\ st' = sw_chunk_data /\ rest <> [] /\
        exists pre, input = pre ++ rest /\ read_body st size pre = RAgain st' size' []))
  | ToDone size' rest => read_body st size input = RDone [] rest /\ exists pre, input = pre ++ rest
  | ToInvalid _ => read_body st size input = RBad
  end.
Proof.
  induction input as [|ch input IH]; intros st size Hok Hd Hbig.
  { cbn. split; [done|]. split; [done|]. split; [done|]. by left. }
  destruct (decide (st = sw_chunk_data)) as [->|Hst].
  { cbn [chunk_loop chunk_char]. split; [done|]. split; [done|]. split; [done|]. right. split_and!; try done.
    exists []. split; [done|]. cbn. by rewrite after_chunk_same. }
  cbn [chunk_loop read_body] in *. rewrite body_char_outside in * by done. rewrite after_chunk_same in * by done.
  destruct (too_big st size ch) eqn:Hb; [done|].
  destruct (chunk_char st size ch) as [st' size'| | |] eqn:E; try done.
  - destruct (chunk_char_ok _ _ _ _ _ Hok Hb E) as [Hok' Hd']. rewrite add_out_nil in *.
    specialize (IH st' size' Hok' Hd' Hbig). destruct (chunk_loop st' size' input); try done.
    + destruct IH as (H1 & H2 & H3 & [H4|(H4 & H5 & H6 & pre & -> & H7)]).
      * split_and!; try done. by left.
      * split_and!; try done. right. split_and!; try done. exists (ch :: pre). split; [done|].
        rewrite (read_step _ _ _ _ st' size'); [done|done|done|by rewrite after_chunk_same].
    + destruct IH as (H1 & pre & ->). split; [done|]. by exists (ch :: pre).
  - destruct st; cbn in E; unfold size_ends, skip_line, expect_lf in E; repeat case_match; done.
  - split; [done|]. by exists [ch].
Qed.

(** The bytes the body still needs in a state, at least: a size line ends in one
    line feed, the data in another, and then [0] and two line feeds follow. *)
Definition bytes_needed (st : chunk_state) (size : Z) : Z :=
  match st with
  | sw_chunk_start => 3
  | sw_chunk_size => if size =? 0 then 2 else 1 + size + 4
  | sw_chunk_extension | sw_chunk_extension_almost_done => 1 + size + 4
  | sw_chunk_data => size + 4
  | sw_after_data | sw_after_data_almost_done => 4
  | sw_last_chunk_extension | sw_last_chunk_extension_almost_done => 2
  | sw_trailer | sw_trailer_almost_done => 1
  | sw_trailer_header | sw_trailer_header_almost_done => 2
  end.

Lemma chunk_length_exact st size :
  chunk_ok st size ->
  chunk_length st size = bytes_needed st size + (if bool_decide (st = sw_chunk_size) && negb (size =? 0) then 1 else 0).
Proof.
  intros [Hs _]. destruct st; cbn [chunk_length bytes_needed]; try done.
  - rewrite bool_decide_eq_true_2 by done. destruct (Z.eqb_spec size 0); cbn [negb andb].
    + done.
    + rewrite (s64_small (size + 4)), s64_small by lia. lia.
  - rewrite bool_decide_eq_false_2 by done. rewrite (s64_small (1 + size)), s64_small by lia. cbn [andb]. lia.
  - rewrite bool_decide_eq_false_2 by done. rewrite (s64_small (1 + size)), s64_small by lia. cbn [andb]. lia.
  - rewrite bool_decide_eq_false_2 by done. rewrite s64_small by lia. cbn [andb]. lia.
Qed.

(** A call of the parser between calls: what it answers, and the state it
    leaves. *)
Lemma parse_chunked_reads ctx input :
  chunk_ok ctx.(ck_state) ctx.(ck_size) -> read_body ctx.(ck_state) ctx.(ck_size) input <> RTooBig ->
  let '(rc, ctx', rest) := ngx_http_parse_chunked ctx input in
  (rc = NGX_AGAIN /\ read_body ctx.(ck_state) ctx.(ck_size) input = RAgain ctx'.(ck_state) ctx'.(ck_size) [] /\
     chunk_ok ctx'.(ck_state) ctx'.(ck_size) /\ rest = [] /\
     after_chunk ctx'.(ck_state) ctx'.(ck_size) = ctx'.(ck_state) /\
     ctx'.(ck_length) = chunk_length ctx'.(ck_state) ctx'.(ck_size)) \/
  (rc = NGX_OK /\ ctx'.(ck_state) = sw_chunk_data /\ 0 < ctx'.(ck_size) < SIZE_LIMIT /\ rest <> [] /\
     (exists pre, input = pre ++ rest /\
        read_body ctx.(ck_state) ctx.(ck_size) pre = RAgain sw_chunk_data ctx'.(ck_size) [])) \/
  (rc = NGX_DONE /\ ctx'.(ck_state) = sw_chunk_start /\ (exists pre, input = pre ++ rest) /\
     read_body ctx.(ck_state) ctx.(ck_size) input = RDone [] rest) \/
  (rc = NGX_ERROR /\ read_body ctx.(ck_state) ctx.(ck_size) input = RBad).
Proof.
  destruct ctx as [st size len]. cbn [ck_state ck_size]. intros Hok. rewrite <- read_after_chunk. intros Hbig.
  assert (Hok' : chunk_ok (after_chunk st size) size).
  { unfold after_chunk. destruct (bool_decide _ && _) eqn:E; [|done]. destruct Hok. by split. }
  assert (Hd : after_chunk st size = sw_chunk_data -> 0 < size).
  { unfold after_chunk. destruct Hok as [? _]. case_bool_decide; destruct (Z.eqb_spec size 0); cbn; try done. lia. }
  pose proof (chunk_loop_reads input _ _ Hok' Hd Hbig) as H. rewrite read_after_chunk in *. unfold ngx_http_parse_chunked.
  cbn [ck_state ck_size ck_length]. destruct (chunk_loop _ size input) as [rc st' size' rest|size' rest|size'].
  - destruct H as (H1 & H2 & H3 & H4). pose proof (chunk_length_exact st' size' H1) as Hl.
    assert (0 <= bytes_needed st' size') by (destruct H1 as [? _], st'; cbn; try destruct (_ =? _); lia).
    rewrite (proj2 (Z.ltb_ge size' 0)), (proj2 (Z.ltb_ge (chunk_length st' size') 0)) by (destruct H1, (_ && _); lia).
    cbn [orb]. destruct H4 as [[-> ->]|(-> & -> & H5 & pre & H6 & H7)].
    + left. cbn [ck_state ck_size ck_length]. pose proof (after_chunk_same st' size' H2) as Ha.
      split; [done|]. split; [rewrite H3; cbn [read_body]; by rewrite Ha|]. done.
    + right. left. cbn. destruct H1 as [? _]. specialize (H2 eq_refl).
      rewrite read_after_chunk in H7. split_and!; try done; try lia. by exists pre.
  - destruct H as [H1 H2]. right. right. left. cbn. split_and!; done.
  - right. right. right. done.
Qed.

(** ** Reading on *)

Lemma read_data a : forall size b,
  zlen a <= size -> read_body sw_chunk_data size (a ++ b) = add_out a (read_body sw_chunk_data (size - zlen a) b).
Proof.
  induction a as [|ch a IH]; intros size b H.
  { cbn [app]. rewrite zlen_nil, Z.sub_0_r. by rewrite add_out_nil. }
  rewrite zlen_cons in H. pose proof (zlen_nonneg a). cbn [app read_body]. unfold body_char.
  rewrite bool_decide_eq_true_2, (proj2 (Z.ltb_lt 0 size)) by first [done | lia]. cbn [andb].
  rewrite IH by lia. rewrite add_out_app, zlen_cons. cbn [app].
  by replace (size - 1 - zlen a) with (size - (1 + zlen a)) by lia.
Qed.

Lemma read_body_app a : forall st size b,
  read_body st size (a ++ b) =
    match read_body st size a with
    | RAgain st' size' out => add_out out (read_body st' size' b)
    | RDone out rest => RDone out (rest ++ b)
    | RBad => RBad
    | RTooBig => RTooBig
    end.
Proof.
  induction a as [|ch a IH]; intros st size b; cbn [app read_body].
  { by rewrite add_out_nil, read_after_chunk. }
  destruct (body_char st size ch) as [st' size' out| | |]; try done.
  rewrite IH. destruct (read_body st' size' a); cbn; try done. by rewrite add_out_app.
Qed.

Lemma body_char_ok st size ch st' size' out :
  chunk_ok st size -> body_char st size ch = BNext st' size' out ->
  chunk_ok st' size' /\ bytes_needed st size <= 1 + bytes_needed st' size'.
Proof.
  intros Hok E. destruct (decide (st = sw_chunk_data /\ 0 < size)) as [[-> Hp]|Hd].
  { unfold body_char in E. rewrite bool_decide_eq_true_2, (proj2 (Z.ltb_lt 0 size)) in E by done.
    cbn [andb] in E. injection E as <- <- <-. destruct Hok as [? _]. cbn. split; [split; [lia|done]|lia]. }
  rewrite body_char_outside in E by (intros ->; destruct Hok; destruct (decide (0 < size)); [tauto|lia]).
  assert (Hn : bytes_needed (after_chunk st size) size = bytes_needed st size).
  { unfold after_chunk. case_bool_decide as Eb; [|done]. subst st. by destruct (Z.eqb_spec size 0) as [->|]. }
  assert (Hok' : chunk_ok (after_chunk st size) size).
  { unfold after_chunk. destruct (_ && _); [|done]. by destruct Hok. }
  rewrite <- Hn. rewrite <- too_big_after_chunk in E. clear Hn Hok Hd. revert Hok' E.
  generalize (after_chunk st size) as q. intros q Hok E.
  destruct (too_big q size ch) eqn:Hb; [done|]. destruct (chunk_char q size ch) as [st2 size2| | |] eqn:Ec; try done.
  injection E as -> -> <-. destruct (chunk_char_ok _ _ _ _ _ Hok Hb Ec) as [H _]. split; [done|].
  destruct Hok as [Hs Hpos]. destruct q; cbn in Ec; unfold size_ends, skip_line, expect_lf in Ec.
  2: { unfold too_big in Hb. destruct (xdigit ch) as [d|] eqn:Ed.
       - injection Ec as <- <-. apply Z.leb_gt in Hb. apply hex_digit_range in Ed. rewrite s64_small by lia.
         cbn. repeat zcase; lia.
       - repeat case_match; simplify_eq; cbn; repeat zcase; lia. }
  all: destruct H as [H _]; repeat case_match; simplify_eq; cbn in Hpos |- *; repeat zcase; lia.
Qed.

Lemma chunk_char_done st size ch :
  chunk_char st size ch = CkDone -> st = sw_trailer \/ st = sw_trailer_almost_done.
Proof.
  intros E. destruct st; cbn in E; unfold size_ends, skip_line, expect_lf in E; repeat case_match; auto; done.
Qed.

Lemma read_needs l : forall st size out rest,
  chunk_ok st size -> read_body st size l = RDone out rest -> bytes_needed st size <= zlen l - zlen rest.
Proof.
  induction l as [|ch l IH]; intros st size out rest Hok; cbn [read_body]; [done|]. rewrite zlen_cons.
  destruct (body_char st size ch) as [st' size' o| | |] eqn:E; try done.
  - destruct (body_char_ok _ _ _ _ _ _ Hok E) as [Hok' Hn].
    destruct (read_body st' size' l) as [|out' rest'| |] eqn:Er; try done. cbn. intros [= <- <-].
    specialize (IH _ _ _ _ Hok' Er). lia.
  - intros [= <- <-]. enough (bytes_needed st size = 1) by lia. unfold body_char in E.
    destruct (_ && _); [done|]. destruct (too_big _ _ _); [done|].
    destruct (chunk_char _ _ _) eqn:Ec; try done. destruct (chunk_char_done _ _ _ Ec) as [H|H]; revert H;
      unfold after_chunk; destruct (_ && _); try done; by intros ->.
Qed.

(** The shortest end of a body. *)
Definition shortest_end (st : chunk_state) (size : Z) : list Z :=
  let data := replicate (Z.to_nat size) 120 ++ [LF; 48; LF; LF] in
  match st with
  | sw_chunk_start => [48; LF; LF]
  | sw_chunk_size => if size =? 0 then [LF; LF] else LF :: data
  | sw_chunk_extension | sw_chunk_extension_almost_done => LF :: data
  | sw_chunk_data => data
  | sw_after_data | sw_after_data_almost_done => [LF; 48; LF; LF]
  | sw_last_chunk_extension | sw_last_chunk_extension_almost_done => [LF; LF]
  | sw_trailer | sw_trailer_almost_done => [LF]
  | sw_trailer_header | sw_trailer_header_almost_done => [LF; LF]
  end.

Lemma shortest_data size :
  0 <= size ->
  read_body sw_chunk_data size (replicate (Z.to_nat size) 120 ++ [LF; 48; LF; LF]) =
    RDone (replicate (Z.to_nat size) 120) [].
Proof.
  intros Hs. rewrite read_data by (rewrite zlen_replicate; lia). rewrite zlen_replicate.
  replace (size - Z.of_nat (Z.to_nat size)) with 0 by lia.
  change (read_body sw_chunk_data 0 [LF; 48; LF; LF]) with (RDone [] []). cbn [add_out]. by rewrite app_nil_r.
Qed.

Lemma shortest_end_reads st size :
  chunk_ok st size ->
  zlen (shortest_end st size) = bytes_needed st size /\
  exists out, read_body st size (shortest_end st size) = RDone out [].
Proof.
  intros [Hs Hp]. pose proof (shortest_data size ltac:(lia)) as Hd. split.
  - destruct st; cbn [shortest_end bytes_needed]; try done; try destruct (_ =? _); try done; autorewrite with ngx; lia.
  - destruct st; cbn [shortest_end]; try (by eexists).
    + destruct (Z.eqb_spec size 0) as [->|]; [by eexists|]. eexists.
      rewrite (read_step _ _ _ _ sw_chunk_data size); [exact Hd|done|done|].
      rewrite after_chunk_same by done. cbn. by rewrite (proj2 (Z.eqb_neq size 0)) by done.
    + eexists. by rewrite (read_step _ _ _ _ sw_chunk_data size).
    + eexists. by rewrite (read_step _ _ _ _ sw_chunk_data size).
Qed.

(** ** The grammar of chunked bodies *)

Definition eol (crlf : bool) : list Z := if crlf then [CR; LF] else [LF].

Definition no_eol (l : list Z) : Prop := Forall (fun c => c <> CR /\ c <> LF) l.

(** The value of hexadecimal digits after those of [v]. *)
Fixpoint hex_value (v : Z) (digits : list Z) : option Z :=
  match digits with
  | [] => Some v
  | c :: digits' => match xdigit c with Some d => hex_value (v * 16 + d) digits' | None => None end
  end.

(** Nothing, or a semicolon, space or tab and anything on the line. *)
Definition extension (e : list Z) : Prop :=
  match e with
  | [] => True
  | c :: e' => (c = 59 \/ c = 32 \/ c = 9) /\ no_eol e'
  end.

Record chunk := Chunk {
  ct_digits : list Z;
  ct_ext : list Z;
  ct_eol : bool;
  ct_data : list Z;
  ct_end : bool;
}.

Definition chunk_bytes (c : chunk) : list Z :=
  c.(ct_digits) ++ c.(ct_ext) ++ eol c.(ct_eol) ++ c.(ct_data) ++ eol c.(ct_end).

Definition chunk_wf (c : chunk) : Prop :=
  c.(ct_digits) <> [] /\ hex_value 0 c.(ct_digits) = Some (zlen c.(ct_data)) /\
  0 < zlen c.(ct_data) < SIZE_LIMIT /\ extension c.(ct_ext).

(** The last chunk and the trailer: header lines, which are skipped, and the end. *)
Record chunked_body := ChunkedBody {
  cb_chunks : list chunk;
  cb_zeros : list Z;
  cb_ext : list Z;
  cb_eol : bool;
  cb_trailer : list (list Z * bool);
  cb_end : bool;
}.

Definition line_bytes (line : list Z * bool) : list Z := line.1 ++ eol line.2.

Definition chunked_bytes (b : chunked_body) : list Z :=
  concat (map chunk_bytes b.(cb_chunks)) ++ b.(cb_zeros) ++ b.(cb_ext) ++ eol b.(cb_eol) ++
  concat (map line_bytes b.(cb_trailer)) ++ eol b.(cb_end).

Definition body_wf (b : chunked_body) : Prop :=
  Forall chunk_wf b.(cb_chunks) /\ b.(cb_zeros) <> [] /\ Forall (eq 48) b.(cb_zeros) /\ extension b.(cb_ext) /\
  Forall (fun line => line.1 <> [] /\ no_eol line.1) b.(cb_trailer).

Definition body_data (b : chunked_body) : list Z := concat (map ct_data b.(cb_chunks)).

Lemma hex_value_le ds : forall v w, 0 <= v -> hex_value v ds = Some w -> v <= w.
Proof.
  induction ds as [|c ds IH]; intros v w Hv; cbn.
  { intros [= ->]. lia. }
  destruct (xdigit c) as [d|] eqn:E; [|done]. apply hex_digit_range in E. intros H%IH; lia.
Qed.

Lemma read_digits ds : forall size v l,
  0 <= size -> v < SIZE_LIMIT -> hex_value size ds = Some v ->
  read_body sw_chunk_size size (ds ++ l) = read_body sw_chunk_size v l.
Proof.
  induction ds as [|c ds IH]; intros size v l Hs Hv; cbn [hex_value app].
  { by intros [= ->]. }
  destruct (xdigit c) as [d|] eqn:E; [|done]. intros H. pose proof (hex_digit_range _ _ E) as Hd.
  assert (size * 16 + d <= v) by (apply (hex_value_le ds); [lia|done]). rewrite (read_step _ _ _ _ sw_chunk_size (size * 16 + d)).
  - apply IH; [lia|done|done].
  - done.
  - cbn. rewrite E. apply Z.leb_gt. lia.
  - rewrite after_chunk_same by done. cbn. by rewrite E, s64_small by lia.
Qed.

Lemma read_size ds size v l :
  ds <> [] -> v < SIZE_LIMIT -> hex_value 0 ds = Some v ->
  read_body sw_chunk_start size (ds ++ l) = read_body sw_chunk_size v l.
Proof.
  intros Hne Hv. destruct ds as [|c ds]; [done|]. cbn [hex_value app]. destruct (xdigit c) as [d|] eqn:E; [|done].
  pose proof (hex_digit_range _ _ E) as Hd. intros H. rewrite (read_step _ _ _ _ sw_chunk_size d).
  - apply read_digits; [lia|done|done].
  - done.
  - done.
  - rewrite after_chunk_same by done. cbn. by rewrite E.
Qed.

(** The rest of a line: [almost] waits for the line feed after a carriage
    return. *)
Section line.
Context (st almost done_ : chunk_state) (size : Z).
Context (Hst : st <> sw_chunk_data) (Halmost : almost <> sw_chunk_data).
Context (Hskip : forall ch, chunk_char st size ch = skip_line size ch almost done_ st).
Context (Hlf : forall ch, chunk_char almost size ch = expect_lf size ch done_).
Context (Hbig : forall ch, too_big st size ch = false /\ too_big almost size ch = false).

Lemma read_lf l : read_body almost size (LF :: l) = read_body done_ size l.
Proof. apply read_step; [done|apply Hbig|]. rewrite after_chunk_same by done. by rewrite Hlf. Qed.

Lemma read_line e crlf l : no_eol e -> read_body st size (e ++ eol crlf ++ l) = read_body done_ size l.
Proof.
  intros He. induction He as [|c e [Hc1 Hc2] He IH].
  - destruct crlf; cbn [app eol].
    + rewrite (read_step _ _ _ _ almost size); [apply read_lf|done|apply Hbig|].
      rewrite after_chunk_same by done. by rewrite Hskip.
    + apply read_step; [done|apply Hbig|]. rewrite after_chunk_same by done. by rewrite Hskip.
  - cbn [app]. rewrite (read_step _ _ _ _ st size); [exact IH|done|apply Hbig|].
    rewrite after_chunk_same by done. rewrite Hskip. unfold skip_line.
    by rewrite (proj2 (Z.eqb_neq c CR)), (proj2 (Z.eqb_neq c LF)).
Qed.
End line.

(** The end of a size line: an extension or not. *)
Section size_line.
Context (almost done_ ext : chunk_state) (size : Z).
Context (Hends : forall ch, xdigit ch = None -> chunk_char sw_chunk_size size ch = size_ends size ch almost done_ ext).
Context (Hext : ext <> sw_chunk_data) (Halmost : almost <> sw_chunk_data).
Context (Hskip : forall ch, chunk_char ext size ch = skip_line size ch almost done_ ext).
Context (Hlf : forall ch, chunk_char almost size ch = expect_lf size ch done_).
Context (Hbig : forall ch, too_big ext size ch = false /\ too_big almost size ch = false).

Lemma read_size_line e crlf l :
  extension e -> read_body sw_chunk_size size (e ++ eol crlf ++ l) = read_body done_ size l.
Proof.
  assert (Hstep : forall ch st', xdigit ch = None -> size_ends size ch almost done_ ext = CkNext st' size ->
    forall l', read_body sw_chunk_size size (ch :: l') = read_body st' size l').
  { intros ch st' Hh Hs l'. apply read_step; [done|cbn; by rewrite Hh|]. rewrite after_chunk_same by done.
    by rewrite Hends. }
  destruct e as [|c e]; cbn [extension].
  - intros _. destruct crlf; cbn [eol app].
    + rewrite (Hstep CR almost) by done. by apply (read_lf ext almost done_ size).
    + by rewrite (Hstep LF done_) by done.
  - intros [Hc He]. cbn [app]. rewrite (Hstep c ext).
    + by apply (read_line ext almost done_ size).
    + by destruct Hc as [->|[->| ->]].
    + by destruct Hc as [->|[->| ->]].
Qed.
End size_line.

Lemma read_chunk_line size e crlf l :
  0 < size -> extension e -> read_body sw_chunk_size size (e ++ eol crlf ++ l) = read_body sw_chunk_data size l.
Proof.
  intros Hs. apply (read_size_line sw_chunk_extension_almost_done sw_chunk_data sw_chunk_extension); try done.
  intros ch Hh. cbn. by rewrite Hh, (proj2 (Z.eqb_neq size 0)) by lia.
Qed.

Lemma read_last_line e crlf l :
  extension e -> read_body sw_chunk_size 0 (e ++ eol crlf ++ l) = read_body sw_trailer 0 l.
Proof.
  apply (read_size_line sw_last_chunk_extension_almost_done sw_trailer sw_last_chunk_extension); try done.
  intros ch Hh. cbn. by rewrite Hh.
Qed.

Lemma read_chunk c size l :
  chunk_wf c -> read_body sw_chunk_start size (chunk_bytes c ++ l) = add_out c.(ct_data) (read_body sw_chunk_start 0 l).
Proof.
  intros (H1 & H2 & H3 & H4). unfold chunk_bytes. rewrite <- !app_assoc.
  rewrite (read_size _ _ (zlen c.(ct_data))) by first [done | lia]. rewrite read_chunk_line by first [done | lia].
  rewrite read_data by lia. rewrite Z.sub_diag, <- read_after_chunk.
  change (after_chunk sw_chunk_data 0) with sw_after_data. f_equal.
  apply (read_line sw_after_data sw_after_data_almost_done sw_chunk_start 0) with (e := []); by try constructor.
Qed.

Lemma read_chunks cs : forall size l,
  Forall chunk_wf cs -> cs <> [] \/ size = 0 ->
  read_body sw_chunk_start size (concat (map chunk_bytes cs) ++ l) =
    add_out (concat (map ct_data cs)) (read_body sw_chunk_start 0 l).
Proof.
  induction cs as [|c cs IH]; intros size l Hwf Hs; cbn [map concat app].
  { destruct Hs as [?| ->]; [done|]. by rewrite add_out_nil. }
  apply Forall_cons in Hwf as [Hc Hcs]. rewrite <- app_assoc, read_chunk, IH by auto. apply add_out_app.
Qed.

Lemma read_zeros zs l : zs <> [] -> Forall (eq 48) zs -> read_body sw_chunk_start 0 (zs ++ l) = read_body sw_chunk_size 0 l.
Proof.
  intros Hne Hz. apply read_size; [done|lia|]. clear Hne. induction Hz as [|c zs <- Hz IH]; [done|]. exact IH.
Qed.

Lemma read_trailer lines crlf rest :
  Forall (fun line => line.1 <> [] /\ no_eol line.1) lines ->
  read_body sw_trailer 0 (concat (map line_bytes lines) ++ eol crlf ++ rest) = RDone [] rest.
Proof.
  induction 1 as [|[line crlf'] lines [Hne Hl] Hlines IH]; cbn [map concat app]; [by destruct crlf|].
  unfold line_bytes at 1. cbn [fst snd] in *. rewrite <- !app_assoc. destruct line as [|c line]; [done|].
  apply Forall_cons in Hl as [[Hc1 Hc2] Hl]. cbn [app]. rewrite (read_step _ _ _ _ sw_trailer_header 0); [|done|done|].
  - rewrite (read_line sw_trailer_header sw_trailer_header_almost_done sw_trailer 0) by done. exact IH.
  - rewrite after_chunk_same by done. cbn. by rewrite (proj2 (Z.eqb_neq c CR)), (proj2 (Z.eqb_neq c LF)).
Qed.

(** The reference reads every body of the grammar. *)
Lemma read_body_grammar b rest :
  body_wf b -> read_body sw_chunk_start 0 (chunked_bytes b ++ rest) = RDone (body_data b) rest.
Proof.
  intros (H1 & H2 & H3 & H4 & H5). unfold chunked_bytes. rewrite <- !app_assoc.
  rewrite read_chunks by auto. rewrite read_zeros, read_last_line, read_trailer by done. cbn. by rewrite app_nil_r.
Qed.

(** ** Properties *)

(** Whether the length asked for is one too many: in a size line, after a digit
    that is not zero. *)
Definition asks_one_more (ctx : chunked) : Z :=
  if bool_decide (ctx.(ck_state) = sw_chunk_size) && negb (ctx.(ck_size) =? 0) then 1 else 0.

(** How much the server reads next. When the input ends within a chunked body,
    the number of bytes the parser asks for is the least number that can end the
    body, so that the server never waits for more than the client has to send
    and never reads into the next request; but in the middle of a size line,
    after a digit that is not zero, it asks for one byte more than that. *)
Theorem chunked_length_needed ctx input ctx' rest :
  chunk_ok ctx.(ck_state) ctx.(ck_size) -> read_body ctx.(ck_state) ctx.(ck_size) input <> RTooBig ->
  ngx_http_parse_chunked ctx input = (NGX_AGAIN, ctx', rest) ->
  let needed := ctx'.(ck_length) - asks_one_more ctx' in
  (forall more out rest', read_body ctx'.(ck_state) ctx'.(ck_size) more = RDone out rest' ->
     needed <= zlen more - zlen rest') /\
  exists more out, read_body ctx'.(ck_state) ctx'.(ck_size) more = RDone out [] /\ zlen more = needed.
Proof.
  intros Hok Hbig E needed. pose proof (parse_chunked_reads ctx input Hok Hbig) as H. rewrite E in H.
  destruct H as [(_ & _ & Hok' & _ & _ & Hl)|[(? & _)|[(? & _)|(? & _)]]]; [|done..].
  assert (Hn : needed = bytes_needed ctx'.(ck_state) ctx'.(ck_size)).
  { unfold needed, asks_one_more. rewrite Hl, chunk_length_exact by done. destruct (_ && _); lia. }
  rewrite Hn. split.
  - intros more out rest'. by apply read_needs.
  - destruct (shortest_end_reads _ _ Hok') as [H1 [out H2]]. by exists (shortest_end ctx'.(ck_state) ctx'.(ck_size)), out.
Qed.

Lemma chunked_length_needed_witness :
  let ctx' := Chunked sw_chunk_size 5 11 in
  ngx_http_parse_chunked new_chunked (lit "5") = (NGX_AGAIN, ctx', []) /\
  read_body sw_chunk_size 5 (LF :: lit "hello" ++ [LF; 48; LF; LF]) = RDone (lit "hello") [] /\
  ck_length ctx' - asks_one_more ctx' <= zlen (LF :: lit "hello" ++ [LF; 48; LF; LF]) - 0 /\
  zlen (LF :: lit "hello" ++ [LF; 48; LF; LF]) < ck_length ctx'.
Proof.
  cbv zeta. split; [vm_compute; reflexivity|]. split; [vm_compute; reflexivity|]. split; [|vm_compute; reflexivity].
  pose proof (chunked_length_needed new_chunked (lit "5") (Chunked sw_chunk_size 5 11) []) as [H _].
  - split; [cbn; lia|done].
  - vm_compute. done.
  - vm_compute. reflexivity.
  - apply (H _ (lit "hello") []). vm_compute. reflexivity.
Defined.

(** The size of a chunk wraps around. A size of seventeen digits is taken
    modulo 2^64: the size [10000000000000001] is read as one byte; and when the
    sign bit is set, the size is refused if the input is cut there and read as
    zero, the last chunk, if the next digit arrives with it. *)
Theorem chunk_size_wraps :
  let parse l := ngx_http_parse_chunked new_chunked l in
  parse (lit "10000000000000001" ++ [LF] ++ lit "x") = (NGX_OK, Chunked sw_chunk_data 1 5, lit "x") /\
  (parse (lit "8000000000000000")).1.1 = NGX_ERROR /\
  (parse (lit "80000000000000000" ++ [LF; LF])).1.1 = NGX_DONE.
Proof. vm_compute. done. Qed.
