(* ===== verification/HttpBody.v ===== *)
(** * Reading the body of a request ([ngx_http_request_body.c])

    [ngx_http_read_client_request_body] and the functions below it: the filters
    for bodies with a length and for chunked ones, the saving of what they find,
    the temporary file, and the loop that receives.

    The parts of the body are not copied: a part is a range of the memory it was
    received in, [r->header_in] or the buffer [rb->buf], and what it holds is
    what is in that memory when it is read.  Calls that may fail (allocations,
    writes to the temporary file) take their outcomes from a list.  Left out are
    SPDY, subrequests, timers and event handlers, and the lists of free and busy
    buffer structures: a structure is busy until its part was written, and
    [ngx_http_write_request_body] writes all parts, so none is busy where the
    code tests for it. *)

From S2P Require Import Prelude HttpRequest HttpChunked.

(** ** State *)

Abbreviation NGX_HTTP_BAD_REQUEST := 400 (only parsing).
Abbreviation NGX_HTTP_REQUEST_TIME_OUT := 408 (only parsing).
Abbreviation NGX_HTTP_REQUEST_ENTITY_TOO_LARGE := 413 (only parsing).
Abbreviation NGX_HTTP_INTERNAL_SERVER_ERROR := 500 (only parsing).

Inductive mem_id := HeaderMem | BodyMem.

#[export] Instance mem_id_eq : EqDecision mem_id.
Proof. solve_decision. Defined.

Definition memory : Type := mem_id -> list Z.

Definition set_mem (mem : memory) (m : mem_id) (l : list Z) : memory :=
  fun m' => if bool_decide (m' = m) then l else mem m'.

(** [ngx_buf_t], for receiving. *)
Record net_buf := NetBuf {
  b_mem : mem_id;
  b_start : Z;
  b_pos : Z;
  b_last : Z;
  b_end : Z;
}.

(** A buffer of [rb->bufs]: a range of memory, with the flag [last_buf], or what
    is in the temporary file. *)
Inductive part :=
  | MemPart (m : mem_id) (pos last : Z) (last_buf : bool)
  | FilePart (file_last : Z).

(** What the filters keep: [rb->rest], [r->headers_in.content_length_n],
    [rb->chunked], and the outcomes of the calls to come. *)
Record filter_state := FilterState {
  rest : Z;
  content_length_n : Z;
  ctx : chunked;
  calls : allocs;
}.

Record body := Body {
  bd_mem : memory;
  bd_filter : filter_state;
  bd_bufs : list part;
  bd_file : option (list Z);
  bd_header_in : net_buf;
  bd_buf : net_buf;
  bd_stream : list Z;
  bd_request_length : Z;
}.

(** The request and its location's configuration. *)
Record body_conf := BodyConf {
  cf_chunked : bool;
  cf_max_body_size : Z;
  cf_buffer_size : Z;
  cf_in_file_only : bool;
  cf_in_single_buf : bool;
}.

Definition set_rest (fs : filter_state) (v : Z) : filter_state :=
  FilterState v fs.(content_length_n) fs.(ctx) fs.(calls).
Definition set_ctx (fs : filter_state) (v : chunked) : filter_state :=
  FilterState fs.(rest) fs.(content_length_n) v fs.(calls).
Definition set_calls (fs : filter_state) (v : allocs) : filter_state :=
  FilterState fs.(rest) fs.(content_length_n) fs.(ctx) v.

Definition set_filter (bd : body) (fs : filter_state) : body :=
  Body bd.(bd_mem) fs bd.(bd_bufs) bd.(bd_file) bd.(bd_header_in) bd.(bd_buf) bd.(bd_stream) bd.(bd_request_length).
Definition set_bufs (bd : body) (l : list part) : body :=
  Body bd.(bd_mem) bd.(bd_filter) l bd.(bd_file) bd.(bd_header_in) bd.(bd_buf) bd.(bd_stream) bd.(bd_request_length).
Definition set_file (bd : body) (f : option (list Z)) : body :=
  Body bd.(bd_mem) bd.(bd_filter) bd.(bd_bufs) f bd.(bd_header_in) bd.(bd_buf) bd.(bd_stream) bd.(bd_request_length).
Definition set_rb_buf (bd : body) (b : net_buf) : body :=
  Body bd.(bd_mem) bd.(bd_filter) bd.(bd_bufs) bd.(bd_file) bd.(bd_header_in) b bd.(bd_stream) bd.(bd_request_length).
Definition set_header_in (bd : body) (b : net_buf) : body :=
  Body bd.(bd_mem) bd.(bd_filter) bd.(bd_bufs) bd.(bd_file) b bd.(bd_buf) bd.(bd_stream) bd.(bd_request_length).
Definition add_request_length (bd : body) (n : Z) : body :=
  Body bd.(bd_mem) bd.(bd_filter) bd.(bd_bufs) bd.(bd_file) bd.(bd_header_in) bd.(bd_buf) bd.(bd_stream)
    (bd.(bd_request_length) + n).

Definition b_set_pos (b : net_buf) (p : Z) : net_buf := NetBuf b.(b_mem) b.(b_start) p b.(b_last) b.(b_end).

(** A call that may fail. *)
Definition may_fail (fs : filter_state) : bool * filter_state :=
  let (ok, a) := alloc fs.(calls) in (ok, set_calls fs a).

(** ** The filters *)

(** The range of a part found in a buffer, and its [last_buf]. *)
Definition range : Type := Z * Z * bool.

(** What a filter makes of a buffer: a code, its state, the buffer's new [pos]
    and the parts; [None] if the fuel was not enough. *)
Definition filter_result : Type := option (Z * filter_state * Z * list range).

(** The loop of [ngx_http_request_body_chunked_filter] on a buffer. *)
Fixpoint chunked_turns (fuel : nat) (max : Z) (mem : list Z) (last pos : Z) (fs : filter_state)
    (out : list range) : filter_result :=
  match fuel with
  | O => None
  | S fuel =>
      let '(rc, ctx', unread) := ngx_http_parse_chunked fs.(ctx) (sub mem pos last) in
      let pos := last - zlen unread in
      let fs := set_ctx fs ctx' in
      if rc =? NGX_OK then
        if negb (max =? 0) && (max <? s64 (fs.(content_length_n) + ctx'.(ck_size)))
        then Some (NGX_HTTP_REQUEST_ENTITY_TOO_LARGE, fs, pos, out)
        else
          let (ok, fs) := may_fail fs in
          if negb ok then Some (NGX_HTTP_INTERNAL_SERVER_ERROR, fs, pos, out)
          else
            let size := last - pos in
            if ctx'.(ck_size) <? size then
              let fs := FilterState fs.(rest) (fs.(content_length_n) + ctx'.(ck_size))
                          (Chunked ctx'.(ck_state) 0 ctx'.(ck_length)) fs.(calls) in
              chunked_turns fuel max mem last (pos + ctx'.(ck_size)) fs
                (out ++ [(pos, pos + ctx'.(ck_size), false)])
            else
              let fs := FilterState fs.(rest) (fs.(content_length_n) + size)
                          (Chunked ctx'.(ck_state) (ctx'.(ck_size) - size) ctx'.(ck_length)) fs.(calls) in
              chunked_turns fuel max mem last last fs (out ++ [(pos, last, false)])
      else if rc =? NGX_DONE then
        let (ok, fs) := may_fail (set_rest fs 0) in
        if negb ok then Some (NGX_HTTP_INTERNAL_SERVER_ERROR, fs, pos, out)
        else Some (NGX_OK, fs, pos, out ++ [(0, 0, true)])
      else if rc =? NGX_AGAIN then Some (NGX_OK, set_rest fs ctx'.(ck_length), pos, out)
      else Some (NGX_HTTP_BAD_REQUEST, fs, pos, out)
  end.

(** The first call allocates the parser's state. *)
Definition chunked_init (fs : filter_state) : bool * filter_state :=
  if fs.(rest) =? -1 then
    let (ok, fs) := may_fail fs in
    (ok, if ok then FilterState 3 0 new_chunked fs.(calls) else fs)
  else (true, fs).

(** One turn per chunk in the buffer, and one more. *)
Definition chunked_buffer (max : Z) (fs : filter_state) (mem : list Z) (pos last : Z) : filter_result :=
  chunked_turns (S (Z.to_nat (last - pos))) max mem last pos fs [].

Definition length_init (fs : filter_state) : filter_state :=
  if fs.(rest) =? -1 then set_rest fs fs.(content_length_n) else fs.

(** The loop of [ngx_http_request_body_length_filter] on a buffer. *)
Definition length_buffer (fs : filter_state) (pos last : Z) : filter_result :=
  let (ok, fs) := may_fail fs in
  if negb ok then Some (NGX_HTTP_INTERNAL_SERVER_ERROR, fs, pos, [])
  else
    let size := last - pos in
    if size <? fs.(rest) then Some (NGX_OK, set_rest fs (fs.(rest) - size), last, [(pos, last, false)])
    else
      let e := pos + fs.(rest) in
      Some (NGX_OK, set_rest fs 0, e, [(pos, e, true)]).

(** [ngx_http_request_body_save_filter]: [ngx_chain_add_copy] makes a link for
    each part. *)
Fixpoint ngx_chain_add_copy (fs : filter_state) (bufs new : list part) : bool * filter_state * list part :=
  match new with
  | [] => (true, fs, bufs)
  | p :: new' =>
      let (ok, fs) := may_fail fs in
      if ok then ngx_chain_add_copy fs (bufs ++ [p]) new' else (false, fs, bufs)
  end.

Definition ngx_http_request_body_save_filter (bd : body) (new : list part) : Z * body :=
  let '(ok, fs, bufs) := ngx_chain_add_copy bd.(bd_filter) bd.(bd_bufs) new in
  let bd := set_bufs (set_filter bd fs) bufs in
  (if ok then NGX_OK else NGX_HTTP_INTERNAL_SERVER_ERROR, bd).

Definition as_part (m : mem_id) (r : range) : part := MemPart m r.1.1 r.1.2 r.2.

(** Which filter: [r->headers_in.chunked]. *)
Definition filter_init (cf : body_conf) (fs : filter_state) : bool * filter_state :=
  if cf.(cf_chunked) then chunked_init fs else (true, length_init fs).

Definition filter_buffer (cf : body_conf) (fs : filter_state) (mem : list Z) (pos last : Z) : filter_result :=
  if cf.(cf_chunked) then chunked_buffer cf.(cf_max_body_size) fs mem pos last else length_buffer fs pos last.

(** [ngx_http_request_body_filter], for a chain of one buffer or none; it gives
    the buffer with its new [pos]. *)
Definition ngx_http_request_body_filter (cf : body_conf) (bd : body) (b : option net_buf)
  : option (Z * body * option net_buf) :=
  let (ok, fs) := filter_init cf bd.(bd_filter) in
  let bd := set_filter bd fs in
  if negb ok then Some (NGX_HTTP_INTERNAL_SERVER_ERROR, bd, b)
  else
    match b with
    | None => let (rc, bd) := ngx_http_request_body_save_filter bd [] in Some (rc, bd, None)
    | Some b =>
        match filter_buffer cf fs (bd.(bd_mem) b.(b_mem)) b.(b_pos) b.(b_last) with
        | None => None
        | Some (rc, fs, pos, out) =>
            let bd := set_filter bd fs in
            let b' := b_set_pos b pos in
            if rc =? NGX_OK then
              let (rc, bd) := ngx_http_request_body_save_filter bd (map (as_part b.(b_mem)) out) in
              Some (rc, bd, Some b')
            else Some (rc, bd, Some b')
        end
    end.

(** ** The temporary file *)

Definition part_bytes (mem : memory) (file : option (list Z)) (p : part) : list Z :=
  match p with
  | MemPart m pos last _ => sub (mem m) pos last
  | FilePart n => match file with Some f => take (Z.to_nat n) f | None => [] end
  end.

(** What the parts hold. *)
Definition bufs_bytes (bd : body) : list Z :=
  concat (map (part_bytes bd.(bd_mem) bd.(bd_file)) bd.(bd_bufs)).

Definition call_bd (bd : body) : bool * body :=
  let (ok, fs) := may_fail bd.(bd_filter) in (ok, set_filter bd fs).

(** [ngx_http_write_request_body]: [false] for [NGX_ERROR]. *)
Definition ngx_http_write_request_body (bd : body) : bool * body :=
  let write (bd : body) : bool * body :=
    match bd.(bd_bufs) with
    | [] => (true, bd)
    | _ =>
        let (ok, bd) := call_bd bd in
        if negb ok then (false, bd)
        else
          let file := match bd.(bd_file) with Some f => f | None => [] end in
          (true, set_bufs (set_file bd (Some (file ++ bufs_bytes bd))) [])
    end in
  match bd.(bd_file) with
  | Some _ => write bd
  | None =>
      let (ok, bd) := call_bd bd in
      if negb ok then (false, bd)
      else
        let bd := set_file bd (Some []) in
        match bd.(bd_bufs) with
        | [] => call_bd bd
        | _ => write bd
        end
  end.

(** At the end a body with a file is that file. *)
Definition finish_file (bd : body) : Z * body :=
  let (ok, bd) := ngx_http_write_request_body bd in
  if negb ok then (NGX_HTTP_INTERNAL_SERVER_ERROR, bd)
  else
    let (ok, bd) := call_bd bd in
    if negb ok then (NGX_HTTP_INTERNAL_SERVER_ERROR, bd)
    else
      let n := match bd.(bd_file) with Some f => zlen f | None => 0 end in
      (NGX_OK, set_bufs bd [FilePart n]).

(** ** Receiving *)

(** What [c->recv] and the events around it come to: some bytes, at most the
    number given here, nothing yet, the end of the connection, an error, or the
    timer of the body. *)
Inductive recv_event :=
  | RecvSome (n : positive)
  | RecvAgain
  | RecvClosed
  | RecvError
  | RecvTimedOut.

(** A turn ends the reading with a code, or another follows: at once, or, when
    [ngx_http_do_read_client_request_body] returned [NGX_AGAIN], at the next
    event, when it is called again. *)
Inductive read_turn :=
  | Finished (rc : Z) (bd : body)
  | Reading (bd : body).

(** After [rb->rest] became zero. *)
Definition body_complete (cf : body_conf) (bd : body) : read_turn :=
  if bool_decide (is_Some bd.(bd_file)) || cf.(cf_in_file_only)
  then let (rc, bd) := finish_file bd in Finished rc bd
  else Finished NGX_OK bd.

(** Passing [rb->buf] to the filter. *)
Definition filter_buf (cf : body_conf) (bd : body) : option (Z * body) :=
  match ngx_http_request_body_filter cf bd (Some bd.(bd_buf)) with
  | Some (rc, bd, Some b) => Some (rc, set_rb_buf bd b)
  | Some (rc, bd, None) => Some (rc, bd)
  | None => None
  end.

(** A buffer that is full is filtered, written to the file and used again:
    [None] if all this succeeded. *)
Definition empty_buf (cf : body_conf) (bd : body) : option (option Z * body) :=
  let b := bd.(bd_buf) in
  if negb (b.(b_last) =? b.(b_end)) then Some (None, bd)
  else
    match filter_buf cf bd with
    | None => None
    | Some (rc, bd) =>
        if negb (rc =? NGX_OK) then Some (Some rc, bd)
        else
          let (ok, bd) := ngx_http_write_request_body bd in
          if negb ok then Some (Some NGX_HTTP_INTERNAL_SERVER_ERROR, bd)
          else
            match ngx_http_request_body_filter cf bd None with
            | None => None
            | Some (rc, bd, _) =>
                if negb (rc =? NGX_OK) then Some (Some rc, bd)
                else
                  let b := bd.(bd_buf) in
                  Some (None, set_rb_buf bd (NetBuf b.(b_mem) b.(b_start) b.(b_start) b.(b_start) b.(b_end)))
            end
    end.

(** [c->recv] puts [l], the next bytes of the connection, at [b->last]. *)
Definition receive (bd : body) (n : Z) : body :=
  let b := bd.(bd_buf) in
  let l := take (Z.to_nat n) bd.(bd_stream) in
  let mem := bd.(bd_mem) b.(b_mem) in
  let mem' := take (Z.to_nat b.(b_last)) mem ++ l ++ drop (Z.to_nat (b.(b_last) + zlen l)) mem in
  Body (set_mem bd.(bd_mem) b.(b_mem) mem') bd.(bd_filter) bd.(bd_bufs) bd.(bd_file) bd.(bd_header_in)
    (NetBuf b.(b_mem) b.(b_start) b.(b_pos) (b.(b_last) + zlen l) b.(b_end))
    (drop (Z.to_nat n) bd.(bd_stream)) (bd.(bd_request_length) + zlen l).

(** One turn of the loops of [ngx_http_do_read_client_request_body], and
    [ngx_http_read_client_request_body_handler] for the timer. *)
Definition recv_turn (cf : body_conf) (bd : body) (e : recv_event) : option read_turn :=
  match e with
  | RecvTimedOut => Some (Finished NGX_HTTP_REQUEST_TIME_OUT bd)
  | _ =>
      match empty_buf cf bd with
      | None => None
      | Some (Some rc, bd) => Some (Finished rc bd)
      | Some (None, bd) =>
          let b := bd.(bd_buf) in
          let left := bd.(bd_filter).(rest) - (b.(b_last) - b.(b_pos)) in
          let size := Z.min (b.(b_end) - b.(b_last)) left in
          match e with
          | RecvSome avail =>
              let n := Z.min (Z.min (Z.pos avail) size) (zlen bd.(bd_stream)) in
              if n <=? 0 then Some (Finished NGX_HTTP_BAD_REQUEST bd)
              else
                let bd := receive bd n in
                let next (bd : body) : option read_turn :=
                  if bd.(bd_filter).(rest) =? 0 then Some (body_complete cf bd) else Some (Reading bd) in
                if n =? left then
                  match filter_buf cf bd with
                  | None => None
                  | Some (rc, bd) => if rc =? NGX_OK then next bd else Some (Finished rc bd)
                  end
                else next bd
          | RecvAgain =>
              if bd.(bd_filter).(rest) =? 0 then Some (body_complete cf bd) else Some (Reading bd)
          | _ => Some (Finished NGX_HTTP_BAD_REQUEST bd)
          end
      end
  end.

Fixpoint read_events (cf : body_conf) (bd : body) (events : list recv_event) : option read_turn :=
  match events with
  | [] => Some (Reading bd)
  | e :: events' =>
      match recv_turn cf bd e with
      | Some (Reading bd) => read_events cf bd events'
      | r => r
      end
  end.

(** The second half of [ngx_http_read_client_request_body]: a buffer for what is
    left of the body, if anything is. *)
Definition read_rest (cf : body_conf) (preread : Z) (bd : body) : read_turn :=
  let r := bd.(bd_filter).(rest) in
  if r =? 0 then
    if cf.(cf_in_file_only) then let (rc, bd) := finish_file bd in Finished rc bd
    else Finished NGX_OK bd
  else if r <? 0 then Finished NGX_HTTP_INTERNAL_SERVER_ERROR bd
  else
    let size := cf.(cf_buffer_size) + Z.shiftr cf.(cf_buffer_size) 2 in
    let size := if negb cf.(cf_chunked) && (r <? size)
                then r + (if cf.(cf_in_single_buf) then preread else 0)
                else cf.(cf_buffer_size) in
    let (ok, bd) := call_bd bd in
    if negb ok then Finished NGX_HTTP_INTERNAL_SERVER_ERROR bd
    else Reading (set_rb_buf bd (NetBuf BodyMem 0 0 0 size)).

(** [ngx_http_read_client_request_body], for a main request whose body was
    neither read nor discarded before; [Reading] when the loop begins. The first
    call that may fail is [ngx_http_test_expect]. *)
Definition ngx_http_read_client_request_body (cf : body_conf) (bd : body) : option read_turn :=
  let (ok, bd) := call_bd bd in
  if negb ok then Some (Finished NGX_HTTP_INTERNAL_SERVER_ERROR bd)
  else
    let (ok, bd) := call_bd bd in
    if negb ok then Some (Finished NGX_HTTP_INTERNAL_SERVER_ERROR bd)
    else
      let bd := set_filter bd (set_rest bd.(bd_filter) (-1)) in
      if (bd.(bd_filter).(content_length_n) <? 0) && negb cf.(cf_chunked) then Some (Finished NGX_OK bd)
      else
        let h := bd.(bd_header_in) in
        let preread := h.(b_last) - h.(b_pos) in
        if preread =? 0 then
          match ngx_http_request_body_filter cf bd None with
          | None => None
          | Some (rc, bd, _) =>
              Some (if rc =? NGX_OK then read_rest cf preread bd else Finished NGX_HTTP_INTERNAL_SERVER_ERROR bd)
          end
        else
          match ngx_http_request_body_filter cf bd (Some h) with
          | None => None
          | Some (rc, bd, h') =>
              let h := match h' with Some h' => h' | None => h end in
              let bd := set_header_in bd h in
              if negb (rc =? NGX_OK) then Some (Finished rc bd)
              else
                let bd := add_request_length bd (preread - (h.(b_last) - h.(b_pos))) in
                let r := bd.(bd_filter).(rest) in
                if negb cf.(cf_chunked) && (0 <? r) && (r <=? h.(b_end) - h.(b_last)) then
                  let (ok, bd) := call_bd bd in
                  if negb ok then Some (Finished NGX_HTTP_INTERNAL_SERVER_ERROR bd)
                  else Some (Reading (set_rb_buf bd (NetBuf HeaderMem h.(b_pos) h.(b_pos) h.(b_last) h.(b_end))))
                else Some (read_rest cf preread bd)
          end.

(** A whole reading: the first call, then the events. *)
Definition receive_body (cf : body_conf) (bd : body) (events : list recv_event) : option read_turn :=
  match ngx_http_read_client_request_body cf bd with
  | Some (Reading bd) => read_events cf bd events
  | r => r
  end.
