(* ===== verification/HttpBodySpec.v ===== *)
(** * Bodies are received as they were sent

    What the filters of [HttpBody] promise to the loop that receives is the class
    [FilterLaws]; both filters are instances.  The theorems on the loop are
    proved against it: the body is what the client sent, whatever the pieces it
    arrives in, and nothing after it is read from the connection. *)

From S2P Require Import Prelude HttpRequest HttpChunked HttpBody.

(** ** Sizes that end properly *)

(** No digit of a size that is not zero is followed by a line feed at once. *)
Fixpoint sizes_ended (st : chunk_state) (size : Z) (input : list Z) : bool :=
  match input with
  | [] => true
  | ch :: input' =>
      match body_char st size ch with
      | BNext st' size' _ =>
          negb (bool_decide (st = sw_chunk_size) && negb (size =? 0) && (ch =? LF)) && sizes_ended st' size' input'
      | _ => true
      end
  end.

Lemma sizes_ended_after st size input : sizes_ended (after_chunk st size) size input = sizes_ended st size input.
Proof.
  destruct (decide (st = sw_chunk_data)) as [->|H].
  - destruct input as [|ch input]; [done|]. cbn [sizes_ended]. unfold body_char.
    rewrite too_big_after_chunk, after_chunk_idem. unfold after_chunk.
    destruct (Z.eqb_spec size 0) as [->|]; reflexivity.
  - by rewrite after_chunk_same by done.
Qed.

Lemma sizes_ended_app a : forall st size b st' size' out,
  sizes_ended st size (a ++ b) = true -> read_body st size a = RAgain st' size' out -> sizes_ended st' size' b = true.
Proof.
  induction a as [|ch a IH]; intros st size b st' size' out; cbn [app sizes_ended read_body].
  { intros H [= <- <- _]. by rewrite sizes_ended_after. }
  destruct (body_char st size ch) as [st2 size2 o| | |]; try done.
  intros [_ H]%andb_prop. destruct (read_body st2 size2 a) as [st3 size3 o3| | |] eqn:E; try done.
  cbn. intros [= <- <- _]. by apply (IH st2 size2 b st3 size3 o3).
Qed.

Lemma size_char_needs size ch st' size' out :
  0 <= size < SIZE_LIMIT -> size <> 0 -> ch <> LF -> body_char sw_chunk_size size ch = BNext st' size' out ->
  bytes_needed sw_chunk_size size <= bytes_needed st' size'.
Proof.
  intros Hs Hz Hlf E. rewrite body_char_outside, after_chunk_same in E by done. cbn in E.
  rewrite (proj2 (Z.eqb_neq size 0)) in E by done. cbn. rewrite (proj2 (Z.eqb_neq size 0)) by done.
  destruct (xdigit ch) as [d|] eqn:Ed.
  - apply hex_digit_range in Ed. destruct (Z.leb_spec SIZE_LIMIT (size * 16 + d)); [done|].
    injection E as <- <- <-. rewrite s64_small by lia. cbn. rewrite (proj2 (Z.eqb_neq (size * 16 + d) 0)); lia.
  - unfold size_ends in E. rewrite (proj2 (Z.eqb_neq ch LF)) in E by done. repeat case_match; simplify_eq; cbn; lia.
Qed.

(** Then what the parser asks for is never more than what is left of the body. *)
Lemma length_at_most st size l out next :
  chunk_ok st size -> sizes_ended st size l = true -> read_body st size l = RDone out next ->
  chunk_length st size <= zlen l - zlen next.
Proof.
  intros Hok Hse Hr. rewrite chunk_length_exact by done.
  destruct (bool_decide _ && _) eqn:E; [|pose proof (read_needs _ _ _ _ _ Hok Hr); lia].
  apply andb_prop in E as [->%bool_decide_eq_true_1 Hz%negb_true_iff]. destruct l as [|ch l]; [done|].
  cbn [sizes_ended read_body] in *. destruct (body_char sw_chunk_size size ch) as [st' size' o| | |] eqn:Ec; try done.
  - rewrite Hz, bool_decide_eq_true_2 in Hse by done. cbn in Hse. apply andb_prop in Hse as [Hlf%negb_true_iff _].
    apply Z.eqb_neq in Hz, Hlf. destruct (body_char_ok _ _ _ _ _ _ Hok Ec) as [Hok' _].
    destruct (read_body st' size' l) as [|out' next'| |] eqn:Er; try done. injection Hr as _ ->.
    pose proof (read_needs _ _ _ _ _ Hok' Er). pose proof (size_char_needs size ch st' size' o (proj1 Hok) Hz Hlf Ec).
    rewrite zlen_cons. lia.
  - rewrite body_char_outside, after_chunk_same in Ec by done. cbn in Ec. unfold size_ends in Ec. by repeat case_match.
Qed.

(** The data announced by the size of a chunk is part of the body. *)
Definition announced (st : chunk_state) (size : Z) : Z := if bool_decide (st = sw_chunk_data) then size else 0.

Lemma announced_data l : forall st size out next,
  chunk_ok st size -> read_body st size l = RDone out next -> announced st size <= zlen out.
Proof.
  induction l as [|ch l IH]; intros st size out next Hok; cbn [read_body]; [done|].
  unfold announced. case_bool_decide as Es; [|intros _; apply zlen_nonneg]. subst st. unfold body_char.
  rewrite bool_decide_eq_true_2 by done. cbn [andb]. destruct (Z.ltb_spec 0 size) as [Hs|Hs].
  - destruct (read_body sw_chunk_data (size - 1) l) as [|out' next'| |] eqn:E; try done. cbn.
    intros [= <- <-]. apply IH in E; [|destruct Hok; split; [lia|done]].
    unfold announced in E. rewrite bool_decide_eq_true_2 in E by done. rewrite zlen_cons. lia.
  - intros _. pose proof (zlen_nonneg out). lia.
Qed.

(** ** Ranges *)

Lemma zlen_sub l i j : 0 <= i <= j -> j <= zlen l -> zlen (sub l i j) = j - i.
Proof. intros Hi Hj. unfold sub, zlen in *. rewrite length_take, length_drop. lia. Qed.

Lemma sub_empty l i : sub l i i = [].
Proof. unfold sub. by rewrite Z.sub_diag. Qed.

Lemma sub_cat l i j k : 0 <= i <= j -> j <= k -> sub l i j ++ sub l j k = sub l i k.
Proof.
  intros Hi Hk. unfold sub. replace (Z.to_nat j) with (Z.to_nat i + Z.to_nat (j - i))%nat by lia.
  rewrite <- drop_drop. replace (Z.to_nat (k - i)) with (Z.to_nat (j - i) + Z.to_nat (k - j))%nat by lia.
  by rewrite take_take_drop.
Qed.

(** The tail of a range. *)
Lemma sub_suffix l i j pre u :
  0 <= i <= j -> j <= zlen l -> sub l i j = pre ++ u ->
  j - zlen u = i + zlen pre /\ sub l (j - zlen u) j = u /\ sub l i (j - zlen u) = pre.
Proof.
  intros Hi Hj E. pose proof (zlen_sub l i j Hi Hj) as Hz. rewrite E, zlen_app in Hz.
  pose proof (zlen_nonneg pre). pose proof (zlen_nonneg u). split; [lia|].
  pose proof (sub_cat l i (j - zlen u) j ltac:(lia) ltac:(lia)) as Hc. rewrite E in Hc.
  apply app_inj_1 in Hc; [tauto|]. pose proof (zlen_sub l i (j - zlen u) ltac:(lia) ltac:(lia)). unfold zlen in *. lia.
Qed.

(** ** What a filter promises *)

Definition ranges_bytes (mem : list Z) (rs : list range) : list Z := concat (map (fun r => sub mem r.1.1 r.1.2) rs).

(** The outcome of a filter on the bytes from [pos] to [last] when [after] is what
    the client sends after them, of which the body takes [out] and leaves
    [next]: the body is complete, or the filter took all and needs no more than
    what is left of the body. *)
Definition filtered (ok : filter_state -> Prop) (body_of : filter_state -> list Z -> list Z -> list Z -> Prop)
    (mem : list Z) (pos last : Z) (after out next : list Z) (fs' : filter_state) (pos' : Z) (rs : list range) : Prop :=
  no_oom fs'.(calls) /\ pos <= pos' <= last /\ Forall (fun r => 0 <= r.1.1 <= r.1.2 /\ r.1.2 <= last) rs /\
  ((fs'.(rest) = 0 /\ ranges_bytes mem rs = out /\ sub mem pos' last ++ after = next) \/
   (ok fs' /\ 0 < fs'.(rest) /\ pos' = last /\ fs'.(rest) <= zlen after - zlen next /\
    exists out', out = ranges_bytes mem rs ++ out' /\ body_of fs' after out' next)).

(** [body_of fs input out next]: from the state [fs] on, the body in [input] is
    [out], and [next] comes after it. *)
Class FilterLaws (buffer : filter_state -> list Z -> Z -> Z -> filter_result)
    (ok : filter_state -> Prop) (body_of : filter_state -> list Z -> list Z -> list Z -> Prop) := {
  filter_reads : forall fs mem pos last after out next,
    ok fs -> no_oom fs.(calls) -> 0 <= pos <= last -> last <= zlen mem ->
    body_of fs (sub mem pos last ++ after) out next ->
    exists fs' pos' rs, buffer fs mem pos last = Some (NGX_OK, fs', pos', rs) /\
      filtered ok body_of mem pos last after out next fs' pos' rs;
  ok_calls : forall fs a, ok fs -> ok (set_calls fs a);
  body_calls : forall fs a input out next, body_of fs input out next -> body_of (set_calls fs a) input out next;
}.

(** *** With a length *)

Definition length_ok (fs : filter_state) : Prop := 0 <= fs.(rest).

Definition length_body (fs : filter_state) (input out next : list Z) : Prop :=
  input = out ++ next /\ zlen out = fs.(rest).

Lemma no_oom_call fs : no_oom fs.(calls) -> exists a, may_fail fs = (true, set_calls fs a) /\ no_oom a.
Proof. intros H. unfold may_fail. destruct (no_oom_alloc _ H) as (a & -> & Ha). by exists a. Qed.

#[export] Instance length_filter_laws :
  FilterLaws (fun fs _ pos last => length_buffer fs pos last) length_ok length_body.
Proof.
  constructor; [|done|done]. intros fs mem pos last after out next Hok Ha Hp Hl [E Hz]. unfold length_buffer.
  destruct (no_oom_call fs Ha) as (a & -> & Ha'). cbn [negb]. unfold length_ok in Hok.
  pose proof (zlen_sub mem pos last Hp Hl) as Hs.
  assert (Hlen : last - pos + zlen after = zlen out + zlen next) by (rewrite <- Hs, <- !zlen_app; by rewrite E).
  cbn [rest set_calls]. destruct (Z.ltb_spec (last - pos) fs.(rest)) as [Hlt|Hge].
  - do 3 eexists. split; [reflexivity|]. unfold filtered, length_ok, length_body, ranges_bytes. cbn.
    rewrite app_nil_r. split; [done|]. split; [lia|]. split; [repeat constructor; cbn; lia|]. right.
    split; [lia|]. split; [lia|]. split; [done|]. split; [lia|].
    assert (out = sub mem pos last ++ drop (Z.to_nat (last - pos)) out) as Eo.
    { rewrite <- (take_drop (Z.to_nat (last - pos)) out) at 1. f_equal.
      rewrite <- (take_app_le _ next) by (unfold zlen in *; lia). rewrite <- E. apply take_app_length'.
      unfold zlen in *. lia. }
    exists (drop (Z.to_nat (last - pos)) out). split; [done|]. rewrite Eo, <- app_assoc in E.
    apply app_inv_head in E. split; [done|]. unfold zlen in *. rewrite length_drop. lia.
  - do 3 eexists. split; [reflexivity|]. unfold filtered, ranges_bytes. cbn. rewrite app_nil_r.
    split; [done|]. split; [lia|]. split; [repeat constructor; cbn; lia|]. left. split; [done|].
    rewrite <- (sub_cat mem pos (pos + rest fs) last), <- app_assoc in E by lia.
    apply app_inj_1 in E; [tauto|]. pose proof (zlen_sub mem pos (pos + rest fs) ltac:(lia) ltac:(lia)). unfold zlen in *. lia.
Qed.

(** *** Chunked *)

Definition chunked_ok (fs : filter_state) : Prop :=
  chunk_ok fs.(ctx).(ck_state) fs.(ctx).(ck_size) /\ 0 <= fs.(content_length_n).

(** The body the reference reads, of which the announced sizes end properly, within
    the limit. *)
Definition chunked_body_of (max : Z) (fs : filter_state) (input out next : list Z) : Prop :=
  read_body fs.(ctx).(ck_state) fs.(ctx).(ck_size) input = RDone out next /\
  sizes_ended fs.(ctx).(ck_state) fs.(ctx).(ck_size) input = true /\
  (max = 0 \/ fs.(content_length_n) + zlen out <= max < 2 ^ 63).

Lemma add_out_done o res out next :
  add_out o res = RDone out next -> exists out', out = o ++ out' /\ res = RDone out' next.
Proof. destruct res as [|out' ?| |]; cbn; try done. intros [= <- ->]. by exists out'. Qed.

Lemma chunk_length_pos st size : chunk_ok st size -> 0 < chunk_length st size.
Proof.
  intros Hok. rewrite chunk_length_exact by done. destruct Hok as [Hs _].
  destruct st; cbn [bytes_needed]; destruct (_ && _); try destruct (_ =? _); lia.
Qed.

Lemma body_of_again max fs st' size' o a b out next len :
  chunked_body_of max fs (a ++ b) out next ->
  read_body fs.(ctx).(ck_state) fs.(ctx).(ck_size) a = RAgain st' size' o ->
  exists out', out = o ++ out' /\
    chunked_body_of max (FilterState fs.(rest) (fs.(content_length_n) + zlen o) (Chunked st' size' len) fs.(calls))
      b out' next.
Proof.
  intros (H1 & H2 & H3) E. pose proof (sizes_ended_app _ _ _ _ _ _ _ H2 E) as H4.
  rewrite read_body_app, E in H1. destruct (add_out_done _ _ _ _ H1) as (out' & -> & H5). exists out'.
  split; [done|]. split; [done|]. split; [done|]. cbn. rewrite zlen_app in H3. lia.
Qed.

(** The data of a chunk, [n] bytes of it. *)
Lemma body_of_data max fs size n u after out next len :
  chunked_body_of max fs (u ++ after) out next -> fs.(ctx).(ck_state) = sw_chunk_data -> fs.(ctx).(ck_size) = size ->
  0 <= n <= size -> n <= zlen u ->
  exists out', out = take (Z.to_nat n) u ++ out' /\
    chunked_body_of max
      (FilterState fs.(rest) (fs.(content_length_n) + n) (Chunked sw_chunk_data (size - n) len) fs.(calls))
      (drop (Z.to_nat n) u ++ after) out' next.
Proof.
  intros H Est Esz Hn Hu. assert (Hz : zlen (take (Z.to_nat n) u) = n) by (rewrite zlen_take; lia).
  rewrite <- (take_drop (Z.to_nat n) u), <- app_assoc in H.
  assert (E : read_body fs.(ctx).(ck_state) fs.(ctx).(ck_size) (take (Z.to_nat n) u) =
    RAgain (after_chunk sw_chunk_data (size - n)) (size - n) (take (Z.to_nat n) u)).
  { rewrite Est, Esz, <- (app_nil_r (take _ u)), read_data, app_nil_r, Hz by lia. cbn [read_body add_out]. by rewrite app_nil_r. }
  destruct (body_of_again _ _ _ _ _ _ _ _ _ len H E) as (out' & -> & H1 & H2 & H3). exists out'. split; [done|].
  cbn in *. rewrite read_after_chunk in H1. rewrite sizes_ended_after in H2. rewrite Hz in H3. done.
Qed.

Lemma filtered_more ok bo mem pos pos1 last after r out out1 next fs' pos' rs :
  filtered ok bo mem pos1 last after out1 next fs' pos' rs -> 0 <= r.1.1 <= r.1.2 /\ r.1.2 <= last ->
  0 <= pos <= pos1 -> out = sub mem r.1.1 r.1.2 ++ out1 ->
  filtered ok bo mem pos last after out next fs' pos' (r :: rs).
Proof.
  intros (H2 & H3 & H4 & H5) Hr Hp ->. unfold filtered, ranges_bytes in *. cbn [map concat].
  split; [done|]. split; [lia|]. split; [by constructor|]. destruct H5 as [(? & <- & ?)|(? & ? & ? & ? & o & -> & ?)].
  - left. done.
  - right. split; [done|]. split; [done|]. split; [done|]. split; [done|]. exists o. by rewrite app_assoc.
Qed.

(** A call of the parser that comes to the data of a chunk: the chunk is within
    the limit, and after the [n] bytes of it that are there the rest of the body
    is still to come. *)
Lemma turn_data max fs mem pos last after out next ctx' pre unread :
  0 <= pos <= last -> last <= zlen mem -> chunked_body_of max fs (sub mem pos last ++ after) out next ->
  0 <= fs.(content_length_n) -> ctx'.(ck_state) = sw_chunk_data -> 0 < ctx'.(ck_size) < SIZE_LIMIT -> unread <> [] ->
  sub mem pos last = pre ++ unread ->
  read_body fs.(ctx).(ck_state) fs.(ctx).(ck_size) pre = RAgain sw_chunk_data ctx'.(ck_size) [] ->
  let pos1 := last - zlen unread in
  let n := Z.min ctx'.(ck_size) (zlen unread) in
  pos <= pos1 /\ 0 < n /\ pos1 + n <= last /\
  negb (max =? 0) && (max <? s64 (fs.(content_length_n) + ctx'.(ck_size))) = false /\
  exists out1, out = sub mem pos1 (pos1 + n) ++ out1 /\ forall a,
    chunked_body_of max (FilterState fs.(rest) (fs.(content_length_n) + n)
      (Chunked ctx'.(ck_state) (ctx'.(ck_size) - n) ctx'.(ck_length)) a) (sub mem (pos1 + n) last ++ after) out1 next.
Proof.
  intros Hp Hl Hb Hcl Hst Hsz Hne Hu Hr pos1 n.
  destruct (sub_suffix mem pos last pre unread Hp Hl Hu) as (Hpos & Hsub & _). fold pos1 in Hpos, Hsub.
  pose proof (zlen_nonneg pre). assert (Hunread : 0 < zlen unread).
  { destruct unread; [done|]. rewrite zlen_cons. pose proof (zlen_nonneg unread). lia. }
  rewrite Hu, <- app_assoc in Hb.
  destruct (body_of_again _ _ _ _ _ _ _ _ _ (ck_length ctx') Hb Hr) as (out' & -> & Hb'). cbn [app].
  change (zlen (@nil Z)) with 0 in Hb'. rewrite Z.add_0_r in Hb'.
  split; [lia|]. split; [lia|]. split; [lia|]. split.
  { assert (Hle : ck_size ctx' <= zlen out').
    { destruct Hb' as [H1 _]. cbn in H1. apply announced_data in H1; [|split; [lia|done]].
      unfold announced in H1. by rewrite bool_decide_eq_true_2 in H1. }
    destruct Hb' as (_ & _ & [->|H3]); [done|]. cbn in H3. rewrite s64_small by lia.
    rewrite (proj2 (Z.ltb_ge _ _)) by lia. by rewrite andb_false_r. }
  destruct (body_of_data max _ (ck_size ctx') n unread after out' next (ck_length ctx') Hb') as (out1 & -> & Hb1);
    [done|done|lia|lia|]. cbn [rest content_length_n calls] in Hb1.
  pose proof (sub_cat mem pos1 (pos1 + n) last ltac:(lia) ltac:(lia)) as Hc.
  rewrite Hsub, <- (take_drop (Z.to_nat n) unread) in Hc. apply app_inj_1 in Hc as [-> ->].
  - exists out1. split; [done|]. intros a. rewrite Hst. exact Hb1.
  - pose proof (zlen_sub mem pos1 (pos1 + n) ltac:(lia) ltac:(lia)). rewrite length_take. unfold zlen in *. lia.
Qed.

Lemma chunked_turns_read fuel : forall max mem pos last fs outs after out next,
  (Z.to_nat (last - pos) < fuel)%nat -> chunked_ok fs -> no_oom fs.(calls) -> 0 <= pos <= last -> last <= zlen mem ->
  chunked_body_of max fs (sub mem pos last ++ after) out next ->
  exists fs' pos' rs, chunked_turns fuel max mem last pos fs outs = Some (NGX_OK, fs', pos', outs ++ rs) /\
    filtered chunked_ok (chunked_body_of max) mem pos last after out next fs' pos' rs.
Proof.
  induction fuel as [|fuel IH]; intros max mem pos last fs outs after out next Hf [Hok Hcl] Ha Hp Hl Hb; [lia|].
  cbn [chunked_turns].
  assert (Hbig : read_body fs.(ctx).(ck_state) fs.(ctx).(ck_size) (sub mem pos last) <> RTooBig).
  { intros E. destruct Hb as [H _]. by rewrite read_body_app, E in H. }
  pose proof (parse_chunked_reads fs.(ctx) (sub mem pos last) Hok Hbig) as H.
  destruct (ngx_http_parse_chunked fs.(ctx) (sub mem pos last)) as [[rc ctx'] unread].
  destruct H as [(-> & Hr & Hok' & -> & Haf & Hlen)|[(-> & Hst & Hsz & Hne & pre & Hu & Hr)|[(-> & Hst & (pre & Hu) & Hr)|(-> & Hr)]]];
    cbn [Z.eqb Pos.eqb]; cbv zeta.
  - clear IH. destruct (body_of_again _ _ _ _ _ _ _ _ _ (ck_length ctx') Hb Hr) as (out' & -> & Hb').
    exists (set_rest (set_ctx fs ctx') (ck_length ctx')), last, []. rewrite app_nil_r.
    split; [repeat f_equal; change (zlen (@nil Z)) with 0; lia|].
    unfold filtered, ranges_bytes. cbn. split; [done|]. split; [lia|]. split; [done|]. right.
    rewrite Hlen. split; [done|]. split; [by apply chunk_length_pos|]. split; [done|].
    destruct Hb' as (H1 & H2 & H3). cbn in H1, H2, H3. split; [by apply (length_at_most _ _ _ out')|].
    exists out'. split; [done|]. split; [done|]. split; [done|]. cbn. change (zlen (@nil Z)) with 0 in H3. lia.
  - destruct (turn_data max fs mem pos last after out next ctx' pre unread Hp Hl Hb Hcl Hst Hsz Hne Hu Hr)
      as (Hpos & Hn & Hlast & Hlim & out1 & -> & Hb1). set (pos1 := last - zlen unread) in *. set (n := Z.min _ _) in *.
    cbn [content_length_n set_ctx]. rewrite Hlim. destruct (no_oom_call (set_ctx fs ctx') Ha) as (a & -> & Ha'). cbn [negb].
    pose (fs1 := FilterState fs.(rest) (fs.(content_length_n) + n)
            (Chunked ctx'.(ck_state) (ctx'.(ck_size) - n) ctx'.(ck_length)) a).
    destruct (IH max mem (pos1 + n) last fs1 (outs ++ [(pos1, pos1 + n, false)]) after out1 next)
      as (fs' & pos' & rs & E & Hfil); [lia|split; [cbn; rewrite Hst; split; [lia|done]|cbn; lia]|done|lia|done|apply Hb1|].
    exists fs', pos', ((pos1, pos1 + n, false) :: rs). split.
    2: { eapply filtered_more; [exact Hfil|cbn; lia|lia|done]. }
    rewrite <- app_assoc in E. cbn [app] in E. etransitivity; [|exact E]. unfold fs1. cbn.
    destruct (Z.ltb_spec (ck_size ctx') (last - pos1)) as [Hlt|Hge].
    + replace n with (ck_size ctx') by lia. by rewrite Z.sub_diag.
    + replace n with (last - pos1) by lia. by replace (pos1 + (last - pos1)) with last by lia.
  - clear IH. destruct (sub_suffix mem pos last pre unread Hp Hl Hu) as (Hpos & Hsub & _).
    destruct (no_oom_call (set_rest (set_ctx fs ctx') 0) Ha) as (a & -> & Ha'). cbn [negb].
    do 3 eexists. split; [reflexivity|]. destruct Hb as [Hb _]. rewrite read_body_app, Hr in Hb. injection Hb as <- <-.
    unfold filtered, ranges_bytes. cbn. rewrite sub_empty. pose proof (zlen_nonneg pre). pose proof (zlen_nonneg unread).
    split; [done|]. split; [lia|]. split; [repeat constructor; cbn; lia|].
    left. split; [done|]. split; [done|]. by rewrite Hsub.
  - exfalso. destruct Hb as [H _]. by rewrite read_body_app, Hr in H.
Qed.

#[export] Instance chunked_filter_laws max :
  FilterLaws (chunked_buffer max) chunked_ok (chunked_body_of max).
Proof.
  constructor; [|done|done]. intros fs mem pos last after out next Hok Ha Hp Hl Hb. unfold chunked_buffer.
  apply (chunked_turns_read _ max mem pos last fs []); try done. lia.
Qed.

(** The filter of a request. *)
Definition filter_conf_ok (cf : body_conf) : filter_state -> Prop := if cf.(cf_chunked) then chunked_ok else length_ok.

Definition conf_body (cf : body_conf) : filter_state -> list Z -> list Z -> list Z -> Prop :=
  if cf.(cf_chunked) then chunked_body_of cf.(cf_max_body_size) else length_body.

#[export] Instance conf_filter_laws cf : FilterLaws (filter_buffer cf) (filter_conf_ok cf) (conf_body cf).
Proof.
  unfold filter_buffer, filter_conf_ok, conf_body.
  destruct (cf_chunked cf); [apply chunked_filter_laws|apply length_filter_laws].
Qed.
