(* ===== verification/HttpBodyRead.v ===== *)
(** * The loop that receives a body

    [ngx_http_do_read_client_request_body] against the laws of the filters:
    each turn keeps what was received and what is still to come together the
    body the client sends. *)

From S2P Require Import Prelude HttpRequest HttpChunked HttpBody HttpBodySpec.

(** What was received: the temporary file, then the parts in memory. *)
Definition content (bd : body) : list Z :=
  match bd.(bd_file) with Some f => f | None => [] end ++ bufs_bytes bd.

(** A part in memory that receiving into [b] leaves alone. *)
Definition part_ok (b : net_buf) (p : part) : Prop :=
  match p with
  | MemPart m pos last _ => 0 <= pos <= last /\ (m = b.(b_mem) -> last <= b.(b_last))
  | FilePart _ => False
  end.

Definition netbuf_ok (mem : memory) (b : net_buf) : Prop :=
  0 <= b.(b_start) <= b.(b_pos) /\ b.(b_pos) <= b.(b_last) <= b.(b_end) /\ b.(b_start) < b.(b_end) /\
  b.(b_last) <= zlen (mem b.(b_mem)).

Definition unfiltered (bd : body) : list Z := sub (bd.(bd_mem) bd.(bd_buf).(b_mem)) bd.(bd_buf).(b_pos) bd.(bd_buf).(b_last).

Lemma concat_app {A} (a b : list (list A)) : concat (a ++ b) = concat a ++ concat b.
Proof. induction a as [|x a IH]; [done|]. cbn. by rewrite IH, app_assoc. Qed.

(** ** Memory *)

Lemma set_mem_same mem m l : set_mem mem m l m = l.
Proof. unfold set_mem. by rewrite bool_decide_eq_true_2. Qed.

Lemma set_mem_other mem m l m' : m' <> m -> set_mem mem m l m' = mem m'.
Proof. intros H. unfold set_mem. by rewrite bool_decide_eq_false_2. Qed.

(** Writing at [last] leaves what is before alone. *)
Lemma sub_before mem last l tail i j :
  0 <= i -> j <= last -> last <= zlen mem -> sub (take (Z.to_nat last) mem ++ l ++ tail) i j = sub mem i j.
Proof.
  intros Hi Hj Hl. rewrite sub_app_l by (try done; rewrite zlen_take; lia).
  rewrite <- (take_drop (Z.to_nat last) mem) at 2. by rewrite sub_app_l by (try done; rewrite zlen_take; lia).
Qed.

Lemma part_receive bd n file p :
  netbuf_ok bd.(bd_mem) bd.(bd_buf) -> part_ok bd.(bd_buf) p ->
  part_bytes (receive bd n).(bd_mem) file p = part_bytes bd.(bd_mem) file p.
Proof.
  intros (H1 & H2 & H3 & H4) Hp. destruct p as [m pos last lb|]; [|done]. destruct Hp as [Hp1 Hp2]. cbn.
  destruct (decide (m = bd.(bd_buf).(b_mem))) as [->|Hm].
  - rewrite set_mem_same. apply sub_before; [lia|by apply Hp2|done].
  - by rewrite set_mem_other.
Qed.

Lemma parts_receive bd n file l :
  netbuf_ok bd.(bd_mem) bd.(bd_buf) -> Forall (part_ok bd.(bd_buf)) l ->
  map (part_bytes (receive bd n).(bd_mem) file) l = map (part_bytes bd.(bd_mem) file) l.
Proof. intros Hb. induction 1 as [|p l Hp _ IH]; [done|]. cbn [map]. by rewrite part_receive, IH. Qed.

Lemma pending_receive bd n :
  netbuf_ok bd.(bd_mem) bd.(bd_buf) -> 0 <= n <= zlen bd.(bd_stream) ->
  unfiltered (receive bd n) = unfiltered bd ++ take (Z.to_nat n) bd.(bd_stream).
Proof.
  intros (H1 & H2 & H3 & H4) Hn. unfold unfiltered. cbn. rewrite set_mem_same.
  set (mem := bd.(bd_mem) _). set (l := take (Z.to_nat n) _). set (tail := drop _ mem). set (q := b_last _) in *.
  rewrite <- (sub_cat _ _ q) by (pose proof (zlen_nonneg l); lia).
  rewrite (sub_before mem q l tail) by (subst mem q; lia). f_equal.
  pose proof (sub_middle (take (Z.to_nat q) mem) l tail) as Hm. rewrite zlen_take in Hm.
  replace (Z.of_nat (Z.to_nat q) `min` zlen mem) with q in Hm by (subst mem q; lia). exact Hm.
Qed.

(** Parts do not refer to the file while the body is being received. *)
Lemma parts_file mem b l f f' : Forall (part_ok b) l -> map (part_bytes mem f) l = map (part_bytes mem f') l.
Proof. induction 1 as [|p l Hp _ IH]; [done|]. cbn [map]. rewrite IH. by destruct p. Qed.

(** ** Calls that succeed *)

Lemma no_oom_call_bd bd :
  no_oom bd.(bd_filter).(calls) -> exists a, call_bd bd = (true, set_filter bd (set_calls bd.(bd_filter) a)) /\ no_oom a.
Proof. intros H. unfold call_bd. destruct (no_oom_call _ H) as (a & -> & Ha). by exists a. Qed.

Lemma add_copy_ok new : forall fs bufs,
  no_oom fs.(calls) -> exists a, ngx_chain_add_copy fs bufs new = (true, set_calls fs a, bufs ++ new) /\ no_oom a.
Proof.
  induction new as [|p new IH]; intros fs bufs H; cbn [ngx_chain_add_copy].
  { exists fs.(calls). rewrite app_nil_r. by destruct fs. }
  destruct (no_oom_call fs H) as (a & -> & Ha). destruct (IH (set_calls fs a) (bufs ++ [p]) Ha) as (a' & -> & Ha').
  exists a'. by rewrite <- app_assoc.
Qed.

Lemma save_ok bd new :
  no_oom bd.(bd_filter).(calls) ->
  exists a, ngx_http_request_body_save_filter bd new =
    (NGX_OK, set_bufs (set_filter bd (set_calls bd.(bd_filter) a)) (bd.(bd_bufs) ++ new)) /\ no_oom a.
Proof.
  intros H. unfold ngx_http_request_body_save_filter. destruct (add_copy_ok new _ bd.(bd_bufs) H) as (a & -> & Ha). by exists a.
Qed.

(** The state but for the outcomes of calls, file and parts. *)
Definition same_but_saved (bd bd' : body) : Prop :=
  exists a, no_oom a /\ bd'.(bd_filter) = set_calls bd.(bd_filter) a /\ bd'.(bd_mem) = bd.(bd_mem) /\
    bd'.(bd_header_in) = bd.(bd_header_in) /\ bd'.(bd_buf) = bd.(bd_buf) /\ bd'.(bd_stream) = bd.(bd_stream).

(** Writing moves the parts to the file. *)
Lemma write_ok bd b :
  no_oom bd.(bd_filter).(calls) -> Forall (part_ok b) bd.(bd_bufs) ->
  exists bd', ngx_http_write_request_body bd = (true, bd') /\ same_but_saved bd bd' /\
    bd'.(bd_file) = Some (content bd) /\ bd'.(bd_bufs) = [].
Proof.
  intros Ha Hp. unfold ngx_http_write_request_body, content.
  destruct (bd_file bd) as [f|] eqn:Ef.
  - destruct (bd_bufs bd) as [|p l] eqn:Eb.
    + exists bd. split; [done|]. split; [exists bd.(bd_filter).(calls); by destruct bd as [? []]|].
      unfold bufs_bytes. rewrite Eb, Ef. cbn. by rewrite app_nil_r.
    + destruct (no_oom_call_bd bd Ha) as (a & -> & Ha'). cbn. rewrite Ef. eexists. split; [reflexivity|].
      split; [by exists a|]. unfold bufs_bytes. cbn. by rewrite Ef, Eb.
  - destruct (no_oom_call_bd bd Ha) as (a & -> & Ha'). cbn.
    destruct (bd_bufs bd) as [|p l] eqn:Eb.
    + match goal with |- context [call_bd ?x] => destruct (no_oom_call_bd x Ha') as (a' & -> & Ha'') end.
      eexists. split; [reflexivity|]. split; [by exists a'|]. unfold bufs_bytes. cbn. by rewrite Eb.
    + match goal with |- context [call_bd ?x] => destruct (no_oom_call_bd x Ha') as (a' & -> & Ha'') end.
      eexists. split; [reflexivity|]. split; [by exists a'|]. unfold bufs_bytes. cbn. rewrite Ef, Eb. split; [|done].
      f_equal. change ([] ++ ?x) with x. f_equal. rewrite <- Eb in *. by apply (parts_file _ b).
Qed.

(** ** Turns of the loop *)

Section loop.
Context (cf : body_conf) (ok : filter_state -> Prop) (body_of : filter_state -> list Z -> list Z -> list Z -> Prop).
Context (L : FilterLaws (filter_buffer cf) ok body_of).
Context (out next : list Z).

(** Receiving: what is there and what the client still sends make up the body
    [out] and then [next]; the filter wants no more than the body has, and no
    less than what it was not given yet. *)
Record reading (bd : body) : Prop := {
  rd_ok : ok bd.(bd_filter);
  rd_calls : no_oom bd.(bd_filter).(calls);
  rd_rest : 0 < bd.(bd_filter).(rest);
  rd_buf : netbuf_ok bd.(bd_mem) bd.(bd_buf);
  rd_header : bd.(bd_header_in).(b_pos) = bd.(bd_header_in).(b_last);
  rd_pending : bd.(bd_buf).(b_last) - bd.(bd_buf).(b_pos) <= bd.(bd_filter).(rest);
  rd_parts : Forall (part_ok bd.(bd_buf)) bd.(bd_bufs);
  rd_enough : bd.(bd_filter).(rest) <= zlen (unfiltered bd) + zlen bd.(bd_stream) - zlen next;
  rd_body : exists out', out = content bd ++ out' /\
    body_of bd.(bd_filter) (unfiltered bd ++ bd.(bd_stream)) out' next;
}.

(** The filter was given all there is, or has to be given more first. *)
Definition waiting (bd : body) : Prop :=
  reading bd /\ bd.(bd_buf).(b_last) - bd.(bd_buf).(b_pos) < bd.(bd_filter).(rest).

(** The body is complete. *)
Record received (bd : body) : Prop := {
  rv_calls : no_oom bd.(bd_filter).(calls);
  rv_rest : bd.(bd_filter).(rest) = 0;
  rv_parts : Forall (part_ok bd.(bd_buf)) bd.(bd_bufs);
  rv_header : bd.(bd_header_in).(b_pos) = bd.(bd_header_in).(b_last);
  rv_content : content bd = out;
  rv_next : unfiltered bd ++ bd.(bd_stream) = next;
}.

Lemma pending_length bd : netbuf_ok bd.(bd_mem) bd.(bd_buf) -> zlen (unfiltered bd) = bd.(bd_buf).(b_last) - bd.(bd_buf).(b_pos).
Proof. intros (H1 & H2 & H3 & H4). apply zlen_sub; lia. Qed.

Lemma receive_reading bd n :
  reading bd -> 0 <= n <= zlen bd.(bd_stream) -> n <= bd.(bd_buf).(b_end) - bd.(bd_buf).(b_last) ->
  n <= bd.(bd_filter).(rest) - (bd.(bd_buf).(b_last) - bd.(bd_buf).(b_pos)) -> reading (receive bd n).
Proof.
  intros H Hn He Hr. destruct H. pose proof (pending_receive bd n rd_buf0 Hn) as Hpr.
  assert (Hz : zlen (take (Z.to_nat n) bd.(bd_stream)) = n) by (rewrite zlen_take; lia).
  assert (Hm : forall l, map (part_bytes (receive bd n).(bd_mem) l) bd.(bd_bufs) = map (part_bytes bd.(bd_mem) l) bd.(bd_bufs))
    by (intros l; by apply parts_receive).
  constructor; try done; try (rewrite Hpr); cbn [receive bd_stream bd_buf b_last b_pos bd_filter]; rewrite ?Hz.
  - destruct rd_buf0 as (H1 & H2 & H3 & H4). unfold netbuf_ok. cbn. rewrite set_mem_same, !zlen_app, !zlen_take.
    set (tail := drop _ _). pose proof (zlen_nonneg tail). lia.
  - lia.
  - eapply Forall_impl; [exact rd_parts0|]. intros [m p l lb|]; [|done]. cbn [part_ok b_mem b_last]. intros [? Hl]. split; [done|].
    intros E. specialize (Hl E). lia.
  - rewrite zlen_app, Hz. unfold zlen in *. rewrite length_drop. lia.
  - destruct rd_body0 as (out' & Ho & Hb). exists out'. rewrite <- app_assoc, take_drop. split; [|done].
    rewrite Ho. unfold content, bufs_bytes. cbn [receive bd_file bd_bufs]. by rewrite Hm.
Qed.

(** Passing the buffer to the filter. *)
Lemma filter_reading bd :
  reading bd -> exists bd', filter_buf cf bd = Some (NGX_OK, bd') /\ bd'.(bd_file) = bd.(bd_file) /\
    bd'.(bd_stream) = bd.(bd_stream) /\ bd'.(bd_buf) = b_set_pos bd.(bd_buf) bd'.(bd_buf).(b_pos) /\
    (received bd' \/ (waiting bd' /\ bd'.(bd_buf).(b_pos) = bd'.(bd_buf).(b_last))).
Proof.
  intros []. destruct rd_body0 as (out' & Ho & Hb). destruct rd_buf0 as (H1 & H2 & H3 & H4).
  set (b := bd.(bd_buf)) in *. set (mem := bd.(bd_mem) b.(b_mem)) in *.
  destruct (filter_reads bd.(bd_filter) mem b.(b_pos) b.(b_last) bd.(bd_stream) out' next rd_ok0 rd_calls0 ltac:(lia) ltac:(done) Hb)
    as (fs' & pos' & rs & E & Ha & Hpos & Hrs & Hres).
  unfold filter_buf, ngx_http_request_body_filter. fold b.
  replace (filter_init cf bd.(bd_filter)) with (true, bd.(bd_filter)).
  2: { unfold filter_init, chunked_init, length_init. rewrite (proj2 (Z.eqb_neq _ _)) by lia. by destruct (cf_chunked cf). }
  cbn [negb set_filter bd_mem bd_filter]. fold mem. rewrite E. cbn [Z.eqb].
  destruct (save_ok (set_filter bd fs') (map (as_part b.(b_mem)) rs) Ha) as (a & Es & Ha').
  replace (set_filter (set_filter bd bd.(bd_filter)) fs') with (set_filter bd fs') by (by destruct bd). rewrite Es.
  eexists. split; [reflexivity|]. cbn. split; [done|]. split; [done|]. split; [done|].
  assert (Hbytes : forall f, concat (map (part_bytes bd.(bd_mem) f) (map (as_part b.(b_mem)) rs)) = ranges_bytes mem rs).
  { intros f. unfold ranges_bytes. by rewrite map_map. }
  assert (Hparts : Forall (part_ok b) (map (as_part b.(b_mem)) rs)).
  { apply Forall_map. eapply Forall_impl; [exact Hrs|]. intros [[p l] lb]. cbn. lia. }
  assert (Hc : forall x, content bd ++ ranges_bytes mem rs ++ x =
     (match bd.(bd_file) with Some f => f | None => [] end ++
        concat (map (part_bytes bd.(bd_mem) bd.(bd_file)) (bd.(bd_bufs) ++ map (as_part b.(b_mem)) rs))) ++ x).
  { intros x. rewrite map_app, concat_app, Hbytes. unfold content, bufs_bytes. by rewrite !app_assoc. }
  destruct Hres as [(Hr0 & Hrb & Hn)|(Hok' & Hr & -> & Hle & out2 & -> & Hb2)].
  - left. constructor; cbn; try done.
    + apply Forall_app. split; [exact rd_parts0|done].
    + unfold content, bufs_bytes. cbn. rewrite <- (app_nil_r (_ ++ _)), <- Hc, app_nil_r, Hrb. by rewrite Ho.
  - right. split; [|done]. split.
    + constructor; cbn; try done.
      * by apply ok_calls.
      * unfold netbuf_ok. cbn. fold mem. lia.
      * lia.
      * apply Forall_app. split; [exact rd_parts0|done].
      * unfold unfiltered. cbn. rewrite sub_empty. change (zlen (@nil Z)) with 0. lia.
      * exists out2. unfold content, bufs_bytes, unfiltered. cbn. rewrite <- Hc, sub_empty, Ho. split; [done|]. by apply body_calls.
    + cbn. lia.
Qed.

(** What was not looked at yet when the body is complete is not part of it. *)
Lemma received_stream bd bd' :
  reading bd -> received bd' -> bd'.(bd_stream) = bd.(bd_stream) ->
  bd'.(bd_buf) = b_set_pos bd.(bd_buf) bd'.(bd_buf).(b_pos) ->
  bd.(bd_buf).(b_last) - bd.(bd_buf).(b_pos) = bd.(bd_filter).(rest) /\ bd'.(bd_stream) = next.
Proof.
  intros [] [] Es Eb. rewrite pending_length in rd_enough0 by done.
  pose proof (f_equal zlen rv_next0) as Hz. rewrite zlen_app, Es in Hz. pose proof (zlen_nonneg (unfiltered bd')).
  split; [lia|]. assert (zlen (unfiltered bd') = 0) as Hp%zlen_0_nil by lia. by rewrite Hp in rv_next0.
Qed.

(** A full buffer is emptied. *)
Lemma empty_waiting bd :
  waiting bd -> exists bd', empty_buf cf bd = Some (None, bd') /\ waiting bd' /\ bd'.(bd_stream) = bd.(bd_stream) /\
    bd'.(bd_buf).(b_last) < bd'.(bd_buf).(b_end).
Proof.
  intros [Hrd Hw]. unfold empty_buf. destruct (Z.eqb_spec bd.(bd_buf).(b_last) bd.(bd_buf).(b_end)) as [He|He]; cbn [negb].
  2: { exists bd. split; [done|]. split; [done|]. split; [done|]. destruct (rd_buf _ Hrd) as (? & ? & ? & ?). lia. }
  destruct (filter_reading bd Hrd) as (bd1 & -> & Ef & Es & Eb & Hres). cbn [Z.eqb negb].
  destruct Hres as [Hr|[[Hrd1 Hw1] Hpos1]].
  { destruct (received_stream bd bd1 Hrd Hr Es Eb). lia. }
  destruct (write_ok bd1 bd1.(bd_buf) (rd_calls _ Hrd1) (rd_parts _ Hrd1))
    as (bd2 & -> & (a & Ha & Hfs & Hmem & Hh & Hbuf & Hst) & Hfile & Hbufs). cbn [negb].
  unfold ngx_http_request_body_filter. rewrite Hfs.
  replace (filter_init cf (set_calls bd1.(bd_filter) a)) with (true, set_calls bd1.(bd_filter) a).
  2: { pose proof (rd_rest _ Hrd1). unfold filter_init, chunked_init, length_init. cbn.
       rewrite (proj2 (Z.eqb_neq _ _)) by lia. by destruct (cf_chunked cf). }
  cbn [negb]. match goal with |- context [ngx_http_request_body_save_filter ?x []] => destruct (save_ok x [] Ha) as (a' & -> & Ha') end.
  cbn [Z.eqb negb]. eexists. split; [reflexivity|]. cbn. rewrite Hbuf, Hst.
  destruct Hrd1. destruct rd_buf0 as (B1 & B2 & B3 & B4). destruct rd_body0 as (out' & Ho & Hb).
  assert (Hp : unfiltered bd1 = []) by (unfold unfiltered; rewrite Hpos1; apply sub_empty).
  split; [|split; [done|lia]]. split; [|cbn; lia]. constructor; cbn; try done.
  - by apply ok_calls, ok_calls.
  - unfold netbuf_ok. cbn. rewrite Hmem. lia.
  - by rewrite Hh.
  - lia.
  - rewrite Hbufs. constructor.
  - unfold unfiltered. cbn. rewrite sub_empty, Hst. by rewrite Hp in rd_enough0.
  - exists out'. unfold content, bufs_bytes, unfiltered. cbn. rewrite sub_empty, Hfile, Hbufs, Hst. cbn. rewrite app_nil_r.
    split; [done|]. apply body_calls, body_calls. by rewrite Hp in Hb.
Qed.

(** The end of a reading: the buffers hold the body, and what comes after it is
    still to be read. *)
Definition delivered (rc : Z) (bd : body) : Prop :=
  rc = NGX_OK /\ bufs_bytes bd = out /\
  sub (bd.(bd_mem) HeaderMem) bd.(bd_header_in).(b_pos) bd.(bd_header_in).(b_last) ++ bd.(bd_stream) = next.

Lemma finish_file_ok bd b :
  no_oom bd.(bd_filter).(calls) -> Forall (part_ok b) bd.(bd_bufs) ->
  exists bd', finish_file bd = (NGX_OK, bd') /\ bufs_bytes bd' = content bd /\ bd'.(bd_mem) = bd.(bd_mem) /\
    bd'.(bd_header_in) = bd.(bd_header_in) /\ bd'.(bd_stream) = bd.(bd_stream).
Proof.
  intros Ha Hp. unfold finish_file. destruct (write_ok bd b Ha Hp) as (bd1 & -> & (a & Ha' & Hfs & Hm & Hh & _ & Hs) & Hf & Hb).
  cbn [negb]. destruct (no_oom_call_bd bd1) as (a' & -> & Ha''); [by rewrite Hfs|]. cbn [negb].
  eexists. split; [reflexivity|]. unfold bufs_bytes. cbn. rewrite Hf. split; [|done].
  rewrite app_nil_r. apply take_ge. unfold zlen. lia.
Qed.

Lemma complete_delivers bd :
  received bd -> bd.(bd_stream) = next -> exists rc bd', body_complete cf bd = Finished rc bd' /\ delivered rc bd'.
Proof.
  intros [] Hs. unfold body_complete, delivered. destruct (bool_decide _ || _) eqn:E.
  - destruct (finish_file_ok bd _ rv_calls0 rv_parts0) as (bd' & -> & Hc & Hm & Hh & Hst). exists NGX_OK, bd'.
    split; [done|]. split; [done|]. split; [congruence|]. rewrite Hh, Hm, rv_header0, sub_empty, Hst. done.
  - exists NGX_OK, bd. split; [done|]. split; [done|]. apply orb_false_iff in E as [E%bool_decide_eq_false_1 _].
    unfold content in rv_content0. destruct (bd_file bd); [by destruct E|]. split; [done|].
    rewrite rv_header0, sub_empty. done.
Qed.

(** Events in which the connection works. *)
Definition arrives (e : recv_event) : Z := match e with RecvSome _ => 1 | _ => 0 end.

Definition works (e : recv_event) : Prop := match e with RecvSome _ | RecvAgain => True | _ => False end.

Lemma step_waiting bd e :
  waiting bd -> works e -> exists t, recv_turn cf bd e = Some t /\
    match t with
    | Reading bd' => waiting bd' /\ zlen bd'.(bd_stream) + arrives e <= zlen bd.(bd_stream)
    | Finished rc bd' => delivered rc bd'
    end.
Proof.
  intros Hw He. destruct (empty_waiting bd Hw) as (bd1 & E1 & [Hrd Hlt] & Hs & Hroom). rewrite <- Hs. clear Hw Hs.
  destruct e as [avail| | | |]; try done; cbn [recv_turn]; rewrite E1; cbv zeta.
  2: { rewrite (proj2 (Z.eqb_neq _ _)) by (pose proof (rd_rest _ Hrd); lia). eexists. split; [done|].
       split; [by split|]. cbn. lia. }
  pose proof (rd_enough _ Hrd) as Hen. rewrite pending_length in Hen by apply Hrd. pose proof (zlen_nonneg next).
  set (rem := rest _ - _) in *. set (size := Z.min _ rem). set (n := Z.min (Z.min (Z.pos avail) size) _).
  assert (Hn : 0 < n /\ n <= zlen bd1.(bd_stream) /\ n <= size) by lia.
  rewrite (proj2 (Z.leb_gt n 0)) by lia.
  pose proof (receive_reading bd1 n Hrd ltac:(lia) ltac:(lia) ltac:(lia)) as Hrd2.
  assert (Hz : zlen (receive bd1 n).(bd_stream) + 1 <= zlen bd1.(bd_stream)).
  { cbn. unfold zlen in *. rewrite length_drop. lia. }
  destruct (Z.eqb_spec n rem) as [Er|Er].
  - destruct (filter_reading _ Hrd2) as (bd3 & -> & Ef & Es & Eb & Hres). cbn [Z.eqb]. destruct Hres as [Hr|[Hw3 _]].
    + rewrite (proj2 (Z.eqb_eq _ _) (rv_rest _ Hr)). destruct (received_stream _ _ Hrd2 Hr Es Eb) as [_ Hnext].
      destruct (complete_delivers bd3 Hr Hnext) as (rc & bd' & -> & Hd). by exists (Finished rc bd').
    + rewrite (proj2 (Z.eqb_neq _ _)) by (pose proof (rd_rest _ (proj1 Hw3)); lia). eexists. split; [done|].
      split; [done|]. rewrite Es. cbn [arrives]. lia.
  - rewrite (proj2 (Z.eqb_neq _ _)) by (pose proof (rd_rest _ Hrd2); lia). eexists. split; [done|].
    split; [|cbn [arrives]; lia]. split; [done|]. cbn. rewrite zlen_take. lia.
Qed.

(** All turns: the body is delivered, at the latest when as many of the events
    brought bytes as the client had left to send. *)
Lemma events_deliver events : forall bd,
  waiting bd -> Forall works events -> exists t, read_events cf bd events = Some t /\
    match t with
    | Reading bd' => waiting bd' /\ foldr Z.add 0 (map arrives events) <= zlen bd.(bd_stream) - zlen bd'.(bd_stream)
    | Finished rc bd' => delivered rc bd'
    end.
Proof.
  induction events as [|e events IH]; intros bd Hw Hev; cbn [read_events].
  { eexists. split; [done|]. split; [done|]. cbn. lia. }
  apply Forall_cons in Hev as [He Hev]. destruct (step_waiting bd e Hw He) as (t & -> & Ht).
  destruct t as [rc bd'|bd']; [by exists (Finished rc bd')|]. destruct Ht as [Hw' Hz].
  destruct (IH bd' Hw' Hev) as (t & -> & Ht). exists t. split; [done|]. destruct t; [done|].
  destruct Ht as [? ?]. split; [done|]. cbn. lia.
Qed.
End loop.

(** ** The beginning *)

(** What the client sends: what was read with the header, and what is to come. *)
Definition sent (bd : body) : list Z :=
  sub (bd.(bd_mem) HeaderMem) bd.(bd_header_in).(b_pos) bd.(bd_header_in).(b_last) ++ bd.(bd_stream).

(** A request whose body is to be read. *)
Record fresh (cf : body_conf) (bd : body) : Prop := {
  fr_calls : no_oom bd.(bd_filter).(calls);
  fr_bufs : bd.(bd_bufs) = [];
  fr_file : bd.(bd_file) = None;
  fr_header : bd.(bd_header_in).(b_mem) = HeaderMem;
  fr_bounds : 0 <= bd.(bd_header_in).(b_pos) <= bd.(bd_header_in).(b_last) /\
    bd.(bd_header_in).(b_last) <= bd.(bd_header_in).(b_end) /\
    bd.(bd_header_in).(b_last) <= zlen (bd.(bd_mem) HeaderMem);
  fr_size : 0 < cf.(cf_buffer_size);
}.

(** The body among it, and what follows: in chunks that end properly and within
    the limit, or of the length in the header. *)
Definition sends (cf : body_conf) (bd : body) (out next : list Z) : Prop :=
  if cf.(cf_chunked) then
    read_body sw_chunk_start 0 (sent bd) = RDone out next /\ sizes_ended sw_chunk_start 0 (sent bd) = true /\
    (cf.(cf_max_body_size) = 0 \/ zlen out <= cf.(cf_max_body_size) < 2 ^ 63)
  else sent bd = out ++ next /\ zlen out = bd.(bd_filter).(content_length_n).

(** The filter's state before the first byte. *)
Lemma init_sends cf bd out next :
  fresh cf bd -> sends cf bd out next -> bd.(bd_filter).(rest) = -1 ->
  exists fs, filter_init cf bd.(bd_filter) = (true, fs) /\
    filter_conf_ok cf fs /\ no_oom fs.(calls) /\ conf_body cf fs (sent bd) out next /\ 0 <= fs.(rest) <= zlen (sent bd) - zlen next /\
    (fs.(rest) = 0 -> out = [] /\ sent bd = next).
Proof.
  intros [] Hs Hr. unfold sends, filter_init, filter_conf_ok, conf_body, chunked_init, length_init in *. rewrite Hr.
  destruct (cf_chunked cf).
  - destruct (no_oom_call bd.(bd_filter) fr_calls0) as (a & E & Ha').
    destruct Hs as (H1 & H2 & H3). assert (Hok : chunk_ok sw_chunk_start 0) by (split; [lia|done]).
    pose proof (read_needs _ _ _ _ _ Hok H1) as Hn. cbn in Hn.
    eexists. split; [rewrite E; reflexivity|]. cbn. split; [by split|]. split; [done|]. split; [done|]. split; [lia|done].
  - destruct Hs as [H1 H2]. eexists. split; [reflexivity|]. cbn. unfold length_ok, length_body. cbn.
    pose proof (zlen_nonneg out). rewrite H1, zlen_app. split; [lia|]. split; [done|]. split; [done|]. split; [lia|].
    intros Hz. assert (zlen out = 0) as ->%zlen_0_nil by lia. done.
Qed.

Lemma read_rest_ok cf bd preread out next :
  0 <= preread -> 0 < cf.(cf_buffer_size) -> no_oom bd.(bd_filter).(calls) -> bd.(bd_file) = None ->
  Forall (part_ok (NetBuf BodyMem 0 0 0 0)) bd.(bd_bufs) ->
  0 <= bd.(bd_filter).(rest) ->
  (bd.(bd_filter).(rest) = 0 -> bufs_bytes bd = out /\ sent bd = next) ->
  (0 < bd.(bd_filter).(rest) -> filter_conf_ok cf bd.(bd_filter) /\ bd.(bd_header_in).(b_pos) = bd.(bd_header_in).(b_last) /\
     bd.(bd_filter).(rest) <= zlen bd.(bd_stream) - zlen next /\
     exists out', out = bufs_bytes bd ++ out' /\ conf_body cf bd.(bd_filter) bd.(bd_stream) out' next) ->
  match read_rest cf preread bd with
  | Finished rc bd' => delivered out next rc bd'
  | Reading bd' => waiting (filter_conf_ok cf) (conf_body cf) out next bd' /\ bd'.(bd_stream) = bd.(bd_stream)
  end.
Proof.
  intros Hpre Hbs Ha Hf Hp Hr H0 H1. unfold read_rest. destruct (Z.eqb_spec bd.(bd_filter).(rest) 0) as [E|E].
  - destruct (H0 E) as [Hc Hn]. destruct (cf_in_file_only cf); [|done].
    destruct (finish_file_ok bd _ Ha Hp) as (bd' & -> & Hc' & Hm & Hh & Hs). unfold delivered, sent in *.
    rewrite Hc', Hm, Hh, Hs. unfold content. rewrite Hf. done.
  - rewrite (proj2 (Z.ltb_ge _ _)) by lia. destruct (H1 ltac:(lia)) as (Hok & Hh & Hen & out' & -> & Hb).
    destruct (no_oom_call_bd bd Ha) as (a & -> & Ha'). cbn [negb]. split; [|done]. split; [|cbn; lia].
    constructor; cbn; try done; try lia.
    + by apply (ok_calls (FilterLaws := conf_filter_laws cf)).
    + unfold netbuf_ok. cbn. pose proof (zlen_nonneg (bd.(bd_mem) BodyMem)).
      destruct (negb _ && _), (cf_in_single_buf cf); lia.
    + exists out'. unfold content, bufs_bytes. cbn. rewrite Hf. split; [done|].
      by apply (body_calls (FilterLaws := conf_filter_laws cf)).
Qed.

(** The outcome of the first call. *)
Definition started (cf : body_conf) (out next stream : list Z) (t : read_turn) : Prop :=
  match t with
  | Finished rc bd' => delivered out next rc bd'
  | Reading bd' => waiting (filter_conf_ok cf) (conf_body cf) out next bd' /\ bd'.(bd_stream) = stream
  end.

(** Without anything read after the header. *)
Lemma start_empty cf bd out next :
  fresh cf bd -> sends cf bd out next -> bd.(bd_filter).(rest) = -1 ->
  bd.(bd_header_in).(b_pos) = bd.(bd_header_in).(b_last) ->
  exists bd', ngx_http_request_body_filter cf bd None = Some (NGX_OK, bd', None) /\
    started cf out next bd.(bd_stream) (read_rest cf 0 bd').
Proof.
  intros Hf Hs Hr Hp. destruct (init_sends cf bd out next Hf Hs Hr) as (fs & Ei & Hok & Hc & Hb & Hr' & Hr0).
  unfold ngx_http_request_body_filter. rewrite Ei. cbn [negb].
  destruct (save_ok (set_filter bd fs) [] Hc) as (a & -> & Ha). eexists. split; [reflexivity|].
  assert (Esent : sent bd = bd.(bd_stream)) by (unfold sent; by rewrite Hp, sub_empty).
  rewrite Esent in *. destruct Hf. set (bd' := set_bufs _ _).
  assert (Hx : bufs_bytes bd' = []) by (unfold bufs_bytes; cbn; by rewrite fr_bufs0).
  apply (read_rest_ok cf bd' 0 out next); cbn; try done; try lia.
  - rewrite fr_bufs0. constructor.
  - intros E0. destruct (Hr0 E0) as [-> <-]. split; [done|]. unfold sent. cbn. by rewrite Hp, sub_empty.
  - intros E0. split; [by apply (ok_calls (FilterLaws := conf_filter_laws cf))|]. split; [done|]. split; [lia|].
    exists out. split; [exact (f_equal (fun l => l ++ out) (eq_sym Hx))|].
    by apply (body_calls (FilterLaws := conf_filter_laws cf)).
Qed.

(** The filter on what was read after the header. *)
Lemma start_preread cf bd out next :
  fresh cf bd -> sends cf bd out next -> bd.(bd_filter).(rest) = -1 ->
  exists bd' pos', ngx_http_request_body_filter cf bd (Some bd.(bd_header_in)) =
      Some (NGX_OK, bd', Some (b_set_pos bd.(bd_header_in) pos')) /\
    bd'.(bd_mem) = bd.(bd_mem) /\ bd'.(bd_stream) = bd.(bd_stream) /\ bd'.(bd_file) = None /\ no_oom bd'.(bd_filter).(calls) /\
    0 <= bd'.(bd_filter).(rest) /\
    Forall (fun p => exists i j lb, p = MemPart HeaderMem i j lb /\ 0 <= i <= j /\ j <= bd.(bd_header_in).(b_last)) bd'.(bd_bufs) /\
    ((bd'.(bd_filter).(rest) = 0 /\ bufs_bytes bd' = out /\
        sub (bd.(bd_mem) HeaderMem) pos' bd.(bd_header_in).(b_last) ++ bd.(bd_stream) = next) \/
     (0 < bd'.(bd_filter).(rest) /\ filter_conf_ok cf bd'.(bd_filter) /\ pos' = bd.(bd_header_in).(b_last) /\
        bd'.(bd_filter).(rest) <= zlen bd.(bd_stream) - zlen next /\
        exists out', out = bufs_bytes bd' ++ out' /\ conf_body cf bd'.(bd_filter) bd.(bd_stream) out' next)).
Proof.
  intros Hf Hs Hr. destruct (init_sends cf bd out next Hf Hs Hr) as (fs & Ei & Hok & Hc & Hb & _ & _).
  destruct Hf. destruct fr_bounds0 as (B1 & B2 & B3). unfold ngx_http_request_body_filter. rewrite Ei. cbn [negb].
  set (h := bd.(bd_header_in)) in *. cbn [set_filter bd_mem]. rewrite fr_header0.
  destruct (filter_reads (FilterLaws := conf_filter_laws cf) fs (bd.(bd_mem) HeaderMem) (b_pos h) (b_last h) bd.(bd_stream) out next Hok Hc B1 B3 Hb)
    as (fs' & pos' & rs & -> & Ha' & Hpos & Hrs & Hres). cbn [Z.eqb].
  match goal with |- context [ngx_http_request_body_save_filter ?x ?l] => destruct (save_ok x l Ha') as (a2 & -> & Ha2) end.
  do 2 eexists. split; [reflexivity|]. cbn. rewrite fr_bufs0. split; [done|]. split; [done|]. split; [done|]. split; [done|].
  assert (Hbytes : forall f, concat (map (part_bytes bd.(bd_mem) f) (map (as_part HeaderMem) rs)) = ranges_bytes (bd.(bd_mem) HeaderMem) rs).
  { intros f. unfold ranges_bytes. by rewrite map_map. }
  split; [destruct Hres as [(? & _)|(_ & ? & _)]; lia|]. split.
  { cbn. apply Forall_map. eapply Forall_impl; [exact Hrs|]. intros [[i j] lb] Hij. exists i, j, lb. done. }
  unfold bufs_bytes. cbn. rewrite Hbytes. destruct Hres as [H|(H1 & H2 & H3 & H4 & out' & H5 & H6)]; [by left|right].
  split; [done|]. split; [by apply (ok_calls (FilterLaws := conf_filter_laws cf))|]. split; [done|]. split; [done|].
  exists out'. split; [done|]. by apply (body_calls (FilterLaws := conf_filter_laws cf)).
Qed.

Lemma start_ok cf bd out next :
  fresh cf bd -> sends cf bd out next ->
  exists t, ngx_http_read_client_request_body cf bd = Some t /\ started cf out next bd.(bd_stream) t.
Proof.
  intros Hf Hs. unfold ngx_http_read_client_request_body.
  destruct (no_oom_call_bd bd (fr_calls _ _ Hf)) as (a & -> & Ha). cbn [negb].
  destruct (no_oom_call_bd (set_filter bd (set_calls bd.(bd_filter) a)) Ha) as (a1 & -> & Ha1). cbn [negb].
  set (bd0 := set_filter _ (set_rest _ (-1))).
  assert (Hf0 : fresh cf bd0) by (destruct Hf; by constructor).
  assert (Hs0 : sends cf bd0 out next) by exact Hs.
  assert (Hr : bd0.(bd_filter).(rest) = -1) by done. change bd.(bd_stream) with bd0.(bd_stream).
  clearbody bd0. clear bd Hf Hs a a1 Ha Ha1.
  replace ((bd0.(bd_filter).(content_length_n) <? 0) && negb (cf_chunked cf)) with false.
  2: { unfold sends in Hs0. destruct (cf_chunked cf); [by rewrite andb_false_r|].
       destruct Hs0 as [_ <-]. rewrite (proj2 (Z.ltb_ge _ _)) by apply zlen_nonneg. done. }
  set (h := bd0.(bd_header_in)) in *. pose proof (fr_bounds _ _ Hf0) as (B1 & B2 & B3). fold h in B1, B2, B3.
  destruct (Z.eqb_spec (b_last h - b_pos h) 0) as [Ep|Ep].
  - destruct (start_empty cf bd0 out next Hf0 Hs0 Hr) as (bd' & -> & Hst); [fold h; lia|]. cbn [Z.eqb].
    rewrite Ep. by eexists.
  - destruct (start_preread cf bd0 out next Hf0 Hs0 Hr) as (bd' & pos' & E & Em & Es & Efi & Hc & Hr0 & Hp & Hres).
    fold h in E. rewrite E. cbn [Z.eqb negb b_set_pos b_last b_pos b_end].
    set (bd1 := add_request_length _ _). fold h in Hp, Hres.
    assert (Hbody : Forall (part_ok (NetBuf BodyMem 0 0 0 0)) bd1.(bd_bufs)).
    { eapply Forall_impl; [exact Hp|]. intros p (i & j & lb & -> & ? & ?). cbn. split; [lia|done]. }
    destruct (negb (cf_chunked cf) && _ && _) eqn:Efit.
    + apply andb_prop in Efit as [[_ Hpos%Z.ltb_lt]%andb_prop Hfit%Z.leb_le].
      change (bd1.(bd_filter)) with bd'.(bd_filter) in Hpos, Hfit.
      destruct Hres as [(? & _)|(_ & Hok & -> & Hen & out' & -> & Hb)]; [lia|].
      destruct (no_oom_call_bd bd1 Hc) as (a & -> & Ha). cbn [negb]. eexists. split; [reflexivity|]. split; [|done].
      split; [|cbn; lia]. constructor; cbn; try done; try lia.
      * by apply (ok_calls (FilterLaws := conf_filter_laws cf)).
      * unfold netbuf_ok. cbn. rewrite Em. lia.
      * eapply Forall_impl; [exact Hp|]. intros p (i & j & lb & -> & ? & ?). cbn. split; [lia|]. intros _. lia.
      * unfold unfiltered. cbn. rewrite sub_empty, Es. change (zlen (@nil Z)) with 0. lia.
      * exists out'. unfold content, bufs_bytes, unfiltered. cbn. rewrite Efi, sub_empty, Es. split; [done|].
        by apply (body_calls (FilterLaws := conf_filter_laws cf)).
    + eexists. split; [reflexivity|]. rewrite <- Es. apply (read_rest_ok cf bd1); try done; try lia.
      * apply Hf0.
      * intros E0. destruct Hres as [(_ & Hout & Hn)|(? & _)]; [|cbn in E0; lia]. split; [done|]. unfold sent. cbn.
        by rewrite Em, Es.
      * intros E0. destruct Hres as [(? & _)|(_ & Hok & -> & Hen & out' & Ho & Hb)]; [cbn in E0; lia|].
        split; [done|]. split; [done|]. cbn. rewrite Es. split; [done|]. by exists out'.
Qed.

(** ** Properties *)

Definition arrivals (events : list recv_event) : Z := foldr Z.add 0 (map arrives events).

(** The whole reading, by the lemmas on its parts. *)
Lemma receive_body_ok cf bd events out next :
  fresh cf bd -> sends cf bd out next -> Forall works events ->
  exists t, receive_body cf bd events = Some t /\
    match t with
    | Finished rc bd' => rc = NGX_OK /\ bufs_bytes bd' = out /\ sent bd' = next
    | Reading _ => arrivals events < zlen bd.(bd_stream)
    end.
Proof.
  intros Hf Hs Hev. unfold receive_body. destruct (start_ok cf bd out next Hf Hs) as (t & -> & Ht).
  destruct t as [rc bd'|bd']; [by exists (Finished rc bd')|]. destruct Ht as [Hw Hst].
  destruct (events_deliver cf (filter_conf_ok cf) (conf_body cf) (conf_filter_laws cf) out next events bd' Hw Hev) as (t & -> & Ht).
  exists t. split; [done|]. destruct t as [rc bd2|bd2]; [done|]. destruct Ht as [[Hrd Hlt] Hsum].
  pose proof (rd_enough _ _ _ _ _ Hrd) as Hen. rewrite (pending_length bd2) in Hen by apply Hrd.
  pose proof (zlen_nonneg next). unfold arrivals. rewrite <- Hst. lia.
Qed.

(** C11: a body is received as it was sent. For a body of a given length or in
    chunks, however much of it was read with the header and in whatever pieces
    the rest arrives, no step of the reading fails; it ends at the latest when as
    many receives brought bytes as were left to send, and then the buffers and
    the temporary file hold exactly the body, and exactly what the client sent
    after it is still to be read. *)
Theorem body_received cf bd events out next :
  fresh cf bd -> sends cf bd out next -> Forall works events ->
  exists t, receive_body cf bd events = Some t /\
    match t with
    | Finished rc bd' => rc = NGX_OK /\ bufs_bytes bd' = out /\ sent bd' = next
    | Reading _ => arrivals events < zlen bd.(bd_stream)
    end.
Proof. apply receive_body_ok. Qed.

(** A request with [pre] read after the header, of which [stream] is to come. *)
Definition posted (pre stream : list Z) (content_length : Z) : body :=
  Body (fun m => match m with HeaderMem => pre | BodyMem => [] end) (FilterState 0 content_length new_chunked []) [] None
    (NetBuf HeaderMem 0 0 (zlen pre) (zlen pre)) (NetBuf BodyMem 0 0 0 0) stream 0.

Lemma body_received_witness :
  let cf := BodyConf true 100 4 false false in
  let bd := posted (lit "5" ++ [CR; LF] ++ lit "he") (lit "llo" ++ [CR; LF] ++ lit "0" ++ [CR; LF; CR; LF] ++ lit "GET") (-1) in
  exists bd', receive_body cf bd [RecvSome 2; RecvAgain; RecvSome 9; RecvSome 9; RecvSome 9; RecvSome 9] = Some (Finished NGX_OK bd') /\
    bufs_bytes bd' = lit "hello" /\ sent bd' = lit "GET".
Proof.
  destruct (body_received (BodyConf true 100 4 false false)
    (posted (lit "5" ++ [CR; LF] ++ lit "he") (lit "llo" ++ [CR; LF] ++ lit "0" ++ [CR; LF; CR; LF] ++ lit "GET") (-1))
    [RecvSome 2; RecvAgain; RecvSome 9; RecvSome 9; RecvSome 9; RecvSome 9] (lit "hello") (lit "GET")) as (t & E & H).
  - constructor; try done; cbn; try lia. constructor.
  - split; [vm_compute; reflexivity|]. split; [vm_compute; reflexivity|]. right. split; [vm_compute; discriminate|reflexivity].
  - repeat constructor.
  - destruct t as [rc bd'|bd'].
    + exists bd'. destruct H as (-> & H1 & H2). split; [exact E|exact (conj H1 H2)].
    + exfalso. vm_compute in E. discriminate.
Defined.

(** A body in the grammar of chunked bodies is received whole, however it is
    cut: the data of its chunks, in order, without sizes, extensions and trailer;
    if line feeds alone end no size line, and the data is within the limit. *)
Theorem chunked_body_received cf bd events b next :
  fresh cf bd -> cf.(cf_chunked) = true -> body_wf b -> sent bd = chunked_bytes b ++ next ->
  sizes_ended sw_chunk_start 0 (sent bd) = true ->
  (cf.(cf_max_body_size) = 0 \/ zlen (body_data b) <= cf.(cf_max_body_size) < 2 ^ 63) ->
  Forall works events -> zlen bd.(bd_stream) <= arrivals events ->
  exists bd', receive_body cf bd events = Some (Finished NGX_OK bd') /\ bufs_bytes bd' = body_data b /\ sent bd' = next.
Proof.
  intros Hf Hc Hb Hs He Hm Hw Ha. assert (Hsend : sends cf bd (body_data b) next).
  { unfold sends. rewrite Hc. split; [|done]. rewrite Hs. by apply read_body_grammar. }
  destruct (receive_body_ok cf bd events _ _ Hf Hsend Hw) as (t & -> & Ht).
  destruct t as [rc bd'|bd']; [destruct Ht as (-> & Ht); by exists bd'|lia].
Qed.

Lemma chunked_body_received_witness :
  let b := ChunkedBody [Chunk (lit "3") [] true (lit "foo") true; Chunk (lit "0B") (lit ";x") true (lit "hello world") true]
             (lit "0") [] true [(lit "X: y", true)] true in
  let bd := posted [] (chunked_bytes b ++ lit "GET") (-1) in
  exists bd', receive_body (BodyConf true 0 16 true false) bd (replicate 60 (RecvSome 7)) = Some (Finished NGX_OK bd') /\
    bufs_bytes bd' = lit "foohello world" /\ sent bd' = lit "GET".
Proof.
  intros b bd. apply (chunked_body_received (BodyConf true 0 16 true false) bd (replicate 60 (RecvSome 7)) b (lit "GET")).
  - constructor; try done; cbn; try lia. constructor.
  - reflexivity.
  - split; [|by repeat constructor].
    repeat (apply Forall_cons; split); try apply Forall_nil; try done;
      (split; [done|split; [vm_compute; reflexivity|split; [split; reflexivity|]]]); try done.
    split; [by left|]. by repeat constructor.
  - vm_compute. reflexivity.
  - vm_compute. reflexivity.
  - by left.
  - repeat constructor.
  - vm_compute. discriminate.
Defined.

(** The limit on the size of a body can be passed by. The sum of what was
    received and the announced size of a chunk is compared with the limit in
    signed 64-bit arithmetic: with a limit of ten bytes a chunk that announces
    100 bytes is refused, but after eight bytes a chunk that announces
    [7ffffffffffffff8] is accepted, as the sum is negative, and its data too. *)
Theorem body_limit_wraps :
  let run text := receive_body (BodyConf true 10 64 false false) (posted text [] (-1)) [] in
  let first := lit "8" ++ [LF] ++ lit "abcdefgh" ++ [LF] in
  (exists bd, run (first ++ lit "64" ++ [LF] ++ lit "more than ten bytes") =
     Some (Finished NGX_HTTP_REQUEST_ENTITY_TOO_LARGE bd)) /\
  (exists bd, run (first ++ lit "7ffffffffffffff8" ++ [LF] ++ lit "more than ten bytes") = Some (Reading bd) /\
     bufs_bytes bd = lit "abcdefghmore than ten bytes").
Proof.
  split; [eexists; vm_compute; reflexivity|]. eexists. split; vm_compute; reflexivity.
Qed.

(** A body that has arrived whole may be waited for. When the first digit of
    the size was read with the header and line feeds alone end the lines, the
    server asks for a byte more than the body has: after all of it was received
    the reading has not ended, and the same bytes ended with the header are a
    complete body. *)
Theorem complete_body_waits :
  let cf := BodyConf true 0 64 false false in
  let rest_of := [LF] ++ lit "x" ++ [LF; 48; LF; LF] in
  (exists bd, receive_body cf (posted (lit "1") rest_of (-1)) [RecvSome 6; RecvAgain] = Some (Reading bd) /\ bd.(bd_stream) = []) /\
  (exists bd, receive_body cf (posted (lit "1" ++ rest_of) [] (-1)) [] = Some (Finished NGX_OK bd) /\ bufs_bytes bd = lit "x").
Proof.
  split; (eexists; split; vm_compute; reflexivity).
Qed.
