(* ===== verification/HttpHeader.v ===== *)
(** * Header lines ([ngx_http_parse.c], [ngx_http_request.c])

    [ngx_http_parse_header_line] and the loop of
    [ngx_http_process_request_headers] that makes the list of a request's
    headers.  Pointers into the buffer are offsets, as for the request line. *)

From S2P Require Import Prelude NgxCompare NgxHash HttpRequest.

(** ** The parser *)

Abbreviation NGX_HTTP_LC_HEADER_LEN := 32 (only parsing).

(** The characters of a header name in lower case, zero for any other. *)
Definition lowcase : list Z :=
  replicate 32 0 ++ replicate 13 0 ++ lit "-" ++ [0; 0] ++ lit "0123456789" ++ replicate 6 0 ++
  [0] ++ lit "abcdefghijklmnopqrstuvwxyz" ++ replicate 5 0 ++
  [0] ++ lit "abcdefghijklmnopqrstuvwxyz" ++ replicate 5 0 ++ replicate 128 0.

Definition lowcase_of (ch : Z) : Z := nth (Z.to_nat ch) lowcase 0.

Inductive hl_state :=
  | sw_start | sw_name | sw_space_before_value | sw_value | sw_space_after_value | sw_ignore_line
  | sw_almost_done | sw_header_almost_done.

(** The fields of the request for its header lines; [header_hash] and
    [lowcase_index] are kept in local variables during a call. *)
Record hdr := Hdr {
  header_hash : Z;
  lowcase_index : Z;
  lowcase_header : list Z;
  header_name_start : option Z;
  header_name_end : option Z;
  header_start : option Z;
  header_end : option Z;
  invalid_header : bool;
}.

Definition set_hash (h : hdr) (hash i : Z) : hdr :=
  Hdr hash i h.(lowcase_header) h.(header_name_start) h.(header_name_end) h.(header_start) h.(header_end) h.(invalid_header).
Definition set_name_start (h : hdr) (p : Z) : hdr :=
  Hdr h.(header_hash) h.(lowcase_index) h.(lowcase_header) (Some p) h.(header_name_end) h.(header_start) h.(header_end) false.
Definition set_name_end (h : hdr) (p : Z) : hdr :=
  Hdr h.(header_hash) h.(lowcase_index) h.(lowcase_header) h.(header_name_start) (Some p) h.(header_start) h.(header_end) h.(invalid_header).
Definition set_value_start (h : hdr) (p : Z) : hdr :=
  Hdr h.(header_hash) h.(lowcase_index) h.(lowcase_header) h.(header_name_start) h.(header_name_end) (Some p) h.(header_end) h.(invalid_header).
Definition set_value_end (h : hdr) (p : Z) : hdr :=
  Hdr h.(header_hash) h.(lowcase_index) h.(lowcase_header) h.(header_name_start) h.(header_name_end) h.(header_start) (Some p) h.(invalid_header).
Definition set_invalid (h : hdr) : hdr :=
  Hdr h.(header_hash) h.(lowcase_index) h.(lowcase_header) h.(header_name_start) h.(header_name_end) h.(header_start) h.(header_end) true.

(** A character of the name: into the hash and, at [i], into the lower-case
    copy, whose index wraps around. *)
Definition first_char (h : hdr) (c : Z) : hdr :=
  Hdr (ngx_hash 0 c) 1 (<[0%nat := c]> h.(lowcase_header)) h.(header_name_start) h.(header_name_end) h.(header_start)
    h.(header_end) h.(invalid_header).

Definition add_char (h : hdr) (c : Z) : hdr :=
  Hdr (ngx_hash h.(header_hash) c) (Z.land (h.(lowcase_index) + 1) (NGX_HTTP_LC_HEADER_LEN - 1))
    (<[Z.to_nat h.(lowcase_index) := c]> h.(lowcase_header)) h.(header_name_start) h.(header_name_end) h.(header_start)
    h.(header_end) h.(invalid_header).

(** A character read: the next state, [goto done], [goto header_done] or a
    return. *)
Inductive hl_outcome :=
  | HNext (st : hl_state) (h : hdr)
  | HDone (h : hdr)
  | HHeaderDone (h : hdr)
  | HFail (h : hdr).

Section header_line.
Context (mem : list Z) (upstream allow_underscores : bool).

Definition hl_step (p ch : Z) (st : hl_state) (h : hdr) : hl_outcome :=
  match st with
  | sw_start =>
      let h := set_name_start h p in
      if ch =? CR then HNext sw_header_almost_done (set_value_end h p)
      else if ch =? LF then HHeaderDone (set_value_end h p)
      else if negb (lowcase_of ch =? 0) then HNext sw_name (first_char h (lowcase_of ch))
      else if ch =? NUL then HFail h
      else HNext sw_name (set_invalid h)
  | sw_name =>
      if negb (lowcase_of ch =? 0) then HNext sw_name (add_char h (lowcase_of ch))
      else if ch =? 95 then
        HNext sw_name (if allow_underscores then add_char h ch else set_invalid h)
      else if ch =? COLON then HNext sw_space_before_value (set_name_end h p)
      else if ch =? CR then HNext sw_almost_done (set_value_end (set_value_start (set_name_end h p) p) p)
      else if ch =? LF then HDone (set_value_end (set_value_start (set_name_end h p) p) p)
      else if (ch =? SLASH) && upstream &&
              match h.(header_name_start) with
              | Some s => (p - s =? 4) && beq (sub mem s p) (lit "HTTP")
              | None => false
              end
      then HNext sw_ignore_line h
      else if ch =? NUL then HFail h
      else HNext sw_name (set_invalid h)
  | sw_space_before_value =>
      if ch =? SP then HNext sw_space_before_value h
      else if ch =? CR then HNext sw_almost_done (set_value_end (set_value_start h p) p)
      else if ch =? LF then HDone (set_value_end (set_value_start h p) p)
      else if ch =? NUL then HFail h
      else HNext sw_value (set_value_start h p)
  | sw_value =>
      if ch =? SP then HNext sw_space_after_value (set_value_end h p)
      else if ch =? CR then HNext sw_almost_done (set_value_end h p)
      else if ch =? LF then HDone (set_value_end h p)
      else if ch =? NUL then HFail h
      else HNext sw_value h
  | sw_space_after_value =>
      if ch =? SP then HNext sw_space_after_value h
      else if ch =? CR then HNext sw_almost_done h
      else if ch =? LF then HDone h
      else if ch =? NUL then HFail h
      else HNext sw_value h
  | sw_ignore_line => HNext (if ch =? LF then sw_start else sw_ignore_line) h
  | sw_almost_done =>
      if ch =? LF then HDone h
      else if ch =? CR then HNext sw_almost_done h
      else HFail h
  | sw_header_almost_done => if ch =? LF then HHeaderDone h else HFail h
  end.

(** What a call leaves: the code, the fields, [r->state] and [b->pos]. *)
Record hl_result := HlResult {
  hl_code : Z;
  hl_hdr : hdr;
  hl_st : hl_state;
  hl_pos : Z;
}.

(** [hash0] and [i0] are what [header_hash] and [lowcase_index] were: the end of
    the header and an error leave them.  The state and position are the local
    variables [state] and [p] where the loop is left. *)
Fixpoint hl_loop (hash0 i0 : Z) (input : list Z) (p : Z) (st : hl_state) (h : hdr) : hl_result :=
  match input with
  | [] => HlResult NGX_AGAIN h st p
  | ch :: input' =>
      match hl_step p ch st h with
      | HNext st h => hl_loop hash0 i0 input' (p + 1) st h
      | HDone h => HlResult NGX_OK h sw_start (p + 1)
      | HHeaderDone h => HlResult NGX_HTTP_PARSE_HEADER_DONE (set_hash h hash0 i0) sw_start (p + 1)
      | HFail h => HlResult NGX_HTTP_PARSE_INVALID_HEADER (set_hash h hash0 i0) st p
      end
  end.

(** An error returns from inside the loop: [b->pos] and [r->state] are what they
    were at the call. *)
Definition hl_stored (pos : Z) (st : hl_state) (res : hl_result) : hl_result :=
  if res.(hl_code) =? NGX_HTTP_PARSE_INVALID_HEADER then HlResult res.(hl_code) res.(hl_hdr) st pos else res.

Definition ngx_http_parse_header_line (pos last : Z) (st : hl_state) (h : hdr) : hl_result :=
  hl_stored pos st (hl_loop h.(header_hash) h.(lowcase_index) (sub mem pos last) pos st h).

Lemma header_line_loop pos last st h :
  (ngx_http_parse_header_line pos last st h).(hl_code) = NGX_OK ->
  ngx_http_parse_header_line pos last st h = hl_loop h.(header_hash) h.(lowcase_index) (sub mem pos last) pos st h.
Proof.
  unfold ngx_http_parse_header_line, hl_stored. set (res := hl_loop _ _ _ _ _ _).
  destruct (Z.eqb_spec res.(hl_code) NGX_HTTP_PARSE_INVALID_HEADER) as [E|_]; [|done]. cbn. by rewrite E.
Qed.
End header_line.

(** ** The headers of a request *)

(** [ngx_table_elt_t]. *)
Record table_elt := TableElt {
  elt_hash : Z;
  elt_key : list Z;
  elt_value : list Z;
  elt_lowcase_key : list Z;
}.

Definition ptr (o : option Z) : Z := match o with Some p => p | None => 0 end.

(** The element made of a parsed line. *)
Definition header_elt (mem : list Z) (h : hdr) : table_elt :=
  let key := sub mem (ptr h.(header_name_start)) (ptr h.(header_name_end)) in
  let value := sub mem (ptr h.(header_start)) (ptr h.(header_end)) in
  TableElt h.(header_hash) key value
    (if zlen key =? h.(lowcase_index) then take (length key) h.(lowcase_header) else ngx_strlow key (length key)).

(** What a request keeps of its headers: [headers_in.headers],
    [request_length], and the rest of the request, which the handlers of the
    known headers change. *)
Record header_state (R : Type) := HeaderState {
  hs_headers : list table_elt;
  hs_length : Z;
  hs_request : R;
}.
Arguments HeaderState {R}.
Arguments hs_headers {R}.
Arguments hs_length {R}.
Arguments hs_request {R}.

(** The outcome of reading the headers: all of them, with the position after
    them; more input needed; a bad request; the request closed for want of
    memory; or refused by the handler of a header. *)
Inductive headers_result (R : Type) :=
  | HeadersDone (s : header_state R) (pos : Z)
  | HeadersMore (s : header_state R) (st : hl_state) (h : hdr)
  | HeadersBad
  | HeadersClosed (s : header_state R)
  | HeadersRefused (s : header_state R).
Arguments HeadersDone {R}.
Arguments HeadersMore {R}.
Arguments HeadersBad {R}.
Arguments HeadersClosed {R}.
Arguments HeadersRefused {R}.

Section headers.
(** The lookup in [headers_in_hash], by hash and lower-case name; a handler
    says whether the request goes on. *)
Context {R : Type} (headers_in_hash : Z -> list Z -> option (R -> table_elt -> R * bool)).

(** [r->request_length += r->header_in->pos - r->header_name_start]. *)
Definition add_length (s : header_state R) (h : hdr) (pos : Z) : header_state R :=
  HeaderState s.(hs_headers) (s.(hs_length) + (pos - ptr h.(header_name_start))) s.(hs_request).

(** A parsed line: into the list of headers and to the handler of its name.
    The NULs put behind name and value, over bytes already parsed, are left
    out: names and values are values here. *)
Definition add_header (mem : list Z) (h : hdr) (a : allocs) (s : header_state R) :
    headers_result R + allocs * header_state R :=
  let '(ok, a) := alloc a in
  if negb ok then inl (HeadersClosed s)
  else
    let elt := header_elt mem h in
    let s := HeaderState (s.(hs_headers) ++ [elt]) s.(hs_length) s.(hs_request) in
    let '(ok, a) := alloc a in
    if negb ok then inl (HeadersClosed s)
    else
      match headers_in_hash elt.(elt_hash) elt.(elt_lowcase_key) with
      | None => inr (a, s)
      | Some handler =>
          let '(r, ok) := handler s.(hs_request) elt in
          let s := HeaderState s.(hs_headers) s.(hs_length) r in
          if ok then inr (a, s) else inl (HeadersRefused s)
      end.

(** The loop of [ngx_http_process_request_headers] on a buffer; each turn takes
    a byte at least. *)
Fixpoint process_request_headers (fuel : nat) (underscores ignore_invalid : bool) (mem : list Z) (pos : Z)
    (st : hl_state) (h : hdr) (a : allocs) (s : header_state R) : option (headers_result R) :=
  match fuel with
  | O => None
  | S fuel =>
      let res := ngx_http_parse_header_line mem false underscores pos (zlen mem) st h in
      let h := res.(hl_hdr) in
      if res.(hl_code) =? NGX_OK then
        let s := add_length s h res.(hl_pos) in
        if h.(invalid_header) && ignore_invalid then
          process_request_headers fuel underscores ignore_invalid mem res.(hl_pos) res.(hl_st) h a s
        else
          match add_header mem h a s with
          | inl stop => Some stop
          | inr (a, s) => process_request_headers fuel underscores ignore_invalid mem res.(hl_pos) res.(hl_st) h a s
          end
      else if res.(hl_code) =? NGX_HTTP_PARSE_HEADER_DONE then Some (HeadersDone (add_length s h res.(hl_pos)) res.(hl_pos))
      else if res.(hl_code) =? NGX_AGAIN then Some (HeadersMore s res.(hl_st) h)
      else Some HeadersBad
  end.

Definition new_hdr : hdr := Hdr 0 0 (replicate 32 0) None None None None false.

Definition read_headers (underscores ignore_invalid : bool) (mem : list Z) (a : allocs) (r : R) : option (headers_result R) :=
  process_request_headers (S (length mem)) underscores ignore_invalid mem 0 sw_start new_hdr a (HeaderState [] 0 r).
End headers.
