(* ===== verification/HttpHeaderSpec.v ===== *)
(** * Headers are read as they were sent

    Header lines with valid names give exactly their names and values, with the
    hash and the lower-case copy of the name the lookup of handlers relies on;
    what any accepted line gives is within the line and without line ends and
    NULs; and lines may arrive in pieces. *)

From S2P Require Import Prelude NgxCompare NgxHash HttpRequest HttpChunked HttpHeader.

(** ** Names *)

(** Characters of a valid name: letters, digits and minus, and underscores, if
    they are allowed, but in the first place. *)
Definition name_char (underscores : bool) (c : Z) : bool :=
  negb (lowcase_of c =? 0) || (underscores && (c =? 95)).

Definition valid_name (underscores : bool) (name : list Z) : Prop :=
  match name with
  | [] => False
  | c :: _ => lowcase_of c <> 0 /\ Forall (fun c => is_byte c /\ name_char underscores c = true) name
  end.

Lemma lowcase_tolower c : is_byte c -> lowcase_of c = 0 \/ lowcase_of c = ngx_tolower c.
Proof.
  intros Hc. apply (byte_forall (fun c => (lowcase_of c =? 0) || (lowcase_of c =? ngx_tolower c))) in Hc; [|vm_compute; done].
  apply orb_true_iff in Hc as [H|H]; apply Z.eqb_eq in H; auto.
Qed.

Lemma strlow_map l : ngx_strlow l (length l) = map ngx_tolower l.
Proof. induction l as [|c l IH]; [done|]. cbn. by rewrite IH. Qed.

(** What the parser knows of the name so far. *)
Record name_inv (h : hdr) (name : list Z) : Prop := {
  ni_hash : h.(header_hash) = ngx_hash_key_lc name;
  ni_length : length h.(lowcase_header) = 32%nat;
  ni_index : h.(lowcase_index) = zlen name mod 32;
  ni_copy : zlen name < 32 -> take (length name) h.(lowcase_header) = map ngx_tolower name;
}.

Lemma hash_snoc name c : ngx_hash_key_lc (name ++ [c]) = ngx_hash (ngx_hash_key_lc name) (ngx_tolower c).
Proof. unfold ngx_hash_key_lc. by rewrite foldl_app. Qed.

Lemma index_next n : 0 <= n -> Z.land (n mod 32 + 1) 31 = (n + 1) mod 32.
Proof.
  intros Hn. change 31 with (Z.ones 5). rewrite Z.land_ones by lia. change (2 ^ 5) with 32. by rewrite Zplus_mod_idemp_l.
Qed.

Lemma name_first h c : length h.(lowcase_header) = 32%nat -> name_inv (first_char h (ngx_tolower c)) [c].
Proof.
  intros Hl. constructor; cbn.
  - done.
  - by rewrite length_insert.
  - done.
  - intros _. destruct (lowcase_header h); done.
Qed.

Lemma name_next h name c : name_inv h name -> name_inv (add_char h (ngx_tolower c)) (name ++ [c]).
Proof.
  intros []. pose proof (zlen_nonneg name) as Hz. constructor; cbn.
  - by rewrite hash_snoc, ni_hash0.
  - by rewrite length_insert.
  - rewrite ni_index0, zlen_app, index_next by done. done.
  - rewrite zlen_app, length_app, map_app. change (zlen [c]) with 1. intros Hlt.
    rewrite ni_index0, Z.mod_small by lia. unfold zlen. rewrite Nat2Z.id. cbn [length map].
    rewrite Nat.add_1_r. rewrite (take_S_r _ _ (ngx_tolower c)).
    + rewrite take_insert_ge by lia. by rewrite ni_copy0 by lia.
    + apply list_lookup_insert_eq. unfold zlen in *. lia.
Qed.

(** The pointers are not touched. *)
Definition same_pointers (h h' : hdr) : Prop :=
  h'.(header_name_start) = h.(header_name_start) /\ h'.(invalid_header) = h.(invalid_header).

(** ** Runs of the parser *)

Section runs.
Context (mem : list Z) (upstream underscores : bool).

Definition hruns (p : Z) (st : hl_state) (h : hdr) (l : list Z) (st' : hl_state) (h' : hdr) : Prop :=
  forall hash0 i0 rest, hl_loop mem upstream underscores hash0 i0 (l ++ rest) p st h =
    hl_loop mem upstream underscores hash0 i0 rest (p + zlen l) st' h'.

Lemma hruns_nil p st h : hruns p st h [] st h.
Proof. intros hash0 i0 rest. cbn [app]. change (zlen (@nil Z)) with 0. by rewrite Z.add_0_r. Qed.

Lemma hruns_cons p ch st h l st1 h1 st2 h2 :
  hl_step mem upstream underscores p ch st h = HNext st1 h1 -> hruns (p + 1) st1 h1 l st2 h2 ->
  hruns p st h (ch :: l) st2 h2.
Proof.
  intros E H hash0 i0 rest. cbn [app hl_loop]. rewrite E, H, zlen_cons.
  by replace (p + 1 + zlen l) with (p + (1 + zlen l)) by lia.
Qed.

Lemma hruns_app p st h a st1 h1 b st2 h2 :
  hruns p st h a st1 h1 -> hruns (p + zlen a) st1 h1 b st2 h2 -> hruns p st h (a ++ b) st2 h2.
Proof.
  intros H1 H2 hash0 i0 rest. rewrite <- app_assoc, H1, H2, zlen_app.
  by replace (p + zlen a + zlen b) with (p + (zlen a + zlen b)) by lia.
Qed.

Lemma hruns_one p ch st h st1 h1 :
  hl_step mem upstream underscores p ch st h = HNext st1 h1 -> hruns p st h [ch] st1 h1.
Proof. intros E. eapply hruns_cons; [done|apply hruns_nil]. Qed.

(** The name after its first character. *)
Lemma hruns_name l : forall p h name,
  Forall (fun c => is_byte c /\ name_char underscores c = true) l -> name_inv h name ->
  exists h', hruns p sw_name h l sw_name h' /\ name_inv h' (name ++ l) /\ same_pointers h h'.
Proof.
  induction l as [|c l IH]; intros p h name Hl Hn.
  { exists h. rewrite app_nil_r. split; [apply hruns_nil|]. done. }
  apply Forall_cons in Hl as [[Hb Hc] Hl].
  destruct (IH (p + 1) (add_char h (ngx_tolower c)) (name ++ [c]) Hl) as (h' & R & Hn' & Hs); [by apply name_next|].
  exists h'. rewrite <- app_assoc in Hn'. split; [|done]. eapply hruns_cons; [|exact R]. cbn [hl_step].
  unfold name_char in Hc. destruct (Z.eqb_spec (lowcase_of c) 0) as [E|E]; cbn [negb orb] in *.
  - apply andb_prop in Hc as [-> ->%Z.eqb_eq]. done.
  - destruct (lowcase_tolower c Hb) as [? | ->]; done.
Qed.

Lemma hruns_spaces_before n : forall p h, hruns p sw_space_before_value h (replicate n SP) sw_space_before_value h.
Proof. induction n as [|n IH]; intros p h; [apply hruns_nil|]. by eapply hruns_cons. Qed.

Lemma hruns_spaces_after n : forall p h, hruns p sw_space_after_value h (replicate n SP) sw_space_after_value h.
Proof. induction n as [|n IH]; intros p h; [apply hruns_nil|]. by eapply hruns_cons. Qed.

Definition value_char (c : Z) : Prop := c <> CR /\ c <> LF /\ c <> NUL.

(** The value after its first character, with spaces inside; what matters is
    whether it ends in one. *)
Lemma hruns_value l : forall p h st,
  Forall value_char l -> st = sw_value \/ st = sw_space_after_value ->
  exists h' st', hruns p st h l st' h' /\ (h' = h \/ exists e, h' = set_value_end h e) /\
    (st' = match last l with None => st | Some c => if c =? SP then sw_space_after_value else sw_value end).
Proof.
  induction l as [|c l IH]; intros p h st Hl Hst.
  { exists h, st. split; [apply hruns_nil|]. split; [by left|done]. }
  apply Forall_cons in Hl as [(H1 & H2 & H3) Hl].
  pose (h1 := if (c =? SP) && match st with sw_value => true | _ => false end then set_value_end h p else h).
  pose (st1 := if c =? SP then sw_space_after_value else sw_value).
  assert (E : hl_step mem upstream underscores p c st h = HNext st1 h1).
  { unfold st1, h1. destruct Hst as [->| ->]; cbn [hl_step];
      rewrite (proj2 (Z.eqb_neq c CR)), (proj2 (Z.eqb_neq c LF)), (proj2 (Z.eqb_neq c NUL)) by done;
      by destruct (c =? SP). }
  destruct (IH (p + 1) h1 st1 Hl) as (h' & st' & R & Hh & Hs); [unfold st1; destruct (_ =? _); auto|].
  exists h', st'. split; [by eapply hruns_cons|]. split.
  - unfold h1 in Hh. destruct (_ && _); [|done]. right. destruct Hh as [->|[e ->]]; [by exists p|by exists e].
  - rewrite Hs. destruct l as [|c' l]; [done|]. change (last (c :: c' :: l)) with (last (c' :: l)).
    destruct (last (c' :: l)) eqn:El; [done|]. by apply last_None in El.
Qed.
End runs.

(** ** A header line *)

Record header := Header {
  hx_name : list Z;
  hx_before : nat;
  hx_value : list Z;
  hx_after : nat;
  hx_crlf : bool;
}.

(** The line a client may send for it, with spaces around the value. *)
Definition header_bytes (x : header) : list Z :=
  x.(hx_name) ++ [COLON] ++ replicate x.(hx_before) SP ++ x.(hx_value) ++ replicate x.(hx_after) SP ++ eol x.(hx_crlf).

Definition header_wf (underscores : bool) (x : header) : Prop :=
  valid_name underscores x.(hx_name) /\ Forall value_char x.(hx_value) /\
  head x.(hx_value) <> Some SP /\ last x.(hx_value) <> Some SP.

Definition header_of (x : header) : table_elt :=
  TableElt (ngx_hash_key_lc x.(hx_name)) x.(hx_name) x.(hx_value) (map ngx_tolower x.(hx_name)).

Section line.
Context (mem : list Z) (underscores : bool).

Abbreviation runs := (hruns mem false underscores).
Abbreviation loop := (hl_loop mem false underscores).

(** The end of the line. *)
Definition at_end (st : hl_state) (h : hdr) (p : Z) : hdr :=
  match st with
  | sw_space_before_value => set_value_end (set_value_start h p) p
  | sw_value => set_value_end h p
  | _ => h
  end.

Lemma loop_ends st h p crlf hash0 i0 post :
  st = sw_space_before_value \/ st = sw_value \/ st = sw_space_after_value ->
  loop hash0 i0 (eol crlf ++ post) p st h = HlResult NGX_OK (at_end st h p) sw_start (p + zlen (eol crlf)).
Proof.
  intros Hst. destruct crlf; cbn [eol app hl_loop].
  - change (zlen [CR; LF]) with 2. replace (p + 2) with (p + 1 + 1) by lia.
    destruct Hst as [->|[->| ->]]; reflexivity.
  - change (zlen [LF]) with 1. destruct Hst as [->|[->| ->]]; reflexivity.
Qed.

(** The value with the spaces around it: where it begins and ends. *)
Lemma loop_value before value after crlf h p hash0 i0 post :
  Forall value_char value -> head value <> Some SP -> last value <> Some SP ->
  exists h' vs, loop hash0 i0 (replicate before SP ++ value ++ replicate after SP ++ eol crlf ++ post) p sw_space_before_value h =
      HlResult NGX_OK h' sw_start (p + zlen (replicate before SP ++ value ++ replicate after SP ++ eol crlf)) /\
    h' = set_value_end (set_value_start h vs) (vs + zlen value) /\
    (value <> [] -> vs = p + Z.of_nat before).
Proof.
  intros Hv Hh Hl. destruct value as [|c v].
  - pose proof (hruns_spaces_before mem false underscores (before + after) p h) as R. rewrite replicate_add in R.
    eexists. exists (p + zlen (replicate before SP ++ replicate after SP)). split; [|split; [|done]].
    + cbn [app]. rewrite app_assoc, R, loop_ends by auto. rewrite !zlen_app. f_equal. lia.
    + cbn [at_end]. rewrite !zlen_app. f_equal. change (zlen (@nil Z)) with 0. lia.
  - apply Forall_cons in Hv as [(H1 & H2 & H3) Hv]. set (q := p + Z.of_nat before).
    destruct (hruns_value mem false underscores v (q + 1) (set_value_start h q) sw_value Hv) as (h1 & st1 & R & Hh1 & Hst1); [by left|].
    assert (st1 = sw_value) as ->.
    { rewrite Hst1. destruct v as [|c' v]; [done|]. change (last (c :: c' :: v)) with (last (c' :: v)) in Hl.
      destruct (last (c' :: v)) as [x|]; [|done]. by destruct (Z.eqb_spec x SP) as [->|]. }
    assert (R1 : runs p sw_space_before_value h (replicate before SP ++ c :: v) sw_value h1).
    { eapply hruns_app; [apply hruns_spaces_before|]. rewrite zlen_replicate. eapply hruns_cons; [|exact R].
      cbn [hl_step]. rewrite (proj2 (Z.eqb_neq c SP)), (proj2 (Z.eqb_neq c CR)), (proj2 (Z.eqb_neq c LF)),
        (proj2 (Z.eqb_neq c NUL)) by (try done; intros ->; done). done. }
    exists (set_value_end (set_value_start h q) (q + zlen (c :: v))), q. split; [|done].
    rewrite app_assoc, R1. replace (p + zlen (replicate before SP ++ c :: v)) with (q + zlen (c :: v))
      by (rewrite zlen_app, zlen_replicate; lia).
    assert (Eh : forall e, set_value_end h1 e = set_value_end (set_value_start h q) e) by (intros e; destruct Hh1 as [->|[? ->]]; done).
    destruct after as [|after]; cbn [replicate app].
    + rewrite loop_ends by auto. cbn [at_end]. rewrite Eh. f_equal. unfold q. autorewrite with ngx. lia.
    + change (hl_loop mem false underscores hash0 i0 (SP :: replicate after SP ++ eol crlf ++ post) (q + zlen (c :: v)) sw_value h1)
        with (hl_loop mem false underscores hash0 i0 (replicate after SP ++ eol crlf ++ post) (q + zlen (c :: v) + 1)
                sw_space_after_value (set_value_end h1 (q + zlen (c :: v)))).
      rewrite hruns_spaces_after, loop_ends by auto. cbn [at_end]. rewrite Eh.
      f_equal. unfold q. autorewrite with ngx. lia.
Qed.

(** The whole line. *)
Lemma loop_header x h p hash0 i0 post :
  header_wf underscores x -> length h.(lowcase_header) = 32%nat ->
  exists h' vs, loop hash0 i0 (header_bytes x ++ post) p sw_start h = HlResult NGX_OK h' sw_start (p + zlen (header_bytes x)) /\
    name_inv h' x.(hx_name) /\ h'.(invalid_header) = false /\
    h'.(header_name_start) = Some p /\ h'.(header_name_end) = Some (p + zlen x.(hx_name)) /\
    h'.(header_start) = Some vs /\ h'.(header_end) = Some (vs + zlen x.(hx_value)) /\
    (x.(hx_value) <> [] -> vs = p + zlen x.(hx_name) + 1 + Z.of_nat x.(hx_before)).
Proof.
  destruct x as [name before value after crlf]. unfold header_wf, header_bytes. cbn [hx_name hx_before hx_value hx_after hx_crlf].
  intros (Hn & Hv & Hh & Hlast) Hl. destruct name as [|c name]; [done|]. destruct Hn as [Hc Hn].
  apply Forall_cons in Hn as [[Hb _] Hn].
  pose (h1 := first_char (set_name_start h p) (ngx_tolower c)).
  destruct (hruns_name mem false underscores name (p + 1) h1 [c] Hn) as (h2 & R & Hn2 & Hp2); [by apply name_first|].
  set (q := p + zlen (c :: name)).
  assert (R1 : runs p sw_start h ((c :: name) ++ [COLON]) sw_space_before_value (set_name_end h2 q)).
  { eapply hruns_app; [eapply hruns_cons; [|exact R]|].
    - cbn [hl_step]. destruct (lowcase_tolower c Hb) as [?|E]; [done|]. rewrite E in *.
      rewrite (proj2 (Z.eqb_neq c CR)), (proj2 (Z.eqb_neq c LF)), (proj2 (Z.eqb_neq (ngx_tolower c) 0)); try done;
        intros ->; done.
    - apply hruns_one. done. }
  destruct (loop_value before value after crlf (set_name_end h2 q) (q + 1) hash0 i0 post Hv Hh Hlast) as (h' & vs & E & -> & Hvs).
  do 2 eexists. split.
  - rewrite !(app_assoc (c :: name)), <- app_assoc, R1.
    replace (p + zlen ((c :: name) ++ [COLON])) with (q + 1) by (rewrite zlen_app; change (zlen [COLON]) with 1; lia).
    rewrite <- !app_assoc, E. f_equal. rewrite !zlen_app. change (zlen [COLON]) with 1. lia.
  - destruct Hp2 as [P1 P2]. cbn. destruct Hn2. split; [by constructor|]. rewrite P1, P2. cbn. fold q. done.
Qed.
End line.

(** ** All headers *)

(** The element made of a line. *)
Lemma elt_of_line pre x post h' vs :
  name_inv h' x.(hx_name) -> h'.(header_name_start) = Some (zlen pre) ->
  h'.(header_name_end) = Some (zlen pre + zlen x.(hx_name)) -> h'.(header_start) = Some vs ->
  h'.(header_end) = Some (vs + zlen x.(hx_value)) ->
  (x.(hx_value) <> [] -> vs = zlen pre + zlen x.(hx_name) + 1 + Z.of_nat x.(hx_before)) ->
  header_elt (pre ++ header_bytes x ++ post) h' = header_of x.
Proof.
  intros [] E1 E2 E3 E4 Hvs. unfold header_elt, header_of. rewrite E1, E2, E3, E4. cbn [ptr].
  assert (Ename : sub (pre ++ header_bytes x ++ post) (zlen pre) (zlen pre + zlen x.(hx_name)) = x.(hx_name)).
  { unfold header_bytes. rewrite <- !app_assoc. apply sub_middle. }
  assert (Evalue : sub (pre ++ header_bytes x ++ post) vs (vs + zlen x.(hx_value)) = x.(hx_value)).
  { destruct (decide (x.(hx_value) = [])) as [E|Hne].
    - rewrite E. change (zlen (@nil Z)) with 0. rewrite Z.add_0_r. unfold sub. by rewrite Z.sub_diag.
    - rewrite (Hvs Hne). unfold header_bytes.
      pose proof (sub_middle (pre ++ x.(hx_name) ++ [COLON] ++ replicate x.(hx_before) SP) x.(hx_value)
        (replicate x.(hx_after) SP ++ eol x.(hx_crlf) ++ post)) as H.
      replace (zlen (pre ++ _)) with (zlen pre + zlen (hx_name x) + 1 + Z.of_nat (hx_before x)) in H by (autorewrite with ngx; lia).
      rewrite <- !app_assoc in *. exact H. }
  rewrite Ename, Evalue. f_equal; [done|]. rewrite ni_index0. destruct (Z.eqb_spec (zlen (hx_name x)) (zlen (hx_name x) mod 32)) as [E|E].
  - apply ni_copy0. rewrite E. apply Z.mod_pos_bound. lia.
  - apply strlow_map.
Qed.

Section handlers.
Context {R : Type} (headers_in_hash : Z -> list Z -> option (R -> table_elt -> R * bool)).

(** The handlers of the headers that have one, each in its turn; [None] when one
    refuses the request. *)
Fixpoint run_handlers (r : R) (elts : list table_elt) : option R :=
  match elts with
  | [] => Some r
  | elt :: elts =>
      match headers_in_hash elt.(elt_hash) elt.(elt_lowcase_key) with
      | None => run_handlers r elts
      | Some handler => let '(r, ok) := handler r elt in if ok then run_handlers r elts else None
      end
  end.

Lemma add_header_handled mem h a s elt elts r' :
  no_oom a -> header_elt mem h = elt -> run_handlers s.(hs_request) (elt :: elts) = Some r' ->
  exists a' r1, add_header headers_in_hash mem h a s = inr (a', HeaderState (s.(hs_headers) ++ [elt]) s.(hs_length) r1) /\
    no_oom a' /\ run_handlers r1 elts = Some r'.
Proof.
  intros Ha E H. destruct (no_oom_alloc a Ha) as (a1 & E1 & Ha1). destruct (no_oom_alloc a1 Ha1) as (a2 & E2 & Ha2).
  unfold add_header. rewrite E1. cbn [negb]. rewrite E2, E. cbn [negb run_handlers hs_request] in *.
  destruct (headers_in_hash _ _) as [handler|].
  - destruct (handler _ _) as [r1 []]; [|done]. by exists a2, r1.
  - by exists a2, s.(hs_request).
Qed.

Lemma process_headers underscores ignore xs : forall pre fuel h crlf post a s r',
  Forall (header_wf underscores) xs -> length h.(lowcase_header) = 32%nat -> (length xs < fuel)%nat ->
  no_oom a -> run_handlers s.(hs_request) (map header_of xs) = Some r' ->
  process_request_headers headers_in_hash fuel underscores ignore (pre ++ concat (map header_bytes xs) ++ eol crlf ++ post) (zlen pre) sw_start h a s =
    Some (HeadersDone (HeaderState (s.(hs_headers) ++ map header_of xs) (s.(hs_length) + zlen (concat (map header_bytes xs) ++ eol crlf)) r')
      (zlen pre + zlen (concat (map header_bytes xs) ++ eol crlf))).
Proof.
  induction xs as [|x xs IH]; intros pre fuel h crlf post a s r' Hwf Hl Hf Ha Hr; (destruct fuel as [|fuel]; [lia|]).
  - cbn [map concat app process_request_headers]. unfold ngx_http_parse_header_line. rewrite sub_tail, app_nil_r.
    cbn in Hr. injection Hr as <-. unfold add_length.
    destruct crlf; cbn -[zlen]; rewrite ?zlen_cons; change (zlen (@nil Z)) with 0; (do 2 f_equal; try lia; f_equal; lia).
  - apply Forall_cons in Hwf as [Hx Hwf]. cbn [map concat process_request_headers].
    set (mem := pre ++ _). unfold ngx_http_parse_header_line.
    assert (Em : mem = pre ++ header_bytes x ++ concat (map header_bytes xs) ++ eol crlf ++ post) by (unfold mem; by rewrite <- !app_assoc).
    replace (sub mem (zlen pre) (zlen mem)) with (header_bytes x ++ concat (map header_bytes xs) ++ eol crlf ++ post)
      by (rewrite Em; by rewrite sub_tail).
    destruct (loop_header mem underscores x h (zlen pre) (header_hash h) (lowcase_index h) (concat (map header_bytes xs) ++ eol crlf ++ post) Hx Hl)
      as (h' & vs & -> & Hn & Hi & E1 & E2 & E3 & E4 & Hvs).
    unfold hl_stored. cbn [hl_code hl_hdr hl_pos hl_st Z.eqb Pos.eqb]. rewrite Hi. cbn [andb].
    set (s1 := add_length s h' _).
    destruct (add_header_handled mem h' a s1 (header_of x) (map header_of xs) r' Ha) as (a' & r1 & -> & Ha' & Hr'); [|done|].
    { rewrite Em. by apply (elt_of_line pre x _ h' vs). }
    rewrite Em, (app_assoc pre).
    replace (zlen pre + zlen (header_bytes x)) with (zlen (pre ++ header_bytes x)) by apply zlen_app.
    cbn [length] in Hf. rewrite (IH _ _ _ _ _ _ _ r'); [|done|apply Hn|lia|done|done].
    unfold s1, add_length. rewrite E1. cbn [hs_headers hs_length ptr]. rewrite <- !app_assoc.
    f_equal. autorewrite with ngx. f_equal; [f_equal|]; lia.
Qed.
End handlers.

Lemma header_lines xs underscores : Forall (header_wf underscores) xs -> (length xs <= length (concat (map header_bytes xs)))%nat.
Proof.
  induction 1 as [|x xs Hx _ IH]; [done|]. cbn. rewrite length_app. unfold header_bytes at 1. rewrite length_app. cbn. lia.
Qed.

(** C14: the headers of a request are read as they were sent. For any list of
    header lines with valid names, spaces or none around the values and either
    kind of line end, the server makes exactly the list of their names and
    values and calls the handler of each known header, in order, unless memory
    runs out or a handler refuses the request; with each header goes the lower-case copy of its name and the hash of that,
    by which the handlers of known headers are found, even for names longer than
    the fixed buffer of the copy; and what comes after the empty line is left. *)
Theorem headers_read {R} (headers_in_hash : Z -> list Z -> option (R -> table_elt -> R * bool)) underscores ignore xs crlf post a r r' :
  Forall (header_wf underscores) xs -> no_oom a -> run_handlers headers_in_hash r (map header_of xs) = Some r' ->
  let text := concat (map header_bytes xs) ++ eol crlf in
  read_headers headers_in_hash underscores ignore (text ++ post) a r =
    Some (HeadersDone (HeaderState (map header_of xs) (zlen text) r') (zlen text)).
Proof.
  intros Hwf Ha Hr text. unfold read_headers, text. rewrite <- app_assoc.
  rewrite (process_headers headers_in_hash underscores ignore xs [] _ new_hdr crlf post a _ r'); [done|done|done| |done|done].
  pose proof (header_lines _ _ Hwf). rewrite length_app. lia.
Qed.

(** A handler of [host] that keeps the values it is given. *)
Definition host_handler (hash : Z) (key : list Z) : option (list (list Z) -> table_elt -> list (list Z) * bool) :=
  if (hash =? ngx_hash_key_lc (lit "host")) && beq key (lit "host")
  then Some (fun hosts h => (hosts ++ [h.(elt_value)], true)) else None.

Lemma headers_read_witness :
  let xs := [Header (lit "Host") 1 (lit "a b") 2 true; Header (lit "X-A-Very-Long-Header-Name_Of-More-Than-32-Characters") 0 [] 0 false] in
  read_headers host_handler true true (concat (map header_bytes xs) ++ eol true ++ lit "body") [] [] =
    Some (HeadersDone (HeaderState (map header_of xs) 69 [lit "a b"]) 69).
Proof.
  pose proof (headers_read host_handler true true [Header (lit "Host") 1 (lit "a b") 2 true;
    Header (lit "X-A-Very-Long-Header-Name_Of-More-Than-32-Characters") 0 [] 0 false] true (lit "body") [] [] [lit "a b"]) as H.
  cbv zeta in *. rewrite <- app_assoc in H. apply H; clear H; [|constructor|vm_compute; reflexivity].
  assert (Hname : forall l, forallb (fun c => is_byteb c && name_char true c) l = true -> Forall (fun c => is_byte c /\ name_char true c = true) l).
  { intros l Hl. apply List.Forall_forall. intros c Hin. pose proof (proj1 (List.forallb_forall _ _) Hl c Hin) as Hc.
    apply andb_prop in Hc as [H1%is_byteb_spec H2]. exact (conj H1 H2). }
  repeat (apply Forall_cons; split); [| |constructor].
  - split; [split; [vm_compute; discriminate|apply Hname; vm_compute; reflexivity]|].
    split; [by repeat constructor|]. split; vm_compute; discriminate.
  - split; [split; [vm_compute; discriminate|apply Hname; vm_compute; reflexivity]|].
    split; [by repeat constructor|]. split; vm_compute; discriminate.
Defined.

(** ** Any line *)

Section safe.
Context (mem : list Z) (upstream underscores : bool) (lo : Z).

Definition clean (i j : Z) : Prop := Forall value_char (sub mem i j).

Lemma clean_next i p ch : 0 <= i <= p -> mem !! Z.to_nat p = Some ch -> value_char ch -> clean i p -> clean i (p + 1).
Proof. intros Hi Hch Hc H. unfold clean. rewrite (sub_snoc mem i p ch) by done. apply Forall_app. split; [done|]. by constructor. Qed.

Lemma clean_empty i : clean i i.
Proof. unfold clean, sub. rewrite Z.sub_diag. constructor. Qed.

Definition named (h : hdr) (q : Z) : Prop :=
  exists s e, h.(header_name_start) = Some s /\ h.(header_name_end) = Some e /\ lo <= s < e /\ e <= q /\ clean s e.

Definition hl_inv (st : hl_state) (h : hdr) (p : Z) : Prop :=
  match st with
  | sw_start | sw_ignore_line | sw_header_almost_done => True
  | sw_name => exists s, h.(header_name_start) = Some s /\ lo <= s < p /\ clean s p
  | sw_space_before_value => named h (p - 1)
  | sw_value => exists v, h.(header_start) = Some v /\ v < p /\ named h v /\ clean v p
  | sw_space_after_value =>
      exists v w, h.(header_start) = Some v /\ h.(header_end) = Some w /\ v <= w < p /\ named h v /\ clean v w /\ clean v p
  | sw_almost_done =>
      exists v w, h.(header_start) = Some v /\ h.(header_end) = Some w /\ v <= w < p /\ named h v /\ clean v w
  end.

(** A name that is not empty, then the value, both before [q], and neither with
    a line end or a NUL. *)
Definition header_ok (h : hdr) (q : Z) : Prop :=
  exists v w, h.(header_start) = Some v /\ h.(header_end) = Some w /\ v <= w < q /\ named h v /\ clean v w.

Definition hl_next_ok (p : Z) (o : hl_outcome) : Prop :=
  match o with
  | HNext st h => hl_inv st h (p + 1)
  | HDone h => header_ok h (p + 1)
  | HHeaderDone _ | HFail _ => True
  end.

Lemma lowcase_value ch : lowcase_of ch <> 0 -> value_char ch.
Proof. intros H. split_and!; intros ->; by apply H. Qed.

Lemma name_next_ok p ch h :
  0 <= lo -> hl_inv sw_name h p -> mem !! Z.to_nat p = Some ch -> hl_next_ok p (hl_step mem upstream underscores p ch sw_name h).
Proof.
  intros Hlo (s & Es & Hs & Hc) Hch. cbn [hl_step].
  assert (Hgo : value_char ch -> forall h', h'.(header_name_start) = h.(header_name_start) -> hl_inv sw_name h' (p + 1)).
  { intros Hv h' E. exists s. rewrite E. split; [done|]. split; [lia|]. apply (clean_next s p ch); [lia|done..]. }
  assert (Hend : header_ok (set_value_end (set_value_start (set_name_end h p) p) p) (p + 1)).
  { exists p, p. cbn. split; [done|]. split; [done|]. split; [lia|]. split; [|apply clean_empty].
    exists s, p. split; [done|]. split; [done|]. split; [lia|]. split; [lia|done]. }
  destruct (Z.eqb_spec (lowcase_of ch) 0) as [E|E]; cbn [negb]; [|by apply Hgo; [apply lowcase_value|]].
  destruct (Z.eqb_spec ch 95) as [->|_]; [destruct underscores; by apply Hgo|].
  destruct (Z.eqb_spec ch COLON) as [->|_].
  { exists s, p. split; [done|]. split; [done|]. split; [lia|]. split; [lia|done]. }
  destruct (Z.eqb_spec ch CR) as [->|H1]; [exact Hend|]. destruct (Z.eqb_spec ch LF) as [->|H2]; [exact Hend|].
  destruct (_ && _ && _); [done|]. destruct (Z.eqb_spec ch NUL) as [->|H3]; [done|]. by apply Hgo.
Qed.

Lemma named_mono h q q' : q <= q' -> named h q -> named h q'.
Proof. intros Hq (s & e & H1 & H2 & H3 & H4 & H5). exists s, e. split_and!; try done; lia. Qed.

Lemma named_same h h' q :
  h'.(header_name_start) = h.(header_name_start) -> h'.(header_name_end) = h.(header_name_end) -> named h q -> named h' q.
Proof. unfold named. by intros -> ->. Qed.

Lemma hl_step_ok p ch st h :
  0 <= lo <= p -> hl_inv st h p -> mem !! Z.to_nat p = Some ch -> hl_next_ok p (hl_step mem upstream underscores p ch st h).
Proof.
  intros Hlo Hinv Hch. destruct st; [|apply name_next_ok; [lia|done..]| | | | | |]; cbn [hl_step hl_inv] in *.
  - destruct (ch =? CR) eqn:E1; [done|]. destruct (ch =? LF) eqn:E2; [done|].
    assert (Hgo : value_char ch -> forall h', h'.(header_name_start) = Some p -> hl_inv sw_name h' (p + 1)).
    { intros Hv h' E. exists p. split; [done|]. split; [lia|]. apply (clean_next p p ch); [lia|done|done|apply clean_empty]. }
    destruct (Z.eqb_spec (lowcase_of ch) 0); cbn [negb]; [|apply Hgo; [by apply lowcase_value|done]].
    destruct (Z.eqb_spec ch NUL); [done|]. apply Hgo; [|done]. apply Z.eqb_neq in E1, E2. done.
  - assert (Hn : named h p) by (apply (named_mono h (p - 1)); [lia|done]).
    destruct (Z.eqb_spec ch SP) as [->|H0]; [apply (named_mono h (p - 1)); [lia|done]|].
    assert (Hend : header_ok (set_value_end (set_value_start h p) p) (p + 1)).
    { exists p, p. split; [done|]. split; [done|]. split; [lia|]. split; [done|apply clean_empty]. }
    destruct (Z.eqb_spec ch CR) as [->|H1]; [exact Hend|]. destruct (Z.eqb_spec ch LF) as [->|H2]; [exact Hend|].
    destruct (Z.eqb_spec ch NUL) as [->|H3]; [done|]. exists p. split; [done|]. split; [lia|]. split; [done|].
    apply (clean_next p p ch); [lia|done|done|apply clean_empty].
  - destruct Hinv as (v & E & Hv & Hn & Hc).
    assert (Hpos : 0 <= v) by (destruct Hn as (s & e & _ & _ & ? & ? & _); lia).
    assert (Hend : header_ok (set_value_end h p) (p + 1)) by (exists v, p; split_and!; try done; lia).
    destruct (Z.eqb_spec ch SP) as [->|H0].
    { exists v, p. split_and!; try done; try lia. apply (clean_next v p SP); [lia|done..]. }
    destruct (Z.eqb_spec ch CR) as [->|H1]; [exact Hend|]. destruct (Z.eqb_spec ch LF) as [->|H2]; [exact Hend|].
    destruct (Z.eqb_spec ch NUL) as [->|H3]; [done|]. exists v. split; [done|]. split; [lia|]. split; [done|].
    apply (clean_next v p ch); [lia|done..].
  - destruct Hinv as (v & w & E & E' & Hv & Hn & Hc & Hc').
    assert (Hpos : 0 <= v) by (destruct Hn as (s & e & _ & _ & ? & ? & _); lia).
    assert (Hend : header_ok h (p + 1)) by (exists v, w; split_and!; try done; lia).
    destruct (Z.eqb_spec ch SP) as [->|H0].
    { exists v, w. split_and!; try done; try lia. apply (clean_next v p SP); [lia|done..]. }
    destruct (Z.eqb_spec ch CR) as [->|H1]; [exact Hend|]. destruct (Z.eqb_spec ch LF) as [->|H2]; [exact Hend|].
    destruct (Z.eqb_spec ch NUL) as [->|H3]; [done|]. exists v. split; [done|]. split; [lia|]. split; [done|].
    apply (clean_next v p ch); [lia|done..].
  - by destruct (ch =? LF).
  - destruct Hinv as (v & w & E & E' & Hv & Hn & Hc).
    assert (Hend : header_ok h (p + 1)) by (exists v, w; split_and!; try done; lia).
    destruct (ch =? LF); [exact Hend|]. destruct (ch =? CR); [exact Hend|done].
  - by destruct (ch =? LF).
Qed.

Lemma hl_loop_ok input : forall pre post hash0 i0 st h,
  mem = pre ++ input ++ post -> 0 <= lo <= zlen pre -> hl_inv st h (zlen pre) ->
  let res := hl_loop mem upstream underscores hash0 i0 input (zlen pre) st h in
  res.(hl_code) = NGX_OK -> header_ok res.(hl_hdr) res.(hl_pos) /\ res.(hl_pos) <= zlen pre + zlen input.
Proof.
  induction input as [|ch input IH]; intros pre post hash0 i0 st h Em Hlo Hinv; cbn [hl_loop]; [done|].
  assert (Hc : mem !! Z.to_nat (zlen pre) = Some ch).
  { rewrite Em. unfold zlen. rewrite Nat2Z.id, lookup_app_r, Nat.sub_diag by lia. done. }
  pose proof (hl_step_ok (zlen pre) ch st h Hlo Hinv Hc) as H.
  destruct (hl_step mem upstream underscores (zlen pre) ch st h) as [st' h'|h'|h'|h']; cbn [hl_next_ok] in H; try done.
  - cbv zeta. replace (zlen pre + 1) with (zlen (pre ++ [ch])) in * by (by autorewrite with ngx).
    intros Hok. destruct (IH (pre ++ [ch]) post hash0 i0 st' h') as [H1 H2]; try done.
    + by rewrite <- app_assoc.
    + rewrite zlen_app. change (zlen [ch]) with 1. lia.
    + split; [done|]. change (ch :: input) with ([ch] ++ input). rewrite !zlen_app in *. lia.
  - cbv zeta. intros _. cbn [hl_hdr hl_pos]. split; [done|]. rewrite zlen_cons. pose proof (zlen_nonneg input). lia.
Qed.
End safe.

(** An accepted line takes at least a byte. *)
Lemma header_line_ok mem upstream underscores pos h :
  0 <= pos <= zlen mem ->
  let res := ngx_http_parse_header_line mem upstream underscores pos (zlen mem) sw_start h in
  res.(hl_code) = NGX_OK -> header_ok mem pos res.(hl_hdr) res.(hl_pos) /\ pos < res.(hl_pos) <= zlen mem.
Proof.
  intros Hp res Hok. pose proof (header_line_loop _ _ _ _ _ _ _ Hok) as El. set (pre := take (Z.to_nat pos) mem). set (input := drop (Z.to_nat pos) mem).
  assert (Epre : zlen pre = pos) by (unfold pre; rewrite zlen_take; lia).
  assert (Ein : sub mem pos (zlen mem) = input).
  { unfold sub. apply take_ge. unfold input, zlen. rewrite length_drop. lia. }
  assert (Em : mem = pre ++ input ++ []) by (rewrite app_nil_r; unfold pre, input; by rewrite take_drop).
  unfold res in *. clear res. rewrite El in Hok |- *. clear El. rewrite Ein, <- Epre in *.
  destruct (hl_loop_ok mem upstream underscores (zlen pre) input pre [] (header_hash h) (lowcase_index h) sw_start h Em ltac:(lia) I Hok)
    as [H1 H2]. split; [done|]. split.
  - destruct H1 as (v & w & _ & _ & ? & (s & e & _ & _ & ? & ? & _) & _). lia.
  - rewrite Em at 2. autorewrite with ngx. lia.
Qed.

(** What an accepted header line gives is safe to use, whatever the bytes of
    the line and the fields left from the line before. The name is not empty, the
    value comes after it, both lie between the position the call began at and the
    one it ends at, and neither holds a carriage return, a line feed or a NUL. *)
Theorem header_line_safe mem upstream underscores pos h :
  0 <= pos <= zlen mem ->
  let res := ngx_http_parse_header_line mem upstream underscores pos (zlen mem) sw_start h in
  res.(hl_code) = NGX_OK -> header_ok mem pos res.(hl_hdr) res.(hl_pos) /\ pos < res.(hl_pos) <= zlen mem.
Proof. apply header_line_ok. Qed.

Lemma header_line_safe_witness :
  let mem := lit "x::: y" ++ [9; CR; CR; LF] in
  let res := ngx_http_parse_header_line mem false false 0 (zlen mem) sw_start new_hdr in
  header_ok mem 0 res.(hl_hdr) res.(hl_pos) /\ header_elt mem res.(hl_hdr) = TableElt 120 (lit "x") (lit ":: y" ++ [9]) (lit "x").
Proof.
  cbv zeta. split; [|vm_compute; reflexivity].
  pose proof (header_line_safe (lit "x::: y" ++ [9; CR; CR; LF]) false false 0 new_hdr) as H.
  apply H; [split; vm_compute; discriminate|vm_compute; reflexivity].
Defined.

(** ** The loop ends *)

Lemma loop_state mem upstream underscores input : forall p hash0 i0 st h,
  let res := hl_loop mem upstream underscores hash0 i0 input p st h in
  res.(hl_code) = NGX_OK -> res.(hl_st) = sw_start.
Proof.
  induction input as [|ch input IH]; intros p hash0 i0 st h; cbn [hl_loop]; [done|].
  destruct (hl_step mem upstream underscores p ch st h); [apply IH|done..].
Qed.

Lemma process_headers_end {R} (headers_in_hash : Z -> list Z -> option (R -> table_elt -> R * bool)) underscores ignore mem fuel :
  forall pos h a s, 0 <= pos <= zlen mem -> zlen mem - pos < Z.of_nat fuel ->
  exists res, process_request_headers headers_in_hash fuel underscores ignore mem pos sw_start h a s = Some res.
Proof.
  induction fuel as [|fuel IH]; intros pos h a s Hp Hf; [lia|]. cbn [process_request_headers].
  pose proof (header_line_ok mem false underscores pos h Hp) as Hok.
  pose proof (loop_state mem false underscores (sub mem pos (zlen mem)) pos h.(header_hash) h.(lowcase_index) sw_start h) as Hst.
  pose proof (header_line_loop mem false underscores pos (zlen mem) sw_start h) as Hl. cbv zeta in *.
  set (res := ngx_http_parse_header_line _ _ _ _ _ _ _) in *.
  destruct (Z.eqb_spec (hl_code res) NGX_OK) as [E|_].
  - destruct (Hok E) as [_ Hpos]. rewrite <- (Hl E) in Hst. rewrite (Hst E).
    destruct (_ && _); [apply IH; lia|]. destruct (add_header _ _ _ _ _) as [stop|[a' s']]; [by eexists|]. apply IH; lia.
  - destruct (_ =? _); [by eexists|]. destruct (_ =? _); by eexists.
Qed.

(** C38: reading the headers ends for every input: whatever the bytes, the
    settings, the failures of allocations and the handlers, the loop comes to the
    end of the headers, asks for more input or gives the request up within one
    turn per byte of the buffer and one more. *)
Theorem headers_terminate {R} (headers_in_hash : Z -> list Z -> option (R -> table_elt -> R * bool)) underscores ignore mem a r :
  exists res, read_headers headers_in_hash underscores ignore mem a r = Some res.
Proof. pose proof (zlen_nonneg mem). apply process_headers_end; unfold zlen in *; lia. Qed.

(** The hash of a name that begins with a character not allowed is built on
    the name before it. After the header [h] the header [_ost] gets, when invalid
    headers are not ignored, the lower-case name and the hash of [host], and is
    taken for it by the lookup of handlers; and an underscore that is allowed in
    names makes the header invalid in the first place. *)
Theorem stale_header_hash :
  let headers b := read_headers host_handler true b (lit "h: x" ++ [LF] ++ lit "_ost: evil" ++ [LF; LF]) [] [] in
  let h := TableElt (ngx_hash_key_lc (lit "h")) (lit "h") (lit "x") (lit "h") in
  headers false = Some (HeadersDone (HeaderState
    [h; TableElt (ngx_hash_key_lc (lit "host")) (lit "_ost") (lit "evil") (lit "host")] 17 [lit "evil"]) 17) /\
  headers true = Some (HeadersDone (HeaderState [h] 17 []) 17).
Proof. vm_compute. done. Qed.
