(* ===== verification/HttpHandlers.v ===== *)
(** * The known headers of a request ([ngx_http_request.c], [ngx_http.c])

    The table [ngx_http_headers_in] with the handlers of the known headers, the
    hash table that [ngx_http_init_headers_in_hash] makes of it, and
    [ngx_http_process_request_header], which checks the headers together and
    decides how long the body is.  As in the configuration of the repository
    ([objs/ngx_auto_config.h]): with gzip and X-Forwarded-For, without TLS, DAV
    and the real-ip module. *)

From S2P Require Import Prelude NgxMem NgxNumber NgxCompare NgxHash HttpRequest HttpHeader HttpHost.

(** ** The request *)

(** The fields of [ngx_http_headers_in_t] that point to a header. *)
Inductive slot :=
  | s_host | s_connection | s_if_modified_since | s_if_unmodified_since | s_if_match | s_if_none_match
  | s_user_agent | s_referer | s_content_length | s_content_type | s_range | s_if_range | s_transfer_encoding
  | s_expect | s_upgrade | s_accept_encoding | s_via | s_authorization | s_keep_alive.

#[export] Instance slot_eq_dec : EqDecision slot.
Proof. solve_decision. Defined.

(** Those that are arrays of headers. *)
Inductive multi := m_x_forwarded_for | m_cookies.

#[export] Instance multi_eq_dec : EqDecision multi.
Proof. solve_decision. Defined.

(** The flags for widespread browsers. *)
Record browser := Browser {
  msie : bool; msie6 : bool; opera : bool; gecko : bool; chrome : bool; safari : bool; konqueror : bool;
}.

(** [ngx_http_headers_in_t]. *)
Record headers_in := HeadersIn {
  fields : slot -> option table_elt;
  arrays : multi -> list table_elt;
  server : list Z;
  content_length_n : Z;
  keep_alive_n : Z;
  connection_type : Z;
  is_chunked : bool;
  agent : browser;
}.

(** A request while its headers are read: with the server's configuration that
    was chosen, the outcomes of further allocations, and the status it was
    finished with, zero before. *)
Record request := Request {
  r_in : headers_in;
  srv_conf : Z;
  r_allocs : allocs;
  status : Z;
}.

Definition set_field (h : headers_in) (s : slot) (e : option table_elt) : headers_in :=
  HeadersIn (fun s' => if decide (s = s') then e else h.(fields) s') h.(arrays) h.(server) h.(content_length_n)
    h.(keep_alive_n) h.(connection_type) h.(is_chunked) h.(agent).
Definition set_array (h : headers_in) (m : multi) (l : list table_elt) : headers_in :=
  HeadersIn h.(fields) (fun m' => if decide (m = m') then l else h.(arrays) m') h.(server) h.(content_length_n)
    h.(keep_alive_n) h.(connection_type) h.(is_chunked) h.(agent).
Definition set_server (h : headers_in) (v : list Z) : headers_in :=
  HeadersIn h.(fields) h.(arrays) v h.(content_length_n) h.(keep_alive_n) h.(connection_type) h.(is_chunked) h.(agent).
Definition set_length (h : headers_in) (v : Z) : headers_in :=
  HeadersIn h.(fields) h.(arrays) h.(server) v h.(keep_alive_n) h.(connection_type) h.(is_chunked) h.(agent).
Definition set_keep_alive (h : headers_in) (v : Z) : headers_in :=
  HeadersIn h.(fields) h.(arrays) h.(server) h.(content_length_n) v h.(connection_type) h.(is_chunked) h.(agent).
Definition set_connection_type (h : headers_in) (v : Z) : headers_in :=
  HeadersIn h.(fields) h.(arrays) h.(server) h.(content_length_n) h.(keep_alive_n) v h.(is_chunked) h.(agent).
Definition set_chunked (h : headers_in) (v : bool) : headers_in :=
  HeadersIn h.(fields) h.(arrays) h.(server) h.(content_length_n) h.(keep_alive_n) h.(connection_type) v h.(agent).
Definition set_agent (h : headers_in) (v : browser) : headers_in :=
  HeadersIn h.(fields) h.(arrays) h.(server) h.(content_length_n) h.(keep_alive_n) h.(connection_type) h.(is_chunked) v.

Definition with_in (r : request) (h : headers_in) : request := Request h r.(srv_conf) r.(r_allocs) r.(status).
Definition with_srv (r : request) (v : Z) : request := Request r.(r_in) v r.(r_allocs) r.(status).
Definition with_allocs (r : request) (a : allocs) : request := Request r.(r_in) r.(srv_conf) a r.(status).
Definition finish (r : request) (code : Z) : request := Request r.(r_in) r.(srv_conf) r.(r_allocs) code.

(** A header before any was read, as [ngx_http_create_request] leaves it. *)
Definition no_headers : headers_in :=
  HeadersIn (fun _ => None) (fun _ => []) [] (-1) (-1) 0 false (Browser false false false false false false false).

Abbreviation NGX_HTTP_CONNECTION_CLOSE := 1 (only parsing).
Abbreviation NGX_HTTP_CONNECTION_KEEP_ALIVE := 2 (only parsing).
Abbreviation NGX_HTTP_BAD_REQUEST := 400 (only parsing).
Abbreviation NGX_HTTP_NOT_ALLOWED := 405 (only parsing).
Abbreviation NGX_HTTP_INTERNAL_SERVER_ERROR := 500 (only parsing).
Abbreviation NGX_HTTP_NOT_IMPLEMENTED := 501 (only parsing).
Abbreviation NGX_HTTP_TRACE := 0x8000 (only parsing).
Abbreviation NGX_HTTP_VERSION_10 := 1000 (only parsing).

(** ** The handlers *)

Definition ngx_http_process_header_line (r : request) (h : table_elt) (offset : slot) : request * bool :=
  match r.(r_in).(fields) offset with
  | None => (with_in r (set_field r.(r_in) offset (Some h)), true)
  | Some _ => (r, true)
  end.

Definition ngx_http_process_unique_header_line (r : request) (h : table_elt) (offset : slot) : request * bool :=
  match r.(r_in).(fields) offset with
  | None => (with_in r (set_field r.(r_in) offset (Some h)), true)
  | Some _ => (finish r NGX_HTTP_BAD_REQUEST, false)
  end.

(** The array is made with the first header, and grows by each. *)
Definition ngx_http_process_multi_header_lines (r : request) (h : table_elt) (offset : multi) : request * bool :=
  let headers := r.(r_in).(arrays) offset in
  let '(ok, a) := match headers with [] => alloc r.(r_allocs) | _ => (true, r.(r_allocs)) end in
  let r := with_allocs r a in
  if negb ok then (finish r NGX_HTTP_INTERNAL_SERVER_ERROR, false)
  else
    let '(ok, a) := alloc a in
    let r := with_allocs r a in
    if negb ok then (finish r NGX_HTTP_INTERNAL_SERVER_ERROR, false)
    else (with_in r (set_array r.(r_in) offset (headers ++ [h])), true).

Definition ngx_http_process_connection (r : request) (h : table_elt) : request * bool :=
  let connection_type :=
    match ngx_strcasestrn h.(elt_value) (lit "close") (5 - 1) with
    | Some _ => NGX_HTTP_CONNECTION_CLOSE
    | None =>
        match ngx_strcasestrn h.(elt_value) (lit "keep-alive") (10 - 1) with
        | Some _ => NGX_HTTP_CONNECTION_KEEP_ALIVE
        | None => r.(r_in).(connection_type)
        end
    end in
  (with_in r (set_connection_type r.(r_in) connection_type), true).

Definition found {A} (o : option A) : bool := match o with Some _ => true | None => false end.

(** The browsers, from the value of the header; [msie] is the place of the
    version of Internet Explorer. *)
Definition check_msie (v : list Z) (b : browser) : browser :=
  match ngx_strstrn v (lit "MSIE ") (5 - 1) with
  | Some m =>
      if (m + 7 <? length v)%nat then
        let c5 := nth (m + 5) v 0 in
        let six :=
          if nth (m + 6) v 0 =? chr "." then
            if (c5 =? chr "4") || (c5 =? chr "5") then true
            else if c5 =? chr "6" then
              if found (ngx_strstrn (drop (m + 8) v) (lit "SV1") (3 - 1)) then b.(msie6) else true
            else b.(msie6)
          else b.(msie6) in
        Browser true six b.(opera) b.(gecko) b.(chrome) b.(safari) b.(konqueror)
      else b
  | None => b
  end.

Definition check_agent (v : list Z) (b : browser) : browser :=
  let b := check_msie v b in
  let b := if found (ngx_strstrn v (lit "Opera") (5 - 1))
           then Browser false false true b.(gecko) b.(chrome) b.(safari) b.(konqueror) else b in
  if negb b.(msie) && negb b.(opera) then
    if found (ngx_strstrn v (lit "Gecko/") (6 - 1)) then Browser b.(msie) b.(msie6) b.(opera) true b.(chrome) b.(safari) b.(konqueror)
    else if found (ngx_strstrn v (lit "Chrome/") (7 - 1)) then Browser b.(msie) b.(msie6) b.(opera) b.(gecko) true b.(safari) b.(konqueror)
    else if found (ngx_strstrn v (lit "Safari/") (7 - 1)) && found (ngx_strstrn v (lit "Mac OS X") (8 - 1))
    then Browser b.(msie) b.(msie6) b.(opera) b.(gecko) b.(chrome) true b.(konqueror)
    else if found (ngx_strstrn v (lit "Konqueror") (9 - 1)) then Browser b.(msie) b.(msie6) b.(opera) b.(gecko) b.(chrome) b.(safari) true
    else b
  else b.

Definition ngx_http_process_user_agent (r : request) (h : table_elt) : request * bool :=
  match r.(r_in).(fields) s_user_agent with
  | Some _ => (r, true)
  | None =>
      let i := set_field r.(r_in) s_user_agent (Some h) in
      (with_in r (set_agent i (check_agent h.(elt_value) i.(agent))), true)
  end.

(** The configuration found for a name, by [ngx_http_find_virtual_server]. *)
Inductive server_result :=
  | ServerDeclined
  | ServerOk (cscf : Z)
  | ServerError.

Section handlers.
Context (find_virtual_server : list Z -> server_result).

Definition ngx_http_set_virtual_server (r : request) (host : list Z) : request * bool :=
  match find_virtual_server host with
  | ServerError => (finish r NGX_HTTP_INTERNAL_SERVER_ERROR, false)
  | ServerDeclined => (r, true)
  | ServerOk cscf => (with_srv r cscf, true)
  end.

Definition ngx_http_process_host (r : request) (h : table_elt) : request * bool :=
  let r := match r.(r_in).(fields) s_host with
           | None => with_in r (set_field r.(r_in) s_host (Some h))
           | Some _ => r
           end in
  let '(res, a) := ngx_http_validate_host h.(elt_value) false r.(r_allocs) in
  let r := with_allocs r a in
  match res with
  | HostDeclined => (finish r NGX_HTTP_BAD_REQUEST, false)
  | HostError => (finish r NGX_HTTP_INTERNAL_SERVER_ERROR, false)
  | HostOk host =>
      if negb (zlen r.(r_in).(server) =? 0) then (r, true)
      else
        let '(r, ok) := ngx_http_set_virtual_server r host in
        if ok then (with_in r (set_server r.(r_in) host), true) else (r, false)
  end.

(** ** The table [ngx_http_headers_in] *)

Inductive header_handler :=
  | process_host
  | process_connection
  | process_user_agent
  | process_unique_header_line (offset : slot)
  | process_header_line (offset : slot)
  | process_multi_header_lines (offset : multi).

Definition ngx_http_headers_in : list (list Z * header_handler) := [
  (lit "Host", process_host);
  (lit "Connection", process_connection);
  (lit "If-Modified-Since", process_unique_header_line s_if_modified_since);
  (lit "If-Unmodified-Since", process_unique_header_line s_if_unmodified_since);
  (lit "If-Match", process_unique_header_line s_if_match);
  (lit "If-None-Match", process_unique_header_line s_if_none_match);
  (lit "User-Agent", process_user_agent);
  (lit "Referer", process_header_line s_referer);
  (lit "Content-Length", process_unique_header_line s_content_length);
  (lit "Content-Type", process_header_line s_content_type);
  (lit "Range", process_header_line s_range);
  (lit "If-Range", process_unique_header_line s_if_range);
  (lit "Transfer-Encoding", process_header_line s_transfer_encoding);
  (lit "Expect", process_unique_header_line s_expect);
  (lit "Upgrade", process_header_line s_upgrade);
  (lit "Accept-Encoding", process_header_line s_accept_encoding);
  (lit "Via", process_header_line s_via);
  (lit "Authorization", process_unique_header_line s_authorization);
  (lit "Keep-Alive", process_header_line s_keep_alive);
  (lit "X-Forwarded-For", process_multi_header_lines m_x_forwarded_for);
  (lit "Cookie", process_multi_header_lines m_cookies)].

Definition run_handler (hh : header_handler) (r : request) (h : table_elt) : request * bool :=
  match hh with
  | process_host => ngx_http_process_host r h
  | process_connection => ngx_http_process_connection r h
  | process_user_agent => ngx_http_process_user_agent r h
  | process_unique_header_line offset => ngx_http_process_unique_header_line r h offset
  | process_header_line offset => ngx_http_process_header_line r h offset
  | process_multi_header_lines offset => ngx_http_process_multi_header_lines r h offset
  end.

(** ** The hash table *)

(** Where the table lies; an entry has 32 bytes. *)
Context (base : Z).

Definition entry_address (i : nat) : Z := base + 32 * Z.of_nat i.

Definition header_keys : list hash_key :=
  imap (fun i '(name, _) => HashKey name false (ngx_hash_key_lc name) (entry_address i)) ngx_http_headers_in.

(** [ngx_http_init_headers_in_hash]; [headers_in_hash] is the address of the
    table in the configuration.  An outcome for the temporary array of the
    names, which does not grow beyond its 32 entries. *)
Definition ngx_http_init_headers_in_hash (cacheline : Z) (dirt : Z -> Z) (headers_in_hash : Z) (a : allocs) (addrs : list Z) :
    option (init_result * list Z) :=
  let '(ok, a) := alloc a in
  if negb ok then Some (InitError, addrs)
  else ngx_hash_init cacheline dirt (HashInit headers_in_hash 512 (ngx_align 64 cacheline)) header_keys addrs.

(** The lookup of a header's handler in the table. *)
Definition find_handler (h : hash_t) (hash : Z) (name : list Z) : option (request -> table_elt -> request * bool) :=
  match ngx_hash_find h hash name with
  | None => None
  | Some value =>
      if value =? 0 then None
      else
        match ngx_http_headers_in !! Z.to_nat ((value - base) / 32) with
        | Some (_, hh) => Some (run_handler hh)
        | None => None
        end
  end.

(** ** All headers together *)

(** [ngx_http_process_request_header]. *)
Definition ngx_http_process_request_header (method http_version : Z) (r : request) : request * bool :=
  let '(r, ok) := if zlen r.(r_in).(server) =? 0 then ngx_http_set_virtual_server r r.(r_in).(server) else (r, true) in
  if negb ok then (r, false)
  else if negb (found (r.(r_in).(fields) s_host)) && (http_version >? NGX_HTTP_VERSION_10) then (finish r NGX_HTTP_BAD_REQUEST, false)
  else
    let '(r, ok) :=
      match r.(r_in).(fields) s_content_length with
      | None => (r, true)
      | Some h =>
          let r := with_in r (set_length r.(r_in) (ngx_atoof h.(elt_value))) in
          if r.(r_in).(content_length_n) =? NGX_ERROR then (finish r NGX_HTTP_BAD_REQUEST, false) else (r, true)
      end in
    if negb ok then (r, false)
    else if negb (Z.land method NGX_HTTP_TRACE =? 0) then (finish r NGX_HTTP_NOT_ALLOWED, false)
    else
      let '(r, ok) :=
        match r.(r_in).(fields) s_transfer_encoding with
        | None => (r, true)
        | Some h =>
            let v := h.(elt_value) in
            if (zlen v =? 7) && (ngx_strncasecmp v (lit "chunked") 7 =? 0) then
              (with_in r (set_chunked (set_length (set_field r.(r_in) s_content_length None) (-1)) true), true)
            else if negb (zlen v =? 8) || negb (ngx_strncasecmp v (lit "identity") 8 =? 0) then
              (finish r NGX_HTTP_NOT_IMPLEMENTED, false)
            else (r, true)
        end in
      if negb ok then (r, false)
      else if r.(r_in).(connection_type) =? NGX_HTTP_CONNECTION_KEEP_ALIVE then
        match r.(r_in).(fields) s_keep_alive with
        | Some h => (with_in r (set_keep_alive r.(r_in) (ngx_atotm h.(elt_value))), true)
        | None => (r, true)
        end
      else (r, true).
End handlers.
