(* ===== verification/HttpHandlersSpec.v ===== *)
(** * The known headers: what a request keeps of its headers

    The hash table of the known headers is built whatever the memory holds, and
    finds the handler of every known name and of no other.  So the fields of a
    request are the first headers of their names, the arrays all of theirs, in
    order, and the length of the body is decided by them. *)

From S2P Require Import Prelude NgxMem NgxCompare NgxHash NgxHashSpec NgxHashTable HttpRequest HttpChunked HttpHeader HttpHeaderSpec HttpHost HttpHandlers.

(** ** The table *)

(** The handler of a name in lower case, by the table. *)
Fixpoint known (table : list (list Z * header_handler)) (name : list Z) : option header_handler :=
  match table with
  | [] => None
  | (key, hh) :: table => if beq (map ngx_tolower key) name then Some hh else known table name
  end.

Lemma known_assoc base table name : forall n,
  let keys := imap (fun i '(key, _) => HashKey key false (ngx_hash_key_lc key) (entry_address base (n + i))) table in
  match known table name with
  | None => value_of keys name = 0
  | Some hh => exists j key, table !! j = Some (key, hh) /\ value_of keys name = entry_address base (n + j)
  end.
Proof.
  induction table as [|[key hh] table IH]; intros n; [done|]. cbn [known imap]. unfold value_of.
  assert (Hlow : forall h v, low_key (HashKey key false h v) = map ngx_tolower key) by (intros; apply strlow_map).
  cbn [List.filter negb k_null map assoc k_value]. rewrite Hlow.
  destruct (beq (map ngx_tolower key) name).
  { exists 0%nat, key. split; [done|]. by rewrite Nat.add_0_r. }
  specialize (IH (S n)). cbv zeta in IH. unfold value_of in IH.
  assert (E : imap ((fun i '(key, _) => HashKey key false (ngx_hash_key_lc key) (entry_address base (n + i))) ∘ S) table =
    imap (fun i '(key, _) => HashKey key false (ngx_hash_key_lc key) (entry_address base (S n + i))) table).
  { apply imap_ext. intros i [k h] _. cbn. by rewrite <- plus_n_Sm. }
  rewrite E. destruct (known table name) as [hh'|]; [|exact IH]. destruct IH as (j & key' & Hj & Hv).
  exists (S j), key'. split; [done|]. rewrite Hv. f_equal. lia.
Qed.

Section table.
Context (find_virtual_server : list Z -> server_result) (base : Z) (Hbase : 0 < base < 2 ^ 63).

Lemma header_keys_ok : Forall key_ok (header_keys base).
Proof.
  apply Forall_lookup. intros i nm Hi. unfold header_keys in Hi. rewrite list_lookup_imap in Hi.
  destruct (ngx_http_headers_in !! i) as [[name hh]|] eqn:E; [|done]. injection Hi as <-. apply lookup_lt_Some in E.
  cbn in E. split; cbn.
  - unfold ngx_hash_key_lc. assert (H : forall l h, 0 <= h -> 0 <= foldl (fun key c => ngx_hash key (ngx_tolower c)) h l).
    { induction l as [|c l IH]; intros h Hh; cbn; [done|]. apply IH. unfold ngx_hash. apply u64_range. }
    by apply H.
  - unfold entry_address. lia.
Qed.

Lemma header_keys_hash : Forall (fun nm => nm.(k_hash) = ngx_hash_key (low_key nm)) (header_keys base).
Proof.
  apply Forall_lookup. intros i nm Hi. unfold header_keys in Hi. rewrite list_lookup_imap in Hi.
  destruct (ngx_http_headers_in !! i) as [[name hh]|]; [|done]. injection Hi as <-. unfold low_key. cbn. by rewrite key_lc, strlow_map.
Qed.

(** The names with their hashes. *)
Definition hashed : list (list Z * Z) := Eval vm_compute in map (fun '(name, _) => (name, ngx_hash_key_lc name)) ngx_http_headers_in.

Lemma header_keys_hashed : header_keys base = imap (fun i '(name, hash) => HashKey name false hash (entry_address base i)) hashed.
Proof. vm_compute. reflexivity. Qed.

(** The buckets have room at some size, for every length of cache lines that
    [ngx_cpuinfo] sets. *)
Definition fitsb (bucket_size size : Z) : bool :=
  let keys := imap (fun i '(name, hash) => HashKey name false hash (entry_address base i)) hashed in
  forallb (fun i => bucket_len size i keys <=? bucket_size) (seqZ 0 size).

Lemma fitsb_fits bucket_size size : fitsb bucket_size size = true -> buckets_fit bucket_size size (header_keys base).
Proof.
  rewrite header_keys_hashed. intros H i Hi. apply Z.leb_le. apply (proj1 (forallb_forall _ _) H i), list_elem_of_In, elem_of_seqZ. lia.
Qed.

Lemma headers_hash_table k dirt address a x1 x2 x3 addrs :
  5 <= k <= 7 -> no_oom a -> 0 < x1 -> 0 < x2 -> 0 < x3 -> Forall (Z.le 0) addrs -> 0 < address ->
  exists h, ngx_http_init_headers_in_hash base (2 ^ k) dirt address a (x1 :: x2 :: x3 :: addrs) = Some (InitOk address h, addrs) /\
    forall name, find_handler find_virtual_server base h (ngx_hash_key name) name =
      run_handler find_virtual_server <$> known ngx_http_headers_in name.
Proof.
  intros Hk Ha H1 H2 H3 Haddrs Hadr. unfold ngx_http_init_headers_in_hash.
  destruct (no_oom_alloc a Ha) as (a' & -> & _). cbn [negb].
  assert (Hkc : k = 5 \/ k = 6 \/ k = 7) by lia.
  assert (Hb : ngx_align 64 (2 ^ k) = if k =? 7 then 128 else 64) by (destruct Hkc as [->|[->| ->]]; reflexivity).
  set (hi := HashInit address 512 (ngx_align 64 (2 ^ k))).
  destruct (hash_init_holds k dirt hi (header_keys base) (x1 :: x2 :: x3 :: addrs)) as (start & r & addrs' & Hs & -> & Hr).
  { lia. }
  { unfold hi. cbn. rewrite Hb. destruct (k =? 7); lia. }
  { apply header_keys_ok. }
  { repeat (apply Forall_cons; split; [lia|]). done. }
  destruct r as [|hash h].
  - exfalso. unfold hi, first_size in Hs. cbn [i_bucket_size i_max_size] in Hs. rewrite Hb in Hs.
    destruct Hr as [Hr|[Hr|Hr]].
    + apply Exists_exists in Hr as (nm & Hin & Hlt). cbn in Hlt. rewrite Hb in Hlt.
      assert (Hf : forallb (fun nm => elt_size (zlen nm.(k_key)) + 8 <=? 64) (header_keys base) = true) by (vm_compute; reflexivity).
      apply list_elem_of_In in Hin. pose proof (proj1 (forallb_forall _ _) Hf nm Hin) as Hle%Z.leb_le. destruct (k =? 7); lia.
    + cbn [first_fit hi i_max_size i_bucket_size] in Hr. rewrite Hb in Hr.
      destruct Hkc as [->|[->| ->]]; cbn [Z.eqb Pos.eqb] in Hs, Hr; vm_compute in Hs; injection Hs as <-;
        [apply (Hr 32)|apply (Hr 32)|apply (Hr 6)]; (lia || apply fitsb_fits; vm_compute; reflexivity).
    + cbn [take length] in Hr. destruct Hr as [Hr|Hr]; [|lia].
      rewrite take_0 in Hr. apply list_elem_of_In in Hr. cbn in Hr. lia.
  - destruct Hr as (_ & (Hsz & Hfind) & -> & -> & _). cbn [i_hash hi tl hd drop]. rewrite (proj2 (Z.eqb_neq address 0)) by lia.
    exists h. split; [done|]. intros name. unfold find_handler. rewrite Hfind, (entries_value _ ngx_hash_key) by apply header_keys_hash.
    pose proof (known_assoc base ngx_http_headers_in name 0) as Hkn. cbv zeta in Hkn. cbn [Nat.add] in Hkn. fold (header_keys base) in Hkn.
    destruct (known ngx_http_headers_in name) as [hh|]; [|by rewrite Hkn].
    destruct Hkn as (j & key & Hj & ->). unfold entry_address. rewrite (proj2 (Z.eqb_neq _ 0)) by lia.
    replace (base + 32 * Z.of_nat j - base) with (Z.of_nat j * 32) by lia. rewrite Z.div_mul, Nat2Z.id, Hj by done. done.
Qed.
End table.

(** ** Names and fields *)

(** The field, and the array, that a handler fills. *)
Definition slot_of (hh : header_handler) : option slot :=
  match hh with
  | process_host => Some s_host
  | process_user_agent => Some s_user_agent
  | process_unique_header_line s | process_header_line s => Some s
  | process_connection | process_multi_header_lines _ => None
  end.

Definition array_of (hh : header_handler) : option multi :=
  match hh with
  | process_multi_header_lines m => Some m
  | _ => None
  end.

(** The names of the headers for them; no handler fills [s_connection]. *)
Definition slot_name (s : slot) : option (list Z) :=
  match s with
  | s_host => Some (lit "host")
  | s_connection => None
  | s_if_modified_since => Some (lit "if-modified-since")
  | s_if_unmodified_since => Some (lit "if-unmodified-since")
  | s_if_match => Some (lit "if-match")
  | s_if_none_match => Some (lit "if-none-match")
  | s_user_agent => Some (lit "user-agent")
  | s_referer => Some (lit "referer")
  | s_content_length => Some (lit "content-length")
  | s_content_type => Some (lit "content-type")
  | s_range => Some (lit "range")
  | s_if_range => Some (lit "if-range")
  | s_transfer_encoding => Some (lit "transfer-encoding")
  | s_expect => Some (lit "expect")
  | s_upgrade => Some (lit "upgrade")
  | s_accept_encoding => Some (lit "accept-encoding")
  | s_via => Some (lit "via")
  | s_authorization => Some (lit "authorization")
  | s_keep_alive => Some (lit "keep-alive")
  end.

Definition array_name (m : multi) : list Z :=
  match m with
  | m_x_forwarded_for => lit "x-forwarded-for"
  | m_cookies => lit "cookie"
  end.

(** The headers that a request may have but once. *)
Definition unique_slot (s : slot) : bool :=
  match s with
  | s_if_modified_since | s_if_unmodified_since | s_if_match | s_if_none_match | s_content_length | s_if_range
  | s_expect | s_authorization => true
  | _ => false
  end.

(** The headers of a name given in lower case. *)
Definition named_elts (name : list Z) (elts : list table_elt) : list table_elt :=
  List.filter (fun e => beq e.(elt_lowcase_key) name) elts.

(** What the table says of an entry's handler. *)
Definition entry_ok (e : list Z * header_handler) : bool :=
  let name := map ngx_tolower e.1 in
  match slot_of e.2 with
  | Some s => bool_decide (slot_name s = Some name) &&
      eqb (unique_slot s) (match e.2 with process_unique_header_line _ => true | _ => false end)
  | None => true
  end &&
  match array_of e.2 with
  | Some m => beq (array_name m) name
  | None => true
  end.

Lemma known_in table name hh : known table name = Some hh -> exists key, (key, hh) ∈ table /\ name = map ngx_tolower key.
Proof.
  induction table as [|[key hh'] table IH]; [done|]. cbn [known]. destruct (beq (map ngx_tolower key) name) eqn:B.
  - intros [= ->]. apply beq_eq in B. exists key. split; [by constructor|done].
  - intros H. destruct (IH H) as (key' & Hin & ->). exists key'. split; [by constructor|done].
Qed.

Lemma known_entry name hh : known ngx_http_headers_in name = Some hh ->
  (forall s, slot_of hh = Some s -> slot_name s = Some name /\
     unique_slot s = match hh with process_unique_header_line _ => true | _ => false end) /\
  (forall m, array_of hh = Some m -> array_name m = name).
Proof.
  intros H. apply known_in in H as (key & Hin & ->).
  assert (Hall : forallb entry_ok ngx_http_headers_in = true) by (vm_compute; reflexivity).
  apply list_elem_of_In in Hin. pose proof (proj1 (forallb_forall _ _) Hall _ Hin) as He.
  unfold entry_ok in He. cbn [fst snd] in He. apply andb_prop in He as [H1 H2]. split.
  - intros s Hs. rewrite Hs in H1. apply andb_prop in H1 as [H1%bool_decide_eq_true H3%eqb_prop]. done.
  - intros m Hm. rewrite Hm in H2. by apply beq_eq in H2.
Qed.

Lemma slot_known s name : slot_name s = Some name -> exists hh, known ngx_http_headers_in name = Some hh /\ slot_of hh = Some s.
Proof. destruct s; intros [= <-]; vm_compute; eauto. Qed.

Lemma array_known m : exists hh, known ngx_http_headers_in (array_name m) = Some hh /\ array_of hh = Some m.
Proof. destruct m; vm_compute; eauto. Qed.

Lemma host_not_plain name : known ngx_http_headers_in name = Some (process_header_line s_host) -> False.
Proof.
  intros H. apply known_in in H as (key & Hin & _). apply list_elem_of_In in Hin. cbn in Hin. intuition discriminate.
Qed.

(** Whether the header of a name goes to a field. *)
Lemma named_slot name s : (exists hh, known ngx_http_headers_in name = Some hh /\ slot_of hh = Some s) <-> slot_name s = Some name.
Proof.
  split; [|apply slot_known]. intros (hh & Hk & Hs). by apply (proj1 (known_entry name hh Hk)).
Qed.

Lemma named_array name m : (exists hh, known ngx_http_headers_in name = Some hh /\ array_of hh = Some m) <-> array_name m = name.
Proof.
  split; [|intros <-; apply array_known]. intros (hh & Hk & Hs). by apply (proj2 (known_entry name hh Hk)).
Qed.

(** ** One handler *)

Section handle.
Context (find_virtual_server : list Z -> server_result).

(** What a handler that goes on leaves. *)
Record handled (hh : header_handler) (h : table_elt) (r r' : request) : Prop := {
  hd_fields s : r'.(r_in).(fields) s =
    match r.(r_in).(fields) s with Some e => Some e | None => if decide (slot_of hh = Some s) then Some h else None end;
  hd_arrays m : r'.(r_in).(arrays) m = r.(r_in).(arrays) m ++ (if decide (array_of hh = Some m) then [h] else []);
  hd_unique s : hh = process_unique_header_line s -> r.(r_in).(fields) s = None;
  hd_length : r'.(r_in).(content_length_n) = r.(r_in).(content_length_n);
  hd_chunked : r'.(r_in).(is_chunked) = r.(r_in).(is_chunked);
  hd_server : match hh with
    | process_host => exists a name, fst (ngx_http_validate_host h.(elt_value) false a) = HostOk name /\
        r'.(r_in).(server) = match r.(r_in).(server) with [] => name | s => s end
    | _ => r'.(r_in).(server) = r.(r_in).(server)
    end;
}.

Lemma set_field_handled h s0 (i : headers_in) s : i.(fields) s0 = None ->
  fields (set_field i s0 (Some h)) s =
    match i.(fields) s with Some e => Some e | None => if decide (Some s0 = Some s) then Some h else None end.
Proof.
  intros E. cbn. destruct (decide (s0 = s)) as [->|Hne]; [rewrite E; by rewrite decide_True|].
  rewrite decide_False by congruence. by destruct (fields i s).
Qed.

Lemma keep_fields hh h (i : headers_in) s s0 : slot_of hh = Some s0 -> i.(fields) s0 <> None ->
  i.(fields) s = match i.(fields) s with Some e => Some e | None => if decide (slot_of hh = Some s) then Some h else None end.
Proof.
  intros -> E. destruct (fields i s) eqn:Es; [done|]. rewrite decide_False; [done|]. intros [= ->]. done.
Qed.

Lemma run_handler_handled hh r h r' : run_handler find_virtual_server hh r h = (r', true) -> handled hh h r r'.
Proof.
  destruct hh as [| | |s0|s0|m0]; cbn [run_handler].
  - unfold ngx_http_process_host. set (r1 := match fields (r_in r) s_host with Some _ => r | None => _ end).
    assert (Hf : forall s, fields (r_in r1) s = match fields (r_in r) s with Some e => Some e | None => if decide (Some s_host = Some s) then Some h else None end).
    { intros s. unfold r1. destruct (fields (r_in r) s_host) eqn:E; [|by apply set_field_handled].
      apply (keep_fields process_host h _ s s_host eq_refl). by rewrite E. }
    assert (Hr : arrays (r_in r1) = arrays (r_in r) /\ server (r_in r1) = server (r_in r) /\
      content_length_n (r_in r1) = content_length_n (r_in r) /\ is_chunked (r_in r1) = is_chunked (r_in r))
      by (unfold r1; by destruct (fields (r_in r) s_host)).
    destruct Hr as (Ha & Hs & Hl & Hc).
    destruct (ngx_http_validate_host (elt_value h) false (r_allocs r1)) as [res a] eqn:Hv.
    destruct res as [name| |]; [|done..]. assert (Hv' : fst (ngx_http_validate_host (elt_value h) false (r_allocs r1)) = HostOk name) by (by rewrite Hv).
    cbn [with_allocs r_in]. destruct (Z.eqb_spec (zlen (server (r_in r1))) 0) as [E|E]; cbn [negb].
    + unfold ngx_http_set_virtual_server. destruct (find_virtual_server name); try done; intros [= <-]; cbn;
        (split; cbn; [done|intros m; by rewrite Ha, app_nil_r|done|done|done|]); exists (r_allocs r1), name; (split; [done|]);
        rewrite <- Hs; by rewrite (zlen_0_nil _ E).
    + intros [= <-]. split; cbn; [done|intros m; by rewrite Ha, app_nil_r|done|done|done|]. exists (r_allocs r1), name. split; [done|].
      rewrite <- Hs. destruct (server (r_in r1)); [done|done].
  - unfold ngx_http_process_connection. intros [= <-]. split; cbn; [intros s; by destruct (fields (r_in r) s)|intros m; by rewrite app_nil_r|done..].
  - unfold ngx_http_process_user_agent. destruct (fields (r_in r) s_user_agent) eqn:E; intros [= <-]; split;
      try done; try (intros m; cbn; by rewrite app_nil_r); intros s.
    + apply (keep_fields process_user_agent h _ s s_user_agent eq_refl). by rewrite E.
    + by apply set_field_handled.
  - unfold ngx_http_process_unique_header_line. destruct (fields (r_in r) s0) eqn:E; [done|]. intros [= <-]. split;
      try done; [intros s; by apply set_field_handled|intros m; cbn; by rewrite app_nil_r|by intros s [= ->]].
  - unfold ngx_http_process_header_line. destruct (fields (r_in r) s0) eqn:E; intros [= <-]; split; try done;
      try (intros m; cbn; by rewrite app_nil_r); intros s.
    + apply (keep_fields (process_header_line s0) h _ s s0 eq_refl). by rewrite E.
    + by apply set_field_handled.
  - unfold ngx_http_process_multi_header_lines. destruct (match arrays (r_in r) m0 with [] => _ | _ => _ end) as [ok a]. destruct ok; [|done].
    cbn [negb]. destruct (alloc a) as [ok a']. destruct ok; [|done]. intros [= <-]. split; try done.
    + intros s. cbn. by destruct (fields (r_in r) s).
    + intros m. cbn. destruct (decide (m0 = m)) as [->|Hne]; [by rewrite decide_True|]. rewrite decide_False by congruence. by rewrite app_nil_r.
Qed.
End handle.

(** ** All headers *)

(** The name a value of [Host] stands for. *)
Definition served (h : table_elt) : list Z := map ngx_tolower (host_name h.(elt_value)).

Lemma validated_served h a name : zlen h.(elt_value) < 2 ^ 63 ->
  fst (ngx_http_validate_host h.(elt_value) false a) = HostOk name -> name = served h /\ safe_host (served h).
Proof.
  intros Hz. rewrite validate_host_eq by done. destruct (existsb bad_char (elt_value h) || double_dot (elt_value h)) eqn:E; [done|].
  apply orb_false_iff in E as [Hb Hd]. destruct (bool_decide_reflect (host_name (elt_value h) = [])) as [|Hn]; [done|].
  destruct (_ && _); [done|]. intros [= <-]. split; [done|]. unfold served. destruct (host_name_take (elt_value h)) as (n & _ & Ht).
  rewrite Ht in *. by apply lower_safe.
Qed.

(** What a request keeps of the headers [elts]. *)
Record kept (elts : list table_elt) (r r' : request) : Prop := {
  kp_fields s name : slot_name s = Some name ->
    r'.(r_in).(fields) s = match r.(r_in).(fields) s with Some e => Some e | None => head (named_elts name elts) end;
  kp_arrays m : r'.(r_in).(arrays) m = r.(r_in).(arrays) m ++ named_elts (array_name m) elts;
  kp_unique s name : slot_name s = Some name -> unique_slot s = true ->
    (length (named_elts name elts) + (if r.(r_in).(fields) s then 1 else 0) <= 1)%nat;
  kp_length : r'.(r_in).(content_length_n) = r.(r_in).(content_length_n);
  kp_chunked : r'.(r_in).(is_chunked) = r.(r_in).(is_chunked);
  kp_hosts : Forall (fun h => safe_host (served h)) (named_elts (lit "host") elts);
  kp_server : r'.(r_in).(server) =
    match r.(r_in).(server), named_elts (lit "host") elts with
    | [], h :: _ => served h
    | s, _ => s
    end;
}.

Lemma named_cons name e elts :
  named_elts name (e :: elts) = if beq e.(elt_lowcase_key) name then e :: named_elts name elts else named_elts name elts.
Proof. done. Qed.

Section all.
Context (find_virtual_server : list Z -> server_result).
Context (find : Z -> list Z -> option (request -> table_elt -> request * bool)).
Context (Hfind : forall name, find (ngx_hash_key name) name = run_handler find_virtual_server <$> known ngx_http_headers_in name).

(** A header without a handler leaves the request as it is. *)
Lemma kept_unknown e elts r r' : known ngx_http_headers_in e.(elt_lowcase_key) = None -> kept elts r r' -> kept (e :: elts) r r'.
Proof.
  intros Hk H.
  assert (Hs : forall s name, slot_name s = Some name -> beq e.(elt_lowcase_key) name = false).
  { intros s name Hn. apply not_true_iff_false. rewrite beq_eq. intros <-. destruct (slot_known s _ Hn) as (hh & E & _). congruence. }
  assert (Ha : forall m, beq e.(elt_lowcase_key) (array_name m) = false).
  { intros m. apply not_true_iff_false. rewrite beq_eq. intros E. destruct (array_known m) as (hh & E' & _). congruence. }
  destruct H as [H1 H2 H3 H4 H5 H6 H7]. pose proof (Hs s_host _ eq_refl) as Hh.
  split; [..|done|done| |]; rewrite ?named_cons, ?Hh; try done.
  - intros s name Hn. rewrite named_cons, (Hs s name Hn). by apply H1.
  - intros m. rewrite named_cons, Ha. apply H2.
  - intros s name Hn Hu. rewrite named_cons, (Hs s name Hn). by apply H3.
Qed.

Lemma kept_known hh e elts r r1 r' : zlen e.(elt_value) < 2 ^ 63 ->
  known ngx_http_headers_in e.(elt_lowcase_key) = Some hh -> handled hh e r r1 -> kept elts r1 r' -> kept (e :: elts) r r'.
Proof.
  intros Hz Hk [D1 D2 D3 D4 D5 D6] [H1 H2 H3 H4 H5 H6 H7].
  assert (Hs : forall s name, slot_name s = Some name -> beq e.(elt_lowcase_key) name = bool_decide (slot_of hh = Some s)).
  { intros s name Hn. apply eq_true_iff_eq. rewrite beq_eq, bool_decide_eq_true. split.
    - intros <-. apply slot_known in Hn as (hh' & E & ?). congruence.
    - intros E. destruct (proj1 (known_entry _ _ Hk) s E) as [E' _]. congruence. }
  assert (Ha : forall m, beq e.(elt_lowcase_key) (array_name m) = bool_decide (array_of hh = Some m)).
  { intros m. apply eq_true_iff_eq. rewrite beq_eq, bool_decide_eq_true. split.
    - intros E. destruct (array_known m) as (hh' & E' & ?). congruence.
    - intros E. symmetry. by apply (proj2 (known_entry _ _ Hk)). }
  split.
  - intros s name Hn. rewrite named_cons, (Hs s name Hn), (H1 s name Hn), D1.
    destruct (fields (r_in r) s); [done|]. case_bool_decide as E; [by rewrite decide_True|by rewrite decide_False].
  - intros m. rewrite named_cons, Ha, H2, D2, <- app_assoc. case_bool_decide as E; [by rewrite decide_True|by rewrite decide_False].
  - intros s name Hn Hu. rewrite named_cons, (Hs s name Hn). specialize (H3 s name Hn Hu). rewrite D1 in H3.
    case_bool_decide as E.
    + rewrite decide_True in H3 by done. destruct (proj1 (known_entry _ _ Hk) s E) as [_ Hq]. rewrite Hu in Hq.
      destruct hh as [| | |s1|s1|m1]; try discriminate. injection E as ->. rewrite (D3 s eq_refl) in *. cbn [length]. lia.
    + rewrite decide_False in H3 by done. by destruct (fields (r_in r) s).
  - congruence.
  - congruence.
  - rewrite named_cons, (Hs s_host _ eq_refl). case_bool_decide as E; [|done]. constructor; [|done].
    destruct (proj1 (known_entry _ _ Hk) s_host E) as [_ Hq]. cbn in Hq. destruct hh; try discriminate.
    + destruct D6 as (a & name & Hv & _). by apply (validated_served e a name Hz).
    + injection E as ->. by apply host_not_plain in Hk.
  - rewrite named_cons, (Hs s_host _ eq_refl), H7. case_bool_decide as E.
    + destruct (proj1 (known_entry _ _ Hk) s_host E) as [_ Hq]. cbn in Hq. destruct hh; try discriminate.
      * destruct D6 as (a & name & Hv & ->). destruct (validated_served e a name Hz Hv) as [-> [Hne _]].
        destruct (server (r_in r)); [|done]. destruct (served e) eqn:Es; [done|]. done.
      * injection E as ->. by apply host_not_plain in Hk.
    + destruct hh; try (by rewrite D6). by destruct E.
Qed.

Lemma run_handlers_kept elts : forall r r',
  Forall (fun e => e.(elt_hash) = ngx_hash_key e.(elt_lowcase_key) /\ zlen e.(elt_value) < 2 ^ 63) elts ->
  run_handlers find r elts = Some r' -> kept elts r r'.
Proof.
  induction elts as [|e elts IH]; intros r r' Hok; cbn [run_handlers].
  { intros [= <-]. split; try done; cbn; intros.
    - by destruct (fields (r_in r) s).
    - by rewrite app_nil_r.
    - destruct (fields (r_in r) s); lia.
    - by destruct (server (r_in r)). }
  apply Forall_cons in Hok as [[Hh Hz] Hok]. rewrite Hh, Hfind.
  destruct (known ngx_http_headers_in (elt_lowcase_key e)) as [hh|] eqn:Hk; cbn [fmap option_fmap option_map].
  - destruct (run_handler find_virtual_server hh r e) as [r1 ok] eqn:Hr. destruct ok; [|done]. intros H.
    eapply kept_known; [done|done|by eapply run_handler_handled|by apply IH].
  - intros H. apply kept_unknown; [done|]. by apply IH.
Qed.
End all.

(** ** From the lines to the fields *)

Lemma header_of_ok underscores xs : Forall (header_wf underscores) xs -> Forall (fun x => zlen x.(hx_value) < 2 ^ 63) xs ->
  Forall (fun e => e.(elt_hash) = ngx_hash_key e.(elt_lowcase_key) /\ zlen e.(elt_value) < 2 ^ 63) (map header_of xs).
Proof.
  intros _ Hz. apply Forall_map. eapply Forall_impl; [done|]. intros x Hx. cbn. split; [apply key_lc|done].
Qed.

(** C15: The known headers.  The table of the known headers is built for every
    length of cache lines, whatever the memory held, and when header lines are
    read with it and no handler refuses one, each field of the request is the
    first header of its name, in upper or lower case, cookies and forwarded
    addresses are all of theirs in order, no header that may come once came
    twice, and the name of the server is the safe name in the first [Host], if
    the request line had none. *)
Theorem known_headers_kept find_virtual_server base k dirt address a addrs :
  0 < base < 2 ^ 63 -> 5 <= k <= 7 -> no_oom a -> (2 < length addrs)%nat -> Forall (Z.lt 0) addrs -> 0 < address ->
  exists h, ngx_http_init_headers_in_hash base (2 ^ k) dirt address a addrs = Some (InitOk address h, drop 3 addrs) /\
    forall underscores ignore xs crlf post b r r',
      Forall (header_wf underscores) xs -> Forall (fun x => zlen x.(hx_value) < 2 ^ 63) xs -> no_oom b ->
      run_handlers (find_handler find_virtual_server base h) r (map header_of xs) = Some r' ->
      let text := concat (map header_bytes xs) ++ eol crlf in
      read_headers (find_handler find_virtual_server base h) underscores ignore (text ++ post) b r =
        Some (HeadersDone (HeaderState (map header_of xs) (zlen text) r') (zlen text)) /\
      kept (map header_of xs) r r'.
Proof.
  intros Hb Hk Ha Hl Hpos Hadr. destruct addrs as [|x1 [|x2 [|x3 addrs]]]; cbn [length] in Hl; try lia.
  apply Forall_cons in Hpos as [H1 Hpos]. apply Forall_cons in Hpos as [H2 Hpos]. apply Forall_cons in Hpos as [H3 Hpos].
  destruct (headers_hash_table find_virtual_server base Hb k dirt address a x1 x2 x3 addrs) as (h & -> & Hf); [done..| |done|].
  { eapply Forall_impl; [done|]. cbn. lia. }
  exists h. split; [done|]. intros underscores ignore xs crlf post b r r' Hwf Hz Hno Hr text. split.
  - unfold read_headers, text. rewrite <- app_assoc.
    rewrite (process_headers _ underscores ignore xs [] _ new_hdr crlf post b _ r'); [done|done|done| |done|done].
    pose proof (header_lines _ _ Hwf). rewrite length_app. lia.
  - eapply run_handlers_kept; [exact Hf|by eapply header_of_ok|done].
Qed.

(** ** The length of the body *)

Lemma casecmp_is v w : nonzero v -> nonzero w -> map ngx_tolower w = w ->
  ((zlen v =? zlen w) && (ngx_strncasecmp v w (length w) =? 0)) = bool_decide (map ngx_tolower v = w).
Proof.
  intros Hv Hw Hlow. apply eq_true_iff_eq. rewrite andb_true_iff, !Z.eqb_eq, bool_decide_eq_true. unfold zlen. split.
  - intros [Hl E]. apply strncasecmp_eq in E; [congruence|done|done|lia|done].
  - intros E. assert (Hl : length v = length w) by (rewrite <- E; by rewrite length_map). split; [lia|].
    apply strncasecmp_eq; [done|done|done|done|congruence].
Qed.

(** A request before its headers are read; the name of the server may be known
    from the request line. *)
Definition fresh_request (r : request) : Prop :=
  (forall s, r.(r_in).(fields) s = None) /\ r.(r_in).(content_length_n) = -1 /\ r.(r_in).(is_chunked) = false.

(** What [ngx_http_process_request_header] decides about the body. *)
Definition body_framed (elts : list table_elt) (i : headers_in) : Prop :=
  match head (named_elts (lit "transfer-encoding") elts) with
  | Some te =>
      (map ngx_tolower te.(elt_value) = lit "chunked" /\ i.(is_chunked) = true /\ i.(content_length_n) = -1) \/
      (map ngx_tolower te.(elt_value) = lit "identity" /\ i.(is_chunked) = false)
  | None => i.(is_chunked) = false
  end /\
  (i.(is_chunked) = false ->
   match named_elts (lit "content-length") elts with
   | [] => i.(content_length_n) = -1
   | [cl] => i.(content_length_n) = NgxNumber.ngx_atoof cl.(elt_value) /\ i.(content_length_n) <> -1
   | _ => False
   end).

Section framing.
Context (find_virtual_server : list Z -> server_result) (elts : list table_elt).
Context (Hnz : Forall (fun e => nonzero e.(elt_value)) elts).

Lemma head_named_nonzero name e : head (named_elts name elts) = Some e -> nonzero e.(elt_value).
Proof.
  intros H. assert (Hin : In e (named_elts name elts)) by (destruct (named_elts name elts); [done|injection H as ->; by left]).
  apply List.filter_In in Hin as [Hin _]. rewrite Forall_forall in Hnz. apply Hnz. by apply list_elem_of_In.
Qed.

Lemma set_server_in r host r' ok : ngx_http_set_virtual_server find_virtual_server r host = (r', ok) -> r'.(r_in) = r.(r_in).
Proof. unfold ngx_http_set_virtual_server. by destruct (find_virtual_server host); intros [= <- _]. Qed.

(** The tail of the function, from the test of [Transfer-Encoding]. *)
Lemma header_framed method version r0 r r2 :
  fresh_request r0 -> kept elts r0 r -> ngx_http_process_request_header find_virtual_server method version r = (r2, true) ->
  body_framed elts r2.(r_in) /\ (NGX_HTTP_VERSION_10 < version -> named_elts (lit "host") elts <> []) /\
  r2.(r_in).(server) = r.(r_in).(server) /\ Z.land method NGX_HTTP_TRACE = 0.
Proof.
  intros (Hf & Hn & Hc) [K1 _ K3 K4 K5 _ _]. unfold ngx_http_process_request_header.
  set (set := if zlen (server (r_in r)) =? 0 then _ else _).
  assert (Hset : r_in (fst set) = r_in r).
  { unfold set. destruct (zlen (server (r_in r)) =? 0); [|done].
    destruct (ngx_http_set_virtual_server find_virtual_server r (server (r_in r))) as [r1 ok] eqn:E. by apply set_server_in in E. }
  destruct set as [r1 ok]. cbn [fst] in Hset. destruct ok; cbn [negb]; [|done]. rewrite Hset.
  pose proof (K1 s_host _ eq_refl) as Khost. rewrite Hf in Khost.
  pose proof (K1 s_content_length _ eq_refl) as Kcl. rewrite Hf in Kcl.
  pose proof (K3 s_content_length _ eq_refl eq_refl) as Kone. rewrite Hf in Kone.
  pose proof (K1 s_transfer_encoding _ eq_refl) as Kte. rewrite Hf in Kte.
  destruct (negb (found (fields (r_in r) s_host)) && _) eqn:Eh; [done|].
  assert (Hhost : NGX_HTTP_VERSION_10 < version -> named_elts (lit "host") elts <> []).
  { intros Hv E. rewrite E in Khost. cbn in Khost. rewrite Khost in Eh. cbn in Eh. lia. }
  set (cl := match fields (r_in r) s_content_length with Some _ => _ | None => _ end).
  assert (Hcl : snd cl = true -> (forall s, fields (r_in (fst cl)) s = fields (r_in r) s) /\ is_chunked (r_in (fst cl)) = false /\
    server (r_in (fst cl)) = server (r_in r) /\
    match named_elts (lit "content-length") elts with
    | [] => content_length_n (r_in (fst cl)) = -1
    | [e] => content_length_n (r_in (fst cl)) = NgxNumber.ngx_atoof e.(elt_value) /\ content_length_n (r_in (fst cl)) <> -1
    | _ => False
    end).
  { unfold cl. rewrite Kcl. destruct (named_elts (lit "content-length") elts) as [|e [|]]; cbn [length head] in *; [|..|lia].
    - intros _. cbn [fst]. rewrite Hset. split; [done|]. split; [congruence|]. split; [done|congruence].
    - cbn [with_in r_in content_length_n set_length]. destruct (Z.eqb_spec (NgxNumber.ngx_atoof (elt_value e)) (-1)) as [|E]; [done|].
      intros _. cbn. split; [done|]. split; [congruence|]. done. }
  destruct cl as [r3 ok3]. cbn [fst snd] in Hcl. destruct ok3; cbn [negb]; [|done]. destruct (Hcl eq_refl) as (Hf3 & Hc3 & Hs3 & Hn3).
  destruct (Z.eqb_spec (Z.land method NGX_HTTP_TRACE) 0) as [Etr|]; cbn [negb]; [|done].
  set (te := match fields (r_in r3) s_transfer_encoding with Some _ => _ | None => _ end).
  assert (Hte : snd te = true -> body_framed elts (r_in (fst te)) /\ server (r_in (fst te)) = server (r_in r)).
  { unfold te, body_framed. rewrite Hf3, Kte. destruct (head (named_elts (lit "transfer-encoding") elts)) as [e|] eqn:Eh1; [|done].
    pose proof (head_named_nonzero _ _ Eh1) as Hnze.
    pose proof (casecmp_is (elt_value e) (lit "chunked") Hnze ltac:(by repeat constructor) eq_refl) as E7.
    change (zlen (lit "chunked")) with 7 in E7. change (length (lit "chunked")) with 7%nat in E7. rewrite E7.
    destruct (bool_decide_reflect (map ngx_tolower (elt_value e) = lit "chunked")) as [Ec|Ec].
    { intros _. cbn. split; [|done]. split; [left; done|done]. }
    pose proof (casecmp_is (elt_value e) (lit "identity") Hnze ltac:(by repeat constructor) eq_refl) as E8.
    change (zlen (lit "identity")) with 8 in E8. change (length (lit "identity")) with 8%nat in E8.
    rewrite <- negb_andb, E8. destruct (bool_decide_reflect (map ngx_tolower (elt_value e) = lit "identity")) as [Ei|Ei]; cbn [negb]; [|done].
    intros _. cbn [fst]. split; [|done]. split; [by right|done]. }
  destruct te as [r4 ok4]. cbn [fst snd] in Hte. destruct ok4; cbn [negb]; [|done]. destruct (Hte eq_refl) as [Hb Hs4].
  destruct (connection_type (r_in r4) =? 2); [destruct (fields (r_in r4) s_keep_alive)|]; intros [= <-]; done.
Qed.
End framing.

(** C16: How the body of a request is delimited.  When the handlers of a request's
    headers and the final check accept them, the body comes in chunks exactly if
    the first [Transfer-Encoding] says so, and then no length counts; else its
    length is the number in the only [Content-Length], or there is none.  A
    request of HTTP/1.1 has a [Host], and the name of its server, if not from the
    request line, is the safe name in the first one. *)
Theorem request_framed find_virtual_server base k dirt address a addrs h rest underscores xs r r1 r2 method version :
  0 < base < 2 ^ 63 -> 5 <= k <= 7 -> no_oom a -> (2 < length addrs)%nat -> Forall (Z.lt 0) addrs -> 0 < address ->
  ngx_http_init_headers_in_hash base (2 ^ k) dirt address a addrs = Some (InitOk address h, rest) ->
  Forall (header_wf underscores) xs -> Forall (fun x => zlen x.(hx_value) < 2 ^ 63) xs -> fresh_request r ->
  run_handlers (find_handler find_virtual_server base h) r (map header_of xs) = Some r1 ->
  ngx_http_process_request_header find_virtual_server method version r1 = (r2, true) ->
  body_framed (map header_of xs) r2.(r_in) /\
  (NGX_HTTP_VERSION_10 < version -> named_elts (lit "host") (map header_of xs) <> []) /\
  (r.(r_in).(server) = [] ->
   match named_elts (lit "host") (map header_of xs) with
   | [] => r2.(r_in).(server) = []
   | x :: _ => r2.(r_in).(server) = served x /\ safe_host (served x)
   end).
Proof.
  intros Hb Hk Ha Hl Hpos Hadr Hinit Hwf Hz Hfr Hrun Hproc.
  destruct addrs as [|x1 [|x2 [|x3 addrs]]]; cbn [length] in Hl; try lia.
  apply Forall_cons in Hpos as [H1 Hpos]. apply Forall_cons in Hpos as [H2 Hpos]. apply Forall_cons in Hpos as [H3 Hpos].
  destruct (headers_hash_table find_virtual_server base Hb k dirt address a x1 x2 x3 addrs) as (h' & Hinit' & Hf); [done..| |done|].
  { eapply Forall_impl; [done|]. cbn. lia. }
  rewrite Hinit in Hinit'. injection Hinit' as <- _.
  pose proof (run_handlers_kept find_virtual_server _ Hf _ r r1 (header_of_ok _ _ Hwf Hz) Hrun) as Hkept.
  destruct (header_framed find_virtual_server (map header_of xs)) with (2 := Hfr) (3 := Hkept) (4 := Hproc) as (Hbody & Hhost & Hs & _).
  { apply Forall_map. eapply Forall_impl; [exact Hwf|]. intros x (_ & Hv & _). cbn. eapply Forall_impl; [exact Hv|]. by intros c (_ & _ & ?). }
  split; [done|]. split; [done|]. intros E. destruct Hkept as [_ _ _ _ _ Kh Ks]. rewrite E in Ks. rewrite Hs, Ks.
  destruct (named_elts (lit "host") (map header_of xs)) as [|x l]; [done|]. split; [done|]. by apply Forall_cons in Kh as [? _].
Qed.

(** *** Examples *)

Definition no_servers (_ : list Z) : server_result := ServerDeclined.

Definition sample_headers : list header :=
  [Header (lit "HOST") 1 (lit "Example.com:80") 0 true; Header (lit "Cookie") 1 (lit "a=1") 0 true;
   Header (lit "Content-Length") 1 (lit "42") 0 true; Header (lit "X-Unknown") 1 (lit "x") 0 true;
   Header (lit "cookie") 0 (lit "b=2") 0 true].

Definition sample_request : request := Request no_headers 0 [] 0.

Lemma sample_headers_wf : Forall (header_wf false) sample_headers.
Proof.
  assert (Hname : forall l, forallb (fun c => is_byteb c && name_char false c) l = true -> Forall (fun c => is_byte c /\ name_char false c = true) l).
  { intros l Hl. apply List.Forall_forall. intros c Hin. pose proof (proj1 (List.forallb_forall _ _) Hl c Hin) as Hc.
    apply andb_prop in Hc as [H1%is_byteb_spec H2]. exact (conj H1 H2). }
  repeat (apply Forall_cons; split); [..|by apply Forall_nil];
    (split; [split; [vm_compute; discriminate|apply Hname; vm_compute; reflexivity]|]);
    (split; [by repeat constructor|]); split; vm_compute; discriminate.
Qed.

Lemma sample_headers_short : Forall (fun x => zlen x.(hx_value) < 2 ^ 63) sample_headers.
Proof. repeat (apply Forall_cons; split; [vm_compute; reflexivity|]). by apply Forall_nil. Qed.

(** The table, the request after the handlers, and after the final check. *)
Definition sample_table : hash_t :=
  match ngx_http_init_headers_in_hash 4096 64 (fun _ => 255) 99 [] [1024; 2048; 8200] with
  | Some (InitOk _ h, _) => h
  | _ => Hash [] 0 (Block 0 [])
  end.

Lemma sample_table_built :
  ngx_http_init_headers_in_hash 4096 64 (fun _ => 255) 99 [] [1024; 2048; 8200] = Some (InitOk 99 sample_table, []).
Proof. vm_compute. reflexivity. Qed.

Definition sample_kept : request :=
  match run_handlers (find_handler no_servers 4096 sample_table) sample_request (map header_of sample_headers) with
  | Some r => r
  | None => sample_request
  end.

Lemma sample_run :
  run_handlers (find_handler no_servers 4096 sample_table) sample_request (map header_of sample_headers) = Some sample_kept.
Proof. vm_compute. reflexivity. Qed.

Definition sample_checked : request := fst (ngx_http_process_request_header no_servers 2 1001 sample_kept).

Lemma sample_check : ngx_http_process_request_header no_servers 2 1001 sample_kept = (sample_checked, true).
Proof. vm_compute. reflexivity. Qed.

Lemma built_same (x : option (init_result * list Z)) a h h' rest :
  x = Some (InitOk a h, rest) -> x = Some (InitOk a h', rest) -> h = h'.
Proof. congruence. Qed.

Lemma known_headers_kept_witness :
  let text := concat (map header_bytes sample_headers) ++ eol true in
  read_headers (find_handler no_servers 4096 sample_table) false true text [] sample_request =
    Some (HeadersDone (HeaderState (map header_of sample_headers) (zlen text) sample_kept) (zlen text)) /\
  map elt_value (sample_kept.(r_in).(arrays) m_cookies) = [lit "a=1"; lit "b=2"] /\
  sample_kept.(r_in).(server) = lit "example.com".
Proof.
  destruct (known_headers_kept no_servers 4096 6 (fun _ => 255) 99 [] [1024; 2048; 8200]) as (h & Hinit & H);
    [lia|lia|constructor|cbn; lia|repeat (apply Forall_cons; split; [lia|]); by apply Forall_nil|lia|].
  apply (built_same _ _ _ _ _ sample_table_built) in Hinit as <-.
  destruct (H false true sample_headers true [] [] sample_request sample_kept sample_headers_wf sample_headers_short ltac:(constructor) sample_run)
    as [Hread K]. rewrite app_nil_r in Hread. split; [exact Hread|].
  split; [rewrite (kp_arrays _ _ _ K); vm_compute; reflexivity|]. rewrite (kp_server _ _ _ K). vm_compute. reflexivity.
Defined.

Lemma request_framed_witness :
  body_framed (map header_of sample_headers) sample_checked.(r_in) /\ sample_checked.(r_in).(server) = lit "example.com".
Proof.
  destruct (request_framed no_servers 4096 6 (fun _ => 255) 99 [] [1024; 2048; 8200] sample_table [] false sample_headers
    sample_request sample_kept sample_checked 2 1001) as (Hb & _ & Hs);
    [lia|lia|constructor|cbn; lia|repeat (apply Forall_cons; split; [lia|]); by apply Forall_nil|lia|apply sample_table_built|
     apply sample_headers_wf|apply sample_headers_short|done|apply sample_run|apply sample_check|].
  split; [exact Hb|]. destruct (Hs eq_refl) as [-> _]. vm_compute. reflexivity.
Defined.

(** A [Content-Length] of 2^64 + 5 is taken as five: the number is read without a
    test for overflow, and only its sign is looked at. *)
Theorem content_length_wraps :
  let h := header_of (Header (lit "Content-Length") 1 (lit "18446744073709551621") 0 true) in
  let r := with_in sample_request (set_field no_headers s_content_length (Some h)) in
  exists r2, ngx_http_process_request_header no_servers 2 1000 r = (r2, true) /\ r2.(r_in).(content_length_n) = 5.
Proof. eexists. split; [vm_compute; reflexivity|]. reflexivity. Qed.
