(* ===== verification/HttpServerNames.v ===== *)
(** * Servers by name ([ngx_http.c], [ngx_http_core_module.c], [ngx_http_request.c])

    The directive [server_name] collects names; for an address with several
    servers [ngx_http_server_names] makes of them the tables in which
    [ngx_http_find_virtual_server] finds the server for the host of a request. *)

From stdpp Require Import gmap.
From S2P Require Import Prelude NgxMem NgxCompare NgxHash NgxHashWild NgxHashKeys HttpHandlers.

(** ** The directive *)

(** [ngx_http_server_name_t]: a name, or a regular expression by its number. *)
Record server_name := ServerName {
  sn_regex : option Z;
  sn_server : Z;
  sn_name : list Z;
}.

(** [server_names] and [captures] of [ngx_http_core_srv_conf_t]. *)
Record srv_names := SrvNames {
  names : list server_name;
  captures : bool;
}.

Section server_name.
(** [ngx_http_regex_compile]: the expression and the number of its captures. *)
Context (regex_compile : list Z -> bool -> option (Z * Z)).
Context (cscf : Z) (hostname : list Z).

(** One argument; [None] is [NGX_CONF_ERROR].  Behind an argument is the end of
    the string. *)
Definition one_server_name (s : srv_names) (value : list Z) (a : allocs) : option (srv_names * allocs) :=
  let ch := hd 0 value in
  if ((ch =? chr "*") && ((length value <? 3)%nat || negb (nth 1 value 0 =? chr "."))) || ((ch =? chr ".") && (length value <? 2)%nat) then None
  else
    let '(ok, a) := alloc a in
    if negb ok then None
    else
      let name := if ngx_strcasecmp value (lit "$hostname") =? 0 then hostname else value in
      if negb (ch =? chr "~") then
        Some (SrvNames (s.(names) ++ [ServerName None cscf (map ngx_tolower name)]) s.(captures), a)
      else if (length value =? 1)%nat then None
      else
        let value := tl value in
        let caseless := existsb (fun c => (chr "A" <=? c) && (c <=? chr "Z")) value in
        match regex_compile value caseless with
        | None => None
        | Some (regex, n) => Some (SrvNames (s.(names) ++ [ServerName (Some regex) cscf value]) (n >? 0), a)
        end.

Fixpoint ngx_http_core_server_name (s : srv_names) (values : list (list Z)) (a : allocs) : option (srv_names * allocs) :=
  match values with
  | [] => Some (s, a)
  | value :: values =>
      match one_server_name s value a with
      | None => None
      | Some (s, a) => ngx_http_core_server_name s values a
      end
  end.

(** The part of [ngx_http_core_merge_srv_conf] on names: a server without a name
    gets the empty one; the server's own name is the first, without its first
    dot and with the tilde of an expression.  [None] is no memory. *)
Definition merge_server_name (s : srv_names) (a : allocs) : option (srv_names * list Z * allocs) :=
  let s := match s.(names) with [] => SrvNames [ServerName None cscf []] s.(captures) | _ => s end in
  let name := match s.(names) with
              | [] => []
              | sn :: _ =>
                  match sn.(sn_regex) with
                  | Some _ => chr "~" :: sn.(sn_name)
                  | None => if hd 0 sn.(sn_name) =? chr "." then tl sn.(sn_name) else sn.(sn_name)
                  end
              end in
  let '(ok, a) := alloc a in
  if ok then Some (s, name, a) else None.
End server_name.

(** ** The tables of an address *)

(** The parts of [ngx_http_conf_addr_t] for names: tables that were not made are
    missing. *)
Record conf_addr := ConfAddr {
  a_hash : option hash_t;
  a_head : option Z;
  a_tail : option Z;
  a_regex : list (Z * Z);
}.

Definition ngx_http_cmp_dns_wildcards (one two : hash_key) : Z := ngx_dns_strcmp one.(k_key) two.(k_key).

(** The loop that collects the names; [inl] is an error, [None] is undefined. *)
Fixpoint add_server_names (ha : keys_arrays) (sns : list server_name) (a : allocs) : option ((unit + keys_arrays) * allocs) :=
  match sns with
  | [] => Some (inr ha, a)
  | sn :: sns =>
      match sn.(sn_regex) with
      | Some _ => add_server_names ha sns a
      | None =>
          match ngx_hash_add_key ha sn.(sn_name) sn.(sn_server) true false a with
          | None => None
          | Some (rc, ha, a) =>
              if (rc =? NGX_ERROR) || (rc =? NGX_DECLINED) then Some (inl tt, a) else add_server_names ha sns a
          end
      end
  end.

Definition regex_names (sns : list server_name) : list (Z * Z) :=
  omap (fun sn => match sn.(sn_regex) with Some r => Some (r, sn.(sn_server)) | None => None end) sns.

Section names.
Context (cacheline : Z) (dirt : Z -> Z).
(** [qsort] of the C library, on arrays of names. *)
Context (qsort : (hash_key -> hash_key -> Z) -> list hash_key -> list hash_key).
(** [server_names_hash_max_size], [server_names_hash_bucket_size], and where the
    table of an address is. *)
Context (max_size bucket_size hash_at : Z).

(** The exact names; an error is [None] inside. *)
Definition exact_table (keys : list hash_key) (st : wstate) : option (option (option hash_t) * wstate) :=
  match keys with
  | [] => Some (Some None, st)
  | _ =>
      match ngx_hash_init cacheline dirt (HashInit hash_at max_size bucket_size) keys st.(ws_addrs) with
      | None => None
      | Some (InitError, addrs) => Some (None, WState st.(ws_allocs) addrs st.(ws_heap))
      | Some (InitOk _ h, addrs) => Some (Some (Some h), WState st.(ws_allocs) addrs st.(ws_heap))
      end
  end.

(** Names with wildcards: sorted, in tables whose names get shorter. *)
Definition wildcard_table (keys : list hash_key) (st : wstate) : option (option (option Z) * wstate) :=
  match keys with
  | [] => Some (Some None, st)
  | _ =>
      let sorted := qsort ngx_http_cmp_dns_wildcards keys in
      match ngx_hash_wildcard_init cacheline dirt ngx_hash_key_lc (S (list_max (map (fun x => length x.(k_key)) sorted)))
              (HashInit 0 max_size bucket_size) sorted st with
      | None => None
      | Some (None, st) => Some (None, st)
      | Some (Some a, st) => Some (Some (Some a), st)
      end
  end.

(** [ngx_http_server_names] for the servers of an address. *)
Definition ngx_http_server_names (servers : list (list server_name)) (st : wstate) : option (option conf_addr * wstate) :=
  let st_with a := WState a st.(ws_addrs) st.(ws_heap) in
  let '(ok, a) := alloc st.(ws_allocs) in
  if negb ok then Some (None, st_with a)
  else
    match ngx_hash_keys_array_init false a with
    | (None, a) => Some (None, st_with a)
    | (Some ha, a) =>
        match add_server_names ha (concat servers) a with
        | None => None
        | Some (inl _, a) => Some (None, st_with a)
        | Some (inr ha, a) =>
            match exact_table ha.(ha_keys) (st_with a) with
            | None => None
            | Some (None, st) => Some (None, st)
            | Some (Some hash, st) =>
                match wildcard_table ha.(ha_head) st with
                | None => None
                | Some (None, st) => Some (None, st)
                | Some (Some head, st) =>
                    match wildcard_table ha.(ha_tail) st with
                    | None => None
                    | Some (None, st) => Some (None, st)
                    | Some (Some tail, st) =>
                        match regex_names (concat servers) with
                        | [] => Some (Some (ConfAddr hash head tail []), st)
                        | regex =>
                            let '(ok, a) := alloc st.(ws_allocs) in
                            let st := WState a st.(ws_addrs) st.(ws_heap) in
                            if negb ok then Some (None, st) else Some (Some (ConfAddr hash head tail regex), st)
                        end
                    end
                end
            end
        end
    end.
End names.

(** ** Requests *)

(** [ngx_http_virtual_names_t]. *)
Record virtual_names := VirtualNames {
  vn_names : combined;
  vn_regex : list (Z * Z);
}.

(** The part of [ngx_http_add_addrs] for one address: no names, no memory, or
    the names. *)
Definition add_addr (addr : conf_addr) (a : allocs) : option (option virtual_names) * allocs :=
  match addr with
  | ConfAddr None None None [] => (Some None, a)
  | ConfAddr hash head tail regex =>
      let '(ok, a) := alloc a in
      if negb ok then (None, a) else (Some (Some (VirtualNames (Combined hash head tail) regex)), a)
  end.

Section find.
(** [ngx_http_regex_exec] on the request, for an expression and a host. *)
Context (regex_exec : Z -> list Z -> Z).

Fixpoint regex_loop (sn : list (Z * Z)) (host : list Z) : server_result :=
  match sn with
  | [] => ServerDeclined
  | (regex, server) :: sn =>
      let n := regex_exec regex host in
      if n =? NGX_DECLINED then regex_loop sn host
      else if n =? NGX_OK then ServerOk server
      else ServerError
  end.

Definition ngx_http_find_virtual_server (hp : heap) (vn : option virtual_names) (host : list Z) : option server_result :=
  match vn with
  | None => Some ServerDeclined
  | Some vn =>
      match ngx_hash_find_combined hp vn.(vn_names) (ngx_hash_key host) host with
      | None => None
      | Some cscf =>
          if negb (cscf =? 0) then Some (ServerOk cscf)
          else if negb (zlen host =? 0) then Some (regex_loop vn.(vn_regex) host)
          else Some ServerDeclined
      end
  end.
End find.
