(* ===== verification/HttpServerNamesSpec.v ===== *)
(** * Servers by name: which server is found

    The server of a host: the one with the exact name; else the one with the
    longest name with a wildcard in front that matches; else the one with the
    longest name with a wildcard at the end; else the one with the first regular
    expression that matches. *)

From stdpp Require Import gmap sorting.
From S2P Require Import Prelude NgxMem NgxCompare NgxHash NgxHashSpec NgxHashTable NgxHashWild NgxHashLabels NgxHashWildSpec NgxHashWildFind NgxHashKeys NgxHashKeysSpec NgxHashCollect NgxHashKept HttpHandlers HttpServerNames.

(** ** What is promised *)

Definition is_exact (p : pattern) : bool := match p with PExact _ => true | _ => false end.

Definition none (sel : pattern -> bool) (kept : list (pattern * Z)) (host : list Z) : Prop :=
  forall p v, (p, v) ∈ kept -> sel p = true -> ~ matches p host.

(** The server of the longest name that matches. *)
Definition best (sel : pattern -> bool) (kept : list (pattern * Z)) (host : list Z) (v : Z) : Prop :=
  exists p, (p, v) ∈ kept /\ sel p = true /\ matches p host /\
    forall p' v', (p', v') ∈ kept -> sel p' = true -> matches p' host -> (pattern_depth p' <= pattern_depth p)%nat.

Inductive serves (regex_exec : Z -> list Z -> Z) (kept : list (pattern * Z)) (regex : list (Z * Z)) (host : list Z) : server_result -> Prop :=
  | by_exact v : best is_exact kept host v -> serves regex_exec kept regex host (ServerOk v)
  | by_head v : none is_exact kept host -> best is_head kept host v -> serves regex_exec kept regex host (ServerOk v)
  | by_tail v : none is_exact kept host -> none is_head kept host -> best is_tail kept host v -> serves regex_exec kept regex host (ServerOk v)
  | by_regex : none is_exact kept host -> none is_head kept host -> none is_tail kept host ->
      serves regex_exec kept regex host (if zlen host =? 0 then ServerDeclined else regex_loop regex_exec regex host).

(** The names of the configuration, without expressions, in order. *)
Definition patterns_of (sns : list server_name) : list (pattern * Z) :=
  omap (fun sn => match sn.(sn_regex) with
                  | Some _ => None
                  | None => match pattern_of sn.(sn_name) with Some p => Some (p, sn.(sn_server)) | None => None end
                  end) sns.

(** A name is an expression, a pattern, or refused. *)
Definition name_valid (sn : server_name) : Prop := sn.(sn_regex) = None -> pattern_of sn.(sn_name) <> None.

(** Servers are pointers to words; the labels of names with wildcards are not
    empty and of characters a host can have. *)
Definition server_name_ok (sn : server_name) : Prop :=
  ptr_ok sn.(sn_server) /\ forall p, pattern_of sn.(sn_name) = Some p -> good_pattern p.

(** [qsort] sorts what is ordered by the function. *)
Definition ordered_by {A} (cmp : A -> A -> Z) (l : list A) : Prop :=
  (forall a b, a ∈ l -> b ∈ l -> cmp a b <= 0 \/ cmp b a <= 0) /\
  (forall a b c, a ∈ l -> b ∈ l -> c ∈ l -> cmp a b <= 0 -> cmp b c <= 0 -> cmp a c <= 0).

Definition qsort_ok (qsort : (hash_key -> hash_key -> Z) -> list hash_key -> list hash_key) : Prop :=
  forall cmp l, ordered_by cmp l -> qsort cmp l ≡ₚ l /\ StronglySorted (fun a b => cmp a b <= 0) (qsort cmp l).

(** ** Collecting *)

Lemma add_server_names_collects sns : forall ha t kept a,
  collected 10007 ha t kept -> Forall server_name_ok sns ->
  match add_server_names ha sns a with
  | None => False
  | Some (inl _, a') => ~ no_oom a \/ Exists (fun sn => ~ name_valid sn) sns
  | Some (inr ha', a') => went a a' /\ Forall name_valid sns /\ exists t', collected 10007 ha' t' (kept ++ collect_names t (patterns_of sns))
  end.
Proof.
  induction sns as [|sn sns IH]; intros ha t kept a Hc Hok; cbn [add_server_names].
  { split; [by intros ?|]. split; [done|]. exists t. by rewrite app_nil_r. }
  inversion_clear Hok as [|? ? Hsn Hok']. unfold patterns_of. cbn [omap list_omap]. fold (patterns_of sns). destruct (sn_regex sn) as [rx|] eqn:R.
  - specialize (IH ha t kept a Hc Hok'). destruct (add_server_names ha sns a) as [[[|ha'] a']|]; [destruct IH; [by left|right; by right]| |done].
    destruct IH as (W & Hv & Ht). split; [done|]. split; [|done]. constructor; [|done]. intros E. congruence.
  - destruct (pattern_of (sn_name sn)) as [p|] eqn:P.
    + pose proof (add_key_collects 10007 ha t kept (sn_name sn) p (sn_server sn) a Hc P (proj2 Hsn p P)) as F.
      destruct F as (rc & ha1 & a1 & -> & W & F). destruct F as [[-> Ho]|F]; [by left|].
      cbn [collect_names]. destruct (takes t p) as [keep t']. destruct F as [-> Hc']. replace ((_ =? NGX_ERROR) || _) with false by (by destruct keep).
      specialize (IH ha1 t' _ a1 Hc' Hok'). destruct (add_server_names ha1 sns a1) as [[[|ha'] a']|]; [| |done].
      * destruct IH as [Ho|Hex]; [left; by eapply went_oom|right; by right].
      * destruct IH as (W' & Hv & t'' & Ht). split; [by eapply went_trans|]. split; [constructor; [|done]; intros _; by rewrite P|].
        exists t''. destruct keep; [by rewrite <- app_assoc in Ht|done].
    + rewrite add_key_declined by done. cbn. right. left. intros Hv. by apply Hv.
Qed.

(** ** The choice in each table *)

Definition chosen (sel : pattern -> bool) (kept : list (pattern * Z)) (host : list Z) (v : Z) : Prop :=
  (v = 0 /\ none sel kept host) \/ (v <> 0 /\ best sel kept host v).

Section choice.
Context (kept : list (pattern * Z)).
Context (Hgood : Forall (fun e => good_pattern e.1) kept) (Hval : Forall (fun e => ptr_ok e.2) kept).

Lemma exact_value host : let v := value_of (omap exact_key kept) host in
  (v = 0 /\ forall w, (PExact host, w) ∉ kept) \/ (v <> 0 /\ (PExact host, v) ∈ kept).
Proof.
  cbv zeta. induction kept as [|[p v] l IH]; [left; split; [done|]; intros w H; inversion H|]. inversion_clear Hgood as [|? ? Hg Hgl]. inversion_clear Hval as [|? ? Hv Hvl].
  specialize (IH Hgl Hvl). cbn [omap list_omap fst snd] in *.
  assert (Hskip : p <> PExact host -> let v' := value_of (omap exact_key l) host in
    (v' = 0 /\ forall w, (PExact host, w) ∉ (p, v) :: l) \/ (v' <> 0 /\ (PExact host, v') ∈ (p, v) :: l)).
  { intros Hne. cbv zeta. destruct IH as [[-> IH]|[? IH]]; [left; split; [done|]|right; split; [done|by right]].
    intros w. rewrite elem_of_cons. intros [[= <- _]|H]; [done|by apply (IH w)]. }
  destruct p as [n|n|n|n]; try (by apply Hskip).
  change (exact_key (PExact n, v)) with (Some (HashKey n false (ngx_hash_key n) v)). cbn iota. rewrite value_of_cons by done. unfold low_key. cbn [k_key k_value]. rewrite strlow_lower. rewrite (proj2 Hg). destruct (beq n host) eqn:B.
  - apply beq_eq in B as ->. right. split; [destruct Hv as [Hv _]; lia|by left].
  - apply Hskip. intros [= ->]. by rewrite beq_refl in B.
Qed.

Lemma exact_chosen host : chosen is_exact kept host (value_of (omap exact_key kept) host).
Proof.
  destruct (exact_value host) as [[-> H]|[Hv H]]; [left|right]; (split; [done|]).
  - intros [n|n|n|n] v Hin Hs Hm; try done. cbn in Hm. subst n. by apply (H v).
  - exists (PExact host). split; [done|]. split; [done|]. split; [done|]. intros [n|n|n|n] v Hin Hs Hm; try done. cbn in Hm. by subst n.
Qed.

(** A table of names that match as their patterns do. *)
Lemma longest_chosen (sel : pattern -> bool) (f : pattern * Z -> option hash_key) (m : list Z -> option nat) ts host b :
  (forall x h, x ∈ kept -> f x = Some h -> sel x.1 = true /\ h.(k_value) = x.2 /\
     forall k, m h.(k_key) = Some k <-> matches x.1 host /\ k = pattern_depth x.1) ->
  (forall x, x ∈ kept -> sel x.1 = true -> f x <> None) ->
  ts ≡ₚ omap f kept -> longest m (map entry_of ts) b -> chosen sel kept host b.
Proof.
  intros Hf Hsel Hp Hl.
  assert (Hin : forall p v, (p, v) ∈ kept -> sel p = true -> exists h, f (p, v) = Some h /\ entry_of h ∈ map entry_of ts).
  { intros p v Hin Hs. destruct (f (p, v)) as [h|] eqn:F; [|exfalso; by apply (Hsel (p, v) Hin Hs)]. exists h. split; [done|].
    apply list_elem_of_fmap_2. rewrite Hp. apply list_elem_of_omap. by exists (p, v). }
  destruct Hl as [[-> Hnone]|(Hb & e & k & He & Hm & <- & Hmax)]; [left|right]; (split; [done|]).
  - intros p v Hpv Hs Hmt. destruct (Hin p v Hpv Hs) as (h & F & Hh). destruct (Hf _ _ Hpv F) as (_ & _ & Hk).
    specialize (Hnone _ Hh). cbn [entry_of fst] in Hnone. by rewrite (proj2 (Hk _) (conj Hmt eq_refl)) in Hnone.
  - apply list_elem_of_fmap in He as (h & -> & Hh). rewrite Hp in Hh. apply list_elem_of_omap in Hh as ([p v] & Hpv & F).
    destruct (Hf _ _ Hpv F) as (Hs & Hv & Hk). cbn [entry_of fst snd] in *. apply Hk in Hm as [Hmt ->]. exists p. rewrite Hv.
    split; [done|]. split; [done|]. split; [done|]. intros p' v' Hpv' Hs' Hmt'. destruct (Hin p' v' Hpv' Hs') as (h' & F' & Hh').
    destruct (Hf _ _ Hpv' F') as (_ & _ & Hk'). apply (Hmax _ _ Hh'). by apply Hk'.
Qed.

Lemma head_chosen ts host b : ts ≡ₚ omap head_key kept -> longest (fun t => match_head t (rev (split host))) (map entry_of ts) b -> chosen is_head kept host b.
Proof.
  apply longest_chosen.
  - intros x h Hx F. apply (kept_head _ Hgood) in F as (P & -> & G & _); [|done]. split; [done|]. split; [done|]. intros k. by apply head_match.
  - intros x Hx Hs. unfold head_key. by rewrite Hs.
Qed.

Lemma tail_chosen ts host b : ts ≡ₚ omap tail_key kept -> longest (fun t => match_tail t (split host)) (map entry_of ts) b -> chosen is_tail kept host b.
Proof.
  apply longest_chosen.
  - intros x h Hx F. apply (kept_tail _ Hgood) in F as (n & E & -> & G & _); [|done]. rewrite E. split; [done|]. split; [done|]. intros k. by apply tail_match.
  - intros [[n|n|n|n] v] Hx Hs; done.
Qed.
End choice.

(** ** The tables *)

Lemma list_max_lt (l : list hash_key) : Forall (fun x => length x.(k_key) < S (list_max (map (fun x => length x.(k_key)) l)))%nat l.
Proof.
  apply Forall_forall. intros x Hx. apply Nat.lt_succ_r. pose proof (proj1 (list_max_le (map (fun x => length x.(k_key)) l) _) (le_n _)) as H.
  rewrite List.Forall_forall in H. apply H, (in_map (fun x => length x.(k_key))). by apply list_elem_of_In.
Qed.

Lemma dns_ordered l : Forall (fun x => Forall name_char_ok x.(k_key)) l -> ordered_by ngx_http_cmp_dns_wildcards l.
Proof.
  rewrite Forall_forall. intros Hl. unfold ordered_by, ngx_http_cmp_dns_wildcards. split.
  - intros a b Ha Hb. rewrite !dns_strcmp_le by auto. destruct (dns_total a.(k_key) b.(k_key)) as [?|[?|?]]; auto.
  - intros a b c Ha Hb Hc. rewrite !dns_strcmp_le by auto. intros [H1| ->] [H2| <-]; auto. left. eapply dns_trans; [| | |exact H1|exact H2]; auto.
Qed.

Section tables.
Context (k : Z) (Hk : 3 <= k <= 15) (dirt : Z -> Z).
Context (qsort : (hash_key -> hash_key -> Z) -> list hash_key -> list hash_key) (Hqsort : qsort_ok qsort).
Context (max_size bucket_size hash_at : Z) (Hb : 24 <= bucket_size < 2 ^ 15).

(** A table of the sorted names was made at the pointer, and the others are
    kept; without names there is none. *)
Definition table_made (keys sorted : list hash_key) (o : option Z) (st st' : wstate) : Prop :=
  fresh_state st' /\ st.(ws_heap) ⊆ st'.(ws_heap) /\
  match o with
  | None => keys = []
  | Some a => exists n h, st'.(ws_heap) !! a = Some (Wildcard h 0) /\ rep n st'.(ws_heap) h (map entry_of sorted)
  end.

Lemma wildcard_table_made keys st :
  let sorted := qsort ngx_http_cmp_dns_wildcards keys in
  names_ok (map entry_of sorted) -> sorted ≡ₚ keys -> fresh_state st ->
  exists r st', wildcard_table (2 ^ k) dirt qsort max_size bucket_size keys st = Some (r, st') /\
    match r with None => True | Some o => table_made keys sorted o st st' end.
Proof.
  cbv zeta. intros Hok Hp Hst. unfold wildcard_table. destruct keys as [|x keys].
  { eexists _, _. split; [done|]. by split. }
  set (sorted := qsort _ _) in *. assert (Hne : sorted <> []) by (intros E; rewrite E in Hp; by apply Permutation_nil_l in Hp).
  destruct (wildcard_init_makes k Hk dirt ngx_hash_key_lc key_lc _ (HashInit 0 max_size bucket_size) eq_refl Hb sorted st Hne Hok (list_max_lt sorted) Hst) as (r & st' & -> & Hr).
  destruct r as [a|]; eexists _, _; (split; [done|]); [|done]. destruct Hr as (Hf & Ha & h & hp1 & Eh & Hsub & Hn & Hrep). split; [done|].
  assert (Hsub' : hp1 ⊆ ws_heap st') by (rewrite Eh; by apply insert_subseteq). split; [by etrans|].
  eexists _, h. split; [by rewrite Eh, lookup_insert_eq|]. by eapply rep_mono.
Qed.

Lemma fresh_drop n a st : fresh_state st -> fresh_state (WState a (drop n st.(ws_addrs)) st.(ws_heap)).
Proof.
  intros [S1 S2 S3]. split; cbn.
  - rewrite <- (take_drop n (ws_addrs st)) in S1. by apply NoDup_app in S1 as (_ & _ & ?).
  - by apply Forall_drop.
  - intros x Hx. apply S3. rewrite <- (take_drop n (ws_addrs st)). apply elem_of_app. by right.
Qed.

(** The exact table, if there is one. *)
Lemma exact_table_made kept st : Forall (fun e => good_pattern e.1) kept -> Forall (fun e => ptr_ok e.2) kept -> fresh_state st ->
  exists r st', exact_table (2 ^ k) dirt max_size bucket_size hash_at (omap exact_key kept) st = Some (r, st') /\
    match r with
    | None => True
    | Some o => fresh_state st' /\ st'.(ws_heap) = st.(ws_heap) /\ st'.(ws_allocs) = st.(ws_allocs) /\
        forall host, exists v, match o with Some h => ngx_hash_find h (ngx_hash_key host) host | None => Some 0 end = Some v /\ chosen is_exact kept host v
    end.
Proof.
  intros Hgood Hval Hst. pose proof (exact_chosen kept Hgood Hval) as Hch. unfold exact_table. destruct (omap exact_key kept) as [|x keys] eqn:K.
  { eexists _, _. split; [done|]. split; [done|]. split; [done|]. split; [done|]. intros host. exists 0. split; [done|]. exact (Hch host). }
  rewrite <- K in *. clear K x keys.
  assert (Hx : forall h, h ∈ omap exact_key kept -> exists n v, h = HashKey n false (ngx_hash_key n) v /\ ptr_ok v /\ map ngx_tolower n = n).
  { intros h Hh. apply list_elem_of_omap in Hh as ([[n|n|n|n] v] & Hin & E); try done. injection E as <-. exists n, v. split; [done|].
    rewrite Forall_forall in Hgood, Hval. split; [by apply (Hval _ Hin)|by apply (Hgood _ Hin)]. }
  destruct (hash_init_holds k dirt (HashInit hash_at max_size bucket_size) (omap exact_key kept) (ws_addrs st) Hk Hb) as (start & r & addrs' & _ & -> & Hr).
  { apply Forall_forall. intros h Hh. apply Hx in Hh as (n & v & -> & [Hv _] & _). split; [apply hash_key_nonneg|cbn; lia]. }
  { destruct Hst as [_ H _]. eapply Forall_impl; [exact H|]. intros a [Ha _]. lia. }
  destruct r as [|hash h]; [by eexists _, _|]. destruct Hr as (_ & [_ Hfind] & _ & -> & _). eexists _, _. split; [done|].
  split; [by apply fresh_drop|].
  split; [done|]. split; [done|]. intros host. exists (value_of (omap exact_key kept) host). split; [|done].
  rewrite Hfind, (entries_value _ ngx_hash_key); [done|]. apply Forall_forall. intros x Hin. apply Hx in Hin as (n & v & -> & _ & Hl).
  unfold low_key. cbn. by rewrite strlow_lower, Hl.
Qed.
End tables.

(** ** Finding *)

Section finding.
Context (kept : list (pattern * Z)).
Context (Hgood : Forall (fun e => good_pattern e.1) kept).

Lemma head_found hp o sorted st st' host :
  table_made (omap head_key kept) sorted o st st' -> st'.(ws_heap) ⊆ hp -> names_ok (map entry_of sorted) -> sorted ≡ₚ omap head_key kept ->
  exists v, match o with Some a => ngx_hash_find_wc_head hp a host | None => Some 0 end = Some v /\ chosen is_head kept host v.
Proof.
  intros (_ & _ & Ho) Hsub Hok Hp. destruct o as [a|].
  - destruct Ho as (n & h & Ha & Hrep). eapply lookup_weaken in Ha; [|exact Hsub]. eapply rep_mono in Hrep; [|exact Hsub].
    destruct (find_head_best (S (length host)) n hp a h 0 _ host Hok Hrep Ha ltac:(lia)) as (r & E & Hr). cbv zeta in Hr. exists r. split; [exact E|].
    eapply (head_chosen kept Hgood); [exact Hp|]. replace r with (best_head (map entry_of sorted) (rev (split host))); [by apply best_head_longest|].
    destruct (Z.eq_dec (best_head (map entry_of sorted) (rev (split host))) 0) as [E0|E0]; [destruct Hr as [_ Hr]; destruct (Hr E0); congruence|symmetry; by apply Hr].
  - exists 0. split; [done|]. apply (head_chosen kept Hgood [] host 0); [by rewrite Ho|left; split; [done|]; intros e He; inversion He].
Qed.

Lemma tail_found hp o sorted st st' host :
  table_made (omap tail_key kept) sorted o st st' -> st'.(ws_heap) ⊆ hp -> names_ok (map entry_of sorted) -> plain_ends (map entry_of sorted) ->
  sorted ≡ₚ omap tail_key kept ->
  exists v, match o with Some a => ngx_hash_find_wc_tail hp a host | None => Some 0 end = Some v /\ chosen is_tail kept host v.
Proof.
  intros (_ & _ & Ho) Hsub Hok Hpl Hp. destruct o as [a|].
  - destruct Ho as (n & h & Ha & Hrep). eapply lookup_weaken in Ha; [|exact Hsub]. eapply rep_mono in Hrep; [|exact Hsub].
    destruct (find_tail_best (S (length host)) n hp a h 0 _ host Hok Hpl Hrep Ha ltac:(lia)) as (r & E & Hr). cbv zeta in Hr. exists r. split; [exact E|].
    eapply (tail_chosen kept Hgood); [exact Hp|]. replace r with (best_tail (map entry_of sorted) (split host)); [by apply best_tail_longest|].
    destruct (Z.eq_dec (best_tail (map entry_of sorted) (split host)) 0) as [E0|E0]; [destruct Hr as [_ Hr]; destruct (Hr E0); congruence|symmetry; by apply Hr].
  - exists 0. split; [done|]. apply (tail_chosen kept Hgood [] host 0); [by rewrite Ho|left; split; [done|]; intros e He; inversion He].
Qed.

Lemma none_empty : none is_head kept [] /\ none is_tail kept [].
Proof.
  rewrite Forall_forall in Hgood.
  split; intros p v Hin Hs Hm; pose proof (Hgood _ Hin) as Hg; destruct p as [n|n|n|n]; try done; cbn in Hg, Hm; apply good_nonempty in Hg.
  - destruct Hm as [Hm|[q Hm]]; [done|by destruct q].
  - destruct Hm as [q Hm]. by destruct q.
  - destruct Hm as [q Hm]. by destruct n.
Qed.

(** With the choice of each table, the server that is promised. *)
Lemma find_serves regex_exec hp c regex host :
  (exists v, match c.(c_hash) with Some h => ngx_hash_find h (ngx_hash_key host) host | None => Some 0 end = Some v /\ chosen is_exact kept host v) ->
  (exists v, match c.(c_head) with Some a => ngx_hash_find_wc_head hp a host | None => Some 0 end = Some v /\ chosen is_head kept host v) ->
  (exists v, match c.(c_tail) with Some a => ngx_hash_find_wc_tail hp a host | None => Some 0 end = Some v /\ chosen is_tail kept host v) ->
  exists r, ngx_http_find_virtual_server regex_exec hp (Some (VirtualNames c regex)) host = Some r /\ serves regex_exec kept regex host r.
Proof.
  intros (ve & Ee & He) (vh & Eh & Hh) (vt & Et & Ht). unfold ngx_http_find_virtual_server, ngx_hash_find_combined. cbn [vn_names vn_regex]. rewrite Ee.
  destruct He as [[-> He]|[Hne He]]; [|rewrite (proj2 (Z.eqb_neq ve 0)) by done; cbn [negb]; rewrite (proj2 (Z.eqb_neq ve 0)) by done; eexists; split; [done|by constructor]].
  cbn [Z.eqb negb]. destruct host as [|c0 host'].
  { cbn [length Nat.eqb]. eexists. split; [done|]. destruct none_empty as [N1 N2]. exact (by_regex _ _ _ _ He N1 N2). }
  change (length (c0 :: host') =? 0)%nat with false. cbv iota. set (host := c0 :: host') in *. rewrite Eh.
  destruct Hh as [[-> Hh]|[Hne Hh]]; [|rewrite (proj2 (Z.eqb_neq vh 0)) by done; cbn [negb]; rewrite (proj2 (Z.eqb_neq vh 0)) by done; eexists; split; [done|by constructor]].
  cbn [Z.eqb negb]. rewrite Et. destruct Ht as [[-> Ht]|[Hne Ht]]; [|rewrite (proj2 (Z.eqb_neq vt 0)) by done; eexists; split; [done|by constructor]].
  cbn [Z.eqb negb]. eexists. split; [done|]. exact (by_regex _ _ _ _ He Hh Ht).
Qed.
End finding.

(** ** Servers *)

Lemma array_init_spec small a : match ngx_hash_keys_array_init small a with
  | (None, _) => ~ no_oom a
  | (Some ha, a') => ha = KeysArrays (if small then 107 else 10007) [] ∅ [] ∅ [] ∅ /\ went a a'
  end.
Proof.
  assert (H : forall b, went b a -> match ngx_hash_keys_array_init small a with
    | (None, _) => ~ no_oom b
    | (Some ha, a') => ha = KeysArrays (if small then 107 else 10007) [] ∅ [] ∅ [] ∅ /\ went b a' end); [|by apply H; intros ?].
  unfold ngx_hash_keys_array_init. intros b. revert a.
  do 6 (intros a0 W; destruct (alloc a0) as [[|] a1] eqn:E; apply alloc_went in E as [E O]; [|eapply went_oom; [exact W|by apply O]];
    apply (went_trans _ _ _ W) in E; clear W O; revert E; clear a0; revert a1). intros a0 W. by split.
Qed.

Lemma empty_collected : collected 10007 (KeysArrays 10007 [] ∅ [] ∅ [] ∅) (Taken [] [] []) [].
Proof. split; try done; apply holds_none. Qed.

Lemma kept_good sns : Forall server_name_ok sns ->
  let kept := collect_names (Taken [] [] []) (patterns_of sns) in
  Forall (fun e => good_pattern e.1) kept /\ Forall (fun e => ptr_ok e.2) kept /\ forall k, NoDup (omap (kept_name k) kept).
Proof.
  intros Hok. cbv zeta. rewrite Forall_forall in Hok.
  assert (H : forall e, e ∈ collect_names (Taken [] [] []) (patterns_of sns) -> good_pattern e.1 /\ ptr_ok e.2).
  { intros e He. apply collect_in in He. apply list_elem_of_omap in He as (sn & Hin & E). destruct (Hok sn Hin) as [Hp Hg].
    destruct (sn_regex sn); [done|]. destruct (pattern_of (sn_name sn)) as [p|] eqn:P; [|done]. injection E as <-. auto. }
  split; [apply Forall_forall; intros e He; by apply H|]. split; [apply Forall_forall; intros e He; by apply H|]. intros k. apply collect_nodup.
Qed.

Section servers.
Context (k : Z) (Hk : 3 <= k <= 15) (dirt : Z -> Z).
Context (qsort : (hash_key -> hash_key -> Z) -> list hash_key -> list hash_key) (Hqsort : qsort_ok qsort).
Context (max_size bucket_size hash_at : Z) (Hb : 24 <= bucket_size < 2 ^ 15).

(** The sorted names of the kept ones. *)
Lemma head_names_sorted kept : Forall (fun e => good_pattern e.1) kept -> Forall (fun e => ptr_ok e.2) kept -> (forall k, NoDup (omap (kept_name k) kept)) ->
  let sorted := qsort ngx_http_cmp_dns_wildcards (omap head_key kept) in sorted ≡ₚ omap head_key kept /\ names_ok (map entry_of sorted).
Proof.
  intros Hg Hv Hn. cbv zeta. destruct (Hqsort ngx_http_cmp_dns_wildcards (omap head_key kept)) as [Hp Hs].
  { apply dns_ordered, Forall_forall. intros h Hh. apply list_elem_of_omap in Hh as (x & Hx & E). apply (kept_head _ Hg) in E as (P & -> & G & _); [|done]. by apply head_text_ok. }
  split; [done|]. by apply (heads_ok kept).
Qed.

Lemma tail_names_sorted kept : Forall (fun e => good_pattern e.1) kept -> Forall (fun e => ptr_ok e.2) kept -> (forall k, NoDup (omap (kept_name k) kept)) ->
  let sorted := qsort ngx_http_cmp_dns_wildcards (omap tail_key kept) in
  sorted ≡ₚ omap tail_key kept /\ names_ok (map entry_of sorted) /\ plain_ends (map entry_of sorted).
Proof.
  intros Hg Hv Hn. cbv zeta. destruct (Hqsort ngx_http_cmp_dns_wildcards (omap tail_key kept)) as [Hp Hs].
  { apply dns_ordered, Forall_forall. intros h Hh. apply list_elem_of_omap in Hh as (x & Hx & E). apply (kept_tail _ Hg) in E as (n & _ & -> & G & _); [|done]. by apply name_chars. }
  split; [done|]. by apply (tails_table_ok kept).
Qed.

(** What [ngx_http_server_names] makes. *)
Lemma server_names_made regex_exec servers st : Forall server_name_ok (concat servers) -> fresh_state st ->
  exists r st', ngx_http_server_names (2 ^ k) dirt qsort max_size bucket_size hash_at servers st = Some (r, st') /\
    match r with
    | None => True
    | Some (ConfAddr hash head tail regex) => Forall name_valid (concat servers) /\ regex = regex_names (concat servers) /\ forall host,
        exists res, ngx_http_find_virtual_server regex_exec st'.(ws_heap) (Some (VirtualNames (Combined hash head tail) regex)) host = Some res /\
          serves regex_exec (collect_names (Taken [] [] []) (patterns_of (concat servers))) regex host res
    end.
Proof.
  intros Hok Hst. destruct (kept_good _ Hok) as (Hg & Hv & Hn). set (kept := collect_names _ _) in *. unfold ngx_http_server_names.
  destruct (alloc (ws_allocs st)) as [ok a0]. destruct ok; cbn [negb]; [|by eexists _, _].
  pose proof (array_init_spec false a0) as Ha. destruct (ngx_hash_keys_array_init false a0) as [[ha|] a1]; [|by eexists _, _]. destruct Ha as [-> _].
  pose proof (add_server_names_collects (concat servers) _ _ _ a1 empty_collected Hok) as Hc. cbn [app] in Hc. fold kept in Hc.
  destruct (add_server_names _ _ a1) as [[[u|ha] a2]|]; [by eexists _, _| |done]. destruct Hc as (_ & Hvalid & t' & [_ _ _ _ -> -> ->]).
  assert (Hst0 : fresh_state (WState a2 (ws_addrs st) (ws_heap st))) by (destruct Hst; by split).
  destruct (exact_table_made k Hk dirt max_size bucket_size hash_at Hb kept _ Hg Hv Hst0) as (r1 & st1 & -> & H1). destruct r1 as [hash|]; [|by eexists _, _].
  destruct H1 as (Hf1 & _ & _ & He). destruct (head_names_sorted kept Hg Hv Hn) as [Hp2 Hok2]. destruct (tail_names_sorted kept Hg Hv Hn) as (Hp3 & Hok3 & Hpl3).
  destruct (wildcard_table_made k Hk dirt qsort max_size bucket_size Hb _ _ Hok2 Hp2 Hf1) as (r2 & st2 & -> & H2). destruct r2 as [head|]; [|by eexists _, _].
  pose proof H2 as (Hf2 & _ & _).
  destruct (wildcard_table_made k Hk dirt qsort max_size bucket_size Hb _ _ Hok3 Hp3 Hf2) as (r3 & st3 & -> & H3). destruct r3 as [tail|]; [|by eexists _, _].
  pose proof H3 as (_ & Hsub & _).
  assert (Hfind : forall regex host, exists res, ngx_http_find_virtual_server regex_exec (ws_heap st3) (Some (VirtualNames (Combined hash head tail) regex)) host = Some res /\
    serves regex_exec kept regex host res).
  { intros regex host. apply find_serves; [done|apply He|by eapply head_found|by eapply tail_found]. }
  destruct (regex_names (concat servers)) as [|rx regex] eqn:Er; [by eexists _, _|].
  destruct (alloc (ws_allocs st3)) as [ok a3]. destruct ok; cbn [negb]; [|by eexists _, _]. eexists _, _. split; [done|]. split; [done|]. split; [done|]. apply Hfind.
Qed.
End servers.

(** C17: a request gets the server its host names.  For any servers of an address
    whose names with wildcards have labels that are not empty,
    [ngx_http_server_names] runs without a fault; if it makes the tables, no name
    of the configuration was refused, and [ngx_http_find_virtual_server] gives
    for every host the server with that exact name; else the one with the
    longest matching name of the form [.n] or [*.n]; else the one with the
    longest matching name [n.*]; else the server of the first expression that
    matches; where of conflicting names the first one counts. *)
Theorem server_found k dirt qsort max_size bucket_size hash_at regex_exec servers st :
  3 <= k <= 15 -> 24 <= bucket_size < 2 ^ 15 -> qsort_ok qsort -> Forall server_name_ok (concat servers) -> fresh_state st ->
  exists r st', ngx_http_server_names (2 ^ k) dirt qsort max_size bucket_size hash_at servers st = Some (r, st') /\
    match r with
    | None => True
    | Some addr => Forall name_valid (concat servers) /\ forall a,
        match add_addr addr a with
        | (None, _) => ~ no_oom a
        | (Some vn, _) => forall host, exists res, ngx_http_find_virtual_server regex_exec st'.(ws_heap) vn host = Some res /\
            serves regex_exec (collect_names (Taken [] [] []) (patterns_of (concat servers))) (regex_names (concat servers)) host res
        end
    end.
Proof.
  intros Hk Hb Hq Hok Hst. destruct (server_names_made k Hk dirt qsort Hq max_size bucket_size hash_at Hb regex_exec servers st Hok Hst) as (r & st' & E & Hr).
  exists r, st'. split; [done|]. destruct r as [[hash head tail regex]|]; [|done]. destruct Hr as (Hv & -> & Hf). split; [done|]. intros a.
  destruct (alloc a) as [ok a'] eqn:Ea. apply alloc_went in Ea as Ha. destruct Ha as [_ Ho].
  assert (Hmade : match (if negb ok then (None, a') else (Some (Some (VirtualNames (Combined hash head tail) (regex_names (concat servers)))), a')) with
    | (None, _) => ~ no_oom a
    | (Some vn, _) => forall host, exists res, ngx_http_find_virtual_server regex_exec st'.(ws_heap) vn host = Some res /\
        serves regex_exec (collect_names (Taken [] [] []) (patterns_of (concat servers))) (regex_names (concat servers)) host res end).
  { destruct ok; cbn [negb]; [done|by apply Ho]. }
  unfold add_addr. rewrite Ea. destruct hash, head, tail; try exact Hmade. destruct (regex_names (concat servers)); [|exact Hmade].
  intros host. destruct (Hf host) as (res & Er & Hs). exists res. split; [|done]. rewrite <- Er.
  unfold ngx_http_find_virtual_server, ngx_hash_find_combined. cbn [vn_names c_hash c_head c_tail Z.eqb negb vn_regex regex_loop]. by destruct (length host =? 0)%nat, (zlen host =? 0).
Qed.

(** An example: a sort by insertion. *)
Fixpoint insert_by {A} (cmp : A -> A -> Z) (x : A) (l : list A) : list A :=
  match l with
  | [] => [x]
  | y :: l => if cmp x y <=? 0 then x :: y :: l else y :: insert_by cmp x l
  end.

Definition sort_by {A} (cmp : A -> A -> Z) (l : list A) : list A := foldr (insert_by cmp) [] l.

Lemma insert_by_perm {A} (cmp : A -> A -> Z) x l : insert_by cmp x l ≡ₚ x :: l.
Proof. induction l as [|y l IH]; cbn; [done|]. destruct (cmp x y <=? 0); [done|]. by rewrite IH, Permutation_swap. Qed.

Lemma sort_by_perm {A} (cmp : A -> A -> Z) l : sort_by cmp l ≡ₚ l.
Proof. induction l as [|x l IH]; cbn; [done|]. by rewrite insert_by_perm, IH. Qed.

Lemma insert_by_sorted {A} (cmp : A -> A -> Z) x l : ordered_by cmp (x :: l) -> StronglySorted (fun a b => cmp a b <= 0) l ->
  StronglySorted (fun a b => cmp a b <= 0) (insert_by cmp x l).
Proof.
  intros [Ht Htr] Hs. induction Hs as [|y l Hs IH Hy]; cbn; [by repeat constructor|]. destruct (Z.leb_spec (cmp x y) 0) as [Hle|Hgt].
  - constructor; [by constructor|]. constructor; [done|]. rewrite Forall_forall in *. intros z Hz. apply (Htr x y z); [set_solver..|done|by apply Hy].
  - constructor.
    + apply IH; [intros a b Ha Hb; apply Ht|intros a b c Ha Hb Hc; apply Htr]; set_solver.
    + rewrite insert_by_perm. constructor; [|done]. destruct (Ht x y); [set_solver..|lia|done].
Qed.

Lemma sort_by_ok : qsort_ok sort_by.
Proof.
  intros cmp l Ho. split; [apply sort_by_perm|]. induction l as [|x l IH]; [constructor|]. change (sort_by cmp (x :: l)) with (insert_by cmp x (sort_by cmp l)). apply insert_by_sorted.
  - destruct Ho as [H1 H2]. split.
    + intros a b. rewrite sort_by_perm. apply H1.
    + intros a b c. rewrite sort_by_perm. apply H2.
  - apply IH. destruct Ho as [H1 H2]. split; [intros a b Ha Hb; apply H1; by right|intros a b c Ha Hb Hc; apply H2; by right].
Qed.

Definition sample_servers : list (list server_name) := [
  [ServerName None 16 (lit "www.example.com"); ServerName None 16 (lit ".example.org")];
  [ServerName None 32 (lit "*.example.com"); ServerName None 32 (lit "www.example.com")];
  [ServerName None 48 (lit "*.a.Example.com"); ServerName None 48 (lit "www.example.*"); ServerName (Some 7) 48 (lit "^mail")]].

Definition sample_state : wstate := WState [] (map (fun i => 4096 * i) (seqZ 1 30)) ∅.

Definition good_check (p : pattern) : bool :=
  match p with
  | PExact n => forallb (fun c => negb (c =? 0)) n && beq (map ngx_tolower n) n
  | PDot n | PStar n | PTail n =>
      forallb (fun c => (33 <=? c) && (c <? 256) && (ngx_tolower c =? c) && negb (c =? chr "*")) n && forallb (fun l => negb (is_nil l)) (split n)
  end.

Lemma good_check_ok p : good_check p = true -> good_pattern p.
Proof.
  assert (H : forall n, good_check (PDot n) = true -> good_name n).
  { intros n H. apply andb_true_iff in H as [H1 H2]. rewrite forallb_forall in H1, H2. split; apply Forall_forall.
    - intros c Hc. apply list_elem_of_In, H1 in Hc. rewrite !andb_true_iff, negb_true_iff, Z.eqb_neq, Z.eqb_eq in Hc. destruct Hc as [[[? ?] ?] ?]. split; [split; lia|done].
    - intros l Hl. apply list_elem_of_In, H2 in Hl. by destruct l. }
  destruct p as [n|n|n|n]; try exact (H n). cbn. rewrite andb_true_iff, beq_eq, forallb_forall. intros [H1 H2]. split; [|done].
  apply Forall_forall. intros c Hc. apply list_elem_of_In, H1 in Hc. by apply negb_true_iff, Z.eqb_neq in Hc.
Qed.

Lemma sample_names_ok : Forall server_name_ok (concat sample_servers).
Proof.
  repeat (apply Forall_cons; split; [split; [by repeat split|intros p [= <-]; by apply good_check_ok]|]). constructor.
Qed.

Lemma sample_state_fresh : fresh_state sample_state.
Proof.
  split.
  - apply NoDup_fmap_2; [intros a b; lia|apply NoDup_seqZ].
  - apply Forall_fmap, Forall_seqZ. intros i Hi. cbn. split; [lia|]. replace (4096 * i) with (Z.shiftl i 12) by (rewrite Z.shiftl_mul_pow2 by lia; lia).
    apply Z.bits_inj'. intros n Hn. rewrite Z.land_spec, Z.bits_0, Z.shiftl_spec by lia. destruct (Z.ltb_spec n 12) as [H|H].
    + by rewrite Z.testbit_neg_r by lia.
    + change 3 with (Z.ones 2). rewrite Z.ones_spec_high by lia. apply andb_false_r.
  - intros a _. apply lookup_empty.
Qed.

Lemma server_found_witness : exists addr st' vn,
  ngx_http_server_names (2 ^ 6) (fun _ => 0) sort_by 512 64 8 sample_servers sample_state = Some (Some addr, st') /\
  add_addr addr [] = (Some (Some vn), []) /\
  ngx_http_find_virtual_server (fun _ _ => NGX_DECLINED) st'.(ws_heap) (Some vn) (lit "x.a.example.com") = Some (ServerOk 48) /\
  serves (fun _ _ => NGX_DECLINED) (collect_names (Taken [] [] []) (patterns_of (concat sample_servers))) [(7, 48)] (lit "x.a.example.com") (ServerOk 48).
Proof.
  destruct (server_found 6 (fun _ => 0) sort_by 512 64 8 (fun _ _ => NGX_DECLINED) sample_servers sample_state ltac:(lia) ltac:(lia) sort_by_ok sample_names_ok sample_state_fresh)
    as (r & st' & E & Hr).
  assert (C : exists addr st' vn, ngx_http_server_names (2 ^ 6) (fun _ => 0) sort_by 512 64 8 sample_servers sample_state = Some (Some addr, st') /\
    add_addr addr [] = (Some (Some vn), []) /\
    ngx_http_find_virtual_server (fun _ _ => NGX_DECLINED) st'.(ws_heap) (Some vn) (lit "x.a.example.com") = Some (ServerOk 48)).
  { vm_compute. eexists _, _, _. split; [reflexivity|]. split; reflexivity. }
  destruct C as (addr & st1 & vn & E1 & E2 & E3). exists addr, st1, vn. split; [exact E1|]. split; [exact E2|]. split; [exact E3|].
  rewrite E1 in E. injection E as <- <-. destruct Hr as [_ Hr]. specialize (Hr []). rewrite E2 in Hr. destruct (Hr (lit "x.a.example.com")) as (res & E4 & Hs).
  rewrite E3 in E4. injection E4 as <-. exact Hs.
Defined.

(** A name [.n] that conflicts with a kept [*.n] is refused, but the exact name
    [n] stays taken: a server with that name is refused too, and the host is
    found nowhere. *)
Lemma refused_name_stays_taken : exists addr st' vn,
  ngx_http_server_names 64 (fun _ => 0) sort_by 512 64 8
    [[ServerName None 16 (lit "*.e")]; [ServerName None 32 (lit ".e")]; [ServerName None 48 (lit "e")]] sample_state = Some (Some addr, st') /\
  add_addr addr [] = (Some (Some vn), []) /\
  ngx_http_find_virtual_server (fun _ _ => NGX_DECLINED) st'.(ws_heap) (Some vn) (lit "e") = Some ServerDeclined.
Proof. vm_compute. eexists _, _, _. split; [reflexivity|]. split; reflexivity. Qed.

(** Captures of one expression are forgotten with the next one. *)
Lemma captures_forgotten (regex_compile : list Z -> bool -> option (Z * Z)) :
  regex_compile (lit "^(.*)$") false = Some (1, 1) -> regex_compile (lit "^mail$") false = Some (2, 0) ->
  exists s, ngx_http_core_server_name regex_compile 16 [] (SrvNames [] false) [lit "~^(.*)$"; lit "~^mail$"] [] = Some (s, []) /\ s.(captures) = false.
Proof.
  intros H1 H2. cbn [ngx_http_core_server_name]. unfold one_server_name.
  change (alloc []) with (true, @nil bool). cbn. rewrite H1, H2. eexists. by split.
Qed.
