(* ===== verification/HttpLocation.v ===== *)
(** * Locations ([ngx_http_core_module.c], [ngx_http.c])

    The directive [location], the queues of locations with their sorting, joining
    and nesting, the tree that is made of them, and the search for the location of
    a request.  Queues are lists here: the operations of [NgxQueue] on them are
    those on lists, and sorting is its stable sort.  Configurations are known by
    their addresses. *)

From stdpp Require Import gmap.
From S2P Require Import Prelude NgxCompare.

(** ** Data *)

(** What [ngx_http_core_loc_conf_t] says of the location itself. *)
Record loc_conf := LocConf {
  l_name : list Z;
  l_regex : option Z;
  l_noname : bool;
  l_named : bool;
  l_exact_match : bool;
  l_noregex : bool;
  l_auto_redirect : bool;
}.

(** [ngx_http_location_queue_t]. *)
Inductive location_queue :=
  | LQ (exact inclusive : option Z) (name : list Z) (sub : list location_queue).

Definition lq_exact (q : location_queue) : option Z := let 'LQ e _ _ _ := q in e.
Definition lq_inclusive (q : location_queue) : option Z := let 'LQ _ i _ _ := q in i.
Definition lq_name (q : location_queue) : list Z := let 'LQ _ _ n _ := q in n.
Definition lq_list (q : location_queue) : list location_queue := let 'LQ _ _ _ l := q in l.

(** [ngx_http_location_tree_node_t]; no node is [Leaf]. *)
Inductive location_tree :=
  | Leaf
  | Node (left right tree : location_tree) (exact inclusive : option Z) (auto_redirect : bool) (len : Z) (name : list Z).

(** A configuration: the location, the queue of those inside of it, and what is
    made of them. *)
Record clcf := Clcf {
  c_conf : loc_conf;
  c_locations : option (list location_queue);
  c_static : option location_tree;
  c_regex : list Z;
}.

Abbreviation confs := (gmap Z clcf).

(** ** The directive *)

Section location.
(** [ngx_http_regex_compile], without or with case. *)
Context (regex_compile : list Z -> bool -> option Z).

Definition ngx_http_core_regex_location (regex : list Z) (caseless : bool) : option loc_conf :=
  match regex_compile regex caseless with
  | None => None
  | Some rx => Some (LocConf regex (Some rx) false false false false false)
  end.

(** The words behind [location]: a modifier and a name, or both in one.  Behind
    a word is the end of the string. *)
Definition location_words (args : list (list Z)) : option loc_conf :=
  let plain name named exact noregex := Some (LocConf name None false named exact noregex false) in
  match args with
  | [md; name] =>
      if beq md (lit "=") then plain name false true false
      else if beq md (lit "^~") then plain name false false true
      else if beq md (lit "~") then ngx_http_core_regex_location name false
      else if beq md (lit "~*") then ngx_http_core_regex_location name true
      else None
  | [name] =>
      let c := hd 0 name in
      if c =? chr "=" then plain (tl name) false true false
      else if (c =? chr "^") && (nth 1 name 0 =? chr "~") then plain (drop 2 name) false false true
      else if c =? chr "~" then
        if hd 0 (tl name) =? chr "*" then ngx_http_core_regex_location (drop 2 name) true
        else ngx_http_core_regex_location (tl name) false
      else plain name (c =? chr "@") false false
  | _ => None
  end.

(** The location inside of another one. *)
Definition nested_ok (p c : loc_conf) : bool :=
  if (length p.(l_name) =? 0)%nat then true
  else negb p.(l_exact_match) && negb p.(l_named) && negb c.(l_named) &&
    (match c.(l_regex) with Some _ => true | None => ngx_strncmp c.(l_name) p.(l_name) (length p.(l_name)) =? 0 end).
End location.

(** [ngx_http_add_location]: the configuration [c] at [at_] joins the queue, which
    is made with the first one. *)
Definition ngx_http_add_location (locations : option (list location_queue)) (at_ : Z) (c : loc_conf) (a : allocs) :
    option (list location_queue) * bool * allocs :=
  let '(ok, a) := match locations with None => alloc a | Some _ => (true, a) end in
  if negb ok then (locations, false, a)
  else
    let queue := default [] locations in
    let '(ok, a) := alloc a in
    if negb ok then (Some queue, false, a)
    else
      let alone := c.(l_exact_match) || (match c.(l_regex) with Some _ => true | None => false end) || c.(l_named) || c.(l_noname) in
      (Some (queue ++ [if alone then LQ (Some at_) None c.(l_name) [] else LQ None (Some at_) c.(l_name) []]), true, a).

(** [ngx_http_core_location] from the new configuration, which is at [at_], to the
    block of the directive, inside of the location at [parent]. *)
Definition ngx_http_core_location (regex_compile : list Z -> bool -> option Z) (parent at_ : Z) (args : list (list Z))
    (cs : confs) (a : allocs) : option (confs * allocs) :=
  match cs !! parent, location_words regex_compile args with
  | Some p, Some c =>
      if negb (nested_ok p.(c_conf) c) then None
      else
        let '(queue, ok, a) := ngx_http_add_location p.(c_locations) at_ c a in
        if negb ok then None
        else Some (<[at_ := Clcf c None None []]> (<[parent := Clcf p.(c_conf) queue p.(c_static) p.(c_regex)]> cs), a)
  | _, _ => None
  end.

(** ** The queues *)

(** The configuration of an element; a null pointer is undefined. *)
Definition lq_conf (q : location_queue) : option Z := match lq_exact q with Some e => Some e | None => lq_inclusive q end.

Section queues.
Context (conf : Z -> loc_conf).

Definition conf_of (q : location_queue) : loc_conf := conf (default 0 (lq_conf q)).

Definition is_regex (c : loc_conf) : bool := match c.(l_regex) with Some _ => true | None => false end.

Definition ngx_http_cmp_locations (one two : location_queue) : Z :=
  let first := conf_of one in
  let second := conf_of two in
  if first.(l_noname) && negb second.(l_noname) then 1
  else if negb first.(l_noname) && second.(l_noname) then -1
  else if first.(l_noname) || second.(l_noname) then 0
  else if first.(l_named) && negb second.(l_named) then 1
  else if negb first.(l_named) && second.(l_named) then -1
  else if first.(l_named) && second.(l_named) then ngx_strcmp first.(l_name) second.(l_name)
  else if is_regex first && negb (is_regex second) then 1
  else if negb (is_regex first) && is_regex second then -1
  else if is_regex first || is_regex second then 0
  else
    let rc := ngx_strcmp first.(l_name) second.(l_name) in
    if (rc =? 0) && negb first.(l_exact_match) && second.(l_exact_match) then 1 else rc.

(** The elements before the first one that satisfies a test, and from it on. *)
Fixpoint split_at (f : location_queue -> bool) (l : list location_queue) : list location_queue * list location_queue :=
  match l with
  | [] => ([], [])
  | q :: l' => if f q then ([], l) else let '(x, y) := split_at f l' in (q :: x, y)
  end.
End queues.

(** [ngx_http_join_exact_locations]: neighbours of the same name become one, or
    are a duplicate ([None]).  [q] is the current element. *)
Fixpoint join_loop (q : location_queue) (l : list location_queue) : option (list location_queue) :=
  match l with
  | [] => Some [q]
  | x :: l =>
      if ngx_strcmp (lq_name q) (lq_name x) =? 0 then
        if (match lq_exact q, lq_exact x with Some _, Some _ => true | _, _ => false end) ||
           (match lq_inclusive q, lq_inclusive x with Some _, Some _ => true | _, _ => false end)
        then None
        else join_loop (LQ (lq_exact q) (lq_inclusive x) (lq_name q) (lq_list q)) l
      else cons q <$> join_loop x l
  end.

Definition ngx_http_join_exact_locations (locations : list location_queue) : option (list location_queue) :=
  match locations with
  | [] => Some []
  | q :: l => join_loop q l
  end.

(** The elements behind one with the name [name] that go inside of it. *)
Fixpoint take_inside (name : list Z) (l : list location_queue) : list location_queue * list location_queue :=
  match l with
  | [] => ([], [])
  | x :: l' =>
      if (length (lq_name x) <? length name)%nat || negb (ngx_strncmp name (lq_name x) (length name) =? 0) then ([], l)
      else let '(inside, rest) := take_inside name l' in (x :: inside, rest)
  end.

(** [ngx_http_create_locations_list]; every call is on a shorter queue. *)
Fixpoint ngx_http_create_locations_list (fuel : nat) (locations : list location_queue) : list location_queue :=
  match fuel with
  | O => locations
  | S fuel =>
      match locations with
      | [] | [_] => locations
      | q :: l =>
          match lq_inclusive q with
          | None => q :: ngx_http_create_locations_list fuel l
          | Some _ =>
              let '(inside, rest) := take_inside (lq_name q) l in
              match inside with
              | [] => q :: ngx_http_create_locations_list fuel l
              | _ =>
                  LQ (lq_exact q) (lq_inclusive q) (lq_name q) (ngx_http_create_locations_list fuel (lq_list q ++ inside)) ::
                    match rest with [] => [] | _ => ngx_http_create_locations_list fuel rest end
              end
          end
      end
  end.

(** ** The tree *)

Section tree.
Context (conf : Z -> loc_conf).

Definition redirects (o : option Z) : bool := match o with Some c => (conf c).(l_auto_redirect) | None => false end.

(** [ngx_http_create_locations_tree]; [None] inside is no memory.  The length of
    the name in a node has eight bits. *)
Fixpoint ngx_http_create_locations_tree (fuel : nat) (locations : list location_queue) (prefix : nat) (a : allocs) :
    option (option location_tree * allocs) :=
  match fuel with
  | O => None
  | S fuel =>
      let mid := (length locations / 2)%nat in
      match locations !! mid with
      | None => None
      | Some q =>
          let name := drop prefix (lq_name q) in
          let '(ok, a) := alloc a in
          if negb ok then Some (None, a)
          else
            let auto_redirect := redirects (lq_exact q) || redirects (lq_inclusive q) in
            let node lt rt tree := Node lt rt tree (lq_exact q) (lq_inclusive q) auto_redirect (u8 (zlen name)) name in
            let sub l prefix a := match l with [] => Some (Some Leaf, a) | _ => ngx_http_create_locations_tree fuel l prefix a end in
            match sub (take mid locations) prefix a with
            | Some (Some lt, a) =>
                match sub (drop (S mid) locations) prefix a with
                | Some (Some rt, a) =>
                    match sub (lq_list q) (prefix + length name)%nat a with
                    | Some (Some tree, a) => Some (Some (node lt rt tree), a)
                    | r => r
                    end
                | r => r
                end
            | r => r
            end
      end
  end.
End tree.

(** ** The search *)

(** [ngx_http_core_find_static_location]: the code and the configuration, from
    the code and configuration so far. *)
Fixpoint find_static (node : location_tree) (uri : list Z) (rv loc : Z) : option (Z * Z) :=
  match node with
  | Leaf => Some (rv, loc)
  | Node lt rt tree exact inclusive auto_redirect len name =>
      let n := if zlen uri <=? len then zlen uri else len in
      let rc := ngx_memcmp uri name (Z.to_nat n) in
      if negb (rc =? 0) then if rc <? 0 then find_static lt uri rv loc else find_static rt uri rv loc
      else if zlen uri >? len then
        match inclusive with
        | Some i => find_static tree (drop (Z.to_nat n) uri) NGX_AGAIN i
        | None => find_static rt uri rv loc
        end
      else if zlen uri =? len then
        match exact, inclusive with
        | Some e, _ => Some (NGX_OK, e)
        | None, Some i => Some (NGX_AGAIN, i)
        | None, None => None
        end
      else if (zlen uri + 1 =? len) && auto_redirect then
        match exact, inclusive with
        | Some l, _ | None, Some l => find_static lt uri NGX_DONE l
        | None, None => None
        end
      else find_static lt uri rv loc
  end.

Definition ngx_http_core_find_static_location (node : option location_tree) (uri : list Z) (loc : Z) : option (Z * Z) :=
  find_static (default Leaf node) uri NGX_DECLINED loc.

(** ** All locations of a server *)

Definition no_conf : loc_conf := LocConf [] None false false false false false.

Definition conf_at (cs : confs) (c : Z) : loc_conf := match cs !! c with Some x => x.(c_conf) | None => no_conf end.

(** The loop of [ngx_http_init_locations] over the sorted queue: the locations
    inside of each, up to one without a name, which ends the loop; with the
    elements before it.  An error is [None] inside. *)
Fixpoint visit_locations (rec : Z -> confs -> allocs -> option (option (confs * allocs))) (l : list location_queue) (cs : confs) (a : allocs) :
    option (option (list location_queue * confs * allocs)) :=
  match l with
  | [] => Some (Some ([], cs, a))
  | q :: l =>
      match lq_conf q with
      | None => None
      | Some c =>
          match rec c cs a with
          | None => None
          | Some None => Some None
          | Some (Some (cs, a)) =>
              let k := conf_at cs c in
              if negb (is_regex k) && negb k.(l_named) && k.(l_noname) then Some (Some ([], cs, a))
              else
                match visit_locations rec l cs a with
                | Some (Some (seen, cs, a)) => Some (Some (q :: seen, cs, a))
                | r => r
                end
          end
      end
  end.

(** [ngx_http_init_locations] for the configuration at [p], with the named
    locations for a server ([top]).  An array that is not empty is allocated;
    inside of locations there are no named ones, or a null pointer is
    followed. *)
Fixpoint ngx_http_init_locations (fuel : nat) (top : bool) (p : Z) (cs : confs) (a : allocs) : option (option (list Z * confs * allocs)) :=
  match fuel with
  | O => None
  | S fuel =>
      match cs !! p with
      | None => None
      | Some pc =>
          match pc.(c_locations) with
          | None => Some (Some ([], cs, a))
          | Some locations =>
              let sorted := ngx_sort (ngx_http_cmp_locations (conf_at cs)) true locations in
              let rec c cs a := match ngx_http_init_locations fuel false c cs a with
                                | Some (Some (_, cs, a)) => Some (Some (cs, a))
                                | Some None => Some None
                                | None => None
                                end in
              match visit_locations rec sorted cs a with
              | None => None
              | Some None => Some None
              | Some (Some (seen, cs, a)) =>
                  let '(others, named) := split_at (fun q => (conf_of (conf_at cs) q).(l_named)) seen in
                  let '(static, regex) := split_at (fun q => is_regex (conf_of (conf_at cs) q)) others in
                  let '(ok1, a) := match named with [] => (true, a) | _ => alloc a end in
                  if negb ok1 then Some None
                  else if negb top && (match named with [] => false | _ => true end) then None
                  else
                    let '(ok2, a) := match regex with [] => (true, a) | _ => alloc a end in
                    if negb ok2 then Some None
                    else Some (Some (omap lq_exact named, <[p := Clcf pc.(c_conf) (Some static) pc.(c_static) (omap lq_exact regex)]> cs, a))
              end
          end
      end
  end.

(** The number of elements of a queue, with those inside. *)
Fixpoint lq_count (q : location_queue) : nat := let 'LQ _ _ _ l := q in S (list_sum (map lq_count l)).
Definition queue_count (l : list location_queue) : nat := list_sum (map lq_count l).

(** The loop of [ngx_http_init_static_location_trees]: the trees of the locations
    inside of each. *)
Fixpoint visit_trees (rec : Z -> confs -> allocs -> option (option (confs * allocs))) (l : list location_queue) (cs : confs) (a : allocs) :
    option (option (confs * allocs)) :=
  match l with
  | [] => Some (Some (cs, a))
  | q :: l =>
      match lq_conf q with
      | None => None
      | Some c =>
          match rec c cs a with
          | Some (Some (cs, a)) => visit_trees rec l cs a
          | r => r
          end
      end
  end.

(** [ngx_http_init_static_location_trees]. *)
Fixpoint ngx_http_init_static_location_trees (fuel : nat) (p : Z) (cs : confs) (a : allocs) : option (option (confs * allocs)) :=
  match fuel with
  | O => None
  | S fuel =>
      match cs !! p with
      | None => None
      | Some pc =>
          match pc.(c_locations) with
          | None | Some [] => Some (Some (cs, a))
          | Some locations =>
              match visit_trees (ngx_http_init_static_location_trees fuel) locations cs a with
              | None => None
              | Some None => Some None
              | Some (Some (cs, a)) =>
                  match ngx_http_join_exact_locations locations with
                  | None => Some None
                  | Some joined =>
                      let listed := ngx_http_create_locations_list (length joined) joined in
                      match ngx_http_create_locations_tree (conf_at cs) (S (queue_count listed)) listed 0 a with
                      | None => None
                      | Some (None, a) => Some None
                      | Some (Some tree, a) => Some (Some (<[p := Clcf pc.(c_conf) (Some listed) (Some tree) pc.(c_regex)]> cs, a))
                      end
                  end
              end
          end
      end
  end.

(** ** The location of a request *)

Section find.
Context (regex_exec : Z -> list Z -> Z) (cs : confs) (uri : list Z).

(** Its loop over the expressions; [find] searches inside of a location. *)
Fixpoint regex_loop (find : Z -> option (Z * Z)) (rc loc : Z) (l : list Z) : option (Z * Z) :=
  match l with
  | [] => Some (rc, loc)
  | c :: l =>
      match (conf_at cs c).(l_regex) with
      | None => None
      | Some rx =>
          let n := regex_exec rx uri in
          if n =? NGX_OK then
            match find c with
            | None => None
            | Some (rc, loc) => Some (if rc =? NGX_ERROR then rc else NGX_OK, loc)
            end
          else if n =? NGX_DECLINED then regex_loop find rc loc l
          else Some (NGX_ERROR, loc)
      end
  end.

(** [ngx_http_core_find_location] from the configuration at [loc]; a call goes
    one location deeper. *)
Fixpoint find_location (fuel : nat) (loc : Z) : option (Z * Z) :=
  match fuel with
  | O => None
  | S fuel =>
      match cs !! loc with
      | None => None
      | Some pc =>
          match ngx_http_core_find_static_location pc.(c_static) uri loc with
          | None => None
          | Some (rc, loc) =>
              let static :=
                if rc =? NGX_AGAIN then
                  match find_location fuel loc with
                  | None => None
                  | Some (rc, loc') => Some (rc, loc', (conf_at cs loc).(l_noregex))
                  end
                else Some (rc, loc, false) in
              match static with
              | None => None
              | Some (rc, loc, noregex) =>
                  if (rc =? NGX_OK) || (rc =? NGX_DONE) then Some (rc, loc)
                  else if noregex then Some (rc, loc)
                  else regex_loop (find_location fuel) rc loc pc.(c_regex)
              end
          end
      end
  end.
End find.
