(* ===== verification/HttpLocationSpec.v ===== *)
(** * Locations: what the tree finds

    The tree that is made of a sorted queue of locations finds the location with
    exactly the URI of a request, else the one with the longest name that the URI
    begins with; or, for a URI that lacks only the last character of a name, it
    may redirect. *)

From stdpp Require Import gmap sorting.
From S2P Require Import Prelude NgxCompare HttpLocation.

(** ** The order of names *)

Fixpoint lex_lt (a b : list Z) : Prop :=
  match a, b with
  | [], _ :: _ => True
  | c :: a, d :: b => c < d \/ c = d /\ lex_lt a b
  | _, [] => False
  end.

Lemma lex_irrefl a : ~ lex_lt a a.
Proof. induction a as [|c a IH]; cbn; [tauto|]. intros [H|[_ H]]; [lia|done]. Qed.

Lemma lex_trans a : forall b c, lex_lt a b -> lex_lt b c -> lex_lt a c.
Proof. induction a as [|x a IH]; intros [|y b] [|z c]; cbn; try done. intros [H|[-> H]] [H'|[-> H']]; [left; lia|by left|by left|]. right. split; [done|]. by eapply IH. Qed.

Lemma prefix_lex a b : a `prefix_of` b -> a = b \/ lex_lt a b.
Proof.
  intros [k ->]. induction a as [|c a IH]; cbn; [destruct k; [by left|by right]|]. destruct IH as [IH|IH]; [left; congruence|right; by right].
Qed.

Lemma lex_not_prefix a b : lex_lt a b -> ~ b `prefix_of` a.
Proof. intros H Hp. apply prefix_lex in Hp as [->|Hp]; [by apply lex_irrefl in H|]. by apply (lex_irrefl a), (lex_trans a b a). Qed.

(** Names that differ at a place. *)
Definition differ (a b : list Z) : Prop := exists p c d s t, a = p ++ c :: s /\ b = p ++ d :: t /\ c < d.

Lemma differ_lex a b : differ a b -> lex_lt a b.
Proof. intros (p & c & d & s & t & -> & -> & H). induction p as [|x p IH]; cbn; [by left|by right]. Qed.

Lemma differ_app p a b : differ a b -> differ (p ++ a) (p ++ b).
Proof. intros (q & c & d & s & t & -> & -> & H). exists (p ++ q), c, d, s, t. by rewrite !app_assoc. Qed.

(** A name that begins like one of two that differ. *)
Lemma differ_prefix_r a b w : differ a b -> b `prefix_of` w -> differ a w.
Proof. intros (p & c & d & s & t & -> & -> & H) [k ->]. exists p, c, d, s, (t ++ k). by rewrite <- app_assoc. Qed.

Lemma differ_prefix_l a b w : differ a b -> a `prefix_of` w -> differ w b.
Proof. intros (p & c & d & s & t & -> & -> & H) [k ->]. exists p, c, d, (s ++ k), t. by rewrite <- app_assoc. Qed.

Lemma differ_not_prefix a b : differ a b -> ~ a `prefix_of` b /\ ~ b `prefix_of` a.
Proof.
  intros (p & c & d & s & t & -> & -> & H). split; intros [k E]; rewrite <- app_assoc in E; apply app_inv_head in E; injection E as E _; lia.
Qed.

(** A beginning of [b] below [a] is one of both, where [a] is below [b]. *)
Lemma differ_below a b w : differ a b -> w `prefix_of` b -> lex_lt w a -> w `prefix_of` a.
Proof.
  intros (p & c & d & s & t & -> & -> & H) [k E] Hw. revert w k E Hw. induction p as [|x p IH]; intros w k E Hw.
  - destruct w as [|y w]; [by eexists|]. cbn in E, Hw. injection E as <- _. exfalso. destruct Hw as [?|[? _]]; lia.
  - destruct w as [|y w]; [by eexists|]. cbn in E, Hw. injection E as <- E. destruct Hw as [?|[_ Hw]]; [lia|]. apply prefix_cons. by eapply IH.
Qed.

Lemma memcmp_cases u v : let n := Nat.min (length u) (length v) in
  let rc := ngx_memcmp u v n in
  (rc = 0 /\ take n u = take n v) \/ (rc < 0 /\ differ u v) \/ (0 < rc /\ differ v u).
Proof.
  cbv zeta. revert v. induction u as [|c u IH]; intros [|d v]; [by left|by left|by left|]. cbn [length Nat.min ngx_memcmp hd tl take].
  destruct (Z.eqb_spec c d) as [->|Hne].
  - destruct (IH v) as [[-> E]|[[H D]|[H D]]]; [left; by rewrite E|right; left|right; right]; (split; [done|]); by apply (differ_app [d]).
  - right. destruct (Z.lt_ge_cases c d); [left|right]; (split; [lia|]); [exists [], c, d, u, v|exists [], d, c, v, u]; (split; [done|]); (split; [done|lia]).
Qed.

Lemma strcmp_cons c a d b : ngx_strcmp (c :: a) (d :: b) = if c =? d then if c =? 0 then 0 else ngx_strcmp a b else c - d.
Proof. reflexivity. Qed.

Lemma strcmp_nil_l d b : ngx_strcmp [] (d :: b) = if 0 =? d then 0 else 0 - d.
Proof. reflexivity. Qed.

Lemma strcmp_nil_r c a : ngx_strcmp (c :: a) [] = if c =? 0 then 0 else c - 0.
Proof. unfold ngx_strcmp. cbn [length Nat.max ngx_strncmp hd tl]. by destruct (c =? 0). Qed.

Lemma strcmp_lt a : forall b, Forall (fun c => 0 < c) a -> Forall (fun c => 0 < c) b -> ngx_strcmp a b < 0 <-> lex_lt a b.
Proof.
  induction a as [|c a IH]; intros [|d b] Ha Hb.
  - done.
  - inversion_clear Hb. rewrite strcmp_nil_l. destruct (Z.eqb_spec 0 d); [lia|]. split; [done|lia].
  - inversion_clear Ha. rewrite strcmp_nil_r. destruct (Z.eqb_spec c 0); [lia|]. split; [lia|done].
  - inversion_clear Ha as [|? ? Hc Ha']. inversion_clear Hb as [|? ? Hd Hb']. rewrite strcmp_cons. cbn [lex_lt]. destruct (Z.eqb_spec c d) as [->|Hne].
    + rewrite (proj2 (Z.eqb_neq d 0)) by lia. rewrite IH by done. split; [by right|]. intros [?|[_ ?]]; [lia|done].
    + split; [by left; lia|]. intros [?|[? _]]; lia.
Qed.

Lemma strcmp_zero a : forall b, Forall (fun c => 0 < c) a -> Forall (fun c => 0 < c) b -> ngx_strcmp a b = 0 <-> a = b.
Proof.
  induction a as [|c a IH]; intros [|d b] Ha Hb.
  - done.
  - inversion_clear Hb. rewrite strcmp_nil_l. destruct (Z.eqb_spec 0 d); [lia|]. split; [lia|done].
  - inversion_clear Ha. rewrite strcmp_nil_r. destruct (Z.eqb_spec c 0); [lia|]. split; [lia|done].
  - inversion_clear Ha as [|? ? Hc Ha']. inversion_clear Hb as [|? ? Hd Hb']. rewrite strcmp_cons. destruct (Z.eqb_spec c d) as [->|Hne].
    + rewrite (proj2 (Z.eqb_neq d 0)) by lia. rewrite IH by done. split; [by intros ->|by intros [= ->]].
    + split; [lia|by intros [= ? _]].
Qed.

(** ** Nested queues *)

(** The elements of a queue with those inside of them, one after the other. *)
Fixpoint flat_q (q : location_queue) : list location_queue := let 'LQ e i n l := q in LQ e i n [] :: concat (map flat_q l).
Definition flat (l : list location_queue) : list location_queue := concat (map flat_q l).

(** A queue of names that begin with [P]: only locations that take more than
    their own name have others inside, and what begins with their name is
    there. *)
Inductive forest : list Z -> list location_queue -> Prop :=
  | forest_nil P : forest P []
  | forest_cons P e i n sub rest :
      P `prefix_of` n -> (e <> None \/ i <> None) -> (sub <> [] -> i <> None) -> forest n sub -> forest P rest ->
      (forall w v, w ∈ flat_q (LQ e i n sub) -> lq_inclusive w <> None -> v ∈ flat rest -> ~ lq_name w `prefix_of` lq_name v) ->
      forest P (LQ e i n sub :: rest).

Lemma flat_app a b : flat (a ++ b) = flat a ++ flat b.
Proof. unfold flat. by rewrite map_app, concat_app. Qed.

Lemma flat_cons q b : flat (q :: b) = flat_q q ++ flat b.
Proof. done. Qed.

Lemma forest_app P a b : forest P (a ++ b) -> forest P a /\ forest P b /\
  forall w v, w ∈ flat a -> lq_inclusive w <> None -> v ∈ flat b -> ~ lq_name w `prefix_of` lq_name v.
Proof.
  induction a as [|q a IH]; cbn [app]; intros H; [split; [constructor|]; split; [done|]; intros w v Hw; inversion Hw|].
  inversion H as [|? e i n sub rest H1 H2 H3 H4 H5 H6]; subst. destruct (IH H5) as (Ha & Hb & Hab). split; [|split; [done|]].
  - constructor; try done. intros w v Hw Hi Hv. apply H6; [done|done|]. rewrite flat_app. apply elem_of_app. by left.
  - intros w v. rewrite flat_cons, elem_of_app. intros [Hw|Hw] Hi Hv; [|by apply Hab]. apply H6; [done|done|]. rewrite flat_app. apply elem_of_app. by right.
Qed.

(** Names inside begin with the name around them. *)
Lemma forest_prefix P l : forest P l -> forall w, w ∈ flat l -> P `prefix_of` lq_name w.
Proof.
  induction 1 as [|P e i n sub rest H1 H2 H3 H4 IH4 H5 IH5 H6]; intros w Hw; [inversion Hw|]. rewrite flat_cons in Hw. apply elem_of_app in Hw as [Hw|Hw]; [|by apply IH5].
  cbn [flat_q] in Hw. apply elem_of_cons in Hw as [->|Hw]; [done|]. etrans; [exact H1|]. by apply IH4.
Qed.

Lemma forest_some P l : forest P l -> forall w, w ∈ flat l -> lq_exact w <> None \/ lq_inclusive w <> None.
Proof.
  induction 1 as [|P e i n sub rest H1 H2 H3 H4 IH4 H5 IH5 H6]; intros w Hw; [inversion Hw|]. rewrite flat_cons in Hw. apply elem_of_app in Hw as [Hw|Hw]; [|by apply IH5].
  cbn [flat_q] in Hw. apply elem_of_cons in Hw as [->|Hw]; [done|by apply IH4].
Qed.

(** ** The answer *)

Section answer.
Context (conf : Z -> loc_conf).

(** The element named as the URI. *)
Definition named_answer (q : location_queue) (r : Z * Z) : Prop :=
  match lq_exact q, lq_inclusive q with
  | Some e, _ => r = (NGX_OK, e)
  | None, Some i => r = (NGX_AGAIN, i)
  | None, None => False
  end.

(** A redirect to a name that is one character longer. *)
Definition redirect_answer (fs : list location_queue) (uri : list Z) (r : Z * Z) : Prop :=
  exists q c l, q ∈ fs /\ lq_name q = uri ++ [c] /\ redirects conf (lq_exact q) || redirects conf (lq_inclusive q) = true /\ lq_conf q = Some l /\ r = (NGX_DONE, l).

(** The longest name that the URI begins with, or what was before. *)
Definition prefix_answer (fs : list location_queue) (uri : list Z) (base r : Z * Z) : Prop :=
  (exists q i, q ∈ fs /\ lq_inclusive q = Some i /\ lq_name q `prefix_of` uri /\ r = (NGX_AGAIN, i) /\
     forall q', q' ∈ fs -> lq_inclusive q' <> None -> lq_name q' `prefix_of` uri -> (length (lq_name q') <= length (lq_name q))%nat) \/
  ((forall q, q ∈ fs -> lq_inclusive q <> None -> ~ lq_name q `prefix_of` uri) /\ r = base).

Definition answers (fs : list location_queue) (uri : list Z) (base r : Z * Z) : Prop :=
  (exists q, q ∈ fs /\ lq_name q = uri /\ named_answer q r) \/
  ((forall q, q ∈ fs -> lq_name q <> uri) /\ (redirect_answer fs uri r \/ prefix_answer fs uri base r)).

(** An element that cannot matter for a URI. *)
Definition apart (uri : list Z) (q : location_queue) : Prop := lq_name q <> uri /\ (lq_inclusive q <> None -> ~ lq_name q `prefix_of` uri).

Lemma answers_more fs fs' uri base base' r : answers fs uri base' r -> fs ⊆ fs' -> (forall q, q ∈ fs' -> q ∈ fs \/ apart uri q) ->
  (base' = base \/ redirect_answer fs' uri base') -> answers fs' uri base r.
Proof.
  intros [(q & Hq & E & Ha)|(Hne & Hr)] Hsub Hex Hb; [left; exists q; auto|]. right. split; [intros q Hq; destruct (Hex q Hq) as [H|[H _]]; auto|].
  destruct Hr as [(q & c & l & Hq & E)|[(q & i & Hq & Ei & Hp & -> & Hmax)|[Hnone ->]]].
  - left. exists q, c, l. split; [by apply Hsub|done].
  - right. left. exists q, i. split; [by apply Hsub|]. split; [done|]. split; [done|]. split; [done|]. intros q' Hq' Hi' Hp'. destruct (Hex q' Hq') as [H|[_ H]]; [auto|]. by apply H in Hi'.
  - destruct Hb as [->|Hb]; [right|by left]. right. split; [|done]. intros q Hq Hi. destruct (Hex q Hq) as [H|[_ H]]; auto.
Qed.

(** Into an element whose name the URI begins with. *)
Lemma answers_into e i n sub uri base r : answers sub uri (NGX_AGAIN, i) r -> n `prefix_of` uri -> n <> uri -> (forall w, w ∈ sub -> n `prefix_of` lq_name w) ->
  answers (LQ e (Some i) n [] :: sub) uri base r.
Proof.
  intros Ha Hp Hne Hw. set (q0 := LQ e (Some i) n []). destruct Ha as [(q & Hq & E & Ha)|(Hn & Hr)]; [left; exists q; split; [by right|done]|]. right.
  split; [intros q Hq; apply elem_of_cons in Hq as [->|Hq]; [done|by apply Hn]|]. destruct Hr as [(q & c & l & Hq & E)|[(q & j & Hq & Ei & Hp' & -> & Hmax)|[Hnone ->]]].
  - left. exists q, c, l. split; [by right|done].
  - right. left. exists q, j. split; [by right|]. split; [done|]. split; [done|]. split; [done|]. intros q' Hq'. apply elem_of_cons in Hq' as [->|Hq']; [|by apply Hmax].
    intros _ _. apply prefix_length. by apply Hw.
  - right. left. exists q0, i. split; [by left|]. split; [done|]. split; [done|]. split; [done|]. intros q' Hq' Hi' Hp'. apply elem_of_cons in Hq' as [->|Hq']; [done|].
    exfalso. by apply (Hnone q').
Qed.
End answer.

(** ** The tree *)

Abbreviation name_lt := (fun a b => lex_lt (lq_name a) (lq_name b)).

Section tree.
Context (conf : Z -> loc_conf).

(** A tree answers for a queue of names that begin with [P]. *)
Definition good_tree (t : location_tree) (P : list Z) (l : list location_queue) : Prop :=
  forall u rv loc, exists r, find_static t u rv loc = Some r /\ answers conf (flat l) (P ++ u) (rv, loc) r.

Lemma leaf_good P : good_tree Leaf P [].
Proof. intros u rv loc. eexists. split; [done|]. right. split; [intros q Hq; inversion Hq|]. right. right. split; [intros q Hq; inversion Hq|done]. Qed.

Lemma prefix_below (a b c : list Z) : a `prefix_of` c -> b `prefix_of` c -> lex_lt a b -> a `prefix_of` b.
Proof. intros Ha Hb Hlt. destruct (prefix_weak_total a b c Ha Hb) as [H|H]; [done|]. exfalso. by apply (lex_not_prefix a b). Qed.

Lemma sorted_app_l {A} (R : A -> A -> Prop) a b x y : StronglySorted R (a ++ b) -> x ∈ a -> y ∈ b -> R x y.
Proof. intros H Hx Hy. by apply (StronglySorted_app_1_elem_of R a b). Qed.

Section node.
Context (P : list Z) (L R sub : list location_queue) (e i : option Z) (n : list Z).
Abbreviation q0 := (LQ e i n []).
Context (Hf : forest P (L ++ LQ e i n sub :: R)) (Hs : StronglySorted name_lt (flat (L ++ LQ e i n sub :: R))).

Lemma node_flat : flat (L ++ LQ e i n sub :: R) = flat L ++ q0 :: flat sub ++ flat R.
Proof. rewrite flat_app, flat_cons. done. Qed.

Lemma below w : w ∈ flat L -> lex_lt (lq_name w) n.
Proof. intros Hw. rewrite node_flat in Hs. apply (sorted_app_l _ _ _ w q0 Hs Hw). by left. Qed.

Lemma above w : w ∈ flat sub ++ flat R -> lex_lt n (lq_name w).
Proof.
  intros Hw. rewrite node_flat in Hs. apply (sorted_app_l name_lt (flat L ++ [q0]) (flat sub ++ flat R) q0 w); [by rewrite <- app_assoc|apply elem_of_app; right; by left|done].
Qed.

Lemma node_parts : forest P L /\ forest P R /\ forest n sub /\ P `prefix_of` n /\ (e <> None \/ i <> None) /\ (sub <> [] -> i <> None) /\
  (forall w, w ∈ flat L -> lq_inclusive w <> None -> ~ lq_name w `prefix_of` n) /\ (i <> None -> forall v, v ∈ flat R -> ~ n `prefix_of` lq_name v).
Proof.
  apply forest_app in Hf as (HL & HR & Hg). inversion HR as [|? ? ? ? ? ? H1 H2 H3 H4 H5 H6]; subst. do 6 (split; [done|]). split.
  - intros w Hw Hi. apply (Hg w q0 Hw Hi). rewrite flat_cons. by left.
  - intros Hi v Hv. apply (H6 q0 v); [by left|done|done].
Qed.

(** The URI is below the name: what is not below the name is apart. *)
Lemma apart_above uri w : lex_lt uri n -> w ∈ q0 :: flat sub ++ flat R -> apart uri w.
Proof.
  intros Hu Hw. assert (Hlt : lex_lt uri (lq_name w)).
  { apply elem_of_cons in Hw as [->|Hw]; [done|]. eapply lex_trans; [exact Hu|by apply above]. }
  split; [intros <-; by apply lex_irrefl in Hlt|]. intros _. by apply lex_not_prefix.
Qed.

(** The URI is above the name and begins with nothing of the left part. *)
Lemma apart_below uri w : lex_lt n uri -> (lq_name w `prefix_of` uri -> lq_name w `prefix_of` n) -> w ∈ flat L -> apart uri w.
Proof.
  intros Hu Hp Hw. pose proof (below w Hw) as Hlt. destruct node_parts as (_ & _ & _ & _ & _ & _ & HG & _). split.
  - intros E. rewrite E in Hlt. by apply (lex_irrefl n), (lex_trans n uri n).
  - intros Hi Hpw. by apply (HG w Hw Hi), Hp.
Qed.

Context (lt rt tr : location_tree) (Hlt : good_tree lt P L) (Hrt : good_tree rt P R) (Htr : good_tree tr n sub) (Hlen : zlen n < 256).

Abbreviation whole := (flat (L ++ LQ e i n sub :: R)).

Lemma from_left u rv loc rv' loc' : lex_lt (P ++ u) n -> ((rv', loc') = (rv, loc) \/ redirect_answer conf whole (P ++ u) (rv', loc')) ->
  exists r, find_static lt u rv' loc' = Some r /\ answers conf whole (P ++ u) (rv, loc) r.
Proof.
  intros Hu Hb. destruct (Hlt u rv' loc') as (r & E & Ha). exists r. split; [done|]. eapply answers_more; [exact Ha| | |exact Hb].
  - rewrite node_flat. intros w Hw. apply elem_of_app. by left.
  - intros w Hw. rewrite node_flat in Hw. apply elem_of_app in Hw as [Hw|Hw]; [by left|right]. by apply apart_above.
Qed.

Lemma from_right u rv loc : lex_lt n (P ++ u) -> (forall w, w ∈ flat L -> lq_name w `prefix_of` P ++ u -> lq_name w `prefix_of` n) ->
  (forall w, w ∈ q0 :: flat sub -> apart (P ++ u) w) -> exists r, find_static rt u rv loc = Some r /\ answers conf whole (P ++ u) (rv, loc) r.
Proof.
  intros Hu Hp Hm. destruct (Hrt u rv loc) as (r & E & Ha). exists r. split; [done|]. eapply answers_more; [exact Ha| | |by left].
  - rewrite node_flat. intros w Hw. apply elem_of_app. right. right. apply elem_of_app. by right.
  - intros w Hw. rewrite node_flat in Hw. apply elem_of_app in Hw as [Hw|Hw]; [right; apply apart_below; auto|].
    apply elem_of_cons in Hw as [->|Hw]; [right; apply Hm; by left|]. apply elem_of_app in Hw as [Hw|Hw]; [right; apply Hm; by right|by left].
Qed.

Lemma from_inside j u' rv loc : i = Some j -> u' <> [] -> exists r, find_static tr u' NGX_AGAIN j = Some r /\ answers conf whole (n ++ u') (rv, loc) r.
Proof.
  intros Ei Hu'. destruct node_parts as (_ & _ & HS & _ & _ & _ & HG1 & HG2). assert (Hi : i <> None) by congruence. destruct (Htr u' NGX_AGAIN j) as (r & E & Ha). exists r. split; [done|].
  assert (Hp : n `prefix_of` n ++ u') by by exists u'. assert (Hne : n <> n ++ u') by (intros E'; apply (f_equal length) in E'; rewrite length_app in E'; destruct u'; [done|cbn in E'; lia]).
  apply (answers_into _ e j n _ _ (rv, loc)) in Ha; [|done|done|by apply (forest_prefix n)]. rewrite <- Ei in Ha.
  eapply answers_more; [exact Ha| | |by left].
  - rewrite node_flat. intros w Hw. apply elem_of_app. right. apply elem_of_cons in Hw as [->|Hw]; [by left|right; apply elem_of_app; by left].
  - intros w Hw. rewrite node_flat in Hw. apply elem_of_app in Hw as [Hw|Hw].
    + right. apply apart_below; [|by intros Hpw; apply (prefix_below _ _ (n ++ u')); [..|apply below]|done]. by destruct (prefix_lex _ _ Hp).
    + apply elem_of_cons in Hw as [->|Hw]; [left; by left|]. apply elem_of_app in Hw as [Hw|Hw]; [left; by right|right]. split.
      * intros Ew. apply (HG2 Hi w Hw). by rewrite Ew.
      * intros _ Hpw. apply (HG2 Hi w Hw), (prefix_below _ _ (n ++ u')); [done|done|]. apply above, elem_of_app. by right.
Qed.
End node.

Lemma node_good P L R sub e i n lt rt tr : forest P (L ++ LQ e i n sub :: R) -> StronglySorted name_lt (flat (L ++ LQ e i n sub :: R)) ->
  good_tree lt P L -> good_tree rt P R -> good_tree tr n sub -> zlen n < 256 ->
  good_tree (Node lt rt tr e i (redirects conf e || redirects conf i) (u8 (zlen (drop (length P) n))) (drop (length P) n)) P (L ++ LQ e i n sub :: R).
Proof.
  intros Hf Hs Hlt Hrt Htr Hlen u rv loc. pose proof (below _ _ _ _ _ _ Hs) as Hbelow. pose proof (node_flat L R sub e i n) as Hflat.
  pose proof (from_left _ _ _ _ _ _ _ Hs _ Hlt) as FL. pose proof (from_right _ _ _ _ _ _ _ Hf Hs _ Hrt) as FR. pose proof (from_inside _ _ _ _ _ _ _ Hf Hs _ Htr) as FI.
  destruct (node_parts _ _ _ _ _ _ _ Hf) as (_ & _ & HS & [v En] & Hei & Hsub & HG1 & HG2). pose proof En as En0. rewrite En, drop_app_length. cbn [find_static].
  assert (Hv : zlen v < 256) by (rewrite En in Hlen; unfold zlen in *; rewrite length_app in Hlen; lia). pose proof (zlen_nonneg v).
  assert (Hu8 : u8 (zlen v) = zlen v) by (unfold u8; apply Z.mod_small; lia). rewrite Hu8.
  assert (Hmin : Z.to_nat (if zlen u <=? zlen v then zlen u else zlen v) = Nat.min (length u) (length v)) by (unfold zlen; zcases; lia). rewrite !Hmin, <- En0.
  destruct (memcmp_cases u v) as [[-> Et]|[[Hrc D]|[Hrc D]]].
  - cbn [Z.eqb negb]. destruct (Z.gtb_spec (zlen u) (zlen v)) as [Hgt|Hle].
    + assert (Hmin' : Nat.min (length u) (length v) = length v) by (unfold zlen in Hgt; lia). rewrite Hmin' in *. rewrite (take_ge v) in Et by done.
      assert (Eu : u = v ++ drop (length v) u) by (rewrite <- Et at 1; by rewrite take_drop). assert (Eu' : P ++ u = n ++ drop (length v) u) by (rewrite En, Eu at 1; by rewrite app_assoc).
      assert (Hd : drop (length v) u <> []) by (intros E; apply (f_equal length) in E; rewrite length_drop in E; unfold zlen in Hgt; cbn in E; lia).
      destruct i as [j|] eqn:Ei; [rewrite Eu'; by apply FI|].
      assert (Hp : n `prefix_of` P ++ u) by (rewrite Eu'; by eexists). assert (Hne : n <> P ++ u) by (rewrite Eu'; intros E; apply (f_equal length) in E; rewrite length_app in E; destruct (drop (length v) u); [done|cbn in E; lia]).
      destruct (prefix_lex _ _ Hp) as [|Hlx]; [done|]. assert (Esub : sub = []) by (destruct sub; [done|exfalso; by apply Hsub]). subst sub. apply FR; [done| |].
      * intros w Hw Hpw. apply (prefix_below _ _ (P ++ u)); [done|done|by apply Hbelow].
      * intros w Hw. apply elem_of_cons in Hw as [->|Hw]; [|inversion Hw]. by split.
    + destruct (Z.eqb_spec (zlen u) (zlen v)) as [Eq|Hneq].
      * assert (Hmin' : Nat.min (length u) (length v) = length v) by (unfold zlen in Eq; lia). rewrite Hmin' in Et. rewrite !take_ge in Et by (unfold zlen in Eq; lia). subst v. rewrite <- En.
        assert (Hin : LQ e i n [] ∈ (flat (L ++ LQ e i n sub :: R))) by (rewrite Hflat; apply elem_of_app; right; by left).
        destruct e as [x|]; [|destruct i as [x|]; [|by destruct Hei]]; (eexists; split; [done|left; eexists; split; [exact Hin|]; by split]).
      * assert (Hmin' : Nat.min (length u) (length v) = length u) by (unfold zlen in *; lia). rewrite Hmin' in Et. rewrite (take_ge u) in Et by done.
        assert (Hp : P ++ u `prefix_of` n) by (rewrite En; apply prefix_app; rewrite Et; apply prefix_take).
        assert (Hlx : lex_lt (P ++ u) n). { destruct (prefix_lex _ _ Hp) as [E|]; [|done]. rewrite En in E. apply app_inv_head in E. by subst u. }
        destruct ((zlen u + 1 =? zlen v) && _) eqn:Er; [|apply FL; [done|by left]]. apply andb_true_iff in Er as [Er1 Er2]. apply Z.eqb_eq in Er1.
        assert (Hlast : exists c, n = (P ++ u) ++ [c]).
        { destruct Hp as [k Ek]. assert (Hk : length k = 1%nat) by (apply (f_equal length) in Ek; rewrite En, !length_app in Ek; unfold zlen in Er1; lia). destruct k as [|c [|]]; [done| |done]. by exists c. }
        destruct Hlast as [c Ec]. assert (Hred : forall x, lq_conf (LQ e i n []) = Some x -> redirect_answer conf (flat (L ++ LQ e i n sub :: R)) (P ++ u) (NGX_DONE, x)).
        { intros x Ex. exists (LQ e i n []), c, x. split; [rewrite Hflat; apply elem_of_app; right; by left|]. by split. }
        destruct e as [x|]; [|destruct i as [x|]; [|by destruct Hei]]; (apply FL; [done|right; by apply Hred]).
  - rewrite (proj2 (Z.eqb_neq _ 0)) by lia. cbn [negb]. rewrite (proj2 (Z.ltb_lt _ 0)) by lia. apply FL; [|by left]. rewrite En. by apply differ_lex, differ_app.
  - rewrite (proj2 (Z.eqb_neq _ 0)) by lia. cbn [negb]. rewrite (proj2 (Z.ltb_ge _ 0)) by lia. apply (differ_app P) in D. rewrite <- En in D. apply FR; [by apply differ_lex| |].
    + intros w Hw Hpw. by apply (differ_below _ (P ++ u)); [..|apply Hbelow].
    + intros w Hw. assert (Hnw : n `prefix_of` lq_name w) by (apply elem_of_cons in Hw as [->|Hw]; [done|by apply (forest_prefix n sub)]). destruct (differ_not_prefix _ _ D) as [D1 D2]. split.
      * intros E. apply D1. by rewrite <- E.
      * intros _ Hpw. apply D1. by etrans.
Qed.
End tree.

(** ** Making the tree *)

Lemma count_app a b : queue_count (a ++ b) = (queue_count a + queue_count b)%nat.
Proof. unfold queue_count. by rewrite map_app, list_sum_app. Qed.

Lemma count_cons e i n sub b : queue_count (LQ e i n sub :: b) = (S (queue_count sub) + queue_count b)%nat.
Proof. done. Qed.

Lemma tree_made conf fuel : forall l P a, l <> [] -> forest P l -> StronglySorted name_lt (flat l) -> Forall (fun w => zlen (lq_name w) < 256) (flat l) ->
  (queue_count l < fuel)%nat ->
  exists r a', ngx_http_create_locations_tree conf fuel l (length P) a = Some (r, a') /\ went a a' /\
    match r with None => ~ no_oom a | Some t => good_tree conf t P l end.
Proof.
  induction fuel as [|fuel IH]; intros l P a Hne Hf Hs Hl Hc; [lia|]. cbn [ngx_http_create_locations_tree].
  destruct (lookup_lt_is_Some_2 l (length l / 2)) as [[e i n sub] Hq].
  { apply Nat.div_lt; [destruct l; [done|cbn; lia]|lia]. }
  rewrite Hq. pose proof (take_drop_middle _ _ _ Hq) as El. set (L := take (length l / 2) l) in *. set (R := drop (S (length l / 2)) l) in *. clearbody L R. rewrite <- El in *. clear El Hq l Hne.
  rewrite count_app, count_cons in Hc. destruct (node_parts _ _ _ _ _ _ _ Hf) as (HL & HR & HS & Hp & _ & _ & _).
  assert (Hfl : flat (L ++ LQ e i n sub :: R) = flat L ++ LQ e i n [] :: flat sub ++ flat R) by apply node_flat. pose proof Hs as Hs0. pose proof Hl as Hl0. rewrite Hfl in Hs0, Hl0.
  apply StronglySorted_app in Hs0 as (_ & SL & S0). inversion_clear S0 as [|? ? S1 _]. apply StronglySorted_app in S1 as (_ & SS & SR).
  apply Forall_app in Hl0 as [LL L0]. inversion_clear L0 as [|? ? Hn L1]. apply Forall_app in L1 as [LS LR]. cbn [lq_name lq_list lq_exact lq_inclusive] in *.
  destruct (alloc a) as [ok a0] eqn:Ea. apply alloc_went in Ea as [W0 O0]. destruct ok; cbn [negb]; [|eexists _, _; split; [done|]; split; [done|by apply O0]].
  assert (Hsub : forall l P prefix a, prefix = length P -> forest P l -> StronglySorted name_lt (flat l) -> Forall (fun w => zlen (lq_name w) < 256) (flat l) -> (queue_count l < fuel)%nat ->
    exists r a', (match l with [] => Some (Some Leaf, a) | _ => ngx_http_create_locations_tree conf fuel l prefix a end) = Some (r, a') /\ went a a' /\
      match r with None => ~ no_oom a | Some t => good_tree conf t P l end).
  { intros [|q l] P' prefix a' -> ? ? ? ?; [eexists _, _; split; [done|]; split; [by intros ?|apply leaf_good]|by apply IH]. }
  destruct (Hsub L P (length P) a0 eq_refl HL SL LL ltac:(lia)) as (r1 & a1 & E1 & W1 & R1). rewrite E1. clear E1. assert (W01 : went a a1) by by eapply went_trans.
  destruct r1 as [lt|]; [|eexists _, _; split; [done|]; split; [done|exact (went_oom _ _ W0 R1)]].
  destruct (Hsub R P (length P) a1 eq_refl HR SR LR ltac:(lia)) as (r2 & a2 & E2 & W2 & R2). rewrite E2. clear E2. assert (W02 : went a a2) by by eapply went_trans.
  destruct r2 as [rt|]; [|eexists _, _; split; [done|]; split; [done|exact (went_oom _ _ W01 R2)]].
  destruct (Hsub sub n (length P + length (drop (length P) n))%nat a2) as (r3 & a3 & E3 & W3 & R3); [|done|done|done|lia|].
  { destruct Hp as [v ->]. rewrite drop_app_length, length_app. done. }
  rewrite E3. clear E3. assert (W03 : went a a3) by by eapply went_trans.
  destruct r3 as [tr|]; [|eexists _, _; split; [done|]; split; [done|exact (went_oom _ _ W02 R3)]].
  eexists _, _. split; [done|]. split; [done|]. by apply node_good.
Qed.

(** ** Nesting the queue *)

Lemma lex_between n r v : n `prefix_of` v -> lex_lt n r -> lex_lt r v -> n `prefix_of` r.
Proof.
  intros [k ->]. revert r. induction n as [|c n IH]; intros r H1 H2; [by exists r|]. destruct r as [|d r]; [done|]. cbn in H1, H2.
  destruct H1 as [?|[E1 H1]], H2 as [?|[E2 H2]]; try lia. subst d. by apply prefix_cons, IH.
Qed.

(** An element as the configuration gives it: without others inside, of a text
    that is not too long. *)
Definition bare (q : location_queue) : Prop :=
  lq_list q = [] /\ (lq_exact q <> None \/ lq_inclusive q <> None) /\ Forall (fun c => 0 < c) (lq_name q).

Lemma flat_bare l : Forall bare l -> flat l = l.
Proof. induction 1 as [|[e i n sub] l [H _] _ IH]; [done|]. cbn in H. subst sub. rewrite flat_cons, IH. done. Qed.

Lemma positive_nonzero l : Forall (fun c => 0 < c) l -> nonzero l.
Proof. intros H. eapply Forall_impl; [exact H|]. intros c Hc. cbn in Hc. lia. Qed.

Lemma take_inside_spec name l : Forall (fun c => 0 < c) name -> Forall bare l ->
  let '(inside, rest) := take_inside name l in
  l = inside ++ rest /\ Forall (fun q => name `prefix_of` lq_name q) inside /\ match rest with [] => True | r :: _ => ~ name `prefix_of` lq_name r end.
Proof.
  intros Hn. induction 1 as [|x l [_ [_ Hx]] Hl IH]; cbn [take_inside]; [done|].
  assert (Hp : (length (lq_name x) <? length name)%nat || negb (ngx_strncmp name (lq_name x) (length name) =? 0) = negb (bool_decide (name `prefix_of` lq_name x))).
  { apply Bool.eq_true_iff_eq. rewrite orb_true_iff, !negb_true_iff, Nat.ltb_lt, Z.eqb_neq, bool_decide_eq_false, strncmp_take by (done || by apply positive_nonzero). rewrite (take_ge name) by done.
    split.
    - intros [H|H] Hp; [apply prefix_length in Hp; lia|]. apply H. destruct Hp as [k ->]. by rewrite take_app_length.
    - intros H. destruct (decide (length (lq_name x) < length name)%nat); [by left|right]. intros E. apply H. rewrite E. apply prefix_take. }
  rewrite Hp. case_bool_decide as H; cbn [negb]; [|done]. destruct (take_inside name l) as [inside rest]. destruct IH as (-> & H1 & H2). by repeat constructor.
Qed.

Lemma list_forest fuel : forall l P, (length l <= fuel)%nat -> Forall bare l -> StronglySorted name_lt l -> Forall (fun q => P `prefix_of` lq_name q) l ->
  forest P (ngx_http_create_locations_list fuel l) /\ flat (ngx_http_create_locations_list fuel l) = l.
Proof.
  induction fuel as [|fuel IH]; intros l P Hf Hb Hs HP.
  { destruct l; [|cbn in Hf; lia]. split; [constructor|done]. }
  destruct l as [|[e i n sub] l]; cbn [ngx_http_create_locations_list]; [split; [constructor|done]|]. inversion_clear Hb as [|? ? [Esub [Hei Hn]] Hb']. inversion_clear Hs as [|? ? Hs' Hlt]. inversion_clear HP as [|? ? Hp HP'].
  cbn [lq_list lq_exact lq_inclusive lq_name] in *. subst sub. cbn [length] in Hf.
  assert (Hplain : forall rest, forest P rest -> (forall v, i <> None -> v ∈ flat rest -> ~ n `prefix_of` lq_name v) -> forest P (LQ e i n [] :: rest)).
  { intros rest Hr HG. constructor; try done; [constructor|]. intros w v Hw Hi Hv. apply list_elem_of_singleton in Hw as ->. by apply HG. }
  destruct l as [|q' l'] eqn:El; [split; [apply Hplain; [constructor|]; intros v _ Hv; inversion Hv|done]|]. rewrite <- El in *. clear El q' l'.
  destruct (IH l P) as [IH1 IH2]; [lia|done..|]. destruct i as [j|]; [|split; [apply Hplain; [done|done]|rewrite flat_cons, IH2; done]].
  pose proof (take_inside_spec n l Hn Hb') as Ht. destruct (take_inside n l) as [inside rest]. destruct Ht as (El & Hin & Hr).
  assert (Hrest : forall v, v ∈ rest -> ~ n `prefix_of` lq_name v).
  { destruct rest as [|r rest]; [intros v Hv; inversion Hv|]. intros v Hv Hpv. apply Hr. apply elem_of_cons in Hv as [->|Hv]; [done|]. apply (lex_between n _ (lq_name v)); [done| |].
    - rewrite Forall_forall in Hlt. apply (Hlt r). rewrite El. apply elem_of_app. right. by left.
    - rewrite El in Hs'. apply StronglySorted_app_1_r in Hs'. inversion_clear Hs' as [|? ? _ Hv']. rewrite Forall_forall in Hv'. by apply (Hv' v). }
  destruct inside as [|y ys]; [cbn [app] in El; subst rest; split; [apply Hplain; [done|]; intros v _ Hv; rewrite IH2 in Hv; by apply Hrest|rewrite flat_cons, IH2; done]|].
  set (ins := y :: ys) in *. cbn [app]. rewrite El in Hs', HP', Hb', Hf. rewrite length_app in Hf. apply Forall_app in HP' as [HPi HPr]. apply Forall_app in Hb' as [Hbi Hbr]. apply StronglySorted_app in Hs' as (_ & Hsi & Hsr).
  destruct (IH ins n) as [F1 F2]; [lia|done..|]. destruct (IH rest P) as [G1 G2]; [lia|done..|].
  assert (Er : (match rest with [] => [] | _ :: _ => ngx_http_create_locations_list fuel rest end) = ngx_http_create_locations_list fuel rest) by (destruct rest; [by destruct fuel|done]).
  rewrite Er. split.
  - constructor; try done. intros w v Hw Hi Hv. rewrite G2 in Hv. cbn [flat_q] in Hw. fold (flat (ngx_http_create_locations_list fuel ins)) in Hw. rewrite F2 in Hw.
    intros Hpv. apply (Hrest v Hv). apply elem_of_cons in Hw as [->|Hw]; [done|]. rewrite Forall_forall in Hin. etrans; [by apply Hin|done].
  - rewrite flat_cons, G2. cbn [flat_q]. fold (flat (ngx_http_create_locations_list fuel ins)). rewrite F2, El. done.
Qed.
