(* ===== verification/HttpLocationFind.v ===== *)
(** * Locations: the rule of the configuration

    From the locations of a server, in the order of the configuration, through
    sorting, joining and the tree to the location of a request: an exact name,
    else the longest name that the URI begins with, unless an expression
    matches. *)

From stdpp Require Import gmap sorting.
From S2P Require Import Prelude NgxCompare HttpLocation HttpLocationSpec.

(** ** Joining *)

Definition has_exact (l : list location_queue) (c : Z) (n : list Z) : Prop := exists q, q ∈ l /\ lq_exact q = Some c /\ lq_name q = n.
Definition has_inclusive (l : list location_queue) (c : Z) (n : list Z) : Prop := exists q, q ∈ l /\ lq_inclusive q = Some c /\ lq_name q = n.

(** The order of the sorted queue. *)
Definition le_loc (a b : location_queue) : Prop :=
  lex_lt (lq_name a) (lq_name b) \/ lq_name a = lq_name b /\ (lq_exact a <> None \/ lq_exact b = None).

(** An element for one location. *)
Definition single (q : location_queue) : Prop := bare q /\ (lq_exact q = None \/ lq_inclusive q = None).

Lemma has_cons (f : location_queue -> option Z) x l c n :
  (exists q, q ∈ x :: l /\ f q = Some c /\ lq_name q = n) <-> (f x = Some c /\ lq_name x = n) \/ (exists q, q ∈ l /\ f q = Some c /\ lq_name q = n).
Proof.
  split.
  - intros (q & Hq & E). apply elem_of_cons in Hq as [->|Hq]; [by left|right; by exists q].
  - intros [E|(q & Hq & E)]; [exists x; split; [by left|done]|exists q; split; [by right|done]].
Qed.

Lemma le_loc_trans a b c : le_loc a b -> le_loc b c -> le_loc a c.
Proof.
  intros [H1|[E1 H1]] [H2|[E2 H2]]; unfold le_loc.
  - left. by eapply lex_trans.
  - left. by rewrite <- E2.
  - left. by rewrite E1.
  - right. split; [congruence|]. destruct H1 as [?|H1]; [by left|]. destruct H2 as [?|?]; [done|by right].
Qed.

Lemma join_loop_spec l : forall q r, bare q -> Forall single l -> StronglySorted le_loc (q :: l) -> join_loop q l = Some r ->
  StronglySorted name_lt r /\ Forall bare r /\ Forall (fun y => lq_name q = lq_name y \/ lex_lt (lq_name q) (lq_name y)) r /\
  (forall c n, has_exact r c n <-> has_exact (q :: l) c n) /\ (forall c n, has_inclusive r c n <-> has_inclusive (q :: l) c n).
Proof.
  induction l as [|x l IH]; intros q r Hq Hl Hs Hj; cbn [join_loop] in Hj.
  { injection Hj as <-. split; [by repeat constructor|]. split; [by constructor|]. split; [constructor; [by left|constructor]|]. done. }
  inversion_clear Hl as [|? ? [Hx Hx1] Hl']. inversion_clear Hs as [|? ? Hs' Hqs]. inversion_clear Hqs as [|? ? Hqx Hql]. destruct Hq as (Q1 & Q2 & Q3). destruct Hx as (X1 & X2 & X3).
  destruct (Z.eqb_spec (ngx_strcmp (lq_name q) (lq_name x)) 0) as [E|E].
  - apply strcmp_zero in E; [|done..]. destruct (_ || _) eqn:Ed; [done|]. apply orb_false_iff in Ed as [E1 E2].
    assert (Hq' : lq_exact q <> None /\ lq_exact x = None /\ lq_inclusive q = None).
    { destruct Hqx as [H|[_ H]]; [rewrite E in H; by apply lex_irrefl in H|]. destruct (lq_exact q), (lq_exact x), (lq_inclusive q), (lq_inclusive x); try done; naive_solver. }
    destruct Hq' as (Hqe & Hxe & Hqi). set (q' := LQ (lq_exact q) (lq_inclusive x) (lq_name q) (lq_list q)) in *.
    destruct (IH q' r) as (I1 & I2 & I3 & I4 & I5); [|done| |done|].
    { split; [done|]. split; [by left|done]. }
    { inversion_clear Hs' as [|? ? Hs2 Hx2]. constructor; [done|]. rewrite Forall_forall in *. intros y Hy. destruct (Hql y Hy) as [H|[H _]]; [by left|right]. split; [done|by left]. }
    split; [done|]. split; [done|]. split; [done|]. split; intros c n.
    + rewrite I4. unfold has_exact. rewrite !has_cons. cbn. rewrite Hxe. naive_solver.
    + rewrite I5. unfold has_inclusive. rewrite !has_cons. cbn. rewrite Hqi, E. naive_solver.
  - destruct (join_loop x l) as [r'|] eqn:Ej; [|done]. injection Hj as <-. destruct (IH x r') as (I1 & I2 & I3 & I4 & I5); [by split|done|done|done|].
    assert (Hlt : lex_lt (lq_name q) (lq_name x)). { destruct Hqx as [H|[H _]]; [done|]. exfalso. apply E. by apply strcmp_zero. }
    assert (Hall : Forall (fun y => lex_lt (lq_name q) (lq_name y)) r'). { eapply Forall_impl; [exact I3|]. cbn. intros y [<-|H]; [done|by eapply lex_trans]. }
    split; [by constructor|]. split; [constructor; [by split|done]|]. split; [constructor; [by left|]; eapply Forall_impl; [exact Hall|]; by right|].
    split; intros c n; [unfold has_exact|unfold has_inclusive]; rewrite has_cons, (has_cons _ q (x :: l)); [rewrite <- (I4 c n)|rewrite <- (I5 c n)]; done.
Qed.

(** ** The order of locations *)

Lemma strcmp_le_total a : forall b, ngx_strcmp a b <= 0 \/ ngx_strcmp b a <= 0.
Proof.
  induction a as [|c a IH]; intros [|d b]; rewrite ?strcmp_cons, ?strcmp_nil_l, ?strcmp_nil_r; [by left|zcases; lia|zcases; lia|].
  rewrite (Z.eqb_sym d c). destruct (Z.eqb_spec c d) as [->|]; [|lia]. destruct (d =? 0); [by left|apply IH].
Qed.

Lemma strcmp_eq_lt a : forall b c, (ngx_strcmp a b < 0 -> ngx_strcmp b c <= 0 -> ngx_strcmp a c < 0) /\ (ngx_strcmp a b <= 0 -> ngx_strcmp b c < 0 -> ngx_strcmp a c < 0) /\
  (ngx_strcmp a b = 0 -> ngx_strcmp b c = 0 -> ngx_strcmp a c = 0).
Proof.
  induction a as [|x a IH]; intros [|y b] [|z c]; rewrite ?strcmp_cons, ?strcmp_nil_l, ?strcmp_nil_r; change (ngx_strcmp [] []) with 0.
  8: { specialize (IH b c). destruct (Z.eqb_spec x y) as [->|]; destruct (Z.eqb_spec y z) as [->|]; try (destruct (Z.eqb_spec z 0); [lia|tauto]);
       try (destruct (Z.eqb_spec y 0), (Z.eqb_spec y z); lia); destruct (Z.eqb_spec x z) as [->|]; try lia; destruct (Z.eqb_spec z 0); lia. }
  all: zcases; lia.
Qed.

(** Which comes first: locations by name, expressions, named locations, and those
    without a name. *)
Definition kind (c : loc_conf) : Z := if c.(l_noname) then 3 else if c.(l_named) then 2 else if is_regex c then 1 else 0.

Definition le_conf (a b : loc_conf) : Prop :=
  kind a < kind b \/
  kind a = kind b /\
  (kind a = 0 -> ngx_strcmp a.(l_name) b.(l_name) < 0 \/ ngx_strcmp a.(l_name) b.(l_name) = 0 /\ (a.(l_exact_match) = true \/ b.(l_exact_match) = false)) /\
  (kind a = 2 -> ngx_strcmp a.(l_name) b.(l_name) <= 0).

Lemma cmp_le conf x y : ngx_http_cmp_locations conf x y <= 0 <-> le_conf (conf_of conf x) (conf_of conf y).
Proof.
  unfold ngx_http_cmp_locations, le_conf, kind, is_regex. cbv zeta. destruct (conf_of conf x) as [n1 r1 nn1 nm1 e1 nr1 ar1], (conf_of conf y) as [n2 r2 nn2 nm2 e2 nr2 ar2]. cbn [l_noname l_named l_name l_exact_match l_regex].
  destruct nn1, nn2, nm1, nm2, r1, r2; cbn [andb orb negb]; try lia.
  set (s := ngx_strcmp n1 n2). assert (Ht : forall P Q : Prop, (0 < 0 \/ 0 = 0 /\ (0 = 0 -> P) /\ (0 = 2 -> Q)) <-> P).
  { intros P Q. split; [intros [?|(_ & H & _)]; [lia|auto]|]. intros H. right. split; [done|]. split; [auto|lia]. }
 rewrite Ht. clearbody s. clear. destruct e1, e2, (Z.eqb_spec s 0) as [->|]; cbn [andb negb]; (split; [intros H|intros [?|[? [?|?]]]]); try lia; try done; auto.
Qed.

Lemma strcmp_opp a : forall b, ngx_strcmp b a = - ngx_strcmp a b.
Proof.
  induction a as [|c a IH]; intros [|d b]; rewrite ?strcmp_cons, ?strcmp_nil_l, ?strcmp_nil_r; [done|zcases; lia|zcases; lia|].
  rewrite (Z.eqb_sym d c). destruct (Z.eqb_spec c d) as [->|]; [|lia]. destruct (d =? 0); [done|apply IH].
Qed.

Lemma le_conf_total a b : le_conf a b \/ le_conf b a.
Proof.
  unfold le_conf. rewrite (strcmp_opp a.(l_name) b.(l_name)). set (s := ngx_strcmp _ _). destruct (Z.lt_trichotomy (kind a) (kind b)) as [?|[E|?]]; [by left; left| |by right; left].
  destruct (Z.lt_trichotomy s 0) as [?|[E0|?]]; [left; right; split; [done|]; split; [by left|lia]| |right; right; split; [done|]; split; [by left; lia|lia]].
  destruct (l_exact_match a) eqn:Ea; [left|destruct (l_exact_match b) eqn:Eb; [right|left]]; right; (split; [done|]); (split; [|lia]); intros _; right; (split; [lia|]); auto.
Qed.

Lemma le_conf_trans a b c : le_conf a b -> le_conf b c -> le_conf a c.
Proof.
  unfold le_conf. destruct (strcmp_eq_lt a.(l_name) b.(l_name) c.(l_name)) as (T1 & T2 & T3). intros [H1|(E1 & H1 & H1')] [H2|(E2 & H2 & H2')]; [left; lia|left; lia|left; lia|].
  right. split; [lia|]. split; intros Hk.
  - destruct (H1 Hk) as [L1|[Z1 X1]], (H2 ltac:(lia)) as [L2|[Z2 X2]]; [left; apply T1; lia|left; apply T1; lia|left; apply T2; lia|]. right. split; [auto|].
    destruct X1 as [?|X1]; [by left|]. destruct X2 as [X2|?]; [congruence|by right].
  - specialize (H1' Hk). specialize (H2' ltac:(lia)). destruct (Z.eq_dec (ngx_strcmp (l_name a) (l_name b)) 0); [|lia]. destruct (Z.eq_dec (ngx_strcmp (l_name b) (l_name c)) 0); [|lia]. lia.
Qed.

(** ** The parts of the sorted queue *)

Lemma split_at_spec (R : relation location_queue) (f : location_queue -> bool) l : StronglySorted R l -> (forall x y, x ∈ l -> y ∈ l -> R x y -> f x = true -> f y = true) ->
  split_at f l = (List.filter (fun q => negb (f q)) l, List.filter f l).
Proof.
  induction 1 as [|q l Hs IH Hq]; intros Hm; [done|]. cbn [split_at List.filter]. rewrite Forall_forall in Hq.
  destruct (f q) eqn:Ef; cbn [negb].
  - assert (Ha : Forall (fun x => f x = true) l). { apply Forall_forall. intros x Hx. apply (Hm q x); [by left|by right|by apply Hq|done]. }
    clear -Ha. f_equal; [|f_equal]; induction Ha as [|x l Hx _ IH]; cbn; rewrite ?Hx; cbn; congruence.
  - rewrite IH; [done|]. intros x y Hx Hy. apply Hm; by right.
Qed.

Lemma sorted_weaken {A} (R R' : A -> A -> Prop) l : StronglySorted R l -> (forall x y, x ∈ l -> y ∈ l -> R x y -> R' x y) -> StronglySorted R' l.
Proof.
  induction 1 as [|x l Hs IH Hx]; intros H; [constructor|]. constructor; [apply IH; intros a b Ha Hb; apply H; by right|].
  rewrite Forall_forall in *. intros y Hy. apply H; [by left|by right|auto].
Qed.

Lemma filter_sorted {A} (R : A -> A -> Prop) (f : A -> bool) l : StronglySorted R l -> StronglySorted R (List.filter f l).
Proof.
  induction 1 as [|x l Hs IH Hx]; cbn; [constructor|]. destruct (f x); [|done]. constructor; [done|].
  rewrite Forall_forall in *. intros y Hy. apply Hx. apply list_elem_of_In, filter_In in Hy as [Hy _]. by apply list_elem_of_In.
Qed.

Lemma elem_filter {A} (f : A -> bool) l x : x ∈ List.filter f l <-> x ∈ l /\ f x = true.
Proof. by rewrite !list_elem_of_In, filter_In. Qed.

Lemma filter_twice {A} (f g h : A -> bool) l : (forall x, x ∈ l -> g x && f x = h x) -> List.filter f (List.filter g l) = List.filter h l.
Proof.
  induction l as [|x l IH]; intros H; [done|]. cbn [List.filter]. rewrite <- (H x) by by left. destruct (g x); cbn [List.filter andb]; [destruct (f x)|]; rewrite IH; try done; intros y Hy; apply H; by right.
Qed.

(** ** Duplicates *)

(** The name of a location, with whether it takes that name only. *)
Definition tags (q : location_queue) : list (list Z * bool) :=
  (match lq_exact q with Some _ => [(lq_name q, true)] | None => [] end) ++ (match lq_inclusive q with Some _ => [(lq_name q, false)] | None => [] end).

Lemma join_loop_none l : forall q, bare q -> Forall single l -> StronglySorted le_loc (q :: l) -> join_loop q l = None -> ~ NoDup (concat (map tags (q :: l))).
Proof.
  induction l as [|x l IH]; intros q Hq Hl Hs Hj; cbn [join_loop] in Hj; [done|].
  inversion_clear Hl as [|? ? [Hx Hx1] Hl']. inversion_clear Hs as [|? ? Hs' Hqs]. inversion_clear Hqs as [|? ? Hqx Hql]. destruct Hq as (Q1 & Q2 & Q3). destruct Hx as (X1 & X2 & X3).
  destruct (Z.eqb_spec (ngx_strcmp (lq_name q) (lq_name x)) 0) as [E|E].
  - apply strcmp_zero in E; [|done..]. destruct (_ || _) eqn:Ed.
    + clear Hj. cbn [map concat]. rewrite app_assoc. intros Hn. apply NoDup_app in Hn as (Hn & _). unfold tags in Hn. rewrite <- E in Hn.
      apply NoDup_app in Hn as (_ & Hn & _). apply orb_true_iff in Ed as [Ed|Ed].
      * destruct (lq_exact q), (lq_exact x); try done. apply (Hn (lq_name q, true)); left.
      * destruct (lq_inclusive q), (lq_inclusive x); try done. apply (Hn (lq_name q, false)); apply elem_of_app; right; left.
    + apply orb_false_iff in Ed as [E1 E2].
      assert (Hq' : lq_exact q <> None /\ lq_exact x = None /\ lq_inclusive q = None).
      { destruct Hqx as [H|[_ H]]; [rewrite E in H; by apply lex_irrefl in H|]. destruct (lq_exact q), (lq_exact x), (lq_inclusive q), (lq_inclusive x); try done; naive_solver. }
      destruct Hq' as (Hqe & Hxe & Hqi). specialize (IH (LQ (lq_exact q) (lq_inclusive x) (lq_name q) (lq_list q))).
      assert (Et : concat (map tags (q :: x :: l)) = concat (map tags (LQ (lq_exact q) (lq_inclusive x) (lq_name q) (lq_list q) :: l))).
      { cbn [map concat]. rewrite app_assoc. f_equal. unfold tags. cbn. rewrite Hxe, Hqi, E, app_nil_r. done. }
      rewrite Et. apply IH; [split; [done|]; split; [by left|done]|done| |done].
      inversion_clear Hs' as [|? ? Hs2 Hx2]. constructor; [done|]. rewrite Forall_forall in *. intros y Hy. destruct (Hql y Hy) as [H|[H _]]; [by left|right]. split; [done|by left].
  - destruct (join_loop x l) as [r'|] eqn:Ej; [done|]. intros Hn. apply (IH x); [by split|done..|]. cbn [map concat] in Hn. by apply NoDup_app in Hn as (_ & _ & Hn).
Qed.
