(* ===== verification/HttpLocationRule.v ===== *)
(** * Locations: the location of a request

    The locations of a server, in the order of the configuration, and the rule for
    the location of a request: an exact name, else the longest name that the URI
    begins with, unless an expression matches.  What [ngx_http_init_locations] and
    [ngx_http_init_static_location_trees] make of the queue finds it. *)

From stdpp Require Import gmap sorting.
From S2P Require Import Prelude NgxCompare HttpLocation HttpLocationSpec HttpLocationFind.

(** ** The locations of a server *)

(** The element for the location at [c]. *)
Definition element (c : Z) (k : loc_conf) : location_queue :=
  if k.(l_exact_match) || is_regex k || k.(l_named) || k.(l_noname) then LQ (Some c) None k.(l_name) [] else LQ None (Some c) k.(l_name) [].

(** The locations at [cl], added one after the other. *)
Fixpoint add_locations (cs : confs) (locations : option (list location_queue)) (cl : list Z) (a : allocs) : option (list location_queue) * bool * allocs :=
  match cl with
  | [] => (locations, true, a)
  | c :: cl =>
      let '(q, ok, a) := ngx_http_add_location locations c (conf_at cs c) a in
      if ok then add_locations cs q cl a else (q, false, a)
  end.

Lemma add_locations_queue cs cl : forall o a q a', add_locations cs o cl a = (q, true, a') -> default [] q = default [] o ++ map (fun c => element c (conf_at cs c)) cl.
Proof.
  induction cl as [|c cl IH]; intros o a q a' H; cbn [add_locations map] in *; [by injection H as <- <-; rewrite app_nil_r|].
  unfold ngx_http_add_location in H. destruct (match o with None => alloc a | Some _ => (true, a) end) as [[] a1]; cbn [negb] in H; [|done].
  destruct (alloc a1) as [[] a2]; cbn [negb] in H; [|done]. apply IH in H. rewrite H. exact (eq_sym (app_assoc (default [] o) [element c (conf_at cs c)] _)).
Qed.

(** A location without others inside, with one mode. *)
Definition plain_location (cs : confs) (p c : Z) : Prop := exists k, cs !! c = Some (Clcf k None None []) /\ c <> p /\
  (k.(l_noname) = true -> k.(l_named) = false /\ k.(l_regex) = None) /\ (k.(l_named) = true -> k.(l_regex) = None) /\
  Forall (fun x => 0 < x) k.(l_name) /\ zlen k.(l_name) < 256.

(** ** The rule *)

Section rule.
Context (regex_exec : Z -> list Z -> Z) (cs : confs) (cl : list Z) (p : Z) (uri : list Z).

(** A location for a name, and the expressions in the order of the configuration. *)
Definition static_location (c : Z) : Prop := c ∈ cl /\ kind (conf_at cs c) = 0.
Definition name_of (c : Z) : list Z := (conf_at cs c).(l_name).
Definition exact (c : Z) : Prop := (conf_at cs c).(l_exact_match) = true.
Definition regexes : list Z := List.filter (fun c => kind (conf_at cs c) =? 1) cl.
Definition exec (c : Z) : Z := regex_exec (default 0 (conf_at cs c).(l_regex)) uri.

(** The first expression that matches, or an error before, or [base]. *)
Definition regex_rule (base : Z) (r : Z * Z) : Prop :=
  (exists before c after, regexes = before ++ c :: after /\ Forall (fun d => exec d = NGX_DECLINED) before /\
     (exec c = NGX_OK /\ r = (NGX_OK, c) \/ exec c <> NGX_OK /\ exec c <> NGX_DECLINED /\ r = (NGX_ERROR, base))) \/
  (Forall (fun d => exec d = NGX_DECLINED) regexes /\ r = (NGX_DECLINED, base)).

Definition after_static (base : Z) (noregex : bool) (r : Z * Z) : Prop := if noregex then r = (NGX_DECLINED, base) else regex_rule base r.

Inductive location_rule : Z * Z -> Prop :=
  | rule_exact c : static_location c -> exact c -> name_of c = uri -> location_rule (NGX_OK, c)
  | rule_redirect c d x :
      (forall e, static_location e -> name_of e <> uri) ->
      static_location c -> name_of c = uri ++ [x] -> static_location d -> name_of d = uri ++ [x] -> (conf_at cs d).(l_auto_redirect) = true ->
      location_rule (NGX_DONE, c)
  | rule_prefix c r :
      (forall e, static_location e -> exact e -> name_of e <> uri) ->
      static_location c -> ~ exact c -> name_of c `prefix_of` uri ->
      (forall e, static_location e -> ~ exact e -> name_of e `prefix_of` uri -> (length (name_of e) <= length (name_of c))%nat) ->
      after_static c (conf_at cs c).(l_noregex) r -> location_rule r
  | rule_none r :
      (forall e, static_location e -> exact e -> name_of e <> uri) ->
      (forall e, static_location e -> ~ exact e -> ~ name_of e `prefix_of` uri) ->
      after_static p false r -> location_rule r.
End rule.

(** ** From the configuration to the tree *)

Section server.
Context (cs : confs) (p : Z) (pc : clcf) (cl : list Z).
Context (Hpc : cs !! p = Some pc) (Hq : default [] pc.(c_locations) = map (fun c => element c (conf_at cs c)) cl) (Hst : pc.(c_static) = None) (Hrx : pc.(c_regex) = []).
Context (Hcl : Forall (plain_location cs p) cl).

Abbreviation el := (fun c => element c (conf_at cs c)).
Abbreviation K := (fun q => kind (conf_of (conf_at cs) q)).
Definition server_queue : list location_queue := map el cl.
Definition sorted_queue : list location_queue := ngx_sort (ngx_http_cmp_locations (conf_at cs)) true server_queue.
Definition static_queue : list location_queue := List.filter (fun q => K q =? 0) sorted_queue.

Lemma el_conf c k : lq_conf (element c k) = Some c.
Proof. unfold element. by destruct (_ || _). Qed.

Lemma el_name c k : lq_name (element c k) = k.(l_name).
Proof. unfold element. by destruct (_ || _). Qed.

Lemma el_kind c : K (el c) = kind (conf_at cs c).
Proof. unfold conf_of. by rewrite el_conf. Qed.

Lemma sorted_facts : sorted_queue ≡ₚ server_queue /\ StronglySorted (fun x y => le_conf (conf_of (conf_at cs) x) (conf_of (conf_at cs) y)) sorted_queue /\
  List.filter (fun q => K q =? 1) sorted_queue = List.filter (fun q => K q =? 1) server_queue.
Proof.
  destruct (ngx_sort_stable (ngx_http_cmp_locations (conf_at cs)) server_queue) as (H1 & H2 & H3).
  - intros x y H. apply cmp_le. destruct (le_conf_total (conf_of (conf_at cs) x) (conf_of (conf_at cs) y)) as [Hx|Hx]; [apply cmp_le in Hx; lia|done].
  - intros x y z. rewrite !cmp_le. apply le_conf_trans.
  - split; [exact H1|]. split; [eapply sorted_weaken; [exact H2|]; intros x y _ _ Hxy; by apply cmp_le|]. apply H3.
    intros x y Hx Hy. apply cmp_le. apply Z.eqb_eq in Hx, Hy. right. split; [lia|]. split; lia.
Qed.

Lemma sorted_elem q : q ∈ sorted_queue -> exists c, c ∈ cl /\ q = el c /\ plain_location cs p c.
Proof.
  intros H. destruct sorted_facts as (Hp & _). rewrite Hp in H. apply list_elem_of_fmap in H as (c & -> & Hc). exists c. split; [done|]. split; [done|]. rewrite Forall_forall in Hcl. auto.
Qed.

(** What the flags say of the kind. *)
Lemma kind_flags k : (k.(l_noname) = true -> k.(l_named) = false /\ k.(l_regex) = None) -> (k.(l_named) = true -> k.(l_regex) = None) ->
  negb (is_regex k) && negb k.(l_named) && k.(l_noname) = (kind k =? 3) /\ k.(l_named) = (kind k =? 2) /\ is_regex k = (kind k =? 1) /\ 0 <= kind k <= 3.
Proof.
  unfold kind, is_regex. destruct k as [n r nn nm e nr ar]. cbn. intros H1 H2. destruct nn; [destruct (H1 eq_refl) as [-> ->]; by cbn; split_and!|]. destruct nm; [rewrite (H2 eq_refl); by cbn; split_and!|].
  destruct r; cbn; by split_and!.
Qed.

Lemma sorted_flags q : q ∈ sorted_queue -> let k := conf_of (conf_at cs) q in
  negb (is_regex k) && negb k.(l_named) && k.(l_noname) = (K q =? 3) /\ k.(l_named) = (K q =? 2) /\ is_regex k = (K q =? 1) /\ 0 <= K q <= 3.
Proof.
  intros H. apply sorted_elem in H as (c & _ & -> & (k & Hk & _ & H1 & H2 & _)). cbv zeta. apply kind_flags; unfold conf_of, conf_at; rewrite el_conf; cbn [from_option id]; by rewrite Hk.
Qed.

Lemma visit_flat rec l a : (forall c a, plain_location cs p c -> rec c cs a = Some (Some (cs, a))) -> l ⊆ sorted_queue ->
  visit_locations rec l cs a = Some (Some (fst (split_at (fun q => K q =? 3) l), cs, a)).
Proof.
  intros Hrec. induction l as [|q l IH]; intros Hl; [done|]. cbn [visit_locations split_at].
  assert (Hq' : q ∈ sorted_queue) by (apply Hl; by left). destruct (sorted_flags q Hq') as (F & _). destruct (sorted_elem q Hq') as (c & Hc & -> & Hk).
  rewrite el_conf, Hrec by done. unfold conf_of in F. rewrite el_conf in F. cbn [from_option id] in F. cbv zeta. rewrite F.
  unfold conf_of. rewrite el_conf. cbn [from_option id]. destruct (_ =? 3); [done|]. rewrite IH by (intros x Hx; apply Hl; by right).
  by destruct (split_at _ l).
Qed.

(** The kinds grow along the sorted queue. *)
Lemma kind_grows l k (f : location_queue -> bool) : l ⊆ sorted_queue -> (forall q, q ∈ sorted_queue -> K q < k + 1 -> f q = (K q =? k)) ->
  Forall (fun q => K q < k + 1) l -> StronglySorted (fun x y => le_conf (conf_of (conf_at cs) x) (conf_of (conf_at cs) y)) l ->
  split_at f l = (List.filter (fun q => K q <? k) l, List.filter (fun q => K q =? k) l).
Proof.
  intros Hl Hf Hk Hs. rewrite Forall_forall in Hk. rewrite (split_at_spec _ _ _ Hs).
  - f_equal; apply filter_ext_in; intros q Hin; apply list_elem_of_In in Hin; specialize (Hk q Hin); rewrite Hf; auto. apply Bool.eq_true_iff_eq. rewrite negb_true_iff, Z.eqb_neq, Z.ltb_lt. lia.
  - intros x y Hx Hy Hxy. rewrite !Hf by auto. pose proof (Hk y Hy). destruct Hxy as [H'|[H' _]]; lia.
Qed.

Lemma omap_exact l : Forall (fun c => kind (conf_at cs c) <> 0 /\ plain_location cs p c) l -> omap lq_exact (map el l) = l.
Proof.
  induction 1 as [|c l [Hc (k & Hk & _ & H1 & H2 & _)] _ IH]; [done|]. cbn. assert (E : lq_exact (el c) = Some c); [|rewrite E; cbn; by rewrite IH].
  unfold element. unfold conf_at in *. rewrite Hk in *. cbn in Hc. cbn [c_conf]. destruct (kind_flags k H1 H2) as (_ & F2 & F3 & _). unfold kind in Hc. destruct k.(l_noname) eqn:Nn; [by rewrite !orb_true_r|]. destruct k.(l_named) eqn:Nd; [by rewrite !orb_true_r|].
  destruct (is_regex k); [by rewrite !orb_true_r|done].
Qed.

Lemma filter_map {A B} (f : A -> B) (g : B -> bool) l : List.filter g (map f l) = map f (List.filter (fun x => g (f x)) l).
Proof. induction l as [|x l IH]; [done|]. cbn. destruct (g (f x)); cbn; by rewrite IH. Qed.

Lemma regex_elements : omap lq_exact (List.filter (fun q => K q =? 1) sorted_queue) = regexes cs cl.
Proof.
  destruct sorted_facts as (_ & _ & ->). unfold server_queue, regexes. rewrite filter_map.
  rewrite (filter_ext _ (fun c => kind (conf_at cs c) =? 1)) by (intros c; by rewrite el_kind).
  apply omap_exact, Forall_forall. intros c Hc. apply elem_filter in Hc as [Hc Hk]. rewrite Forall_forall in Hcl. apply Z.eqb_eq in Hk. split; [lia|auto].
Qed.

Lemma init_locations_flat a : pc.(c_locations) <> None -> exists r a', went a a' /\
  match r with
  | None => ngx_http_init_locations 2 true p cs a = Some None /\ ~ no_oom a
  | Some named => ngx_http_init_locations 2 true p cs a = Some (Some (named, <[p := Clcf pc.(c_conf) (Some static_queue) None (regexes cs cl)]> cs, a'))
  end.
Proof.
  intros Hne. destruct (c_locations pc) as [locs|] eqn:El; [|done]. cbn in Hq. subst locs.
  remember 1%nat as n eqn:En. cbn [ngx_http_init_locations]. rewrite Hpc, El. cbv zeta. fold server_queue. fold sorted_queue.
  destruct sorted_facts as (_ & Hs & _). rewrite visit_flat; [|subst n; intros c b (k & Hk & _); cbn [ngx_http_init_locations]; by rewrite Hk|done].
  assert (E3 : split_at (fun q => K q =? 3) sorted_queue = (List.filter (fun q => K q <? 3) sorted_queue, List.filter (fun q => K q =? 3) sorted_queue)).
  { apply kind_grows; try done. apply Forall_forall. intros q Hin. destruct (sorted_flags q Hin) as (_ & _ & _ & ?). lia. }
  rewrite E3. cbn [fst].
  rewrite (kind_grows _ 2); [|intros q Hin; by apply elem_filter in Hin as [? _]|intros q Hin _; by destruct (sorted_flags q Hin) as (_ & ? & _)| |by apply filter_sorted].
  2: { apply Forall_forall. intros q Hin. apply elem_filter in Hin as [_ Hin]. lia. }
  rewrite !(filter_twice (fun q => K q <? 2) (fun q => K q <? 3) (fun q => K q <? 2)) by (intros; lia).
  rewrite (kind_grows _ 1); [|intros q Hin; by apply elem_filter in Hin as [? _]|intros q Hin _; by destruct (sorted_flags q Hin) as (_ & _ & ? & _)| |by apply filter_sorted].
  2: { apply Forall_forall. intros q Hin. apply elem_filter in Hin as [_ Hin]. lia. }
  rewrite (filter_twice (fun q => K q =? 1) _ (fun q => K q =? 1)) by (intros; lia).
  rewrite (filter_twice (fun q => K q <? 1) _ (fun q => K q =? 0)). 2: { intros q Hin. destruct (sorted_flags q Hin) as (_ & _ & _ & ?). lia. }
  fold static_queue. set (named := List.filter _ (List.filter _ _)). set (rx := List.filter (fun q => K q =? 1) sorted_queue).
  destruct (match named with [] => (true, a) | _ => alloc a end) as [ok1 a1] eqn:E1.
  assert (W1 : went a a1 /\ (ok1 = false -> ~ no_oom a)). { destruct named; [injection E1 as <- <-; split; [intros Hw; exact Hw|done]|by apply alloc_went]. }
  destruct ok1; cbn [negb andb]; [|exists None, a1; split; [by apply W1|]; split; [done|by apply W1]].
  destruct (match rx with [] => (true, a1) | _ => alloc a1 end) as [ok2 a2] eqn:E2.
  assert (W2 : went a1 a2 /\ (ok2 = false -> ~ no_oom a1)). { destruct rx; [injection E2 as <- <-; split; [intros Hw; exact Hw|done]|by apply alloc_went]. }
  destruct W1 as [W1 _], W2 as [W2 O2]. destruct ok2; cbn [negb].
  - exists (Some (omap lq_exact named)), a2. split; [by eapply went_trans|]. unfold rx. rewrite regex_elements, Hst. done.
  - exists None, a2. split; [by eapply went_trans|]. split; [done|]. eapply went_oom; [done|auto].
Qed.

(** ** The static locations *)

Lemma static_elem q : q ∈ static_queue <-> exists c, static_location cs cl c /\ q = el c.
Proof.
  unfold static_queue, static_location. rewrite elem_filter. destruct sorted_facts as (Hp & _). rewrite Hp. split.
  - intros [Hin Hk]. apply list_elem_of_fmap in Hin as (c & -> & Hc). exists c. rewrite el_kind in Hk. apply Z.eqb_eq in Hk. done.
  - intros (c & [Hc Hk] & ->). rewrite el_kind, Hk. split; [|done]. apply list_elem_of_fmap. by exists c.
Qed.

Lemma static_conf c : static_location cs cl c -> let k := conf_at cs c in
  el c = (if k.(l_exact_match) then LQ (Some c) None k.(l_name) [] else LQ None (Some c) k.(l_name) []) /\ Forall (fun x => 0 < x) k.(l_name) /\ zlen k.(l_name) < 256 /\
  cs !! c = Some (Clcf k None None []) /\ c <> p.
Proof.
  intros [Hc Hk]. rewrite Forall_forall in Hcl. destruct (Hcl c Hc) as (k & E & Hne & H1 & H2 & H3 & H4). cbv zeta. unfold conf_at in *. rewrite E in *. cbn [c_conf] in *.
  split; [|by split_and!]. destruct (kind_flags k H1 H2) as (_ & F2 & F3 & _). rewrite Hk in F2, F3. unfold element. rewrite F2, F3. unfold kind in Hk. destruct k.(l_noname); [done|]. by rewrite !orb_false_r.
Qed.

Lemma static_single : Forall single static_queue.
Proof.
  apply Forall_forall. intros q Hin. apply static_elem in Hin as (c & Hc & ->). destruct (static_conf c Hc) as (-> & Hp & _). destruct (l_exact_match _); (split; [split; [done|]; split; [|done]|]); cbn; auto.
Qed.

Lemma static_sorted : StronglySorted le_loc static_queue.
Proof.
  destruct sorted_facts as (_ & Hs & _). eapply sorted_weaken; [apply filter_sorted, Hs|]. intros x y Hx Hy Hxy.
  apply static_elem in Hx as (c & Hc & ->), Hy as (d & Hd & ->). destruct (static_conf c Hc) as (Ec & Hpc' & _), (static_conf d Hd) as (Ed & Hpd & _).
  unfold conf_of in Hxy. rewrite !el_conf in Hxy. cbn [from_option id] in Hxy. destruct Hc as [_ Kc], Hd as [_ Kd]. destruct Hxy as [H|(_ & H & _)]; [lia|]. specialize (H Kc).
  unfold le_loc. rewrite !el_name. rewrite strcmp_lt, strcmp_zero in H by done. destruct H as [H|[H1 H2]]; [by left|right]. split; [done|]. rewrite Ec, Ed.
  destruct H2 as [Hx|Hy]; [rewrite Hx; by left|rewrite Hy; by right].
Qed.

Lemma has_exact_static c n : has_exact static_queue c n <-> static_location cs cl c /\ exact cs c /\ name_of cs c = n.
Proof.
  unfold has_exact, exact, name_of. split.
  - intros (q & Hin & E & <-). apply static_elem in Hin as (d & Hd & ->). destruct (static_conf d Hd) as (Ed & _). rewrite Ed in *. destruct (l_exact_match _) eqn:Ex; cbn in E; [|done]. injection E as <-. done.
  - intros (Hc & Ex & <-). exists (el c). rewrite static_elem. split; [by exists c|]. destruct (static_conf c Hc) as (-> & _). by rewrite Ex.
Qed.

Lemma has_inclusive_static c n : has_inclusive static_queue c n <-> static_location cs cl c /\ ~ exact cs c /\ name_of cs c = n.
Proof.
  unfold has_inclusive, exact, name_of. split.
  - intros (q & Hin & E & <-). apply static_elem in Hin as (d & Hd & ->). destruct (static_conf d Hd) as (Ed & _). rewrite Ed in *. destruct (l_exact_match _) eqn:Ex; cbn in E; [done|]. injection E as <-. rewrite Ex. done.
  - intros (Hc & Ex & <-). exists (el c). rewrite static_elem. split; [by exists c|]. destruct (static_conf c Hc) as (-> & _). apply not_true_is_false in Ex. by rewrite Ex.
Qed.

(** Names with their modes, of which a server has each once. *)
Definition location_tags : list (list Z * bool) := map (fun c => (name_of cs c, (conf_at cs c).(l_exact_match))) (List.filter (fun c => kind (conf_at cs c) =? 0) cl).

Lemma concat_tags l : Forall (static_location cs cl) l -> concat (map tags (map el l)) = map (fun c => (name_of cs c, (conf_at cs c).(l_exact_match))) l.
Proof.
  induction 1 as [|c l Hc _ IH]; [done|]. cbn [map concat]. rewrite IH. destruct (static_conf c Hc) as (-> & _). unfold name_of. by destruct (l_exact_match _).
Qed.

Lemma static_tags : concat (map tags static_queue) ≡ₚ location_tags.
Proof.
  assert (Hp : static_queue ≡ₚ map el (List.filter (fun c => kind (conf_at cs c) =? 0) cl)).
  { unfold static_queue. destruct sorted_facts as (Hp & _).
    assert (Hf : forall l l' : list location_queue, l ≡ₚ l' -> List.filter (fun q => K q =? 0) l ≡ₚ List.filter (fun q => K q =? 0) l').
    { induction 1; cbn; repeat case_match; try done; [by constructor|by constructor|by etrans]. }
    rewrite (Hf _ _ Hp). unfold server_queue. rewrite filter_map. by rewrite (filter_ext _ (fun c => kind (conf_at cs c) =? 0)) by (intros c; by rewrite el_kind). }
  rewrite (Permutation_map tags Hp : _ ≡ₚ _).
  fold (location_tags). unfold location_tags. rewrite concat_tags; [done|]. apply Forall_forall. intros c Hc. apply elem_filter in Hc as [Hc Hk]. split; [done|lia].
Qed.

(** ** What is made of the locations *)

(** A server whose tree answers for the joined queue [J]. *)
Definition made (cs' : confs) : Prop := exists pl t J,
  cs' !! p = Some (Clcf pc.(c_conf) pl t (regexes cs cl)) /\ (forall c, c <> p -> cs' !! c = cs !! c) /\
  StronglySorted name_lt J /\ Forall bare J /\
  (forall c n, has_exact J c n <-> has_exact static_queue c n) /\ (forall c n, has_inclusive J c n <-> has_inclusive static_queue c n) /\
  forall u loc, exists r, ngx_http_core_find_static_location t u loc = Some r /\ answers (conf_at cs') J u (NGX_DECLINED, loc) r.

Lemma made_empty cs' : (exists pl, cs' !! p = Some (Clcf pc.(c_conf) pl None (regexes cs cl))) -> (forall c, c <> p -> cs' !! c = cs !! c) -> static_queue = [] -> made cs'.
Proof.
  intros [pl E] Hne Hs. exists pl, None, []. rewrite Hs. split; [done|]. split; [done|]. do 2 (split; [constructor|]). split; [done|]. split; [done|]. intros u loc. exact (leaf_good (conf_at cs') [] u NGX_DECLINED loc).
Qed.

Lemma conf_at_ext cs' t pl rx : cs' !! p = Some (Clcf pc.(c_conf) pl t rx) -> (forall c, c <> p -> cs' !! c = cs !! c) -> forall c, conf_at cs' c = conf_at cs c.
Proof. intros E Hne c. unfold conf_at. destruct (decide (c = p)) as [->|H]; [by rewrite E, Hpc|by rewrite Hne]. Qed.

Lemma answers_ext f g J u b r : (forall c, f c = g c) -> answers f J u b r -> answers g J u b r.
Proof.
  intros E. assert (Er : forall o, redirects f o = redirects g o) by (intros [x|]; [cbn; by rewrite E|done]).
  intros [H|[H1 [(q & c & l & Hin & Hn & Hr & H)|H2]]]; [by left|right; split; [done|left]|right; split; [done|by right]].
  exists q, c, l. rewrite <- !Er. done.
Qed.

Lemma join_loop_some l : forall q, join_loop q l <> Some [].
Proof. induction l as [|x l IH]; intros q; cbn [join_loop]; [done|]. destruct (_ =? 0); [destruct (_ || _); [done|apply IH]|by destruct (join_loop x l)]. Qed.

(** The trees of a server. *)
Lemma trees_flat a pl : let cs1 := <[p := Clcf pc.(c_conf) (Some static_queue) None (regexes cs cl)]> cs in pl = static_queue ->
  exists r a', went a a' /\
  match r with
  | None => ngx_http_init_static_location_trees 2 p cs1 a = Some None /\ (~ no_oom a \/ ~ NoDup location_tags)
  | Some cs2 => ngx_http_init_static_location_trees 2 p cs1 a = Some (Some (cs2, a')) /\ made cs2
  end.
Proof.
  intros cs1 ->. assert (E1 : cs1 !! p = Some (Clcf pc.(c_conf) (Some static_queue) None (regexes cs cl))) by apply lookup_insert_eq.
  assert (Hne1 : forall c, c <> p -> cs1 !! c = cs !! c) by (intros c H; by apply lookup_insert_ne).
  remember 1%nat as n eqn:En. cbn [ngx_http_init_static_location_trees]. rewrite E1. cbn [c_locations c_conf c_regex].
  pose proof static_single as H1. pose proof static_sorted as Hs. pose proof static_tags as Ht. pose proof (fun q => proj1 (static_elem q)) as He.
  destruct static_queue as [|q0 l0] eqn:Eq; [exists (Some cs1), a; split; [intros Hw; exact Hw|]; split; [done|]; apply made_empty; [by eexists|done|done]|]. rewrite <- Eq in He |- *.
  assert (Hv : forall l a, l ⊆ static_queue -> visit_trees (ngx_http_init_static_location_trees n) l cs1 a = Some (Some (cs1, a))).
  { clear -He Hne1 En Hpc Hcl. induction l as [|q l IH]; intros a Hl; [done|]. cbn [visit_trees]. destruct (He q (Hl q ltac:(by left))) as (c & Hc & ->). rewrite el_conf. subst n. cbn [ngx_http_init_static_location_trees].
    destruct (static_conf c Hc) as (_ & _ & _ & Ec & Hcp). rewrite Hne1, Ec by done. cbn [c_locations]. apply IH. intros x Hx. apply Hl. by right. }
  rewrite Hv by done. rewrite Eq. cbn [ngx_http_join_exact_locations]. inversion_clear H1 as [|? ? [Hb0 _] Hl0].
  destruct (join_loop q0 l0) as [J|] eqn:EJ.
  2: { exists None, a. split; [intros Hw; exact Hw|]. split; [done|]. right. rewrite <- Ht. by apply join_loop_none. }
  destruct (join_loop_spec l0 q0 J Hb0 Hl0 Hs EJ) as (J1 & J2 & _ & J3 & J4). destruct (list_forest (length J) J [] ltac:(done) J2 J1) as [F1 F2].
  { apply Forall_forall. intros q _. by exists (lq_name q). }
  set (listed := ngx_http_create_locations_list (length J) J) in *.
  assert (Hshort : Forall (fun w => zlen (lq_name w) < 256) J).
  { apply Forall_forall. intros w Hw. rewrite Forall_forall in J2. destruct (J2 w Hw) as (_ & Hs' & _).
    assert (Hin : (exists c, has_exact J c (lq_name w)) \/ (exists c, has_inclusive J c (lq_name w))).
    { destruct (lq_exact w) as [c|] eqn:Ex; [left; exists c; by exists w|]. destruct (lq_inclusive w) as [c|] eqn:Ei; [right; exists c; by exists w|]. by destruct Hs'. }
    destruct Hin as [[c Hin]|[c Hin]]; [apply J3 in Hin; rewrite <- Eq, has_exact_static in Hin|apply J4 in Hin; rewrite <- Eq, has_inclusive_static in Hin]; destruct Hin as (Hc & _ & <-); by apply static_conf. }
  assert (Hnil : listed <> []). { intros E. rewrite E in F2. destruct J; [by apply join_loop_some in EJ|done]. }
  destruct (tree_made (conf_at cs1) (S (queue_count listed)) listed [] a Hnil F1 ltac:(by rewrite F2) ltac:(by rewrite F2) ltac:(lia)) as (r & a' & E & Hw & Hr). cbn [length] in E. rewrite E.
  destruct r as [t|]; [|exists None, a'; split; [done|]; split; [done|by left]].
  eexists (Some _), a'. split; [done|]. split; [done|]. exists (Some listed), (Some t), J.
  assert (E2 : <[p:=Clcf (c_conf pc) (Some listed) (Some t) (regexes cs cl)]> cs1 !! p = Some (Clcf (c_conf pc) (Some listed) (Some t) (regexes cs cl))) by apply lookup_insert_eq.
  assert (Hne2 : forall c, c <> p -> <[p:=Clcf (c_conf pc) (Some listed) (Some t) (regexes cs cl)]> cs1 !! c = cs !! c) by (intros c H; rewrite lookup_insert_ne by done; by apply Hne1).
  split; [done|]. split; [done|]. split; [done|]. split; [done|]. split; [by rewrite Eq|]. split; [by rewrite Eq|].
  intros u loc. destruct (Hr u NGX_DECLINED loc) as (r & Er & Ha). exists r. split; [exact Er|]. rewrite F2 in Ha. cbn [app] in Ha. eapply answers_ext; [|exact Ha].
  intros c. by rewrite (conf_at_ext _ _ _ _ E1 Hne1), (conf_at_ext _ _ _ _ E2 Hne2).
Qed.

(** ** The search *)

Context (regex_exec : Z -> list Z -> Z) (uri : list Z).

Section search.
Context (cs' : confs) (Hne : forall c, c <> p -> cs' !! c = cs !! c) (Hconf : forall c, conf_at cs' c = conf_at cs c).
Abbreviation inside := (find_location regex_exec cs' uri 1).

(** Inside of a location there is nothing. *)
Lemma find_inside c : c ∈ cl -> inside c = Some (NGX_DECLINED, c).
Proof.
  intros Hc. rewrite Forall_forall in Hcl. destruct (Hcl c Hc) as (k & Hk & Hcp & _). cbn [find_location]. rewrite Hne, Hk by done. done.
Qed.

Lemma regex_loop_rule base l : forall before, regexes cs cl = before ++ l -> Forall (fun d => exec regex_exec cs uri d = NGX_DECLINED) before ->
  exists r, regex_loop regex_exec cs' uri inside NGX_DECLINED base l = Some r /\ regex_rule regex_exec cs cl uri base r.
Proof.
  induction l as [|c l IH]; intros before E Hb; cbn [regex_loop].
  { rewrite app_nil_r in E. eexists. split; [done|]. right. by rewrite E. }
  assert (Hc : c ∈ cl /\ kind (conf_at cs c) = 1).
  { assert (Hin : c ∈ regexes cs cl) by (rewrite E; apply elem_of_app; right; by left). apply elem_filter in Hin as [? Hk]. by apply Z.eqb_eq in Hk. }
  destruct Hc as [Hc Hk]. rewrite Hconf, find_inside by done. destruct (l_regex (conf_at cs c)) as [rx|] eqn:Erx.
  2: { exfalso. unfold kind, is_regex in Hk. rewrite Erx in Hk. by repeat case_match. }
  assert (Ee : exec regex_exec cs uri c = regex_exec rx uri) by (unfold exec; by rewrite Erx). rewrite <- Ee. cbv zeta.
  destruct (Z.eqb_spec (exec regex_exec cs uri c) NGX_OK) as [E0|E0]; [eexists; split; [done|]; left; exists before, c, l; split_and!; [done|done|by left]|].
  destruct (Z.eqb_spec (exec regex_exec cs uri c) NGX_DECLINED) as [E5|E5]; [|eexists; split; [done|]; left; exists before, c, l; split_and!; [done|done|by right]].
  apply (IH (before ++ [c])); [by rewrite <- app_assoc|]. apply Forall_app. split; [done|by repeat constructor].
Qed.

Lemma after_rule base (noregex : bool) : exists r, (if noregex then Some (NGX_DECLINED, base) else regex_loop regex_exec cs' uri inside NGX_DECLINED base (regexes cs cl)) = Some r /\
  after_static regex_exec cs cl uri base noregex r.
Proof. destruct noregex; [by eexists|]. by apply (regex_loop_rule base _ []). Qed.

(** The search from the answer of the tree on. *)
Context (k : loc_conf) (pl : option (list location_queue)) (t : option location_tree) (Hp' : cs' !! p = Some (Clcf k pl t (regexes cs cl))).

Lemma found_at_once rc loc : ngx_http_core_find_static_location t uri p = Some (rc, loc) -> rc = NGX_OK \/ rc = NGX_DONE -> find_location regex_exec cs' uri 2 p = Some (rc, loc).
Proof. intros E H. remember 1%nat as n. cbn [find_location]. rewrite Hp'. cbn [c_static]. rewrite E. destruct H; by subst rc. Qed.

Lemma found_again c : ngx_http_core_find_static_location t uri p = Some (NGX_AGAIN, c) -> c ∈ cl ->
  exists r, find_location regex_exec cs' uri 2 p = Some r /\ after_static regex_exec cs cl uri c (conf_at cs c).(l_noregex) r.
Proof.
  intros E Hc. destruct (after_rule c (l_noregex (conf_at cs c))) as (r & Er & H). exists r. split; [|done]. rewrite <- Er. pose proof (find_inside c Hc) as Ei. remember 1%nat as n. cbn [find_location].
  rewrite Hp'. cbn [c_static c_regex]. rewrite E. cbn [Z.eqb Pos.eqb]. rewrite Ei, Hconf. done.
Qed.

Lemma found_declined c : ngx_http_core_find_static_location t uri p = Some (NGX_DECLINED, c) ->
  exists r, find_location regex_exec cs' uri 2 p = Some r /\ after_static regex_exec cs cl uri c false r.
Proof.
  intros E. destruct (after_rule c false) as (r & Er & H). exists r. split; [|done]. rewrite <- Er. remember 1%nat as n. cbn [find_location]. rewrite Hp'. cbn [c_static c_regex]. rewrite E. done.
Qed.
End search.

Lemma sorted_unique J q q' : StronglySorted name_lt J -> q ∈ J -> q' ∈ J -> lq_name q = lq_name q' -> q = q'.
Proof.
  induction 1 as [|z l Hs IH Hz]; intros H1 H2 E; [inversion H1|]. rewrite Forall_forall in Hz.
  apply elem_of_cons in H1 as [->|H1], H2 as [->|H2]; [done| | |by apply IH]; exfalso; [specialize (Hz q' H2)|specialize (Hz q H1)]; cbn in Hz; rewrite E in Hz; by apply lex_irrefl in Hz.
Qed.

(** What a joined queue knows of the locations. *)
Section joined.
Context (J : list location_queue) (Hs : StronglySorted name_lt J).
Context (He : forall c n, has_exact J c n <-> has_exact static_queue c n) (Hi : forall c n, has_inclusive J c n <-> has_inclusive static_queue c n).

Lemma joined_exact q c : q ∈ J -> lq_exact q = Some c -> static_location cs cl c /\ exact cs c /\ name_of cs c = lq_name q.
Proof. intros Hin E. apply has_exact_static, He. by exists q. Qed.

Lemma joined_inclusive q c : q ∈ J -> lq_inclusive q = Some c -> static_location cs cl c /\ ~ exact cs c /\ name_of cs c = lq_name q.
Proof. intros Hin E. apply has_inclusive_static, Hi. by exists q. Qed.

Lemma exact_joined c : static_location cs cl c -> exact cs c -> exists q, q ∈ J /\ lq_exact q = Some c /\ lq_name q = name_of cs c.
Proof. intros H1 H2. apply He, has_exact_static. by split_and!. Qed.

Lemma inclusive_joined c : static_location cs cl c -> ~ exact cs c -> exists q, q ∈ J /\ lq_inclusive q = Some c /\ lq_name q = name_of cs c.
Proof. intros H1 H2. apply Hi, has_inclusive_static. by split_and!. Qed.

Lemma static_joined c : static_location cs cl c -> exists q, q ∈ J /\ lq_name q = name_of cs c.
Proof.
  intros H. destruct (l_exact_match (conf_at cs c)) eqn:E; [destruct (exact_joined c H E) as (q & ? & _ & ?); by exists q|].
  destruct (inclusive_joined c H) as (q & ? & _ & ?); [unfold exact; by rewrite E|by exists q].
Qed.

Lemma joined_redirect f x r : (forall c, f c = conf_at cs c) -> redirect_answer f J uri r -> (forall q, q ∈ J -> lq_name q <> uri) -> r = (NGX_DONE, x) -> location_rule regex_exec cs cl p uri r.
Proof.
  intros Hf (q & y & l & Hq' & En & Hr & El & ->) Hnone _.
  assert (Hl : static_location cs cl l /\ name_of cs l = uri ++ [y]).
  { rewrite <- En. unfold lq_conf in El. destruct (lq_exact q) as [z|] eqn:Ex; [injection El as ->; by destruct (joined_exact q l Hq' Ex) as (? & _ & ?)|by destruct (joined_inclusive q l Hq' El) as (? & _ & ?)]. }
  assert (Hd : exists d, static_location cs cl d /\ name_of cs d = uri ++ [y] /\ (conf_at cs d).(l_auto_redirect) = true).
  { rewrite <- En. apply orb_true_iff in Hr. unfold redirects in Hr. destruct Hr as [Hr|Hr]; [destruct (lq_exact q) as [d|] eqn:E|destruct (lq_inclusive q) as [d|] eqn:E]; try done; rewrite Hf in Hr; exists d.
    - by destruct (joined_exact q d Hq' E) as (? & _ & ?).
    - by destruct (joined_inclusive q d Hq' E) as (? & _ & ?). }
  destruct Hl as [L1 L2], Hd as (d & D1 & D2 & D3). apply (rule_redirect _ _ _ _ _ l d y); try done.
  intros e Hse Hu. destruct (static_joined e Hse) as (q' & H1 & H2). apply (Hnone q' H1). congruence.
Qed.

(** A name that is the URI or a beginning of it, with no longer one. *)
Lemma joined_prefix q c r : q ∈ J -> lq_inclusive q = Some c -> lq_name q `prefix_of` uri ->
  (forall q', q' ∈ J -> lq_name q' = uri -> lq_exact q' = None) ->
  (forall q', q' ∈ J -> lq_inclusive q' <> None -> lq_name q' `prefix_of` uri -> (length (lq_name q') <= length (lq_name q))%nat) ->
  after_static regex_exec cs cl uri c (conf_at cs c).(l_noregex) r -> location_rule regex_exec cs cl p uri r.
Proof.
  intros Hq' Ei Hp Hno Hmax Ha. destruct (joined_inclusive q c Hq' Ei) as (H1 & H2 & H3). apply (rule_prefix _ _ _ _ _ c); [|done|done|by rewrite H3| |done].
  - intros e Hse Hee Hu. destruct (exact_joined e Hse Hee) as (q' & Q1 & Q2 & Q3). rewrite (Hno q' Q1) in Q2; [done|congruence].
  - intros e Hse Hee Hpe. destruct (inclusive_joined e Hse Hee) as (q' & Q1 & Q2 & Q3). rewrite <- Q3, H3. apply Hmax; [done|by rewrite Q2|by rewrite Q3].
Qed.

Lemma joined_none r : (forall q, q ∈ J -> lq_name q <> uri) -> (forall q, q ∈ J -> lq_inclusive q <> None -> ~ lq_name q `prefix_of` uri) ->
  after_static regex_exec cs cl uri p false r -> location_rule regex_exec cs cl p uri r.
Proof.
  intros Hnone Hno Ha. apply rule_none; [| |done].
  - intros e Hse Hee Hu. destruct (exact_joined e Hse Hee) as (q' & Q1 & _ & Q2). apply (Hnone q' Q1). congruence.
  - intros e Hse Hee Hpe. destruct (inclusive_joined e Hse Hee) as (q' & Q1 & Q2 & Q3). apply (Hno q' Q1); [by rewrite Q2|by rewrite Q3].
Qed.
End joined.

Lemma made_find cs' : made cs' -> exists r, find_location regex_exec cs' uri 2 p = Some r /\ location_rule regex_exec cs cl p uri r.
Proof.
  intros (pl & t & J & E & Hne & Hs & _ & He & Hi & Hfind). pose proof (conf_at_ext _ _ _ _ E Hne) as Hconf. destruct (Hfind uri p) as (r & Er & Ha).
  destruct Ha as [(q & Hq' & En & Ha)|(Hnone & [Hr|[(q & i & Hq' & Ei & Hp & -> & Hmax)|[Hno ->]]])].
  - unfold named_answer in Ha. destruct (lq_exact q) as [c|] eqn:Ex; [|destruct (lq_inclusive q) as [c|] eqn:Ei; [|done]]; subst r.
    + eexists. split; [eapply found_at_once; [done|exact Er|by left]|]. destruct (joined_exact J He q c Hq' Ex) as (H1 & H2 & H3). apply rule_exact; [done|done|congruence].
    + destruct (joined_inclusive J Hi q c Hq' Ei) as ([Hc _] & _). destruct (found_again cs' Hne Hconf _ _ _ E c Er Hc) as (r & F & H). exists r. split; [done|].
      apply (joined_prefix J He Hi q c r); [done|done|by rewrite En| | |done].
      * intros q' Q1 Q2. by rewrite (sorted_unique J q' q Hs Q1 Hq' ltac:(congruence)).
      * intros q' _ _ Hp. rewrite En. by apply prefix_length.
  - pose proof Hr as (q & y & l & _ & _ & _ & _ & Ed). exists r. split; [destruct r; eapply found_at_once; [done|exact Er|right; by injection Ed]|]. by eapply (joined_redirect J He Hi).
  - destruct (joined_inclusive J Hi q i Hq' Ei) as ([Hc _] & _). destruct (found_again cs' Hne Hconf _ _ _ E i Er Hc) as (r & F & H). exists r. split; [done|].
    apply (joined_prefix J He Hi q i r); try done. intros q' Q1 Q2. by apply Hnone in Q2.
  - destruct (found_declined cs' Hne Hconf _ _ _ E p Er) as (r & F & H). exists r. split; [done|]. by apply (joined_none J He Hi).
Qed.
End server.

(** C18: from the directives to the request: when the locations [cl] of a server
    (none inside of another, each name of at most 255 bytes) were added one after
    the other, [ngx_http_init_locations] fails for want of memory only, and
    [ngx_http_init_static_location_trees] for that or for two locations of the same
    name and mode; no null pointer is followed.  What they make then finds a
    location for every URI as the rule says: the exact one; else, where no name is
    the URI, possibly a redirect to a name with one character more; else the
    longest name that the URI begins with, unless the first expression that
    matches, in the order of the configuration, takes the request. *)
Theorem location_found (regex_exec : Z -> list Z -> Z) (cs : confs) (p : Z) (pc : clcf) (cl : list Z) (a0 a0' a : allocs) :
  cs !! p = Some pc -> add_locations cs None cl a0 = (pc.(c_locations), true, a0') -> pc.(c_static) = None -> pc.(c_regex) = [] ->
  Forall (plain_location cs p) cl ->
  match ngx_http_init_locations 2 true p cs a with
  | None => False
  | Some None => ~ no_oom a
  | Some (Some (_, cs1, a1)) =>
      match ngx_http_init_static_location_trees 2 p cs1 a1 with
      | None => False
      | Some None => ~ no_oom a1 \/ ~ NoDup (location_tags cs cl)
      | Some (Some (cs2, _)) =>
          forall uri, exists r, find_location regex_exec cs2 uri 2 p = Some r /\ location_rule regex_exec cs cl p uri r
      end
  end.
Proof.
  intros Hpc Hq Hst Hrx Hcl. apply add_locations_queue in Hq. cbn [from_option app] in Hq.
  destruct pc.(c_locations) as [locs|] eqn:El.
  - destruct (init_locations_flat cs p pc cl Hpc ltac:(by rewrite El) Hst Hcl a ltac:(by rewrite El)) as ([named|] & a1 & _ & E); [|destruct E as [-> E]; exact E].
    rewrite E. destruct (trees_flat cs p pc cl Hpc Hcl a1 _ eq_refl) as ([cs2|] & a2 & _ & E2 & H); rewrite E2; [|exact H].
    intros uri. by apply (made_find cs p pc cl Hpc Hcl regex_exec uri).
  - assert (cl = []) as -> by (by destruct cl). remember 1%nat as n. cbn [ngx_http_init_locations]. rewrite Hpc, El. cbn [ngx_http_init_static_location_trees]. rewrite Hpc, El. subst n.
    intros uri. apply (made_find cs p pc [] Hpc Hcl regex_exec uri). apply made_empty; [|done|done]. exists None. rewrite Hpc. destruct pc. cbn in *. by subst.
Qed.

(** Some locations, as the directives give them. *)
Definition sample_exec (rx : Z) (uri : list Z) : Z := if beq (drop (length uri - 4) uri) (lit ".gif") then NGX_OK else NGX_DECLINED.
Definition sample_loc (name : list Z) (ex noregex : bool) (rx : option Z) (redirect : bool) : clcf := Clcf (LocConf name rx false false ex noregex redirect) None None [].
Definition sample_confs : confs :=
  list_to_map [(1, sample_loc (lit "/") false false None false); (2, sample_loc (lit "gif$") false false (Some 7) false);
               (3, sample_loc (lit "/img/") false true None true); (4, sample_loc (lit "/") true false None false); (5, sample_loc (lit "/img/big/") false false None false)].
Definition sample_server (cl : list Z) (cs : confs) : confs :=
  <[0 := Clcf no_conf (fst (fst (add_locations cs None cl []))) None []]> cs.

Definition sample_find (cl : list Z) (cs : confs) (uri : list Z) : option (Z * Z) :=
  match ngx_http_init_locations 2 true 0 (sample_server cl cs) [] with
  | Some (Some (_, cs1, a1)) =>
      match ngx_http_init_static_location_trees 2 0 cs1 a1 with
      | Some (Some (cs2, _)) => find_location sample_exec cs2 uri 2 0
      | _ => None
      end
  | _ => None
  end.

Lemma location_found_witness :
  let cl := [1; 2; 3; 4; 5] in
  let cs := sample_server cl sample_confs in
  (forall uri, exists r, sample_find cl sample_confs uri = Some r /\ location_rule sample_exec cs cl 0 uri r) /\
  sample_find cl sample_confs (lit "/") = Some (NGX_OK, 4) /\ sample_find cl sample_confs (lit "/img") = Some (NGX_DONE, 3) /\
  sample_find cl sample_confs (lit "/img/a.gif") = Some (NGX_DECLINED, 3) /\ sample_find cl sample_confs (lit "/img/big/a.gif") = Some (NGX_OK, 2) /\
  sample_find cl sample_confs (lit "/index") = Some (NGX_DECLINED, 1) /\ sample_find cl sample_confs (lit "*") = Some (NGX_DECLINED, 0).
Proof.
  cbv zeta. split; [|by vm_compute]. intros uri. unfold sample_find. set (cs := sample_server _ _).
  pose proof (location_found sample_exec cs 0 (Clcf no_conf (fst (fst (add_locations sample_confs None [1; 2; 3; 4; 5] []))) None []) [1; 2; 3; 4; 5] [] [] []) as H.
  assert (Hcl : Forall (plain_location cs 0) [1; 2; 3; 4; 5]).
  { repeat (apply Forall_cons; split; [eexists; split; [vm_compute; reflexivity|]; split; [done|]; split; [done|]; split; [done|]; split; [apply Forall_forall; intros x Hx; vm_compute in Hx; set_unfold in Hx; lia|vm_compute; reflexivity]|]). constructor. }
  specialize (H ltac:(vm_compute; reflexivity) ltac:(vm_compute; reflexivity) eq_refl eq_refl Hcl).
  destruct (ngx_http_init_locations 2 true 0 cs []) as [[[[named cs1] a1]|]|] eqn:E; [|exfalso; apply H; constructor|done].
  assert (a1 = []) as -> by (vm_compute in E; injection E as _ _ <-; reflexivity).
  destruct (ngx_http_init_static_location_trees 2 0 cs1 []) as [[[cs2 a2]|]|]; [apply H| |done].
  exfalso. destruct H as [H|H]; apply H; [constructor|]. apply (bool_decide_eq_true_1 _). vm_compute. reflexivity.
Defined.

(** ** What the tree misses *)

(** The queue is sorted as C strings are, so that [-] is before [/]: the redirect
    from a prefix to the name with a slash behind it is found or not as other
    names lie. *)
Lemma redirect_missed :
  let loc name redirect := sample_loc name false false None redirect in
  let cs : confs := list_to_map [(1, loc (lit "/") false); (2, loc (lit "/a-b") false); (3, loc (lit "/a-c") false); (4, loc (lit "/a/") true)] in
  sample_find [1; 4] cs (lit "/a") = Some (NGX_DONE, 4) /\ sample_find [1; 2; 3; 4] cs (lit "/a") = Some (NGX_DECLINED, 1).
Proof. by vm_compute. Qed.

(** The length of a name has eight bits in a node: a name of 257 bytes is taken
    for its first one. *)
Lemma long_name_cut :
  let cs : confs := list_to_map [(1, sample_loc (lit "/" ++ repeat 97 256) false false None false)] in
  sample_find [1] cs (lit "/other") = Some (NGX_DECLINED, 1).
Proof. by vm_compute. Qed.
