(* ===== verification/HttpParse.v ===== *)
(** * Status lines and URIs of other origin ([ngx_http_parse.c])

    [ngx_http_parse_status_line], for the answers of upstream servers,
    [ngx_http_parse_uri], which marks a URI as the request line is marked,
    [ngx_http_parse_unsafe_uri] and [ngx_http_split_args], for URIs that modules
    and upstream servers name. *)

From S2P Require Import Prelude HttpRequest HttpRequestSafe HttpRequestRead HttpUri HttpChunked.

(** ** Status lines *)

Module StatusLine.

Inductive status_state :=
  | sw_start | sw_H | sw_HT | sw_HTT | sw_HTTP | sw_first_major_digit | sw_major_digit
  | sw_first_minor_digit | sw_minor_digit | sw_status | sw_space_after_status | sw_status_text
  | sw_almost_done.

(** [ngx_http_status_t] and the version in the request. *)
Record http_status := HttpStatus {
  st_major : Z;
  st_minor : Z;
  st_http_version : Z;
  st_code : Z;
  st_count : Z;
  st_start : option Z;
  st_end : option Z;
}.

Definition set_major (s : http_status) (v : Z) : http_status :=
  HttpStatus v s.(st_minor) s.(st_http_version) s.(st_code) s.(st_count) s.(st_start) s.(st_end).
Definition set_minor (s : http_status) (v : Z) : http_status :=
  HttpStatus s.(st_major) v s.(st_http_version) s.(st_code) s.(st_count) s.(st_start) s.(st_end).
Definition set_start (s : http_status) (p : Z) : http_status :=
  HttpStatus s.(st_major) s.(st_minor) s.(st_http_version) s.(st_code) s.(st_count) (Some p) s.(st_end).
Definition set_end (s : http_status) (p : Z) : http_status :=
  HttpStatus s.(st_major) s.(st_minor) s.(st_http_version) s.(st_code) s.(st_count) s.(st_start) (Some p).

(** A digit of the code. *)
Definition add_digit (s : http_status) (ch : Z) : http_status :=
  HttpStatus s.(st_major) s.(st_minor) s.(st_http_version) (u64 (s.(st_code) * 10 + ch - 48)) (s.(st_count) + 1)
    s.(st_start) s.(st_end).

Definition expect_char (c : Z) (st : status_state) (ch : Z) (s : http_status) : pstep status_state http_status :=
  if ch =? c then Next st s else Fail NGX_ERROR s.

Definition status_step (p ch : Z) (st : status_state) (s : http_status) : pstep status_state http_status :=
  match st with
  | sw_start => expect_char 72 sw_H ch s
  | sw_H => expect_char 84 sw_HT ch s
  | sw_HT => expect_char 84 sw_HTT ch s
  | sw_HTT => expect_char 80 sw_HTTP ch s
  | sw_HTTP => expect_char SLASH sw_first_major_digit ch s
  | sw_first_major_digit =>
      if (ch <? 49) || (57 <? ch) then Fail NGX_ERROR s else Next sw_major_digit (set_major s (ch - 48))
  | sw_major_digit =>
      if ch =? DOT then Next sw_first_minor_digit s
      else if negb (is_decimal ch) then Fail NGX_ERROR s
      else Next sw_major_digit (set_major s (u16 (s.(st_major) * 10 + ch - 48)))
  | sw_first_minor_digit =>
      if negb (is_decimal ch) then Fail NGX_ERROR s else Next sw_minor_digit (set_minor s (ch - 48))
  | sw_minor_digit =>
      if ch =? SP then Next sw_status s
      else if negb (is_decimal ch) then Fail NGX_ERROR s
      else Next sw_minor_digit (set_minor s (u16 (s.(st_minor) * 10 + ch - 48)))
  | sw_status =>
      if ch =? SP then Next sw_status s
      else if negb (is_decimal ch) then Fail NGX_ERROR s
      else
        let s := add_digit s ch in
        if s.(st_count) =? 3 then Next sw_space_after_status (set_start s (p - 2)) else Next sw_status s
  | sw_space_after_status =>
      if ch =? SP then Next sw_status_text s
      else if ch =? DOT then Next sw_status_text s
      else if ch =? CR then Next sw_almost_done s
      else if ch =? LF then Done s
      else Fail NGX_ERROR s
  | sw_status_text =>
      if ch =? CR then Next sw_almost_done s
      else if ch =? LF then Done s
      else Next sw_status_text s
  | sw_almost_done =>
      let s := set_end s (p - 1) in
      if ch =? LF then Done s else Fail NGX_ERROR s
  end.

Definition status_done (p : Z) (s : http_status) : http_status :=
  let s := match s.(st_end) with None => set_end s p | Some _ => s end in
  HttpStatus s.(st_major) s.(st_minor) (s.(st_major) * 1000 + s.(st_minor)) s.(st_code) s.(st_count) s.(st_start) s.(st_end).

(** The code, the status, and the local variables [state] and [p] where the loop
    is left. *)
Fixpoint status_loop (input : list Z) (p : Z) (st : status_state) (s : http_status)
  : Z * http_status * status_state * Z :=
  match input with
  | [] => (NGX_AGAIN, s, st, p)
  | ch :: input' =>
      match status_step p ch st s with
      | Next st s => status_loop input' (p + 1) st s
      | Done s => (NGX_OK, status_done p s, sw_start, p + 1)
      | Fail code s => (code, s, st, p)
      end
  end.

(** The code, the status, [r->state] and [b->pos], which an error does not store. *)
Definition ngx_http_parse_status_line (input : list Z) (p : Z) (st : status_state) (s : http_status)
  : Z * http_status * status_state * Z :=
  match status_loop input p st s with
  | (code, s, st', p') => if code =? NGX_ERROR then (code, s, st, p) else (code, s, st', p')
  end.

Definition new_status : http_status := HttpStatus 0 0 0 0 0 None None.

End StatusLine.

(** ** The marks of a URI *)

Inductive uri_state := us_start | us_after_slash_in_uri | us_check_uri | us_uri.

(** One turn of the loop of [ngx_http_parse_uri]; [None] for [NGX_ERROR]. *)
Definition parse_uri_step (p ch : Z) (st : uri_state) (r : http_request) : option (uri_state * http_request) :=
  match st with
  | us_start => if ch =? SLASH then Some (us_after_slash_in_uri, r) else None
  | us_after_slash_in_uri =>
      Some (if is_usual ch then (us_check_uri, r)
            else if ch =? SP then (us_check_uri, set_space_in_uri true r)
            else if ch =? DOT then (us_uri, set_complex_uri true r)
            else if ch =? PERCENT then (us_uri, set_quoted_uri true r)
            else if ch =? SLASH then (us_uri, set_complex_uri true r)
            else if ch =? QUESTION then (us_uri, set_args_start (Some (p + 1)) r)
            else if ch =? HASH then (us_uri, set_complex_uri true r)
            else if ch =? PLUS then (us_after_slash_in_uri, set_plus_in_uri true r)
            else (us_check_uri, r))
  | us_check_uri =>
      Some (if is_usual ch then (us_check_uri, r)
            else if ch =? SLASH then (us_after_slash_in_uri, set_uri_ext None r)
            else if ch =? DOT then (us_check_uri, set_uri_ext (Some (p + 1)) r)
            else if ch =? SP then (us_check_uri, set_space_in_uri true r)
            else if ch =? PERCENT then (us_uri, set_quoted_uri true r)
            else if ch =? QUESTION then (us_uri, set_args_start (Some (p + 1)) r)
            else if ch =? HASH then (us_uri, set_complex_uri true r)
            else if ch =? PLUS then (us_check_uri, set_plus_in_uri true r)
            else (us_check_uri, r))
  | us_uri =>
      Some (us_uri, if is_usual ch then r
                    else if ch =? SP then set_space_in_uri true r
                    else if ch =? HASH then set_complex_uri true r
                    else r)
  end.

Fixpoint parse_uri_loop (p : Z) (uri : list Z) (st : uri_state) (r : http_request) : option http_request :=
  match uri with
  | [] => Some r
  | ch :: uri' =>
      match parse_uri_step p ch st r with
      | Some (st, r) => parse_uri_loop (p + 1) uri' st r
      | None => None
      end
  end.

Definition ngx_http_parse_uri (mem : list Z) (r : http_request) : option http_request :=
  match r.(uri_start), r.(uri_end) with
  | Some us, Some ue => parse_uri_loop us (sub mem us ue) us_start r
  | _, _ => Some r
  end.

(** ** URIs that are not trusted *)

(** [after] is the byte behind the URI, which the test for [/../] may read. *)
Fixpoint unsafe_loop (l : list Z) (after : Z) : option (list Z * option (list Z)) :=
  match l with
  | [] => Some ([], None)
  | ch :: l' =>
      let continue := match unsafe_loop l' after with Some (uri, args) => Some (ch :: uri, args) | None => None end in
      if is_usual ch then continue
      else if ch =? QUESTION then Some ([], Some l')
      else if ch =? NUL then None
      else if (ch =? SLASH) && (2 <=? zlen l') &&
              (nth 0 l' after =? DOT) && (nth 1 l' after =? DOT) && (nth 2 l' after =? SLASH)
      then None
      else continue
  end.

(** [ngx_http_parse_unsafe_uri]: the URI and the arguments after a question mark;
    [None] for an unsafe URI. *)
Definition ngx_http_parse_unsafe_uri (uri : list Z) (after : Z) : option (list Z * option (list Z)) :=
  if (zlen uri =? 0) || (nth 0 uri 0 =? QUESTION) then None
  else if (nth 0 uri 0 =? DOT) && (zlen uri =? 3) && (nth 1 uri 0 =? DOT) && (nth 2 uri 0 =? SLASH) then None
  else unsafe_loop uri after.

(** [ngx_http_split_args]. *)
Fixpoint ngx_http_split_args (uri : list Z) : list Z * list Z :=
  match uri with
  | [] => ([], [])
  | ch :: uri' => if ch =? QUESTION then ([], uri') else let (u, a) := ngx_http_split_args uri' in (ch :: u, a)
  end.

(** ** Properties *)

(** The states of the two parsers. *)
Definition same_state (st : rl_state) (us : uri_state) : Prop :=
  match us with
  | us_start => False
  | us_after_slash_in_uri => st = sw_after_slash_in_uri
  | us_check_uri => st = sw_check_uri
  | us_uri => st = sw_uri
  end.

Lemma parse_uri_same mem p ch st us r :
  uri_char ch -> same_state st us ->
  exists st' us' r', rl_step mem p ch st r = Next st' r' /\ parse_uri_step p ch us r = Some (us', r') /\ same_state st' us'.
Proof.
  intros (H1 & H2 & H3 & H4) Hs. destruct us; cbn in Hs; try done; subst st; cbn [rl_step parse_uri_step];
    unfold step_after_slash, step_check_uri, step_uri, uri_ends;
    rewrite (proj2 (Z.eqb_neq ch NUL)), (proj2 (Z.eqb_neq ch LF)), (proj2 (Z.eqb_neq ch CR)), (proj2 (Z.eqb_neq ch SP)) by done;
    repeat case_match; try discriminate; do 3 eexists; done.
Qed.

Lemma parse_uri_runs mem path : forall p st us r,
  Forall uri_char path -> same_state st us ->
  exists st' r', rl_loop mem path p st r = RlResult NGX_AGAIN r' st' (p + zlen path) /\ parse_uri_loop p path us r = Some r'.
Proof.
  induction path as [|ch path IH]; intros p st us r Hp Hs; cbn [rl_loop parse_uri_loop].
  { exists st, r. change (zlen (@nil Z)) with 0. by rewrite Z.add_0_r. }
  apply Forall_cons in Hp as [Hch Hp]. destruct (parse_uri_same mem p ch st us r Hch Hs) as (st' & us' & r' & -> & -> & Hs').
  destruct (IH (p + 1) st' us' r' Hp Hs') as (st2 & r2 & -> & ->). exists st2, r2. split; [|done].
  rewrite zlen_cons. f_equal. lia.
Qed.

(** A URI is marked alike wherever it comes from. For a URI that begins with
    a slash and has no space, line end or NUL, [ngx_http_parse_uri], which is
    used for URIs from other protocols, leaves the request exactly as the parser
    of request lines has it after reading the same characters: the same marks,
    extension and arguments. *)
Theorem parse_uri_agrees mem p path r :
  Forall uri_char path ->
  exists st' r', rl_loop mem (SLASH :: path) p sw_spaces_before_uri r = RlResult NGX_AGAIN r' st' (p + zlen (SLASH :: path)) /\
    parse_uri_loop p (SLASH :: path) us_start (set_uri_start (Some p) r) = Some r'.
Proof.
  intros Hp. cbn [rl_loop rl_step parse_uri_loop parse_uri_step Z.eqb Pos.eqb].
  destruct (parse_uri_runs mem path (p + 1) sw_after_slash_in_uri us_after_slash_in_uri (set_uri_start (Some p) r) Hp) as (st & r' & E1 & E2);
    [done|]. exists st, r'. split; [|done]. rewrite E1, zlen_cons. f_equal. lia.
Qed.

Lemma parse_uri_agrees_witness :
  exists st' r', rl_loop [] (lit "/a.b/../c?d#e") 4 sw_spaces_before_uri new_request_line = RlResult NGX_AGAIN r' st' 17 /\
    parse_uri_loop 4 (lit "/a.b/../c?d#e") us_start (set_uri_start (Some 4) new_request_line) = Some r' /\ r'.(complex_uri) = true.
Proof.
  destruct (parse_uri_agrees [] 4 (lit "a.b/../c?d#e") new_request_line) as (st & r & E1 & E2).
  - rewrite !Forall_cons. unfold uri_char. split_and!; done.
  - exists st, r. split; [exact E1|]. split; [exact E2|]. vm_compute in E2. by injection E2 as <-.
Defined.

(** *** Untrusted URIs *)

Lemma unsafe_loop_ok l after : forall uri args,
  unsafe_loop l after = Some (uri, args) ->
  l = uri ++ match args with Some a => QUESTION :: a | None => [] end /\
  Forall (fun c => c <> NUL /\ c <> QUESTION) uri.
Proof.
  induction l as [|ch l IH]; intros uri args; cbn [unsafe_loop].
  { by intros [= <- <-]. }
  assert (Hgo : ch <> NUL -> ch <> QUESTION ->
    match unsafe_loop l after with Some (uri, args) => Some (ch :: uri, args) | None => None end = Some (uri, args) ->
    ch :: l = uri ++ match args with Some a => QUESTION :: a | None => [] end /\ Forall (fun c => c <> NUL /\ c <> QUESTION) uri).
  { intros H1 H2. destruct (unsafe_loop l after) as [[u a]|]; [|done]. intros [= <- <-].
    destruct (IH u a eq_refl) as [-> H]. split; [done|]. by constructor. }
  destruct (is_usual ch) eqn:Eu; [apply Hgo; intros ->; done|].
  destruct (Z.eqb_spec ch QUESTION) as [->|Hq]; [intros [= <- <-]; done|].
  destruct (Z.eqb_spec ch NUL) as [->|Hn]; [done|]. destruct (_ && _ && _ && _ && _); [done|]. by apply Hgo.
Qed.

Lemma unsafe_loop_dots l after : forall uri args,
  unsafe_loop l after = Some (uri, args) -> ~ occurs_in [SLASH; DOT; DOT; SLASH] uri.
Proof.
  induction l as [|ch l IH]; intros uri args; cbn [unsafe_loop].
  { intros [= <- <-] (a & b & E). by destruct a. }
  assert (Hgo : (forall u a, unsafe_loop l after = Some (u, a) -> forall b, ch :: u <> [SLASH; DOT; DOT; SLASH] ++ b) ->
    match unsafe_loop l after with Some (uri, args) => Some (ch :: uri, args) | None => None end = Some (uri, args) ->
    ~ occurs_in [SLASH; DOT; DOT; SLASH] uri).
  { intros H. destruct (unsafe_loop l after) as [[u a]|] eqn:E; [|done]. intros [= <- <-] ([|x a'] & b & Eo).
    - by apply (H u a eq_refl b).
    - injection Eo as _ Eo. apply (IH u a eq_refl). by exists a', b. }
  destruct (is_usual ch) eqn:Eu; [apply Hgo; intros u a _ b [= -> _]; done|].
  destruct (ch =? QUESTION); [intros [= <- <-] (a & b & E); by destruct a|]. destruct (ch =? NUL); [done|].
  destruct (_ && _ && _ && _ && _) eqn:Ed; [done|]. apply Hgo. intros u a Hl b [= -> ->].
  destruct (unsafe_loop_ok _ _ _ _ Hl) as [-> _]. cbn in Ed. rewrite !zlen_cons in Ed.
  rewrite (proj2 (Z.leb_le _ _)) in Ed; [done|]. pose proof (zlen_nonneg (b ++ match a with Some a0 => QUESTION :: a0 | None => [] end)). lia.
Qed.

(** A URI that was not found unsafe leads nowhere else by dots between
    slashes. The URI is cut at its first question mark, exactly; the part before
    it is not empty, holds no NUL, and nowhere in it is there a segment [..]
    between two slashes. *)
Theorem unsafe_uri_checked uri after path args :
  ngx_http_parse_unsafe_uri uri after = Some (path, args) ->
  uri = path ++ match args with Some a => QUESTION :: a | None => [] end /\ path <> [] /\
  Forall (fun c => c <> NUL /\ c <> QUESTION) path /\ ~ occurs_in [SLASH; DOT; DOT; SLASH] path.
Proof.
  unfold ngx_http_parse_unsafe_uri. destruct uri as [|ch uri]; [done|]. cbn [nth].
  destruct (Z.eqb_spec ch QUESTION) as [->|Hq]; [by rewrite orb_true_r|]. rewrite orb_false_r.
  destruct (_ =? 0); [done|]. destruct (_ && _ && _ && _); [done|]. intros H.
  destruct (unsafe_loop_ok _ _ _ _ H) as [E Hf]. split; [done|]. split; [|split; [done|by apply (unsafe_loop_dots _ _ _ _ H)]].
  intros ->. destruct args; [|done]. by injection E.
Qed.

Lemma unsafe_uri_checked_witness :
  ngx_http_parse_unsafe_uri (lit "/a/..b/c?/../x") 0 = Some (lit "/a/..b/c", Some (lit "/../x")) /\
  ~ occurs_in [SLASH; DOT; DOT; SLASH] (lit "/a/..b/c").
Proof.
  split; [vm_compute; reflexivity|].
  apply (unsafe_uri_checked (lit "/a/..b/c?/../x") 0 (lit "/a/..b/c") (Some (lit "/../x"))). vm_compute. reflexivity.
Defined.

(** Dots at the beginning are looked for only in a URI of three characters, and at
    the end the byte behind the URI decides. *)
Lemma unsafe_uri_ends :
  ngx_http_parse_unsafe_uri (lit "../") 0 = None /\
  ngx_http_parse_unsafe_uri (lit "../x") 0 = Some (lit "../x", None) /\
  ngx_http_parse_unsafe_uri (lit "/..") SLASH = None /\
  ngx_http_parse_unsafe_uri (lit "/..") 0 = Some (lit "/..", None).
Proof. vm_compute. done. Qed.

(** *** Status lines *)

Module StatusRead.
Import StatusLine.

Definition passes (p : Z) (st : status_state) (s : http_status) (a : list Z) (st' : status_state) (s' : http_status) : Prop :=
  forall b, status_loop (a ++ b) p st s = status_loop b (p + zlen a) st' s'.

Lemma passes_nil p st s : passes p st s [] st s.
Proof. intros b. change (zlen (@nil Z)) with 0. by rewrite Z.add_0_r. Qed.

Lemma passes_cons p ch a st s st1 s1 st2 s2 :
  status_step p ch st s = Next st1 s1 -> passes (p + 1) st1 s1 a st2 s2 -> passes p st s (ch :: a) st2 s2.
Proof.
  intros E H b. cbn [app status_loop]. rewrite E, H, zlen_cons.
  by replace (p + 1 + zlen a) with (p + (1 + zlen a)) by lia.
Qed.

Lemma passes_app p st s a st1 s1 b st2 s2 :
  passes p st s a st1 s1 -> passes (p + zlen a) st1 s1 b st2 s2 -> passes p st s (a ++ b) st2 s2.
Proof.
  intros H1 H2 c. rewrite <- app_assoc, H1, H2, zlen_app. by replace (p + zlen a + zlen b) with (p + (zlen a + zlen b)) by lia.
Qed.

Lemma u16_add v x : u16 (u16 v * 10 + x) = u16 (v * 10 + x).
Proof. unfold u16. by rewrite Z.add_mod, Z.mul_mod_idemp_l, <- Z.add_mod by lia. Qed.

(** The digits of the version after the first. *)
Lemma passes_major l : forall p s v, digits l ->
  passes p sw_major_digit (set_major s (u16 v)) l sw_major_digit (set_major s (u16 (fold_left (fun a c => a * 10 + c - 48) l v))).
Proof.
  induction l as [|c l IH]; intros p s v Hl; [apply passes_nil|]. apply Forall_cons in Hl as [Hc Hl].
  destruct (is_decimal_digit c Hc) as (E1 & E2 & _). eapply passes_cons; [cbn; rewrite E1, E2; reflexivity|]. cbn [fold_left].
  change (set_major (set_major s (u16 v)) ?x) with (set_major s x).
  replace (u16 v * 10 + c - 48) with (u16 v * 10 + (c - 48)) by lia. rewrite u16_add.
  replace (v * 10 + (c - 48)) with (v * 10 + c - 48) by lia. by apply IH.
Qed.

Lemma passes_minor l : forall p s v, digits l ->
  passes p sw_minor_digit (set_minor s (u16 v)) l sw_minor_digit (set_minor s (u16 (fold_left (fun a c => a * 10 + c - 48) l v))).
Proof.
  induction l as [|c l IH]; intros p s v Hl; [apply passes_nil|]. apply Forall_cons in Hl as [Hc Hl].
  destruct (is_decimal_digit c Hc) as (E1 & _). eapply passes_cons.
  - cbn. rewrite E1, (proj2 (Z.eqb_neq c SP)) by lia. reflexivity.
  - cbn [fold_left]. change (set_minor (set_minor s (u16 v)) ?x) with (set_minor s x).
    replace (u16 v * 10 + c - 48) with (u16 v * 10 + (c - 48)) by lia. rewrite u16_add.
    replace (v * 10 + (c - 48)) with (v * 10 + c - 48) by lia. by apply IH.
Qed.

Lemma passes_text l : forall p s, no_eol l -> passes p sw_status_text s l sw_status_text s.
Proof.
  induction l as [|c l IH]; intros p s Hl; [apply passes_nil|]. apply Forall_cons in Hl as [[H1 H2] Hl].
  eapply passes_cons; [cbn; rewrite (proj2 (Z.eqb_neq c CR)), (proj2 (Z.eqb_neq c LF)) by done; reflexivity|]. by apply IH.
Qed.

(** Nothing, or a space or dot and any text. *)
Definition reason (l : list Z) : Prop :=
  match l with [] => True | c :: l => (c = SP \/ c = DOT) /\ no_eol l end.

Definition status_text (d : Z) (major : list Z) (e : Z) (minor : list Z) (c1 c2 c3 : Z) (text : list Z) (crlf : bool) : list Z :=
  lit "HTTP/" ++ (d :: major) ++ [DOT] ++ (e :: minor) ++ [SP; c1; c2; c3] ++ text ++ eol crlf.

(** The end of the line. *)
Lemma status_ends st s p crlf post :
  st = sw_space_after_status \/ st = sw_status_text -> s.(st_end) = None ->
  status_loop (eol crlf ++ post) p st s = (NGX_OK, status_done p s, sw_start, p + zlen (eol crlf)).
Proof.
  intros Hst He. destruct crlf; cbn [eol app].
  - change (zlen [CR; LF]) with 2. destruct Hst as [->| ->]; cbn; unfold status_done; rewrite He; cbn;
      (replace (p + 1 - 1) with p by lia); by replace (p + 1 + 1) with (p + 2) by lia.
  - change (zlen [LF]) with 1. destruct Hst as [->| ->]; reflexivity.
Qed.

Lemma passes_code p s c1 c2 c3 :
  48 <= c1 <= 57 -> 48 <= c2 <= 57 -> 48 <= c3 <= 57 -> s.(st_code) = 0 -> s.(st_count) = 0 ->
  passes p sw_minor_digit s [SP; c1; c2; c3] sw_space_after_status
    (HttpStatus s.(st_major) s.(st_minor) s.(st_http_version) (value [c1; c2; c3]) 3 (Some (p + 1)) s.(st_end)).
Proof.
  intros H1 H2 H3 E1 E2.
  destruct (is_decimal_digit c1 H1) as (D1 & _), (is_decimal_digit c2 H2) as (D2 & _), (is_decimal_digit c3 H3) as (D3 & _).
  pose (s1 := add_digit s c1). pose (s2 := add_digit s1 c2). pose (s3 := add_digit s2 c3).
  assert (Es : set_start s3 (p + 1 + 1 + 1 - 2) =
    HttpStatus s.(st_major) s.(st_minor) s.(st_http_version) (value [c1; c2; c3]) 3 (Some (p + 1)) s.(st_end)).
  { unfold s3, s2, s1, add_digit, set_start, value. cbn [st_code st_count st_major st_minor st_http_version st_end fold_left].
    rewrite E1, E2. rewrite (u64_small (0 * 10 + c1 - 48)) by lia. rewrite (u64_small ((0 * 10 + c1 - 48) * 10 + c2 - 48)) by lia.
    rewrite u64_small by lia. f_equal. f_equal. lia. }
  rewrite <- Es. apply (passes_cons _ _ _ _ _ sw_status s); [reflexivity|].
  apply (passes_cons _ _ _ _ _ sw_status s1); [cbn; rewrite D1, E2, (proj2 (Z.eqb_neq c1 SP)) by lia; reflexivity|].
  apply (passes_cons _ _ _ _ _ sw_status s2); [cbn; rewrite D2, E2, (proj2 (Z.eqb_neq c2 SP)) by lia; reflexivity|].
  apply (passes_cons _ _ _ _ _ sw_space_after_status (set_start s3 (p + 1 + 1 + 1 - 2))); [|apply passes_nil].
  cbn. rewrite D3, E2, (proj2 (Z.eqb_neq c3 SP)) by lia. reflexivity.
Qed.

Lemma passes_start p s d :
  49 <= d <= 57 -> passes p sw_start s (lit "HTTP/" ++ [d]) sw_major_digit (set_major s (u16 (d - 48))).
Proof.
  intros Hd. do 5 (eapply passes_cons; [reflexivity|]). eapply passes_cons; [|apply passes_nil].
  cbn. rewrite (proj2 (Z.ltb_ge d 49)), (proj2 (Z.ltb_ge 57 d)) by lia. cbn. unfold u16. by rewrite Z.mod_small by lia.
Qed.

(** A status line is read as it was written: the code is the number its three
    digits stand for, the range that is kept is the code with the text after it,
    the version is kept as that of a request line is, modulo 2^16, and the line
    is taken up to and with its end. *)
Theorem status_line_reads d major e minor c1 c2 c3 text crlf post p :
  49 <= d <= 57 -> digits major -> 48 <= e <= 57 -> digits minor ->
  48 <= c1 <= 57 -> 48 <= c2 <= 57 -> 48 <= c3 <= 57 -> reason text ->
  let line := status_text d major e minor c1 c2 c3 text crlf in
  let start := p + 9 + zlen major + zlen minor in
  ngx_http_parse_status_line (line ++ post) p sw_start new_status =
    (NGX_OK,
     HttpStatus (u16 (value (d :: major))) (u16 (value (e :: minor)))
       (u16 (value (d :: major)) * 1000 + u16 (value (e :: minor))) (value [c1; c2; c3]) 3
       (Some start) (Some (start + 3 + zlen text)),
     sw_start, p + zlen line).
Proof.
  intros Hd Hmaj He Hmin H1 H2 H3 Ht line start. subst line. unfold status_text.
  set (s1 := set_minor (set_major new_status (u16 (value (d :: major)))) (u16 (value (e :: minor)))).
  assert (R1 : passes p sw_start new_status (lit "HTTP/" ++ (d :: major) ++ [DOT] ++ e :: minor) sw_minor_digit s1).
  { change (lit "HTTP/" ++ (d :: major) ++ [DOT] ++ e :: minor) with ((lit "HTTP/" ++ [d]) ++ major ++ [DOT] ++ e :: minor).
    eapply passes_app; [by apply passes_start|]. eapply passes_app; [by apply passes_major|].
    eapply passes_app; [eapply passes_cons; [reflexivity|apply passes_nil]|].
    eapply passes_cons; [cbn; rewrite (proj1 (is_decimal_digit e He)); reflexivity|].
    replace (e - 48) with (u16 (e - 48)) by (unfold u16; rewrite Z.mod_small; lia).
    apply (passes_minor minor _ (set_major new_status _)). done. }
  assert (R2 := passes_app _ _ _ _ _ _ [SP; c1; c2; c3] _ _ R1 (passes_code _ s1 c1 c2 c3 H1 H2 H3 eq_refl eq_refl)).
  set (s2 := HttpStatus _ _ _ _ _ _ _) in R2.
  assert (E : (lit "HTTP/" ++ (d :: major) ++ [DOT] ++ (e :: minor) ++ [SP; c1; c2; c3] ++ text ++ eol crlf) ++ post =
    ((lit "HTTP/" ++ (d :: major) ++ [DOT] ++ e :: minor) ++ [SP; c1; c2; c3]) ++ text ++ eol crlf ++ post) by (by rewrite <- !app_assoc).
  unfold ngx_http_parse_status_line. rewrite E, R2. set (q := p + zlen _).
  assert (Eq : q = start + 3) by (unfold q, start; autorewrite with ngx; change (zlen (lit "HTTP/")) with 5; lia).
  assert (R3 : status_loop (text ++ eol crlf ++ post) q sw_space_after_status s2 =
    (NGX_OK, status_done (q + zlen text) s2, sw_start, q + zlen text + zlen (eol crlf))).
  { destruct text as [|c text]; [change (zlen (@nil Z)) with 0; rewrite Z.add_0_r; by apply status_ends; [left|]|].
    destruct Ht as [Hc Ht]. assert (R : passes q sw_space_after_status s2 (c :: text) sw_status_text s2).
    { eapply passes_cons; [|by apply passes_text]. by destruct Hc as [->| ->]. }
    rewrite R. by apply status_ends; [right|]. }
  rewrite R3. unfold status_done, s2, s1. cbn. f_equal; [f_equal; f_equal|].
  - f_equal; unfold start in *; [|rewrite Eq]; f_equal; try lia. autorewrite with ngx. change (zlen (lit "HTTP/")) with 5. lia.
  - unfold q. autorewrite with ngx. lia.
Qed.

Lemma status_line_reads_witness :
  ngx_http_parse_status_line (status_text 49 [] 49 [] 52 48 51 (lit ".1 Forbidden") true ++ lit "Host") 0 sw_start new_status =
    (NGX_OK, HttpStatus 1 1 1001 403 3 (Some 9) (Some 24), sw_start, 26).
Proof.
  apply (status_line_reads 49 [] 49 [] 52 48 51 (lit ".1 Forbidden") true (lit "Host") 0);
    try lia; try apply Forall_nil_2. split; [by right|]. repeat (apply Forall_cons; split; [done|]). apply Forall_nil_2.
Defined.
End StatusRead.
