(* ===== verification/HttpArgs.v ===== *)
(** * Arguments and cookies of a request ([ngx_http_parse.c])

    [ngx_http_arg] finds an argument in the query string,
    [ngx_http_parse_multi_header_lines] a word or a parameter in headers that may
    come several times; the variables [arg_] and [cookie_] of
    [ngx_http_variables.c] are made of them. *)

From S2P Require Import Prelude NgxCompare.

(** ** Arguments *)

(** The first place of a character ([ngx_string.h]). *)
Fixpoint ngx_strlchr (p : list Z) (c : Z) : option nat :=
  match p with
  | [] => None
  | x :: p => if x =? c then Some O else S <$> ngx_strlchr p c
  end.

Section arg.
Context (args name : list Z).

(** [ngx_strncasecmp] of the string at [p] and the name at [i]; [None] when it
    reads outside one of them. *)
Fixpoint strncasecmp_at (p i n : nat) : option Z :=
  match n with
  | O => Some 0
  | S n =>
      c1 ← args !! p;
      c2 ← name !! i;
      let c1 := ngx_tolower c1 in
      let c2 := ngx_tolower c2 in
      if c1 =? c2 then
        if c1 =? 0 then Some 0 else strncasecmp_at (S p) (S i) n
      else Some (c1 - c2)
  end.

(** The loop of [ngx_strlcasestrn] at [s1], to [last]: where the name is. *)
Fixpoint strlcasestrn_at (fuel s1 : nat) (last c2 : Z) (n : nat) : option (option nat) :=
  match fuel with
  | O => None
  | S fuel =>
      if last <=? Z.of_nat s1 then Some None
      else
        c1 ← args !! s1;
        if ngx_tolower c1 =? c2 then
          d ← strncasecmp_at (S s1) 1 n;
          if d =? 0 then Some (Some s1) else strlcasestrn_at fuel (S s1) last c2 n
        else strlcasestrn_at fuel (S s1) last c2 n
  end.

(** [ngx_strlcasestrn(p, last, name, n)]. *)
Definition search_arg (p : nat) (last : Z) (n : nat) : option (option nat) :=
  c2 ← name !! O;
  strlcasestrn_at (S (length args)) p (last - Z.of_nat n) (ngx_tolower c2) n.

(** The loop of [ngx_http_arg] at [p]: the place and length of the value; [None]
    inside is [NGX_DECLINED], [None] a read outside the string.  Every turn moves
    [p] on. *)
Fixpoint arg_loop (fuel p : nat) : option (option (nat * Z)) :=
  match fuel with
  | O => None
  | S fuel =>
      if (p <? length args)%nat then
        found ← search_arg p (zlen args - 1) (length name - 1);
        match found with
        | None => Some None
        | Some p =>
            start ← (if (p =? 0)%nat then Some true else c ← args !! (p - 1)%nat; Some (c =? chr "&"));
            here ← (if start : bool then c ← args !! (p + length name)%nat; Some (c =? chr "=") else Some false);
            if here : bool then
              let value := (p + length name + 1)%nat in
              let stop := match ngx_strlchr (drop p args) (chr "&") with Some j => (p + j)%nat | None => length args end in
              Some (Some (value, u64 (Z.of_nat stop - Z.of_nat value)))
            else arg_loop fuel (S p)
        end
      else Some None
  end.

(** The first character of an empty name is not there to be read. *)
Definition ngx_http_arg : option (option (nat * Z)) :=
  match args with
  | [] => Some None
  | _ => arg_loop (S (length args)) 0
  end.
End arg.

(** [len] bytes of the string at [p], if they are there. *)
Definition bytes_at (args : list Z) (p : nat) (len : Z) : option (list Z) :=
  if (p + Z.to_nat len <=? length args)%nat then Some (take (Z.to_nat len) (drop p args)) else None.

(** [ngx_http_variable_argument]: the value, or not found; [None] when the search
    reads outside the string, or the value is not in it. *)
Definition ngx_http_variable_argument (variable args : list Z) : option (option (list Z)) :=
  match ngx_http_arg args (drop 4 variable) with
  | None => None
  | Some None => Some None
  | Some (Some (p, len)) => Some <$> bytes_at args p len
  end.

(** ** Parameters of headers *)

Fixpoint skip_blanks (l : list Z) : list Z :=
  match l with
  | c :: l' => if c =? 32 then skip_blanks l' else l
  | [] => []
  end.

(** Behind the next [;] or [,]. *)
Fixpoint skip_param (l : list Z) : list Z :=
  match l with
  | [] => []
  | ch :: l => if (ch =? chr ";") || (ch =? chr ",") then l else skip_param l
  end.

Fixpoint before_semicolon (l : list Z) : list Z :=
  match l with
  | c :: l => if c =? chr ";" then [] else c :: before_semicolon l
  | [] => []
  end.

(** The loop of [ngx_http_parse_multi_header_lines] over one value, of which [l]
    is left: the value of a parameter ([want]), or the empty one for a word that
    is there.  Behind a value is a zero byte, which no name has. *)
Fixpoint param_loop (fuel : nat) (name : list Z) (want : bool) (l : list Z) : option (option (list Z)) :=
  match fuel with
  | O => None
  | S fuel =>
      match l with
      | [] => Some None
      | _ =>
          let skip l := param_loop fuel name want (skip_blanks (skip_param l)) in
          if negb (ngx_strncasecmp l name (length name) =? 0) then skip l
          else
            match skip_blanks (drop (length name) l), want with
            | [], false => Some (Some [])
            | c :: l, false => if c =? chr "," then Some (Some []) else skip (c :: l)
            | [], true => skip []
            | c :: l, true => if negb (c =? chr "=") then skip l else Some (Some (before_semicolon (skip_blanks l)))
            end
      end
  end.

Fixpoint lines_loop (i : Z) (headers : list (list Z)) (name : list Z) (want : bool) : option (option (Z * list Z)) :=
  match headers with
  | [] => Some None
  | h :: headers =>
      if (length h <? length name)%nat then lines_loop (i + 1) headers name want
      else
        match param_loop (S (length h)) name want h with
        | None => None
        | Some (Some v) => Some (Some (i, v))
        | Some None => lines_loop (i + 1) headers name want
        end
  end.

(** The index of the header and the value; [None] inside is [NGX_DECLINED]. *)
Definition ngx_http_parse_multi_header_lines (headers : list (list Z)) (name : list Z) (want : bool) : option (option (Z * list Z)) :=
  lines_loop 0 headers name want.

(** [ngx_http_variable_cookie]. *)
Definition ngx_http_variable_cookie (variable : list Z) (cookies : list (list Z)) : option (option (list Z)) :=
  match ngx_http_parse_multi_header_lines cookies (drop 7 variable) true with
  | None => None
  | Some None => Some None
  | Some (Some (_, v)) => Some (Some v)
  end.

(** ** The search for an argument *)

(** A name, whatever its case. *)
Definition same_text (a b : list Z) : Prop := map ngx_tolower a = map ngx_tolower b.

Definition same_textb (a b : list Z) : bool := bool_decide (map ngx_tolower a = map ngx_tolower b).

(** The query string, cut at [&]. *)
Fixpoint fields (l : list Z) : list (list Z) :=
  match l with
  | [] => [[]]
  | c :: l => if c =? chr "&" then [] :: fields l else match fields l with f :: fs => (c :: f) :: fs | [] => [[c]] end
  end.

Definition is_arg (name field : list Z) : bool := same_textb (take (length name) field) name && (nth (length name) field 0 =? chr "=").

(** The value of the first field that begins with the name and [=]. *)
Fixpoint first_arg (name : list Z) (fs : list (list Z)) : option (list Z) :=
  match fs with
  | [] => None
  | f :: fs => if is_arg name f then Some (drop (length name + 1) f) else first_arg name fs
  end.

(** Only letters change, to bytes above 64. *)
Lemma tolower_small c d : 0 <= d < 64 -> ngx_tolower c = d -> c = d.
Proof.
  unfold ngx_tolower. destruct (_ && _) eqn:E; [|done]. intros Hd H. exfalso. apply andb_true_iff in E as [E1 E2]. apply Z.leb_le in E1, E2.
  change (chr "A") with 65 in E1. change (chr "Z") with 90 in E2. assert (Ht : Z.testbit d 6 = true).
  - rewrite <- H, Z.lor_spec. apply orb_true_iff. left. apply Z.testbit_true; [done|]. rewrite <- (Z.div_unique c (2 ^ 6) 1 (c - 64)); [done|lia|lia].
  - apply Z.testbit_true in Ht; [|done]. rewrite Z.div_small in Ht by lia. done.
Qed.

Lemma casecmp_prefix s1 s2 : nonzero s1 -> nonzero s2 -> (length s2 <= length s1)%nat -> ngx_strncasecmp s1 s2 (length s2) = 0 <-> same_text (take (length s2) s1) s2.
Proof.
  intros H1 H2 Hl. assert (E : forall n a b, ngx_strncasecmp (take n a) b n = ngx_strncasecmp a b n).
  { induction n as [|n IH]; intros a b; [done|]. destruct a as [|c a]; [done|]. cbn [take ngx_strncasecmp hd tl]. by rewrite IH. }
  rewrite <- E. apply strncasecmp_eq; [by apply Forall_take|done|rewrite length_take; lia|done].
Qed.

(** *** Cutting the query string *)

Lemma fields_split l : exists h rest, l = h ++ rest /\ chr "&" ∉ h /\ (rest = [] /\ fields l = [h] \/ exists r, rest = chr "&" :: r /\ fields l = h :: fields r).
Proof.
  induction l as [|c l (h & rest & -> & Hh & Hr)]; [exists [], []; split; [done|]; split; [by intros H; inversion H|by left]|].
  cbn [fields]. destruct (Z.eqb_spec c (chr "&")) as [->|Hc].
  - exists [], (chr "&" :: h ++ rest). split; [done|]. split; [by intros H; inversion H|]. right. by eexists.
  - exists (c :: h), rest. split; [done|]. split; [rewrite not_elem_of_cons; done|]. destruct Hr as [[-> ->]|(r & -> & ->)]; [by left|right; by eexists].
Qed.

Lemma fields_head d rest : chr "&" ∉ d -> (rest = [] \/ exists r, rest = chr "&" :: r) -> hd [] (fields (d ++ rest)) = d.
Proof.
  intros Hd Hr. induction d as [|c d IH].
  - destruct Hr as [->|(r & ->)]; done.
  - apply not_elem_of_cons in Hd as [H1 H2]. cbn [app fields]. rewrite (proj2 (Z.eqb_neq c _)) by congruence. specialize (IH H2).
    destruct (fields (d ++ rest)) as [|f fs] eqn:E; [|cbn in *; by rewrite IH]. exfalso. destruct (fields_split (d ++ rest)) as (? & ? & _ & _ & [[_ E']|(? & _ & E')]); by rewrite E in E'.
Qed.

Lemma strlchr_split h rest c : c ∉ h -> ngx_strlchr (h ++ rest) c = match rest with x :: _ => if x =? c then Some (length h) else (fun k => (length h + k)%nat) <$> ngx_strlchr rest c | [] => None end.
Proof.
  induction h as [|x h IH]; cbn [app ngx_strlchr length]; intros Hc.
  - destruct rest as [|x rest]; [done|]. cbn [ngx_strlchr]. destruct (x =? c); [done|]. by destruct (ngx_strlchr rest c).
  - apply not_elem_of_cons in Hc as [Hx Hc]. rewrite (proj2 (Z.eqb_neq x c)) by done. rewrite IH by done. destruct rest as [|y rest]; [done|]. destruct (y =? c); [done|]. by destruct (ngx_strlchr (y :: rest) c).
Qed.

Section found.
Context (name : list Z) (Hnz : nonzero name) (Hne : name <> []) (Hamp : chr "&" ∉ name).

Lemma same_no_amp a : same_text a name -> chr "&" ∉ a.
Proof.
  intros E Hin. apply Hamp. apply (list_elem_of_fmap_2 ngx_tolower) in Hin. change (ngx_tolower <$> a) with (map ngx_tolower a) in Hin. rewrite E in Hin.
  apply list_elem_of_fmap in Hin as (c & Hc & Hin). by apply eq_sym, tolower_small in Hc as ->.
Qed.

Lemma is_arg_spec l : is_arg name l = true <-> same_text (take (length name) l) name /\ l !! length name = Some (chr "=").
Proof.
  unfold is_arg, same_textb. rewrite andb_true_iff, bool_decide_eq_true, Z.eqb_eq. unfold same_text. split; intros [H1 H2]; (split; [done|]).
  - destruct (l !! length name) as [c|] eqn:E; [rewrite (nth_lookup_Some _ _ _ _ E) in H2; congruence|]. by rewrite nth_lookup, E in H2.
  - by apply nth_lookup_Some.
Qed.

Lemma is_arg_field h rest : chr "&" ∉ h -> (rest = [] \/ exists r, rest = chr "&" :: r) -> is_arg name (h ++ rest) = is_arg name h.
Proof.
  intros Hh Hr. apply Bool.eq_true_iff_eq. rewrite !is_arg_spec. destruct (decide (length name < length h)%nat) as [Hlt|Hge].
  { rewrite lookup_app_l by done. by rewrite take_app_le by lia. }
  rewrite (lookup_ge_None_2 h) by lia. split; [|by intros [_ ?]]. intros [Hs Hl]. exfalso. destruct Hr as [->|(r & ->)].
  - rewrite app_nil_r in Hl. apply lookup_lt_Some in Hl. lia.
  - destruct (decide (length name = length h)) as [E|]; [rewrite E, list_lookup_middle in Hl by done; by vm_compute in Hl|].
    apply same_no_amp in Hs. apply Hs. apply (list_elem_of_lookup_2 _ (length h)). rewrite lookup_take_lt by lia. by apply list_lookup_middle.
Qed.

(** The search at every place, [b] at the start of a field. *)
Fixpoint arg_scan (b : bool) (l : list Z) : option (list Z) :=
  match l with
  | [] => None
  | c :: l' => if b && is_arg name l then Some (hd [] (fields (drop (length name + 1) l))) else arg_scan (c =? chr "&") l'
  end.

Lemma is_arg_nil : is_arg name [] = false.
Proof. apply not_true_is_false. rewrite is_arg_spec. by intros [_ H]. Qed.

Lemma is_arg_amp r : is_arg name (chr "&" :: r) = false.
Proof.
  apply not_true_is_false. rewrite is_arg_spec. intros [H _]. apply same_no_amp in H. apply H. destruct (length name) eqn:E; [by destruct name|]. cbn [take]. by left.
Qed.

Lemma arg_scan_skip h rest : chr "&" ∉ h -> arg_scan false (h ++ rest) = arg_scan false rest.
Proof.
  induction h as [|c h IH]; [done|]. intros H. apply not_elem_of_cons in H as [H1 H2]. cbn [app arg_scan andb]. rewrite (proj2 (Z.eqb_neq c _)) by congruence. by apply IH.
Qed.

Lemma scan_field b h rest : chr "&" ∉ h -> (rest = [] \/ exists r, rest = chr "&" :: r) ->
  arg_scan b (h ++ rest) = if b && is_arg name h then Some (drop (length name + 1) h) else arg_scan false rest.
Proof.
  intros Hh Hr. destruct h as [|c h].
  { rewrite is_arg_nil, andb_false_r. destruct Hr as [->|(r & ->)]; [done|]. cbn [app arg_scan andb]. by rewrite is_arg_amp, andb_false_r. }
  pose proof (is_arg_field (c :: h) rest Hh Hr) as E. cbn [app arg_scan] in *. rewrite E. destruct (b && _) eqn:Eb.
  - apply andb_true_iff in Eb as [_ Eb]. apply is_arg_spec in Eb as [_ Hl]. apply lookup_lt_Some in Hl. rewrite (drop_app_le (c :: h) rest) by (cbn in *; lia).
    assert (Hd : chr "&" ∉ drop (length name + 1) (c :: h)) by (intros Hin; apply Hh; rewrite <- (take_drop (length name + 1)), elem_of_app; by right).
    by rewrite fields_head.
  - apply not_elem_of_cons in Hh as [H1 H2]. rewrite (proj2 (Z.eqb_neq c _)) by congruence. by apply arg_scan_skip.
Qed.

Lemma scan_fields l : arg_scan true l = first_arg name (fields l).
Proof.
  remember (length l) as n eqn:En. revert l En. induction (lt_wf n) as [n _ IH]; intros l ->. destruct (fields_split l) as (h & rest & -> & Hh & Hr).
  rewrite scan_field; [|done|destruct Hr as [[-> _]|(r & -> & _)]; [by left|right; by exists r]].
  destruct Hr as [[-> ->]|(r & -> & ->)]; cbn [first_arg andb]; (destruct (is_arg name h); [done|]); [done|].
  cbn [arg_scan andb]. rewrite Z.eqb_refl. apply (IH (length r)); [|done]. rewrite length_app. cbn. lia.
Qed.

(** *** The loop *)

Context (args : list Z) (Hargs : nonzero args).

(** What [ngx_strlcasestrn] tests at a place. *)
Definition hits (l : list Z) : bool := (ngx_tolower (hd 0 l) =? ngx_tolower (hd 0 name)) && (ngx_strncasecmp (tl l) (tl name) (length name - 1) =? 0).

Lemma strlcasestrn_spec room : forall s1 off,
  match strlcasestrn_loop s1 room (ngx_tolower (hd 0 name)) (tl name) (length name - 1) off with
  | Some r => exists k, r = (off + k)%nat /\ (k < room)%nat /\ hits (drop k s1) = true /\ forall j, (j < k)%nat -> hits (drop j s1) = false
  | None => forall j, (j < room)%nat -> hits (drop j s1) = false
  end.
Proof.
  induction room as [|room IH]; intros s1 off; cbn [strlcasestrn_loop]; [lia|]. fold (hits s1). destruct (hits s1) eqn:E.
  - exists 0%nat. split; [lia|]. split; [lia|]. split; [done|]. lia.
  - assert (Hd : forall j, drop j (tl s1) = drop (S j) s1) by (intros j; destruct s1; [cbn; by rewrite drop_nil|done]).
    specialize (IH (tl s1) (S off)). destruct (strlcasestrn_loop _ _ _ _ _ _) as [r|].
    + destruct IH as (k & -> & Hk & Hh & Hj). exists (S k). rewrite Hd in Hh. split; [lia|]. split; [lia|]. split; [done|]. intros [|j] H; [done|]. rewrite <- Hd. apply Hj. lia.
    + intros [|j] H; [done|]. rewrite <- Hd. apply IH. lia.
Qed.

Lemma hits_spec l : nonzero l -> (length name <= length l)%nat -> hits l = true <-> same_text (take (length name) l) name.
Proof.
  intros Hl Hlen. rewrite <- casecmp_prefix by done. unfold hits. destruct name as [|c n]; [done|]. destruct l as [|d l]; [cbn in Hlen; lia|].
  cbn [length hd tl ngx_strncasecmp]. rewrite Nat.sub_succ, Nat.sub_0_r. inversion_clear Hl as [|? ? Hd _]. pose proof (ngx_tolower_nonzero d Hd).
  destruct (Z.eqb_spec (ngx_tolower d) (ngx_tolower c)) as [E|E]; cbn [andb].
  - rewrite (proj2 (Z.eqb_neq (ngx_tolower d) 0)) by done. by rewrite Z.eqb_eq.
  - split; [done|lia].
Qed.

Lemma nonzero_drop n (l : list Z) : nonzero l -> nonzero (drop n l).
Proof. apply Forall_drop. Qed.

Lemma is_arg_room p : is_arg name (drop p args) = true -> (p + length name < length args)%nat.
Proof. rewrite is_arg_spec. intros [_ H]. apply lookup_lt_Some in H. rewrite length_drop in H. lia. Qed.

(** Inside the strings the comparison is the one on lists. *)
Lemma strncasecmp_at_in n : forall p i, (p + n <= length args)%nat -> (i + n <= length name)%nat ->
  strncasecmp_at args name p i n = Some (ngx_strncasecmp (drop p args) (drop i name) n).
Proof.
  induction n as [|n IH]; intros p i Hp Hi; [done|]. cbn [strncasecmp_at ngx_strncasecmp].
  destruct (lookup_lt_is_Some_2 args p ltac:(lia)) as [c1 E1], (lookup_lt_is_Some_2 name i ltac:(lia)) as [c2 E2].
  rewrite E1, E2, (drop_S _ _ _ E1), (drop_S _ _ _ E2). cbn [mbind option_bind hd tl].
  destruct (_ =? _); [|done]. destruct (_ =? 0); [done|]. apply IH; lia.
Qed.

(** So is the search, as far as [room] leaves the name in the string. *)
Lemma strlcasestrn_at_in last room : forall fuel s1, (room < fuel)%nat ->
  (Z.of_nat s1 + Z.of_nat room = last \/ room = 0%nat /\ last <= Z.of_nat s1) ->
  (s1 + room + (length name - 1) <= length args \/ room = 0)%nat ->
  strlcasestrn_at args name fuel s1 last (ngx_tolower (hd 0 name)) (length name - 1)
  = Some (strlcasestrn_loop (drop s1 args) room (ngx_tolower (hd 0 name)) (tl name) (length name - 1) s1).
Proof.
  assert (Hn : (1 <= length name)%nat) by (destruct name; [done|cbn; lia]).
  induction room as [|room IH]; intros fuel s1 Hf Hl Hr; (destruct fuel as [|fuel]; [lia|]); cbn [strlcasestrn_at strlcasestrn_loop].
  { by rewrite (proj2 (Z.leb_le last _)) by lia. }
  rewrite (proj2 (Z.leb_gt last _)) by lia. destruct (lookup_lt_is_Some_2 args s1 ltac:(lia)) as [c E].
  rewrite E, (drop_S _ _ _ E). cbn [mbind option_bind hd tl]. rewrite (IH fuel (S s1)) by lia.
  destruct (_ =? ngx_tolower _); [|done]. cbn [andb]. rewrite strncasecmp_at_in by lia. cbn [mbind option_bind].
  replace (tl name) with (drop 1 name) by (by destruct name). by destruct (_ =? 0).
Qed.

(** From [p] the search finds the first place that [hits], up to the last
    character; every argument is one.  It reads inside the string. *)
Lemma search_at p : (p < length args)%nat ->
  match search_arg args name p (zlen args - 1) (length name - 1) with
  | Some (Some q) => exists k, q = (p + k)%nat /\ (p + k + length name < length args)%nat /\
      same_text (take (length name) (drop (p + k) args)) name /\ forall j, (j < k)%nat -> is_arg name (drop (p + j) args) = false
  | Some None => forall j, is_arg name (drop (p + j) args) = false
  | None => False
  end.
Proof.
  intros Hp. assert (Hn : (1 <= length name)%nat) by (destruct name; [done|cbn; lia]). unfold search_arg, zlen.
  assert (E0 : name !! 0%nat = Some (hd 0 name)) by by destruct name. rewrite E0. cbn [mbind option_bind].
  set (room := (length args - 1 - p - (length name - 1))%nat). rewrite (strlcasestrn_at_in _ room) by lia.
  pose proof (strlcasestrn_spec room (drop p args) p) as H.
  assert (Hh : forall j, (j < room)%nat -> hits (drop j (drop p args)) = true <-> same_text (take (length name) (drop (p + j) args)) name).
  { intros j Hj. rewrite hits_spec; [by rewrite drop_drop|by apply nonzero_drop, nonzero_drop|rewrite !length_drop; lia]. }
  assert (Hf : forall j, (hits (drop j (drop p args)) = false \/ (room <= j)%nat) -> is_arg name (drop (p + j) args) = false).
  { intros j Hj. apply not_true_is_false. intros Ha. pose proof (is_arg_room _ Ha). apply is_arg_spec in Ha as [Ha _].
    destruct Hj as [Hj|Hj]; [|lia]. rewrite (proj2 (Hh j ltac:(lia))) in Hj; done. }
  destruct (strlcasestrn_loop _ _ _ _ _ _) as [r|].
  - destruct H as (k & -> & Hk & Hk1 & Hk2). exists k. split; [done|]. split; [lia|]. split; [by apply Hh|]. intros j Hj. apply Hf. left. by apply Hk2.
  - intros j. apply Hf. destruct (decide (j < room)%nat); [left; by apply H|right; lia].
Qed.

Definition at_start (p : nat) : bool := (p =? 0)%nat || (nth (p - 1) args 0 =? chr "&").

Lemma scan_step p : (p < length args)%nat -> at_start p && is_arg name (drop p args) = false -> arg_scan (at_start p) (drop p args) = arg_scan (at_start (S p)) (drop (S p) args).
Proof.
  intros Hp Ha. destruct (drop p args) as [|c l] eqn:E; [apply (f_equal length) in E; rewrite length_drop in E; cbn in E; lia|]. cbn [arg_scan]. rewrite Ha.
  assert (El : drop (S p) args = l) by (rewrite <- Nat.add_1_r, <- drop_drop, E; done). rewrite El. f_equal. unfold at_start. cbn [Nat.eqb orb]. rewrite Nat.sub_succ, Nat.sub_0_r.
  rewrite <- (take_drop p args) at 1. rewrite E, app_nth2 by (rewrite length_take; lia). rewrite length_take, Nat.min_l, Nat.sub_diag by lia. done.
Qed.

Lemma scan_steps k p : (p + k <= length args)%nat -> (forall j, (j < k)%nat -> is_arg name (drop (p + j) args) = false) ->
  arg_scan (at_start p) (drop p args) = arg_scan (at_start (p + k)) (drop (p + k) args).
Proof.
  revert p. induction k as [|k IH]; intros p Hp Hj; [by rewrite Nat.add_0_r|]. rewrite scan_step; [|lia|].
  - rewrite (IH (S p)); [by rewrite Nat.add_succ_comm|lia|]. intros j H. rewrite Nat.add_succ_comm. apply Hj. lia.
  - rewrite <- (Nat.add_0_r p), (Hj 0%nat) by lia. apply andb_false_r.
Qed.

(** The value at [p + length name + 1]. *)
Definition value_of (r : nat * Z) : option (list Z) := bytes_at args r.1 r.2.

Lemma value_at p : is_arg name (drop p args) = true -> zlen args < 2 ^ 64 ->
  let value := (p + length name + 1)%nat in
  let stop := match ngx_strlchr (drop p args) (chr "&") with Some j => (p + j)%nat | None => length args end in
  value_of (value, u64 (Z.of_nat stop - Z.of_nat value)) = Some (hd [] (fields (drop (length name + 1) (drop p args)))).
Proof.
  intros Ha Hmax. cbv zeta. destruct (fields_split (drop p args)) as (h & rest & E & Hh & Hr).
  assert (Hr' : rest = [] \/ exists r, rest = chr "&" :: r) by (destruct Hr as [[? _]|(r & ? & _)]; [by left|right; by exists r]).
  rewrite E in *. rewrite is_arg_field in Ha by done. apply is_arg_spec in Ha as [_ Hl]. apply lookup_lt_Some in Hl.
  assert (Hlen : (length h + length rest = length args - p)%nat) by (rewrite <- length_app, <- E, length_drop; done). unfold zlen in Hmax.
  set (stop := match _ with Some j => _ | None => _ end).
  assert (Hs : stop = (p + length h)%nat). { unfold stop. rewrite strlchr_split by done. destruct Hr' as [->|(r & ->)]; [cbn in Hlen; lia|by rewrite Z.eqb_refl]. }
  rewrite Hs. unfold value_of, bytes_at. cbn [fst snd]. rewrite u64_small by lia. rewrite (proj2 (Nat.leb_le _ _)) by lia. f_equal.
  replace (p + length name + 1)%nat with (p + (length name + 1))%nat by lia. rewrite <- drop_drop, E, !drop_app_le by lia.
  assert (Hd : chr "&" ∉ drop (length name + 1) h) by (intros Hin; apply Hh; rewrite <- (take_drop (length name + 1)), elem_of_app; by right).
  rewrite take_app_le by (rewrite length_drop; lia). rewrite take_ge by (rewrite length_drop; lia).
  by rewrite fields_head.
Qed.

(** What is read in front of the place found and behind the name. *)
Lemma arg_tests q : (q + length name < length args)%nat -> same_text (take (length name) (drop q args)) name ->
  (start ← (if (q =? 0)%nat then Some true else c ← args !! (q - 1)%nat; Some (c =? chr "&"));
   if start : bool then c ← args !! (q + length name)%nat; Some (c =? chr "=") else Some false)
  = Some (at_start q && is_arg name (drop q args)).
Proof.
  intros Hq Ht. destruct (lookup_lt_is_Some_2 args (q + length name) ltac:(lia)) as [d Ed].
  assert (Ea : (d =? chr "=") = is_arg name (drop q args)).
  { unfold is_arg, same_textb. rewrite bool_decide_eq_true_2 by done. by rewrite nth_skipn, (nth_lookup_Some _ _ _ _ Ed). }
  unfold at_start. destruct (Nat.eqb_spec q 0) as [->|Hq0]; cbn [mbind option_bind orb andb].
  { rewrite Ed. cbn [mbind option_bind]. by rewrite Ea. }
  destruct (lookup_lt_is_Some_2 args (q - 1) ltac:(lia)) as [c Ec]. rewrite Ec, (nth_lookup_Some _ _ _ _ Ec), Ed. cbn [mbind option_bind].
  destruct (c =? _); cbn [andb]; [by rewrite Ea|done].
Qed.

Lemma arg_loop_scan fuel : forall p, (length args - p < fuel)%nat -> (p <= length args)%nat -> zlen args < 2 ^ 64 ->
  exists r, arg_loop args name fuel p = Some r /\
    match r with None => Some None | Some r => Some <$> value_of r end = Some (arg_scan (at_start p) (drop p args)).
Proof.
  induction fuel as [|fuel IH]; intros p Hf Hp Hmax; [lia|]. cbn [arg_loop]. destruct (Nat.ltb_spec p (length args)) as [Hlt|Hge].
  2: { exists None. split; [done|]. by rewrite drop_ge by lia. }
  pose proof (search_at p Hlt) as Hs. destruct (search_arg _ _ _ _ _) as [[q|]|]; cbn [mbind option_bind]; [| |done].
  - destruct Hs as (k & -> & Hk & Ht & Hj). rewrite (scan_steps k p) by (done || lia).
    pose proof (arg_tests _ Hk Ht) as E. cbn [mbind option_bind] in E. set (q := (p + k)%nat) in *.
    destruct (if (q =? 0)%nat then _ else _) as [start|]; [|done]. cbn [mbind option_bind] in E |- *. rewrite E.
    destruct (at_start q && is_arg name (drop q args)) eqn:Eb; cbn [mbind option_bind].
    + eexists. split; [done|]. apply andb_true_iff in Eb as [Eb1 Eb2]. rewrite value_at by done.
      pose proof Eb2 as Hl. apply is_arg_room in Hl. destruct (drop q args) as [|c l] eqn:Ed; [by rewrite is_arg_nil in Eb2|]. cbn [arg_scan]. by rewrite Eb1, Eb2.
    + destruct (IH (S q)) as (r & Er & Hr); [lia|lia|done|]. exists r. split; [done|]. rewrite scan_step by (done || lia). done.
  - exists None. split; [done|]. rewrite (scan_steps (length args - p) p) by (lia || done). by rewrite drop_ge by lia.
Qed.
End found.

(** C20: the variable [arg_] is the value of the first field of the query string,
    cut at [&], that begins with its name in any case and [=]; it is not found if
    there is none.  No byte outside the query string or the name is read, and the
    value lies in the string: such a read or value gives [None] in the model. *)
Theorem arg_found (name args : list Z) : name <> [] -> nonzero name -> chr "&" ∉ name -> nonzero args -> zlen args < 2 ^ 64 ->
  ngx_http_variable_argument (lit "arg_" ++ name) args = Some (first_arg name (fields args)).
Proof.
  intros Hne Hnz Hamp Hargs Hmax. unfold ngx_http_variable_argument. change (drop 4 (lit "arg_" ++ name)) with name.
  destruct (arg_loop_scan name Hnz Hne Hamp args Hargs (S (length args)) 0) as (r & E & Hr); [lia|lia|done|]. rewrite <- (scan_fields name Hnz Hne Hamp args). rewrite drop_0 in Hr. cbn [at_start Nat.eqb orb] in Hr. rewrite <- Hr.
  unfold ngx_http_arg. destruct args as [|c l]; [injection E as <-; done|]. rewrite E. by destruct r as [[v len]|].
Qed.

Lemma arg_found_witness :
  ngx_http_variable_argument (lit "arg_" ++ lit "id") (lit "x=1&kid=2&ID=a=b&id=4") = Some (Some (lit "a=b")) /\
  ngx_http_variable_argument (lit "arg_" ++ lit "id") (lit "x=1&kid=2&id") = Some None.
Proof.
  split; rewrite arg_found; try done; try by vm_compute.
  all: try (apply Forall_forall; intros c Hc; vm_compute in Hc; set_unfold in Hc; lia).
  all: intros Hc; vm_compute in Hc; set_unfold in Hc; lia.
Defined.

(** An empty name makes the search read behind it. *)
Lemma empty_name_reads_on : ngx_http_variable_argument (lit "arg_") (lit "a=1") = None.
Proof. done. Qed.

(** ** Cookies *)

Lemma skip_blanks_length l : (length (skip_blanks l) <= length l)%nat.
Proof. induction l as [|c l IH]; cbn; [done|]. destruct (c =? 32); cbn; lia. Qed.

Lemma skip_param_length l : (length (skip_param l) <= length l - 1)%nat.
Proof. induction l as [|c l IH]; cbn; [done|]. destruct (_ || _); cbn; [lia|]. destruct l; cbn in *; lia. Qed.

(** Every turn takes at least a byte. *)
Lemma param_loop_ends name want fuel : forall l, (length l < fuel)%nat -> exists r, param_loop fuel name want l = Some r.
Proof.
  induction fuel as [|fuel IH]; intros l Hl; [lia|]. cbn [param_loop]. destruct l as [|c l]; [by eexists|].
  assert (Hskip : forall l', (length l' <= length (c :: l))%nat -> exists r, param_loop fuel name want (skip_blanks (skip_param l')) = Some r).
  { intros l' H. apply IH. pose proof (skip_blanks_length (skip_param l')). pose proof (skip_param_length l'). cbn in *. lia. }
  destruct (negb _); [by apply Hskip|]. pose proof (skip_blanks_length (drop (length name) (c :: l))) as Hb. rewrite length_drop in Hb.
  destruct (skip_blanks _) as [|d l'], want; [by apply Hskip; cbn; lia|by eexists| |].
  - destruct (negb _); [apply Hskip; cbn in *; lia|by eexists].
  - destruct (d =? chr ","); [by eexists|apply Hskip; cbn in *; lia].
Qed.

(** A parameter with a value, and how it is written. *)
Definition plain_name (n : list Z) : Prop := nonzero n /\ Forall (fun c => c <> 32 /\ c <> chr "=" /\ c <> chr ";" /\ c <> chr ",") n.
Definition plain_value (v : list Z) : Prop := hd 0 v <> 32 /\ Forall (fun c => c <> 0 /\ c <> chr ";" /\ c <> chr ",") v.
Definition pair_bytes (c : list Z * list Z) : list Z := c.1 ++ chr "=" :: c.2.

Fixpoint cookie_bytes (cs : list (list Z * list Z)) : list Z :=
  match cs with
  | [] => []
  | [c] => pair_bytes c
  | c :: cs => pair_bytes c ++ chr ";" :: 32 :: cookie_bytes cs
  end.

Fixpoint first_cookie (name : list Z) (cs : list (list Z * list Z)) : option (list Z) :=
  match cs with
  | [] => None
  | (n, v) :: cs => if same_textb n name then Some v else first_cookie name cs
  end.

Lemma skip_param_app b rest : Forall (fun c => c <> chr ";" /\ c <> chr ",") b -> skip_param (b ++ rest) = skip_param rest.
Proof. induction 1 as [|c b [H1 H2] _ IH]; [done|]. cbn [app skip_param]. by rewrite (proj2 (Z.eqb_neq c _) H1), (proj2 (Z.eqb_neq c _) H2). Qed.

Lemma before_semicolon_app b rest : Forall (fun c => c <> chr ";") b -> (rest = [] \/ exists r, rest = chr ";" :: r) -> before_semicolon (b ++ rest) = b.
Proof.
  intros Hb Hr. induction Hb as [|c b H _ IH]; cbn [app before_semicolon]; [by destruct Hr as [->|(r & ->)]|]. by rewrite (proj2 (Z.eqb_neq c _) H), IH.
Qed.

(** A comparison with a name, before [=]. *)
Lemma casecmp_name n name rest : plain_name n -> plain_name name ->
  ngx_strncasecmp (n ++ chr "=" :: rest) name (length name) = 0 <-> exists m k, n = m ++ k /\ same_text m name.
Proof.
  intros [Hn Hn'] [Hm Hm']. revert n Hn Hn'. induction name as [|d name IH]; intros n Hn Hn'; cbn [length ngx_strncasecmp].
  { split; [intros _; by exists [], n|done]. }
  inversion_clear Hm as [|? ? Hd Hm1]. inversion_clear Hm' as [|? ? Hd' Hm2]. destruct n as [|c n]; cbn [app hd tl].
  - destruct (Z.eqb_spec (ngx_tolower (chr "=")) (ngx_tolower d)) as [E|E].
    + change (ngx_tolower (chr "=")) with (chr "=") in E. apply eq_sym, tolower_small in E; [tauto|done].
    + split; [lia|]. intros (m & k & Hmk & Hs). destruct m; [done|]. done.
  - inversion_clear Hn as [|? ? Hc Hn1]. inversion_clear Hn' as [|? ? Hc' Hn2]. destruct (Z.eqb_spec (ngx_tolower c) (ngx_tolower d)) as [E|E].
    + rewrite (proj2 (Z.eqb_neq (ngx_tolower c) 0)) by by apply ngx_tolower_nonzero. rewrite IH by done. split.
      * intros (m & k & -> & Hs). exists (c :: m), k. split; [done|]. unfold same_text in *. cbn. by rewrite E, Hs.
      * intros (m & k & Hmk & Hs). destruct m as [|c' m]; [done|]. cbn in Hmk. injection Hmk as <- ->. exists m, k. split; [done|]. unfold same_text in *. cbn in Hs. by injection Hs.
    + split; [lia|]. intros (m & k & Hmk & Hs). destruct m as [|c' m]; [done|]. cbn in Hmk. injection Hmk as <- ->. unfold same_text in Hs. cbn in Hs. by injection Hs.
Qed.

Lemma param_step fuel name n v t : plain_name n -> plain_value v -> plain_name name -> (t = [] \/ exists r, t = chr ";" :: r) ->
  param_loop (S fuel) name true (pair_bytes (n, v) ++ t) = if same_textb n name then Some (Some v) else param_loop fuel name true (skip_blanks (skip_param t)).
Proof.
  intros Hn [Hv1 Hv] Hname Ht. unfold pair_bytes. cbn [fst snd]. rewrite <- app_assoc, <- app_comm_cons.
  assert (Hb : forall b, (exists m, n = m ++ b) -> skip_param (b ++ chr "=" :: v ++ t) = skip_param t).
  { intros b [m Em]. change (chr "=" :: v ++ t) with ((chr "=" :: v) ++ t). rewrite app_assoc. apply skip_param_app, Forall_app. split.
    - destruct Hn as [_ Hn]. rewrite Em in Hn. apply Forall_app in Hn as [_ Hn]. eapply Forall_impl; [exact Hn|]. cbn. tauto.
    - constructor; [done|]. eapply Forall_impl; [exact Hv|]. cbn. tauto. }
  cbn [param_loop]. destruct (n ++ chr "=" :: v ++ t) as [|x l] eqn:El; [by destruct n|]. rewrite <- El. clear x l El.
  pose proof (casecmp_name n name (v ++ t) Hn Hname) as Hc. destruct (Z.eqb_spec (ngx_strncasecmp (n ++ chr "=" :: v ++ t) name (length name)) 0) as [E|E]; cbn [negb].
  - apply Hc in E as (m & k & -> & Hs). assert (Hl : length m = length name) by (apply (f_equal length) in Hs; by rewrite !length_map in Hs).
    rewrite <- app_assoc, <- Hl, drop_app_length. destruct k as [|c k]; cbn [app skip_blanks].
    + rewrite app_nil_r. unfold same_textb. rewrite bool_decide_eq_true_2 by done. cbn [Z.eqb Pos.eqb negb].
      assert (Es : skip_blanks (v ++ t) = v ++ t). { destruct v as [|c v]; cbn [app]; [destruct Ht as [->|(r & ->)]; done|]. cbn [skip_blanks]. cbn in Hv1. by rewrite (proj2 (Z.eqb_neq c _) Hv1). }
      rewrite Es, before_semicolon_app; [done| |done]. eapply Forall_impl; [exact Hv|]. cbn. tauto.
    + destruct Hn as [_ Hn]. apply Forall_app in Hn as [_ Hn]. inversion_clear Hn as [|? ? (H1 & H2 & _) _]. rewrite (proj2 (Z.eqb_neq c _) H1), (proj2 (Z.eqb_neq c _) H2). cbn [negb].
      rewrite (Hb k) by (exists (m ++ [c]); by rewrite <- app_assoc). unfold same_textb. rewrite bool_decide_eq_false_2; [done|]. intros Es. apply (f_equal length) in Es. rewrite !length_map, length_app in Es. cbn in Es. lia.
  - rewrite Hb by (by exists []). unfold same_textb. rewrite bool_decide_eq_false_2; [done|]. intros Es. apply E, Hc. exists n, []. by rewrite app_nil_r.
Qed.

Definition plain_cookie (c : list Z * list Z) : Prop := plain_name c.1 /\ plain_value c.2.

Lemma param_loop_cookies name cs : plain_name name -> Forall plain_cookie cs -> forall fuel, (length (cookie_bytes cs) < fuel)%nat ->
  param_loop fuel name true (cookie_bytes cs) = Some (first_cookie name cs).
Proof.
  intros Hname. induction 1 as [|[n v] cs [Hn Hv] Hcs IH]; intros fuel Hf; [destruct fuel; [cbn in Hf; lia|done]|]. cbn [fst snd] in *. destruct fuel as [|fuel]; [lia|]. cbn [first_cookie].
  destruct cs as [|c cs].
  - cbn [cookie_bytes]. rewrite <- (app_nil_r (pair_bytes (n, v))), param_step by (done || by left). destruct (same_textb n name); [done|]. cbn [cookie_bytes] in Hf. unfold pair_bytes in Hf. rewrite length_app in Hf. cbn in Hf.
    destruct fuel; [lia|done].
  - change (cookie_bytes ((n, v) :: c :: cs)) with (pair_bytes (n, v) ++ chr ";" :: 32 :: cookie_bytes (c :: cs)) in *. rewrite param_step; [|done..|by right; eexists]. destruct (same_textb n name); [done|].
    cbn [skip_param Z.eqb Pos.eqb orb].
    assert (Es : skip_blanks (32 :: cookie_bytes (c :: cs)) = cookie_bytes (c :: cs)).
    { cbn [skip_blanks Z.eqb Pos.eqb]. inversion_clear Hcs as [|? ? [[_ Hc] _] _]. assert (H : exists x l, cookie_bytes (c :: cs) = x :: l /\ x <> 32).
      { destruct c as [[|x m] w]; cbn in Hc; [|inversion_clear Hc as [|? ? [H _] _]]; destruct cs; by eexists _, _. }
      destruct H as (x & l & -> & H). cbn [skip_blanks]. by rewrite (proj2 (Z.eqb_neq x _) H). }
    rewrite Es. apply IH. rewrite length_app in Hf. cbn [length] in Hf. lia.
Qed.

Lemma first_cookie_app name a b : first_cookie name (a ++ b) = match first_cookie name a with Some v => Some v | None => first_cookie name b end.
Proof. induction a as [|[n v] a IH]; [done|]. cbn [app first_cookie]. by destruct (same_textb n name). Qed.

Lemma short_header name cs : (length (cookie_bytes cs) < length name)%nat -> first_cookie name cs = None.
Proof.
  induction cs as [|[n v] cs IH]; [done|]. intros H. cbn [first_cookie].
  assert (Hl : (length n <= length (cookie_bytes ((n, v) :: cs)))%nat /\ (length (cookie_bytes cs) <= length (cookie_bytes ((n, v) :: cs)))%nat).
  { destruct cs as [|c cs]; [cbn; unfold pair_bytes; rewrite length_app; cbn; lia|]. change (cookie_bytes ((n, v) :: c :: cs)) with (pair_bytes (n, v) ++ chr ";" :: 32 :: cookie_bytes (c :: cs)).
    unfold pair_bytes. rewrite !length_app. cbn [fst snd length]. lia. }
  unfold same_textb. rewrite bool_decide_eq_false_2; [apply IH; lia|]. intros Es. apply (f_equal length) in Es. rewrite !length_map in Es. lia.
Qed.

(** The variable [cookie_] is the value of the first cookie with its name, in any
    case, in headers of pairs [name=value] with [; ] between. *)
Theorem cookie_found (name : list Z) (headers : list (list (list Z * list Z))) : plain_name name -> Forall (Forall plain_cookie) headers ->
  ngx_http_variable_cookie (lit "cookie_" ++ name) (map cookie_bytes headers) = Some (first_cookie name (concat headers)).
Proof.
  intros Hname Hh. unfold ngx_http_variable_cookie, ngx_http_parse_multi_header_lines. change (drop 7 (lit "cookie_" ++ name)) with name. generalize 0 as i.
  induction Hh as [|cs headers Hcs _ IH]; intros i; [done|]. cbn [map lines_loop concat]. rewrite first_cookie_app. destruct (Nat.ltb_spec (length (cookie_bytes cs)) (length name)) as [Hlt|_].
  - by rewrite short_header, IH.
  - rewrite param_loop_cookies by (done || lia). by destruct (first_cookie name cs).
Qed.

(** A word without [=] takes the separator behind it along, and with it the next
    cookie. *)
Lemma cookie_swallowed :
  ngx_http_variable_cookie (lit "cookie_a") [lit "a; a=1"] = Some None /\ ngx_http_variable_cookie (lit "cookie_a") [lit "b; a=1"] = Some (Some (lit "1")).
Proof. by vm_compute. Qed.
