(* ===== verification/NewLogFormat.v ===== *)
(** * Log formats of the Kafka log module ([ngx_new_log_module.c])

    A format directive is compiled at configuration time into an array of
    operations ([ngx_new_log_compile_format]); at run time every operation
    announces a length and then appends its bytes to the line.  This file has
    the operations, the compiler and the two passes over the array; the
    handler around them is in [NewLogHandler]. *)

From S2P Require Import Prelude NgxNumber NgxSprintf NgxEscape NgxCompare NgxVariables.

(** ** Operations *)

(** The [run] functions of the module. *)
Inductive op_run :=
  | ngx_new_log_copy_short
  | ngx_new_log_copy_long
  | ngx_new_log_pipe
  | ngx_new_log_time
  | ngx_new_log_iso8601
  | ngx_new_log_msec
  | ngx_new_log_request_time
  | ngx_new_log_status
  | ngx_new_log_bytes_sent
  | ngx_new_log_body_bytes_sent
  | ngx_new_log_request_length
  | ngx_new_log_variable.

Inductive op_getlen :=
  | getlen_null
  | ngx_new_log_variable_getlen.

(** [uintptr_t data]: a number (packed text, a variable index) or the address
    of a copied text. *)
Inductive op_data :=
  | DNum (n : Z)
  | DPtr (text : list Z).

(** [ngx_new_log_op_t]. *)
Record new_log_op := NewLogOp {
  op_len : Z;
  op_getlen_ : op_getlen;
  op_run_ : op_run;
  op_data_ : op_data;
}.

(** [ngx_new_log_vars]: the variables with an operation of their own. *)
Definition ngx_new_log_vars : list (list Z * Z * op_run) :=
  [ (lit "pipe", 1, ngx_new_log_pipe);
    (lit "time_local", 26, ngx_new_log_time);
    (lit "time_iso8601", 25, ngx_new_log_iso8601);
    (lit "msec", 20 + 4, ngx_new_log_msec);
    (lit "request_time", 20 + 4, ngx_new_log_request_time);
    (lit "status", 20, ngx_new_log_status);
    (lit "bytes_sent", 20, ngx_new_log_bytes_sent);
    (lit "body_bytes_sent", 20, ngx_new_log_body_bytes_sent);
    (lit "request_length", 20, ngx_new_log_request_length) ].

(** ** The request and the clock, as the operations see them *)

Record log_request := LogRequest {
  pipeline : bool;
  start_sec : Z;
  start_msec : Z;
  err_status : Z;
  out_status : Z;              (* headers_out.status *)
  http_version : Z;
  sent : Z;                    (* connection->sent *)
  header_size : Z;
  request_length : Z;
}.

Record log_clock := LogClock {
  tp_sec : Z;
  tp_msec : Z;
  cached_http_log_time : list Z;
  cached_http_log_iso8601 : list Z;
}.

(** ** Running an operation *)

Definition fmt_bytes (res : fmt_result) : option (list Z) :=
  match res with FmtOk out => Some out | _ => None end.

(** [ngx_new_log_copy_short]: [len] bytes, the low byte of [data] first. *)
Fixpoint copy_short (len : nat) (data : Z) : list Z :=
  match len with
  | O => []
  | S len' => Z.land data 0xff :: copy_short len' (Z.shiftr data 8)
  end.

Definition request_time_ms (r : log_request) (t : log_clock) : Z :=
  Z.max (s64 ((t.(tp_sec) - r.(start_sec)) * 1000 + (t.(tp_msec) - r.(start_msec)))) 0.

Definition log_status (r : log_request) : Z :=
  if negb (r.(err_status) =? 0) then r.(err_status)
  else if negb (r.(out_status) =? 0) then r.(out_status)
  else if r.(http_version) =? 9 then 9
  else 0.

Definition body_bytes (r : log_request) : Z := s64 (r.(sent) - r.(header_size)).

(** The bytes of every operation but [ngx_new_log_variable]. [None] marks what
    the C code does not define: a format error, or [data] of the other kind. *)
Definition run_plain (r : log_request) (t : log_clock) (op : new_log_op)
  : option (list Z) :=
  match op.(op_run_) with
  | ngx_new_log_copy_short =>
      match op.(op_data_) with
      | DNum data => Some (copy_short (Z.to_nat op.(op_len)) data)
      | DPtr _ => None
      end
  | ngx_new_log_copy_long =>
      match op.(op_data_) with
      | DPtr text =>
          if op.(op_len) <=? zlen text
          then Some (take (Z.to_nat op.(op_len)) text) else None
      | DNum _ => None
      end
  | ngx_new_log_pipe => Some [if r.(pipeline) then chr "p" else chr "."]
  | ngx_new_log_time => Some t.(cached_http_log_time)
  | ngx_new_log_iso8601 => Some t.(cached_http_log_iso8601)
  | ngx_new_log_msec =>
      fmt_bytes (ngx_sprintf (lit "%T.%03M") [VInt t.(tp_sec); VInt t.(tp_msec)])
  | ngx_new_log_request_time =>
      let ms := request_time_ms r t in
      fmt_bytes (ngx_sprintf (lit "%T.%03M") [VInt (ms / 1000); VInt (ms mod 1000)])
  | ngx_new_log_status =>
      fmt_bytes (ngx_sprintf (lit "%03ui") [VInt (log_status r)])
  | ngx_new_log_bytes_sent =>
      fmt_bytes (ngx_sprintf (lit "%O") [VInt r.(sent)])
  | ngx_new_log_body_bytes_sent =>
      if 0 <? body_bytes r
      then fmt_bytes (ngx_sprintf (lit "%O") [VInt (body_bytes r)])
      else Some [chr "0"]
  | ngx_new_log_request_length =>
      fmt_bytes (ngx_sprintf (lit "%O") [VInt r.(request_length)])
  | ngx_new_log_variable => None
  end.

Section passes.
Context (get_handler : nat -> variable_value -> Z * variable_value).
Context (vars : list http_variable).

Definition var_index (data : op_data) : nat :=
  match data with DNum n => Z.to_nat n | DPtr _ => 0%nat end.

(** [ngx_new_log_variable_getlen] and [ngx_new_log_variable]; [vs] is the
    request's variable cache, which a read may fill. *)
Definition variable_getlen (data : op_data) (vs : list variable_value)
  : Z * list variable_value :=
  let (value, vs') :=
    ngx_http_get_indexed_variable get_handler vars vs (var_index data) in
  match value with
  | Some v => if v.(vv_not_found) then (1, vs') else (zlen v.(vv_data), vs')
  | None => (1, vs')
  end.

Definition variable_run (data : op_data) (vs : list variable_value)
  : list Z * list variable_value :=
  let (value, vs') :=
    ngx_http_get_indexed_variable get_handler vars vs (var_index data) in
  match value with
  | Some v => if v.(vv_not_found) then ([chr "-"], vs') else (v.(vv_data), vs')
  | None => ([chr "-"], vs')
  end.

(** The first loop of the handler: the length of the line without its line
    feed.  A null [getlen] is called for a zero [len]: undefined. *)
Fixpoint ops_len (ops : list new_log_op) (vs : list variable_value)
  : option (Z * list variable_value) :=
  match ops with
  | [] => Some (0, vs)
  | op :: ops' =>
      let here :=
        if op.(op_len) =? 0 then
          match op.(op_getlen_) with
          | ngx_new_log_variable_getlen => Some (variable_getlen op.(op_data_) vs)
          | getlen_null => None
          end
        else Some (op.(op_len), vs) in
      match here with
      | None => None
      | Some (len, vs) =>
          match ops_len ops' vs with
          | Some (rest, vs) => Some (len + rest, vs)
          | None => None
          end
      end
  end.

Definition run_op (r : log_request) (t : log_clock) (op : new_log_op)
    (vs : list variable_value) : option (list Z * list variable_value) :=
  match op.(op_run_) with
  | ngx_new_log_variable => Some (variable_run op.(op_data_) vs)
  | _ => match run_plain r t op with Some bs => Some (bs, vs) | None => None end
  end.

(** The second loop: the bytes the operations append. *)
Fixpoint ops_run (r : log_request) (t : log_clock) (ops : list new_log_op)
    (vs : list variable_value) : option (list Z * list variable_value) :=
  match ops with
  | [] => Some ([], vs)
  | op :: ops' =>
      match run_op r t op vs with
      | None => None
      | Some (bs, vs) =>
          match ops_run r t ops' vs with
          | Some (rest, vs) => Some (bs ++ rest, vs)
          | None => None
          end
      end
  end.
End passes.

(** ** The compiler *)

(** What a configuration step leaves behind. [flushes] is [None] for a null
    array. *)
Record compile_state := CompileState {
  c_ops : list new_log_op;
  c_flushes : option (list Z);
  c_vars : option (list http_variable);
  c_allocs : allocs;
}.

Inductive conf_result := NGX_CONF_OK | NGX_CONF_ERROR.

Definition push_op (op : new_log_op) (st : compile_state) : compile_state :=
  CompileState (st.(c_ops) ++ [op]) st.(c_flushes) st.(c_vars) st.(c_allocs).

Definition set_allocs (a : allocs) (st : compile_state) : compile_state :=
  CompileState st.(c_ops) st.(c_flushes) st.(c_vars) a.

Definition is_name_char (ch : Z) : bool :=
  ((chr "A" <=? ch) && (ch <=? chr "Z")) || ((chr "a" <=? ch) && (ch <=? chr "z"))
  || ((chr "0" <=? ch) && (ch <=? chr "9")) || (ch =? chr "_").

(** The loop over a variable name: the name, whether a bracket is still open,
    and the text behind it. *)
Fixpoint scan_name (bracket : bool) (l : list Z) : list Z * bool * list Z :=
  match l with
  | [] => ([], bracket, [])
  | ch :: l' =>
      if (ch =? chr "}") && bracket then ([], false, l')
      else if is_name_char ch then
        let '(name, b, rest) := scan_name bracket l' in (ch :: name, b, rest)
      else ([], bracket, l)
  end.

(** The loop over literal text, up to the next dollar sign. *)
Fixpoint scan_text (l : list Z) : list Z * list Z :=
  match l with
  | [] => ([], [])
  | ch :: l' =>
      if ch =? chr "$" then ([], l)
      else let (text, rest) := scan_text l' in (ch :: text, rest)
  end.

(** [while (len--) op->data = op->data << 8 | data[len]]. *)
Fixpoint pack_short (text : list Z) : Z :=
  match text with
  | [] => 0
  | c :: text' => Z.lor (u64 (Z.shiftl (pack_short text') 8)) c
  end.

Fixpoint find_log_var (name : list Z) (v : list (list Z * Z * op_run))
  : option (Z * op_run) :=
  match v with
  | [] => None
  | (n, len, run) :: v' => if beq n name then Some (len, run) else find_log_var name v'
  end.

(** [ngx_new_log_variable_compile]. *)
Definition ngx_new_log_variable_compile (value : list Z) (st : compile_state)
  : option new_log_op * compile_state :=
  let '(index, vs, a) := ngx_http_get_variable_index value st.(c_vars) st.(c_allocs) in
  let st := CompileState st.(c_ops) st.(c_flushes) vs a in
  if index =? NGX_ERROR then (None, st)
  else (Some (NewLogOp 0 ngx_new_log_variable_getlen ngx_new_log_variable (DNum index)), st).

(** One variable: an operation of its own or an indexed variable, whose index
    is also recorded in [flushes]. *)
Definition compile_variable (name : list Z) (st : compile_state)
  : conf_result * compile_state :=
  match find_log_var name ngx_new_log_vars with
  | Some (len, run) => (NGX_CONF_OK, push_op (NewLogOp len getlen_null run (DNum 0)) st)
  | None =>
      match ngx_new_log_variable_compile name st with
      | (None, st) => (NGX_CONF_ERROR, st)
      | (Some op, st) =>
          let st := push_op op st in
          match st.(c_flushes), op.(op_data_) with
          | Some fl, DNum index =>
              let (ok, a) := alloc st.(c_allocs) in
              if ok then
                (NGX_CONF_OK, CompileState st.(c_ops) (Some (fl ++ [index])) st.(c_vars) a)
              else (NGX_CONF_ERROR, set_allocs a st)
          | _, _ => (NGX_CONF_OK, st)
          end
      end
  end.

(** A run of text: packed in [data] when it fits, else copied. *)
Definition compile_text (text : list Z) (st : compile_state)
  : conf_result * compile_state :=
  let len := zlen text in
  if len <=? 8 then
    (NGX_CONF_OK,
     push_op (NewLogOp len getlen_null ngx_new_log_copy_short (DNum (pack_short text))) st)
  else
    let (ok, a) := alloc st.(c_allocs) in
    if ok then
      (NGX_CONF_OK,
       push_op (NewLogOp len getlen_null ngx_new_log_copy_long (DPtr text)) (set_allocs a st))
    else (NGX_CONF_ERROR, set_allocs a st).

(** The [while (i < value[s].len)] loop on one argument.  Each turn first takes
    a slot for its operation; every turn consumes a byte, so the length of the
    argument is fuel enough (lemma [compile_arg_ok]). *)
Fixpoint compile_arg (fuel : nat) (l : list Z) (st : compile_state)
  : option (conf_result * compile_state) :=
  match l with
  | [] => Some (NGX_CONF_OK, st)
  | c :: l' =>
      match fuel with
      | O => None
      | S fuel' =>
          let (ok, a) := alloc st.(c_allocs) in
          let st := set_allocs a st in
          if negb ok then Some (NGX_CONF_ERROR, st)
          else if c =? chr "$" then
            match l' with
            | [] => Some (NGX_CONF_ERROR, st)
            | b :: l'' =>
                let bracket := b =? chr "{" in
                let body := if bracket then l'' else l' in
                if bracket && beq l'' [] then Some (NGX_CONF_ERROR, st)
                else
                  let '(name, open_, rest) := scan_name bracket body in
                  if open_ then Some (NGX_CONF_ERROR, st)
                  else if beq name [] then Some (NGX_CONF_ERROR, st)
                  else match compile_variable name st with
                       | (NGX_CONF_OK, st) => compile_arg fuel' rest st
                       | (NGX_CONF_ERROR, st) => Some (NGX_CONF_ERROR, st)
                       end
            end
          else
            let (text, rest) := scan_text l' in
            match compile_text (c :: text) st with
            | (NGX_CONF_OK, st) => compile_arg fuel' rest st
            | (NGX_CONF_ERROR, st) => Some (NGX_CONF_ERROR, st)
            end
      end
  end.

(** [ngx_new_log_compile_format] on the arguments from [s] on. *)
Fixpoint ngx_new_log_compile_format (args : list (list Z)) (st : compile_state)
  : option (conf_result * compile_state) :=
  match args with
  | [] => Some (NGX_CONF_OK, st)
  | v :: args' =>
      match compile_arg (length v) v st with
      | Some (NGX_CONF_OK, st) => ngx_new_log_compile_format args' st
      | res => res
      end
  end.

(** ** Escaping of logged values

    [ngx_new_log_escape] is no longer called: its calls are commented out in
    [ngx_new_log_variable_getlen] and [ngx_new_log_variable]. *)

Definition log_escape_map : list Z :=
  [0xffffffff; 0x00000004; 0x10000000; 0x80000000;
   0xffffffff; 0xffffffff; 0xffffffff; 0xffffffff].

Definition ngx_new_log_escape_count (src : list Z) : Z := esc_count log_escape_map src.

Definition ngx_new_log_escape (src : list Z) : list Z :=
  esc_write log_escape_map (lit "\x") hex_upper src.

(** ** Short texts *)

Lemma pack_step x c :
  0 <= x < 2 ^ 56 -> is_byte c -> Z.lor (u64 (Z.shiftl x 8)) c = x * 256 + c.
Proof.
  intros Hx Hc. rewrite u64_small.
  - by rewrite lor_shiftl_add.
  - rewrite Z.shiftl_mul_pow2 by lia. lia.
Qed.

Lemma pack_short_range text :
  bytes text -> zlen text <= 8 -> 0 <= pack_short text < 2 ^ (8 * zlen text).
Proof.
  induction 1 as [|c text Hc Ht IH]; intros Hl.
  { vm_compute. done. }
  rewrite zlen_cons in *. pose proof (zlen_nonneg text).
  specialize (IH ltac:(lia)). cbn [pack_short].
  assert (2 ^ (8 * zlen text) <= 2 ^ 56) by (apply Z.pow_le_mono_r; lia).
  rewrite pack_step by (done || lia).
  replace (8 * (1 + zlen text)) with (8 * zlen text + 8) by lia.
  rewrite Z.pow_add_r by lia. change (2 ^ 8) with 256. unfold is_byte in Hc. lia.
Qed.

Lemma pack_short_cons c text :
  is_byte c -> bytes text -> zlen text <= 7 ->
  pack_short (c :: text) = pack_short text * 256 + c.
Proof.
  intros Hc Ht Hl. pose proof (pack_short_range text Ht ltac:(lia)) as H.
  pose proof (zlen_nonneg text).
  assert (2 ^ (8 * zlen text) <= 2 ^ 56) by (apply Z.pow_le_mono_r; lia).
  apply pack_step; [lia | done].
Qed.

(** What [compile_text] packs, [ngx_new_log_copy_short] unpacks. *)
Lemma copy_pack_short text :
  bytes text -> zlen text <= 8 -> copy_short (length text) (pack_short text) = text.
Proof.
  induction 1 as [|c text Hc Ht IH]; intros Hl; [done|].
  rewrite zlen_cons in Hl. rewrite pack_short_cons by (done || lia).
  cbn [length copy_short]. unfold is_byte in Hc. f_equal.
  - rewrite land_ones_u8. unfold u8. change (2 ^ 8) with 256.
    rewrite Z.add_comm, Z_mod_plus_full. apply Z.mod_small. lia.
  - rewrite Z.shiftr_div_pow2 by lia. change (2 ^ 8) with 256.
    rewrite Z.add_comm, Z_div_plus, Z.div_small by lia. apply IH. lia.
Qed.

(** ** Lengths of the printed fields *)

(** The [while] loop goes on after a conversion that wrote few bytes. *)
Lemma vslprintf_conv fuel fmt args out d rest s args' cv args'' bs :
  zlen out <= 1000 ->
  (let (w, rest0) := scan_width 0 fmt in
   scan_flags (FmtSpec (match fmt with d :: _ => if d =? chr "0" then chr "0" else chr " "
                        | [] => chr " " end) w 1 0 0 0 None) rest0 args)
    = Some (s, d :: rest, args') ->
  convert d s args' = (cv, args'') ->
  emit (sprintf_room - zlen out) cv = Some bs ->
  vslprintf_loop (S fuel) sprintf_room (chr "%" :: fmt) args out
  = vslprintf_loop fuel sprintf_room rest args'' (out ++ bs).
Proof.
  intros Ho Hs Hc He. cbn [vslprintf_loop].
  assert (E : (zlen out <? sprintf_room) = true)
    by (apply Z.ltb_lt; unfold sprintf_room; lia).
  rewrite E. change (37 =? 37) with true. cbn iota.
  destruct (scan_width 0 fmt) as [w rest0]. rewrite Hs, Hc, He. done.
Qed.

Lemma vslprintf_plain fuel c fmt args out :
  zlen out <= 1000 -> c <> chr "%" ->
  vslprintf_loop (S fuel) sprintf_room (c :: fmt) args out
  = vslprintf_loop fuel sprintf_room fmt args (out ++ [c]).
Proof.
  intros Ho Hc. cbn [vslprintf_loop].
  assert (E : (zlen out <? sprintf_room) = true)
    by (apply Z.ltb_lt; unfold sprintf_room; lia).
  rewrite E. by destruct (Z.eqb_spec c 37).
Qed.

(** A signed 64-bit number takes at most 20 bytes, sign included. *)
Lemma emit_signed_length room s z :
  1 <= room -> fs_hex s = 0 ->
  exists out, emit room (cnum s 1 (s64 z) 0 0) = Some out /\ zlen out <= 20.
Proof.
  intros Hr Hh. unfold cnum. change (1 =? 0) with false. cbn iota.
  pose proof (s64_range z) as Hz. rewrite Hh.
  assert (2 ^ 63 < 10 ^ Z.of_nat 19) by (vm_compute; done).
  destruct (Z.ltb_spec (s64 z) 0) as [Hneg|Hpos]; cbn [emit].
  - rewrite u64_small by lia.
    destruct (sprintf_num_upto 19 (room - zlen [45]) (- s64 z) (fs_zero s) 0)
      as (out & -> & Ho); [lia | lia | lia | change (zlen [45]) with 1; lia |].
    eexists. split; [done|]. autorewrite with ngx. lia.
  - rewrite u64_small by lia.
    destruct (sprintf_num_upto 19 (room - zlen (@nil Z)) (s64 z) (fs_zero s) 0)
      as (out & -> & Ho); [lia | lia | lia | change (zlen (@nil Z)) with 0; lia |].
    eexists. split; [done|]. autorewrite with ngx. lia.
Qed.

Ltac conv_step :=
  eapply vslprintf_conv; [autorewrite with ngx; lia | reflexivity | reflexivity | eassumption].

Lemma sprintf_signed z :
  exists out, ngx_sprintf (lit "%O") [VInt z] = FmtOk out /\ zlen out <= 20.
Proof.
  destruct (emit_signed_length (sprintf_room - zlen (@nil Z)) (FmtSpec (chr " ") 0 1 0 0 0 None) z)
    as (out & E & Ho); [vm_compute; done | done |].
  exists out. split; [|done]. unfold ngx_sprintf, ngx_vslprintf. cbn [length].
  etrans; [conv_step|]. done.
Qed.

Lemma sprintf_status z :
  exists out, ngx_sprintf (lit "%03ui") [VInt z] = FmtOk out /\ zlen out <= 20.
Proof.
  assert (H64 : 2 ^ 64 < 10 ^ Z.of_nat 20) by (vm_compute; done).
  pose proof (u64_range z).
  destruct (sprintf_num_upto 20 (sprintf_room - zlen (@nil Z) - zlen (@nil Z)) (u64 z) (chr "0") 3)
    as (out & E & Ho); [lia | lia | lia | vm_compute; done |].
  exists out. split; [|lia]. unfold ngx_sprintf, ngx_vslprintf. cbn [length].
  assert (E' : emit (sprintf_room - zlen (@nil Z)) (CNum false (u64 z) (chr "0") 0 3) = Some out)
    by (cbn [emit]; rewrite E; done).
  etrans; [conv_step|]. done.
Qed.

Lemma sprintf_sec_msec sec ms :
  0 <= ms < 1000 ->
  exists out, ngx_sprintf (lit "%T.%03M") [VInt sec; VInt ms] = FmtOk out /\ zlen out <= 24.
Proof.
  intros Hms.
  destruct (emit_signed_length (sprintf_room - zlen (@nil Z)) (FmtSpec (chr " ") 0 1 0 0 0 None) sec)
    as (out & E & Ho); [vm_compute; done | done |].
  destruct (sprintf_num_upto 3 (sprintf_room - zlen (out ++ [46]) - zlen (@nil Z)) ms (chr "0") 3)
    as (out2 & E2 & Ho2); [lia | lia | lia | autorewrite with ngx; unfold sprintf_room; lia |].
  assert (E' : emit (sprintf_room - zlen (out ++ [46])) (CNum false ms (chr "0") 0 3) = Some out2)
    by (cbn [emit]; rewrite E2; done).
  exists ((out ++ [46]) ++ out2). split; [|autorewrite with ngx; lia].
  unfold ngx_sprintf, ngx_vslprintf. cbn [length].
  etrans; [conv_step|]. cbn [app].
  etrans; [apply vslprintf_plain; [lia|done]|].
  etrans; [eapply vslprintf_conv; [autorewrite with ngx; lia | reflexivity | | exact E']|done].
  unfold convert. cbn -[u64 s64 cnum]. rewrite u64_small by lia.
  rewrite s64_small by lia. destruct (Z.eqb_spec ms (-1)); [lia|]. done.
Qed.

(** ** Well-formed operations *)

(** The operations the compiler can produce, with [nvars] indexed variables
    known. *)
Inductive wf_op (nvars : nat) : new_log_op -> Prop :=
  | wf_short text :
      bytes text -> 1 <= zlen text <= 8 ->
      wf_op nvars (NewLogOp (zlen text) getlen_null ngx_new_log_copy_short
                     (DNum (pack_short text)))
  | wf_long text :
      8 < zlen text ->
      wf_op nvars (NewLogOp (zlen text) getlen_null ngx_new_log_copy_long (DPtr text))
  | wf_builtin name len run :
      find_log_var name ngx_new_log_vars = Some (len, run) ->
      wf_op nvars (NewLogOp len getlen_null run (DNum 0))
  | wf_variable i :
      (i < nvars)%nat ->
      wf_op nvars (NewLogOp 0 ngx_new_log_variable_getlen ngx_new_log_variable
                     (DNum (Z.of_nat i))).

#[export] Hint Constructors wf_op : ngx.

Lemma wf_op_mono n m op : (n <= m)%nat -> wf_op n op -> wf_op m op.
Proof. intros Hle []; eauto with ngx. apply wf_variable. lia. Qed.

(** The clock the module reads: [msec] is below 1000 and the cached texts have
    the fixed lengths of [ngx_time_init]. *)
Definition clock_ok (t : log_clock) : Prop :=
  0 <= t.(tp_msec) < 1000 /\ zlen t.(cached_http_log_time) = 26 /\
  zlen t.(cached_http_log_iso8601) = 25.

Lemma builtin_vars_spec name len run :
  find_log_var name ngx_new_log_vars = Some (len, run) ->
  In (len, run)
    [(1, ngx_new_log_pipe); (26, ngx_new_log_time); (25, ngx_new_log_iso8601);
     (24, ngx_new_log_msec); (24, ngx_new_log_request_time); (20, ngx_new_log_status);
     (20, ngx_new_log_bytes_sent); (20, ngx_new_log_body_bytes_sent);
     (20, ngx_new_log_request_length)].
Proof.
  unfold ngx_new_log_vars. cbn [find_log_var].
  repeat (destruct (beq _ name); [intros [= <- <-]; cbn; tauto|]). done.
Qed.

(** A built-in operation writes at most what its table entry announces. *)
Lemma run_builtin_length r t name len run :
  clock_ok t -> find_log_var name ngx_new_log_vars = Some (len, run) ->
  1 <= len /\ run <> ngx_new_log_variable /\
  exists bs, run_plain r t (NewLogOp len getlen_null run (DNum 0)) = Some bs /\
    zlen bs <= len.
Proof.
  intros (Hms & Ht & Hi) Hf%builtin_vars_spec.
  assert (Hmod : forall m, 0 <= m mod 1000 < 1000) by (intros; apply Z.mod_pos_bound; lia).
  repeat (destruct Hf as [[= <- <-]|Hf]); [..|destruct Hf];
    (split; [lia|]; split; [done|]); cbn [run_plain op_run_ op_len op_data_].
  - eexists. split; [done|]. autorewrite with ngx. lia.
  - eexists. split; [done|]. lia.
  - eexists. split; [done|]. lia.
  - destruct (sprintf_sec_msec (tp_sec t) (tp_msec t) Hms) as (o & -> & Ho).
    by exists o.
  - set (m := request_time_ms r t).
    destruct (sprintf_sec_msec (m / 1000) (m mod 1000) (Hmod m)) as (o & -> & Ho).
    by exists o.
  - destruct (sprintf_status (log_status r)) as (o & -> & Ho). by exists o.
  - destruct (sprintf_signed (sent r)) as (o & -> & Ho). by exists o.
  - case_match; [|eexists; split; [done|]; autorewrite with ngx; lia].
    destruct (sprintf_signed (body_bytes r)) as (o & -> & Ho). by exists o.
  - destruct (sprintf_signed (request_length r)) as (o & -> & Ho). by exists o.
Qed.

(** Every operation without [getlen] announces a positive length, leaves the
    variable cache alone and writes within its length. *)
Lemma run_static nvars r t op :
  clock_ok t -> wf_op nvars op -> op.(op_getlen_) = getlen_null ->
  1 <= op.(op_len) /\
  forall gh vars vs, exists bs, run_op gh vars r t op vs = Some (bs, vs) /\
    zlen bs <= op.(op_len).
Proof.
  intros Hc [text Hb Hl|text Hl|name len run Hf|i Hi] Hg; cbn in Hg; try done.
  - split; [cbn; lia|]. intros. exists text.
    cbn [run_op run_plain op_run_ op_len op_data_].
    unfold zlen at 1. rewrite Nat2Z.id, copy_pack_short by (done || lia).
    split; [done | cbn; lia].
  - split; [cbn; lia|]. intros. exists text.
    cbn [run_op run_plain op_run_ op_len op_data_].
    rewrite Z.leb_refl. unfold zlen at 1. rewrite Nat2Z.id, firstn_all.
    split; [done | cbn; lia].
  - destruct (run_builtin_length r t name len run Hc Hf) as (H1 & Hr & bs & E & Hbs).
    split; [cbn; lia|]. intros. exists bs. split; [|done].
    unfold run_op. cbn [op_run_]. rewrite E. by destruct run.
Qed.

(** ** The two passes agree *)

Section agree.
Context (gh : nat -> variable_value -> Z * variable_value).
Context (vars : list http_variable).
Context (Hfills : handler_fills gh).

(** What a reader writes for a variable: its bytes, or a dash. *)
Definition shown (v : option variable_value) : list Z := default [chr "-"] (seen v).

Lemma variable_getlen_shown i vs :
  variable_getlen gh vars (DNum (Z.of_nat i)) vs =
  let (v, vs') := ngx_http_get_indexed_variable gh vars vs i in (zlen (shown v), vs').
Proof.
  unfold variable_getlen, shown, seen. cbn [var_index]. rewrite Nat2Z.id.
  repeat case_match; by simplify_eq.
Qed.

Lemma variable_run_shown i vs :
  variable_run gh vars (DNum (Z.of_nat i)) vs =
  let (v, vs') := ngx_http_get_indexed_variable gh vars vs i in (shown v, vs').
Proof.
  unfold variable_run, shown, seen. cbn [var_index]. rewrite Nat2Z.id.
  repeat case_match; by simplify_eq.
Qed.

Lemma filled_kept vs vs' i j v :
  ngx_http_get_indexed_variable gh vars vs i = (v, vs') -> filled vs j -> filled vs' j.
Proof.
  intros E Hf. pose proof (get_keeps gh vars vs i j v vs' E Hf) as Hk.
  destruct Hf as (w & Hw & Hv). exists w. split; congruence.
Qed.

Lemma wf_op_cases op :
  wf_op (length vars) op ->
  op.(op_getlen_) = getlen_null \/
  exists i, (i < length vars)%nat /\
    op = NewLogOp 0 ngx_new_log_variable_getlen ngx_new_log_variable (DNum (Z.of_nat i)).
Proof. intros [| | |i]; [by left..|right; by exists i]. Qed.

(** The second pass on a cache [vs] writes a line of at most [len] bytes and
    leaves the cache as it is. *)
Definition run_within (ops : list new_log_op) (len : Z) (vs : list variable_value) : Prop :=
  forall r t, clock_ok t ->
    exists line, ops_run gh vars r t ops vs = Some (line, vs) /\ zlen line <= len.

(** The first pass succeeds and keeps what was filled, and on any cache that
    agrees with the one it leaves the second pass fits the length found. *)
Lemma ops_len_run t0 ops vs :
  clock_ok t0 -> Forall (wf_op (length vars)) ops -> length vs = length vars ->
  exists len vs', ops_len gh vars ops vs = Some (len, vs') /\
    length vs' = length vars /\
    (forall j, filled vs j -> filled vs' j /\ vs' !! j = vs !! j) /\
    forall vs2, (forall j, filled vs' j -> vs2 !! j = vs' !! j) -> run_within ops len vs2.
Proof.
  intros Ht0 Hw. revert vs. induction Hw as [|op ops Hop Hops IH]; intros vs Hl.
  { exists 0, vs. repeat split; auto. intros vs2 _ r t _. by exists []. }
  cbn [ops_len]. destruct (wf_op_cases op Hop) as [Hg|(i & Hi & ->)].
  - destruct (run_static _ (LogRequest false 0 0 0 0 0 0 0 0) t0 op Ht0 Hop Hg) as [H1 _].
    destruct (Z.eqb_spec (op_len op) 0); [lia|].
    destruct (IH vs Hl) as (len & vs' & -> & Hl' & Hk & Hrun).
    eexists _, vs'. repeat split; [done | by apply Hk | by apply Hk |].
    intros vs2 Hagree r t Ht. cbn [ops_run].
    destruct (proj2 (run_static _ r t op Ht Hop Hg) gh vars vs2) as (bs & -> & Hbs).
    destruct (Hrun vs2 Hagree r t Ht) as (line & -> & Hline).
    eexists. split; [done|]. autorewrite with ngx. lia.
  - cbn [op_len op_getlen_ op_data_]. change (0 =? 0) with true. cbn iota.
    rewrite variable_getlen_shown.
    destruct (ngx_http_get_indexed_variable gh vars vs i) as [v vs1] eqn:E.
    destruct (get_fills gh vars Hfills vs i v vs1 Hi ltac:(lia) E)
      as (Hfi & _ & Hlen & w & Hw & Hseen).
    destruct (IH vs1 ltac:(lia)) as (len & vs' & -> & Hl' & Hk & Hrun).
    eexists _, vs'. split; [done|]. split; [done|]. split.
    + intros j Hj. destruct (Hk j (filled_kept vs vs1 i j v E Hj)) as [Hj2 Heq].
      split; [done|]. rewrite Heq. by apply (get_keeps gh vars vs i j v vs1 E).
    + intros vs2 Hagree r t Ht. cbn [ops_run]. unfold run_op at 1. cbn [op_run_ op_data_].
      destruct (Hk i Hfi) as [Hfi' Heq].
      assert (Hw2 : vs2 !! i = Some w) by (rewrite Hagree by done; congruence).
      assert (Hf2 : filled vs2 i)
        by (destruct Hfi as (x & Hx & Hxf); exists x; split; congruence).
      rewrite variable_run_shown.
      destruct (get_filled gh vars vs2 i Hi Hf2) as (w' & Hw' & ->).
      destruct (Hrun vs2 Hagree r t Ht) as (line & -> & Hline).
      eexists. split; [done|]. autorewrite with ngx.
      assert (Hsame : shown (Some w') = shown v)
        by (unfold shown; rewrite <- Hseen; do 2 f_equal; congruence).
      rewrite Hsame. lia.
Qed.
End agree.

(** ** Properties of the two passes *)

(** The line buffer never overflows: for any well-formed operations (those
    the compiler produces) and any request, the length pass succeeds, and the
    writing pass that follows it on the variable cache it leaves succeeds with
    at most the announced number of bytes. *)
Theorem new_log_line_fits gh vars ops vs r t :
  handler_fills gh -> clock_ok t -> Forall (wf_op (length vars)) ops ->
  length vs = length vars ->
  exists len vs' line,
    ops_len gh vars ops vs = Some (len, vs') /\
    ops_run gh vars r t ops vs' = Some (line, vs') /\ zlen line <= len.
Proof.
  intros Hh Ht Hw Hl.
  destruct (ops_len_run gh vars Hh t ops vs Ht Hw Hl) as (len & vs' & E & _ & _ & Hrun).
  destruct (Hrun vs' (fun _ _ => eq_refl) r t Ht) as (line & E' & Hle).
  by exists len, vs', line.
Qed.

(** ** The compiler: well-formedness *)

Definition nvars (st : compile_state) : nat := length (default [] st.(c_vars)).

Definition wf_state (st : compile_state) : Prop :=
  Forall (wf_op (nvars st)) st.(c_ops).

(** A compiler step keeps the operations well formed and only adds to the
    variable table. *)
Definition step_ok (st st' : compile_state) : Prop :=
  (wf_state st -> wf_state st') /\ (nvars st <= nvars st')%nat.

Lemma step_ok_refl st : step_ok st st.
Proof. split; auto. Qed.

Lemma step_ok_allocs a st : step_ok st (set_allocs a st).
Proof. split; auto. Qed.

Lemma step_ok_trans a b c : step_ok a b -> step_ok b c -> step_ok a c.
Proof. intros [H1 ?] [H2 ?]. split; [auto|lia]. Qed.

Lemma push_wf op st : wf_op (nvars st) op -> step_ok st (push_op op st).
Proof.
  intros Hop. split; [|done]. unfold wf_state, push_op, nvars. cbn. intros Hst.
  apply Forall_app. split; [done|]. by constructor.
Qed.

Lemma compile_text_ok text st res st' :
  bytes text -> text <> [] -> compile_text text st = (res, st') -> step_ok st st'.
Proof.
  intros Hb Hne. unfold compile_text.
  assert (1 <= zlen text) by (destruct text; [done|]; rewrite zlen_cons;
                              pose proof (zlen_nonneg text); lia).
  destruct (Z.leb_spec (zlen text) 8).
  - intros [= <- <-]. apply push_wf. by constructor.
  - destruct (alloc _) as [[] a]; intros [= <- <-]; [|apply step_ok_allocs].
    eapply step_ok_trans; [|apply push_wf; by constructor]. apply step_ok_allocs.
Qed.

Lemma compile_variable_ok name st res st' :
  bytes name -> compile_variable name st = (res, st') -> step_ok st st'.
Proof.
  intros Hb. unfold compile_variable, ngx_new_log_variable_compile.
  destruct (find_log_var name ngx_new_log_vars) as [[len run]|] eqn:Ef.
  { intros [= <- <-]. apply push_wf. by econstructor. }
  destruct (ngx_http_get_variable_index name (c_vars st) (c_allocs st))
    as [[idx vs] a] eqn:Ei.
  destruct (get_variable_index_spec name _ _ _ _ _ Hb Ei) as [[ext Hext] Hidx].
  set (st1 := CompileState (c_ops st) (c_flushes st) vs a).
  assert (H1 : step_ok st st1).
  { unfold step_ok, wf_state, nvars. cbn. rewrite Hext, length_app. split; [|lia].
    intros Hst. eapply Forall_impl; [exact Hst|]. intros op. apply wf_op_mono. lia. }
  destruct (Z.eqb_spec idx (-1)) as [->|Hne].
  { intros [= <- <-]. exact H1. }
  destruct (Hidx Hne) as (i & x & -> & Hx & _).
  set (op := NewLogOp 0 _ _ _).
  assert (H2 : step_ok st (push_op op st1)).
  { eapply step_ok_trans; [exact H1|]. apply push_wf, wf_variable.
    apply lookup_lt_Some in Hx. exact Hx. }
  destruct (c_flushes (push_op op st1)) as [fl|] eqn:Efl; cbn [op_data_ op];
    [|by intros [= <- <-]].
  destruct (alloc _) as [[] a']; intros [= <- <-]; exact H2.
Qed.

Lemma scan_name_spec b l name open_ rest :
  scan_name b l = (name, open_, rest) ->
  (length rest <= length l)%nat /\ (bytes l -> bytes name /\ bytes rest).
Proof.
  revert name rest; induction l as [|c l IH]; intros name rest; cbn [scan_name].
  { intros [= <- <- <-]. done. }
  destruct (_ && b).
  { intros [= <- <- <-]. cbn. split; [lia|]. by intros [_ ?]%Forall_cons. }
  destruct (is_name_char c); [|by intros [= <- <- <-]].
  destruct (scan_name b l) as [[n o] rs]. intros [= <- <- <-].
  destruct (IH _ _ eq_refl) as (H1 & H2). cbn. split; [lia|].
  intros [Hc [Hn Hr]%H2]%Forall_cons. split; [by constructor | done].
Qed.

Lemma scan_text_spec l text rest :
  scan_text l = (text, rest) ->
  (length rest <= length l)%nat /\ l = text ++ rest.
Proof.
  revert text; induction l as [|c l IH]; intros text; cbn [scan_text].
  { intros [= <- <-]. done. }
  destruct (c =? 36); [by intros [= <- <-]|].
  destruct (scan_text l) as [t rs]. intros [= <- <-].
  destruct (IH _ eq_refl) as [Hl ->]. cbn. split; [lia|done].
Qed.

(** The loop of the compiler has fuel enough and is a sequence of steps. *)
Lemma compile_arg_ok fuel l st :
  bytes l -> (length l <= fuel)%nat ->
  exists res st', compile_arg fuel l st = Some (res, st') /\ step_ok st st'.
Proof.
  revert l st; induction fuel as [|fuel IH]; intros l st Hb Hl;
    destruct l as [|c l]; cbn [length] in Hl; cbn [compile_arg]; try lia;
    try (by eexists _, _; split; [done|apply step_ok_refl]).
  destruct (alloc (c_allocs st)) as [ok a]. set (st1 := set_allocs a st).
  assert (H1 : step_ok st st1) by apply step_ok_allocs.
  assert (Hdone : exists res st', Some (NGX_CONF_ERROR, st1) = Some (res, st') /\ step_ok st st')
    by eauto.
  (* the continuation after an operation has been compiled *)
  assert (Hnext : forall res st2 rest, step_ok st1 st2 -> bytes rest ->
    (length rest <= length l)%nat ->
    exists res' st', match res with
      | NGX_CONF_OK => compile_arg fuel rest st2
      | NGX_CONF_ERROR => Some (NGX_CONF_ERROR, st2) end = Some (res', st') /\ step_ok st st').
  { intros [] st2 rest H2 Hr Hlr; [|eexists _, _; split; [done|exact H2]].
    destruct (IH rest st2 Hr ltac:(lia)) as (res' & st' & -> & H3).
    eexists _, _. split; [done|]. exact (step_ok_trans _ _ _ H2 H3). }
  inversion Hb as [|? ? Hc Hbl]; subst.
  destruct ok; cbn [negb]; [|done]. destruct (c =? 36).
  - destruct l as [|b l']; [done|]. inversion Hbl as [|? ? Hbb Hbl']; subst.
    destruct (_ && _); [done|].
    assert (Hbody : bytes (if b =? 123 then l' else b :: l')) by (by destruct (b =? 123)).
    destruct (scan_name _ _) as [[name open_] rest] eqn:Es.
    destruct (scan_name_spec _ _ _ _ _ Es) as (Hlen & Hbs).
    destruct (Hbs Hbody) as [Hn Hr].
    destruct open_; [done|]. destruct (beq name []); [done|].
    destruct (compile_variable name st1) as [res st2] eqn:Ev.
    apply (Hnext res st2 rest); [exact (compile_variable_ok _ _ _ _ Hn Ev) | done |].
    destruct (b =? 123); cbn [length] in *; lia.
  - destruct (scan_text l) as [text rest] eqn:Es.
    destruct (scan_text_spec _ _ _ Es) as [Hlen ->].
    apply Forall_app in Hbl as [Ht Hr].
    destruct (compile_text (c :: text) st1) as [res st2] eqn:Ev.
    apply (Hnext res st2 rest); [|done..].
    eapply (compile_text_ok (c :: text)); [by constructor|by intros ?|exact Ev].
Qed.

Lemma compile_format_ok args st :
  Forall (fun v => bytes v) args ->
  exists res st', ngx_new_log_compile_format args st = Some (res, st') /\ step_ok st st'.
Proof.
  intros Ha. revert st; induction Ha as [|v args Hv Ha IH]; intros st.
  { eexists _, _. split; [done|apply step_ok_refl]. }
  cbn [ngx_new_log_compile_format].
  destruct (compile_arg_ok (length v) v st Hv ltac:(lia)) as (res & st1 & -> & H1).
  destruct res; [|eexists _, _; split; [done|exact H1]].
  destruct (IH st1) as (res & st2 & E & H2). eexists _, _. split; [exact E|].
  exact (step_ok_trans _ _ _ H1 H2).
Qed.

(** Compiling a format always ends, and whatever it answers (out of memory
    included) the operations are well formed: together with
    [new_log_line_fits] this makes every configured format safe to run. *)
Theorem compile_format_wf args st :
  Forall (fun v => bytes v) args -> wf_state st ->
  exists res st', ngx_new_log_compile_format args st = Some (res, st') /\ wf_state st'.
Proof.
  intros Ha Hst. destruct (compile_format_ok args st Ha) as (res & st' & E & H & _).
  exists res, st'. auto.
Qed.

(** ** The compiler: what a format means

    A format is a sequence of texts and variables; [fmt_print] writes it with
    every variable in brackets.  Compiling the printed format gives one
    operation for each segment, and the operation denotes the segment. *)

Inductive segment :=
  | SText (text : list Z)
  | SVar (name : list Z).

Definition seg_print (s : segment) : list Z :=
  match s with
  | SText text => text
  | SVar name => lit "${" ++ name ++ lit "}"
  end.

Definition fmt_print (segs : list segment) : list Z := concat (map seg_print segs).

(** Texts are not empty, hold no dollar sign and do not follow one another;
    names are non-empty and made of name characters. *)
Fixpoint wf_segs (after_text : bool) (segs : list segment) : Prop :=
  match segs with
  | [] => True
  | SText text :: segs' =>
      after_text = false /\ text <> [] /\ bytes text /\ (chr "$" ∉ text) /\
      wf_segs true segs'
  | SVar name :: segs' =>
      name <> [] /\ bytes name /\ forallb is_name_char name = true /\ wf_segs false segs'
  end.

(** The operation of a text writes the text; that of a variable is the
    built-in one of its name, or reads an indexed variable of its name. *)
Definition op_denotes (vars : list http_variable) (s : segment) (op : new_log_op) : Prop :=
  match s with
  | SText text =>
      op.(op_len) = zlen text /\
      forall gh vs r t cache, run_op gh vs r t op cache = Some (text, cache)
  | SVar name =>
      match find_log_var name ngx_new_log_vars with
      | Some (len, run) => op = NewLogOp len getlen_null run (DNum 0)
      | None =>
          exists i x,
            op = NewLogOp 0 ngx_new_log_variable_getlen ngx_new_log_variable (DNum (Z.of_nat i))
            /\ vars !! i = Some x /\ same_name name x.(v_name)
      end
  end.

(** [st'] is [st] with the operations [ops] added and the variable table
    possibly grown. *)
Definition extends (st st' : compile_state) (ops : list new_log_op) : Prop :=
  st'.(c_ops) = st.(c_ops) ++ ops /\ no_oom st'.(c_allocs) /\
  exists ext, default [] st'.(c_vars) = default [] st.(c_vars) ++ ext.

Lemma op_denotes_grow vars ext s op :
  op_denotes vars s op -> op_denotes (vars ++ ext) s op.
Proof.
  destruct s as [text|name]; cbn [op_denotes]; [done|].
  destruct (find_log_var name ngx_new_log_vars) as [[len run]|]; [done|].
  intros (i & x & -> & Hx & Hs). exists i, x. split; [done|]. split; [|done].
  by apply lookup_app_l_Some.
Qed.

Lemma compile_text_denotes text st :
  bytes text -> no_oom st.(c_allocs) ->
  exists st' op, compile_text text st = (NGX_CONF_OK, st') /\ extends st st' [op] /\
    forall vars, op_denotes vars (SText text) op.
Proof.
  intros Hb Ha. unfold compile_text. destruct (Z.leb_spec (zlen text) 8).
  - eexists _, _. split; [done|]. split.
    + split; [done|]. split; [done|]. exists []. by rewrite app_nil_r.
    + intros vars. split; [done|]. intros. unfold run_op, run_plain.
      cbn [op_run_ op_len op_data_]. unfold zlen. rewrite Nat2Z.id.
      by rewrite copy_pack_short.
  - destruct (no_oom_alloc _ Ha) as (a & -> & Ha').
    eexists _, _. split; [done|]. split.
    + split; [done|]. split; [done|]. exists []. by rewrite app_nil_r.
    + intros vars. split; [done|]. intros. unfold run_op, run_plain.
      cbn [op_run_ op_len op_data_]. rewrite Z.leb_refl. unfold zlen.
      by rewrite Nat2Z.id, firstn_all.
Qed.

Lemma compile_variable_denotes name st :
  bytes name -> name <> [] -> no_oom st.(c_allocs) ->
  exists st' op, compile_variable name st = (NGX_CONF_OK, st') /\ extends st st' [op] /\
    op_denotes (default [] st'.(c_vars)) (SVar name) op.
Proof.
  intros Hb Hne Ha. unfold compile_variable, ngx_new_log_variable_compile. cbn [op_denotes].
  destruct (find_log_var name ngx_new_log_vars) as [[len run]|] eqn:Ef.
  { eexists _, _. split; [done|]. split; [|done].
    split; [done|]. split; [done|]. exists []. by rewrite app_nil_r. }
  destruct (get_variable_index_total name (c_vars st) _ Hne Ha) as (i & vs & a & Ei & Ha').
  destruct (get_variable_index_spec name _ _ _ _ _ Hb Ei) as [[ext Hext] Hidx].
  rewrite Ei. destruct (Z.eqb_spec (Z.of_nat i) (-1)); [lia|].
  destruct (Hidx ltac:(lia)) as (i' & x & Hi & Hx & Hs). apply Nat2Z.inj in Hi as <-.
  cbn [push_op c_flushes c_allocs op_data_].
  destruct (c_flushes st) as [fl|].
  - destruct (no_oom_alloc a Ha') as (a' & -> & Ha'').
    eexists _, _. split; [done|]. split; [split; [done|]; split; [done|]; by exists ext|].
    exists i, x. done.
  - eexists _, _. split; [done|]. split; [split; [done|]; split; [done|]; by exists ext|].
    exists i, x. done.
Qed.

Lemma scan_text_app text rest :
  chr "$" ∉ text -> (rest = [] \/ exists r, rest = chr "$" :: r) ->
  scan_text (text ++ rest) = (text, rest).
Proof.
  intros Hn Hr. induction text as [|c text IH]; cbn [app scan_text].
  - destruct Hr as [-> | [r ->]]; done.
  - apply not_elem_of_cons in Hn as [Hc Hn].
    destruct (Z.eqb_spec c 36); [done|]. by rewrite IH.
Qed.

Lemma scan_name_app name rest :
  forallb is_name_char name = true ->
  scan_name true (name ++ chr "}" :: rest) = (name, false, rest).
Proof.
  induction name as [|c name IH]; intros Hn; cbn [app scan_name]; [done|].
  cbn [forallb] in Hn. apply andb_true_iff in Hn as [Hc Hn]. rewrite Hc, IH by done.
  destruct (Z.eqb_spec c 125) as [->|]; [done|]. done.
Qed.

(** After a text comes a dollar sign or the end. *)
Lemma fmt_print_after_text segs :
  wf_segs true segs -> fmt_print segs = [] \/ exists r, fmt_print segs = chr "$" :: r.
Proof.
  destruct segs as [|[text|name] segs]; cbn; [by left|by intros [? _]|].
  right. by eexists.
Qed.

Lemma extends_trans st1 st2 st3 o1 o2 :
  extends st1 st2 o1 -> extends st2 st3 o2 -> extends st1 st3 (o1 ++ o2).
Proof.
  intros (H1 & _ & e1 & E1) (H2 & Ha & e2 & E2).
  split; [by rewrite H2, H1, app_assoc|]. split; [done|].
  exists (e1 ++ e2). by rewrite E2, E1, app_assoc.
Qed.

(** The first turn of the loop takes a slot for the operation. *)
Lemma alloc_extends st a st' ops :
  no_oom a -> extends (set_allocs a st) st' ops -> extends st st' ops.
Proof. intros Ha H. exact H. Qed.

Lemma compile_print fuel segs b st :
  wf_segs b segs -> no_oom st.(c_allocs) -> (length (fmt_print segs) <= fuel)%nat ->
  exists st' ops, compile_arg fuel (fmt_print segs) st = Some (NGX_CONF_OK, st') /\
    extends st st' ops /\ Forall2 (op_denotes (default [] st'.(c_vars))) segs ops.
Proof.
  revert fuel b st; induction segs as [|s segs IH]; intros fuel b st Hw Ha Hf.
  { exists st, []. split; [by destruct fuel|]. split; [|constructor].
    split; [by rewrite app_nil_r|]. split; [done|]. exists []. by rewrite app_nil_r. }
  destruct (no_oom_alloc _ Ha) as (a & Ea & Ha1).
  (* what remains once the segment's operation is compiled *)
  assert (Hrest : forall fuel' b' st1 op,
    wf_segs b' segs -> extends st st1 [op] ->
    op_denotes (default [] st1.(c_vars)) s op -> (length (fmt_print segs) <= fuel')%nat ->
    exists st' ops, compile_arg fuel' (fmt_print segs) st1 = Some (NGX_CONF_OK, st') /\
      extends st st' ops /\ Forall2 (op_denotes (default [] st'.(c_vars))) (s :: segs) ops).
  { intros fuel' b' st1 op Hw' He Hd Hf'. pose proof He as (_ & Ha' & _).
    destruct (IH fuel' b' st1 Hw' Ha' Hf') as (st' & ops & E & He' & Hall).
    exists st', (op :: ops). split; [done|].
    split; [exact (extends_trans _ _ _ [op] ops He He')|].
    constructor; [|done]. destruct He' as (_ & _ & ext & ->). by apply op_denotes_grow. }
  destruct s as [text|name]; cbn [wf_segs] in Hw.
  - destruct Hw as (_ & Hne & Hb & Hd & Hw). destruct text as [|c text]; [done|].
    apply not_elem_of_cons in Hd as [Hc Hd].
    change (fmt_print (SText (c :: text) :: segs)) with (c :: text ++ fmt_print segs) in *.
    destruct fuel as [|fuel]; cbn [length] in Hf; [lia|]. cbn [compile_arg].
    rewrite Ea. cbn [negb]. destruct (Z.eqb_spec c 36); [done|].
    rewrite scan_text_app by (done || by apply fmt_print_after_text).
    destruct (compile_text_denotes (c :: text) (set_allocs a st) Hb Ha1)
      as (st1 & op & -> & He & Hden).
    apply (Hrest fuel true st1 op); [done..|]. rewrite length_app in Hf. lia.
  - destruct Hw as (Hne & Hb & Hn & Hw).
    replace (fmt_print (SVar name :: segs))
      with (chr "$" :: chr "{" :: name ++ chr "}" :: fmt_print segs) in *
      by (unfold fmt_print; cbn; by rewrite <- app_assoc).
    destruct fuel as [|fuel]; cbn [length] in Hf; [lia|]. cbn [compile_arg].
    rewrite Ea. cbn [negb]. change (36 =? 36) with true. change (123 =? 123) with true.
    cbn iota. cbn [andb].
    assert (Hnb : beq (name ++ chr "}" :: fmt_print segs) [] = false) by (by destruct name).
    rewrite Hnb, scan_name_app by done.
    assert (Hnn : beq name [] = false) by (by destruct name). rewrite Hnn.
    destruct (compile_variable_denotes name (set_allocs a st) Hb Hne Ha1)
      as (st1 & op & -> & He & Hden).
    apply (Hrest fuel false st1 op); [done..|]. rewrite length_app in Hf. cbn in Hf. lia.
Qed.

(** C30: a format means what it says: a printed sequence of texts and bracketed
    variables compiles, when memory does not run out, to exactly one operation
    for each segment, which writes the text or reads the variable of that
    name. *)
Theorem compile_format_denotes segs st :
  wf_segs false segs -> no_oom st.(c_allocs) ->
  exists st' ops,
    ngx_new_log_compile_format [fmt_print segs] st = Some (NGX_CONF_OK, st') /\
    st'.(c_ops) = st.(c_ops) ++ ops /\
    Forall2 (op_denotes (default [] st'.(c_vars))) segs ops.
Proof.
  intros Hw Ha. cbn [ngx_new_log_compile_format].
  destruct (compile_print (length (fmt_print segs)) segs false st Hw Ha ltac:(lia))
    as (st' & ops & -> & (He & _) & Hall).
  by exists st', ops.
Qed.

(** ** Witnesses *)

Definition sample_segs : list segment :=
  [SVar (lit "remote_addr"); SText (lit " - ["); SVar (lit "time_local");
   SText (lit "] status "); SVar (lit "status")].

Definition empty_state : compile_state := CompileState [] (Some []) None [].

Definition sample_clock : log_clock :=
  LogClock 1404100000 7 (lit "28/Sep/1970:12:00:00 +0600") (lit "1970-09-28T12:00:00+06:00").

Definition sample_request : log_request := LogRequest false 1404099999 990 0 200 11 512 180 77.

Definition sample_handler (i : nat) (s : variable_value) : Z * variable_value :=
  (NGX_OK, VariableValue (lit "10.0.0.1") true false false).

Lemma sample_wf_segs : wf_segs false sample_segs.
Proof.
  cbn. repeat split; try done; try (repeat constructor; unfold is_byte; lia);
    intros H; repeat (apply elem_of_cons in H as [H|H]; [done|]); by apply elem_of_nil in H.
Qed.

Lemma compile_format_denotes_witness :
  exists st' ops,
    ngx_new_log_compile_format [fmt_print sample_segs] empty_state
      = Some (NGX_CONF_OK, st') /\
    st'.(c_ops) = [] ++ ops /\
    Forall2 (op_denotes (default [] st'.(c_vars))) sample_segs ops.
Proof.
  apply (compile_format_denotes sample_segs empty_state).
  - exact sample_wf_segs.
  - constructor.
Defined.

Lemma compile_format_wf_witness :
  exists res st', ngx_new_log_compile_format [lit "$a b"; lit "${x"] empty_state
    = Some (res, st') /\ wf_state st'.
Proof.
  apply (compile_format_wf [lit "$a b"; lit "${x"] empty_state).
  - repeat constructor; unfold is_byte; lia.
  - constructor.
Defined.

Lemma new_log_line_fits_witness :
  exists len vs' line,
    ops_len sample_handler [HttpVariable (lit "remote_addr") false]
      [NewLogOp 0 ngx_new_log_variable_getlen ngx_new_log_variable (DNum 0);
       NewLogOp 20 getlen_null ngx_new_log_status (DNum 0)]
      [VariableValue [] false false false] = Some (len, vs') /\
    ops_run sample_handler [HttpVariable (lit "remote_addr") false] sample_request sample_clock
      [NewLogOp 0 ngx_new_log_variable_getlen ngx_new_log_variable (DNum 0);
       NewLogOp 20 getlen_null ngx_new_log_status (DNum 0)] vs' = Some (line, vs') /\
    zlen line <= len.
Proof.
  apply (new_log_line_fits sample_handler).
  - intros i s s' [= <-]. reflexivity.
  - vm_compute. repeat split; discriminate.
  - constructor; [apply (wf_variable _ 0); cbn; lia|].
    constructor; [apply (wf_builtin _ (lit "status")); reflexivity|constructor].
  - reflexivity.
Defined.

(** The escaping meant for logged values is sound, although the module no
    longer calls it: the counting pass sizes the writing pass, and the output
    holds only printable ASCII characters other than the double quote. *)
Theorem new_log_escape_printable src :
  bytes src ->
  zlen (ngx_new_log_escape src) = zlen src + 3 * ngx_new_log_escape_count src /\
  Forall (fun c => 32 <= c < 127 /\ c <> 34) (ngx_new_log_escape src).
Proof.
  intros Hs. split.
  { unfold ngx_new_log_escape, ngx_new_log_escape_count. by rewrite esc_write_length. }
  unfold ngx_new_log_escape. induction Hs as [|c src Hc Hs IH]; [constructor|].
  cbn [esc_write].
  pose proof (byte_forall (fun c =>
    let ok x := (32 <=? x) && (x <? 127) && negb (x =? 34) in
    ok (hex_digit hex_upper (Z.shiftr c 4)) && ok (hex_digit hex_upper (Z.land c 0xf)) &&
    (esc_bit log_escape_map c || ok c)) ltac:(vm_compute; reflexivity) c Hc) as H.
  cbv beta zeta in H. rewrite !andb_true_iff, orb_true_iff, !andb_true_iff, !negb_true_iff in H.
  destruct (esc_bit log_escape_map c); cbn [app]; repeat (constructor; [lia|]); done.
Qed.

Lemma new_log_escape_printable_witness :
  ngx_new_log_escape (34 :: lit "a") = lit "\x22a" /\
  Forall (fun c => 32 <= c < 127 /\ c <> 34) (ngx_new_log_escape (34 :: lit "a")).
Proof.
  split; [reflexivity|]. apply (new_log_escape_printable (34 :: lit "a")).
  repeat constructor; unfold is_byte; lia.
Defined.
