(* ===== verification/NewLogClock.v ===== *)
(** * The clock of the access log

    The log module reads the cached time; what [NewLogFormat] asks of the clock
    holds of the cache at any moment after its first update. *)

From S2P Require Import Prelude NgxNumber NgxSprintf NgxTime HttpTime NgxTimes NgxVariables NewLogFormat.

(** [ngx_timeofday] and the texts, as the operations of a format read them. *)
Definition clock_of (st : times) : option log_clock :=
  match ngx_timeofday st, http_log_time_seen st, iso8601_seen st with
  | Some tp, Some log, Some iso => Some (LogClock tp.(sec) tp.(msec) log iso)
  | _, _, _ => None
  end.

Lemma clock_of_ok localtime_r s us es :
  local_ok localtime_r -> time_ok s -> 0 <= us < 1000000 -> Forall event_in_range es ->
  exists st t, times_run localtime_r times_init (Update false s us :: es) = Some st /\ clock_of st = Some t /\ clock_ok t.
Proof.
  intros Hl Hs Hus He. destruct (times_readable localtime_r s us es Hl Hs Hus He) as (st & tp & log & iso & E & E1 & Hms & E2 & H2 & E3 & H3).
  exists st, (LogClock tp.(sec) tp.(msec) log iso). unfold clock_of. by rewrite E1, E2, E3.
Qed.

(** C29: a log line that is written with the cached time fits. Whatever updates of
    the cache by the event loop and by signals came before, the clock can be
    read, and a line of well-formed operations written with it has at most the
    length measured for it. *)
Theorem cached_clock_line_fits localtime_r s us es gh vars ops vs r :
  local_ok localtime_r -> time_ok s -> 0 <= us < 1000000 -> Forall event_in_range es ->
  handler_fills gh -> Forall (wf_op (length vars)) ops -> length vs = length vars ->
  exists st t len vs' line,
    times_run localtime_r times_init (Update false s us :: es) = Some st /\ clock_of st = Some t /\
    ops_len gh vars ops vs = Some (len, vs') /\ ops_run gh vars r t ops vs' = Some (line, vs') /\ zlen line <= len.
Proof.
  intros Hl Hs Hus He Hh Hw Hv. destruct (clock_of_ok localtime_r s us es Hl Hs Hus He) as (st & t & E & Et & Ht).
  destruct (ops_len_run gh vars Hh t ops vs Ht Hw Hv) as (len & vs' & El & _ & _ & Hrun).
  destruct (Hrun vs' (fun _ _ => eq_refl) r t Ht) as (line & Er & Hle).
  by exists st, t, len, vs', line.
Qed.

(** The time of a request as 29/Feb/2000:12:34:56 +0000 in its line. *)
Lemma cached_clock_line_fits_witness :
  exists st t len vs' line,
    times_run gmt_localtime times_init [Update false 951827696 500000; SigUpdate false 951827699] = Some st /\ clock_of st = Some t /\
    ops_len sample_handler [] [NewLogOp 26 getlen_null ngx_new_log_time (DNum 0)] [] = Some (len, vs') /\
    ops_run sample_handler [] sample_request t [NewLogOp 26 getlen_null ngx_new_log_time (DNum 0)] vs' = Some (line, vs') /\ zlen line <= len.
Proof.
  apply (cached_clock_line_fits gmt_localtime); [apply gmt_localtime_ok|unfold time_ok; lia|lia| | | |reflexivity].
  - repeat constructor; unfold time_ok; lia.
  - intros i v v' [= <-]. reflexivity.
  - constructor; [apply (wf_builtin _ (lit "time_local")); reflexivity|constructor].
Defined.
