(* ===== verification/RdMsg.v ===== *)
(** * Producer queues of librdkafka ([rdkafka_msg.c], [rdkafka_msg.h],
      [rdkafka_topic.c])

    Messages, message queues, topics with their partitions, and the path of a
    message from [rd_kafka_produce] to a partition queue.  A queue is the list
    of its messages with the two counters the library keeps beside it; a topic
    owns its partitions ([rkt_p]), the unassigned partition ([rkt_ua]) and the
    desired partitions not seen on a broker ([rkt_desp]).  Locks and reference
    counts have no state here: every operation runs to its end with the locks
    the code takes. *)

From Stdlib Require Import Sorted.
From S2P Require Import Prelude.

(** ** Messages and queues *)

(** [rd_kafka_msg_t]; [rkm_len] is the length of [rkm_payload]. *)
Record kmsg := KMsg {
  rkm_flags : Z;
  rkm_payload : list Z;
  rkm_opaque : Z;
  rkm_partition : Z;
  rkm_key : option (list Z);
  rkm_ts_timeout : Z;
}.

Definition rkm_len (m : kmsg) : Z := zlen m.(rkm_payload).

(** A key may be null; its length is then 0. *)
Definition keylen (key : option (list Z)) : Z := zlen (default [] key).

Lemma keylen_nonneg key : 0 <= keylen key.
Proof. apply zlen_nonneg. Qed.

(** [rd_kafka_msgq_t]: [int] and [uint64_t] counters. *)
Record msgq := MsgQ {
  rkmq_msgs : list kmsg;
  rkmq_msg_cnt : Z;
  rkmq_msg_bytes : Z;
}.

Definition rd_kafka_msgq_init : msgq := MsgQ [] 0 0.

Definition rd_kafka_msgq_enq (q : msgq) (m : kmsg) : msgq :=
  MsgQ (q.(rkmq_msgs) ++ [m]) (s32 (q.(rkmq_msg_cnt) + 1))
    (u64 (q.(rkmq_msg_bytes) + rkm_len m)).

Definition rd_kafka_msgq_insert (q : msgq) (m : kmsg) : msgq :=
  MsgQ (m :: q.(rkmq_msgs)) (s32 (q.(rkmq_msg_cnt) + 1))
    (u64 (q.(rkmq_msg_bytes) + rkm_len m)).

(** [rd_kafka_msgq_concat]: the new [dst]; [src] becomes empty. *)
Definition rd_kafka_msgq_concat (dst src : msgq) : msgq :=
  MsgQ (dst.(rkmq_msgs) ++ src.(rkmq_msgs))
    (s32 (dst.(rkmq_msg_cnt) + src.(rkmq_msg_cnt)))
    (u64 (dst.(rkmq_msg_bytes) + src.(rkmq_msg_bytes))).

(** [rd_kafka_msgq_deq] of the first message, the one both callers remove:
    [None] when an assertion fails. *)
Definition rd_kafka_msgq_deq (q : msgq) (do_count : bool) : option (kmsg * msgq) :=
  match q.(rkmq_msgs) with
  | [] => None
  | m :: rest =>
      if do_count then
        if (0 <? q.(rkmq_msg_cnt)) && (rkm_len m <=? q.(rkmq_msg_bytes)) then
          Some (m, MsgQ rest (s32 (q.(rkmq_msg_cnt) - 1))
                     (u64 (q.(rkmq_msg_bytes) - rkm_len m)))
        else None
      else Some (m, MsgQ rest q.(rkmq_msg_cnt) q.(rkmq_msg_bytes))
  end.

(** [rd_kafka_msgq_pop]: [Some (None, q)] is the null message of an empty
    queue, [None] a failed assertion. *)
Definition rd_kafka_msgq_pop (q : msgq) : option (option kmsg * msgq) :=
  match q.(rkmq_msgs) with
  | [] => Some (None, q)
  | _ => match rd_kafka_msgq_deq q true with
         | Some (m, q') => Some (Some m, q')
         | None => None
         end
  end.

(** [rd_kafka_msgq_age_scan]: the queue, the [timedout] queue and the number of
    messages moved. *)
Fixpoint age_scan_loop (n : nat) (q timedout : msgq) (now : Z) : option (msgq * msgq) :=
  match n, q.(rkmq_msgs) with
  | S n', m :: _ =>
      if now <? m.(rkm_ts_timeout) then Some (q, timedout)
      else match rd_kafka_msgq_deq q true with
           | Some (m, q') => age_scan_loop n' q' (rd_kafka_msgq_enq timedout m) now
           | None => None
           end
  | _, _ => Some (q, timedout)
  end.

Definition rd_kafka_msgq_age_scan (q timedout : msgq) (now : Z) : option (msgq * msgq * Z) :=
  match age_scan_loop (length q.(rkmq_msgs)) q timedout now with
  | Some (q', t') => Some (q', t', s32 (t'.(rkmq_msg_cnt) - timedout.(rkmq_msg_cnt)))
  | None => None
  end.

(** ** Topics *)

Abbreviation RD_KAFKA_PARTITION_UA := (-1) (only parsing).

Inductive topic_state :=
  | RD_KAFKA_TOPIC_S_UNKNOWN
  | RD_KAFKA_TOPIC_S_EXISTS
  | RD_KAFKA_TOPIC_S_NOTEXISTS.

#[export] Instance topic_state_eq_dec : EqDecision topic_state.
Proof. solve_decision. Defined.

(** [rd_kafka_toppar_t]: the fields of the producer side. *)
Record toppar := TopPar {
  rktp_partition : Z;
  rktp_msgq : msgq;
  rktp_xmit_msgq : msgq;
  rktp_desired : bool;           (* RD_KAFKA_TOPPAR_F_DESIRED *)
  rktp_unknown : bool;           (* RD_KAFKA_TOPPAR_F_UNKNOWN *)
  rktp_leader : option Z;        (* the node id of the leading broker *)
  rktp_c_msgs : Z;               (* statistics counter rktp_c.msgs *)
}.

Definition with_msgq (tp : toppar) (q : msgq) : toppar :=
  TopPar tp.(rktp_partition) q tp.(rktp_xmit_msgq) tp.(rktp_desired)
    tp.(rktp_unknown) tp.(rktp_leader) tp.(rktp_c_msgs).

Definition with_flags (tp : toppar) (desired unknown : bool) : toppar :=
  TopPar tp.(rktp_partition) tp.(rktp_msgq) tp.(rktp_xmit_msgq) desired unknown
    tp.(rktp_leader) tp.(rktp_c_msgs).

Definition add_c_msgs (tp : toppar) (n : Z) : toppar :=
  TopPar tp.(rktp_partition) tp.(rktp_msgq) tp.(rktp_xmit_msgq) tp.(rktp_desired)
    tp.(rktp_unknown) tp.(rktp_leader) (u64 (tp.(rktp_c_msgs) + n)).

Definition rd_kafka_toppar_new (partition : Z) : toppar :=
  TopPar partition rd_kafka_msgq_init rd_kafka_msgq_init false false None 0.

Record topic := Topic {
  rkt_topic : list Z;
  rkt_state : topic_state;
  rkt_p : list toppar;
  rkt_ua : option toppar;
  rkt_desp : list toppar;
  message_timeout_ms : Z;
}.

Definition rkt_partition_cnt (rkt : topic) : Z := zlen rkt.(rkt_p).

Definition with_p (rkt : topic) (p : list toppar) : topic :=
  Topic rkt.(rkt_topic) rkt.(rkt_state) p rkt.(rkt_ua) rkt.(rkt_desp) rkt.(message_timeout_ms).

Definition with_ua (rkt : topic) (ua : option toppar) : topic :=
  Topic rkt.(rkt_topic) rkt.(rkt_state) rkt.(rkt_p) ua rkt.(rkt_desp) rkt.(message_timeout_ms).

Definition with_desp (rkt : topic) (desp : list toppar) : topic :=
  Topic rkt.(rkt_topic) rkt.(rkt_state) rkt.(rkt_p) rkt.(rkt_ua) desp rkt.(message_timeout_ms).

Definition with_state (rkt : topic) (s : topic_state) : topic :=
  Topic rkt.(rkt_topic) s rkt.(rkt_p) rkt.(rkt_ua) rkt.(rkt_desp) rkt.(message_timeout_ms).

(** [rd_kafka_topic_set_state]. *)
Definition rd_kafka_topic_set_state (rkt : topic) (s : topic_state) : topic :=
  if decide (rkt.(rkt_state) = s) then rkt else with_state rkt s.

(** A partition of the topic, as [rd_kafka_toppar_get] finds it. *)
Inductive tploc :=
  | LPart (i : nat)
  | LUA.

Definition rd_kafka_toppar_get (rkt : topic) (partition : Z) (ua_on_miss : bool)
  : option tploc :=
  if (0 <=? partition) && (partition <? rkt_partition_cnt rkt)
  then Some (LPart (Z.to_nat partition))
  else if (partition =? RD_KAFKA_PARTITION_UA) || ua_on_miss
  then match rkt.(rkt_ua) with Some _ => Some LUA | None => None end
  else None.

(** Change the partition found. *)
Definition update_toppar (f : toppar -> toppar) (l : tploc) (rkt : topic) : topic :=
  match l with
  | LPart i => with_p rkt (alter f i rkt.(rkt_p))
  | LUA => with_ua rkt (f <$> rkt.(rkt_ua))
  end.

Definition lookup_toppar (l : tploc) (rkt : topic) : option toppar :=
  match l with
  | LPart i => rkt.(rkt_p) !! i
  | LUA => rkt.(rkt_ua)
  end.

Definition rd_kafka_toppar_enq_msg (m : kmsg) (tp : toppar) : toppar :=
  with_msgq tp (rd_kafka_msgq_enq tp.(rktp_msgq) m).

Definition rd_kafka_toppar_insert_msg (m : kmsg) (tp : toppar) : toppar :=
  with_msgq tp (rd_kafka_msgq_insert tp.(rktp_msgq) m).

Definition rd_kafka_toppar_concat_msgq (q : msgq) (tp : toppar) : toppar :=
  with_msgq tp (rd_kafka_msgq_concat tp.(rktp_msgq) q).

(** [rd_kafka_toppar_insert_msgq]: the partition's queue is appended to [q]
    and the result moved back. *)
Definition rd_kafka_toppar_insert_msgq (q : msgq) (tp : toppar) : toppar :=
  with_msgq tp (rd_kafka_msgq_concat q tp.(rktp_msgq)).

(** [rd_kafka_toppar_ua_move]: 0 or -1, and the topic. *)
Definition rd_kafka_toppar_ua_move (rkt : topic) (q : msgq) : Z * topic :=
  match rd_kafka_toppar_get rkt RD_KAFKA_PARTITION_UA false with
  | None => (-1, rkt)
  | Some l => (0, update_toppar (rd_kafka_toppar_concat_msgq q) l rkt)
  end.

(** [rd_kafka_topic_partition_available]. *)
Definition rd_kafka_topic_partition_available (rkt : topic) (partition : Z) : bool :=
  match rd_kafka_toppar_get rkt partition false with
  | None => false
  | Some l => match lookup_toppar l rkt with Some tp => bool_decide (is_Some tp.(rktp_leader)) | None => false end
  end.

(** ** Desired partitions *)

Fixpoint find_desired (partition : Z) (l : list toppar) : option toppar :=
  match l with
  | [] => None
  | tp :: l' => if tp.(rktp_partition) =? partition then Some tp else find_desired partition l'
  end.

Definition rd_kafka_toppar_desired_get (rkt : topic) (partition : Z) : option toppar :=
  find_desired partition rkt.(rkt_desp).

(** [TAILQ_REMOVE] of the first desired toppar of that partition. *)
Fixpoint remove_desired (partition : Z) (l : list toppar) : list toppar :=
  match l with
  | [] => []
  | tp :: l' =>
      if tp.(rktp_partition) =? partition then l' else tp :: remove_desired partition l'
  end.

(** [rd_kafka_toppar_desired_add]: the topic with the partition marked or
    added. *)
Definition rd_kafka_toppar_desired_add (rkt : topic) (partition : Z) : topic :=
  match rd_kafka_toppar_get rkt partition false with
  | Some l => update_toppar (fun tp => with_flags tp true tp.(rktp_unknown)) l rkt
  | None =>
      match rd_kafka_toppar_desired_get rkt partition with
      | Some _ => rkt
      | None =>
          with_desp rkt
            (rkt.(rkt_desp) ++ [with_flags (rd_kafka_toppar_new partition) true true])
      end
  end.

(** ** The instance *)

(** The producer side of [rd_kafka_t]. [rk_dr] is whether a delivery report
    callback is set; [rk_rep] holds the delivery reports for the
    application. *)
Record rdkafka := RdKafka {
  rk_msg_cnt : Z;                  (* rk_producer.msg_cnt, int *)
  queue_buffering_max_msgs : Z;
  max_msg_size : Z;
  rk_dr : bool;
  rk_rep : list (Z * msgq);
}.

Definition with_cnt (rk : rdkafka) (n : Z) : rdkafka :=
  RdKafka n rk.(queue_buffering_max_msgs) rk.(max_msg_size) rk.(rk_dr) rk.(rk_rep).

Definition with_rep (rk : rdkafka) (rep : list (Z * msgq)) : rdkafka :=
  RdKafka rk.(rk_msg_cnt) rk.(queue_buffering_max_msgs) rk.(max_msg_size) rk.(rk_dr) rep.

(** [rd_kafka_msg_destroy]: [None] when [msg_cnt > 0] does not hold. *)
Definition rd_kafka_msg_destroy (rk : rdkafka) : option rdkafka :=
  if 0 <? rk.(rk_msg_cnt) then Some (with_cnt rk (s32 (rk.(rk_msg_cnt) - 1))) else None.

Fixpoint destroy_msgs (rk : rdkafka) (l : list kmsg) : option rdkafka :=
  match l with
  | [] => Some rk
  | _ :: l' =>
      match rd_kafka_msg_destroy rk with
      | Some rk => destroy_msgs rk l'
      | None => None
      end
  end.

Definition rd_kafka_msgq_purge (rk : rdkafka) (q : msgq) : option rdkafka :=
  destroy_msgs rk q.(rkmq_msgs).

(** [rd_kafka_dr_msgq] (rdkafka_broker.c): hand the messages over in one report
    or destroy them. *)
Definition rd_kafka_dr_msgq (rk : rdkafka) (q : msgq) (err : Z) : option rdkafka :=
  if rk.(rk_dr) then
    Some (with_rep rk (rk.(rk_rep) ++ [(err, q)]))
  else rd_kafka_msgq_purge rk q.

(** ** Producing *)

Abbreviation RD_KAFKA_RESP_ERR__UNKNOWN_PARTITION := (-190) (only parsing).
Abbreviation RD_KAFKA_RESP_ERR__UNKNOWN_TOPIC := (-188) (only parsing).
Abbreviation RD_KAFKA_RESP_ERR__QUEUE_FULL := (-184) (only parsing).
Abbreviation RD_KAFKA_RESP_ERR_MSG_SIZE_TOO_LARGE := 10 (only parsing).

Inductive errno := ENOBUFS | EMSGSIZE | ESRCH | ENOENT | EINVAL.

#[export] Instance errno_eq_dec : EqDecision errno.
Proof. solve_decision. Defined.

(** [rd_kafka_msg_new0]: a message of the payload, [None] when it is too
    large.  With [RD_KAFKA_MSG_F_COPY] (bit 1) the payload is copied and the
    [RD_KAFKA_MSG_F_FREE] bit (bit 0) cleared. *)
Definition rd_kafka_msg_new0 (rk : rdkafka) (rkt : topic) (force_partition msgflags : Z)
    (payload : list Z) (key : option (list Z)) (msg_opaque now : Z) : option kmsg :=
  if u64 rk.(max_msg_size) <? u64 (zlen payload + keylen key) then None
  else
    let msgflags := if Z.testbit msgflags 1 then Z.clearbit msgflags 0 else msgflags in
    let timeout :=
      if rkt.(message_timeout_ms) =? 0 then 2 ^ 63 - 1
      else s64 (now + s32 (rkt.(message_timeout_ms) * 1000)) in
    Some (KMsg msgflags payload msg_opaque force_partition key timeout).

Section partitioner.
(** The configured partitioner: topic, key, partition count, opaque. *)
Context (partitioner : topic -> list Z -> Z -> Z -> Z).

(** [rd_kafka_msg_partitioner]: the error (0 for none) and the topic. *)
Definition choose_partition (rkt : topic) (m : kmsg) : Z + Z :=
  match rkt.(rkt_state) with
  | RD_KAFKA_TOPIC_S_UNKNOWN => inr RD_KAFKA_PARTITION_UA
  | RD_KAFKA_TOPIC_S_NOTEXISTS => inl RD_KAFKA_RESP_ERR__UNKNOWN_TOPIC
  | RD_KAFKA_TOPIC_S_EXISTS =>
      if rkt_partition_cnt rkt =? 0 then inr RD_KAFKA_PARTITION_UA
      else
        let partition :=
          if m.(rkm_partition) =? RD_KAFKA_PARTITION_UA
          then partitioner rkt (default [] m.(rkm_key)) (rkt_partition_cnt rkt) m.(rkm_opaque)
          else m.(rkm_partition) in
        if rkt_partition_cnt rkt <=? partition
        then inl RD_KAFKA_RESP_ERR__UNKNOWN_PARTITION
        else inr partition
  end.

Definition rd_kafka_msg_partitioner (rkt : topic) (m : kmsg) : Z * topic :=
  match choose_partition rkt m with
  | inl err => (err, rkt)
  | inr partition =>
      match rd_kafka_toppar_get rkt partition false with
      | None =>
          (if decide (rkt.(rkt_state) = RD_KAFKA_TOPIC_S_NOTEXISTS)
           then RD_KAFKA_RESP_ERR__UNKNOWN_TOPIC
           else RD_KAFKA_RESP_ERR__UNKNOWN_PARTITION, rkt)
      | Some l =>
          (0, update_toppar (fun tp => rd_kafka_toppar_enq_msg m (add_c_msgs tp 1)) l rkt)
      end
  end.

(** [rd_kafka_msg_new]: [inl errno] for -1, with the instance and the topic
    after the call; [None] when an assertion fails. *)
Definition rd_kafka_msg_new (rk : rdkafka) (rkt : topic) (force_partition msgflags : Z)
    (payload : list Z) (key : option (list Z)) (msg_opaque now : Z)
  : option (option errno * rdkafka * topic) :=
  let cnt := s32 (rk.(rk_msg_cnt) + 1) in
  let rk := with_cnt rk cnt in
  if rk.(queue_buffering_max_msgs) <? cnt then
    Some (Some ENOBUFS, with_cnt rk (s32 (cnt - 1)), rkt)
  else
    match rd_kafka_msg_new0 rk rkt force_partition msgflags payload key msg_opaque now with
    | None => Some (Some EMSGSIZE, with_cnt rk (s32 (cnt - 1)), rkt)
    | Some m =>
        let (err, rkt') := rd_kafka_msg_partitioner rkt m in
        if err =? 0 then Some (None, rk, rkt')
        else
          match rd_kafka_msg_destroy rk with
          | None => None
          | Some rk =>
              Some (Some (if err =? RD_KAFKA_RESP_ERR__UNKNOWN_PARTITION then ESRCH
                          else if err =? RD_KAFKA_RESP_ERR__UNKNOWN_TOPIC then ENOENT
                          else EINVAL), rk, rkt')
          end
    end.

(** [rd_kafka_produce] (rdkafka.c). *)
Definition rd_kafka_produce := rd_kafka_msg_new.
End partitioner.

(** ** The default partitioner *)

(** [rd_jitter] on the next value of [rand()]. *)
Definition rd_jitter (rand low high : Z) : Z := low + Z.rem rand (high + 1).

(** [rd_kafka_msg_partitioner_random] on the next two values of [rand()]. *)
Definition rd_kafka_msg_partitioner_random (rand1 rand2 : Z) (rkt : topic) (key : list Z)
    (partition_cnt msg_opaque : Z) : Z :=
  let p := rd_jitter rand1 0 (partition_cnt - 1) in
  if negb (rd_kafka_topic_partition_available rkt p)
  then rd_jitter rand2 0 (partition_cnt - 1)
  else p.

(** ** Batches *)

(** [rd_kafka_toppar_get_avail]: the partition or the error. *)
Definition rd_kafka_toppar_get_avail (rkt : topic) (partition : Z) : Z + tploc :=
  let found (partition : Z) : Z + tploc :=
    match rd_kafka_toppar_get rkt partition false with
    | Some l => inr l
    | None =>
        inl (if decide (rkt.(rkt_state) = RD_KAFKA_TOPIC_S_NOTEXISTS)
             then RD_KAFKA_RESP_ERR__UNKNOWN_TOPIC
             else RD_KAFKA_RESP_ERR__UNKNOWN_PARTITION)
    end in
  match rkt.(rkt_state) with
  | RD_KAFKA_TOPIC_S_UNKNOWN => found RD_KAFKA_PARTITION_UA
  | RD_KAFKA_TOPIC_S_NOTEXISTS => inl RD_KAFKA_RESP_ERR__UNKNOWN_TOPIC
  | RD_KAFKA_TOPIC_S_EXISTS =>
      if rkt_partition_cnt rkt =? 0 then found RD_KAFKA_PARTITION_UA
      else if rkt_partition_cnt rkt <=? partition
      then inl RD_KAFKA_RESP_ERR__UNKNOWN_PARTITION
      else found partition
  end.

(** What the loop of [rd_kafka_produce_batch] changes. *)
Record batch_state := BatchState {
  b_rk : rdkafka;
  b_rkt : topic;
  b_tmpq : msgq;
  b_good : Z;
  b_all_err : Z;
  b_errs : list Z;                 (* rkmessages[i].err, in order *)
}.

(** An [rd_kafka_message_t] of the application: payload, key, [_private]. *)
Definition in_msg : Type := list Z * option (list Z) * Z.

Section batch.
Context (partitioner : topic -> list Z -> Z -> Z -> Z).

Definition batch_step (partition msgflags now : Z) (s : batch_state) (im : in_msg)
  : option batch_state :=
  let '(payload, key, priv) := im in
  let rk := s.(b_rk) in
  let fail all_err err :=
    Some (BatchState rk s.(b_rkt) s.(b_tmpq) s.(b_good) all_err (s.(b_errs) ++ [err])) in
  if negb (s.(b_all_err) =? 0) then fail s.(b_all_err) s.(b_all_err)
  else if rk.(queue_buffering_max_msgs) <?
          s32 (rk.(rk_msg_cnt) +
               (if partition =? RD_KAFKA_PARTITION_UA then 0 else s.(b_good)) + 1)
  then fail RD_KAFKA_RESP_ERR__QUEUE_FULL RD_KAFKA_RESP_ERR__QUEUE_FULL
  else
    match rd_kafka_msg_new0 rk s.(b_rkt) partition msgflags payload key priv now with
    | None => fail 0 RD_KAFKA_RESP_ERR_MSG_SIZE_TOO_LARGE
    | Some m =>
        if partition =? RD_KAFKA_PARTITION_UA then
          let rk := with_cnt rk (s32 (rk.(rk_msg_cnt) + 1)) in
          let (err, rkt) := rd_kafka_msg_partitioner partitioner s.(b_rkt) m in
          if err =? 0 then
            Some (BatchState rk rkt s.(b_tmpq) (s.(b_good) + 1) 0 (s.(b_errs) ++ [0]))
          else
            match rd_kafka_msg_destroy rk with
            | None => None
            | Some rk =>
                Some (BatchState rk rkt s.(b_tmpq) s.(b_good) 0 (s.(b_errs) ++ [err]))
            end
        else
          Some (BatchState rk s.(b_rkt) (rd_kafka_msgq_enq s.(b_tmpq) m)
                  (s.(b_good) + 1) 0 (s.(b_errs) ++ [0]))
    end.

Fixpoint batch_loop (partition msgflags now : Z) (s : batch_state) (l : list in_msg)
  : option batch_state :=
  match l with
  | [] => Some s
  | im :: l' =>
      match batch_step partition msgflags now s im with
      | Some s' => batch_loop partition msgflags now s' l'
      | None => None
      end
  end.

(** [rd_kafka_produce_batch]: the number of messages queued, their errors, the
    instance and the topic. *)
Definition rd_kafka_produce_batch (rk : rdkafka) (rkt : topic) (partition msgflags : Z)
    (rkmessages : list in_msg) (now : Z) : option (Z * list Z * rdkafka * topic) :=
  let dst :=
    if partition =? RD_KAFKA_PARTITION_UA then inl 0
    else rd_kafka_toppar_get_avail rkt partition in
  let all_err := match dst with inl e => e | inr _ => 0 end in
  match batch_loop partition msgflags now
          (BatchState rk rkt rd_kafka_msgq_init 0 all_err []) rkmessages with
  | None => None
  | Some s =>
      match dst with
      | inl _ => Some (s.(b_good), s.(b_errs), s.(b_rk), s.(b_rkt))
      | inr l =>
          let rk := if 0 <? s.(b_good)
                    then with_cnt s.(b_rk) (s32 (s.(b_rk).(rk_msg_cnt) + s.(b_good)))
                    else s.(b_rk) in
          Some (s.(b_good), s.(b_errs), rk,
                update_toppar (fun tp =>
                  rd_kafka_toppar_concat_msgq s.(b_tmpq) (add_c_msgs tp s.(b_good)))
                  l s.(b_rkt))
      end
  end.
End batch.

(** ** Delivery reports *)

(** What the application sees of one message: payload, error, opaque. *)
Definition report : Type := list Z * Z * Z.

(** [rd_kafka_poll_cb] on a delivery report: the callbacks made, and the
    instance with the messages destroyed. *)
Fixpoint dr_serve (rk : rdkafka) (err : Z) (l : list kmsg) : option (list report * rdkafka) :=
  match l with
  | [] => Some ([], rk)
  | m :: l' =>
      match rd_kafka_msg_destroy rk with
      | None => None
      | Some rk =>
          match dr_serve rk err l' with
          | Some (rs, rk) => Some ((m.(rkm_payload), err, m.(rkm_opaque)) :: rs, rk)
          | None => None
          end
      end
  end.

(** The served operations, in order ([rd_kafka_q_serve] on the local queue). *)
Fixpoint serve_reports (rk : rdkafka) (l : list (Z * msgq)) : option (list report * rdkafka) :=
  match l with
  | [] => Some ([], rk)
  | (err, q) :: l' =>
      match dr_serve rk err q.(rkmq_msgs) with
      | None => None
      | Some (rs, rk) =>
          match serve_reports rk l' with
          | Some (rs', rk) => Some (rs ++ rs', rk)
          | None => None
          end
      end
  end.

(** [rd_kafka_poll]: every report waiting is moved off [rk_rep] and served; the
    number of operations, the callbacks made and the instance. *)
Definition rd_kafka_poll (rk : rdkafka) : option (Z * list report * rdkafka) :=
  match serve_reports (with_rep rk []) rk.(rk_rep) with
  | Some (rs, rk') => Some (zlen rk.(rk_rep), rs, rk')
  | None => None
  end.

(** ** The counters of a queue *)

Fixpoint total_len (l : list kmsg) : Z :=
  match l with
  | [] => 0
  | m :: l' => rkm_len m + total_len l'
  end.

(** The counters are the number of messages and of payload bytes, at the width
    of the counters. *)
Definition wfq (q : msgq) : Prop :=
  q.(rkmq_msg_cnt) = s32 (zlen q.(rkmq_msgs)) /\
  q.(rkmq_msg_bytes) = u64 (total_len q.(rkmq_msgs)).

(** Few enough messages for the counters not to wrap around. *)
Definition smallq (l : list kmsg) : Prop := zlen l < 2 ^ 31 /\ total_len l < 2 ^ 64.

Lemma rkm_len_nonneg m : 0 <= rkm_len m.
Proof. apply zlen_nonneg. Qed.

Lemma total_len_nonneg l : 0 <= total_len l.
Proof. induction l as [|m l IH]; cbn; [lia|]. pose proof (rkm_len_nonneg m). lia. Qed.

Lemma total_len_app l k : total_len (l ++ k) = total_len l + total_len k.
Proof. induction l as [|m l IH]; cbn; [lia|]. rewrite IH. lia. Qed.

#[export] Hint Rewrite total_len_app : ngx.

Lemma wfq_init : wfq rd_kafka_msgq_init.
Proof. done. Qed.

Lemma wfq_concat dst src : wfq dst -> wfq src -> wfq (rd_kafka_msgq_concat dst src).
Proof.
  intros [H1 H2] [H3 H4].
  split; cbn; rewrite ?H1, ?H2, ?H3, ?H4; autorewrite with ngx; done.
Qed.

Lemma wfq_enq q m : wfq q -> wfq (rd_kafka_msgq_enq q m).
Proof.
  intros [H1 H2]. split; cbn; rewrite ?H1, ?H2; autorewrite with ngx; cbn; [done|].
  f_equal. lia.
Qed.

Lemma wfq_insert q m : wfq q -> wfq (rd_kafka_msgq_insert q m).
Proof.
  intros [H1 H2]. split; cbn; rewrite ?H1, ?H2; autorewrite with ngx; f_equal; lia.
Qed.

#[export] Hint Resolve wfq_init wfq_concat wfq_enq wfq_insert : ngx.

(** On a well-formed queue the assertions of [rd_kafka_msgq_deq] hold. *)
Lemma deq_ok q m rest :
  wfq q -> smallq q.(rkmq_msgs) -> q.(rkmq_msgs) = m :: rest ->
  exists q', rd_kafka_msgq_deq q true = Some (m, q') /\ q'.(rkmq_msgs) = rest /\ wfq q'.
Proof.
  intros [H1 H2] [H3 H4] E. unfold rd_kafka_msgq_deq. rewrite E in *.
  pose proof (total_len_nonneg rest). pose proof (rkm_len_nonneg m).
  pose proof (zlen_nonneg rest). cbn [total_len] in *.
  rewrite zlen_cons in *. rewrite s32_small in H1 by lia. rewrite u64_small in H2 by lia.
  rewrite (proj2 (Z.ltb_lt _ _)), (proj2 (Z.leb_le _ _)) by lia. cbn.
  eexists. split; [done|]. split; [done|].
  unfold wfq; cbn. rewrite H1, H2. split; f_equal; lia.
Qed.

(** ** Timeouts *)

Definition expired (now : Z) (m : kmsg) : Prop := m.(rkm_ts_timeout) <= now.

Lemma smallq_tail m l : smallq (m :: l) -> smallq l.
Proof.
  intros [H1 H2]. rewrite zlen_cons in H1. cbn in H2. pose proof (rkm_len_nonneg m).
  split; lia.
Qed.

Lemma age_scan_loop_spec n q t now :
  wfq q -> wfq t -> smallq q.(rkmq_msgs) -> (length q.(rkmq_msgs) <= n)%nat ->
  exists pre q' t', age_scan_loop n q t now = Some (q', t') /\ wfq q' /\ wfq t' /\
    q.(rkmq_msgs) = pre ++ q'.(rkmq_msgs) /\ t'.(rkmq_msgs) = t.(rkmq_msgs) ++ pre /\
    Forall (expired now) pre /\
    match q'.(rkmq_msgs) with [] => True | m :: _ => ~ expired now m end.
Proof.
  revert q t. induction n as [|n IH]; intros q t Hq Ht Hs Hn.
  all: destruct (rkmq_msgs q) as [|m rest] eqn:E;
    [exists [], q, t; cbn; rewrite E, app_nil_r; split_and!; auto|].
  { cbn in Hn. lia. }
  cbn [age_scan_loop]. rewrite E.
  destruct (Z.ltb_spec now (rkm_ts_timeout m)).
  { exists [], q, t. rewrite E, app_nil_r. unfold expired.
    split_and!; auto. lia. }
  rewrite <- E in Hs. destruct (deq_ok _ _ _ Hq Hs E) as (q' & -> & Eq & Hq').
  rewrite E in Hs. destruct (IH q' (rd_kafka_msgq_enq t m)) as
    (pre & q2 & t2 & -> & Hq2 & Ht2 & E2 & Et & Hpre & Hhd); auto with ngx.
  { rewrite Eq. by eapply smallq_tail. }
  { rewrite Eq. cbn in Hn. lia. }
  exists (m :: pre), q2, t2. cbn in Et. rewrite Et, <- app_assoc, <- Eq, E2.
  split_and!; auto.
Qed.

(** The timeout scan splits a queue at its first message that has not
    expired: no assertion fails, what it moves is exactly the expired prefix, in
    order, at the tail of [timedout], what it keeps starts with an unexpired
    message, both queues keep true counters, and the answer is the number of
    messages moved. If the queue is in order of timeout, no expired message
    stays behind. *)
Theorem age_scan_splits q t now :
  wfq q -> wfq t -> smallq (t.(rkmq_msgs) ++ q.(rkmq_msgs)) ->
  exists pre q' t',
    rd_kafka_msgq_age_scan q t now = Some (q', t', zlen pre) /\ wfq q' /\ wfq t' /\
    q.(rkmq_msgs) = pre ++ q'.(rkmq_msgs) /\ t'.(rkmq_msgs) = t.(rkmq_msgs) ++ pre /\
    Forall (expired now) pre /\
    (StronglySorted Z.le (map rkm_ts_timeout q.(rkmq_msgs)) ->
     Forall (fun m => ~ expired now m) q'.(rkmq_msgs)).
Proof.
  intros Hq Ht Hs. assert (Hsq : smallq q.(rkmq_msgs)).
  { destruct Hs as [H1 H2]. autorewrite with ngx in *.
    pose proof (zlen_nonneg t.(rkmq_msgs)). pose proof (total_len_nonneg t.(rkmq_msgs)).
    split; lia. }
  destruct (age_scan_loop_spec (length q.(rkmq_msgs)) q t now Hq Ht Hsq) as
    (pre & q' & t' & E & Hq' & Ht' & Eq & Et & Hpre & Hhd); [done|].
  exists pre, q', t'. unfold rd_kafka_msgq_age_scan. rewrite E.
  destruct Ht as [Hc _], Ht' as [Hc' Hb']. split_and!; auto.
  - do 2 f_equal. rewrite Hc, Hc', Et. destruct Hs as [Hs _]. rewrite Eq in Hs.
    autorewrite with ngx in *. pose proof (zlen_nonneg t.(rkmq_msgs)).
    pose proof (zlen_nonneg pre). pose proof (zlen_nonneg q'.(rkmq_msgs)).
    rewrite (s32_small (zlen (rkmq_msgs t))), s32_small; lia.
  - by split.
  - rewrite Eq, map_app. intros Hsort.
    destruct q'.(rkmq_msgs) as [|m rest]; [constructor|].
    assert (Hsm : StronglySorted Z.le (map rkm_ts_timeout (m :: rest))).
    { clear -Hsort. induction pre as [|x pre IH]; [done|]. inversion Hsort; subst. auto. }
    inversion Hsm as [|? ? ? Hle]; subst. constructor; [done|].
    rewrite Forall_map in Hle. eapply Forall_impl; [exact Hle|].
    unfold expired in *. cbn. intros m'. lia.
Qed.

Definition sample_msg (ts : Z) : kmsg := KMsg 0 [1; 2; 3] 0 RD_KAFKA_PARTITION_UA None ts.

Lemma age_scan_splits_witness :
  exists q' t',
    rd_kafka_msgq_age_scan (MsgQ [sample_msg 10; sample_msg 20; sample_msg 30] 3 9)
      (MsgQ [sample_msg 5] 1 3) 20 = Some (q', t', 2) /\
    q'.(rkmq_msgs) = [sample_msg 30].
Proof.
  destruct (age_scan_splits (MsgQ [sample_msg 10; sample_msg 20; sample_msg 30] 3 9)
              (MsgQ [sample_msg 5] 1 3) 20) as (pre & q' & t' & E & _ & _ & Eq & _);
    [done | done | done |].
  vm_compute in E. injection E as <- <- Hn. vm_compute. eauto.
Defined.

(** ** Producing one message *)

(** Every message waiting in a topic. *)
Definition toppar_msgs (tp : toppar) : list kmsg := tp.(rktp_msgq).(rkmq_msgs).

Definition all_toppars (rkt : topic) : list toppar :=
  rkt.(rkt_p) ++ option_list rkt.(rkt_ua) ++ rkt.(rkt_desp).

Definition topic_msgs (rkt : topic) : list kmsg := concat (map toppar_msgs (all_toppars rkt)).

(** A queue of the producer within its limits. *)
Definition rk_ok (rk : rdkafka) : Prop :=
  0 <= rk.(rk_msg_cnt) <= rk.(queue_buffering_max_msgs) /\
  rk.(queue_buffering_max_msgs) <= 10000000 /\
  1000 <= rk.(max_msg_size) <= 1000000000.

Lemma toppar_get_lookup rkt partition ua l :
  rd_kafka_toppar_get rkt partition ua = Some l -> exists tp, lookup_toppar l rkt = Some tp.
Proof.
  unfold rd_kafka_toppar_get, rkt_partition_cnt, zlen.
  destruct (Z.leb_spec 0 partition), (Z.ltb_spec partition (Z.of_nat (length rkt.(rkt_p))));
    cbn [andb]; intros H1.
  1: { injection H1 as <-. cbn. apply lookup_lt_is_Some. lia. }
  all: destruct (_ || ua); [|done]; destruct (rkt_ua rkt) eqn:E; [|done];
    injection H1 as <-; cbn; eauto.
Qed.

(** Appending to one partition adds to the messages of the topic. *)
Lemma update_toppar_msgs f l rkt tp ms :
  lookup_toppar l rkt = Some tp ->
  Permutation (toppar_msgs (f tp)) (ms ++ toppar_msgs tp) ->
  Permutation (topic_msgs (update_toppar f l rkt)) (ms ++ topic_msgs rkt).
Proof.
  unfold topic_msgs, all_toppars. destruct l as [i|]; cbn; intros Hl Hp.
  - destruct (alter_middle f _ _ _ Hl) as (l1 & l2 & -> & _ & ->).
    rewrite !map_app, !concat_app. cbn. rewrite Hp. solve_Permutation.
  - rewrite Hl. cbn. rewrite !map_app, !concat_app. cbn. rewrite Hp. solve_Permutation.
Qed.

(** Every queue of the topic has true counters. *)
Definition wf_toppar (tp : toppar) : Prop := wfq tp.(rktp_msgq) /\ wfq tp.(rktp_xmit_msgq).

Definition wf_topic (rkt : topic) : Prop := Forall wf_toppar (all_toppars rkt).

Lemma wf_topic_update f l rkt :
  (forall tp, wf_toppar tp -> wf_toppar (f tp)) -> wf_topic rkt -> wf_topic (update_toppar f l rkt).
Proof.
  intros Hf. unfold wf_topic, all_toppars. rewrite !Forall_app. intros (Hp & Hu & Hd).
  destruct l as [i|]; cbn; split_and!; auto.
  - apply Forall_alter; [done|]. intros x _. apply Hf.
  - destruct (rkt_ua rkt); cbn; [|constructor]. inversion Hu; subst. constructor; auto.
Qed.

Lemma lookup_update_toppar f l rkt tp :
  lookup_toppar l rkt = Some tp -> lookup_toppar l (update_toppar f l rkt) = Some (f tp).
Proof.
  destruct l as [i|]; cbn; intros H; [|by rewrite H].
  rewrite list_lookup_alter_eq, H. done.
Qed.

(** The message is at the tail of the queue at [l], and nothing else of the
    topic changed but that partition. *)
Definition queued_at (l : tploc) (m : kmsg) (rkt rkt' : topic) : Prop :=
  exists tp tp', lookup_toppar l rkt = Some tp /\ lookup_toppar l rkt' = Some tp' /\
    rkt' = update_toppar (fun _ => tp') l rkt /\
    toppar_msgs tp' = toppar_msgs tp ++ [m].

Definition queued (m : kmsg) (rkt rkt' : topic) : Prop := exists l, queued_at l m rkt rkt'.

(** The topic has the partition: one of its numbered ones, or the unassigned
    one. *)
Definition has_partition (rkt : topic) (p : Z) : bool :=
  ((0 <=? p) && (p <? zlen rkt.(rkt_p))) ||
  ((p =? RD_KAFKA_PARTITION_UA) && bool_decide (is_Some rkt.(rkt_ua))).

Definition partition_at (p : Z) : tploc :=
  if p =? RD_KAFKA_PARTITION_UA then LUA else LPart (Z.to_nat p).

Lemma toppar_get_has rkt p :
  rd_kafka_toppar_get rkt p false = if has_partition rkt p then Some (partition_at p) else None.
Proof.
  unfold rd_kafka_toppar_get, has_partition, partition_at, rkt_partition_cnt.
  destruct (Z.leb_spec 0 p); [destruct (p <? _)|]; cbn [andb orb];
    destruct (Z.eqb_spec p RD_KAFKA_PARTITION_UA); try lia; try done;
    cbn; by destruct (rkt_ua rkt).
Qed.

Lemma update_toppar_const f l rkt tp :
  lookup_toppar l rkt = Some tp -> update_toppar f l rkt = update_toppar (fun _ => f tp) l rkt.
Proof.
  destruct l as [i|]; cbn; intros H; [|by rewrite H]. f_equal.
  destruct (alter_middle f _ _ _ H) as (l1 & l2 & -> & <- & ->).
  rewrite <- (Nat.add_0_r (length l1)), alter_app_r. done.
Qed.

Lemma queued_perm m rkt rkt' :
  queued m rkt rkt' -> Permutation (topic_msgs rkt') (m :: topic_msgs rkt).
Proof.
  intros (l & tp & tp' & Hl & _ & -> & Hm). apply (update_toppar_msgs _ _ _ tp [m] Hl).
  rewrite Hm. solve_Permutation.
Qed.

Lemma has_partition_queue rkt p :
  has_partition rkt p = true -> is_Some (lookup_toppar (partition_at p) rkt).
Proof.
  intros H. destruct (toppar_get_lookup rkt p false (partition_at p)) as [tp Htp]; [|by exists tp].
  by rewrite toppar_get_has, H.
Qed.

Lemma has_partition_false rkt p :
  has_partition rkt p = false ->
  ~ (0 <= p < zlen rkt.(rkt_p)) /\ (p = RD_KAFKA_PARTITION_UA -> rkt.(rkt_ua) = None).
Proof.
  unfold has_partition. intros [H1 H2]%orb_false_iff. split.
  - intros [Ha Hb]. rewrite (proj2 (Z.leb_le _ _) Ha), (proj2 (Z.ltb_lt _ _) Hb) in H1. done.
  - intros ->. destruct (rkt_ua rkt); [discriminate H2|done].
Qed.

Lemma enq_queued_at m l rkt tp :
  lookup_toppar l rkt = Some tp ->
  queued_at l m rkt (update_toppar (fun tp => rd_kafka_toppar_enq_msg m (add_c_msgs tp 1)) l rkt).
Proof.
  intros Htp. exists tp, (rd_kafka_toppar_enq_msg m (add_c_msgs tp 1)).
  split_and!; [done|exact (lookup_update_toppar _ _ _ _ Htp)| |done].
  by rewrite (update_toppar_const _ _ _ _ Htp).
Qed.

Lemma wf_topic_enq m l rkt :
  wf_topic rkt ->
  wf_topic (update_toppar (fun tp => rd_kafka_toppar_enq_msg m (add_c_msgs tp 1)) l rkt).
Proof. apply wf_topic_update. intros tp [H1 H2]. split; cbn; auto with ngx. Qed.

Lemma destroy_counted rk :
  0 <= rk.(rk_msg_cnt) < 2 ^ 31 - 1 ->
  rd_kafka_msg_destroy (with_cnt rk (rk.(rk_msg_cnt) + 1)) = Some rk.
Proof.
  intros H. unfold rd_kafka_msg_destroy. cbn. rewrite (proj2 (Z.ltb_lt _ _)) by lia.
  replace (rk_msg_cnt rk + 1 - 1) with (rk_msg_cnt rk) by lia. rewrite s32_small by lia.
  by destruct rk.
Qed.

Section produce.
Context (partitioner : topic -> list Z -> Z -> Z -> Z).

Lemma choose_partition_cases rkt m :
  match choose_partition partitioner rkt m with
  | inl err =>
      (err = RD_KAFKA_RESP_ERR__UNKNOWN_TOPIC /\ rkt.(rkt_state) = RD_KAFKA_TOPIC_S_NOTEXISTS) \/
      (err = RD_KAFKA_RESP_ERR__UNKNOWN_PARTITION /\
       rkt.(rkt_state) <> RD_KAFKA_TOPIC_S_NOTEXISTS)
  | inr _ => rkt.(rkt_state) <> RD_KAFKA_TOPIC_S_NOTEXISTS
  end.
Proof.
  unfold choose_partition. destruct (rkt_state rkt); [done| |by left].
  destruct (_ =? 0); [done|]. cbn. destruct (_ <=? _); [by right|done].
Qed.

Lemma partitioner_cases rkt m err rkt' :
  rd_kafka_msg_partitioner partitioner rkt m = (err, rkt') ->
  (err = 0 /\ rkt.(rkt_state) <> RD_KAFKA_TOPIC_S_NOTEXISTS /\ queued m rkt rkt' /\
   (wf_topic rkt -> wf_topic rkt')) \/
  (rkt' = rkt /\
   ((err = RD_KAFKA_RESP_ERR__UNKNOWN_TOPIC /\ rkt.(rkt_state) = RD_KAFKA_TOPIC_S_NOTEXISTS) \/
    (err = RD_KAFKA_RESP_ERR__UNKNOWN_PARTITION /\
     rkt.(rkt_state) <> RD_KAFKA_TOPIC_S_NOTEXISTS))).
Proof.
  unfold rd_kafka_msg_partitioner. pose proof (choose_partition_cases rkt m) as Hc.
  destruct (choose_partition partitioner rkt m) as [e|p]; [intros [= <- <-]; by right|].
  destruct (rd_kafka_toppar_get rkt p false) as [l|] eqn:E; intros [= <- <-].
  - left. destruct (toppar_get_lookup _ _ _ _ E) as [tp Htp].
    split_and!; [done|done|exists l; by eapply enq_queued_at|apply wf_topic_enq].
  - right. rewrite decide_False by done. auto.
Qed.

(** The partition meant: that of the call, or the partitioner's answer when
    the call leaves it open; the unassigned one while the topic's partitions
    are not known. *)
Definition destination (rkt : topic) (partition : Z) (key : option (list Z)) (opaque : Z) : Z :=
  if bool_decide (rkt.(rkt_state) = RD_KAFKA_TOPIC_S_EXISTS) && negb (zlen rkt.(rkt_p) =? 0) then
    if partition =? RD_KAFKA_PARTITION_UA
    then partitioner rkt (default [] key) (zlen rkt.(rkt_p)) opaque
    else partition
  else RD_KAFKA_PARTITION_UA.

(** The error of the partitioner and the queue it puts the message in, from
    the destination alone. *)
Lemma partitioner_outcome rkt m :
  let p := destination rkt m.(rkm_partition) m.(rkm_key) m.(rkm_opaque) in
  rd_kafka_msg_partitioner partitioner rkt m =
  if bool_decide (rkt.(rkt_state) = RD_KAFKA_TOPIC_S_NOTEXISTS)
  then (RD_KAFKA_RESP_ERR__UNKNOWN_TOPIC, rkt)
  else if has_partition rkt p
  then (0, update_toppar (fun tp => rd_kafka_toppar_enq_msg m (add_c_msgs tp 1)) (partition_at p) rkt)
  else (RD_KAFKA_RESP_ERR__UNKNOWN_PARTITION, rkt).
Proof.
  unfold rd_kafka_msg_partitioner, choose_partition, destination, rkt_partition_cnt.
  destruct (rkt_state rkt) eqn:Es; cbn [bool_decide decide_rel andb negb];
    repeat (rewrite bool_decide_false by congruence || rewrite bool_decide_true by congruence);
    cbn [andb]; [| |done].
  1: { rewrite toppar_get_has. by destruct (has_partition _ _). }
  destruct (zlen (rkt_p rkt) =? 0) eqn:E0; cbn [negb].
  { rewrite toppar_get_has. by destruct (has_partition _ _). }
  set (p := if _ =? RD_KAFKA_PARTITION_UA then _ else _).
  destruct (Z.leb_spec (zlen (rkt_p rkt)) p) as [Hp|Hp].
  - pose proof (zlen_nonneg (rkt_p rkt)). unfold has_partition.
    rewrite (proj2 (Z.ltb_ge p _)) by lia. rewrite andb_false_r.
    by rewrite (proj2 (Z.eqb_neq p _)) by lia.
  - rewrite toppar_get_has. by destruct (has_partition _ _).
Qed.

(** What a call of [rd_kafka_produce] answers: nothing wrong, or the errno. *)
Definition produce_outcome (rk : rdkafka) (rkt : topic) (partition : Z) (key : option (list Z))
    (opaque len : Z) : option errno :=
  if rk.(queue_buffering_max_msgs) <=? rk.(rk_msg_cnt) then Some ENOBUFS
  else if rk.(max_msg_size) <? len then Some EMSGSIZE
  else if bool_decide (rkt.(rkt_state) = RD_KAFKA_TOPIC_S_NOTEXISTS) then Some ENOENT
  else if has_partition rkt (destination rkt partition key opaque) then None
  else Some ESRCH.

(** The message [rd_kafka_msg_new0] makes of the arguments of a call. *)
Definition made_from (m : kmsg) (payload : list Z) (key : option (list Z)) (partition opaque : Z) : Prop :=
  m.(rkm_payload) = payload /\ m.(rkm_key) = key /\ m.(rkm_partition) = partition /\
  m.(rkm_opaque) = opaque.

(** C28: [rd_kafka_produce] either queues the message or changes nothing, and
    which of these is determined. The call fails with [ENOBUFS] when the queue
    is full, else with [EMSGSIZE] when payload and key are too large, else with
    [ENOENT] when the topic is known not to exist, else with [ESRCH] exactly
    when the topic has no partition of the number meant (that of the call; the
    partitioner's answer when the call leaves it open; the unassigned partition
    while the topic's partitions are not known), and it succeeds otherwise. On
    success the instance counts one message more, still within
    [queue.buffering.max.messages]; the message, with the given payload, key,
    partition and opaque, is at the tail of the queue of the partition meant
    and no other queue changes; counters stay true. On failure the count and
    the topic are as before. The not-reached [EINVAL] is not reached, and no
    assertion fails. *)
Theorem produce_all_or_nothing rk rkt partition msgflags payload key opaque now :
  rk_ok rk -> wf_topic rkt -> zlen payload + keylen key < 2 ^ 64 ->
  let p := destination rkt partition key opaque in
  exists res rk' rkt',
    rd_kafka_produce partitioner rk rkt partition msgflags payload key opaque now
      = Some (res, rk', rkt') /\ wf_topic rkt' /\ rk_ok rk' /\
    res = produce_outcome rk rkt partition key opaque (zlen payload + keylen key) /\
    match res with
    | None =>
        rk' = with_cnt rk (rk.(rk_msg_cnt) + 1) /\
        (exists m, made_from m payload key partition opaque /\
           queued_at (partition_at p) m rkt rkt' /\
           Permutation (topic_msgs rkt') (m :: topic_msgs rkt))
    | Some e =>
        rk' = rk /\ rkt' = rkt /\
        match e with
        | ENOBUFS => rk.(rk_msg_cnt) = rk.(queue_buffering_max_msgs)
        | EMSGSIZE => rk.(max_msg_size) < zlen payload + keylen key
        | ENOENT => rkt.(rkt_state) = RD_KAFKA_TOPIC_S_NOTEXISTS
        | ESRCH =>
            rkt.(rkt_state) <> RD_KAFKA_TOPIC_S_NOTEXISTS /\
            ~ (0 <= p < zlen rkt.(rkt_p)) /\
            (p = RD_KAFKA_PARTITION_UA -> rkt.(rkt_ua) = None)
        | EINVAL => False
        end
    end.
Proof.
  intros Hok Hwf Hlen p. pose proof Hok as (Hc & Hm & Hs).
  unfold rd_kafka_produce, rd_kafka_msg_new, produce_outcome. fold p.
  cbn [queue_buffering_max_msgs with_cnt].
  rewrite (s32_small (rk_msg_cnt rk + 1)), s32_small by lia.
  replace (with_cnt (with_cnt rk (rk_msg_cnt rk + 1)) (rk_msg_cnt rk + 1 - 1)) with rk
    by (replace (rk_msg_cnt rk + 1 - 1) with (rk_msg_cnt rk) by lia; by destruct rk).
  destruct (Z.ltb_spec (queue_buffering_max_msgs rk) (rk_msg_cnt rk + 1)),
    (Z.leb_spec (queue_buffering_max_msgs rk) (rk_msg_cnt rk)); try lia.
  { exists (Some ENOBUFS), rk, rkt. split_and!; [done..|lia]. }
  unfold rd_kafka_msg_new0. cbn [max_msg_size with_cnt].
  pose proof (zlen_nonneg payload). pose proof (keylen_nonneg key). rewrite !u64_small by lia.
  destruct (Z.ltb_spec (max_msg_size rk) (zlen payload + keylen key)).
  { exists (Some EMSGSIZE), rk, rkt. by split_and!. }
  set (m := KMsg _ _ _ _ _ _). rewrite (partitioner_outcome rkt m).
  change (destination _ _ _ _) with p.
  destruct (bool_decide_reflect (rkt_state rkt = RD_KAFKA_TOPIC_S_NOTEXISTS)) as [He|He];
    [|destruct (has_partition rkt p) eqn:Hp]; cbn [Z.eqb].
  - rewrite destroy_counted by lia. exists (Some ENOENT), rk, rkt. by split_and!.
  - apply has_partition_queue in Hp as [tp Htp]. pose proof (enq_queued_at m _ _ _ Htp) as Hq.
    eexists None, _, _. split_and!; [done|by apply wf_topic_enq|unfold rk_ok; cbn; lia|done|done|].
    exists m. split_and!; [by repeat split|done|apply queued_perm; by eexists].
  - rewrite destroy_counted by lia. exists (Some ESRCH), rk, rkt.
    apply has_partition_false in Hp as [??]. by split_and!.
Qed.
End produce.

(** A topic and an instance to run the operations on. *)
Definition sample_topic (s : topic_state) (n : nat) : topic :=
  Topic (lit "access") s (map (fun i => rd_kafka_toppar_new (Z.of_nat i)) (seq 0 n))
    (Some (rd_kafka_toppar_new RD_KAFKA_PARTITION_UA)) [] 300000.

Definition sample_rk (cnt : Z) : rdkafka := RdKafka cnt 10000 4000000 true [].

Lemma wf_sample_topic s n : wf_topic (sample_topic s n).
Proof.
  assert (H : forall p, wf_toppar (rd_kafka_toppar_new p)) by done.
  unfold wf_topic, all_toppars. cbn. rewrite Forall_app, Forall_map, Forall_forall.
  split; [done|]. by constructor.
Qed.

(** A full queue, the partition 2 of a topic with two, and the partition that
    the partitioner answers. *)
Lemma produce_all_or_nothing_witness :
  (exists rk' rkt',
     rd_kafka_produce (fun _ _ _ _ => 1) (sample_rk 10000)
       (sample_topic RD_KAFKA_TOPIC_S_EXISTS 2) RD_KAFKA_PARTITION_UA 2 [7; 8] None 0 5
       = Some (Some ENOBUFS, rk', rkt') /\
     rk' = sample_rk 10000 /\ rkt' = sample_topic RD_KAFKA_TOPIC_S_EXISTS 2) /\
  (exists rk' rkt',
     rd_kafka_produce (fun _ _ _ _ => 1) (sample_rk 41) (sample_topic RD_KAFKA_TOPIC_S_EXISTS 2)
       2 2 [7; 8] None 0 5 = Some (Some ESRCH, rk', rkt')) /\
  (exists rk' rkt' m,
     rd_kafka_produce (fun _ _ _ _ => 1) (sample_rk 41) (sample_topic RD_KAFKA_TOPIC_S_EXISTS 2)
       RD_KAFKA_PARTITION_UA 2 [7; 8] None 0 5 = Some (None, rk', rkt') /\
     rk' = sample_rk 42 /\ wf_topic rkt' /\
     queued_at (LPart 1) m (sample_topic RD_KAFKA_TOPIC_S_EXISTS 2) rkt').
Proof.
  assert (Hok : forall n, 0 <= n <= 10000 -> rk_ok (sample_rk n)) by (unfold rk_ok; cbn; lia).
  split_and!.
  - destruct (produce_all_or_nothing (fun _ _ _ _ => 1) (sample_rk 10000)
      (sample_topic RD_KAFKA_TOPIC_S_EXISTS 2) RD_KAFKA_PARTITION_UA 2 [7; 8] None 0 5)
      as (res & rk' & rkt' & E & _ & _ & -> & H); [by apply Hok|apply wf_sample_topic|done|].
    vm_compute (produce_outcome _ _ _ _ _ _ _) in H, E. destruct H as (-> & -> & _). by eexists _, _.
  - destruct (produce_all_or_nothing (fun _ _ _ _ => 1) (sample_rk 41)
      (sample_topic RD_KAFKA_TOPIC_S_EXISTS 2) 2 2 [7; 8] None 0 5)
      as (res & rk' & rkt' & E & _ & _ & -> & _); [by apply Hok|apply wf_sample_topic|done|].
    vm_compute (produce_outcome _ _ _ _ _ _ _) in E. by eexists _, _.
  - destruct (produce_all_or_nothing (fun _ _ _ _ => 1) (sample_rk 41)
      (sample_topic RD_KAFKA_TOPIC_S_EXISTS 2) RD_KAFKA_PARTITION_UA 2 [7; 8] None 0 5)
      as (res & rk' & rkt' & E & Hw & _ & -> & H); [by apply Hok|apply wf_sample_topic|done|].
    vm_compute (produce_outcome _ _ _ _ _ _ _) in H, E. destruct H as (Hrk & m & _ & Hq & _).
    exists rk', rkt', m. by split_and!.
Defined.

(** ** The unassigned partition *)

(** What the partitioner answers is a partition of the topic. *)
Definition partitioner_in_range (partitioner : topic -> list Z -> Z -> Z -> Z) : Prop :=
  forall rkt key cnt opaque, 0 < cnt -> 0 <= partitioner rkt key cnt opaque < cnt.

(** The outcome of producing without a forced partition. *)
Definition ua_outcome (rk : rdkafka) (rkt : topic) (len : Z) : option errno :=
  if rk.(queue_buffering_max_msgs) <=? rk.(rk_msg_cnt) then Some ENOBUFS
  else if rk.(max_msg_size) <? len then Some EMSGSIZE
  else if decide (rkt.(rkt_state) = RD_KAFKA_TOPIC_S_NOTEXISTS) then Some ENOENT
  else None.

(** Producing to the unassigned partition, the way the access log module
    does, has a determined outcome: when the topic has its unassigned partition
    and the partitioner answers a partition of the topic, the call succeeds
    unless the queue is full, the message too large or the topic known not to
    exist, in this order of precedence; it never fails with [ESRCH]. *)
Theorem produce_unassigned_outcome partitioner rk rkt msgflags payload key opaque now :
  partitioner_in_range partitioner -> is_Some rkt.(rkt_ua) ->
  rk_ok rk -> zlen payload + keylen key < 2 ^ 64 ->
  exists rk' rkt',
    rd_kafka_produce partitioner rk rkt RD_KAFKA_PARTITION_UA msgflags payload key opaque now
      = Some (ua_outcome rk rkt (zlen payload + keylen key), rk', rkt').
Proof.
  intros Hp [ua Hua] (Hc & Hm & Hs) Hlen. unfold rd_kafka_produce, rd_kafka_msg_new, ua_outcome.
  cbn [queue_buffering_max_msgs with_cnt]. rewrite (s32_small (_ + 1)) by lia.
  destruct (Z.ltb_spec (queue_buffering_max_msgs rk) (rk_msg_cnt rk + 1)),
    (Z.leb_spec (queue_buffering_max_msgs rk) (rk_msg_cnt rk)); try lia; [by eauto|].
  unfold rd_kafka_msg_new0. cbn [max_msg_size with_cnt].
  pose proof (zlen_nonneg payload). pose proof (keylen_nonneg key). rewrite !u64_small by lia.
  destruct (_ <? _); [by eauto|].
  unfold rd_kafka_msg_partitioner, choose_partition.
  destruct (rkt_state rkt) eqn:Es; cbn [rkm_partition rkm_key rkm_opaque].
  - unfold rd_kafka_toppar_get. cbn. rewrite Hua. cbn. by eauto.
  - unfold rkt_partition_cnt. pose proof (zlen_nonneg rkt.(rkt_p)).
    destruct (Z.eqb_spec (zlen rkt.(rkt_p)) 0).
    + unfold rd_kafka_toppar_get. cbn. rewrite Hua. cbn. by eauto.
    + cbn. destruct (Hp rkt (default [] key) (zlen rkt.(rkt_p)) opaque) as [Hlo Hhi]; [lia|].
      rewrite (proj2 (Z.leb_gt _ _) Hhi). unfold rd_kafka_toppar_get, rkt_partition_cnt.
      rewrite (proj2 (Z.leb_le _ _) Hlo), (proj2 (Z.ltb_lt _ _) Hhi). cbn. by eauto.
  - cbn. unfold rd_kafka_msg_destroy. cbn. rewrite (proj2 (Z.ltb_lt _ _)) by lia. cbn. by eauto.
Qed.

(** The default partitioner is one: [rand()] is not negative. *)
Lemma partitioner_random_in_range rand1 rand2 :
  0 <= rand1 -> 0 <= rand2 ->
  partitioner_in_range (rd_kafka_msg_partitioner_random rand1 rand2).
Proof.
  intros H1 H2 rkt key cnt opaque Hcnt. unfold rd_kafka_msg_partitioner_random, rd_jitter.
  replace (cnt - 1 + 1) with cnt by lia.
  destruct (negb _); rewrite Z.rem_mod_nonneg by lia.
  all: rewrite Z.add_0_l; apply Z.mod_pos_bound; lia.
Qed.

Lemma produce_unassigned_outcome_witness :
  exists rk' rkt',
    rd_kafka_produce (rd_kafka_msg_partitioner_random 7 12) (sample_rk 3)
      (sample_topic RD_KAFKA_TOPIC_S_NOTEXISTS 0) RD_KAFKA_PARTITION_UA 2 [7] None 0 5
      = Some (Some ENOENT, rk', rkt').
Proof.
  apply (produce_unassigned_outcome (rd_kafka_msg_partitioner_random 7 12) (sample_rk 3)
           (sample_topic RD_KAFKA_TOPIC_S_NOTEXISTS 0) 2 [7] None 0 5).
  - apply partitioner_random_in_range; lia.
  - by eexists.
  - unfold rk_ok. cbn. lia.
  - done.
Defined.
