(* ===== verification/RdProto.v ===== *)
(** * The wire format of librdkafka ([rdkafka_broker.c], [rdkafka_proto.h])

    Kafka strings and byte arrays, the reading macros, messages and message
    sets as [rd_kafka_broker_produce_toppar] writes them and
    [rd_kafka_messageset_handle] reads them, the scatter-gather buffers of a
    request and the sending of a partly sent one, and the reassembly of
    responses by [rd_kafka_recv]. *)

From S2P Require Import Prelude Crc32 RdMsg.

(** ** Integers on the wire *)

(** [n] bytes, the most significant first: [htons], [htonl], [htobe64]. *)
Fixpoint be_bytes (n : nat) (v : Z) : list Z :=
  match n with
  | O => []
  | S n' => u8 (Z.shiftr v (8 * Z.of_nat n')) :: be_bytes n' v
  end.

Definition be_value (l : list Z) : Z := fold_left (fun a b => a * 256 + b) l 0.

Definition s16 (z : Z) : Z := (z + 2 ^ 15) mod 2 ^ 16 - 2 ^ 15.

(** ** Kafka strings and byte arrays *)

(** [rd_kafkap_str_new] and [rd_kafkap_bytes_new]: a null value has length -1. *)
Definition rd_kafkap_str_new (s : option (list Z)) : list Z :=
  match s with
  | Some s => be_bytes 2 (zlen s) ++ s
  | None => be_bytes 2 (-1)
  end.

Definition rd_kafkap_bytes_new (d : option (list Z)) : list Z :=
  match d with
  | Some d => be_bytes 4 (zlen d) ++ d
  | None => be_bytes 4 (-1)
  end.

(** The size macros, on the length field as it stands in memory. *)
Definition RD_KAFKAP_STR_SIZE (len : list Z) : Z :=
  let n := be_value len in
  s16 (2 + (if s16 n =? -1 then 0 else n)).

Definition RD_KAFKAP_STR_LEN (len : list Z) : Z :=
  let n := be_value len in
  if n =? -1 then 0 else s16 n.

Definition RD_KAFKAP_BYTES_SIZE (len : list Z) : Z :=
  let n := be_value len in
  s32 (4 + (if s32 n =? -1 then 0 else n)).

Definition RD_KAFKAP_BYTES_LEN (len : list Z) : Z :=
  let n := be_value len in
  if s32 n =? -1 then 0 else s32 n.

Definition RD_KAFKAP_BYTES_IS_NULL (len : list Z) : bool := s32 (be_value len) =? -1.

(** ** Reading

    [rest] is the memory from [buf + of] to the end; [None] is the jump to
    [err]. The length is an [int], compared as [size_t]. *)

Definition check_len (len : Z) (rest : list Z) : bool := u64 (s32 len) <=? zlen rest.

Definition read_ref (len : nat) (rest : list Z) : option (list Z * list Z) :=
  if check_len (Z.of_nat len) rest then Some (take len rest, drop len rest) else None.

(** [_READ_STR]: the string, as the memory it starts at, and the rest. *)
Definition read_str (rest : list Z) : option (list Z * list Z) :=
  if check_len 2 rest then
    let klen := RD_KAFKAP_STR_SIZE (take 2 rest) in
    if check_len klen rest then Some (rest, drop (Z.to_nat klen) rest) else None
  else None.

(** [_READ_BYTES], in the same way. *)
Definition read_bytes (rest : list Z) : option (list Z * list Z) :=
  if check_len 4 rest then
    let klen := RD_KAFKAP_BYTES_SIZE (take 4 rest) in
    if check_len klen rest then Some (rest, drop (Z.to_nat klen) rest) else None
  else None.

(** ** Messages *)

(** The header ([part3]), key, value length ([part4]) and payload of a message,
    each a piece of the request. *)
Definition message_size (m : kmsg) : Z :=
  s32 (6 + RD_KAFKAP_BYTES_SIZE (take 4 (rd_kafkap_bytes_new m.(rkm_key))) + 4 + rkm_len m).

Definition message_crc (m : kmsg) : Z :=
  let crc := rd_crc32_update rd_crc32_init [0; 0] in
  let crc := rd_crc32_update crc (rd_kafkap_bytes_new m.(rkm_key)) in
  let crc := rd_crc32_update crc (be_bytes 4 (rkm_len m)) in
  let crc := rd_crc32_update crc m.(rkm_payload) in
  rd_crc32_finalize crc.

Definition message_iov (m : kmsg) : list (list Z) :=
  [be_bytes 8 0 ++ be_bytes 4 (message_size m) ++ be_bytes 4 (message_crc m) ++ [0; 0];
   rd_kafkap_bytes_new m.(rkm_key);
   be_bytes 4 (rkm_len m);
   m.(rkm_payload)].

Definition message_bytes (m : kmsg) : list Z := concat (message_iov m).

(** The message whose value is a compressed message set. *)
Definition wrapper_bytes (codec : Z) (value : list Z) : list Z :=
  let body := [0; Z.land codec 7] ++ be_bytes 4 (-1) ++ be_bytes 4 (zlen value) in
  let crc := rd_crc32_finalize
               (rd_crc32_update (rd_crc32_update rd_crc32_init body) value) in
  be_bytes 8 0 ++ be_bytes 4 (4 + 1 + 1 + 4 + 4 + zlen value) ++ be_bytes 4 crc ++ body ++ value.

(** ** Message sets *)

(** A message handed to the application: [f_len] is the length it is told, the
    payload what there is of it in the response. *)
Record fetched := Fetched {
  f_offset : Z;
  f_key : option (list Z);
  f_payload : list Z;
  f_len : Z;
}.

(** The data of a byte array that starts at [mem]. *)
Definition bytes_data (mem : list Z) : list Z :=
  take (Z.to_nat (RD_KAFKAP_BYTES_LEN (take 4 mem))) (drop 4 mem).

Section messageset.
(** The decompressors: [rd_gz_decompress], [rd_kafka_snappy_java_decompress] on
    what follows its header, and [snappy_uncompressed_length] with
    [snappy_uncompress]. *)
Context (gz snappy_java snappy : list Z -> option (list Z)).

Definition snappy_java_magic : list Z := [0x82; 83; 78; 65; 80; 80; 89; 0].

(** The value of a compressed message: [None] when it is ignored. *)
Definition uncompress (attributes : Z) (value : list Z) (value_len : Z) : option (list Z) :=
  if attributes =? 1 then gz value
  else if (20 <? value_len) && beq (take 8 value) snappy_java_magic
  then snappy_java (drop 16 value)
  else snappy value.

(** [rd_kafka_messageset_handle]: the messages queued. Every turn of the loop
    consumes at least the 18 bytes of a header; [fuel] also bounds the nesting
    of compressed sets. *)
Fixpoint rd_kafka_messageset_handle (fuel : nat) (rest : list Z) : list fetched :=
  match fuel with
  | O => []
  | S fuel' =>
      if zlen rest =? 0 then []
      else
        match read_ref 18 rest with
        | None => []
        | Some (hdr, rest) =>
            let MessageSize := s32 (be_value (take 4 (drop 8 hdr))) in
            if zlen rest <? u64 (s32 (MessageSize - 6)) then []
            else
              match read_bytes rest with
              | None => []
              | Some (Key, rest) =>
                  match read_bytes rest with
                  | None => []
                  | Some (Value, rest) =>
                      let Value_len := RD_KAFKAP_BYTES_LEN (take 4 Value) in
                      let attributes := Z.land (nth 17 hdr 0) 3 in
                      if attributes =? 0 then
                        Fetched (s64 (be_value (take 8 hdr)))
                          (if RD_KAFKAP_BYTES_IS_NULL (take 4 Key) then None
                           else Some (bytes_data Key))
                          (bytes_data Value) (u64 Value_len)
                        :: rd_kafka_messageset_handle fuel' rest
                      else if attributes =? 3 then rd_kafka_messageset_handle fuel' rest
                      else
                        match uncompress attributes (bytes_data Value) Value_len with
                        | None => rd_kafka_messageset_handle fuel' rest
                        | Some out =>
                            rd_kafka_messageset_handle fuel' out ++
                            rd_kafka_messageset_handle fuel' rest
                        end
                  end
              end
        end
  end.
End messageset.

(** ** Integers: round trips *)

Lemma be_bytes_length n v : length (be_bytes n v) = n.
Proof. induction n as [|n IH]; cbn; [done|]. by rewrite IH. Qed.

Lemma zlen_be n v : zlen (be_bytes n v) = Z.of_nat n.
Proof. unfold zlen. by rewrite be_bytes_length. Qed.

#[export] Hint Rewrite zlen_be : ngx.

Lemma be_bytes_ok n v : bytes (be_bytes n v).
Proof.
  induction n as [|n IH]; cbn; [constructor|]. constructor; [|done]. apply u8_range.
Qed.

Lemma fold_be n v a :
  fold_left (fun a b => a * 256 + b) (be_bytes n v) a = a * 2 ^ (8 * Z.of_nat n) + v mod 2 ^ (8 * Z.of_nat n).
Proof.
  revert a. induction n as [|n IH]; intros a; cbn [be_bytes fold_left].
  { cbn. rewrite Z.mod_1_r. lia. }
  rewrite IH. unfold u8. rewrite Z.shiftr_div_pow2 by lia.
  set (p := 2 ^ (8 * Z.of_nat n)).
  assert (Hp : 0 < p) by (apply Z.pow_pos_nonneg; lia).
  replace (2 ^ (8 * Z.of_nat (S n))) with (p * 256).
  2: { subst p. replace (8 * Z.of_nat (S n)) with (8 * Z.of_nat n + 8) by lia.
       by rewrite Z.pow_add_r by lia. }
  rewrite Z.rem_mul_r by lia. change (2 ^ 8) with 256. ring.
Qed.

Lemma be_value_be n v : be_value (be_bytes n v) = v mod 2 ^ (8 * Z.of_nat n).
Proof. unfold be_value. rewrite fold_be. lia. Qed.

Lemma be_value_4 v : be_value (be_bytes 4 v) = u32 v.
Proof. apply (be_value_be 4). Qed.

Lemma be_value_8 v : be_value (be_bytes 8 v) = u64 v.
Proof. apply (be_value_be 8). Qed.

#[global] Arguments be_bytes : simpl never.
#[global] Arguments be_value : simpl never.

Lemma take_be n v l : take n (be_bytes n v ++ l) = be_bytes n v.
Proof. rewrite take_app_length' by (by rewrite be_bytes_length). done. Qed.

Lemma drop_be n v l : drop n (be_bytes n v ++ l) = l.
Proof. by rewrite drop_app_length' by (by rewrite be_bytes_length). Qed.

(** ** Byte arrays: round trip *)

Lemma bytes_new_len d :
  keylen d < 2 ^ 31 ->
  s32 (be_value (take 4 (rd_kafkap_bytes_new d))) = match d with Some d => zlen d | None => -1 end.
Proof.
  intros Hd. destruct d as [d|]; [|reflexivity]. cbn in Hd. unfold keylen in Hd. cbn in Hd.
  pose proof (zlen_nonneg d). cbn [rd_kafkap_bytes_new]. rewrite take_be, be_value_4.
  rewrite u32_small by lia. apply s32_small. lia.
Qed.

(** A null array has no data but is four bytes long, like the empty one. *)
Lemma zlen_bytes_new d : zlen (rd_kafkap_bytes_new d) = 4 + keylen d.
Proof. destruct d; cbn [rd_kafkap_bytes_new]; autorewrite with ngx; done. Qed.

Lemma bytes_new_size d l :
  keylen d < 2 ^ 31 - 4 ->
  RD_KAFKAP_BYTES_SIZE (take 4 (rd_kafkap_bytes_new d ++ l)) = zlen (rd_kafkap_bytes_new d).
Proof.
  intros Hd. rewrite take_app_le by (pose proof (zlen_bytes_new d); pose proof (keylen_nonneg d);
    unfold zlen in *; lia).
  pose proof (bytes_new_len d ltac:(lia)) as E. unfold RD_KAFKAP_BYTES_SIZE. rewrite zlen_bytes_new, E.
  destruct d as [d|]; [|reflexivity]. unfold keylen in *. cbn [from_option id rd_kafkap_bytes_new] in *.
  pose proof (zlen_nonneg d). rewrite (proj2 (Z.eqb_neq _ _)) by lia.
  rewrite take_be, be_value_4, u32_small by lia. apply s32_small. lia.
Qed.

Lemma check_len_ok len rest : 0 <= len < 2 ^ 31 -> len <= zlen rest -> check_len len rest = true.
Proof.
  intros H1 H2. unfold check_len. rewrite s32_small, u64_small by lia. by apply Z.leb_le.
Qed.

Lemma read_bytes_new d l :
  keylen d < 2 ^ 31 - 4 ->
  read_bytes (rd_kafkap_bytes_new d ++ l) = Some (rd_kafkap_bytes_new d ++ l, l).
Proof.
  intros Hd. unfold read_bytes. pose proof (keylen_nonneg d). pose proof (zlen_nonneg l).
  rewrite check_len_ok by (autorewrite with ngx; rewrite ?zlen_bytes_new; lia).
  rewrite bytes_new_size by done.
  rewrite check_len_ok by (autorewrite with ngx; rewrite ?zlen_bytes_new; lia).
  do 2 f_equal. rewrite drop_app_length'; [done|]. unfold zlen. lia.
Qed.

Lemma bytes_data_new d l :
  keylen d < 2 ^ 31 - 4 -> bytes_data (rd_kafkap_bytes_new d ++ l) = default [] d.
Proof.
  intros Hd. unfold bytes_data, RD_KAFKAP_BYTES_LEN.
  pose proof (bytes_new_len d ltac:(lia)) as E. destruct d as [d|]; cbn [rd_kafkap_bytes_new from_option id] in *.
  - rewrite take_be in E. rewrite <- app_assoc, take_be, drop_be, E.
    pose proof (zlen_nonneg d). rewrite (proj2 (Z.eqb_neq _ _)) by lia.
    rewrite take_app_length'; [done|]. unfold zlen. lia.
  - rewrite take_be. change (be_value (be_bytes 4 (-1))) with (2 ^ 32 - 1). reflexivity.
Qed.

Lemma bytes_null_new d l :
  keylen d < 2 ^ 31 - 4 ->
  RD_KAFKAP_BYTES_IS_NULL (take 4 (rd_kafkap_bytes_new d ++ l)) =
    match d with None => true | Some _ => false end.
Proof.
  intros Hd. unfold RD_KAFKAP_BYTES_IS_NULL.
  rewrite take_app_le by (pose proof (zlen_bytes_new d); pose proof (keylen_nonneg d);
    unfold zlen in *; lia).
  rewrite bytes_new_len by lia. destruct d as [d|]; [|done]. pose proof (zlen_nonneg d).
  apply Z.eqb_neq. lia.
Qed.

Lemma be_value_2 v : be_value (be_bytes 2 v) = v mod 2 ^ 16.
Proof. apply (be_value_be 2). Qed.

Lemma read_ref_be n v l : Z.of_nat n < 2 ^ 31 -> read_ref n (be_bytes n v ++ l) = Some (be_bytes n v, l).
Proof.
  intros Hn. unfold read_ref. pose proof (zlen_nonneg l).
  rewrite check_len_ok by (autorewrite with ngx; lia). by rewrite take_be, drop_be.
Qed.

(** A string is passed over whole, up to the length its 16-bit size allows. *)
Lemma read_str_new s l :
  zlen s < 2 ^ 15 - 2 ->
  read_str (rd_kafkap_str_new (Some s) ++ l) = Some (rd_kafkap_str_new (Some s) ++ l, l).
Proof.
  intros Hs. pose proof (zlen_nonneg s). pose proof (zlen_nonneg l). unfold read_str.
  cbn [rd_kafkap_str_new]. rewrite check_len_ok by (autorewrite with ngx; lia).
  rewrite <- app_assoc, take_be. unfold RD_KAFKAP_STR_SIZE. rewrite be_value_2.
  rewrite (Z.mod_small (zlen s)) by lia. unfold s16. rewrite !Z.mod_small; [..|lia|].
  2: destruct (_ =? -1); lia.
  rewrite (proj2 (Z.eqb_neq _ _)) by lia.
  rewrite check_len_ok by (autorewrite with ngx; lia). do 2 f_equal. rewrite app_assoc.
  rewrite drop_app_length'; [done|]. rewrite length_app, be_bytes_length. unfold zlen. lia.
Qed.

(** ** Message sets: round trip *)

(** A message header. *)
Definition msg_header (ms crc attr : Z) : list Z :=
  be_bytes 8 0 ++ be_bytes 4 ms ++ be_bytes 4 crc ++ [0; attr].

Section roundtrip.
Context (gz snappy_java snappy : list Z -> option (list Z)).

Abbreviation handle := (rd_kafka_messageset_handle gz snappy_java snappy).

(** One turn of the loop on a complete message. *)
Lemma handle_step fuel crc attr key value rest :
  keylen key + zlen value < 2 ^ 31 - 64 ->
  handle (S fuel) (msg_header (14 + keylen key + zlen value) crc attr ++
                   rd_kafkap_bytes_new key ++ rd_kafkap_bytes_new (Some value) ++ rest) =
    if Z.land attr 3 =? 0 then Fetched 0 key value (zlen value) :: handle fuel rest
    else if Z.land attr 3 =? 3 then handle fuel rest
    else match uncompress gz snappy_java snappy (Z.land attr 3) value (zlen value) with
         | None => handle fuel rest
         | Some out => handle fuel out ++ handle fuel rest
         end.
Proof.
  intros Hlen. pose proof (keylen_nonneg key). pose proof (zlen_nonneg value).
  assert (Hv : keylen (Some value) < 2 ^ 31 - 4) by (change (keylen (Some value)) with (zlen value); lia).
  set (body := rd_kafkap_bytes_new key ++ _). set (ms := 14 + _ + _).
  assert (Hhl : zlen (msg_header ms crc attr) = 18) by reflexivity.
  assert (Hbody : 8 + keylen key + zlen value <= zlen body).
  { subst body. autorewrite with ngx. rewrite !zlen_bytes_new.
    change (keylen (Some value)) with (zlen value). pose proof (zlen_nonneg rest). lia. }
  cbn [rd_kafka_messageset_handle].
  rewrite (proj2 (Z.eqb_neq (zlen (msg_header ms crc attr ++ body)) 0))
    by (autorewrite with ngx; lia).
  unfold read_ref. rewrite check_len_ok by (autorewrite with ngx; lia).
  rewrite take_app_length', drop_app_length' by reflexivity.
  assert (E1 : take 4 (drop 8 (msg_header ms crc attr)) = be_bytes 4 ms)
    by (unfold msg_header; by rewrite drop_be, take_be).
  assert (E2 : take 8 (msg_header ms crc attr) = be_bytes 8 0) by (unfold msg_header; by rewrite take_be).
  rewrite E1, E2, be_value_4, be_value_8, u32_small, (s32_small ms), s32_small, u64_small by lia.
  change (s64 (u64 0)) with 0. change (nth 17 (msg_header ms crc attr) 0) with attr.
  rewrite (proj2 (Z.ltb_ge _ _)) by lia. subst body.
  rewrite read_bytes_new, read_bytes_new by (done || lia).
  rewrite bytes_null_new, !bytes_data_new by (done || lia). cbn [from_option id].
  unfold RD_KAFKAP_BYTES_LEN. rewrite take_app_le
    by (pose proof (zlen_bytes_new (Some value)); pose proof (keylen_nonneg (Some value));
        unfold zlen in *; lia).
  rewrite bytes_new_len by lia. rewrite (proj2 (Z.eqb_neq (zlen value) (-1))) by lia. rewrite u64_small by lia.
  by destruct key.
Qed.

(** A message whose lengths fit their fields. *)
Definition msg_fits (m : kmsg) : Prop := keylen m.(rkm_key) + rkm_len m < 2 ^ 31 - 64.

Lemma message_size_ok m : msg_fits m -> message_size m = 14 + keylen m.(rkm_key) + rkm_len m.
Proof.
  intros Hm. unfold msg_fits in Hm. pose proof (keylen_nonneg m.(rkm_key)). pose proof (rkm_len_nonneg m).
  unfold message_size. pose proof (bytes_new_size m.(rkm_key) [] ltac:(lia)) as E.
  rewrite app_nil_r in E. rewrite E, zlen_bytes_new. rewrite s32_small by lia. lia.
Qed.

Lemma message_bytes_eq m :
  msg_fits m ->
  message_bytes m = msg_header (14 + keylen m.(rkm_key) + zlen m.(rkm_payload)) (message_crc m) 0 ++
    rd_kafkap_bytes_new m.(rkm_key) ++ rd_kafkap_bytes_new (Some m.(rkm_payload)).
Proof.
  intros Hm. unfold message_bytes, message_iov. rewrite message_size_ok by done. cbn [concat].
  by rewrite app_nil_r.
Qed.

Definition fetched_of (m : kmsg) : fetched := Fetched 0 m.(rkm_key) m.(rkm_payload) (rkm_len m).

Lemma messageset_decodes ms fuel :
  Forall msg_fits ms -> (length ms < fuel)%nat ->
  handle fuel (concat (map message_bytes ms)) = map fetched_of ms.
Proof.
  intros Hms. revert fuel. induction Hms as [|m ms Hm Hms IH]; intros fuel Hf.
  { by destruct fuel. }
  destruct fuel as [|fuel]; [cbn in Hf; lia|]. cbn [map concat].
  rewrite message_bytes_eq, <- !app_assoc by done. rewrite handle_step by exact Hm.
  cbn [Z.land Z.eqb]. unfold fetched_of at 1. f_equal. apply IH. cbn in Hf. lia.
Qed.
End roundtrip.

(** The message that wraps a compressed set is one message. *)
Lemma wrapper_bytes_eq codec value :
  exists crc, wrapper_bytes codec value =
    msg_header (14 + keylen None + zlen value) crc (Z.land codec 7) ++
    rd_kafkap_bytes_new None ++ rd_kafkap_bytes_new (Some value) ++ [].
Proof.
  unfold wrapper_bytes, msg_header. eexists. cbn [rd_kafkap_bytes_new]. rewrite app_nil_r, <- !app_assoc.
  change (4 + 1 + 1 + 4 + 4 + zlen value) with (14 + zlen value).
  change (14 + keylen None + zlen value) with (14 + zlen value). reflexivity.
Qed.

(** ** Scatter-gather buffers *)

Abbreviation IOV_MAX := 1024 (only parsing).

Definition rd_kafka_msghdr_size (iov : list (list Z)) : Z := zlen (concat iov).

(** The loop of [rd_kafka_msghdr_rebuild]: [len] is the length of the pieces
    passed. [None] when the assertion on the room in [dst] fails. *)
Fixpoint rebuild_loop (dst_len : Z) (off len : Z) (src dst : list (list Z))
  : option (list (list Z)) :=
  match src with
  | [] => Some dst
  | v :: src' =>
      let vof := s64 (off - len) in
      let vof := if vof <? 0 then 0 else vof in
      if vof <? zlen v then
        if zlen dst <? dst_len
        then rebuild_loop dst_len off (len + zlen v) src' (dst ++ [drop (Z.to_nat vof) v])
        else None
      else rebuild_loop dst_len off (len + zlen v) src' dst
  end.

Definition rd_kafka_msghdr_rebuild (dst_len : Z) (src : list (list Z)) (off : Z)
  : option (list (list Z)) :=
  rebuild_loop dst_len off 0 src [].

Lemma rebuild_loop_ok dst_len off len src dst :
  0 <= off < 2 ^ 62 -> 0 <= len -> len + zlen (concat src) < 2 ^ 62 ->
  zlen dst + zlen src <= dst_len ->
  exists dst', rebuild_loop dst_len off len src dst = Some dst' /\
    concat dst' = concat dst ++ drop (Z.to_nat (off - len)) (concat src) /\
    zlen dst' <= zlen dst + zlen src.
Proof.
  revert len dst. induction src as [|v src IH]; intros len dst Hof Hlen Hsz Hroom; cbn [rebuild_loop concat].
  { exists dst. rewrite drop_nil, app_nil_r, zlen_nil. split_and!; [done..|lia]. }
  cbn [concat] in Hsz. autorewrite with ngx in Hsz, Hroom. pose proof (zlen_nonneg v).
  pose proof (zlen_nonneg (concat src)). pose proof (zlen_nonneg src). pose proof (zlen_nonneg dst).
  rewrite s64_small by lia. rewrite drop_app.
  replace (Z.to_nat (off - len) - length v)%nat with (Z.to_nat (off - (len + zlen v)))
    by (unfold zlen; lia).
  set (vof := if off - len <? 0 then 0 else off - len).
  assert (Hvof : Z.to_nat vof = Z.to_nat (off - len) /\ 0 <= vof)
    by (subst vof; destruct (Z.ltb_spec (off - len) 0); split; lia).
  destruct (Z.ltb_spec vof (zlen v)) as [Hlt|Hge].
  - rewrite (proj2 (Z.ltb_lt _ _)) by lia.
    destruct (IH (len + zlen v) (dst ++ [drop (Z.to_nat vof) v])) as (dst' & E & Hc & Hl);
      [lia..| |]; [autorewrite with ngx; lia|].
    exists dst'. rewrite E. split; [done|]. rewrite Hc, concat_app. cbn [concat].
    rewrite app_nil_r, <- app_assoc, (proj1 Hvof). split; [done|].
    autorewrite with ngx in *. lia.
  - destruct (IH (len + zlen v) dst) as (dst' & E & Hc & Hl); [lia..|].
    exists dst'. rewrite E. split; [done|]. rewrite Hc. split; [|autorewrite with ngx; lia].
    rewrite (drop_ge v); [done|]. rewrite <- (proj1 Hvof). unfold zlen in Hge. lia.
Qed.

(** ** Receiving *)

(** [rkb_recv_buf]: the bytes received of a response, its header included, and
    [rkbuf_len], 0 while the length is not known. *)
Record recv_buf := RecvBuf {
  rb_bytes : list Z;
  rb_len : Z;
}.

(** What a call of [rd_kafka_recv] comes to: more data needed, a response
    (correlation id and body), or a failure of the broker. *)
Inductive recv_result :=
  | RecvMore (rb : recv_buf)
  | RecvResponse (corrid : Z) (body : list Z)
  | RecvFail.

(** The room of the buffers passed to [recvmsg]: the header, and the body once
    its length is known. *)
Definition recv_room (rb : recv_buf) : Z :=
  (if rb.(rb_len) =? 0 then 8 else 8 + rb.(rb_len)) - zlen rb.(rb_bytes).

(** [rd_kafka_recv] after a [recvmsg] that gave [data], not empty. *)
Definition rd_kafka_recv (recv_max_msg_size : Z) (rb : recv_buf) (data : list Z) : recv_result :=
  let got := rb.(rb_bytes) ++ data in
  let finish len :=
    if zlen got =? len + 8
    then RecvResponse (s32 (be_value (take 4 (drop 4 got)))) (drop 8 got)
    else RecvMore (RecvBuf got len) in
  if rb.(rb_len) =? 0 then
    if zlen got <? 8 then RecvMore (RecvBuf got 0)
    else
      let len := be_value (take 4 got) in
      if (len <? 4) || (u64 recv_max_msg_size <? len) then RecvFail
      else finish (len - 4)
  else finish rb.(rb_len).

(** The calls of [rd_kafka_recv] on a socket where [stream] has arrived: each
    [recvmsg] gives up to [n] bytes, in what is left of the buffers. The
    responses, the buffer and the stream left; [None] when the broker failed. *)
Fixpoint recv_run (max : Z) (ns : list nat) (rb : recv_buf) (stream : list Z)
  : option (list (Z * list Z) * recv_buf * list Z) :=
  match ns with
  | [] => Some ([], rb, stream)
  | n :: ns' =>
      let k := Nat.min n (Z.to_nat (recv_room rb)) in
      match take k stream with
      | [] => recv_run max ns' rb stream
      | data =>
          match rd_kafka_recv max rb data with
          | RecvFail => None
          | RecvMore rb => recv_run max ns' rb (drop k stream)
          | RecvResponse corrid body =>
              match recv_run max ns' (RecvBuf [] 0) (drop k stream) with
              | Some (rs, rb, stream) => Some ((corrid, body) :: rs, rb, stream)
              | None => None
              end
          end
      end
  end.

(** A response on the wire. *)
Definition response_bytes (f : Z * list Z) : list Z :=
  be_bytes 4 (4 + zlen (snd f)) ++ be_bytes 4 (fst f) ++ snd f.

Definition response_ok (max : Z) (f : Z * list Z) : Prop :=
  - 2 ^ 31 <= fst f < 2 ^ 31 /\ 4 + zlen (snd f) <= max /\ max < 2 ^ 31.

(** The buffer holds the beginning of the first response still to come. *)
Definition recv_inv (rb : recv_buf) (stream : list Z) (fs : list (Z * list Z)) : Prop :=
  rb.(rb_bytes) ++ stream = concat (map response_bytes fs) /\
  match fs with
  | [] => rb = RecvBuf [] 0
  | f :: _ =>
      (rb.(rb_len) = 0 /\ zlen rb.(rb_bytes) < 8) \/
      (rb.(rb_len) = zlen (snd f) /\ 0 < rb.(rb_len) /\ 8 <= zlen rb.(rb_bytes) < 8 + rb.(rb_len))
  end.

Lemma recv_inv_start stream fs :
  stream = concat (map response_bytes fs) -> recv_inv (RecvBuf [] 0) stream fs.
Proof. intros ->. split; [done|]. destruct fs; [done|]. by left. Qed.

(** Data that goes into the buffers is of the first response. *)
Lemma recv_room_pos rb stream f fs :
  recv_inv rb stream (f :: fs) -> 0 < recv_room rb.
Proof.
  intros [_ H]. unfold recv_room. destruct H as [(-> & H)|(E & H1 & H2)]; cbn; [lia|].
  rewrite (proj2 (Z.eqb_neq _ _)) by lia. lia.
Qed.

Lemma response_prefix f fs got rest :
  got ++ rest = concat (map response_bytes (f :: fs)) -> 8 <= zlen got ->
  zlen got <= 8 + zlen (snd f) ->
  take 4 got = be_bytes 4 (4 + zlen (snd f)) /\ take 4 (drop 4 got) = be_bytes 4 (fst f) /\
  (zlen got = 8 + zlen (snd f) -> drop 8 got = snd f /\ rest = concat (map response_bytes fs)).
Proof.
  intros E H1 H2. cbn [map concat] in E. unfold response_bytes at 1 in E. rewrite <- !app_assoc in E.
  assert (L : (8 <= length got)%nat) by (unfold zlen in H1; lia).
  assert (T : take 8 got = be_bytes 4 (4 + zlen (snd f)) ++ be_bytes 4 (fst f)).
  { rewrite <- (take_app_le got rest) by lia. rewrite E, app_assoc.
    by rewrite take_app_length' by (rewrite length_app, !be_bytes_length; done). }
  split_and!.
  - rewrite <- (take_be 4 _ (be_bytes 4 (fst f))), <- T, take_take. done.
  - rewrite take_drop_commute. cbn [Nat.add]. by rewrite T, drop_be.
  - intros H3. apply (f_equal (drop 8)) in E. rewrite drop_app_le in E by lia.
    rewrite app_assoc in E. rewrite (drop_app_length' (be_bytes 4 _ ++ be_bytes 4 _)) in E
      by (by rewrite length_app, !be_bytes_length).
    apply app_inj_1 in E; [done|]. rewrite length_drop. unfold zlen in H3. lia.
Qed.

Lemma recv_step_ok max rb stream f fs k :
  response_ok max f -> recv_inv rb stream (f :: fs) -> (k <= Z.to_nat (recv_room rb))%nat ->
  (exists rb', rd_kafka_recv max rb (take k stream) = RecvMore rb' /\
     recv_inv rb' (drop k stream) (f :: fs)) \/
  (rd_kafka_recv max rb (take k stream) = RecvResponse (fst f) (snd f) /\
     drop k stream = concat (map response_bytes fs)).
Proof.
  intros (Hc & Hm & Hmax) Hinv Hk. pose proof (recv_room_pos _ _ _ _ Hinv) as Hroom.
  destruct Hinv as [E Hst]. pose proof (zlen_nonneg (snd f)) as Hf.
  set (got := rb_bytes rb ++ take k stream).
  assert (Eg : got ++ drop k stream = concat (map response_bytes (f :: fs)))
    by (subst got; by rewrite <- app_assoc, take_drop).
  assert (Hgot : zlen (rb_bytes rb) <= zlen got <= zlen (rb_bytes rb) + Z.of_nat k).
  { subst got. unfold zlen. rewrite length_app, length_take. lia. }
  assert (Hfin : forall len, len = zlen (snd f) -> 8 <= zlen got <= 8 + len ->
    (0 < len \/ zlen got = 8 + len) ->
    let res := if zlen got =? len + 8
               then RecvResponse (s32 (be_value (take 4 (drop 4 got)))) (drop 8 got)
               else RecvMore (RecvBuf got len) in
    (exists rb', res = RecvMore rb' /\ recv_inv rb' (drop k stream) (f :: fs)) \/
    (res = RecvResponse (fst f) (snd f) /\ drop k stream = concat (map response_bytes fs))).
  { intros len El Hl Hpos. cbn zeta.
    destruct (response_prefix f fs got _ Eg) as (T1 & T2 & T3); [lia..|].
    destruct (Z.eqb_spec (zlen got) (len + 8)) as [Heq|Hne].
    - right. destruct T3 as [-> ->]; [lia|]. rewrite T2, be_value_4. split; [|done]. f_equal.
      unfold s32, u32. rewrite Z.add_mod_idemp_l by lia. by apply s32_small.
    - left. eexists. split; [done|]. split; [done|]. right. cbn. lia. }
  unfold rd_kafka_recv. fold got. unfold recv_room in *.
  destruct Hst as [(Hl & Hb)|(Hl & Hp & Hb)].
  - rewrite Hl in *. cbn [Z.eqb] in *. destruct (Z.ltb_spec (zlen got) 8) as [Hlt|Hge].
    { left. eexists. split; [done|]. split; [done|]. left. done. }
    destruct (response_prefix f fs got _ Eg) as (T1 & T2 & T3); [lia..|].
    rewrite T1, be_value_4, u32_small by lia. rewrite (proj2 (Z.ltb_ge _ _)) by lia.
    rewrite u64_small by lia. rewrite (proj2 (Z.ltb_ge _ _)) by lia. cbn [orb].
    apply Hfin; lia.
  - rewrite (proj2 (Z.eqb_neq _ _)) in * by lia. apply Hfin; lia.
Qed.

(** Responses are put together correctly however the network cuts them. When
    the broker has sent the responses [fs], each within the limit on its size,
    then after any number of calls, with any number of bytes in each, no call
    has failed, the responses passed on are the first of [fs], whole and in
    order, and nothing of the others is lost; and after as many calls with
    data as there are bytes, all of them have been passed on. *)
Theorem recv_reassembles max ns fs :
  Forall (response_ok max) fs ->
  exists rs rb stream fs',
    recv_run max ns (RecvBuf [] 0) (concat (map response_bytes fs)) = Some (rs, rb, stream) /\
    fs = rs ++ fs' /\ rb.(rb_bytes) ++ stream = concat (map response_bytes fs') /\
    (Forall (fun n => (0 < n)%nat) ns ->
     (length (concat (map response_bytes fs)) <= length ns)%nat -> rs = fs).
Proof.
  intros Hfs. pose proof (recv_inv_start _ fs eq_refl) as Hinv.
  set (rb0 := RecvBuf [] 0) in *. set (st := concat (map response_bytes fs)) in *.
  clearbody rb0 st. revert rb0 st fs Hfs Hinv.
  induction ns as [|n ns IH]; intros rb st fs Hfs Hinv; cbn [recv_run].
  { exists [], rb, st, fs. split_and!; [done|done|apply Hinv|]. intros _ Hl.
    destruct st; [|cbn in Hl; lia]. destruct Hinv as [E Hst]. destruct fs as [|f fs]; [done|].
    exfalso. rewrite app_nil_r in E. apply (f_equal zlen) in E. cbn [map concat] in E.
    unfold response_bytes at 1 in E. autorewrite with ngx in E.
    pose proof (zlen_nonneg (snd f)). pose proof (zlen_nonneg (concat (map response_bytes fs))). lia. }
  set (k := Nat.min n _). destruct (take k st) as [|d data] eqn:Et.
  { destruct (IH rb st fs Hfs Hinv) as (rs & rb' & st' & fs' & -> & E1 & E2 & E3).
    exists rs, rb', st', fs'. split_and!; [done..|]. intros Hn Hl. apply Forall_cons in Hn as [Hn Hns].
    apply E3; [done|]. assert (length st = 0)%nat; [|lia].
    destruct fs as [|f fs]; [destruct Hinv as [E ->]; cbn in E; by rewrite E|].
    pose proof (recv_room_pos _ _ _ _ Hinv). apply (f_equal length) in Et. rewrite length_take in Et.
    cbn in Et. lia. }
  destruct fs as [|f fs].
  { destruct Hinv as [E ->]. cbn in E. rewrite E, take_nil in Et. done. }
  assert (Hdrop : (length (drop k st) + 1 <= length st)%nat).
  { rewrite length_drop. apply (f_equal length) in Et. rewrite length_take in Et. cbn in Et. lia. }
  apply Forall_cons in Hfs as [Hf Hfs].
  destruct (recv_step_ok max rb st f fs k Hf Hinv) as [(rb' & E & Hinv')|(E & Hst)];
    [subst k; lia|..]; rewrite Et in E; rewrite E.
  - destruct (IH rb' (drop k st) (f :: fs)) as (rs & rb2 & st' & fs' & -> & E1 & E2 & E3);
      [by constructor|done|].
    exists rs, rb2, st', fs'. split_and!; [done..|]. intros Hn Hl. apply Forall_cons in Hn as [_ Hn].
    apply E3; [done|]. cbn in Hl. lia.
  - destruct (IH (RecvBuf [] 0) (drop k st) fs Hfs) as (rs & rb2 & st' & fs' & -> & E1 & E2 & E3);
      [by apply recv_inv_start|].
    exists (f :: rs), rb2, st', fs'. destruct f. cbn. rewrite <- E1. split_and!; [done..|].
    intros Hn Hl. apply Forall_cons in Hn as [_ Hn]. f_equal. apply E3; [done|]. cbn in Hl. lia.
Qed.

(** Two responses, the first without a body, read a byte or two at a time. *)
Lemma recv_reassembles_witness :
  exists rs rb stream fs',
    recv_run 1000 (replicate 30 1%nat) (RecvBuf [] 0)
      (concat (map response_bytes [(7, []); (8, [1; 2; 3])])) = Some (rs, rb, stream) /\
    [(7, []); (8, [1; 2; 3])] = rs ++ fs' /\ rs = [(7, []); (8, [1; 2; 3])].
Proof.
  destruct (recv_reassembles 1000 (replicate 30 1%nat) [(7, []); (8, [1; 2; 3])])
    as (rs & rb & stream & fs' & H1 & H2 & _ & H4).
  - rewrite !Forall_cons. split_and!; try done; cbn; lia.
  - exists rs, rb, stream, fs'. split_and!; [done|done|]. apply H4.
    + apply Forall_replicate. lia.
    + vm_compute. lia.
Defined.
