(* ===== verification/RdTopic.v ===== *)
(** * Topic maintenance of librdkafka ([rdkafka_topic.c])

    What the library does to a topic when metadata arrives or time passes:
    the partition count changes, leaders are delegated, messages of the
    unassigned partition are given to partitions or failed, and expired
    messages are reported.  A partition that leaves the topic while others hold
    references to it is returned in a list of released partitions. *)

From stdpp Require Import gmap.
From S2P Require Import Prelude RdMsg.

Abbreviation RD_KAFKA_RESP_ERR_NO_ERROR := 0 (only parsing).
Abbreviation RD_KAFKA_RESP_ERR_UNKNOWN_TOPIC_OR_PART := 3 (only parsing).
Abbreviation RD_KAFKA_RESP_ERR__MSG_TIMED_OUT := (-192) (only parsing).

(** ** Undesiring a partition *)

(** Where a toppar the caller holds is linked. *)
Inductive tpref :=
  | InTopic (l : tploc)
  | InDesp (partition : Z).

(** The flags after [rd_kafka_toppar_desired_del], and whether it unlinks the
    partition from the desired list. *)
Definition desired_del_flags (tp : toppar) : toppar * bool :=
  if tp.(rktp_desired) then (with_flags tp false false, tp.(rktp_unknown))
  else (tp, false).

Fixpoint alter_desired (f : toppar -> toppar) (partition : Z) (l : list toppar) : list toppar :=
  match l with
  | [] => []
  | tp :: l' =>
      if tp.(rktp_partition) =? partition then f tp :: l'
      else tp :: alter_desired f partition l'
  end.

(** [rd_kafka_toppar_desired_del]: the topic and the partition when it has left
    the desired list.  [None] when a partition that is not in the desired
    list would be unlinked from it. *)
Definition rd_kafka_toppar_desired_del (rkt : topic) (r : tpref)
  : option (topic * option toppar) :=
  match r with
  | InTopic l =>
      match lookup_toppar l rkt with
      | None => Some (rkt, None)
      | Some tp =>
          let (tp', unlink) := desired_del_flags tp in
          if unlink then None else Some (update_toppar (fun _ => tp') l rkt, None)
      end
  | InDesp partition =>
      match rd_kafka_toppar_desired_get rkt partition with
      | None => Some (rkt, None)
      | Some tp =>
          let (tp', unlink) := desired_del_flags tp in
          if unlink
          then Some (with_desp rkt (remove_desired partition rkt.(rkt_desp)), Some tp')
          else Some (with_desp rkt (alter_desired (fun _ => tp') partition rkt.(rkt_desp)), None)
      end
  end.

(** ** Changing the number of partitions *)

(** The first loop of [rd_kafka_topic_partition_cnt_update]: [n] more slots of
    the new array from index [i] on, with the desired list. *)
Fixpoint cnt_slots (n i : nat) (p desp : list toppar) : list toppar * list toppar :=
  match n with
  | O => ([], desp)
  | S n' =>
      let (tp, desp) :=
        match p !! i with
        | Some tp => (tp, desp)
        | None =>
            match find_desired (Z.of_nat i) desp with
            | Some tp => (with_flags tp tp.(rktp_desired) false,
                          remove_desired (Z.of_nat i) desp)
            | None => (rd_kafka_toppar_new (Z.of_nat i), desp)
            end
        end in
      let (rest, desp) := cnt_slots n' (S i) p desp in
      (tp :: rest, desp)
  end.

(** The second loop: the partitions that go away. *)
Record gone_state := GoneState {
  g_rk : rdkafka;
  g_ua : option toppar;
  g_desp : list toppar;
  g_released : list toppar;
}.

Definition gone_step (s : gone_state) (tp : toppar) : option gone_state :=
  let moved :=
    match s.(g_ua) with
    | Some ua => Some (s.(g_rk), Some (rd_kafka_toppar_concat_msgq tp.(rktp_msgq) ua))
    | None =>
        match rd_kafka_msgq_purge s.(g_rk) tp.(rktp_msgq) with
        | Some rk => Some (rk, None)
        | None => None
        end
    end in
  match moved with
  | None => None
  | Some (rk, ua) =>
      let tp := with_msgq tp rd_kafka_msgq_init in
      if tp.(rktp_desired) then
        if tp.(rktp_unknown) then None
        else Some (GoneState rk ua (s.(g_desp) ++ [with_flags tp true true]) s.(g_released))
      else Some (GoneState rk ua s.(g_desp) (s.(g_released) ++ [tp]))
  end.

Fixpoint gone_loop (s : gone_state) (l : list toppar) : option gone_state :=
  match l with
  | [] => Some s
  | tp :: l' => match gone_step s tp with Some s' => gone_loop s' l' | None => None end
  end.

(** [rd_kafka_topic_partition_cnt_update]: whether the count changed, the
    instance, the topic and the released partitions.  The count is a natural
    number: a negative one, which no broker sends, is not modelled. *)
Definition rd_kafka_topic_partition_cnt_update (rk : rdkafka) (rkt : topic) (partition_cnt : nat)
  : option (Z * rdkafka * topic * list toppar) :=
  if rkt_partition_cnt rkt =? Z.of_nat partition_cnt then Some (0, rk, rkt, [])
  else
    let (rktps, desp) := cnt_slots partition_cnt 0 rkt.(rkt_p) rkt.(rkt_desp) in
    match gone_loop (GoneState rk rkt.(rkt_ua) desp []) (drop partition_cnt rkt.(rkt_p)) with
    | None => None
    | Some s =>
        Some (1, s.(g_rk),
              Topic rkt.(rkt_topic) rkt.(rkt_state) rktps s.(g_ua) s.(g_desp)
                rkt.(message_timeout_ms),
              s.(g_released))
    end.

(** ** Leaders *)

(** The partitions each broker leads ([rkb_toppars]), by node id; a partition
    is named by topic and number. *)
Definition toppar_lists : Type := gmap Z (list (list Z * Z)).

Definition tpid (rkt : topic) (tp : toppar) : list Z * Z := (rkt.(rkt_topic), tp.(rktp_partition)).

(** [TAILQ_REMOVE] from a broker's list. *)
Fixpoint remove_id (id : list Z * Z) (l : list (list Z * Z)) : list (list Z * Z) :=
  match l with
  | [] => []
  | x :: l' => if decide (x = id) then l' else x :: remove_id id l'
  end.

Definition with_leader (tp : toppar) (leader : option Z) : toppar :=
  TopPar tp.(rktp_partition) tp.(rktp_msgq) tp.(rktp_xmit_msgq) tp.(rktp_desired)
    tp.(rktp_unknown) leader tp.(rktp_c_msgs).

Definition rd_kafka_toppar_broker_delegate (rkt : topic) (tl : toppar_lists) (tp : toppar)
    (rkb : option Z) : toppar_lists * toppar :=
  if decide (tp.(rktp_leader) = rkb) then (tl, tp)
  else
    let tl := match tp.(rktp_leader) with
              | Some old => alter (remove_id (tpid rkt tp)) old tl
              | None => tl
              end in
    let tl := match rkb with
              | Some b => alter (fun l => l ++ [tpid rkt tp]) b tl
              | None => tl
              end in
    (tl, with_leader tp rkb).

(** [rd_kafka_topic_leader_update]: 1 when the leader changed; [None] when the
    partition does not exist (a failed assertion). *)
Definition rd_kafka_topic_leader_update (rkt : topic) (tl : toppar_lists) (id : Z)
    (rkb : option Z) : option (Z * topic * toppar_lists) :=
  match rd_kafka_toppar_get rkt id false with
  | None => None
  | Some l =>
      match lookup_toppar l rkt with
      | None => None
      | Some tp =>
          let '(tl', tp') := rd_kafka_toppar_broker_delegate rkt tl tp rkb in
          let upd :=
            match rkb with
            | None => match tp.(rktp_leader) with Some _ => 1 | None => 0 end
            | Some b => if decide (tp.(rktp_leader) = Some b) then 0 else 1
            end in
          Some (upd, update_toppar (fun _ => tp') l rkt, tl')
      end
  end.

(** ** Giving the unassigned messages to partitions *)

Section maintenance.
Context (partitioner : topic -> list Z -> Z -> Z -> Z).

(** The body of the loop over the unassigned messages: the topic and the
    [failed] queue. *)
Definition assign_step (s : topic * msgq) (m : kmsg) : topic * msgq :=
  let (rkt, failed) := s in
  if negb (m.(rkm_partition) =? RD_KAFKA_PARTITION_UA) &&
     (rkt_partition_cnt rkt <=? m.(rkm_partition)) &&
     negb (bool_decide (rkt.(rkt_state) = RD_KAFKA_TOPIC_S_UNKNOWN))
  then (rkt, rd_kafka_msgq_enq failed m)
  else
    let (err, rkt) := rd_kafka_msg_partitioner partitioner rkt m in
    if err =? 0 then (rkt, failed) else (rkt, rd_kafka_msgq_enq failed m).

Definition rd_kafka_topic_assign_uas (rk : rdkafka) (rkt : topic) : option (rdkafka * topic) :=
  match rkt.(rkt_ua) with
  | None => Some (rk, rkt)
  | Some ua =>
      let uas := ua.(rktp_msgq) in
      let rkt := with_ua rkt (Some (with_msgq ua rd_kafka_msgq_init)) in
      let (rkt, failed) :=
        fold_left assign_step uas.(rkmq_msgs) (rkt, rd_kafka_msgq_init) in
      if 0 <? failed.(rkmq_msg_cnt) then
        match rd_kafka_dr_msgq rk failed
                (if decide (rkt.(rkt_state) = RD_KAFKA_TOPIC_S_NOTEXISTS)
                 then RD_KAFKA_RESP_ERR__UNKNOWN_TOPIC
                 else RD_KAFKA_RESP_ERR__UNKNOWN_PARTITION) with
        | Some rk => Some (rk, rkt)
        | None => None
        end
      else Some (rk, rkt)
  end.

(** [rd_kafka_topic_metadata_none]. *)
Definition rd_kafka_topic_metadata_none (rk : rdkafka) (rkt : topic)
  : option (rdkafka * topic * list toppar) :=
  let rkt := rd_kafka_topic_set_state rkt RD_KAFKA_TOPIC_S_NOTEXISTS in
  match rd_kafka_topic_partition_cnt_update rk rkt 0 with
  | None => None
  | Some (_, rk, rkt, released) =>
      match rd_kafka_topic_assign_uas rk rkt with
      | Some (rk, rkt) => Some (rk, rkt, released)
      | None => None
      end
  end.

(** ** Metadata *)

(** A partition of a metadata reply: its id and the node id of its leader, -1 for
    none. *)
Definition md_partition : Type := Z * Z.

(** [rd_kafka_broker_find_by_nodeid] on the brokers known. *)
Definition broker_find (tl : toppar_lists) (leader : Z) : option Z :=
  if leader =? -1 then None else if decide (is_Some (tl !! leader)) then Some leader else None.

Fixpoint leader_updates (rkt : topic) (tl : toppar_lists) (upd : Z)
    (l : list (Z * option Z)) : option (Z * topic * toppar_lists) :=
  match l with
  | [] => Some (upd, rkt, tl)
  | (id, rkb) :: l' =>
      match rd_kafka_topic_leader_update rkt tl id rkb with
      | None => None
      | Some (u, rkt, tl) => leader_updates rkt tl (upd + u) l'
      end
  end.

(** [rd_kafka_topic_metadata_update] on the topic found. *)
Definition rd_kafka_topic_metadata_update (rk : rdkafka) (rkt : topic) (tl : toppar_lists)
    (err : Z) (partitions : list md_partition)
  : option (Z * rdkafka * topic * toppar_lists * list toppar) :=
  let partbrokers := map (fun '(id, leader) => (id, broker_find tl leader)) partitions in
  let rkt :=
    rd_kafka_topic_set_state rkt
      (if err =? RD_KAFKA_RESP_ERR_UNKNOWN_TOPIC_OR_PART
       then RD_KAFKA_TOPIC_S_NOTEXISTS else RD_KAFKA_TOPIC_S_EXISTS) in
  match rd_kafka_topic_partition_cnt_update rk rkt (length partitions) with
  | None => None
  | Some (upd, rk, rkt, released) =>
      match leader_updates rkt tl upd partbrokers with
      | None => None
      | Some (upd, rkt, tl) =>
          if (0 <? upd) || bool_decide (rkt.(rkt_state) = RD_KAFKA_TOPIC_S_NOTEXISTS) then
            match rd_kafka_topic_assign_uas rk rkt with
            | Some (rk, rkt) => Some (upd, rk, rkt, tl, released)
            | None => None
            end
          else Some (upd, rk, rkt, tl, released)
      end
  end.
End maintenance.

(** ** Scanning for expired messages *)

Definition scan_toppar (tp : toppar) (timedout : msgq) (now : Z) : option (toppar * msgq) :=
  match rd_kafka_msgq_age_scan tp.(rktp_msgq) timedout now with
  | Some (q, t, _) => Some (with_msgq tp q, t)
  | None => None
  end.

Fixpoint scan_toppars (l : list toppar) (timedout : msgq) (now : Z)
  : option (list toppar * msgq) :=
  match l with
  | [] => Some ([], timedout)
  | tp :: l' =>
      match scan_toppar tp timedout now with
      | None => None
      | Some (tp, t) =>
          match scan_toppars l' t now with
          | Some (l', t) => Some (tp :: l', t)
          | None => None
          end
      end
  end.

(** One topic of [rd_kafka_topic_scan_all]: the unassigned partition first.
    [stale] is whether its metadata is too old. *)
Definition scan_topic (stale : bool) (rkt : topic) (timedout : msgq) (now : Z)
  : option (topic * msgq) :=
  let rkt :=
    if negb (bool_decide (rkt.(rkt_state) = RD_KAFKA_TOPIC_S_UNKNOWN)) && stale
    then rd_kafka_topic_set_state rkt RD_KAFKA_TOPIC_S_UNKNOWN else rkt in
  match scan_toppars (option_list rkt.(rkt_ua)) timedout now with
  | None => None
  | Some (ua, t) =>
      match scan_toppars rkt.(rkt_p) t now with
      | None => None
      | Some (p, t) => Some (with_p (with_ua rkt (head ua)) p, t)
      end
  end.

Fixpoint scan_topics (l : list (bool * topic)) (timedout : msgq) (now : Z)
  : option (list topic * msgq) :=
  match l with
  | [] => Some ([], timedout)
  | (stale, rkt) :: l' =>
      match scan_topic stale rkt timedout now with
      | None => None
      | Some (rkt, t) =>
          match scan_topics l' t now with
          | Some (l', t) => Some (rkt :: l', t)
          | None => None
          end
      end
  end.

(** [rd_kafka_topic_scan_all]: the number of expired messages, the instance and
    its topics. *)
Definition rd_kafka_topic_scan_all (rk : rdkafka) (topics : list (bool * topic)) (now : Z)
  : option (Z * rdkafka * list topic) :=
  match scan_topics topics rd_kafka_msgq_init now with
  | None => None
  | Some (topics, timedout) =>
      if 0 <? timedout.(rkmq_msg_cnt) then
        match rd_kafka_dr_msgq rk timedout RD_KAFKA_RESP_ERR__MSG_TIMED_OUT with
        | Some rk => Some (timedout.(rkmq_msg_cnt), rk, topics)
        | None => None
        end
      else Some (timedout.(rkmq_msg_cnt), rk, topics)
  end.

(** ** Topic handles *)

Fixpoint rd_kafka_topic_find (name : list Z) (l : list topic) (i : nat) : option nat :=
  match l with
  | [] => None
  | rkt :: l' =>
      if beq rkt.(rkt_topic) name then Some i else rd_kafka_topic_find name l' (S i)
  end.

(** [rd_kafka_topic_new]: the index of the topic, old or new; [None] for
    [EINVAL].  A new topic has the unassigned partition and nothing else; the
    configuration [conf] (message and request timeouts) is only read for a new
    topic. *)
Definition rd_kafka_topic_new (l : list topic) (name : list Z) (conf : option (Z * Z))
  : option (nat * list topic) :=
  let bad := match conf with
             | Some (message_timeout, request_timeout) =>
                 (message_timeout <? 0) || (request_timeout <=? 0)
             | None => false
             end in
  if bad then None
  else
    match rd_kafka_topic_find name l 0 with
    | Some i => Some (i, l)
    | None =>
        let timeout := match conf with Some (m, _) => m | None => 300000 end in
        Some (length l,
              l ++ [Topic name RD_KAFKA_TOPIC_S_UNKNOWN []
                      (Some (rd_kafka_toppar_new RD_KAFKA_PARTITION_UA)) [] timeout])
    end.

(** ** Accounting

    [rk_held] are the messages waiting in delivery reports, [tp_held] those of
    a partition.  [acct may rk ms rk' ms'] says that an operation which found
    the messages [ms] and left [ms'] lost none: each is left, reported, or
    destroyed and taken off the count, the last only if [may] holds. *)

Definition rk_held (rk : rdkafka) : list kmsg := concat (map (fun r => (snd r).(rkmq_msgs)) rk.(rk_rep)).

Definition tp_held (tp : toppar) : list kmsg := toppar_msgs tp ++ tp.(rktp_xmit_msgq).(rkmq_msgs).

Definition tps_held (l : list toppar) : list kmsg := concat (map tp_held l).

#[global] Arguments tps_held : simpl never.

Definition topic_held (rkt : topic) : list kmsg := tps_held (all_toppars rkt).

Definition same_conf (rk rk' : rdkafka) : Prop :=
  rk'.(queue_buffering_max_msgs) = rk.(queue_buffering_max_msgs) /\
  rk'.(max_msg_size) = rk.(max_msg_size) /\ rk'.(rk_dr) = rk.(rk_dr).

Definition acct (may : Prop) (rk : rdkafka) (ms : list kmsg) (rk' : rdkafka) (ms' : list kmsg) : Prop :=
  same_conf rk rk' /\
  exists d, (d = [] \/ may) /\ rk'.(rk_msg_cnt) = rk.(rk_msg_cnt) - zlen d /\
    Permutation (rk_held rk' ++ ms' ++ d) (rk_held rk ++ ms).

(** The messages are all counted, within the limits on number and size. *)
Definition counted (rk : rdkafka) (ms : list kmsg) : Prop :=
  rk_ok rk /\ rk.(rk_msg_cnt) = zlen (rk_held rk ++ ms) /\
  Forall (fun m => rkm_len m <= rk.(max_msg_size)) (rk_held rk ++ ms).

Lemma zlen_Permutation {A} (l k : list A) : Permutation l k -> zlen l = zlen k.
Proof. intros H. unfold zlen. by rewrite (Permutation_length H). Qed.

Lemma acct_refl may rk ms ms' : Permutation ms' ms -> acct may rk ms rk ms'.
Proof.
  intros H. split; [done|]. exists []. rewrite zlen_nil, app_nil_r, H. split_and!; [by left|lia|done].
Qed.

Lemma acct_trans may rk1 ms1 rk2 ms2 rk3 ms3 :
  acct may rk1 ms1 rk2 ms2 -> acct may rk2 ms2 rk3 ms3 -> acct may rk1 ms1 rk3 ms3.
Proof.
  intros [(H1 & H2 & H3) (d & Hy & Hd & Hp)] [(H1' & H2' & H3') (d' & Hy' & Hd' & Hp')].
  split; [split_and!; congruence|]. exists (d' ++ d). autorewrite with ngx.
  split_and!; [destruct Hy as [->|], Hy' as [->|]; auto|lia|].
  transitivity ((rk_held rk3 ++ ms3 ++ d') ++ d); [solve_Permutation|].
  rewrite Hp', <- Hp. solve_Permutation.
Qed.

Lemma acct_frame may rk ms rk' ms' fr :
  acct may rk ms rk' ms' -> acct may rk (ms ++ fr) rk' (ms' ++ fr).
Proof.
  intros [Hc (d & Hy & Hd & Hp)]. split; [done|]. exists d. split_and!; [done..|].
  transitivity ((rk_held rk' ++ ms' ++ d) ++ fr); [solve_Permutation|].
  rewrite Hp. solve_Permutation.
Qed.

Lemma acct_counted may rk ms rk' ms' : acct may rk ms rk' ms' -> counted rk ms -> counted rk' ms'.
Proof.
  intros [(H1 & H2 & H3) (d & _ & Hd & Hp)] ((Hc & Hm & Hs) & Hn & Hz). unfold counted, rk_ok.
  rewrite H2. assert (Hz' : Forall (fun m => rkm_len m <= rk.(max_msg_size)) (rk_held rk' ++ ms')).
  { rewrite <- Hp, app_assoc in Hz. by apply Forall_app in Hz as [? _]. }
  apply zlen_Permutation in Hp. autorewrite with ngx in *.
  pose proof (zlen_nonneg d). pose proof (zlen_nonneg ms').
  pose proof (zlen_nonneg (rk_held rk')). rewrite H1. split_and!; auto; lia.
Qed.

Lemma counted_perm rk ms ms' : Permutation ms' ms -> counted rk ms -> counted rk ms'.
Proof. intros H. apply (acct_counted False). by apply acct_refl. Qed.

(** Destroying messages that are all counted. *)
Lemma destroy_msgs_ok rk l :
  rk_ok rk -> zlen l <= rk.(rk_msg_cnt) ->
  destroy_msgs rk l = Some (with_cnt rk (rk.(rk_msg_cnt) - zlen l)).
Proof.
  revert rk. induction l as [|m l IH]; intros rk Hok Hl; cbn [destroy_msgs].
  { rewrite zlen_nil. f_equal. destruct rk; unfold with_cnt; cbn. f_equal. lia. }
  rewrite zlen_cons in *. pose proof (zlen_nonneg l). destruct Hok as (Hc & Hm & Hs).
  unfold rd_kafka_msg_destroy. rewrite (proj2 (Z.ltb_lt _ _)) by lia.
  rewrite s32_small by lia. rewrite IH; cbn.
  - f_equal. unfold with_cnt. cbn. f_equal. lia.
  - unfold rk_ok. cbn. lia.
  - lia.
Qed.

Lemma purge_acct (may : Prop) rk q fr :
  may -> counted rk (q.(rkmq_msgs) ++ fr) ->
  exists rk', rd_kafka_msgq_purge rk q = Some rk' /\ acct may rk (q.(rkmq_msgs) ++ fr) rk' fr.
Proof.
  intros Hmay (Hok & Hn & _). unfold rd_kafka_msgq_purge. rewrite destroy_msgs_ok; [|done|].
  - eexists. split; [done|]. split; [done|]. exists q.(rkmq_msgs). split_and!; [by right|done|].
    unfold rk_held. cbn. solve_Permutation.
  - rewrite Hn. autorewrite with ngx. pose proof (zlen_nonneg fr).
    pose proof (zlen_nonneg (rk_held rk)). lia.
Qed.

Lemma dr_msgq_acct (may : Prop) rk q err fr :
  (rk.(rk_dr) = false -> may) -> counted rk (q.(rkmq_msgs) ++ fr) ->
  exists rk', rd_kafka_dr_msgq rk q err = Some rk' /\ acct may rk (q.(rkmq_msgs) ++ fr) rk' fr.
Proof.
  intros Hmay Hc. unfold rd_kafka_dr_msgq.
  destruct (rk_dr rk) eqn:E; [|apply purge_acct; auto].
  eexists. split; [done|]. split; [done|]. exists []. rewrite zlen_nil.
  split_and!; [by left|cbn; lia|].
  unfold rk_held. cbn. rewrite map_app, concat_app. cbn. solve_Permutation.
Qed.

(** ** Well-formed topics *)

(** The partitions of the topic are numbered by their place and known; those on
    the desired list are desired and unknown; all counters are true. *)
Record topic_ok (rkt : topic) : Prop := TopicOk {
  tok_wf : wf_topic rkt;
  tok_num : forall i tp, rkt.(rkt_p) !! i = Some tp -> tp.(rktp_partition) = Z.of_nat i;
  tok_known : Forall (fun tp => tp.(rktp_unknown) = false) rkt.(rkt_p);
  tok_desp : Forall (fun tp => tp.(rktp_desired) = true /\ tp.(rktp_unknown) = true) rkt.(rkt_desp);
}.

Lemma tps_held_app l k : tps_held (l ++ k) = tps_held l ++ tps_held k.
Proof. unfold tps_held. by rewrite map_app, concat_app. Qed.

Lemma tps_held_cons tp l : tps_held (tp :: l) = tp_held tp ++ tps_held l.
Proof. done. Qed.

#[export] Hint Rewrite tps_held_app tps_held_cons : ngx.

Lemma find_remove k l tp : find_desired k l = Some tp ->
  Permutation l (tp :: remove_desired k l) /\ tp.(rktp_partition) = k.
Proof.
  induction l as [|x l IH]; cbn; [done|].
  destruct (Z.eqb_spec (rktp_partition x) k) as [E|E]; [by intros [= <-]|].
  intros [Hp Hk]%IH. split; [|done]. rewrite Hp at 1. apply Permutation_swap.
Qed.

Lemma cnt_slots_held n i p desp rktps desp' :
  cnt_slots n i p desp = (rktps, desp') ->
  Permutation (tps_held rktps ++ tps_held (drop (i + n) p) ++ tps_held desp')
    (tps_held (drop i p) ++ tps_held desp).
Proof.
  revert i desp rktps desp'. induction n as [|n IH]; intros i desp rktps desp'; cbn.
  { intros [= <- <-]. by rewrite Nat.add_0_r. }
  replace (i + S n)%nat with (S i + n)%nat by lia.
  destruct (p !! i) as [tp|] eqn:Ei.
  { destruct (cnt_slots n (S i) p desp) as [r d] eqn:E. intros [= <- <-].
    rewrite (drop_S _ _ _ Ei), !tps_held_cons, <- app_assoc, (IH _ _ _ _ E). by rewrite app_assoc. }
  apply lookup_ge_None in Ei.
  assert (Hd : forall k, (i <= k)%nat -> drop k p = []) by (intros; apply drop_ge; lia).
  rewrite (Hd i), (Hd (S i + n)%nat) by lia.
  destruct (find_desired _ desp) as [tp|] eqn:Ef.
  all: destruct (cnt_slots n (S i) p _) as [r d] eqn:E; intros [= <- <-];
    apply IH in E; rewrite (Hd (S i)), (Hd (S i + n)%nat) in E by lia; cbn in *.
  - apply find_remove in Ef as [Hp _]. unfold tps_held in *. cbn. rewrite <- app_assoc, E.
    by rewrite Hp at 2.
  - done.
Qed.

Lemma cnt_slots_ok n i p desp rktps desp' :
  (forall k tp, p !! k = Some tp -> tp.(rktp_partition) = Z.of_nat k) ->
  Forall (fun tp => tp.(rktp_unknown) = false) p ->
  Forall (fun tp => tp.(rktp_desired) = true /\ tp.(rktp_unknown) = true) desp ->
  Forall wf_toppar p -> Forall wf_toppar desp ->
  cnt_slots n i p desp = (rktps, desp') ->
  length rktps = n /\
  (forall k tp, rktps !! k = Some tp -> tp.(rktp_partition) = Z.of_nat (i + k)) /\
  Forall (fun tp => tp.(rktp_unknown) = false /\ wf_toppar tp) rktps /\
  Forall (fun tp => tp.(rktp_desired) = true /\ tp.(rktp_unknown) = true) desp' /\
  Forall wf_toppar desp'.
Proof.
  intros Hnum Hk Hd Hwp Hwd. revert i desp rktps desp' Hd Hwd.
  induction n as [|n IH]; intros i desp rktps desp' Hd Hwd; cbn.
  { intros [= <- <-]. split_and!; auto. intros k tp H. by rewrite lookup_nil in H. }
  set (c := match p !! i with Some _ => _ | None => _ end).
  assert (Hc : c.1.(rktp_partition) = Z.of_nat i /\ c.1.(rktp_unknown) = false /\
    wf_toppar c.1 /\ Forall (fun tp => rktp_desired tp = true /\ rktp_unknown tp = true) c.2 /\
    Forall wf_toppar c.2).
  { subst c. destruct (p !! i) as [tp|] eqn:Ei.
    { rewrite Forall_lookup in Hk, Hwp. cbn. split_and!; eauto. }
    destruct (find_desired _ desp) as [tp|] eqn:Ef; cbn.
    { apply find_remove in Ef as [Hp Hn]. rewrite Hp in Hd, Hwd.
      apply Forall_cons in Hd as [_ Hd]. apply Forall_cons in Hwd as [Hw Hwd].
      split_and!; auto. }
    split_and!; done. }
  destruct c as [tp d]. cbn in Hc. destruct Hc as (H1 & H2 & H3 & H4 & H5).
  destruct (cnt_slots n (S i) p d) as [r d'] eqn:E. intros [= <- <-].
  destruct (IH _ _ _ _ H4 H5 E) as (L1 & L2 & L3 & L4 & L5).
  split_and!; auto.
  - cbn. lia.
  - intros [|k] t; cbn; [intros [= <-]; by rewrite Nat.add_0_r|].
    intros Hkt. rewrite (L2 _ _ Hkt). f_equal. lia.
Qed.

Definition g_held (s : gone_state) : list kmsg :=
  tps_held (option_list s.(g_ua)) ++ tps_held s.(g_desp) ++ tps_held s.(g_released).

(** What the second loop keeps true. *)
Record gone_ok (s : gone_state) : Prop := GoneOk {
  gok_ua : Forall wf_toppar (option_list s.(g_ua));
  gok_desp : Forall (fun tp => tp.(rktp_desired) = true /\ tp.(rktp_unknown) = true) s.(g_desp);
  gok_wfd : Forall wf_toppar s.(g_desp);
}.

Lemma gone_step_ok (may : Prop) s tp fr :
  (s.(g_ua) = None -> may) -> gone_ok s -> wf_toppar tp -> tp.(rktp_unknown) = false ->
  counted s.(g_rk) (g_held s ++ tp_held tp ++ fr) ->
  exists s', gone_step s tp = Some s' /\ gone_ok s' /\
    (is_Some s.(g_ua) -> is_Some s'.(g_ua)) /\
    acct may s.(g_rk) (g_held s ++ tp_held tp ++ fr) s'.(g_rk) (g_held s' ++ fr).
Proof.
  intros Hmay [Hu Hd Hw] [Hq Hx] Hk Hc. unfold gone_step.
  assert (Hm : exists rk ua,
    match s.(g_ua) with
    | Some ua => Some (s.(g_rk), Some (rd_kafka_toppar_concat_msgq tp.(rktp_msgq) ua))
    | None => match rd_kafka_msgq_purge s.(g_rk) tp.(rktp_msgq) with
              | Some rk => Some (rk, None) | None => None end
    end = Some (rk, ua) /\ Forall wf_toppar (option_list ua) /\
    (is_Some s.(g_ua) -> is_Some ua) /\
    acct may s.(g_rk) (g_held s ++ tp_held tp ++ fr) rk
      (tps_held (option_list ua) ++ tps_held s.(g_desp) ++ tps_held s.(g_released) ++
       rkmq_msgs tp.(rktp_xmit_msgq) ++ fr)).
  { destruct (g_ua s) as [ua|] eqn:Eu.
    - do 2 eexists. split_and!; [done| |by eexists|].
      + inversion Hu as [|? ? [H1 H2]]; subst. constructor; [|done]. split; cbn; auto with ngx.
      + apply acct_refl. unfold g_held. rewrite Eu. cbn.
        unfold tps_held, tp_held, toppar_msgs. cbn. solve_Permutation.
    - destruct (purge_acct may s.(g_rk) tp.(rktp_msgq)
        (tps_held s.(g_desp) ++ tps_held s.(g_released) ++ rkmq_msgs tp.(rktp_xmit_msgq) ++ fr))
        as (rk & -> & Ha); [by auto| |].
      { eapply counted_perm; [|exact Hc]. unfold g_held. rewrite Eu. cbn.
        unfold tp_held, toppar_msgs. solve_Permutation. }
      do 2 eexists. split_and!; [done|constructor|intros [? [=]]|].
      eapply acct_trans; [|exact Ha]. apply acct_refl. unfold g_held. rewrite Eu. cbn.
      unfold tp_held, toppar_msgs. solve_Permutation. }
  destruct Hm as (rk & ua & -> & Hua & Hsome & Ha). cbn [rktp_desired rktp_unknown with_msgq].
  rewrite Hk. destruct (rktp_desired tp); eexists; (split_and!; [done| |done|]).
  - constructor; cbn; [done| |]; apply Forall_app; (split; [done|]);
      apply Forall_singleton; by split.
  - eapply acct_trans; [exact Ha|]. apply acct_refl. unfold g_held. cbn.
    rewrite tps_held_app, tps_held_cons. unfold tp_held, toppar_msgs. cbn.
    rewrite app_nil_r. solve_Permutation.
  - by constructor.
  - eapply acct_trans; [exact Ha|]. apply acct_refl. unfold g_held. cbn.
    rewrite tps_held_app, tps_held_cons. unfold tp_held, toppar_msgs. cbn.
    rewrite app_nil_r. solve_Permutation.
Qed.

Lemma gone_loop_ok (may : Prop) l s fr :
  (s.(g_ua) = None -> may) -> gone_ok s -> Forall (fun tp => tp.(rktp_unknown) = false /\ wf_toppar tp) l ->
  counted s.(g_rk) (g_held s ++ tps_held l ++ fr) ->
  exists s', gone_loop s l = Some s' /\ gone_ok s' /\
    (is_Some s.(g_ua) -> is_Some s'.(g_ua)) /\
    acct may s.(g_rk) (g_held s ++ tps_held l ++ fr) s'.(g_rk) (g_held s' ++ fr).
Proof.
  revert s. induction l as [|tp l IH]; intros s Hmay Hs Hl Hc; cbn [gone_loop].
  { exists s. split_and!; auto. by apply acct_refl. }
  inversion Hl as [|? ? [H1 H2] H3]; subst. rewrite tps_held_cons, <- app_assoc in *.
  destruct (gone_step_ok may s tp (tps_held l ++ fr) Hmay Hs H2 H1 Hc) as (s1 & -> & Hs1 & Hu1 & Ha1).
  destruct (IH s1) as (s2 & -> & Hs2 & Hu2 & Ha2); auto.
  { intros E. apply Hmay. destruct (g_ua s); [|done]. rewrite E in Hu1.
    by destruct Hu1 as [? [=]]; eexists. }
  { by eapply acct_counted. }
  exists s2. split_and!; auto. by eapply acct_trans.
Qed.

(** ** The operations on a topic keep it well formed and its messages accounted for *)

Lemma topic_held_split rkt :
  topic_held rkt = tps_held rkt.(rkt_p) ++ tps_held (option_list rkt.(rkt_ua)) ++
                   tps_held rkt.(rkt_desp).
Proof. unfold topic_held, all_toppars. by rewrite !tps_held_app. Qed.

Lemma wf_topic_split rkt :
  wf_topic rkt <-> Forall wf_toppar rkt.(rkt_p) /\ Forall wf_toppar (option_list rkt.(rkt_ua)) /\
                   Forall wf_toppar rkt.(rkt_desp).
Proof. unfold wf_topic, all_toppars. by rewrite !Forall_app. Qed.

Definition may_drop (rk : rdkafka) (rkt : topic) : Prop :=
  rk.(rk_dr) = false \/ rkt.(rkt_ua) = None.

Lemma partition_cnt_update_ok (may : Prop) rk rkt n fr :
  (rkt.(rkt_ua) = None -> may) -> topic_ok rkt -> counted rk (topic_held rkt ++ fr) ->
  exists u rk' rkt' rel,
    rd_kafka_topic_partition_cnt_update rk rkt n = Some (u, rk', rkt', rel) /\
    topic_ok rkt' /\ length rkt'.(rkt_p) = n /\ rkt'.(rkt_state) = rkt.(rkt_state) /\
    (is_Some rkt.(rkt_ua) -> is_Some rkt'.(rkt_ua)) /\ 0 <= u /\
    acct may rk (topic_held rkt ++ fr) rk' (topic_held rkt' ++ tps_held rel ++ fr).
Proof.
  intros Hmay Hok Hc. unfold rd_kafka_topic_partition_cnt_update, rkt_partition_cnt, zlen.
  destruct (Z.eqb_spec (Z.of_nat (length rkt.(rkt_p))) (Z.of_nat n)) as [E|_].
  { exists 0, rk, rkt, []. split_and!; auto; [lia|lia|]. by apply acct_refl. }
  pose proof Hok as [Hwf Hnum Hk Hd]. apply wf_topic_split in Hwf as (Hwp & Hwu & Hwd).
  destruct (cnt_slots n 0 rkt.(rkt_p) rkt.(rkt_desp)) as [rktps desp] eqn:E.
  pose proof (cnt_slots_held _ _ _ _ _ _ E) as Hh.
  destruct (cnt_slots_ok _ _ _ _ _ _ Hnum Hk Hd Hwp Hwd E) as (L1 & L2 & L3 & L4 & L5).
  rewrite topic_held_split in *. rewrite drop_0 in Hh. cbn [Nat.add] in Hh.
  set (s0 := GoneState rk rkt.(rkt_ua) desp []).
  destruct (gone_loop_ok may (drop n rkt.(rkt_p)) s0 (tps_held rktps ++ fr))
    as (s & -> & [Gu Gd Gw] & Hsome & Ha).
  - done.
  - by constructor.
  - apply Forall_drop. apply Forall_and; auto.
  - subst s0. unfold g_held. cbn. eapply counted_perm; [|exact Hc].
    transitivity ((tps_held rktps ++ tps_held (drop n rkt.(rkt_p)) ++ tps_held desp) ++
      tps_held (option_list rkt.(rkt_ua)) ++ fr); [solve_Permutation|].
    rewrite Hh. solve_Permutation.
  - do 4 eexists. split_and!; [reflexivity| |done|done|done|lia|].
    + constructor; cbn; auto.
      * apply wf_topic_split. cbn. split_and!; auto.
        eapply Forall_impl; [exact L3|]. by intros ? [].
      * eapply Forall_impl; [exact L3|]. by intros ? [].
    + eapply acct_trans; [|eapply acct_trans; [exact Ha|]].
      * apply acct_refl. subst s0. unfold g_held. cbn.
        transitivity ((tps_held rktps ++ tps_held (drop n rkt.(rkt_p)) ++ tps_held desp) ++
          tps_held (option_list rkt.(rkt_ua)) ++ fr); [solve_Permutation|].
        rewrite Hh. solve_Permutation.
      * apply acct_refl. rewrite topic_held_split. unfold g_held. cbn. solve_Permutation.
Qed.

(** The held messages under a change of one partition. *)
Lemma update_toppar_held f l rkt tp ms :
  lookup_toppar l rkt = Some tp ->
  Permutation (tp_held (f tp)) (ms ++ tp_held tp) ->
  Permutation (topic_held (update_toppar f l rkt)) (ms ++ topic_held rkt).
Proof.
  rewrite !topic_held_split. destruct l as [i|]; cbn; intros Hl Hp.
  - destruct (alter_middle f _ _ _ Hl) as (l1 & l2 & -> & _ & ->).
    rewrite !tps_held_app, !tps_held_cons, Hp. solve_Permutation.
  - rewrite Hl. cbn. rewrite !tps_held_cons, Hp. solve_Permutation.
Qed.

(** A change of one partition that keeps its number and the unknown flag. *)
Lemma topic_ok_update f l rkt :
  (forall tp, (wf_toppar tp -> wf_toppar (f tp)) /\ rktp_partition (f tp) = rktp_partition tp /\
              rktp_unknown (f tp) = rktp_unknown tp) ->
  topic_ok rkt -> topic_ok (update_toppar f l rkt).
Proof.
  intros Hf [Hw Hn Hk Hd].
  assert (Hw' : wf_topic (update_toppar f l rkt)) by (apply wf_topic_update; [apply Hf|done]).
  destruct l as [i|]; constructor; cbn; auto.
  - intros j tp. rewrite list_lookup_alter. case_decide; [|apply Hn]. subst.
    destruct (rkt_p rkt !! j) as [t|] eqn:E; [|done]. intros [= <-].
    rewrite (proj1 (proj2 (Hf t))). by apply Hn.
  - apply Forall_alter; [done|]. intros x _ Hx. by rewrite (proj2 (proj2 (Hf x))).
Qed.

Lemma update_toppar_meta f l rkt :
  rkt_state (update_toppar f l rkt) = rkt_state rkt /\
  length (rkt_p (update_toppar f l rkt)) = length (rkt_p rkt) /\
  (is_Some rkt.(rkt_ua) <-> is_Some (update_toppar f l rkt).(rkt_ua)).
Proof.
  destruct l as [i|]; cbn; rewrite ?length_alter, ?fmap_is_Some; done.
Qed.

Section maintenance_ok.
Context (partitioner : topic -> list Z -> Z -> Z -> Z).

Lemma queued_held m rkt rkt' (err : Z) :
  rd_kafka_msg_partitioner partitioner rkt m = (err, rkt') -> topic_ok rkt ->
  topic_ok rkt' /\ rkt'.(rkt_state) = rkt.(rkt_state) /\
  (is_Some rkt.(rkt_ua) <-> is_Some rkt'.(rkt_ua)) /\
  Permutation (topic_held rkt') (if err =? 0 then m :: topic_held rkt else topic_held rkt).
Proof.
  intros E Hok. unfold rd_kafka_msg_partitioner in E.
  pose proof (choose_partition_cases partitioner rkt m) as Hc.
  destruct (choose_partition partitioner rkt m) as [e|p].
  { injection E as <- <-. split_and!; auto. by destruct Hc as [[-> _]|[-> _]]. }
  destruct (rd_kafka_toppar_get rkt p false) as [l|] eqn:El; injection E as <- <-.
  2: { rewrite decide_False by done. auto. }
  destruct (toppar_get_lookup _ _ _ _ El) as [tp Htp].
  destruct (update_toppar_meta (fun tp => rd_kafka_toppar_enq_msg m (add_c_msgs tp 1)) l rkt)
    as (M1 & M2 & M3). split_and!; auto.
  - apply topic_ok_update; [|done]. intros t. split_and!; [|done|done].
    intros [H1 H2]. split; cbn; auto with ngx.
  - cbn. apply (update_toppar_held _ _ _ _ [m] Htp). unfold tp_held, toppar_msgs. cbn.
    solve_Permutation.
Qed.

Lemma assign_step_ok rkt failed m rkt' failed' :
  topic_ok rkt -> wfq failed -> assign_step partitioner (rkt, failed) m = (rkt', failed') ->
  topic_ok rkt' /\ wfq failed' /\ rkt'.(rkt_state) = rkt.(rkt_state) /\
  (is_Some rkt.(rkt_ua) <-> is_Some rkt'.(rkt_ua)) /\
  Permutation (topic_held rkt' ++ failed'.(rkmq_msgs))
    (topic_held rkt ++ failed.(rkmq_msgs) ++ [m]).
Proof.
  intros Hok Hf. unfold assign_step. destruct (negb _ && _ && _).
  { intros [= <- <-]. split_and!; auto with ngx. }
  destruct (rd_kafka_msg_partitioner partitioner rkt m) as [err r] eqn:Ep.
  destruct (queued_held _ _ _ _ Ep Hok) as (Q1 & Q2 & Q3 & Q4).
  destruct (err =? 0); intros [= <- <-]; split_and!; auto with ngx;
    rewrite Q4; cbn; solve_Permutation.
Qed.

Lemma assign_fold_ok ms rkt failed rkt' failed' :
  topic_ok rkt -> wfq failed ->
  fold_left (assign_step partitioner) ms (rkt, failed) = (rkt', failed') ->
  topic_ok rkt' /\ wfq failed' /\ rkt'.(rkt_state) = rkt.(rkt_state) /\
  (is_Some rkt.(rkt_ua) <-> is_Some rkt'.(rkt_ua)) /\
  Permutation (topic_held rkt' ++ failed'.(rkmq_msgs))
    (topic_held rkt ++ failed.(rkmq_msgs) ++ ms).
Proof.
  revert rkt failed. induction ms as [|m ms IH]; intros rkt failed Hok Hf; cbn [fold_left].
  { intros [= <- <-]. rewrite app_nil_r. auto. }
  destruct (assign_step partitioner (rkt, failed) m) as [r f] eqn:Es. intros E.
  apply assign_step_ok in Es as (S1 & S2 & S3 & S4 & S5); [|done|done].
  apply IH in E as (H1 & H2 & H3 & H4 & H5); [|done|done].
  split_and!; auto; [congruence|by rewrite S4|].
  rewrite H5, app_assoc, S5. solve_Permutation.
Qed.

Lemma wfq_cnt_pos q : wfq q -> zlen q.(rkmq_msgs) < 2 ^ 31 -> (0 <? q.(rkmq_msg_cnt)) = false ->
  q.(rkmq_msgs) = [].
Proof.
  intros [H _] Hl. pose proof (zlen_nonneg q.(rkmq_msgs)). rewrite H, s32_small by lia.
  intros H1. apply zlen_0_nil. lia.
Qed.

Lemma counted_small rk ms : counted rk ms -> zlen ms < 2 ^ 31.
Proof.
  intros ((H1 & H2 & _) & H & _). rewrite zlen_app in H. pose proof (zlen_nonneg (rk_held rk)). lia.
Qed.

Lemma assign_uas_ok (may : Prop) rk rkt fr :
  (rk.(rk_dr) = false -> may) -> topic_ok rkt -> counted rk (topic_held rkt ++ fr) ->
  exists rk' rkt', rd_kafka_topic_assign_uas partitioner rk rkt = Some (rk', rkt') /\
    topic_ok rkt' /\ rkt'.(rkt_state) = rkt.(rkt_state) /\
    (is_Some rkt.(rkt_ua) -> is_Some rkt'.(rkt_ua)) /\
    acct may rk (topic_held rkt ++ fr) rk' (topic_held rkt' ++ fr).
Proof.
  intros Hmay Hok Hc. unfold rd_kafka_topic_assign_uas.
  destruct (rkt_ua rkt) as [ua|] eqn:Eu.
  2: { exists rk, rkt. split_and!; auto; [by rewrite Eu|]. by apply acct_refl. }
  set (rkt0 := with_ua rkt (Some (with_msgq ua rd_kafka_msgq_init))).
  assert (Hok0 : topic_ok rkt0).
  { destruct Hok as [Hw Hn Hk Hd]. constructor; auto.
    apply wf_topic_split in Hw as (W1 & W2 & W3). rewrite Eu in W2.
    apply wf_topic_split. cbn. split_and!; auto. cbn in W2. inversion W2 as [|? ? [V1 V2]]; subst.
    constructor; [|done]. by split. }
  destruct (fold_left _ _ _) as [rkt' failed] eqn:E.
  apply assign_fold_ok in E as (H1 & H2 & H3 & H4 & H5); [|done|done].
  assert (Hp : Permutation (topic_held rkt' ++ rkmq_msgs failed) (topic_held rkt)).
  { rewrite H5, !topic_held_split, Eu. cbn. rewrite !tps_held_cons.
    unfold tp_held, toppar_msgs. cbn. solve_Permutation. }
  assert (Hp' : Permutation (rkmq_msgs failed ++ topic_held rkt' ++ fr) (topic_held rkt ++ fr))
    by (rewrite <- Hp; solve_Permutation).
  assert (Hu : is_Some rkt'.(rkt_ua)) by (apply H4; by eexists).
  destruct (0 <? rkmq_msg_cnt failed) eqn:Ef.
  - destruct (dr_msgq_acct may rk failed
      (if decide (rkt_state rkt' = RD_KAFKA_TOPIC_S_NOTEXISTS) then -188 else -190)
      (topic_held rkt' ++ fr)) as (rk' & -> & Ha); [done|by eapply counted_perm|].
    exists rk', rkt'. split_and!; auto. eapply acct_trans; [|exact Ha]. by apply acct_refl.
  - apply wfq_cnt_pos in Ef; [|done|].
    + rewrite Ef in Hp'. exists rk, rkt'. split_and!; auto. by apply acct_refl.
    + apply counted_small in Hc. apply zlen_Permutation in Hp'. autorewrite with ngx in *.
      pose proof (zlen_nonneg fr). pose proof (zlen_nonneg (topic_held rkt')). lia.
Qed.
End maintenance_ok.

Lemma total_len_bound n ms : 0 <= n -> Forall (fun m => rkm_len m <= n) ms ->
  total_len ms <= n * zlen ms.
Proof.
  intros Hn. induction 1 as [|m ms Hm _ IH]; cbn [total_len].
  { unfold zlen. cbn. lia. }
  rewrite zlen_cons. lia.
Qed.

(** Counted messages are few and small enough for every queue counter. *)
Lemma counted_smallq rk ms fr : counted rk (ms ++ fr) -> smallq ms.
Proof.
  intros ((H1 & H2 & H3) & Hn & Hz). rewrite !Forall_app in Hz. destruct Hz as (_ & Hz & _).
  autorewrite with ngx in Hn. pose proof (zlen_nonneg (rk_held rk)). pose proof (zlen_nonneg fr).
  pose proof (zlen_nonneg ms). apply total_len_bound in Hz; [|lia]. split; nia.
Qed.

Lemma leader_updates_ok rkt tl upd l :
  topic_ok rkt -> 0 <= upd -> Forall (fun p => 0 <= fst p < zlen rkt.(rkt_p)) l ->
  exists upd' rkt' tl', leader_updates rkt tl upd l = Some (upd', rkt', tl') /\
    topic_ok rkt' /\ rkt'.(rkt_state) = rkt.(rkt_state) /\ upd <= upd' /\
    (is_Some rkt.(rkt_ua) <-> is_Some rkt'.(rkt_ua)) /\
    Permutation (topic_held rkt') (topic_held rkt).
Proof.
  revert rkt tl upd. induction l as [|[id rkb] l IH]; intros rkt tl upd Hok Hu Hl; cbn.
  { do 3 eexists. split_and!; [done|done|done|lia|done|done]. }
  apply Forall_cons in Hl as [Hid Hl]. cbn in Hid. unfold rd_kafka_topic_leader_update.
  destruct (rd_kafka_toppar_get rkt id false) as [lo|] eqn:Eg.
  2: { unfold rd_kafka_toppar_get, rkt_partition_cnt in Eg.
       rewrite (proj2 (Z.leb_le _ _)), (proj2 (Z.ltb_lt _ _)) in Eg by lia. done. }
  destruct (toppar_get_lookup _ _ _ _ Eg) as [tp Htp]. rewrite Htp.
  destruct (rd_kafka_toppar_broker_delegate rkt tl tp rkb) as [tl1 tp1] eqn:Ed.
  assert (Htp1 : exists ld, tp1 = with_leader tp ld).
  { unfold rd_kafka_toppar_broker_delegate in Ed. case_decide; injection Ed as <- <-.
    - exists tp.(rktp_leader). by destruct tp.
    - by eexists. }
  destruct Htp1 as [ld ->].
  destruct (update_toppar_meta (fun t => with_leader t ld) lo rkt) as (M1 & M2 & M3).
  rewrite <- (update_toppar_const (fun t => with_leader t ld) lo rkt tp Htp) in *.
  set (u := match rkb with Some _ => _ | None => _ end).
  assert (0 <= u) by (subst u; destruct rkb; [destruct (decide _)|destruct (rktp_leader tp)]; lia).
  destruct (IH (update_toppar (fun t => with_leader t ld) lo rkt) tl1 (upd + u))
    as (upd' & rkt' & tl' & -> & I1 & I2 & I3 & I4 & I5).
  - by apply topic_ok_update.
  - lia.
  - unfold zlen in *. by rewrite M2.
  - do 3 eexists. split_and!; [done|done|congruence|lia|by etransitivity|].
    rewrite I5. by apply (update_toppar_held _ _ _ _ [] Htp).
Qed.

Lemma set_state_ok rkt s : topic_ok rkt ->
  topic_ok (rd_kafka_topic_set_state rkt s) /\
  topic_held (rd_kafka_topic_set_state rkt s) = topic_held rkt /\
  (rd_kafka_topic_set_state rkt s).(rkt_ua) = rkt.(rkt_ua) /\
  (rd_kafka_topic_set_state rkt s).(rkt_p) = rkt.(rkt_p) /\
  (rd_kafka_topic_set_state rkt s).(rkt_state) = s.
Proof.
  intros [Hw Hn Hk Hd]. unfold rd_kafka_topic_set_state. case_decide; split_and!; auto.
  all: by constructor.
Qed.

Lemma scan_toppars_ok l t now fr rk :
  Forall wf_toppar l -> wfq t -> counted rk (t.(rkmq_msgs) ++ tps_held l ++ fr) ->
  exists l' t', scan_toppars l t now = Some (l', t') /\ Forall wf_toppar l' /\ wfq t' /\
    map rktp_partition l' = map rktp_partition l /\
    map rktp_unknown l' = map rktp_unknown l /\
    Permutation (t'.(rkmq_msgs) ++ tps_held l') (t.(rkmq_msgs) ++ tps_held l).
Proof.
  revert t fr. induction l as [|tp l IH]; intros t fr Hw Ht Hc; cbn [scan_toppars].
  { do 2 eexists. split_and!; auto. }
  apply Forall_cons in Hw as [[Hq Hx] Hw]. rewrite tps_held_cons in *.
  assert (Hs : smallq (t.(rkmq_msgs) ++ rkmq_msgs (rktp_msgq tp))).
  { eapply counted_smallq. eapply counted_perm; [|exact Hc]. unfold tp_held, toppar_msgs.
    rewrite <- !app_assoc. done. }
  assert (Hsq : smallq (rkmq_msgs (rktp_msgq tp))).
  { destruct Hs as [S1 S2]. autorewrite with ngx in *. pose proof (zlen_nonneg t.(rkmq_msgs)).
    pose proof (total_len_nonneg t.(rkmq_msgs)). split; lia. }
  destruct (age_scan_loop_spec _ _ t now Hq Ht Hsq (le_n _))
    as (pre & q' & t1 & E & Hq' & Ht1 & Eq & Et & _).
  unfold scan_toppar, rd_kafka_msgq_age_scan. rewrite E.
  assert (Hp1 : Permutation (t1.(rkmq_msgs) ++ tps_held l ++
      tp_held (with_msgq tp q') ++ fr) (rkmq_msgs t ++ (tp_held tp ++ tps_held l) ++ fr)).
  { rewrite Et. unfold tp_held, toppar_msgs. rewrite Eq. cbn. solve_Permutation. }
  destruct (IH t1 (tp_held (with_msgq tp q') ++ fr) Hw Ht1) as (l' & t' & -> & I1 & I2 & I3 & I4 & I5).
  { by eapply counted_perm. }
  do 2 eexists. split_and!; [done| |done| | |].
  - constructor; [by split|done].
  - cbn. by rewrite I3.
  - cbn. by rewrite I4.
  - rewrite tps_held_cons. rewrite (Permutation_app_comm (tp_held _)), app_assoc, I5, Et.
    unfold tp_held, toppar_msgs. rewrite Eq. cbn. solve_Permutation.
Qed.

Lemma scan_topic_ok stale rkt t now fr rk :
  topic_ok rkt -> wfq t -> counted rk (t.(rkmq_msgs) ++ topic_held rkt ++ fr) ->
  exists rkt' t', scan_topic stale rkt t now = Some (rkt', t') /\ topic_ok rkt' /\ wfq t' /\
    (is_Some rkt.(rkt_ua) -> is_Some rkt'.(rkt_ua)) /\
    Permutation (t'.(rkmq_msgs) ++ topic_held rkt') (t.(rkmq_msgs) ++ topic_held rkt).
Proof.
  intros Hok Ht Hc. unfold scan_topic.
  set (r := if _ && stale then _ else rkt).
  assert (Hr : topic_ok r /\ topic_held r = topic_held rkt /\ r.(rkt_ua) = rkt.(rkt_ua)).
  { subst r. destruct (_ && stale); [|done].
    by destruct (set_state_ok rkt RD_KAFKA_TOPIC_S_UNKNOWN Hok) as (? & ? & ? & _). }
  destruct Hr as (Hok' & Hh & Hua). rewrite <- Hh, <- Hua in *. clear Hh Hua Hok.
  clearbody r. pose proof Hok' as [Hw Hn Hk Hd]. apply wf_topic_split in Hw as (W1 & W2 & W3).
  rewrite topic_held_split in *.
  destruct (scan_toppars_ok (option_list r.(rkt_ua)) t now
    (tps_held r.(rkt_p) ++ tps_held r.(rkt_desp) ++ fr) rk W2 Ht)
    as (ua & t1 & -> & A1 & A2 & A3 & A4 & A5).
  { eapply counted_perm; [|exact Hc]. solve_Permutation. }
  destruct (scan_toppars_ok r.(rkt_p) t1 now (tps_held ua ++ tps_held r.(rkt_desp) ++ fr) rk W1 A2)
    as (p & t2 & -> & B1 & B2 & B3 & B4 & B5).
  { eapply counted_perm; [|exact Hc].
    transitivity ((rkmq_msgs t1 ++ tps_held ua) ++ tps_held (rkt_p r) ++ tps_held (rkt_desp r) ++ fr);
      [solve_Permutation|]. rewrite A5. solve_Permutation. }
  assert (Hua : option_list (head ua) = ua).
  { apply (f_equal length) in A3. rewrite !length_map in A3.
    destruct (rkt_ua r); cbn in A3; destruct ua as [|? [|]]; done. }
  do 2 eexists. split_and!; [done| |done| |].
  - constructor; cbn; [|..|done].
    + apply wf_topic_split. cbn. by rewrite Hua.
    + intros i tp Hi. assert (E : map rktp_partition p !! i = Some tp.(rktp_partition))
        by (by rewrite list_lookup_fmap, Hi).
      rewrite B3, list_lookup_fmap in E. destruct (rkt_p r !! i) as [tp'|] eqn:Ei; [|done].
      injection E as <-. by apply Hn.
    + rewrite <- (Forall_map rktp_unknown (fun u => u = false)), B4, Forall_map. done.
  - intros [u Hu]. cbn. rewrite Hu in A3. by destruct ua; [|eexists].
  - rewrite topic_held_split. cbn. rewrite Hua.
    transitivity ((rkmq_msgs t2 ++ tps_held p) ++ tps_held ua ++ tps_held (rkt_desp r));
      [solve_Permutation|]. rewrite B5.
    transitivity ((rkmq_msgs t1 ++ tps_held ua) ++ tps_held (rkt_p r) ++ tps_held (rkt_desp r));
      [solve_Permutation|]. rewrite A5. solve_Permutation.
Qed.

Definition topics_held (l : list topic) : list kmsg := concat (map topic_held l).

Lemma topics_held_app l k : topics_held (l ++ k) = topics_held l ++ topics_held k.
Proof. unfold topics_held. by rewrite map_app, concat_app. Qed.

(** A topic as [rd_kafka_topic_new] makes it and the operations keep it: well
    formed, with its unassigned partition. *)
Definition topic_live (rkt : topic) : Prop := topic_ok rkt /\ is_Some rkt.(rkt_ua).

Lemma scan_topics_ok l t now fr rk :
  Forall (fun x => topic_live (snd x)) l -> wfq t ->
  counted rk (t.(rkmq_msgs) ++ topics_held (map snd l) ++ fr) ->
  exists l' t', scan_topics l t now = Some (l', t') /\ Forall topic_live l' /\ wfq t' /\
    Permutation (t'.(rkmq_msgs) ++ topics_held l') (t.(rkmq_msgs) ++ topics_held (map snd l)).
Proof.
  revert t fr. induction l as [|[stale rkt] l IH]; intros t fr Hl Ht Hc; cbn [scan_topics].
  { do 2 eexists. split_and!; auto. }
  apply Forall_cons in Hl as [[Hok Hua] Hl]. cbn [map snd] in *. unfold topics_held in *.
  cbn [map concat] in *.
  destruct (scan_topic_ok stale rkt t now (concat (map topic_held (map snd l)) ++ fr) rk Hok Ht)
    as (r & t1 & -> & A1 & A2 & A3 & A4).
  { eapply counted_perm; [|exact Hc]. solve_Permutation. }
  destruct (IH t1 (topic_held r ++ fr) Hl A2) as (l' & t2 & -> & B1 & B2 & B3).
  { eapply counted_perm; [|exact Hc].
    transitivity ((rkmq_msgs t1 ++ topic_held r) ++ concat (map topic_held (map snd l)) ++ fr);
      [solve_Permutation|]. rewrite A4. solve_Permutation. }
  do 2 eexists. split_and!; [done|constructor; [split; auto|done]|done|].
  cbn. transitivity ((rkmq_msgs t2 ++ concat (map topic_held l')) ++ topic_held r);
    [solve_Permutation|]. rewrite B3.
  transitivity ((rkmq_msgs t1 ++ topic_held r) ++ concat (map topic_held (map snd l)));
    [solve_Permutation|]. rewrite A4. solve_Permutation.
Qed.

Lemma scan_all_ok (may : Prop) rk l now fr :
  (rk.(rk_dr) = false -> may) -> Forall (fun x => topic_live (snd x)) l ->
  counted rk (topics_held (map snd l) ++ fr) ->
  exists n rk' l', rd_kafka_topic_scan_all rk l now = Some (n, rk', l') /\ Forall topic_live l' /\
    acct may rk (topics_held (map snd l) ++ fr) rk' (topics_held l' ++ fr).
Proof.
  intros Hmay Hl Hc. unfold rd_kafka_topic_scan_all.
  destruct (scan_topics_ok l rd_kafka_msgq_init now fr rk Hl wfq_init Hc)
    as (l' & t & -> & A1 & A2 & A3). cbn in A3.
  assert (Hp : Permutation (rkmq_msgs t ++ topics_held l' ++ fr) (topics_held (map snd l) ++ fr))
    by (rewrite <- A3; solve_Permutation).
  destruct (0 <? rkmq_msg_cnt t) eqn:Et.
  - destruct (dr_msgq_acct may rk t RD_KAFKA_RESP_ERR__MSG_TIMED_OUT (topics_held l' ++ fr))
      as (rk' & -> & Ha); [done|by eapply counted_perm|].
    do 3 eexists. split_and!; [done|done|]. eapply acct_trans; [|exact Ha]. by apply acct_refl.
  - apply wfq_cnt_pos in Et; [|done|].
    + rewrite Et in Hp. do 3 eexists. split_and!; [done|done|]. by apply acct_refl.
    + apply counted_small in Hc. apply zlen_Permutation in Hp. autorewrite with ngx in *.
      pose proof (zlen_nonneg fr). pose proof (zlen_nonneg (topics_held l')). lia.
Qed.

Section metadata_ok.
Context (partitioner : topic -> list Z -> Z -> Z -> Z).

Lemma metadata_update_ok (may : Prop) rk rkt tl err (ps : list md_partition) fr :
  (rk.(rk_dr) = false -> may) -> topic_live rkt ->
  Forall (fun p => 0 <= fst p < zlen ps) ps -> counted rk (topic_held rkt ++ fr) ->
  exists upd rk' rkt' tl' rel,
    rd_kafka_topic_metadata_update partitioner rk rkt tl err ps
      = Some (upd, rk', rkt', tl', rel) /\ topic_live rkt' /\
    acct may rk (topic_held rkt ++ fr) rk' (topic_held rkt' ++ tps_held rel ++ fr).
Proof.
  intros Hmay [Hok Hua] Hps Hc. unfold rd_kafka_topic_metadata_update. cbv zeta.
  set (st := if err =? _ then _ else _). destruct (set_state_ok rkt st Hok) as (S1 & S2 & S3 & S4 & S5).
  rewrite <- S2 in *. rewrite <- S3 in Hua. clear S2 S3 S4 S5 Hok.
  set (r0 := rd_kafka_topic_set_state rkt st) in *. clearbody r0.
  destruct (partition_cnt_update_ok may rk r0 (length ps) fr)
    as (u & rk1 & r1 & rel & -> & A1 & A2 & A3 & A4 & A5 & A6); [|done|done|].
  { intros E. rewrite E in Hua. by destruct Hua. }
  destruct (leader_updates_ok r1 tl u
    (map (fun '(id, leader) => (id, broker_find tl leader)) ps) A1 A5)
    as (upd & r2 & tl' & -> & B1 & B2 & B3 & B4 & B5).
  { rewrite Forall_map. unfold zlen in *. rewrite A2. eapply Forall_impl; [exact Hps|].
    intros [id ld]. done. }
  assert (Hua2 : is_Some r2.(rkt_ua)) by (apply B4, A4; done).
  assert (Ha2 : acct may rk (topic_held r0 ++ fr) rk1 (topic_held r2 ++ tps_held rel ++ fr)).
  { eapply acct_trans; [exact A6|]. apply acct_refl. by rewrite B5. }
  destruct (_ || _).
  - destruct (assign_uas_ok partitioner may rk1 r2 (tps_held rel ++ fr))
      as (rk2 & r3 & -> & C1 & C2 & C3 & C4).
    + destruct Ha2 as [(_ & _ & ->) _]. done.
    + done.
    + by eapply acct_counted.
    + do 5 eexists. split_and!; [done|split; auto|]. by eapply acct_trans.
  - do 5 eexists. split_and!; [done|by split|done].
Qed.

Lemma metadata_none_ok (may : Prop) rk rkt fr :
  (rk.(rk_dr) = false -> may) -> topic_live rkt -> counted rk (topic_held rkt ++ fr) ->
  exists rk' rkt' rel,
    rd_kafka_topic_metadata_none partitioner rk rkt = Some (rk', rkt', rel) /\ topic_live rkt' /\
    acct may rk (topic_held rkt ++ fr) rk' (topic_held rkt' ++ tps_held rel ++ fr).
Proof.
  intros Hmay [Hok Hua] Hc. unfold rd_kafka_topic_metadata_none. cbv zeta.
  destruct (set_state_ok rkt RD_KAFKA_TOPIC_S_NOTEXISTS Hok) as (S1 & S2 & S3 & S4 & S5).
  rewrite <- S2 in *. rewrite <- S3 in Hua. clear S2 S3 S4 S5 Hok.
  set (r0 := rd_kafka_topic_set_state rkt _) in *. clearbody r0.
  destruct (partition_cnt_update_ok may rk r0 0 fr)
    as (u & rk1 & r1 & rel & -> & A1 & A2 & A3 & A4 & A5 & A6); [|done|done|].
  { intros E. rewrite E in Hua. by destruct Hua. }
  destruct (assign_uas_ok partitioner may rk1 r1 (tps_held rel ++ fr))
    as (rk2 & r3 & -> & C1 & C2 & C3 & C4).
  - destruct A6 as [(_ & _ & ->) _]. done.
  - done.
  - by eapply acct_counted.
  - do 3 eexists. split_and!; [done|split; auto|]. by eapply acct_trans.
Qed.
End metadata_ok.
