(* ===== verification/RdProducer.v ===== *)
(** * The producer as a whole

    The operations of [RdMsg] and [RdTopic] on one instance: its topics, its
    delivery reports and its message count.  [producer_step] runs one call of
    the application or one event of the library's own threads to its end;
    [producer_run] runs any sequence of them.  The theorems follow every
    accepted message through every interleaving of these events. *)

From stdpp Require Import gmap.
From S2P Require Import Prelude RdMsg RdTopic.

Record producer := Producer {
  p_rk : rdkafka;
  p_topics : list topic;
  p_lists : toppar_lists;
  p_released : list toppar;        (* partitions no topic holds any more *)
}.

Inductive event :=
  | EvTopicNew (name : list Z) (conf : option (Z * Z))
  | EvProduce (t : nat) (partition msgflags : Z) (payload : list Z) (key : option (list Z)) (opaque now : Z)
  | EvBatch (t : nat) (partition msgflags : Z) (msgs : list in_msg) (now : Z)
  | EvMetadata (t : nat) (err : Z) (partitions : list md_partition)
  | EvMetadataNone (t : nat)
  | EvScan (stale : list bool) (now : Z)
  | EvPoll.

(** The payloads the library accepted and those it reported back. *)
Definition trace : Type := list (list Z) * list (list Z).

(** The payloads of the messages of a batch whose error is 0. *)
Fixpoint batch_accepted (msgs : list in_msg) (errs : list Z) : list (list Z) :=
  match msgs, errs with
  | (payload, _, _) :: msgs', err :: errs' =>
      if err =? 0 then payload :: batch_accepted msgs' errs' else batch_accepted msgs' errs'
  | _, _ => []
  end.

Section producer.
Context (partitioner : topic -> list Z -> Z -> Z -> Z).

(** One event; [None] is a failed assertion of the library. An event on a topic
    handle that does not exist does nothing. *)
Definition producer_step (s : producer) (e : event) : option (producer * trace) :=
  let on (t : nat) (f : topic -> option (rdkafka * topic * toppar_lists * list toppar * trace)) :=
    match s.(p_topics) !! t with
    | None => Some (s, ([], []))
    | Some rkt =>
        match f rkt with
        | None => None
        | Some (rk, rkt, tl, rel, tr) =>
            Some (Producer rk (<[t := rkt]> s.(p_topics)) tl (s.(p_released) ++ rel), tr)
        end
    end in
  match e with
  | EvTopicNew name conf =>
      match rd_kafka_topic_new s.(p_topics) name conf with
      | Some (_, topics) => Some (Producer s.(p_rk) topics s.(p_lists) s.(p_released), ([], []))
      | None => Some (s, ([], []))
      end
  | EvProduce t partition msgflags payload key opaque now =>
      on t (fun rkt =>
        match rd_kafka_produce partitioner s.(p_rk) rkt partition msgflags payload key opaque now with
        | None => None
        | Some (res, rk, rkt) =>
            Some (rk, rkt, s.(p_lists), [],
                  (match res with None => [payload] | Some _ => [] end, []))
        end)
  | EvBatch t partition msgflags msgs now =>
      on t (fun rkt =>
        match rd_kafka_produce_batch partitioner s.(p_rk) rkt partition msgflags msgs now with
        | None => None
        | Some (_, errs, rk, rkt) =>
            Some (rk, rkt, s.(p_lists), [], (batch_accepted msgs errs, []))
        end)
  | EvMetadata t err partitions =>
      on t (fun rkt =>
        match rd_kafka_topic_metadata_update partitioner s.(p_rk) rkt s.(p_lists) err partitions with
        | None => None
        | Some (_, rk, rkt, tl, rel) => Some (rk, rkt, tl, rel, ([], []))
        end)
  | EvMetadataNone t =>
      on t (fun rkt =>
        match rd_kafka_topic_metadata_none partitioner s.(p_rk) rkt with
        | None => None
        | Some (rk, rkt, rel) => Some (rk, rkt, s.(p_lists), rel, ([], []))
        end)
  | EvScan stale now =>
      let flags := take (length s.(p_topics)) (stale ++ replicate (length s.(p_topics)) false) in
      match rd_kafka_topic_scan_all s.(p_rk) (zip flags s.(p_topics)) now with
      | None => None
      | Some (_, rk, topics) => Some (Producer rk topics s.(p_lists) s.(p_released), ([], []))
      end
  | EvPoll =>
      match rd_kafka_poll s.(p_rk) with
      | None => None
      | Some (_, rs, rk) =>
          Some (Producer rk s.(p_topics) s.(p_lists) s.(p_released),
                ([], map (fun r : report => fst (fst r)) rs))
      end
  end.

Fixpoint producer_run (s : producer) (es : list event) : option (producer * trace) :=
  match es with
  | [] => Some (s, ([], []))
  | e :: es' =>
      match producer_step s e with
      | None => None
      | Some (s, (acc, rep)) =>
          match producer_run s es' with
          | None => None
          | Some (s, (acc', rep')) => Some (s, (acc ++ acc', rep ++ rep'))
          end
      end
  end.
End producer.

(** ** Accepting messages *)

(** An operation that added the messages [new] and nothing else. *)
Definition grows (rk : rdkafka) (ms : list kmsg) (rk' : rdkafka) (ms' new : list kmsg) : Prop :=
  same_conf rk rk' /\ rk'.(rk_rep) = rk.(rk_rep) /\ Permutation ms' (new ++ ms) /\
  counted rk' ms'.

Lemma grows_refl rk ms : counted rk ms -> grows rk ms rk ms [].
Proof. done. Qed.

Lemma grows_trans rk1 ms1 rk2 ms2 rk3 ms3 n m :
  grows rk1 ms1 rk2 ms2 n -> grows rk2 ms2 rk3 ms3 m -> grows rk1 ms1 rk3 ms3 (n ++ m).
Proof.
  intros ((A1 & A2 & A3) & A4 & A5 & A6) ((B1 & B2 & B3) & B4 & B5 & B6).
  split_and!; [split_and!; congruence|congruence| |done].
  rewrite B5, A5. solve_Permutation.
Qed.

(** One more message, counted and within the limits. *)
Lemma counted_cons rk ms m :
  counted rk ms -> rk.(rk_msg_cnt) < rk.(queue_buffering_max_msgs) ->
  rkm_len m <= rk.(max_msg_size) ->
  counted (with_cnt rk (rk.(rk_msg_cnt) + 1)) (m :: ms).
Proof.
  intros ((H1 & H2 & H3) & Hn & Hz) Hlt Hm. unfold counted, rk_ok. cbn.
  rewrite !Forall_app in Hz |- *. unfold rk_held in *. cbn in *.
  autorewrite with ngx in *. split_and!; try lia; try apply Hz.
  constructor; [done|apply Hz].
Qed.

Lemma new0_fields rk rkt p fl payload key op now m :
  rd_kafka_msg_new0 rk rkt p fl payload key op now = Some m ->
  zlen payload + keylen key < 2 ^ 64 -> rk_ok rk ->
  m.(rkm_payload) = payload /\ m.(rkm_partition) = p /\ rkm_len m <= rk.(max_msg_size).
Proof.
  unfold rd_kafka_msg_new0. intros H Hl (_ & _ & Hs).
  pose proof (zlen_nonneg payload). pose proof (keylen_nonneg key).
  rewrite !u64_small in H by lia.
  destruct (Z.ltb_spec (max_msg_size rk) (zlen payload + keylen key)); [done|].
  injection H as <-. unfold rkm_len. cbn. split_and!; [done|done|lia].
Qed.

Section accept.
Context (partitioner : topic -> list Z -> Z -> Z -> Z).

(** Counting a message and giving it to the partitioner: it is queued, or the
    count is taken back. *)
Lemma partition_one rk rkt m fr :
  topic_live rkt -> counted rk (topic_held rkt ++ fr) ->
  rk.(rk_msg_cnt) < rk.(queue_buffering_max_msgs) -> rkm_len m <= rk.(max_msg_size) ->
  exists err rkt', rd_kafka_msg_partitioner partitioner rkt m = (err, rkt') /\ topic_live rkt' /\
    if err =? 0
    then grows rk (topic_held rkt ++ fr) (with_cnt rk (s32 (rk.(rk_msg_cnt) + 1)))
           (topic_held rkt' ++ fr) [m]
    else rkt' = rkt /\ rd_kafka_msg_destroy (with_cnt rk (s32 (rk.(rk_msg_cnt) + 1))) = Some rk.
Proof.
  intros [Hok Hua] Hc Hlt Hm.
  destruct (rd_kafka_msg_partitioner partitioner rkt m) as [err rkt'] eqn:E.
  destruct (queued_held _ _ _ _ _ E Hok) as (Q1 & Q2 & Q3 & Q4).
  apply partitioner_cases in E. exists err, rkt'. split_and!; [done|split; [done|by apply Q3]|].
  pose proof Hc as ((C1 & C2 & _) & _). rewrite s32_small by lia.
  destruct E as [(-> & _ & Hq & _)|(-> & He)].
  - cbn in *. split_and!; [done|done|rewrite Q4; done|].
    eapply counted_perm; [|apply counted_cons; [exact Hc|done|exact Hm]]. by rewrite Q4.
  - assert ((err =? 0) = false) as -> by (destruct He as [[-> _]|[-> _]]; done).
    split; [done|]. unfold rd_kafka_msg_destroy. cbn. rewrite (proj2 (Z.ltb_lt _ _)) by lia.
    rewrite s32_small by lia. f_equal. destruct rk. unfold with_cnt. cbn. f_equal. lia.
Qed.

Lemma produce_grows rk rkt p fl payload key op now fr :
  topic_live rkt -> counted rk (topic_held rkt ++ fr) -> zlen payload + keylen key < 2 ^ 64 ->
  exists res rk' rkt' new,
    rd_kafka_produce partitioner rk rkt p fl payload key op now = Some (res, rk', rkt') /\
    topic_live rkt' /\ grows rk (topic_held rkt ++ fr) rk' (topic_held rkt' ++ fr) new /\
    map rkm_payload new = match res with None => [payload] | Some _ => [] end.
Proof.
  intros Hlive Hc Hl. pose proof Hc as (Hrk & _ & _). pose proof Hrk as (C1 & C2 & C3).
  unfold rd_kafka_produce, rd_kafka_msg_new. cbn [queue_buffering_max_msgs with_cnt].
  assert (Hback : with_cnt (with_cnt rk (s32 (rk.(rk_msg_cnt) + 1)))
                    (s32 (s32 (rk.(rk_msg_cnt) + 1) - 1)) = rk).
  { rewrite s32_sub_l. replace (rk_msg_cnt rk + 1 - 1) with (rk_msg_cnt rk) by lia.
    rewrite (s32_small (rk_msg_cnt rk)) by lia. by destruct rk. }
  destruct (Z.ltb_spec (queue_buffering_max_msgs rk) (s32 (rk_msg_cnt rk + 1))) as [Hb|Hb].
  { rewrite Hback. eexists (Some _), _, _, []. split_and!; done. }
  rewrite s32_small in Hb by lia.
  destruct (rd_kafka_msg_new0 _ _ _ _ _ _ _ _) as [m|] eqn:E.
  2: { rewrite Hback. eexists (Some _), _, _, []. split_and!; done. }
  apply new0_fields in E as (E1 & E2 & E3); [|done|]. 2: { unfold rk_ok. cbn.
    rewrite s32_small by lia. lia. }
  destruct (partition_one rk rkt m fr) as (err & rkt' & -> & L & R); [done|done|lia|done|].
  destruct (err =? 0).
  - eexists None, _, _, [m]. split_and!; [done|done|done|cbn; by rewrite E1].
  - destruct R as [-> ->]. eexists (Some _), _, _, []. split_and!; done.
Qed.
(** ** Batches *)

Lemma batch_accepted_cons payload key priv l err errs :
  batch_accepted ((payload, key, priv) :: l) (err :: errs) =
  (if err =? 0 then [payload] else []) ++ batch_accepted l errs.
Proof. cbn. by destruct (err =? 0). Qed.

Definition in_msg_ok (im : in_msg) : Prop := zlen (fst (fst im)) + keylen (snd (fst im)) < 2 ^ 64.

(** A step of a batch without a forced partition. *)
Lemma batch_step_ua fl now s im fr :
  topic_live s.(b_rkt) -> counted s.(b_rk) (topic_held s.(b_rkt) ++ fr) -> in_msg_ok im ->
  exists s' err new, batch_step partitioner RD_KAFKA_PARTITION_UA fl now s im = Some s' /\
    topic_live s'.(b_rkt) /\ s'.(b_errs) = s.(b_errs) ++ [err] /\
    map rkm_payload new = (if err =? 0 then [fst (fst im)] else []) /\
    grows s.(b_rk) (topic_held s.(b_rkt) ++ fr) s'.(b_rk) (topic_held s'.(b_rkt) ++ fr) new.
Proof.
  destruct im as [[payload key] priv]. unfold in_msg_ok. cbn [fst snd].
  intros Hlive Hc Hl. pose proof Hc as (Hrk & _ & _). pose proof Hrk as (C1 & C2 & C3).
  unfold batch_step. cbn [Z.eqb Z.add Z.opp].
  assert (Hfail : forall ae e, e <> 0 -> exists s' err new,
    Some (BatchState s.(b_rk) s.(b_rkt) s.(b_tmpq) s.(b_good) ae (s.(b_errs) ++ [e])) = Some s' /\
    topic_live s'.(b_rkt) /\ s'.(b_errs) = s.(b_errs) ++ [err] /\
    map rkm_payload new = (if err =? 0 then [payload] else []) /\
    grows s.(b_rk) (topic_held s.(b_rkt) ++ fr) s'.(b_rk) (topic_held s'.(b_rkt) ++ fr) new).
  { intros ae e He. eexists _, e, []. rewrite (proj2 (Z.eqb_neq _ _) He). split_and!; done. }
  destruct (Z.eqb_spec (b_all_err s) 0); cbn [negb]; [|by apply Hfail].
  rewrite Z.add_0_r, s32_small by lia.
  destruct (Z.ltb_spec (queue_buffering_max_msgs (b_rk s)) (rk_msg_cnt (b_rk s) + 1));
    [by apply Hfail|].
  destruct (rd_kafka_msg_new0 _ _ _ _ _ _ _ _) as [m|] eqn:E; [|by apply Hfail].
  apply new0_fields in E as (E1 & E2 & E3); [|done|done].
  destruct (partition_one s.(b_rk) s.(b_rkt) m fr) as (err & rkt' & -> & L & R);
    [done|done|lia|done|]. rewrite s32_small in R by lia.
  destruct (Z.eqb_spec err 0) as [->|He].
  - eexists _, 0, [m]. split_and!; [done|done|done|cbn; by rewrite E1|done].
  - destruct R as [-> ->]. by apply Hfail.
Qed.

Lemma batch_loop_ua fl now l s fr :
  topic_live s.(b_rkt) -> counted s.(b_rk) (topic_held s.(b_rkt) ++ fr) -> Forall in_msg_ok l ->
  exists s' errs new, batch_loop partitioner RD_KAFKA_PARTITION_UA fl now s l = Some s' /\
    topic_live s'.(b_rkt) /\ s'.(b_errs) = s.(b_errs) ++ errs /\
    map rkm_payload new = batch_accepted l errs /\
    grows s.(b_rk) (topic_held s.(b_rkt) ++ fr) s'.(b_rk) (topic_held s'.(b_rkt) ++ fr) new.
Proof.
  revert s. induction l as [|[[payload key] priv] l IH]; intros s Hs Hc Hl; cbn [batch_loop].
  { eexists s, [], []. rewrite app_nil_r. split_and!; done. }
  apply Forall_cons in Hl as [Him Hl].
  destruct (batch_step_ua fl now s (payload, key, priv) fr Hs Hc Him)
    as (s1 & err & new & -> & A1 & A2 & A3 & A4).
  destruct (IH s1 A1) as (s2 & errs & new' & -> & B1 & B2 & B3 & B4); [apply A4|done|].
  eexists s2, (err :: errs), (new ++ new'). split_and!; [done|done| | |by eapply grows_trans].
  - rewrite B2, A2, <- app_assoc. done.
  - rewrite batch_accepted_cons, map_app, A3, B3. done.
Qed.

(** What the loop keeps true when the destination is one partition: nothing but
    the temporary queue changes. *)
Record batch_fixed (rk : rdkafka) (rkt : topic) (s : batch_state) : Prop := BatchFixed {
  bf_rk : s.(b_rk) = rk;
  bf_rkt : s.(b_rkt) = rkt;
  bf_wfq : wfq s.(b_tmpq);
  bf_good : s.(b_good) = zlen s.(b_tmpq).(rkmq_msgs);
  bf_room : rk.(rk_msg_cnt) + s.(b_good) <= rk.(queue_buffering_max_msgs);
  bf_size : Forall (fun m => rkm_len m <= rk.(max_msg_size)) s.(b_tmpq).(rkmq_msgs);
}.

Lemma batch_step_fixed rk rkt p fl now s im :
  p <> RD_KAFKA_PARTITION_UA -> rk_ok rk -> batch_fixed rk rkt s -> in_msg_ok im ->
  exists s' err new, batch_step partitioner p fl now s im = Some s' /\
    batch_fixed rk rkt s' /\ s'.(b_errs) = s.(b_errs) ++ [err] /\
    map rkm_payload new = (if err =? 0 then [fst (fst im)] else []) /\
    s'.(b_tmpq).(rkmq_msgs) = s.(b_tmpq).(rkmq_msgs) ++ new /\
    (s.(b_all_err) <> 0 -> new = [] /\ s'.(b_all_err) = s.(b_all_err)).
Proof.
  destruct im as [[payload key] priv]. unfold in_msg_ok. cbn [fst snd].
  intros Hp Hrk Hs Hl. pose proof Hrk as (C1 & C2 & C3).
  unfold batch_step. rewrite (proj2 (Z.eqb_neq _ _) Hp).
  assert (Hfail : forall ae e, e <> 0 -> (s.(b_all_err) <> 0 -> ae = s.(b_all_err)) ->
    exists s' err new,
    Some (BatchState s.(b_rk) s.(b_rkt) s.(b_tmpq) s.(b_good) ae (s.(b_errs) ++ [e])) = Some s' /\
    batch_fixed rk rkt s' /\ s'.(b_errs) = s.(b_errs) ++ [err] /\
    map rkm_payload new = (if err =? 0 then [payload] else []) /\
    s'.(b_tmpq).(rkmq_msgs) = s.(b_tmpq).(rkmq_msgs) ++ new /\
    (s.(b_all_err) <> 0 -> new = [] /\ s'.(b_all_err) = s.(b_all_err))).
  { intros ae e He Hae. eexists _, e, []. rewrite (proj2 (Z.eqb_neq _ _) He), app_nil_r.
    split_and!; auto. by destruct Hs. }
  destruct (Z.eqb_spec (b_all_err s) 0) as [Ea|]; cbn [negb]; [|by apply Hfail].
  destruct Hs as [<- <- S3 S4 S5 S6] eqn:EHs. pose proof (zlen_nonneg (rkmq_msgs (b_tmpq s))).
  rewrite s32_small by lia.
  destruct (Z.ltb_spec (queue_buffering_max_msgs (b_rk s)) (rk_msg_cnt (b_rk s) + b_good s + 1));
    [by apply Hfail|].
  destruct (rd_kafka_msg_new0 _ _ _ _ _ _ _ _) as [m|] eqn:E; [|by apply Hfail].
  apply new0_fields in E as (E1 & E2 & E3); [|done|done].
  eexists _, 0, [m]. split_and!; [done| |done|cbn; by rewrite E1|done|done].
  constructor; cbn; auto with ngx.
  - rewrite S4. autorewrite with ngx. lia.
  - lia.
  - apply Forall_app. auto.
Qed.

Lemma batch_loop_fixed rk rkt p fl now l s :
  p <> RD_KAFKA_PARTITION_UA -> rk_ok rk -> batch_fixed rk rkt s -> Forall in_msg_ok l ->
  exists s' errs new, batch_loop partitioner p fl now s l = Some s' /\
    batch_fixed rk rkt s' /\ s'.(b_errs) = s.(b_errs) ++ errs /\
    map rkm_payload new = batch_accepted l errs /\
    s'.(b_tmpq).(rkmq_msgs) = s.(b_tmpq).(rkmq_msgs) ++ new /\
    (s.(b_all_err) <> 0 -> new = []).
Proof.
  intros Hp Hrk. revert s. induction l as [|[[payload key] priv] l IH]; intros s Hs Hl;
    cbn [batch_loop].
  { eexists s, [], []. rewrite !app_nil_r. split_and!; done. }
  apply Forall_cons in Hl as [Him Hl].
  destruct (batch_step_fixed rk rkt p fl now s (payload, key, priv) Hp Hrk Hs Him)
    as (s1 & err & new & -> & A1 & A2 & A3 & A4 & A5).
  destruct (IH s1 A1 Hl) as (s2 & errs & new' & -> & B1 & B2 & B3 & B4 & B5).
  eexists s2, (err :: errs), (new ++ new'). split_and!; [done|done| | | |].
  - rewrite B2, A2, <- app_assoc. done.
  - rewrite batch_accepted_cons, map_app, A3, B3. done.
  - rewrite B4, A4, app_assoc. done.
  - intros Hae. destruct (A5 Hae) as [-> E]. rewrite B5 by congruence. done.
Qed.

Lemma get_avail_cases rkt p :
  match rd_kafka_toppar_get_avail rkt p with
  | inl e => e <> 0
  | inr l => is_Some (lookup_toppar l rkt)
  end.
Proof.
  assert (Hf : forall q,
    match match rd_kafka_toppar_get rkt q false with
          | Some l => inr l
          | None => inl (if decide (rkt.(rkt_state) = RD_KAFKA_TOPIC_S_NOTEXISTS)
                         then RD_KAFKA_RESP_ERR__UNKNOWN_TOPIC
                         else RD_KAFKA_RESP_ERR__UNKNOWN_PARTITION)
          end with
    | inl e => e <> 0 | inr l => is_Some (lookup_toppar l rkt) end).
  { intros q. destruct (rd_kafka_toppar_get rkt q false) eqn:E; [|by case_decide].
    apply toppar_get_lookup in E as [tp E]. by exists tp. }
  unfold rd_kafka_toppar_get_avail. destruct (rkt_state rkt) eqn:Es; [apply Hf| |done].
  destruct (_ =? 0); [apply Hf|]. destruct (_ <=? p); [done|apply Hf].
Qed.

(** The messages of the temporary queue, appended to one partition. *)
Lemma concat_grows rk rkt l tp q fr :
  topic_live rkt -> lookup_toppar l rkt = Some tp -> wfq q ->
  counted rk (topic_held rkt ++ fr) ->
  rk.(rk_msg_cnt) + zlen q.(rkmq_msgs) <= rk.(queue_buffering_max_msgs) ->
  Forall (fun m => rkm_len m <= rk.(max_msg_size)) q.(rkmq_msgs) ->
  let rkt' := update_toppar (fun tp =>
    rd_kafka_toppar_concat_msgq q (add_c_msgs tp (zlen q.(rkmq_msgs)))) l rkt in
  topic_live rkt' /\
  grows rk (topic_held rkt ++ fr) (with_cnt rk (rk.(rk_msg_cnt) + zlen q.(rkmq_msgs)))
    (topic_held rkt' ++ fr) q.(rkmq_msgs).
Proof.
  intros [Hok Hua] Htp Hq ((C1 & C2 & C3) & Hn & Hz) Hroom Hsz rkt'.
  assert (Hp : Permutation (topic_held rkt') (q.(rkmq_msgs) ++ topic_held rkt)).
  { apply (update_toppar_held _ _ _ _ _ Htp). unfold tp_held, toppar_msgs. cbn. solve_Permutation. }
  split; [split|].
  - apply topic_ok_update; [|done]. intros t. split_and!; [|done|done].
    intros [H1 H2]. split; cbn; auto with ngx.
  - by apply update_toppar_meta.
  - assert (Hp' : Permutation (topic_held rkt' ++ fr) (q.(rkmq_msgs) ++ topic_held rkt ++ fr))
      by (rewrite Hp; solve_Permutation).
    split_and!; [done|done|done|]. unfold counted, rk_ok, rk_held in *. cbn in *.
    rewrite !Forall_app in Hz |- *.
    assert (Hzt : Forall (fun m => rkm_len m <= max_msg_size rk) (topic_held rkt')).
    { rewrite Hp. apply Forall_app. split; [done|apply Hz]. }
    apply zlen_Permutation in Hp. autorewrite with ngx in *.
    pose proof (zlen_nonneg q.(rkmq_msgs)). split_and!; try lia; try apply Hz. done.
Qed.

Lemma produce_batch_grows rk rkt p fl l now fr :
  topic_live rkt -> counted rk (topic_held rkt ++ fr) -> Forall in_msg_ok l ->
  exists good errs rk' rkt' new,
    rd_kafka_produce_batch partitioner rk rkt p fl l now = Some (good, errs, rk', rkt') /\
    topic_live rkt' /\ grows rk (topic_held rkt ++ fr) rk' (topic_held rkt' ++ fr) new /\
    map rkm_payload new = batch_accepted l errs.
Proof.
  intros Hlive Hc Hl. unfold rd_kafka_produce_batch. pose proof Hc as ((C1 & C2 & C3) & _).
  destruct (Z.eqb_spec p RD_KAFKA_PARTITION_UA) as [->|Hp].
  { destruct (batch_loop_ua fl now l (BatchState rk rkt rd_kafka_msgq_init 0 0 []) fr Hlive Hc Hl)
      as (s & errs & new & -> & A1 & A2 & A3 & A4). cbn in A2.
    rewrite A2. do 4 eexists. exists new. split_and!; [reflexivity|done|exact A4|done]. }
  pose proof (get_avail_cases rkt p) as Hg.
  destruct (batch_loop_fixed rk rkt p fl now l
    (BatchState rk rkt rd_kafka_msgq_init 0
       match rd_kafka_toppar_get_avail rkt p with inl e => e | inr _ => 0 end []))
    as (s & errs & new & -> & A1 & A2 & A3 & A4 & A5); [done|done| |done|].
  { constructor; cbn; [done..|lia|constructor]. }
  cbn in A2, A4, A5. destruct (rd_kafka_toppar_get_avail rkt p) as [e|lo].
  { specialize (A5 Hg). subst new. destruct A1 as [<- <- _ _ _ _].
    rewrite A2. do 4 eexists. exists []. split_and!; [reflexivity|done|by apply grows_refl|by rewrite A5 in A3]. }
  destruct Hg as [tp Htp]. destruct A1 as [<- <- S3 S4 S5 S6]. rewrite <- A4 in A3.
  rewrite S4 in S5. destruct (concat_grows s.(b_rk) s.(b_rkt) lo tp s.(b_tmpq) fr) as [G1 G2]; auto.
  do 4 eexists. exists s.(b_tmpq).(rkmq_msgs).
  rewrite A2, S4. split_and!; [reflexivity|done| |done].
  pose proof (zlen_nonneg s.(b_tmpq).(rkmq_msgs)).
  destruct (Z.ltb_spec 0 (zlen s.(b_tmpq).(rkmq_msgs))); [rewrite s32_small by lia; exact G2|].
  replace (zlen s.(b_tmpq).(rkmq_msgs)) with 0 in G2 at 1 by lia.
  rewrite Z.add_0_r in G2. by destruct (b_rk s).
Qed.
End accept.

(** ** Serving delivery reports *)

Lemma dr_serve_ok err l rk :
  rk_ok rk -> zlen l <= rk.(rk_msg_cnt) ->
  exists rs, dr_serve rk err l = Some (rs, with_cnt rk (rk.(rk_msg_cnt) - zlen l)) /\
    map (fun r : report => fst (fst r)) rs = map rkm_payload l.
Proof.
  revert rk. induction l as [|m l IH]; intros rk (C1 & C2 & C3) Hl; cbn [dr_serve].
  { exists []. rewrite zlen_nil, Z.sub_0_r. by destruct rk. }
  rewrite zlen_cons in *. pose proof (zlen_nonneg l). unfold rd_kafka_msg_destroy.
  rewrite (proj2 (Z.ltb_lt _ _)), s32_small by lia.
  destruct (IH (with_cnt rk (rk.(rk_msg_cnt) - 1))) as (rs & -> & E);
    [unfold rk_ok; cbn; lia|cbn; lia|].
  eexists. split; [do 2 f_equal; unfold with_cnt; cbn; f_equal; lia|]. cbn. by rewrite E.
Qed.

Lemma serve_reports_ok l rk :
  rk_ok rk -> zlen (concat (map (fun r => rkmq_msgs (snd r)) l)) <= rk.(rk_msg_cnt) ->
  exists rs, serve_reports rk l =
      Some (rs, with_cnt rk (rk.(rk_msg_cnt) - zlen (concat (map (fun r => rkmq_msgs (snd r)) l)))) /\
    map (fun r : report => fst (fst r)) rs =
    map rkm_payload (concat (map (fun r => rkmq_msgs (snd r)) l)).
Proof.
  revert rk. induction l as [|[err q] l IH]; intros rk Hrk Hl; cbn [serve_reports map concat snd] in *.
  { exists []. rewrite zlen_nil, Z.sub_0_r. by destruct rk. }
  rewrite zlen_app in *. pose proof (zlen_nonneg q.(rkmq_msgs)).
  pose proof (zlen_nonneg (concat (map (fun r : Z * msgq => rkmq_msgs (snd r)) l))).
  destruct (dr_serve_ok err q.(rkmq_msgs) rk Hrk) as (rs & -> & E); [lia|].
  destruct (IH (with_cnt rk (rk.(rk_msg_cnt) - zlen q.(rkmq_msgs)))) as (rs' & -> & E').
  { destruct Hrk as (C1 & C2 & C3). unfold rk_ok. cbn. lia. }
  { cbn. lia. }
  eexists. split; [do 2 f_equal; unfold with_cnt; cbn; f_equal; lia|].
  by rewrite !map_app, E, E'.
Qed.

Lemma poll_ok rk ms :
  counted rk ms ->
  exists n rs rk', rd_kafka_poll rk = Some (n, rs, rk') /\ same_conf rk rk' /\
    rk'.(rk_rep) = [] /\ counted rk' ms /\
    map (fun r : report => fst (fst r)) rs = map rkm_payload (rk_held rk).
Proof.
  intros (Hrk & Hn & Hz). unfold rd_kafka_poll. rewrite zlen_app in Hn.
  pose proof (zlen_nonneg ms). pose proof (zlen_nonneg (rk_held rk)).
  destruct (serve_reports_ok rk.(rk_rep) (with_rep rk [])) as (rs & -> & E).
  { done. }
  { cbn. unfold rk_held in *. lia. }
  do 3 eexists. split_and!; [done|done|done| |exact E].
  destruct Hrk as (C1 & C2 & C3). unfold counted, rk_ok. cbn. unfold rk_held in *.
  apply Forall_app in Hz as [_ Hz]. split_and!; try done; lia.
Qed.

(** ** Every event keeps the accounts *)

Definition p_msgs (s : producer) : list kmsg :=
  topics_held s.(p_topics) ++ tps_held s.(p_released).

(** The payloads in the library: queued, in flight, or in a waiting report. *)
Definition p_payloads (s : producer) : list (list Z) :=
  map rkm_payload (rk_held s.(p_rk) ++ p_msgs s).

Definition producer_inv (s : producer) : Prop :=
  Forall topic_live s.(p_topics) /\ counted s.(p_rk) (p_msgs s).

(** Sizes that fit [size_t], and a metadata reply that numbers its partitions
    from 0. *)
Definition event_ok (e : event) : Prop :=
  match e with
  | EvProduce _ _ _ payload key _ _ => zlen payload + keylen key < 2 ^ 64
  | EvBatch _ _ _ msgs _ => Forall in_msg_ok msgs
  | EvMetadata _ _ ps => Forall (fun p => 0 <= fst p < zlen ps) ps
  | _ => True
  end.

(** What one event, or a run, does to the accounts. *)
Definition step_ok (s s' : producer) (acc rep : list (list Z)) : Prop :=
  producer_inv s' /\ same_conf s.(p_rk) s'.(p_rk) /\
  (s.(p_rk).(rk_dr) = true -> Permutation (acc ++ p_payloads s) (p_payloads s' ++ rep)).

Lemma topics_held_insert l t rkt : l !! t = Some rkt ->
  exists rest, Permutation (topics_held l) (topic_held rkt ++ rest) /\
    forall rkt', Permutation (topics_held (<[t := rkt']> l)) (topic_held rkt' ++ rest).
Proof.
  intros H. destruct (list_elem_of_split_length _ _ _ H) as (l1 & l2 & -> & ->).
  exists (topics_held (l1 ++ l2)). unfold topics_held. split.
  - rewrite !map_app, !concat_app. cbn. solve_Permutation.
  - intros rkt'. rewrite <- (Nat.add_0_r (length l1)), insert_app_r. cbn.
    rewrite !map_app, !concat_app. cbn. solve_Permutation.
Qed.

Lemma acct_step_ok s s' :
  producer_inv s -> Forall topic_live s'.(p_topics) ->
  acct (s.(p_rk).(rk_dr) = false) s.(p_rk) (p_msgs s) s'.(p_rk) (p_msgs s') ->
  step_ok s s' [] [].
Proof.
  intros [_ Hc] Hl Ha. split_and!; [by split; [|eapply acct_counted]|apply Ha|].
  intros Hdr. destruct Ha as (_ & d & [->|Hd] & _ & Hp); [|congruence].
  cbn. rewrite !app_nil_r in *. unfold p_payloads. by rewrite Hp.
Qed.

Lemma grows_step_ok s s' new :
  Forall topic_live s'.(p_topics) ->
  grows s.(p_rk) (p_msgs s) s'.(p_rk) (p_msgs s') new ->
  step_ok s s' (map rkm_payload new) [].
Proof.
  intros Hl (G1 & G2 & G3 & G4). split_and!; [by split|done|]. intros _.
  rewrite app_nil_r. unfold p_payloads, rk_held. rewrite G2, !map_app, G3, map_app.
  solve_Permutation.
Qed.

Section run.
Context (partitioner : topic -> list Z -> Z -> Z -> Z).

(** The messages of the topic an event is about, and the others. *)
Definition around (s : producer) (t : nat) (rkt : topic) (fr : list kmsg) : Prop :=
  topic_live rkt /\ counted s.(p_rk) (topic_held rkt ++ fr) /\
  Permutation (p_msgs s) (topic_held rkt ++ fr) /\
  forall rk rkt' tl rel, topic_live rkt' ->
    let s' := Producer rk (<[t := rkt']> s.(p_topics)) tl (s.(p_released) ++ rel) in
    Forall topic_live s'.(p_topics) /\
    Permutation (p_msgs s') (topic_held rkt' ++ tps_held rel ++ fr).

Lemma around_topic s t rkt :
  producer_inv s -> s.(p_topics) !! t = Some rkt -> exists fr, around s t rkt fr.
Proof.
  intros [Hl Hc] Et. destruct (topics_held_insert _ _ _ Et) as (rest & Hr & Hi).
  exists (rest ++ tps_held s.(p_released)).
  assert (Hp : Permutation (p_msgs s) (topic_held rkt ++ rest ++ tps_held (p_released s))).
  { unfold p_msgs. rewrite Hr. solve_Permutation. }
  split_and!; [by rewrite Forall_lookup in Hl; eapply Hl|by eapply counted_perm|done|].
  intros rk rkt' tl rel Hlive. split; [by apply Forall_insert|].
  unfold p_msgs. cbn [p_topics p_released]. rewrite Hi, tps_held_app. solve_Permutation.
Qed.

Lemma around_grows s t rkt fr rk' rkt' new :
  around s t rkt fr -> topic_live rkt' ->
  grows s.(p_rk) (topic_held rkt ++ fr) rk' (topic_held rkt' ++ fr) new ->
  step_ok s (Producer rk' (<[t := rkt']> s.(p_topics)) s.(p_lists) (s.(p_released) ++ []))
    (map rkm_payload new) [].
Proof.
  intros (_ & _ & Hp & H) Hl (G1 & G2 & G3 & G4).
  destruct (H rk' rkt' s.(p_lists) [] Hl) as [H1 H2].
  apply grows_step_ok; [done|]. split_and!; [done|done|by rewrite H2, Hp, G3|].
  by eapply counted_perm.
Qed.

Lemma around_acct s t rkt fr rk' rkt' tl rel :
  producer_inv s -> around s t rkt fr -> topic_live rkt' ->
  acct (s.(p_rk).(rk_dr) = false) s.(p_rk) (topic_held rkt ++ fr) rk'
    (topic_held rkt' ++ tps_held rel ++ fr) ->
  step_ok s (Producer rk' (<[t := rkt']> s.(p_topics)) tl (s.(p_released) ++ rel)) [] [].
Proof.
  intros Hinv (_ & _ & Hp & H) Hl Ha. destruct (H rk' rkt' tl rel Hl) as [H1 H2].
  apply acct_step_ok; [done|done|].
  eapply acct_trans; [apply acct_refl; symmetry; exact Hp|].
  eapply acct_trans; [exact Ha|]. by apply acct_refl.
Qed.

Lemma topic_new_step_ok s name conf i l :
  producer_inv s -> rd_kafka_topic_new s.(p_topics) name conf = Some (i, l) ->
  step_ok s (Producer s.(p_rk) l s.(p_lists) s.(p_released)) [] [].
Proof.
  intros Hinv E. pose proof Hinv as [Hl Hc]. unfold rd_kafka_topic_new in E.
  destruct (match conf with Some _ => _ | None => _ end); [done|].
  destruct (rd_kafka_topic_find _ _ _); injection E as _ <-.
  { apply acct_step_ok; [done|done|by apply acct_refl]. }
  apply acct_step_ok; [done| |].
  - cbn. apply Forall_app. split; [done|]. apply Forall_singleton. split; [|by eexists].
    constructor; cbn; [|intros j tp Hj; by rewrite lookup_nil in Hj|constructor|constructor].
    by apply Forall_singleton.
  - apply acct_refl. unfold p_msgs, topics_held. cbn. rewrite map_app, concat_app. cbn.
    by rewrite app_nil_r.
Qed.

Lemma scan_step_ok s stale now :
  producer_inv s ->
  exists s', producer_step partitioner s (EvScan stale now) = Some (s', ([], [])) /\ step_ok s s' [] [].
Proof.
  intros Hinv. pose proof Hinv as [Hl Hc]. cbn.
  set (flags := take _ _). assert (Hz : map snd (zip flags s.(p_topics)) = s.(p_topics)).
  { apply snd_zip. subst flags. rewrite length_take, length_app, length_replicate. lia. }
  destruct (scan_all_ok (s.(p_rk).(rk_dr) = false) s.(p_rk) (zip flags s.(p_topics)) now
    (tps_held s.(p_released)) (fun H => H)) as (n & rk' & l' & -> & L & A).
  { rewrite <- (Forall_map snd topic_live), Hz. done. }
  { rewrite Hz. done. }
  rewrite Hz in A. eexists. split; [done|]. by apply acct_step_ok.
Qed.

Lemma producer_step_ok s e :
  producer_inv s -> event_ok e ->
  exists s' acc rep, producer_step partitioner s e = Some (s', (acc, rep)) /\ step_ok s s' acc rep.
Proof.
  intros Hinv He.
  assert (Hskip : step_ok s s [] []) by (split_and!; [done|done|by rewrite app_nil_r]).
  destruct e as [name conf|t p fl payload key op now|t p fl l now|t err ps|t|stale now|]; cbn in *.
  2-5: destruct (p_topics s !! t) as [rkt|] eqn:Et; [|by do 3 eexists];
    destruct (around_topic _ _ _ Hinv Et) as (fr & Har); pose proof Har as (Hrkt & Hc & _).
  - destruct (rd_kafka_topic_new s.(p_topics) name conf) as [[i l]|] eqn:E; [|by do 3 eexists].
    do 3 eexists. split; [done|]. by eapply topic_new_step_ok.
  - destruct (produce_grows partitioner s.(p_rk) rkt p fl payload key op now _ Hrkt Hc He)
      as (res & rk' & rkt' & new & -> & L & G & <-).
    do 3 eexists. split; [done|]. by eapply around_grows.
  - destruct (produce_batch_grows partitioner s.(p_rk) rkt p fl l now _ Hrkt Hc He)
      as (good & errs & rk' & rkt' & new & -> & L & G & <-).
    do 3 eexists. split; [done|]. by eapply around_grows.
  - destruct (metadata_update_ok partitioner (s.(p_rk).(rk_dr) = false) s.(p_rk) rkt s.(p_lists)
      err ps fr (fun H => H) Hrkt He Hc) as (upd & rk' & rkt' & tl' & rel & -> & L & A).
    do 3 eexists. split; [done|]. by eapply around_acct.
  - destruct (metadata_none_ok partitioner (s.(p_rk).(rk_dr) = false) s.(p_rk) rkt fr
      (fun H => H) Hrkt Hc) as (rk' & rkt' & rel & -> & L & A).
    do 3 eexists. split; [done|]. by eapply around_acct.
  - destruct (scan_step_ok s stale now Hinv) as (s' & E & H). cbn in E. by do 3 eexists.
  - destruct Hinv as [Hl Hc].
    destruct (poll_ok s.(p_rk) (p_msgs s) Hc) as (n & rs & rk' & -> & P1 & P2 & P3 & P4).
    do 3 eexists. split; [done|]. split_and!; [by split|done|]. intros _.
    rewrite P4. unfold p_payloads, p_msgs, rk_held. cbn. rewrite P2, !map_app. cbn.
    solve_Permutation.
Qed.

Lemma producer_run_ok es s :
  producer_inv s -> Forall event_ok es ->
  exists s' acc rep, producer_run partitioner s es = Some (s', (acc, rep)) /\ step_ok s s' acc rep.
Proof.
  revert s. induction es as [|e es IH]; intros s Hs He; cbn [producer_run].
  { do 3 eexists. split; [done|]. split_and!; [done|done|by rewrite app_nil_r]. }
  apply Forall_cons in He as [He Hes].
  destruct (producer_step_ok s e Hs He) as (s1 & a1 & r1 & -> & A1 & (A2 & A2' & A2'') & A3).
  destruct (IH s1 A1 Hes) as (s2 & a2 & r2 & -> & B1 & (B2 & B2' & B2'') & B3).
  do 3 eexists. split; [done|]. split_and!; [done|split_and!; congruence|].
  intros Hdr. transitivity ((a1 ++ p_payloads s) ++ a2); [solve_Permutation|].
  rewrite A3 by done. transitivity ((a2 ++ p_payloads s1) ++ r1); [solve_Permutation|].
  rewrite B3 by congruence. solve_Permutation.
Qed.
End run.

(** A fresh instance. *)
Definition producer_new (max_msgs max_size : Z) (dr : bool) (tl : toppar_lists) : producer :=
  Producer (RdKafka 0 max_msgs max_size dr []) [] tl [].

(** C2: the accounts of the producer hold under every interleaving of its
    operations. From a fresh instance within the documented ranges, whatever
    sequence of calls and events follows (topics made, messages produced alone
    or in batches, metadata with more or fewer partitions or none, timeout
    scans, polls), no assertion of the library fails, [msg_cnt] is exactly the
    number of messages in the queues and waiting reports, and it never exceeds
    [queue.buffering.max.messages]. *)
Theorem producer_count_exact partitioner max_msgs max_size dr tl es :
  1 <= max_msgs <= 10000000 -> 1000 <= max_size <= 1000000000 -> Forall event_ok es ->
  exists s acc rep,
    producer_run partitioner (producer_new max_msgs max_size dr tl) es = Some (s, (acc, rep)) /\
    s.(p_rk).(rk_msg_cnt) = zlen (p_payloads s) /\ s.(p_rk).(rk_msg_cnt) <= max_msgs.
Proof.
  intros Hm Hs He.
  destruct (producer_run_ok partitioner es (producer_new max_msgs max_size dr tl))
    as (s & acc & rep & -> & (_ & Hc) & (Hq & _) & _); [|done|].
  - split; [constructor|]. split_and!; [unfold rk_ok; cbn; lia|done|constructor].
  - do 3 eexists. split_and!; [done| |].
    + destruct Hc as (_ & -> & _). unfold p_payloads, zlen. by rewrite length_map.
    + destruct Hc as ((Hc & _) & _). cbn in Hq. lia.
Qed.

(** C1: no accepted message is lost or reported twice. When the application has
    set a delivery report callback, after any sequence of calls and events the
    payloads accepted by [rd_kafka_produce] and [rd_kafka_produce_batch] are,
    with multiplicity, those still in the library and those handed to the
    callback. *)
Theorem producer_reports_once partitioner max_msgs max_size tl es :
  1 <= max_msgs <= 10000000 -> 1000 <= max_size <= 1000000000 -> Forall event_ok es ->
  exists s acc rep,
    producer_run partitioner (producer_new max_msgs max_size true tl) es = Some (s, (acc, rep)) /\
    Permutation acc (p_payloads s ++ rep).
Proof.
  intros Hm Hs He.
  destruct (producer_run_ok partitioner es (producer_new max_msgs max_size true tl))
    as (s & acc & rep & -> & _ & _ & Hp); [|done|].
  - split; [constructor|]. split_and!; [unfold rk_ok; cbn; lia|done|constructor].
  - do 3 eexists. split; [done|]. rewrite <- Hp by done. by rewrite app_nil_r.
Qed.

(** A run in which a topic appears, gets two partitions, loses one, and its
    messages expire. *)
Definition sample_events : list event :=
  [EvTopicNew (lit "access") None;
   EvProduce 0 RD_KAFKA_PARTITION_UA 2 (lit "a") None 0 10;
   EvMetadata 0 0 [(0, 1); (1, -1)];
   EvBatch 0 1 2 [(lit "b", None, 0); (lit "c", Some (lit "k"), 0)] 20;
   EvMetadata 0 0 [(0, 1)];
   EvScan [] 400000000;
   EvPoll;
   EvProduce 0 RD_KAFKA_PARTITION_UA 2 (lit "d") None 0 400000000].

Lemma producer_count_exact_witness :
  exists s acc rep,
    producer_run (fun _ _ _ _ => 0) (producer_new 10 1000 true {[1 := []]}) sample_events
      = Some (s, (acc, rep)) /\ s.(p_rk).(rk_msg_cnt) = zlen (p_payloads s).
Proof.
  destruct (producer_count_exact (fun _ _ _ _ => 0) 10 1000 true {[1 := []]} sample_events)
    as (s & acc & rep & H1 & H2 & H3).
  - lia.
  - lia.
  - repeat (constructor; cbn; try (repeat (constructor; cbn); done)).
  - eauto.
Defined.

Lemma producer_reports_once_witness :
  exists s acc rep,
    producer_run (fun _ _ _ _ => 0) (producer_new 10 1000 true {[1 := []]}) sample_events
      = Some (s, (acc, rep)) /\ Permutation acc (p_payloads s ++ rep) /\
    acc = [lit "a"; lit "b"; lit "c"; lit "d"] /\ rep = [lit "b"; lit "c"; lit "a"].
Proof.
  destruct (producer_reports_once (fun _ _ _ _ => 0) 10 1000 {[1 := []]} sample_events)
    as (s & acc & rep & H1 & H2).
  - lia.
  - lia.
  - repeat (constructor; cbn; try (repeat (constructor; cbn); done)).
  - exists s, acc, rep. split_and!; [done|done| |]; vm_compute in H1; congruence.
Defined.
