(* ===== verification/RdRequest.v ===== *)
(** * Produce requests ([rdkafka_broker.c])

    The data of a broker thread (its configuration, partitions, requests and
    queues of requests) and the making of a produce request from the transmit
    queue of a partition ([rd_kafka_broker_produce_toppar]), with what a request
    carries on the wire. *)

From S2P Require Import Prelude RdMsg RdProto RdTopic RdProducer.

(** ** Data *)

(** The configuration a broker reads; [clientid] is a Kafka string. *)
Record broker_conf := BrokerConf {
  batch_num_messages : Z;
  compression_codec : Z;
  buffering_max_ms : Z;
  max_retries : Z;
  retry_backoff_ms : Z;
  socket_max_fails : Z;
  clientid : list Z;
}.

(** A partition led by the broker, with what the broker reads of its topic.
    [bt_led] is its membership of [rkb_toppars]. *)
Record btoppar := BToppar {
  bt_tp : toppar;
  bt_topic : list Z;                (* rkt_topic *)
  bt_required_acks : Z;
  bt_request_timeout_ms : Z;
  bt_enforce_isr_cnt : Z;
  bt_isr_cnt : Z;                   (* rktp_metadata.isr_cnt *)
  bt_last_xmit : Z;                 (* rktp_ts_last_xmit *)
  bt_led : bool;
}.

Definition bt_with (b : btoppar) (tp : toppar) : btoppar :=
  BToppar tp b.(bt_topic) b.(bt_required_acks) b.(bt_request_timeout_ms) b.(bt_enforce_isr_cnt)
    b.(bt_isr_cnt) b.(bt_last_xmit) b.(bt_led).

Definition bt_xmitted (b : btoppar) (now : Z) : btoppar :=
  BToppar b.(bt_tp) b.(bt_topic) b.(bt_required_acks) b.(bt_request_timeout_ms)
    b.(bt_enforce_isr_cnt) b.(bt_isr_cnt) now b.(bt_led).

Definition bt_undelegate (b : btoppar) : btoppar :=
  BToppar b.(bt_tp) b.(bt_topic) b.(bt_required_acks) b.(bt_request_timeout_ms)
    b.(bt_enforce_isr_cnt) b.(bt_isr_cnt) b.(bt_last_xmit) false.

Definition with_xmit (tp : toppar) (q : msgq) : toppar :=
  TopPar tp.(rktp_partition) tp.(rktp_msgq) q tp.(rktp_desired) tp.(rktp_unknown)
    tp.(rktp_leader) tp.(rktp_c_msgs).

(** [rd_kafka_buf_t], a request: [rkbuf_cb] is the partition of a produce
    request, [None] for a request of another kind, whose callback is not
    modelled. *)
Record rkbuf := Rkbuf {
  rkbuf_corrid : Z;
  rkbuf_ts_retry : Z;
  rkbuf_flash : bool;               (* RD_KAFKA_OP_F_FLASH *)
  rkbuf_no_response : bool;         (* RD_KAFKA_OP_F_NO_RESPONSE *)
  rkbuf_iov : list (list Z);
  rkbuf_of : Z;
  rkbuf_retries : Z;
  rkbuf_ts_timeout : Z;
  rkbuf_msgq : msgq;
  rkbuf_cb : option nat;
}.

Definition rkbuf_len (b : rkbuf) : Z := rd_kafka_msghdr_size b.(rkbuf_iov).

Definition buf_sent (b : rkbuf) (n : Z) : rkbuf :=
  Rkbuf b.(rkbuf_corrid) b.(rkbuf_ts_retry) b.(rkbuf_flash) b.(rkbuf_no_response) b.(rkbuf_iov)
    (b.(rkbuf_of) + n) b.(rkbuf_retries) b.(rkbuf_ts_timeout) b.(rkbuf_msgq) b.(rkbuf_cb).

(** [rd_kafka_bufq_t]. *)
Record bufq := Bufq {
  rkbq_bufs : list rkbuf;
  rkbq_cnt : Z;
}.

Definition rd_kafka_bufq_init : bufq := Bufq [] 0.

Definition rd_kafka_bufq_enq (q : bufq) (b : rkbuf) : bufq :=
  Bufq (q.(rkbq_bufs) ++ [b]) (s32 (q.(rkbq_cnt) + 1)).

(** [rd_kafka_bufq_deq] of the buffer at [i]; [None] when the assertion on the
    count fails. *)
Definition rd_kafka_bufq_deq (q : bufq) (i : nat) : option bufq :=
  if 0 <? q.(rkbq_cnt)
  then Some (Bufq (delete i q.(rkbq_bufs)) (s32 (q.(rkbq_cnt) - 1)))
  else None.

Definition rd_kafka_bufq_concat (dst src : bufq) : bufq :=
  Bufq (dst.(rkbq_bufs) ++ src.(rkbq_bufs)) (s32 (dst.(rkbq_cnt) + src.(rkbq_cnt))).

(** A broker; [rkb_wire] is what its socket has taken, [rkb_timedout] and
    [rkb_isrfailed] the queues of [rd_kafka_broker_producer_serve]. The
    correlation id, a [uint32_t] given to requests as an [int32_t], is kept as
    the latter. *)
Record broker := Broker {
  rkb_rk : rdkafka;
  rkb_up : bool;                    (* RD_KAFKA_BROKER_STATE_UP *)
  rkb_toppars : list btoppar;
  rkb_outbufs : bufq;
  rkb_waitresps : bufq;
  rkb_retrybufs : bufq;
  rkb_corrid : Z;
  rkb_req_timeouts : Z;
  rkb_timedout : msgq;
  rkb_isrfailed : msgq;
  rkb_wire : list Z;
}.

Definition b_with_rk (b : broker) (rk : rdkafka) : broker :=
  Broker rk b.(rkb_up) b.(rkb_toppars) b.(rkb_outbufs) b.(rkb_waitresps) b.(rkb_retrybufs)
    b.(rkb_corrid) b.(rkb_req_timeouts) b.(rkb_timedout) b.(rkb_isrfailed) b.(rkb_wire).

Definition b_with_toppars (b : broker) (l : list btoppar) : broker :=
  Broker b.(rkb_rk) b.(rkb_up) l b.(rkb_outbufs) b.(rkb_waitresps) b.(rkb_retrybufs)
    b.(rkb_corrid) b.(rkb_req_timeouts) b.(rkb_timedout) b.(rkb_isrfailed) b.(rkb_wire).

Definition b_with_outbufs (b : broker) (q : bufq) : broker :=
  Broker b.(rkb_rk) b.(rkb_up) b.(rkb_toppars) q b.(rkb_waitresps) b.(rkb_retrybufs)
    b.(rkb_corrid) b.(rkb_req_timeouts) b.(rkb_timedout) b.(rkb_isrfailed) b.(rkb_wire).

Definition b_with_waitresps (b : broker) (q : bufq) : broker :=
  Broker b.(rkb_rk) b.(rkb_up) b.(rkb_toppars) b.(rkb_outbufs) q b.(rkb_retrybufs)
    b.(rkb_corrid) b.(rkb_req_timeouts) b.(rkb_timedout) b.(rkb_isrfailed) b.(rkb_wire).

Definition b_with_retrybufs (b : broker) (q : bufq) : broker :=
  Broker b.(rkb_rk) b.(rkb_up) b.(rkb_toppars) b.(rkb_outbufs) b.(rkb_waitresps) q
    b.(rkb_corrid) b.(rkb_req_timeouts) b.(rkb_timedout) b.(rkb_isrfailed) b.(rkb_wire).

(** ** Making a request *)

Abbreviation RD_KAFKA_PAYLOAD_IOV_MAX := 1022 (only parsing).

(** [rd_kafka_buf_push]: [None] when there is no room for another piece. *)
Definition rd_kafka_buf_push (iovcnt : Z) (iov : list (list Z)) (piece : list Z)
  : option (list (list Z)) :=
  if zlen iov + 1 <=? iovcnt then Some (iov ++ [piece]) else None.

Fixpoint push_all (iovcnt : Z) (iov pieces : list (list Z)) : option (list (list Z)) :=
  match pieces with
  | [] => Some iov
  | p :: pieces' =>
      match rd_kafka_buf_push iovcnt iov p with
      | Some iov => push_all iovcnt iov pieces'
      | None => None
      end
  end.

(** The number of messages a request may take, and of its pieces. *)
Definition msgset_limit (batch : Z) (xmit : msgq) : option (Z * Z) :=
  if (0 <? xmit.(rkmq_msg_cnt)) && (zlen xmit.(rkmq_msgs) =? 0) then None
  else
    let msgcnt := Z.min xmit.(rkmq_msg_cnt) batch in
    if 0 <? msgcnt then
      let iovcnt := 3 + 4 * msgcnt in
      if RD_KAFKA_PAYLOAD_IOV_MAX <? iovcnt
      then Some (RD_KAFKA_PAYLOAD_IOV_MAX / 4 - 3, RD_KAFKA_PAYLOAD_IOV_MAX)
      else Some (msgcnt, iovcnt)
    else None.

(** The loop that fills the message set: what is left of the queue, the
    messages taken, the pieces and [MessageSetSize]. *)
Fixpoint fill_loop (msgcnt : nat) (max_size iovcnt : Z) (xmit taken : msgq)
    (iov : list (list Z)) (size : Z) : option (msgq * msgq * list (list Z) * Z) :=
  match msgcnt, xmit.(rkmq_msgs) with
  | S n, m :: _ =>
      if u64 max_size <? u64 (size + rkm_len m) then Some (xmit, taken, iov, size)
      else
        match rd_kafka_msgq_deq xmit true with
        | None => None
        | Some (m, xmit) =>
            match push_all iovcnt iov (message_iov m) with
            | None => None
            | Some iov =>
                fill_loop n max_size iovcnt xmit (rd_kafka_msgq_enq taken m) iov
                  (s32 (size + (8 + 4 + message_size m)))
            end
        end
  | _, _ => Some (xmit, taken, iov, size)
  end.

(** [part1], [part2] and the request header. *)
Definition prodhdr_part1 (t : btoppar) : list Z :=
  be_bytes 2 t.(bt_required_acks) ++ be_bytes 4 t.(bt_request_timeout_ms) ++ be_bytes 4 1.

Definition prodhdr_part2 (t : btoppar) (size : Z) : list Z :=
  be_bytes 4 1 ++ be_bytes 4 t.(bt_tp).(rktp_partition) ++ be_bytes 4 size.

Definition reqhdr (size corrid : Z) : list Z :=
  be_bytes 4 size ++ be_bytes 2 0 ++ be_bytes 2 0 ++ be_bytes 4 corrid.

Section produce.
Context (c : broker_conf).
(** Compression of a message set with the configured codec: [None] when it
    fails, and the set is sent as it is. *)
Context (compress : Z -> list Z -> option (list Z)).

(** The pieces of a filled message set after compression, and its size. *)
Definition compress_set (iovcnt : Z) (iov : list (list Z)) (size : Z)
  : option (list (list Z) * Z) :=
  if c.(compression_codec) =? 0 then Some (iov, size)
  else
    match compress c.(compression_codec) (concat (drop 5 iov)) with
    | None => Some (iov, size)
    | Some out =>
        match rd_kafka_buf_push iovcnt (take 5 iov) (wrapper_bytes c.(compression_codec) out) with
        | Some iov => Some (iov, s32 (26 + zlen out))
        | None => None
        end
    end.

(** [rd_kafka_broker_produce_toppar] up to [rd_kafka_broker_buf_enq1], which
    numbers the request and sets its first two pieces: the request, [None]
    when no message was added (-1), and what is left of the transmit queue. *)
Definition make_request (max_size corrid : Z) (i : nat) (t : btoppar)
  : option (option rkbuf * msgq) :=
  let xmit := t.(bt_tp).(rktp_xmit_msgq) in
  match msgset_limit c.(batch_num_messages) xmit with
  | None => None
  | Some (msgcnt, iovcnt) =>
      let iovcnt := iovcnt + 2 in
      if IOV_MAX <? iovcnt then None
      else
        match push_all iovcnt [[]; []]
                [prodhdr_part1 t; rd_kafkap_str_new (Some t.(bt_topic)); prodhdr_part2 t 0] with
        | None => None
        | Some iov =>
            match fill_loop (Z.to_nat msgcnt) max_size iovcnt xmit rd_kafka_msgq_init iov 0 with
            | None => None
            | Some (xmit, taken, iov, size) =>
                if taken.(rkmq_msg_cnt) =? 0 then Some (None, xmit)
                else
                match taken.(rkmq_msgs) with
                | [] => None
                | first :: _ =>
                    match compress_set iovcnt iov size with
                    | None => None
                    | Some (iov, size) =>
                        let iov := <[4%nat := prodhdr_part2 t size]> iov in
                        let iov := <[1%nat := c.(clientid)]> iov in
                        let iov := <[0%nat := reqhdr 0 corrid]> iov in
                        let iov := <[0%nat := reqhdr (rd_kafka_msghdr_size iov - 4) corrid]> iov in
                        Some (Some (Rkbuf corrid 0 false (t.(bt_required_acks) =? 0) iov 0 0
                                      first.(rkm_ts_timeout) taken (Some i)), xmit)
                    end
                end
            end
        end
  end.
End produce.

(** ** Requests: what they hold *)

Lemma push_all_ok iovcnt iov pieces :
  zlen iov + zlen pieces <= iovcnt -> push_all iovcnt iov pieces = Some (iov ++ pieces).
Proof.
  revert iov. induction pieces as [|p pieces IH]; intros iov H; cbn [push_all].
  { by rewrite app_nil_r. }
  autorewrite with ngx in H. pose proof (zlen_nonneg pieces). unfold rd_kafka_buf_push.
  rewrite (proj2 (Z.leb_le _ _)) by lia. rewrite IH by (autorewrite with ngx; lia).
  by rewrite <- app_assoc.
Qed.

(** A message within the limit on the size of messages. *)
Definition sized (max : Z) (m : kmsg) : Prop := keylen m.(rkm_key) + rkm_len m <= max.

Lemma sized_fits max m : max <= 1000000000 -> sized max m -> msg_fits m.
Proof. unfold sized, msg_fits. lia. Qed.

Lemma zlen_message m : msg_fits m -> zlen (message_bytes m) = 12 + message_size m.
Proof.
  intros Hm. rewrite message_size_ok, message_bytes_eq by done. unfold msg_header.
  autorewrite with ngx. rewrite !zlen_bytes_new. change (zlen [0; 0]) with 2.
  change (keylen (Some (rkm_payload m))) with (rkm_len m). lia.
Qed.

Lemma fill_loop_ok max iovcnt n xmit taken iov size :
  0 < max <= 1000000000 -> wfq xmit -> wfq taken ->
  smallq (taken.(rkmq_msgs) ++ xmit.(rkmq_msgs)) -> Forall (sized max) xmit.(rkmq_msgs) ->
  zlen iov + 4 * Z.of_nat n <= iovcnt -> 0 <= size <= 2 * max + 26 ->
  exists l1 l2 xmit' taken',
    fill_loop n max iovcnt xmit taken iov size =
      Some (xmit', taken', iov ++ concat (map message_iov l1),
            size + zlen (concat (map message_bytes l1))) /\
    xmit.(rkmq_msgs) = l1 ++ l2 /\ xmit'.(rkmq_msgs) = l2 /\ wfq xmit' /\
    taken'.(rkmq_msgs) = taken.(rkmq_msgs) ++ l1 /\ wfq taken' /\ (length l1 <= n)%nat /\
    size + zlen (concat (map message_bytes l1)) <= 2 * max + 26 /\
    (size = 0 -> n <> O -> xmit.(rkmq_msgs) <> [] -> l1 <> []).
Proof.
  intros Hmax. revert xmit taken iov size.
  induction n as [|n IH]; intros xmit taken iov size Hx Ht Hs Hz Hiov Hsz.
  { exists [], xmit.(rkmq_msgs), xmit, taken. cbn. rewrite !app_nil_r, zlen_nil, Z.add_0_r.
    split_and!; try done; lia. }
  cbn [fill_loop]. destruct (rkmq_msgs xmit) as [|m ms] eqn:Em.
  { exists [], [], xmit, taken. cbn. rewrite !app_nil_r, zlen_nil, Z.add_0_r.
    split_and!; try done; try lia. }
  pose proof (Forall_cons_1 _ _ _ Hz) as [Hm Hms]. pose proof (keylen_nonneg m.(rkm_key)).
  pose proof (rkm_len_nonneg m). unfold sized in Hm. rewrite !u64_small by lia.
  destruct (Z.ltb_spec max (size + rkm_len m)) as [Hbig|Hok].
  { exists [], (m :: ms), xmit, taken. cbn. rewrite !app_nil_r, zlen_nil, Z.add_0_r.
    split_and!; try done; try lia. }
  assert (Hsx : smallq (m :: ms)).
  { destruct Hs as [A B]. autorewrite with ngx in A. rewrite total_len_app in B.
    pose proof (zlen_nonneg taken.(rkmq_msgs)). pose proof (total_len_nonneg taken.(rkmq_msgs)).
    split; [rewrite zlen_cons|]; lia. }
  destruct (deq_ok xmit m ms Hx) as (xmit1 & -> & Ex & Hx1); [by rewrite Em|done|].
  rewrite push_all_ok by (change (zlen (message_iov m)) with 4; lia).
  assert (Hfit : msg_fits m) by (apply (sized_fits max); [lia|exact Hm]).
  pose proof (zlen_message m Hfit) as El. rewrite message_size_ok in El |- * by done.
  rewrite s32_small by lia.
  destruct (IH xmit1 (rd_kafka_msgq_enq taken m) (iov ++ message_iov m)
              (size + (8 + 4 + (14 + keylen (rkm_key m) + rkm_len m))))
    as (l1 & l2 & xmit' & taken' & E & E1 & E2 & H1 & E3 & H2 & Hl & Hb & _).
  - done.
  - by apply wfq_enq.
  - cbn. rewrite Ex, <- app_assoc. done.
  - by rewrite Ex.
  - autorewrite with ngx. change (zlen (message_iov m)) with 4. lia.
  - lia.
  - exists (m :: l1), l2, xmit', taken'. rewrite E. cbn [map concat rkmq_msgs rd_kafka_msgq_enq].
    autorewrite with ngx. rewrite Ex in E1. rewrite El, E3, E1. cbn. rewrite <- !app_assoc. cbn.
    split_and!; try done; try lia. do 2 f_equal. lia.
Qed.

Section requests.
Context (c : broker_conf) (compress : Z -> list Z -> option (list Z)).
Context (gz snappy_java snappy : list Z -> option (list Z)).

(** The codec is one of those there are, and reading inverts writing. *)
Definition codec_inverts : Prop :=
  0 <= c.(compression_codec) <= 2 /\
  forall x out, compress c.(compression_codec) x = Some out ->
    uncompress gz snappy_java snappy c.(compression_codec) out (zlen out) = Some x.

(** Compressed sets and names are of a size that fits their length fields. *)
Definition sizes_ok (t : btoppar) : Prop :=
  (forall x out, compress c.(compression_codec) x = Some out -> zlen out < 2 ^ 31 - 64) /\
  zlen c.(clientid) < 2 ^ 15 /\ zlen t.(bt_topic) < 2 ^ 15.

(** A produce request with the message set [set] on the wire. *)
Definition request_frame (corrid : Z) (t : btoppar) (set : list Z) : list Z :=
  let body := c.(clientid) ++ prodhdr_part1 t ++ rd_kafkap_str_new (Some t.(bt_topic)) ++
              prodhdr_part2 t (zlen set) ++ set in
  reqhdr (8 + zlen body) corrid ++ body.

(** A partition with messages to send. *)
Definition xmit_ok (max : Z) (q : msgq) : Prop :=
  wfq q /\ smallq q.(rkmq_msgs) /\ Forall (sized max) q.(rkmq_msgs).

Lemma handle_nil fuel : rd_kafka_messageset_handle gz snappy_java snappy fuel [] = [].
Proof. by destruct fuel. Qed.

Lemma zlen_message_iovs l : zlen (concat (map message_iov l)) = 4 * zlen l.
Proof.
  induction l as [|m l IH]; [done|]. cbn [map concat]. autorewrite with ngx. rewrite IH.
  change (zlen (message_iov m)) with 4. lia.
Qed.

Lemma zlen_insert {A} i (x : A) l : zlen (<[i := x]> l) = zlen l.
Proof. unfold zlen. by rewrite length_insert. Qed.

(** Compression keeps the messages of the set. *)
Lemma compress_set_ok iovcnt hd l :
  (forall x out, compress c.(compression_codec) x = Some out -> zlen out < 2 ^ 31 - 64) ->
  length hd = 5%nat -> 6 <= iovcnt ->
  Forall msg_fits l -> zlen (concat (map message_bytes l)) < 2 ^ 31 ->
  exists pieces size,
    compress_set c compress iovcnt (hd ++ concat (map message_iov l))
      (zlen (concat (map message_bytes l))) = Some (hd ++ pieces, size) /\
    zlen pieces <= Z.max 1 (4 * zlen l) /\ size = zlen (concat pieces) /\ size < 2 ^ 31 /\
    (codec_inverts ->
     forall fuel, (S (length l) < fuel)%nat ->
       rd_kafka_messageset_handle gz snappy_java snappy fuel (concat pieces) = map fetched_of l).
Proof.
  intros Hout Hhd Hcnt Hl Hsz.
  assert (Eset : concat (concat (map message_iov l)) = concat (map message_bytes l)).
  { clear. induction l as [|m l IH]; [done|]. cbn [map concat]. by rewrite concat_app, IH. }
  assert (Hplain : exists pieces size,
    Some (hd ++ concat (map message_iov l), zlen (concat (map message_bytes l)))
      = Some (hd ++ pieces, size) /\ zlen pieces <= Z.max 1 (4 * zlen l) /\
    size = zlen (concat pieces) /\ size < 2 ^ 31 /\
    (codec_inverts ->
     forall fuel, (S (length l) < fuel)%nat ->
       rd_kafka_messageset_handle gz snappy_java snappy fuel (concat pieces) = map fetched_of l)).
  { exists (concat (map message_iov l)), (zlen (concat (map message_bytes l))). rewrite Eset.
    split_and!; [done|rewrite zlen_message_iovs; lia|done|done|].
    intros _ fuel Hf. apply messageset_decodes; [done|lia]. }
  unfold compress_set. destruct (Z.eqb_spec c.(compression_codec) 0) as [E0|H0]; [exact Hplain|].
  rewrite take_app_length', drop_app_length' by done. rewrite Eset.
  destruct (compress _ _) as [out|] eqn:Eo; [|exact Hplain]. unfold rd_kafka_buf_push.
  rewrite (proj2 (Z.leb_le _ _)) by (unfold zlen; lia).
  exists [wrapper_bytes c.(compression_codec) out], (s32 (26 + zlen out)). cbn [concat].
  rewrite app_nil_r. change (zlen [_]) with 1. pose proof (Hout _ _ Eo) as Ho.
  destruct (wrapper_bytes_eq c.(compression_codec) out) as [crc Ew].
  pose proof (zlen_nonneg out). assert (Ez : zlen (wrapper_bytes (compression_codec c) out) = 26 + zlen out).
  { rewrite Ew. unfold msg_header. autorewrite with ngx. rewrite !zlen_bytes_new.
    change (zlen [0; Z.land (compression_codec c) 7]) with 2.
    change (keylen (Some out)) with (zlen out). change (keylen None) with 0. lia. }
  rewrite Ez, s32_small by lia. split_and!; [done|lia|done|lia|].
  intros [Hc Hinv]. pose proof (Hinv _ _ Eo) as Hd.
  intros [|fuel] Hf; [lia|]. rewrite Ew, handle_step by (change (keylen None) with 0; lia).
  assert (Ea : Z.land (Z.land (compression_codec c) 7) 3 = compression_codec c).
  { assert (compression_codec c = 1 \/ compression_codec c = 2) as [->| ->] by lia; done. }
  rewrite Ea, (proj2 (Z.eqb_neq _ 0)), (proj2 (Z.eqb_neq _ 3)), Hd, handle_nil, app_nil_r by lia.
  apply messageset_decodes; [done|lia].
Qed.

Lemma make_request_ok max corrid i t :
  sizes_ok t -> 0 < max <= 1000000000 -> 1 <= c.(batch_num_messages) ->
  xmit_ok max t.(bt_tp).(rktp_xmit_msgq) -> t.(bt_tp).(rktp_xmit_msgq).(rkmq_msgs) <> [] ->
  exists buf xmit', make_request c compress max corrid i t = Some (Some buf, xmit') /\
    t.(bt_tp).(rktp_xmit_msgq).(rkmq_msgs) = buf.(rkbuf_msgq).(rkmq_msgs) ++ xmit'.(rkmq_msgs) /\
    buf.(rkbuf_msgq).(rkmq_msgs) <> [] /\
    zlen buf.(rkbuf_msgq).(rkmq_msgs) <= c.(batch_num_messages) /\
    wfq buf.(rkbuf_msgq) /\ wfq xmit' /\
    rkbuf_retries buf = 0 /\ rkbuf_of buf = 0 /\ rkbuf_flash buf = false /\ rkbuf_cb buf = Some i /\
    zlen (rkbuf_iov buf) <= IOV_MAX /\
    exists set, concat buf.(rkbuf_iov) = request_frame corrid t set /\ zlen set < 2 ^ 31 /\
     (codec_inverts ->
      forall fuel, (S (length buf.(rkbuf_msgq).(rkmq_msgs)) < fuel)%nat ->
        rd_kafka_messageset_handle gz snappy_java snappy fuel set
          = map fetched_of buf.(rkbuf_msgq).(rkmq_msgs)).
Proof.
  intros (Hout & Hcl & Htl) Hmax Hbatch (Hx & Hs & Hz) Hne. unfold make_request.
  set (xmit := rktp_xmit_msgq (bt_tp t)) in *.
  assert (Hcnt : xmit.(rkmq_msg_cnt) = zlen xmit.(rkmq_msgs) /\ 0 < zlen xmit.(rkmq_msgs)).
  { destruct Hx as [-> _], Hs as [H1 _]. pose proof (zlen_nonneg xmit.(rkmq_msgs)).
    split; [apply s32_small; lia|]. destruct (rkmq_msgs xmit); [done|].
    rewrite zlen_cons. pose proof (zlen_nonneg l). lia. }
  destruct Hcnt as [Ecnt Hpos].
  assert (Hlim : exists n iovcnt, msgset_limit c.(batch_num_messages) xmit = Some (n, iovcnt) /\
    0 < n <= c.(batch_num_messages) /\ 5 + 4 * n <= iovcnt + 2 /\ iovcnt + 2 <= IOV_MAX).
  { unfold msgset_limit. rewrite Ecnt, (proj2 (Z.eqb_neq _ 0)), andb_false_r by lia.
    rewrite (proj2 (Z.ltb_lt 0 _)) by lia. destruct (Z.ltb_spec RD_KAFKA_PAYLOAD_IOV_MAX
      (3 + 4 * Z.min (zlen (rkmq_msgs xmit)) c.(batch_num_messages))).
    - exists 252, 1022. split_and!; try done; lia.
    - do 2 eexists. split; [done|]. lia. }
  destruct Hlim as (n & iovcnt & -> & Hn & H5 & Hmaxiov).
  rewrite (proj2 (Z.ltb_ge IOV_MAX _)) by lia.
  rewrite push_all_ok by (change (zlen [[]; []]) with 2; autorewrite with ngx; lia). cbn [app].
  set (hd := [_; _; _; _; _]).
  destruct (fill_loop_ok max (iovcnt + 2) (Z.to_nat n) xmit rd_kafka_msgq_init hd 0)
    as (l1 & l2 & xmit' & taken & -> & E1 & E2 & W1 & E3 & W2 & Hl & Hb & Hne1);
    [done..| |lia|]; [change (zlen hd) with 5; lia|].
  specialize (Hne1 eq_refl ltac:(lia) Hne). cbn [rkmq_msgs rd_kafka_msgq_init app] in E3.
  assert (Hl1 : smallq l1 /\ Forall (sized max) l1).
  { rewrite E1 in Hs, Hz. apply Forall_app in Hz as [? _]. split; [|done]. destruct Hs as [A B].
    autorewrite with ngx in A. rewrite total_len_app in B. pose proof (zlen_nonneg l2).
    pose proof (total_len_nonneg l2). split; lia. }
  destruct Hl1 as [[Hs1 _] Hz1].
  assert (Ht0 : rkmq_msg_cnt taken <> 0).
  { destruct W2 as [-> _]. rewrite E3, s32_small by (pose proof (zlen_nonneg l1); lia).
    destruct l1; [done|]. rewrite zlen_cons. pose proof (zlen_nonneg l1). lia. }
  rewrite (proj2 (Z.eqb_neq _ _) Ht0), E3. destruct l1 as [|first l1]; [done|].
  destruct (compress_set_ok (iovcnt + 2) hd (first :: l1)) as (pieces & size & E & Hiov & -> & Hp & Hdec);
    [done|done|lia|eapply Forall_impl; [exact Hz1|]; intros m Hm; apply (sized_fits max m); [lia|exact Hm]|lia|].
  rewrite Z.add_0_l, E. do 2 eexists. split; [done|]. cbn [rkbuf_msgq rkbuf_iov rkbuf_retries rkbuf_of rkbuf_flash rkbuf_cb].
  rewrite E2, E3. split_and!; try done.
  - unfold zlen in *. lia.
  - rewrite !zlen_insert. autorewrite with ngx. change (zlen hd) with 5.
    unfold zlen in *. cbn [length] in *. lia.
  - exists (concat pieces). split; [|done]. subst hd. cbn [insert list_insert app concat].
    unfold request_frame. cbn zeta. do 2 f_equal. unfold rd_kafka_msghdr_size. cbn [concat].
    rewrite zlen_app. change (zlen (reqhdr 0 corrid)) with 12. lia.
Qed.
End requests.
