(* ===== verification/RdBroker.v ===== *)
(** * The broker thread of a producer ([rdkafka_broker.c])

    From the queues of partitions to requests on the wire and back: message
    sets are made of the messages waiting ([rd_kafka_broker_produce_toppar]),
    sent, piece by piece if need be ([rd_kafka_send]), wait for their response,
    are retried, requeued or reported ([rd_kafka_produce_msgset_reply]), and
    are failed with the connection ([rd_kafka_broker_fail]).  One broker is
    modelled with the partitions it leads; the partitions' queues and the
    instance are those of [RdMsg]. *)

From S2P Require Import Prelude RdMsg RdProto RdTopic RdProducer RdRequest.

(** ** Queues of requests *)

Fixpoint first_not_flash (l : list rkbuf) : option nat :=
  match l with
  | [] => None
  | b :: l' => if b.(rkbuf_flash) then S <$> first_not_flash l' else Some O
  end.

(** [rd_kafka_broker_buf_enq0] on the out queue. *)
Definition rd_kafka_broker_buf_enq0 (q : bufq) (b : rkbuf) (at_head : bool) : bufq :=
  let bufs :=
    if at_head then
      match first_not_flash q.(rkbq_bufs) with
      | Some prev => take (S prev) q.(rkbq_bufs) ++ b :: drop (S prev) q.(rkbq_bufs)
      | None => b :: q.(rkbq_bufs)
      end
    else q.(rkbq_bufs) ++ [b] in
  Bufq bufs (s32 (q.(rkbq_cnt) + 1)).

(** [rd_kafka_broker_buf_retry]: the request as it goes to the retry queue. *)
Definition rd_kafka_broker_buf_retry (c : broker_conf) (now : Z) (r : rkbuf) (b : broker) : broker :=
  let r := Rkbuf r.(rkbuf_corrid) (s64 (now + s32 (c.(retry_backoff_ms) * 1000))) r.(rkbuf_flash)
             r.(rkbuf_no_response) r.(rkbuf_iov) 0 r.(rkbuf_retries) r.(rkbuf_ts_timeout)
             r.(rkbuf_msgq) r.(rkbuf_cb) in
  b_with_retrybufs b (rd_kafka_bufq_enq b.(rkb_retrybufs) r).

(** The loop of [rd_kafka_broker_retry_bufs_move]; each turn takes a request off
    the retry queue, so its length is fuel enough. *)
Fixpoint retry_move_loop (fuel : nat) (now : Z) (b : broker) : option broker :=
  match fuel, b.(rkb_retrybufs).(rkbq_bufs) with
  | S n, r :: _ =>
      if now <? r.(rkbuf_ts_retry) then Some b
      else
        match rd_kafka_bufq_deq b.(rkb_retrybufs) 0 with
        | None => None
        | Some q =>
            let b := b_with_retrybufs b q in
            retry_move_loop n now
              (b_with_outbufs b (rd_kafka_broker_buf_enq0 b.(rkb_outbufs) r false))
        end
  | _, _ => Some b
  end.

Definition rd_kafka_broker_retry_bufs_move (now : Z) (b : broker) : option broker :=
  retry_move_loop (length b.(rkb_retrybufs).(rkbq_bufs)) now b.

(** ** Replies *)

Abbreviation RD_KAFKA_RESP_ERR__BAD_MSG := (-199) (only parsing).
Abbreviation RD_KAFKA_RESP_ERR__DESTROY := (-197) (only parsing).
Abbreviation RD_KAFKA_RESP_ERR__TRANSPORT := (-195) (only parsing).
Abbreviation RD_KAFKA_RESP_ERR__ISR_INSUFF := (-183) (only parsing).
Abbreviation RD_KAFKA_RESP_ERR_INVALID_MSG := 2 (only parsing).
Abbreviation RD_KAFKA_RESP_ERR_INVALID_MSG_SIZE := 4 (only parsing).
Abbreviation RD_KAFKA_RESP_ERR_REQUEST_TIMED_OUT := 7 (only parsing).

(** [rd_kafka_produce_reply_handle]: the error code of the one partition in the
    reply, as an unsigned 16-bit number. *)
Definition rd_kafka_produce_reply_handle (reply : list Z) : Z :=
  match read_ref 4 reply with
  | None => RD_KAFKA_RESP_ERR__BAD_MSG
  | Some (topics, rest) =>
      if negb (s32 (be_value topics) =? 1) then RD_KAFKA_RESP_ERR__BAD_MSG
      else
        match read_str rest with
        | None => RD_KAFKA_RESP_ERR__BAD_MSG
        | Some (_, rest) =>
            match read_ref 4 rest with
            | None => RD_KAFKA_RESP_ERR__BAD_MSG
            | Some (partitions, rest) =>
                if negb (s32 (be_value partitions) =? 1) then RD_KAFKA_RESP_ERR__BAD_MSG
                else
                  match read_ref 14 rest with
                  | None => RD_KAFKA_RESP_ERR__BAD_MSG
                  | Some (hdr, _) => be_value (take 2 (drop 4 hdr))
                  end
            end
        end
  end.

(** What is done with the messages of a request: reported, retried, or put back
    in the queue of their partition. *)
Inductive verdict := Report | Retry | Requeue.

Definition reply_verdict (c : broker_conf) (err retries : Z) : verdict :=
  if err =? 0 then Report
  else if (err =? RD_KAFKA_RESP_ERR__DESTROY) || (err =? RD_KAFKA_RESP_ERR_INVALID_MSG) ||
          (err =? RD_KAFKA_RESP_ERR_INVALID_MSG_SIZE) || (err =? RD_KAFKA_RESP_ERR_MSG_SIZE_TOO_LARGE)
  then Report
  else if (err =? RD_KAFKA_RESP_ERR_REQUEST_TIMED_OUT) || (err =? RD_KAFKA_RESP_ERR__MSG_TIMED_OUT)
  then if s32 (retries + 1) <? c.(max_retries) then Retry else Report
  else Requeue.

(** [rd_kafka_produce_msgset_reply] for a request to the partition [i]. *)
Definition rd_kafka_produce_msgset_reply (c : broker_conf) (now err : Z) (reply : option (list Z))
    (r : rkbuf) (i : nat) (b : broker) : option broker :=
  let err := if err =? 0 then match reply with
                              | Some reply => rd_kafka_produce_reply_handle reply
                              | None => 0
                              end
             else err in
  match reply_verdict c err r.(rkbuf_retries) with
  | Report =>
      match rd_kafka_dr_msgq b.(rkb_rk) r.(rkbuf_msgq) err with
      | Some rk => Some (b_with_rk b rk)
      | None => None
      end
  | Retry =>
      let r := Rkbuf r.(rkbuf_corrid) r.(rkbuf_ts_retry) r.(rkbuf_flash) r.(rkbuf_no_response)
                 r.(rkbuf_iov) r.(rkbuf_of) (s32 (r.(rkbuf_retries) + 1)) r.(rkbuf_ts_timeout)
                 r.(rkbuf_msgq) r.(rkbuf_cb) in
      Some (rd_kafka_broker_buf_retry c now r b)
  | Requeue =>
      Some (b_with_toppars b
              (alter (fun t => bt_with t (rd_kafka_toppar_insert_msgq r.(rkbuf_msgq) t.(bt_tp))) i
                 b.(rkb_toppars)))
  end.

(** The callback of a request. *)
Definition run_cb (c : broker_conf) (now err : Z) (reply : option (list Z)) (r : rkbuf) (b : broker)
  : option broker :=
  match r.(rkbuf_cb) with
  | Some i => rd_kafka_produce_msgset_reply c now err reply r i b
  | None => Some b
  end.

Fixpoint find_corrid (corrid : Z) (l : list rkbuf) (i : nat) : option (nat * rkbuf) :=
  match l with
  | [] => None
  | r :: l' => if r.(rkbuf_corrid) =? corrid then Some (i, r) else find_corrid corrid l' (S i)
  end.

(** [rd_kafka_req_response] with [rd_kafka_waitresp_find]: a response nobody
    waits for is dropped. *)
Definition rd_kafka_req_response (c : broker_conf) (now corrid : Z) (body : list Z) (b : broker)
  : option broker :=
  match find_corrid corrid b.(rkb_waitresps).(rkbq_bufs) 0 with
  | None => Some b
  | Some (i, r) =>
      match rd_kafka_bufq_deq b.(rkb_waitresps) i with
      | None => None
      | Some q => run_cb c now 0 (Some body) r (b_with_waitresps b q)
      end
  end.

(** ** Failures *)

(** [rd_kafka_bufq_purge]. *)
Fixpoint rd_kafka_bufq_purge (c : broker_conf) (now err : Z) (l : list rkbuf) (b : broker)
  : option broker :=
  match l with
  | [] => Some b
  | r :: l' =>
      match run_cb c now err None r b with
      | Some b => rd_kafka_bufq_purge c now err l' b
      | None => None
      end
  end.

(** [rd_kafka_broker_fail]: the connection and what was sent on it are gone; the
    broker leads no partition any more. *)
Definition rd_kafka_broker_fail (c : broker_conf) (now err : Z) (b : broker) : option broker :=
  let tmpq := rd_kafka_bufq_concat (rd_kafka_bufq_concat rd_kafka_bufq_init b.(rkb_waitresps))
                b.(rkb_outbufs) in
  let b := Broker b.(rkb_rk) false b.(rkb_toppars) rd_kafka_bufq_init rd_kafka_bufq_init
             b.(rkb_retrybufs) b.(rkb_corrid) 0 b.(rkb_timedout) b.(rkb_isrfailed) [] in
  match rd_kafka_bufq_purge c now err tmpq.(rkbq_bufs) b with
  | Some b => Some (b_with_toppars b (map bt_undelegate b.(rkb_toppars)))
  | None => None
  end.

(** The loop of [rd_kafka_broker_waitresp_timeout_scan]: [i] requests before the
    current one stay in the queue; the number of requests timed out. *)
Fixpoint waitresp_scan (c : broker_conf) (now : Z) (l : list rkbuf) (i : nat) (cnt : Z) (b : broker)
  : option (Z * broker) :=
  match l with
  | [] => Some (cnt, b)
  | r :: l' =>
      if now <? r.(rkbuf_ts_timeout) then waitresp_scan c now l' (S i) cnt b
      else
        match rd_kafka_bufq_deq b.(rkb_waitresps) i with
        | None => None
        | Some q =>
            match run_cb c now RD_KAFKA_RESP_ERR__MSG_TIMED_OUT None r (b_with_waitresps b q) with
            | Some b => waitresp_scan c now l' i (cnt + 1) b
            | None => None
            end
        end
  end.

Definition rd_kafka_broker_waitresp_timeout_scan (c : broker_conf) (now : Z) (b : broker)
  : option broker :=
  match waitresp_scan c now b.(rkb_waitresps).(rkbq_bufs) 0 0 b with
  | None => None
  | Some (cnt, b) =>
      if 0 <? cnt then
        let fails := s32 (b.(rkb_req_timeouts) + cnt) in
        let b := Broker b.(rkb_rk) b.(rkb_up) b.(rkb_toppars) b.(rkb_outbufs) b.(rkb_waitresps)
                   b.(rkb_retrybufs) b.(rkb_corrid) fails b.(rkb_timedout) b.(rkb_isrfailed)
                   b.(rkb_wire) in
        if negb (c.(socket_max_fails) =? 0) && (c.(socket_max_fails) <=? fails) && b.(rkb_up)
        then rd_kafka_broker_fail c now RD_KAFKA_RESP_ERR__MSG_TIMED_OUT b
        else Some b
      else Some b
  end.

(** ** Sending *)

(** What [sendmsg] does: nothing yet, some of the bytes, or an error. *)
Inductive send_result :=
  | SendAgain
  | SendBytes (n : Z)
  | SendError.

(** The bytes of a request that [sendmsg] is given. *)
Definition send_iov (r : rkbuf) : option (list (list Z)) :=
  if r.(rkbuf_of) =? 0 then Some r.(rkbuf_iov)
  else rd_kafka_msghdr_rebuild IOV_MAX r.(rkbuf_iov) r.(rkbuf_of).

Definition b_with_wire (b : broker) (w : list Z) : broker :=
  Broker b.(rkb_rk) b.(rkb_up) b.(rkb_toppars) b.(rkb_outbufs) b.(rkb_waitresps) b.(rkb_retrybufs)
    b.(rkb_corrid) b.(rkb_req_timeouts) b.(rkb_timedout) b.(rkb_isrfailed) w.

(** [rd_kafka_send]; without further results the thread is still in the call. *)
Fixpoint rd_kafka_send (c : broker_conf) (now : Z) (results : list send_result) (b : broker)
  : option broker :=
  match results, b.(rkb_outbufs).(rkbq_bufs) with
  | res :: results', r :: bufs =>
      if negb b.(rkb_up) then Some b
      else
        match send_iov r, res with
        | None, _ => None
        | _, SendAgain => Some b
        | _, SendError => rd_kafka_broker_fail c now RD_KAFKA_RESP_ERR__TRANSPORT b
        | Some iov, SendBytes n =>
            let data := take (Z.to_nat n) (concat iov) in
            let r := buf_sent r (zlen data) in
            let b := b_with_wire b (b.(rkb_wire) ++ data) in
            let b := b_with_outbufs b (Bufq (r :: bufs) b.(rkb_outbufs).(rkbq_cnt)) in
            if r.(rkbuf_of) <? rkbuf_len r then Some b
            else
              match rd_kafka_bufq_deq b.(rkb_outbufs) 0 with
              | None => None
              | Some q =>
                  let b := b_with_outbufs b q in
                  match
                    if r.(rkbuf_no_response) then run_cb c now 0 None r b
                    else Some (b_with_waitresps b (rd_kafka_bufq_enq b.(rkb_waitresps) r))
                  with
                  | Some b => rd_kafka_send c now results' b
                  | None => None
                  end
              end
        end
  | _, _ => Some b
  end.

(** ** Serving the partitions *)

Section serve.
Context (c : broker_conf) (compress : Z -> list Z -> option (list Z)).

Definition b_set_toppar (b : broker) (i : nat) (t : btoppar) : broker :=
  b_with_toppars b (<[i := t]> b.(rkb_toppars)).

(** [rd_kafka_broker_produce_toppar]: the number of messages, or -1. *)
Definition rd_kafka_broker_produce_toppar (i : nat) (b : broker) : option (Z * broker) :=
  match b.(rkb_toppars) !! i with
  | None => None
  | Some t =>
      let corrid := s32 (b.(rkb_corrid) + 1) in
      match make_request c compress b.(rkb_rk).(max_msg_size) corrid i t with
      | None => None
      | Some (r, xmit) =>
          let b := b_set_toppar b i (bt_with t (with_xmit t.(bt_tp) xmit)) in
          match r with
          | None => Some (-1, b)
          | Some r =>
              Some (r.(rkbuf_msgq).(rkmq_msg_cnt),
                    Broker b.(rkb_rk) b.(rkb_up) b.(rkb_toppars)
                      (rd_kafka_broker_buf_enq0 b.(rkb_outbufs) r r.(rkbuf_flash))
                      b.(rkb_waitresps) b.(rkb_retrybufs) corrid b.(rkb_req_timeouts)
                      b.(rkb_timedout) b.(rkb_isrfailed) b.(rkb_wire))
          end
      end
  end.

(** The loop that empties the transmit queue; each turn takes a message. *)
Fixpoint xmit_loop (fuel : nat) (i : nat) (b : broker) : option broker :=
  match fuel, b.(rkb_toppars) !! i with
  | S n, Some t =>
      if 0 <? t.(bt_tp).(rktp_xmit_msgq).(rkmq_msg_cnt) then
        match rd_kafka_broker_produce_toppar i b with
        | None => None
        | Some (r, b) => if 0 <? r then xmit_loop n i b else Some b
        end
      else Some b
  | _, _ => Some b
  end.

Definition b_with_failed (b : broker) (timedout isrfailed : msgq) : broker :=
  Broker b.(rkb_rk) b.(rkb_up) b.(rkb_toppars) b.(rkb_outbufs) b.(rkb_waitresps) b.(rkb_retrybufs)
    b.(rkb_corrid) b.(rkb_req_timeouts) timedout isrfailed b.(rkb_wire).

(** The queues of a partition before sending: messages without enough replicas
    fail, the others go to the transmit queue, and the expired of these fail. *)
Definition collect (now : Z) (scan : bool) (tp : toppar) (isr_fails : bool) (timedout isrfailed : msgq)
  : option (toppar * msgq * msgq) :=
  let (tp, isrfailed) :=
    if isr_fails
    then (with_msgq tp rd_kafka_msgq_init, rd_kafka_msgq_concat isrfailed tp.(rktp_msgq))
    else (tp, isrfailed) in
  let tp :=
    if 0 <? tp.(rktp_msgq).(rkmq_msg_cnt)
    then with_msgq (with_xmit tp (rd_kafka_msgq_concat tp.(rktp_xmit_msgq) tp.(rktp_msgq)))
           rd_kafka_msgq_init
    else tp in
  if scan then
    match rd_kafka_msgq_age_scan tp.(rktp_xmit_msgq) timedout now with
    | Some (xmit, timedout, _) => Some (with_xmit tp xmit, timedout, isrfailed)
    | None => None
    end
  else Some (tp, timedout, isrfailed).

(** A partition in the loop of [rd_kafka_broker_producer_serve]. *)
Definition serve_toppar (now : Z) (scan : bool) (i : nat) (b : broker) : option broker :=
  match b.(rkb_toppars) !! i with
  | None => None
  | Some t =>
      if negb t.(bt_led) then Some b
      else
        match collect now scan t.(bt_tp) (t.(bt_isr_cnt) <? t.(bt_enforce_isr_cnt))
                b.(rkb_timedout) b.(rkb_isrfailed) with
        | None => None
        | Some (tp, timedout, isrfailed) =>
            let t := bt_with t tp in
            let b := b_with_failed (b_set_toppar b i t) timedout isrfailed in
            let cnt := tp.(rktp_xmit_msgq).(rkmq_msg_cnt) in
            if cnt =? 0 then Some b
            else if (now <? s64 (t.(bt_last_xmit) + s32 (c.(buffering_max_ms) * 1000))) &&
                    (cnt <? c.(batch_num_messages))
            then Some b
            else xmit_loop (length tp.(rktp_xmit_msgq).(rkmq_msgs)) i
                   (b_set_toppar b i (bt_xmitted t now))
        end
  end.

Fixpoint serve_pass (now : Z) (scan : bool) (idx : list nat) (b : broker) : option broker :=
  match idx with
  | [] => Some b
  | i :: idx' =>
      match serve_toppar now scan i b with
      | Some b => serve_pass now scan idx' b
      | None => None
      end
  end.

(** The reports at the end of a pass: [rd_kafka_dr_msgq] leaves a queue
    empty. *)
Definition report_failed (q : msgq) (err : Z) (rk : rdkafka) : option (rdkafka * msgq) :=
  if 0 <? q.(rkmq_msg_cnt) then
    match rd_kafka_dr_msgq rk q err with
    | Some rk => Some (rk, rd_kafka_msgq_init)
    | None => None
    end
  else Some (rk, q).

Definition serve_failed (b : broker) : option broker :=
  match report_failed b.(rkb_isrfailed) RD_KAFKA_RESP_ERR__ISR_INSUFF b.(rkb_rk) with
  | None => None
  | Some (rk, isrfailed) =>
      match report_failed b.(rkb_timedout) RD_KAFKA_RESP_ERR__MSG_TIMED_OUT rk with
      | None => None
      | Some (rk, timedout) => Some (b_with_failed (b_with_rk b rk) timedout isrfailed)
      end
  end.
End serve.

(** ** Runs *)

(** What happens to a broker: a message produced to a partition, a pass over the
    partitions and the reports after it, I/O, timeouts, the loss and the making
    of the connection, a partition delegated, and the application's poll. *)
Inductive bevent :=
  | BProduce (i : nat) (m : kmsg)
  | BServe (now : Z) (scan : bool)
  | BReport
  | BSend (now : Z) (results : list send_result)
  | BResponse (now corrid : Z) (body : list Z)
  | BTimeouts (now : Z)
  | BRetries (now : Z)
  | BFail (now err : Z)
  | BUp
  | BLead (i : nat)
  | BPoll.

Section run.
Context (c : broker_conf) (compress : Z -> list Z -> option (list Z)).

Definition quiet (b : option broker) : option (broker * (list (list Z) * list (list Z))) :=
  match b with
  | Some b => Some (b, ([], []))
  | None => None
  end.

(** One event: the broker, the payloads accepted and those reported to the
    application. A produce call is refused when the queue is full or the
    message too large, as in [rd_kafka_msg_new]. *)
Definition broker_step (b : broker) (e : bevent)
  : option (broker * (list (list Z) * list (list Z))) :=
  let rk := b.(rkb_rk) in
  match e with
  | BProduce i m =>
      let cnt := s32 (rk.(rk_msg_cnt) + 1) in
      if (rk.(queue_buffering_max_msgs) <? cnt) ||
         (u64 rk.(max_msg_size) <? u64 (rkm_len m + keylen m.(rkm_key))) ||
         (length b.(rkb_toppars) <=? i)%nat
      then quiet (Some b)
      else
        Some (b_with_rk
                (b_with_toppars b
                   (alter (fun t => bt_with t (rd_kafka_toppar_enq_msg m (add_c_msgs t.(bt_tp) 1))) i
                      b.(rkb_toppars)))
                (with_cnt rk cnt), ([m.(rkm_payload)], []))
  | BServe now scan =>
      quiet (if b.(rkb_up) then serve_pass c compress now scan (seq 0 (length b.(rkb_toppars))) b
             else Some b)
  | BReport => quiet (serve_failed b)
  | BSend now results => quiet (rd_kafka_send c now results b)
  | BResponse now corrid body => quiet (rd_kafka_req_response c now corrid body b)
  | BTimeouts now => quiet (rd_kafka_broker_waitresp_timeout_scan c now b)
  | BRetries now => quiet (rd_kafka_broker_retry_bufs_move now b)
  | BFail now err => quiet (rd_kafka_broker_fail c now err b)
  | BUp =>
      quiet (Some (Broker rk true b.(rkb_toppars) b.(rkb_outbufs) b.(rkb_waitresps)
                     b.(rkb_retrybufs) b.(rkb_corrid) b.(rkb_req_timeouts) b.(rkb_timedout)
                     b.(rkb_isrfailed) b.(rkb_wire)))
  | BLead i =>
      quiet (Some (b_with_toppars b
        (alter (fun t => BToppar t.(bt_tp) t.(bt_topic) t.(bt_required_acks)
                           t.(bt_request_timeout_ms) t.(bt_enforce_isr_cnt) t.(bt_isr_cnt)
                           t.(bt_last_xmit) true) i b.(rkb_toppars))))
  | BPoll =>
      match rd_kafka_poll rk with
      | None => None
      | Some (_, rs, rk) => Some (b_with_rk b rk, ([], map (fun r : report => fst (fst r)) rs))
      end
  end.

Fixpoint broker_run (b : broker) (es : list bevent)
  : option (broker * (list (list Z) * list (list Z))) :=
  match es with
  | [] => Some (b, ([], []))
  | e :: es' =>
      match broker_step b e with
      | None => None
      | Some (b, (acc, rep)) =>
          match broker_run b es' with
          | None => None
          | Some (b, (acc', rep')) => Some (b, (acc ++ acc', rep ++ rep'))
          end
      end
  end.
End run.
