(* ===== verification/RdBrokerSound.v ===== *)
(** * The invariant of the broker thread

    What a broker holds, its invariant ([broker_inv]: queues in order, every
    message counted and within the limits), and lemmas on every operation: none
    fails an assertion, all keep the invariant and account for the messages. *)

From S2P Require Import Prelude RdMsg RdProto RdTopic RdProducer RdRequest RdBroker.

(** ** What a broker holds *)

Definition bufs_held (l : list rkbuf) : list kmsg :=
  concat (map (fun r => r.(rkbuf_msgq).(rkmq_msgs)) l).

Definition btps_held (l : list btoppar) : list kmsg := concat (map (fun t => tp_held t.(bt_tp)) l).

Definition broker_held (b : broker) : list kmsg :=
  btps_held b.(rkb_toppars) ++ bufs_held b.(rkb_outbufs).(rkbq_bufs) ++
  bufs_held b.(rkb_waitresps).(rkbq_bufs) ++ bufs_held b.(rkb_retrybufs).(rkbq_bufs) ++
  b.(rkb_timedout).(rkmq_msgs) ++ b.(rkb_isrfailed).(rkmq_msgs).

#[global] Arguments bufs_held : simpl never.
#[global] Arguments btps_held : simpl never.

Lemma bufs_held_app l k : bufs_held (l ++ k) = bufs_held l ++ bufs_held k.
Proof. unfold bufs_held. by rewrite map_app, concat_app. Qed.

Lemma bufs_held_cons r l : bufs_held (r :: l) = r.(rkbuf_msgq).(rkmq_msgs) ++ bufs_held l.
Proof. done. Qed.

Lemma bufs_held_delete i r l :
  l !! i = Some r -> Permutation (bufs_held l) (r.(rkbuf_msgq).(rkmq_msgs) ++ bufs_held (delete i l)).
Proof.
  intros H. rewrite delete_take_drop. rewrite <- (take_drop_middle l i r H) at 1.
  rewrite !bufs_held_app, bufs_held_cons. solve_Permutation.
Qed.

Lemma btps_held_app l k : btps_held (l ++ k) = btps_held l ++ btps_held k.
Proof. unfold btps_held. by rewrite map_app, concat_app. Qed.

Lemma btps_held_cons t l : btps_held (t :: l) = tp_held t.(bt_tp) ++ btps_held l.
Proof. done. Qed.

(** A partition of a broker replaced by another: what is held around it. *)
Lemma btps_held_insert i t l :
  l !! i = Some t ->
  exists fr, Permutation (btps_held l) (tp_held t.(bt_tp) ++ fr) /\
    forall t', Permutation (btps_held (<[i := t']> l)) (tp_held t'.(bt_tp) ++ fr).
Proof.
  intros H. exists (btps_held (take i l) ++ btps_held (drop (S i) l)). split.
  - rewrite <- (take_drop_middle l i t H) at 1. rewrite btps_held_app, btps_held_cons.
    solve_Permutation.
  - intros t'. rewrite (insert_take_drop l i t' (lookup_lt_Some _ _ _ H)).
    rewrite btps_held_app, btps_held_cons. solve_Permutation.
Qed.

Lemma alter_is_insert {A} (f : A -> A) (i : nat) (x : A) (l : list A) :
  l !! i = Some x -> alter f i l = <[i := f x]> l.
Proof.
  intros H. destruct (alter_middle f i l x H) as (l1 & l2 & -> & <- & ->).
  by rewrite insert_app_r_alt, Nat.sub_diag by lia.
Qed.

Lemma btps_held_alter f i l :
  (forall t, (f t).(bt_tp) = t.(bt_tp)) -> btps_held (alter f i l) = btps_held l.
Proof.
  intros Hf. revert i. induction l as [|t l IH]; intros [|i]; [done..| |]; cbn.
  - by rewrite !btps_held_cons, Hf.
  - by rewrite !btps_held_cons, IH.
Qed.

Section sound.
Context (c : broker_conf) (compress : Z -> list Z -> option (list Z)).

(** A request in a queue: messages for a partition of the broker, and pieces
    that can be sent from any point on. *)
Definition buf_ok (n : nat) (r : rkbuf) : Prop :=
  wfq r.(rkbuf_msgq) /\ r.(rkbuf_msgq).(rkmq_msgs) <> [] /\
  (exists i, r.(rkbuf_cb) = Some i /\ (i < n)%nat) /\
  zlen r.(rkbuf_iov) <= IOV_MAX /\ 0 <= r.(rkbuf_of) <= rkbuf_len r /\ rkbuf_len r < 2 ^ 62.

Definition bufq_ok (n : nat) (q : bufq) : Prop :=
  q.(rkbq_cnt) = s32 (zlen q.(rkbq_bufs)) /\ Forall (buf_ok n) q.(rkbq_bufs).

Definition btp_ok (t : btoppar) : Prop :=
  wfq t.(bt_tp).(rktp_msgq) /\ wfq t.(bt_tp).(rktp_xmit_msgq) /\ sizes_ok c compress t.

(** The queues of a broker are in order. *)
Record broker_shape (b : broker) : Prop := BrokerShape {
  bs_toppars : Forall btp_ok b.(rkb_toppars);
  bs_out : bufq_ok (length b.(rkb_toppars)) b.(rkb_outbufs);
  bs_wait : bufq_ok (length b.(rkb_toppars)) b.(rkb_waitresps);
  bs_retry : bufq_ok (length b.(rkb_toppars)) b.(rkb_retrybufs);
  bs_timedout : wfq b.(rkb_timedout);
  bs_isrfailed : wfq b.(rkb_isrfailed);
}.

(** All messages are counted and within the limits. *)
Definition all_sized (rk : rdkafka) (ms : list kmsg) : Prop :=
  counted rk ms /\ Forall (sized rk.(max_msg_size)) (rk_held rk ++ ms).

(** A step that loses nothing: messages are kept, reported, or, without a
    delivery report callback, destroyed. *)
Definition bacct (rk : rdkafka) (ms : list kmsg) (rk' : rdkafka) (ms' : list kmsg) : Prop :=
  acct (rk.(rk_dr) = false) rk ms rk' ms'.

Lemma bacct_sized rk ms rk' ms' : bacct rk ms rk' ms' -> all_sized rk ms -> all_sized rk' ms'.
Proof.
  intros H (Hc & Hz). pose proof (acct_counted _ _ _ _ _ H Hc) as Hc'.
  destruct H as [(_ & E & _) (d & _ & _ & Hp)]. unfold all_sized. rewrite E.
  rewrite <- Hp, app_assoc in Hz. apply Forall_app in Hz as [Hz _]. done.
Qed.

Lemma bacct_trans rk1 ms1 rk2 ms2 rk3 ms3 :
  bacct rk1 ms1 rk2 ms2 -> bacct rk2 ms2 rk3 ms3 -> bacct rk1 ms1 rk3 ms3.
Proof.
  intros H1 H2. pose proof H1 as [(_ & _ & E) _]. unfold bacct in H2. rewrite E in H2.
  by eapply acct_trans.
Qed.

Lemma bacct_perm rk ms ms' : Permutation ms' ms -> bacct rk ms rk ms'.
Proof. apply acct_refl. Qed.

Lemma all_sized_perm rk ms ms' : Permutation ms' ms -> all_sized rk ms -> all_sized rk ms'.
Proof. intros H. apply bacct_sized. by apply bacct_perm. Qed.

(** What a callback of a request leaves alone. *)
Definition cb_keeps (b b' : broker) : Prop :=
  b'.(rkb_outbufs) = b.(rkb_outbufs) /\ b'.(rkb_waitresps) = b.(rkb_waitresps) /\
  b'.(rkb_up) = b.(rkb_up) /\ b'.(rkb_wire) = b.(rkb_wire) /\
  length b'.(rkb_toppars) = length b.(rkb_toppars).

#[local] Instance cb_keeps_preorder : PreOrder cb_keeps.
Proof.
  split; [done|]. intros b1 b2 b3 (A1 & A2 & A3 & A4 & A5) (B1 & B2 & B3 & B4 & B5).
  split_and!; congruence.
Qed.

(** Every request holds a message, so there are not more requests. *)
Lemma bufs_bound n l : Forall (buf_ok n) l -> zlen l <= zlen (bufs_held l).
Proof.
  induction 1 as [|r l (_ & Hne & _) _ IH]; [done|]. rewrite bufs_held_cons. autorewrite with ngx.
  destruct (rkmq_msgs (rkbuf_msgq r)) as [|m ms]; [done|]. rewrite zlen_cons.
  pose proof (zlen_nonneg ms). lia.
Qed.

Lemma bufq_deq_ok n q i r :
  bufq_ok n q -> zlen q.(rkbq_bufs) < 2 ^ 31 -> q.(rkbq_bufs) !! i = Some r ->
  exists q', rd_kafka_bufq_deq q i = Some q' /\ bufq_ok n q' /\
    q'.(rkbq_bufs) = delete i q.(rkbq_bufs) /\ buf_ok n r.
Proof.
  intros [Hc Hb] Hs Hi. pose proof (lookup_lt_Some _ _ _ Hi) as Hlt. unfold rd_kafka_bufq_deq.
  rewrite Hc, s32_small by (unfold zlen in *; lia).
  rewrite (proj2 (Z.ltb_lt _ _)) by (unfold zlen; lia). eexists. split; [done|].
  split_and!; [|done|by eapply Forall_lookup_1]. split; cbn; [|by apply Forall_delete].
  f_equal. unfold zlen. rewrite length_delete by (by exists r). lia.
Qed.

Lemma bufq_enq_ok n q r : bufq_ok n q -> buf_ok n r -> bufq_ok n (rd_kafka_bufq_enq q r).
Proof.
  intros [Hc Hb] Hr. split; cbn; [|apply Forall_app; split; [done|by apply Forall_singleton]].
  rewrite Hc. autorewrite with ngx. done.
Qed.

(** The callback takes over the messages of its request. *)
Lemma run_cb_ok now err reply r b fr :
  broker_shape b -> buf_ok (length b.(rkb_toppars)) r ->
  all_sized b.(rkb_rk) (r.(rkbuf_msgq).(rkmq_msgs) ++ broker_held b ++ fr) ->
  exists b', run_cb c now err reply r b = Some b' /\ broker_shape b' /\ cb_keeps b b' /\
    bacct b.(rkb_rk) (r.(rkbuf_msgq).(rkmq_msgs) ++ broker_held b ++ fr)
      b'.(rkb_rk) (broker_held b' ++ fr).
Proof.
  intros Hs Hr [Hc _]. pose proof Hr as (Hw & Hne & (i & Ei & Hi) & Hiov).
  pose proof Hs as [S1 S2 S3 S4 S5 S6]. unfold run_cb. rewrite Ei.
  unfold rd_kafka_produce_msgset_reply. cbn zeta. set (e := if err =? 0 then _ else err).
  destruct (reply_verdict c e (rkbuf_retries r)).
  - destruct (dr_msgq_acct (rk_dr (rkb_rk b) = false) _ _ e _ (fun H => H) Hc) as (rk' & -> & Ha).
    eexists. split; [done|]. split_and!; [by constructor|done|exact Ha].
  - eexists. split; [done|]. split_and!; [|done|].
    + constructor; try done. apply bufq_enq_ok; [done|]. destruct Hiov as (H1 & H2 & H3).
      split_and!; cbn; try done; [by exists i|unfold rkbuf_len in *; cbn; lia..].
    + apply bacct_perm. unfold broker_held. cbn. rewrite bufs_held_app, bufs_held_cons. cbn.
      unfold bufs_held at 4. cbn. solve_Permutation.
  - eexists. split; [done|]. split_and!.
    + constructor; cbn; rewrite ?length_alter; try done. apply Forall_alter; [done|].
      intros t Ht (T1 & T2 & T3). split_and!; [by apply wfq_concat|done|exact T3].
    + unfold cb_keeps. cbn. by rewrite length_alter.
    + apply lookup_lt_is_Some in Hi as [t Ht]. apply bacct_perm. unfold broker_held. cbn.
      destruct (btps_held_insert i t _ Ht) as (fr2 & H1 & H2).
      rewrite (alter_is_insert _ _ _ _ Ht), H1, H2. unfold tp_held, toppar_msgs. cbn. solve_Permutation.
Qed.

(** The queues of requests are short enough for their counters. *)
Lemma queues_small b fr :
  broker_shape b -> counted b.(rkb_rk) (fr ++ broker_held b) ->
  zlen b.(rkb_outbufs).(rkbq_bufs) < 2 ^ 31 /\ zlen b.(rkb_waitresps).(rkbq_bufs) < 2 ^ 31 /\
  zlen b.(rkb_retrybufs).(rkbq_bufs) < 2 ^ 31.
Proof.
  intros [_ [_ H1] [_ H2] [_ H3] _ _] Hc. apply counted_small in Hc.
  apply bufs_bound in H1, H2, H3. unfold broker_held in Hc. autorewrite with ngx in Hc.
  pose proof (zlen_nonneg fr). pose proof (zlen_nonneg (btps_held (rkb_toppars b))).
  pose proof (zlen_nonneg (rkmq_msgs (rkb_timedout b))).
  pose proof (zlen_nonneg (rkmq_msgs (rkb_isrfailed b))).
  pose proof (zlen_nonneg (bufs_held (rkbq_bufs (rkb_outbufs b)))).
  pose proof (zlen_nonneg (bufs_held (rkbq_bufs (rkb_waitresps b)))).
  pose proof (zlen_nonneg (bufs_held (rkbq_bufs (rkb_retrybufs b)))). lia.
Qed.

(** An operation that keeps a sound broker sound and loses no message. *)
Definition op_ok (b : broker) (res : option broker) : Prop :=
  exists b', res = Some b' /\ broker_shape b' /\
    length b'.(rkb_toppars) = length b.(rkb_toppars) /\
    bacct b.(rkb_rk) (broker_held b) b'.(rkb_rk) (broker_held b').

Lemma op_ok_refl b : broker_shape b -> op_ok b (Some b).
Proof. intros H. exists b. split_and!; [done..|]. by apply bacct_perm. Qed.

Lemma op_ok_bind b b1 (f : broker -> option broker) :
  broker_shape b1 -> length b1.(rkb_toppars) = length b.(rkb_toppars) ->
  bacct b.(rkb_rk) (broker_held b) b1.(rkb_rk) (broker_held b1) -> op_ok b1 (f b1) -> op_ok b (f b1).
Proof.
  intros Hs Hl Ha (b2 & -> & H1 & H2 & H3). exists b2. split_and!; [done..|congruence|].
  by eapply bacct_trans.
Qed.

(** A request taken from the responses waited for, and its callback. *)
Lemma waitresp_cb_ok now err reply i r b :
  broker_shape b -> all_sized b.(rkb_rk) (broker_held b) ->
  b.(rkb_waitresps).(rkbq_bufs) !! i = Some r ->
  exists q b', rd_kafka_bufq_deq b.(rkb_waitresps) i = Some q /\
    run_cb c now err reply r (b_with_waitresps b q) = Some b' /\ broker_shape b' /\
    b'.(rkb_waitresps).(rkbq_bufs) = delete i b.(rkb_waitresps).(rkbq_bufs) /\
    length b'.(rkb_toppars) = length b.(rkb_toppars) /\
    bacct b.(rkb_rk) (broker_held b) b'.(rkb_rk) (broker_held b').
Proof.
  intros Hs Hz Hi. pose proof Hs as [S1 S2 S3 S4 S5 S6].
  destruct (queues_small b [] Hs (proj1 Hz)) as (_ & Hw & _).
  destruct (bufq_deq_ok _ _ _ _ S3 Hw Hi) as (q & E & Hq & Eq & Hr).
  assert (Hp : Permutation (r.(rkbuf_msgq).(rkmq_msgs) ++ broker_held (b_with_waitresps b q)) (broker_held b)).
  { unfold broker_held. cbn. rewrite Eq, (bufs_held_delete _ _ _ Hi). solve_Permutation. }
  destruct (run_cb_ok now err reply r (b_with_waitresps b q) []) as (b' & E' & Hs' & (K1 & K2 & _ & _ & K5) & Ha).
  - by constructor.
  - done.
  - rewrite app_nil_r. cbn. by eapply all_sized_perm.
  - exists q, b'. split_and!; [done..|by rewrite K2|done|]. rewrite !app_nil_r in Ha. cbn in Ha.
    eapply bacct_trans; [|exact Ha]. by apply bacct_perm.
Qed.

Lemma find_corrid_lookup corrid l k i r :
  find_corrid corrid l k = Some (i, r) -> (k <= i)%nat /\ l !! (i - k)%nat = Some r.
Proof.
  revert k. induction l as [|x l IH]; intros k; cbn; [done|].
  destruct (_ =? _); [intros [= <- <-]; by rewrite Nat.sub_diag|].
  intros [H1 H2]%IH. split; [lia|]. by replace (i - k)%nat with (S (i - S k)) by lia.
Qed.

Lemma req_response_ok now corrid body b :
  broker_shape b -> all_sized b.(rkb_rk) (broker_held b) ->
  op_ok b (rd_kafka_req_response c now corrid body b).
Proof.
  intros Hs Hz. unfold rd_kafka_req_response.
  destruct (find_corrid _ _ _) as [[i r]|] eqn:E; [|by apply op_ok_refl].
  apply find_corrid_lookup in E as [_ E]. rewrite Nat.sub_0_r in E.
  destruct (waitresp_cb_ok now 0 (Some body) i r b Hs Hz E) as (q & b' & -> & E' & H1 & _ & H2 & H3).
  by exists b'.
Qed.

Lemma waitresp_scan_ok now l : forall i cnt b,
  broker_shape b -> all_sized b.(rkb_rk) (broker_held b) ->
  drop i b.(rkb_waitresps).(rkbq_bufs) = l ->
  exists cnt' b', waitresp_scan c now l i cnt b = Some (cnt', b') /\ op_ok b (Some b').
Proof.
  induction l as [|r l IH]; intros i cnt b Hs Hz Hd; cbn [waitresp_scan].
  { exists cnt, b. split; [done|]. by apply op_ok_refl. }
  assert (Hi : b.(rkb_waitresps).(rkbq_bufs) !! i = Some r).
  { rewrite <- (Nat.add_0_r i), <- lookup_drop, Hd. done. }
  assert (Hd' : drop (S i) b.(rkb_waitresps).(rkbq_bufs) = l).
  { replace (S i) with (i + 1)%nat by lia. rewrite <- drop_drop, Hd. done. }
  destruct (now <? _); [by apply IH|].
  destruct (waitresp_cb_ok now RD_KAFKA_RESP_ERR__MSG_TIMED_OUT None i r b Hs Hz Hi)
    as (q & b1 & -> & -> & H1 & H2 & H3 & H4).
  destruct (IH i (cnt + 1) b1) as (cnt' & b' & E & b2 & [= <-] & O2 & O3 & O4).
  - done.
  - by eapply bacct_sized.
  - rewrite H2, delete_take_drop, drop_app_length'; [done|].
    rewrite length_take. apply lookup_lt_Some in Hi. lia.
  - exists cnt', b'. split; [done|]. exists b'. split_and!; [done..|congruence|].
    by eapply bacct_trans.
Qed.

Lemma bufq_purge_ok now err l : forall b,
  broker_shape b -> Forall (buf_ok (length b.(rkb_toppars))) l ->
  all_sized b.(rkb_rk) (broker_held b ++ bufs_held l) ->
  exists b', rd_kafka_bufq_purge c now err l b = Some b' /\ broker_shape b' /\ cb_keeps b b' /\
    bacct b.(rkb_rk) (broker_held b ++ bufs_held l) b'.(rkb_rk) (broker_held b').
Proof.
  induction l as [|r l IH]; intros b Hs Hl Hz; cbn [rd_kafka_bufq_purge].
  { exists b. split_and!; [done..|]. rewrite app_nil_r. by apply bacct_perm. }
  apply Forall_cons in Hl as [Hr Hl]. rewrite bufs_held_cons in *.
  assert (Hp : Permutation (r.(rkbuf_msgq).(rkmq_msgs) ++ broker_held b ++ bufs_held l)
                 (broker_held b ++ r.(rkbuf_msgq).(rkmq_msgs) ++ bufs_held l)) by solve_Permutation.
  destruct (run_cb_ok now err None r b (bufs_held l)) as (b1 & -> & Hs1 & K1 & A1);
    [done|done|by eapply all_sized_perm|].
  assert (A1' : bacct b.(rkb_rk) (broker_held b ++ r.(rkbuf_msgq).(rkmq_msgs) ++ bufs_held l)
                  b1.(rkb_rk) (broker_held b1 ++ bufs_held l))
    by (eapply bacct_trans; [by apply bacct_perm|exact A1]).
  destruct (IH b1 Hs1) as (b' & -> & Hs' & K2 & A2).
  - destruct K1 as (_ & _ & _ & _ & ->). done.
  - by eapply bacct_sized.
  - exists b'. split_and!; [done..|by etransitivity|by eapply bacct_trans].
Qed.

(** Undelegated partitions keep their messages. *)
Lemma undelegate_held l : btps_held (map bt_undelegate l) = btps_held l.
Proof.
  induction l as [|t l IH]; [done|]. cbn [map]. by rewrite !btps_held_cons, IH.
Qed.

Lemma broker_fail_ok now err b :
  broker_shape b -> all_sized b.(rkb_rk) (broker_held b) ->
  op_ok b (rd_kafka_broker_fail c now err b).
Proof.
  intros Hs Hz. pose proof Hs as [S1 [_ S2] [_ S3] S4 S5 S6]. unfold rd_kafka_broker_fail. cbn zeta.
  set (l := rkbq_bufs _). set (b0 := Broker _ _ _ _ _ _ _ _ _ _ _).
  assert (Hp : Permutation (broker_held b0 ++ bufs_held l) (broker_held b)).
  { subst b0 l. unfold broker_held. cbn. rewrite bufs_held_app. change (bufs_held []) with (@nil kmsg).
    solve_Permutation. }
  destruct (bufq_purge_ok now err l b0) as (b' & -> & [T1 T2 T3 T4 T5 T6] & K & A).
  - constructor; try done; by constructor.
  - subst l. cbn. by apply Forall_app.
  - by eapply all_sized_perm.
  - eexists. split; [done|]. split_and!.
    + constructor; cbn; rewrite ?length_map; try done. apply Forall_map.
      eapply Forall_impl; [exact T1|]. by intros t.
    + cbn. rewrite length_map. apply K.
    + eapply bacct_trans; [by apply bacct_perm|]. unfold broker_held in A |- * at 2. cbn.
      rewrite undelegate_held. exact A.
Qed.

Lemma timeout_scan_ok now b :
  broker_shape b -> all_sized b.(rkb_rk) (broker_held b) ->
  op_ok b (rd_kafka_broker_waitresp_timeout_scan c now b).
Proof.
  intros Hs Hz. unfold rd_kafka_broker_waitresp_timeout_scan.
  destruct (waitresp_scan_ok now _ 0 0 b Hs Hz (drop_0 _)) as (cnt & b1 & -> & b2 & [= <-] & O1 & O2 & O3).
  destruct (0 <? cnt); [|by exists b1]. cbn zeta.
  set (b2 := Broker _ _ _ _ _ _ _ _ _ _ _).
  assert (Hs2 : broker_shape b2) by (by destruct O1).
  destruct (_ && _); [|by exists b2].
  apply (op_ok_bind b b2 (rd_kafka_broker_fail c now RD_KAFKA_RESP_ERR__MSG_TIMED_OUT)); [done..|].
  apply broker_fail_ok; [done|]. by eapply bacct_sized.
Qed.

Lemma retry_move_ok now n : forall b,
  broker_shape b -> all_sized b.(rkb_rk) (broker_held b) ->
  op_ok b (retry_move_loop n now b).
Proof.
  induction n as [|n IH]; intros b Hs Hz; cbn [retry_move_loop]; [by apply op_ok_refl|].
  destruct (rkbq_bufs (rkb_retrybufs b)) as [|r bufs] eqn:Eb; [by apply op_ok_refl|].
  destruct (now <? _); [by apply op_ok_refl|].
  destruct (queues_small b [] Hs (proj1 Hz)) as (_ & _ & Hw). pose proof Hs as [S1 S2 S3 S4 S5 S6].
  destruct (bufq_deq_ok _ _ 0 r S4 Hw) as (q & -> & Hq & Eq & Hr); [by rewrite Eb|]. cbn zeta.
  set (b1 := b_with_outbufs _ _).
  assert (Hp : Permutation (broker_held b1) (broker_held b)).
  { subst b1. unfold broker_held. cbn. rewrite Eq, Eb, bufs_held_app, !bufs_held_cons.
    change (bufs_held []) with (@nil kmsg). cbn. solve_Permutation. }
  apply (op_ok_bind b b1); [|done|by apply bacct_perm|].
  - constructor; try done. by apply (bufq_enq_ok _ (rkb_outbufs b)).
  - apply IH; [|by eapply all_sized_perm].
    constructor; try done. by apply (bufq_enq_ok _ (rkb_outbufs b)).
Qed.

(** Any part of a request can be sent. *)
Lemma send_iov_ok n r :
  buf_ok n r ->
  exists iov, send_iov r = Some iov /\ concat iov = drop (Z.to_nat r.(rkbuf_of)) (concat r.(rkbuf_iov)).
Proof.
  intros (_ & _ & _ & H1 & H2 & H3). unfold send_iov.
  destruct (Z.eqb_spec r.(rkbuf_of) 0) as [->|_]; [by eexists|].
  destruct (rebuild_loop_ok IOV_MAX r.(rkbuf_of) 0 r.(rkbuf_iov) []) as (iov & E & Hc & _).
  - lia.
  - lia.
  - unfold rkbuf_len, rd_kafka_msghdr_size in *. lia.
  - rewrite zlen_nil. lia.
  - exists iov. split; [done|]. by rewrite Hc, Z.sub_0_r.
Qed.

(** A request after some more of its bytes were sent. *)
Lemma buf_sent_ok n r iov k :
  buf_ok n r -> concat iov = drop (Z.to_nat r.(rkbuf_of)) (concat r.(rkbuf_iov)) ->
  buf_ok n (buf_sent r (zlen (take k (concat iov)))).
Proof.
  intros (H1 & H2 & H3 & H4 & H5 & H6) E. rewrite E. split_and!; try done; cbn.
  - unfold zlen. lia.
  - unfold rkbuf_len, rd_kafka_msghdr_size in *. cbn. unfold zlen in *.
    rewrite length_take, length_drop. lia.
Qed.

(** The broker after [data] was sent of its first request. *)
Definition sent_of (b : broker) (r : rkbuf) (bufs : list rkbuf) (data : list Z) : broker :=
  b_with_outbufs (b_with_wire b (b.(rkb_wire) ++ data))
    (Bufq (buf_sent r (zlen data) :: bufs)
       (b_with_wire b (b.(rkb_wire) ++ data)).(rkb_outbufs).(rkbq_cnt)).

Lemma sent_of_ok b r bufs iov k :
  broker_shape b -> b.(rkb_outbufs).(rkbq_bufs) = r :: bufs ->
  concat iov = drop (Z.to_nat r.(rkbuf_of)) (concat r.(rkbuf_iov)) ->
  broker_shape (sent_of b r bufs (take k (concat iov))) /\
  broker_held (sent_of b r bufs (take k (concat iov))) = broker_held b.
Proof.
  intros [S1 [Sc S2] S3 S4 S5 S6] Eb Ei. rewrite Eb in S2, Sc. apply Forall_cons in S2 as [Hr Hbufs]. split.
  - constructor; try done. split; cbn; [by rewrite Sc, !zlen_cons|].
    constructor; [by apply buf_sent_ok|done].
  - unfold broker_held. cbn. by rewrite Eb, !bufs_held_cons.
Qed.

(** The first request, sent, leaves the out queue: it waits for its response, or
    its callback is run. *)
Lemma sent_request_ok now b r bufs :
  broker_shape b -> all_sized b.(rkb_rk) (broker_held b) ->
  b.(rkb_outbufs).(rkbq_bufs) = r :: bufs ->
  exists q b', rd_kafka_bufq_deq b.(rkb_outbufs) 0 = Some q /\
    (if r.(rkbuf_no_response) then run_cb c now 0 None r (b_with_outbufs b q)
     else Some (b_with_waitresps (b_with_outbufs b q)
                  (rd_kafka_bufq_enq (b_with_outbufs b q).(rkb_waitresps) r))) = Some b' /\
    op_ok b (Some b') /\ b'.(rkb_outbufs).(rkbq_bufs) = bufs /\ b'.(rkb_up) = b.(rkb_up) /\
    b'.(rkb_wire) = b.(rkb_wire) /\
    b'.(rkb_waitresps).(rkbq_bufs) =
      b.(rkb_waitresps).(rkbq_bufs) ++ (if r.(rkbuf_no_response) then [] else [r]).
Proof.
  intros Hs Hz Eb. destruct (queues_small b [] Hs (proj1 Hz)) as (Hw & _).
  destruct (bufq_deq_ok _ _ 0 r (bs_out _ Hs) Hw) as (q & E & Hq & Eq & Hr); [by rewrite Eb|].
  rewrite Eb in Eq. cbn in Eq. set (b2 := b_with_outbufs b q).
  assert (Hp : Permutation (r.(rkbuf_msgq).(rkmq_msgs) ++ broker_held b2) (broker_held b)).
  { subst b2. unfold broker_held. cbn. rewrite Eq, Eb, bufs_held_cons. solve_Permutation. }
  assert (Hs2 : broker_shape b2) by (by destruct Hs; constructor).
  destruct (rkbuf_no_response r).
  - destruct (run_cb_ok now 0 None r b2 []) as (b3 & E3 & Hs3 & (K1 & K2 & K3 & K4 & K5) & A).
    + done.
    + done.
    + rewrite app_nil_r. by eapply all_sized_perm.
    + exists q, b3. split_and!; [done|done| |by rewrite K1|done|done|by rewrite K2, app_nil_r].
      exists b3. split_and!; [done..|]. rewrite !app_nil_r in A.
      eapply bacct_trans; [|exact A]. by apply bacct_perm.
  - eexists q, _. split_and!; [done|done| |done..]. eexists. split; [done|]. split_and!; [|done|].
    + destruct Hs2; constructor; try done. by apply bufq_enq_ok.
    + apply bacct_perm. rewrite <- Hp. unfold broker_held. cbn.
      rewrite bufs_held_app, bufs_held_cons. change (bufs_held []) with (@nil kmsg).
      solve_Permutation.
Qed.

Lemma send_ok now results : forall b,
  broker_shape b -> all_sized b.(rkb_rk) (broker_held b) ->
  op_ok b (rd_kafka_send c now results b).
Proof.
  induction results as [|res results IH]; intros b Hs Hz; cbn [rd_kafka_send]; [by apply op_ok_refl|].
  destruct (rkbq_bufs (rkb_outbufs b)) as [|r bufs] eqn:Eb; [by apply op_ok_refl|].
  destruct (negb _); [by apply op_ok_refl|].
  assert (Hr : buf_ok (length (rkb_toppars b)) r).
  { destruct (bs_out _ Hs) as [_ S2]. rewrite Eb in S2. by apply Forall_cons in S2 as [? _]. }
  destruct (send_iov_ok _ _ Hr) as (iov & -> & Ei).
  destruct res as [|k|]; [by apply op_ok_refl| |by apply broker_fail_ok]. cbn zeta.
  destruct (sent_of_ok b r bufs iov (Z.to_nat k) Hs Eb Ei) as [Hs1 Eh].
  fold (sent_of b r bufs (take (Z.to_nat k) (concat iov))). set (b1 := sent_of _ _ _ _) in *.
  assert (Hz1 : all_sized b1.(rkb_rk) (broker_held b1)) by (by rewrite Eh).
  assert (A1 : bacct b.(rkb_rk) (broker_held b) b1.(rkb_rk) (broker_held b1))
    by (rewrite Eh; by apply bacct_perm).
  destruct (_ <? _); [by exists b1|].
  destruct (sent_request_ok now b1 _ bufs Hs1 Hz1 eq_refl) as (q & b3 & -> & -> & (b4 & [= <-] & O1 & O2 & O3) & _).
  apply (op_ok_bind b b3); [done..|by eapply bacct_trans|].
  apply IH; [done|]. eapply bacct_sized; [|exact Hz]. by eapply bacct_trans.
Qed.

(** The bytes still to be sent. *)
Definition unsent (r : rkbuf) : list Z := drop (Z.to_nat r.(rkbuf_of)) (concat r.(rkbuf_iov)).

Definition out_bytes (b : broker) : list Z := concat (map unsent b.(rkb_outbufs).(rkbq_bufs)).

(** The socket takes whatever of these requests it is given. *)
Definition takes_all (bufs : list rkbuf) (res : send_result) : Prop :=
  exists n, res = SendBytes n /\ Forall (fun r => rkbuf_len r <= n) bufs.

Lemma unsent_split n r k :
  buf_ok n r ->
  take k (unsent r) ++ unsent (buf_sent r (zlen (take k (unsent r)))) = unsent r /\
  (rkbuf_len r <= (buf_sent r (zlen (take k (unsent r)))).(rkbuf_of) ->
   take k (unsent r) = unsent r) /\
  ((length (unsent r) <= k)%nat -> rkbuf_len r <= (buf_sent r (zlen (take k (unsent r)))).(rkbuf_of)).
Proof.
  intros (_ & _ & _ & _ & H & _). unfold unsent, rkbuf_len, rd_kafka_msghdr_size in *. cbn.
  set (l := concat (rkbuf_iov r)) in *. set (d := drop _ l).
  assert (Hd : zlen d = zlen l - rkbuf_of r) by (unfold d, zlen in *; rewrite length_drop; lia).
  split_and!.
  - replace (Z.to_nat (rkbuf_of r + zlen (take k d)))
      with (Z.to_nat (rkbuf_of r) + length (take k d))%nat by (unfold zlen; lia).
    rewrite <- drop_drop. fold d. rewrite length_take. destruct (Nat.le_ge_cases k (length d)).
    + rewrite Nat.min_l by lia. apply take_drop.
    + by rewrite Nat.min_r, take_ge, drop_all, app_nil_r by lia.
  - intros Hle. apply take_ge. unfold zlen in *. rewrite length_take in Hle. lia.
  - intros Hle. rewrite take_ge by done. lia.
Qed.

Lemma send_order now results : forall b,
  broker_shape b -> all_sized b.(rkb_rk) (broker_held b) -> b.(rkb_up) = true ->
  Forall (fun res => res <> SendError) results ->
  exists b' k, rd_kafka_send c now results b = Some b' /\
    b'.(rkb_wire) ++ out_bytes b' = b.(rkb_wire) ++ out_bytes b /\ b'.(rkb_up) = true /\
    map rkbuf_corrid b'.(rkb_outbufs).(rkbq_bufs)
      = map rkbuf_corrid (drop k b.(rkb_outbufs).(rkbq_bufs)) /\
    map rkbuf_corrid b'.(rkb_waitresps).(rkbq_bufs)
      = map rkbuf_corrid (b.(rkb_waitresps).(rkbq_bufs) ++
          filter (fun r => r.(rkbuf_no_response) = false) (take k b.(rkb_outbufs).(rkbq_bufs))) /\
    (Forall (takes_all b.(rkb_outbufs).(rkbq_bufs)) results ->
     (length b.(rkb_outbufs).(rkbq_bufs) <= length results)%nat -> b'.(rkb_outbufs).(rkbq_bufs) = []).
Proof.
  induction results as [|res results IH]; intros b Hs Hz Hup Hres; cbn [rd_kafka_send].
  { exists b, O. cbn. rewrite drop_0, app_nil_r. split_and!; try done. intros _.
    by destruct (rkbq_bufs (rkb_outbufs b)); [|cbn; lia]. }
  destruct (rkbq_bufs (rkb_outbufs b)) as [|r bufs] eqn:Eb.
  { exists b, O. rewrite Eb. cbn. rewrite app_nil_r. by split_and!. }
  rewrite Hup. cbn [negb]. apply Forall_cons in Hres as [Hne Hres].
  assert (Hr : buf_ok (length (rkb_toppars b)) r).
  { destruct (bs_out _ Hs) as [_ S2]. rewrite Eb in S2. by apply Forall_cons in S2 as [? _]. }
  destruct (send_iov_ok _ _ Hr) as (iov & -> & Ei).
  assert (Eo : out_bytes b = unsent r ++ concat (map unsent bufs)) by (unfold out_bytes; by rewrite Eb).
  destruct res as [|k|]; [|cbn zeta|done].
  { exists b, O. rewrite Eb. cbn. rewrite app_nil_r. split_and!; try done.
    intros [(n & [=] & _) _]%Forall_cons. }
  destruct (sent_of_ok b r bufs iov (Z.to_nat k) Hs Eb Ei) as [Hs1 Eh].
  fold (sent_of b r bufs (take (Z.to_nat k) (concat iov))).
  destruct (unsent_split _ _ (Z.to_nat k) Hr) as (U1 & U2 & U3).
  fold (unsent r) in Ei. rewrite Ei in *. set (r1 := buf_sent r _) in *. set (b1 := sent_of _ _ _ _) in *.
  assert (Hz1 : all_sized b1.(rkb_rk) (broker_held b1)) by (by rewrite Eh).
  assert (Eo1 : b1.(rkb_wire) ++ out_bytes b1 = b.(rkb_wire) ++ out_bytes b).
  { rewrite Eo, <- U1. subst b1 r1. unfold out_bytes. cbn. by rewrite <- !app_assoc. }
  assert (Htk : takes_all (r :: bufs) (SendBytes k) -> rkbuf_len r <= rkbuf_of r1).
  { intros (n & [= <-] & Hn). apply U3. apply Forall_cons in Hn as [Hn _].
    destruct Hr as (_ & _ & _ & _ & H & _).
    unfold unsent, rkbuf_len, rd_kafka_msghdr_size, zlen in *. rewrite length_drop. lia. }
  destruct (Z.ltb_spec (rkbuf_of r1) (rkbuf_len r1)) as [Hlt|Hge].
  { exists b1, O. cbn. rewrite app_nil_r. split_and!; try done.
    intros [H _]%Forall_cons. apply Htk in H. change (rkbuf_len r1) with (rkbuf_len r) in Hlt. lia. }
  destruct (sent_request_ok now b1 r1 bufs Hs1 Hz1 eq_refl)
    as (q & b3 & -> & -> & (b4 & [= <-] & O1 & O2 & O3) & E1 & E2 & E3 & E4).
  destruct (IH b3 O1) as (b' & j & -> & J1 & J2 & J3 & J4 & J5).
  - by eapply bacct_sized.
  - by rewrite E2.
  - done.
  - exists b', (S j). split_and!; try done.
    + rewrite J1, <- Eo1, E3. f_equal. unfold out_bytes. rewrite E1. cbn.
      change (unsent (buf_sent r (zlen (take (Z.to_nat k) (unsent r))))) with (unsent r1).
      rewrite U2 in U1 by done. rewrite <- (app_nil_r (unsent r)) in U1 at 2.
      apply app_inv_head in U1. by rewrite U1.
    + by rewrite J3, E1.
    + rewrite J4, E1, E4. cbn [take filter list_filter]. rewrite !map_app. rewrite <- app_assoc. f_equal.
      subst b1. cbn. rewrite <- map_app. change (rkbuf_no_response r1) with (rkbuf_no_response r).
      destruct (rkbuf_no_response r); cbn; by case_decide.
    + intros [_ H]%Forall_cons Hl. apply J5; rewrite E1; [|cbn in Hl; lia].
      eapply Forall_impl; [exact H|]. intros res (n & -> & [_ Hn]%Forall_cons). by exists n.
Qed.

Lemma smallq_app l k : smallq (l ++ k) -> smallq l /\ smallq k.
Proof.
  intros [H1 H2]. autorewrite with ngx in H1. rewrite total_len_app in H2.
  pose proof (zlen_nonneg l). pose proof (zlen_nonneg k). pose proof (total_len_nonneg l).
  pose proof (total_len_nonneg k). split; split; lia.
Qed.

Lemma wfq_cnt q : wfq q -> smallq q.(rkmq_msgs) -> q.(rkmq_msg_cnt) = zlen q.(rkmq_msgs).
Proof.
  intros [-> _] [H _]. pose proof (zlen_nonneg q.(rkmq_msgs)). apply s32_small. lia.
Qed.

(** The transmit queue of a partition is within the limits. *)
Lemma toppar_xmit_ok b i t :
  broker_shape b -> all_sized b.(rkb_rk) (broker_held b) -> b.(rkb_toppars) !! i = Some t ->
  btp_ok t /\ smallq (t.(bt_tp).(rktp_xmit_msgq).(rkmq_msgs) ++ toppar_msgs t.(bt_tp)) /\
  xmit_ok b.(rkb_rk).(max_msg_size) t.(bt_tp).(rktp_xmit_msgq).
Proof.
  intros [S1 _ _ _ _ _] [Hc Hz] Hi. rewrite Forall_lookup in S1. pose proof (S1 i t Hi) as Ht.
  split; [done|]. destruct Ht as (_ & W & _). destruct (btps_held_insert i t _ Hi) as (fr & Hp & _).
  set (rest := bufs_held b.(rkb_outbufs).(rkbq_bufs) ++ bufs_held b.(rkb_waitresps).(rkbq_bufs) ++
    bufs_held b.(rkb_retrybufs).(rkbq_bufs) ++ b.(rkb_timedout).(rkmq_msgs) ++ b.(rkb_isrfailed).(rkmq_msgs)).
  assert (P : Permutation (broker_held b)
    (t.(bt_tp).(rktp_xmit_msgq).(rkmq_msgs) ++ toppar_msgs t.(bt_tp) ++ fr ++ rest)).
  { unfold broker_held. fold rest. rewrite Hp. unfold tp_held. solve_Permutation. }
  assert (Hq : smallq (t.(bt_tp).(rktp_xmit_msgq).(rkmq_msgs) ++ toppar_msgs t.(bt_tp))).
  { apply (counted_smallq b.(rkb_rk) _ (fr ++ rest)). eapply counted_perm; [|exact Hc].
    by rewrite P, <- !app_assoc. }
  split; [done|]. split_and!; [done|by apply smallq_app in Hq as [? _]|].
  rewrite P, !Forall_app in Hz. tauto.
Qed.

Context (Hbatch : 1 <= c.(batch_num_messages)).

(** The broker with one more request in its out queue. *)
Definition with_request (b : broker) (i : nat) (t : btoppar) (r : rkbuf) (xmit : msgq) : broker :=
  Broker b.(rkb_rk) b.(rkb_up) (<[i := bt_with t (with_xmit t.(bt_tp) xmit)]> b.(rkb_toppars))
    (rd_kafka_bufq_enq b.(rkb_outbufs) r) b.(rkb_waitresps) b.(rkb_retrybufs)
    (s32 (b.(rkb_corrid) + 1)) b.(rkb_req_timeouts) b.(rkb_timedout) b.(rkb_isrfailed) b.(rkb_wire).

(** A new request of messages of the transmit queue of a partition. *)
Definition new_request (b : broker) (i : nat) (t : btoppar) (r : rkbuf) (xmit : msgq) : Prop :=
  t.(bt_tp).(rktp_xmit_msgq).(rkmq_msgs) = r.(rkbuf_msgq).(rkmq_msgs) ++ xmit.(rkmq_msgs) /\
  1 <= zlen r.(rkbuf_msgq).(rkmq_msgs) <= c.(batch_num_messages) /\
  r.(rkbuf_cb) = Some i /\ buf_ok (length b.(rkb_toppars)) r /\ r.(rkbuf_of) = 0 /\ wfq xmit.

Lemma zlen_request_frame corrid t set :
  sizes_ok c compress t -> zlen set < 2 ^ 31 -> zlen (request_frame c corrid t set) < 2 ^ 62.
Proof.
  intros (_ & H1 & H2) H3. unfold request_frame. cbn zeta. autorewrite with ngx.
  change (zlen (reqhdr _ _)) with 12. change (zlen (prodhdr_part1 t)) with 10.
  change (zlen (prodhdr_part2 t _)) with 12. unfold rd_kafkap_str_new. autorewrite with ngx.
  change (zlen (be_bytes 2 _)) with 2. lia.
Qed.

Lemma produce_toppar_ok i b t :
  broker_shape b -> all_sized b.(rkb_rk) (broker_held b) -> b.(rkb_toppars) !! i = Some t ->
  t.(bt_tp).(rktp_xmit_msgq).(rkmq_msgs) <> [] ->
  exists r xmit,
    make_request c compress b.(rkb_rk).(max_msg_size) (s32 (b.(rkb_corrid) + 1)) i t = Some (Some r, xmit) /\
    new_request b i t r xmit /\
    rd_kafka_broker_produce_toppar c compress i b
      = Some (zlen r.(rkbuf_msgq).(rkmq_msgs), with_request b i t r xmit).
Proof.
  intros Hs Hz Hi Hne. destruct (toppar_xmit_ok _ _ _ Hs Hz Hi) as ((T1 & T2 & T3) & _ & Hx).
  pose proof Hz as [((_ & _ & Hmax) & _) _].
  destruct (make_request_ok c compress (fun _ => None) (fun _ => None) (fun _ => None)
    b.(rkb_rk).(max_msg_size) (s32 (b.(rkb_corrid) + 1)) i t)
    as (r & xmit & E & E1 & N1 & Hb & W1 & W2 & R1 & R2 & R3 & R4 & R5 & set & R6 & R7 & _);
    [done|lia|done|done|done|].
  assert (Hlen : 1 <= zlen r.(rkbuf_msgq).(rkmq_msgs)).
  { destruct (rkmq_msgs (rkbuf_msgq r)) as [|m ms]; [done|]. rewrite zlen_cons.
    pose proof (zlen_nonneg ms). lia. }
  assert (Hr : buf_ok (length b.(rkb_toppars)) r).
  { pose proof (zlen_request_frame (s32 (rkb_corrid b + 1)) t set T3 R7).
    pose proof (zlen_nonneg (request_frame c (s32 (rkb_corrid b + 1)) t set)).
    assert (El : rkbuf_len r = zlen (request_frame c (s32 (rkb_corrid b + 1)) t set))
      by (unfold rkbuf_len, rd_kafka_msghdr_size; by rewrite R6).
    unfold buf_ok. rewrite El, R2. split_and!; try done.
    exists i. split; [done|]. by eapply lookup_lt_Some. }
  exists r, xmit. split; [done|]. split.
  - by split_and!.
  - unfold rd_kafka_broker_produce_toppar. rewrite Hi. cbn zeta. rewrite E, R3.
    rewrite wfq_cnt; [done|done|]. destruct Hx as (_ & [H1 H2] & _). rewrite E1 in H1, H2.
    autorewrite with ngx in H1. rewrite total_len_app in H2. pose proof (zlen_nonneg xmit.(rkmq_msgs)).
    pose proof (total_len_nonneg xmit.(rkmq_msgs)). split; lia.
Qed.

Lemma with_request_ok b i t r xmit :
  broker_shape b -> b.(rkb_toppars) !! i = Some t -> new_request b i t r xmit ->
  op_ok b (Some (with_request b i t r xmit)).
Proof.
  intros [S1 S2 S3 S4 S5 S6] Hi (E & _ & _ & Hr & _ & Hx). eexists. split; [done|]. split_and!.
  - constructor; cbn; rewrite ?length_insert; try done; [|by apply bufq_enq_ok].
    apply Forall_insert; [done|]. rewrite Forall_lookup in S1. by destruct (S1 i t Hi) as (T1 & T2 & T3).
  - cbn. by rewrite length_insert.
  - apply bacct_perm. destruct (btps_held_insert i t _ Hi) as (fr & H1 & H2).
    unfold broker_held. cbn. rewrite H1, H2, bufs_held_app, bufs_held_cons. cbn.
    change (bufs_held []) with (@nil kmsg). unfold tp_held. cbn. rewrite E.
    unfold toppar_msgs. cbn. solve_Permutation.
Qed.

(** The loop sends the whole transmit queue: requests are added behind the
    others, their messages are those of the queue in order. *)
Lemma xmit_loop_ok i n : forall b t,
  broker_shape b -> all_sized b.(rkb_rk) (broker_held b) -> b.(rkb_toppars) !! i = Some t ->
  (length t.(bt_tp).(rktp_xmit_msgq).(rkmq_msgs) <= n)%nat ->
  exists b' rs t', xmit_loop c compress n i b = Some b' /\ op_ok b (Some b') /\
    b'.(rkb_outbufs).(rkbq_bufs) = b.(rkb_outbufs).(rkbq_bufs) ++ rs /\
    bufs_held rs = t.(bt_tp).(rktp_xmit_msgq).(rkmq_msgs) /\
    Forall (fun r => r.(rkbuf_cb) = Some i /\
              1 <= zlen r.(rkbuf_msgq).(rkmq_msgs) <= c.(batch_num_messages)) rs /\
    b'.(rkb_toppars) = <[i := t']> b.(rkb_toppars) /\
    t'.(bt_tp).(rktp_msgq) = t.(bt_tp).(rktp_msgq) /\
    t'.(bt_tp).(rktp_xmit_msgq).(rkmq_msgs) = [] /\
    b'.(rkb_timedout) = b.(rkb_timedout) /\ b'.(rkb_isrfailed) = b.(rkb_isrfailed).
Proof.
  induction n as [|n IH]; intros b t Hs Hz Hi Hn; cbn [xmit_loop].
  all: destruct (rkmq_msgs (rktp_xmit_msgq (bt_tp t))) as [|m ms] eqn:Em; cbn in Hn; [|try lia].
  1: { exists b, [], t. rewrite app_nil_r, list_insert_id by done. split_and!; try done. by apply op_ok_refl. }
  all: rewrite Hi; destruct (toppar_xmit_ok _ _ _ Hs Hz Hi) as (_ & _ & Hx & Hx2 & _);
    rewrite wfq_cnt by done; rewrite Em.
  { exists b, [], t. rewrite app_nil_r, list_insert_id by done. split_and!; try done. by apply op_ok_refl. }
  rewrite zlen_cons, (proj2 (Z.ltb_lt _ _)) by (pose proof (zlen_nonneg ms); lia).
  destruct (produce_toppar_ok i b t Hs Hz Hi) as (r & xmit & _ & Hnew & ->); [by rewrite Em|].
  destruct (with_request_ok _ _ _ _ _ Hs Hi Hnew) as (b1 & [= <-] & O1 & O2 & O3).
  pose proof Hnew as (E & Hlen & Hcb & _). rewrite (proj2 (Z.ltb_lt _ _)) by lia.
  set (t1 := bt_with t (with_xmit (bt_tp t) xmit)).
  destruct (IH (with_request b i t r xmit) t1) as (b' & rs & t' & -> & Q1 & Q2 & Q3 & Q4 & Q5 & Q6 & Q7 & Q8 & Q9).
  - done.
  - by eapply bacct_sized.
  - cbn. apply list_lookup_insert_eq. by eapply lookup_lt_Some.
  - cbn. rewrite Em in E. apply (f_equal length) in E. rewrite length_app in E. cbn in E.
    unfold zlen in Hlen. lia.
  - exists b', (r :: rs), t'. split_and!; try done.
    + eapply (op_ok_bind b _ (fun _ => Some b')); done.
    + rewrite Q2. cbn. by rewrite <- app_assoc.
    + rewrite bufs_held_cons, Q3. cbn. by rewrite <- E, Em.
    + by constructor.
    + rewrite Q5. cbn. apply list_insert_insert_eq.
Qed.

(** Before sending: the messages waiting go behind those in the transmit queue,
    or fail when replicas are missing; the expired ones at its head fail. *)
Lemma collect_ok now scan tp isr timedout isrfailed :
  wfq tp.(rktp_msgq) -> wfq tp.(rktp_xmit_msgq) -> wfq timedout -> wfq isrfailed ->
  smallq (tp.(rktp_xmit_msgq).(rkmq_msgs) ++ toppar_msgs tp) ->
  exists tp' timedout' isrfailed' pre,
    collect now scan tp isr timedout isrfailed = Some (tp', timedout', isrfailed') /\
    wfq tp'.(rktp_msgq) /\ wfq tp'.(rktp_xmit_msgq) /\ wfq timedout' /\ wfq isrfailed' /\
    toppar_msgs tp' = [] /\
    tp.(rktp_xmit_msgq).(rkmq_msgs) ++ (if isr then [] else toppar_msgs tp)
      = pre ++ tp'.(rktp_xmit_msgq).(rkmq_msgs) /\
    timedout'.(rkmq_msgs) = timedout.(rkmq_msgs) ++ pre /\
    isrfailed'.(rkmq_msgs) = isrfailed.(rkmq_msgs) ++ (if isr then toppar_msgs tp else []) /\
    Forall (expired now) pre /\ (scan = false -> pre = []).
Proof.
  intros W1 W2 W3 W4 Hs. destruct (smallq_app _ _ Hs) as [Hs1 Hs2]. unfold collect.
  set (p := if isr then _ else _).
  assert (Hp : exists tp1 isr1, p = (tp1, isr1) /\ wfq tp1.(rktp_msgq) /\ wfq isr1 /\
    tp1.(rktp_xmit_msgq) = tp.(rktp_xmit_msgq) /\
    smallq (tp.(rktp_xmit_msgq).(rkmq_msgs) ++ toppar_msgs tp1) /\
    toppar_msgs tp1 = (if isr then [] else toppar_msgs tp) /\
    isr1.(rkmq_msgs) = isrfailed.(rkmq_msgs) ++ (if isr then toppar_msgs tp else [])).
  { subst p. destruct isr; do 2 eexists; (split; [done|]); split_and!; try done.
    - by apply wfq_concat.
    - cbn. by rewrite app_nil_r.
    - by rewrite app_nil_r. }
  destruct Hp as (tp1 & isr1 & -> & V1 & V2 & E1 & Hs3 & <- & E3).
  set (tp2 := if 0 <? _ then _ else tp1).
  assert (H2 : wfq tp2.(rktp_msgq) /\ wfq tp2.(rktp_xmit_msgq) /\ toppar_msgs tp2 = [] /\
    tp2.(rktp_xmit_msgq).(rkmq_msgs) = tp.(rktp_xmit_msgq).(rkmq_msgs) ++ toppar_msgs tp1).
  { subst tp2. rewrite wfq_cnt by (try done; by apply smallq_app in Hs3 as [_ ?]). unfold toppar_msgs in *. destruct (Z.ltb_spec 0 (zlen (rkmq_msgs (rktp_msgq tp1)))).
    - cbn. rewrite E1. split_and!; try done. by apply wfq_concat.
    - rewrite E1. destruct (rkmq_msgs (rktp_msgq tp1)) as [|m ms]; [by rewrite app_nil_r|].
      rewrite zlen_cons in H. pose proof (zlen_nonneg ms). lia. }
  clearbody tp2. destruct H2 as (X1 & X2 & X3 & X4). destruct scan.
  - unfold rd_kafka_msgq_age_scan.
    destruct (age_scan_loop_spec (length (rkmq_msgs (rktp_xmit_msgq tp2))) _ timedout now X2 W3)
      as (pre & q' & t' & -> & Y1 & Y2 & Y3 & Y4 & Y5 & _); [|done|].
    { by rewrite X4. }
    do 4 eexists. split; [done|]. rewrite <- X4. by split_and!.
  - do 3 eexists. exists []. split; [done|]. rewrite <- X4, app_nil_r. by split_and!.
Qed.

(** The broker after [collect] on one of its partitions. *)
Definition collected (b : broker) (i : nat) (t : btoppar) (tp : toppar) (timedout isrfailed : msgq) : broker :=
  b_with_failed (b_set_toppar b i (bt_with t tp)) timedout isrfailed.

Lemma collected_ok now scan i b t :
  broker_shape b -> all_sized b.(rkb_rk) (broker_held b) -> b.(rkb_toppars) !! i = Some t ->
  let isr := t.(bt_isr_cnt) <? t.(bt_enforce_isr_cnt) in
  exists tp' td' if' pre,
    collect now scan t.(bt_tp) isr b.(rkb_timedout) b.(rkb_isrfailed) = Some (tp', td', if') /\
    tp'.(rktp_xmit_msgq).(rkmq_msg_cnt) = zlen tp'.(rktp_xmit_msgq).(rkmq_msgs) /\
    toppar_msgs tp' = [] /\ (scan = false -> pre = []) /\
    t.(bt_tp).(rktp_xmit_msgq).(rkmq_msgs) ++ (if isr then [] else toppar_msgs t.(bt_tp))
      = pre ++ tp'.(rktp_xmit_msgq).(rkmq_msgs) /\
    op_ok b (Some (collected b i t tp' td' if')) /\
    op_ok b (Some (b_set_toppar (collected b i t tp' td' if') i (bt_xmitted (bt_with t tp') now))).
Proof.
  intros Hs Hz Hi isr. pose proof Hs as [S1 S2 S3 S4 S5 S6].
  destruct (toppar_xmit_ok _ _ _ Hs Hz Hi) as ((T1 & T2 & T3) & Hsm & _).
  destruct (btps_held_insert i t _ Hi) as (fr & P1 & P2).
  destruct (collect_ok now scan t.(bt_tp) isr b.(rkb_timedout) b.(rkb_isrfailed) T1 T2 S5 S6 Hsm)
    as (tp' & td' & if' & pre & -> & V1 & V2 & V3 & V4 & E1 & E2 & E3 & E4 & _ & E5).
  assert (Hsx : smallq tp'.(rktp_xmit_msgq).(rkmq_msgs)).
  { eapply (smallq_app pre). rewrite <- E2. destruct isr; [|done]. rewrite app_nil_r.
    by apply smallq_app in Hsm as [? _]. }
  assert (O1 : forall t', t'.(bt_tp) = tp' -> btp_ok t' ->
    op_ok b (Some (b_set_toppar (collected b i t tp' td' if') i t'))).
  { intros t' Et Ht'. eexists. split; [done|]. cbn. rewrite !length_insert. split_and!; [|done|].
    - constructor; cbn; rewrite ?length_insert; try done. rewrite list_insert_insert_eq. by apply Forall_insert.
    - apply bacct_perm. unfold broker_held. cbn. rewrite list_insert_insert_eq, P1, P2, E3, E4, Et.
      unfold tp_held. rewrite E1. cbn [app].
      set (msgs := toppar_msgs (bt_tp t)) in *. set (x := rkmq_msgs (rktp_xmit_msgq (bt_tp t))) in *.
      set (x' := rkmq_msgs (rktp_xmit_msgq tp')) in *.
      destruct isr.
      + rewrite app_nil_r in E2. rewrite E2. solve_Permutation.
      + rewrite (Permutation_app_comm msgs x), E2. rewrite app_nil_r. solve_Permutation. }
  exists tp', td', if', pre. split; [done|]. split; [by apply wfq_cnt|]. split; [done|]. split; [done|].
  split; [done|]. split; [|by apply O1].
  pose proof (O1 (bt_with t tp') eq_refl ltac:(done)) as O2.
  unfold collected, b_set_toppar, b_with_failed, b_with_toppars in *. cbn in *.
  by rewrite list_insert_insert_eq in O2.
Qed.

Lemma serve_toppar_ok now scan i b t :
  broker_shape b -> all_sized b.(rkb_rk) (broker_held b) -> b.(rkb_toppars) !! i = Some t ->
  op_ok b (serve_toppar c compress now scan i b).
Proof.
  intros Hs Hz Hi. unfold serve_toppar. rewrite Hi.
  destruct (negb _); [by apply op_ok_refl|].
  destruct (collected_ok now scan i b t Hs Hz Hi) as (tp' & td' & if' & pre & -> & _ & _ & _ & _ & O2 & O3).
  cbn zeta. fold (collected b i t tp' td' if'). set (b1 := collected _ _ _ _ _ _) in *.
  destruct (_ =? 0); [done|]. destruct (_ && _); [done|].
  destruct O3 as (b2 & [= <-] & O3 & O4 & O5).
  destruct (xmit_loop_ok i (length (rkmq_msgs (rktp_xmit_msgq tp'))) (b_set_toppar b1 i (bt_xmitted (bt_with t tp') now))
    (bt_xmitted (bt_with t tp') now)) as (b' & _ & _ & E & O6 & _).
  - done.
  - by eapply bacct_sized.
  - cbn. apply list_lookup_insert_eq. rewrite length_insert. by eapply lookup_lt_Some.
  - done.
  - eapply (op_ok_bind b _ (fun b => xmit_loop c compress _ i b)); try done. by rewrite E.
Qed.

Lemma serve_pass_ok now scan idx : forall b,
  broker_shape b -> all_sized b.(rkb_rk) (broker_held b) ->
  Forall (fun i => (i < length b.(rkb_toppars))%nat) idx ->
  op_ok b (serve_pass c compress now scan idx b).
Proof.
  induction idx as [|i idx IH]; intros b Hs Hz Hidx; cbn [serve_pass]; [by apply op_ok_refl|].
  apply Forall_cons in Hidx as [Hi Hidx]. apply lookup_lt_is_Some in Hi as [t Hi].
  destruct (serve_toppar_ok now scan i b t Hs Hz Hi) as (b1 & -> & O1 & O2 & O3).
  apply (op_ok_bind b b1); [done..|]. apply IH; [done|by eapply bacct_sized|by rewrite O2].
Qed.

(** A queue of failed messages reported: with the rest of the messages [fr]. *)
Lemma report_failed_ok q err rk fr :
  wfq q -> all_sized rk (q.(rkmq_msgs) ++ fr) ->
  exists rk' q', report_failed q err rk = Some (rk', q') /\ wfq q' /\ q'.(rkmq_msgs) = [] /\
    bacct rk (q.(rkmq_msgs) ++ fr) rk' fr.
Proof.
  intros Hq [Hc Hz]. unfold report_failed. rewrite wfq_cnt by (try done; by eapply counted_smallq).
  destruct (Z.ltb_spec 0 (zlen (rkmq_msgs q))) as [_|H].
  - destruct (dr_msgq_acct (rk.(rk_dr) = false) rk q err fr (fun H => H) Hc) as (rk' & -> & A).
    by do 2 eexists.
  - exists rk, q. destruct (rkmq_msgs q) as [|m ms] eqn:E.
    + split_and!; try done. by apply bacct_perm.
    + rewrite zlen_cons in H. pose proof (zlen_nonneg ms). lia.
Qed.

Lemma serve_failed_ok b :
  broker_shape b -> all_sized b.(rkb_rk) (broker_held b) -> op_ok b (serve_failed b).
Proof.
  intros [S1 S2 S3 S4 S5 S6] Hz. unfold serve_failed.
  set (fr := btps_held b.(rkb_toppars) ++ bufs_held b.(rkb_outbufs).(rkbq_bufs) ++
    bufs_held b.(rkb_waitresps).(rkbq_bufs) ++ bufs_held b.(rkb_retrybufs).(rkbq_bufs)).
  assert (P : Permutation (b.(rkb_isrfailed).(rkmq_msgs) ++ b.(rkb_timedout).(rkmq_msgs) ++ fr) (broker_held b)).
  { unfold broker_held. subst fr. solve_Permutation. }
  destruct (report_failed_ok b.(rkb_isrfailed) RD_KAFKA_RESP_ERR__ISR_INSUFF b.(rkb_rk)
    (b.(rkb_timedout).(rkmq_msgs) ++ fr) S6) as (rk1 & q1 & -> & W1 & E1 & A1);
    [by eapply all_sized_perm|].
  assert (A0 : bacct b.(rkb_rk) (broker_held b) rk1 (b.(rkb_timedout).(rkmq_msgs) ++ fr))
    by (eapply bacct_trans; [by apply bacct_perm|exact A1]).
  destruct (report_failed_ok b.(rkb_timedout) RD_KAFKA_RESP_ERR__MSG_TIMED_OUT rk1 fr S5)
    as (rk2 & q2 & -> & W2 & E2 & A2); [by eapply bacct_sized|].
  eexists. split; [done|]. split_and!; [by constructor|done|].
  eapply bacct_trans; [exact A0|]. eapply bacct_trans; [exact A2|]. apply bacct_perm.
  unfold broker_held. cbn. rewrite E1, E2, !app_nil_r. done.
Qed.

(** ** Every event keeps the accounts *)

Definition broker_inv (b : broker) : Prop :=
  broker_shape b /\ all_sized b.(rkb_rk) (broker_held b).

(** The payloads in the library: queued, in flight, or in a waiting report. *)
Definition broker_payloads (b : broker) : list (list Z) :=
  map rkm_payload (rk_held b.(rkb_rk) ++ broker_held b).

(** Sizes of a message fit [size_t]. *)
Definition bevent_ok (e : bevent) : Prop :=
  match e with
  | BProduce _ m => rkm_len m + keylen m.(rkm_key) < 2 ^ 64
  | _ => True
  end.

Definition bstep_ok (b b' : broker) (acc rep : list (list Z)) : Prop :=
  broker_inv b' /\ same_conf b.(rkb_rk) b'.(rkb_rk) /\
  (b.(rkb_rk).(rk_dr) = true ->
   Permutation (acc ++ broker_payloads b) (broker_payloads b' ++ rep)).

Lemma op_step_ok b res :
  broker_inv b -> op_ok b res ->
  exists b' acc rep, quiet res = Some (b', (acc, rep)) /\ bstep_ok b b' acc rep.
Proof.
  intros [_ Hz] (b' & -> & O1 & _ & O3). exists b', [], []. split; [done|].
  split_and!; [by split; [|eapply bacct_sized]|apply O3|].
  intros Hdr. destruct O3 as (_ & d & [->|Hd] & _ & Hp); [|congruence].
  cbn. unfold broker_payloads. rewrite !app_nil_r in *. by rewrite Hp.
Qed.

Lemma shape_up b up : broker_shape b ->
  broker_shape (Broker b.(rkb_rk) up b.(rkb_toppars) b.(rkb_outbufs) b.(rkb_waitresps)
    b.(rkb_retrybufs) b.(rkb_corrid) b.(rkb_req_timeouts) b.(rkb_timedout) b.(rkb_isrfailed) b.(rkb_wire)).
Proof. by intros []. Qed.

Lemma produce_step_ok b i m :
  broker_inv b -> bevent_ok (BProduce i m) ->
  exists b' acc rep, broker_step c compress b (BProduce i m) = Some (b', (acc, rep)) /\
    bstep_ok b b' acc rep.
Proof.
  intros [Hs Hz] He. cbn [broker_step]. cbn zeta.
  pose proof Hs as [S1 S2 S3 S4 S5 S6]. pose proof Hz as [((C1 & C2 & C3) & Cn & Cz) Hz2].
  pose proof (rkm_len_nonneg m). pose proof (keylen_nonneg m.(rkm_key)). cbn in He.
  rewrite s32_small, !u64_small by lia.
  destruct (Z.ltb_spec (queue_buffering_max_msgs (rkb_rk b)) (rk_msg_cnt (rkb_rk b) + 1)) as [|Hcnt]; cbn [orb];
    [by apply op_step_ok, op_ok_refl|].
  destruct (Z.ltb_spec (max_msg_size (rkb_rk b)) (rkm_len m + keylen (rkm_key m))) as [|Hsz]; cbn [orb];
    [by apply op_step_ok, op_ok_refl|].
  destruct (Nat.leb_spec (length (rkb_toppars b)) i) as [|Hi]; [by apply op_step_ok, op_ok_refl|].
  apply lookup_lt_is_Some in Hi as [t Hi]. rewrite (alter_is_insert _ _ _ _ Hi).
  destruct (btps_held_insert i t _ Hi) as (fr & P1 & P2). do 3 eexists. split; [done|].
  set (b' := b_with_rk _ _).
  assert (P : Permutation (broker_held b') (m :: broker_held b)).
  { subst b'. unfold broker_held. cbn. rewrite P1, P2. unfold tp_held, toppar_msgs. cbn. solve_Permutation. }
  assert (Hm : Permutation (rk_held b'.(rkb_rk) ++ broker_held b') (m :: rk_held b.(rkb_rk) ++ broker_held b)).
  { change (rk_held (rkb_rk b')) with (rk_held (rkb_rk b)). rewrite P. solve_Permutation. }
  split_and!; [|done|].
  - split; [|split; [split_and!|]].
    + constructor; cbn; rewrite ?length_insert; try done. apply Forall_insert; [done|].
      rewrite Forall_lookup in S1. destruct (S1 i t Hi) as (T1 & T2 & T3). split_and!; [by apply wfq_enq|done|exact T3].
    + unfold rk_ok. cbn. lia.
    + rewrite (zlen_Permutation _ _ Hm), zlen_cons. cbn. lia.
    + rewrite Hm. constructor; [cbn; lia|done].
    + rewrite Hm. constructor; [unfold sized; cbn; lia|done].
  - intros _. rewrite app_nil_r. unfold broker_payloads. by rewrite Hm.
Qed.

Lemma broker_step_ok b e :
  broker_inv b -> bevent_ok e ->
  exists b' acc rep, broker_step c compress b e = Some (b', (acc, rep)) /\ bstep_ok b b' acc rep.
Proof.
  intros Hinv He. pose proof Hinv as [Hs Hz].
  destruct e as [i m|now scan| |now results|now corrid body|now|now|now err| |i|];
    [by apply produce_step_ok|..]; cbn [broker_step].
  - apply op_step_ok; [done|]. destruct (rkb_up b); [|by apply op_ok_refl].
    apply serve_pass_ok; [done..|]. apply Forall_seq. intros j Hj. lia.
  - by apply op_step_ok, serve_failed_ok.
  - by apply op_step_ok, send_ok.
  - by apply op_step_ok, req_response_ok.
  - by apply op_step_ok, timeout_scan_ok.
  - by apply op_step_ok, retry_move_ok.
  - by apply op_step_ok, broker_fail_ok.
  - apply op_step_ok; [done|]. eexists. split; [done|]. split_and!; [by apply shape_up|done|by apply bacct_perm].
  - apply op_step_ok; [done|]. eexists. split; [done|]. cbn. rewrite length_alter. split_and!; [|done|].
    + destruct Hs as [S1 S2 S3 S4 S5 S6]. constructor; cbn; rewrite ?length_alter; try done.
      by apply Forall_alter.
    + apply bacct_perm. unfold broker_held. cbn. by rewrite btps_held_alter.
  - destruct Hz as [Hc Hz].
    destruct (poll_ok b.(rkb_rk) (broker_held b) Hc) as (n & rs & rk' & -> & P1 & P2 & P3 & P4).
    do 3 eexists. split; [done|]. split_and!; [split; [by destruct Hs|split; [done|]]|done|].
    + cbn. destruct P1 as (_ & -> & _). unfold rk_held. rewrite P2. apply Forall_app in Hz as [_ ?]. done.
    + intros _. rewrite P4. unfold broker_payloads, rk_held. cbn. rewrite P2, !map_app. cbn.
      unfold broker_held. cbn. solve_Permutation.
Qed.

Lemma broker_run_ok es : forall b,
  broker_inv b -> Forall bevent_ok es ->
  exists b' acc rep, broker_run c compress b es = Some (b', (acc, rep)) /\ bstep_ok b b' acc rep.
Proof.
  induction es as [|e es IH]; intros b Hb He; cbn [broker_run].
  { do 3 eexists. split; [done|]. split_and!; [done|done|by rewrite app_nil_r]. }
  apply Forall_cons in He as [He Hes].
  destruct (broker_step_ok b e Hb He) as (b1 & a1 & r1 & -> & A1 & (A2 & A2' & A2'') & A3).
  destruct (IH b1 A1 Hes) as (b2 & a2 & r2 & -> & B1 & (B2 & B2' & B2'') & B3).
  do 3 eexists. split; [done|]. split_and!; [done|split_and!; congruence|].
  intros Hdr. transitivity ((a1 ++ broker_payloads b) ++ a2); [solve_Permutation|].
  rewrite A3 by done. transitivity ((a2 ++ broker_payloads b1) ++ r1); [solve_Permutation|].
  rewrite B3 by congruence. solve_Permutation.
Qed.
End sound.
