(* ===== verification/RdBrokerSpec.v ===== *)
(** * What the broker thread promises

    No message is lost or reported twice, requests carry their messages
    faithfully, what is due is sent, bytes go out in order, replies decide the
    fate of exactly their request, and what a lost connection leaves. *)

From S2P Require Import Prelude RdMsg RdProto RdTopic RdProducer RdRequest RdBroker RdBrokerSound.

(** ** What the broker promises *)

(** A partition without messages, led by the broker or not. *)
Definition fresh_toppar (t : btoppar) : Prop :=
  t.(bt_tp).(rktp_msgq) = rd_kafka_msgq_init /\ t.(bt_tp).(rktp_xmit_msgq) = rd_kafka_msgq_init.

Definition broker_new (max_msgs max_size : Z) (dr : bool) (ts : list btoppar) : broker :=
  Broker (RdKafka 0 max_msgs max_size dr []) false ts rd_kafka_bufq_init rd_kafka_bufq_init
    rd_kafka_bufq_init 0 0 rd_kafka_msgq_init rd_kafka_msgq_init [].

Lemma broker_new_inv c compress max_msgs max_size dr ts :
  1 <= max_msgs <= 10000000 -> 1000 <= max_size <= 1000000000 ->
  Forall (fun t => fresh_toppar t /\ sizes_ok c compress t) ts ->
  broker_inv c compress (broker_new max_msgs max_size dr ts).
Proof.
  intros H1 H2 Ht. assert (Eh : broker_held (broker_new max_msgs max_size dr ts) = []).
  { unfold broker_held. cbn. rewrite app_nil_r.
    induction Ht as [|t ts [[E1 E2] _] _ IH]; [done|]. rewrite btps_held_cons, IH.
    unfold tp_held, toppar_msgs. by rewrite E1, E2. }
  split.
  - constructor; try done; [|by constructor..]. cbn. eapply Forall_impl; [exact Ht|].
    intros t [[E1 E2] Hz]. unfold btp_ok. by rewrite E1, E2.
  - rewrite Eh. split; [|constructor]. split_and!; [unfold rk_ok; cbn; lia|done|constructor].
Qed.

(** C6: the broker thread loses no message and reports none twice. From a fresh
    broker, under any interleaving of messages produced, passes over the
    partitions, partial and failing sends, responses (also unexpected or
    malformed ones), request timeouts, retries, lost and regained connections,
    delegations and polls, no assertion fails, [msg_cnt] is exactly the number
    of messages in the queues, the requests and the waiting reports, and with a
    delivery report callback the payloads accepted are, with multiplicity, those
    still held and those reported. *)
Theorem broker_conserves c compress max_msgs max_size dr ts es :
  1 <= max_msgs <= 10000000 -> 1000 <= max_size <= 1000000000 -> 1 <= c.(batch_num_messages) ->
  Forall (fun t => fresh_toppar t /\ sizes_ok c compress t) ts -> Forall bevent_ok es ->
  exists b acc rep,
    broker_run c compress (broker_new max_msgs max_size dr ts) es = Some (b, (acc, rep)) /\
    b.(rkb_rk).(rk_msg_cnt) = zlen (broker_payloads b) /\ b.(rkb_rk).(rk_msg_cnt) <= max_msgs /\
    (dr = true -> Permutation acc (broker_payloads b ++ rep)).
Proof.
  intros H1 H2 Hb Ht He.
  destruct (broker_run_ok c compress Hb es (broker_new max_msgs max_size dr ts))
    as (b & acc & rep & -> & [_ [(Hrk & Hn & _) _]] & (Hq & _) & Hp);
    [by apply broker_new_inv|done|].
  do 3 eexists. split_and!; [done| | |].
  - rewrite Hn. unfold broker_payloads, zlen. by rewrite length_map.
  - destruct Hrk as (Hrk & _). cbn in Hq. lia.
  - intros ->. rewrite <- Hp by done. unfold broker_payloads.
    destruct (broker_new_inv c compress max_msgs max_size true ts H1 H2 Ht) as [_ [(_ & E & _) _]].
    cbn in E. symmetry in E. unfold zlen in E. apply (Nat2Z.inj _ 0), nil_length_inv in E.
    rewrite E. by rewrite app_nil_r.
Qed.

(** C25: a produce request carries its messages faithfully. It takes the first
    messages of the transmit queue, at least one and not more than
    [batch.num.messages], within the number of pieces a [sendmsg] allows; on the
    wire it is a request with a fresh correlation id, whose size field counts
    the bytes that follow and whose message set, read by
    [rd_kafka_messageset_handle], gives back exactly those messages with their
    keys, compressed or not. *)
Theorem produce_request_faithful c compress gz snappy_java snappy i b t :
  broker_inv c compress b -> 1 <= c.(batch_num_messages) ->
  codec_inverts c compress gz snappy_java snappy ->
  b.(rkb_toppars) !! i = Some t -> t.(bt_tp).(rktp_xmit_msgq).(rkmq_msgs) <> [] ->
  exists r b' set,
    rd_kafka_broker_produce_toppar c compress i b = Some (zlen r.(rkbuf_msgq).(rkmq_msgs), b') /\
    b'.(rkb_outbufs).(rkbq_bufs) = b.(rkb_outbufs).(rkbq_bufs) ++ [r] /\
    t.(bt_tp).(rktp_xmit_msgq).(rkmq_msgs) =
      r.(rkbuf_msgq).(rkmq_msgs) ++
      default [] ((fun t => t.(bt_tp).(rktp_xmit_msgq).(rkmq_msgs)) <$> b'.(rkb_toppars) !! i) /\
    1 <= zlen r.(rkbuf_msgq).(rkmq_msgs) <= c.(batch_num_messages) /\
    zlen r.(rkbuf_iov) <= IOV_MAX /\
    concat r.(rkbuf_iov) = request_frame c (s32 (b.(rkb_corrid) + 1)) t set /\
    forall fuel, (S (length r.(rkbuf_msgq).(rkmq_msgs)) < fuel)%nat ->
      rd_kafka_messageset_handle gz snappy_java snappy fuel set
        = map fetched_of r.(rkbuf_msgq).(rkmq_msgs).
Proof.
  intros [Hs Hz] Hb Hinv Hi Hne. destruct (toppar_xmit_ok _ _ _ _ _ Hs Hz Hi) as ((_ & _ & T3) & _ & Hx).
  pose proof Hz as [((_ & _ & Hmax) & _) _].
  destruct (make_request_ok c compress gz snappy_java snappy
    b.(rkb_rk).(max_msg_size) (s32 (b.(rkb_corrid) + 1)) i t)
    as (r & xmit & E & E1 & N1 & Hl & _ & _ & _ & _ & _ & _ & R5 & set & R6 & _ & R8);
    [done|lia|done|done|done|].
  destruct (produce_toppar_ok c compress Hb i b t Hs Hz Hi Hne) as (r' & xmit' & E' & (_ & N3 & _) & E2).
  rewrite E in E'. injection E' as <- <-.
  exists r, (with_request b i t r xmit), set. split_and!; try done; try apply N3; [|by apply R8].
  cbn. rewrite list_lookup_insert_eq by (by eapply lookup_lt_Some). done.
Qed.

(** C26: what is due is sent, in order and in one pass. For a partition the broker
    leads, with enough replicas and either a full batch or its buffering time
    over, a pass puts every message of the transmit queue and then every
    message waiting into requests behind those already queued, in this order,
    each request of one to [batch.num.messages] messages, and leaves both
    queues of the partition empty. *)
Theorem serve_sends_all c compress now i b t :
  broker_inv c compress b -> 1 <= c.(batch_num_messages) -> b.(rkb_toppars) !! i = Some t ->
  t.(bt_led) = true -> t.(bt_enforce_isr_cnt) <= t.(bt_isr_cnt) ->
  (s64 (t.(bt_last_xmit) + s32 (c.(buffering_max_ms) * 1000)) <= now \/
   c.(batch_num_messages) <= zlen (t.(bt_tp).(rktp_xmit_msgq).(rkmq_msgs) ++ toppar_msgs t.(bt_tp))) ->
  exists b' rs t',
    serve_toppar c compress now false i b = Some b' /\
    b'.(rkb_outbufs).(rkbq_bufs) = b.(rkb_outbufs).(rkbq_bufs) ++ rs /\
    bufs_held rs = t.(bt_tp).(rktp_xmit_msgq).(rkmq_msgs) ++ toppar_msgs t.(bt_tp) /\
    Forall (fun r => r.(rkbuf_cb) = Some i /\
              1 <= zlen r.(rkbuf_msgq).(rkmq_msgs) <= c.(batch_num_messages)) rs /\
    b'.(rkb_toppars) !! i = Some t' /\ tp_held t'.(bt_tp) = [].
Proof.
  intros [Hs Hz] Hb Hi Hled Hisr Hdue. unfold serve_toppar. rewrite Hi, Hled. cbn [negb].
  pose proof (lookup_lt_Some _ _ _ Hi) as Hlt.
  destruct (collected_ok c compress now false i b t Hs Hz Hi)
    as (tp' & td' & if' & pre & -> & Ecnt & E1 & E2 & E3 & _ & O).
  rewrite E2, (proj2 (Z.ltb_ge _ _) Hisr) in E3 by done. cbn [app] in E3. rewrite E3 in *. cbn zeta.
  rewrite Ecnt. fold (collected b i t tp' td' if').
  destruct (Z.eqb_spec (zlen (rkmq_msgs (rktp_xmit_msgq tp'))) 0) as [E0|_].
  { apply zlen_0_nil in E0. exists (collected b i t tp' td' if'), [], (bt_with t tp').
    rewrite E0. split_and!; try done; [by rewrite app_nil_r| |].
    - cbn. by apply list_lookup_insert_eq.
    - unfold tp_held. cbn. by rewrite E1, E0. }
  replace (_ && _) with false.
  2: { symmetry. apply andb_false_iff. rewrite !Z.ltb_ge. exact Hdue. }
  destruct O as (b2 & [= <-] & O3 & O4 & O5).
  destruct (xmit_loop_ok c compress Hb i (length (rkmq_msgs (rktp_xmit_msgq tp')))
    (b_set_toppar (collected b i t tp' td' if') i (bt_xmitted (bt_with t tp') now))
    (bt_xmitted (bt_with t tp') now)) as (b' & rs & t' & -> & _ & X1 & X2 & X3 & X4 & X5 & X6 & _).
  - done.
  - by eapply bacct_sized.
  - cbn. apply list_lookup_insert_eq. by rewrite length_insert.
  - done.
  - exists b', rs, t'. split_and!; try done.
    + rewrite X4. cbn. apply list_lookup_insert_eq. by rewrite !length_insert.
    + unfold tp_held, toppar_msgs. rewrite X5, X6. cbn. unfold toppar_msgs in E1. by rewrite E1.
Qed.

(** C27: bytes go out in order, none twice and none left out, however the socket
    cuts them. While the connection lasts, the bytes on the wire followed by
    those still to be sent never change; the requests sent are the first of the
    out queue, and those that expect a response wait for it in this order; and
    when the socket takes all it is given the out queue is emptied. *)
Theorem send_in_order c compress now results b :
  broker_inv c compress b -> b.(rkb_up) = true -> Forall (fun res => res <> SendError) results ->
  exists b' k,
    rd_kafka_send c now results b = Some b' /\
    b'.(rkb_wire) ++ out_bytes b' = b.(rkb_wire) ++ out_bytes b /\
    map rkbuf_corrid b'.(rkb_outbufs).(rkbq_bufs)
      = map rkbuf_corrid (drop k b.(rkb_outbufs).(rkbq_bufs)) /\
    map rkbuf_corrid b'.(rkb_waitresps).(rkbq_bufs)
      = map rkbuf_corrid (b.(rkb_waitresps).(rkbq_bufs) ++
          filter (fun r => r.(rkbuf_no_response) = false) (take k b.(rkb_outbufs).(rkbq_bufs))) /\
    (Forall (takes_all b.(rkb_outbufs).(rkbq_bufs)) results ->
     (length b.(rkb_outbufs).(rkbq_bufs) <= length results)%nat -> b'.(rkb_outbufs).(rkbq_bufs) = []).
Proof.
  intros [Hs Hz] Hup Hres. destruct (send_order c compress now results b Hs Hz Hup Hres)
    as (b' & k & E & H1 & _ & H2). by exists b', k.
Qed.

(** A reply to a produce request of one partition. *)
Definition produce_reply (topic : list Z) (partition err offset : Z) : list Z :=
  be_bytes 4 1 ++ rd_kafkap_str_new (Some topic) ++ be_bytes 4 1 ++
  be_bytes 4 partition ++ be_bytes 2 err ++ be_bytes 8 offset.

Lemma reply_handle_reads topic partition err offset :
  zlen topic < 2 ^ 15 - 2 -> 0 <= err < 2 ^ 16 ->
  rd_kafka_produce_reply_handle (produce_reply topic partition err offset) = err.
Proof.
  intros Ht He. unfold rd_kafka_produce_reply_handle, produce_reply.
  rewrite read_ref_be by done. rewrite be_value_4. change (s32 (u32 1)) with 1. cbn [negb Z.eqb Pos.eqb].
  rewrite read_str_new by done. rewrite read_ref_be by done. rewrite be_value_4.
  change (s32 (u32 1)) with 1. cbn [negb Z.eqb Pos.eqb]. unfold read_ref.
  rewrite check_len_ok by (autorewrite with ngx; lia).
  rewrite (take_ge _ 14) by (rewrite !length_app, !be_bytes_length; lia).
  rewrite drop_be, take_be, be_value_2. by apply Z.mod_small.
Qed.

(** Errors after which a request is not sent again, and those after which it is
    tried again. *)
Definition fatal_error (err : Z) : bool :=
  existsb (Z.eqb err) [RD_KAFKA_RESP_ERR_INVALID_MSG; RD_KAFKA_RESP_ERR_INVALID_MSG_SIZE;
                       RD_KAFKA_RESP_ERR_MSG_SIZE_TOO_LARGE].

(** What becomes of the messages of the request [r] to the partition [i] when
    its reply carries [err]. *)
Definition reply_outcome (c : broker_conf) (now err : Z) (r : rkbuf) (i : nat) (b b' : broker) : Prop :=
  if (err =? 0) || fatal_error err ||
     ((err =? RD_KAFKA_RESP_ERR_REQUEST_TIMED_OUT) && (c.(max_retries) <=? r.(rkbuf_retries) + 1))
  then b'.(rkb_rk).(rk_rep) = b.(rkb_rk).(rk_rep) ++ [(err, r.(rkbuf_msgq))] /\
       b'.(rkb_retrybufs) = b.(rkb_retrybufs) /\ b'.(rkb_toppars) = b.(rkb_toppars)
  else if err =? RD_KAFKA_RESP_ERR_REQUEST_TIMED_OUT
  then b'.(rkb_rk) = b.(rkb_rk) /\ b'.(rkb_toppars) = b.(rkb_toppars) /\
       exists r', b'.(rkb_retrybufs).(rkbq_bufs) = b.(rkb_retrybufs).(rkbq_bufs) ++ [r'] /\
         r'.(rkbuf_msgq) = r.(rkbuf_msgq) /\ r'.(rkbuf_iov) = r.(rkbuf_iov) /\
         r'.(rkbuf_of) = 0 /\ r'.(rkbuf_retries) = r.(rkbuf_retries) + 1 /\
         r'.(rkbuf_ts_retry) = now + c.(retry_backoff_ms) * 1000
  else b'.(rkb_rk) = b.(rkb_rk) /\ b'.(rkb_retrybufs) = b.(rkb_retrybufs) /\
       forall t, b.(rkb_toppars) !! i = Some t ->
         exists t', b'.(rkb_toppars) = <[i := t']> b.(rkb_toppars) /\
           toppar_msgs t'.(bt_tp) = r.(rkbuf_msgq).(rkmq_msgs) ++ toppar_msgs t.(bt_tp).

(** C36: a reply decides the fate of exactly the request it answers. The first
    request waiting with the correlation id leaves the queue of those waiting,
    the others stay; without an error, or with a fatal one, its messages are
    reported with that error; a request timeout sends it again, whole, after the
    backoff, until it has been tried [message.send.max.retries] times, and is
    then reported; any other error puts its messages back at the head of their
    partition's queue. *)
Theorem reply_decides c now i r b topic partition err offset k :
  b.(rkb_rk).(rk_dr) = true -> find_corrid r.(rkbuf_corrid) b.(rkb_waitresps).(rkbq_bufs) 0 = Some (k, r) ->
  0 < b.(rkb_waitresps).(rkbq_cnt) -> r.(rkbuf_cb) = Some i ->
  0 <= r.(rkbuf_retries) < 1000 -> 0 <= c.(retry_backoff_ms) <= 300000 -> 0 <= now < 2 ^ 62 ->
  zlen topic < 2 ^ 15 - 2 -> 0 <= err < 2 ^ 16 ->
  exists b', rd_kafka_req_response c now r.(rkbuf_corrid) (produce_reply topic partition err offset) b = Some b' /\
    b'.(rkb_waitresps).(rkbq_bufs) = delete k b.(rkb_waitresps).(rkbq_bufs) /\
    b'.(rkb_outbufs) = b.(rkb_outbufs) /\ reply_outcome c now err r i b b'.
Proof.
  intros Hdr Hf Hcnt Hcb Hr Hbo Hnow Ht He. unfold rd_kafka_req_response. rewrite Hf.
  unfold rd_kafka_bufq_deq. rewrite (proj2 (Z.ltb_lt _ _) Hcnt). unfold run_cb. rewrite Hcb.
  unfold rd_kafka_produce_msgset_reply. cbn [Z.eqb]. rewrite reply_handle_reads by done. cbn zeta.
  unfold reply_outcome, reply_verdict, rd_kafka_dr_msgq. cbn [rkb_rk b_with_waitresps]. rewrite Hdr.
  rewrite (proj2 (Z.eqb_neq err RD_KAFKA_RESP_ERR__DESTROY)) by lia.
  rewrite (proj2 (Z.eqb_neq err RD_KAFKA_RESP_ERR__MSG_TIMED_OUT)) by lia.
  rewrite <- !orb_assoc. replace ((err =? 2) || ((err =? 4) || (err =? 10))) with (fatal_error err)
    by (unfold fatal_error; cbn [existsb]; by rewrite orb_false_r).
  cbn [orb]. rewrite orb_false_r, s32_small by lia.
  destruct (err =? 0); [by eexists|]. destruct (fatal_error err); [by eexists|]. cbn [orb].
  destruct (Z.eqb_spec err RD_KAFKA_RESP_ERR_REQUEST_TIMED_OUT) as [_|_]; cbn [andb].
  - rewrite Z.leb_antisym. destruct (_ <? _); cbn [negb]; [|by eexists].
    eexists. split; [done|]. split_and!; try done. eexists. cbn.
    rewrite (s32_small (_ * _)), s64_small by lia. by split_and!.
  - eexists. split; [done|]. split_and!; try done. intros t Hi. cbn.
    rewrite (alter_is_insert _ _ _ _ Hi). by eexists.
Qed.

(** The messages of the requests to a partition, the last request first. *)
Definition requests_reversed (i : nat) (l : list rkbuf) : list kmsg :=
  concat (map (fun r => r.(rkbuf_msgq).(rkmq_msgs))
            (rev (filter (fun r => r.(rkbuf_cb) = Some i) l))).

Lemma purge_requeues c now l : forall b,
  Forall (fun r => exists i, r.(rkbuf_cb) = Some i) l ->
  exists ts, rd_kafka_bufq_purge c now RD_KAFKA_RESP_ERR__TRANSPORT l b = Some (b_with_toppars b ts) /\
    length ts = length b.(rkb_toppars) /\
    forall i t, b.(rkb_toppars) !! i = Some t ->
      exists t', ts !! i = Some t' /\
        toppar_msgs t'.(bt_tp) = requests_reversed i l ++ toppar_msgs t.(bt_tp) /\
        t'.(bt_tp).(rktp_xmit_msgq) = t.(bt_tp).(rktp_xmit_msgq).
Proof.
  induction l as [|r l IH]; intros b Hl; cbn [rd_kafka_bufq_purge].
  { exists b.(rkb_toppars). split; [by destruct b|]. split; [done|]. intros i t Hi. by exists t. }
  apply Forall_cons in Hl as [[j Hj] Hl]. unfold run_cb. rewrite Hj.
  unfold rd_kafka_produce_msgset_reply. cbn zeta. replace (reply_verdict _ _ _) with Requeue by reflexivity.
  set (b1 := b_with_toppars b _). destruct (IH b1 Hl) as (ts & -> & L & H).
  exists ts. split; [done|]. split; [rewrite L; subst b1; cbn; apply length_alter|].
  intros i t Hi. unfold requests_reversed. rewrite filter_cons, Hj. subst b1. cbn in H.
  destruct (decide (j = i)) as [->|Hne].
  - destruct (H i (bt_with t (rd_kafka_toppar_insert_msgq r.(rkbuf_msgq) t.(bt_tp)))) as (t' & E1 & E2 & E3).
    { by rewrite list_lookup_alter_eq, Hi. }
    exists t'. rewrite decide_True by done. cbn [rev]. rewrite map_app, concat_app. cbn.
    rewrite app_nil_r, <- app_assoc. done.
  - destruct (H i t) as (t' & E1 & E2 & E3); [by rewrite list_lookup_alter_ne|].
    exists t'. rewrite decide_False by congruence. done.
Qed.

(** C37: what a lost connection leaves. Every request sent or queued is taken
    apart and its messages are put back into their partition's queue, before
    those waiting there: each request in its own order, but the requests in
    reverse, the last first; messages in the transmit queue stay ahead of all of
    them. Nothing is reported or retried, and the broker leads no partition. *)
Theorem lost_requests_requeued c compress now b :
  broker_inv c compress b ->
  exists b', rd_kafka_broker_fail c now RD_KAFKA_RESP_ERR__TRANSPORT b = Some b' /\
    b'.(rkb_up) = false /\ b'.(rkb_outbufs) = rd_kafka_bufq_init /\
    b'.(rkb_waitresps) = rd_kafka_bufq_init /\ b'.(rkb_retrybufs) = b.(rkb_retrybufs) /\
    b'.(rkb_rk) = b.(rkb_rk) /\ length b'.(rkb_toppars) = length b.(rkb_toppars) /\
    forall i t, b.(rkb_toppars) !! i = Some t ->
      exists t', b'.(rkb_toppars) !! i = Some t' /\ t'.(bt_led) = false /\
        toppar_msgs t'.(bt_tp) =
          requests_reversed i (b.(rkb_waitresps).(rkbq_bufs) ++ b.(rkb_outbufs).(rkbq_bufs)) ++
          toppar_msgs t.(bt_tp) /\
        t'.(bt_tp).(rktp_xmit_msgq) = t.(bt_tp).(rktp_xmit_msgq).
Proof.
  intros [[_ [_ H1] [_ H2] _ _ _] _]. unfold rd_kafka_broker_fail. cbn zeta.
  set (b0 := Broker _ _ _ _ _ _ _ _ _ _ _). set (l := rkbq_bufs _).
  assert (El : l = b.(rkb_waitresps).(rkbq_bufs) ++ b.(rkb_outbufs).(rkbq_bufs)) by done.
  destruct (purge_requeues c now l b0) as (ts & -> & L & H).
  { rewrite El. apply Forall_app.
    split; (eapply Forall_impl; [eassumption|]); intros r (_ & _ & (i & Hi & _) & _); by exists i. }
  eexists. split; [done|]. cbn. rewrite length_map. split_and!; try done.
  intros i t Hi. destruct (H i t Hi) as (t' & E1 & E2 & E3). exists (bt_undelegate t').
  split; [|by rewrite <- El]. by apply (list_lookup_fmap_Some_2 bt_undelegate).
Qed.

(** ** Witnesses *)

Definition sample_bconf : broker_conf :=
  BrokerConf 2 0 0 2 100 3 (rd_kafkap_str_new (Some (lit "rdkafka"))).

Definition no_compress (codec : Z) (l : list Z) : option (list Z) := None.

Definition sample_kmsg (s : list Z) : kmsg := KMsg 2 s 0 0 None 1000000.

Definition queue_of (l : list kmsg) : msgq := fold_left rd_kafka_msgq_enq l rd_kafka_msgq_init.

Definition sample_toppar (l : list kmsg) (led : bool) : btoppar :=
  BToppar (TopPar 0 (queue_of l) rd_kafka_msgq_init false false (Some 1) 0) (lit "access") 1 5000 0 1 0 led.

Definition sample_broker (up : bool) (l : list kmsg) : broker :=
  Broker (RdKafka (zlen l) 1000 4000 true []) up [sample_toppar l true] rd_kafka_bufq_init
    rd_kafka_bufq_init rd_kafka_bufq_init 0 0 rd_kafka_msgq_init rd_kafka_msgq_init [].

Lemma sample_sizes l led : sizes_ok sample_bconf no_compress (sample_toppar l led).
Proof. split_and!; [done|vm_compute; done|vm_compute; done]. Qed.

Definition three_msgs : list kmsg := [sample_kmsg (lit "a"); sample_kmsg (lit "bb"); sample_kmsg (lit "ccc")].

Lemma sample_broker_inv : broker_inv sample_bconf no_compress (sample_broker true three_msgs).
Proof.
  split.
  - constructor; [|by constructor..|done|done]. apply Forall_singleton.
    split_and!; [done|done|apply sample_sizes].
  - assert (E : broker_held (sample_broker true three_msgs) = three_msgs) by done. rewrite E.
    split; [split; [by split_and!|split; [done|]]|]; cbn; unfold three_msgs;
      rewrite !Forall_cons; by split_and!.
Qed.

(** A message is sent and acknowledged, one is retried, one lost with the
    connection is sent again. *)
Definition sample_bevents : list bevent :=
  [BUp; BLead 0; BProduce 0 (sample_kmsg (lit "a")); BServe 10 true; BSend 10 [SendBytes 5; SendAgain];
   BSend 11 [SendBytes 1000]; BResponse 12 1 (produce_reply (lit "access") 0 7 0);
   BRetries 200000; BProduce 0 (sample_kmsg (lit "b")); BServe 200001 false;
   BSend 200002 [SendBytes 1000; SendError]; BUp; BLead 0; BServe 200003 false;
   BSend 200004 [SendBytes 1000; SendBytes 1000];
   BResponse 200005 3 (produce_reply (lit "access") 0 0 5); BPoll].

Lemma broker_conserves_witness :
  exists b acc rep,
    broker_run sample_bconf no_compress (broker_new 10 4000 true [sample_toppar [] false]) sample_bevents
      = Some (b, (acc, rep)) /\
    Permutation acc (broker_payloads b ++ rep) /\ acc = [lit "a"; lit "b"] /\ rep = [lit "b"; lit "a"].
Proof.
  destruct (broker_conserves sample_bconf no_compress 10 4000 true [sample_toppar [] false] sample_bevents)
    as (b & acc & rep & H1 & _ & _ & H2).
  - lia.
  - lia.
  - cbn; lia.
  - apply Forall_singleton. split; [done|apply sample_sizes].
  - repeat (apply Forall_cons; split; [vm_compute; done|]). constructor.
  - exists b, acc, rep. split_and!; [done|by apply H2| |]; vm_compute in H1; congruence.
Defined.

Lemma serve_sends_all_witness :
  exists b' rs t',
    serve_toppar sample_bconf no_compress 10 false 0 (sample_broker true three_msgs) = Some b' /\
    b'.(rkb_outbufs).(rkbq_bufs) = rs /\ bufs_held rs = three_msgs /\
    b'.(rkb_toppars) !! 0%nat = Some t' /\ tp_held t'.(bt_tp) = [].
Proof.
  destruct (serve_sends_all sample_bconf no_compress 10 0 (sample_broker true three_msgs)
    (sample_toppar three_msgs true)) as (b' & rs & t' & H1 & H2 & H3 & _ & H5 & H6).
  - apply sample_broker_inv.
  - cbn; lia.
  - done.
  - done.
  - cbn; lia.
  - right. vm_compute. done.
  - exists b', rs, t'. split_and!; assumption.
Defined.

(** Three messages in the transmit queue. *)
Definition sending_broker : broker :=
  Broker (RdKafka 3 1000 4000 true []) true
    [bt_with (sample_toppar [] true) (with_xmit (sample_toppar [] true).(bt_tp) (queue_of three_msgs))]
    rd_kafka_bufq_init rd_kafka_bufq_init rd_kafka_bufq_init 0 0 rd_kafka_msgq_init rd_kafka_msgq_init [].

Lemma sending_broker_inv : broker_inv sample_bconf no_compress sending_broker.
Proof.
  split.
  - constructor; [|by constructor..|done|done]. apply Forall_singleton.
    split_and!; [done|done|apply (sample_sizes [] true)].
  - assert (E : broker_held sending_broker = three_msgs) by done. rewrite E.
    split; [split; [by split_and!|split; [done|]]|]; cbn; unfold three_msgs;
      rewrite !Forall_cons; by split_and!.
Qed.

Lemma produce_request_faithful_witness :
  exists r b' set,
    rd_kafka_broker_produce_toppar sample_bconf no_compress 0 sending_broker
      = Some (zlen r.(rkbuf_msgq).(rkmq_msgs), b') /\
    concat r.(rkbuf_iov) = request_frame sample_bconf 1 (bt_with (sample_toppar [] true)
      (with_xmit (sample_toppar [] true).(bt_tp) (queue_of three_msgs))) set /\
    rd_kafka_messageset_handle (fun _ => None) (fun _ => None) (fun _ => None) 5 set
      = [Fetched 0 None (lit "a") 1; Fetched 0 None (lit "bb") 2].
Proof.
  destruct (produce_request_faithful sample_bconf no_compress (fun _ => None) (fun _ => None) (fun _ => None)
    0 sending_broker (bt_with (sample_toppar [] true)
      (with_xmit (sample_toppar [] true).(bt_tp) (queue_of three_msgs))))
    as (r & b' & set & H1 & H2 & H3 & H4 & H5 & H6 & H7).
  - apply sending_broker_inv.
  - cbn; lia.
  - by split; [cbn; lia|].
  - done.
  - done.
  - exists r, b', set. split; [done|]. split; [done|].
    assert (Er : r.(rkbuf_msgq).(rkmq_msgs) = [sample_kmsg (lit "a"); sample_kmsg (lit "bb")]).
    { vm_compute in H1. injection H1 as _ <-. cbn in H2. injection H2 as <-. reflexivity. }
    rewrite H7; rewrite Er; [reflexivity|cbn; lia].
Defined.

Definition served_broker : broker :=
  default sending_broker (serve_toppar sample_bconf no_compress 10 false 0 (sample_broker true three_msgs)).

Lemma served_broker_inv : broker_inv sample_bconf no_compress served_broker.
Proof.
  pose proof sample_broker_inv as [Hs Hz].
  destruct (serve_toppar_ok sample_bconf no_compress ltac:(cbn; lia) 10 false 0 (sample_broker true three_msgs)
    (sample_toppar three_msgs true) Hs Hz eq_refl) as (b' & E & O1 & _ & O3).
  unfold served_broker. rewrite E. cbn. split; [done|]. by eapply bacct_sized.
Qed.

Lemma send_in_order_witness :
  exists b' k,
    rd_kafka_send sample_bconf 20 [SendBytes 1000; SendBytes 1000] served_broker = Some b' /\
    b'.(rkb_wire) ++ out_bytes b' = served_broker.(rkb_wire) ++ out_bytes served_broker /\
    map rkbuf_corrid b'.(rkb_waitresps).(rkbq_bufs) = [1; 2] /\
    b'.(rkb_outbufs).(rkbq_bufs) = [] /\
    map rkbuf_corrid b'.(rkb_outbufs).(rkbq_bufs)
      = map rkbuf_corrid (drop k served_broker.(rkb_outbufs).(rkbq_bufs)).
Proof.
  destruct (send_in_order sample_bconf no_compress 20 [SendBytes 1000; SendBytes 1000] served_broker)
    as (b' & k & H1 & H2 & H3 & _ & H5).
  - apply served_broker_inv.
  - reflexivity.
  - by rewrite !Forall_cons.
  - exists b', k. split; [done|]. split; [done|].
    split; [vm_compute in H1; by injection H1 as <-|]. split; [|done]. apply H5.
    + rewrite !Forall_cons. split_and!; [..|constructor]; exists 1000; (split; [done|]); vm_compute;
        rewrite !Forall_cons; by split_and!.
    + vm_compute. lia.
Defined.

(** Two requests wait for their response, a third message waits. *)
Definition waiting_broker : broker :=
  default sending_broker (rd_kafka_send sample_bconf 20 [SendBytes 1000; SendBytes 1000] served_broker).

Definition first_waiting : rkbuf :=
  default (Rkbuf 0 0 false false [] 0 0 0 rd_kafka_msgq_init None) (head waiting_broker.(rkb_waitresps).(rkbq_bufs)).

Lemma reply_decides_witness :
  exists b', rd_kafka_req_response sample_bconf 100 1 (produce_reply (lit "access") 0 6 9) waiting_broker = Some b' /\
    map rkbuf_corrid b'.(rkb_waitresps).(rkbq_bufs) = [2] /\
    reply_outcome sample_bconf 100 6 first_waiting 0 waiting_broker b'.
Proof.
  destruct (reply_decides sample_bconf 100 0 first_waiting waiting_broker (lit "access") 0 6 9 0)
    as (b' & H1 & H2 & _ & H3); [reflexivity|vm_compute; reflexivity|vm_compute; reflexivity|reflexivity|..].
  - vm_compute. done.
  - vm_compute. done.
  - lia.
  - vm_compute. done.
  - lia.
  - exists b'. split; [exact H1|]. split; [by rewrite H2|done].
Defined.

Lemma lost_requests_requeued_witness :
  exists b', rd_kafka_broker_fail sample_bconf 30 RD_KAFKA_RESP_ERR__TRANSPORT served_broker = Some b' /\
    b'.(rkb_up) = false /\
    exists t', b'.(rkb_toppars) !! 0%nat = Some t' /\
      toppar_msgs t'.(bt_tp) = [sample_kmsg (lit "ccc"); sample_kmsg (lit "a"); sample_kmsg (lit "bb")].
Proof.
  destruct (lost_requests_requeued sample_bconf no_compress 30 served_broker) as (b' & H1 & H2 & _ & _ & _ & _ & _ & H).
  - apply served_broker_inv.
  - exists b'. split; [done|]. split; [done|].
    destruct (served_broker.(rkb_toppars) !! 0%nat) as [t|] eqn:Et; [|by vm_compute in Et].
    destruct (H 0%nat t Et) as (t' & E1 & _ & E2 & _). exists t'. split; [done|]. rewrite E2.
    vm_compute in Et. injection Et as <-. vm_compute. reflexivity.
Defined.
