(* ===== verification/KafkaApi.v ===== *)
(** * The producer interface of librdkafka, as the access log module uses it

    [KafkaApi] has the calls the module makes, [KafkaLaws] what it may rely on.
    The request handler is verified against the laws; the instance at the end
    runs the calls on the producer of [RdProducer] and discharges them. *)

From stdpp Require Import gmap.
From S2P Require Import Prelude RdMsg RdTopic RdProducer.

(** A topic handle is a number. [None] as a whole result is a failed assertion
    of the library. *)
Class KafkaApi (K : Type) := {
  (** What the library's own threads do while the caller waits in a poll. *)
  k_bg : Type;
  k_new : list Z -> option K;
  (** The handle ([None] for a null pointer) and whether the topic
      configuration passed in was freed. *)
  k_topic_new : K -> list Z -> option (option nat * bool * K);
  k_produce : K -> nat -> list Z -> option (option errno * K);
  k_poll : K -> k_bg -> option K;
  (** Payloads in the library's queues. *)
  k_held : K -> list (list Z);
  k_ok : K -> Prop;
  k_has : K -> nat -> Prop;
  k_bg_ok : k_bg -> Prop;
}.

Class KafkaLaws (K : Type) {api : KafkaApi K} : Prop := {
  law_new brokers k : k_new brokers = Some k ->
    k_ok k /\ k_held k = [] /\ forall t, ~ k_has k t;
  law_topic_new k name : k_ok k ->
    exists t k', k_topic_new k name = Some (Some t, true, k') /\ k_ok k' /\ k_has k' t /\
      (forall u, k_has k u -> k_has k' u) /\ Permutation (k_held k') (k_held k)
    \/ k_topic_new k name = Some (Some t, false, k) /\ k_has k t;
  law_produce k t payload : k_ok k -> k_has k t -> zlen payload < 2 ^ 64 ->
    exists res k', k_produce k t payload = Some (res, k') /\ k_ok k' /\
      (forall u, k_has k u -> k_has k' u) /\
      Permutation (k_held k')
        (match res with None => payload :: k_held k | Some _ => k_held k end);
  law_poll k bg : k_ok k -> k_bg_ok bg ->
    exists k', k_poll k bg = Some k' /\ k_ok k' /\ (forall u, k_has k u -> k_has k' u);
}.

(** ** The library behind the interface *)

(** An instance with the value its clock shows. *)
Record rd_instance := RdInstance {
  ri_p : producer;
  ri_now : Z;
}.

(** Events of the library's own threads. *)
Definition is_background (e : event) : bool :=
  match e with
  | EvMetadata _ _ _ | EvMetadataNone _ | EvScan _ _ => true
  | _ => false
  end.

(** The limits [createConf] sets or leaves at their defaults:
    [queue.buffering.max.messages] 10000, [message.max.bytes] 4000000, no
    delivery report callback. *)
Definition createConf : Z * Z * bool := (10000, 4000000, false).

Section instance.
Context (partitioner : topic -> list Z -> Z -> Z -> Z).

Definition ri_topic_new (k : rd_instance) (name : list Z)
  : option (option nat * bool * rd_instance) :=
  let p := k.(ri_p) in
  match rd_kafka_topic_new p.(p_topics) name (Some (300000, 5000)) with
  | None => Some (None, false, k)
  | Some (t, topics) =>
      Some (Some t,
            match rd_kafka_topic_find name p.(p_topics) 0 with Some _ => false | None => true end,
            RdInstance (Producer p.(p_rk) topics p.(p_lists) p.(p_released)) k.(ri_now))
  end.

Definition ri_produce (k : rd_instance) (t : nat) (payload : list Z)
  : option (option errno * rd_instance) :=
  let p := k.(ri_p) in
  match p.(p_topics) !! t with
  | None => None
  | Some rkt =>
      match rd_kafka_produce partitioner p.(p_rk) rkt RD_KAFKA_PARTITION_UA 2 payload None 0
              k.(ri_now) with
      | None => None
      | Some (res, rk, rkt) =>
          Some (res, RdInstance (Producer rk (<[t := rkt]> p.(p_topics)) p.(p_lists)
                                   (p.(p_released) ++ [])) k.(ri_now))
      end
  end.

(** A poll: what the other threads did meanwhile, the time it is then, and the
    reports served. *)
Definition ri_poll (k : rd_instance) (bg : list event * Z) : option rd_instance :=
  match producer_run partitioner k.(ri_p) (fst bg ++ [EvPoll]) with
  | None => None
  | Some (p, _) => Some (RdInstance p (snd bg))
  end.

#[export] Instance rd_kafka_api : KafkaApi rd_instance := {
  k_bg := list event * Z;
  k_new brokers :=
    let '(max_msgs, max_size, dr) := createConf in
    Some (RdInstance (producer_new max_msgs max_size dr ∅) 0);
  k_topic_new := ri_topic_new;
  k_produce := ri_produce;
  k_poll := ri_poll;
  k_held k := p_payloads k.(ri_p);
  k_ok k := producer_inv k.(ri_p);
  k_has k t := (t < length k.(ri_p).(p_topics))%nat;
  k_bg_ok bg := Forall event_ok (fst bg) /\ Forall (fun e => is_background e = true) (fst bg);
}.

(** ** The laws *)

Lemma scan_topics_length l t now l' t' :
  scan_topics l t now = Some (l', t') -> length l' = length l.
Proof.
  revert t l' t'. induction l as [|[st rkt] l IH]; cbn; intros t l' t'; [by intros [= <- _]|].
  destruct (scan_topic st rkt t now) as [[r t1]|]; [|done].
  destruct (scan_topics l t1 now) as [[l1 t2]|] eqn:E; [|done]. intros [= <- _].
  cbn. by rewrite (IH _ _ _ E).
Qed.

Lemma producer_step_topics s e s' tr :
  producer_step partitioner s e = Some (s', tr) ->
  (length s.(p_topics) <= length s'.(p_topics))%nat.
Proof.
  destruct e; cbn; intros E.
  2-5: destruct (p_topics s !! t); [|by injection E as <- _];
    repeat case_match; simplify_eq; cbn [p_topics]; by rewrite length_insert.
  - unfold rd_kafka_topic_new in E. repeat case_match; simplify_eq; cbn; rewrite ?length_app; lia.
  - unfold rd_kafka_topic_scan_all in E.
    destruct (scan_topics _ _ _) as [[l t]|] eqn:Es; [|done]. apply scan_topics_length in Es.
    rewrite length_zip_with, length_take, length_app, length_replicate in Es.
    repeat case_match; simplify_eq; cbn; lia.
  - repeat case_match; simplify_eq. done.
Qed.

Lemma producer_run_topics es s s' tr :
  producer_run partitioner s es = Some (s', tr) ->
  (length s.(p_topics) <= length s'.(p_topics))%nat.
Proof.
  revert s s' tr. induction es as [|e es IH]; cbn; intros s s' tr E; [by injection E as <- _|].
  destruct (producer_step partitioner s e) as [[s1 [a1 r1]]|] eqn:E1; [|done].
  destruct (producer_run partitioner s1 es) as [[s2 [a2 r2]]|] eqn:E2; [|done].
  injection E as <- _. apply producer_step_topics in E1. apply IH in E2. lia.
Qed.

Lemma topic_find_bound name l i j :
  rd_kafka_topic_find name l i = Some j -> (i <= j < i + length l)%nat.
Proof.
  revert i. induction l as [|rkt l IH]; cbn; intros i; [done|].
  destruct (beq _ _); [intros [= <-]; lia|]. intros H%IH. lia.
Qed.

Lemma ri_topic_new_ok (k : rd_instance) name :
  producer_inv k.(ri_p) ->
  exists t k', ri_topic_new k name = Some (Some t, true, k') /\ producer_inv k'.(ri_p) /\
      (t < length k'.(ri_p).(p_topics))%nat /\
      (forall u, u < length k.(ri_p).(p_topics) -> u < length k'.(ri_p).(p_topics))%nat /\
      Permutation (p_payloads k'.(ri_p)) (p_payloads k.(ri_p))
    \/ ri_topic_new k name = Some (Some t, false, k) /\ (t < length k.(ri_p).(p_topics))%nat.
Proof.
  intros Hinv. destruct k as [p now]. cbn [ri_p] in *. unfold ri_topic_new. cbn [ri_p ri_now].
  destruct (rd_kafka_topic_new (p_topics p) name (Some (300000, 5000))) as [[t l]|] eqn:E;
    [|unfold rd_kafka_topic_new in E; cbn in E; by destruct (rd_kafka_topic_find _ _ _)].
  destruct (topic_new_step_ok p name _ t l Hinv E) as (I & _ & _).
  unfold rd_kafka_topic_new in E. cbn in E.
  destruct (rd_kafka_topic_find name (p_topics p) 0) as [j|] eqn:Ef; injection E as <- <-.
  - exists j, (RdInstance p now). right. apply topic_find_bound in Ef. split; [by destruct p|lia].
  - exists (length (p_topics p)). eexists. left. split; [done|]. cbn. rewrite length_app. cbn.
    split_and!; [done|lia|lia|]. unfold p_payloads, p_msgs. cbn [p_rk p_topics p_released].
    rewrite topics_held_app. change (topics_held [_]) with (@nil kmsg). by rewrite app_nil_r.
Qed.

Lemma ri_produce_ok (k : rd_instance) t payload :
  producer_inv k.(ri_p) -> (t < length k.(ri_p).(p_topics))%nat -> zlen payload < 2 ^ 64 ->
  exists res k', ri_produce k t payload = Some (res, k') /\ producer_inv k'.(ri_p) /\
    (forall u, u < length k.(ri_p).(p_topics) -> u < length k'.(ri_p).(p_topics))%nat /\
    Permutation (p_payloads k'.(ri_p))
      (match res with None => payload :: p_payloads k.(ri_p) | Some _ => p_payloads k.(ri_p) end).
Proof.
  intros Hinv Ht Hlen. destruct k as [p now]. cbn [ri_p] in *. unfold ri_produce. cbn [ri_p ri_now].
  apply lookup_lt_is_Some in Ht as [rkt Et]. rewrite Et.
  destruct (around_topic p t rkt Hinv Et) as [fr Har]. pose proof Har as (Hl & Hc & _).
  destruct (produce_grows partitioner (p_rk p) rkt RD_KAFKA_PARTITION_UA 2 payload None 0 now fr Hl Hc)
    as (res & rk' & rkt' & new & -> & Hl' & Hg & Hn); [change (keylen None) with 0; lia|].
  pose proof Hg as (_ & Hrep & Hp & _).
  destruct (around_grows p t rkt fr rk' rkt' new Har Hl' Hg) as (I & _ & _).
  destruct Har as (_ & _ & Hpm' & H).
  do 2 eexists. split; [done|]. split; [done|]. split; [cbn; by rewrite length_insert|].
  destruct (H rk' rkt' (p_lists p) [] Hl') as [_ H2]. cbn [ri_p].
  assert (E : Permutation (p_payloads (Producer rk' (<[t:=rkt']> (p_topics p)) (p_lists p)
    (p_released p ++ []))) (map rkm_payload new ++ p_payloads p)).
  { unfold p_payloads, rk_held. cbn [p_rk]. rewrite Hrep, !map_app, H2. cbn [tps_held map concat app].
    rewrite Hp, Hpm', !map_app. solve_Permutation. }
  rewrite E, Hn. by destruct res.
Qed.

#[export] Instance rd_kafka_laws : KafkaLaws rd_instance.
Proof.
  split.
  - intros brokers k [= <-]. split_and!; [|done|cbn; lia]. split; [constructor|].
    split_and!; [unfold rk_ok; cbn; lia|done|constructor].
  - intros k name Hok. apply ri_topic_new_ok. exact Hok.
  - intros k t payload Hok Ht Hl. by apply ri_produce_ok.
  - intros k [es now] Hok [He _]. cbn in *. unfold ri_poll. cbn [fst snd].
    destruct (producer_run_ok partitioner (es ++ [EvPoll]) k.(ri_p) Hok)
      as (s & acc & rep & E & Hs & _).
    { apply Forall_app. split; [done|]. by repeat constructor. }
    rewrite E. eexists. split; [done|]. split; [done|].
    apply producer_run_topics in E. cbn. intros u. lia.
Qed.
End instance.
