(* ===== verification/NewLogHandler.v ===== *)
(** * Writing log lines to Kafka and files ([ngx_new_log_module.c], run time)

    The request handler, the write to Kafka with its retry loop, the lazy
    creation of the instance and of topics, buffered and scripted files, gzip,
    and the flush of a buffer.  The Kafka library is any implementation of
    [KafkaApi]; outcomes of system calls and of nginx core services are given
    to a run as lists. *)

From stdpp Require Import gmap.
From S2P Require Import Prelude RdMsg RdTopic RdProducer KafkaApi NgxVariables NewLogFormat.

(** ** Outcomes *)

(** What a call may come to: a value, [exit(0)], undefined behaviour or an
    abort, or a retry loop that has not ended within the given polls. *)
Inductive outcome (A : Type) :=
  | Ret (a : A)
  | Exited
  | Fault
  | Blocked.
Arguments Ret {A}.
Arguments Exited {A}.
Arguments Fault {A}.
Arguments Blocked {A}.

Definition obind {A B} (m : outcome A) (f : A -> outcome B) : outcome B :=
  match m with
  | Ret a => f a
  | Exited => Exited
  | Fault => Fault
  | Blocked => Blocked
  end.

Declare Scope outcome_scope.
Delimit Scope outcome_scope with outcome.
Notation "'let*' x := m 'in' k" := (obind m (fun x => k%outcome))
  (at level 10, x strict pattern, k at level 200) : outcome_scope.
Open Scope outcome_scope.

(** ** The data of the module *)

(** [ngx_new_log_buf_t]: [b_size] is [last - start], [b_bytes] the bytes from
    [start] to [pos]; [b_timer] is the flush event with its [timer_set], if
    there is an event. *)
Record log_buf := LogBuf {
  b_size : Z;
  b_bytes : list Z;
  b_timer : option bool;
  b_gzip : Z;
}.

(** [ngx_open_file_t]: its buffer, and all that was written to its descriptor. *)
Record open_file := OpenFile {
  f_data : option log_buf;
  f_out : list Z;
}.

Inductive sendType := send_topic | send_topicAndFile.

(** The Kafka fields of [ngx_new_log_t]. *)
Record log_topic := LogTopic {
  topicName : list Z;
  topic_ : option nat;
  opType : sendType;
}.

(** [ngx_new_log_t]; [l_kafka] is [None] while the Kafka fields are
    uninitialised memory. [l_file] is the index of the open file. *)
Record new_log := NewLog {
  l_file : option nat;
  l_script : bool;
  l_disk_full_time : Z;
  l_error_log_time : Z;
  l_flushes : option (list Z);
  l_ops : list new_log_op;
  l_kafka : option log_topic;
}.

Definition set_times (l : new_log) (disk_full error_log : Z) : new_log :=
  NewLog l.(l_file) l.(l_script) disk_full error_log l.(l_flushes) l.(l_ops) l.(l_kafka).

Definition set_topic (l : new_log) (kf : log_topic) (t : nat) : new_log :=
  NewLog l.(l_file) l.(l_script) l.(l_disk_full_time) l.(l_error_log_time) l.(l_flushes)
    l.(l_ops) (Some (LogTopic kf.(topicName) (Some t) kf.(opType))).

(** What a write system call does: all of it, part of it, or an error. *)
Inductive write_result :=
  | WAll
  | WPart (n : Z)
  | WErr (err : Z).

Abbreviation NGX_ENOSPC := 28 (only parsing).

(** The answers of the core services [ngx_new_log_script_write] calls, in order:
    the root directory test (skipped when it was done before) and the opening of
    the log file, each of which may fail. *)
Record script_env := ScriptEnv {
  root_tested : bool;
  map_uri_to_path : bool;          (* not NULL *)
  symlinks_root : bool;            (* NGX_OK *)
  open_root : bool;                (* NGX_OK *)
  root_is_dir : bool;
  script_run : option (list Z);    (* the path, or NULL *)
  symlinks_log : bool;
  open_log : bool;
}.

Section module.
Context {K : Type} {api : KafkaApi K}.

(** [deflateInit2], [deflate] and [deflateEnd] of zlib on an input: level,
    window bits, memory level, input, output size; [None] when one of them
    fails. *)
Context (zlib : Z -> Z -> Z -> list Z -> Z -> option (list Z)).

(** The state of a worker process: the static variables [kafka] (the instance
    and whether [topic_conf] is still allocated), [brokerList] and [run]; the
    open files; what was written through scripted paths; the outcomes of
    polls, writes and allocations to come; and the messages Kafka accepted. *)
Record world := World {
  w_kafka : option (K * bool);
  w_brokerList : option (list Z);
  w_run : bool;
  w_files : list open_file;
  w_paths : list (list Z * list Z);
  w_polls : list (k_bg);
  w_writes : list write_result;
  w_allocs : allocs;
  w_sent : list (nat * list Z);
}.

Definition with_kafka (w : world) (k : option (K * bool)) : world :=
  World k w.(w_brokerList) w.(w_run) w.(w_files) w.(w_paths) w.(w_polls) w.(w_writes)
    w.(w_allocs) w.(w_sent).

Definition with_files (w : world) (fs : list open_file) : world :=
  World w.(w_kafka) w.(w_brokerList) w.(w_run) fs w.(w_paths) w.(w_polls) w.(w_writes)
    w.(w_allocs) w.(w_sent).

Definition with_writes (w : world) (ws : list write_result) : world :=
  World w.(w_kafka) w.(w_brokerList) w.(w_run) w.(w_files) w.(w_paths) w.(w_polls) ws
    w.(w_allocs) w.(w_sent).

Definition with_paths (w : world) (ps : list (list Z * list Z)) : world :=
  World w.(w_kafka) w.(w_brokerList) w.(w_run) w.(w_files) ps w.(w_polls) w.(w_writes)
    w.(w_allocs) w.(w_sent).

Definition with_allocs (w : world) (a : allocs) : world :=
  World w.(w_kafka) w.(w_brokerList) w.(w_run) w.(w_files) w.(w_paths) w.(w_polls)
    w.(w_writes) a w.(w_sent).

(** ** Producing *)

(** The loop of [rd_kafka_produce_random_copy_no_key]: the new value of [run],
    the instance, the polls left and whether the message was accepted.
    Messages printed on the way are left out. *)
Fixpoint produce_loop (k : K) (topic : nat) (payload : list Z) (polls : list k_bg)
  : outcome (bool * K * list k_bg * bool) :=
  match k_produce k topic payload with
  | None => Fault
  | Some (None, k) => Ret (true, k, polls, true)
  | Some (Some ENOBUFS, k) =>
      match polls with
      | [] => Blocked
      | bg :: polls =>
          match k_poll k bg with
          | None => Fault
          | Some k => produce_loop k topic payload polls
          end
      end
  | Some (Some _, k) => Ret (false, k, polls, false)
  end.

Definition rd_kafka_produce_random_copy_no_key (topic : nat) (payload : list Z) (w : world)
  : outcome world :=
  if negb w.(w_run) then Ret w
  else
    match w.(w_kafka) with
    | None => Fault
    | Some (k, live) =>
        let* (run, k, polls, accepted) := produce_loop k topic payload w.(w_polls) in
        Ret (World (Some (k, live)) w.(w_brokerList) run w.(w_files) w.(w_paths) polls
               w.(w_writes) w.(w_allocs)
               (w.(w_sent) ++ if (accepted : bool) then [(topic, payload)] else []))
    end.

(** [init]: [createProduce] uses the new instance before the test for a null
    pointer. *)
Definition init (w : world) : outcome world :=
  match w.(w_brokerList) with
  | None => Fault
  | Some brokers =>
      match k_new brokers with
      | None => Fault
      | Some k => Ret (with_kafka w (Some (k, true)))
      end
  end.

(** [createProduceTopic]: the library reads the configuration it is given, and
    frees it when it makes a topic.  A null topic faults in the produce call
    that follows. *)
Definition createProduceTopic (name : list Z) (w : world) : outcome (nat * world) :=
  match w.(w_kafka) with
  | Some (k, true) =>
      match k_topic_new k name with
      | Some (Some t, freed, k) => Ret (t, with_kafka w (Some (k, negb freed)))
      | _ => Fault
      end
  | _ => Fault
  end.

(** ** Files *)

Definition write_n (res : write_result) (len : Z) : Z :=
  match res with
  | WAll => len
  | WPart n => Z.min (Z.max n 0) len
  | WErr _ => -1
  end.

Definition next_write (w : world) : write_result * world :=
  match w.(w_writes) with
  | [] => (WAll, w)
  | r :: ws => (r, with_writes w ws)
  end.

(** [ngx_write_fd] on an open file: the result and the world. *)
Definition ngx_write_fd (file : nat) (buf : list Z) (w : world) : write_result * Z * world :=
  let (res, w) := next_write w in
  let n := write_n res (zlen buf) in
  (res, n,
   with_files w (alter (fun f => OpenFile f.(f_data) (f.(f_out) ++ take (Z.to_nat n) buf))
                   file w.(w_files))).

(** The window search of [ngx_new_log_gzip]; it ends after six steps at most,
    [fuel] allows for more. *)
Fixpoint gzip_window (fuel : nat) (len wbits memlevel : Z) : Z * Z :=
  match fuel with
  | O => (wbits, memlevel)
  | S fuel' =>
      if len <? Z.shiftl 1 (wbits - 1) - 262
      then gzip_window fuel' len (wbits - 1) (memlevel - 1)
      else (wbits, memlevel)
  end.

Definition gzip_size (len : Z) : Z :=
  len + Z.shiftr (len + 7) 3 + Z.shiftr (len + 63) 6 + 5 + 18.

(** [ngx_new_log_gzip]: the answer ([len] or -1), the error and the world. *)
Definition ngx_new_log_gzip (file : nat) (buf : list Z) (level : Z) (w : world)
  : Z * write_result * world :=
  let len := zlen buf in
  let (wbits, memlevel) := gzip_window 15 len 15 8 in
  let size := gzip_size len in
  let (pool, a) := alloc w.(w_allocs) in
  let w := with_allocs w a in
  if negb pool then (len, WAll, w)
  else
    let (out, a) := alloc w.(w_allocs) in
    let w := with_allocs w a in
    if negb out then (len, WAll, w)
    else
      match zlib level (wbits + 16) memlevel buf size with
      | None => (len, WAll, w)
      | Some out =>
          let '(res, n, w) := ngx_write_fd file out w in
          if n =? zlen out then (len, WAll, w)
          else (-1, (if n =? -1 then res else WErr 0), w)
      end.

(** [ngx_new_log_script_write]. *)
Definition ngx_new_log_script_write (e : script_env) (buf : list Z) (w : world)
  : Z * write_result * world :=
  let len := zlen buf in
  let root_ok :=
    e.(root_tested) || (e.(map_uri_to_path) && e.(symlinks_root) && e.(open_root) && e.(root_is_dir)) in
  if negb root_ok then (len, WAll, w)
  else
    match e.(script_run) with
    | None => (len, WAll, w)
    | Some path =>
        if negb e.(symlinks_log) then (len, WAll, w)
        else if negb e.(open_log) then (len, WAll, w)
        else
          let (res, w) := next_write w in
          let n := write_n res len in
          (n, res, with_paths w (w.(w_paths) ++ [(path, take (Z.to_nat n) buf)]))
    end.

(** The write to the file or the scripted path. *)
Definition write_file (e : script_env) (l : new_log) (buf : list Z) (w : world)
  : outcome (Z * write_result * world) :=
  if l.(l_script) then Ret (ngx_new_log_script_write e buf w)
  else
    match l.(l_file) with
    | None => Fault
    | Some i =>
        match w.(w_files) !! i with
        | None => Fault
        | Some f =>
            let plain := let '(res, n, w) := ngx_write_fd i buf w in (n, res, w) in
            Ret (match f.(f_data) with
                 | Some b => if b.(b_gzip) =? 0 then plain
                             else ngx_new_log_gzip i buf b.(b_gzip) w
                 | None => plain
                 end)
        end
    end.

(** The times recorded for a write that was not complete. *)
Definition write_times (now n : Z) (res : write_result) (len : Z) (l : new_log) : new_log :=
  if n =? len then l
  else
    let error_time := if 59 <? now - l.(l_error_log_time) then now else l.(l_error_log_time) in
    let full_time :=
      if n =? -1 then
        match res with
        | WErr err => if err =? NGX_ENOSPC then now else l.(l_disk_full_time)
        | _ => l.(l_disk_full_time)
        end
      else l.(l_disk_full_time) in
    set_times l full_time error_time.

(** [ngx_new_log_write]. *)
Definition ngx_new_log_write (now : Z) (e : script_env) (l : new_log) (buf : list Z) (w : world)
  : outcome (new_log * world) :=
  let* w := match w.(w_kafka) with None => init w | Some _ => Ret w end in
  match l.(l_kafka) with
  | None => Fault
  | Some kf =>
      let* (t, l, w) :=
        match kf.(topic_) with
        | Some t => Ret (t, l, w)
        | None =>
            let* (t, w) := createProduceTopic kf.(topicName) w in
            Ret (t, set_topic l kf t, w)
        end in
      let* w := rd_kafka_produce_random_copy_no_key t buf w in
      match kf.(opType) with
      | send_topic => Ret (l, w)
      | send_topicAndFile =>
          let* (n, res, w) := write_file e l buf w in
          Ret (write_times now n res (zlen buf) l, w)
      end
  end.

(** [ngx_new_log_flush] (and [ngx_new_log_flush_handler]): a null buffer
    faults. *)
Definition set_buf (i : nat) (b : log_buf) (w : world) : world :=
  with_files w (alter (fun f => OpenFile (Some b) f.(f_out)) i w.(w_files)).

Definition ngx_new_log_flush (i : nat) (w : world) : outcome world :=
  match w.(w_files) !! i with
  | Some (OpenFile (Some b) _) =>
      if zlen b.(b_bytes) =? 0 then Ret w
      else
        let w :=
          if b.(b_gzip) =? 0
          then let '(_, _, w) := ngx_write_fd i b.(b_bytes) w in w
          else let '(_, _, w) := ngx_new_log_gzip i b.(b_bytes) b.(b_gzip) w in w in
        Ret (set_buf i (LogBuf b.(b_size) []
                          (match b.(b_timer) with Some _ => Some false | None => None end)
                          b.(b_gzip)) w)
  | _ => Fault
  end.

(** ** The request handler *)

Section request.
Context (gh : nat -> variable_value -> Z * variable_value).
Context (vars : list http_variable).
Context (r : log_request) (t : log_clock) (e : script_env).

(** [log[l].file ? log[l].file->data : NULL]. *)
Definition log_buffer (l : new_log) (w : world) : outcome (option (nat * log_buf)) :=
  match l.(l_file) with
  | None => Ret None
  | Some i =>
      match w.(w_files) !! i with
      | None => Fault
      | Some f => Ret (match f.(f_data) with Some b => Some (i, b) | None => None end)
      end
  end.

(** The operations run into [room] bytes: writing past them is a fault. *)
Definition run_line (l : new_log) (vs : list variable_value) (room : Z)
  : outcome (list Z * list variable_value) :=
  match ops_run gh vars r t l.(l_ops) vs with
  | None => Fault
  | Some (line, vs) =>
      if zlen line + 1 <=? room then Ret (line ++ [LF], vs) else Fault
  end.

(** A line of its own: [NGX_ERROR] ([false]) when the pool is out of memory. *)
Definition log_direct (l : new_log) (len : Z) (vs : list variable_value) (w : world)
  : outcome (bool * new_log * list variable_value * world) :=
  let (ok, a) := alloc w.(w_allocs) in
  let w := with_allocs w a in
  if negb ok then Ret (false, l, vs, w)
  else
    let* (line, vs) := run_line l vs len in
    let* (l, w) := ngx_new_log_write t.(tp_sec) e l line w in
    Ret (true, l, vs, w).

(** A line for the buffer [b] of file [i]. *)
Definition log_buffered (l : new_log) (i : nat) (b : log_buf) (len : Z)
    (vs : list variable_value) (w : world)
  : outcome (bool * new_log * list variable_value * world) :=
  let* (l, b, w) :=
    if b.(b_size) - zlen b.(b_bytes) <? len then
      let* (l, w) := ngx_new_log_write t.(tp_sec) e l b.(b_bytes) w in
      let b := LogBuf b.(b_size) [] b.(b_timer) b.(b_gzip) in
      Ret (l, b, set_buf i b w)
    else Ret (l, b, w) in
  if len <=? b.(b_size) - zlen b.(b_bytes) then
    let timer :=
      match b.(b_timer) with
      | Some set => Some (set || (zlen b.(b_bytes) =? 0))
      | None => None
      end in
    let* (line, vs) := run_line l vs (b.(b_size) - zlen b.(b_bytes)) in
    Ret (true, l, vs, set_buf i (LogBuf b.(b_size) (b.(b_bytes) ++ line) timer b.(b_gzip)) w)
  else
    let timer := match b.(b_timer) with Some _ => Some false | None => None end in
    log_direct l len vs (set_buf i (LogBuf b.(b_size) b.(b_bytes) timer b.(b_gzip)) w).

(** The body of the handler's loop; [false] is its [return NGX_ERROR]. *)
Definition log_one (l : new_log) (vs : list variable_value) (w : world)
  : outcome (bool * new_log * list variable_value * world) :=
  if t.(tp_sec) =? l.(l_disk_full_time) then Ret (true, l, vs, w)
  else
    let vs := ngx_http_script_flush_no_cacheable_variables vs l.(l_flushes) in
    match ops_len gh vars l.(l_ops) vs with
    | None => Fault
    | Some (len, vs) =>
        let* buffer := log_buffer l w in
        match buffer with
        | Some (i, b) => log_buffered l i b (len + 1) vs w
        | None => log_direct l (len + 1) vs w
        end
    end.

Fixpoint log_all (logs : list new_log) (vs : list variable_value) (w : world)
  : outcome (Z * list new_log * list variable_value * world) :=
  match logs with
  | [] => Ret (NGX_OK, [], vs, w)
  | l :: logs' =>
      let* (go, l, vs, w) := log_one l vs w in
      if go : bool then
        let* (rc, logs', vs, w) := log_all logs' vs w in
        Ret (rc, l :: logs', vs, w)
      else Ret (NGX_ERROR, l :: logs', vs, w)
  end.

(** [ngx_new_log_handler]. *)
Definition ngx_new_log_handler (off : bool) (logs : list new_log) (vs : list variable_value)
    (w : world) : outcome (Z * list new_log * list variable_value * world) :=
  if off then Ret (NGX_OK, logs, vs, w) else log_all logs vs w.
End request.
End module.

(** ** The gzip window *)

Lemma gzip_window_spec fuel len wbits :
  0 <= len -> 9 <= wbits <= 15 -> (Z.to_nat (wbits - 9) < fuel)%nat ->
  (wbits = 15 \/ len < 2 ^ wbits - 262) ->
  exists wb, gzip_window fuel len wbits (wbits - 7) = (wb, wb - 7) /\ 9 <= wb <= 15 /\
    2 ^ (wb - 1) - 262 <= len /\ (wb = 15 \/ len < 2 ^ wb - 262).
Proof.
  revert wbits. induction fuel as [|fuel IH]; intros wbits Hl Hw Hf Hinv; [lia|].
  cbn [gzip_window]. rewrite Z.shiftl_1_l.
  destruct (Z.ltb_spec len (2 ^ (wbits - 1) - 262)).
  - destruct (Z.eq_dec wbits 9) as [->|]; [change (2 ^ (9 - 1)) with 256 in *; lia|].
    replace (wbits - 7 - 1) with (wbits - 1 - 7) by lia. apply IH; [lia..|by right].
  - exists wbits. split_and!; auto; lia.
Qed.

(** The compressor of log files is always given valid parameters and a
    window that is wide enough: for any length, the search for the window ends
    with between 9 and 15 window bits and a memory level of that number less
    7; the input with the 262 bytes of look-ahead fits the window unless the
    window is the largest, and half the window would be too small; the output
    buffer is the input and one byte in eight, one in sixty-four, and 23. *)
Theorem gzip_window_fits len :
  0 <= len ->
  exists wb, gzip_window 15 len 15 8 = (wb, wb - 7) /\ 9 <= wb <= 15 /\
    2 ^ (wb - 1) <= len + 262 /\ (wb = 15 \/ len + 262 < 2 ^ wb) /\
    gzip_size len = len + (len + 7) / 8 + (len + 63) / 64 + 23.
Proof.
  intros Hl. destruct (gzip_window_spec 15 len 15) as (wb & E & H1 & H2 & H3); [lia..|by left|].
  exists wb. unfold gzip_size. rewrite !Z.shiftr_div_pow2 by lia.
  split_and!; [exact E|lia..|]. change (2 ^ 3) with 8. change (2 ^ 6) with 64. lia.
Qed.

Lemma gzip_window_fits_witness :
  exists wb, gzip_window 15 1000 15 8 = (wb, wb - 7) /\ wb = 11 /\ 1000 + 262 < 2 ^ wb.
Proof.
  destruct (gzip_window_fits 1000) as (wb & E & _ & _ & H & _); [lia|].
  exists wb. pose proof E as E'. vm_compute in E. injection E as <- _.
  split_and!; [exact E'|reflexivity|lia].
Defined.

(** ** Runs of the handler *)

Section facts.
Context {K : Type} {api : KafkaApi K} {laws : KafkaLaws K}.
Context (zlib : Z -> Z -> Z -> list Z -> Z -> option (list Z)).

(** Invert one [let*] that came to a value. *)
Lemma obind_ret {A B} (m : outcome A) (f : A -> outcome B) b :
  obind m f = Ret b -> exists a, m = Ret a /\ f a = Ret b.
Proof. destruct m; cbn; try done. eauto. Qed.

(** What file writes leave alone. *)
Definition same_kafka (w w' : world) : Prop :=
  w'.(w_kafka) = w.(w_kafka) /\ w'.(w_brokerList) = w.(w_brokerList) /\
  w'.(w_run) = w.(w_run) /\ w'.(w_polls) = w.(w_polls) /\ w'.(w_sent) = w.(w_sent).

#[local] Instance same_kafka_preorder : PreOrder same_kafka.
Proof.
  split; [done|]. intros w1 w2 w3 (? & ? & ? & ? & ?) (? & ? & ? & ? & ?).
  split_and!; congruence.
Qed.

Lemma same_kafka_write i buf w : same_kafka w (ngx_write_fd i buf w).2.
Proof. unfold ngx_write_fd, next_write. by destruct (w_writes w). Qed.

Lemma same_kafka_gzip i buf level w : same_kafka w (ngx_new_log_gzip zlib i buf level w).2.
Proof.
  unfold ngx_new_log_gzip. destruct (gzip_window _ _ _ _).
  destruct (alloc _) as [[] a]; cbn [negb]; [|done]. destruct (alloc _) as [[] a']; cbn [negb]; [|done].
  destruct (zlib _ _ _ _ _); [|done].
  match goal with |- context [ngx_write_fd i ?o ?w'] => pose proof (same_kafka_write i o w') as H end.
  destruct (ngx_write_fd i _ _) as [[res n] w1]. cbn in *. by destruct (n =? _).
Qed.

Lemma same_kafka_file e l buf w n res w' :
  write_file zlib e l buf w = Ret (n, res, w') -> same_kafka w w'.
Proof.
  unfold write_file. destruct (l_script l).
  { intros [= H]. unfold ngx_new_log_script_write, next_write in H.
    repeat case_match; simplify_eq; done. }
  destruct (l_file l) as [i|]; [|done]. destruct (w_files w !! i) as [f|]; [|done].
  pose proof (same_kafka_write i buf w) as Hw.
  destruct (ngx_write_fd i buf w) as [[r1 n1] w1]. cbn in Hw. intros [= H].
  destruct (f_data f) as [b|]; [|by simplify_eq]. destruct (b_gzip b =? 0); [by simplify_eq|].
  pose proof (same_kafka_gzip i buf (b_gzip b) w) as Hg. by rewrite H in Hg.
Qed.

(** ** A stopped producer *)

Lemma stopped_write now e l buf w l' w' :
  w.(w_run) = false -> ngx_new_log_write zlib now e l buf w = Ret (l', w') ->
  w'.(w_run) = false /\ w'.(w_sent) = w.(w_sent).
Proof.
  intros Hr E. unfold ngx_new_log_write in E.
  apply obind_ret in E as (w1 & E1 & E).
  assert (H1 : w1.(w_run) = false /\ w1.(w_sent) = w.(w_sent)).
  { destruct (w_kafka w); [by injection E1 as <-|]. unfold init in E1.
    repeat case_match; simplify_eq; done. }
  destruct (l_kafka l) as [kf|]; [|done]. apply obind_ret in E as ([[t l1] w2] & E2 & E).
  assert (H2 : w2.(w_run) = false /\ w2.(w_sent) = w.(w_sent)).
  { destruct (topic_ kf); [by injection E2 as <- <- <-|].
    apply obind_ret in E2 as ([t2 w3] & E3 & [= <- <- <-]). unfold createProduceTopic in E3.
    repeat case_match; simplify_eq; done. }
  apply obind_ret in E as (w3 & E3 & E). unfold rd_kafka_produce_random_copy_no_key in E3.
  rewrite (proj1 H2) in E3. injection E3 as <-.
  destruct (opType kf); [by injection E as <- <-|].
  apply obind_ret in E as ([[n res] w4] & E4 & [= <- <-]).
  apply same_kafka_file in E4 as (_ & _ & R & _ & S). rewrite R, S. done.
Qed.

Section request_facts.
Context (gh : nat -> variable_value -> Z * variable_value).
Context (vars : list http_variable).
Context (r : log_request) (t : log_clock) (e : script_env).

(** A property of worlds that every write keeps, every request keeps. *)
Lemma log_one_keeps (P : world -> world -> Prop) `{!PreOrder P} l vs w go l' vs' w' :
  (forall w a, P w (with_allocs w a)) -> (forall w i b, P w (set_buf i b w)) ->
  (forall l buf w l' w', ngx_new_log_write zlib t.(tp_sec) e l buf w = Ret (l', w') -> P w w') ->
  log_one zlib gh vars r t e l vs w = Ret (go, l', vs', w') -> P w w'.
Proof.
  intros Ha Hb Hw. unfold log_one. destruct (_ =? _); [by intros [= _ _ _ <-]|].
  destruct (ops_len _ _ _ _) as [[len vs1]|]; [|done].
  assert (Hd : forall l len vs w go l' vs' w',
    log_direct zlib gh vars r t e l len vs w = Ret (go, l', vs', w') -> P w w').
  { clear -Ha Hw PreOrder0. intros l len vs w go l' vs' w'. unfold log_direct.
    destruct (alloc _) as [[] a]; cbn [negb]; [|intros [= _ _ _ <-]; apply Ha].
    intros ([line vs1] & _ & ([l1 w1] & E1 & [= _ _ _ <-])%obind_ret)%obind_ret.
    etransitivity; [apply Ha|]. by eapply Hw. }
  intros (buffer & _ & E)%obind_ret. destruct buffer as [[i b]|]; [|by eapply Hd].
  unfold log_buffered in E. apply obind_ret in E as ([[l1 b1] w1] & E1 & E).
  assert (H1 : P w w1).
  { destruct (_ <? _) in E1; [|by injection E1 as _ _ <-].
    apply obind_ret in E1 as ([l2 w2] & E2 & [= _ _ <-]).
    etransitivity; [by eapply Hw|apply Hb]. }
  etransitivity; [exact H1|]. destruct (_ <=? _) in E.
  - apply obind_ret in E as ([line vs2] & _ & [= _ _ _ <-]). apply Hb.
  - etransitivity; [apply Hb|]. by eapply Hd.
Qed.

Lemma log_all_keeps (P : world -> world -> Prop) `{!PreOrder P} logs vs w rc logs' vs' w' :
  (forall w a, P w (with_allocs w a)) -> (forall w i b, P w (set_buf i b w)) ->
  (forall l buf w l' w', ngx_new_log_write zlib t.(tp_sec) e l buf w = Ret (l', w') -> P w w') ->
  log_all zlib gh vars r t e logs vs w = Ret (rc, logs', vs', w') -> P w w'.
Proof.
  intros Ha Hb Hw. revert vs w rc logs' vs' w'.
  induction logs as [|l logs IH]; intros vs w rc logs' vs' w'; cbn [log_all]; [by intros [= _ _ _ <-]|].
  intros ([[[go l1] vs1] w1] & E1 & E)%obind_ret.
  apply (log_one_keeps P) in E1; [|done..]. destruct go; [|by injection E as _ _ _ <-].
  apply obind_ret in E as ([[[rc2 logs2] vs2] w2] & E2 & [= _ _ _ <-]).
  etransitivity; [exact E1|]. by eapply IH.
Qed.

(** Once stopped, always stopped, and nothing more is sent. *)
Definition stays_stopped (w w' : world) : Prop :=
  w.(w_run) = false -> w'.(w_run) = false /\ w'.(w_sent) = w.(w_sent).

#[local] Instance stays_stopped_preorder : PreOrder stays_stopped.
Proof.
  split; [done|]. intros w1 w2 w3 H1 H2 H. destruct (H1 H) as [A B], (H2 A) as [C D].
  split; congruence.
Qed.

Lemma handler_stays_stopped off logs vs w rc logs' vs' w' :
  ngx_new_log_handler zlib gh vars r t e off logs vs w = Ret (rc, logs', vs', w') ->
  stays_stopped w w'.
Proof.
  unfold ngx_new_log_handler. destruct off; [by intros [= _ _ _ <-]|].
  apply (log_all_keeps stays_stopped); [done|done|].
  intros l buf w1 l' w1' E H. by eapply stopped_write.
Qed.
End request_facts.

(** An error of [rd_kafka_produce] other than a full queue turns Kafka
    logging off for the rest of the process: the write that meets it still
    returns, with the message not accepted and [run] cleared, and no later
    request of any kind makes Kafka accept another message. *)
Theorem produce_error_is_final k live topic payload err k' (w : world) :
  w.(w_run) = true -> w.(w_kafka) = Some (k, live) ->
  k_produce k topic payload = Some (Some err, k') -> err <> ENOBUFS ->
  exists w1, rd_kafka_produce_random_copy_no_key topic payload w = Ret w1 /\
    w1.(w_run) = false /\ w1.(w_sent) = w.(w_sent) /\
    forall gh vars r t e off logs vs rc logs' vs' w2,
      ngx_new_log_handler zlib gh vars r t e off logs vs w1 = Ret (rc, logs', vs', w2) ->
      w2.(w_run) = false /\ w2.(w_sent) = w1.(w_sent).
Proof.
  intros Hr Hk Hp He. unfold rd_kafka_produce_random_copy_no_key. rewrite Hr, Hk. cbn [negb].
  assert (produce_loop k topic payload (w_polls w) = Ret (false, k', w_polls w, false)) as ->.
  { destruct (w_polls w); cbn [produce_loop]; rewrite Hp; by destruct err. }
  cbn. eexists. split; [done|]. cbn. split; [done|]. split; [by rewrite app_nil_r|].
  intros gh vars r t e off logs vs rc logs' vs' w2 H. apply handler_stays_stopped in H.
  by apply H.
Qed.
End facts.

(** ** Runs without faults *)

(** The outcome is a value with property [Q], or a retry loop still waiting. *)
Definition safe {A} (m : outcome A) (Q : A -> Prop) : Prop :=
  match m with
  | Ret a => Q a
  | Blocked => True
  | Exited | Fault => False
  end.

Lemma safe_bind {A B} (m : outcome A) (f : A -> outcome B) (P : A -> Prop) (Q : B -> Prop) :
  safe m P -> (forall a, P a -> safe (f a) Q) -> safe (obind m f) Q.
Proof. destruct m; cbn; auto. Qed.

Lemma safe_impl {A} (m : outcome A) (P Q : A -> Prop) :
  safe m P -> (forall a, P a -> Q a) -> safe m Q.
Proof. destruct m; cbn; auto. Qed.

Section safety.
Context {K : Type} {api : KafkaApi K} {laws : KafkaLaws K}.
Context (zlib : Z -> Z -> Z -> list Z -> Z -> option (list Z)).

Definition has_topic (w : world) (u : nat) : Prop :=
  match w.(w_kafka) with Some (k, _) => k_has k u | None => False end.

(** The number of topics that can still be made with the one configuration. *)
Definition budget (w : world) : nat :=
  match w.(w_kafka) with Some (_, false) => 0 | _ => 1 end.

Definition missing (l : new_log) : nat :=
  match l.(l_kafka) with Some (LogTopic _ (Some _) _) => 0 | _ => 1 end.

Fixpoint all_missing (logs : list new_log) : nat :=
  match logs with
  | [] => 0
  | l :: logs' => missing l + all_missing logs'
  end.

Definition topic_known (w : world) (l : new_log) : Prop :=
  match l.(l_kafka) with Some (LogTopic _ (Some u) _) => has_topic w u | _ => True end.

Definition buf_ok (b : option log_buf) : Prop :=
  match b with Some b => zlen b.(b_bytes) <= b.(b_size) < 2 ^ 64 | None => True end.

(** The state of a worker between two requests. *)
Record world_ok (w : world) : Prop := WorldOk {
  wok_kafka : match w.(w_kafka) with
              | Some (k, _) => k_ok k
              | None => exists b k, w.(w_brokerList) = Some b /\ k_new b = Some k
              end;
  wok_polls : Forall k_bg_ok w.(w_polls);
  wok_files : Forall buf_ok (map f_data w.(w_files));
}.

(** A configured log: initialised, with a file where it needs one. *)
Definition log_set (n : nat) (l : new_log) : Prop :=
  (exists kf, l.(l_kafka) = Some kf /\
     (kf.(opType) = send_topicAndFile -> l.(l_script) = true \/ is_Some l.(l_file))) /\
  (forall i, l.(l_file) = Some i -> (i < n)%nat).

(** What a write may change of the world, seen from the other logs. *)
Record world_step (w w' : world) : Prop := WorldStep {
  ws_has : forall u, has_topic w u -> has_topic w' u;
  ws_data : map f_data w'.(w_files) = map f_data w.(w_files);
}.

#[local] Instance world_step_preorder : PreOrder world_step.
Proof. split; [done|]. intros w1 w2 w3 [A B] [C D]. split; [auto|congruence]. Qed.

Lemma topic_known_step w w' l : world_step w w' -> topic_known w l -> topic_known w' l.
Proof.
  intros [H _]. unfold topic_known. destruct (l_kafka l) as [[? [u|] ?]|]; auto.
Qed.

(** What it may change of the log: only the times and the topic. *)
Definition log_step (l l' : new_log) : Prop :=
  l'.(l_file) = l.(l_file) /\ l'.(l_script) = l.(l_script) /\
  l'.(l_flushes) = l.(l_flushes) /\ l'.(l_ops) = l.(l_ops) /\
  (forall n, log_set n l -> log_set n l').

(** The accounts of topics after a write: a log that had no topic has used the
    configuration up. *)
Definition paid (l : new_log) (w : world) (l' : new_log) (w' : world) : Prop :=
  forall m, (missing l + m <= budget w -> missing l' + m <= budget w')%nat.

Lemma produce_loop_safe polls k topic payload :
  k_ok k -> k_has k topic -> zlen payload < 2 ^ 64 -> Forall k_bg_ok polls ->
  safe (produce_loop k topic payload polls) (fun '(_, k', polls', _) =>
    k_ok k' /\ (forall u, k_has k u -> k_has k' u) /\ Forall k_bg_ok polls').
Proof.
  revert k. induction polls as [|bg polls IH]; intros k Hk Ht Hl Hp; cbn [produce_loop].
  all: destruct (law_produce k topic payload Hk Ht Hl) as (res & k1 & -> & Hk1 & Hm & _).
  all: destruct res as [[]|]; cbn; auto.
  apply Forall_cons in Hp as [Hbg Hp].
  destruct (law_poll k1 bg Hk1 Hbg) as (k2 & -> & Hk2 & Hm2).
  eapply safe_impl; [apply IH; auto|]. intros [[[run k3] ps] acc] (A & B & C). split_and!; auto.
Qed.

Lemma produce_safe w topic payload :
  world_ok w -> has_topic w topic -> zlen payload < 2 ^ 64 ->
  safe (rd_kafka_produce_random_copy_no_key topic payload w) (fun w' =>
    world_ok w' /\ world_step w w' /\ budget w' = budget w).
Proof.
  intros [Hk Hp Hf] Ht Hl. unfold rd_kafka_produce_random_copy_no_key.
  destruct (w_run w); cbn [negb]; [|done]. unfold has_topic in Ht.
  destruct (w_kafka w) as [[k live]|] eqn:Ek; [|done].
  eapply safe_bind; [by apply produce_loop_safe|].
  intros [[[run k'] ps] acc] (A & B & C). cbn. split_and!.
  - by constructor.
  - constructor; [|done]. unfold has_topic. rewrite Ek. done.
  - unfold budget. by rewrite Ek.
Qed.

Lemma init_safe w : world_ok w -> w.(w_kafka) = None ->
  safe (init w) (fun w' => world_ok w' /\ world_step w w' /\ budget w' = 1%nat /\
    w'.(w_kafka) <> None).
Proof.
  intros [Hk Hp Hf] E. rewrite E in Hk. destruct Hk as (b & k & Eb & En). unfold init.
  rewrite Eb, En. cbn. destruct (law_new b k En) as (Hok & _). split_and!; [by constructor| |done|done].
  constructor; [|done]. intros u. unfold has_topic. by rewrite E.
Qed.

Lemma topic_safe w name : world_ok w -> w.(w_kafka) <> None -> budget w = 1%nat ->
  safe (createProduceTopic name w) (fun '(u, w') =>
    world_ok w' /\ world_step w w' /\ has_topic w' u).
Proof.
  intros [Hk Hp Hf] Hn Hb. unfold createProduceTopic, budget in *.
  destruct (w_kafka w) as [[k live]|] eqn:Ek; [|done]. destruct live; [|done].
  destruct (law_topic_new k name Hk) as (u & k' & [(-> & H1 & H2 & H3 & _)|(-> & H2)]); cbn.
  all: split_and!; [by constructor| |done].
  all: constructor; [|done]; intros v; unfold has_topic; rewrite Ek; cbn; auto.
Qed.

Lemma write_file_data e l buf w n res w' :
  write_file zlib e l buf w = Ret (n, res, w') ->
  map f_data w'.(w_files) = map f_data w.(w_files).
Proof.
  assert (Hfd : forall i o (w : world), map f_data (ngx_write_fd i o w).2.(w_files) = map f_data w.(w_files)).
  { intros i o w0. unfold ngx_write_fd, next_write. destruct (w_writes w0); cbn.
    all: apply list_eq; intros j; rewrite !list_lookup_fmap, list_lookup_alter;
      case_decide; subst; by destruct (w_files w0 !! j). }
  unfold write_file. destruct (l_script l).
  { intros [= H]. unfold ngx_new_log_script_write, next_write in H.
    repeat case_match; simplify_eq; done. }
  destruct (l_file l) as [i|]; [|done]. destruct (w_files w !! i) as [f|]; [|done].
  pose proof (Hfd i buf w) as Hw. destruct (ngx_write_fd i buf w) as [[r1 n1] w1].
  intros [= H]. destruct (f_data f) as [b|]; [|by simplify_eq].
  destruct (b_gzip b =? 0); [by simplify_eq|]. unfold ngx_new_log_gzip in H.
  destruct (gzip_window _ _ _ _). destruct (alloc _) as [[] a]; cbn [negb] in H; [|by simplify_eq].
  destruct (alloc _) as [[] a'] in H; cbn [negb] in H; [|by simplify_eq].
  destruct (zlib _ _ _ _ _) as [o|]; [|by simplify_eq].
  match type of H with context [ngx_write_fd i o ?w0] => pose proof (Hfd i o w0) as Hg end.
  destruct (ngx_write_fd i o _) as [[r2 n2] w2]. cbn in *. by destruct (n2 =? _); simplify_eq.
Qed.

Lemma write_file_safe e l buf w :
  world_ok w -> (l.(l_script) = true \/ is_Some l.(l_file)) ->
  (forall i, l.(l_file) = Some i -> (i < length w.(w_files))%nat) ->
  safe (write_file zlib e l buf w) (fun '(n, res, w') =>
    world_ok w' /\ world_step w w' /\ budget w' = budget w).
Proof.
  intros [Hk Hp Hf] Hl Hi.
  assert (Hret : exists x, write_file zlib e l buf w = Ret x).
  { unfold write_file. destruct (l_script l); [by eexists|]. destruct Hl as [|[i E]]; [done|].
    rewrite E. specialize (Hi i E). apply lookup_lt_is_Some in Hi as [f ->]. by eexists. }
  destruct Hret as [[[n res] w'] E]. rewrite E. cbn.
  pose proof (write_file_data _ _ _ _ _ _ _ E) as Hd.
  apply same_kafka_file in E as (E1 & E2 & E3 & E4 & E5). split_and!.
  - constructor; rewrite ?E1, ?E2, ?E4, ?Hd; done.
  - constructor; [|done]. unfold has_topic. by rewrite E1.
  - unfold budget. by rewrite E1.
Qed.

(** The Kafka part of a write: the instance and the topic are there. *)
Lemma prepare_safe l kf w :
  world_ok w -> topic_known w l -> l.(l_kafka) = Some kf -> (missing l <= budget w)%nat ->
  safe (let* w := match w.(w_kafka) with None => init w | Some _ => Ret w end in
        match kf.(topic_) with
        | Some t => Ret (t, l, w)
        | None => let* (t, w) := createProduceTopic kf.(topicName) w in Ret (t, set_topic l kf t, w)
        end) (fun '(u, l', w') =>
    world_ok w' /\ world_step w w' /\ has_topic w' u /\ topic_known w' l' /\ log_step l l' /\
    paid l w l' w').
Proof.
  intros Hw Ht Ek Hm. eapply (safe_bind _ _ (fun w1 => world_ok w1 /\ world_step w w1 /\
    budget w1 = budget w /\ w1.(w_kafka) <> None)).
  { destruct (w_kafka w) as [[k b]|] eqn:E; [cbn; rewrite E; split_and!; done|].
    eapply safe_impl; [by apply init_safe|]. intros w1 (A & B & C & D). split_and!; auto.
    rewrite C. unfold budget. by rewrite E. }
  intros w1 (A & B & C & D). unfold topic_known, missing in *. rewrite Ek in *.
  destruct kf as [name [u|] op]; cbn [topic_ topicName] in *.
  - cbn. rewrite Ek. pose proof (ws_has _ _ B u Ht). split_and!; auto; [by split_and!|].
    intros m. unfold missing. rewrite Ek, C. done.
  - assert (budget w1 = 1%nat) by (unfold budget in *; repeat case_match; lia).
    eapply safe_bind; [by apply topic_safe|]. intros [u w2] (A2 & B2 & C2). cbn.
    split_and!; auto; [by etransitivity| |].
    + split_and!; [done..|]. intros n [(kf & E & H1) H2]. split; [|done]. rewrite Ek in E.
      injection E as <-. eexists. split; [done|]. exact H1.
    + intros m. unfold missing. rewrite Ek. cbn. lia.
Qed.

Lemma log_step_times l now n res len :
  log_step l (write_times now n res len l) /\ missing (write_times now n res len l) = missing l /\
  (forall w, topic_known w l -> topic_known w (write_times now n res len l)).
Proof.
  unfold write_times. destruct (n =? len); [by split_and!|]. unfold log_step, set_times. cbn.
  split_and!; auto.
Qed.

Lemma write_safe now e l buf w :
  world_ok w -> topic_known w l -> log_set (length w.(w_files)) l ->
  (missing l <= budget w)%nat -> zlen buf < 2 ^ 64 ->
  safe (ngx_new_log_write zlib now e l buf w) (fun '(l', w') =>
    world_ok w' /\ world_step w w' /\ topic_known w' l' /\ log_step l l' /\ paid l w l' w').
Proof.
  intros Hw Ht Hs Hm Hl. pose proof Hs as [(kf & Ek & Hop) Hi].
  pose proof (prepare_safe l kf w Hw Ht Ek Hm) as Hprep. unfold ngx_new_log_write.
  destruct (match w.(w_kafka) with None => init w | Some _ => Ret w end) as [w1| | |];
    cbn [obind] in *; [|done..]. rewrite Ek.
  eapply safe_bind; [exact Hprep|]. intros [[u l1] w2] (A & B & C & D & E & F).
  eapply safe_bind; [by apply produce_safe|]. intros w3 (A3 & B3 & C3).
  assert (Hlen : length (w_files w3) = length (w_files w)).
  { rewrite <- !(length_map f_data), (ws_data _ _ B3), (ws_data _ _ B). done. }
  pose proof (topic_known_step _ _ _ B3 D) as D3.
  assert (F3 : paid l w l1 w3) by (intros m Hm'; rewrite C3; by apply F).
  destruct (opType kf) eqn:Eop; [cbn; split_and!; auto; by etransitivity|].
  destruct E as (E1 & E2 & E3 & E4 & E5).
  eapply safe_bind; [apply write_file_safe; [done|rewrite E1, E2; auto|rewrite E1, Hlen; auto]|].
  intros [[n res] w4] (A4 & B4 & C4). cbn.
  destruct (log_step_times l1 now n res (zlen buf)) as ((G1 & G2 & G3 & G4 & G5) & H2 & H3).
  split_and!; auto.
  - by do 2 (etransitivity; [eassumption|]).
  - apply H3. by eapply topic_known_step.
  - split_and!; try congruence. auto.
  - intros m Hm'. rewrite H2, C4. by apply F3.
Qed.

(** Between two logs of a request, buffers change as well. *)
Definition world_keep (w w' : world) : Prop :=
  (forall u, has_topic w u -> has_topic w' u) /\ length w'.(w_files) = length w.(w_files) /\
  (budget w' <= budget w)%nat.

#[local] Instance world_keep_preorder : PreOrder world_keep.
Proof.
  split; [done|]. intros w1 w2 w3 (A & B & C) (D & E & F). split_and!; [auto|congruence|lia].
Qed.

Lemma set_buf_ok i b w : world_ok w -> buf_ok (Some b) -> world_ok (set_buf i b w).
Proof.
  intros [Hk Hp Hf] Hb. constructor; [done|done|]. cbn [w_files set_buf with_files].
  rewrite Forall_map in *. apply Forall_alter; [done|]. done.
Qed.

Lemma set_buf_keep i b w :
  length (set_buf i b w).(w_files) = length w.(w_files) /\ budget (set_buf i b w) = budget w /\
  (forall l, topic_known w l -> topic_known (set_buf i b w) l) /\ 
  (forall u, has_topic w u -> has_topic (set_buf i b w) u).
Proof. cbn. by rewrite length_alter. Qed.

Section request_safe.
Context (gh : nat -> variable_value -> Z * variable_value).
Context (vars : list http_variable).
Context (r : log_request) (t : log_clock) (e : script_env).
Context (Hfills : handler_fills gh) (Hclock : clock_ok t).

(** The format of the log: compiled operations, lines that fit a [size_t]. *)
Definition format_ok (l : new_log) : Prop :=
  Forall (wf_op (length vars)) l.(l_ops) /\
  forall vs len vs', ops_len gh vars l.(l_ops) vs = Some (len, vs') -> len + 1 < 2 ^ 64.

(** What holds after one log, with [m] other logs waiting for a topic. *)
Definition after_one (m : nat) (l : new_log) (w : world)
    (res : bool * new_log * list variable_value * world) : Prop :=
  let '(_, l', vs', w') := res in
  world_ok w' /\ (forall u, has_topic w u -> has_topic w' u) /\
  length w'.(w_files) = length w.(w_files) /\ topic_known w' l' /\ log_step l l' /\
  (missing l' + m <= budget w')%nat /\ length vs' = length vars.

Lemma run_line_safe l vs len room :
  run_within gh vars l.(l_ops) len vs -> length vs = length vars -> len + 1 <= room ->
  safe (run_line gh vars r t l vs room) (fun '(line, vs') => zlen line <= len + 1 /\ vs' = vs).
Proof.
  intros Hrun Hl Hr. unfold run_line. destruct (Hrun r t Hclock) as (line & -> & Hle).
  rewrite (proj2 (Z.leb_le _ _)) by lia. cbn. autorewrite with ngx. split; [lia|done].
Qed.

Lemma log_direct_safe m l len vs w :
  world_ok w -> topic_known w l -> log_set (length w.(w_files)) l ->
  (missing l + m <= budget w)%nat -> len + 1 < 2 ^ 64 -> length vs = length vars ->
  run_within gh vars l.(l_ops) len vs ->
  safe (log_direct zlib gh vars r t e l (len + 1) vs w) (after_one m l w).
Proof.
  intros Hw Ht Hs Hm Hlen Hvs Hrun. unfold log_direct. destruct (alloc (w_allocs w)) as [ok a].
  assert (Hwa : world_ok (with_allocs w a)) by (by destruct Hw).
  destruct ok; cbn [negb].
  2: { cbn. split_and!; auto. by split_and!. }
  eapply safe_bind; [by eapply run_line_safe|]. intros [line vs'] [Hll ->].
  eapply safe_bind; [apply write_safe; [exact Hwa|done|done| |]|].
  { unfold budget in *. cbn. lia. }
  { lia. }
  intros [l' w'] (A & B & C & D & F). cbn. split_and!; auto.
  - apply B.
  - rewrite <- !(length_map f_data), (ws_data _ _ B). done.
Qed.

Lemma log_buffered_safe m l i b len vs w :
  world_ok w -> topic_known w l -> log_set (length w.(w_files)) l -> buf_ok (Some b) ->
  (missing l + m <= budget w)%nat -> len + 1 < 2 ^ 64 -> length vs = length vars ->
  run_within gh vars l.(l_ops) len vs ->
  safe (log_buffered zlib gh vars r t e l i b (len + 1) vs w) (after_one m l w).
Proof.
  intros Hw Ht Hs Hb Hm Hlen Hvs Hrun. unfold log_buffered. cbn in Hb.
  eapply (safe_bind _ _ (fun '(l1, b1, w1) => world_ok w1 /\
    (forall u, has_topic w u -> has_topic w1 u) /\ length w1.(w_files) = length w.(w_files) /\
    topic_known w1 l1 /\ log_step l l1 /\ (missing l1 + m <= budget w1)%nat /\ buf_ok (Some b1))).
  { destruct (_ <? len + 1); [|cbn; split_and!; auto; try lia; by split_and!].
    eapply safe_bind; [apply (write_safe _ _ l _ w Hw Ht Hs); [lia|apply Hb || lia]|].
    intros [l' w'] (A & B & C & D & F). cbn [safe].
    destruct (set_buf_keep i (LogBuf (b_size b) [] (b_timer b) (b_gzip b)) w') as (G1 & G2 & G3 & G4).
    assert (Hb' : buf_ok (Some (LogBuf (b_size b) [] (b_timer b) (b_gzip b)))).
    { cbn [buf_ok b_bytes b_size]. rewrite zlen_nil. pose proof (zlen_nonneg (b_bytes b)). lia. }
    split_and!; [by apply set_buf_ok| | |by apply G3|done| |done].
    - intros u Hu. apply G4, B, Hu.
    - rewrite G1, <- !(length_map f_data), (ws_data _ _ B). done.
    - rewrite G2. by apply F. }
  intros [[l1 b1] w1] (A & B & C & D & E & F & Hb1). pose proof E as (E1 & E2 & E3 & E4 & E5).
  rewrite <- E4 in Hrun. cbn in Hb1. destruct (Z.leb_spec (len + 1) (b_size b1 - zlen (b_bytes b1))).
  - eapply safe_bind; [apply run_line_safe; [exact Hrun|done|lia]|].
    intros [line vs'] [Hll ->]. cbn [safe after_one].
    set (b2 := LogBuf _ _ _ _). destruct (set_buf_keep i b2 w1) as (G1 & G2 & G3 & G4).
    split_and!; [|auto|congruence|auto|done|by rewrite G2|done]. apply set_buf_ok; [done|].
    cbn. autorewrite with ngx. pose proof (zlen_nonneg (b_bytes b1)). lia.
  - set (b2 := LogBuf _ _ _ _). destruct (set_buf_keep i b2 w1) as (G1 & G2 & G3 & G4).
    eapply safe_impl; [apply log_direct_safe; auto|].
    + by apply set_buf_ok.
    + rewrite G1, C. auto.
    + by rewrite G2.
    + intros [[[go l'] vs'] w'] (J1 & J2 & J3 & J4 & J5 & J6 & J7). cbn.
      destruct J5 as (K1 & K2 & K3 & K4 & K5). split_and!; auto; try congruence.
      split_and!; try congruence. auto.
Qed.

Lemma flush_length vs fl :
  length (ngx_http_script_flush_no_cacheable_variables vs fl) = length vs.
Proof.
  destruct fl as [l|]; [|done]. cbn. revert vs. induction l as [|i l IH]; intros vs; [done|].
  cbn. rewrite IH. unfold flush_one. repeat case_match; [|done..]. by rewrite length_insert.
Qed.

Lemma log_one_safe m l vs w :
  world_ok w -> topic_known w l -> log_set (length w.(w_files)) l -> format_ok l ->
  (missing l + m <= budget w)%nat -> length vs = length vars ->
  safe (log_one zlib gh vars r t e l vs w) (after_one m l w).
Proof.
  intros Hw Ht Hs [Hops Hsmall] Hm Hvs. unfold log_one.
  destruct (_ =? _). { cbn. split_and!; auto. by split_and!. }
  set (vs0 := ngx_http_script_flush_no_cacheable_variables vs (l_flushes l)).
  destruct (ops_len_run gh vars Hfills t l.(l_ops) vs0 Hclock Hops)
    as (len & vs1 & E & Hl1 & _ & Hrun); [by subst vs0; rewrite flush_length|].
  rewrite E. apply Hsmall in E. specialize (Hrun vs1 (fun _ _ => eq_refl)).
  unfold log_buffer. destruct (l_file l) as [i|] eqn:Ef; [|by apply log_direct_safe].
  pose proof (proj2 Hs i Ef) as Hs2.
  apply lookup_lt_is_Some in Hs2 as [f Hf]. rewrite Hf. cbn [obind].
  destruct (f_data f) as [b|] eqn:Eb; [|by apply log_direct_safe].
  apply log_buffered_safe; auto. destruct Hw as [_ _ Hfs].
  rewrite Forall_map, Forall_lookup in Hfs. specialize (Hfs i f Hf). by rewrite Eb in Hfs.
Qed.

(** The logs of a location, and what they need of the world. *)
Record logs_ok (logs : list new_log) (w : world) : Prop := LogsOk {
  lo_set : Forall (log_set (length w.(w_files))) logs;
  lo_known : Forall (topic_known w) logs;
  lo_format : Forall format_ok logs;
  lo_topics : (all_missing logs <= budget w)%nat;
}.

Lemma log_all_safe extra logs vs w :
  world_ok w -> Forall (log_set (length w.(w_files))) logs -> Forall (topic_known w) logs ->
  Forall format_ok logs -> (all_missing logs + extra <= budget w)%nat ->
  length vs = length vars ->
  safe (log_all zlib gh vars r t e logs vs w) (fun '(_, logs', vs', w') =>
    world_ok w' /\ (forall u, has_topic w u -> has_topic w' u) /\
    length w'.(w_files) = length w.(w_files) /\
    Forall (log_set (length w'.(w_files))) logs' /\ Forall (topic_known w') logs' /\
    Forall format_ok logs' /\ (all_missing logs' + extra <= budget w')%nat /\
    length vs' = length vars).
Proof.
  revert extra vs w. induction logs as [|l logs IH]; intros extra vs w Hw Hs Hk Hf Hm Hvs;
    cbn [log_all].
  { cbn in *. split_and!; auto. }
  apply Forall_cons in Hs as [Hs1 Hs], Hk as [Hk1 Hk], Hf as [Hf1 Hf]. cbn in Hm.
  eapply safe_bind; [apply (log_one_safe (all_missing logs + extra)); auto; lia|].
  intros [[[go l'] vs'] w'] (A & B & C & D & (E1 & E2 & E3 & E4 & E5) & F & G).
  assert (Hf' : format_ok l') by (unfold format_ok in *; by rewrite E4).
  assert (Hk' : Forall (topic_known w') logs).
  { eapply Forall_impl; [exact Hk|]. intros x. unfold topic_known.
    destruct (l_kafka x) as [[? [u|] ?]|]; auto. }
  rewrite <- C in Hs, Hs1. destruct go.
  2: { cbn. split_and!; auto; lia. }
  eapply safe_bind; [apply (IH (missing l' + extra)%nat); auto; lia|].
  intros [[[rc logs2] vs2] w2] (A2 & B2 & C2 & D2 & E2' & F2 & G2 & H2). cbn.
  split_and!; auto; try congruence; try lia.
  - constructor; [|done]. rewrite C2. auto.
  - constructor; [|done]. revert D. unfold topic_known. destruct (l_kafka l') as [[? [u|] ?]|]; auto.
Qed.

(** C3: the request handler never faults. For logs that are configured
    (Kafka fields set, a file or a script where one is needed, compiled
    formats) and a sound worker state, with topics to make for no more logs
    than the one topic configuration allows, a request either completes or is
    still waiting for room in the producer queue: no buffer is overrun, no
    null or freed pointer used, no assertion of the library fails. What holds
    before holds again after it, so it holds for every sequence of requests. *)
Theorem handler_safe off logs vs w :
  world_ok w -> logs_ok logs w -> length vs = length vars ->
  safe (ngx_new_log_handler zlib gh vars r t e off logs vs w) (fun '(_, logs', vs', w') =>
    world_ok w' /\ logs_ok logs' w' /\ length vs' = length vars).
Proof.
  intros Hw [H1 H2 H3 H4] Hvs. unfold ngx_new_log_handler. destruct off; [done|].
  eapply safe_impl; [apply (log_all_safe 0); auto; lia|].
  intros [[[rc logs'] vs'] w'] (A & B & C & D & E & F & G & H). split_and!; auto.
  constructor; auto. lia.
Qed.
End request_safe.
End safety.

(** ** Two topics *)

Section two_topics.
Context {K : Type} {api : KafkaApi K} {laws : KafkaLaws K}.
Context (zlib : Z -> Z -> Z -> list Z -> Z -> option (list Z)).
Context (gh : nat -> variable_value -> Z * variable_value).
Context (vars : list http_variable).
Context (r : log_request) (t : log_clock) (e : script_env).

(** A log configured to go to a topic only, not used yet and not paused. *)
Definition fresh_topic_log (l : new_log) : Prop :=
  l.(l_file) = None /\ l.(l_disk_full_time) <> t.(tp_sec) /\
  exists name, l.(l_kafka) = Some (LogTopic name None send_topic).

(** The first write of the process uses up the topic configuration. *)
Lemma first_write_consumes now l buf w l' w' name :
  w.(w_kafka) = None -> l.(l_kafka) = Some (LogTopic name None send_topic) ->
  ngx_new_log_write zlib now e l buf w = Ret (l', w') ->
  (exists k, w'.(w_kafka) = Some (k, false)) /\ w'.(w_allocs) = w.(w_allocs).
Proof.
  intros Hk Hl. unfold ngx_new_log_write. rewrite Hk, Hl. cbn [topic_ topicName opType].
  intros (w1 & E1 & ([[u l1] w2] & E2 & (w3 & E3 & [= _ <-])%obind_ret)%obind_ret)%obind_ret.
  unfold init in E1. destruct (w_brokerList w); [|done]. destruct (k_new l0) as [k|] eqn:En; [|done].
  injection E1 as <-. apply obind_ret in E2 as ([u' w4] & E4 & [= <- _ <-]).
  destruct (law_new _ _ En) as (Hok & _ & Hno). unfold createProduceTopic in E4. cbn in E4.
  destruct (law_topic_new k name Hok) as (t0 & k' & [(Et & _)|(_ & Hh)]); [|by destruct (Hno t0)].
  rewrite Et in E4. injection E4 as <- <-. unfold rd_kafka_produce_random_copy_no_key in E3. cbn in E3.
  destruct (w_run w); [|injection E3 as <-; eauto].
  apply obind_ret in E3 as ([[[run k2] ps] acc] & _ & [= <-]). cbn. eauto.
Qed.

(** A topic cannot be made any more. *)
Lemma write_after_consumed now l buf (w : world) k name :
  w.(w_kafka) = Some (k, false) -> l.(l_kafka) = Some (LogTopic name None send_topic) ->
  ngx_new_log_write zlib now e l buf w = Fault.
Proof.
  intros Hk Hl. unfold ngx_new_log_write. rewrite Hk, Hl. cbn. unfold createProduceTopic.
  by rewrite Hk.
Qed.

(** C39: two topics in one process use freed memory. The topic configuration is
    made once, by [init], and [rd_kafka_topic_new] frees the one it is given:
    when a request is logged through two logs that have no topic yet, with
    memory for their lines, the handler never returns; the second topic is made
    from a freed configuration. *)
Theorem two_topics_never_return l1 l2 logs vs w :
  fresh_topic_log l1 -> fresh_topic_log l2 -> w.(w_kafka) = None -> no_oom w.(w_allocs) ->
  forall res, ngx_new_log_handler zlib gh vars r t e false (l1 :: l2 :: logs) vs w <> Ret res.
Proof.
  intros (F1 & D1 & n1 & K1) (F2 & D2 & n2 & K2) Hk Ha res. unfold ngx_new_log_handler.
  cbn [log_all]. intros ([[[go l1'] vs1] w1] & E1 & E)%obind_ret.
  unfold log_one, log_buffer in E1. rewrite F1, (proj2 (Z.eqb_neq _ _) (not_eq_sym D1)) in E1.
  destruct (ops_len _ _ _ _) as [[len vs2]|]; [|done]. cbn [obind] in E1. unfold log_direct in E1.
  destruct (no_oom_alloc _ Ha) as (a & Ea & Ha'). rewrite Ea in E1. cbn [negb] in E1.
  apply obind_ret in E1 as ([line vs3] & _ & ([l3 w3] & E3 & [= <- <- <- <-])%obind_ret).
  eapply first_write_consumes in E3 as ([k Hk'] & Hal); [|done|exact K1]. cbn in Hal.
  apply obind_ret in E as ([[[rc logs'] vs4] w4] & E4 & _).
  apply obind_ret in E4 as ([[[go l2'] vs5] w5] & E5 & _).
  unfold log_one, log_buffer in E5. rewrite F2, (proj2 (Z.eqb_neq _ _) (not_eq_sym D2)) in E5.
  destruct (ops_len _ _ _ _) as [[len2 vs6]|]; [|done]. cbn [obind] in E5. unfold log_direct in E5.
  rewrite Hal in E5. destruct (no_oom_alloc _ Ha') as (a2 & Ea2 & _). rewrite Ea2 in E5.
  cbn [negb] in E5. apply obind_ret in E5 as ([line2 vs7] & _ & ([l6 w6] & E6 & _)%obind_ret).
  by rewrite (write_after_consumed _ _ _ _ k n2) in E6.
Qed.
End two_topics.

(** ** What is logged *)

Lemma safe_ret {A} (m : outcome A) (P Q : A -> Prop) :
  safe m P -> (forall a, m = Ret a -> Q a) -> safe m Q.
Proof. destruct m; cbn; auto. Qed.

Section stream.
Context {K : Type} {api : KafkaApi K} {laws : KafkaLaws K}.
Context (zlib : Z -> Z -> Z -> list Z -> Z -> option (list Z)).

Definition buffered (f : open_file) : list Z :=
  match f.(f_data) with Some b => b.(b_bytes) | None => [] end.

(** All that was logged to a file: written, and waiting in its buffer. *)
Definition file_stream (w : world) (i : nat) : list Z :=
  match w.(w_files) !! i with Some f => f.(f_out) ++ buffered f | None => [] end.

(** The messages of a topic that the library accepted. *)
Definition sent_to (u : nat) (sent : list (nat * list Z)) : list Z :=
  concat (map snd (filter (fun m => fst m = u) sent)).

#[local] Arguments sent_to : simpl never.

(** What waits in the buffer of a file. *)
Definition waiting (w : world) (i : nat) : list Z :=
  match w.(w_files) !! i with Some f => buffered f | None => [] end.

(** The accepted messages of a topic, and then what waits in the buffer of the
    file: the topic gets it if a line that does not fit makes the handler write the
    buffer, and never gets it if the buffer is flushed. *)
Definition sent_or_waiting (w : world) (u i : nat) : list Z := sent_to u w.(w_sent) ++ waiting w i.

Lemma sent_to_snoc u sent buf : sent_to u (sent ++ [(u, buf)]) = sent_to u sent ++ buf.
Proof.
  unfold sent_to. rewrite filter_app, map_app, concat_app, filter_cons_True by done.
  cbn. by rewrite app_nil_r.
Qed.

(** A log to the topic [u] and to file [i], not compressed. *)
Definition plain_log (l : new_log) (u i : nat) : Prop :=
  l.(l_file) = Some i /\ l.(l_script) = false /\
  exists name, l.(l_kafka) = Some (LogTopic name (Some u) send_topicAndFile).

Definition plain_file (f : open_file) : Prop :=
  match f.(f_data) with Some b => b.(b_gzip) = 0 | None => True end.

Lemma produce_loop_accepted k u buf polls run k' polls' acc :
  produce_loop k u buf polls = Ret (run, k', polls', acc) -> run = acc.
Proof.
  revert k. induction polls as [|bg polls IH]; intros k; cbn [produce_loop].
  all: destruct (k_produce k u buf) as [[[[]|] k1]|]; try done; try (by intros [= <- _ _ <-]).
  destruct (k_poll k1 bg); [apply IH|done].
Qed.

Lemma produce_sent u buf w w' :
  rd_kafka_produce_random_copy_no_key u buf w = Ret w' ->
  w'.(w_files) = w.(w_files) /\ w'.(w_writes) = w.(w_writes) /\ w'.(w_allocs) = w.(w_allocs) /\
  (w'.(w_run) = true -> w.(w_run) = true /\ w'.(w_sent) = w.(w_sent) ++ [(u, buf)]).
Proof.
  unfold rd_kafka_produce_random_copy_no_key. destruct (w_run w) eqn:Er; cbn [negb].
  2: { intros [= <-]. split_and!; auto. congruence. }
  destruct (w_kafka w) as [[k live]|]; [|done].
  intros ([[[run k'] ps] acc] & E & [= <-])%obind_ret. cbn.
  apply produce_loop_accepted in E as ->. split_and!; auto. by intros ->.
Qed.

(** A complete write of [buf]: file and topic get it, nothing else changes. *)
Lemma write_stream now e l u i f buf w l' w' :
  plain_log l u i -> w.(w_files) !! i = Some f -> plain_file f -> w.(w_writes) = [] ->
  w.(w_kafka) <> None -> ngx_new_log_write zlib now e l buf w = Ret (l', w') ->
  l' = l /\ w'.(w_files) = alter (fun f => OpenFile f.(f_data) (f.(f_out) ++ buf)) i w.(w_files) /\
  w'.(w_writes) = [] /\ w'.(w_allocs) = w.(w_allocs) /\ w'.(w_kafka) <> None /\
  (w'.(w_run) = true -> w.(w_run) = true /\ w'.(w_sent) = w.(w_sent) ++ [(u, buf)]).
Proof.
  intros (Hf & Hs & name & Hl) Hi Hp Hw Hk. unfold ngx_new_log_write.
  destruct (w_kafka w) as [k|] eqn:Ek; [|done]. cbn [obind]. rewrite Hl. cbn [topic_ opType obind].
  intros (w1 & E1 & ([[n res] w2] & E2 & [= <- <-])%obind_ret)%obind_ret.
  assert (Hk1 : w_kafka w1 <> None).
  { unfold rd_kafka_produce_random_copy_no_key in E1. rewrite Ek in E1.
    destruct (w_run w); [|injection E1 as <-; congruence]. destruct k as [k live].
    cbn in E1. apply obind_ret in E1 as ([[[a b] c] d] & _ & [= <-]). done. }
  apply produce_sent in E1 as (F1 & F2 & F3 & F4).
  unfold write_file in E2. rewrite Hs, Hf, F1, Hi in E2. injection E2 as E2.
  assert (E3 : (let '(res, n, w0) := ngx_write_fd i buf w1 in (n, res, w0)) = (n, res, w2)).
  { unfold plain_file in Hp. destruct (f_data f); [|done]. by rewrite Hp in E2. }
  unfold ngx_write_fd, next_write in E3. rewrite F2, Hw in E3. injection E3 as <- <- <-. cbn.
  unfold write_times. rewrite Z.eqb_refl. unfold zlen. rewrite Nat2Z.id, firstn_all. cbn.
  split_and!; auto; congruence.
Qed.

Section one_log.
Context (gh : nat -> variable_value -> Z * variable_value).
Context (vars : list http_variable).
Context (r : log_request) (t : log_clock) (e : script_env).

(** One more line at the end of the file's stream and, while Kafka logging is on,
    behind what was sent to the topic or waits. *)
Definition appended (u i : nat) (line : list Z) (w w' : world) : Prop :=
  file_stream w' i = file_stream w i ++ line /\
  (w'.(w_run) = true -> w.(w_run) = true /\ sent_or_waiting w' u i = sent_or_waiting w u i ++ line).

(** The file has a buffer still, if it had one, and writes go on being complete. *)
Definition keeps_file (i : nat) (f : open_file) (w' : world) : Prop :=
  w'.(w_writes) = [] /\ exists f', w'.(w_files) !! i = Some f' /\ plain_file f' /\
    (is_Some f'.(f_data) <-> is_Some f.(f_data)).

Lemma direct_stream l u i f len vs w go l' vs' w' :
  plain_log l u i -> w.(w_files) !! i = Some f -> plain_file f -> buffered f = [] ->
  w.(w_writes) = [] -> w.(w_kafka) <> None -> no_oom w.(w_allocs) ->
  log_direct zlib gh vars r t e l len vs w = Ret (go, l', vs', w') ->
  go = true /\ exists line, ops_run gh vars r t l.(l_ops) vs = Some (line, vs') /\
    appended u i (line ++ [LF]) w w' /\ keeps_file i f w'.
Proof.
  intros Hl Hi Hp Hb Hw Hk Ha. unfold log_direct.
  destruct (no_oom_alloc _ Ha) as (a & -> & _). cbn [negb].
  intros ([line vs1] & E1 & ([l1 w1] & E2 & [= <- _ <- <-])%obind_ret)%obind_ret.
  unfold run_line in E1. destruct (ops_run _ _ _ _ _ _) as [[line0 vs2]|]; [|done].
  destruct (_ <=? _); [|done]. injection E1 as <- <-.
  eapply write_stream in E2 as (-> & F1 & F2 & F3 & F4 & F5); [|done..]. cbn in F1, F5.
  split; [done|]. exists line0. split; [done|]. split.
  2: { split; [done|]. rewrite F1, list_lookup_alter_eq, Hi. by eexists. }
  unfold appended, file_stream, sent_or_waiting, waiting.
  rewrite F1, list_lookup_alter_eq, Hi. cbn. unfold buffered in *. cbn. rewrite Hb, !app_nil_r.
  split; [done|]. intros Hr. destruct (F5 Hr) as [H1 H2]. split; [done|].
  by rewrite H2, sent_to_snoc.
Qed.

(** The buffer written out: the streams are as they were, the buffer empty. *)
Lemma spill_stream now l u i f b w l' w1 :
  plain_log l u i -> w.(w_files) !! i = Some f -> f.(f_data) = Some b -> b.(b_gzip) = 0 ->
  w.(w_writes) = [] -> w.(w_kafka) <> None ->
  ngx_new_log_write zlib now e l b.(b_bytes) w = Ret (l', w1) ->
  let b' := LogBuf b.(b_size) [] b.(b_timer) b.(b_gzip) in
  let w' := set_buf i b' w1 in
  l' = l /\ w'.(w_files) !! i = Some (OpenFile (Some b') (f.(f_out) ++ b.(b_bytes))) /\
  w'.(w_writes) = [] /\ w'.(w_kafka) <> None /\ w'.(w_allocs) = w.(w_allocs) /\
  appended u i [] w w'.
Proof.
  intros Hl Hi Hd Hg Hw Hk E b' w'.
  eapply write_stream in E as (-> & F1 & F2 & F3 & F4 & F5); [|done|done| |done..].
  2: { unfold plain_file. by rewrite Hd. }
  assert (E' : w'.(w_files) !! i = Some (OpenFile (Some b') (f_out f ++ b_bytes b))).
  { subst w'. cbn. rewrite F1, !list_lookup_alter_eq, Hi. done. }
  split_and!; auto. unfold appended, file_stream, sent_or_waiting, waiting. rewrite E', Hi. cbn.
  unfold buffered. rewrite Hd. cbn. rewrite !app_nil_r. split; [done|].
  intros Hr. cbn in Hr. destruct (F5 Hr) as [H1 H2]. split; [done|]. by rewrite H2, sent_to_snoc.
Qed.

Lemma appended_trans u i l1 l2 w1 w2 w3 :
  appended u i l1 w1 w2 -> appended u i l2 w2 w3 -> appended u i (l1 ++ l2) w1 w3.
Proof.
  intros [A B] [C D]. split; [by rewrite C, A, app_assoc|]. intros H.
  destruct (D H) as [D1 D2], (B D1) as [B1 B2]. split; [done|]. by rewrite D2, B2, app_assoc.
Qed.

(** A line put in the buffer. *)
Lemma buffer_stream u i f b line timer w :
  w.(w_files) !! i = Some f -> f.(f_data) = Some b ->
  appended u i line w (set_buf i (LogBuf b.(b_size) (b.(b_bytes) ++ line) timer b.(b_gzip)) w).
Proof.
  intros Hi Hd. unfold appended, file_stream, sent_or_waiting, waiting. cbn.
  rewrite list_lookup_alter_eq, Hi. cbn. unfold buffered. rewrite Hd. cbn.
  rewrite !app_assoc. auto.
Qed.

Lemma log_buffered_stream l u i f b len vs w go l' vs' w' :
  plain_log l u i -> w.(w_files) !! i = Some f -> f.(f_data) = Some b -> b.(b_gzip) = 0 ->
  w.(w_writes) = [] -> w.(w_kafka) <> None -> no_oom w.(w_allocs) ->
  zlen b.(b_bytes) <= b.(b_size) ->
  log_buffered zlib gh vars r t e l i b len vs w = Ret (go, l', vs', w') ->
  go = true /\ exists line, ops_run gh vars r t l.(l_ops) vs = Some (line, vs') /\
    appended u i (line ++ [LF]) w w' /\ keeps_file i f w'.
Proof.
  intros Hl Hi Hd Hg Hw Hk Ha Hsz. unfold log_buffered.
  intros ([[l1 b1] w1] & E1 & E)%obind_ret.
  assert (H1 : l1 = l /\ (exists f1, w1.(w_files) !! i = Some f1 /\ f1.(f_data) = Some b1) /\
    b1.(b_gzip) = 0 /\ w1.(w_writes) = [] /\ w1.(w_kafka) <> None /\ no_oom w1.(w_allocs) /\
    appended u i [] w w1 /\ (b_bytes b1 = [] \/ len <= b_size b1 - zlen (b_bytes b1))).
  { destruct (Z.ltb_spec (b_size b - zlen (b_bytes b)) len) as [Hlt|Hge].
    - apply obind_ret in E1 as ([l2 w2] & E2 & [= <- <- <-]).
      destruct (spill_stream _ _ _ _ _ _ _ _ _ Hl Hi Hd Hg Hw Hk E2)
        as (-> & A1 & A2 & A3 & A4 & A5).
      split_and!; auto; [eauto|by rewrite A4].
    - injection E1 as <- <- <-. split_and!; auto; [eauto|].
      split; [by rewrite app_nil_r|]. intros. by rewrite app_nil_r. }
  destruct H1 as (-> & (f1 & Hi1 & Hd1) & Hg1 & Hw1 & Hk1 & Ha1 & Hap & Hroom).
  destruct (Z.leb_spec len (b_size b1 - zlen (b_bytes b1))) as [Hle|Hgt].
  - apply obind_ret in E as ([line vs1] & E2 & [= <- _ <- <-]). unfold run_line in E2.
    destruct (ops_run _ _ _ _ _ _) as [[line0 vs2]|]; [|done]. destruct (_ <=? _); [|done].
    injection E2 as <- <-. split; [done|]. exists line0. split; [done|]. split.
    + apply (appended_trans _ _ [] _ _ _ _ Hap). by eapply buffer_stream.
    + split; [done|]. cbn. rewrite list_lookup_alter_eq, Hi1. eexists. split; [done|]. split; [done|]. rewrite Hd. split; eauto.
  - destruct Hroom as [Hnil|]; [|lia].
    set (b2 := LogBuf _ _ _ _) in E. set (w2 := set_buf i b2 w1) in E.
    assert (Hap2 : appended u i [] w1 w2).
    { subst w2 b2. rewrite <- (app_nil_r (b_bytes b1)). by eapply buffer_stream. }
    apply (direct_stream l u i (OpenFile (Some b2) (f_out f1))) in E as (-> & line & E & Hap3 & Hkeep); [|exact Hl|..].
    + split; [done|]. exists line. split; [done|]. split.
      * apply (appended_trans _ _ [] _ _ _ _ Hap), (appended_trans _ _ [] _ _ _ _ Hap2), Hap3.
      * destruct Hkeep as [Hw3 (f3 & H1 & H2 & H3)]. split; [done|]. exists f3. split; [done|]. split; [done|].
        rewrite H3, Hd. cbn. split; eauto.
    + subst w2. cbn. by rewrite list_lookup_alter_eq, Hi1.
    + done.
    + done.
    + done.
    + done.
    + done.
Qed.

(** A flush, by the timer or by hand, writes the buffer to the file alone. *)
Lemma flush_stream i f w :
  keeps_file i f w -> is_Some f.(f_data) ->
  exists w2, ngx_new_log_flush zlib i w = Ret w2 /\ file_stream w2 i = file_stream w i /\
    waiting w2 i = [] /\ w2.(w_sent) = w.(w_sent).
Proof.
  intros [Hw (f' & Hi & Hp & Hb)] Hd. apply Hb in Hd as [b Eb]. unfold plain_file in Hp. rewrite Eb in Hp.
  destruct f' as [data out]. cbn in Eb. subst data. unfold ngx_new_log_flush. rewrite Hi.
  destruct (Z.eqb_spec (zlen (b_bytes b)) 0) as [E0|_].
  { exists w. split_and!; [done..| |done]. unfold waiting. rewrite Hi. cbn. by destruct (b_bytes b). }
  rewrite Hp. cbn [Z.eqb]. unfold ngx_write_fd, next_write. rewrite Hw. eexists. split; [done|].
  unfold file_stream, waiting. cbn. rewrite Hi, !list_lookup_alter_eq, Hi. cbn.
  unfold zlen. rewrite Nat2Z.id, firstn_all. by rewrite app_nil_r.
Qed.

(** C4: each request is logged exactly once, in order. For a log to a topic and
    a file, in a sound worker state whose file writes are complete, logging a
    request appends its rendered line and a line feed, and nothing else, to what
    the file will hold (written and buffered bytes). If Kafka logging is still on
    afterwards, the line is also behind the messages the topic accepted and the
    bytes that wait in the file's buffer. Without a buffer none wait: the topic
    has the line. With one the topic gets the waiting bytes when a line that does
    not fit makes the handler write the buffer; but a flush at this moment writes
    them to the file only and empties the buffer, so that the topic is not given
    them. (No directive of the module gives a file a buffer.) *)
Theorem log_line_once l u i f vs w :
  handler_fills gh -> clock_ok t -> world_ok w -> format_ok gh vars l ->
  plain_log l u i -> has_topic w u -> w.(w_files) !! i = Some f -> plain_file f ->
  w.(w_writes) = [] -> no_oom w.(w_allocs) -> t.(tp_sec) <> l.(l_disk_full_time) ->
  length vs = length vars ->
  safe (log_one zlib gh vars r t e l vs w) (fun '(go, _, vs', w') =>
    go = true /\ exists len vs1 line,
      ops_len gh vars l.(l_ops) (ngx_http_script_flush_no_cacheable_variables vs l.(l_flushes))
        = Some (len, vs1) /\
      ops_run gh vars r t l.(l_ops) vs1 = Some (line, vs') /\
      appended u i (line ++ [LF]) w w' /\
      (f.(f_data) = None -> waiting w' i = []) /\
      (is_Some f.(f_data) -> exists w2, ngx_new_log_flush zlib i w' = Ret w2 /\
         file_stream w2 i = file_stream w i ++ line ++ [LF] /\ waiting w2 i = [] /\
         w2.(w_sent) = w'.(w_sent))).
Proof.
  intros Hfills Hclock Hw Hf Hl Hu Hi Hp Hws Ha Hd Hvs.
  pose proof Hl as (Hfile & Hscript & name & Hk).
  eapply safe_ret; [apply (log_one_safe zlib gh vars r t e Hfills Hclock 0); auto|].
  - unfold topic_known. by rewrite Hk.
  - split; [exists (LogTopic name (Some u) send_topicAndFile); split; [done|]|].
    + intros _. right. rewrite Hfile. by eexists.
    + rewrite Hfile. intros j [= <-]. by eapply lookup_lt_Some.
  - unfold missing. rewrite Hk. cbn. lia.
  - intros [[[go l'] vs'] w']. unfold log_one. rewrite (proj2 (Z.eqb_neq _ _) Hd).
    destruct (ops_len _ _ _ _) as [[len vs1]|] eqn:El; [|done].
    assert (Hkn : w.(w_kafka) <> None) by (intros E; unfold has_topic in Hu; by rewrite E in Hu).
    assert (Hend : forall line, appended u i (line ++ [LF]) w w' -> keeps_file i f w' ->
      (f.(f_data) = None -> waiting w' i = []) /\
      (is_Some f.(f_data) -> exists w2, ngx_new_log_flush zlib i w' = Ret w2 /\
         file_stream w2 i = file_stream w i ++ line ++ [LF] /\ waiting w2 i = [] /\
         w2.(w_sent) = w'.(w_sent))).
    { intros line [Hap _] Hkeep. split.
      - intros Hn. destruct Hkeep as [_ (f' & E & _ & Hb)]. unfold waiting, buffered. rewrite E.
        destruct (f_data f') as [b'|]; [|done]. rewrite Hn in Hb. by destruct (proj1 Hb ltac:(eauto)).
      - intros Hd'. destruct (flush_stream i f w' Hkeep Hd') as (w2 & E & H1 & H2 & H3).
        exists w2. by rewrite H1, Hap. }
    unfold log_buffer. rewrite Hfile, Hi. cbn [obind]. destruct (f_data f) as [b|] eqn:Eb; intros E.
    + eapply log_buffered_stream in E as (-> & line & E & Hap & Hkeep); eauto.
      * split; [done|]. exists len, vs1, line. destruct (Hend line Hap Hkeep). by split_and!.
      * unfold plain_file in Hp. by rewrite Eb in Hp.
      * destruct Hw as [_ _ Hfs]. rewrite Forall_map, Forall_lookup in Hfs.
        specialize (Hfs i f Hi). rewrite Eb in Hfs. apply Hfs.
    + eapply direct_stream in E as (-> & line & E & Hap & Hkeep); eauto.
      * split; [done|]. exists len, vs1, line. destruct (Hend line Hap Hkeep). by split_and!.
      * unfold buffered. by rewrite Eb.
Qed.
End one_log.
End stream.

(** ** Instances *)

Definition sample_zlib (level wbits memlevel : Z) (buf : list Z) (size : Z) : option (list Z) := None.

Definition sample_env : script_env := ScriptEnv true true true true true None true true.

#[local] Instance sample_api : KafkaApi rd_instance := rd_kafka_api (fun _ _ _ _ => 0).
#[local] Instance sample_laws : KafkaLaws rd_instance := rd_kafka_laws (fun _ _ _ _ => 0).

Definition status_op : new_log_op := NewLogOp 20 getlen_null ngx_new_log_status (DNum 0).

Definition sample_log (file : option nat) (topic : option nat) (op : sendType) : new_log :=
  NewLog file false 0 0 None [status_op] (Some (LogTopic (lit "access") topic op)).

Definition fresh_world (b : option log_buf) : world :=
  World None (Some (lit "127.0.0.1:9092")) true [OpenFile b []] [] [] [] [] [].

(** A worker that has made its topic. *)
Definition running_world (cnt max : Z) (b : option log_buf) : world :=
  World (Some (RdInstance (Producer (RdKafka cnt max 4000000 false [])
                 [sample_topic RD_KAFKA_TOPIC_S_UNKNOWN 0] ∅ []) 0, false))
    (Some (lit "127.0.0.1:9092")) true [OpenFile b []] [] [] [] [] [].

Lemma sample_fills : handler_fills sample_handler.
Proof. intros i s s' [= <-]. reflexivity. Qed.

Lemma sample_clock_ok : clock_ok sample_clock.
Proof. vm_compute. repeat split; discriminate. Qed.

Lemma sample_format_ok file topic op : format_ok sample_handler [] (sample_log file topic op).
Proof.
  split.
  - apply Forall_singleton, (wf_builtin _ (lit "status")). reflexivity.
  - intros vs len vs' [= <- <-]. done.
Qed.

Lemma running_world_ok b : buf_ok b -> world_ok (running_world 0 10000 b).
Proof.
  intros Hb. constructor; cbn.
  - split.
    + apply Forall_singleton. split; [|by eexists].
      constructor; [apply wf_sample_topic|intros j tp Hj; cbn in Hj; by rewrite lookup_nil in Hj|constructor..].
    + split_and!; [unfold rk_ok; cbn; lia|done|constructor].
  - constructor.
  - by apply Forall_singleton.
Qed.

Lemma handler_safe_witness :
  safe (ngx_new_log_handler sample_zlib sample_handler [] sample_request sample_clock sample_env
          false [sample_log (Some 0%nat) None send_topicAndFile] []
          (fresh_world (Some (LogBuf 64 [] None 0))))
    (fun '(_, logs', vs', w') => world_ok w' /\ logs_ok sample_handler [] logs' w' /\ length vs' = 0%nat).
Proof.
  apply (handler_safe sample_zlib sample_handler [] sample_request sample_clock sample_env
           sample_fills sample_clock_ok).
  - constructor; cbn; [|constructor|].
    + eexists _, _. split; reflexivity.
    + apply Forall_singleton. cbn. change (zlen []) with 0. lia.
  - constructor.
    + apply Forall_singleton. split; [eexists; split; [reflexivity|]|].
      * intros _. right. by eexists.
      * intros i [= <-]. cbn. lia.
    + by apply Forall_singleton.
    + apply Forall_singleton, sample_format_ok.
    + cbn. lia.
  - reflexivity.
Defined.

Lemma log_line_once_witness :
  safe (log_one sample_zlib sample_handler [] sample_request sample_clock sample_env
          (sample_log (Some 0%nat) (Some 0%nat) send_topicAndFile) []
          (running_world 0 10000 (Some (LogBuf 64 [] None 0))))
    (fun '(go, _, vs', w') =>
      go = true /\ exists len vs1 line,
        ops_len sample_handler [] [status_op] [] = Some (len, vs1) /\
        ops_run sample_handler [] sample_request sample_clock [status_op] vs1 = Some (line, vs') /\
        appended 0 0 (line ++ [LF]) (running_world 0 10000 (Some (LogBuf 64 [] None 0))) w' /\
        (Some (LogBuf 64 [] None 0) = None -> waiting w' 0 = []) /\
        (is_Some (Some (LogBuf 64 [] None 0)) -> exists w2, ngx_new_log_flush sample_zlib 0 w' = Ret w2 /\
           file_stream w2 0 = file_stream (running_world 0 10000 (Some (LogBuf 64 [] None 0))) 0 ++ line ++ [LF] /\
           waiting w2 0 = [] /\ w2.(w_sent) = w'.(w_sent))).
Proof.
  assert (Hb : buf_ok (Some (LogBuf 64 [] None 0))) by (cbn; change (zlen []) with 0; lia).
  apply (log_line_once sample_zlib sample_handler [] sample_request sample_clock sample_env
           (sample_log (Some 0%nat) (Some 0%nat) send_topicAndFile) 0 0
           (OpenFile (Some (LogBuf 64 [] None 0)) [])).
  - apply sample_fills.
  - apply sample_clock_ok.
  - by apply running_world_ok.
  - apply sample_format_ok.
  - split_and!; [reflexivity|reflexivity|by eexists].
  - cbn. lia.
  - reflexivity.
  - reflexivity.
  - reflexivity.
  - constructor.
  - vm_compute. discriminate.
  - reflexivity.
Defined.

Lemma two_topics_never_return_witness :
  no_oom (w_allocs (fresh_world None)) /\
  forall res, ngx_new_log_handler sample_zlib sample_handler [] sample_request sample_clock
    sample_env false [sample_log None None send_topic; sample_log None None send_topic] []
    (fresh_world None) <> Ret res.
Proof.
  split; [constructor|].
  apply (two_topics_never_return sample_zlib sample_handler [] sample_request sample_clock sample_env).
  - split_and!; [reflexivity|vm_compute; discriminate|by eexists].
  - split_and!; [reflexivity|vm_compute; discriminate|by eexists].
  - reflexivity.
  - constructor.
Defined.

(** A topic known not to exist is such an error. *)
Definition notexists_instance : rd_instance :=
  RdInstance (Producer (RdKafka 0 10000 4000000 false [])
                [sample_topic RD_KAFKA_TOPIC_S_NOTEXISTS 0] ∅ []) 0.

Definition notexists_world : world :=
  World (Some (notexists_instance, false)) (Some (lit "127.0.0.1:9092")) true [] [] [] [] [] [].

Lemma produce_error_is_final_witness :
  exists w1, rd_kafka_produce_random_copy_no_key 0 (lit "line") notexists_world = Ret w1 /\
    w1.(w_run) = false.
Proof.
  destruct (produce_error_is_final sample_zlib notexists_instance false 0 (lit "line") ENOENT
              notexists_instance notexists_world) as (w1 & E & H & _).
  - reflexivity.
  - reflexivity.
  - vm_compute. reflexivity.
  - discriminate.
  - eauto.
Defined.
