(* ===== verification/NewLogConf.v ===== *)
(** * Configuration of the access log ([ngx_new_log_module.c], directives)

    [new_log_format], [new_access_log], [new_open_log_file_cache] and
    [new_kafka_brokers], the creation and merging of configurations, and the
    initialisation at the end of the configuration; with the parts of the core
    they call ([ngx_conf_open_file], [ngx_conf_full_name],
    [ngx_http_script_variables_count]).  A fallible call takes its outcome
    from a list, as in [Prelude.alloc]. *)

From S2P Require Import Prelude NgxNumber NgxParse NgxCompare NgxVariables NewLogFormat KafkaApi NewLogHandler.

(** ** The configuration *)

(** [ngx_new_log_fmt_t]. *)
Record log_fmt := LogFmt {
  fmt_name : list Z;
  fmt_flushes : option (list Z);
  fmt_ops : list new_log_op;
}.

(** [ngx_new_log_t] while the configuration is read: the format is an index
    into the formats of the main configuration. [cl_kafka] is [None] while
    [topicName], [topic] and [opType] are uninitialised memory. *)
Record conf_log := ConfLog {
  cl_file : option nat;
  cl_script : bool;
  cl_format : nat;
  cl_kafka : option log_topic;
}.

(** [open_file_cache] of a location. *)
Inductive cache_conf :=
  | CacheUnset
  | CacheNull
  | CacheSet (max inactive : Z).

Record loc_conf := LocConf {
  lc_logs : option (list conf_log);
  lc_cache : cache_conf;
  lc_valid : Z;
  lc_min_uses : Z;
  lc_off : bool;
}.

(** The state of the configuration reader: the files of the cycle by name, the
    main configuration, the variables, [brokerList], and the outcomes of
    fallible calls to come. *)
Record conf_st := ConfSt {
  cs_prefix : list Z;
  cs_files : list (list Z);
  cs_formats : list log_fmt;
  cs_combined_used : bool;
  cs_vars : option (list http_variable);
  cs_brokerList : option (list Z);
  cs_calls : allocs;
}.

Definition cs_with_calls (c : conf_st) (a : allocs) : conf_st :=
  ConfSt c.(cs_prefix) c.(cs_files) c.(cs_formats) c.(cs_combined_used) c.(cs_vars)
    c.(cs_brokerList) a.

Definition cs_with_files (c : conf_st) (f : list (list Z)) : conf_st :=
  ConfSt c.(cs_prefix) f c.(cs_formats) c.(cs_combined_used) c.(cs_vars)
    c.(cs_brokerList) c.(cs_calls).

Definition cs_with_formats (c : conf_st) (f : list log_fmt) : conf_st :=
  ConfSt c.(cs_prefix) c.(cs_files) f c.(cs_combined_used) c.(cs_vars)
    c.(cs_brokerList) c.(cs_calls).

Definition cs_use_combined (c : conf_st) : conf_st :=
  ConfSt c.(cs_prefix) c.(cs_files) c.(cs_formats) true c.(cs_vars)
    c.(cs_brokerList) c.(cs_calls).

(** The next fallible call. *)
Definition call (c : conf_st) : bool * conf_st :=
  let (ok, a) := alloc c.(cs_calls) in (ok, cs_with_calls c a).

(** ** Files of the cycle *)

(** [ngx_conf_full_name] on Unix: a relative name is put after the prefix. *)
Definition ngx_conf_full_name (name : list Z) (c : conf_st) : option (list Z) * conf_st :=
  if hd 0 name =? chr "/" then (Some name, c)
  else
    let (ok, c) := call c in
    (if ok then Some (c.(cs_prefix) ++ name) else None, c).

Fixpoint find_file (name : list Z) (files : list (list Z)) (i : nat) : option nat :=
  match files with
  | [] => None
  | f :: files' =>
      if (zlen name =? zlen f) && (ngx_strcmp name f =? 0) then Some i
      else find_file name files' (S i)
  end.

(** [ngx_conf_open_file]: the index of the file, [None] for a null pointer. *)
Definition ngx_conf_open_file (name : list Z) (c : conf_st) : option nat * conf_st :=
  let push full c :=
    let (ok, c) := call c in
    if ok then (Some (length c.(cs_files)), cs_with_files c (c.(cs_files) ++ [full]))
    else (None, c) in
  match name with
  | [] => push [] c
  | _ =>
      let (full, c) := ngx_conf_full_name name c in
      match full with
      | None => (None, c)
      | Some full =>
          match find_file full c.(cs_files) 0 with
          | Some i => (Some i, c)
          | None => push full c
          end
      end
  end.

(** ** Creating and merging *)

(** [ngx_new_log_create_main_conf]: the format [combined], without operations
    yet. *)
Definition ngx_new_log_create_main_conf (c : conf_st) : option conf_st :=
  let (ok1, c) := call c in
  if negb ok1 then None
  else
    let (ok2, c) := call c in
    if negb ok2 then None
    else
      let (ok3, c) := call c in
      if negb ok3 then None
      else
        let (ok4, c) := call c in
        if negb ok4 then None
        else Some (ConfSt c.(cs_prefix) c.(cs_files) [LogFmt (lit "combined") None []] false
                     c.(cs_vars) c.(cs_brokerList) c.(cs_calls)).

Definition ngx_new_log_create_loc_conf (c : conf_st) : option loc_conf * conf_st :=
  let (ok, c) := call c in
  (if ok then Some (LocConf None CacheUnset 0 0 false) else None, c).

(** [NGX_HTTP_LOG_PATH] as the configure script sets it. *)
Definition ngx_http_access_log : list Z := lit "logs/access.log".

(** [ngx_new_log_merge_loc_conf]. The log pushed for the default is not
    cleared: its Kafka fields stay uninitialised. On [NGX_CONF_ERROR] the
    configuration ends, and what was pushed is not shown. *)
Definition ngx_new_log_merge_loc_conf (prev conf : loc_conf) (c : conf_st)
  : conf_result * loc_conf * conf_st :=
  let conf :=
    match conf.(lc_cache) with
    | CacheUnset =>
        LocConf conf.(lc_logs)
          (match prev.(lc_cache) with CacheUnset => CacheNull | x => x end)
          prev.(lc_valid) prev.(lc_min_uses) conf.(lc_off)
    | _ => conf
    end in
  let set (x : loc_conf) :=
    match x.(lc_logs) with Some _ => true | None => x.(lc_off) end in
  if set conf then (NGX_CONF_OK, conf, c)
  else
    let conf := LocConf prev.(lc_logs) conf.(lc_cache) conf.(lc_valid) conf.(lc_min_uses)
                  prev.(lc_off) in
    if set conf then (NGX_CONF_OK, conf, c)
    else
      let with_logs l := LocConf l conf.(lc_cache) conf.(lc_valid) conf.(lc_min_uses) conf.(lc_off) in
      let (ok1, c) := call c in
      if negb ok1 then (NGX_CONF_ERROR, conf, c)
      else
        let (ok2, c) := call c in
        if negb ok2 then (NGX_CONF_ERROR, with_logs (Some []), c)
        else
          let (file, c) := ngx_conf_open_file ngx_http_access_log c in
          match file with
          | None => (NGX_CONF_ERROR, conf, c)
          | Some i =>
              (NGX_CONF_OK, with_logs (Some [ConfLog (Some i) false 0 None]), cs_use_combined c)
          end.

(** ** [new_access_log] *)

Fixpoint ngx_http_script_variables_count (value : list Z) : Z :=
  match value with
  | [] => 0
  | ch :: value' =>
      (if ch =? chr "$" then 1 else 0) + ngx_http_script_variables_count value'
  end.

(** The search of a format by name, without regard to case. *)
Fixpoint find_format (name : list Z) (fmts : list log_fmt) (i : nat) : option nat :=
  match fmts with
  | [] => None
  | f :: fmts' =>
      if (zlen f.(fmt_name) =? zlen name) && (ngx_strcasecmp f.(fmt_name) name =? 0)
      then Some i else find_format name fmts' (S i)
  end.

(** The file or the script of a log to topic and file: [None] on an error. *)
Definition open_log_path (path : list Z) (c : conf_st) : option (option nat * bool) * conf_st :=
  if ngx_http_script_variables_count path =? 0 then
    let (file, c) := ngx_conf_open_file path c in
    (match file with Some i => Some (Some i, false) | None => None end, c)
  else
    let (full, c) := ngx_conf_full_name path c in
    match full with
    | None => (None, c)
    | Some _ =>
        let (ok, c) := call c in
        if negb ok then (None, c)
        else
          (* ngx_http_script_compile *)
          let (ok, c) := call c in
          (if ok then Some (None, true) else None, c)
    end.

(** [ngx_new_log_set_log] on the arguments of the directive, its name
    included. The log pushed for a directive that fails is not shown, as the
    error ends the configuration. *)
Definition ngx_new_log_set_log (value : list (list Z)) (llcf : loc_conf) (c : conf_st)
  : conf_result * loc_conf * conf_st :=
  let with_logs l := LocConf l llcf.(lc_cache) llcf.(lc_valid) llcf.(lc_min_uses) llcf.(lc_off) in
  if ngx_strcmp (nth 1 value []) (lit "off") =? 0 then
    let llcf := LocConf llcf.(lc_logs) llcf.(lc_cache) llcf.(lc_valid) llcf.(lc_min_uses) true in
    (if zlen value =? 2 then NGX_CONF_OK else NGX_CONF_ERROR, llcf, c)
  else
    let (logs, c) :=
      match llcf.(lc_logs) with
      | Some l => (Some l, c)
      | None => let (ok, c) := call c in (if ok then Some [] else None, c)
      end in
    match logs with
    | None => (NGX_CONF_ERROR, llcf, c)
    | Some logs =>
        let (ok, c) := call c in
        if negb ok then (NGX_CONF_ERROR, llcf, c)
        else
          let op := if zlen value =? 3 then Some send_topic
                    else if zlen value =? 4 then Some send_topicAndFile else None in
          match op with
          | None => (NGX_CONF_ERROR, llcf, c)
          | Some op =>
              let (dest, c) :=
                match op with
                | send_topicAndFile => open_log_path (nth 2 value []) c
                | send_topic => (Some (None, false), c)
                end in
              match dest with
              | None => (NGX_CONF_ERROR, llcf, c)
              | Some (file, script) =>
                  let name := match op with
                              | send_topicAndFile => nth 3 value []
                              | send_topic => nth 2 value []
                              end in
                  let c := if ngx_strcmp name (lit "combined") =? 0
                           then cs_use_combined c else c in
                  match find_format name c.(cs_formats) 0 with
                  | None => (NGX_CONF_ERROR, llcf, c)
                  | Some i =>
                      (NGX_CONF_OK,
                       with_logs (Some (logs ++
                         [ConfLog file script i
                            (Some (LogTopic (nth 1 value []) None op))])), c)
                  end
              end
          end
    end.

(** [new_kafka_brokers]: the first list given is the one used. The C code does
    not test its [malloc], which is taken to succeed. *)
Definition new_kafka_brokers (value : list (list Z)) (c : conf_st) : conf_result * conf_st :=
  match c.(cs_brokerList) with
  | Some _ => (NGX_CONF_OK, c)
  | None =>
      (NGX_CONF_OK,
       ConfSt c.(cs_prefix) c.(cs_files) c.(cs_formats) c.(cs_combined_used) c.(cs_vars)
         (Some (nth 1 value [])) c.(cs_calls))
  end.

(** ** [new_log_format] *)

Fixpoint has_format (name : list Z) (fmts : list log_fmt) : bool :=
  match fmts with
  | [] => false
  | f :: fmts' =>
      ((zlen f.(fmt_name) =? zlen name) && (ngx_strcmp f.(fmt_name) name =? 0))
      || has_format name fmts'
  end.

(** Compile into a format: the result, the operations, the flushes and the state.
    [None] when the compiler meets what the C code does not define. *)
Definition compile_into (args : list (list Z)) (flushes : option (list Z))
    (ops : list new_log_op) (c : conf_st)
  : option (conf_result * option (list Z) * list new_log_op * conf_st) :=
  match ngx_new_log_compile_format args (CompileState ops flushes c.(cs_vars) c.(cs_calls)) with
  | None => None
  | Some (res, st) =>
      Some (res, st.(c_flushes), st.(c_ops),
            ConfSt c.(cs_prefix) c.(cs_files) c.(cs_formats) c.(cs_combined_used)
              st.(c_vars) c.(cs_brokerList) st.(c_allocs))
  end.

(** [ngx_new_log_set_format]; the warning about the level is left out. *)
Definition ngx_new_log_set_format (value : list (list Z)) (c : conf_st)
  : option (conf_result * conf_st) :=
  let name := nth 1 value [] in
  if has_format name c.(cs_formats) then Some (NGX_CONF_ERROR, c)
  else
    let (ok1, c) := call c in
    if negb ok1 then Some (NGX_CONF_ERROR, c)
    else
      let (ok2, c) := call c in
      if negb ok2 then Some (NGX_CONF_ERROR, c)
      else
        let (ok3, c) := call c in
        if negb ok3 then Some (NGX_CONF_ERROR, c)
        else
          match compile_into (drop 2 value) (Some []) [] c with
          | None => None
          | Some (res, flushes, ops, c) =>
              Some (res, cs_with_formats c (c.(cs_formats) ++ [LogFmt name flushes ops]))
          end.

(** ** [new_open_log_file_cache] *)

(** One parameter: [max], [inactive], [min_uses], [valid] and the cache so
    far; [None] for an invalid parameter. [after] is the byte after the
    argument. *)
Definition cache_param (after : Z) (value : list Z) (s : Z * Z * Z * Z * cache_conf)
  : option (Z * Z * Z * Z * cache_conf) :=
  let '(max, inactive, min_uses, valid, cache) := s in
  if ngx_strncmp value (lit "max=") 4 =? 0 then
    let max := ngx_atoi (drop 4 value) in
    if max =? NGX_ERROR then None else Some (max, inactive, min_uses, valid, cache)
  else if ngx_strncmp value (lit "inactive=") 9 =? 0 then
    let inactive := ngx_parse_time (drop 9 value) true after in
    if inactive =? NGX_ERROR then None else Some (max, inactive, min_uses, valid, cache)
  else if ngx_strncmp value (lit "min_uses=") 9 =? 0 then
    let min_uses := ngx_atoi (drop 9 value) in
    if min_uses =? NGX_ERROR then None else Some (max, inactive, min_uses, valid, cache)
  else if ngx_strncmp value (lit "valid=") 6 =? 0 then
    let valid := ngx_parse_time (drop 6 value) true after in
    if valid =? NGX_ERROR then None else Some (max, inactive, min_uses, valid, cache)
  else if ngx_strcmp value (lit "off") =? 0 then
    Some (max, inactive, min_uses, valid, CacheNull)
  else None.

Fixpoint cache_params (after : Z) (values : list (list Z)) (s : Z * Z * Z * Z * cache_conf)
  : option (Z * Z * Z * Z * cache_conf) :=
  match values with
  | [] => Some s
  | v :: values' =>
      match cache_param after v s with
      | Some s => cache_params after values' s
      | None => None
      end
  end.

(** [ngx_new_log_open_file_cache]. As for the other directives, an error ends
    the configuration, and what it leaves of the location is not shown. *)
Definition ngx_new_log_open_file_cache (after : Z) (value : list (list Z)) (llcf : loc_conf)
    (c : conf_st) : conf_result * loc_conf * conf_st :=
  match llcf.(lc_cache) with
  | CacheUnset =>
      match cache_params after (drop 1 value) (0, 10, 1, 60, CacheUnset) with
      | None => (NGX_CONF_ERROR, llcf, c)
      | Some (max, inactive, min_uses, valid, cache) =>
          let set cache valid min_uses :=
            LocConf llcf.(lc_logs) cache valid min_uses llcf.(lc_off) in
          match cache with
          | CacheNull => (NGX_CONF_OK, set CacheNull llcf.(lc_valid) llcf.(lc_min_uses), c)
          | _ =>
              if max =? 0 then (NGX_CONF_ERROR, llcf, c)
              else
                (* ngx_open_file_cache_init *)
                let (ok, c) := call c in
                if ok then (NGX_CONF_OK, set (CacheSet max inactive) valid min_uses, c)
                else (NGX_CONF_ERROR, set CacheNull llcf.(lc_valid) llcf.(lc_min_uses), c)
          end
      end
  | _ => (NGX_CONF_ERROR, llcf, c)
  end.

(** ** The end of the configuration *)

(** The quotes of the format are written by their code, 34. *)
Definition ngx_http_combined_fmt : list Z :=
  lit "$remote_addr - $remote_user [$time_local] " ++ [34] ++ lit "$request" ++ [34] ++
  lit " $status $body_bytes_sent " ++ [34] ++ lit "$http_referer" ++ [34] ++
  lit " " ++ [34] ++ lit "$http_user_agent" ++ [34].

(** [ngx_new_log_init]: [NGX_OK] or [NGX_ERROR], and the state. *)
Definition ngx_new_log_init (c : conf_st) : option (Z * conf_st) :=
  let push_handler c := let (ok, c) := call c in Some (if ok : bool then NGX_OK else NGX_ERROR, c) in
  match c.(cs_brokerList) with
  | None => Some (NGX_ERROR, c)
  | Some _ =>
      if c.(cs_combined_used) then
        let (ok, c) := call c in
        if negb ok then Some (NGX_ERROR, c)
        else
          match c.(cs_formats) with
          | [] => None
          | f :: fmts =>
              match compile_into [ngx_http_combined_fmt] None f.(fmt_ops) c with
              | None => None
              | Some (res, _, ops, c) =>
                  let c := cs_with_formats c (LogFmt f.(fmt_name) f.(fmt_flushes) ops :: fmts) in
                  match res with
                  | NGX_CONF_OK => push_handler c
                  | NGX_CONF_ERROR => Some (NGX_ERROR, c)
                  end
              end
          end
      else push_handler c
  end.

(** The log as the request handler sees it. *)
Definition run_log (c : conf_st) (l : conf_log) : option new_log :=
  match c.(cs_formats) !! l.(cl_format) with
  | Some f =>
      Some (NewLog l.(cl_file) l.(cl_script) 0 0 f.(fmt_flushes) f.(fmt_ops) l.(cl_kafka))
  | None => None
  end.

(** ** What the directives promise *)

(** The variables a format may name. *)
Definition cs_nvars (c : conf_st) : nat := length (default [] c.(cs_vars)).

(** The configuration so far: compiled formats, the first of them [combined]. *)
Record conf_ok (c : conf_st) : Prop := ConfOk {
  co_combined : exists f fs, c.(cs_formats) = f :: fs /\ f.(fmt_name) = lit "combined";
  co_formats : Forall (fun f => Forall (wf_op (cs_nvars c)) f.(fmt_ops)) c.(cs_formats);
}.

(** A log of a location: its format and file exist, and it is a log the
    handler can run. *)
Definition conf_log_ok (c : conf_st) (l : conf_log) : Prop :=
  (l.(cl_format) < length c.(cs_formats))%nat /\
  (forall i, l.(cl_file) = Some i -> (i < length c.(cs_files))%nat) /\
  exists kf, l.(cl_kafka) = Some kf /\ kf.(topic_) = None /\
    (kf.(opType) = send_topicAndFile -> l.(cl_script) = true \/ is_Some l.(cl_file)).

(** Later directives only add formats and files. *)
Definition conf_le (c c' : conf_st) : Prop :=
  (length c.(cs_formats) <= length c'.(cs_formats))%nat /\
  (length c.(cs_files) <= length c'.(cs_files))%nat.

Lemma conf_log_ok_le c c' l : conf_le c c' -> conf_log_ok c l -> conf_log_ok c' l.
Proof.
  intros [H1 H2] (A & B & C). split_and!; [lia| |done]. intros i Hi. apply B in Hi. lia.
Qed.

Lemma call_same c : (call c).2.(cs_formats) = c.(cs_formats) /\
  (call c).2.(cs_files) = c.(cs_files) /\ (call c).2.(cs_vars) = c.(cs_vars) /\
  (call c).2.(cs_combined_used) = c.(cs_combined_used) /\
  (call c).2.(cs_brokerList) = c.(cs_brokerList).
Proof. unfold call. by destruct (alloc _). Qed.

(** Step over a fallible call in a hypothesis or the goal. *)
Ltac step_call :=
  match goal with
  | H : context [call ?c] |- _ =>
      let S := fresh "S" in let ok := fresh "ok" in let c' := fresh "c" in
      pose proof (call_same c) as S; destruct (call c) as [ok c']; cbn [fst snd] in S;
      let Sa := fresh "Sfmt" in let Sb := fresh "Sfil" in
      let Sc := fresh "Svar" in let Sd := fresh "Suse" in let Se := fresh "Sbrk" in
      destruct S as (Sa & Sb & Sc & Sd & Se); destruct ok; cbn [negb] in H
  end.

Lemma open_file_ok name c i c' :
  ngx_conf_open_file name c = (i, c') ->
  c'.(cs_formats) = c.(cs_formats) /\ c'.(cs_vars) = c.(cs_vars) /\
  c'.(cs_combined_used) = c.(cs_combined_used) /\ c'.(cs_brokerList) = c.(cs_brokerList) /\
  (length c.(cs_files) <= length c'.(cs_files))%nat /\
  (forall j, i = Some j -> (j < length c'.(cs_files))%nat).
Proof.
  assert (Hfind : forall full files k j, find_file full files k = Some j ->
    (k <= j < k + length files)%nat).
  { intros full files. induction files as [|f files IH]; cbn; intros k j; [done|].
    destruct (_ && _); [intros [= <-]; lia|]. intros H%IH. lia. }
  assert (Hpush : forall full c i c',
    (let (ok, c) := call c in
     if ok then (Some (length c.(cs_files)), cs_with_files c (c.(cs_files) ++ [full]))
     else (None, c)) = (i, c') ->
    c'.(cs_formats) = c.(cs_formats) /\ c'.(cs_vars) = c.(cs_vars) /\
    c'.(cs_combined_used) = c.(cs_combined_used) /\ c'.(cs_brokerList) = c.(cs_brokerList) /\
    (length c.(cs_files) <= length c'.(cs_files))%nat /\
    (forall j, i = Some j -> (j < length c'.(cs_files))%nat)).
  { intros full c0 i0 c0' H. step_call; injection H as <- <-; cbn; split_and!; try congruence.
    - rewrite length_app, Sfil. cbn. lia.
    - intros j [= <-]. rewrite length_app. cbn. lia.
    - by rewrite Sfil. }
  unfold ngx_conf_open_file. destruct name as [|ch name]; [apply Hpush|].
  unfold ngx_conf_full_name. intros H. destruct (hd 0 (ch :: name) =? chr "/").
  - destruct (find_file (ch :: name) (cs_files c) 0) as [j|] eqn:E; [|by apply Hpush in H].
    injection H as <- <-. apply Hfind in E. split_and!; auto. intros k [= <-]. lia.
  - step_call; [|injection H as <- <-; split_and!; try congruence; by rewrite Sfil].
    destruct (find_file _ (cs_files c0) 0) as [j|] eqn:E.
    + injection H as <- <-. apply Hfind in E. split_and!; try congruence; [by rewrite Sfil|].
      intros k [= <-]. lia.
    + apply Hpush in H as (A & B & C & D & F & G). rewrite A, B, C, D. split_and!; try congruence.
      all: rewrite <- ?Sfil; done.
Qed.

(** ** A configuration file *)

(** The directives of the module in one location, with their arguments. *)
Inductive directive :=
  | DFormat (value : list (list Z))
  | DLog (value : list (list Z))
  | DBrokers (value : list (list Z))
  | DCache (value : list (list Z)).

Definition conf_directive (d : directive) (llcf : loc_conf) (c : conf_st)
  : option (conf_result * loc_conf * conf_st) :=
  match d with
  | DFormat value =>
      match ngx_new_log_set_format value c with
      | Some (res, c) => Some (res, llcf, c)
      | None => None
      end
  | DLog value => Some (ngx_new_log_set_log value llcf c)
  | DBrokers value => let (res, c) := new_kafka_brokers value c in Some (res, llcf, c)
  | DCache value => Some (ngx_new_log_open_file_cache 0 value llcf c)
  end.

(** The directives in order, up to the first error. *)
Fixpoint conf_run (ds : list directive) (llcf : loc_conf) (c : conf_st)
  : option (conf_result * loc_conf * conf_st) :=
  match ds with
  | [] => Some (NGX_CONF_OK, llcf, c)
  | d :: ds' =>
      match conf_directive d llcf c with
      | Some (NGX_CONF_OK, llcf, c) => conf_run ds' llcf c
      | res => res
      end
  end.

Definition directive_ok (d : directive) : Prop :=
  match d with DFormat value => Forall (fun v => bytes v) value | _ => True end.

Definition loc_ok (llcf : loc_conf) (c : conf_st) : Prop :=
  Forall (conf_log_ok c) (default [] llcf.(lc_logs)).

(** A state with the same formats and variables. *)
Lemma conf_ok_same c c' :
  c'.(cs_formats) = c.(cs_formats) -> c'.(cs_vars) = c.(cs_vars) -> conf_ok c -> conf_ok c'.
Proof. intros E1 E2 [A B]. constructor; unfold cs_nvars in *; rewrite E1, ?E2; done. Qed.

Lemma loc_ok_le llcf llcf' c c' :
  llcf'.(lc_logs) = llcf.(lc_logs) -> conf_le c c' -> loc_ok llcf c -> loc_ok llcf' c'.
Proof.
  intros E H. unfold loc_ok. rewrite E. intros Hl. eapply Forall_impl; [exact Hl|].
  intros l. by apply conf_log_ok_le.
Qed.

Lemma compile_into_ok args fl ops c :
  Forall (fun v => bytes v) args -> conf_ok c -> Forall (wf_op (cs_nvars c)) ops ->
  exists res fl' ops' c', compile_into args fl ops c = Some (res, fl', ops', c') /\ conf_ok c' /\
    Forall (wf_op (cs_nvars c')) ops' /\ c'.(cs_formats) = c.(cs_formats) /\
    c'.(cs_files) = c.(cs_files) /\ c'.(cs_brokerList) = c.(cs_brokerList).
Proof.
  intros Ha [Hc Hf] Ho. unfold compile_into.
  destruct (compile_format_ok args (CompileState ops fl c.(cs_vars) c.(cs_calls)) Ha)
    as (res & st & -> & Hwf & Hn).
  do 4 eexists. split; [done|]. unfold nvars in Hn. cbn in Hn. split_and!; [|by apply Hwf|done..].
  constructor; [done|]. cbn. eapply Forall_impl; [exact Hf|]. intros f Hfo.
  eapply Forall_impl; [exact Hfo|]. intros op. by apply wf_op_mono.
Qed.

(** A step of the configuration keeps what was configured. *)
Definition conf_keeps (c c' : conf_st) : Prop :=
  conf_ok c' /\ conf_le c c' /\ (is_Some c.(cs_brokerList) -> is_Some c'.(cs_brokerList)).

Lemma keeps_same c c' :
  conf_ok c -> c'.(cs_formats) = c.(cs_formats) -> c'.(cs_vars) = c.(cs_vars) ->
  (length c.(cs_files) <= length c'.(cs_files))%nat ->
  c'.(cs_brokerList) = c.(cs_brokerList) -> conf_keeps c c'.
Proof.
  intros Hc E1 E2 E3 E4. split_and!; [by eapply conf_ok_same| |by rewrite E4].
  split; [by rewrite E1|done].
Qed.

Lemma keeps_call c ok c' : conf_ok c -> call c = (ok, c') -> conf_keeps c c'.
Proof.
  intros Hc E. destruct (call_same c) as (A1 & A2 & A3 & _ & A4). rewrite E in *. cbn in *.
  apply keeps_same; auto. by rewrite A2.
Qed.

Lemma keeps_refl c : conf_ok c -> conf_keeps c c.
Proof. intros Hc. by apply keeps_same. Qed.

Lemma keeps_trans c1 c2 c3 : conf_keeps c1 c2 -> conf_keeps c2 c3 -> conf_keeps c1 c3.
Proof. intros (A & [B1 B2] & C) (D & [E1 E2] & F). split_and!; [done|split; lia|auto]. Qed.

Lemma keeps_use c : conf_ok c -> conf_keeps c (cs_use_combined c).
Proof. intros. by apply keeps_same. Qed.

Lemma keeps_open_file name c i c' :
  conf_ok c -> ngx_conf_open_file name c = (i, c') ->
  conf_keeps c c' /\ forall j, i = Some j -> (j < length c'.(cs_files))%nat.
Proof.
  intros Hc (A & B & _ & C & D & E)%open_file_ok. split; [by apply keeps_same|done].
Qed.

Lemma keeps_full_name name c full c' :
  conf_ok c -> ngx_conf_full_name name c = (full, c') -> conf_keeps c c'.
Proof.
  intros Hc. unfold ngx_conf_full_name. destruct (_ =? _); [intros [= _ <-]; by apply keeps_refl|].
  destruct (call c) as [ok c1] eqn:E. intros [= _ <-]. by eapply keeps_call.
Qed.

(** Case analysis of the next fallible call of the goal, on the way from a sound
    state: in the failing branch the goal is closed. *)
Ltac keep_call Hk :=
  match type of Hk with
  | conf_keeps ?c0 ?c =>
      let E := fresh "E" in let ok := fresh "ok" in let c' := fresh "c" in
      let Hk' := fresh "K" in
      destruct (call c) as [ok c'] eqn:E;
      pose proof (keeps_trans _ _ _ Hk (keeps_call _ _ _ (proj1 Hk) E)) as Hk';
      destruct ok; cbn [negb]
  end.

Lemma set_format_ok value c :
  Forall (fun v => bytes v) value -> conf_ok c ->
  exists res c', ngx_new_log_set_format value c = Some (res, c') /\ conf_keeps c c'.
Proof.
  intros Hv Hc. unfold ngx_new_log_set_format. pose proof (keeps_refl c Hc) as K0.
  destruct (has_format _ _); [eauto|].
  keep_call K0; [|eauto]. keep_call K; [|eauto]. keep_call K1; [|eauto].
  destruct (compile_into_ok (drop 2 value) (Some []) [] c2) as
    (res & fl & ops & c4 & -> & [Hco Hfo] & Ho & E3 & E4 & E5); [by apply Forall_drop|apply K2|done|].
  do 2 eexists. split; [done|]. apply (keeps_trans _ _ _ K2). split_and!.
  - constructor; cbn.
    + destruct Hco as (f & fs & -> & Hn). by exists f, (fs ++ [LogFmt (nth 1 value []) fl ops]).
    + apply Forall_app. split; [done|]. by apply Forall_singleton.
  - split; cbn; rewrite ?length_app, ?E3, ?E4; lia.
  - cbn. by rewrite E5.
Qed.

Lemma open_log_path_ok path c dest c' :
  conf_ok c -> open_log_path path c = (dest, c') ->
  conf_keeps c c' /\ forall file script, dest = Some (file, script) ->
    (script = true \/ is_Some file) /\ forall i, file = Some i -> (i < length c'.(cs_files))%nat.
Proof.
  intros Hc. unfold open_log_path. destruct (_ =? 0).
  - destruct (ngx_conf_open_file path c) as [file c1] eqn:E.
    apply keeps_open_file in E as [K H]; [|done]. intros [= <- <-]. split; [done|].
    intros f s. destruct file as [i|]; [|done]. intros [= <- <-].
    split; [right; eauto|]. intros j [= <-]. auto.
  - destruct (ngx_conf_full_name path c) as [full c1] eqn:E.
    apply keeps_full_name in E as K; [|done].
    destruct full as [full|]; [|by intros [= <- <-]].
    keep_call K; [|by intros [= <- <-]]. keep_call K0; [|by intros [= <- <-]].
    intros [= <- <-]. split; [done|]. intros f s [= <- <-]. split; [by left|done].
Qed.

Lemma find_format_lt name fmts k i :
  find_format name fmts k = Some i -> (k <= i < k + length fmts)%nat.
Proof.
  revert k. induction fmts as [|f fmts IH]; cbn; intros k; [done|].
  destruct (_ && _); [intros [= <-]; lia|]. intros H%IH. lia.
Qed.

(** The last steps of [new_access_log]: the log has its file and its format. *)
Lemma loc_ok_push llcf logs l c :
  Forall (conf_log_ok c) logs -> conf_log_ok c l -> llcf.(lc_logs) = Some (logs ++ [l]) ->
  loc_ok llcf c.
Proof.
  intros H1 H2 E. unfold loc_ok. rewrite E. apply Forall_app. split; [done|].
  by apply Forall_singleton.
Qed.

(** A log of a location that was sound stays so. *)
Lemma loc_ok_keeps llcf llcf' c c' :
  llcf'.(lc_logs) = llcf.(lc_logs) -> conf_keeps c c' -> loc_ok llcf c -> loc_ok llcf' c'.
Proof. intros E (_ & H & _). by apply loc_ok_le. Qed.

Lemma set_log_ok value llcf c res llcf' c' :
  conf_ok c -> loc_ok llcf c -> ngx_new_log_set_log value llcf c = (res, llcf', c') ->
  conf_keeps c c' /\ loc_ok llcf' c'.
Proof.
  intros Hc Hl. unfold ngx_new_log_set_log. pose proof (keeps_refl c Hc) as K0.
  assert (Hstop : forall c1, conf_keeps c c1 -> (NGX_CONF_ERROR, llcf, c1) = (res, llcf', c') ->
    conf_keeps c c' /\ loc_ok llcf' c').
  { intros c1 K [= _ <- <-]. split; [done|]. by eapply loc_ok_keeps. }
  destruct (_ =? 0).
  { intros [= _ <- <-]. split; [done|]. by eapply loc_ok_keeps. }
  destruct (match lc_logs llcf with Some l => _ | None => _ end) as [logs c1] eqn:E1.
  assert (K1 : conf_keeps c c1).
  { destruct (lc_logs llcf); [by injection E1 as <- <-|].
    keep_call K0; injection E1 as <- <-; done. }
  destruct logs as [logs|]; [|by apply Hstop].
  assert (Hlogs : Forall (conf_log_ok c) logs).
  { unfold loc_ok in Hl. destruct (lc_logs llcf); [injection E1 as <- _; exact Hl|].
    destruct (call c) as [[] ?]; [injection E1 as <- _; constructor|done]. }
  keep_call K1; [|by apply Hstop].
  destruct (if zlen value =? 3 then _ else _) as [op|]; [|by apply Hstop].
  destruct (match op with send_topic => _ | send_topicAndFile => _ end) as [dest c2] eqn:E2.
  assert (H2 : conf_keeps c c2 /\ forall file script, dest = Some (file, script) ->
    (op = send_topicAndFile -> script = true \/ is_Some file) /\
    forall i, file = Some i -> (i < length c2.(cs_files))%nat).
  { destruct op.
    - injection E2 as <- <-. split; [done|]. by intros file script [= <- <-].
    - apply open_log_path_ok in E2 as [K2 H2]; [|apply K]. split; [by eapply keeps_trans|].
      intros file script Hd. destruct (H2 _ _ Hd). auto. }
  destruct H2 as [K2 H2], dest as [[file script]|]; [|by apply Hstop].
  destruct (H2 _ _ eq_refl) as [H3 H4]. set (c3 := if _ =? 0 then _ else c2).
  assert (K3 : conf_keeps c c3 /\ cs_files c3 = cs_files c2).
  { subst c3. destruct (_ =? 0); [|done]. split; [|done].
    apply (keeps_trans _ _ _ K2), keeps_use, K2. }
  destruct K3 as [K3 F3], (find_format _ _ 0) as [i|] eqn:Ei; [|by apply Hstop].
  apply find_format_lt in Ei. intros [= _ <- <-]. split; [done|]. eapply loc_ok_push; [| |done].
  - eapply Forall_impl; [exact Hlogs|]. intros l. apply conf_log_ok_le, K3.
  - split_and!; cbn; [lia|by rewrite F3|]. eexists. split_and!; [done..|exact H3].
Qed.

Lemma open_file_cache_ok after value llcf c res llcf' c' :
  conf_ok c -> loc_ok llcf c ->
  ngx_new_log_open_file_cache after value llcf c = (res, llcf', c') ->
  conf_keeps c c' /\ loc_ok llcf' c'.
Proof.
  intros Hc Hl. unfold ngx_new_log_open_file_cache. pose proof (keeps_refl c Hc) as K0.
  assert (Hstop : forall r l1 c1, l1.(lc_logs) = llcf.(lc_logs) -> conf_keeps c c1 ->
    (r, l1, c1) = (res, llcf', c') -> conf_keeps c c' /\ loc_ok llcf' c').
  { intros r l1 c1 E K [= _ <- <-]. split; [done|]. by eapply loc_ok_keeps. }
  destruct (lc_cache llcf); [|by apply Hstop..].
  destruct (cache_params _ _ _) as [[[[[max inactive] min_uses] valid] cache]|]; [|by apply Hstop].
  assert (Hend : forall l1 l2, l1.(lc_logs) = llcf.(lc_logs) -> l2.(lc_logs) = llcf.(lc_logs) ->
    (if max =? 0 then (NGX_CONF_ERROR, llcf, c)
     else let (ok, c) := call c in
          if ok : bool then (NGX_CONF_OK, l1, c) else (NGX_CONF_ERROR, l2, c)) = (res, llcf', c') ->
    conf_keeps c c' /\ loc_ok llcf' c').
  { intros l1 l2 H1 H2. destruct (max =? 0); [by apply Hstop|]. keep_call K0; by apply Hstop. }
  destruct cache; [by apply Hend|by apply Hstop|by apply Hend].
Qed.

Lemma conf_directive_ok d llcf c :
  directive_ok d -> conf_ok c -> loc_ok llcf c ->
  exists res l1 c1, conf_directive d llcf c = Some (res, l1, c1) /\ conf_keeps c c1 /\ loc_ok l1 c1.
Proof.
  intros Hd Hc Hl. destruct d as [value|value|value|value]; cbn.
  - destruct (set_format_ok value c Hd Hc) as (res & c1 & -> & K).
    exists res, llcf, c1. split_and!; [done..|]. by eapply loc_ok_keeps.
  - destruct (ngx_new_log_set_log value llcf c) as [[res l1] c1] eqn:E.
    exists res, l1, c1. split; [done|]. by eapply set_log_ok.
  - unfold new_kafka_brokers. destruct (cs_brokerList c) eqn:E.
    + exists NGX_CONF_OK, llcf, c. split_and!; [done|by apply keeps_refl|done].
    + eexists _, _, _. split_and!; [done| |by eapply loc_ok_le; [| |exact Hl]].
      split_and!; [by eapply (conf_ok_same c)|by split|by eexists].
  - destruct (ngx_new_log_open_file_cache 0 value llcf c) as [[res l1] c1] eqn:E.
    exists res, l1, c1. split; [done|]. by eapply open_file_cache_ok.
Qed.

Lemma conf_run_ok ds llcf c :
  Forall directive_ok ds -> conf_ok c -> loc_ok llcf c ->
  exists res llcf' c', conf_run ds llcf c = Some (res, llcf', c') /\
    conf_keeps c c' /\ loc_ok llcf' c'.
Proof.
  intros Hds. revert llcf c. induction Hds as [|d ds Hd Hds IH]; intros llcf c Hc Hl.
  { exists NGX_CONF_OK, llcf, c. split_and!; [done|by apply keeps_refl|done]. }
  cbn [conf_run].
  destruct (conf_directive_ok d llcf c Hd Hc Hl) as (res & l1 & c1 & -> & K & Hl1). destruct res.
  - destruct (IH l1 c1 (proj1 K) Hl1) as (res & l2 & c2 & -> & K2 & Hl2).
    exists res, l2, c2. split_and!; [done|by eapply keeps_trans|done].
  - exists NGX_CONF_ERROR, l1, c1. split_and!; done.
Qed.

Lemma create_main_ok c c' :
  ngx_new_log_create_main_conf c = Some c' -> conf_ok c'.
Proof.
  unfold ngx_new_log_create_main_conf. intros H. do 4 (step_call; [|done]).
  injection H as <-. constructor; cbn; [eauto|]. by apply Forall_singleton.
Qed.

Lemma combined_fmt_bytes : bytes ngx_http_combined_fmt.
Proof. vm_compute. repeat constructor; discriminate. Qed.

(** The end of the configuration gives the formats their operations. *)
Lemma conf_init_ok c :
  conf_ok c ->
  exists rc c', ngx_new_log_init c = Some (rc, c') /\ conf_keeps c c' /\
    (rc = NGX_OK -> is_Some c'.(cs_brokerList)).
Proof.
  intros Hc. unfold ngx_new_log_init. pose proof (keeps_refl c Hc) as K0.
  destruct (cs_brokerList c) as [b|] eqn:Eb; [|by exists NGX_ERROR, c].
  assert (Hb : forall c', conf_keeps c c' -> is_Some c'.(cs_brokerList))
    by (intros c' (_ & _ & H); apply H; rewrite Eb; eauto).
  assert (Hpush : forall c1, conf_keeps c c1 -> exists rc c',
    (let (ok, c) := call c1 in Some (if ok : bool then NGX_OK else NGX_ERROR, c)) = Some (rc, c') /\
    conf_keeps c c' /\ (rc = NGX_OK -> is_Some c'.(cs_brokerList))).
  { intros c1 K1. keep_call K1; (do 2 eexists; split_and!; [done..|]); intros; by apply Hb. }
  destruct (cs_combined_used c); [|by apply Hpush].
  keep_call K0; [|do 2 eexists; split_and!; [done..|]; done].
  pose proof K as ([(f & fs & Ef & Hn) Hfo] & _ & _). rewrite Ef in *. apply Forall_cons in Hfo as [Hf1 _].
  destruct (compile_into_ok [ngx_http_combined_fmt] None f.(fmt_ops) c0) as
    (res & fl & ops & c2 & -> & [Hco2 Hfo2] & Ho & E3 & E4 & E5);
    [apply Forall_singleton, combined_fmt_bytes|apply K|done|].
  set (c3 := cs_with_formats c2 _).
  assert (K3 : conf_keeps c c3).
  { apply (keeps_trans _ _ _ K). rewrite E3, Ef in Hfo2. apply Forall_cons in Hfo2 as [_ Hfo2].
    split_and!; [|split; cbn|cbn; by rewrite E5].
    - constructor; cbn; [eauto|]. by constructor.
    - by rewrite Ef.
    - by rewrite E4. }
  destruct res; [by apply Hpush|]. exists NGX_ERROR, c3. split_and!; [done..|]. intros; by apply Hb.
Qed.

(** What a log of the configuration is at run time. *)
Definition ready_log (c : conf_st) (nl : new_log) : Prop :=
  log_set (length c.(cs_files)) nl /\ missing nl = 1%nat /\
  l_disk_full_time nl = 0 /\ Forall (wf_op (cs_nvars c)) nl.(l_ops) .

Lemma run_log_ready c l :
  conf_ok c -> conf_log_ok c l -> exists nl, run_log c l = Some nl /\ ready_log c nl.
Proof.
  intros [_ Hf] (A & B & kf & Ek & Et & Ho). unfold run_log.
  apply lookup_lt_is_Some in A as [f Ef]. rewrite Ef. eexists. split; [done|].
  split_and!; cbn; [|destruct kf; cbn in *; by rewrite Ek, Et|done|].
  - split; [eauto|done].
  - rewrite Forall_lookup in Hf. by eapply Hf.
Qed.

Lemma run_logs_ready c ls :
  conf_ok c -> Forall (conf_log_ok c) ls ->
  exists nls, mapM (run_log c) ls = Some nls /\ Forall (ready_log c) nls.
Proof.
  intros Hc Hls. induction Hls as [|x ls Hx Hls (nls & E & IH)]; [by exists []|].
  destruct (run_log_ready c x Hc Hx) as (nl & E1 & H1). exists (nl :: nls).
  cbn. rewrite E1. cbn. rewrite E. cbn. split; [done|by constructor].
Qed.

(** A location read and its server initialised. *)
Lemma configuration_ok ds c0 c1 llcf0 c2 :
  Forall directive_ok ds -> ngx_new_log_create_main_conf c0 = Some c1 ->
  ngx_new_log_create_loc_conf c1 = (Some llcf0, c2) ->
  exists res llcf c3 rc c4, conf_run ds llcf0 c2 = Some (res, llcf, c3) /\
    ngx_new_log_init c3 = Some (rc, c4) /\ (rc = NGX_OK -> is_Some c4.(cs_brokerList)) /\
    exists nls, mapM (run_log c4) (default [] llcf.(lc_logs)) = Some nls /\
      Forall (ready_log c4) nls.
Proof.
  intros Hds Hm%create_main_ok Hl. unfold ngx_new_log_create_loc_conf in Hl.
  destruct (call c1) as [ok c1'] eqn:Ec. destruct ok; [|done]. injection Hl as <- <-.
  apply keeps_call in Ec as K; [|done].
  destruct (conf_run_ok ds (LocConf None CacheUnset 0 0 false) c1' Hds (proj1 K)) as
    (res & llcf & c3 & E & K3 & Hl3); [constructor|].
  destruct (conf_init_ok c3 (proj1 K3)) as (rc & c4 & E4 & K4 & Hb).
  exists res, llcf, c3, rc, c4. split_and!; [done..|].
  apply run_logs_ready; [apply K4|]. exact (loc_ok_keeps llcf llcf _ _ eq_refl K4 Hl3).
Qed.

(** The configuration defines what the handler needs. Whatever directives
    of the module a location has, with whatever arguments, and whichever
    allocations and core calls fail, reading them and the initialisation after
    it is defined behaviour; and every log that was configured then names a
    format and a file that exist, has its Kafka fields set, no topic yet, and
    compiled operations over the variable table of the server. *)
Theorem configuration_sound ds c0 c1 llcf0 c2 :
  Forall directive_ok ds -> ngx_new_log_create_main_conf c0 = Some c1 ->
  ngx_new_log_create_loc_conf c1 = (Some llcf0, c2) ->
  exists res llcf c3 rc c4, conf_run ds llcf0 c2 = Some (res, llcf, c3) /\
    ngx_new_log_init c3 = Some (rc, c4) /\ (rc = NGX_OK -> is_Some c4.(cs_brokerList)) /\
    exists nls, mapM (run_log c4) (default [] llcf.(lc_logs)) = Some nls /\
      Forall (ready_log c4) nls.
Proof. apply configuration_ok. Qed.

Section worker.
Context {K : Type} {api : KafkaApi K} {laws : KafkaLaws K}.
Context (zlib : Z -> Z -> Z -> list Z -> Z -> option (list Z)).
Context (gh : nat -> variable_value -> Z * variable_value) (vars : list http_variable).
Context (r : log_request) (t : log_clock) (e : script_env).

(** A worker process as it starts: no directive gives a file a buffer. *)
Definition fresh_worker (c : conf_st) (polls : list k_bg) (writes : list write_result)
    (a : allocs) : world :=
  World None c.(cs_brokerList) true (map (fun _ => OpenFile None []) c.(cs_files)) [] polls
    writes a [].

(** A location whose logs were all configured runs in a fresh worker. *)
Lemma loc_worker_safe llcf c4 nls vs polls writes a :
  conf_ok c4 -> is_Some c4.(cs_brokerList) -> Forall (ready_log c4) nls -> (length nls <= 1)%nat ->
  (forall b, c4.(cs_brokerList) = Some b -> is_Some (k_new b)) -> Forall k_bg_ok polls ->
  handler_fills gh -> clock_ok t -> (cs_nvars c4 <= length vars)%nat -> length vs = length vars ->
  Forall (fun nl => forall vs len vs', ops_len gh vars nl.(l_ops) vs = Some (len, vs') ->
    len + 1 < 2 ^ 64) nls ->
  safe (ngx_new_log_handler zlib gh vars r t e llcf.(lc_off) nls vs
          (fresh_worker c4 polls writes a))
    (fun '(_, nls', vs', w') =>
       world_ok w' /\ logs_ok gh vars nls' w' /\ length vs' = length vars).
Proof.
  intros Hco [b Eb] Hready H1 Hb Hp Hf Hc Hv Hvs Hlen.
  assert (Hw : world_ok (fresh_worker c4 polls writes a)).
  { constructor; cbn; [|done|by apply Forall_map, Forall_map, Forall_forall].
    destruct (Hb b Eb) as [k Ek]. by exists b, k. }
  assert (Hs : Forall (log_set (length (w_files (fresh_worker c4 polls writes a)))) nls)
    by (cbn; rewrite length_map; eapply Forall_impl; [exact Hready|]; by intros ? []).
  assert (Hk : Forall (topic_known (fresh_worker c4 polls writes a)) nls).
  { eapply Forall_impl; [exact Hready|]. intros nl (_ & Hmiss & _). unfold missing in Hmiss.
    unfold topic_known. by destruct (l_kafka nl) as [[? [] ?]|]. }
  assert (Hfo : Forall (format_ok gh vars) nls).
  { rewrite Forall_forall in Hready, Hlen |- *. intros nl Hin. split; [|by apply Hlen].
    destruct (Hready nl Hin) as (_ & _ & _ & H). eapply Forall_impl; [exact H|].
    intros op. by apply wf_op_mono. }
  assert (Hmi : (all_missing nls <= 1)%nat).
  { destruct nls as [|nl [|]]; cbn in *; [lia| |lia]. apply Forall_cons in Hready as [(_ & -> & _) _].
    lia. }
  unfold ngx_new_log_handler. destruct (lc_off llcf); [by split_and!|].
  eapply safe_impl; [apply (log_all_safe zlib gh vars r t e Hf Hc 0); auto; cbn; lia|].
  intros [[[rc nls'] vs'] w'] (A & B & C & D & E & F & G & H). split_and!; auto.
  constructor; auto. lia.
Qed.

(** The log that merging gives a location when nothing is configured above it. *)
Definition default_log (llcf : loc_conf) : Prop :=
  llcf.(lc_off) = false /\ exists i, llcf.(lc_logs) = Some [ConfLog (Some i) false 0 None].

Lemma default_log_never_returns llcf c4 nls vs (w : world) :
  default_log llcf -> mapM (run_log c4) (default [] llcf.(lc_logs)) = Some nls ->
  Forall (fun f => f.(f_data) = None) w.(w_files) -> no_oom w.(w_allocs) -> t.(tp_sec) <> 0 ->
  forall res, ngx_new_log_handler zlib gh vars r t e llcf.(lc_off) nls vs w <> Ret res.
Proof.
  intros (Eo & i & El) Hn Hw Ha Ht res. rewrite El in Hn. cbn in Hn. unfold run_log in Hn. cbn in Hn.
  destruct (cs_formats c4) as [|f fs]; [done|]. injection Hn as <-. rewrite Eo. cbn.
  intros ([[[go l1] vs1] w1] & E1 & _)%obind_ret. unfold log_one, log_buffer in E1.
  cbn [l_disk_full_time l_flushes l_ops l_file] in E1. rewrite (proj2 (Z.eqb_neq _ _) Ht) in E1.
  destruct (ops_len _ _ _ _) as [[len vs2]|]; [|done].
  destruct (w_files w !! i) as [fl|] eqn:Ei; [|done]. cbn [obind] in E1.
  rewrite Forall_lookup in Hw. rewrite (Hw _ _ Ei) in E1. unfold log_direct in E1.
  destruct (no_oom_alloc _ Ha) as (a & Ea & _). rewrite Ea in E1. cbn [negb] in E1.
  apply obind_ret in E1 as ([line vs3] & _ & ([l3 w3] & E3 & _)%obind_ret).
  unfold ngx_new_log_write in E3. by apply obind_ret in E3 as (w4 & _ & E4).
Qed.
End worker.

(** A location has logs of its own, or [off]. *)
Definition has_logs (x : loc_conf) : bool :=
  match x.(lc_logs) with Some _ => true | None => x.(lc_off) end.

(** Merging keeps what a location has, else gives it what its parent has, else
    the default log. *)
Lemma merge_ok prev conf c res conf' c' :
  conf_ok c -> ngx_new_log_merge_loc_conf prev conf c = (res, conf', c') ->
  conf_keeps c c' /\
  (res = NGX_CONF_OK ->
   if has_logs conf then conf'.(lc_logs) = conf.(lc_logs) /\ conf'.(lc_off) = conf.(lc_off)
   else if has_logs prev then conf'.(lc_logs) = prev.(lc_logs) /\ conf'.(lc_off) = prev.(lc_off)
   else default_log conf').
Proof.
  intros Hc. unfold ngx_new_log_merge_loc_conf. pose proof (keeps_refl c Hc) as K0.
  set (conf1 := match lc_cache conf with CacheUnset => _ | _ => conf end).
  assert (E1 : conf1.(lc_logs) = conf.(lc_logs) /\ conf1.(lc_off) = conf.(lc_off))
    by (unfold conf1; by destruct (lc_cache conf)).
  clearbody conf1. destruct E1 as [E1 E2]. unfold has_logs. cbn [lc_logs lc_off].
  rewrite <- E1, <- E2.
  destruct (match lc_logs conf1 with Some _ => true | None => _ end); [by intros [= <- <- <-]|].
  destruct (match lc_logs prev with Some _ => true | None => _ end) eqn:Ep; [by intros [= <- <- <-]|].
  assert (Eo : lc_off prev = false) by by destruct (lc_logs prev).
  keep_call K0; [|by intros [= <- <- <-]]. keep_call K; [|by intros [= <- <- <-]].
  destruct (ngx_conf_open_file ngx_http_access_log _) as [[i|] c3] eqn:Ef;
    (apply keeps_open_file in Ef as [Kf _]; [|apply K1]); intros [= <- <- <-];
    (split; [|done || (intros _; split; [done|by exists i])]).
  - apply (keeps_trans _ _ _ K1), (keeps_trans _ _ _ Kf), keeps_use, Kf.
  - by apply (keeps_trans _ _ _ K1).
Qed.

(** A format named [combined] in other letters is accepted and left empty.
    The name of a format is looked up without regard to case, but only the
    exact name marks [combined] as used; so a log with the format [COMBINED]
    is accepted, and after a successful initialisation its format has no
    operations: every logged line is empty. *)
Theorem combined_case_not_compiled topic llcf c llcf' c' c4 f fs :
  c.(cs_formats) = f :: fs -> f.(fmt_name) = lit "combined" -> f.(fmt_ops) = [] ->
  c.(cs_combined_used) = false -> ngx_strcmp topic (lit "off") <> 0 ->
  ngx_new_log_set_log [lit "new_access_log"; topic; lit "COMBINED"] llcf c
    = (NGX_CONF_OK, llcf', c') ->
  ngx_new_log_init c' = Some (NGX_OK, c4) ->
  exists l nl, last (default [] llcf'.(lc_logs)) = Some l /\ run_log c4 l = Some nl /\
    nl.(l_ops) = [].
Proof.
  intros Ef En Eo Eu Ht. unfold ngx_new_log_set_log. cbn [nth].
  rewrite (proj2 (Z.eqb_neq _ _) Ht). change (zlen [_; _; _]) with 3. cbn [Z.eqb Pos.eqb].
  change (ngx_strcmp (lit "COMBINED") (lit "combined") =? 0) with false.
  destruct (match lc_logs llcf with Some l => _ | None => _ end) as [logs c1] eqn:E1.
  assert (Hs : cs_formats c1 = cs_formats c /\ cs_combined_used c1 = cs_combined_used c).
  { destruct (lc_logs llcf); [by injection E1 as <- <-|].
    destruct (call_same c) as (A & _ & _ & B & _). by destruct (call c); injection E1 as <- <-. }
  destruct Hs as [S1 S2], logs as [logs|]; [|done].
  destruct (call_same c1) as (A1 & _ & _ & A2 & _). destruct (call c1) as [[] c2]; cbn; [|done].
  cbn in A1, A2. rewrite A1, S1, Ef. cbn [find_format]. rewrite En.
  change ((zlen (lit "combined") =? zlen (lit "COMBINED")) &&
          (ngx_strcasecmp (lit "combined") (lit "COMBINED") =? 0)) with true. cbn.
  intros [= <- <-]. unfold ngx_new_log_init. rewrite A2, S2, Eu.
  destruct (cs_brokerList c2); [|done]. destruct (call_same c2) as (B1 & _).
  destruct (call c2) as [ok c3]. intros [= _ <-]. cbn in B1.
  eexists _, _. cbn. rewrite last_snoc. split; [done|]. unfold run_log. cbn.
  by rewrite B1, A1, S1, Ef.
Qed.

(** ** Instances *)

#[local] Instance sample_conf_api : KafkaApi rd_instance := rd_kafka_api (fun _ _ _ _ => 0).
#[local] Instance sample_conf_laws : KafkaLaws rd_instance := rd_kafka_laws (fun _ _ _ _ => 0).

Definition blank_conf : conf_st := ConfSt (lit "/usr/local/nginx/") [] [] false None None [].

Definition main_conf : conf_st := default blank_conf (ngx_new_log_create_main_conf blank_conf).

Definition blank_loc : loc_conf := LocConf None CacheUnset 0 0 false.

(** Brokers, a format, and a log to a topic and a file. *)
Definition sample_directives : list directive :=
  [DBrokers [lit "new_kafka_brokers"; lit "127.0.0.1:9092"];
   DFormat [lit "new_log_format"; lit "short"; lit "$status ${msec}"];
   DCache [lit "new_open_log_file_cache"; lit "max=1000"; lit "inactive=20s"];
   DLog [lit "new_access_log"; lit "access"; lit "logs/a.log"; lit "short"]].

Lemma sample_directives_ok : Forall directive_ok sample_directives.
Proof. vm_compute. repeat constructor; discriminate. Qed.

Lemma configuration_sound_witness :
  exists res llcf c3 rc c4, conf_run sample_directives blank_loc main_conf = Some (res, llcf, c3) /\
    ngx_new_log_init c3 = Some (rc, c4) /\ (rc = NGX_OK -> is_Some c4.(cs_brokerList)) /\
    exists nls, mapM (run_log c4) (default [] llcf.(lc_logs)) = Some nls /\
      Forall (ready_log c4) nls.
Proof.
  apply (configuration_sound sample_directives blank_conf main_conf).
  - apply sample_directives_ok.
  - vm_compute. reflexivity.
  - vm_compute. reflexivity.
Defined.

(** The location of these directives, its logs at run time, and the server. *)
Definition sample_loc : loc_conf :=
  match conf_run sample_directives blank_loc main_conf with
  | Some (_, llcf, _) => llcf
  | None => blank_loc
  end.

Definition sample_conf : conf_st :=
  match conf_run sample_directives blank_loc main_conf with
  | Some (_, _, c) => c
  | None => main_conf
  end.

Definition sample_server : conf_st :=
  match ngx_new_log_init sample_conf with Some (_, c) => c | None => main_conf end.

Definition sample_logs : list new_log :=
  default [] (mapM (run_log sample_server) (default [] sample_loc.(lc_logs))).

(** A log with the format [COMBINED]. *)
Definition upper_log : conf_result * loc_conf * conf_st :=
  ngx_new_log_set_log [lit "new_access_log"; lit "access"; lit "COMBINED"] blank_loc sample_conf.

Definition upper_server : conf_st :=
  match ngx_new_log_init upper_log.2 with Some (_, c) => c | None => main_conf end.

Lemma combined_case_not_compiled_witness :
  exists l nl, last (default [] upper_log.1.2.(lc_logs)) = Some l /\
    run_log upper_server l = Some nl /\ nl.(l_ops) = [].
Proof.
  apply (combined_case_not_compiled (lit "access") blank_loc sample_conf upper_log.1.2 upper_log.2
           upper_server (hd (LogFmt [] None []) sample_conf.(cs_formats))
           (tl sample_conf.(cs_formats))).
  - vm_compute. reflexivity.
  - vm_compute. reflexivity.
  - vm_compute. reflexivity.
  - vm_compute. reflexivity.
  - vm_compute. discriminate.
  - vm_compute. reflexivity.
  - vm_compute. reflexivity.
Defined.
