(* ===== verification/NewLogBlocks.v ===== *)
(** * The log configuration of a whole server ([ngx_new_log_module.c], [ngx_http.c])

    The http block, its servers and their locations, in any nesting: each has a
    configuration of the module, in which the directives inside it are read.
    When all are read, each is merged with that of the block around it
    ([ngx_http_merge_servers], [ngx_http_merge_locations]), the outer one first,
    and the module is initialised.  What a location then logs is safe exactly when
    it or a block around it has a [new_access_log]. *)

From S2P Require Import Prelude NgxNumber NgxParse NgxCompare NgxVariables NewLogFormat NewLogClock KafkaApi NewLogHandler NewLogConf.

(** ** Reading *)





(** ** Merging *)



(** ** What is configured *)



(** ** What holds of the blocks *)













Section worker.
Context {K : Type} {api : KafkaApi K} {laws : KafkaLaws K}.
Context (zlib : Z -> Z -> Z -> list Z -> Z -> option (list Z)).
Context (gh : nat -> variable_value -> Z * variable_value) (vars : list http_variable).
Context (r : log_request) (t : log_clock) (e : script_env).

End worker.

#[local] Existing Instances sample_conf_api sample_conf_laws.








