(* ===== verification/ConfToken.v ===== *)
(** * Reading the configuration: tokens ([core/ngx_conf_file.c])

    [ngx_conf_read_token] reads one directive: its words, up to the semicolon or
    the brace behind them.  It works on a buffer of 4096 bytes that is filled
    again and again from the file, keeping the part of a word read so far; the
    reference reads the text as a whole. *)

From S2P Require Import Prelude.

Abbreviation NGX_CONF_BLOCK_START := 1 (only parsing).
Abbreviation NGX_CONF_BLOCK_DONE := 2 (only parsing).
Abbreviation NGX_CONF_FILE_DONE := 3 (only parsing).

Definition NGX_CONF_BUFFER : nat := Z.to_nat 4096.

(** ** One character *)

(** The flags of the loop; [found] is set and cleared within a turn. *)
Record scan := Scan {
  need_space : bool;
  last_space : bool;
  sharp_comment : bool;
  variable : bool;
  quoted : bool;
  s_quoted : bool;
  d_quoted : bool;
}.

Definition scan0 : scan := Scan false true false false false false false.

Definition is_blank (ch : Z) : bool := (ch =? chr " ") || (ch =? 9) || (ch =? CR) || (ch =? LF).

(** What happens to [start]: it stays, or is set to the character or behind it. *)
Inductive mark := Keep | Here | After.

(** The end of a turn of the loop: go on; a word has ended before the character;
    return. *)
Inductive turn :=
  | Next (m : mark) (sc : scan)
  | Word (sc : scan)
  | Return (rc : Z).

(** At the start of a word. *)
Definition first_char (ch : Z) (nelts : nat) (sc : scan) : turn :=
  let begin m q s d :=
    Next m (Scan sc.(need_space) false sc.(sharp_comment) sc.(variable) q s d) in
  if is_blank ch then Next Keep sc
  else if (ch =? chr ";") || (ch =? chr "{") then
    if (nelts =? 0)%nat then Return NGX_ERROR
    else if ch =? chr "{" then Return NGX_CONF_BLOCK_START
    else Return NGX_OK
  else if ch =? chr "}" then
    if (nelts =? 0)%nat then Return NGX_CONF_BLOCK_DONE else Return NGX_ERROR
  else if ch =? chr "#" then
    Next Here (Scan sc.(need_space) sc.(last_space) true sc.(variable) sc.(quoted) sc.(s_quoted) sc.(d_quoted))
  else if ch =? chr "\" then begin Here true sc.(s_quoted) sc.(d_quoted)
  else if ch =? 34 then begin After sc.(quoted) sc.(s_quoted) true
  else if ch =? chr "'" then begin After sc.(quoted) true sc.(d_quoted)
  else begin Here sc.(quoted) sc.(s_quoted) sc.(d_quoted).

(** In a word. *)
Definition word_char (ch : Z) (sc : scan) : turn :=
  let flags ns ls v q s d := Scan ns ls sc.(sharp_comment) v q s d in
  if (ch =? chr "{") && sc.(variable) then Next Keep sc
  else if ch =? chr "\" then Next Keep (flags sc.(need_space) sc.(last_space) false true sc.(s_quoted) sc.(d_quoted))
  else if ch =? chr "$" then Next Keep (flags sc.(need_space) sc.(last_space) true sc.(quoted) sc.(s_quoted) sc.(d_quoted))
  else
    let sc0 := flags sc.(need_space) sc.(last_space) false sc.(quoted) sc.(s_quoted) sc.(d_quoted) in
    if sc.(d_quoted) then
      if ch =? 34 then Word (flags true sc.(last_space) false sc.(quoted) sc.(s_quoted) false) else Next Keep sc0
    else if sc.(s_quoted) then
      if ch =? chr "'" then Word (flags true sc.(last_space) false sc.(quoted) false sc.(d_quoted)) else Next Keep sc0
    else if is_blank ch || (ch =? chr ";") || (ch =? chr "{") then
      Word (flags sc.(need_space) true false sc.(quoted) sc.(s_quoted) sc.(d_quoted))
    else Next Keep sc0.

Definition conf_char (ch : Z) (nelts : nat) (sc : scan) : turn :=
  let sc :=
    if ch =? LF then Scan sc.(need_space) sc.(last_space) false sc.(variable) sc.(quoted) sc.(s_quoted) sc.(d_quoted) else sc in
  if sc.(sharp_comment) then Next Keep sc
  else if sc.(quoted) then
    Next Keep (Scan sc.(need_space) sc.(last_space) sc.(sharp_comment) sc.(variable) false sc.(s_quoted) sc.(d_quoted))
  else
    let spaced := Scan false true sc.(sharp_comment) sc.(variable) sc.(quoted) sc.(s_quoted) sc.(d_quoted) in
    if sc.(need_space) then
      if is_blank ch then Next Keep spaced
      else if ch =? chr ";" then Return NGX_OK
      else if ch =? chr "{" then Return NGX_CONF_BLOCK_START
      else if ch =? chr ")" then first_char ch nelts spaced
      else Return NGX_ERROR
    else if sc.(last_space) then first_char ch nelts sc
    else word_char ch sc.

(** ** A word *)

(** The loop that copies a word; [last] is the character behind it, which the
    code may read as [src[1]]. *)
Fixpoint copy_word (src : list Z) (last : Z) : list Z :=
  match src with
  | [] => []
  | c :: src' =>
      if c =? chr "\" then
        let next := match src' with [] => last | c' :: _ => c' end in
        let rest := match src' with [] => [] | _ :: src'' => copy_word src'' last end in
        if (next =? 34) || (next =? chr "'") || (next =? chr "\") then next :: rest
        else if next =? chr "t" then 9 :: rest
        else if next =? chr "r" then CR :: rest
        else if next =? chr "n" then LF :: rest
        else c :: copy_word src' last
      else c :: copy_word src' last
  end.

(** ** The loop on a buffer *)

(** [ngx_conf_file_t]: the bytes between [start] and [last] of the buffer, [pos]
    among them, what is left of the file, whether it is a file, and the line. *)
Record conf_file := ConfFile {
  cf_data : list Z;
  cf_pos : nat;
  cf_rest : list Z;
  cf_fd : bool;
  cf_line : Z;
}.

Record token := Token { t_rc : Z; t_args : list (list Z); t_file : conf_file; t_allocs : allocs }.

(** The end of the text. *)
Definition at_end (args : list (list Z)) (sc : scan) : Z :=
  if negb (length args =? 0)%nat || negb sc.(last_space) then NGX_ERROR else NGX_CONF_FILE_DONE.

(** Filling the buffer: the part from [start] is moved to the front. [inl] ends the
    loop. Reading may fail, or give fewer bytes than the file has. *)
Definition refill (cf : conf_file) (start : nat) (start_line : Z) (args : list (list Z)) (sc : scan) (al : allocs)
  : token + conf_file * nat * allocs :=
  if (length cf.(cf_data) <=? cf.(cf_pos))%nat then
    match cf.(cf_rest) with
    | [] => inl (Token (at_end args sc) args cf al)
    | _ =>
        let len := (cf.(cf_pos) - start)%nat in
        if (len =? NGX_CONF_BUFFER)%nat then
          inl (Token NGX_ERROR args (ConfFile cf.(cf_data) cf.(cf_pos) cf.(cf_rest) cf.(cf_fd) start_line) al)
        else
          let size := Nat.min (length cf.(cf_rest)) (NGX_CONF_BUFFER - len) in
          let (ok, al) := alloc al in
          if ok then
            inr (ConfFile (take len (drop start cf.(cf_data)) ++ take size cf.(cf_rest)) len (drop size cf.(cf_rest)) cf.(cf_fd) cf.(cf_line), 0%nat, al)
          else inl (Token NGX_ERROR args cf al)
    end
  else inr (cf, start, al).

Fixpoint token_loop (fuel : nat) (cf : conf_file) (start : nat) (start_line : Z) (sc : scan) (args : list (list Z)) (al : allocs)
  : option token :=
  match fuel with
  | O => None
  | S fuel =>
      match refill cf start start_line args sc al with
      | inl t => Some t
      | inr (cf, start, al) =>
          ch ← cf.(cf_data) !! cf.(cf_pos);
          let cf := ConfFile cf.(cf_data) (S cf.(cf_pos)) cf.(cf_rest) cf.(cf_fd) (if ch =? LF then cf.(cf_line) + 1 else cf.(cf_line)) in
          match conf_char ch (length args) sc with
          | Return rc => Some (Token rc args cf al)
          | Next Keep sc => token_loop fuel cf start start_line sc args al
          | Next Here sc => token_loop fuel cf (cf.(cf_pos) - 1) cf.(cf_line) sc args al
          | Next After sc => token_loop fuel cf cf.(cf_pos) cf.(cf_line) sc args al
          | Word sc =>
              let (ok, al) := alloc al in
              if negb ok then Some (Token NGX_ERROR args cf al)
              else
                let (ok, al) := alloc al in
                if negb ok then Some (Token NGX_ERROR args cf al)
                else
                  let src := take (cf.(cf_pos) - 1 - start) (drop start cf.(cf_data)) in
                  let args := args ++ [copy_word src ch] in
                  if ch =? chr ";" then Some (Token NGX_OK args cf al)
                  else if ch =? chr "{" then Some (Token NGX_CONF_BLOCK_START args cf al)
                  else token_loop fuel cf start start_line sc args al
          end
      end
  end.

(** Each turn takes a character. *)
Definition token_fuel (cf : conf_file) : nat := S (length cf.(cf_data) + length cf.(cf_rest)).

Definition ngx_conf_read_token (cf : conf_file) (al : allocs) : option token :=
  token_loop (token_fuel cf) cf cf.(cf_pos) cf.(cf_line) scan0 [] al.

(** ** The reference *)

(** The text as a whole; [raw] is what was read since [start]. [limit] is the
    length of [raw] at which a file is given up. *)
Fixpoint read_text (limit : option nat) (text raw : list Z) (sc : scan) (args : list (list Z)) : Z * list (list Z) * list Z :=
  match text with
  | [] => (at_end args sc, args, [])
  | ch :: text' =>
      if bool_decide (limit = Some (length raw)) then (NGX_ERROR, args, text)
      else
        match conf_char ch (length args) sc with
        | Return rc => (rc, args, text')
        | Next Keep sc => read_text limit text' (raw ++ [ch]) sc args
        | Next Here sc => read_text limit text' [ch] sc args
        | Next After sc => read_text limit text' [] sc args
        | Word sc =>
            let args := args ++ [copy_word raw ch] in
            if ch =? chr ";" then (NGX_OK, args, text')
            else if ch =? chr "{" then (NGX_CONF_BLOCK_START, args, text')
            else read_text limit text' (raw ++ [ch]) sc args
        end
  end.

Section buffer.

(** A file being read: the buffer is within its size, and a file that is given as
    a parameter is in the buffer as a whole. *)
Record cf_ok (cf : conf_file) : Prop := {
  cf_within : (cf.(cf_pos) <= length cf.(cf_data))%nat;
  cf_size : if cf.(cf_fd) then (length cf.(cf_data) <= NGX_CONF_BUFFER)%nat else cf.(cf_rest) = [];
}.

(** What is left to be read. *)
Definition unread (cf : conf_file) : list Z := drop cf.(cf_pos) cf.(cf_data) ++ cf.(cf_rest).

(** What was read since [start]. *)
Definition raw_from (cf : conf_file) (start : nat) : list Z := take (cf.(cf_pos) - start) (drop start cf.(cf_data)).

Definition limit_of (cf : conf_file) : option nat := if cf.(cf_fd) then Some NGX_CONF_BUFFER else None.

Lemma raw_length cf start : (start <= cf.(cf_pos))%nat -> cf_ok cf -> length (raw_from cf start) = (cf.(cf_pos) - start)%nat.
Proof. intros Hs [Hp _]. unfold raw_from. rewrite length_take, length_drop. lia. Qed.

(** One step of the position. *)
Lemma unread_step cf ch line : cf.(cf_data) !! cf.(cf_pos) = Some ch ->
  unread cf = ch :: unread (ConfFile cf.(cf_data) (S cf.(cf_pos)) cf.(cf_rest) cf.(cf_fd) line).
Proof. intros H. unfold unread. cbn. by rewrite (drop_S _ _ _ H). Qed.

Lemma raw_step cf start ch line : (start <= cf.(cf_pos))%nat -> cf.(cf_data) !! cf.(cf_pos) = Some ch ->
  raw_from (ConfFile cf.(cf_data) (S cf.(cf_pos)) cf.(cf_rest) cf.(cf_fd) line) start = raw_from cf start ++ [ch].
Proof.
  intros Hs H. unfold raw_from. cbn [cf_pos cf_data]. replace (S (cf_pos cf) - start)%nat with (S (cf_pos cf - start)) by lia.
  apply take_S_r. rewrite lookup_drop. by replace (start + (cf_pos cf - start))%nat with (cf_pos cf) by lia.
Qed.

(** Filling keeps what was read of the word and what is unread, or ends the loop as
    the reference does. *)
Lemma refill_ok cf start line args sc al :
  cf_ok cf -> (start <= cf.(cf_pos))%nat -> no_oom al ->
  match refill cf start line args sc al with
  | inl t => unread cf = [] /\ t = Token (at_end args sc) args cf al \/
      unread cf <> [] /\ limit_of cf = Some (length (raw_from cf start)) /\ t.(t_rc) = NGX_ERROR /\ t.(t_args) = args
  | inr (cf', start', al') => cf_ok cf' /\ (start' <= cf'.(cf_pos))%nat /\ no_oom al' /\ unread cf' = unread cf /\ unread cf <> [] /\
      raw_from cf' start' = raw_from cf start /\ limit_of cf' = limit_of cf /\ limit_of cf <> Some (length (raw_from cf start)) /\
      exists ch, cf'.(cf_data) !! cf'.(cf_pos) = Some ch
  end.
Proof.
  intros Hok Hs Hal. pose proof (raw_length cf start Hs Hok) as HL. destruct Hok as [Hp Hsz]. unfold refill.
  destruct (Nat.leb_spec (length (cf_data cf)) (cf_pos cf)) as [Hend|Hin].
  - assert (Hd : drop (cf_pos cf) (cf_data cf) = []) by (apply drop_ge; lia).
    destruct (cf_rest cf) as [|r rest] eqn:Er; [left; unfold unread; by rewrite Hd, Er|].
    assert (Hfd : cf_fd cf = true) by (destruct (cf_fd cf); [done|congruence]). rewrite Hfd in *.
    assert (Hu : unread cf = r :: rest) by (unfold unread; by rewrite Hd, Er).
    destruct (Nat.eqb_spec (cf_pos cf - start) NGX_CONF_BUFFER) as [Hfull|Hroom].
    + right. unfold limit_of. rewrite Hu, Hfd, HL, Hfull. done.
    + destruct (no_oom_alloc al Hal) as (al' & -> & Hal'). set (len := (cf_pos cf - start)%nat) in *.
      set (size := Nat.min (length (r :: rest)) (NGX_CONF_BUFFER - len)). assert (Hsize : (1 <= size)%nat) by (unfold size, len in *; cbn [length]; lia).
      assert (Hraw : length (take len (drop start (cf_data cf))) = len) by exact HL.
      split; [constructor; cbn [cf_pos cf_data cf_fd]|]; rewrite ?length_app, ?Hraw, ?length_take; try lia.
      cbn [cf_pos]. split; [lia|]. split; [done|]. split; [|split; [by rewrite Hu|split; [|split; [by unfold limit_of; cbn; rewrite Hfd|split]]]].
      * unfold unread at 1. cbn [cf_pos cf_data cf_rest]. rewrite drop_app_length' by done. rewrite take_drop. by rewrite Hu.
      * unfold raw_from. cbn [cf_pos cf_data]. rewrite drop_0, Nat.sub_0_r. by rewrite take_app_length' by done.
      * unfold limit_of. rewrite Hfd, HL. congruence.
      * cbn [cf_data]. rewrite lookup_app_r by lia. rewrite Hraw, Nat.sub_diag. destruct size; [lia|]. by exists r.
  - assert (exists ch, cf_data cf !! cf_pos cf = Some ch) as [ch Hch] by (apply lookup_lt_is_Some; lia).
    split; [by constructor|]. split; [done|]. split; [done|]. split; [done|]. split; [by rewrite (unread_step _ _ 0 Hch)|].
    split; [done|]. split; [done|]. split; [|by exists ch]. unfold limit_of. destruct (cf_fd cf); [|done]. rewrite HL. intros [=]. lia.
Qed.
(** ** The buffer does not matter *)

Lemma token_loop_text fuel : forall cf start line sc args al,
  cf_ok cf -> (start <= cf.(cf_pos))%nat -> no_oom al -> (length (unread cf) < fuel)%nat ->
  exists t, token_loop fuel cf start line sc args al = Some t /\
    let '(rc, args', text') := read_text (limit_of cf) (unread cf) (raw_from cf start) sc args in
    t.(t_rc) = rc /\ t.(t_args) = args' /\
    (rc <> NGX_ERROR -> unread t.(t_file) = text' /\ cf_ok t.(t_file) /\ t.(t_file).(cf_fd) = cf.(cf_fd) /\ no_oom t.(t_allocs)).
Proof.
  induction fuel as [|fuel IH]; intros cf start line sc args al Hok Hs Hal Hf; [lia|]. cbn [token_loop].
  pose proof (refill_ok cf start line args sc al Hok Hs Hal) as HR. destruct (refill cf start line args sc al) as [t|[[cf1 start1] al1]].
  { exists t. split; [done|]. destruct HR as [(Hu & ->)|(Hu & Hl & Hrc & Ha)].
    - rewrite Hu. cbn. split; [done|]. split; [done|]. intros _. done.
    - destruct (unread cf) as [|ch text] eqn:Eu; [done|]. cbn. rewrite bool_decide_true by done. split; [done|]. split; [done|]. done. }
  destruct HR as (Hok1 & Hs1 & Hal1 & Hu1 & Hne & Hraw & Hlim & Hnl & ch & Hch). rewrite Hch. cbn [mbind option_bind].
  set (cf2 := ConfFile _ _ _ _ _). assert (Hu2 : unread cf1 = ch :: unread cf2) by apply (unread_step cf1 ch _ Hch).
  assert (Hok2 : cf_ok cf2).
  { destruct Hok1 as [H1 H2]. apply lookup_lt_Some in Hch. constructor; cbn; [lia|done]. }
  assert (Hraw2 : raw_from cf2 start1 = raw_from cf1 start1 ++ [ch]) by (by apply raw_step).
  rewrite <- Hu1, Hu2. cbn [read_text]. rewrite bool_decide_false by done. rewrite <- Hlim, <- Hraw.
  assert (Hf2 : (length (unread cf2) < fuel)%nat) by (rewrite <- Hu1, Hu2 in Hf; cbn [length] in Hf; lia).
  assert (Hfd : cf_fd cf2 = cf_fd cf) by (unfold limit_of in Hlim; cbn; by destruct (cf_fd cf1), (cf_fd cf)).
  assert (Hlim2 : limit_of cf1 = limit_of cf2) by done. rewrite Hlim2, <- Hfd.
  destruct (conf_char ch (length args) sc) as [[] sc'|sc'|rc].
  - rewrite <- Hraw2. apply IH; try done. cbn. lia.
  - replace [ch] with (raw_from cf2 (cf_pos cf2 - 1)); [apply IH; try done; lia|]. unfold raw_from. cbn [cf_pos cf_data cf2].
    replace (S (cf_pos cf1) - 1)%nat with (cf_pos cf1) by lia. rewrite (drop_S _ _ _ Hch). by replace (S (cf_pos cf1) - cf_pos cf1)%nat with 1%nat by lia.
  - replace [] with (raw_from cf2 (cf_pos cf2)); [by apply IH|]. unfold raw_from. by rewrite Nat.sub_diag.
  - destruct (no_oom_alloc al1 Hal1) as (al2 & -> & Hal2). cbn [negb]. destruct (no_oom_alloc al2 Hal2) as (al3 & -> & Hal3). cbn [negb].
    assert (Hsrc : take (cf_pos cf2 - 1 - start1) (drop start1 (cf_data cf2)) = raw_from cf1 start1) by (unfold raw_from; cbn [cf_pos cf_data cf2]; by rewrite Nat.sub_succ, Nat.sub_0_r).
    rewrite Hsrc. destruct (ch =? chr ";"); [eexists; split; [done|]; done|]. destruct (ch =? chr "{"); [eexists; split; [done|]; done|].
    rewrite <- Hraw2. apply IH; try done. cbn. lia.
  - eexists. split; [done|]. cbn. split; [done|]. split; [done|]. done.
Qed.
Lemma token_text cf al :
  cf_ok cf -> no_oom al ->
  exists t, ngx_conf_read_token cf al = Some t /\
    let '(rc, args, text) := read_text (limit_of cf) (unread cf) [] scan0 [] in
    t.(t_rc) = rc /\ t.(t_args) = args /\
    (rc <> NGX_ERROR -> unread t.(t_file) = text /\ cf_ok t.(t_file) /\ t.(t_file).(cf_fd) = cf.(cf_fd) /\ no_oom t.(t_allocs)).
Proof.
  intros Hok Hal. assert (raw_from cf (cf_pos cf) = []) as Hraw by (unfold raw_from; by rewrite Nat.sub_diag).
  rewrite <- Hraw. apply token_loop_text; [done|lia|done|]. unfold token_fuel, unread. rewrite length_app, length_drop. lia.
Qed.
End buffer.

(** ** Theorems *)

(** A word is copied to a place one longer than its source, with a zero behind it. *)
Lemma copy_word_length src last : (length (copy_word src last) <= length src)%nat.
Proof.
  enough (H : (length (copy_word src last) <= length src)%nat /\ forall c, (length (copy_word (c :: src) last) <= S (length src))%nat) by apply H.
  assert (Hif : forall (b : bool) (x y : list Z) n, (length x <= n)%nat -> (length y <= n)%nat -> (length (if b then x else y) <= n)%nat) by (by intros []).
  induction src as [|c' l [IH1 IH2]]; (split; [try done; apply IH2|]); intros c; cbn [copy_word length]; repeat apply Hif; cbn [length]; try lia.
  specialize (IH2 c'). cbn [copy_word] in IH2. lia. specialize (IH2 c'). cbn [copy_word] in IH2. lia.
Qed.

(** C33: reading a directive from a file through the buffer of 4096 bytes is reading it
    from its text: the result, the words and what is left are the same, wherever the
    buffer ends, for a directive in which no stretch from the start of a word to that
    of the next is longer than the buffer; a longer one is refused. *)
Theorem read_token_text (cf : conf_file) (al : allocs) :
  cf_ok cf -> no_oom al ->
  exists t, ngx_conf_read_token cf al = Some t /\
    let '(rc, args, text) := read_text (limit_of cf) (unread cf) [] scan0 [] in
    t.(t_rc) = rc /\ t.(t_args) = args /\
    (rc <> NGX_ERROR -> unread t.(t_file) = text /\ cf_ok t.(t_file) /\ t.(t_file).(cf_fd) = cf.(cf_fd) /\ no_oom t.(t_allocs)).
Proof. apply token_text. Qed.

Definition sample_file : conf_file := ConfFile (lit "ab") 1 (lit "c d;e") true 1.

Lemma read_token_text_witness :
  exists t, ngx_conf_read_token sample_file [] = Some t /\ t.(t_rc) = NGX_OK /\ t.(t_args) = [lit "bc"; lit "d"] /\ unread t.(t_file) = lit "e".
Proof.
  destruct (read_token_text sample_file []) as (t & E1 & H1); [constructor; cbn; unfold NGX_CONF_BUFFER; lia|constructor|].
  assert (E2 : read_text (limit_of sample_file) (unread sample_file) [] scan0 [] = (NGX_OK, [lit "bc"; lit "d"], lit "e")) by (vm_compute; reflexivity).
  rewrite E2 in H1. destruct H1 as (H1 & H2 & H3). exists t. split; [exact E1|]. split; [exact H1|]. split; [exact H2|].
  destruct H3 as [H3 _]; [discriminate|exact H3].
Defined.
