(* ===== verification/ConfTokenRead.v ===== *)
(** * Reading back a configuration

    The syntax of a directive as a grammar: words, plain or in quotes, with blanks
    and comments between them; a directive that is written in it is read as its
    words. *)

From S2P Require Import Prelude ConfToken.

(** ** Syntax *)

Inductive sep := Blank (c : Z) | Comment (text : list Z).

Definition sep_bytes (x : sep) : list Z := match x with Blank c => [c] | Comment text => chr "#" :: text ++ [LF] end.
Definition seps_bytes (l : list sep) : list Z := concat (map sep_bytes l).

Definition sep_ok (x : sep) : Prop := match x with Blank c => is_blank c = true | Comment text => ~ LF ∈ text end.

(** In quotes the quote and the backslash are escaped. *)
Inductive word := Plain (w : list Z) | Quoted (q : Z) (w : list Z).

Definition escape (q c : Z) : list Z := if (c =? q) || (c =? chr "\") then [chr "\"; c] else [c].
Definition escapes (q : Z) (w : list Z) : list Z := concat (map (escape q) w).

Definition word_bytes (x : word) : list Z :=
  match x with Plain w => w | Quoted q w => q :: escapes q w ++ [q] end.

Definition word_text (x : word) : list Z := match x with Plain w => w | Quoted _ w => w end.

(** Characters of plain words, and those they may begin with. *)
Definition plain_char (c : Z) : bool :=
  negb (is_blank c || (c =? chr ";") || (c =? chr "{") || (c =? chr "\")).
Definition first_ok (c : Z) : bool :=
  negb ((c =? chr "}") || (c =? chr "#") || (c =? 34) || (c =? chr "'")).

Definition word_ok (x : word) : Prop :=
  match x with
  | Plain w =>
      match w with [] => False | c :: _ => first_ok c = true /\ Forall (fun c => plain_char c = true) w end /\ last w <> Some (chr "$")
  | Quoted q _ => q = 34 \/ q = chr "'"
  end.

(** The separators before a word and the word. *)
Record arg := Arg { a_seps : list sep; a_word : word }.

Definition arg_bytes (x : arg) : list Z := seps_bytes x.(a_seps) ++ word_bytes x.(a_word).

(** A word is followed by a blank, if not by the end of the directive. *)
Definition begins_blank (l : list sep) : Prop := match l with Blank _ :: _ => True | _ => False end.

Record stmt := Stmt { st_first : arg; st_args : list arg; st_seps : list sep; st_block : bool }.

Definition term (block : bool) : Z := if block then chr "{" else chr ";".
Definition code (block : bool) : Z := if block then NGX_CONF_BLOCK_START else NGX_OK.

Definition stmt_bytes (d : stmt) : list Z :=
  arg_bytes d.(st_first) ++ concat (map arg_bytes d.(st_args)) ++ seps_bytes d.(st_seps) ++ [term d.(st_block)].

Definition stmt_words (d : stmt) : list (list Z) :=
  word_text d.(st_first).(a_word) :: map (fun x => word_text x.(a_word)) d.(st_args).

Definition arg_ok (x : arg) : Prop := Forall sep_ok x.(a_seps) /\ word_ok x.(a_word).

Definition stmt_ok (d : stmt) : Prop :=
  arg_ok d.(st_first) /\ Forall (fun x => arg_ok x /\ begins_blank x.(a_seps)) d.(st_args) /\ Forall sep_ok d.(st_seps) /\
  (d.(st_seps) = [] \/ begins_blank d.(st_seps)).

(** ** Reading *)

Section reading.
Context (limit : option nat).

(** [n] characters more than [raw] do not reach the limit. *)
Definition fits (raw : list Z) (n : nat) : Prop := match limit with Some m => (length raw + n <= m)%nat | None => True end.

Lemma fits_check raw n : fits raw (S n) -> bool_decide (limit = Some (length raw)) = false.
Proof. unfold fits. intros H. apply bool_decide_false. intros ->. lia. Qed.

Lemma fits_snoc raw n c : fits raw (S n) -> fits (raw ++ [c]) n.
Proof. unfold fits. destruct limit; [|done]. rewrite length_app. cbn. lia. Qed.

Lemma fits_le raw raw' n n' : fits raw n -> (length raw' + n' <= length raw + n)%nat -> fits raw' n'.
Proof. unfold fits. destruct limit; lia. Qed.

(** Between words. *)
Lemma read_blank c text raw args : is_blank c = true -> fits raw 1 ->
  read_text limit (c :: text) raw scan0 args = read_text limit text (raw ++ [c]) scan0 args.
Proof.
  intros Hc Hf. cbn [read_text]. rewrite (fits_check raw 0 Hf). unfold conf_char, first_char, scan0. cbn. rewrite Hc.
  by destruct (c =? LF).
Qed.

Definition in_comment : scan := Scan false true true false false false false.

Lemma read_comment_text t text raw args : ~ LF ∈ t -> fits raw (S (length t)) ->
  read_text limit (t ++ LF :: text) raw in_comment args = read_text limit text (raw ++ t ++ [LF]) scan0 args.
Proof.
  revert raw. induction t as [|c t IH]; intros raw Ht Hf; cbn [app read_text length]; rewrite (fits_check raw _ Hf).
  - done.
  - unfold conf_char. rewrite (proj2 (Z.eqb_neq c LF)) by set_solver. cbn [sharp_comment in_comment].
    rewrite IH; [by rewrite <- app_assoc|set_solver|by apply fits_snoc].
Qed.

Lemma read_seps l : forall raw text args, Forall sep_ok l -> fits raw (length (seps_bytes l)) ->
  exists raw', read_text limit (seps_bytes l ++ text) raw scan0 args = read_text limit text raw' scan0 args /\
    (length raw' <= length raw + length (seps_bytes l))%nat.
Proof.
  induction l as [|x l IH]; intros raw text args Hl Hf; [exists raw; cbn; split; [done|lia]|].
  apply Forall_cons in Hl as [Hx Hl]. unfold seps_bytes in *. cbn [map concat] in *. rewrite <- app_assoc. rewrite length_app in Hf.
  destruct x as [c|t]; cbn [sep_bytes sep_ok] in *.
  - cbn [app]. rewrite read_blank; [|done|eapply fits_le; [exact Hf|cbn; lia]].
    destruct (IH (raw ++ [c]) text args Hl) as (raw' & E1 & H1); [eapply fits_le; [exact Hf|rewrite length_app; cbn; lia]|].
    exists raw'. split; [done|]. rewrite length_app in H1. cbn in *. lia.
  - cbn [app]. cbn [read_text]. rewrite (fits_check raw (length (t ++ [LF]))) by (eapply fits_le; [exact Hf|cbn; lia]).
    change (conf_char (chr "#") (length args) scan0) with (Next Here in_comment). cbn iota.
    rewrite <- app_assoc. cbn [app]. rewrite read_comment_text; [|done|eapply fits_le; [exact Hf|cbn [length]; rewrite length_app; cbn; lia]].
    destruct (IH ([chr "#"] ++ t ++ [LF]) text args Hl) as (raw' & E1 & H1); [eapply fits_le; [exact Hf|cbn; lia]|].
    exists raw'. split; [done|]. rewrite !length_app in *. cbn in *. rewrite ?length_app in *. cbn in *. lia.
Qed.
(** ** Words *)

(** In a word: outside quotes, or in quotes of the kind [q]. *)
Definition in_plain (v : bool) : scan := Scan false false false v false false false.
Definition in_quotes (q : Z) (v : bool) : scan := Scan false false false v false (q =? chr "'") (q =? 34).
Definition after_quotes : scan := Scan true false false false false false false.

Lemma plain_char_spec c : plain_char c = true ->
  is_blank c = false /\ (c =? chr ";") = false /\ (c =? chr "{") = false /\ (c =? chr "\") = false.
Proof. unfold plain_char. rewrite negb_true_iff, !orb_false_iff. tauto. Qed.

Lemma blank_lf c : is_blank c = false -> (c =? LF) = false.
Proof. unfold is_blank. rewrite !orb_false_iff. tauto. Qed.

Lemma read_plain_tail t : forall v text raw args, Forall (fun c => plain_char c = true) t -> fits raw (length t) ->
  read_text limit (t ++ text) raw (in_plain v) args =
  read_text limit text (raw ++ t) (in_plain (match last t with None => v | Some c => c =? chr "$" end)) args.
Proof.
  induction t as [|c t IH]; intros v text raw args Ht Hf; [by rewrite app_nil_r|]. apply Forall_cons in Ht as [Hc Ht].
  destruct (plain_char_spec c Hc) as (H1 & H2 & H3 & H4). cbn [app read_text length] in *. rewrite (fits_check raw _ Hf).
  unfold conf_char, word_char. rewrite (blank_lf c H1). cbn. rewrite H1, H2, H3, H4. cbn.
  assert (Hl : match last (c :: t) with None => v | Some c => c =? chr "$" end = match last t with None => c =? chr "$" | Some c => c =? chr "$" end).
  { rewrite last_cons. by destruct (last t). }
  rewrite Hl. replace (raw ++ c :: t) with ((raw ++ [c]) ++ t) by (by rewrite <- app_assoc).
  destruct (c =? chr "$"); apply IH; try done; by apply fits_snoc.
Qed.

Lemma read_quoted w : forall q v text raw args, q = 34 \/ q = chr "'" -> fits raw (length (escapes q w)) ->
  exists v', read_text limit (escapes q w ++ text) raw (in_quotes q v) args = read_text limit text (raw ++ escapes q w) (in_quotes q v') args.
Proof.
  induction w as [|c w IH]; intros q v text raw args Hq Hf; [exists v; by rewrite app_nil_r|].
  change (escapes q (c :: w)) with (escape q c ++ escapes q w) in *. rewrite length_app in Hf. rewrite <- app_assoc.
  assert (Hd : (q =? chr "'") = negb (q =? 34)) by (by destruct Hq as [-> | ->]).
  assert (Hlf : forall sc : scan, sharp_comment sc = false ->
    (if c =? LF then Scan (need_space sc) (last_space sc) false (variable sc) (quoted sc) (s_quoted sc) (d_quoted sc) else sc) = sc).
  { intros [] H. cbn in *. subst. by destruct (c =? LF). }
  unfold escape in *. destruct ((c =? q) || (c =? chr "\")) eqn:Ec.
  - cbn [app read_text length Nat.add] in *. rewrite (fits_check raw _ Hf). apply (fits_snoc raw _ (chr "\")) in Hf.
    rewrite (fits_check _ _ Hf). apply (fits_snoc _ _ c) in Hf.
    change (conf_char (chr "\") (length args) (in_quotes q v)) with (Next Keep (Scan false false false false true (q =? chr "'") (q =? 34))). cbn iota.
    unfold conf_char at 1. rewrite Hlf by done. cbn [sharp_comment quoted].
    destruct (IH q false text ((raw ++ [chr "\"]) ++ [c]) args Hq Hf) as (v' & E1). exists v'.
    etransitivity; [exact E1|]. by rewrite <- !app_assoc.
  - apply orb_false_iff in Ec as [Eq Eb]. cbn [app read_text length Nat.add] in *. rewrite (fits_check raw _ Hf). apply (fits_snoc raw _ c) in Hf.
    replace (raw ++ c :: escapes q w) with ((raw ++ [c]) ++ escapes q w) by (by rewrite <- !app_assoc).
    assert (Hch : exists v', conf_char c (length args) (in_quotes q v) = Next Keep (in_quotes q v')).
    { unfold conf_char. rewrite Hlf by done. unfold word_char. cbn. rewrite Eb, Hd.
      destruct ((c =? chr "{") && v); [by exists v; unfold in_quotes; rewrite Hd|]. destruct (c =? chr "$"); [by exists true; unfold in_quotes; rewrite Hd|].
      exists false. unfold in_quotes. rewrite Hd. destruct Hq as [-> | ->]; cbn; rewrite Eq; done. }
    destruct Hch as [v' ->]. apply (IH q v' text (raw ++ [c]) args Hq Hf).
Qed.

(** ** Copying *)

Lemma copy_plain w e : Forall (fun c => plain_char c = true) w -> copy_word w e = w.
Proof.
  induction 1 as [|c w Hc Hw IH]; [done|]. destruct (plain_char_spec c Hc) as (_ & _ & _ & H4). cbn. by rewrite H4, IH.
Qed.

Lemma copy_escaped q w e : q = 34 \/ q = chr "'" -> copy_word (escapes q w) e = w.
Proof.
  intros Hq. induction w as [|c w IH]; [done|]. change (escapes q (c :: w)) with (escape q c ++ escapes q w). unfold escape.
  destruct ((c =? q) || (c =? chr "\")) eqn:Ec.
  - cbn [app copy_word]. rewrite Z.eqb_refl. replace ((c =? 34) || (c =? chr "'") || (c =? chr "\")) with true; [by rewrite IH|].
    destruct Hq as [-> | ->]; cbn; destruct (c =? 34), (c =? 39), (c =? 92); done.
  - apply orb_false_iff in Ec as [_ Eb]. cbn [app copy_word]. by rewrite Eb, IH.
Qed.
(** ** A word and what follows *)

Definition ends (e : Z) : Prop := is_blank e = true \/ e = chr ";" \/ e = chr "{".

(** After the words [args] and the character [e]. *)
Definition go_on (e : Z) (text raw : list Z) (args : list (list Z)) : Z * list (list Z) * list Z :=
  if e =? chr ";" then (NGX_OK, args, text)
  else if e =? chr "{" then (NGX_CONF_BLOCK_START, args, text)
  else read_text limit text raw scan0 args.

Lemma ends_char e : ends e -> (e =? chr "\") = false /\ (e =? chr "$") = false /\ (e =? 34) = false /\ (e =? chr "'") = false /\
  (is_blank e || (e =? chr ";") || (e =? chr "{") = true).
Proof.
  unfold ends, is_blank. rewrite !orb_true_iff, !Z.eqb_eq. intros H. split_and!; try (apply Z.eqb_neq; lia). tauto.
Qed.

Lemma read_plain c w e text raw args :
  first_ok c = true -> Forall (fun c => plain_char c = true) (c :: w) -> last (c :: w) <> Some (chr "$") -> ends e ->
  fits raw 1 -> fits [] (length (c :: w) + 1) ->
  read_text limit ((c :: w) ++ e :: text) raw scan0 args = go_on e text ((c :: w) ++ [e]) (args ++ [c :: w]).
Proof.
  intros Hc Hw Hl He Hf Hf'. assert (Hw' := Hw). apply Forall_cons in Hw' as [Hpc Hw'].
  destruct (plain_char_spec c Hpc) as (H1 & H2 & H3 & H4). unfold first_ok in Hc. rewrite negb_true_iff, !orb_false_iff in Hc. destruct Hc as (((F1 & F2) & F3) & F4).
  destruct (ends_char e He) as (E1 & E2 & E3 & E4 & E5).
  cbn [app read_text]. rewrite (fits_check raw 0 Hf). unfold conf_char at 1, first_char. rewrite (blank_lf c H1). cbn. rewrite H1, H2, H3, H4, F1, F2, F3, F4. cbn.
  change (Scan false false false false false false false) with (in_plain false).
  rewrite read_plain_tail; [|done|eapply fits_le; [exact Hf'|cbn; lia]].
  assert (Hv : match last w with None => false | Some c => c =? chr "$" end = false).
  { rewrite last_cons in Hl. destruct (last w) as [x|]; [|done]. apply Z.eqb_neq. congruence. }
  rewrite Hv. cbn [read_text]. rewrite (fits_check _ 0) by (eapply fits_le; [exact Hf'|cbn; lia]).
  assert (Hch : conf_char e (length args) (in_plain false) = Word scan0).
  { unfold conf_char, word_char, in_plain. destruct (e =? LF); cbn; rewrite andb_false_r, E1, E2; cbn; by rewrite E5. }
  rewrite Hch. cbn iota. rewrite (copy_plain ([c] ++ w)) by done. done.
Qed.

Lemma read_quotes q w e text raw args :
  q = 34 \/ q = chr "'" -> ends e -> fits raw 1 -> fits [] (length (word_bytes (Quoted q w)) + 1) ->
  read_text limit (word_bytes (Quoted q w) ++ e :: text) raw scan0 args = go_on e text (escapes q w ++ [q; e]) (args ++ [w]).
Proof.
  intros Hq He Hf Hf'. destruct (ends_char e He) as (E1 & E2 & E3 & E4 & E5). cbn [word_bytes app read_text length] in *. rewrite (fits_check raw 0 Hf).
  rewrite length_app in Hf'. cbn in Hf'.
  assert (Hch : conf_char q (length args) scan0 = Next After (in_quotes q false)) by (by destruct Hq as [-> | ->]).
  rewrite Hch. cbn iota. rewrite <- app_assoc. destruct (read_quoted w q false ([q] ++ e :: text) [] args Hq) as (v & ->); [eapply fits_le; [exact Hf'|cbn; lia]|].
  cbn [app read_text]. rewrite (fits_check (escapes q w) 0) by (eapply fits_le; [exact Hf'|cbn; lia]).
  assert (Hch2 : conf_char q (length args) (in_quotes q v) = Word after_quotes) by (by destruct Hq as [-> | ->]).
  rewrite Hch2. cbn iota. rewrite copy_escaped by done. replace (q =? chr ";") with false by (by destruct Hq as [-> | ->]).
  replace (q =? chr "{") with false by (by destruct Hq as [-> | ->]).
  cbn [read_text]. rewrite (fits_check _ 0) by (eapply fits_le; [exact Hf'|rewrite length_app; cbn; lia]).
  unfold go_on. replace (escapes q w ++ [q; e]) with ((escapes q w ++ [q]) ++ [e]) by (by rewrite <- app_assoc).
  unfold conf_char, after_quotes. destruct He as [Hb|[-> | ->]]; [|done|done].
  assert (Hsemi : (e =? chr ";") = false /\ (e =? chr "{") = false).
  { unfold is_blank in Hb. rewrite !orb_true_iff, !Z.eqb_eq in Hb. split; apply Z.eqb_neq; lia. }
  destruct Hsemi as [-> ->]. destruct (e =? LF); cbn; by rewrite Hb.
Qed.

Lemma read_word x e text raw args :
  word_ok x -> ends e -> fits raw 1 -> fits [] (length (word_bytes x) + 1) ->
  exists raw', read_text limit (word_bytes x ++ e :: text) raw scan0 args = go_on e text raw' (args ++ [word_text x]) /\
    (length raw' <= length (word_bytes x) + 1)%nat.
Proof.
  intros Hx He Hf Hf'. destruct x as [w|q w]; cbn [word_ok word_text] in *.
  - destruct w as [|c w]; [by destruct Hx|]. destruct Hx as ((Hc & Hw) & Hl). exists ((c :: w) ++ [e]). split; [by apply read_plain|].
    rewrite length_app. cbn. lia.
  - exists (escapes q w ++ [q; e]). split; [by apply read_quotes|]. cbn. rewrite !length_app. cbn. lia.
Qed.

(** ** Directives *)

(** What comes behind a word. *)
Definition tail_bytes (l : list arg) (seps : list sep) (block : bool) : list Z :=
  concat (map arg_bytes l) ++ seps_bytes seps ++ [term block].

(** The lengths of the stretches from the start of a word to that of the next. *)
Fixpoint stretches (x : word) (l : list arg) (seps : list sep) : list nat :=
  match l with
  | [] => [length (word_bytes x) + length (seps_bytes seps) + 1]%nat
  | a :: l => (length (word_bytes x) + length (seps_bytes a.(a_seps)) + 1)%nat :: stretches a.(a_word) l seps
  end.

Lemma read_end block raw args text : args <> [] -> fits raw 1 ->
  read_text limit (term block :: text) raw scan0 args = (code block, args, text).
Proof.
  intros Ha Hf. cbn [read_text]. rewrite (fits_check raw 0 Hf). destruct args as [|w args]; [done|]. by destruct block.
Qed.

Lemma read_tail l : forall x seps block text raw args,
  word_ok x -> Forall (fun a => arg_ok a /\ begins_blank a.(a_seps)) l -> Forall sep_ok seps -> (seps = [] \/ begins_blank seps) ->
  fits raw 1 -> Forall (fits []) (stretches x l seps) ->
  read_text limit (word_bytes x ++ tail_bytes l seps block ++ text) raw scan0 args =
  (code block, args ++ word_text x :: map (fun a => word_text a.(a_word)) l, text).
Proof.
  induction l as [|a l IH]; intros x seps block text raw args Hx Hl Hs Hsb Hf Hst; unfold tail_bytes in *; cbn [map concat app stretches] in *.
  - apply Forall_cons in Hst as [Hst _]. destruct Hsb as [->|Hsb].
    + cbn [seps_bytes map concat app]. destruct (read_word x (term block) text raw args Hx) as (raw' & -> & _); [destruct block; unfold ends; auto|done|eapply fits_le; [exact Hst|cbn; lia]|].
      by destruct block.
    + destruct seps as [|[c|] seps]; try done. apply Forall_cons in Hs as [Hc Hs]. cbn in Hc.
      change (seps_bytes (Blank c :: seps)) with (c :: seps_bytes seps) in *. cbn [app length] in *. rewrite <- app_assoc. cbn [app].
      destruct (read_word x c (seps_bytes seps ++ term block :: text) raw args Hx) as (raw' & -> & Hr'); [by left|done|eapply fits_le; [exact Hst|cbn; lia]|].
      unfold go_on. unfold is_blank in Hc. rewrite !orb_true_iff, !Z.eqb_eq in Hc.
      rewrite (proj2 (Z.eqb_neq c (chr ";"))), (proj2 (Z.eqb_neq c (chr "{"))) by lia.
      destruct (read_seps seps raw' (term block :: text) (args ++ [word_text x]) Hs) as (raw2 & -> & Hr2); [eapply fits_le; [exact Hst|cbn; lia]|].
      apply read_end; [by destruct args|]. eapply fits_le; [exact Hst|cbn; lia].
  - apply Forall_cons in Hl as [[[Has Haw] Hab] Hl]. apply Forall_cons in Hst as [Hst1 Hst]. destruct a as [as_ aw]. cbn [a_seps a_word] in *.
    destruct as_ as [|[c|] as_]; try done. apply Forall_cons in Has as [Hc Has]. cbn in Hc.
    change (arg_bytes (Arg (Blank c :: as_) aw)) with (seps_bytes (Blank c :: as_) ++ word_bytes aw). change (seps_bytes (Blank c :: as_)) with (c :: seps_bytes as_) in *. cbn [app length] in *. rewrite <- !app_assoc. cbn [app].
    destruct (read_word x c (seps_bytes as_ ++ word_bytes aw ++ concat (map arg_bytes l) ++ seps_bytes seps ++ term block :: text) raw args Hx) as (raw' & -> & Hr');
      [by left|done|eapply fits_le; [exact Hst1|cbn; lia]|].
    unfold go_on. unfold is_blank in Hc. rewrite !orb_true_iff, !Z.eqb_eq in Hc.
    rewrite (proj2 (Z.eqb_neq c (chr ";"))), (proj2 (Z.eqb_neq c (chr "{"))) by lia.
    destruct (read_seps as_ raw' (word_bytes aw ++ concat (map arg_bytes l) ++ seps_bytes seps ++ term block :: text) (args ++ [word_text x]) Has) as (raw2 & -> & Hr2);
      [eapply fits_le; [exact Hst1|cbn; lia]|].
    specialize (IH aw seps block text raw2 (args ++ [word_text x]) Haw Hl Hs Hsb). unfold tail_bytes in IH. rewrite <- !app_assoc in IH. cbn [app] in *.
    rewrite IH; [done|eapply fits_le; [exact Hst1|cbn; lia]|done].
Qed.
(** The whole directive fits the limit. *)
Definition stmt_fits (d : stmt) : Prop :=
  fits [] (length (seps_bytes d.(st_first).(a_seps)) + 1) /\ Forall (fits []) (stretches d.(st_first).(a_word) d.(st_args) d.(st_seps)).

Lemma read_stmt d text : stmt_ok d -> stmt_fits d ->
  read_text limit (stmt_bytes d ++ text) [] scan0 [] = (code d.(st_block), stmt_words d, text).
Proof.
  intros ((Hs & Hw) & Hl & He & Hb) [Hf Hst]. unfold stmt_bytes. unfold arg_bytes at 1. rewrite <- !app_assoc.
  destruct (read_seps (a_seps (st_first d)) [] (word_bytes (a_word (st_first d)) ++ tail_bytes (st_args d) (st_seps d) (st_block d) ++ text) []) as (raw & E1 & Hr);
    [done|eapply fits_le; [exact Hf|cbn; lia]|].
  unfold tail_bytes in E1. rewrite <- !app_assoc in E1. rewrite E1.
  pose proof (read_tail (st_args d) (a_word (st_first d)) (st_seps d) (st_block d) text raw [] Hw Hl He Hb) as HT. unfold tail_bytes in HT. rewrite <- !app_assoc in HT.
  rewrite HT; [done|eapply fits_le; [exact Hf|cbn in *; lia]|done].
Qed.

(** The end of a block, and of the text. *)
Lemma read_close l text : Forall sep_ok l -> fits [] (length (seps_bytes l) + 1) ->
  read_text limit (seps_bytes l ++ chr "}" :: text) [] scan0 [] = (NGX_CONF_BLOCK_DONE, [], text).
Proof.
  intros Hl Hf. destruct (read_seps l [] (chr "}" :: text) [] Hl) as (raw & -> & Hr); [eapply fits_le; [exact Hf|cbn; lia]|].
  cbn [read_text]. rewrite (fits_check raw 0); [done|]. eapply fits_le; [exact Hf|cbn in *; lia].
Qed.

Lemma read_eof l : Forall sep_ok l -> fits [] (length (seps_bytes l)) -> read_text limit (seps_bytes l) [] scan0 [] = (NGX_CONF_FILE_DONE, [], []).
Proof.
  intros Hl Hf. rewrite <- (app_nil_r (seps_bytes l)). destruct (read_seps l [] [] [] Hl) as (raw & -> & _); [by rewrite ?app_nil_r in *|]. done.
Qed.
End reading.

(** ** From a file *)

Lemma token_of_text cf al rc args text :
  cf_ok cf -> no_oom al -> read_text (limit_of cf) (unread cf) [] scan0 [] = (rc, args, text) -> rc <> NGX_ERROR ->
  exists t, ngx_conf_read_token cf al = Some t /\ t.(t_rc) = rc /\ t.(t_args) = args /\ unread t.(t_file) = text /\ cf_ok t.(t_file) /\
    t.(t_file).(cf_fd) = cf.(cf_fd) /\ no_oom t.(t_allocs).
Proof.
  intros Hok Hal Hr Hrc. destruct (token_text cf al Hok Hal) as (t & E1 & H1). rewrite Hr in H1. destruct H1 as (H1 & H2 & H3).
  destruct (H3 Hrc) as (H4 & H5 & H6 & H7). by exists t.
Qed.

(** ** Where the words are not what was meant *)

(** A word that begins with a variable in braces is split: the dollar at its start
    does not set [variable], so the brace ends the word and opens a block. *)
Theorem leading_variable_splits :
  exists t, ngx_conf_read_token (ConfFile [] 0 (lit "${host} x;") true 1) [] = Some t /\ t.(t_rc) = NGX_CONF_BLOCK_START /\
    t.(t_args) = [lit "$"].
Proof. eexists. split; [vm_compute; reflexivity|]. split; reflexivity. Qed.

(** A comment longer than the buffer is refused as a parameter that is too long. *)
Theorem long_comment_refused :
  exists t, ngx_conf_read_token (ConfFile [] 0 (chr "#" :: replicate 4096 (chr "x") ++ [LF] ++ lit "a;") true 1) [] = Some t /\ t.(t_rc) = NGX_ERROR.
Proof. eexists. split; [vm_compute; reflexivity|]. reflexivity. Qed.
