(* ===== verification/ConfParse.v ===== *)
(** * Reading the configuration: directives ([core/ngx_conf_file.c])

    [ngx_conf_parse] reads directive after directive and [ngx_conf_handler] finds
    the command of the modules that is meant and checks its place, its end and
    the number of its arguments.  What the commands do is given by the modules:
    a command changes the state of the configuration, or reads a block or other
    files with [ngx_conf_parse]. *)

From S2P Require Import Prelude ConfToken.

(** ** Commands *)

Abbreviation NGX_CONF_BLOCK := 0x100 (only parsing).
Abbreviation NGX_CONF_FLAG := 0x200 (only parsing).
Abbreviation NGX_CONF_ANY := 0x400 (only parsing).
Abbreviation NGX_CONF_1MORE := 0x800 (only parsing).
Abbreviation NGX_CONF_2MORE := 0x1000 (only parsing).
Abbreviation NGX_CONF_MAX_ARGS := 8%nat (only parsing).
Abbreviation NGX_CONF_MODULE := 0x464E4F43 (only parsing).

(** [NGX_CONF_NOARGS], [NGX_CONF_TAKE1], ... *)
Definition argument_number : list Z := [0x1; 0x2; 0x4; 0x8; 0x10; 0x20; 0x40; 0x80].

Definition has_flag (type flag : Z) : bool := negb (Z.land type flag =? 0).

Section commands.
Context {St : Type}.

(** The part of [ngx_conf_t] that says where in the configuration we are. *)
Record conf_ctx := ConfCtx {
  module_type : Z;
  cmd_type : Z;
  conf_handler : option (list (list Z) -> St -> option St);
}.

(** What [cmd->set] does; [None] is [NGX_CONF_ERROR] or a message. A block is
    entered, read by [ngx_conf_parse] and left; [open_files] gives the contents of
    the files an [include] names. *)
Inductive setter :=
  | Simple (set : list (list Z) -> conf_ctx -> St -> option St)
  | Block (enter : list (list Z) -> conf_ctx -> St -> option (conf_ctx * St)) (leave : list (list Z) -> conf_ctx -> St -> option St)
  | Include (open_files : list (list Z) -> option (list (list Z))).

(** [ngx_command_t] and [ngx_module_t]. *)
Record command := Command { cmd_name : list Z; cmd_flags : Z; cmd_set : setter }.
Record module := Module_ { m_type : Z; m_commands : list command }.

(** The number of arguments is right. *)
Definition args_ok (type : Z) (nelts : nat) : bool :=
  if has_flag type NGX_CONF_ANY then true
  else if has_flag type NGX_CONF_FLAG then (nelts =? 2)%nat
  else if has_flag type NGX_CONF_1MORE then negb (nelts <? 2)%nat
  else if has_flag type NGX_CONF_2MORE then negb (nelts <? 3)%nat
  else if (NGX_CONF_MAX_ARGS <? nelts)%nat then false
  else match argument_number !! (nelts - 1)%nat with Some n => has_flag type n | None => false end.

(** One command of the loop: the next is tried, an error is returned, or this is
    the command. *)
Inductive verdict := Skip | Refuse | Take.

Definition judge (c : conf_ctx) (args : list (list Z)) (rc : Z) (mt : Z) (cmd : command) : verdict :=
  match args with
  | [] => Refuse
  | name :: _ =>
      if negb (beq name cmd.(cmd_name)) then Skip
      else if negb (mt =? NGX_CONF_MODULE) && negb (mt =? c.(module_type)) then Skip
      else if negb (has_flag cmd.(cmd_flags) c.(cmd_type)) then Skip
      else if negb (has_flag cmd.(cmd_flags) NGX_CONF_BLOCK) && negb (rc =? NGX_OK) then Refuse
      else if has_flag cmd.(cmd_flags) NGX_CONF_BLOCK && negb (rc =? NGX_CONF_BLOCK_START) then Refuse
      else if args_ok cmd.(cmd_flags) (length args) then Take
      else Refuse
  end.

Fixpoint find_in (c : conf_ctx) (args : list (list Z)) (rc : Z) (mt : Z) (cmds : list command) : option (option command) :=
  match cmds with
  | [] => None
  | cmd :: cmds =>
      match judge c args rc mt cmd with
      | Skip => find_in c args rc mt cmds
      | Refuse => Some None
      | Take => Some (Some cmd)
      end
  end.

(** The loops of [ngx_conf_handler]; [None] when it returns an error: the
    directive is unknown, not allowed here, or used in a wrong way. *)
Fixpoint find_command (c : conf_ctx) (args : list (list Z)) (rc : Z) (mods : list module) : option command :=
  match mods with
  | [] => None
  | m :: mods =>
      match find_in c args rc m.(m_type) m.(m_commands) with
      | Some r => r
      | None => find_command c args rc mods
      end
  end.

(** ** The parser *)

Inductive parse_type := parse_file | parse_block | parse_param.

Record parsed := Parsed { p_ok : bool; p_file : conf_file; p_allocs : allocs; p_st : St }.

(** A file is opened: a buffer is allocated for it. *)
Definition open_conf (content : list Z) : conf_file := ConfFile [] 0 content true 1.

(** The files of an [include], each with its own buffer; then the file that
    includes them goes on. *)
Fixpoint parse_files (parse : conf_file -> allocs -> St -> option parsed) (files : list (list Z)) (cf : conf_file) (al : allocs) (st : St) : option parsed :=
  match files with
  | [] => Some (Parsed true cf al st)
  | content :: files =>
      let (ok, al) := alloc al in
      if ok then
        r ← parse (open_conf content) al st;
        if r.(p_ok) then parse_files parse files cf r.(p_allocs) r.(p_st) else Some (Parsed false cf r.(p_allocs) r.(p_st))
      else Some (Parsed false cf al st)
  end.

Context (mods : list module).

Fixpoint conf_loop (fuel : nat) (type : parse_type) (c : conf_ctx) (cf : conf_file) (al : allocs) (st : St) : option parsed :=
  match fuel with
  | O => None
  | S fuel =>
      t ← ngx_conf_read_token cf al;
      let cf := t.(t_file) in
      let al := t.(t_allocs) in
      let failed := Some (Parsed false cf al st) in
      if t.(t_rc) =? NGX_ERROR then failed
      else if t.(t_rc) =? NGX_CONF_BLOCK_DONE then
        Some (Parsed (match type with parse_block => true | _ => false end) cf al st)
      else if t.(t_rc) =? NGX_CONF_FILE_DONE then
        Some (Parsed (match type with parse_block => false | _ => true end) cf al st)
      else if (t.(t_rc) =? NGX_CONF_BLOCK_START) && match type with parse_param => true | _ => false end then failed
      else
        match c.(conf_handler) with
        | Some h =>
            match h t.(t_args) st with
            | Some st => conf_loop fuel type c cf al st
            | None => failed
            end
        | None =>
            match find_command c t.(t_args) t.(t_rc) mods with
            | None => failed
            | Some cmd =>
                match cmd.(cmd_set) with
                | Simple set =>
                    match set t.(t_args) c st with
                    | Some st => conf_loop fuel type c cf al st
                    | None => failed
                    end
                | Block enter leave =>
                    match enter t.(t_args) c st with
                    | None => failed
                    | Some (c', st') =>
                        r ← conf_loop fuel parse_block c' cf al st';
                        if r.(p_ok) then
                          match leave t.(t_args) c r.(p_st) with
                          | Some st => conf_loop fuel type c r.(p_file) r.(p_allocs) st
                          | None => Some (Parsed false r.(p_file) r.(p_allocs) r.(p_st))
                          end
                        else Some r
                    end
                | Include open_files =>
                    match open_files t.(t_args) with
                    | None => failed
                    | Some files =>
                        r ← parse_files (conf_loop fuel parse_file c) files cf al st;
                        if r.(p_ok) then conf_loop fuel type c r.(p_file) r.(p_allocs) r.(p_st) else Some r
                    end
                end
            end
        end
  end.

(** [ngx_conf_parse] of a file. *)
Definition ngx_conf_parse (fuel : nat) (c : conf_ctx) (content : list Z) (al : allocs) (st : St) : option parsed :=
  parse_files (conf_loop fuel parse_file c) [content] (open_conf []) al st.

(** [ngx_conf_param]: the directives of the option -g. *)
Definition ngx_conf_param (fuel : nat) (c : conf_ctx) (param : list Z) (al : allocs) (st : St) : option parsed :=
  if (length param =? 0)%nat then Some (Parsed true (ConfFile [] 0 [] false 0) al st)
  else conf_loop fuel parse_param c (ConfFile param 0 [] false 0) al st.
End commands.

Arguments conf_ctx : clear implicits.
Arguments setter : clear implicits.
Arguments command : clear implicits.
Arguments module : clear implicits.
Arguments parsed : clear implicits.
