(* ===== verification/ConfTree.v ===== *)
(** * A configuration as a tree

    Directives and blocks as a tree, its text, and what the modules make of it;
    reading the text does that. *)

From S2P Require Import Prelude ConfToken ConfTokenRead ConfParse.

(** ** Trees and their text *)

Inductive item := Dir (d : stmt) | Blk (d : stmt) (body : list item) (close : list sep).

Fixpoint item_bytes (x : item) : list Z :=
  match x with
  | Dir d => stmt_bytes d
  | Blk d body close => stmt_bytes d ++ concat (map item_bytes body) ++ seps_bytes close ++ [chr "}"]
  end.

Definition items_bytes (l : list item) : list Z := concat (map item_bytes l).

(** A statement that a file can hold: no word, with what comes behind it, is longer than the buffer. *)
Definition stmt_wf (block : bool) (d : stmt) : Prop := stmt_ok d /\ d.(st_block) = block /\ stmt_fits (Some NGX_CONF_BUFFER) d.

Definition seps_wf (l : list sep) : Prop := Forall sep_ok l /\ (length (seps_bytes l) < NGX_CONF_BUFFER)%nat.

Fixpoint item_wf (x : item) : Prop :=
  match x with
  | Dir d => stmt_wf false d
  | Blk d body close => stmt_wf true d /\ foldr (fun y P => item_wf y /\ P) True body /\ seps_wf close
  end.

Definition items_wf (l : list item) : Prop := foldr (fun y P => item_wf y /\ P) True l.

(** The number of tokens. *)
Fixpoint item_size (x : item) : nat :=
  match x with Dir _ => 1 | Blk _ body _ => 2 + list_sum (map item_size body) end%nat.

Definition items_size (l : list item) : nat := list_sum (map item_size l).

(** Induction on trees. *)
Lemma items_ind (P : list item -> Prop) :
  P [] -> (forall d l, P l -> P (Dir d :: l)) -> (forall d body close l, P body -> P l -> P (Blk d body close :: l)) -> forall l, P l.
Proof.
  intros Hn Hd Hb.
  assert (Hi : forall x l, P l -> P (x :: l)).
  { fix IH 1. intros [d|d body close] l Hl; [by apply Hd|]. apply Hb; [|done]. induction body as [|y body IHb]; [done|]. by apply IH. }
  induction l as [|x l IHl]; [done|by apply Hi].
Qed.

Lemma length_size l : (length l <= items_size l)%nat.
Proof.
  induction l as [|x l IH]; [done|]. change (items_size (x :: l)) with (item_size x + items_size l)%nat. cbn [length].
  assert (1 <= item_size x)%nat by (destruct x; cbn; lia). lia.
Qed.

(** ** What a tree means *)

Section meaning.
Context {St : Type} (mods : list (module St)).

Fixpoint run_item (c : conf_ctx St) (x : item) (st : St) : option St :=
  match x with
  | Dir d =>
      match c.(conf_handler) with
      | Some h => h (stmt_words d) st
      | None =>
          cmd ← find_command c (stmt_words d) NGX_OK mods;
          match cmd.(cmd_set) with
          | Simple set => set (stmt_words d) c st
          | _ => None
          end
      end
  | Blk d body _ =>
      match c.(conf_handler) with
      | Some _ => None
      | None =>
          cmd ← find_command c (stmt_words d) NGX_CONF_BLOCK_START mods;
          match cmd.(cmd_set) with
          | Block enter leave =>
              '(c', st) ← enter (stmt_words d) c st;
              st ← foldl (fun st y => st ≫= run_item c' y) (Some st) body;
              leave (stmt_words d) c st
          | _ => None
          end
      end
  end.

Definition run_items (c : conf_ctx St) (l : list item) (st : St) : option St := foldl (fun st y => st ≫= run_item c y) (Some st) l.

Lemma run_cons c x l st : run_items c (x :: l) st = run_item c x st ≫= run_items c l.
Proof.
  unfold run_items. cbn. destruct (run_item c x st) as [st'|]; [done|]. cbn. induction l as [|y l IH]; [done|]. exact IH.
Qed.

(** ** Reading it *)

(** A file with the text [text] unread. *)
Record reads_on (cf : conf_file) (al : allocs) (text : list Z) : Prop := {
  ro_ok : cf_ok cf;
  ro_fd : cf.(cf_fd) = true;
  ro_mem : no_oom al;
  ro_text : unread cf = text;
}.

Lemma next_token cf al text rc args text' :
  reads_on cf al text -> read_text (Some NGX_CONF_BUFFER) text [] scan0 [] = (rc, args, text') -> rc <> NGX_ERROR ->
  exists t, ngx_conf_read_token cf al = Some t /\ t.(t_rc) = rc /\ t.(t_args) = args /\ reads_on t.(t_file) t.(t_allocs) text'.
Proof.
  intros [H1 H2 H3 <-] Hr Hrc. destruct (token_of_text cf al rc args text' H1 H3) as (t & E1 & E2 & E3 & E4 & E5 & E6 & E7);
    [unfold limit_of; by rewrite H2|done|]. exists t. split; [done|]. split; [done|]. split; [done|]. constructor; congruence.
Qed.

Lemma token_stmt cf al d block text : stmt_wf block d -> reads_on cf al (stmt_bytes d ++ text) ->
  exists t, ngx_conf_read_token cf al = Some t /\ t.(t_rc) = code block /\ t.(t_args) = stmt_words d /\ reads_on t.(t_file) t.(t_allocs) text.
Proof.
  intros (H1 & <- & H3) H. eapply next_token; [exact H|by apply read_stmt|]. by destruct (st_block d).
Qed.

Lemma items_read l : forall c st st' type cf al text fuel,
  items_wf l -> run_items c l st = Some st' -> reads_on cf al (items_bytes l ++ text) -> type <> parse_param -> (items_size l <= fuel + length l)%nat ->
  exists cf' al', conf_loop mods (fuel + length l) type c cf al st = conf_loop mods fuel type c cf' al' st' /\ reads_on cf' al' text.
Proof.
  induction l as [|d l IH|d body close l IHb IH] using items_ind; intros c st st' type cf al text fuel Hwf Hrun Hcf Hty Hf.
  - cbn in *. injection Hrun as <-. exists cf, al. by rewrite Nat.add_0_r.
  - destruct Hwf as [Hd Hwf]. change (items_bytes (Dir d :: l)) with (stmt_bytes d ++ items_bytes l) in Hcf. rewrite <- app_assoc in Hcf.
    rewrite run_cons in Hrun. destruct (run_item c (Dir d) st) as [st1|] eqn:E1; [|done]. cbn [mbind option_bind] in Hrun.
    destruct (token_stmt _ _ _ _ _ Hd Hcf) as (t & Et & Hrc & Ha & Hcf'). cbn [length]. rewrite Nat.add_succ_r. cbn [conf_loop]. rewrite Et. cbn [mbind option_bind].
    rewrite Hrc, Ha. change (code false) with NGX_OK. cbn [Z.eqb andb]. cbn in E1.
    destruct (IH c st1 st' type (t_file t) (t_allocs t) text fuel Hwf Hrun Hcf' Hty) as (cf' & al' & E2 & H2); [change (items_size (Dir d :: l)) with (1 + items_size l)%nat in Hf; cbn [length] in Hf; lia|].
    exists cf', al'. split; [|done]. rewrite <- E2. destruct (conf_handler c) as [h|]; [by rewrite E1|].
    destruct (find_command c (stmt_words d) NGX_OK mods) as [cmd|]; [|done]. cbn in E1. destruct (cmd_set cmd); [|done|done]. by rewrite E1.
  - destruct Hwf as [(Hd & Hbody & Hclose & Hcl) Hwf].
    change (items_bytes (Blk d body close :: l)) with ((stmt_bytes d ++ items_bytes body ++ seps_bytes close ++ [chr "}"]) ++ items_bytes l) in Hcf.
    rewrite <- !app_assoc in Hcf. rewrite run_cons in Hrun. destruct (run_item c (Blk d body close) st) as [st1|] eqn:E1; [|done]. cbn [mbind option_bind] in Hrun.
    destruct (token_stmt _ _ _ _ _ Hd Hcf) as (t & Et & Hrc & Ha & Hcf'). cbn [length]. rewrite Nat.add_succ_r. cbn [conf_loop]. rewrite Et. cbn [mbind option_bind].
    rewrite Hrc, Ha. change (code true) with NGX_CONF_BLOCK_START. cbn [Z.eqb Pos.eqb andb]. replace (match type with parse_param => true | _ => false end) with false by (by destruct type).
    cbn in E1. destruct (conf_handler c) as [h|]; [done|]. destruct (find_command c (stmt_words d) NGX_CONF_BLOCK_START mods) as [cmd|]; [|done]. cbn in E1.
    destruct (cmd_set cmd) as [|enter leave|]; try done. destruct (enter (stmt_words d) c st) as [[c' st2]|]; [|done]. cbn [mbind option_bind] in E1.
    fold (run_items c' body st2) in E1. destruct (run_items c' body st2) as [st3|] eqn:E3; [|done]. cbn [mbind option_bind] in E1.
    assert (Hsz : (2 + items_size body + items_size l <= S (fuel + length l))%nat) by (change (items_size (Blk d body close :: l)) with (2 + items_size body + items_size l)%nat in Hf; cbn [length] in Hf; lia).
    pose proof (length_size body). pose proof (length_size l).
    destruct (IHb c' st2 st3 parse_block (t_file t) (t_allocs t) (seps_bytes close ++ [chr "}"] ++ items_bytes l ++ text) (fuel + length l - length body)%nat Hbody E3 Hcf') as (cf4 & al4 & E4 & H4);
      [done|lia|].
    replace (fuel + length l - length body + length body)%nat with (fuel + length l)%nat in E4 by lia. rewrite E4.
    destruct (fuel + length l - length body)%nat as [|g] eqn:Eg; [lia|]. cbn [conf_loop].
    destruct (next_token cf4 al4 _ NGX_CONF_BLOCK_DONE [] (items_bytes l ++ text) H4) as (t5 & E5 & Hrc5 & _ & H5); [apply read_close; [done|cbn; lia]|done|].
    rewrite E5. cbn [mbind option_bind]. rewrite Hrc5. cbn [Z.eqb Pos.eqb mbind option_bind p_ok p_st p_file p_allocs]. rewrite E1.
    destruct (IH c st1 st' type (t_file t5) (t_allocs t5) text fuel Hwf Hrun H5 Hty) as (cf' & al' & E6 & H6); [lia|]. exists cf', al'. by rewrite E6.
Qed.
End meaning.

(** ** A whole file *)

Lemma stmt_length d : (1 <= length (stmt_bytes d))%nat.
Proof. unfold stmt_bytes. rewrite !length_app. cbn. lia. Qed.

Lemma size_bytes l : (items_size l <= length (items_bytes l))%nat.
Proof.
  induction l as [|d l IH|d body close l IHb IH] using items_ind; [done|..].
  - change (items_size (Dir d :: l)) with (1 + items_size l)%nat. change (items_bytes (Dir d :: l)) with (stmt_bytes d ++ items_bytes l).
    rewrite length_app. pose proof (stmt_length d). lia.
  - change (items_size (Blk d body close :: l)) with (2 + items_size body + items_size l)%nat.
    change (items_bytes (Blk d body close :: l)) with ((stmt_bytes d ++ items_bytes body ++ seps_bytes close ++ [chr "}"]) ++ items_bytes l).
    rewrite !length_app. pose proof (stmt_length d). cbn. lia.
Qed.

Lemma conf_text_read {St} (mods : list (module St)) c l tail st st' al fuel :
  items_wf l -> seps_wf tail -> run_items mods c l st = Some st' -> no_oom al -> (length (items_bytes l ++ seps_bytes tail) < fuel)%nat ->
  exists r, ngx_conf_parse mods fuel c (items_bytes l ++ seps_bytes tail) al st = Some r /\ r.(p_ok) = true /\ r.(p_st) = st'.
Proof.
  intros Hwf [Ht Htl] Hrun Hal Hf. unfold ngx_conf_parse. cbn [parse_files]. destruct (no_oom_alloc al Hal) as (al1 & -> & Hal1).
  pose proof (size_bytes l). pose proof (length_size l). rewrite length_app in Hf.
  assert (Hcf : reads_on (open_conf (items_bytes l ++ seps_bytes tail)) al1 (items_bytes l ++ seps_bytes tail)).
  { constructor; [constructor; cbn; lia|done|done|done]. }
  destruct (items_read mods l c st st' parse_file _ al1 (seps_bytes tail) (fuel - length l)%nat Hwf Hrun Hcf) as (cf' & al' & E1 & H1); [done|lia|].
  replace (fuel - length l + length l)%nat with fuel in E1 by lia. rewrite E1.
  destruct (fuel - length l)%nat as [|g] eqn:Eg; [lia|]. cbn [conf_loop].
  destruct (next_token cf' al' _ NGX_CONF_FILE_DONE [] [] H1) as (t & E2 & Hrc & _); [apply read_eof; [done|cbn; lia]|done|].
  rewrite E2. cbn [mbind option_bind]. rewrite Hrc. cbn. eexists. split; [done|]. done.
Qed.

(** ** Theorems *)

(** Words in double quotes, one blank between them. *)
Definition quoted_stmt (name : list Z) (args : list (list Z)) (block : bool) : stmt :=
  Stmt (Arg [] (Quoted 34 name)) (map (fun w => Arg [Blank (chr " ")] (Quoted 34 w)) args) [] block.

Lemma quoted_ok name args block : stmt_ok (quoted_stmt name args block).
Proof.
  split; [by split; [constructor|left]|]. split; [|split; [constructor|by left]]. apply Forall_map, Forall_forall. intros w _.
  split; [|done]. split; [by repeat constructor|by left].
Qed.

(** The lengths, by computation. *)
Definition stmt_fitsb (d : stmt) : bool :=
  forallb (fun n => n <=? NGX_CONF_BUFFER)%nat
    ((length (seps_bytes d.(st_first).(a_seps)) + 1)%nat :: stretches d.(st_first).(a_word) d.(st_args) d.(st_seps)).

Lemma stmt_fitsb_ok d : stmt_fitsb d = true -> stmt_fits (Some NGX_CONF_BUFFER) d.
Proof.
  unfold stmt_fitsb. intros H. rewrite forallb_forall in H. split; [by apply Nat.leb_le, H; left|].
  apply Forall_forall. intros n Hn. apply Nat.leb_le, H. right. by apply list_elem_of_In.
Qed.

Lemma quoted_wf name args block : stmt_fitsb (quoted_stmt name args block) = true -> stmt_wf block (quoted_stmt name args block).
Proof. intros H. split; [apply quoted_ok|]. split; [done|by apply stmt_fitsb_ok]. Qed.

(** A module with a block and a command that records its arguments. *)
Definition recorder : module (list (list (list Z))) :=
  Module_ NGX_CONF_MODULE
    [Command (lit "outer") (0x01000000 + NGX_CONF_BLOCK + 0x1)
       (Block (fun args c st => Some (ConfCtx c.(module_type) 0x02000000 None, st ++ [args])) (fun args c st => Some (st ++ [[]])));
     Command (lit "say") (0x02000000 + NGX_CONF_ANY) (Simple (fun args _ st => Some (st ++ [args])))].

Definition sample_items : list item :=
  [Blk (quoted_stmt (lit "outer") [] true) [Dir (quoted_stmt (lit "say") [lit "a;b"; lit "c{"] false)] [Comment (lit " end "); Blank LF]].

Lemma sample_items_wf : items_wf sample_items.
Proof.
  split; [|exact I]. split; [apply quoted_wf; vm_compute; reflexivity|].
  split; [split; [apply quoted_wf; vm_compute; reflexivity|exact I]|]. split.
  - repeat constructor. cbn. set_solver.
  - apply Nat.ltb_lt. vm_compute. reflexivity.
Qed.

(** C32: reading the text of a configuration does what the configuration says. A tree of
    directives and blocks is written with blanks and comments anywhere between
    the words and with any word in quotes; if running the commands of the
    modules on the tree succeeds, the parser of the core reads the text without
    error and ends in the same state. *)
Theorem conf_text_means {St} (mods : list (module St)) (c : conf_ctx St) (l : list item) (tail : list sep) (st st' : St) (al : allocs) (fuel : nat) :
  items_wf l -> seps_wf tail -> run_items mods c l st = Some st' -> no_oom al -> (length (items_bytes l ++ seps_bytes tail) < fuel)%nat ->
  exists r, ngx_conf_parse mods fuel c (items_bytes l ++ seps_bytes tail) al st = Some r /\ r.(p_ok) = true /\ r.(p_st) = st'.
Proof. apply conf_text_read. Qed.

Lemma conf_text_means_witness :
  exists r, ngx_conf_parse [recorder] 100 (ConfCtx 0 0x01000000 None) (items_bytes sample_items ++ []) [] [] = Some r /\ r.(p_ok) = true /\
    r.(p_st) = [[lit "outer"]; [lit "say"; lit "a;b"; lit "c{"]; []].
Proof.
  apply (conf_text_means [recorder] (ConfCtx 0 0x01000000 None) sample_items [] [] _ [] 100).
  - exact sample_items_wf.
  - split; [constructor|]. apply Nat.ltb_lt. vm_compute. reflexivity.
  - vm_compute. reflexivity.
  - constructor.
  - apply Nat.ltb_lt. vm_compute. reflexivity.
Defined.
