(* ===== verification/NewLogText.v ===== *)
(** * The configuration of the log module, from its text

    The table of commands of the log module, and the path from the text of a
    configuration file through the reader of the core to the module's handlers. *)

From S2P Require Import Prelude NgxVariables NewLogFormat NewLogHandler NewLogConf ConfToken ConfTokenRead ConfParse ConfTree.

(** ** Commands *)

Abbreviation NGX_HTTP_MODULE := 0x50545448 (only parsing).
Abbreviation NGX_HTTP_MAIN_CONF := 0x02000000 (only parsing).
Abbreviation NGX_HTTP_SRV_CONF := 0x04000000 (only parsing).
Abbreviation NGX_HTTP_LOC_CONF := 0x08000000 (only parsing).
Abbreviation NGX_HTTP_LIF_CONF := 0x40000000 (only parsing).
Abbreviation NGX_HTTP_LMT_CONF := 0x80000000 (only parsing).

(** The configuration of the location and that of the module. *)
Definition log_conf : Type := loc_conf * conf_st.

Definition set_log_conf (directive_of : list (list Z) -> directive) : setter log_conf :=
  Simple (fun args _ '(llcf, c) =>
    match conf_directive (directive_of args) llcf c with
    | Some (NGX_CONF_OK, llcf, c) => Some (llcf, c)
    | _ => None
    end).

Definition ngx_new_log_commands : list (command log_conf) :=
  [Command (lit "new_log_format") (NGX_HTTP_MAIN_CONF + NGX_HTTP_SRV_CONF + NGX_HTTP_LOC_CONF + NGX_CONF_2MORE) (set_log_conf DFormat);
   Command (lit "new_access_log")
     (NGX_HTTP_MAIN_CONF + NGX_HTTP_SRV_CONF + NGX_HTTP_LOC_CONF + NGX_HTTP_LIF_CONF + NGX_HTTP_LMT_CONF + NGX_CONF_1MORE) (set_log_conf DLog);
   Command (lit "new_open_log_file_cache") (NGX_HTTP_MAIN_CONF + NGX_HTTP_SRV_CONF + NGX_HTTP_LOC_CONF + (0x2 + 0x4 + 0x8 + 0x10)) (set_log_conf DCache);
   Command (lit "new_kafka_brokers") (NGX_HTTP_MAIN_CONF + NGX_CONF_1MORE) (set_log_conf DBrokers)].

Definition ngx_new_log_module : module log_conf := Module_ NGX_HTTP_MODULE ngx_new_log_commands.

(** In the block [http]. *)
Definition http_main : conf_ctx log_conf := ConfCtx NGX_HTTP_MODULE NGX_HTTP_MAIN_CONF None.

(** ** Directives and their text *)

Definition directive_value (d : directive) : list (list Z) :=
  match d with DFormat v | DLog v | DBrokers v | DCache v => v end.

Definition command_of (d : directive) : option (command log_conf) :=
  ngx_new_log_commands !! (match d with DFormat _ => 0 | DLog _ => 1 | DCache _ => 2 | DBrokers _ => 3 end)%nat.

(** The directive begins with the name of its command and has as many arguments
    as it takes. *)
Definition directive_named (d : directive) : Prop :=
  match command_of d with
  | Some cmd => head (directive_value d) = Some cmd.(cmd_name) /\ args_ok cmd.(cmd_flags) (length (directive_value d)) = true
  | None => False
  end.

Definition log_names : list (list Z) := map cmd_name ngx_new_log_commands.

(** No other module before it has commands of these names. *)
Definition silent (m : module log_conf) : Prop := Forall (fun cmd => ~ cmd.(cmd_name) ∈ log_names) m.(m_commands).

Definition writes (s : stmt) (d : directive) : Prop := stmt_wf false s /\ stmt_words s = directive_value d /\ directive_named d.

Lemma find_silent c name args rc m : silent m -> name ∈ log_names -> find_in c (name :: args) rc m.(m_type) m.(m_commands) = None.
Proof.
  intros Hs Hn. unfold silent in Hs. induction Hs as [|cmd cmds Hc Hs IH]; [done|]. cbn [find_in judge].
  destruct (beq name (cmd_name cmd)) eqn:E; [apply beq_eq in E; congruence|]. exact IH.
Qed.

Lemma find_directive d before after : directive_named d -> Forall silent before ->
  find_command http_main (directive_value d) NGX_OK (before ++ ngx_new_log_module :: after) = command_of d.
Proof.
  intros Hd Hb. unfold directive_named in Hd. destruct (command_of d) as [cmd|] eqn:Ec; [|done]. destruct Hd as [Hh Ha].
  destruct (directive_value d) as [|name args] eqn:Ev; [done|]. injection Hh as ->.
  assert (Hin : cmd_name cmd ∈ log_names) by (apply list_elem_of_fmap; exists cmd; split; [done|]; by eapply list_elem_of_lookup_2).
  induction Hb as [|m before Hm Hb IH].
  - cbn [app find_command].
    destruct d; injection Ec as <-; cbn [cmd_name cmd_flags] in *; cbn [find_in m_commands m_type ngx_new_log_module ngx_new_log_commands];
      unfold judge; cbn [cmd_name cmd_flags length] in *; rewrite Ha; reflexivity.
  - cbn [app find_command]. rewrite find_silent by done. exact IH.
Qed.

Lemma run_writes before after stmts ds : Forall2 writes stmts ds -> Forall silent before -> forall llcf c llcf' c',
  conf_run ds llcf c = Some (NGX_CONF_OK, llcf', c') ->
  run_items (before ++ ngx_new_log_module :: after) http_main (map Dir stmts) (llcf, c) = Some (llcf', c').
Proof.
  intros Hw Hb. induction Hw as [|s d stmts ds (Hs & Hv & Hd) Hw IH]; intros llcf c llcf' c' Hr; [by injection Hr as <- <-|].
  cbn [map]. rewrite run_cons. cbn [conf_run] in Hr. destruct (conf_directive d llcf c) as [[[res llcf1] c1]|] eqn:E1; [|done].
  cbn [run_item conf_handler http_main]. rewrite Hv, (find_directive d before after Hd Hb).
  destruct res; try done. assert (Hset : exists cmd, command_of d = Some cmd /\ cmd_set cmd = set_log_conf (match d with DFormat _ => DFormat | DLog _ => DLog | DCache _ => DCache | DBrokers _ => DBrokers end))
    by (by destruct d; eexists).
  destruct Hset as (cmd & -> & Hset). cbn [mbind option_bind]. rewrite Hset. unfold set_log_conf.
  replace (conf_directive _ llcf c) with (conf_directive d llcf c) by (by destruct d). rewrite E1. cbn [mbind option_bind]. by apply IH.
Qed.

Lemma writes_wf stmts ds : Forall2 writes stmts ds -> items_wf (map Dir stmts).
Proof. induction 1 as [|s d stmts ds (Hs & _) Hw IH]; [done|]. by split. Qed.

(** ** Theorems *)

(** C31: the directives of the log module are read from the text of a configuration. Written
    in the block [http], in the syntax of the configuration and behind modules that
    do not use their names, directives that the module's handlers accept are
    read without error, and the module is configured as if the handlers were
    called one after the other. *)
Theorem new_log_text_configures (before after : list (module log_conf)) (stmts : list stmt) (ds : list directive) (tail : list sep)
    (llcf llcf' : loc_conf) (c c' : conf_st) (al : allocs) (fuel : nat) :
  Forall silent before -> Forall2 writes stmts ds -> seps_wf tail -> conf_run ds llcf c = Some (NGX_CONF_OK, llcf', c') -> no_oom al ->
  (length (items_bytes (map Dir stmts) ++ seps_bytes tail) < fuel)%nat ->
  exists r, ngx_conf_parse (before ++ ngx_new_log_module :: after) fuel http_main (items_bytes (map Dir stmts) ++ seps_bytes tail) al (llcf, c) = Some r /\
    r.(p_ok) = true /\ r.(p_st) = (llcf', c').
Proof.
  intros Hb Hw Ht Hr Hal Hf. apply conf_text_read; try done; [by eapply writes_wf|by apply (run_writes before after stmts ds)].
Qed.

(** The directives of [sample_directives] as text. *)
Definition sample_stmts : list stmt :=
  map (fun d => match directive_value d with name :: args => quoted_stmt name args false | [] => quoted_stmt [] [] false end) sample_directives.

Lemma sample_writes : Forall2 writes sample_stmts sample_directives.
Proof.
  unfold sample_stmts. repeat (apply Forall2_cons; split; [split; [apply quoted_wf; vm_compute; reflexivity|split; [reflexivity|split; vm_compute; reflexivity]]|]).
  constructor.
Qed.

Lemma new_log_text_configures_witness :
  exists r, ngx_conf_parse [ngx_new_log_module] 1000 http_main (items_bytes (map Dir sample_stmts) ++ []) [] (blank_loc, main_conf) = Some r /\
    r.(p_ok) = true /\ r.(p_st) = (sample_loc, sample_conf).
Proof.
  apply (new_log_text_configures [] [] sample_stmts sample_directives [] blank_loc sample_loc main_conf sample_conf [] 1000).
  - constructor.
  - exact sample_writes.
  - split; [constructor|]. apply Nat.ltb_lt. vm_compute. reflexivity.
  - vm_compute. reflexivity.
  - constructor.
  - apply Nat.ltb_lt. vm_compute. reflexivity.
Defined.
